(* ===== verification/_CoqProject ===== *)
-Q . S2P
Prelude.v
GoStrings.v
GoText.v
Json.v
Floats.v
Numbers.v
Condition.v
Context.v
Uuid.v
Evaluate.v
Snapshot.v
PermissionService.v
Users.v
PolicyStore.v
Metadata.v
Schema.v
Router.v
Payload.v
Workflow.v
AuditTrail.v
Sql.v
ConditionSql.v
Jql.v
Planner.v
Records.v
Times.v
Crud.v
CrudOutcomes.v
CrudProps.v
CrudState.v
CrudReads.v
Aggregate.v
Authn.v
OAuth.v
OAuthRoutes.v
OAuthProps.v
SchemaDiff.v
Catalog.v
CatalogProps.v
Orchestrator.v
Backfill.v
Migration.v
Executor.v
Cron.v
Outbound.v
CronScheduler.v
CronRoutes.v
CronExamples.v
CronProps.v
OutboundProps.v
CronAdmin.v
Wire.v
Grpc.v
GrpcProps.v
RestRecords.v
Config.v
ConfigProps.v
Sessions.v
ConfigRoutes.v
AdminRoutes.v
Events.v
EventsProps.v
Tenants.v
TenantsProps.v
Attachments.v
AttachmentsProps.v
Dashboards.v
Migrate.v
Base64.v
Jwks.v
Login.v
HttpRuntime.v
Caches.v
Boot.v
SecretStores.v
ServiceToken.v
ConsentPage.v
GrpcAggregate.v
MetadataDocs.v
DevTools.v
