(* ===== verification/Prelude.v ===== *)
(** * Metap: a verification development of the record platform

    Metap (src/go) is a multi-tenant platform for business records. An entity
    is described by metadata (fields, list views, a workflow); who may do what
    is decided by policies stored as rows; records live in one Postgres table
    per entity, which a reconciler creates and changes; every change of a record
    goes through one service, reached over HTTP or gRPC with a token of the
    platform's own OAuth2 server or of a session; scheduled jobs act on records
    and on the outside. This library models the parts of the Go code that carry
    these decisions and proves them correct. The files depend on each other in
    the order of _CoqProject.

    ** The parts, and the files that model them

    - Prelude: results of Go calls ([result]: a value, an error or a panic),
      their sequencing [let!], grouping of a list by a key, list lemmas.
    - GoStrings, GoText, Json, Floats, Numbers, Times: what the code uses of the
      Go standard library: UTF-8 and package strings; encoding/json over the
      documents it handles, with float64 as IEEE 754 binary64; strconv's shortest
      decimal printing and its integers; RFC 3339 instants.
    - Condition, Context, Evaluate (src/go/permission/condition.go, context.go,
      evaluate.go, resolve.go): policy conditions and their JSON form, the
      caller, OAuth2 scopes, evaluation of a condition, of a row and of a set
      of rows.
    - Snapshot, PermissionService, PolicyStore (permissionsnapshot.go,
      policyexplainer.go, permissionservice.go, src/go/control/policystore.go):
      the checks on a loaded set of policies, the service over the class
      [PolicyStore] with the law its checks rely on, the optional cache, and the
      Postgres store, which is proved to satisfy the law.
    - Metadata (src/go/metadata/entity.go, computed.go, compiler.go,
      registry.go): definitions, computed-field templates, the structural
      validation and the registry.
    - Router (src/go/control/tenant.go, router.go): the routing decision of a
      tenant and the one statement whose text comes from stored data.
    - Payload (src/go/crud/validation.go and parts of helpers.go): the payload
      validator, computed fields, system fields.
    - Workflow (src/go/workflow/workflow.go, src/go/infra/outbox.go):
      transitions, guards, the ledger of workflow events, outbox events.
    - AuditTrail (src/go/audit): diffs, redaction, the audit store.
    - Sql, ConditionSql, Jql, Planner, Aggregate (src/go/query): the builder of
      bind parameters, conditions as SQL, the query language (tokens, grammar,
      code generation), the planner of keyset-paginated lists and the planner of
      aggregations. SQL is a tree of the fragments the code concatenates;
      [render] is its text and [holds] its meaning in three-valued logic.
    - Records, Crud (src/go/crud): rows, statements, results, and the handlers
      Create, Update, Transition, Delete, Get, GetMany, List, Aggregate,
      SetSystemFields, CheckRecordPermission and ListAuditEvents, each whole. A
      handler is a state transformer over the [World] that can also be refused or
      fail; the later components reuse the handler monad with states of their own.
      CrudOutcomes has the logic of outcomes the proofs use, CrudProps,
      CrudState and CrudReads the theorems.
    - Schema, SchemaDiff, Catalog, Orchestrator, Backfill, Migration, Executor
      (src/go/reconciler): the physical schema an entity compiles to, the ordered
      difference to what introspection reads from the catalogue, the queue of
      deployments and its waves, checkpointed backfills and copies, declared
      changes of the data with their quarantine, and the run of a plan under
      failures. CatalogProps has the convergence theorem.
    - Authn, Users, Sessions (src/go/peripherals, src/go/tenantauth,
      src/go/httpserver/auth.go, routes_auth.go, cookies.go, src/go/grpcapi/auth.go):
      tokens, the users table, the password login and the sliding session, and the
      request context every transport builds from a token.
    - OAuth, OAuthRoutes, OAuthProps (src/go/oauthserver,
      src/go/httpserver/routes_oauth2.go): clients, codes, refresh chains,
      consents, the sweep, and the endpoints.
    - Cron, Outbound, CronScheduler, CronRoutes (src/go/cron,
      src/go/cronscheduler, src/go/httpserver/routes_cron.go): jobs, their runs and
      chains of steps, the guard on webhook targets, the scheduler process and the
      administration. CronExamples has a concrete environment; CronProps,
      OutboundProps and CronAdmin the theorems.
    - Wire, Grpc, GrpcProps (src/go/grpcapi): documents as protobuf structures,
      the record service over any backend, and the backend that calls it.
    - RestRecords (src/go/httpserver/routes_records.go): the same backend over
      HTTP.
    - Config, ConfigProps, ConfigRoutes (src/go/config,
      src/go/httpserver/routes_platform_config.go, routes_tenant_config.go): typed
      settings of the platform and of each tenant.
    - AdminRoutes (src/go/httpserver/routes_admin.go): users, roles and policies
      of a tenant.
    - Events, EventsProps (src/go/infra/eventbus, src/go/outboxpublisher,
      src/go/notificationworker): topics, deliveries and retries, the consumer that
      reconnects, the publisher of the outbox and the worker behind it.
    - Tenants, TenantsProps (src/go/control/registry.go, cache.go, router.go,
      tenantschema.go, provisioning.go): the registry, the pools a tenant is reached
      through, and provisioning over databases with schemas and search paths.
    - Attachments, AttachmentsProps (src/go/storage, src/go/attachments,
      routes_attachments.go): files of records in a bucket and in a table.
    - Dashboards (src/go/dashboards, preferences, and the routes of
      a record's history).
    - Migrate (src/go/dbmigrate): the runner of migration files.
    - Base64, Jwks (src/go/jwks): signing keys, their rotation, the
      published set and the client that verifies with it.
    - Login (src/go/tenantauth/oidc.go, oauth2login.go): logins through an external
      identity provider.
    - HttpRuntime (src/go/runtime): request ids, trace contexts,
      security headers, the writer that patches errors, cross-origin requests and
      rate limits. ServiceToken (servicetoken.go): the token of a service's own
      account. Boot (env.go, src/go/infra/config.go,
      src/go/control/secretstorefactory.go): the configuration.
    - Caches (src/go/cache): the class [Cache] of the permission service with its
      laws, and its two implementations. SecretStores (src/go/control/secretstore.go,
      vaultstore.go, the AWS and GCP stores): one class with its laws, and its four
      implementations.
    - ConsentPage (routes_oauth2.go): the consent page as a browser gets it.
    - GrpcAggregate (src/go/grpcapi): aggregations over gRPC.
    - MetadataDocs (src/go/metadata/entity.go, registry.go,
      openapi.go): definitions as JSON, their hash, and the OpenAPI document.
    - DevTools (src/go/cmd/dev-tools): the operator's commands on users, tenants,
      hostnames, credentials and tokens.

    ** What the theorems show

    - Policies: a matching deny wins over every allow and the order of the rows
      is irrelevant; without an allow nothing is permitted; masking and write
      checks are exact; a snapshot decides what the service decides; conditions
      survive their JSON encoding.
    - Lists: the SQL filter of string conditions selects exactly the records
      the evaluator would let the caller read; the parameters a filter binds
      are those it refers to; user text never reaches the SQL text; the parser
      of the query language is total and inverts the printer; walking the pages
      visits every row once; an aggregation counts readable rows only.
    - Metadata and workflow: what an accepted definition guarantees; the
      registry keeps only accepted definitions; separation of duties through
      the ledger.
    - Records: for any interleaving of the committed writes of all sessions,
      optimistic locking loses no write whose caller expected a version it
      could read, transitions follow the workflow, a delete leaves no reference
      behind; every call is atomic and stays in its tenant; the status column
      mirrors the workflow state in every database that calls reach one after
      the other; what Get offers is what the writes check; the audit trail
      shows only fields that are readable in every state.
    - Schemas: one pass of the reconciler brings any table to its desired schema,
      and a run repeated after failures does too; a unique field is enforced; no
      two workers hold one deployment.
    - Tokens: an OAuth2 token can do no more than its scope and what it was issued
      from; a code is redeemed once; a replayed refresh token ends its chain; a
      login opens a session the next request is authenticated with.
    - Jobs: a redelivered firing does nothing twice; a chain goes on after the
      event it waits for; a due job is claimed once; whatever the administration
      accepts the scheduler can run; blocked addresses are exactly the listed
      networks, and only checked targets receive a webhook.
    - Transports: a remote backend answers as the backend behind it; both
      transports read a list request alike.
    - Settings: in every state writes reach, numeric settings are within their
      bounds for every tenant; a tenant's write takes effect.
    - Administration: what an administrator does stays in the tenant, and the
      creation of a user is all or nothing.
    - Tenants: a provisioned tenant works, and every tenant the registry shows has a
      complete schema, whatever failed on the way.
    - Messages and files: an outbox event is delivered; migrations run once and in
      order; a request for a file stays within its tenant and record.
    - Keys and tokens of services: through every rotation the signing key is
      published, a client accepts what it signs and no retired key beyond its
      lifetime; a service that logged in keeps a token its upstream accepts through
      outages.
    - Interfaces: both caches and all secret stores keep the laws their clients are
      proved against; every response carries its ids and security headers; a trace
      survives its hops; a remote aggregation is the local one; the summary of an
      entity is a document of the published schema.
    - Where the code does not do what it says, a theorem exhibits it: the race
      of Update with a transition, capabilities computed on an enriched record,
      the list filter on values that are not strings, the policy cache that
      never hits, the panic on a condition without a value, index names that
      collide, concurrent refreshes that both succeed, a token endpoint that
      drops its caller's scope, a consent page whose script the server's own policy
      blocks, a setting under which a service's token expires between refreshes, and
      more.

    ** Bounds and fuel

    The JQL lexer has one unit of fuel per rune and the parser one more than
    there are tokens; running out would be a panic, and the parser is proved
    never to panic on any input; the scan of a template and the UTF-8 decoder
    recurse on the text; the search for the shortest decimal of a float64
    ([shortest_from]) tries 1 to 17 digits, and 17 identify it. [replace_all],
    [strip_casts] and the other scans of a text have its length as fuel and drop
    at least one byte a step. The loops over a table ([batch_loop], [copy_loop],
    [delete_loop], [wave_loop]) have a fuel of more than its rows: each round
    handles a row at least, and the theorems about them are stated with the fuel
    that is enough. The first login of a service is retried at most thirty-two times
    ([first_fuel]), and the check of a document against a schema recurses six deep
    ([schema_depth]), the depth of the schema. Versions are 32-bit: an update at the
    largest version is an error. Integers carried by gRPC are 32- and 64-bit, times
    are microseconds or nanoseconds in Z.

    ** What is assumed of code outside the repository

    Each package or service the code calls is a class of its operations, with a
    second class of the documented facts that are relied on, instantiated by
    concrete functions where a theorem is exercised on concrete inputs:
    [UuidLib]/[UuidLaws] (the canonical text of an identifier parses back),
    [Postgres]/[PostgresLaws] (jsonb keeps keys, strings and nulls; generated
    identifiers are new; unique indexes; the selection of a list query),
    [PgCatalog] and [PgCasts] (the text of index definitions; casts), [Cache],
    [Jwt]/[JwtLaws] (an opened token has the claims it was signed with),
    [OAuthCrypto] (digests), [Argon]/[ArgonLaws] (a password verifies against its
    hash), [CronLib]/[CronLaws] (the next instant of a schedule is later),
    [Outside]/[OutsideLaws] (resolver, HTTP, SMTP, secrets), [Conversions] (float64
    to integer out of range), [CursorText]/[CursorLaws] (the base64 text of a
    cursor decodes back), [Broker]/[BrokerLaws] (the headers of a
    dead-lettered message),
    [UuidBytes]/[UuidBytesLaws] (the bytes of an identifier), [MigrationLib] and
    [MigrationLaws] (the order of file names), [EdDSA]/[EdDSALaws] (a signature opens
    with its public key), [Idp] (an identity provider), [RateLib] (token buckets),
    [VaultAuth] (the logins and renewals of Vault). Buckets of files, the cloud secret
    services and Redis are maps with the failures they answer. Strings sent over gRPC
    are taken to be valid UTF-8.

    ** What is not modelled

    Generated protobuf code; the main functions of the services, which read the
    environment and start the loops modelled here; listening, shutting down, metrics,
    the request log and telemetry, which are calls of libraries; declaring exchanges
    and queues. The commands of dev-tools that drive the reconciler or write key
    files. The reconciler of search indexes of src/go/peripherals, which by its own
    comment targets a table that no longer exists, and the report of drifts beside it.
    The physical databases of the tenants are modelled as one: every
    statement names its tenant, and isolation is proved from that alone; Tenants.v
    has them apart. The texts of most error messages of Postgres are left out. A
    commit of a record write that Postgres refuses leaves everything as it was and is
    not a separate path. *)
From stdpp Require Export base gmap strings list option sorting.
From Stdlib Require Export ZArith Lia.

(** ** Results: a Go call that returns a value and an error, or panics *)

Declare Scope go_scope.
Delimit Scope go_scope with go.

Inductive result (E A : Type) : Type :=
| Ok (a : A)
| Err (e : E)
| Panic.
Arguments Ok {E A} a.
Arguments Err {E A} e.
Arguments Panic {E A}.

Definition rbind {E A B : Type} (r : result E A) (k : A -> result E B) : result E B :=
  match r with
  | Ok a => k a
  | Err e => Err e
  | Panic => Panic
  end.

Notation "'let!' x := c 'in' k" := (rbind c (fun x => k))
  (at level 10, x pattern, c at level 200, k at level 200) : go_scope.

Open Scope go_scope.

(** The errors.As and rescue idioms of the callers need the error of a result back. *)
Definition is_ok {E A : Type} (r : result E A) : bool :=
  match r with Ok _ => true | _ => false end.

(** A loop that stops at the first error, collecting its results in order. *)
Fixpoint mapR {E A B : Type} (f : A -> result E B) (l : list A) : result E (list B) :=
  match l with
  | [] => Ok []
  | a :: l' => let! b := f a in let! bs := mapR f l' in Ok (b :: bs)
  end.

Lemma rbind_ok {E A B} (r : result E A) (k : A -> result E B) b :
  rbind r k = Ok b -> exists a, r = Ok a /\ k a = Ok b.
Proof. destruct r; simpl; [eauto | discriminate | discriminate]. Qed.

Lemma rbind_assoc {E A B C} (r : result E A) (f : A -> result E B) (g : B -> result E C) :
  rbind (rbind r f) g = rbind r (fun a => rbind (f a) g).
Proof. by destruct r. Qed.

Lemma mapR_ok {E A B} (f : A -> result E B) l bs :
  mapR f l = Ok bs <-> Forall2 (fun a b => f a = Ok b) l bs.
Proof.
  revert bs. induction l as [|a l IH]; intros bs; simpl.
  - split; [intros [= <-]; constructor | inversion 1; done].
  - split.
    + destruct (f a) eqn:Hf; simpl; try done.
      destruct (mapR f l) eqn:Hl; simpl; try done.
      intros [= <-]. constructor; [done | by apply IH].
    + inversion 1 as [|? ? ? ? Hf Hl]; subst. apply IH in Hl.
      by rewrite Hf, Hl.
Qed.

(** ** Grouping: out[k] = append(out[k], v) over a loop *)

Section Grouping.
Context {A : Type} (key : A -> string) (keep : A -> bool).

Definition group_step (m : gmap string (list A)) (a : A) : gmap string (list A) :=
  if keep a then <[key a := default [] (m !! key a) ++ [a]]> m else m.

Definition group (l : list A) : gmap string (list A) := fold_left group_step l ∅.

(** The elements a group holds, in order; [None] for a key never written. *)
Definition group_members (k : string) (l : list A) : list A :=
  List.filter (fun a => keep a && bool_decide (key a = k)) l.

Definition nonempty {B} (l : list B) : option (list B) :=
  match l with [] => None | _ => Some l end.

Lemma group_from_lookup k l m :
  fold_left group_step l m !! k =
  nonempty (default [] (m !! k) ++ group_members k l) ∪ (m !! k).
Proof.
  revert m. induction l as [|a l IH]; intros m; simpl.
  - rewrite app_nil_r. by destruct (m !! k) as [[|]|].
  - rewrite IH. unfold group_step. destruct (keep a) eqn:Hk; simpl; [|done].
    case_bool_decide as Heq.
    + subst k. rewrite lookup_insert_eq. simpl. rewrite <- app_assoc. simpl.
      by destruct (m !! key a) as [[|]|].
    + by rewrite lookup_insert_ne.
Qed.

Lemma group_lookup k l : group l !! k = nonempty (group_members k l).
Proof.
  unfold group. rewrite group_from_lookup, lookup_empty. simpl.
  by destruct (nonempty (group_members k l)).
Qed.

Lemma group_lookup_default k l : default [] (group l !! k) = group_members k l.
Proof. rewrite group_lookup. by destruct (group_members k l). Qed.
End Grouping.

(** ** Filtering a list with a boolean test *)

Lemma filter_none {A} (f : A -> bool) l : (forall a, a ∈ l -> f a = false) -> List.filter f l = [].
Proof.
  induction l as [|a l IH]; simpl; [done|]. intros Hall. rewrite (Hall a (list_elem_of_here _ _)).
  apply IH. intros b Hb. apply Hall. by apply list_elem_of_further.
Qed.

Lemma filter_all {A} (f : A -> bool) l : (forall a, a ∈ l -> f a = true) -> List.filter f l = l.
Proof.
  induction l as [|a l IH]; simpl; [done|]. intros Hall. rewrite (Hall a (list_elem_of_here _ _)).
  f_equal. apply IH. intros b Hb. apply Hall. by apply list_elem_of_further.
Qed.

(** ** Ordering rows by an instant *)

Fixpoint insert_by {A} (key : A -> Z) (a : A) (l : list A) : list A :=
  match l with
  | [] => [a]
  | b :: l' => if (key a <? key b)%Z then a :: l else b :: insert_by key a l'
  end.

(** ORDER BY an instant: rows of the same instant keep the order of the table. *)
Definition order_by {A} (key : A -> Z) (l : list A) : list A := fold_left (fun acc a => insert_by key a acc) l [].

Lemma insert_by_perm {A} (key : A -> Z) a l : insert_by key a l ≡ₚ a :: l.
Proof.
  induction l as [|b l IH]; simpl; [done|]. destruct (_ <? _)%Z; [done|].
  rewrite IH. apply Permutation_swap.
Qed.

Lemma order_by_perm {A} (key : A -> Z) l : order_by key l ≡ₚ l.
Proof.
  unfold order_by. assert (Hg : forall acc, fold_left (fun acc a => insert_by key a acc) l acc ≡ₚ l ++ acc); [|by rewrite Hg, app_nil_r].
  induction l as [|a l IH]; intros acc; simpl; [done|]. rewrite IH, insert_by_perm.
  by rewrite Permutation_middle.
Qed.

Section OrderBy.
Context {A : Type} (key : A -> Z).

Definition key_le (a b : A) : Prop := (key a <= key b)%Z.

Lemma insert_by_sorted a l : StronglySorted key_le l -> StronglySorted key_le (insert_by key a l).
Proof.
  induction l as [|b l IH]; simpl; [by repeat constructor|]. intros [Hl Hb]%StronglySorted_inv.
  destruct (Z.ltb_spec (key a) (key b)) as [Hlt|Hge].
  - constructor; [by constructor|]. constructor; [unfold key_le; lia|].
    eapply Forall_impl; [exact Hb|]. unfold key_le. intros x Hx. simpl in Hx. lia.
  - constructor; [by apply IH|]. apply Forall_forall. intros x Hx. rewrite insert_by_perm in Hx. apply elem_of_cons in Hx as [->|Hx]; [unfold key_le; lia|].
    rewrite Forall_forall in Hb. by apply Hb.
Qed.

Lemma order_by_from_sorted l acc :
  StronglySorted key_le acc -> StronglySorted key_le (fold_left (fun acc a => insert_by key a acc) l acc).
Proof. revert acc. induction l as [|a l IH]; intros acc Hacc; simpl; [done|]. by apply IH, insert_by_sorted. Qed.

Lemma order_by_sorted l : StronglySorted key_le (order_by key l).
Proof. apply order_by_from_sorted. constructor. Qed.

Lemma insert_by_filter (p : A -> bool) a l :
  StronglySorted key_le l ->
  List.filter p (insert_by key a l) = if p a then insert_by key a (List.filter p l) else List.filter p l.
Proof.
  induction l as [|b l IH]; simpl; [by destruct (p a)|]. intros [Hl Hb]%StronglySorted_inv.
  destruct (Z.ltb_spec (key a) (key b)) as [Hlt|Hge]; simpl.
  - destruct (p a) eqn:Pa; [|done]. destruct (p b) eqn:Pb; simpl.
    + by replace (key a <? key b)%Z with true by (symmetry; apply Z.ltb_lt; lia).
    + assert (Hf : Forall (key_le b) (List.filter p l)).
      { apply Forall_forall. intros x Hx. apply list_elem_of_In, filter_In in Hx as [Hx _]. rewrite Forall_forall in Hb. by apply Hb, list_elem_of_In. }
      destruct (List.filter p l) as [|c l'] eqn:E; [done|]. simpl. apply Forall_inv in Hf. unfold key_le in Hf.
      by replace (key a <? key c)%Z with true by (symmetry; apply Z.ltb_lt; lia).
  - rewrite IH by done. destruct (p a) eqn:Pa, (p b) eqn:Pb; simpl; try done.
    by replace (key a <? key b)%Z with false by (symmetry; apply Z.ltb_ge; lia).
Qed.

(** The order is stable: a selection of the rows is in the order of all. *)
Lemma order_by_filter (p : A -> bool) l : order_by key (List.filter p l) = List.filter p (order_by key l).
Proof.
  unfold order_by. assert (Hg : forall acc, StronglySorted key_le acc ->
    fold_left (fun acc a => insert_by key a acc) (List.filter p l) (List.filter p acc)
    = List.filter p (fold_left (fun acc a => insert_by key a acc) l acc)); [|apply (Hg []); constructor].
  induction l as [|a l IH]; intros acc Hacc; simpl; [done|].
  rewrite <- IH by by apply insert_by_sorted. rewrite insert_by_filter by done. by destruct (p a).
Qed.
End OrderBy.

(** ** Rows with different identifiers *)

Lemma map_filter_NoDup {A B} (f : A -> B) (p : A -> bool) l : NoDup (map f l) -> NoDup (map f (List.filter p l)).
Proof.
  induction l as [|a l IH]; simpl; [done|]. rewrite NoDup_cons. intros [Ha Hl].
  destruct (p a); simpl; [|by apply IH]. rewrite NoDup_cons. split; [|by apply IH].
  intros (x & Hx & Hin)%list_elem_of_fmap. apply Ha. apply list_elem_of_fmap. exists x. split; [done|].
  apply list_elem_of_In in Hin. apply filter_In in Hin as [Hin _]. by apply list_elem_of_In.
Qed.

Lemma NoDup_map_eq {A B} (f : A -> B) l a b : NoDup (map f l) -> a ∈ l -> b ∈ l -> f a = f b -> a = b.
Proof.
  induction l as [|x l IH]; simpl; [by intros _ ?%elem_of_nil|]. rewrite NoDup_cons. intros [Hx Hl] Ha Hb He.
  apply elem_of_cons in Ha as [->|Ha], Hb as [->|Hb]; [done| | |by apply IH].
  - destruct Hx. rewrite He. by apply list_elem_of_fmap_2.
  - destruct Hx. rewrite <- He. by apply list_elem_of_fmap_2.
Qed.

(** ** Writing a list of entries into a map *)

Section InsertAll.
Context {A K V : Type} `{Countable K} (key : A -> K) (val : A -> V).

Definition insert_all (l : list A) (m : gmap K V) : gmap K V := fold_left (fun m a => <[key a := val a]> m) l m.

Lemma insert_all_out l m k : k ∉ map key l -> insert_all l m !! k = m !! k.
Proof.
  unfold insert_all. revert m. induction l as [|a l IH]; intros m Hk; simpl in *; [done|]. apply not_elem_of_cons in Hk as [Hne Hk].
  rewrite IH by done. by rewrite lookup_insert_ne by congruence.
Qed.

Lemma insert_all_in l m a : NoDup (map key l) -> a ∈ l -> insert_all l m !! key a = Some (val a).
Proof.
  unfold insert_all. revert m. induction l as [|b l IH]; intros m Hd Ha; [by apply not_elem_of_nil in Ha|].
  simpl in Hd. apply NoDup_cons in Hd as [Hn Hd]. simpl. apply elem_of_cons in Ha as [->|Ha]; [|by apply IH].
  rewrite (insert_all_out l) by done. by rewrite lookup_insert_eq.
Qed.

Lemma insert_all_cases l m k v : insert_all l m !! k = Some v -> m !! k = Some v \/ exists a, a ∈ l /\ key a = k /\ v = val a.
Proof.
  unfold insert_all. revert m. induction l as [|a l IH]; intros m; simpl; [by left|]. intros [Hm|(b & Hb & Hr)]%IH.
  - destruct (decide (key a = k)) as [<-|Hne].
    + rewrite lookup_insert_eq in Hm. injection Hm as <-. right. exists a. split; [apply list_elem_of_here | done].
    + rewrite lookup_insert_ne in Hm by done. by left.
  - right. exists b. split; [by apply list_elem_of_further | done].
Qed.
End InsertAll.
