(* ===== verification/GoStrings.v ===== *)
(** The parts of Go's [strings], [unicode/utf8] and [strconv] the modelled code
    uses. A Go string is a sequence of bytes, here a [string] of 8-bit
    [ascii]; a rune is a code point, here an [N]. Iterating over a Go string
    (or converting it to a slice of runes) decodes UTF-8 with the replacement
    rune U+FFFD for every invalid byte; [decode_utf8] is that decoder and
    keeps, beside each rune, the bytes it was read from. *)
From stdpp Require Export pretty.
From Stdlib Require Export Ascii.
From S2P Require Import Prelude.

Open Scope string_scope.

(** ** Bytes and runes *)

Definition byte_of (a : ascii) : N := Ascii.N_of_ascii a.
Definition str1 (a : ascii) : string := String a EmptyString.
Definition quote_char : ascii := "034"%char.
Definition backslash_char : ascii := "092"%char.
Definition quote : string := str1 quote_char.

Definition in_range (lo hi b : N) : bool := ((lo <=? b) && (b <=? hi))%N.

(** One step of utf8.DecodeRuneInString: the rune and its width. *)
Definition utf8_step (s : string) : N * nat :=
  let bad := (65533%N, 1) in
  match s with
  | EmptyString => bad
  | String a0 r0 =>
    let b0 := byte_of a0 in
    if (b0 <? 128)%N then (b0, 1) else
    match r0 with
    | EmptyString => bad
    | String a1 r1 =>
      let b1 := byte_of a1 in
      if in_range 194 223 b0 then
        if in_range 128 191 b1
        then (((b0 - 192) * 64 + (b1 - 128))%N, 2) else bad
      else
      match r1 with
      | EmptyString => bad
      | String a2 r2 =>
        let b2 := byte_of a2 in
        if in_range 224 239 b0 then
          let lo := if (b0 =? 224)%N then 160%N else 128%N in
          let hi := if (b0 =? 237)%N then 159%N else 191%N in
          if in_range lo hi b1 && in_range 128 191 b2
          then (((b0 - 224) * 4096 + (b1 - 128) * 64 + (b2 - 128))%N, 3) else bad
        else
        match r2 with
        | EmptyString => bad
        | String a3 _ =>
          let b3 := byte_of a3 in
          if in_range 240 244 b0 then
            let lo := if (b0 =? 240)%N then 144%N else 128%N in
            let hi := if (b0 =? 244)%N then 143%N else 191%N in
            if in_range lo hi b1 && in_range 128 191 b2 && in_range 128 191 b3
            then (((b0 - 240) * 262144 + (b1 - 128) * 4096 + (b2 - 128) * 64 + (b3 - 128))%N, 4)
            else bad
          else bad
        end
      end
    end
  end.

Fixpoint str_take (n : nat) (s : string) : string :=
  match n, s with
  | S n', String a s' => String a (str_take n' s')
  | _, _ => EmptyString
  end.

(** The runes of a string, each with the bytes it stands for; [skip] counts
    the continuation bytes of the rune just read. *)
Fixpoint decode_from (skip : nat) (s : string) : list (N * string) :=
  match s with
  | EmptyString => []
  | String _ s' =>
    match skip with
    | S k => decode_from k s'
    | O => let '(r, w) := utf8_step s in (r, str_take w s) :: decode_from (pred w) s'
    end
  end.

Definition decode_utf8 (s : string) : list (N * string) := decode_from 0 s.
Definition runes (s : string) : list N := map fst (decode_utf8 s).
Definition RuneCountInString (s : string) : nat := length (decode_utf8 s).

(** strings.Builder.WriteRune. *)
Definition encode_rune (r : N) : string :=
  let ch n := Ascii.ascii_of_N n in
  if (r <? 128)%N then str1 (ch r)
  else if (r <? 2048)%N then
    String (ch (192 + r / 64)%N) (str1 (ch (128 + r mod 64)%N))
  else if (r <? 65536)%N then
    String (ch (224 + r / 4096)%N)
      (String (ch (128 + (r / 64) mod 64)%N) (str1 (ch (128 + r mod 64)%N)))
  else
    String (ch (240 + r / 262144)%N)
      (String (ch (128 + (r / 4096) mod 64)%N)
        (String (ch (128 + (r / 64) mod 64)%N) (str1 (ch (128 + r mod 64)%N)))).

Definition of_runes (rs : list N) : string := String.concat "" (map encode_rune rs).

(** The code point of a character literal. *)
Definition rn (a : ascii) : N := byte_of a.

(** ** Prefixes, cutting, splitting, joining *)

Fixpoint CutPrefix (s p : string) : option string :=
  match p, s with
  | EmptyString, _ => Some s
  | String a p', String b s' => if Ascii.eqb a b then CutPrefix s' p' else None
  | String _ _, EmptyString => None
  end.

Definition HasPrefix (s p : string) : bool :=
  match CutPrefix s p with Some _ => true | None => false end.

Definition TrimPrefix (s p : string) : string := default s (CutPrefix s p).

(** strings.Cut at a one-byte separator: before, after, when it occurs. *)
Fixpoint Cut (s : string) (c : ascii) : option (string * string) :=
  match s with
  | EmptyString => None
  | String a s' =>
    if Ascii.eqb a c then Some (EmptyString, s')
    else match Cut s' c with
         | Some (b, r) => Some (String a b, r)
         | None => None
         end
  end.

(** strings.Split at a one-byte separator. *)
Fixpoint Split (s : string) (c : ascii) : list string :=
  match s with
  | EmptyString => [EmptyString]
  | String a s' =>
    if Ascii.eqb a c then EmptyString :: Split s' c
    else match Split s' c with
         | [] => [str1 a]
         | h :: t => String a h :: t
         end
  end.

Definition Join (l : list string) (sep : string) : string := String.concat sep l.

Fixpoint ContainsByte (s : string) (c : ascii) : bool :=
  match s with
  | EmptyString => false
  | String a s' => Ascii.eqb a c || ContainsByte s' c
  end.

(** Every byte of a string satisfies a test. *)
Fixpoint all_bytes (p : ascii -> bool) (s : string) : bool :=
  match s with EmptyString => true | String a s' => p a && all_bytes p s' end.

(** unicode.IsControl: category Cc. *)
Definition IsControl (r : N) : bool := ((r <? 32) || (127 <=? r) && (r <? 160))%N.

(** unicode.IsSpace. *)
Definition IsSpace (r : N) : bool :=
  in_range 9 13 r || (r =? 32)%N || (r =? 133)%N || (r =? 160)%N || (r =? 5760)%N
  || in_range 8192 8202 r || (r =? 8232)%N || (r =? 8233)%N || (r =? 8239)%N
  || (r =? 8287)%N || (r =? 12288)%N.

(** strings.Fields: the maximal runs of non-space runes. *)
Fixpoint fields_go (l : list (N * string)) (cur : option string) : list string :=
  match l with
  | [] => match cur with Some w => [w] | None => [] end
  | (r, bs) :: l' =>
    if IsSpace r
    then match cur with
         | Some w => w :: fields_go l' None
         | None => fields_go l' None
         end
    else fields_go l' (Some (default EmptyString cur +:+ bs))
  end.
Definition Fields (s : string) : list string := fields_go (decode_utf8 s) None.

(** strings.TrimSpace. *)
Fixpoint drop_space (l : list (N * string)) : list (N * string) :=
  match l with
  | (r, bs) :: l' => if IsSpace r then drop_space l' else l
  | [] => []
  end.
Definition TrimSpace (s : string) : string :=
  String.concat "" (map snd (rev (drop_space (rev (drop_space (decode_utf8 s)))))).

Definition is_upper (b : N) : bool := in_range 65 90 b.
Definition is_lower (b : N) : bool := in_range 97 122 b.
Definition is_digit (b : N) : bool := in_range 48 57 b.

(** strings.ToUpper on ASCII letters, the only ones its caller passes. *)
Fixpoint ToUpper (s : string) : string :=
  match s with
  | EmptyString => EmptyString
  | String a s' =>
    String (if is_lower (byte_of a) then Ascii.ascii_of_N (byte_of a - 32) else a) (ToUpper s')
  end.

(** The %d verb and strconv.FormatInt(_, 10). *)
Definition Itoa (n : nat) : string := pretty n.
Definition FormatInt (z : Z) : string := pretty z.
Definition FormatBool (b : bool) : string := if b then "true" else "false".

(** Byte-wise string order, Go's [<] on strings. *)
Definition str_ltb (a b : string) : bool :=
  match String.compare a b with Lt => true | _ => false end.

(** ** Lemmas *)

Lemma CutPrefix_app p s : CutPrefix (p +:+ s) p = Some s.
Proof. induction p as [|a p IH]; simpl; [by destruct s|]. by rewrite Ascii.eqb_refl. Qed.

Lemma CutPrefix_Some s p r : CutPrefix s p = Some r <-> s = p +:+ r.
Proof.
  split; [|intros ->; apply CutPrefix_app].
  revert s. induction p as [|a p IH]; intros s.
  - destruct s; simpl; intros H; by simplify_eq.
  - destruct s as [|b s]; simpl; [done|].
    destruct (Ascii.eqb_spec a b) as [->|]; [|done]. intros H. by rewrite (IH s H).
Qed.

Lemma HasPrefix_spec s p : HasPrefix s p = true <-> exists r, s = p +:+ r.
Proof.
  unfold HasPrefix. destruct (CutPrefix s p) as [r|] eqn:H.
  - apply CutPrefix_Some in H. naive_solver.
  - split; [done|]. intros [r Hr]. apply CutPrefix_Some in Hr. congruence.
Qed.

Lemma Split_nonempty s c : Split s c <> [].
Proof. destruct s as [|a s]; simpl; [done|]. destruct (Ascii.eqb a c), (Split s c); done. Qed.

Lemma Cut_spec s c b r : Cut s c = Some (b, r) -> s = b +:+ String c r.
Proof.
  revert b r. induction s as [|a s IH]; intros b r; simpl; [done|].
  destruct (Ascii.eqb_spec a c) as [->|].
  - intros [= <- <-]. done.
  - destruct (Cut s c) as [[b' r']|]; [|done]. intros [= <- <-]. simpl. by rewrite (IH b' r').
Qed.

Lemma Itoa_inj n m : Itoa n = Itoa m -> n = m.
Proof. apply (inj pretty). Qed.

Lemma str_take_drop_all s : str_take (String.length s) s = s.
Proof. induction s; simpl; congruence. Qed.

(** Dotted paths: splitting undoes joining when no segment holds the separator. *)
Lemma Split_no_sep s c : ContainsByte s c = false -> Split s c = [s].
Proof.
  induction s as [|a s IH]; simpl; [done|]. intros [H1 H2]%orb_false_iff.
  rewrite H1, IH; done.
Qed.

Lemma Split_app s c r : ContainsByte s c = false -> Split (s +:+ String c r) c = s :: Split r c.
Proof.
  induction s as [|a s IH]; intros Hs; [simpl; by rewrite Ascii.eqb_refl|].
  change (String a s +:+ String c r) with (String a (s +:+ String c r)). simpl in *.
  apply orb_false_iff in Hs as [H1 H2]. by rewrite H1, IH.
Qed.
