(* ===== verification/GoText.v ===== *)
(** More of package strings, for the parts that build and read texts: the
    schema reconciler, the OAuth2 server, cron and configuration. *)
From S2P Require Import Prelude GoStrings.

Open Scope string_scope.
Open Scope list_scope.

(** strings.ToLower on ASCII letters. *)
Fixpoint ToLower (s : string) : string :=
  match s with
  | EmptyString => EmptyString
  | String a s' =>
    String (if is_upper (byte_of a) then Ascii.ascii_of_N (byte_of a + 32) else a) (ToLower s')
  end.

(** strings.ReplaceAll of a one-byte text. *)
Fixpoint ReplaceByte (s : string) (old : ascii) (new : string) : string :=
  match s with
  | EmptyString => EmptyString
  | String a s' => (if Ascii.eqb a old then new else str1 a) +:+ ReplaceByte s' old new
  end.

(** s[n:]. *)
Fixpoint str_drop (n : nat) (s : string) : string :=
  match n, s with
  | S n', String _ s' => str_drop n' s'
  | O, _ => s
  | _, EmptyString => EmptyString
  end.

(** strings.Cut around a separator of any length: at its first occurrence. *)
Fixpoint CutString (s sep : string) : option (string * string) :=
  match CutPrefix s sep with
  | Some rest => Some ("", rest)
  | None =>
    match s with
    | EmptyString => None
    | String a s' =>
      match CutString s' sep with
      | Some (before, after) => Some (String a before, after)
      | None => None
      end
    end
  end.

Definition Contains (s sub : string) : bool :=
  match CutString s sub with Some _ => true | None => false end.

(** The text after the last separator byte (all of it without one). *)
Fixpoint after_last (s : string) (c : ascii) : string :=
  match s with
  | EmptyString => EmptyString
  | String a s' =>
    if ContainsByte s' c then after_last s' c else if Ascii.eqb a c then s' else s
  end.

(** strings.CutSuffix. *)
Fixpoint CutSuffix (s suffix : string) : option string :=
  if String.eqb s suffix then Some "" else
  match s with
  | EmptyString => None
  | String a s' => match CutSuffix s' suffix with Some b => Some (String a b) | None => None end
  end.

Definition HasSuffix (s suffix : string) : bool :=
  match CutSuffix s suffix with Some _ => true | None => false end.

Definition TrimSuffix (s suffix : string) : string := default s (CutSuffix s suffix).

(** The %x digits of a number, [width] of them. *)
Definition hex_digit (d : N) : ascii :=
  Ascii.ascii_of_N (if (d <? 10)%N then 48 + d else 87 + d).

Fixpoint hex_digits (width : nat) (n : N) : string :=
  match width with
  | O => EmptyString
  | S w => hex_digits w (N.shiftr n 4) +:+ str1 (hex_digit (N.land n 15))
  end.

(** ** Lemmas *)

Lemma length_app_str a b : String.length (a +:+ b) = (String.length a + String.length b)%nat.
Proof. induction a as [|x a IH]; simpl; [done|]. by rewrite <- IH. Qed.

Lemma app_str_assoc a b c : a +:+ (b +:+ c) = (a +:+ b) +:+ c.
Proof. induction a as [|x a IH]; [done|]. change (String x (a +:+ (b +:+ c)) = String x ((a +:+ b) +:+ c)). by rewrite IH. Qed.

Lemma hex_digits_length w n : String.length (hex_digits w n) = w.
Proof. revert n. induction w as [|w IH]; intros n; simpl; [done|]. rewrite length_app_str, IH. simpl. lia. Qed.

Lemma str_take_length n s : (String.length (str_take n s) <= n)%nat.
Proof. revert s. induction n as [|n IH]; intros [|a s]; simpl; try lia. specialize (IH s). lia. Qed.

Lemma CutString_spec s sep b r : CutString s sep = Some (b, r) -> s = b +:+ (sep +:+ r).
Proof.
  revert b r. induction s as [|a s IH]; intros b r; cbn [CutString].
  - destruct (CutPrefix "" sep) eqn:E; [|done]. intros [= <- <-]. exact (proj1 (CutPrefix_Some _ _ _) E).
  - destruct (CutPrefix (String a s) sep) eqn:E.
    + intros [= <- <-]. exact (proj1 (CutPrefix_Some _ _ _) E).
    + destruct (CutString s sep) as [[b' r']|]; [|done]. intros [= <- <-].
      rewrite (IH b' r' eq_refl) at 1. done.
Qed.

Lemma ReplaceByte_app a b c r : ReplaceByte (a +:+ b) c r = ReplaceByte a c r +:+ ReplaceByte b c r.
Proof.
  induction a as [|x a IH]; [done|]. change (String x a +:+ b) with (String x (a +:+ b)). simpl.
  rewrite IH. by rewrite app_str_assoc.
Qed.
