(* ===== verification/Json.v ===== *)
(** JSON documents and the parts of Go's [encoding/json] the modelled code
    uses. A [json.RawMessage] is represented by the document it holds; its
    text is the compact rendering [json_text], which is what [json.Marshal]
    writes. A number keeps its literal text, because the code both compares
    numbers as [float64] values and passes their text on unchanged.
    The [unmarshal_*] functions are [json.Unmarshal] into a fresh variable of
    the given Go type: [None] is a decoding error, and a JSON null is accepted
    for every type and leaves the zero value. *)
From Stdlib Require Import SpecFloat.
From S2P Require Import Prelude GoStrings.

Open Scope string_scope.

Inductive json : Type :=
| JNull
| JBool (b : bool)
| JNum (lit : string)
| JStr (s : string)
| JArr (l : list json)
| JObj (l : list (string * json)).

(** The induction principle for the nested lists. *)
Section JsonInd.
Variable P : json -> Prop.
Hypothesis Hnull : P JNull.
Hypothesis Hbool : forall b, P (JBool b).
Hypothesis Hnum : forall s, P (JNum s).
Hypothesis Hstr : forall s, P (JStr s).
Hypothesis Harr : forall l, Forall P l -> P (JArr l).
Hypothesis Hobj : forall l, Forall (fun kv => P kv.2) l -> P (JObj l).

Fixpoint json_nested_ind (j : json) : P j :=
  match j with
  | JNull => Hnull
  | JBool b => Hbool b
  | JNum s => Hnum s
  | JStr s => Hstr s
  | JArr l => Harr l ((fix go l : Forall P l :=
      match l with
      | [] => Forall_nil_2 P
      | x :: l' => Forall_cons_2 P x l' (json_nested_ind x) (go l')
      end) l)
  | JObj l => Hobj l ((fix go l : Forall (fun kv => P kv.2) l :=
      match l with
      | [] => Forall_nil_2 _
      | x :: l' => Forall_cons_2 _ x l' (json_nested_ind x.2) (go l')
      end) l)
  end.
End JsonInd.

#[export] Instance json_eq_dec : EqDecision json.
Proof.
  unfold EqDecision, RelDecision. fix go 1. intros x y.
  destruct x as [|b|n|s|l|l], y as [|b'|n'|s'|l'|l']; try (right; discriminate).
  - by left.
  - destruct (decide (b = b')); [left | right]; congruence.
  - destruct (decide (n = n')); [left | right]; congruence.
  - destruct (decide (s = s')); [left | right]; congruence.
  - assert (Decision (l = l')) as [->|]; [|by left|right; congruence].
    revert l'. induction l as [|a l IH]; intros [|a' l'];
      [by left | by right | by right |].
    destruct (go a a'), (IH l'); [left; congruence | right; congruence ..].
  - assert (Decision (l = l')) as [->|]; [|by left|right; congruence].
    revert l'. induction l as [|[k a] l IH]; intros [|[k' a'] l'];
      [by left | by right | by right |].
    destruct (decide (k = k')), (go a a'), (IH l');
      [left; congruence | right; congruence ..].
Defined.

(** ** Numbers: the literal grammar and [float64] *)

Definition float64 := spec_float.

#[export] Instance float64_eq_dec : EqDecision float64.
Proof. intros x y. unfold Decision. repeat decide equality. Defined.

Definition f64_zero : float64 := S754_zero false.
Definition f64_ltb (x y : float64) : bool := SFltb x y.
Definition f64_gtb (x y : float64) : bool := SFltb y x.

Fixpoint take_digits (s : string) : list N * string :=
  match s with
  | String a s' =>
    if is_digit (byte_of a)
    then let '(ds, r) := take_digits s' in ((byte_of a - 48)%N :: ds, r)
    else ([], s)
  | EmptyString => ([], EmptyString)
  end.

Definition digits_value (ds : list N) : N := fold_left (fun acc d => acc * 10 + d)%N ds 0%N.

(** A number literal: sign, mantissa digits and decimal exponent. *)
Record decimal : Type := { d_neg : bool; d_mant : N; d_exp : Z }.

Definition parse_frac (s : string) : option (list N * string) :=
  match s with
  | String a s' =>
    if Ascii.eqb a "." then
      match take_digits s' with
      | ([], _) => None
      | (ds, r) => Some (ds, r)
      end
    else Some ([], s)
  | EmptyString => Some ([], s)
  end.

Definition parse_exp (s : string) : option (Z * string) :=
  match s with
  | String a s' =>
    if Ascii.eqb a "e" || Ascii.eqb a "E" then
      let '(neg, s2) := match s' with
                        | String b r => if Ascii.eqb b "-" then (true, r)
                                        else if Ascii.eqb b "+" then (false, r) else (false, s')
                        | EmptyString => (false, s')
                        end in
      match take_digits s2 with
      | ([], _) => None
      | (ds, r) => Some ((if neg then - Z.of_N (digits_value ds) else Z.of_N (digits_value ds))%Z, r)
      end
    else Some (0%Z, s)
  | EmptyString => Some (0%Z, s)
  end.

(** The JSON number grammar (encoding/json's isValidNumber). *)
Definition parse_number (lit : string) : option decimal :=
  let '(neg, s) := match CutPrefix lit "-" with Some r => (true, r) | None => (false, lit) end in
  match take_digits s with
  | ([], _) => None
  | (ds, r) =>
    if (1 <? length ds)%nat && (default 1 (head ds) =? 0)%N then None else
    match parse_frac r with
    | None => None
    | Some (fs, r2) =>
      match parse_exp r2 with
      | Some (e, EmptyString) =>
        Some {| d_neg := neg; d_mant := digits_value (ds ++ fs);
                d_exp := (e - Z.of_nat (length fs))%Z |}
      | _ => None
      end
    end
  end.

(** strconv.ParseFloat(_, 64): correctly rounded, to nearest even; a value
    out of range is an error. *)
Definition f64_of_decimal (d : decimal) : option float64 :=
  let r := match d_mant d with
           | N0 => S754_zero (d_neg d)
           | Npos p =>
             if (0 <=? d_exp d)%Z
             then binary_normalize 53 1024 (cond_Zopp (d_neg d) (Zpos p * 10 ^ d_exp d)) 0 (d_neg d)
             else SFdiv 53 1024 (S754_finite (d_neg d) p 0)
                    (S754_finite false (Z.to_pos (10 ^ (- d_exp d))) 0)
           end in
  match r with
  | S754_infinity _ | S754_nan => None
  | _ => Some r
  end.

Definition f64_of_literal (lit : string) : option float64 :=
  match parse_number lit with Some d => f64_of_decimal d | None => None end.

(** ** Text *)

Definition hex_digit (n : N) : ascii :=
  Ascii.ascii_of_N (if (n <? 10)%N then 48 + n else 87 + n)%N.

Definition u_escape (r : N) : string :=
  String backslash_char (String "u"
    (String (hex_digit (r / 4096)) (String (hex_digit ((r / 256) mod 16))
      (String (hex_digit ((r / 16) mod 16)) (str1 (hex_digit (r mod 16))))))).

(** One rune of a string literal, with the default HTML escaping. *)
Definition escape_rune (rb : N * string) : string :=
  let '(r, bs) := rb in
  let bsl c := String backslash_char (str1 c) in
  if (r =? 34)%N then bsl quote_char
  else if (r =? 92)%N then bsl backslash_char
  else if (r =? 8)%N then bsl "b"%char
  else if (r =? 12)%N then bsl "f"%char
  else if (r =? 10)%N then bsl "n"%char
  else if (r =? 13)%N then bsl "r"%char
  else if (r =? 9)%N then bsl "t"%char
  else if (r <? 32)%N || (r =? 60)%N || (r =? 62)%N || (r =? 38)%N then u_escape r
  else if (r =? 65533)%N && (String.length bs =? 1)%nat then u_escape r
  else if (r =? 8232)%N || (r =? 8233)%N then u_escape r
  else bs.

Definition string_text (s : string) : string :=
  quote +:+ String.concat "" (map escape_rune (decode_utf8 s)) +:+ quote.

Fixpoint json_text (j : json) : string :=
  match j with
  | JNull => "null"
  | JBool b => FormatBool b
  | JNum lit => lit
  | JStr s => string_text s
  | JArr l => "[" +:+ String.concat "," (map json_text l) +:+ "]"
  | JObj l =>
    "{" +:+ String.concat "," (map (fun kv => string_text kv.1 +:+ ":" +:+ json_text kv.2) l) +:+ "}"
  end.

(** ** json.Unmarshal into a fresh variable of a given type *)

Definition unmarshal_string (j : json) : option string :=
  match j with JStr s => Some s | JNull => Some EmptyString | _ => None end.

Definition unmarshal_bool (j : json) : option bool :=
  match j with JBool b => Some b | JNull => Some false | _ => None end.

Definition unmarshal_float64 (j : json) : option float64 :=
  match j with JNum lit => f64_of_literal lit | JNull => Some f64_zero | _ => None end.

(** Into a json.Number: a string that holds a number literal is accepted too. *)
Definition unmarshal_number (j : json) : option string :=
  match j with
  | JNum lit => Some lit
  | JNull => Some EmptyString
  | JStr s => match parse_number s with Some _ => Some s | None => None end
  | _ => None
  end.

(** Into a []json.RawMessage. *)
Definition unmarshal_array (j : json) : option (list json) :=
  match j with JArr l => Some l | JNull => Some [] | _ => None end.

(** Into a []string. *)
Definition unmarshal_strings (j : json) : option (list string) :=
  match j with JArr l => mapM unmarshal_string l | JNull => Some [] | _ => None end.

(** Into a map[string]json.RawMessage: the last of two equal keys wins. *)
Definition map_of_members (l : list (string * json)) : gmap string json :=
  fold_left (fun m kv => <[kv.1 := kv.2]> m) l ∅.

Definition unmarshal_map (j : json) : option (gmap string json) :=
  match j with JObj l => Some (map_of_members l) | JNull => Some ∅ | _ => None end.

(** ** json.Marshal of a map: the keys in byte order *)

Fixpoint assoc_insert {A} (k : string) (v : A) (l : list (string * A)) : list (string * A) :=
  match l with
  | [] => [(k, v)]
  | (k', v') :: l' =>
    match String.compare k k' with
    | Lt => (k, v) :: l
    | Eq => (k, v) :: l'
    | Gt => (k', v') :: assoc_insert k v l'
    end
  end.

Definition sorted_members {A} (m : gmap string A) : list (string * A) :=
  foldr (fun kv l => assoc_insert kv.1 kv.2 l) [] (map_to_list m).

Definition marshal_map (m : gmap string json) : json := JObj (sorted_members m).

(** ** Decoding into an [any], and equality of documents *)

Inductive goany : Type :=
| ANil
| ABool (b : bool)
| ANum (f : float64)
| AStr (s : string)
| ASlice (l : list goany)
| AMap (l : list (string * goany)).

#[export] Instance goany_eq_dec : EqDecision goany.
Proof.
  unfold EqDecision, RelDecision. fix go 1. intros x y.
  destruct x as [|b|n|s|l|l], y as [|b'|n'|s'|l'|l']; try (right; discriminate).
  - by left.
  - destruct (decide (b = b')); [left | right]; congruence.
  - destruct (decide (n = n')); [left | right]; congruence.
  - destruct (decide (s = s')); [left | right]; congruence.
  - assert (Decision (l = l')) as [->|]; [|by left|right; congruence].
    revert l'. induction l as [|a l IH]; intros [|a' l'];
      [by left | by right | by right |].
    destruct (go a a'), (IH l'); [left; congruence | right; congruence ..].
  - assert (Decision (l = l')) as [->|]; [|by left|right; congruence].
    revert l'. induction l as [|[k a] l IH]; intros [|[k' a'] l'];
      [by left | by right | by right |].
    destruct (decide (k = k')), (go a a'), (IH l');
      [left; congruence | right; congruence ..].
Defined.

(** json.Unmarshal into an [any]; a map is kept as its members in key order. *)
Fixpoint unmarshal_any (j : json) : option goany :=
  match j with
  | JNull => Some ANil
  | JBool b => Some (ABool b)
  | JNum lit => ANum <$> f64_of_literal lit
  | JStr s => Some (AStr s)
  | JArr l =>
    ASlice <$> (fix go l := match l with
                            | [] => Some []
                            | x :: l' => match unmarshal_any x, go l' with
                                         | Some a, Some r => Some (a :: r)
                                         | _, _ => None
                                         end
                            end) l
  | JObj l =>
    AMap <$> (fix go acc l := match l with
                              | [] => Some acc
                              | (k, x) :: l' => match unmarshal_any x with
                                                | Some a => go (assoc_insert k a acc) l'
                                                | None => None
                                                end
                              end) [] l
  end.

(** Equality of two raw messages: both decoded and re-encoded, the texts
    compared; the raw texts themselves when one does not decode. Re-encoding
    separates any two decoded values (shortest float64 text, keys in order),
    so comparing the texts is comparing the values. *)
Definition json_value_equal (a b : json) : bool :=
  match unmarshal_any a, unmarshal_any b with
  | Some av, Some bv => bool_decide (av = bv)
  | _, _ => String.eqb (json_text a) (json_text b)
  end.

(** ** Lemmas *)

Lemma json_value_equal_refl a : json_value_equal a a = true.
Proof.
  unfold json_value_equal. destruct (unmarshal_any a).
  - by apply bool_decide_eq_true.
  - apply String.eqb_refl.
Qed.

Lemma json_value_equal_sym a b : json_value_equal a b = json_value_equal b a.
Proof.
  unfold json_value_equal. destruct (unmarshal_any a), (unmarshal_any b);
    try apply String.eqb_sym.
  apply bool_decide_ext. naive_solver.
Qed.

(** On strings the comparison is equality of the strings. *)
Lemma json_value_equal_str s t : json_value_equal (JStr s) (JStr t) = String.eqb s t.
Proof.
  unfold json_value_equal. simpl. destruct (String.eqb_spec s t) as [->|Hne].
  - by apply bool_decide_eq_true.
  - apply bool_decide_eq_false. congruence.
Qed.

Lemma assoc_insert_fresh {A} k (v : A) l :
  k ∉ l.*1 -> assoc_insert k v l ≡ₚ (k, v) :: l.
Proof.
  induction l as [|[k' v'] l IH]; simpl; [done|]. intros [Hne Hni]%not_elem_of_cons.
  destruct (String.compare k k') eqn:Hc; [|done|].
  - apply String.compare_eq_iff in Hc. congruence.
  - rewrite IH by done. apply perm_swap.
Qed.

Lemma fold_assoc_insert_perm {A} (l : list (string * A)) :
  NoDup l.*1 -> foldr (fun kv l => assoc_insert kv.1 kv.2 l) [] l ≡ₚ l.
Proof.
  induction l as [|[k v] l IH]; simpl; [done|]. intros [Hni Hnd]%NoDup_cons.
  rewrite assoc_insert_fresh; [by rewrite IH|]. by rewrite (fmap_Permutation fst _ _ (IH Hnd)).
Qed.

Lemma sorted_members_perm {A} (m : gmap string A) : sorted_members m ≡ₚ map_to_list m.
Proof. apply fold_assoc_insert_perm, NoDup_fst_map_to_list. Qed.

Lemma map_of_members_list_to_map l :
  map_of_members l = list_to_map (rev l).
Proof.
  unfold map_of_members. rewrite <- fold_left_rev_right.
  induction (rev l) as [|[k v] r IH]; simpl; [done|]. by rewrite <- IH.
Qed.

(** What json.Marshal writes for a map, json.Unmarshal reads back. *)
Lemma unmarshal_marshal_map m : unmarshal_map (marshal_map m) = Some m.
Proof.
  simpl. f_equal. rewrite map_of_members_list_to_map.
  assert (rev (sorted_members m) ≡ₚ map_to_list m) as Hp.
  { rewrite <- sorted_members_perm. symmetry. apply Permutation_rev. }
  rewrite <- (list_to_map_to_list m) at 2. apply list_to_map_proper; [|done].
  rewrite Hp. apply NoDup_fst_map_to_list.
Qed.
