(* ===== verification/Floats.v ===== *)
(** Printing of [float64] values as Go's strconv does: the shortest decimal
    that reads back to the same value, and the %g, %e and %f layouts over it;
    the number layout of [json.Marshal]; and json.Marshal of a decoded [any].
    The shortest decimal is searched among the two neighbours of the exact
    value at each length from 1 to 17 digits; 17 digits always identify a
    float64. *)
From Stdlib Require Import SpecFloat.
From S2P Require Import Prelude GoStrings Json.

Open Scope string_scope.

(** A decimal [dg_mant * 10 ^ dg_exp], the mantissa not divisible by ten. *)
Record digits : Type := mkDigits { dg_mant : Z; dg_exp : Z }.

Fixpoint strip_zeros (fuel : nat) (m e : Z) : digits :=
  match fuel with
  | O => mkDigits m e
  | S k => if (m mod 10 =? 0)%Z then strip_zeros k (m / 10) (e + 1) else mkDigits m e
  end.

Definition decimal_length (z : Z) : Z := Z.of_nat (String.length (FormatInt z)).

(** The value [num / den] scaled by [10 ^ k], floor and exactness. *)
Definition scaled (num den k : Z) : Z * bool :=
  let '(n, d) := if (0 <=? k)%Z then (num * 10 ^ k, den)%Z else (num, den * 10 ^ (- k))%Z in
  (n / d, n mod d =? 0)%Z.

(** Is the candidate above the value nearer than the one below? *)
Definition upper_nearer (num den k lo : Z) : bool :=
  let '(n, d) := if (0 <=? k)%Z then (num * 10 ^ k, den)%Z else (num, den * 10 ^ (- k))%Z in
  (d <? 2 * (n - lo * d))%Z || ((d =? 2 * (n - lo * d))%Z && Z.odd lo).

Definition reads_back (x : float64) (m e : Z) : bool :=
  bool_decide (f64_of_decimal {| d_neg := false; d_mant := Z.to_N m; d_exp := e |} = Some x).

Fixpoint shortest_from (fuel : nat) (x : float64) (num den dp n : Z) : digits :=
  let k := (n - dp)%Z in
  let '(lo, exact) := scaled num den k in
  match fuel with
  | O => strip_zeros 20 lo (- k)
  | S fuel' =>
    let down := reads_back x lo (- k) in
    let up := negb exact && reads_back x (lo + 1) (- k) in
    if up && (negb down || upper_nearer num den k lo) then strip_zeros 20 (lo + 1) (- k)
    else if down then strip_zeros 20 lo (- k)
    else shortest_from fuel' x num den dp (n + 1)
  end.

(** The shortest digits of the finite positive value [m * 2 ^ e]. *)
Definition shortest (m : positive) (e : Z) : digits :=
  let num := if (0 <=? e)%Z then (Zpos m * 2 ^ e)%Z else Zpos m in
  let den := if (0 <=? e)%Z then 1%Z else (2 ^ (- e))%Z in
  let d := (decimal_length num - decimal_length den)%Z in
  let dp := if (0 <=? d)%Z then (if den * 10 ^ d <=? num then d + 1 else d)%Z
            else (if den <=? num * 10 ^ (- d) then d + 1 else d)%Z in
  shortest_from 16 (S754_finite false m e) num den dp 1.

Definition digit_string (d : digits) : string := FormatInt (dg_mant d).
Definition decimal_point (d : digits) : Z := (decimal_length (dg_mant d) + dg_exp d)%Z.

Fixpoint zeros (n : nat) : string := match n with O => "" | S k => String "0" (zeros k) end.

Fixpoint str_skip (n : nat) (s : string) : string :=
  match n, s with S k, String _ r => str_skip k r | _, _ => s end.

(** d.ddde+dd, at least two exponent digits. *)
Definition fmt_e (d : digits) : string :=
  let s := digit_string d in
  let x := (decimal_point d - 1)%Z in
  let tail := str_skip 1 s in
  let ex := FormatInt (Z.abs x) in
  str_take 1 s +:+ (if String.eqb tail "" then "" else "." +:+ tail) +:+ "e"
  +:+ (if (x <? 0)%Z then "-" else "+") +:+ (if (Z.abs x <? 10)%Z then "0" +:+ ex else ex).

(** ddd.ddd *)
Definition fmt_f (d : digits) : string :=
  let s := digit_string d in
  let dp := decimal_point d in
  let nd := Z.of_nat (String.length s) in
  if (nd <=? dp)%Z then s +:+ zeros (Z.to_nat (dp - nd))
  else if (0 <? dp)%Z then str_take (Z.to_nat dp) s +:+ "." +:+ str_skip (Z.to_nat dp) s
  else "0." +:+ zeros (Z.to_nat (- dp)) +:+ s.

Definition fmt_g (d : digits) : string :=
  let x := (decimal_point d - 1)%Z in
  if (x <? -4)%Z || (6 <=? x)%Z then fmt_e d else fmt_f d.

(** fmt.Sprintf with %g. *)
Definition Sprintf_g (f : float64) : string :=
  match f with
  | S754_zero s => if s then "-0" else "0"
  | S754_infinity s => if s then "-Inf" else "+Inf"
  | S754_nan => "NaN"
  | S754_finite s m e => (if s then "-" else "") +:+ fmt_g (shortest m e)
  end.

(** encoding/json's floatEncoder: %e below 1e-6 and from 1e21 on, the
    exponent e-09 written e-9. *)
Definition json_exponent (s : string) : string :=
  match Cut s "e" with
  | Some (a, String sg (String z (String d EmptyString))) =>
    if Ascii.eqb z "0" then a +:+ "e" +:+ str1 sg +:+ str1 d else s
  | _ => s
  end.

Definition marshal_float (f : float64) : string :=
  match f with
  | S754_zero s => if s then "-0" else "0"
  | S754_finite s m e =>
    let d := shortest m e in
    let x := (decimal_point d - 1)%Z in
    (if s then "-" else "") +:+ (if (x <? -6)%Z || (21 <=? x)%Z then json_exponent (fmt_e d) else fmt_f d)
  | _ => ""
  end.

(** json.Marshal of a value decoded into an [any]. *)
Fixpoint any_json (a : goany) : json :=
  match a with
  | ANil => JNull
  | ABool b => JBool b
  | ANum f => JNum (marshal_float f)
  | AStr s => JStr s
  | ASlice l => JArr (map any_json l)
  | AMap l => JObj (map (fun kv => (kv.1, any_json kv.2)) l)
  end.

(** int64(f) and back equals f: the integer, when it is one of 64 bits. *)
Definition as_int64 (f : float64) : option Z :=
  match f with
  | S754_zero _ => Some 0%Z
  | S754_finite s m e =>
    let z := if (0 <=? e)%Z then Some (Zpos m * 2 ^ e)%Z
             else if (Zpos m mod 2 ^ (- e) =? 0)%Z then Some (Zpos m / 2 ^ (- e))%Z else None in
    match z with
    | Some z => let z := cond_Zopp s z in
                if (- 2 ^ 63 <=? z)%Z && (z <? 2 ^ 63)%Z then Some z else None
    | None => None
    end
  | _ => None
  end.

Definition formatFloat (f : float64) : string :=
  match as_int64 f with
  | Some z => FormatInt z
  | None => Sprintf_g f
  end.

(** ** Readings of concrete literals *)

Definition format_literal (lit : string) : option string := formatFloat <$> f64_of_literal lit.
Definition marshal_literal (lit : string) : option string := marshal_float <$> f64_of_literal lit.

Example format_literals :
  map format_literal ["0.1"; "-12"; "1e2"; "123456.75"; "1234567.5"; "0.00001"; "5e-324"; "-0"; "1e300"]
  = map Some ["0.1"; "-12"; "100"; "123456.75"; "1.2345675e+06"; "1e-05"; "5e-324"; "0"; "1e+300"].
Proof. vm_compute. reflexivity. Qed.

Example marshal_literals :
  map marshal_literal ["0.10"; "1e2"; "1e-7"; "1e21"; "123456789012345678"; "-0.0"; "5.684341886080802e-14"]
  = map Some ["0.1"; "100"; "1e-7"; "1e+21"; "123456789012345680"; "-0"; "5.684341886080802e-14"].
Proof. vm_compute. reflexivity. Qed.
