(* ===== verification/Numbers.v ===== *)
(** Integers as text and as float64: strconv.ParseInt, its round trip with
    FormatInt, and the integers a float64 holds exactly. *)
From Stdlib Require Import SpecFloat.
From S2P Require Import Prelude GoStrings Json Floats.

Open Scope string_scope.
Open Scope list_scope.

(** ** strconv.ParseInt (base ten) *)

Definition in_bits (bits z : Z) : bool := ((- 2 ^ (bits - 1) <=? z) && (z <? 2 ^ (bits - 1)))%Z.

Definition signed_digits (s : string) : bool * string :=
  match s with
  | String c r => if Ascii.eqb c "-" then (true, r) else if Ascii.eqb c "+" then (false, r) else (false, s)
  | EmptyString => (false, s)
  end.

Definition ParseInt (s : string) (bits : Z) : option Z :=
  let '(neg, r) := signed_digits s in
  match take_digits r with
  | ([], _) | (_, String _ _) => None
  | (ds, EmptyString) =>
    let v := Z.of_N (digits_value ds) in
    let v := if neg then (- v)%Z else v in
    if in_bits bits v then Some v else None
  end.

(** ** The digits FormatInt prints *)

Lemma digits_value_snoc ds d : digits_value (ds ++ [d]) = (digits_value ds * 10 + d)%N.
Proof. unfold digits_value. by rewrite fold_left_app. Qed.

Lemma take_digit_char d s : (d < 10)%N -> take_digits (String (pretty_N_char d) s) = (d :: (take_digits s).1, (take_digits s).2).
Proof.
  intros Hd. assert (Hc : In d [0; 1; 2; 3; 4; 5; 6; 7; 8; 9]%N) by (simpl; lia).
  cbn [take_digits]. simpl in Hc. destruct_or! Hc; try done; subst d; cbn; by destruct (take_digits s).
Qed.

Lemma pretty_N_digits n : exists ds,
  (forall s, take_digits (pretty_N_go n s) = (ds ++ (take_digits s).1, (take_digits s).2)) /\
  digits_value ds = n /\ ((0 < n)%N -> exists d r, ds = d :: r /\ d <> 0%N).
Proof.
  induction n as [n IH] using (well_founded_ind N.lt_wf_0). destruct (decide (n = 0%N)) as [->|Hn].
  - exists []. split; [|split; [done|lia]]. intros s. rewrite pretty_N_go_0. by destruct (take_digits s).
  - destruct (IH (n / 10)%N) as (ds & Hds & Hv & Hh); [apply N.div_lt; lia|].
    exists (ds ++ [(n mod 10)%N]). split_and!.
    + intros s. rewrite pretty_N_go_step by lia. rewrite Hds, take_digit_char by (apply N.mod_lt; lia). by rewrite <- app_assoc.
    + rewrite digits_value_snoc, Hv. pose proof (N.div_mod n 10). lia.
    + intros _. destruct (decide (n / 10 = 0)%N) as [He|He].
      * assert (ds = []) as ->.
        { rewrite He in Hv. specialize (Hds ""). rewrite He, pretty_N_go_0 in Hds. injection Hds as Hds. by destruct ds. }
        exists (n mod 10)%N, []. split; [done|]. pose proof (N.div_mod n 10). lia.
      * destruct Hh as (d & r & -> & Hd); [lia|]. exists d, (r ++ [(n mod 10)%N]). done.
Qed.

(** The digits of a positive number, without leading zero. *)
Lemma FormatInt_pos p : exists d r,
  FormatInt (Zpos p) = pretty (Npos p) /\ take_digits (pretty (Npos p)) = (d :: r, "") /\
  digits_value (d :: r) = Npos p /\ d <> 0%N.
Proof.
  destruct (pretty_N_digits (Npos p)) as (ds & Hds & Hv & Hh). destruct Hh as (d & r & -> & Hd); [lia|].
  exists d, r. split; [done|]. split; [|done]. unfold pretty, pretty_N. rewrite decide_False by done. rewrite Hds. cbn. by rewrite app_nil_r.
Qed.

(** A text that starts with a digit has no sign. *)
Lemma take_digits_unsigned s d r : take_digits s = (d :: r, "") -> signed_digits s = (false, s) /\ CutPrefix s "-" = None.
Proof.
  destruct s as [|c s]; [done|]. cbn [take_digits signed_digits CutPrefix].
  destruct (Ascii.eqb_spec c "-") as [->|]; [done|]. destruct (Ascii.eqb_spec c "+") as [->|]; [done|]. intros _. split; [done|].
  by destruct (Ascii.eqb_spec "-" c).
Qed.

Lemma FormatInt_neg p : FormatInt (Zneg p) = "-" +:+ pretty (Npos p).
Proof. done. Qed.

Lemma ParseInt_FormatInt z bits : in_bits bits z = true -> ParseInt (FormatInt z) bits = Some z.
Proof.
  intros Hb. unfold ParseInt. destruct z as [|p|p].
  - transitivity (if in_bits bits 0 then Some 0%Z else None); [reflexivity|by rewrite Hb].
  - destruct (FormatInt_pos p) as (d & r & -> & Ht & Hv & _). destruct (take_digits_unsigned _ _ _ Ht) as [-> _].
    rewrite Ht, Hv. cbn [Z.of_N]. by rewrite Hb.
  - destruct (FormatInt_pos p) as (d & r & _ & Ht & Hv & _). rewrite FormatInt_neg.
    change (signed_digits ("-" +:+ pretty (Npos p))) with (true, pretty (Npos p)). cbv iota beta.
    rewrite Ht, Hv. change (- Z.of_N (Npos p))%Z with (Zneg p). by rewrite Hb.
Qed.

(** ** Integers a float64 holds *)

(** The value of a float64 that is an integer. *)
Definition int_value (f : float64) : option Z :=
  match f with
  | S754_zero _ => Some 0%Z
  | S754_finite s m e =>
    if (0 <=? e)%Z then Some (cond_Zopp s (Zpos m * 2 ^ e))
    else if (Zpos m mod 2 ^ (- e) =? 0)%Z then Some (cond_Zopp s (Zpos m / 2 ^ (- e))) else None
  | _ => None
  end.

Lemma digits2_xO k p : digits2_pos (Pos.iter xO p k) = (digits2_pos p + k)%positive.
Proof.
  induction k as [|k IH] using Pos.peano_ind; [simpl; lia|].
  rewrite Pos.iter_succ. cbn [digits2_pos]. rewrite IH. lia.
Qed.

Lemma digits2_bound p k : (Zpos p < 2 ^ k)%Z -> (0 <= k)%Z -> (Zpos (digits2_pos p) <= k)%Z.
Proof.
  revert k. induction p as [p IH|p IH|]; intros k Hp Hk.
  - assert (k <> 0)%Z by (intros ->; simpl in Hp; lia). cbn [digits2_pos]. specialize (IH (k - 1)%Z).
    replace k with (1 + (k - 1))%Z in Hp by lia. rewrite Z.pow_add_r in Hp by lia. lia.
  - assert (k <> 0)%Z by (intros ->; simpl in Hp; lia). cbn [digits2_pos]. specialize (IH (k - 1)%Z).
    replace k with (1 + (k - 1))%Z in Hp by lia. rewrite Z.pow_add_r in Hp by lia. lia.
  - assert (k <> 0)%Z by (intros ->; simpl in Hp; lia). simpl. lia.
Qed.

Lemma iter_xO_value k p : Zpos (Pos.iter xO p k) = (Zpos p * 2 ^ Zpos k)%Z.
Proof.
  induction k as [|k IH] using Pos.peano_ind; [simpl; lia|].
  rewrite Pos.iter_succ, Pos2Z.inj_xO, IH, Pos2Z.inj_succ, Z.pow_succ_r by lia. lia.
Qed.

Lemma shr_fexp_aligned m e : (fexp 53 1024 (Zdigits2 m + e) <= e)%Z -> shr_fexp 53 1024 m e loc_Exact = (shr_record_of_loc m loc_Exact, e).
Proof.
  intros Ha. unfold shr_fexp, shr. destruct (fexp 53 1024 (Zdigits2 m + e) - e)%Z eqn:Hd; [done| |done]. lia.
Qed.

Lemma round_aligned s p e :
  (fexp 53 1024 (Zpos (digits2_pos p) + e) <= e)%Z -> (e <= 971)%Z ->
  binary_round_aux 53 1024 s (Zpos p) e loc_Exact = S754_finite s p e.
Proof.
  intros Ha He. unfold binary_round_aux. rewrite (shr_fexp_aligned (Zpos p) e Ha). cbn [shr_record_of_loc shr_m loc_of_shr_record round_nearest_even].
  rewrite (shr_fexp_aligned (Zpos p) e Ha). cbn [shr_record_of_loc shr_m].
  assert (Z.leb e (1024 - 53) = true) as -> by (apply Z.leb_le; lia). done.
Qed.

(** An integer of at most 53 bits is its float64. *)
Lemma round_small_int s p : (Zpos p < 2 ^ 53)%Z -> int_value (binary_round 53 1024 s p 0) = Some (cond_Zopp s (Zpos p)).
Proof.
  intros Hp. pose proof (digits2_bound p 53 Hp ltac:(lia)) as Hd. unfold binary_round. rewrite Z.add_0_r.
  assert (Hf : fexp 53 1024 (Zpos (digits2_pos p)) = (Zpos (digits2_pos p) - 53)%Z).
  { unfold fexp, emin. lia. }
  rewrite Hf. unfold shl_align. rewrite Z.sub_0_r.
  destruct (Zpos (digits2_pos p) - 53)%Z as [|q|k] eqn:Hk; [| lia |].
  - rewrite round_aligned; [|unfold fexp, emin; lia|lia]. cbn [int_value]. change (0 <=? 0)%Z with true. cbv iota. by rewrite Z.mul_1_r.
  - rewrite round_aligned; [|unfold fexp, emin; rewrite digits2_xO; lia|lia].
    cbn [int_value]. change (0 <=? Zneg k)%Z with false. cbv iota. change (- Zneg k)%Z with (Zpos k).
    rewrite iter_xO_value, Z.mod_mul, Z.div_mul by lia. done.
Qed.

Lemma parse_number_FormatInt z :
  parse_number (FormatInt z) = Some {| d_neg := (z <? 0)%Z; d_mant := Z.abs_N z; d_exp := 0 |}.
Proof.
  destruct z as [|p|p]; [done| |].
  - destruct (FormatInt_pos p) as (d & r & -> & Ht & Hv & Hd). unfold parse_number.
    destruct (take_digits_unsigned _ _ _ Ht) as [_ ->]. rewrite Ht. change (default 1%N (head (d :: r))) with d.
    assert ((d =? 0)%N = false) as -> by (by apply N.eqb_neq). rewrite andb_false_r. cbn [parse_frac parse_exp]. rewrite app_nil_r, Hv. done.
  - destruct (FormatInt_pos p) as (d & r & _ & Ht & Hv & Hd). rewrite FormatInt_neg. unfold parse_number.
    rewrite CutPrefix_app, Ht. change (default 1%N (head (d :: r))) with d.
    assert ((d =? 0)%N = false) as -> by (by apply N.eqb_neq). rewrite andb_false_r. cbn [parse_frac parse_exp]. rewrite app_nil_r, Hv. done.
Qed.

(** The float64 of an integer of at most 53 bits is that integer. *)
Lemma f64_of_small_int z : (Z.abs z <= 2 ^ 53)%Z -> exists f, f64_of_literal (FormatInt z) = Some f /\ int_value f = Some z.
Proof.
  intros Hz. unfold f64_of_literal. rewrite parse_number_FormatInt. unfold f64_of_decimal. cbn [d_mant d_exp d_neg].
  assert (Hend : forall r, int_value r = Some z ->
    exists f, match r with S754_infinity _ | S754_nan => None | _ => Some r end = Some f /\ int_value f = Some z).
  { intros [| | |]; cbn; try done; eauto. }
  destruct (decide (Z.abs z = 2 ^ 53)%Z) as [He|Hne].
  { assert (z = 2 ^ 53 \/ z = - 2 ^ 53)%Z as [->| ->] by lia; eexists; split; by vm_compute. }
  destruct z as [|p|p]; [by eexists| |]; cbn [Z.abs_N]; change (0 <=? 0)%Z with true; cbv iota; rewrite Z.mul_1_r; apply Hend.
  - exact (round_small_int false p ltac:(lia)).
  - exact (round_small_int true p ltac:(lia)).
Qed.
