(* ===== verification/Condition.v ===== *)
(** Policy conditions (src/go/permission/condition.go): the declarative
    condition type shared by policies, workflow guards and validators, and its
    JSON encoding and decoding, the panic of a leaf without a value included.
    The Go struct is kept field by field: which variant a value is read as
    depends on which of [All] and [Any] is a non-nil slice (here [Some]), and
    not every reader looks at the fields in the same order. *)
From S2P Require Import Prelude GoStrings Json.

Open Scope string_scope.

(** type ConditionOp string *)
Definition ConditionOp := string.
Definition OpEq : ConditionOp := "eq".
Definition OpNeq : ConditionOp := "neq".
Definition OpIn : ConditionOp := "in".
Definition OpNotIn : ConditionOp := "notIn".
Definition OpGt : ConditionOp := "gt".
Definition OpGte : ConditionOp := "gte".
Definition OpLt : ConditionOp := "lt".
Definition OpLte : ConditionOp := "lte".
Definition OpContains : ConditionOp := "contains".
Definition OpNotContains : ConditionOp := "notContains".

(** [Literal] is a json.RawMessage, [None] when nil. *)
Record PolicyValue : Type := mkPolicyValue {
  pv_Literal : option json;
  pv_FromContext : string;
  pv_isFromCtx : bool
}.

Definition LiteralValue (v : json) : PolicyValue := mkPolicyValue (Some v) "" false.
Definition FromContextValue (key : string) : PolicyValue := mkPolicyValue None key true.
Definition IsFromContext (v : PolicyValue) : bool := pv_isFromCtx v.

Inductive PolicyCondition : Type :=
| mkCond (Attribute : string) (Op : ConditionOp) (Value : PolicyValue) (isLeaf : bool)
         (All Any : option (list PolicyCondition)).

Definition c_Attribute (c : PolicyCondition) : string := let 'mkCond a _ _ _ _ _ := c in a.
Definition c_Op (c : PolicyCondition) : ConditionOp := let 'mkCond _ o _ _ _ _ := c in o.
Definition c_Value (c : PolicyCondition) : PolicyValue := let 'mkCond _ _ v _ _ _ := c in v.
Definition c_isLeaf (c : PolicyCondition) : bool := let 'mkCond _ _ _ l _ _ := c in l.
Definition c_All (c : PolicyCondition) : option (list PolicyCondition) := let 'mkCond _ _ _ _ a _ := c in a.
Definition c_Any (c : PolicyCondition) : option (list PolicyCondition) := let 'mkCond _ _ _ _ _ a := c in a.

Definition zero_value : PolicyValue := mkPolicyValue None "" false.

(** A variadic parameter called with no argument is a nil slice. *)
Definition variadic {A} (l : list A) : option (list A) :=
  match l with [] => None | _ => Some l end.

Definition AttributeCondition (attribute : string) (op : ConditionOp) (value : PolicyValue) : PolicyCondition :=
  mkCond attribute op value true None None.
Definition AllCondition (conditions : list PolicyCondition) : PolicyCondition :=
  mkCond "" "" zero_value false (variadic conditions) None.
Definition AnyCondition (conditions : list PolicyCondition) : PolicyCondition :=
  mkCond "" "" zero_value false None (variadic conditions).

(** The induction principle for the nested slices. *)
Section CondInd.
Variable P : PolicyCondition -> Prop.
Hypothesis Hcond : forall a o v l al an,
  (forall cs, al = Some cs -> Forall P cs) -> (forall cs, an = Some cs -> Forall P cs) ->
  P (mkCond a o v l al an).

Fixpoint cond_nested_ind (c : PolicyCondition) : P c :=
  let go := fix go (l : list PolicyCondition) : Forall P l :=
    match l with
    | [] => Forall_nil_2 P
    | x :: l' => Forall_cons_2 P x l' (cond_nested_ind x) (go l')
    end in
  match c with
  | mkCond a o v l al an =>
    Hcond a o v l al an
      (match al return forall cs, al = Some cs -> Forall P cs with
       | None => fun cs H => ltac:(discriminate H)
       | Some l0 => fun cs H => match (ltac:(by injection H) : l0 = cs) in _ = x return Forall P x
                                with eq_refl => go l0 end
       end)
      (match an return forall cs, an = Some cs -> Forall P cs with
       | None => fun cs H => ltac:(discriminate H)
       | Some l0 => fun cs H => match (ltac:(by injection H) : l0 = cs) in _ = x return Forall P x
                                with eq_refl => go l0 end
       end)
  end.
End CondInd.

(** ** JSON encoding *)

Definition PolicyValue_MarshalJSON (v : PolicyValue) : json :=
  if pv_isFromCtx v then JObj [("fromContext", JStr (pv_FromContext v))]
  else JObj [("literal", default JNull (pv_Literal v))].

Fixpoint PolicyCondition_MarshalJSON (c : PolicyCondition) : result string json :=
  let marshal_all := fix go (l : list PolicyCondition) : result string (list json) :=
    match l with
    | [] => Ok []
    | x :: l' => let! j := PolicyCondition_MarshalJSON x in
                 let! js := go l' in Ok (j :: js)
    end in
  match c with
  | mkCond a o v isLeaf al an =>
    if isLeaf then
      Ok (JObj [("attribute", JStr a); ("op", JStr o); ("value", PolicyValue_MarshalJSON v)])
    else match al with
    | Some l => let! js := marshal_all l in Ok (JObj [("all", JArr js)])
    | None =>
      match an with
      | Some l => let! js := marshal_all l in Ok (JObj [("any", JArr js)])
      | None => Err "permission: PolicyCondition has no variant set"
      end
    end
  end.

(** ** JSON decoding *)

(** encoding/json matches an object key to a struct field by its name, then
    case-insensitively (the field names here have only ASCII case variants). *)
Definition key_matches (name key : string) : bool :=
  String.eqb key name || String.eqb (ToUpper key) (ToUpper name).

Definition type_error : string := "json: cannot unmarshal value into Go struct field".

(** The probe of PolicyValue.UnmarshalJSON after each member; [None] in the
    third component of the state is "no type error saved so far". *)
Definition value_probe_step (st : option string * option json * bool) (kv : string * json)
  : option string * option json * bool :=
  let '(fc, lit, bad) := st in
  if key_matches "fromContext" kv.1 then
    match kv.2 with
    | JStr s => (Some s, lit, bad)
    | JNull => (None, lit, bad)
    | _ => (fc, lit, true)
    end
  else if key_matches "literal" kv.1 then (fc, Some kv.2, bad)
  else st.

Definition PolicyValue_UnmarshalJSON (j : json) : result string PolicyValue :=
  match j with
  | JObj l =>
    let '(fc, lit, bad) := fold_left value_probe_step l (None, None, false) in
    if bad then Err type_error
    else match fc with
         | Some k => Ok (mkPolicyValue None k true)
         | None => Ok (mkPolicyValue lit "" false)
         end
  | JNull => Ok (mkPolicyValue None "" false)
  | _ => Err type_error
  end.

Record probe : Type := mkProbe {
  pr_Attribute : option string;
  pr_Op : ConditionOp;
  pr_Value : option PolicyValue;
  pr_All : option (list PolicyCondition);
  pr_Any : option (list PolicyCondition);
  pr_bad : bool
}.
Definition empty_probe : probe := mkProbe None "" None None None false.

(** The switch of PolicyCondition.UnmarshalJSON on the decoded probe: a leaf
    dereferences the value pointer. *)
Definition probe_to_condition (p : probe) : result string PolicyCondition :=
  if pr_bad p then Err type_error else
  match pr_Attribute p with
  | Some a =>
    match pr_Value p with
    | Some v => Ok (mkCond a (pr_Op p) v true None None)
    | None => Panic
    end
  | None =>
    match pr_All p with
    | Some l => Ok (mkCond "" "" zero_value false (Some l) None)
    | None =>
      match pr_Any p with
      | Some l => Ok (mkCond "" "" zero_value false None (Some l))
      | None => Err "permission: PolicyCondition JSON matches no known variant"
      end
    end
  end.

Fixpoint PolicyCondition_UnmarshalJSON (j : json) : result string PolicyCondition :=
  let decode_slice := fix go (l : list json) : result string (list PolicyCondition) :=
    match l with
    | [] => Ok []
    | x :: l' => let! c := PolicyCondition_UnmarshalJSON x in
                 let! cs := go l' in Ok (c :: cs)
    end in
  let members := fix go (p : probe) (l : list (string * json)) : result string probe :=
    match l with
    | [] => Ok p
    | (k, v) :: l' =>
      let '(mkProbe a o val al an bad) := p in
      if key_matches "attribute" k then
        match v with
        | JStr s => go (mkProbe (Some s) o val al an bad) l'
        | JNull => go (mkProbe None o val al an bad) l'
        | _ => go (mkProbe a o val al an true) l'
        end
      else if key_matches "op" k then
        match v with
        | JStr s => go (mkProbe a s val al an bad) l'
        | JNull => go p l'
        | _ => go (mkProbe a o val al an true) l'
        end
      else if key_matches "value" k then
        match v with
        | JNull => go (mkProbe a o None al an bad) l'
        | _ => let! pv := PolicyValue_UnmarshalJSON v in
               go (mkProbe a o (Some pv) al an bad) l'
        end
      else if key_matches "all" k then
        match v with
        | JNull => go (mkProbe a o val None an bad) l'
        | JArr xs => let! cs := decode_slice xs in go (mkProbe a o val (Some cs) an bad) l'
        | _ => go (mkProbe a o val al an true) l'
        end
      else if key_matches "any" k then
        match v with
        | JNull => go (mkProbe a o val al None bad) l'
        | JArr xs => let! cs := decode_slice xs in go (mkProbe a o val al (Some cs) bad) l'
        | _ => go (mkProbe a o val al an true) l'
        end
      else go p l'
    end in
  match j with
  | JObj l => let! p := members empty_probe l in probe_to_condition p
  | JNull => probe_to_condition empty_probe
  | _ => Err type_error
  end.

(** ** Properties *)

(** The values the three constructor functions build. *)
Definition wf_value (v : PolicyValue) : bool :=
  if pv_isFromCtx v
  then match pv_Literal v with None => true | Some _ => false end
  else match pv_Literal v with Some _ => String.eqb (pv_FromContext v) "" | None => false end.

Definition is_zero_value (v : PolicyValue) : bool :=
  match v with mkPolicyValue None "" false => true | _ => false end.

Fixpoint wf_condition (c : PolicyCondition) : bool :=
  match c with
  | mkCond a o v isLeaf al an =>
    if isLeaf
    then wf_value v && match al, an with None, None => true | _, _ => false end
    else String.eqb a "" && String.eqb o "" && is_zero_value v &&
         match al, an with
         | Some l, None => forallb wf_condition l
         | None, Some l => forallb wf_condition l
         | _, _ => false
         end
  end.

Lemma value_json_roundtrip v :
  wf_value v = true -> PolicyValue_UnmarshalJSON (PolicyValue_MarshalJSON v) = Ok v.
Proof.
  destruct v as [[lit|] fc [|]]; try done; unfold wf_value; simpl.
  by intros ->%String.eqb_eq.
Qed.

Lemma is_zero_value_spec v : is_zero_value v = true -> v = zero_value.
Proof. by destruct v as [[]  [] []]. Qed.

(** Marshalling a list, the local loop of both functions, as [mapR]. *)
Lemma marshal_list_mapR l :
  (fix go (l : list PolicyCondition) : result string (list json) :=
     match l with
     | [] => Ok []
     | x :: l' => let! j := PolicyCondition_MarshalJSON x in
                  let! js := go l' in Ok (j :: js)
     end) l = mapR PolicyCondition_MarshalJSON l.
Proof. induction l as [|x l IH]; simpl; [done|]. by rewrite IH. Qed.

Lemma unmarshal_list_mapR l :
  (fix go (l : list json) : result string (list PolicyCondition) :=
     match l with
     | [] => Ok []
     | x :: l' => let! c := PolicyCondition_UnmarshalJSON x in
                  let! cs := go l' in Ok (c :: cs)
     end) l = mapR PolicyCondition_UnmarshalJSON l.
Proof. induction l as [|x l IH]; simpl; [done|]. by rewrite IH. Qed.

Definition json_roundtrips (c : PolicyCondition) : Prop :=
  exists j, PolicyCondition_MarshalJSON c = Ok j /\ PolicyCondition_UnmarshalJSON j = Ok c.

Lemma roundtrip_list l :
  Forall json_roundtrips l ->
  exists js, mapR PolicyCondition_MarshalJSON l = Ok js /\ mapR PolicyCondition_UnmarshalJSON js = Ok l.
Proof.
  induction 1 as [|c l (j & Hm & Hu) _ (js & Hms & Hus)]; [by exists []|].
  exists (j :: js). simpl. by rewrite Hm, Hms, Hu, Hus.
Qed.

Lemma roundtrip_all l :
  Forall json_roundtrips l -> json_roundtrips (mkCond "" "" zero_value false (Some l) None).
Proof.
  intros (js & Hms & Hus)%roundtrip_list. exists (JObj [("all", JArr js)]).
  split; cbn -[mapR]; [rewrite marshal_list_mapR, Hms; done|].
  rewrite unmarshal_list_mapR, Hus. done.
Qed.

Lemma roundtrip_any l :
  Forall json_roundtrips l -> json_roundtrips (mkCond "" "" zero_value false None (Some l)).
Proof.
  intros (js & Hms & Hus)%roundtrip_list. exists (JObj [("any", JArr js)]).
  split; cbn -[mapR]; [rewrite marshal_list_mapR, Hms; done|].
  rewrite unmarshal_list_mapR, Hus. done.
Qed.

Lemma wf_roundtrips_list (l : list PolicyCondition) :
  Forall (fun c => wf_condition c = true -> json_roundtrips c) l ->
  forallb wf_condition l = true -> Forall json_roundtrips l.
Proof.
  induction 1; simpl; [constructor|]. intros [? ?]%andb_true_iff. constructor; auto.
Qed.

Lemma leaf_roundtrips a o v :
  wf_value v = true -> json_roundtrips (mkCond a o v true None None).
Proof.
  intros Hv. eexists. split; [reflexivity|]. cbn -[PolicyValue_UnmarshalJSON PolicyValue_MarshalJSON].
  assert (PolicyValue_MarshalJSON v <> JNull) by (by unfold PolicyValue_MarshalJSON; destruct (pv_isFromCtx v)).
  pose proof (value_json_roundtrip v Hv) as Hr.
  destruct (PolicyValue_MarshalJSON v); try done; by rewrite Hr.
Qed.

Lemma wf_roundtrips c : wf_condition c = true -> json_roundtrips c.
Proof.
  induction c as [a o v isLeaf al an IHal IHan] using cond_nested_ind. cbn [wf_condition].
  destruct isLeaf.
  - intros [Hv Hn]%andb_true_iff. destruct al, an; try done. by apply leaf_roundtrips.
  - intros [[[->%String.eqb_eq ->%String.eqb_eq]%andb_true_iff ->%is_zero_value_spec]%andb_true_iff Hl]%andb_true_iff.
    destruct al as [l|], an as [l'|]; try done.
    + apply roundtrip_all, wf_roundtrips_list; auto.
    + apply roundtrip_any, wf_roundtrips_list; auto.
Qed.

(** Every condition the constructors build (leaves, and all/any nodes over
    them, empty lists included) is encoded to JSON without error, and decoding
    that JSON gives the same condition back. *)
Lemma condition_json_roundtrip c :
  wf_condition c = true ->
  exists j, PolicyCondition_MarshalJSON c = Ok j /\ PolicyCondition_UnmarshalJSON j = Ok c.
Proof. apply wf_roundtrips. Qed.

Lemma condition_json_roundtrip_witness :
  exists j, PolicyCondition_MarshalJSON
      (AllCondition [AttributeCondition "status" OpEq (LiteralValue (JStr "open"));
                     AnyCondition [AttributeCondition "ownerId" OpEq (FromContextValue "userId")]]) = Ok j
    /\ PolicyCondition_UnmarshalJSON j =
      Ok (AllCondition [AttributeCondition "status" OpEq (LiteralValue (JStr "open"));
                     AnyCondition [AttributeCondition "ownerId" OpEq (FromContextValue "userId")]]).
Proof. apply condition_json_roundtrip. reflexivity. Defined.

(** Decoding a leaf whose value member is absent (or null) panics: the
    decoder dereferences the nil value pointer. The condition can reach the
    decoder from any request body that carries a policy condition. *)
Lemma condition_leaf_without_value_panics a o :
  PolicyCondition_UnmarshalJSON (JObj [("attribute", JStr a)]) = Panic /\
  PolicyCondition_UnmarshalJSON (JObj [("attribute", JStr a); ("op", JStr o)]) = Panic /\
  PolicyCondition_UnmarshalJSON (JObj [("attribute", JStr a); ("op", JStr o); ("value", JNull)]) = Panic.
Proof. done. Qed.
