(* ===== verification/Context.v ===== *)
(** The request context (src/go/permission/context.go): who is calling, the
    OAuth2 grant folded into its attributes, and the JSON object conditions
    read it as. *)
From S2P Require Import Prelude GoStrings Json.

Open Scope string_scope.

Definition OAuthScopeAttribute : string := "oauthScope".
Definition OAuthClientIDAttribute : string := "oauthClientId".
Definition AdminScope : string := "admin".

(** [rc_Roles] and [rc_ContextAttributes] are [None] when nil. *)
Record RequestContext : Type := mkRequestContext {
  rc_TenantID : string;
  rc_UserID : string;
  rc_Roles : option (list string);
  rc_HasRoles : bool;
  rc_FunctionID : string;
  rc_ContextAttributes : option (gmap string json);
  rc_ForwardedBearerToken : string
}.

Definition roles_of (c : RequestContext) : list string := default [] (rc_Roles c).

Inductive EntityAction : Type :=
| ActionRead | ActionCreate | ActionUpdate | ActionDelete | ActionTransition.

#[export] Instance EntityAction_eq_dec : EqDecision EntityAction.
Proof. solve_decision. Defined.

Definition AllEntityActions : list EntityAction :=
  [ActionRead; ActionCreate; ActionUpdate; ActionDelete; ActionTransition].

Definition EntityAction_String (a : EntityAction) : string :=
  match a with
  | ActionRead => "read"
  | ActionCreate => "create"
  | ActionUpdate => "update"
  | ActionDelete => "delete"
  | ActionTransition => "transition"
  end.

Definition TransitionActionPolicy (action : string) : string :=
  EntityAction_String ActionTransition +:+ ":" +:+ action.

Definition IsAdmin (c : RequestContext) : bool :=
  existsb (fun r => String.eqb r "admin") (roles_of c).

(** json.Marshal of a []string value, nil as null. *)
Definition marshal_strings (l : option (list string)) : json :=
  match l with Some ss => JArr (map JStr ss) | None => JNull end.

Definition ApplyOAuthGrant (c : RequestContext) (scope clientID : string) (hasClientID : bool) : RequestContext :=
  let attrs := default ∅ (rc_ContextAttributes c) in
  let tokens := Fields scope in
  let attrs := <[OAuthScopeAttribute := marshal_strings (Some tokens)]> attrs in
  let attrs := if hasClientID then <[OAuthClientIDAttribute := JStr clientID]> attrs else attrs in
  mkRequestContext (rc_TenantID c) (rc_UserID c) (rc_Roles c) (rc_HasRoles c) (rc_FunctionID c)
    (Some attrs) (rc_ForwardedBearerToken c).

Definition OAuthScope (c : RequestContext) : option (list string) :=
  match rc_ContextAttributes c with
  | None => None
  | Some attrs =>
    match attrs !! OAuthScopeAttribute with
    | None => None
    | Some raw => unmarshal_strings raw
    end
  end.

Definition scope_verb (action : EntityAction) : string :=
  match action with
  | ActionRead => "read"
  | ActionCreate | ActionUpdate => "write"
  | ActionDelete => "delete"
  | ActionTransition => "transition"
  end.

(** The test of one granted token. *)
Definition scope_token_permits (verb entity t : string) : bool :=
  match Cut t ":" with
  | Some (v, e) => String.eqb v verb && (String.eqb e "*" || String.eqb e entity)
  | None => false
  end.

Definition ScopePermits (c : RequestContext) (entity : string) (action : EntityAction) : bool :=
  match OAuthScope c with
  | None => true
  | Some tokens => existsb (scope_token_permits (scope_verb action) entity) tokens
  end.

Definition ScopePermitsAdminSurface (c : RequestContext) : bool :=
  match OAuthScope c with
  | None => true
  | Some tokens => existsb (fun t => String.eqb t AdminScope) tokens
  end.

(** The members ToValue writes, before they are encoded: the fixed members,
    then every context attribute, which overrides a fixed one of its name. *)
Definition context_members (c : RequestContext) : gmap string json :=
  let out := {["tenantId" := JStr (rc_TenantID c)]} in
  let out := if String.eqb (rc_UserID c) "" then out else <["userId" := JStr (rc_UserID c)]> out in
  let out := if rc_HasRoles c then <["roles" := marshal_strings (rc_Roles c)]> out else out in
  let out := if String.eqb (rc_FunctionID c) "" then out else <["functionId" := JStr (rc_FunctionID c)]> out in
  default ∅ (rc_ContextAttributes c) ∪ out.

Definition ToValue (c : RequestContext) : json := marshal_map (context_members c).

Record PermissionDecision : Type := mkDecision {
  pd_Allowed : bool;
  pd_Reason : string;
  pd_Field : string
}.
Definition Allowed : PermissionDecision := mkDecision true "" "".
Definition Forbidden : PermissionDecision := mkDecision false "forbidden" "".
Definition ForbiddenField (field : string) : PermissionDecision := mkDecision false "forbidden" field.

(** ** Properties *)

Lemma IsAdmin_spec c : IsAdmin c = true <-> "admin" ∈ roles_of c.
Proof.
  unfold IsAdmin. rewrite existsb_exists. setoid_rewrite String.eqb_eq.
  rewrite list_elem_of_In. naive_solver.
Qed.

Lemma ToValue_members c : unmarshal_map (ToValue c) = Some (context_members c).
Proof. apply unmarshal_marshal_map. Qed.

Lemma mapM_unmarshal_strings ss : mapM unmarshal_string (map JStr ss) = Some ss.
Proof. induction ss as [|s ss IH]; simpl; [done|]. by rewrite IH. Qed.

Lemma ApplyOAuthGrant_scope c scope cid has :
  OAuthScope (ApplyOAuthGrant c scope cid has) = Some (Fields scope).
Proof.
  unfold OAuthScope, ApplyOAuthGrant. simpl. destruct has.
  - rewrite lookup_insert_ne by done. rewrite lookup_insert_eq. simpl.
    apply mapM_unmarshal_strings.
  - rewrite lookup_insert_eq. simpl. apply mapM_unmarshal_strings.
Qed.

Lemma existsb_elem {A} (f : A -> bool) l : existsb f l = true <-> exists x, x ∈ l /\ f x = true.
Proof. rewrite existsb_exists. by setoid_rewrite list_elem_of_In. Qed.

Lemma scope_token_permits_spec verb entity t :
  scope_token_permits verb entity t = true <->
  exists v e, Cut t ":" = Some (v, e) /\ v = verb /\ (e = "*" \/ e = entity).
Proof.
  unfold scope_token_permits. destruct (Cut t ":") as [[v e]|]; [|naive_solver].
  rewrite andb_true_iff, orb_true_iff, !String.eqb_eq. naive_solver.
Qed.

(** After an OAuth2 grant is folded into a context, an entity action is in
    scope exactly when the grant's scope string has a token whose verb is the
    action's (create and update are both write) and whose entity part is the
    entity or a star; roles, including admin, play no part. *)
Lemma oauth_grant_scope_exact c scope cid has entity action :
  ScopePermits (ApplyOAuthGrant c scope cid has) entity action = true <->
  exists t v e, t ∈ Fields scope /\ Cut t ":" = Some (v, e) /\ v = scope_verb action
                /\ (e = "*" \/ e = entity).
Proof.
  unfold ScopePermits. rewrite ApplyOAuthGrant_scope, existsb_elem.
  setoid_rewrite scope_token_permits_spec. naive_solver.
Qed.

(** A context attribute never changes what a condition reads under a fixed
    member's name unless it has that name. *)
Lemma context_members_tenant c :
  default ∅ (rc_ContextAttributes c) !! "tenantId" = None ->
  context_members c !! "tenantId" = Some (JStr (rc_TenantID c)).
Proof.
  intros H. unfold context_members. rewrite lookup_union_r by done.
  repeat case_match; by simplify_map_eq.
Qed.
