(* ===== verification/Uuid.v ===== *)
(** github.com/google/uuid, a package outside the repository, as an interface:
    the type of identifiers, parsing and canonical printing. The only
    documented fact the development relies on is [UuidLaws]: the canonical
    text of an identifier parses back to it. *)
From S2P Require Import Prelude GoStrings.

Open Scope string_scope.

Class UuidLib := {
  uuid : Type;
  uuid_eq_dec :: EqDecision uuid;
  uuid_countable :: Countable uuid;
  uuid_Parse : string -> option uuid;
  uuid_String : uuid -> string
}.

Class UuidLaws (U : UuidLib) : Prop := {
  uuid_parse_string : forall u : uuid, uuid_Parse (uuid_String u) = Some u
}.

Lemma uuid_String_inj {U : UuidLib} {L : UuidLaws U} (u v : uuid) : uuid_String u = uuid_String v -> u = v.
Proof. intros He%(f_equal uuid_Parse). rewrite !uuid_parse_string in He. congruence. Qed.

(** An instance for witnesses and examples: texts of the form uuid-x. *)
Definition TestUuid : UuidLib := {|
  uuid := string;
  uuid_Parse s := CutPrefix s "uuid-";
  uuid_String u := "uuid-" +:+ u
|}.

#[export] Instance TestUuid_laws : UuidLaws TestUuid.
Proof. constructor. intros u. apply CutPrefix_app. Qed.
