(* ===== verification/Evaluate.v ===== *)
(** Condition and policy evaluation (src/go/permission/evaluate.go,
    resolve.go and the row type of policystore.go): how a condition reads the
    record or the caller, how its operators compare JSON values, and how a set
    of policies is combined into one verdict. *)
From S2P Require Import Prelude GoStrings Json Condition Context Uuid.

Open Scope string_scope.

(** ** Policy rows *)

Inductive PolicyEffect : Type := EffectAllow | EffectDeny.

#[export] Instance PolicyEffect_eq_dec : EqDecision PolicyEffect.
Proof. solve_decision. Defined.

Definition PolicyEffect_String (e : PolicyEffect) : string :=
  match e with EffectDeny => "deny" | EffectAllow => "allow" end.

Definition ParsePolicyEffect (s : string) : PolicyEffect :=
  if String.eqb s "deny" then EffectDeny else EffectAllow.

Record PolicyRow `{UuidLib} : Type := mkPolicyRow {
  p_ID : uuid;
  p_TenantID : uuid;
  p_Entity : string;
  p_Action : string;
  p_Field : string;
  p_Subject : string;
  p_Roles : list string;
  p_HasRoles : bool;
  p_Condition : option PolicyCondition;
  p_CreatedBy : option uuid;
  p_Effect : PolicyEffect
}.

(** ** Resolving values and attributes (resolve.go) *)

Definition ResolveValue (value : PolicyValue) (ctx : RequestContext) : json :=
  if pv_isFromCtx value then
    match unmarshal_map (ToValue ctx) with
    | Some m => default JNull (m !! pv_FromContext value)
    | None => JNull
    end
  else default JNull (pv_Literal value).

Definition ContextAttributePrefix : string := "$ctx.".
Definition WorkflowAttributePrefix : string := "$workflow.".

(** The loop of resolveAttributePath over the segments still to follow. *)
Fixpoint resolve_segments (current : json) (segments : list string) : json :=
  match segments with
  | [] => current
  | segment :: rest =>
    match unmarshal_map current with
    | None => JNull
    | Some m =>
      match m !! segment with
      | None => JNull
      | Some next => resolve_segments next rest
      end
    end
  end.

(** [subject] is [None] for a nil message, which does not decode. *)
Definition resolveAttributePath (subject : option json) (attribute : string) : json :=
  match subject with
  | None => JNull
  | Some j => resolve_segments j (Split attribute ".")
  end.

Definition resolveAttribute (subject : option json) (attribute : string) (ctx : option RequestContext) : json :=
  match CutPrefix attribute ContextAttributePrefix with
  | Some rest =>
    match ctx with
    | None => JNull
    | Some c => resolveAttributePath (Some (ToValue c)) rest
    end
  | None => resolveAttributePath subject attribute
  end.

Definition IsContextAttribute (attribute : string) : bool := HasPrefix attribute ContextAttributePrefix.

Definition relationFieldOf (attribute : string) : option string :=
  if HasPrefix attribute "$" then None
  else match Cut attribute "." with Some (head, _) => Some head | None => None end.

(** Appends to the names collected so far, each once. *)
Fixpoint collectRelationFields (condition : PolicyCondition) (out : list string) : list string :=
  let walk := fix go (l : list PolicyCondition) (out : list string) : list string :=
    match l with
    | [] => out
    | inner :: l' => go l' (collectRelationFields inner out)
    end in
  match condition with
  | mkCond attribute _ _ isLeaf al an =>
    if isLeaf then
      match relationFieldOf attribute with
      | Some field => if bool_decide (field ∈ out) then out else (out ++ [field])%list
      | None => out
      end
    else match al with
    | Some l => walk l out
    | None => match an with Some l => walk l out | None => out end
    end
  end.

Definition RequiredRelationFields `{UuidLib} (policies : list PolicyRow) : list string :=
  fold_left (fun out p => match p_Condition p with
                          | Some c => collectRelationFields c out
                          | None => out
                          end) policies [].

(** ** Operators (evaluate.go) *)

Definition jsonEqual (a b : json) : bool := json_value_equal a b.

(** 1, -1, 0, or [None] when the two values are not comparable. *)
Definition compareOrdering (actual expected : json) : option Z :=
  match unmarshal_float64 actual, unmarshal_float64 expected with
  | Some an, Some bn =>
    Some (if f64_gtb an bn then 1 else if f64_ltb an bn then -1 else 0)%Z
  | _, _ =>
    match unmarshal_string actual, unmarshal_string expected with
    | Some as_, Some bs =>
      Some (if str_ltb bs as_ then 1 else if str_ltb as_ bs then -1 else 0)%Z
    | _, _ => None
    end
  end.

Definition jsonArray (v : json) : option (list json) := unmarshal_array v.

Definition arrayContains (arr : list json) (v : json) : bool :=
  existsb (fun item => jsonEqual item v) arr.

Definition matchOperator (op : ConditionOp) (actual expected : json) : bool :=
  if String.eqb op OpEq then jsonEqual actual expected
  else if String.eqb op OpNeq then negb (jsonEqual actual expected)
  else if String.eqb op OpIn then
    match jsonArray expected with Some arr => arrayContains arr actual | None => false end
  else if String.eqb op OpNotIn then
    match jsonArray expected with Some arr => negb (arrayContains arr actual) | None => false end
  else if String.eqb op OpContains then
    match jsonArray actual with Some arr => arrayContains arr expected | None => false end
  else if String.eqb op OpNotContains then
    match jsonArray actual with Some arr => negb (arrayContains arr expected) | None => false end
  else if String.eqb op OpGt then
    match compareOrdering actual expected with Some o => (o =? 1)%Z | None => false end
  else if String.eqb op OpGte then
    match compareOrdering actual expected with Some o => (0 <=? o)%Z | None => false end
  else if String.eqb op OpLt then
    match compareOrdering actual expected with Some o => (o =? -1)%Z | None => false end
  else if String.eqb op OpLte then
    match compareOrdering actual expected with Some o => (o <=? 0)%Z | None => false end
  else false.

Definition RoleGatePassed (policyRoles : list string) (hasPolicyRoles : bool) (callerRoles : list string) : bool :=
  if negb hasPolicyRoles || (length policyRoles =? 0)%nat then true
  else existsb (fun cr => existsb (fun pr => String.eqb cr pr) policyRoles) callerRoles.

(** ** Conditions *)

Record ConditionResult : Type := mkResult { r_passed : bool; r_reason : string }.
Definition passed : ConditionResult := mkResult true "".
Definition failed (reason : string) : ConditionResult := mkResult false reason.
Definition IsPassed (r : ConditionResult) : bool := r_passed r.
Definition Reason (r : ConditionResult) : option string :=
  if r_passed r then None else Some (r_reason r).

Definition leaf_reason (attribute : string) (op : ConditionOp) (expected actual : json) : string :=
  "condition failed: " +:+ attribute +:+ " " +:+ op +:+ " " +:+ json_text expected
    +:+ " (got " +:+ json_text actual +:+ ")".

Fixpoint EvaluateCondition (condition : PolicyCondition) (subject : option json) (ctx : RequestContext) : ConditionResult :=
  let eval_all := fix go (l : list PolicyCondition) : ConditionResult :=
    match l with
    | [] => passed
    | inner :: l' =>
      let result := EvaluateCondition inner subject ctx in
      if negb (IsPassed result) then result else go l'
    end in
  let eval_any := fix go (l : list PolicyCondition) (lastFailure : string) : ConditionResult :=
    match l with
    | [] => failed lastFailure
    | inner :: l' =>
      let result := EvaluateCondition inner subject ctx in
      if IsPassed result then passed
      else go l' (match Reason result with Some reason => reason | None => lastFailure end)
    end in
  match condition with
  | mkCond attribute op value _ al an =>
    match al with
    | Some l => eval_all l
    | None =>
      match an with
      | Some l => eval_any l "no condition in 'any' matched"
      | None =>
        let actual := resolveAttribute subject attribute (Some ctx) in
        let expected := ResolveValue value ctx in
        if matchOperator op actual expected then passed
        else failed (leaf_reason attribute op expected actual)
      end
    end
  end.

(** ** Policies *)

Inductive PolicyVerdict : Type := VerdictAllow | VerdictDeny | VerdictNoMatch.

#[export] Instance PolicyVerdict_eq_dec : EqDecision PolicyVerdict.
Proof. solve_decision. Defined.

Definition IsAllowed (v : PolicyVerdict) : bool :=
  match v with VerdictAllow => true | _ => false end.

Section Policies.
Context `{UuidLib}.

(** [recordSubject] is [None] when hasRecordSubject is false. *)
Definition condition_subject (policy : PolicyRow) (ctx : RequestContext) (recordSubject : option json) : json :=
  if String.eqb (p_Subject policy) "record"
  then default (ToValue ctx) recordSubject
  else ToValue ctx.

Definition EvaluatePolicyRow (policy : PolicyRow) (ctx : RequestContext) (recordSubject : option json) : bool :=
  if negb (RoleGatePassed (p_Roles policy) (p_HasRoles policy) (roles_of ctx)) then false
  else match p_Condition policy with
       | None => true
       | Some c => IsPassed (EvaluateCondition c (Some (condition_subject policy ctx recordSubject)) ctx)
       end.

Fixpoint evaluate_policies_loop (policies : list PolicyRow) (ctx : RequestContext)
    (recordSubject : option json) (anyAllow : bool) : PolicyVerdict :=
  match policies with
  | [] => if anyAllow then VerdictAllow else VerdictNoMatch
  | policy :: rest =>
    if EvaluatePolicyRow policy ctx recordSubject
    then match p_Effect policy with
         | EffectDeny => VerdictDeny
         | EffectAllow => evaluate_policies_loop rest ctx recordSubject true
         end
    else evaluate_policies_loop rest ctx recordSubject anyAllow
  end.

Definition EvaluatePolicies (policies : list PolicyRow) (ctx : RequestContext) (recordSubject : option json) : PolicyVerdict :=
  evaluate_policies_loop policies ctx recordSubject false.

End Policies.

(** ** Properties of conditions *)

Definition condition_passes (subject : option json) (ctx : RequestContext) (c : PolicyCondition) : bool :=
  IsPassed (EvaluateCondition c subject ctx).

(** The short-circuiting loops are conjunction and disjunction. *)
Lemma condition_passes_all a o v lf l an subject ctx :
  condition_passes subject ctx (mkCond a o v lf (Some l) an)
  = forallb (condition_passes subject ctx) l.
Proof.
  unfold condition_passes. cbn [EvaluateCondition].
  induction l as [|x l IH]; [done|]. cbn [forallb]. rewrite <- IH.
  by destruct (IsPassed (EvaluateCondition x subject ctx)) eqn:E; simpl; rewrite ?E.
Qed.

Lemma condition_passes_any a o v lf l subject ctx :
  condition_passes subject ctx (mkCond a o v lf None (Some l))
  = existsb (condition_passes subject ctx) l.
Proof.
  unfold condition_passes. cbn [EvaluateCondition].
  generalize "no condition in 'any' matched".
  induction l as [|x l IH]; intros last; [done|]. cbn [existsb].
  destruct (IsPassed (EvaluateCondition x subject ctx)) eqn:E; simpl; [done|]. by rewrite IH.
Qed.

Lemma condition_passes_leaf a o v lf subject ctx :
  condition_passes subject ctx (mkCond a o v lf None None)
  = matchOperator o (resolveAttribute subject a (Some ctx)) (ResolveValue v ctx).
Proof. unfold condition_passes. cbn [EvaluateCondition]. by destruct (matchOperator _ _ _). Qed.

(** A failing condition always carries the reason the error messages use. *)
Lemma EvaluateCondition_reason c subject ctx :
  IsPassed (EvaluateCondition c subject ctx) = false ->
  Reason (EvaluateCondition c subject ctx) <> None.
Proof. unfold IsPassed, Reason. by intros ->. Qed.

(** A plain attribute (no dot, no context prefix) reads the subject's member. *)
Lemma resolveAttribute_plain subject m attribute ctx :
  unmarshal_map subject = Some m ->
  ContainsByte attribute "." = false ->
  resolveAttribute (Some subject) attribute ctx = default JNull (m !! attribute).
Proof.
  intros Hm Hdot. unfold resolveAttribute, ContextAttributePrefix.
  destruct (CutPrefix attribute "$ctx.") as [r|] eqn:E.
  - apply CutPrefix_Some in E. by subst attribute.
  - simpl. rewrite Split_no_sep by done. simpl. rewrite Hm. by destruct (m !! attribute).
Qed.

Lemma unmarshal_float64_num lit f : f64_of_literal lit = Some f -> unmarshal_float64 (JNum lit) = Some f.
Proof. done. Qed.

(** A record that has no value for an attribute is ordered as if the value
    were the number 0: the missing attribute is the document null, which
    decodes into a float64 without error. So a missing attribute satisfies
    lt against every positive number (and lte, gt, gte likewise), although the
    comment on the comparison says values that are not comparable give no order. *)
Lemma missing_attribute_orders_as_zero m ctx attribute lit f :
  m !! attribute = None ->
  ContainsByte attribute "." = false ->
  f64_of_literal lit = Some f ->
  condition_passes (Some (marshal_map m)) ctx
    (AttributeCondition attribute OpLt (LiteralValue (JNum lit)))
  = (negb (f64_gtb f64_zero f) && f64_ltb f64_zero f)%bool.
Proof.
  intros Hm Hdot Hf. unfold AttributeCondition. rewrite condition_passes_leaf.
  rewrite (resolveAttribute_plain _ m) by (done || apply unmarshal_marshal_map).
  rewrite Hm. cbn [default]. unfold matchOperator, ResolveValue, LiteralValue. cbn -[f64_ltb f64_gtb].
  unfold compareOrdering. cbn [unmarshal_float64]. rewrite Hf.
  by destruct (f64_gtb f64_zero f), (f64_ltb f64_zero f).
Qed.

Lemma missing_attribute_orders_as_zero_witness :
  condition_passes (Some (marshal_map {["title" := JStr "x"]}))
    (mkRequestContext "t1" "" None false "" None "")
    (AttributeCondition "amount" OpLt (LiteralValue (JNum "10.5"))) = true.
Proof.
  rewrite (missing_attribute_orders_as_zero {["title" := JStr "x"]} _ "amount" "10.5"
             (default f64_zero (f64_of_literal "10.5"))); [vm_compute; reflexivity ..].
Defined.

(** ** Properties of policy sets *)

Section PolicyProperties.
Context `{UuidLib}.
Implicit Types (policies : list PolicyRow) (ctx : RequestContext) (subject : option json).

Definition matching_with_effect (e : PolicyEffect) policies ctx subject : bool :=
  existsb (fun p => EvaluatePolicyRow p ctx subject && bool_decide (p_Effect p = e)) policies.

(** The verdict as two questions about the set, in no order. *)
Definition policies_verdict policies ctx subject : PolicyVerdict :=
  if matching_with_effect EffectDeny policies ctx subject then VerdictDeny
  else if matching_with_effect EffectAllow policies ctx subject then VerdictAllow
  else VerdictNoMatch.

Lemma evaluate_policies_loop_spec policies ctx subject anyAllow :
  evaluate_policies_loop policies ctx subject anyAllow =
  if matching_with_effect EffectDeny policies ctx subject then VerdictDeny
  else if anyAllow || matching_with_effect EffectAllow policies ctx subject then VerdictAllow
  else VerdictNoMatch.
Proof.
  revert anyAllow. induction policies as [|p policies IH]; intros anyAllow; cbn.
  - by destruct anyAllow.
  - destruct (EvaluatePolicyRow p ctx subject); cbn; [|apply IH].
    destruct (p_Effect p) eqn:E; cbn; [|done]. rewrite IH. cbn. by destruct anyAllow.
Qed.

Lemma EvaluatePolicies_spec policies ctx subject :
  EvaluatePolicies policies ctx subject = policies_verdict policies ctx subject.
Proof. apply evaluate_policies_loop_spec. Qed.

Lemma matching_with_effect_true e policies ctx subject :
  matching_with_effect e policies ctx subject = true <->
  exists p, p ∈ policies /\ EvaluatePolicyRow p ctx subject = true /\ p_Effect p = e.
Proof.
  unfold matching_with_effect. rewrite existsb_elem.
  setoid_rewrite andb_true_iff. setoid_rewrite bool_decide_eq_true. done.
Qed.

Lemma no_matching_deny policies ctx subject :
  matching_with_effect EffectDeny policies ctx subject = false <->
  forall p, p ∈ policies -> EvaluatePolicyRow p ctx subject = true -> p_Effect p = EffectAllow.
Proof.
  rewrite <- not_true_iff_false, matching_with_effect_true. split.
  - intros Hn p Hin Hev. destruct (p_Effect p) eqn:E; [done|]. destruct Hn. eauto.
  - intros Hall (p & Hin & Hev & He). specialize (Hall p Hin Hev). congruence.
Qed.

Lemma EvaluatePolicies_verdict_deny policies ctx subject :
  EvaluatePolicies policies ctx subject = VerdictDeny <->
  exists p, p ∈ policies /\ EvaluatePolicyRow p ctx subject = true /\ p_Effect p = EffectDeny.
Proof.
  rewrite EvaluatePolicies_spec, <- matching_with_effect_true. unfold policies_verdict.
  destruct (matching_with_effect EffectDeny policies ctx subject); [tauto|].
  by destruct (matching_with_effect EffectAllow policies ctx subject).
Qed.

Lemma EvaluatePolicies_verdict_allow policies ctx subject :
  EvaluatePolicies policies ctx subject = VerdictAllow <->
  (exists p, p ∈ policies /\ EvaluatePolicyRow p ctx subject = true /\ p_Effect p = EffectAllow) /\
  (forall p, p ∈ policies -> EvaluatePolicyRow p ctx subject = true -> p_Effect p = EffectAllow).
Proof.
  rewrite EvaluatePolicies_spec, <- matching_with_effect_true, <- no_matching_deny.
  unfold policies_verdict. destruct (matching_with_effect EffectDeny policies ctx subject); [intuition congruence|].
  destruct (matching_with_effect EffectAllow policies ctx subject); intuition congruence.
Qed.

Lemma EvaluatePolicies_perm policies policies' ctx subject :
  policies ≡ₚ policies' -> EvaluatePolicies policies' ctx subject = EvaluatePolicies policies ctx subject.
Proof.
  intros Hp. rewrite !EvaluatePolicies_spec. unfold policies_verdict.
  assert (Heq : forall e, matching_with_effect e policies' ctx subject
                          = matching_with_effect e policies ctx subject).
  { intros e. apply eq_iff_eq_true. rewrite !matching_with_effect_true. by setoid_rewrite Hp. }
  by rewrite !Heq.
Qed.

(** C1. The verdict of a set of policies is deny exactly when a matching policy
    denies, allow exactly when none does and a matching policy allows: the
    early return and the order of the rows never matter. *)
Theorem EvaluatePolicies_deny_overrides policies ctx subject :
  (EvaluatePolicies policies ctx subject = VerdictDeny <->
     exists p, p ∈ policies /\ EvaluatePolicyRow p ctx subject = true /\ p_Effect p = EffectDeny) /\
  (EvaluatePolicies policies ctx subject = VerdictAllow <->
     (exists p, p ∈ policies /\ EvaluatePolicyRow p ctx subject = true /\ p_Effect p = EffectAllow) /\
     (forall p, p ∈ policies -> EvaluatePolicyRow p ctx subject = true -> p_Effect p = EffectAllow)) /\
  (forall policies', policies ≡ₚ policies' ->
     EvaluatePolicies policies' ctx subject = EvaluatePolicies policies ctx subject).
Proof.
  split_and!; [apply EvaluatePolicies_verdict_deny | apply EvaluatePolicies_verdict_allow |].
  intros policies'. apply EvaluatePolicies_perm.
Qed.
End PolicyProperties.
