(* ===== verification/Snapshot.v ===== *)
(** Permission snapshots (src/go/permission/permissionsnapshot.go): one load of
    an entity's policies, split by kind, and every check made on it: entity
    actions, record-level access, field masking, writable fields, and whether
    an answer depends on the record's state. Also the policy explainer
    (policyexplainer.go). *)
From S2P Require Import Prelude GoStrings Json Condition Context Uuid Evaluate.

Open Scope string_scope.

(** type JsonObject map[string]json.RawMessage *)
Notation JsonObject := (gmap string json).

Section Snapshot.
Context `{UuidLib}.

Record PermissionSnapshot : Type := mkSnapshot {
  fieldPolicies : list PolicyRow;
  recordPoliciesByAction : gmap string (list PolicyRow);
  contextPoliciesByAction : gmap string (list PolicyRow)
}.

Definition is_field_policy (row : PolicyRow) : bool := negb (String.eqb (p_Field row) "").
Definition is_record_policy (row : PolicyRow) : bool :=
  String.eqb (p_Field row) "" && String.eqb (p_Subject row) "record".
Definition is_context_policy (row : PolicyRow) : bool :=
  String.eqb (p_Field row) "" && String.eqb (p_Subject row) "context".

Definition PermissionSnapshotFromRows (rows : list PolicyRow) : PermissionSnapshot :=
  mkSnapshot (List.filter is_field_policy rows)
    (group p_Action is_record_policy rows)
    (group p_Action is_context_policy rows).

(** contextVerdict of permissionservice.go, which the snapshot shares. *)
Definition contextVerdict (rows : list PolicyRow) (ctx : RequestContext) : PermissionDecision :=
  if bool_decide (EvaluatePolicies rows ctx None = VerdictAllow) then Allowed else Forbidden.

Definition snapshot_CanPerformEntityAction (s : PermissionSnapshot) (ctx : RequestContext)
    (entityName : string) (action : EntityAction) : PermissionDecision :=
  if negb (ScopePermits ctx entityName action) then Forbidden
  else if IsAdmin ctx then Allowed
  else contextVerdict (default [] (contextPoliciesByAction s !! EntityAction_String action)) ctx.

Definition snapshot_CanTransitionAction (s : PermissionSnapshot) (ctx : RequestContext)
    (entityName action : string) : PermissionDecision :=
  if negb (ScopePermits ctx entityName ActionTransition) then Forbidden
  else if IsAdmin ctx then Allowed
  else contextVerdict
         (default [] (contextPoliciesByAction s !! EntityAction_String ActionTransition)
          ++ default [] (contextPoliciesByAction s !! TransitionActionPolicy action))%list ctx.

Definition GetRecordPolicies (s : PermissionSnapshot) (action : EntityAction) : list PolicyRow :=
  default [] (recordPoliciesByAction s !! EntityAction_String action).

Definition snapshot_RequiredRelationFields (s : PermissionSnapshot) (action : EntityAction) : list string :=
  RequiredRelationFields (GetRecordPolicies s action).

Inductive matchStability : Type := stabilityAlways | stabilityNever | stabilityRecordDependent.

#[export] Instance matchStability_eq_dec : EqDecision matchStability.
Proof. solve_decision. Defined.

Definition matchStabilityOf (policy : PolicyRow) (ctx : RequestContext) : matchStability :=
  if negb (RoleGatePassed (p_Roles policy) (p_HasRoles policy) (roles_of ctx)) then stabilityNever
  else match p_Condition policy with
  | None => stabilityAlways
  | Some c =>
    if String.eqb (p_Subject policy) "record" then stabilityRecordDependent
    else if IsPassed (EvaluateCondition c (Some (ToValue ctx)) ctx) then stabilityAlways
    else stabilityNever
  end.

(** The four flags the loop of verdictIsRecordDependent sets. *)
Record stability_flags : Type := mkFlags {
  alwaysAllow : bool; alwaysDeny : bool; steerableAllow : bool; steerableDeny : bool
}.

Definition stability_step (ctx : RequestContext) (fl : stability_flags) (policy : PolicyRow) : stability_flags :=
  let '(mkFlags aa ad sa sd) := fl in
  match matchStabilityOf policy ctx, p_Effect policy with
  | stabilityNever, _ => fl
  | stabilityAlways, EffectDeny => mkFlags aa true sa sd
  | stabilityAlways, EffectAllow => mkFlags true ad sa sd
  | stabilityRecordDependent, EffectDeny => mkFlags aa ad sa true
  | stabilityRecordDependent, EffectAllow => mkFlags aa ad true sd
  end.

Definition verdictIsRecordDependent (policies : list PolicyRow) (ctx : RequestContext) : bool :=
  let fl := fold_left (stability_step ctx) policies (mkFlags false false false false) in
  if alwaysDeny fl then false
  else if steerableDeny fl then true
  else negb (alwaysAllow fl) && steerableAllow fl.

Definition RecordAccessIsStateDependent (s : PermissionSnapshot) (ctx : RequestContext) (action : EntityAction) : bool :=
  if IsAdmin ctx then false else verdictIsRecordDependent (GetRecordPolicies s action) ctx.

(** The per-field grouping the read and write checks share. *)
Definition is_policy_on (verb : string) (policy : PolicyRow) : bool :=
  negb (negb (String.eqb (p_Action policy) verb) || String.eqb (p_Field policy) "").
Definition policies_by_field (verb : string) (s : PermissionSnapshot) : gmap string (list PolicyRow) :=
  group p_Field (is_policy_on verb) (fieldPolicies s).

(** The fields mapped to true, as a set. *)
Definition RecordStateDependentReadFields (s : PermissionSnapshot) (ctx : RequestContext) : gset string :=
  if IsAdmin ctx then ∅
  else dom (filter (fun kv => verdictIsRecordDependent kv.2 ctx = true) (policies_by_field "read" s)).

(** The test FilterReadableFields makes of each key of the record. *)
Definition field_readable (s : PermissionSnapshot) (ctx : RequestContext) (record : JsonObject) (key : string) : bool :=
  match policies_by_field "read" s !! key with
  | None => true
  | Some policies => IsAllowed (EvaluatePolicies policies ctx (Some (marshal_map record)))
  end.

Definition FilterReadableFields (s : PermissionSnapshot) (ctx : RequestContext) (record : JsonObject) : JsonObject :=
  if IsAdmin ctx then record
  else filter (fun kv => field_readable s ctx record kv.1 = true) record.

(** [existingRecord] is [None] when hasExisting is false. *)
Definition field_writable (s : PermissionSnapshot) (ctx : RequestContext)
    (existingRecord : option JsonObject) (field : string) : bool :=
  match policies_by_field "write" s !! field with
  | None => true
  | Some policies => IsAllowed (EvaluatePolicies policies ctx (marshal_map <$> existingRecord))
  end.

Definition WritableFields (s : PermissionSnapshot) (ctx : RequestContext) (allFieldNames : list string)
    (existingRecord : option JsonObject) : list string :=
  if IsAdmin ctx then allFieldNames
  else List.filter (field_writable s ctx existingRecord) allFieldNames.

Fixpoint first_not_in (fields writable : list string) : option string :=
  match fields with
  | [] => None
  | f :: rest => if bool_decide (f ∈ writable) then first_not_in rest writable else Some f
  end.

Definition AssertWritableFields (s : PermissionSnapshot) (ctx : RequestContext) (payloadFields : list string)
    (existingRecord : option JsonObject) : PermissionDecision :=
  if IsAdmin ctx then Allowed
  else match first_not_in payloadFields (WritableFields s ctx payloadFields existingRecord) with
       | Some f => ForbiddenField f
       | None => Allowed
       end.

Definition CanPerformRecordCondition (s : PermissionSnapshot) (ctx : RequestContext)
    (record : JsonObject) (action : EntityAction) : PermissionDecision :=
  let recordPolicies := GetRecordPolicies s action in
  if IsAdmin ctx || (length recordPolicies =? 0)%nat then Allowed
  else match EvaluatePolicies recordPolicies ctx (Some (marshal_map record)) with
       | VerdictAllow => Allowed
       | _ => Forbidden
       end.

(** ** The explainer *)

Inductive Gate : Type := GateOpen | GatePassed | GateFailed.

Record PolicyTraceEntry : Type := mkTrace {
  te_PolicyID : string;
  te_Effect : PolicyEffect;
  te_RoleGate : Gate;
  te_ConditionGate : Gate;
  te_ConditionReason : string
}.

Definition gate_failed (g : Gate) : bool := match g with GateFailed => true | _ => false end.

Definition trace_matched (e : PolicyTraceEntry) : bool :=
  negb (gate_failed (te_RoleGate e)) && negb (gate_failed (te_ConditionGate e)).

Record PolicyExplanation : Type := mkExplanation {
  pe_Allowed : bool;
  pe_PoliciesConsidered : list PolicyTraceEntry
}.

(** [subject] is [None] when hasSubject is false. *)
Definition explain_row (ctx : RequestContext) (subject : option JsonObject) (row : PolicyRow) : PolicyTraceEntry :=
  let rolePassed := RoleGatePassed (p_Roles row) (p_HasRoles row) (roles_of ctx) in
  let roleGate := if p_HasRoles row && (0 <? length (p_Roles row))%nat
                  then (if rolePassed then GatePassed else GateFailed) else GateOpen in
  let entry := mkTrace (uuid_String (p_ID row)) (p_Effect row) roleGate in
  if negb rolePassed then entry GateOpen ""
  else match p_Condition row with
  | None => entry GateOpen ""
  | Some c =>
    let conditionSubject :=
      if String.eqb (p_Subject row) "record"
      then default (ToValue ctx) (marshal_map <$> subject)
      else ToValue ctx in
    let result := EvaluateCondition c (Some conditionSubject) ctx in
    if IsPassed result then entry GatePassed ""
    else entry GateFailed (default "" (Reason result))
  end.

Definition ExplainPolicies (policyRows : list PolicyRow) (ctx : RequestContext) (subject : option JsonObject) : PolicyExplanation :=
  if (length policyRows =? 0)%nat then mkExplanation true []
  else
    let entries := map (explain_row ctx subject) policyRows in
    let anyMatchingDeny := existsb (fun e => trace_matched e && bool_decide (te_Effect e = EffectDeny)) entries in
    let anyMatchingAllow := existsb (fun e => trace_matched e && negb (bool_decide (te_Effect e = EffectDeny))) entries in
    mkExplanation (negb anyMatchingDeny && anyMatchingAllow) entries.

End Snapshot.

(** ** Properties *)

Section SnapshotProperties.
Context `{UuidLib}.
Implicit Types (rows policies : list PolicyRow) (ctx : RequestContext) (record : JsonObject).

(** The rows that decide whether a field may be read or written. *)
Definition field_rules (verb field : string) rows : list PolicyRow :=
  List.filter (fun p => bool_decide (p_Action p = verb /\ p_Field p = field)) rows.

Lemma filter_filter_ext {A} (f g h : A -> bool) l :
  (forall a, (f a && g a)%bool = h a) -> List.filter g (List.filter f l) = List.filter h l.
Proof.
  intros Hfg. induction l as [|a l IH]; simpl; [done|]. rewrite <- (Hfg a).
  destruct (f a); simpl; [destruct (g a)|]; by rewrite IH.
Qed.

Lemma policies_by_field_rows verb field rows :
  field <> "" ->
  policies_by_field verb (PermissionSnapshotFromRows rows) !! field = nonempty (field_rules verb field rows).
Proof.
  intros Hne. unfold policies_by_field. rewrite group_lookup. f_equal.
  unfold group_members, field_rules. simpl. apply filter_filter_ext. intros p.
  unfold is_field_policy, is_policy_on. destruct (String.eqb_spec (p_Field p) "") as [He|He]; simpl.
  - symmetry. apply bool_decide_eq_false. intros [_ <-]. done.
  - destruct (String.eqb_spec (p_Action p) verb) as [Ha|Ha]; simpl.
    + apply bool_decide_ext. naive_solver.
    + symmetry. apply bool_decide_eq_false. naive_solver.
Qed.

Lemma policies_by_field_empty verb rows :
  policies_by_field verb (PermissionSnapshotFromRows rows) !! "" = None.
Proof.
  unfold policies_by_field. rewrite group_lookup. unfold group_members. simpl.
  rewrite (filter_filter_ext _ _ (fun _ => false)).
  - by induction rows.
  - intros p. unfold is_field_policy. destruct (String.eqb_spec (p_Field p) "") as [He|He]; [done|].
    rewrite bool_decide_eq_false_2 by done. by rewrite andb_false_r.
Qed.

(** The allow-by-default test of one field, in terms of the rows. *)
Lemma field_test_rows verb field rows ctx subject :
  match policies_by_field verb (PermissionSnapshotFromRows rows) !! field with
  | None => true
  | Some policies => IsAllowed (EvaluatePolicies policies ctx subject)
  end = true <->
  field = "" \/ field_rules verb field rows = [] \/
  EvaluatePolicies (field_rules verb field rows) ctx subject = VerdictAllow.
Proof.
  destruct (decide (field = "")) as [->|Hk].
  - rewrite policies_by_field_empty. naive_solver.
  - rewrite policies_by_field_rows by done.
    destruct (field_rules verb field rows) as [|p ps] eqn:E; simpl; [naive_solver|].
    destruct (EvaluatePolicies (p :: ps) ctx subject); naive_solver.
Qed.

(** C9. Field masking: to a caller who is not an admin, a member of a record is
    shown exactly when the record has it and either no read rule names its
    field or the read rules that do allow it on this very record; shown
    members keep their values, and nothing is ever added. An admin sees all. *)
Theorem FilterReadableFields_exact rows ctx record k v :
  FilterReadableFields (PermissionSnapshotFromRows rows) ctx record !! k = Some v <->
  record !! k = Some v /\
  (IsAdmin ctx = true \/ k = "" \/ field_rules "read" k rows = [] \/
   EvaluatePolicies (field_rules "read" k rows) ctx (Some (marshal_map record)) = VerdictAllow).
Proof.
  unfold FilterReadableFields. destruct (IsAdmin ctx); [naive_solver|].
  rewrite map_lookup_filter_Some. unfold field_readable. simpl. rewrite field_test_rows.
  naive_solver.
Qed.

Lemma first_not_in_None fields writable :
  first_not_in fields writable = None <-> Forall (fun f => f ∈ writable) fields.
Proof.
  induction fields as [|f fields IH]; simpl; [by split; constructor|].
  case_bool_decide as Hf; rewrite Forall_cons, ?IH; naive_solver.
Qed.

Lemma first_not_in_Some fields writable f :
  first_not_in fields writable = Some f -> f ∈ fields.
Proof.
  induction fields as [|g fields IH]; simpl; [done|]. case_bool_decide; intros Hf.
  - apply list_elem_of_further. auto.
  - simplify_eq. apply list_elem_of_here.
Qed.

Lemma all_writable s ctx payload existing :
  IsAdmin ctx = false ->
  Forall (fun f => f ∈ WritableFields s ctx payload existing) payload <->
  Forall (fun f => field_writable s ctx existing f = true) payload.
Proof.
  intros Ha. unfold WritableFields. rewrite Ha, !Forall_forall.
  setoid_rewrite list_elem_of_In. setoid_rewrite filter_In. naive_solver.
Qed.

(** C10. A write is refused for field rules exactly when some field of the
    payload has write rules that do not allow it (judged on the stored record,
    or on the caller's context when there is none); the field named in the
    refusal is one of the payload. *)
Theorem AssertWritableFields_exact rows ctx payload existing :
  let d := AssertWritableFields (PermissionSnapshotFromRows rows) ctx payload existing in
  (pd_Allowed d = true <->
     IsAdmin ctx = true \/
     Forall (fun f => f = "" \/ field_rules "write" f rows = [] \/
       EvaluatePolicies (field_rules "write" f rows) ctx (marshal_map <$> existing) = VerdictAllow) payload) /\
  (pd_Allowed d = true \/ pd_Field d ∈ payload).
Proof.
  unfold AssertWritableFields. destruct (IsAdmin ctx) eqn:Ha; [naive_solver|].
  setoid_rewrite <- field_test_rows. fold (field_writable (PermissionSnapshotFromRows rows) ctx existing).
  pose proof (first_not_in_None payload (WritableFields (PermissionSnapshotFromRows rows) ctx payload existing)) as HN.
  rewrite all_writable in HN by done.
  destruct (first_not_in payload _) as [f|] eqn:E; cbn.
  - apply first_not_in_Some in E. split; [|by right]. split; [done|].
    intros [|Hall]; [done|]. by apply HN in Hall.
  - split; [|by left]. split; [|done]. intros _. right. by apply HN.
Qed.

(** *** Stability: when the answer cannot depend on the record *)

Definition has_policy ctx (st : matchStability) (e : PolicyEffect) policies : bool :=
  existsb (fun p => bool_decide (matchStabilityOf p ctx = st) && bool_decide (p_Effect p = e)) policies.

Lemma has_policy_true ctx st e policies :
  has_policy ctx st e policies = true <->
  exists p, p ∈ policies /\ matchStabilityOf p ctx = st /\ p_Effect p = e.
Proof.
  unfold has_policy. rewrite existsb_elem. setoid_rewrite andb_true_iff.
  by setoid_rewrite bool_decide_eq_true.
Qed.

(** The loop's flags as questions about the set. *)
Lemma fold_flags_spec ctx policies fl :
  fold_left (stability_step ctx) policies fl =
  mkFlags (alwaysAllow fl || has_policy ctx stabilityAlways EffectAllow policies)
    (alwaysDeny fl || has_policy ctx stabilityAlways EffectDeny policies)
    (steerableAllow fl || has_policy ctx stabilityRecordDependent EffectAllow policies)
    (steerableDeny fl || has_policy ctx stabilityRecordDependent EffectDeny policies).
Proof.
  revert fl. induction policies as [|p policies IH]; intros [aa ad sa sd]; cbn.
  - by rewrite !orb_false_r.
  - rewrite IH. destruct (matchStabilityOf p ctx), (p_Effect p); cbn; by rewrite ?orb_true_r.
Qed.

Lemma stability_sound p ctx (record : json) :
  match matchStabilityOf p ctx with
  | stabilityAlways => EvaluatePolicyRow p ctx (Some record) = true
  | stabilityNever => EvaluatePolicyRow p ctx (Some record) = false
  | stabilityRecordDependent => True
  end.
Proof.
  unfold matchStabilityOf, EvaluatePolicyRow, condition_subject.
  destruct (RoleGatePassed _ _ _); simpl; [|done]. destruct (p_Condition p) as [c|]; [|done].
  destruct (String.eqb (p_Subject p) "record"); [done|].
  destruct (IsPassed (EvaluateCondition c (Some (ToValue ctx)) ctx)) eqn:E; done.
Qed.

Lemma EvaluatePolicies_deny policies ctx subject :
  (exists p, p ∈ policies /\ EvaluatePolicyRow p ctx subject = true /\ p_Effect p = EffectDeny) ->
  EvaluatePolicies policies ctx subject = VerdictDeny.
Proof.
  intros Hp. rewrite EvaluatePolicies_spec. unfold policies_verdict.
  by rewrite (proj2 (matching_with_effect_true EffectDeny policies ctx subject) Hp).
Qed.

Lemma no_deny_matches policies ctx r :
  has_policy ctx stabilityAlways EffectDeny policies = false ->
  has_policy ctx stabilityRecordDependent EffectDeny policies = false ->
  matching_with_effect EffectDeny policies ctx (Some r) = false.
Proof.
  intros Ha Hr. apply not_true_iff_false. rewrite matching_with_effect_true. intros (p & Hp & Hev & He).
  pose proof (stability_sound p ctx r) as Hs.
  destruct (matchStabilityOf p ctx) eqn:Es; [|congruence|].
  - enough (has_policy ctx stabilityAlways EffectDeny policies = true) by congruence.
    apply has_policy_true. eauto.
  - enough (has_policy ctx stabilityRecordDependent EffectDeny policies = true) by congruence.
    apply has_policy_true. eauto.
Qed.

(** When a set of policies is reported as not depending on the record, the
    permission is the same on every two records: the audit trail may then show
    values of states the record no longer has. *)
Lemma stable_verdict_ignores_record policies ctx r1 r2 :
  verdictIsRecordDependent policies ctx = false ->
  IsAllowed (EvaluatePolicies policies ctx (Some r1)) = IsAllowed (EvaluatePolicies policies ctx (Some r2)).
Proof.
  unfold verdictIsRecordDependent. rewrite fold_flags_spec. cbn. intros Hstable.
  destruct (has_policy ctx stabilityAlways EffectDeny policies) eqn:Ead.
  { apply has_policy_true in Ead as (p & Hp & Hs & He).
    assert (forall r, EvaluatePolicies policies ctx (Some r) = VerdictDeny) as Hd; [|by rewrite !Hd].
    intros r. apply EvaluatePolicies_deny. exists p. pose proof (stability_sound p ctx r) as Hr.
    rewrite Hs in Hr. done. }
  destruct (has_policy ctx stabilityRecordDependent EffectDeny policies) eqn:Esd; [done|].
  rewrite !EvaluatePolicies_spec. unfold policies_verdict.
  rewrite !(no_deny_matches policies ctx) by done.
  enough (Hallow : forall r, matching_with_effect EffectAllow policies ctx (Some r) =
                             has_policy ctx stabilityAlways EffectAllow policies) by by rewrite !Hallow.
  intros r. apply eq_iff_eq_true. rewrite matching_with_effect_true, has_policy_true. split.
  - intros (p & Hp & Hev & He). pose proof (stability_sound p ctx r) as Hr.
    destruct (matchStabilityOf p ctx) eqn:Es; [eauto|congruence|].
    assert (has_policy ctx stabilityRecordDependent EffectAllow policies = true) as Hsa
      by (apply has_policy_true; eauto).
    rewrite Hsa, andb_true_r in Hstable. apply negb_false_iff, has_policy_true in Hstable. done.
  - intros (p & Hp & Hs & He). exists p. pose proof (stability_sound p ctx r) as Hr.
    rewrite Hs in Hr. done.
Qed.
End SnapshotProperties.

(** A policy row for witnesses: identifiers of the test instance. *)
Definition test_row (action field subject : string) (roles : list string) (hasRoles : bool)
    (condition : option PolicyCondition) (effect : PolicyEffect) : @PolicyRow TestUuid :=
  @mkPolicyRow TestUuid "p" "t" "crm.deals" action field subject roles hasRoles condition None effect.

Definition test_context (roles : list string) : RequestContext :=
  mkRequestContext "uuid-t" "uuid-u" (Some roles) true "" None "".

Lemma stable_verdict_ignores_record_witness :
  IsAllowed (EvaluatePolicies
    [test_row "read" "" "record" ["sales"] true None EffectAllow;
     test_row "read" "" "record" ["audit"] true
       (Some (AttributeCondition "stage" OpEq (LiteralValue (JStr "won")))) EffectDeny]
    (test_context ["sales"]) (Some (JObj [("stage", JStr "won")])))
  = IsAllowed (EvaluatePolicies
    [test_row "read" "" "record" ["sales"] true None EffectAllow;
     test_row "read" "" "record" ["audit"] true
       (Some (AttributeCondition "stage" OpEq (LiteralValue (JStr "won")))) EffectDeny]
    (test_context ["sales"]) (Some JNull)).
Proof. apply stable_verdict_ignores_record. vm_compute. reflexivity. Defined.

Section ExplainProperties.
Context `{UuidLib}.

Lemma RoleGatePassed_open roles has caller :
  (has && (0 <? length roles)%nat)%bool = false -> RoleGatePassed roles has caller = true.
Proof. unfold RoleGatePassed. by destruct has, roles. Qed.

(** A trace entry is matched exactly when the evaluator applies the row. *)
Lemma explain_row_matched ctx subject row :
  trace_matched (explain_row ctx subject row) = EvaluatePolicyRow row ctx (marshal_map <$> subject)
  /\ te_Effect (explain_row ctx subject row) = p_Effect row.
Proof.
  unfold explain_row, EvaluatePolicyRow, condition_subject.
  destruct (p_HasRoles row && (0 <? length (p_Roles row))%nat) eqn:Eo.
  - destruct (RoleGatePassed _ _ _); cbn; [|done]. destruct (p_Condition row) as [c|]; cbn; [|done].
    destruct (IsPassed _) eqn:E; done.
  - rewrite (RoleGatePassed_open _ _ _ Eo). cbn. destruct (p_Condition row) as [c|]; cbn; [|done].
    destruct (IsPassed _) eqn:E; done.
Qed.

Lemma explain_existsb ctx subject rows (f : PolicyEffect -> bool) :
  existsb (fun e => trace_matched e && f (te_Effect e)) (map (explain_row ctx subject) rows)
  = existsb (fun p => EvaluatePolicyRow p ctx (marshal_map <$> subject) && f (p_Effect p)) rows.
Proof.
  induction rows as [|r rows IH]; cbn [map existsb]; [done|].
  destruct (explain_row_matched ctx subject r) as [-> ->]. by rewrite IH.
Qed.

Lemma ExplainPolicies_nonempty rows ctx subject :
  rows <> [] ->
  ExplainPolicies rows ctx subject =
  mkExplanation
    (negb (matching_with_effect EffectDeny rows ctx (marshal_map <$> subject))
     && matching_with_effect EffectAllow rows ctx (marshal_map <$> subject))
    (map (explain_row ctx subject) rows).
Proof.
  intros Hne. unfold ExplainPolicies. destruct (Nat.eqb_spec (length rows) 0) as [He|_].
  { by destruct rows. }
  f_equal. f_equal; [f_equal|].
  - exact (explain_existsb ctx subject rows (fun e : PolicyEffect => bool_decide (e = EffectDeny))).
  - etrans; [exact (explain_existsb ctx subject rows (fun e : PolicyEffect => negb (bool_decide (e = EffectDeny))))|].
    unfold matching_with_effect. clear Hne. induction rows as [|p rows IH]; [done|].
    cbn [existsb]. rewrite IH. f_equal. f_equal. by destruct (p_Effect p).
Qed.

(** The policy simulator: its trace has one entry per row, in order, each
    matched exactly when the evaluator applies that row, and on a non-empty set
    its answer is the evaluator's. On the empty set it answers allowed, while
    the entity-level check it simulates forbids. *)
Lemma ExplainPolicies_agrees rows ctx subject :
  (rows <> [] ->
     pe_Allowed (ExplainPolicies rows ctx subject)
       = IsAllowed (EvaluatePolicies rows ctx (marshal_map <$> subject)) /\
     map trace_matched (pe_PoliciesConsidered (ExplainPolicies rows ctx subject))
       = map (fun p => EvaluatePolicyRow p ctx (marshal_map <$> subject)) rows) /\
  (pe_Allowed (ExplainPolicies [] ctx subject) = true /\ contextVerdict [] ctx = Forbidden).
Proof.
  split; [|done]. intros Hne. rewrite (ExplainPolicies_nonempty rows ctx subject Hne).
  cbn [pe_Allowed pe_PoliciesConsidered]. split.
  - rewrite EvaluatePolicies_spec. unfold policies_verdict.
    by destruct (matching_with_effect EffectDeny _ _ _), (matching_with_effect EffectAllow _ _ _).
  - rewrite map_map. apply map_ext. intros p. apply explain_row_matched.
Qed.
End ExplainProperties.
