(* ===== verification/PermissionService.v ===== *)
(** The permission service (src/go/permission/permissionservice.go) over the
    policy store interface (policystore.go), and the Postgres policy store
    (src/go/control/policystore.go) that implements it. The store is a class
    of operations with the laws the service's checks rely on; the Postgres
    store is modelled as its table of rows, its queries as filters of the
    table, and the routing of a tenant to its database, which can refuse, as a
    parameter. The optional policy cache is a class of its own. *)
From S2P Require Import Prelude GoStrings Json Condition Context Uuid Evaluate Snapshot.

Open Scope string_scope.

Definition error := string.

Inductive PolicySubject : Type := SubjectContext | SubjectRecord.

Definition PolicySubject_String (s : PolicySubject) : string :=
  match s with SubjectRecord => "record" | SubjectContext => "context" end.

Record ExplainOptions : Type := mkExplainOptions {
  eo_Field : string;
  eo_Subject : option PolicySubject
}.

Record RoleActionGrant : Type := mkGrant { g_Role : string; g_HasRole : bool; g_Action : string }.

(** The arguments of CreatePolicy that are not the tenant. *)
Record NewPolicy `{UuidLib} : Type := mkNewPolicy {
  np_entity : string;
  np_action : string;
  np_roles : list string;
  np_hasRoles : bool;
  np_condition : option PolicyCondition;
  np_createdBy : option uuid;
  np_field : string;
  np_subject : option PolicySubject;
  np_effect : PolicyEffect
}.

(** type PolicyStore interface: reads of the store's state, and writes that
    return the next state. *)
Class PolicyStore `{UuidLib} (St : Type) := {
  FindContextPolicies : St -> uuid -> string -> string -> result error (list PolicyRow);
  LoadAllPolicies : St -> uuid -> string -> result error (list PolicyRow);
  FindExplainPolicies : St -> uuid -> string -> string -> ExplainOptions -> result error (list PolicyRow);
  ListPolicies : St -> uuid -> option string -> result error (list PolicyRow);
  CreatePolicy : St -> uuid -> NewPolicy -> result error (PolicyRow * St);
  DeletePolicy : St -> uuid -> uuid -> result error St;
  SyncBasicPolicies : St -> uuid -> string -> list RoleActionGrant -> option uuid
                      -> result error (list PolicyRow * St)
}.

(** The promise the entity-level checks rely on: in every state the store's own
    operations reach, when the entity's rows load at all, the context query
    returns the context-subject, fieldless rows of the action among them. *)
Class PolicyStoreLaws `{UuidLib} (St : Type) `{!PolicyStore St} := {
  store_inv : St -> Prop;
  find_context_is_filter : forall st t e a rows, store_inv st ->
    LoadAllPolicies st t e = Ok rows ->
    FindContextPolicies st t e a =
    Ok (List.filter (fun p => is_context_policy p && bool_decide (p_Action p = a)) rows);
  create_keeps_inv : forall st t np row st', store_inv st ->
    CreatePolicy st t np = Ok (row, st') -> store_inv st';
  delete_keeps_inv : forall st t id st', store_inv st ->
    DeletePolicy st t id = Ok st' -> store_inv st';
  sync_keeps_inv : forall st t e gs by_ rows st', store_inv st ->
    SyncBasicPolicies st t e gs by_ = Ok (rows, st') -> store_inv st'
}.

(** cache.Cache, an entry being the document json.Marshal wrote. *)
Class Cache `{UuidLib} (C : Type) := {
  cache_Get : C -> uuid -> string -> result error (option json);
  cache_Set : C -> uuid -> string -> json -> result error C;
  cache_Invalidate : C -> uuid -> string -> result error C
}.

Section Service.
Context `{UuidLib} {St : Type} `{!PolicyStore St}.

Definition policiesCacheKey (entity : string) : string := "policies:" +:+ entity.

Definition uuid_parse_error : error := "invalid UUID".

Definition ScopedTenant (ctx : RequestContext) : result error uuid :=
  if String.eqb (rc_TenantID ctx) "" then
    Err "RequestContext.TenantID is required but was missing or empty"
  else match uuid_Parse (rc_TenantID ctx) with
       | Some u => Ok u
       | None => Err uuid_parse_error
       end.

Definition checkAction (st : St) (ctx : RequestContext) (entityName : string) (action : EntityAction)
  : result error PermissionDecision :=
  if negb (ScopePermits ctx entityName action) then Ok Forbidden
  else if IsAdmin ctx then Ok Allowed
  else
    let! tenantID := ScopedTenant ctx in
    let! rows := FindContextPolicies st tenantID entityName (EntityAction_String action) in
    match EvaluatePolicies rows ctx None with
    | VerdictAllow => Ok Allowed
    | VerdictDeny => Ok Forbidden
    | VerdictNoMatch => Ok Forbidden
    end.

Definition CanReadEntity st ctx entity := checkAction st ctx entity ActionRead.
Definition CanCreateEntity st ctx entity := checkAction st ctx entity ActionCreate.
Definition CanUpdateEntity st ctx entity := checkAction st ctx entity ActionUpdate.
Definition CanDeleteEntity st ctx entity := checkAction st ctx entity ActionDelete.
Definition CanTransitionEntity st ctx entity := checkAction st ctx entity ActionTransition.

Definition CanTransitionAction (st : St) (ctx : RequestContext) (entityName action : string)
  : result error PermissionDecision :=
  if negb (ScopePermits ctx entityName ActionTransition) then Ok Forbidden
  else if IsAdmin ctx then Ok Allowed
  else
    let! tenantID := ScopedTenant ctx in
    let! generic := FindContextPolicies st tenantID entityName (EntityAction_String ActionTransition) in
    let! specific := FindContextPolicies st tenantID entityName (TransitionActionPolicy action) in
    Ok (contextVerdict (generic ++ specific)%list ctx).

Definition LoadPermissionSnapshot (st : St) (tenantID : uuid) (entity : string) : result error PermissionSnapshot :=
  let! rows := LoadAllPolicies st tenantID entity in
  Ok (PermissionSnapshotFromRows rows).

Definition Explain (st : St) (rc : RequestContext) (entity action : string) (field : option string)
    (record : option JsonObject) : result error PolicyExplanation :=
  let! tenantID := ScopedTenant rc in
  let opts := match field, record with
              | Some f, _ => mkExplainOptions f None
              | None, Some _ => mkExplainOptions "" (Some SubjectRecord)
              | None, None => mkExplainOptions "" None
              end in
  let! rows := FindExplainPolicies st tenantID entity action opts in
  Ok (ExplainPolicies rows rc record).

(** *** The policy cache *)

(** json.Marshal of a PolicyRow: no tags, so the Go field names; the effect is
    written by PolicyEffect.MarshalJSON, as a string. *)
Definition marshal_condition (c : option PolicyCondition) : option json :=
  match c with
  | None => Some JNull
  | Some c => match PolicyCondition_MarshalJSON c with Ok j => Some j | _ => None end
  end.

Definition marshal_row (p : PolicyRow) : option json :=
  cond ← marshal_condition (p_Condition p);
  Some (JObj
    [("ID", JStr (uuid_String (p_ID p))); ("TenantID", JStr (uuid_String (p_TenantID p)));
     ("Entity", JStr (p_Entity p)); ("Action", JStr (p_Action p)); ("Field", JStr (p_Field p));
     ("Subject", JStr (p_Subject p)); ("Roles", JArr (map JStr (p_Roles p)));
     ("HasRoles", JBool (p_HasRoles p)); ("Condition", cond);
     ("CreatedBy", match p_CreatedBy p with Some u => JStr (uuid_String u) | None => JNull end);
     ("Effect", JStr (PolicyEffect_String (p_Effect p)))]).

Definition marshal_rows (rows : list PolicyRow) : option json := JArr <$> mapM marshal_row rows.

(** json.Unmarshal of one row. PolicyEffect is an int type with no
    UnmarshalJSON, so its member must be an integer number. *)
Definition member (name : string) (l : list (string * json)) : json :=
  default JNull (snd <$> last (List.filter (fun kv => key_matches name kv.1) l)).

Definition unmarshal_uuid (j : json) : option uuid :=
  match j with JStr s => uuid_Parse s | _ => None end.

(** An int type decodes from an integer literal of 64 bits; any value but 1
    reads as allow. *)
Definition integer_literal (lit : string) : option Z :=
  match parse_number lit with
  | Some d => if ContainsByte lit "." || ContainsByte lit "e" || ContainsByte lit "E" then None
              else let z := (if d_neg d then - Z.of_N (d_mant d) else Z.of_N (d_mant d))%Z in
                   if (- 2 ^ 63 <=? z)%Z && (z <? 2 ^ 63)%Z then Some z else None
  | None => None
  end.

Definition unmarshal_effect (j : json) : option PolicyEffect :=
  match j with
  | JNum lit => (fun z => if (z =? 1)%Z then EffectDeny else EffectAllow) <$> integer_literal lit
  | JNull => Some EffectAllow
  | _ => None
  end.

(** The condition's own decoder can panic; every other member can only fail. *)
Definition unmarshal_condition (j : json) : result error (option PolicyCondition) :=
  match j with
  | JNull => Ok None
  | _ => let! c := PolicyCondition_UnmarshalJSON j in Ok (Some c)
  end.

Definition unmarshal_row (j : json) : result error PolicyRow :=
  match j with
  | JObj l =>
    let! condition := unmarshal_condition (member "Condition" l) in
    match
      id ← unmarshal_uuid (member "ID" l);
      tenant ← unmarshal_uuid (member "TenantID" l);
      entity ← unmarshal_string (member "Entity" l);
      action ← unmarshal_string (member "Action" l);
      field ← unmarshal_string (member "Field" l);
      subject ← unmarshal_string (member "Subject" l);
      roles ← unmarshal_strings (member "Roles" l);
      hasRoles ← unmarshal_bool (member "HasRoles" l);
      createdBy ← match member "CreatedBy" l with
                  | JNull => Some None
                  | j => Some <$> unmarshal_uuid j
                  end;
      effect ← unmarshal_effect (member "Effect" l);
      Some (mkPolicyRow _ id tenant entity action field subject roles hasRoles condition createdBy effect)
    with
    | Some row => Ok row
    | None => Err type_error
    end
  | _ => Err type_error
  end.

Definition unmarshal_rows (j : json) : result error (list PolicyRow) :=
  match j with
  | JArr l => mapR unmarshal_row l
  | JNull => Ok []
  | _ => Err type_error
  end.

Section WithCache.
Context {C : Type} `{!Cache C}.

(** The snapshot, and the cache after the call; a cache error is only logged. *)
Definition LoadSnapshot (st : St) (cache : option C) (tenantID : uuid) (entity : string)
  : result error PermissionSnapshot * option C :=
  match cache with
  | None => (LoadPermissionSnapshot st tenantID entity, None)
  | Some c =>
    let key := policiesCacheKey entity in
    let hit := match cache_Get c tenantID key with
               | Ok (Some bytes) => unmarshal_rows bytes
               | Ok None => Err "not cached"
               | Err e => Err e
               | Panic => Panic
               end in
    match hit with
    | Ok rows => (Ok (PermissionSnapshotFromRows rows), Some c)
    | Panic => (Panic, Some c)
    | Err _ =>
      match LoadAllPolicies st tenantID entity with
      | Ok rows =>
        let c' := match marshal_rows rows with
                  | Some bytes => match cache_Set c tenantID key bytes with Ok c' => c' | _ => c end
                  | None => c
                  end in
        (Ok (PermissionSnapshotFromRows rows), Some c')
      | Err e => (Err e, Some c)
      | Panic => (Panic, Some c)
      end
    end
  end.

Definition invalidatePoliciesCache (cache : option C) (tenantID : uuid) (entity : string) : option C :=
  match cache with
  | None => None
  | Some c => match cache_Invalidate c tenantID (policiesCacheKey entity) with
              | Ok c' => Some c'
              | _ => Some c
              end
  end.

Definition service_CreatePolicy (st : St) (cache : option C) (tenantID : uuid) (p : NewPolicy)
  : result error (PolicyRow * St * option C) :=
  let! (row, st') := CreatePolicy st tenantID p in
  Ok (row, st', invalidatePoliciesCache cache tenantID (np_entity p)).

Definition service_SyncBasicPolicies (st : St) (cache : option C) (tenantID : uuid) (entity : string)
    (grants : list RoleActionGrant) (createdBy : option uuid) : result error (list PolicyRow * St * option C) :=
  let! (rows, st') := SyncBasicPolicies st tenantID entity grants createdBy in
  Ok (rows, st', invalidatePoliciesCache cache tenantID entity).

Definition service_DeletePolicy (st : St) (cache : option C) (tenantID id : uuid) : result error (St * option C) :=
  let cache' := match cache with
    | None => None
    | Some _ =>
      match ListPolicies st tenantID None with
      | Ok rows =>
        match List.find (fun row => bool_decide (p_ID row = id)) rows with
        | Some row => invalidatePoliciesCache cache tenantID (p_Entity row)
        | None => cache
        end
      | _ => cache
      end
    end in
  let! st' := DeletePolicy st tenantID id in Ok (st', cache').
End WithCache.
End Service.


(** ** Properties *)

Section ServiceProperties.
Context `{UuidLib} {St : Type} `{!PolicyStore St}.

(** Both checks go through the same three gates before any policy is read. *)
Lemma checkAction_gates st ctx entity a :
  (ScopePermits ctx entity a = false -> checkAction st ctx entity a = Ok Forbidden) /\
  (ScopePermits ctx entity a = true -> IsAdmin ctx = true -> checkAction st ctx entity a = Ok Allowed).
Proof. unfold checkAction. destruct (ScopePermits ctx entity a), (IsAdmin ctx); naive_solver. Qed.

Lemma checkAction_contextVerdict st ctx entity a :
  ScopePermits ctx entity a = true -> IsAdmin ctx = false ->
  checkAction st ctx entity a =
  (let! t := ScopedTenant ctx in
   let! rows := FindContextPolicies st t entity (EntityAction_String a) in
   Ok (contextVerdict rows ctx)).
Proof.
  intros Hs Ha. unfold checkAction. rewrite Hs, Ha. simpl.
  destruct (ScopedTenant ctx); simpl; [|done..].
  destruct (FindContextPolicies st _ entity _) as [rows| |]; simpl; [|done..].
  unfold contextVerdict. by destruct (EvaluatePolicies rows ctx None).
Qed.

Lemma contextPolicies_rows rows action :
  default [] (contextPoliciesByAction (PermissionSnapshotFromRows rows) !! action)
  = List.filter (fun p => is_context_policy p && bool_decide (p_Action p = action)) rows.
Proof. simpl. apply group_lookup_default. Qed.

Section AgainstTheInterface.
Context `{!PolicyStoreLaws St}.

(** For every store that keeps the interface's promise, the two ways the
    program answers an entity-level question agree: asking the service (one
    query per check) and asking a snapshot loaded once give the same decision
    for every caller, entity action and workflow action. *)
Lemma snapshot_agrees_with_service st ctx t entity snap :
  store_inv st -> ScopedTenant ctx = Ok t -> LoadPermissionSnapshot st t entity = Ok snap ->
  (forall a, checkAction st ctx entity a = Ok (snapshot_CanPerformEntityAction snap ctx entity a)) /\
  (forall action, CanTransitionAction st ctx entity action
                  = Ok (snapshot_CanTransitionAction snap ctx entity action)).
Proof.
  intros Hinv Ht (rows & Hrows & [= <-])%rbind_ok. split.
  - intros a. unfold snapshot_CanPerformEntityAction.
    destruct (ScopePermits ctx entity a) eqn:Hs; [|by apply checkAction_gates].
    destruct (IsAdmin ctx) eqn:Ha; [by apply checkAction_gates|].
    rewrite checkAction_contextVerdict, Ht by done. cbn [rbind negb].
    by rewrite (find_context_is_filter st t entity _ rows), contextPolicies_rows.
  - intros action. unfold CanTransitionAction, snapshot_CanTransitionAction.
    destruct (ScopePermits ctx entity ActionTransition); [|done]. destruct (IsAdmin ctx); [done|]. cbn [negb].
    rewrite Ht. cbn [rbind]. rewrite !(find_context_is_filter st t entity _ rows) by done. cbn [rbind].
    by rewrite !contextPolicies_rows.
Qed.
End AgainstTheInterface.

(** *** Default deny *)

(** C11. Default deny: a caller who is not an admin is allowed an entity
    action only when its OAuth2 scope covers the action, its tenant parses,
    and some policy row of the action matches and allows while no matching
    row denies; an admin is allowed exactly what the scope covers. *)
Theorem checkAction_default_deny st ctx entity a d :
  checkAction st ctx entity a = Ok d ->
  (pd_Allowed d = true <->
   ScopePermits ctx entity a = true /\
   (IsAdmin ctx = true \/
    exists t rows, ScopedTenant ctx = Ok t /\
      FindContextPolicies st t entity (EntityAction_String a) = Ok rows /\
      (exists p, p ∈ rows /\ EvaluatePolicyRow p ctx None = true /\ p_Effect p = EffectAllow) /\
      (forall p, p ∈ rows -> EvaluatePolicyRow p ctx None = true -> p_Effect p = EffectAllow))).
Proof.
  destruct (ScopePermits ctx entity a) eqn:Hs.
  2:{ rewrite (proj1 (checkAction_gates st ctx entity a) Hs). intros [= <-]. naive_solver. }
  destruct (IsAdmin ctx) eqn:Ha.
  { rewrite (proj2 (checkAction_gates st ctx entity a) Hs Ha). intros [= <-]. naive_solver. }
  rewrite checkAction_contextVerdict by done.
  intros (t & Ht & (rows & Hr & [= <-])%rbind_ok)%rbind_ok.
  pose proof (EvaluatePolicies_verdict_allow rows ctx None) as Hv.
  unfold contextVerdict. case_bool_decide as Hb; rewrite Hv in Hb; simpl.
  - split; [|done]. intros _. split; [done|]. right. eauto.
  - split; [done|]. intros (_ & [|(t' & rows' & Ht' & Hr' & Hp)]); [done|].
    rewrite Ht in Ht'. injection Ht' as <-. rewrite Hr in Hr'. injection Hr' as <-. by destruct Hb.
Qed.

(** *** The policy cache *)

Lemma member_written rows_members name v :
  List.filter (fun kv => key_matches name kv.1) rows_members = [(name, v)] -> member name rows_members = v.
Proof. intros E. unfold member. by rewrite E. Qed.

Definition decodable_condition (p : PolicyRow) : bool :=
  match p_Condition p with Some c => wf_condition c | None => true end.

Lemma marshalled_condition_decodes p j :
  decodable_condition p = true -> marshal_condition (p_Condition p) = Some j ->
  unmarshal_condition j = Ok (p_Condition p).
Proof.
  unfold decodable_condition, marshal_condition. destruct (p_Condition p) as [c|]; [|by intros _ [= <-]].
  intros Hwf. destruct (wf_roundtrips c Hwf) as (j' & Hm & Hu). rewrite Hm. intros [= <-].
  unfold unmarshal_condition. rewrite Hu. destruct j'; try done.
Qed.

(** The effect is written as a string and read as an integer. *)
Lemma marshalled_row_undecodable p j :
  decodable_condition p = true -> marshal_row p = Some j -> unmarshal_row j = Err type_error.
Proof.
  intros Hwf. unfold marshal_row. destruct (marshal_condition (p_Condition p)) as [cj|] eqn:Hc; [|done].
  cbn [mbind option_bind]. intros [= <-]. unfold unmarshal_row.
  rewrite (member_written _ "Condition" cj) by reflexivity.
  rewrite (marshalled_condition_decodes p cj) by done. cbn [rbind].
  rewrite (member_written _ "Effect" (JStr (PolicyEffect_String (p_Effect p)))) by reflexivity.
  cbn [unmarshal_effect]. repeat (case_match; simplify_option_eq; try done).
Qed.

(** A policy set that holds at least one row and was written to the cache
    never decodes again: the effect is encoded as a string but decoded into an
    integer type. So whenever the cache holds what the service put there, the
    snapshot is the one the store gives, and the cache saves no query. *)
Lemma policy_cache_never_hits {C} `{!Cache C} st (c : C) t entity cached bytes :
  cached <> [] -> forallb decodable_condition cached = true ->
  marshal_rows cached = Some bytes ->
  cache_Get c t (policiesCacheKey entity) = Ok (Some bytes) ->
  unmarshal_rows bytes = Err type_error /\
  (LoadSnapshot st (Some c) t entity).1 = LoadPermissionSnapshot st t entity.
Proof.
  intros Hne Hwf Hm Hget.
  assert (Hbad : unmarshal_rows bytes = Err type_error).
  { destruct cached as [|p ps]; [done|]. unfold marshal_rows in Hm. simpl in Hm.
    destruct (marshal_row p) as [j|] eqn:Hp; [|done]. simpl in Hm.
    destruct (mapM marshal_row ps); [|done]. simpl in Hm. injection Hm as <-. simpl.
    simpl in Hwf. apply andb_true_iff in Hwf as [Hwf _].
    by rewrite (marshalled_row_undecodable p j). }
  split; [done|]. unfold LoadSnapshot. rewrite Hget, Hbad. unfold LoadPermissionSnapshot.
  by destruct (LoadAllPolicies st t entity).
Qed.
End ServiceProperties.
