(* ===== verification/Users.v ===== *)
(** The users table (src/go/peripherals/auth.go, src/go/tenantauth/tenantauth.go) and
    the hostnames of tenants (src/go/control/hostname.go).

    The table is a list of rows with its constraints: one row per email, one per
    external identity of a tenant and a provider, a password hash for every local user.
    Password hashing is a parameter with its round trip; the identifiers of new rows
    come from [fresh]. A query's row that does not scan is an error. *)
From S2P Require Import Prelude GoStrings GoText Json Condition Context Uuid Evaluate Snapshot PermissionService.

Open Scope string_scope.
Open Scope list_scope.

(** argon2id: a hash made with some salt, and its verification ([None] when the stored
    text is no hash). *)
Class Argon := {
  CreateHash : string -> string -> string;
  ComparePasswordAndHash : string -> string -> option bool
}.
Class ArgonLaws `{!Argon} : Prop := {
  compare_created : forall salt p, ComparePasswordAndHash p (CreateHash salt p) = Some true
}.

(** pgx errors the code tells apart: a violated unique index (23505), any other. *)
Inductive PgError : Type := PgUnique | OtherPgError (e : error).

Section Users.
Context `{UuidLib}.

Record AuthUser : Type := mkAuthUser { au_ID : uuid; au_TenantID : uuid; au_Email : string }.

Record UserRow : Type := mkUserRow {
  ur_user : AuthUser;
  ur_password_hash : option string;
  ur_auth_provider : string;
  ur_external_subject : option string
}.

Definition row_email (r : UserRow) : string := au_Email (ur_user r).

(** users_email_unique and users_tenant_external_subject_idx. *)
Definition same_identity (r : UserRow) (tenantID : uuid) (provider : string) (subject : option string) : bool :=
  match subject, ur_external_subject r with
  | Some s, Some s' => bool_decide (au_TenantID (ur_user r) = tenantID) && String.eqb (ur_auth_provider r) provider && String.eqb s' s
  | _, _ => false
  end.

Definition violates (rows : list UserRow) (new : UserRow) : bool :=
  existsb (fun r => String.eqb (row_email r) (row_email new)
                    || same_identity r (au_TenantID (ur_user new)) (ur_auth_provider new) (ur_external_subject new)) rows.

(** [column_fault] is the error of a value the columns do not take. *)
Variable column_fault : UserRow -> option error.
Variable fresh : list UserRow -> uuid.

Definition insert_user (rows : list UserRow) (new : UserRow) : result PgError (AuthUser * list UserRow) :=
  match column_fault new with
  | Some e => Err (OtherPgError e)
  | None => if violates rows new then Err PgUnique else Ok (ur_user new, rows ++ [new])
  end.

Context `{!Argon}.

(** hashPassword, verifyPassword. *)
Definition hashPassword (salt password : string) : string := CreateHash salt password.
Definition verifyPassword (password hash : string) : result error bool :=
  match ComparePasswordAndHash password hash with Some b => Ok b | None => Err "argon2id: hash is not in the correct format" end.

Definition CreateUser (salt : string) (rows : list UserRow) (tenantID : uuid) (email password : string)
  : result PgError (AuthUser * list UserRow) :=
  insert_user rows (mkUserRow (mkAuthUser (fresh rows) tenantID email) (Some (hashPassword salt password)) "local" None).

Definition FindUserByID (rows : list UserRow) (tenantID userID : uuid) : option AuthUser :=
  ur_user <$> List.find (fun r => bool_decide (au_ID (ur_user r) = userID) && bool_decide (au_TenantID (ur_user r) = tenantID)) rows.

(** ORDER BY email: [sort] is the order of the database. *)
Definition ListTenantUsers (sort : list AuthUser -> list AuthUser) (rows : list UserRow) (tenantID : uuid) : list AuthUser :=
  sort (map ur_user (List.filter (fun r => bool_decide (au_TenantID (ur_user r) = tenantID)) rows)).

Definition null_scan : error := "can't scan into dest[3] (col: password_hash): cannot scan NULL into *string".

(** The first row of the email; without one the answer is that of a wrong password. *)
Definition VerifyCredentials (rows : list UserRow) (email password : string) : result error (option AuthUser) :=
  match List.find (fun r => String.eqb (row_email r) email) rows with
  | None => Ok None
  | Some r =>
    match ur_password_hash r with
    | None => Err null_scan
    | Some storedHash =>
      let! ok := verifyPassword password storedHash in
      Ok (if ok then Some (ur_user r) else None)
    end
  end.

(** ** External identities (tenantauth.go) *)

Inductive AuthProviderKind : Type := ProviderLocal | ProviderBasic | ProviderOidc | ProviderOAuth2.

Definition AuthProviderKind_String (k : AuthProviderKind) : string :=
  match k with ProviderLocal => "local" | ProviderBasic => "basic" | ProviderOidc => "oidc" | ProviderOAuth2 => "oauth2" end.

Definition ParseAuthProviderKind (s : string) : option AuthProviderKind :=
  if String.eqb s "local" then Some ProviderLocal else if String.eqb s "basic" then Some ProviderBasic
  else if String.eqb s "oidc" then Some ProviderOidc else if String.eqb s "oauth2" then Some ProviderOAuth2 else None.

(** tenant_auth_configs: tenant, provider kind, enabled. *)
Definition EnabledProviders (configs : list (uuid * string * bool)) (tenantID : uuid) : list AuthProviderKind :=
  omap (fun c => ParseAuthProviderKind c.1.2) (List.filter (fun c => bool_decide (c.1.1 = tenantID) && c.2) configs).

Definition FindExternalUser (rows : list UserRow) (tenantID : uuid) (provider externalSubject : string) : option AuthUser :=
  ur_user <$> List.find (fun r => same_identity r tenantID provider (Some externalSubject)) rows.

Definition JitProvisionExternalUser (rows : list UserRow) (tenantID : uuid) (provider email externalSubject : string)
  : result PgError (AuthUser * list UserRow) :=
  insert_user rows (mkUserRow (mkAuthUser (fresh rows) tenantID email) None provider (Some externalSubject)).

(** ** Hostnames (hostname.go) *)

Definition host_rune (c : N) : bool :=
  ((97 <=? c) && (c <=? 122) || (48 <=? c) && (c <=? 57) || (c =? 45) || (c =? 46))%N.

Definition NormalizeHostname (raw : string) : option string :=
  if HasPrefix raw "[" then None
  else
    let host := match Cut raw ":" with Some (h, _) => h | None => raw end in
    let host := ToLower (TrimSuffix (TrimSpace host) ".") in
    if String.eqb host "" || (253 <? String.length host)%nat then None
    else if forallb host_rune (runes host) then Some host else None.

Definition TenantIDForHostname (table : gmap string uuid) (hostname : string) : option uuid :=
  match NormalizeHostname hostname with Some host => table !! host | None => None end.

Definition SetTenantHostname (table : gmap string uuid) (tenantID : uuid) (hostname : string) : option (string * gmap string uuid) :=
  match NormalizeHostname hostname with Some host => Some (host, <[host := tenantID]> table) | None => None end.
End Users.

(** ** Properties *)

Section UserProps.
Context `{UuidLib} `{!Argon}.
Variable column_fault : UserRow -> option error.
Variable fresh : list UserRow -> uuid.

(** The constraints of the table. *)
Record users_ok (rows : list UserRow) : Prop := {
  uo_emails : NoDup (map row_email rows);
  uo_local : Forall (fun r => ur_auth_provider r = "local" -> is_Some (ur_password_hash r)) rows
}.

Lemma insert_user_ok rows new u rows' :
  users_ok rows -> (ur_auth_provider new = "local" -> is_Some (ur_password_hash new)) ->
  insert_user column_fault rows new = Ok (u, rows') -> users_ok rows' /\ rows' = rows ++ [new] /\ u = ur_user new.
Proof.
  intros [He Hl] Hn. unfold insert_user. destruct (column_fault new); [done|]. destruct (violates rows new) eqn:Hv; [done|].
  intros [= <- <-]. split; [|done]. constructor; [|by apply Forall_app; split; [|constructor]].
  rewrite map_app. apply NoDup_app. split; [done|]. split; [|apply NoDup_singleton].
  intros x Hx ->%list_elem_of_singleton. apply list_elem_of_In, in_map_iff in Hx as (r & Hr & Hin).
  assert (violates rows new = true); [|congruence]. apply existsb_exists. exists r. split; [done|]. by rewrite Hr, String.eqb_refl.
Qed.

Lemma find_email rows r : users_ok rows -> r ∈ rows -> List.find (fun r' => String.eqb (row_email r') (row_email r)) rows = Some r.
Proof.
  intros [He _]. revert He. induction rows as [|r0 rows IH]; intros He Hin; [by apply elem_of_nil in Hin|]. cbn [List.find].
  cbn [map] in He. apply NoDup_cons in He as [Hn He]. apply elem_of_cons in Hin as [->|Hin]; [by rewrite String.eqb_refl|].
  destruct (String.eqb_spec (row_email r0) (row_email r)) as [Heq|]; [|by apply IH]. exfalso. apply Hn. rewrite Heq.
  apply list_elem_of_In, in_map_iff. exists r. split; [done|]. by apply list_elem_of_In.
Qed.

(** A user who was created can log in with the password, and the answer is that user. *)
Lemma created_user_logs_in `{!ArgonLaws} salt rows t email password u rows' :
  users_ok rows -> CreateUser column_fault fresh salt rows t email password = Ok (u, rows') ->
  VerifyCredentials rows' email password = Ok (Some u) /\ au_TenantID u = t /\ au_Email u = email.
Proof.
  intros Hr Hc. apply insert_user_ok in Hc as (Hok & -> & ->); [|done|by eexists]. split; [|done].
  unfold VerifyCredentials.
  rewrite (find_email _ (mkUserRow (mkAuthUser (fresh rows) t email) (Some (hashPassword salt password)) "local" None) Hok)
    by (apply elem_of_app; right; by apply list_elem_of_singleton).
  cbn [ur_password_hash]. unfold verifyPassword, hashPassword. by rewrite compare_created.
Qed.

(** A second login through the same external identity finds the user made at the
    first, and a second provisioning of it is refused. *)
Lemma external_user_found_again rows t provider email subject u rows' :
  FindExternalUser rows t provider subject = None ->
  JitProvisionExternalUser column_fault fresh rows t provider email subject = Ok (u, rows') ->
  FindExternalUser rows' t provider subject = Some u /\
  forall email', exists e, JitProvisionExternalUser column_fault fresh rows' t provider email' subject = Err e.
Proof.
  intros Hnone Hj. unfold JitProvisionExternalUser, insert_user in *. destruct (column_fault _); [done|]. destruct (violates rows _); [done|].
  injection Hj as <- <-. set (new := mkUserRow _ None provider (Some subject)).
  assert (Hs : same_identity new t provider (Some subject) = true) by (cbn; by rewrite bool_decide_eq_true_2, !String.eqb_refl).
  split.
  - unfold FindExternalUser in *. destruct (List.find _ rows) eqn:E; [done|].
    assert (List.find (fun r => same_identity r t provider (Some subject)) (rows ++ [new]) = Some new) as ->; [|done].
    clearbody new. clear Hnone. induction rows as [|r rows IH]; cbn [app List.find] in *; [by rewrite Hs|].
    destruct (same_identity r t provider (Some subject)); [done|]. by apply IH.
  - intros email'. destruct (column_fault _); [by eexists|].
    assert (violates (rows ++ [new]) (mkUserRow (mkAuthUser (fresh (rows ++ [new])) t email') None provider (Some subject)) = true) as ->; [|by eexists].
    apply existsb_exists. exists new. split; [apply in_or_app; right; by left|]. cbn [au_TenantID ur_user ur_auth_provider ur_external_subject].
    rewrite Hs. by rewrite orb_true_r.
Qed.

(** A login with the email of a user who has no password is an error, not the answer
    of a wrong password: the row's NULL does not scan. *)
Lemma passwordless_email_is_told rows u provider subject password :
  users_ok rows -> mkUserRow u None provider subject ∈ rows -> VerifyCredentials rows (au_Email u) password = Err null_scan.
Proof.
  intros Hr Hin. unfold VerifyCredentials. change (au_Email u) with (row_email (mkUserRow u None provider subject)).
  by rewrite (find_email rows _ Hr Hin).
Qed.

Lemma provider_roundtrip k : ParseAuthProviderKind (AuthProviderKind_String k) = Some k.
Proof. by destruct k. Qed.
End UserProps.

(** A hash for examples: the password with a mark. *)
#[export] Instance TestArgon : Argon := {
  CreateHash _ p := "$" +:+ p;
  ComparePasswordAndHash p h := Some (String.eqb h ("$" +:+ p))
}.

#[export] Instance TestArgon_laws : ArgonLaws.
Proof. constructor. intros salt p. cbn. by rewrite String.eqb_refl. Qed.
