(* ===== verification/PolicyStore.v ===== *)
(** The Postgres policy store (src/go/control/policystore.go): the policies
    table as a list of column tuples, its queries as filters of that table,
    scanning as the decoding it does, and the proof that it keeps the promise
    of the policy store interface. Routing a tenant to its database can refuse
    ([route]); the identifier column's default comes from [fresh]. Every query
    names the tenant, so one table stands for all the databases. *)
From S2P Require Import Prelude GoStrings Json Condition Context Uuid Evaluate Snapshot PermissionService.

Open Scope string_scope.

(** One row of the policies table, nullable columns as options. *)
Record policies_row `{UuidLib} : Type := mkColumns {
  col_id : uuid;
  col_tenant_id : uuid;
  col_entity : string;
  col_action : string;
  col_field : option string;
  col_subject : string;
  col_roles : option json;
  col_condition : option json;
  col_created_by : option uuid;
  col_effect : string
}.

Section Store.
Context `{UuidLib}.

Record PostgresPolicyStore : Type := mkPgStore {
  policies : list policies_row;
  route : uuid -> option error;
  fresh : list policies_row -> uuid
}.

Definition with_policies (s : PostgresPolicyStore) (rows : list policies_row) : PostgresPolicyStore :=
  mkPgStore rows (route s) (fresh s).

Definition router_Begin (s : PostgresPolicyStore) (tenantID : uuid) : result error unit :=
  match route s tenantID with Some e => Err e | None => Ok tt end.

Definition scan_roles (raw : option json) : result error (list string * bool) :=
  match raw with
  | None => Ok ([], false)
  | Some j => match unmarshal_strings j with
              | Some roles => Ok (roles, true)
              | None => Err type_error
              end
  end.

Definition scan_condition (raw : option json) : result error (option PolicyCondition) :=
  match raw with
  | None => Ok None
  | Some j => let! c := PolicyCondition_UnmarshalJSON j in Ok (Some c)
  end.

Definition scanPolicyRow (row : policies_row) : result error PolicyRow :=
  let! (roles, hasRoles) := scan_roles (col_roles row) in
  let! condition := scan_condition (col_condition row) in
  Ok (mkPolicyRow _ (col_id row) (col_tenant_id row) (col_entity row) (col_action row)
        (default "" (col_field row)) (col_subject row) roles hasRoles condition
        (col_created_by row) (ParsePolicyEffect (col_effect row))).

Definition scanPolicyRows (rows : list policies_row) : result error (list PolicyRow) := mapR scanPolicyRow rows.

(** SELECT policyColumns FROM policies WHERE cond, in a routed transaction. *)
Definition select (s : PostgresPolicyStore) (tenantID : uuid) (cond : policies_row -> bool) : result error (list PolicyRow) :=
  let! _ := router_Begin s tenantID in
  scanPolicyRows (List.filter cond (policies s)).

Definition of_entity (tenantID : uuid) (entity : string) (r : policies_row) : bool :=
  bool_decide (col_tenant_id r = tenantID) && String.eqb (col_entity r) entity.

Definition field_is_null (r : policies_row) : bool :=
  match col_field r with None => true | Some _ => false end.

Definition pg_FindContextPolicies (s : PostgresPolicyStore) (tenantID : uuid) (entity action : string) :=
  select s tenantID (fun r => of_entity tenantID entity r && String.eqb (col_action r) action
                              && field_is_null r && String.eqb (col_subject r) "context").

Definition pg_LoadAllPolicies (s : PostgresPolicyStore) (tenantID : uuid) (entity : string) :=
  select s tenantID (of_entity tenantID entity).

Definition pg_FindExplainPolicies (s : PostgresPolicyStore) (tenantID : uuid) (entity action : string) (opts : ExplainOptions) :=
  if negb (String.eqb (eo_Field opts) "") then
    select s tenantID (fun r => of_entity tenantID entity r && String.eqb (col_action r) action
                                && bool_decide (col_field r = Some (eo_Field opts)))
  else
    let subject := default SubjectContext (eo_Subject opts) in
    select s tenantID (fun r => of_entity tenantID entity r && String.eqb (col_action r) action
                                && field_is_null r && String.eqb (col_subject r) (PolicySubject_String subject)).

Definition pg_ListPolicies (s : PostgresPolicyStore) (tenantID : uuid) (entity : option string) :=
  match entity with
  | Some entity => select s tenantID (of_entity tenantID entity)
  | None => select s tenantID (fun r => bool_decide (col_tenant_id r = tenantID))
  end.

(** INSERT ... RETURNING: the row is scanned back before the commit. *)
Definition insert_returning (s : PostgresPolicyStore) (row : policies_row) : result error (PolicyRow * PostgresPolicyStore) :=
  let! p := scanPolicyRow row in
  Ok (p, with_policies s (policies s ++ [row])%list).

(** The columns CreatePolicy writes; a condition that does not encode is
    written as NULL, its error being dropped. *)
Definition new_columns (s : PostgresPolicyStore) (tenantID : uuid) (np : NewPolicy) : policies_row :=
  mkColumns _ (fresh s (policies s)) tenantID (np_entity np) (np_action np)
    (if String.eqb (np_field np) "" then None else Some (np_field np))
    (PolicySubject_String (default SubjectContext (np_subject np)))
    (if np_hasRoles np then Some (marshal_strings (Some (np_roles np))) else None)
    (match np_condition np with
     | Some c => match PolicyCondition_MarshalJSON c with Ok j => Some j | _ => None end
     | None => None
     end)
    (np_createdBy np) (PolicyEffect_String (np_effect np)).

Definition pg_CreatePolicy (s : PostgresPolicyStore) (tenantID : uuid) (np : NewPolicy)
  : result error (PolicyRow * PostgresPolicyStore) :=
  let! _ := router_Begin s tenantID in
  insert_returning s (new_columns s tenantID np).

Definition pg_DeletePolicy (s : PostgresPolicyStore) (tenantID id : uuid) : result error PostgresPolicyStore :=
  let! _ := router_Begin s tenantID in
  Ok (with_policies s (List.filter
        (fun r => negb (bool_decide (col_tenant_id r = tenantID) && bool_decide (col_id r = id))) (policies s))).

(** The rows the sync owns: no condition, no field, context subject, allow. *)
Definition basic_shaped (tenantID : uuid) (entity : string) (r : policies_row) : bool :=
  of_entity tenantID entity r && bool_decide (col_condition r = None) && field_is_null r
  && String.eqb (col_subject r) "context" && String.eqb (col_effect r) "allow".

Definition grant_columns (s : PostgresPolicyStore) (tenantID : uuid) (entity : string)
    (createdBy : option uuid) (g : RoleActionGrant) : policies_row :=
  mkColumns _ (fresh s (policies s)) tenantID entity (g_Action g) None "context"
    (if g_HasRole g then Some (marshal_strings (Some [g_Role g])) else None) None createdBy "allow".

Fixpoint insert_grants (s : PostgresPolicyStore) (tenantID : uuid) (entity : string)
    (createdBy : option uuid) (grants : list RoleActionGrant) : result error (list PolicyRow * PostgresPolicyStore) :=
  match grants with
  | [] => Ok ([], s)
  | g :: rest =>
    let! (p, s1) := insert_returning s (grant_columns s tenantID entity createdBy g) in
    let! (out, s2) := insert_grants s1 tenantID entity createdBy rest in
    Ok (p :: out, s2)
  end.

Definition pg_SyncBasicPolicies (s : PostgresPolicyStore) (tenantID : uuid) (entity : string)
    (grants : list RoleActionGrant) (createdBy : option uuid) : result error (list PolicyRow * PostgresPolicyStore) :=
  let! _ := router_Begin s tenantID in
  insert_grants (with_policies s (List.filter (fun r => negb (basic_shaped tenantID entity r)) (policies s)))
    tenantID entity createdBy grants.

#[export] Instance PostgresStore : PolicyStore PostgresPolicyStore := {|
  FindContextPolicies := pg_FindContextPolicies;
  LoadAllPolicies := pg_LoadAllPolicies;
  FindExplainPolicies := pg_FindExplainPolicies;
  ListPolicies := pg_ListPolicies;
  CreatePolicy := pg_CreatePolicy;
  DeletePolicy := pg_DeletePolicy;
  SyncBasicPolicies := pg_SyncBasicPolicies
|}.

(** ** The interface's laws *)

(** No row has the empty string as its field: absent is NULL. *)
Definition fields_null_or_named (s : PostgresPolicyStore) : Prop :=
  Forall (fun r => col_field r <> Some "") (policies s).

Definition scans_to (r : policies_row) (p : PolicyRow) : Prop := scanPolicyRow r = Ok p.

Lemma scanPolicyRow_columns r p :
  scans_to r p ->
  p_ID p = col_id r /\ p_TenantID p = col_tenant_id r /\ p_Entity p = col_entity r /\
  p_Action p = col_action r /\ p_Field p = default "" (col_field r) /\ p_Subject p = col_subject r /\
  p_CreatedBy p = col_created_by r /\ p_Effect p = ParsePolicyEffect (col_effect r).
Proof.
  intros ([roles has] & _ & (c & _ & [= <-])%rbind_ok)%rbind_ok. done.
Qed.

(** Filtering the table and filtering its scanned rows commute. *)
Lemma scan_filter (f : policies_row -> bool) (g : PolicyRow -> bool) rows ps :
  mapR scanPolicyRow rows = Ok ps ->
  (forall r p, r ∈ rows -> scans_to r p -> f r = g p) ->
  mapR scanPolicyRow (List.filter f rows) = Ok (List.filter g ps).
Proof.
  rewrite !mapR_ok. induction 1 as [|r p rows ps Hr Hrows IH]; intros Hfg; simpl; [constructor|].
  rewrite (Hfg r p (list_elem_of_here _ _) Hr).
  assert (Forall2 (fun a b => scanPolicyRow a = Ok b) (List.filter f rows) (List.filter g ps)).
  { apply IH. intros r' p' Hin. apply Hfg. by apply list_elem_of_further. }
  by destruct (g p); [constructor|].
Qed.

Lemma select_ok s t f ps :
  select s t f = Ok ps <-> route s t = None /\ mapR scanPolicyRow (List.filter f (policies s)) = Ok ps.
Proof. unfold select, router_Begin. destruct (route s t); simpl; naive_solver. Qed.

Lemma fields_null_or_named_field s r p :
  fields_null_or_named s -> r ∈ policies s -> scans_to r p -> field_is_null r = String.eqb (p_Field p) "".
Proof.
  intros Hs Hin (_ & _ & _ & _ & -> & _)%scanPolicyRow_columns.
  unfold fields_null_or_named in Hs. rewrite Forall_forall in Hs. specialize (Hs r Hin).
  unfold field_is_null. destruct (col_field r) as [[|]|]; done.
Qed.

Lemma pg_find_context_is_filter s t e a rows :
  fields_null_or_named s -> pg_LoadAllPolicies s t e = Ok rows ->
  pg_FindContextPolicies s t e a =
  Ok (List.filter (fun p => is_context_policy p && bool_decide (p_Action p = a)) rows).
Proof.
  intros Hs [Hroute Hscan]%select_ok. apply select_ok. split; [done|].
  rewrite <- (filter_filter_ext (of_entity t e)
    (fun r => field_is_null r && String.eqb (col_subject r) "context" && String.eqb (col_action r) a)).
  - apply (scan_filter _ _ _ _ Hscan). intros r p Hin Hrp.
    unfold is_context_policy.
    rewrite list_elem_of_In, filter_In in Hin. destruct Hin as [Hin _].
    rewrite (fields_null_or_named_field s r p) by (done || by apply list_elem_of_In).
    apply scanPolicyRow_columns in Hrp as (_ & _ & _ & -> & _ & -> & _). do 2 f_equal.
    destruct (String.eqb_spec (col_action r) a); [by rewrite bool_decide_eq_true_2 | by rewrite bool_decide_eq_false_2].
  - intros r. simpl. rewrite <- !andb_assoc. f_equal.
    destruct (String.eqb (col_action r) a), (field_is_null r); by rewrite ?andb_true_r, ?andb_false_r.
Qed.

Lemma named_field s rows :
  fields_null_or_named s -> Forall (fun r => col_field r <> Some "") rows ->
  fields_null_or_named (with_policies s (policies s ++ rows)%list).
Proof. intros Hs Hr. by apply Forall_app. Qed.

Lemma insert_returning_ok s row p s' :
  insert_returning s row = Ok (p, s') -> scans_to row p /\ s' = with_policies s (policies s ++ [row])%list.
Proof. by intros (q & Hq & [= <- <-])%rbind_ok. Qed.

Lemma filter_keeps_named s f :
  fields_null_or_named s -> fields_null_or_named (with_policies s (List.filter f (policies s))).
Proof.
  unfold fields_null_or_named. simpl. rewrite !Forall_forall. setoid_rewrite list_elem_of_In.
  setoid_rewrite filter_In. naive_solver.
Qed.

Lemma insert_grants_named s t e by_ gs out s' :
  fields_null_or_named s -> insert_grants s t e by_ gs = Ok (out, s') -> fields_null_or_named s'.
Proof.
  revert s out. induction gs as [|g gs IH]; intros s out Hs; simpl; [by intros [= _ <-]|].
  intros ([p s1] & (_ & ->)%insert_returning_ok & ([o s2] & Hr & [= _ <-])%rbind_ok)%rbind_ok.
  eapply IH; [|exact Hr]. apply named_field; [done|]. by constructor.
Qed.

#[export] Instance PostgresStore_laws : PolicyStoreLaws PostgresPolicyStore.
Proof.
  refine {| store_inv := fields_null_or_named |}.
  - apply pg_find_context_is_filter.
  - intros st t np row st' Hs (_ & _ & (_ & ->)%insert_returning_ok)%rbind_ok.
    apply named_field; [done|]. constructor; [|done]. simpl. by destruct (np_field np).
  - intros st t id st' Hs (_ & _ & [= <-])%rbind_ok. by apply filter_keeps_named.
  - intros st t e gs by_ rows st' Hs (_ & _ & Hg)%rbind_ok.
    eapply insert_grants_named; [|exact Hg]. by apply filter_keeps_named.
Defined.

(** ** What the writes do *)

(** The rows of one tenant, which is all any query of that tenant can see. *)
Definition rows_of_tenant (t : uuid) (s : PostgresPolicyStore) : list policies_row :=
  List.filter (fun r => bool_decide (col_tenant_id r = t)) (policies s).

Lemma insert_grants_rows s t e by_ gs out s' :
  insert_grants s t e by_ gs = Ok (out, s') ->
  exists new, policies s' = (policies s ++ new)%list /\ route s' = route s /\
    mapR scanPolicyRow new = Ok out /\
    Forall2 (fun g r => col_tenant_id r = t /\ col_entity r = e /\ col_action r = g_Action g /\
      col_field r = None /\ col_subject r = "context" /\ col_condition r = None /\ col_effect r = "allow" /\
      col_roles r = if g_HasRole g then Some (JArr [JStr (g_Role g)]) else None) gs new.
Proof.
  revert s out. induction gs as [|g gs IH]; intros s out; simpl.
  - intros [= <- <-]. exists []. by rewrite app_nil_r.
  - intros ([p s1] & (Hp & ->)%insert_returning_ok & ([o s2] & Hr & [= <- <-])%rbind_ok)%rbind_ok.
    destruct (IH _ _ Hr) as (new & Hpol & Hroute & Hscan & Hall). simpl in Hpol.
    exists (grant_columns s t e by_ g :: new). rewrite Hpol, <- app_assoc. simpl.
    unfold scans_to in Hp. rewrite Hp, Hscan. split_and!; [done..|]. constructor; [|done].
    unfold grant_columns. simpl. by destruct (g_HasRole g).
Qed.

Lemma other_tenant_filter s t t' (f : policies_row -> bool) :
  t' <> t -> (forall r, f r = false -> col_tenant_id r = t) ->
  rows_of_tenant t' (with_policies s (List.filter f (policies s))) = rows_of_tenant t' s.
Proof.
  intros Hne Hf. unfold rows_of_tenant. simpl. apply filter_filter_ext. intros r.
  destruct (f r) eqn:E; simpl; [done|]. rewrite (Hf r E). symmetry. by apply bool_decide_eq_false.
Qed.

Lemma other_tenant_app s t t' new :
  t' <> t -> Forall (fun r => col_tenant_id r = t) new ->
  List.filter (fun r => bool_decide (col_tenant_id r = t')) (policies s ++ new)%list = rows_of_tenant t' s.
Proof.
  intros Hne Hnew. rewrite List.filter_app, (filter_none _ new); [by rewrite app_nil_r|].
  rewrite Forall_forall in Hnew. intros r Hr. apply bool_decide_eq_false. rewrite (Hnew r Hr). done.
Qed.

(** Tenant isolation of policies: whatever a tenant's administrator
    creates, deletes or synchronises, the policy rows of every other tenant,
    and so every query made for that tenant, are unchanged. *)
Lemma policy_writes_isolated s t t' :
  t' <> t ->
  (forall np row s', pg_CreatePolicy s t np = Ok (row, s') -> rows_of_tenant t' s' = rows_of_tenant t' s) /\
  (forall id s', pg_DeletePolicy s t id = Ok s' -> rows_of_tenant t' s' = rows_of_tenant t' s) /\
  (forall e gs by_ rows s', pg_SyncBasicPolicies s t e gs by_ = Ok (rows, s') ->
     rows_of_tenant t' s' = rows_of_tenant t' s).
Proof.
  intros Hne. split_and!.
  - intros np row s' (_ & _ & (_ & ->)%insert_returning_ok)%rbind_ok.
    apply (other_tenant_app s t t' _ Hne). by constructor.
  - intros id s' (_ & _ & [= <-])%rbind_ok. apply (other_tenant_filter s t t' _ Hne).
    intros r. rewrite negb_false_iff, andb_true_iff, !bool_decide_eq_true. naive_solver.
  - intros e gs by_ rows s' (_ & _ & Hg)%rbind_ok.
    destruct (insert_grants_rows _ _ _ _ _ _ _ Hg) as (new & Hpol & _ & _ & Hall).
    unfold rows_of_tenant. rewrite Hpol.
    rewrite (other_tenant_app _ t t' new Hne).
    + apply (other_tenant_filter s t t' _ Hne). intros r. unfold basic_shaped, of_entity.
      rewrite negb_false_iff, !andb_true_iff, bool_decide_eq_true. naive_solver.
    + clear -Hall. induction Hall; constructor; naive_solver.
Qed.

(** The basic-policy sync replaces exactly the rows the basic editor owns:
    afterwards the entity's basic-shaped rows are the grants, one row each in
    order, and every other row of the table (conditions, field rules, record
    rules, denies, other entities) is still there unchanged. *)
Lemma sync_replaces_basic_rows s t e gs by_ rows s' :
  pg_SyncBasicPolicies s t e gs by_ = Ok (rows, s') ->
  List.filter (fun r => negb (basic_shaped t e r)) (policies s')
    = List.filter (fun r => negb (basic_shaped t e r)) (policies s) /\
  Forall2 (fun g r => col_action r = g_Action g /\
      col_roles r = if g_HasRole g then Some (JArr [JStr (g_Role g)]) else None)
    gs (List.filter (basic_shaped t e) (policies s')) /\
  mapR scanPolicyRow (List.filter (basic_shaped t e) (policies s')) = Ok rows.
Proof.
  intros (_ & _ & Hg)%rbind_ok.
  destruct (insert_grants_rows _ _ _ _ _ _ _ Hg) as (new & Hpol & _ & Hscan & Hall). simpl in Hpol.
  assert (Hbasic : forall r, r ∈ new -> basic_shaped t e r = true).
  { intros r (i & Hi)%list_elem_of_lookup. destruct (Forall2_lookup_r _ _ _ _ _ Hall Hi) as (g & _ & Hr).
    destruct Hr as (Ht & He & _ & Hf & Hsub & Hc & Heff & _).
    unfold basic_shaped, of_entity, field_is_null. rewrite Ht, He, Hf, Hsub, Hc, Heff.
    by rewrite String.eqb_refl, !bool_decide_eq_true_2. }
  assert (Hnew : List.filter (basic_shaped t e) (policies s') = new).
  { rewrite Hpol, List.filter_app, (filter_all _ new) by done.
    rewrite (filter_filter_ext _ _ (fun _ => false)) by (intros r; by destruct (basic_shaped t e r)).
    by rewrite filter_none. }
  rewrite Hnew. split_and!; [| |done].
  - rewrite Hpol, List.filter_app, (filter_none _ new) by (intros r Hr; by rewrite (Hbasic r Hr)).
    rewrite app_nil_r. apply filter_filter_ext. intros r. by destruct (basic_shaped t e r).
  - eapply Forall2_impl; [exact Hall|]. naive_solver.
Qed.

(** Creating a policy and loading it back gives what was asked for: with
    a condition the constructors build, the returned row carries every
    argument, and the entity's policies are the old ones followed by it. *)
Lemma create_then_load s t np row s' rows :
  match np_condition np with Some c => wf_condition c | None => true end = true ->
  pg_LoadAllPolicies s t (np_entity np) = Ok rows ->
  pg_CreatePolicy s t np = Ok (row, s') ->
  pg_LoadAllPolicies s' t (np_entity np) = Ok (rows ++ [row])%list /\
  row = mkPolicyRow _ (fresh s (policies s)) t (np_entity np) (np_action np) (np_field np)
          (PolicySubject_String (default SubjectContext (np_subject np)))
          (if np_hasRoles np then np_roles np else []) (np_hasRoles np)
          (np_condition np) (np_createdBy np) (np_effect np).
Proof.
  intros Hwf [Hroute Hload]%select_ok (_ & _ & (Hscan & ->)%insert_returning_ok)%rbind_ok. split.
  - apply select_ok. split; [done|]. simpl. rewrite List.filter_app.
    apply mapR_ok. apply Forall2_app; [by apply mapR_ok|]. simpl.
    replace (of_entity t (np_entity np) (new_columns s t np)) with true; [by repeat constructor|].
    unfold of_entity. simpl. by rewrite String.eqb_refl, bool_decide_eq_true_2.
  - unfold scans_to, scanPolicyRow, new_columns in Hscan. simpl in Hscan.
    assert (Hc : scan_condition (match np_condition np with
       | Some c => match PolicyCondition_MarshalJSON c with Ok j => Some j | _ => None end
       | None => None end) = Ok (np_condition np)).
    { destruct (np_condition np) as [c|]; [|done]. destruct (wf_roundtrips c Hwf) as (j & Hm & Hu).
      rewrite Hm. simpl. by rewrite Hu. }
    rewrite Hc in Hscan. destruct np as [en ac ro has co cb fi su ef]. simpl in *.
    destruct has; simpl in Hscan; rewrite ?mapM_unmarshal_strings in Hscan; simpl in Hscan;
      injection Hscan as <-; f_equal; by destruct fi, ef.
Qed.
End Store.

(** ** Witnesses *)

#[local] Existing Instance TestUuid.

Definition tenant1 : @uuid TestUuid := "t1".
Definition tenant2 : @uuid TestUuid := "t2".
Definition test_fresh (rows : list policies_row) : uuid := "p" +:+ Itoa (length rows).
Definition test_store : PostgresPolicyStore :=
  mkPgStore [mkColumns _ "p0" "t1" "invoice" "read" None "context" (Some (JArr [JStr "clerk"])) None None "allow";
             mkColumns _ "p1" "t1" "invoice" "transition:approve" None "context" None None None "deny"]
    (fun _ => None) test_fresh.
Definition test_clerk : RequestContext := mkRequestContext "uuid-t1" "u1" (Some ["clerk"]) true "" None "".
Definition test_new_policy : NewPolicy :=
  mkNewPolicy _ "invoice" "read" ["boss"] true (Some (AttributeCondition "roles" OpContains (LiteralValue (JStr "boss"))))
    None "" None EffectAllow.

Lemma snapshot_agrees_with_service_witness :
  exists snap, LoadPermissionSnapshot test_store tenant1 "invoice" = Ok snap /\
    checkAction test_store test_clerk "invoice" ActionRead
    = Ok (snapshot_CanPerformEntityAction snap test_clerk "invoice" ActionRead).
Proof.
  eexists. split; [reflexivity|].
  refine (proj1 (snapshot_agrees_with_service test_store test_clerk tenant1 "invoice" _ _ eq_refl eq_refl) ActionRead).
  repeat constructor; discriminate.
Defined.

Lemma checkAction_default_deny_witness :
  pd_Allowed Allowed = true <->
   ScopePermits test_clerk "invoice" ActionRead = true /\
   (IsAdmin test_clerk = true \/
    exists t rows, ScopedTenant test_clerk = Ok t /\
      FindContextPolicies test_store t "invoice" (EntityAction_String ActionRead) = Ok rows /\
      (exists p, p ∈ rows /\ EvaluatePolicyRow p test_clerk None = true /\ p_Effect p = EffectAllow) /\
      (forall p, p ∈ rows -> EvaluatePolicyRow p test_clerk None = true -> p_Effect p = EffectAllow)).
Proof. apply (checkAction_default_deny test_store test_clerk "invoice" ActionRead Allowed). reflexivity. Defined.

(** A cache of one entry. *)
Definition test_cache : Type := option json.
#[local] Instance test_Cache : Cache test_cache := {|
  cache_Get c _ _ := Ok c;
  cache_Set _ _ _ j := Ok (Some j);
  cache_Invalidate _ _ _ := Ok None
|}.
Definition test_cached_rows : list PolicyRow :=
  match pg_LoadAllPolicies test_store tenant1 "invoice" with Ok rows => rows | _ => [] end.

Lemma policy_cache_never_hits_witness :
  exists bytes, marshal_rows test_cached_rows = Some bytes /\ unmarshal_rows bytes = Err type_error.
Proof.
  destruct (marshal_rows test_cached_rows) as [bytes|] eqn:E; [|vm_compute in E; discriminate].
  exists bytes. split; [reflexivity|].
  refine (proj1 (policy_cache_never_hits test_store (Some bytes : test_cache) tenant1 "invoice"
                   test_cached_rows bytes _ _ E eq_refl)).
  - vm_compute. discriminate.
  - vm_compute. reflexivity.
Defined.

Lemma policy_writes_isolated_witness :
  exists s', pg_DeletePolicy test_store tenant1 tenant1 = Ok s' /\
    rows_of_tenant tenant2 s' = rows_of_tenant tenant2 test_store.
Proof.
  eexists. split; [reflexivity|].
  refine (proj1 (proj2 (policy_writes_isolated test_store tenant1 tenant2 _)) tenant1 _ _); [discriminate | reflexivity].
Defined.

Lemma sync_replaces_basic_rows_witness :
  exists rows s', pg_SyncBasicPolicies test_store tenant1 "invoice" [mkGrant "" false "read"] None = Ok (rows, s') /\
    mapR scanPolicyRow (List.filter (basic_shaped tenant1 "invoice") (policies s')) = Ok rows.
Proof.
  do 2 eexists. split; [reflexivity|].
  eapply (sync_replaces_basic_rows test_store tenant1 "invoice" [mkGrant "" false "read"] None). reflexivity.
Defined.

Lemma create_then_load_witness :
  exists row s', pg_CreatePolicy test_store tenant1 test_new_policy = Ok (row, s') /\
    pg_LoadAllPolicies s' tenant1 "invoice" = Ok (test_cached_rows ++ [row])%list.
Proof.
  do 2 eexists. split; [reflexivity|].
  eapply (create_then_load test_store tenant1 test_new_policy); reflexivity.
Defined.
