(* ===== verification/Metadata.v ===== *)
(** Entity metadata: the definition of an entity (src/go/metadata/entity.go),
    computed-field templates (computed.go), the compiler's structural
    validation (compiler.go) and the registry (registry.go). The issues the
    validator collects are data carrying the values their messages print; the
    message texts are not modelled. Pointers are options, nil slices that the
    code tells from empty ones are options too. *)
From S2P Require Import Prelude GoStrings Json Condition Context Evaluate.

Open Scope string_scope.
Open Scope list_scope.

(** ** Entities (entity.go) *)

Definition FieldKind := string.
Definition KindID : FieldKind := "id".
Definition KindString : FieldKind := "string".
Definition KindNumber : FieldKind := "number".
Definition KindBoolean : FieldKind := "boolean".
Definition KindDate : FieldKind := "date".
Definition KindDatetime : FieldKind := "datetime".
Definition KindMoney : FieldKind := "money".
Definition KindEnum : FieldKind := "enum".
Definition KindReference : FieldKind := "reference".
Definition KindJSON : FieldKind := "json".

Definition FieldStorage := string.
Definition StorageNative : FieldStorage := "native".
Definition StorageColumn : FieldStorage := "column".

Definition UniqueScope := string.
Definition UniqueScopeTenant : UniqueScope := "tenant".
Definition UniqueScopeGlobal : UniqueScope := "global".

Definition ResolveUniqueScope (scope : option UniqueScope) : UniqueScope :=
  match scope with None => UniqueScopeTenant | Some s => s end.

Record EntityUniqueConstraint : Type := mkUnique {
  uc_Fields : list string;
  uc_Scope : option UniqueScope
}.

Record ComputedSpec : Type := mkComputed {
  cs_Expression : string;
  cs_DependsOn : list string
}.

Record EntityField : Type := mkField {
  f_Name : string;
  f_Label : string;
  f_Kind : FieldKind;
  f_Required : option bool;
  f_Indexed : option bool;
  f_Unique : option bool;
  f_UniqueScope : option UniqueScope;
  f_EnumValues : option (list string);
  f_RefEntity : option string;
  f_RefDisplayField : option string;
  f_Searchable : option bool;
  f_SearchMode : option string;
  f_Sortable : option bool;
  f_Storage : option FieldStorage;
  f_Min : option float64;
  f_Max : option float64;
  f_MinLength : option N;
  f_MaxLength : option N;
  f_Computed : option ComputedSpec;
  f_System : option bool
}.

(** The struct literal EntityField{Name: name, Kind: kind}. *)
Definition field_of_kind (name : string) (kind : FieldKind) : EntityField :=
  mkField name "" kind None None None None None None None None None None None None None None None None None.

Record EntityListView : Type := mkListView {
  lv_Name : string;
  lv_Label : string;
  lv_Fields : list string;
  lv_Filters : list string;
  lv_RequiredFields : list string;
  lv_DefaultSort : option string;
  lv_MaxLimit : N
}.

Record WorkflowTransition : Type := mkTransition {
  t_Action : string;
  t_From : string;
  t_To : string;
  t_Label : string;
  t_Guard : option PolicyCondition;
  t_Validator : option PolicyCondition;
  t_SetFields : gmap string PolicyValue;
  t_GuardMessage : string;
  t_ValidatorMessage : string
}.

Record EntityWorkflow : Type := mkWorkflow {
  w_StateField : string;
  w_InitialState : string;
  w_TerminalStates : list string;
  w_Transitions : list WorkflowTransition
}.

Record EntityAuditConfig : Type := mkAudit {
  ac_Enabled : bool;
  ac_RedactedFields : list string
}.

Record EntityDefinition : Type := mkEntity {
  e_Name : string;
  e_Label : string;
  e_TableName : string;
  e_Fields : list EntityField;
  e_ListViews : list EntityListView;
  e_Workflow : option EntityWorkflow;
  e_UniqueConstraints : list EntityUniqueConstraint;
  e_Audit : option EntityAuditConfig
}.

Definition boolVal (p : option bool) : bool := match p with Some b => b | None => false end.

Definition SystemFieldNames (entity : EntityDefinition) : list string :=
  map f_Name (List.filter (fun f => boolVal (f_System f)) (e_Fields entity)).

Inductive FieldStorageTier : Type := TierJsonb | TierGeneratedColumn.

Definition ResolveFieldStorageTier (field : EntityField) : FieldStorageTier :=
  match f_Storage field with
  | Some storage => if String.eqb storage StorageNative then TierJsonb else TierGeneratedColumn
  | None =>
    if boolVal (f_Indexed field) || boolVal (f_Sortable field) || boolVal (f_Unique field) || boolVal (f_Searchable field)
    then TierGeneratedColumn else TierJsonb
  end.

Definition is_some {A} (o : option A) : bool := match o with Some _ => true | None => false end.
Definition is_none {A} (o : option A) : bool := negb (is_some o).

Definition FieldHasRealColumn (field : EntityField) : bool :=
  (String.eqb (f_Kind field) KindReference && is_some (f_RefEntity field))
  || match f_Storage field with Some s => String.eqb s StorageColumn | None => false end.

Definition FieldKindSQLType (kind : FieldKind) : string :=
  if String.eqb kind KindString || String.eqb kind KindEnum then "text"
  else if String.eqb kind KindNumber then "double precision"
  else if String.eqb kind KindMoney then "numeric(18,4)"
  else if String.eqb kind KindBoolean then "boolean"
  else if String.eqb kind KindDate then "date"
  else if String.eqb kind KindDatetime then "timestamptz"
  else if String.eqb kind KindReference || String.eqb kind KindID then "uuid"
  else if String.eqb kind KindJSON then "jsonb"
  else "text".

(** ** Computed-field templates (computed.go) *)

(** Scans the expression: what to do with an ordinary byte and with a token. A
    '{' with no '}' after it is an ordinary byte. The bytes of a token are
    passed over with [skip]. *)
Fixpoint scan_expression {A} (onByte : ascii -> list A) (onToken : string -> list A)
    (skip : nat) (s : string) : list A :=
  match s with
  | EmptyString => []
  | String a s' =>
    match skip with
    | S k => scan_expression onByte onToken k s'
    | O =>
      if Ascii.eqb a "{" then
        match Cut s' "}" with
        | Some (name, _) => onToken name ++ scan_expression onByte onToken (S (String.length name)) s'
        | None => onByte a ++ scan_expression onByte onToken 0 s'
        end
      else onByte a ++ scan_expression onByte onToken 0 s'
    end
  end.

Definition ExpressionTokens (expression : string) : list string :=
  scan_expression (fun _ => []) (fun name => [name]) 0 expression.

Definition RenderExpression (expression : string) (resolve : string -> option string) : string :=
  String.concat "" (scan_expression (fun a => [str1 a])
    (fun name => match resolve name with Some v => [v] | None => [] end) 0 expression).

(** ** The validator (compiler.go) *)

Definition implicitSystemFields (name : string) : bool :=
  String.eqb name "createdAt" || String.eqb name "updatedAt".

Definition isASCIIAlpha (b : ascii) : bool := is_lower (byte_of b) || is_upper (byte_of b).
Definition isASCIIAlnum (b : ascii) : bool := isASCIIAlpha b || is_digit (byte_of b).
Definition isASCIILower (b : ascii) : bool := is_lower (byte_of b).
Definition isASCIIDigit (b : ascii) : bool := is_digit (byte_of b).

Definition isSafeFieldName (name : string) : bool :=
  match name with
  | EmptyString => false
  | String a _ => isASCIIAlpha a && all_bytes (fun b => isASCIIAlnum b || Ascii.eqb b "_") name
  end.

Definition isSafeIdentSegment (segment : string) : bool :=
  match segment with
  | EmptyString => false
  | String a _ => isASCIILower a && all_bytes (fun b => isASCIILower b || isASCIIDigit b || Ascii.eqb b "_") segment
  end.

Inductive issue : Type :=
| DuplicateField (name : string)
| UnsafeFieldName (name : string)
| EnumWithoutValues (name : string)
| ReferenceWithoutEntity (name : string)
| RangeOnNonNumeric (name kind : string)
| MinAboveMax (name : string)
| LengthOnNonString (name kind : string)
| MinLengthAboveMaxLength (name : string)
| ComputedNotString (name kind : string)
| ComputedRequired (name : string)
| ComputedIndexed (name : string)
| ComputedDependsOnItself (name : string)
| ComputedDependsOnComputed (name dep : string)
| ComputedDependsOnUnknown (name dep : string)
| ComputedTokenNotListed (name token : string)
| ListViewUnknownField (view field : string)
| ListViewUnknownFilter (view field : string)
| ListViewUnknownSort (view field : string)
| StateFieldUnknown (name : string)
| InitialStateEmpty
| TerminalStateEmpty
| GuardMessageWithoutGuard (action : string)
| ValidatorMessageWithoutValidator (action : string)
| WorkflowAttributeUnsupported (action attribute : string)
| WorkflowAttributeUnknownAction (action attribute target : string)
| TransitionIncomplete (from to action : string)
| TransitionDuplicate (action from : string)
| SetFieldsStateField (action field : string)
| SetFieldsUnknownField (action field : string)
| InitialStateNotInEnum (state : string)
| TerminalStateNotInEnum (state : string)
| FromStateNotInEnum (action state : string)
| ToStateNotInEnum (action state : string)
| BadTableName (name : string)
| SystemRequired (name : string)
| SystemComputed (name : string)
| SystemStateField (name : string)
| BadUniqueScope (name scope : string)
| UniqueScopeWithoutUnique (name : string)
| BadConstraintScope (fields : list string) (scope : string)
| ConstraintTooShort (fields : list string)
| ConstraintUnknownField (fields : list string) (name : string)
| ConstraintRepeatedField (fields : list string) (name : string)
| ConstraintRepeated (fields : list string)
| RedactedUnknown (name : string)
| RedactedRepeated (name : string)
| BadEntityName (name : string)
| RefUnknownEntity (field entity : string)
| RefUnknownDisplayField (field display entity : string).

Definition when (b : bool) (i : issue) : list issue := if b then [i] else [].

(** A loop that reports repeated keys: [seen] holds the keys met so far. *)
Fixpoint with_seen {A} (key : A -> option string) (body : bool -> A -> list issue)
    (seen : list string) (l : list A) : list issue :=
  match l with
  | [] => []
  | a :: l' =>
    match key a with
    | Some k => body (bool_decide (k ∈ seen)) a ++ with_seen key body (k :: seen) l'
    | None => body false a ++ with_seen key body seen l'
    end
  end.

Definition opt_gtb {A} (gt : A -> A -> bool) (a b : option A) : bool :=
  match a, b with Some x, Some y => gt x y | _, _ => false end.

Definition field_issues (duplicate : bool) (field : EntityField) : list issue :=
  let name := f_Name field in
  let kind := f_Kind field in
  let isNumeric := String.eqb kind KindNumber || String.eqb kind KindMoney in
  when duplicate (DuplicateField name)
  ++ when (negb (isSafeFieldName name)) (UnsafeFieldName name)
  ++ when (String.eqb kind KindEnum && (length (default [] (f_EnumValues field)) =? 0)%nat) (EnumWithoutValues name)
  ++ when (String.eqb kind KindReference && is_none (f_RefEntity field)) (ReferenceWithoutEntity name)
  ++ when (negb isNumeric && (is_some (f_Min field) || is_some (f_Max field))) (RangeOnNonNumeric name kind)
  ++ when (opt_gtb f64_gtb (f_Min field) (f_Max field)) (MinAboveMax name)
  ++ when (negb (String.eqb kind KindString) && (is_some (f_MinLength field) || is_some (f_MaxLength field)))
       (LengthOnNonString name kind)
  ++ when (opt_gtb (fun x y => (y <? x)%N) (f_MinLength field) (f_MaxLength field)) (MinLengthAboveMaxLength name).

Definition field_names (entity : EntityDefinition) : list string := map f_Name (e_Fields entity).
Definition known_name (entity : EntityDefinition) (name : string) : bool := bool_decide (name ∈ field_names entity).

Definition computedFieldNames (entity : EntityDefinition) : list string :=
  map f_Name (List.filter (fun f => is_some (f_Computed f)) (e_Fields entity)).

Definition dependency_issues (entity : EntityDefinition) (name dep : string) : list issue :=
  if String.eqb dep name then [ComputedDependsOnItself name]
  else if bool_decide (dep ∈ computedFieldNames entity) then [ComputedDependsOnComputed name dep]
  else when (negb (known_name entity dep)) (ComputedDependsOnUnknown name dep).

Definition computed_issues (entity : EntityDefinition) (field : EntityField) : list issue :=
  match f_Computed field with
  | None => []
  | Some computed =>
    let name := f_Name field in
    when (negb (String.eqb (f_Kind field) KindString)) (ComputedNotString name (f_Kind field))
    ++ when (boolVal (f_Required field)) (ComputedRequired name)
    ++ when (boolVal (f_Searchable field) || boolVal (f_Sortable field)) (ComputedIndexed name)
    ++ flat_map (dependency_issues entity name) (cs_DependsOn computed)
    ++ flat_map (fun token => when (negb (bool_decide (token ∈ cs_DependsOn computed))) (ComputedTokenNotListed name token))
         (ExpressionTokens (cs_Expression computed))
  end.

Definition isKnownField (entity : EntityDefinition) (name : string) : bool :=
  known_name entity name || implicitSystemFields name.

Definition listview_issues (entity : EntityDefinition) (listView : EntityListView) : list issue :=
  flat_map (fun name => when (negb (isKnownField entity name)) (ListViewUnknownField (lv_Name listView) name)) (lv_Fields listView)
  ++ flat_map (fun name => when (negb (isKnownField entity name)) (ListViewUnknownFilter (lv_Name listView) name)) (lv_Filters listView)
  ++ match lv_DefaultSort listView with
     | None => []
     | Some sort => let sortField := TrimPrefix sort "-" in
                    when (negb (isKnownField entity sortField)) (ListViewUnknownSort (lv_Name listView) sortField)
     end.

Fixpoint conditionAttributes (c : PolicyCondition) : list string :=
  match c with
  | mkCond attribute _ _ _ al an =>
    match al with
    | Some l => flat_map conditionAttributes l
    | None => match an with
              | Some l => flat_map conditionAttributes l
              | None => [attribute]
              end
    end
  end.

Definition condition_issues (actions : list string) (action : string) (condition : option PolicyCondition) : list issue :=
  match condition with
  | None => []
  | Some c =>
    flat_map (fun attribute =>
      match CutPrefix attribute WorkflowAttributePrefix with
      | None => []
      | Some rest =>
        match CutPrefix rest "actors." with
        | Some target =>
          if String.eqb target "" || ContainsByte target "." then [WorkflowAttributeUnsupported action attribute]
          else when (negb (bool_decide (target ∈ actions))) (WorkflowAttributeUnknownAction action attribute target)
        | None => [WorkflowAttributeUnsupported action attribute]
        end
      end) (conditionAttributes c)
  end.

Definition transition_incomplete (t : WorkflowTransition) : bool :=
  String.eqb (t_From t) "" || String.eqb (t_To t) "" || String.eqb (t_Action t) "".

Definition transition_key (t : WorkflowTransition) : string := t_From t +:+ "::" +:+ t_Action t.

Definition setfield_issues (entity : EntityDefinition) (stateField action name : string) : list issue :=
  if String.eqb name stateField then [SetFieldsStateField action name]
  else when (negb (isKnownField entity name)) (SetFieldsUnknownField action name).

Definition transition_issues (entity : EntityDefinition) (w : EntityWorkflow) (duplicate : bool) (t : WorkflowTransition) : list issue :=
  let actions := map t_Action (w_Transitions w) in
  when (negb (String.eqb (t_GuardMessage t) "") && is_none (t_Guard t)) (GuardMessageWithoutGuard (t_Action t))
  ++ when (negb (String.eqb (t_ValidatorMessage t) "") && is_none (t_Validator t)) (ValidatorMessageWithoutValidator (t_Action t))
  ++ condition_issues actions (t_Action t) (t_Guard t)
  ++ condition_issues actions (t_Action t) (t_Validator t)
  ++ if transition_incomplete t then [TransitionIncomplete (t_From t) (t_To t) (t_Action t)]
     else when duplicate (TransitionDuplicate (t_Action t) (t_From t))
          ++ flat_map (setfield_issues entity (w_StateField w) (t_Action t)) (map fst (map_to_list (t_SetFields t))).

Definition stateEnumValues (entity : EntityDefinition) (w : EntityWorkflow) : option (list string) :=
  match List.find (fun f => String.eqb (f_Name f) (w_StateField w) && String.eqb (f_Kind f) KindEnum) (e_Fields entity) with
  | Some f => f_EnumValues f
  | None => None
  end.

Definition state_enum_issues (w : EntityWorkflow) (values : list string) : list issue :=
  let outside state := negb (bool_decide (state ∈ values)) in
  when (negb (String.eqb (w_InitialState w) "") && outside (w_InitialState w)) (InitialStateNotInEnum (w_InitialState w))
  ++ flat_map (fun state => when (negb (String.eqb state "") && outside state) (TerminalStateNotInEnum state)) (w_TerminalStates w)
  ++ flat_map (fun t =>
       if String.eqb (t_From t) "" || String.eqb (t_To t) "" then []
       else when (outside (t_From t)) (FromStateNotInEnum (t_Action t) (t_From t))
            ++ when (outside (t_To t)) (ToStateNotInEnum (t_Action t) (t_To t))) (w_Transitions w).

Definition workflow_issues (entity : EntityDefinition) : list issue :=
  match e_Workflow entity with
  | None => []
  | Some w =>
    when (negb (known_name entity (w_StateField w))) (StateFieldUnknown (w_StateField w))
    ++ when (String.eqb (w_InitialState w) "") InitialStateEmpty
    ++ flat_map (fun state => when (String.eqb state "") TerminalStateEmpty) (w_TerminalStates w)
    ++ with_seen (fun t => if transition_incomplete t then None else Some (transition_key t))
         (transition_issues entity w) [] (w_Transitions w)
    ++ match stateEnumValues entity w with
       | Some values => state_enum_issues w values
       | None => []
       end
  end.

(** A dotted name of at least two safe segments. *)
Definition safe_dotted_name (name : string) : bool :=
  ContainsByte name "." && forallb isSafeIdentSegment (Split name ".").

Definition system_issues (entity : EntityDefinition) (field : EntityField) : list issue :=
  if negb (boolVal (f_System field)) then []
  else when (boolVal (f_Required field)) (SystemRequired (f_Name field))
       ++ when (is_some (f_Computed field)) (SystemComputed (f_Name field))
       ++ when (match e_Workflow entity with Some w => String.eqb (w_StateField w) (f_Name field) | None => false end)
            (SystemStateField (f_Name field)).

Definition bad_scope (s : UniqueScope) : bool :=
  negb (String.eqb s UniqueScopeTenant) && negb (String.eqb s UniqueScopeGlobal).

Definition unique_scope_issues (field : EntityField) : list issue :=
  match f_UniqueScope field with
  | None => []
  | Some scope => when (bad_scope scope) (BadUniqueScope (f_Name field) scope)
                  ++ when (negb (boolVal (f_Unique field))) (UniqueScopeWithoutUnique (f_Name field))
  end.

(** sort.Strings. *)
Fixpoint insert_string (x : string) (l : list string) : list string :=
  match l with
  | [] => [x]
  | y :: l' => if str_ltb y x then y :: insert_string x l' else x :: l
  end.
Definition sort_strings (l : list string) : list string := foldr insert_string [] l.

Lemma insert_string_perm x l : insert_string x l ≡ₚ x :: l.
Proof.
  induction l as [|y l IH]; simpl; [done|]. destruct (str_ltb y x); [|done]. rewrite IH. apply perm_swap.
Qed.

Lemma sort_strings_perm l : sort_strings l ≡ₚ l.
Proof. induction l as [|x l IH]; simpl; [done|]. rewrite insert_string_perm. by rewrite IH. Qed.

Definition nul : string := str1 "000"%char.
Definition field_set_key (c : EntityUniqueConstraint) : string := Join (sort_strings (uc_Fields c)) nul.

Definition constraint_too_short (c : EntityUniqueConstraint) : bool := (length (uc_Fields c) <? 2)%nat.

Definition constraint_issues (entity : EntityDefinition) (duplicate : bool) (c : EntityUniqueConstraint) : list issue :=
  (match uc_Scope c with Some s => when (bad_scope s) (BadConstraintScope (uc_Fields c) s) | None => [] end)
  ++ if constraint_too_short c then [ConstraintTooShort (uc_Fields c)]
     else with_seen Some
            (fun repeated name => when (negb (known_name entity name)) (ConstraintUnknownField (uc_Fields c) name)
                                  ++ when repeated (ConstraintRepeatedField (uc_Fields c) name)) [] (uc_Fields c)
          ++ when duplicate (ConstraintRepeated (uc_Fields c)).

Definition audit_issues (entity : EntityDefinition) : list issue :=
  match e_Audit entity with
  | None => []
  | Some audit =>
    with_seen Some (fun repeated name => when (negb (known_name entity name)) (RedactedUnknown name)
                                         ++ when repeated (RedactedRepeated name)) [] (ac_RedactedFields audit)
  end.

Definition validation_issues (entity : EntityDefinition) : list issue :=
  with_seen (fun f => Some (f_Name f)) field_issues [] (e_Fields entity)
  ++ flat_map (computed_issues entity) (e_Fields entity)
  ++ flat_map (listview_issues entity) (e_ListViews entity)
  ++ workflow_issues entity
  ++ when (negb (safe_dotted_name (e_TableName entity))) (BadTableName (e_TableName entity))
  ++ flat_map (system_issues entity) (e_Fields entity)
  ++ flat_map unique_scope_issues (e_Fields entity)
  ++ with_seen (fun c => if constraint_too_short c then None else Some (field_set_key c))
       (constraint_issues entity) [] (e_UniqueConstraints entity)
  ++ audit_issues entity
  ++ when (negb (safe_dotted_name (e_Name entity))) (BadEntityName (e_Name entity)).

Record ValidationError : Type := mkValidationError {
  ve_Entity : string;
  ve_Issues : list issue
}.

Definition Validate (entity : EntityDefinition) : option ValidationError :=
  match validation_issues entity with
  | [] => None
  | issues => Some (mkValidationError (e_Name entity) issues)
  end.

(** ** The registry (registry.go) *)

Record RelatedView : Type := mkRelatedView {
  rv_Name : string;
  rv_Label : string;
  rv_Entity : string;
  rv_FilterField : string;
  rv_Fields : list string;
  rv_Limit : option N
}.

Record FieldDisplayHint : Type := mkDisplayHint {
  fh_Field : string;
  fh_ResolveVia : option string;
  fh_EnumTones : gmap string string
}.

Inductive RegistryError : Type :=
| AlreadyRegistered (name : string)
| Validation (e : ValidationError).

Record MetadataRegistry : Type := mkRegistry {
  entities : gmap string EntityDefinition;
  relatedViews : gmap string (list RelatedView);
  fieldDisplayHints : gmap string (list FieldDisplayHint)
}.

Definition NewMetadataRegistry : MetadataRegistry := mkRegistry ∅ ∅ ∅.

Definition Register (r : MetadataRegistry) (entity : EntityDefinition) : result RegistryError MetadataRegistry :=
  match entities r !! e_Name entity with
  | Some _ => Err (AlreadyRegistered (e_Name entity))
  | None =>
    match Validate entity with
    | Some err => Err (Validation err)
    | None => Ok (mkRegistry (<[e_Name entity := entity]> (entities r)) (relatedViews r) (fieldDisplayHints r))
    end
  end.

(** A loop of registrations stops at the first refusal; what was registered
    before it stays. *)
Fixpoint register_all (r : MetadataRegistry) (l : list EntityDefinition) : MetadataRegistry * option RegistryError :=
  match l with
  | [] => (r, None)
  | e :: l' =>
    match Register r e with
    | Ok r' => register_all r' l'
    | Err err => (r, Some err)
    | Panic => (r, None)
    end
  end.

Definition append_views {A} (m : gmap string (list A)) (sub : string * list A) : gmap string (list A) :=
  <[sub.1 := default [] (m !! sub.1) ++ sub.2]> m.

(** The submissions of the binary, each factory as what it returns. *)
Record submissions : Type := mkSubmissions {
  submittedEntities : list EntityDefinition;
  submittedRelatedViews : list (string * list RelatedView);
  submittedFieldDisplayHints : list (string * list FieldDisplayHint)
}.

Definition SubmitEntity (s : submissions) (e : EntityDefinition) : submissions :=
  mkSubmissions (submittedEntities s ++ [e]) (submittedRelatedViews s) (submittedFieldDisplayHints s).
Definition SubmitRelatedViews (s : submissions) (entity : string) (v : list RelatedView) : submissions :=
  mkSubmissions (submittedEntities s) (submittedRelatedViews s ++ [(entity, v)]) (submittedFieldDisplayHints s).
Definition SubmitFieldDisplayHints (s : submissions) (entity : string) (h : list FieldDisplayHint) : submissions :=
  mkSubmissions (submittedEntities s) (submittedRelatedViews s) (submittedFieldDisplayHints s ++ [(entity, h)]).

Definition RegisterAllSubmitted (r : MetadataRegistry) (s : submissions) : MetadataRegistry * option RegistryError :=
  match register_all r (submittedEntities s) with
  | (r', Some err) => (r', Some err)
  | (r', None) =>
    (mkRegistry (entities r') (fold_left append_views (submittedRelatedViews s) (relatedViews r'))
       (fold_left append_views (submittedFieldDisplayHints s) (fieldDisplayHints r')), None)
  end.

Definition GetEntity (r : MetadataRegistry) (name : string) : option EntityDefinition := entities r !! name.
Definition GetRelatedViews (r : MetadataRegistry) (name : string) : list RelatedView := default [] (relatedViews r !! name).
Definition GetFieldDisplayHints (r : MetadataRegistry) (name : string) : list FieldDisplayHint :=
  default [] (fieldDisplayHints r !! name).

(** The receiver is cloned, so it is not changed. *)
Definition MergeWith (r : MetadataRegistry) (extra : list EntityDefinition) : result RegistryError MetadataRegistry :=
  match register_all r extra with
  | (_, Some err) => Err err
  | (merged, None) => Ok merged
  end.

Definition reference_issues (r : MetadataRegistry) (field : EntityField) : list issue :=
  if negb (String.eqb (f_Kind field) KindReference) then []
  else match f_RefEntity field with
  | None => []
  | Some refEntityName =>
    match entities r !! refEntityName with
    | None => [RefUnknownEntity (f_Name field) refEntityName]
    | Some target =>
      match f_RefDisplayField field with
      | None => []
      | Some display =>
        when (negb (existsb (fun f => String.eqb (f_Name f) display) (e_Fields target)))
          (RefUnknownDisplayField (f_Name field) display refEntityName)
      end
    end
  end.

(** The first entity, in some order of the map, with issues. *)
Fixpoint first_bad_reference (r : MetadataRegistry) (l : list EntityDefinition) : option ValidationError :=
  match l with
  | [] => None
  | entity :: l' =>
    match flat_map (reference_issues r) (e_Fields entity) with
    | [] => first_bad_reference r l'
    | issues => Some (mkValidationError (e_Name entity) issues)
    end
  end.

Definition ValidateReferences (r : MetadataRegistry) : option ValidationError :=
  first_bad_reference r (map snd (map_to_list (entities r))).

(** ** Properties of the validator *)

Create HintDb issues.

Lemma when_nil b i : when b i = [] <-> b = false.
Proof. by destruct b. Qed.

Lemma flat_map_nil {A B} (f : A -> list B) l : flat_map f l = [] <-> Forall (fun a => f a = []) l.
Proof.
  induction l as [|a l IH]; simpl; [by split|]. rewrite app_nil, IH, Forall_cons. done.
Qed.

#[export] Hint Rewrite @app_nil when_nil @flat_map_nil negb_false_iff : issues.
Ltac no_issues := autorewrite with issues in *; destruct_and?.

(** A duplicate-reporting loop is silent exactly when each step is and the
    keys are pairwise distinct. *)
Lemma with_seen_nil {A} (key : A -> option string) body seen (l : list A) :
  (forall a, body true a <> []) ->
  with_seen key body seen l = [] ->
  Forall (fun a => body false a = []) l /\ NoDup (omap key l) /\ (forall k, k ∈ omap key l -> k ∉ seen).
Proof.
  intros Hdup. revert seen. induction l as [|a l IH]; intros seen; simpl.
  { intros _. split_and!; [constructor | constructor | intros k Hk; by apply elem_of_nil in Hk]. }
  destruct (key a) as [k|].
  - intros [Ha Hl]%app_nil. case_bool_decide as Hin; [by destruct (Hdup a)|].
    destruct (IH _ Hl) as (Hf & Hnd & Hsep). split_and!.
    + by constructor.
    + constructor; [|done]. intros Hk. apply (Hsep k Hk). apply list_elem_of_here.
    + intros k' [->|Hk']%elem_of_cons; [done|]. intros Hs. apply (Hsep k' Hk'). by apply list_elem_of_further.
  - intros [Ha Hl]%app_nil. destruct (IH _ Hl) as (Hf & Hnd & Hsep). by split_and!; [constructor|..].
Qed.

Lemma Validate_None e : Validate e = None <-> validation_issues e = [].
Proof. unfold Validate. by destruct (validation_issues e). Qed.

Lemma validated_parts e :
  Validate e = None ->
  with_seen (fun f => Some (f_Name f)) field_issues [] (e_Fields e) = [] /\
  Forall (fun f => computed_issues e f = []) (e_Fields e) /\
  workflow_issues e = [] /\ safe_dotted_name (e_TableName e) = true /\
  Forall (fun f => system_issues e f = []) (e_Fields e) /\
  with_seen (fun c => if constraint_too_short c then None else Some (field_set_key c))
    (constraint_issues e) [] (e_UniqueConstraints e) = [] /\
  safe_dotted_name (e_Name e) = true.
Proof. rewrite Validate_None. unfold validation_issues. intros. no_issues. done. Qed.

Lemma omap_Some_map {A B} (f : A -> B) l : omap (fun a => Some (f a)) l = map f l.
Proof. induction l as [|a l IH]; simpl; [done|]. by f_equal. Qed.

Lemma validated_fields e :
  Validate e = None -> NoDup (field_names e) /\ Forall (fun f => isSafeFieldName (f_Name f) = true) (e_Fields e).
Proof.
  intros (Hf & _)%validated_parts. apply with_seen_nil in Hf as (Hf & Hnd & _); [|done].
  rewrite omap_Some_map in Hnd. split; [done|].
  eapply Forall_impl; [exact Hf|]. intros f Hi. unfold field_issues in Hi. no_issues. done.
Qed.

(** Field names are unique, so a name determines its field. *)
Lemma unique_field e f g :
  Validate e = None -> f ∈ e_Fields e -> g ∈ e_Fields e -> f_Name f = f_Name g -> f = g.
Proof.
  intros (Hnd & _)%validated_fields Hf Hg Heq. unfold field_names in Hnd.
  apply list_elem_of_lookup in Hf as [i Hi]. apply list_elem_of_lookup in Hg as [j Hj].
  assert (i = j) as ->; [|congruence].
  apply (NoDup_lookup _ i j (f_Name f) Hnd); rewrite list_lookup_fmap; [by rewrite Hi|].
  rewrite Hj. simpl. by rewrite Heq.
Qed.

Lemma validated_computed e f spec token :
  Validate e = None -> f ∈ e_Fields e -> f_Computed f = Some spec ->
  token ∈ ExpressionTokens (cs_Expression spec) ->
  exists g, g ∈ e_Fields e /\ f_Name g = token /\ f_Computed g = None.
Proof.
  intros (_ & Hc & _)%validated_parts Hf Hspec Htok.
  rewrite Forall_forall in Hc. specialize (Hc f Hf). unfold computed_issues in Hc. rewrite Hspec in Hc.
  autorewrite with issues in Hc. destruct Hc as (_ & _ & _ & Hdeps & Htoks). rewrite Forall_forall in Hdeps, Htoks.
  assert (Hin : token ∈ cs_DependsOn spec).
  { specialize (Htoks token Htok). autorewrite with issues in Htoks. by apply bool_decide_eq_true in Htoks. }
  specialize (Hdeps token Hin). unfold dependency_issues in Hdeps.
  destruct (String.eqb token (f_Name f)); [done|].
  case_bool_decide as Hnc; [done|]. autorewrite with issues in Hdeps. apply bool_decide_eq_true in Hdeps.
  unfold field_names in Hdeps. apply list_elem_of_fmap in Hdeps as (g & -> & Hg). exists g. split_and!; [done..|].
  destruct (f_Computed g) eqn:E; [|done]. destruct Hnc. unfold computedFieldNames.
  apply list_elem_of_In, in_map, filter_In. split; [by apply list_elem_of_In|]. by rewrite E.
Qed.

Lemma with_seen_transitions e w :
  e_Workflow e = Some w -> workflow_issues e = [] ->
  Forall (fun t => transition_issues e w false t = []) (w_Transitions w) /\
  NoDup (omap (fun t => if transition_incomplete t then None else Some (transition_key t)) (w_Transitions w)).
Proof.
  intros Hw. unfold workflow_issues. rewrite Hw. intros Hi. autorewrite with issues in Hi.
  destruct Hi as (_ & _ & _ & Hts & _). apply with_seen_nil in Hts as (? & ? & _); [done|]. intros t Hi. unfold transition_issues in Hi.
  autorewrite with issues in Hi. destruct Hi as (_ & _ & _ & _ & Hi). by destruct (transition_incomplete t).
Qed.

Lemma complete_transitions_keys ts :
  Forall (fun t => transition_incomplete t = false) ts ->
  omap (fun t => if transition_incomplete t then None else Some (transition_key t)) ts = map transition_key ts.
Proof. induction 1 as [|t ts Ht _ IH]; simpl; [done|]. rewrite Ht. simpl. f_equal. exact IH. Qed.

Lemma validated_workflow e w :
  Validate e = None -> e_Workflow e = Some w ->
  NoDup (map transition_key (w_Transitions w)) /\
  w_InitialState w <> "" /\ w_StateField w ∈ field_names e /\
  Forall (fun t => t_From t <> "" /\ t_To t <> "" /\ t_Action t <> "" /\ t_SetFields t !! w_StateField w = None)
    (w_Transitions w).
Proof.
  intros (_ & _ & Hi & _)%validated_parts Hw. pose proof (with_seen_transitions e w Hw Hi) as [Ht Hnd].
  assert (Hc : Forall (fun t => transition_incomplete t = false /\ t_SetFields t !! w_StateField w = None) (w_Transitions w)).
  { eapply Forall_impl; [exact Ht|]. intros t Hti. unfold transition_issues in Hti.
    autorewrite with issues in Hti. destruct Hti as (_ & _ & _ & _ & Hti).
    destruct (transition_incomplete t); [done|]. autorewrite with issues in Hti.
    destruct Hti as [_ Hset]. split; [done|].
    destruct (t_SetFields t !! w_StateField w) as [v|] eqn:E; [|done].
    rewrite Forall_forall in Hset. specialize (Hset (w_StateField w)). unfold setfield_issues in Hset.
    rewrite String.eqb_refl in Hset. discriminate Hset. apply list_elem_of_fmap.
    exists (w_StateField w, v). split; [done|]. by apply elem_of_map_to_list. }
  rewrite complete_transitions_keys in Hnd by (eapply Forall_impl; [exact Hc|]; naive_solver).
  unfold workflow_issues in Hi. rewrite Hw in Hi. autorewrite with issues in Hi.
  destruct Hi as (Hsf & Hinit & _). split_and!; [done| | |].
  - intros E. by rewrite E in Hinit.
  - by apply bool_decide_eq_true in Hsf.
  - eapply Forall_impl; [exact Hc|]. intros t [Hin Hs]. unfold transition_incomplete in Hin.
    apply orb_false_iff in Hin as [[H1%String.eqb_neq H3%String.eqb_neq]%orb_false_iff H4%String.eqb_neq]. done.
Qed.

(** An entity the compiler accepts is sound: field names are pairwise
    distinct, and each is a letter followed by letters, digits and
    underscores; every token of a computed field's template names a declared,
    not computed field, so one pass in any order computes them all; and in a
    workflow a state and an action determine at most one transition, none of
    which sets the state field behind the state machine's back. *)
Lemma validated_entity_sound e :
  Validate e = None ->
  NoDup (field_names e) /\
  (forall f, f ∈ e_Fields e -> isSafeFieldName (f_Name f) = true) /\
  (forall f spec token, f ∈ e_Fields e -> f_Computed f = Some spec ->
     token ∈ ExpressionTokens (cs_Expression spec) ->
     exists g, g ∈ e_Fields e /\ f_Name g = token /\ f_Computed g = None) /\
  (forall w i j ti tj, e_Workflow e = Some w ->
     w_Transitions w !! i = Some ti -> w_Transitions w !! j = Some tj ->
     t_From ti = t_From tj -> t_Action ti = t_Action tj -> i = j) /\
  (forall w t, e_Workflow e = Some w -> t ∈ w_Transitions w ->
     t_To t <> "" /\ t_SetFields t !! w_StateField w = None).
Proof.
  intros Hv. pose proof (validated_fields e Hv) as [Hnd Hsafe]. split_and!; [done| | | |].
  - rewrite Forall_forall in Hsafe. done.
  - intros f spec token. by apply validated_computed.
  - intros w i j ti tj Hw Hi Hj Hf Ha. destruct (validated_workflow e w Hv Hw) as (Hk & _).
    apply (NoDup_lookup _ i j (transition_key ti) Hk); rewrite list_lookup_fmap; [by rewrite Hi|].
    rewrite Hj. simpl. unfold transition_key. by rewrite Hf, Ha.
  - intros w t Hw Ht. destruct (validated_workflow e w Hv Hw) as (_ & _ & _ & Hall).
    rewrite Forall_forall in Hall. destruct (Hall t Ht) as (_ & ? & _ & ?). done.
Qed.

(** *** Computed templates *)

Lemma scan_expression_ext {A} ob (ot ot' : string -> list A) skip s :
  (forall name, name ∈ scan_expression (fun _ => []) (fun n => [n]) skip s -> ot name = ot' name) ->
  scan_expression ob ot skip s = scan_expression ob ot' skip s.
Proof.
  revert skip. induction s as [|a s IH]; intros skip; simpl; [done|].
  destruct skip as [|k]; [|apply IH]. destruct (Ascii.eqb a "{").
  - destruct (Cut s "}") as [[name r]|]; simpl.
    + intros Hn. rewrite (Hn name) by apply list_elem_of_here. f_equal. apply IH.
      intros n Hin. apply Hn. by apply list_elem_of_further.
    + intros Hn. f_equal. by apply IH.
  - intros Hn. f_equal. by apply IH.
Qed.

Fixpoint str_drop (n : nat) (s : string) : string :=
  match n, s with S n', String _ s' => str_drop n' s' | _, _ => s end.

Lemma str_app_assoc (a b c : string) : (a +:+ b) +:+ c = a +:+ (b +:+ c).
Proof. induction a as [|x a IH]; [done|]. exact (f_equal (String x) IH). Qed.

Lemma str_app_nil_r (a : string) : a +:+ "" = a.
Proof. induction a as [|x a IH]; [done|]. exact (f_equal (String x) IH). Qed.

Lemma concat_cons_empty x (l : list string) : String.concat "" (x :: l) = x +:+ String.concat "" l.
Proof. destruct l; simpl; [by rewrite str_app_nil_r | done]. Qed.

Lemma concat_app_empty (l1 l2 : list string) :
  String.concat "" (l1 ++ l2) = String.concat "" l1 +:+ String.concat "" l2.
Proof.
  induction l1 as [|x l1 IH]; [done|]. change ((x :: l1) ++ l2) with (x :: (l1 ++ l2)).
  by rewrite !concat_cons_empty, IH, str_app_assoc.
Qed.

Definition braces (name : string) : string := "{" +:+ name +:+ "}".

Lemma scan_braces skip s :
  String.concat "" (scan_expression (fun a => [str1 a]) (fun n => [braces n]) skip s) = str_drop skip s.
Proof.
  revert skip. induction s as [|a s IH]; intros skip; simpl; [by destruct skip|].
  destruct skip as [|k]; [|apply IH]. simpl.
  destruct (Ascii.eqb_spec a "{") as [->|].
  - destruct (Cut s "}") as [[name r]|] eqn:E; rewrite concat_cons_empty, IH; [|done].
    apply Cut_spec in E. subst s. unfold braces. rewrite !str_app_assoc. simpl.
    apply (f_equal (String "{")). clear. induction name as [|b name IH]; [done|]. exact (f_equal (String b) IH).
  - by rewrite concat_cons_empty, IH.
Qed.

(** Rendering a template uses the tokens ExpressionTokens reports and
    nothing else, and changes nothing but them: two resolvers that agree on
    the tokens render the same text, and resolving each token to its own
    braces gives the template back, unterminated braces included. *)
Lemma RenderExpression_only_tokens expression :
  (forall r1 r2, (forall n, n ∈ ExpressionTokens expression -> r1 n = r2 n) ->
     RenderExpression expression r1 = RenderExpression expression r2) /\
  RenderExpression expression (fun n => Some (braces n)) = expression.
Proof.
  split; [|apply scan_braces]. intros r1 r2 Hr. unfold RenderExpression. f_equal.
  apply scan_expression_ext. intros n Hn. by rewrite (Hr n Hn).
Qed.

(** ** Properties of the registry *)

Definition registry_inv (r : MetadataRegistry) : Prop :=
  forall name e, entities r !! name = Some e -> e_Name e = name /\ Validate e = None.

Inductive registry_step : MetadataRegistry -> MetadataRegistry -> Prop :=
| step_register r e r' : Register r e = Ok r' -> registry_step r r'
| step_submitted r s r' err : RegisterAllSubmitted r s = (r', err) -> registry_step r r'
| step_merge r extra r' : MergeWith r extra = Ok r' -> registry_step r r'.

Lemma Register_ok r e r' :
  Register r e = Ok r' ->
  entities r !! e_Name e = None /\ Validate e = None /\ entities r' = <[e_Name e := e]> (entities r).
Proof. unfold Register. repeat case_match; naive_solver. Qed.

Lemma register_all_grows r l r' err :
  registry_inv r -> register_all r l = (r', err) -> registry_inv r' /\ entities r ⊆ entities r'.
Proof.
  revert r. induction l as [|e l IH]; intros r Hr; simpl; [by intros [= <- <-]|].
  destruct (Register r e) as [r1| |] eqn:E; [|by intros [= <- <-]..]. intros Hall.
  apply Register_ok in E as (Hnone & Hv & He).
  assert (Hr1 : registry_inv r1).
  { intros name e'. rewrite He. intros [[<- <-]|[_ Hl]]%lookup_insert_Some; [done|]. by apply Hr. }
  destruct (IH r1 Hr1 Hall) as [Hinv Hsub]. split; [done|]. etransitivity; [|exact Hsub].
  rewrite He. by apply insert_subseteq.
Qed.

(** A registration is the loop over one entity. *)
Lemma Register_all_one r e r' : Register r e = Ok r' -> register_all r [e] = (r', None).
Proof. intros E. simpl. by rewrite E. Qed.

Lemma registry_step_grows r r' :
  registry_inv r -> registry_step r r' -> registry_inv r' /\ entities r ⊆ entities r'.
Proof.
  intros Hr Hstep. destruct Hstep as [r e r' E|r s r' err E|r extra r' E].
  - eapply register_all_grows; [exact Hr|]. apply Register_all_one, E.
  - unfold RegisterAllSubmitted in E. destruct (register_all _ (submittedEntities s)) as [r1 [e|]] eqn:Ea;
      injection E as <- <-; eapply register_all_grows in Ea; eauto.
  - unfold MergeWith in E. destruct (register_all _ extra) as [r1 [e|]] eqn:Ea; [done|]. injection E as <-.
    eapply register_all_grows; eauto.
Qed.

Lemma registry_steps_grow r r' :
  registry_inv r -> rtc registry_step r r' -> registry_inv r' /\ entities r ⊆ entities r'.
Proof.
  intros Hinv Hr'. induction Hr' as [|r r1 r' Hstep _ IH]; [done|].
  destruct (registry_step_grows _ _ Hinv Hstep) as [Hinv1 Hsub]. destruct (IH Hinv1) as [H1 H2].
  split; [done|]. by etransitivity.
Qed.

(** However a registry is built (single registrations, the submissions of
    a binary, merging a tenant's entities on top), every entity it serves under
    a name has that name and passed validation, and an entity once registered
    is never replaced. *)
Lemma registry_reachable_valid r :
  rtc registry_step NewMetadataRegistry r ->
  registry_inv r /\ (forall r', rtc registry_step r r' -> entities r ⊆ entities r').
Proof.
  intros Hr. assert (H0 : registry_inv NewMetadataRegistry) by (by intros name e He).
  destruct (registry_steps_grow _ _ H0 Hr) as [Hinv _]. split; [done|].
  intros r' Hr'. by apply (registry_steps_grow r r').
Qed.

Lemma reference_issues_nil r f :
  reference_issues r f = [] <->
  (f_Kind f = KindReference -> forall ref, f_RefEntity f = Some ref ->
     exists target, entities r !! ref = Some target /\
       forall display, f_RefDisplayField f = Some display -> display ∈ field_names target).
Proof.
  unfold reference_issues. destruct (String.eqb_spec (f_Kind f) KindReference) as [Hk|Hk]; simpl; [|naive_solver].
  destruct (f_RefEntity f) as [ref|]; [|naive_solver].
  destruct (entities r !! ref) as [target|] eqn:E; [|naive_solver].
  destruct (f_RefDisplayField f) as [display|]; [|naive_solver].
  autorewrite with issues. rewrite existsb_elem. unfold field_names.
  setoid_rewrite String.eqb_eq. setoid_rewrite list_elem_of_fmap. split.
  - intros (g & Hg & <-) _ ref' [= <-]. exists target. split; [done|]. intros d [= <-]. eauto.
  - intros Hall. destruct (Hall Hk ref eq_refl) as (t & Ht & Hd).
    rewrite E in Ht. injection Ht as <-.
    destruct (Hd display eq_refl) as (g & -> & Hg). eauto.
Qed.

(** The reference check accepts a registry exactly when every reference
    field of every entity names a registered entity, and its display field,
    when given, exists there; the order of the map does not matter. *)
Lemma ValidateReferences_exact r :
  ValidateReferences r = None <->
  forall name e f, entities r !! name = Some e -> f ∈ e_Fields e -> f_Kind f = KindReference ->
    forall ref, f_RefEntity f = Some ref ->
    exists target, entities r !! ref = Some target /\
      forall display, f_RefDisplayField f = Some display -> display ∈ field_names target.
Proof.
  assert (Hfirst : forall l, first_bad_reference r l = None <->
    Forall (fun e => Forall (fun f => reference_issues r f = []) (e_Fields e)) l).
  { induction l as [|e l IH]; simpl; [by split|]. rewrite Forall_cons, <- IH, <- flat_map_nil.
    destruct (flat_map _ _); naive_solver. }
  unfold ValidateReferences. rewrite Hfirst, Forall_fmap, Forall_forall. setoid_rewrite Forall_forall.
  setoid_rewrite reference_issues_nil. split.
  - intros Hall name e f Hl. by apply (Hall (name, e)), elem_of_map_to_list.
  - intros Hall [name e] Hin f. apply elem_of_map_to_list in Hin. eauto.
Qed.

(** ** Witnesses *)

Definition test_entity : EntityDefinition :=
  let title := field_of_kind "title" KindString in
  let status := mkField "status" "" KindEnum None None None None (Some ["draft"; "done"]) None None None None None None
                  None None None None None None in
  let summary := mkField "summary" "" KindString None None None None None None None None None None None
                  None None None None (Some (mkComputed "{title}!" ["title"])) None in
  mkEntity "shop.order" "Order" "shop.orders" [title; status; summary] []
    (Some (mkWorkflow "status" "draft" ["done"] [mkTransition "finish" "draft" "done" "Finish" None None ∅ "" ""]))
    [] None.

Lemma validated_entity_sound_witness : NoDup (field_names test_entity).
Proof. apply (validated_entity_sound test_entity). vm_compute. reflexivity. Defined.

Lemma registry_reachable_valid_witness :
  exists r, Register NewMetadataRegistry test_entity = Ok r /\ registry_inv r.
Proof.
  eexists. split; [reflexivity|].
  refine (proj1 (registry_reachable_valid _ _)).
  eapply rtc_l; [|apply rtc_refl]. apply (step_register _ test_entity). reflexivity.
Defined.
