(* ===== verification/Schema.v ===== *)
(** The schema reconciler's desired state (src/go/reconciler): physical schemas
    (schema.go), the quoting of names and literals (sqlfmt.go), the normal form
    in which expressions are compared (normalize.go), and the compiler from an
    entity to its table (compile.go). Maps are [gmap]s; the texts of error
    messages are not modelled. *)
From S2P Require Import Prelude GoStrings GoText Json Condition Context Evaluate Metadata.

Open Scope string_scope.
Open Scope list_scope.

(** ** Physical schemas (schema.go) *)

Inductive ColumnOriginKind : Type := OriginFramework | OriginData | OriginGenerated.

Record ColumnOrigin : Type := mkOrigin {
  o_Kind : ColumnOriginKind;
  o_SourceField : string;
  o_Backfilled : bool
}.

Record ColumnSpec : Type := mkColumn {
  col_SQLType : string;
  col_Nullable : bool;
  col_Origin : ColumnOrigin
}.

Record IndexSpec : Type := mkIndex {
  ix_Expression : string;
  ix_Unique : bool;
  ix_Using : string;
  ix_Valid : bool;
  ix_WhereClause : string
}.

Inductive OnDelete : Type := OnDeleteRestrict | OnDeleteCascade | OnDeleteSetNull.

Definition OnDelete_SQL (o : OnDelete) : string :=
  match o with
  | OnDeleteCascade => "CASCADE"
  | OnDeleteSetNull => "SET NULL"
  | OnDeleteRestrict => "RESTRICT"
  end.

Record FkSpec : Type := mkFk {
  fk_Column : string;
  fk_RefTable : string;
  fk_RefColumn : string;
  fk_OnDelete : OnDelete;
  fk_Validated : bool
}.

Record UniqueSpec : Type := mkUniqueSpec { uq_Columns : list string }.

Record PhysicalSchema : Type := mkSchema {
  ps_Table : string;
  ps_Columns : gmap string ColumnSpec;
  ps_Indexes : gmap string IndexSpec;
  ps_ForeignKeys : gmap string FkSpec;
  ps_Uniques : gmap string UniqueSpec
}.

#[global] Instance OnDelete_eq_dec : EqDecision OnDelete.
Proof. solve_decision. Defined.

Definition OnDelete_eqb (a b : OnDelete) : bool := bool_decide (a = b).

Definition EmptySchema (table : string) : PhysicalSchema := mkSchema table ∅ ∅ ∅ ∅.

Definition with_column (s : PhysicalSchema) (name : string) (c : ColumnSpec) : PhysicalSchema :=
  mkSchema (ps_Table s) (<[name := c]> (ps_Columns s)) (ps_Indexes s) (ps_ForeignKeys s) (ps_Uniques s).
Definition with_index (s : PhysicalSchema) (name : string) (i : IndexSpec) : PhysicalSchema :=
  mkSchema (ps_Table s) (ps_Columns s) (<[name := i]> (ps_Indexes s)) (ps_ForeignKeys s) (ps_Uniques s).
Definition with_fk (s : PhysicalSchema) (name : string) (f : FkSpec) : PhysicalSchema :=
  mkSchema (ps_Table s) (ps_Columns s) (ps_Indexes s) (<[name := f]> (ps_ForeignKeys s)) (ps_Uniques s).

(** ** Quoting (sqlfmt.go) *)

Definition quoteIdent (name : string) : string :=
  quote +:+ ReplaceByte name quote_char (quote +:+ quote) +:+ quote.

Definition quoteQualifiedIdent (name : string) : string :=
  match Cut name "." with
  | None => quoteIdent name
  | Some (schema, table) => quoteIdent schema +:+ "." +:+ quoteIdent table
  end.

Definition quoteLiteral (value : string) : string :=
  "'" +:+ ReplaceByte value "'" "''" +:+ "'".

(** ** Normal forms of expressions (normalize.go) *)

Definition isAlnumRune (r : N) : bool := is_lower r || is_upper r || is_digit r.

(** The two inner loops of stripTypeCasts: over the type's name, and over its
    parenthesised arguments with the depth of parentheses still open. *)
Fixpoint skip_type_name (rs : list N) : list N :=
  match rs with
  | r :: rs' => if isAlnumRune r || (r =? rn "_")%N then skip_type_name rs' else rs
  | [] => []
  end.

Fixpoint skip_type_args (depth : nat) (rs : list N) : list N :=
  match depth, rs with
  | O, _ => rs
  | _, [] => []
  | S d, r :: rs' =>
    if (r =? rn "(")%N then skip_type_args (S depth) rs'
    else if (r =? rn ")")%N then skip_type_args d rs'
    else skip_type_args depth rs'
  end.

Definition skip_cast (rs : list N) : list N :=
  let rest := skip_type_name rs in
  match rest with
  | r :: rest' => if (r =? rn "(")%N then skip_type_args 1 rest' else rest
  | [] => []
  end.

(** The outer loop; every turn consumes a rune, so one unit of fuel per rune is enough. *)
Fixpoint strip_casts (fuel : nat) (rs : list N) : list N :=
  match fuel with
  | O => []
  | S fuel' =>
    match rs with
    | [] => []
    | a :: rest =>
      match rest with
      | b :: rest' =>
        if ((a =? rn ":") && (b =? rn ":"))%N then strip_casts fuel' (skip_cast rest')
        else a :: strip_casts fuel' rest
      | [] => [a]
      end
    end
  end.

Definition stripTypeCasts (expr : string) : string :=
  let rs := runes expr in of_runes (strip_casts (length rs) rs).

Definition is_bracket_or_quote (r : N) : bool :=
  (r =? byte_of quote_char)%N || (r =? rn "(")%N || (r =? rn ")")%N.

Definition NormalizeExpr (expr : string) : string :=
  let lowercased := ToLower (stripTypeCasts expr) in
  let bare := of_runes (List.filter (fun r => negb (is_bracket_or_quote r)) (runes lowercased)) in
  Join (Fields bare) " ".

(** ** The compiler (compile.go) *)

Record frameworkColumn : Type := mkFramework { fc_name : string; fc_sqlType : string; fc_nullable : bool }.

Definition frameworkColumns : list frameworkColumn :=
  [ mkFramework "id" "uuid" false;
    mkFramework "tenant_id" "uuid" false;
    mkFramework "code" "varchar(120)" true;
    mkFramework "status" "varchar(80)" true;
    mkFramework "data" "jsonb" false;
    mkFramework "version" "integer" false;
    mkFramework "deleted" "boolean" false;
    mkFramework "created_at" "timestamptz" false;
    mkFramework "updated_at" "timestamptz" false;
    mkFramework "created_by" "uuid" true;
    mkFramework "updated_by" "uuid" true ].

Definition FrameworkColumnNames : list string := map fc_name frameworkColumns.
Definition is_framework (name : string) : bool := existsb (String.eqb name) FrameworkColumnNames.

Definition EntitySchema : string := "entities".

Definition TableNameFor (entityName : string) : string := ReplaceByte entityName "." "_".

Definition QualifiedTableNameIn (entityName schema : string) : string :=
  schema +:+ "." +:+ TableNameFor entityName.

Definition QualifiedTableNameFor (entityName : string) : string :=
  QualifiedTableNameIn entityName EntitySchema.

Inductive CompileError : Type :=
| TableNameTooLong (entity mangled : string)
| FieldCollides (entity field : string).

(** Panics on a name that is not qualified. *)
Definition schemaOf (tableName : string) : result CompileError string :=
  match Cut tableName "." with
  | Some (schema, _) => Ok schema
  | None => Panic
  end.

(** The longest identifier Postgres keeps whole, in bytes. *)
Definition identifier_limit : nat := 63.

Definition CheckTableNameLength (entityName : string) : result CompileError () :=
  let mangled := TableNameFor entityName in
  if (identifier_limit <? String.length mangled)%nat then Err (TableNameTooLong entityName mangled) else Ok tt.

Definition indexName (entityName fieldName kind : string) : string :=
  kind +:+ "_" +:+ TableNameFor entityName +:+ "_" +:+ fieldName.

(** uint32 arithmetic. *)
Definition u32 (n : N) : N := (n mod 2 ^ 32)%N.

Fixpoint fnv1a_from (hash : N) (data : string) : N :=
  match data with
  | EmptyString => hash
  | String b data' => fnv1a_from (u32 (N.lxor hash (byte_of b) * 0x01000193)) data'
  end.

Definition fnv1a (data : string) : N := fnv1a_from 0x811c9dc5 data.

Definition utf8RuneBoundary (s : string) (i : nat) : bool :=
  if (i =? 0)%nat || (i =? String.length s)%nat then true
  else match String.get i s with
       | Some b => negb (N.land (byte_of b) 0xC0 =? 0x80)%N
       | None => true
       end.

(** for end > 0 && !utf8RuneBoundary(full, end) { end-- } *)
Fixpoint rune_boundary_at_or_before (s : string) (e : nat) : nat :=
  match e with
  | O => O
  | S e' => if utf8RuneBoundary s e then e else rune_boundary_at_or_before s e'
  end.

Definition compositeUniqueIndexName (entityName : string) (fields : list string) : string :=
  let full := "uniq_" +:+ TableNameFor entityName +:+ "_" +:+ Join fields "_" in
  if (String.length full <=? identifier_limit)%nat then full
  else
    let suffix := "_" +:+ hex_digits 8 (fnv1a full) in
    let keep := (identifier_limit - String.length suffix)%nat in
    let stop := Nat.min keep (String.length full) in
    str_take (rune_boundary_at_or_before full stop) full +:+ suffix.

Definition data_text (field : string) : string := "(data ->> '" +:+ field +:+ "')".

Definition is_date_kind (kind : FieldKind) : bool :=
  String.eqb kind KindDate || String.eqb kind KindDatetime.

(** The expression over data: the text of a date, the cast value of any other kind. *)
Definition data_expression (field : EntityField) : string :=
  if is_date_kind (f_Kind field) then data_text (f_Name field)
  else "(" +:+ data_text (f_Name field) +:+ "::" +:+ FieldKindSQLType (f_Kind field) +:+ ")".

Definition fieldIndexExpression (field : EntityField) : string :=
  if FieldHasRealColumn field then quote +:+ f_Name field +:+ quote else data_expression field.

Definition tenantColumnExpr : string := quote +:+ "tenant_id" +:+ quote.

Definition withTenantPrefix (expr : string) (prefix : bool) : string :=
  if prefix then tenantColumnExpr +:+ ", " +:+ expr else expr.

Definition not_deleted : string := "deleted = false".

(** An index the compiler asks for: a unique one only covers live rows. *)
Definition index_over (expr : string) (unique : bool) : IndexSpec :=
  mkIndex expr unique "" true (if unique then not_deleted else "").

Definition framework_schema (entity : EntityDefinition) : PhysicalSchema :=
  let columns := fold_left
    (fun s c => with_column s (fc_name c) (mkColumn (fc_sqlType c) (fc_nullable c) (mkOrigin OriginFramework "" false)))
    frameworkColumns (EmptySchema (e_TableName entity)) in
  with_index columns (indexName (e_Name entity) "tenant_id" "idx") (mkIndex tenantColumnExpr false "" true "").

(** The index of a searchable field: full text or trigrams. *)
Definition search_index (entity : EntityDefinition) (field : EntityField) (schema : PhysicalSchema) : PhysicalSchema :=
  let fts := match f_SearchMode field with Some m => String.eqb m "fts" | None => false end in
  let kind := if fts then "gin" else "trgm" in
  let expr := if fts then "to_tsvector('simple', " +:+ data_text (f_Name field) +:+ ")"
              else data_text (f_Name field) +:+ " gin_trgm_ops" in
  with_index schema (indexName (e_Name entity) (f_Name field) kind) (mkIndex expr false "gin" true "").

Definition is_fk_reference (field : EntityField) : bool :=
  String.eqb (f_Kind field) KindReference && is_some (f_RefEntity field).

Definition index_kind (unique : bool) : string := if unique then "uniq" else "idx".

(** A field with a column of its own: the column, its index and its foreign key. *)
Definition real_column (entity : EntityDefinition) (entitySchema : string) (field : EntityField)
    (schema : PhysicalSchema) : PhysicalSchema :=
  let name := f_Name field in
  let unique := boolVal (f_Unique field) in
  let uniqueTenantScoped := unique && String.eqb (ResolveUniqueScope (f_UniqueScope field)) UniqueScopeTenant in
  let isFk := is_fk_reference field in
  let indexed := unique || boolVal (f_Indexed field) || boolVal (f_Sortable field) || isFk in
  let s1 := with_column schema name
              (mkColumn (FieldKindSQLType (f_Kind field)) true (mkOrigin OriginGenerated name true)) in
  let s2 := if indexed
            then with_index s1 (indexName (e_Name entity) name (index_kind unique))
                   (index_over (withTenantPrefix (quote +:+ name +:+ quote)
                                  (uniqueTenantScoped || (negb unique && negb isFk))) unique)
            else s1 in
  if isFk
  then with_fk s2 ("fk_" +:+ TableNameFor (e_Name entity) +:+ "_" +:+ name)
         (mkFk name (QualifiedTableNameIn (default "" (f_RefEntity field)) entitySchema) "id" OnDeleteRestrict true)
  else s2.

(** A promoted field without one: an index on its expression over data. *)
Definition expression_index (entity : EntityDefinition) (field : EntityField) (schema : PhysicalSchema) : PhysicalSchema :=
  let unique := boolVal (f_Unique field) in
  let uniqueTenantScoped := unique && String.eqb (ResolveUniqueScope (f_UniqueScope field)) UniqueScopeTenant in
  with_index schema (indexName (e_Name entity) (f_Name field) (index_kind unique))
    (index_over (withTenantPrefix (data_expression field) (uniqueTenantScoped || negb unique)) unique).

Definition is_mirrored (name : string) : bool := String.eqb name "code" || String.eqb name "status".

(** What a field adds once its search index is there. *)
Definition field_storage (entity : EntityDefinition) (entitySchema : string) (field : EntityField)
    (schema : PhysicalSchema) : PhysicalSchema :=
  if FieldHasRealColumn field then real_column entity entitySchema field schema
  else match ResolveFieldStorageTier field with
       | TierJsonb => schema
       | TierGeneratedColumn => expression_index entity field schema
       end.

Definition compile_field (entity : EntityDefinition) (entitySchema : string)
    (schema : PhysicalSchema) (field : EntityField) : result CompileError PhysicalSchema :=
  let name := f_Name field in
  if negb (is_mirrored name) && is_framework name then Err (FieldCollides (e_Name entity) name)
  else if is_mirrored name then Ok schema
  else if boolVal (f_Searchable field) then
    let s := search_index entity field schema in
    if boolVal (f_Unique field) then Ok (field_storage entity entitySchema field s) else Ok s
  else Ok (field_storage entity entitySchema field schema).

Fixpoint compile_fields (entity : EntityDefinition) (entitySchema : string)
    (schema : PhysicalSchema) (fields : list EntityField) : result CompileError PhysicalSchema :=
  match fields with
  | [] => Ok schema
  | f :: fields' =>
    let! schema' := compile_field entity entitySchema schema f in
    compile_fields entity entitySchema schema' fields'
  end.

(** The zero EntityField a missing key of the map reads as. *)
Definition zero_field : EntityField := field_of_kind "" "".

Definition field_map (fields : list EntityField) : gmap string EntityField :=
  fold_left (fun m f => <[f_Name f := f]> m) fields ∅.

Definition composite_index (entity : EntityDefinition) (schema : PhysicalSchema) (c : EntityUniqueConstraint) : PhysicalSchema :=
  let fieldByName := field_map (e_Fields entity) in
  let exprs := map (fun name => fieldIndexExpression (default zero_field (fieldByName !! name))) (uc_Fields c) in
  let tenantScoped := String.eqb (ResolveUniqueScope (uc_Scope c)) UniqueScopeTenant in
  with_index schema (compositeUniqueIndexName (e_Name entity) (uc_Fields c))
    (index_over (withTenantPrefix (Join exprs ", ") tenantScoped) true).

Definition Compile (entity : EntityDefinition) : result CompileError PhysicalSchema :=
  let! _ := CheckTableNameLength (e_Name entity) in
  let! entitySchema := schemaOf (e_TableName entity) in
  let! schema := compile_fields entity entitySchema (framework_schema entity) (e_Fields entity) in
  Ok (fold_left (composite_index entity) (e_UniqueConstraints entity) schema).

(** ** What the quoting means to Postgres's lexer

    A quoted identifier or a string literal ends at the first quote that is not
    doubled; [read_quoted q s] reads the rest of one after its opening quote. *)

Fixpoint read_quoted (q : ascii) (s : string) : option (string * string) :=
  match s with
  | EmptyString => None
  | String a s' =>
    if Ascii.eqb a q then
      match s' with
      | String b s'' =>
        if Ascii.eqb b q
        then match read_quoted q s'' with Some (v, rest) => Some (String q v, rest) | None => None end
        else Some (EmptyString, s')
      | EmptyString => Some (EmptyString, s')
      end
    else match read_quoted q s' with Some (v, rest) => Some (String a v, rest) | None => None end
  end.

Definition read_ident (s : string) : option (string * string) :=
  match s with String a s' => if Ascii.eqb a quote_char then read_quoted quote_char s' else None | EmptyString => None end.
Definition read_literal (s : string) : option (string * string) :=
  match s with String a s' => if Ascii.eqb a "'" then read_quoted "'" s' else None | EmptyString => None end.

(** The next byte does not continue a quoted text. *)
Definition not_continued (q : ascii) (rest : string) : bool :=
  match rest with String a _ => negb (Ascii.eqb a q) | EmptyString => true end.

(** ** Lemmas *)

Lemma append_cons a s t : String a s +:+ t = String a (s +:+ t).
Proof. done. Qed.

Lemma str1_cons a s : str1 a +:+ s = String a s.
Proof. done. Qed.

Lemma doubled_cons a s : (str1 a +:+ str1 a) +:+ s = String a (String a s).
Proof. done. Qed.

Lemma append_nil_l s : "" +:+ s = s.
Proof. done. Qed.

Lemma read_quoted_end q rest :
  not_continued q rest = true -> read_quoted q (String q rest) = Some (EmptyString, rest).
Proof.
  intros H. cbn [read_quoted]. rewrite Ascii.eqb_refl. destruct rest as [|b r]; [done|].
  cbn [not_continued] in H. by destruct (Ascii.eqb b q).
Qed.

Lemma read_quoted_doubled q value rest :
  not_continued q rest = true ->
  read_quoted q (ReplaceByte value q (str1 q +:+ str1 q) +:+ (str1 q +:+ rest)) = Some (value, rest).
Proof.
  intros H. induction value as [|a v IH]; cbn [ReplaceByte].
  - rewrite append_nil_l, str1_cons. by apply read_quoted_end.
  - destruct (Ascii.eqb_spec a q) as [->|Hne].
    + rewrite <- app_str_assoc, doubled_cons. cbn [read_quoted]. rewrite !Ascii.eqb_refl. by rewrite IH.
    + rewrite <- app_str_assoc, str1_cons. cbn [read_quoted].
      rewrite IH. by destruct (Ascii.eqb_spec a q).
Qed.

(** A name or a literal quoted by the reconciler is read back by the lexer
    as exactly that name or literal, whatever bytes it holds, and the text after
    it is left as it was: no metadata can end the quoted text early. *)
Lemma quoting_roundtrip name rest :
  not_continued quote_char rest = true -> not_continued "'" rest = true ->
  read_ident (quoteIdent name +:+ rest) = Some (name, rest) /\
  read_literal (quoteLiteral name +:+ rest) = Some (name, rest).
Proof.
  intros H1 H2. split.
  - unfold quoteIdent, quote. rewrite <- !app_str_assoc, str1_cons.
    cbn [read_ident]. rewrite Ascii.eqb_refl. by apply read_quoted_doubled.
  - unfold quoteLiteral. rewrite <- !app_str_assoc. rewrite append_cons, append_nil_l.
    cbn [read_literal]. rewrite Ascii.eqb_refl. by apply (read_quoted_doubled "'").
Qed.

Lemma quoting_roundtrip_witness :
  read_ident (quoteIdent ("a" +:+ quote +:+ "; DROP TABLE x") +:+ " uuid")
  = Some ("a" +:+ quote +:+ "; DROP TABLE x", " uuid").
Proof. refine (proj1 (quoting_roundtrip _ " uuid" _ _)); reflexivity. Defined.

(** ** The compiled schema *)

(** The fields that get a column of their own: a searchable field only when it
    is unique too. *)
Definition gets_column (f : EntityField) : bool :=
  negb (is_mirrored (f_Name f)) && FieldHasRealColumn f && (negb (boolVal (f_Searchable f)) || boolVal (f_Unique f)).

Definition generated_column (f : EntityField) : ColumnSpec :=
  mkColumn (FieldKindSQLType (f_Kind f)) true (mkOrigin OriginGenerated (f_Name f) true).

Definition framework_column (c : frameworkColumn) : ColumnSpec :=
  mkColumn (fc_sqlType c) (fc_nullable c) (mkOrigin OriginFramework "" false).

Definition field_named (name : string) (f : EntityField) : bool := String.eqb (f_Name f) name.

(** The column an entity's table must have under a name. *)
Definition expected_column (entity : EntityDefinition) (name : string) : option ColumnSpec :=
  match List.find (fun c => String.eqb (fc_name c) name) frameworkColumns with
  | Some c => Some (framework_column c)
  | None =>
    match List.find (field_named name) (e_Fields entity) with
    | Some f => if gets_column f then Some (generated_column f) else None
    | None => None
    end
  end.

Definition collides (f : EntityField) : bool := negb (is_mirrored (f_Name f)) && is_framework (f_Name f).

Definition put_if {A} (b : bool) (k : string) (v : A) (m : gmap string A) : gmap string A :=
  if b then <[k := v]> m else m.

Lemma field_storage_columns entity sch f s :
  ps_Columns (field_storage entity sch f s) = put_if (FieldHasRealColumn f) (f_Name f) (generated_column f) (ps_Columns s).
Proof.
  unfold field_storage, put_if. destruct (FieldHasRealColumn f).
  - unfold real_column. destruct (is_fk_reference f), (_ || _)%bool; done.
  - by destruct (ResolveFieldStorageTier f).
Qed.

Lemma compile_field_columns entity sch s f s' :
  compile_field entity sch s f = Ok s' ->
  collides f = false /\ ps_Columns s' = put_if (gets_column f) (f_Name f) (generated_column f) (ps_Columns s).
Proof.
  unfold compile_field, gets_column, collides. destruct (is_mirrored (f_Name f)); cbn [negb andb].
  { intros [= <-]. done. }
  destruct (is_framework (f_Name f)); [done|]. intros H. split; [done|].
  destruct (boolVal (f_Searchable f)), (boolVal (f_Unique f)); cbn [negb orb]; injection H as <-;
    rewrite ?field_storage_columns, ?andb_true_r, ?andb_false_r; done.
Qed.

Lemma compile_field_ok entity sch s f : collides f = false -> is_ok (compile_field entity sch s f) = true.
Proof.
  unfold compile_field, collides. intros ->. destruct (is_mirrored (f_Name f)); [done|].
  by destruct (boolVal (f_Searchable f)), (boolVal (f_Unique f)).
Qed.

Lemma compile_fields_columns entity sch s fields s' :
  compile_fields entity sch s fields = Ok s' ->
  forallb (fun f => negb (collides f)) fields = true /\
  ps_Columns s' = fold_left (fun m f => put_if (gets_column f) (f_Name f) (generated_column f) m) fields (ps_Columns s).
Proof.
  revert s. induction fields as [|f fields IH]; intros s; cbn [compile_fields fold_left forallb].
  - by intros [= <-].
  - intros (s1 & H1 & H2)%rbind_ok. apply compile_field_columns in H1 as [Hc H1]. apply IH in H2 as [Hf H2].
    rewrite Hc, Hf, H2, H1. done.
Qed.

Lemma compile_fields_ok entity sch s fields :
  forallb (fun f => negb (collides f)) fields = true -> is_ok (compile_fields entity sch s fields) = true.
Proof.
  revert s. induction fields as [|f fields IH]; intros s; cbn [compile_fields forallb]; [done|].
  intros [Hf%negb_true_iff Hfs]%andb_prop. apply (compile_field_ok entity sch s) in Hf.
  destruct (compile_field entity sch s f); [|done..]. by apply IH.
Qed.

Lemma composite_fold_parts entity cs s :
  let s' := fold_left (composite_index entity) cs s in
  ps_Table s' = ps_Table s /\ ps_Columns s' = ps_Columns s /\
  ps_ForeignKeys s' = ps_ForeignKeys s /\ ps_Uniques s' = ps_Uniques s.
Proof. revert s. induction cs as [|c cs IH]; intros s; [done|]. apply (IH (composite_index entity s c)). Qed.

Lemma find_key_none {A} (key : A -> string) l a :
  key a ∉ map key l -> List.find (fun b => String.eqb (key b) (key a)) l = None.
Proof.
  intros Hni. destruct (List.find _ _) as [g|] eqn:E; [|done].
  apply List.find_some in E as [Hg He%String.eqb_eq]. destruct Hni. apply list_elem_of_In, in_map_iff. eauto.
Qed.

(** Filling a map from a list without repeated keys. *)
Lemma fold_put_if_lookup {A B} (key : A -> string) (keep : A -> bool) (val : A -> B) l m name :
  NoDup (map key l) ->
  fold_left (fun m a => put_if (keep a) (key a) (val a) m) l m !! name =
  match List.find (fun a => String.eqb (key a) name) l with
  | Some a => if keep a then Some (val a) else m !! name
  | None => m !! name
  end.
Proof.
  revert m. induction l as [|a l IH]; intros m Hnd; [done|]. cbn [fold_left List.find map] in *.
  apply NoDup_cons in Hnd as [Hni Hnd]. rewrite (IH _ Hnd).
  destruct (String.eqb_spec (key a) name) as [<-|Hne].
  - rewrite (find_key_none key l a Hni). unfold put_if. destruct (keep a); [by rewrite lookup_insert_eq|done].
  - unfold put_if. destruct (keep a); [by rewrite lookup_insert_ne|done].
Qed.

Lemma with_column_fold s l :
  ps_Columns (fold_left (fun s c => with_column s (fc_name c) (framework_column c)) l s)
  = fold_left (fun m c => put_if true (fc_name c) (framework_column c) m) l (ps_Columns s).
Proof. revert s. induction l as [|c l IH]; intros s; [done|]. apply IH. Qed.

Lemma framework_schema_columns entity name :
  ps_Columns (framework_schema entity) !! name =
  framework_column <$> List.find (fun c => String.eqb (fc_name c) name) frameworkColumns.
Proof.
  unfold framework_schema. cbn [ps_Columns with_index]. fold framework_column.
  pose proof (with_column_fold (EmptySchema (e_TableName entity)) frameworkColumns) as H.
  unfold framework_column in H at 1. rewrite H.
  rewrite (fold_put_if_lookup fc_name (fun _ => true) framework_column).
  - destruct (List.find _ _); done.
  - apply (bool_decide_unpack _). vm_compute. exact I.
Qed.

(** A definition compiles exactly when its table name fits Postgres's
    identifiers, its table is qualified by a schema and no field is named like a
    framework column; the compiled table then has the eleven framework columns,
    one column for every field that asks for one (a searchable field only if it
    is unique), and no other. *)
Lemma Compile_columns_exact entity :
  (is_ok (Compile entity) = true <->
   (String.length (TableNameFor (e_Name entity)) <= identifier_limit)%nat /\
   is_some (Cut (e_TableName entity) ".") = true /\
   forallb (fun f => negb (collides f)) (e_Fields entity) = true) /\
  forall s, Compile entity = Ok s -> NoDup (map f_Name (e_Fields entity)) ->
    forall name, ps_Columns s !! name = expected_column entity name.
Proof.
  split.
  - unfold Compile, CheckTableNameLength, schemaOf.
    destruct (Nat.ltb_spec identifier_limit (String.length (TableNameFor (e_Name entity)))); cbn [rbind is_ok].
    { split; [done|]. lia. }
    destruct (Cut (e_TableName entity) ".") as [[sch ?]|]; cbn [rbind is_ok is_some]; [|naive_solver].
    destruct (compile_fields _ _ _ _) as [s1| |] eqn:E; cbn [rbind is_ok].
    + apply compile_fields_columns in E as [E _]. naive_solver lia.
    + split; [done|]. intros (_ & _ & Hc). apply (compile_fields_ok entity sch (framework_schema entity)) in Hc.
      by rewrite E in Hc.
    + split; [done|]. intros (_ & _ & Hc). apply (compile_fields_ok entity sch (framework_schema entity)) in Hc.
      by rewrite E in Hc.
  - intros s (? & _ & (sch & _ & (s1 & H1 & [= <-])%rbind_ok)%rbind_ok)%rbind_ok Hnd name.
    destruct (composite_fold_parts entity (e_UniqueConstraints entity) s1) as (_ & -> & _).
    apply compile_fields_columns in H1 as [Hc ->].
    rewrite (fold_put_if_lookup f_Name gets_column generated_column) by done.
    rewrite framework_schema_columns. unfold expected_column, field_named.
    destruct (List.find (fun c => String.eqb (fc_name c) name) frameworkColumns) as [c|] eqn:Ec; cbn [fmap option_fmap option_map]; [|done].
    destruct (List.find _ (e_Fields entity)) as [f|] eqn:Ef; [|done].
    destruct (gets_column f) eqn:Eg; [|done]. exfalso.
    apply List.find_some in Ef as [Hf He%String.eqb_eq]. apply List.find_some in Ec as [Hin Hn%String.eqb_eq].
    rewrite forallb_forall in Hc. specialize (Hc f Hf). apply negb_true_iff in Hc. revert Hc.
    unfold gets_column in Eg. apply andb_prop in Eg as [[Em _]%andb_prop _].
    unfold collides. rewrite Em. cbn [andb]. unfold is_framework. rewrite He, <- Hn.
    rewrite <- not_true_iff_false. intros []. apply existsb_exists. exists (fc_name c).
    split; [apply in_map, Hin|apply String.eqb_refl].
Qed.

(** *** Uniqueness *)

Definition composite_name (entity : EntityDefinition) (c : EntityUniqueConstraint) : string :=
  compositeUniqueIndexName (e_Name entity) (uc_Fields c).

Definition tenant_scoped (scope : option UniqueScope) : bool :=
  String.eqb (ResolveUniqueScope scope) UniqueScopeTenant.

(** The unique index that enforces a unique field, and the one of a composite constraint. *)
Definition unique_field_index (f : EntityField) : IndexSpec :=
  index_over (withTenantPrefix (fieldIndexExpression f) (tenant_scoped (f_UniqueScope f))) true.

Definition composite_index_spec (entity : EntityDefinition) (c : EntityUniqueConstraint) : IndexSpec :=
  index_over (withTenantPrefix
    (Join (map (fun name => fieldIndexExpression (default zero_field (field_map (e_Fields entity) !! name))) (uc_Fields c)) ", ")
    (tenant_scoped (uc_Scope c))) true.

(** The unique fields the compiler promotes: not code or status, and not kept
    out of the promoted tier by storage native. *)
Definition promised_unique (f : EntityField) : bool :=
  boolVal (f_Unique f) && negb (is_mirrored (f_Name f))
  && (FieldHasRealColumn f || match ResolveFieldStorageTier f with TierGeneratedColumn => true | TierJsonb => false end).

Definition unique_name (entity : EntityDefinition) (f : EntityField) : string := indexName (e_Name entity) (f_Name f) "uniq".

(** The names of the indexes an entity's promises of uniqueness need. *)
Definition promise_names (entity : EntityDefinition) : list string :=
  map (unique_name entity) (List.filter promised_unique (e_Fields entity))
  ++ map (composite_name entity) (e_UniqueConstraints entity).

Lemma append_inj_l a b c : a +:+ b = a +:+ c -> b = c.
Proof. induction a as [|x a IH]; [done|]. rewrite !append_cons. intros [=]. by apply IH. Qed.

Lemma indexName_inj e a b k k' :
  k ∈ ["gin"; "trgm"; "idx"; "uniq"] -> k' ∈ ["gin"; "trgm"; "idx"; "uniq"] ->
  indexName e a k = indexName e b k' -> k = k' /\ a = b.
Proof.
  intros Hk Hk' H. assert (k = k') as <-.
  { unfold indexName in H. rewrite !elem_of_cons, elem_of_nil in Hk, Hk'.
    destruct Hk as [->|[->|[->|[->|[]]]]], Hk' as [->|[->|[->|[->|[]]]]]; try done;
      rewrite !append_cons in H; discriminate H. }
  split; [done|]. unfold indexName in H. repeat apply append_inj_l in H. done.
Qed.

Lemma field_storage_index_other entity sch f g s :
  f_Name g <> f_Name f ->
  ps_Indexes (field_storage entity sch g s) !! unique_name entity f = ps_Indexes s !! unique_name entity f.
Proof.
  intros Hne. assert (forall u i m, <[indexName (e_Name entity) (f_Name g) (index_kind u) := i]> m !! unique_name entity f
    = (m : gmap string IndexSpec) !! unique_name entity f) as Hother.
  { intros u i m. apply lookup_insert_ne. intros H. apply indexName_inj in H as [_ H]; [done| |set_solver].
    destruct u; set_solver. }
  unfold field_storage. destruct (FieldHasRealColumn g).
  - unfold real_column. destruct (is_fk_reference g), (_ || _)%bool; cbn [ps_Indexes with_fk with_index with_column];
      rewrite ?Hother; done.
  - destruct (ResolveFieldStorageTier g); [done|]. apply Hother.
Qed.

Lemma search_index_other entity f g s :
  ps_Indexes (search_index entity g s) !! unique_name entity f = ps_Indexes s !! unique_name entity f.
Proof.
  unfold search_index. cbn [ps_Indexes with_index]. apply lookup_insert_ne. intros H.
  apply indexName_inj in H as [H _]; [by destruct (match f_SearchMode g with Some _ => _ | None => _ end)| |set_solver].
  destruct (match f_SearchMode g with Some _ => _ | None => _ end); set_solver.
Qed.

Lemma compile_field_index_other entity sch s g s' f :
  f_Name g <> f_Name f -> compile_field entity sch s g = Ok s' ->
  ps_Indexes s' !! unique_name entity f = ps_Indexes s !! unique_name entity f.
Proof.
  intros Hne. unfold compile_field.
  destruct (negb (is_mirrored (f_Name g)) && is_framework (f_Name g)); [done|].
  destruct (is_mirrored (f_Name g)); [by intros [= <-]|].
  destruct (boolVal (f_Searchable g)), (boolVal (f_Unique g)); intros [= <-];
    rewrite ?(field_storage_index_other entity sch f g), ?search_index_other by done; done.
Qed.

Lemma field_storage_index entity sch f s :
  boolVal (f_Unique f) = true -> promised_unique f = true ->
  ps_Indexes (field_storage entity sch f s) !! unique_name entity f = Some (unique_field_index f).
Proof.
  unfold promised_unique, field_storage, unique_field_index, fieldIndexExpression, tenant_scoped.
  intros Hu. rewrite Hu. intros [_ H]%andb_prop.
  destruct (FieldHasRealColumn f) eqn:Er.
  - unfold real_column. rewrite Hu. cbn [orb andb negb]. rewrite orb_false_r.
    destruct (is_fk_reference f); cbn [ps_Indexes with_fk with_index with_column]; apply lookup_insert_eq.
  - destruct (ResolveFieldStorageTier f); [done|]. unfold expression_index. rewrite Hu. cbn [negb andb].
    rewrite orb_false_r. cbn [ps_Indexes with_index]. apply lookup_insert_eq.
Qed.

Lemma compile_field_index entity sch s f s' :
  promised_unique f = true -> compile_field entity sch s f = Ok s' ->
  ps_Indexes s' !! unique_name entity f = Some (unique_field_index f).
Proof.
  intros Hp. pose proof Hp as [[Hu Hm%negb_true_iff]%andb_prop _]%andb_prop. unfold compile_field. rewrite Hm, Hu.
  cbn [negb andb]. destruct (is_framework (f_Name f)); [done|].
  destruct (boolVal (f_Searchable f)); intros [= <-]; by apply field_storage_index.
Qed.

Lemma compile_fields_index entity sch fields s s' f :
  NoDup (map f_Name fields) -> compile_fields entity sch s fields = Ok s' ->
  (f ∈ fields -> promised_unique f = true -> ps_Indexes s' !! unique_name entity f = Some (unique_field_index f)) /\
  (f_Name f ∉ map f_Name fields -> ps_Indexes s' !! unique_name entity f = ps_Indexes s !! unique_name entity f).
Proof.
  revert s. induction fields as [|g fields IH]; intros s Hnd; cbn [compile_fields map] in *.
  - intros [= <-]. split; [|done]. by intros ?%elem_of_nil.
  - apply NoDup_cons in Hnd as [Hni Hnd]. intros (s1 & H1 & H2)%rbind_ok.
    destruct (IH s1 Hnd H2) as [IH1 IH2]. split.
    + intros [->|Hin]%elem_of_cons Hp; [|auto]. rewrite (IH2 Hni). by eapply compile_field_index.
    + intros [Hne Hn]%not_elem_of_cons. rewrite (IH2 Hn). by eapply compile_field_index_other.
Qed.

Lemma composite_fold_other entity cs s k :
  k ∉ map (composite_name entity) cs -> ps_Indexes (fold_left (composite_index entity) cs s) !! k = ps_Indexes s !! k.
Proof.
  revert s. induction cs as [|c cs IH]; intros s; [done|]. cbn [map fold_left].
  intros [Hne Hn]%not_elem_of_cons. rewrite (IH _ Hn). by apply lookup_insert_ne.
Qed.

Lemma composite_fold_in entity cs s c :
  NoDup (map (composite_name entity) cs) -> c ∈ cs ->
  ps_Indexes (fold_left (composite_index entity) cs s) !! composite_name entity c = Some (composite_index_spec entity c).
Proof.
  revert s. induction cs as [|d cs IH]; intros s; cbn [map fold_left]; [by intros _ ?%elem_of_nil|].
  intros [Hni Hnd]%NoDup_cons [->|Hin]%elem_of_cons; [|by apply IH].
  rewrite (composite_fold_other _ _ _ _ Hni). apply lookup_insert_eq.
Qed.

(** When the indexes an entity's promises of uniqueness need have
    different names, the compiled table has, for every promoted unique field and
    for every composite constraint, a unique index over exactly its expressions,
    led by the tenant when the promise is per tenant, and covering only live rows. *)
Lemma uniqueness_enforced entity s :
  Compile entity = Ok s -> NoDup (map f_Name (e_Fields entity)) -> NoDup (promise_names entity) ->
  (forall f, f ∈ e_Fields entity -> promised_unique f = true ->
     ps_Indexes s !! unique_name entity f = Some (unique_field_index f)) /\
  (forall c, c ∈ e_UniqueConstraints entity ->
     ps_Indexes s !! composite_name entity c = Some (composite_index_spec entity c)).
Proof.
  intros (? & _ & (sch & _ & (s1 & H1 & [= <-])%rbind_ok)%rbind_ok)%rbind_ok Hnd (_ & Hdis & Hnc)%NoDup_app.
  split.
  - intros f Hf Hp. rewrite composite_fold_other.
    + by apply (compile_fields_index _ _ _ _ _ f Hnd H1).
    + apply Hdis, list_elem_of_fmap. exists f. split; [done|].
      apply list_elem_of_In, filter_In. by rewrite <- list_elem_of_In.
  - intros c Hc. by apply composite_fold_in.
Qed.

Definition str_field (name : string) : EntityField := field_of_kind name KindString.
Definition unique_field (name : string) : EntityField :=
  mkField name "" KindString None None (Some true) None None None None None None None None None None None None None None.
Definition test_entity (fields : list EntityField) (constraints : list EntityUniqueConstraint) : EntityDefinition :=
  mkEntity "hr.people" "People" "entities.hr_people" fields [] None constraints None.

Definition people : EntityDefinition :=
  test_entity [unique_field "email"; str_field "a"; str_field "b"] [mkUnique ["a"; "b"] None].

Lemma uniqueness_enforced_witness :
  exists s, Compile people = Ok s /\
    ps_Indexes s !! unique_name people (unique_field "email") = Some (unique_field_index (unique_field "email")).
Proof.
  destruct (Compile people) as [s| |] eqn:E; [|vm_compute in E; discriminate E..].
  exists s. split; [reflexivity|].
  refine (proj1 (uniqueness_enforced people s E _ _) (unique_field "email") _ _).
  - apply (bool_decide_unpack _). vm_compute. exact I.
  - apply (bool_decide_unpack _). vm_compute. exact I.
  - apply list_elem_of_In. left. reflexivity.
  - reflexivity.
Defined.

(** The names of two promises can be the same: a unique field a_b and a
    composite constraint over a and b. The compiler accepts such an entity, which
    the validator accepts too, and the composite index replaces the field's: two
    live rows of a tenant with the same a_b violate no index of the table. *)
Lemma unique_promises_collide :
  let entity := test_entity [unique_field "a_b"; str_field "a"; str_field "b"] [mkUnique ["a"; "b"] None] in
  Validate entity = None /\
  exists s, Compile entity = Ok s /\
    forall name i, ps_Indexes s !! name = Some i -> ix_Unique i = true -> i = composite_index_spec entity (mkUnique ["a"; "b"] None).
Proof.
  cbv zeta. split; [vm_compute; reflexivity|].
  eexists. split; [vm_compute; reflexivity|]. intros name i H%elem_of_map_to_list. revert H.
  match goal with |- _ ∈ map_to_list ?m -> _ => let l := eval vm_compute in (map_to_list m) in
    change (map_to_list m) with l end.
  rewrite !elem_of_cons, elem_of_nil. intros [[= -> ->]|[[= -> ->]|[]]]; intros Hu; solve [discriminate Hu | vm_compute; reflexivity].
Qed.

(** *** Names *)

Lemma rune_boundary_le s e : (rune_boundary_at_or_before s e <= e)%nat.
Proof. induction e as [|e IH]; cbn [rune_boundary_at_or_before]; [lia|]. destruct (utf8RuneBoundary s (S e)); lia. Qed.

Lemma rune_boundary_ok s e : utf8RuneBoundary s (rune_boundary_at_or_before s e) = true.
Proof.
  induction e as [|e IH]; cbn [rune_boundary_at_or_before]; [done|].
  by destruct (utf8RuneBoundary s (S e)) eqn:E.
Qed.

Lemma fnv1a_from_bound h data : (h < 2 ^ 32)%N -> (fnv1a_from h data < 2 ^ 32)%N.
Proof.
  revert h. induction data as [|b data IH]; intros h Hh; cbn [fnv1a_from]; [done|].
  apply IH, N.mod_lt. lia.
Qed.

(** The name of a composite unique index never exceeds the 63 bytes Postgres
    keeps, whatever the entity and its fields; a name that fits is kept whole,
    and a longer one is cut between two runes and ends in the eight digits of
    its 32-bit hash. *)
Lemma compositeUniqueIndexName_bound entityName fields :
  let full := "uniq_" +:+ TableNameFor entityName +:+ "_" +:+ Join fields "_" in
  let name := compositeUniqueIndexName entityName fields in
  (String.length name <= identifier_limit)%nat /\
  ((String.length full <= identifier_limit)%nat -> name = full) /\
  ((identifier_limit < String.length full)%nat ->
   exists cut, (cut <= 54)%nat /\ utf8RuneBoundary full cut = true /\ (fnv1a full < 2 ^ 32)%N /\
     name = str_take cut full +:+ "_" +:+ hex_digits 8 (fnv1a full)).
Proof.
  cbv zeta. unfold compositeUniqueIndexName. set (full := "uniq_" +:+ _).
  destruct (Nat.leb_spec (String.length full) identifier_limit) as [Hle|Hgt].
  - split; [done|]. split; [done|]. lia.
  - assert (String.length ("_" +:+ hex_digits 8 (fnv1a full)) = 9%nat) as Hsuf.
    { rewrite length_app_str, hex_digits_length. done. }
    rewrite Hsuf. replace (identifier_limit - 9)%nat with 54%nat by done.
    set (cut := rune_boundary_at_or_before full _).
    assert (cut <= 54)%nat as Hcut.
    { unfold cut. etransitivity; [apply rune_boundary_le|]. apply Nat.le_min_l. }
    split; [|split; [lia|]].
    + rewrite length_app_str, Hsuf. pose proof (str_take_length cut full). unfold identifier_limit. lia.
    + intros _. exists cut. repeat split; [done|apply rune_boundary_ok| ].
      by apply fnv1a_from_bound.
Qed.

(** Tables of different entities can have the same name: only the dots are mangled. *)
Lemma TableNameFor_collides :
  "crm.lead_notes" <> "crm_lead.notes" /\ TableNameFor "crm.lead_notes" = TableNameFor "crm_lead.notes" /\
  safe_dotted_name "crm.lead_notes" = true /\ safe_dotted_name "crm_lead.notes" = true.
Proof. split_and!; [discriminate|reflexivity..]. Qed.

(** *** What the compiler guarantees of every index *)

Definition compiled_index (i : IndexSpec) : Prop :=
  ix_Valid i = true /\ (ix_Unique i = true -> ix_WhereClause i = not_deleted) /\ ix_Using i ∈ [""; "gin"].

(** A compiled column is a framework column or is filled from the field it is named after. *)
Definition compiled_column (name : string) (c : ColumnSpec) : Prop :=
  (is_framework name = true /\ o_Kind (col_Origin c) = OriginFramework) \/ col_Origin c = mkOrigin OriginGenerated name true.

Definition compiled_ok (s : PhysicalSchema) : Prop :=
  map_Forall (fun _ i => compiled_index i) (ps_Indexes s) /\
  map_Forall (fun _ f => fk_Validated f = true) (ps_ForeignKeys s) /\ ps_Uniques s = ∅ /\
  map_Forall compiled_column (ps_Columns s).

Lemma with_index_ok s n i : compiled_ok s -> compiled_index i -> compiled_ok (with_index s n i).
Proof. intros (H1 & H2 & H3) Hi. split; [|done]. by apply map_Forall_insert_2. Qed.

Lemma with_column_ok s n c : compiled_ok s -> compiled_column n c -> compiled_ok (with_column s n c).
Proof. intros (H1 & H2 & H3 & H4) Hc. split_and!; try done. by apply map_Forall_insert_2. Qed.

Lemma generated_column_ok n ty nullable : compiled_column n (mkColumn ty nullable (mkOrigin OriginGenerated n true)).
Proof. by right. Qed.

Lemma with_fk_ok s n f : compiled_ok s -> fk_Validated f = true -> compiled_ok (with_fk s n f).
Proof. intros (H1 & H2 & H3 & H4) Hf. split_and!; try done. by apply map_Forall_insert_2. Qed.

Lemma index_over_ok e u : compiled_index (index_over e u).
Proof. split; [done|]. split; [by destruct u|left]. Qed.

Lemma gin_index_ok e : compiled_index (mkIndex e false "gin" true "").
Proof. split; [done|]. split; [done|right; left]. Qed.

Create HintDb schema.
#[export] Hint Resolve with_index_ok with_column_ok with_fk_ok index_over_ok generated_column_ok : schema.

Lemma field_storage_ok entity sch f s : compiled_ok s -> compiled_ok (field_storage entity sch f s).
Proof.
  intros H. unfold field_storage, real_column, expression_index.
  repeat case_match; eauto with schema.
Qed.

Lemma compile_fields_compiled entity sch fields s s' :
  compiled_ok s -> compile_fields entity sch s fields = Ok s' -> compiled_ok s'.
Proof.
  revert s. induction fields as [|f fields IH]; intros s H; cbn [compile_fields].
  - by intros [= <-].
  - intros (s1 & H1 & H2)%rbind_ok. refine (IH s1 _ H2). revert H1. unfold compile_field.
    assert (compiled_ok (search_index entity f s)) as Hs by (apply with_index_ok; [done|apply gin_index_ok]).
    repeat case_match; intros [= <-]; auto using field_storage_ok.
Qed.

Lemma Compile_ok entity s : Compile entity = Ok s -> compiled_ok s.
Proof.
  intros (? & _ & (sch & _ & (s1 & H1 & [= <-])%rbind_ok)%rbind_ok)%rbind_ok.
  apply compile_fields_compiled in H1.
  - revert s1 H1. induction (e_UniqueConstraints entity) as [|c cs IH]; intros s1 H1; [done|].
    apply IH. apply with_index_ok; eauto with schema.
  - apply with_index_ok; [|split; [done|split; [done|left]]]. cbn [fold_left frameworkColumns].
    repeat (apply with_column_ok; [|by left; split]). split_and!; try apply map_Forall_empty. done.
Qed.

Lemma Compile_table entity s : Compile entity = Ok s -> ps_Table s = e_TableName entity.
Proof.
  intros (? & _ & (sch & _ & (s1 & H1 & [= <-])%rbind_ok)%rbind_ok)%rbind_ok.
  destruct (composite_fold_parts entity (e_UniqueConstraints entity) s1) as (-> & _).
  assert (forall fields s, compile_fields entity sch s fields = Ok s1 -> ps_Table s1 = ps_Table s) as Hf.
  { induction fields as [|f fields IH]; intros s; cbn [compile_fields]; [by intros [= <-]|].
    intros (s2 & H2 & ->%IH)%rbind_ok. revert H2. unfold compile_field, field_storage, real_column.
    repeat case_match; intros [= <-]; done. }
  by rewrite (Hf _ _ H1).
Qed.
