(* ===== verification/Router.v ===== *)
(** Tenants and routing (src/go/control/tenant.go, router.go): the status of a
    tenant, the strategy its data is reached by, and opening a transaction.
    The registry cache answers with a tenant's routing; the connection pools,
    which this code only calls, answer whether a transaction could begin. *)
From S2P Require Import Prelude GoStrings Json Condition Context Uuid Evaluate Snapshot PermissionService Metadata.

Open Scope string_scope.
Open Scope list_scope.

Inductive TenantStatus : Type :=
| StatusProvisioning | StatusActive | StatusMigrating | StatusSuspended | StatusExpired | StatusDeleted.

Definition TenantStatus_String (s : TenantStatus) : string :=
  match s with
  | StatusProvisioning => "provisioning"
  | StatusActive => "active"
  | StatusMigrating => "migrating"
  | StatusSuspended => "suspended"
  | StatusExpired => "expired"
  | StatusDeleted => "deleted"
  end.

Definition ParseTenantStatus (s : string) : result error TenantStatus :=
  if String.eqb s "provisioning" then Ok StatusProvisioning
  else if String.eqb s "active" then Ok StatusActive
  else if String.eqb s "migrating" then Ok StatusMigrating
  else if String.eqb s "suspended" then Ok StatusSuspended
  else if String.eqb s "expired" then Ok StatusExpired
  else if String.eqb s "deleted" then Ok StatusDeleted
  else Err ("unknown control.tenants.status value: " +:+ s).

Inductive TenantStrategy : Type :=
| SchemaStrategy (schemaName : string)
| DedicatedDbStrategy (dsnSecretRef : string).

Record TenantRouting : Type := mkRouting { tr_Status : TenantStatus; tr_Strategy : TenantStrategy }.

Inductive RouterErrorKind : Type :=
| ErrTenantSuspended | ErrTenantMigrating | ErrTenantProvisioning | ErrTenantExpired | ErrTenantDeleted
| ErrInvalidSchemaName.

(** An error of Begin: a *RouterError, or any other error. *)
Inductive RouterFailure : Type :=
| RouterError (kind : RouterErrorKind) (schemaName : string)
| OtherFailure (e : error).

Definition RouterError_Error (kind : RouterErrorKind) (schemaName : string) : error :=
  match kind with
  | ErrTenantSuspended => "tenant is suspended"
  | ErrTenantMigrating => "tenant is mid-migration, retry shortly"
  | ErrTenantProvisioning => "tenant is still provisioning, retry shortly"
  | ErrTenantExpired => "tenant's trial has expired"
  | ErrTenantDeleted => "tenant has been deleted"
  | ErrInvalidSchemaName => "invalid tenant schema name: " +:+ quote +:+ schemaName +:+ quote
  end.

Definition schema_byte (b : ascii) : bool := isASCIILower b || isASCIIDigit b.

Definition ValidateSchemaName (name : string) : option RouterFailure :=
  if String.eqb name "public" then None
  else match CutPrefix name "t_" with
       | None => Some (RouterError ErrInvalidSchemaName name)
       | Some suffix =>
         if String.eqb suffix "" || negb (all_bytes schema_byte suffix)
         then Some (RouterError ErrInvalidSchemaName name) else None
       end.

Section Router.
Context `{UuidLib}.

(** [ro_begin] is the pool's Begin for the shared pool ([None]) or a dedicated
    one; [Some e] is its error. [ro_exec] is the outcome of one statement. *)
Record Router : Type := mkRouter {
  ro_registry : uuid -> result error (option TenantRouting);
  ro_begin : option string -> option error;
  ro_exec : string -> option error
}.

(** An open transaction: how the tenant is reached and the statement that set
    its search path up. *)
Record Tx : Type := mkTx { tx_strategy : TenantStrategy; tx_setup : option string }.

Definition router_fail {A} (r : result error A) : result RouterFailure A :=
  match r with Ok a => Ok a | Err e => Err (OtherFailure e) | Panic => Panic end.

Definition resolve (r : Router) (tenantID : uuid) : result RouterFailure TenantStrategy :=
  let! found := router_fail (ro_registry r tenantID) in
  let routing := default (mkRouting StatusActive (SchemaStrategy "public")) found in
  match tr_Status routing with
  | StatusActive => Ok (tr_Strategy routing)
  | StatusSuspended => Err (RouterError ErrTenantSuspended "")
  | StatusMigrating => Err (RouterError ErrTenantMigrating "")
  | StatusProvisioning => Err (RouterError ErrTenantProvisioning "")
  | StatusExpired => Err (RouterError ErrTenantExpired "")
  | StatusDeleted => Err (RouterError ErrTenantDeleted "")
  end.

Definition search_path_statement (schemaName : string) : string :=
  "SET LOCAL search_path TO " +:+ schemaName +:+ ", metadata, control".

Definition Begin (r : Router) (tenantID : uuid) : result RouterFailure Tx :=
  let! strategy := resolve r tenantID in
  match strategy with
  | SchemaStrategy schemaName =>
    match ValidateSchemaName schemaName with
    | Some e => Err e
    | None =>
      match ro_begin r None with
      | Some e => Err (OtherFailure e)
      | None =>
        let sql := search_path_statement schemaName in
        match ro_exec r sql with
        | Some e => Err (OtherFailure e)
        | None => Ok (mkTx strategy (Some sql))
        end
      end
    end
  | DedicatedDbStrategy ref =>
    match ro_begin r (Some ref) with
    | Some e => Err (OtherFailure e)
    | None => Ok (mkTx strategy None)
    end
  end.

(** ** Properties *)

Lemma status_roundtrip s : ParseTenantStatus (TenantStatus_String s) = Ok s.
Proof. by destruct s. Qed.

Lemma ValidateSchemaName_spec name :
  ValidateSchemaName name = None <->
  name = "public" \/ exists suffix, name = "t_" +:+ suffix /\ suffix <> "" /\ all_bytes schema_byte suffix = true.
Proof.
  unfold ValidateSchemaName. destruct (String.eqb_spec name "public") as [->|Hne]; [split; [by left | done]|].
  destruct (CutPrefix name "t_") as [suffix|] eqn:E.
  - destruct (String.eqb_spec suffix "") as [->|Hs]; [|destruct (all_bytes schema_byte suffix) eqn:Ea]; simpl.
    + split; [done|]. intros [?|(s & Heq & Hs & _)]; [done|]. apply CutPrefix_Some in Heq. congruence.
    + split; [|done]. intros _. right. exists suffix. by rewrite <- CutPrefix_Some.
    + split; [done|]. intros [?|(s & Heq & _ & Hb)]; [done|]. apply CutPrefix_Some in Heq. congruence.
  - split; [done|]. intros [?|(s & Hs & _)]; [done|]. apply CutPrefix_Some in Hs. congruence.
Qed.

(** What a transaction that could be opened tells of the tenant. *)
Lemma Begin_ok r t tx :
  Begin r t = Ok tx -> resolve r t = Ok (tx_strategy tx) /\
  match tx_strategy tx with
  | SchemaStrategy name => ValidateSchemaName name = None /\ tx_setup tx = Some (search_path_statement name)
  | DedicatedDbStrategy _ => tx_setup tx = None
  end.
Proof.
  unfold Begin. intros (s & Hs & Ht)%rbind_ok. destruct s as [name|ref].
  - destruct (ValidateSchemaName name) eqn:Ev; [done|]. destruct (ro_begin r None); [done|].
    destruct (ro_exec r _); [done|]. by injection Ht as <-.
  - destruct (ro_begin r (Some ref)); [done|]. by injection Ht as <-.
Qed.

(** Only an active tenant, or one the registry does not know, is routed. *)
Lemma resolve_active r t s :
  resolve r t = Ok s <->
  exists found, ro_registry r t = Ok found /\
    (found = Some (mkRouting StatusActive s) \/ (found = None /\ s = SchemaStrategy "public")).
Proof.
  unfold resolve. destruct (ro_registry r t) as [[[[] st]|]| |]; simpl;
    (split; [intros [= <-] || done | intros (found & [= <-] & [[= <-]|[? ->]]) || intros (found & ? & _)]);
    naive_solver.
Qed.

(** A transaction opens only for a tenant that is active, or unknown to
    the registry and then served from the public schema; and the one statement
    whose text is built from stored data names the public schema or a schema
    t_ followed by lower-case letters and digits, so no stored schema name can
    inject SQL. *)
Lemma Begin_only_active_and_safe r t tx :
  Begin r t = Ok tx ->
  (exists found, ro_registry r t = Ok found /\
     (found = Some (mkRouting StatusActive (tx_strategy tx))
      \/ (found = None /\ tx_strategy tx = SchemaStrategy "public"))) /\
  (forall sql, tx_setup tx = Some sql ->
     exists name, sql = "SET LOCAL search_path TO " +:+ name +:+ ", metadata, control" /\
       (name = "public" \/ exists suffix, name = "t_" +:+ suffix /\ suffix <> "" /\ all_bytes schema_byte suffix = true)).
Proof.
  intros [Hr Hs]%Begin_ok. split; [by apply resolve_active|].
  intros sql Hsql. destruct (tx_strategy tx) as [name|ref]; [|congruence].
  destruct Hs as [Hv Hset]. rewrite Hset in Hsql. injection Hsql as <-.
  exists name. split; [done|]. by apply ValidateSchemaName_spec.
Qed.
End Router.

Definition test_router : @Router TestUuid :=
  @mkRouter TestUuid (fun t => if String.eqb t "t1" then Ok (Some (mkRouting StatusActive (SchemaStrategy "t_a1")))
                     else if String.eqb t "t2" then Ok (Some (mkRouting StatusSuspended (SchemaStrategy "t_b2"))) else Ok None)
    (fun _ => None) (fun _ => None).

Lemma Begin_only_active_and_safe_witness :
  exists found, ro_registry test_router "t1" = Ok found /\
     (found = Some (mkRouting StatusActive (SchemaStrategy "t_a1")) \/ (found = None /\ SchemaStrategy "t_a1" = SchemaStrategy "public")).
Proof.
  exact (proj1 (@Begin_only_active_and_safe TestUuid test_router "t1" (mkTx (SchemaStrategy "t_a1") (Some (search_path_statement "t_a1"))) eq_refl)).
Defined.
