(* ===== verification/Payload.v ===== *)
(** Payloads of record writes (src/go/crud/validation.go, the pure parts of
    helpers.go and system_fields.go): the field-metadata-driven validator,
    computed fields, and the refusal of system fields. A map of field errors
    is [None] for nil. *)
From S2P Require Import Prelude GoStrings Json Floats Condition Context Uuid Evaluate Snapshot PermissionService Metadata.

Open Scope string_scope.
Open Scope list_scope.

Notation FieldErrors := (gmap string (list string)).

Definition isJSONNull (raw : json) : bool := bool_decide (raw = JNull).

Section Payload.
Context `{UuidLib}.

Definition kindMatches (kind : FieldKind) (raw : json) : bool :=
  if String.eqb kind KindID || String.eqb kind KindString then is_some (unmarshal_string raw)
  else if String.eqb kind KindReference then is_some (unmarshal_string raw ≫= uuid_Parse)
  else if String.eqb kind KindNumber || String.eqb kind KindMoney then is_some (unmarshal_float64 raw)
  else if String.eqb kind KindBoolean then is_some (unmarshal_bool raw)
  else if String.eqb kind KindDate || String.eqb kind KindDatetime then is_some (unmarshal_string raw)
  else String.eqb kind KindJSON.

Definition boolValField (p : option bool) : bool := match p with Some b => b | None => false end.

Definition add_error (errs : FieldErrors) (name message : string) : FieldErrors :=
  <[name := default [] (errs !! name) ++ [message]]> errs.

(** The validity test of a value that is present. *)
Definition value_valid (field : EntityField) (raw : json) : bool :=
  if String.eqb (f_Kind field) KindEnum then
    match unmarshal_string raw with
    | Some s => existsb (fun v => String.eqb v s) (default [] (f_EnumValues field))
    | None => false
    end
  else kindMatches (f_Kind field) raw.

Definition canonical_reference (raw : json) : json :=
  match unmarshal_string raw ≫= uuid_Parse with Some u => JStr (uuid_String u) | None => raw end.

(** uint32(utf8.RuneCountInString(s)). *)
Definition rune_length (s : string) : N := (N.of_nat (RuneCountInString s) mod 2 ^ 32)%N.

Definition opt_test {A} (test : A -> bool) (bound : option A) : bool :=
  match bound with Some m => test m | None => false end.

(** The messages of the range and length checks. *)
Definition bound_errors (field : EntityField) (raw : json) : list string :=
  (if String.eqb (f_Kind field) KindNumber || String.eqb (f_Kind field) KindMoney then
     match unmarshal_float64 raw with
     | Some n => (if opt_test (fun m => f64_ltb n m) (f_Min field) then ["min"] else [])
                 ++ (if opt_test (fun m => f64_gtb n m) (f_Max field) then ["max"] else [])
     | None => []
     end
   else [])
  ++ (if String.eqb (f_Kind field) KindString then
        match unmarshal_string raw with
        | Some s => (if opt_test (fun m => rune_length s <? m)%N (f_MinLength field) then ["min_length"] else [])
                    ++ (if opt_test (fun m => m <? rune_length s)%N (f_MaxLength field) then ["max_length"] else [])
        | None => []
        end
      else []).

(** One iteration of the loop over the entity's fields. *)
Definition validate_step (data : JsonObject) (st : FieldErrors * JsonObject) (field : EntityField) : FieldErrors * JsonObject :=
  let '(errs, result) := st in
  let raw := data !! f_Name field in
  let present := match raw with Some r => if isJSONNull r then None else Some r | None => None end in
  match present with
  | None => if boolValField (f_Required field) then (add_error errs (f_Name field) "required", result) else (errs, result)
  | Some r =>
    if negb (value_valid field r) then (add_error errs (f_Name field) "invalid_type", result)
    else
      let result := if String.eqb (f_Kind field) KindReference then <[f_Name field := canonical_reference r]> result else result in
      (fold_left (fun errs message => add_error errs (f_Name field) message) (bound_errors field r) errs, result)
  end.

(** The validated payload, or the errors. *)
Definition ValidatePayload (entity : EntityDefinition) (data : JsonObject) : JsonObject + FieldErrors :=
  let '(errs, result) := fold_left (validate_step data) (e_Fields entity) (∅, data) in
  if bool_decide (errs = ∅) then inl result else inr errs.

(** ** Computed fields (helpers.go) *)

Definition computedTokenToString (raw : json) : string :=
  if isJSONNull raw then ""
  else match unmarshal_string raw with
       | Some s => s
       | None => match unmarshal_any raw with
                 | Some (ANum f) => formatFloat f
                 | Some (ABool b) => FormatBool b
                 | Some v => json_text (any_json v)
                 | None => json_text raw
                 end
       end.

Definition recompute_step (data : JsonObject) (field : EntityField) : JsonObject :=
  match f_Computed field with
  | None => data
  | Some spec => <[f_Name field := JStr (RenderExpression (cs_Expression spec)
                     (fun name => computedTokenToString <$> data !! name))]> data
  end.

Definition recomputeFields (entity : EntityDefinition) (data : JsonObject) : JsonObject :=
  fold_left recompute_step (e_Fields entity) data.

(** ** System fields (system_fields.go) *)

Definition rejectSystemFields (entity : EntityDefinition) (data : JsonObject) : option FieldErrors :=
  let errs := fold_left (fun errs name => match data !! name with
                                          | Some _ => add_error errs name "system_field"
                                          | None => errs
                                          end) (SystemFieldNames entity) ∅ in
  if bool_decide (errs = ∅) then None else Some errs.

(** ** Properties *)

(** What a value of a field may be, in the words of the metadata. *)
Inductive value_of_kind (f : EntityField) : json -> Prop :=
| VkId s : f_Kind f = KindID -> value_of_kind f (JStr s)
| VkString s : f_Kind f = KindString ->
    (forall m, f_MinLength f = Some m -> (m <= rune_length s)%N) ->
    (forall m, f_MaxLength f = Some m -> (rune_length s <= m)%N) -> value_of_kind f (JStr s)
| VkReference s u : f_Kind f = KindReference -> uuid_Parse s = Some u -> value_of_kind f (JStr s)
| VkNumber lit x : f_Kind f = KindNumber \/ f_Kind f = KindMoney -> f64_of_literal lit = Some x ->
    (forall m, f_Min f = Some m -> f64_ltb x m = false) ->
    (forall m, f_Max f = Some m -> f64_gtb x m = false) -> value_of_kind f (JNum lit)
| VkBoolean b : f_Kind f = KindBoolean -> value_of_kind f (JBool b)
| VkDate s : f_Kind f = KindDate \/ f_Kind f = KindDatetime -> value_of_kind f (JStr s)
| VkEnum s : f_Kind f = KindEnum -> s ∈ default [] (f_EnumValues f) -> value_of_kind f (JStr s)
| VkJson j : f_Kind f = KindJSON -> j <> JNull -> value_of_kind f j.

Definition field_accepts (f : EntityField) (v : option json) : Prop :=
  match v with
  | None | Some JNull => f_Required f <> Some true
  | Some j => value_of_kind f j
  end.

(** The errors one field contributes. *)
Definition field_messages (data : JsonObject) (f : EntityField) : list string :=
  match data !! f_Name f with
  | None | Some JNull => if boolValField (f_Required f) then ["required"] else []
  | Some r => if value_valid f r then bound_errors f r else ["invalid_type"]
  end.

Definition canonical_at (data : JsonObject) (f : EntityField) : bool :=
  match data !! f_Name f with
  | None | Some JNull => false
  | Some r => value_valid f r && String.eqb (f_Kind f) KindReference
  end.

Lemma validate_step_eq data errs result f :
  validate_step data (errs, result) f =
  (fold_left (fun errs m => add_error errs (f_Name f) m) (field_messages data f) errs,
   if canonical_at data f then <[f_Name f := canonical_reference (default JNull (data !! f_Name f))]> result else result).
Proof.
  unfold validate_step, field_messages, canonical_at. destruct (data !! f_Name f) as [[| | | | |]|] eqn:E; simpl;
    try (destruct (boolValField (f_Required f)); done);
    (destruct (value_valid f _); simpl; [|done]); by destruct (String.eqb (f_Kind f) KindReference).
Qed.

Lemma add_error_ne errs name m : add_error errs name m <> ∅.
Proof. unfold add_error. apply insert_non_empty. Qed.

Lemma add_errors_ne errs name ms :
  errs <> ∅ \/ ms <> [] -> fold_left (fun errs m => add_error errs name m) ms errs <> ∅.
Proof.
  revert errs. induction ms as [|m ms IH]; intros errs; simpl; [naive_solver|].
  intros _. apply IH. left. apply add_error_ne.
Qed.

Lemma validate_fold_errors data fields errs result :
  fst (fold_left (validate_step data) fields (errs, result)) = ∅ <->
  errs = ∅ /\ Forall (fun f => field_messages data f = []) fields.
Proof.
  revert errs result. induction fields as [|f fields IH]; intros errs result; cbn [fold_left fst].
  - naive_solver.
  - rewrite validate_step_eq, IH, Forall_cons. split.
    + intros [He Hf]. destruct (field_messages data f) as [|m ms] eqn:Em; [done|].
      exfalso. revert He. apply add_errors_ne. by right.
    + intros (-> & -> & Hf). done.
Qed.

Lemma validate_fold_result data fields errs result k :
  snd (fold_left (validate_step data) fields (errs, result)) !! k =
  if existsb (fun f => String.eqb (f_Name f) k && canonical_at data f) fields
  then Some (canonical_reference (default JNull (data !! k))) else result !! k.
Proof.
  revert errs result. induction fields as [|f fields IH]; intros errs result; cbn [fold_left snd existsb]; [done|].
  rewrite validate_step_eq, IH. destruct (existsb _ fields) eqn:Ex; [by rewrite orb_true_r|]. rewrite orb_false_r.
  destruct (String.eqb_spec (f_Name f) k) as [->|Hne]; destruct (canonical_at data f); simpl; try done.
  - by rewrite lookup_insert_eq.
  - by rewrite lookup_insert_ne.
Qed.

Lemma opt_test_false {A} (test : A -> bool) o : opt_test test o = false <-> forall m, o = Some m -> test m = false.
Proof. destruct o; simpl; naive_solver. Qed.

Lemma if_single_nil {A} (b : bool) (x : A) : (if b then [x] else []) = [] <-> b = false.
Proof. by destruct b. Qed.

(** Case analysis on the kind of a field: the ten kinds, then any other text. *)
Ltac case_kind f :=
  let step K := destruct (String.eqb_spec (f_Kind f) K) as [Hkind|?]; [rewrite ?Hkind; cbn | try tauto] in
  step KindEnum; [|step KindID; [|step KindString; [|step KindReference; [|step KindNumber; [|step KindMoney;
    [|step KindBoolean; [|step KindDate; [|step KindDatetime; [|step KindJSON]]]]]]]]].

Lemma rune_bounds s f :
  (if opt_test (fun m => rune_length s <? m)%N (f_MinLength f) then ["min_length"] else [])
  ++ (if opt_test (fun m => m <? rune_length s)%N (f_MaxLength f) then ["max_length"] else []) = [] <->
  (forall m, f_MinLength f = Some m -> (m <= rune_length s)%N) /\
  (forall m, f_MaxLength f = Some m -> (rune_length s <= m)%N).
Proof.
  rewrite app_nil, !if_single_nil, !opt_test_false. split; intros [H1 H2]; split; intros m Hm;
    [specialize (H1 m Hm) | specialize (H2 m Hm) | specialize (H1 m Hm) | specialize (H2 m Hm)];
    rewrite N.ltb_ge in *; done.
Qed.

Lemma number_bounds x f :
  (if opt_test (fun m => f64_ltb x m) (f_Min f) then ["min"] else [])
  ++ (if opt_test (fun m => f64_gtb x m) (f_Max f) then ["max"] else []) = [] <->
  (forall m, f_Min f = Some m -> f64_ltb x m = false) /\ (forall m, f_Max f = Some m -> f64_gtb x m = false).
Proof. by rewrite app_nil, !if_single_nil, !opt_test_false. Qed.

Lemma enum_member s l : existsb (fun v => String.eqb v s) l = true <-> s ∈ l.
Proof.
  rewrite existsb_exists. setoid_rewrite String.eqb_eq. rewrite list_elem_of_In. naive_solver.
Qed.

Lemma present_messages_sound f r :
  r <> JNull -> (if value_valid f r then bound_errors f r else ["invalid_type"]) = [] -> value_of_kind f r.
Proof.
  intros Hnn. unfold value_valid, bound_errors, kindMatches. case_kind f.
  - destruct r; cbn; try done. destruct (existsb _ _) eqn:E; [|done]. intros _. apply VkEnum; [done|]. by apply enum_member.
  - destruct r; cbn; try done. intros _. by apply VkId.
  - destruct r as [| | |s| |]; cbn; try done. rewrite rune_bounds. intros []. by apply VkString.
  - destruct r as [| | |s| |]; cbn; try done. destruct (uuid_Parse s) eqn:E; [|done]. intros _. by eapply VkReference.
  - destruct r as [| |lit| | |]; cbn; try done. destruct (f64_of_literal lit) eqn:E; cbn; [|done].
    rewrite app_nil_r, number_bounds. intros []. eapply VkNumber; eauto.
  - destruct r as [| |lit| | |]; cbn; try done. destruct (f64_of_literal lit) eqn:E; cbn; [|done].
    rewrite app_nil_r, number_bounds. intros []. eapply VkNumber; eauto.
  - destruct r; cbn; try done. intros _. by apply VkBoolean.
  - destruct r; cbn; try done. intros _. apply VkDate. by left.
  - destruct r; cbn; try done. intros _. apply VkDate. by right.
  - intros _. by apply VkJson.
  - done.
Qed.

Lemma present_messages_complete f r :
  value_of_kind f r -> value_valid f r = true /\ bound_errors f r = [].
Proof.
  unfold value_valid, bound_errors, kindMatches.
  destruct 1 as [s Hk|s Hk Hmin Hmax|s u Hk Hu|lit x Hk Hx Hmin Hmax|b Hk|s Hk|s Hk Hin|j Hk Hj];
    try (destruct Hk as [Hk|Hk]); rewrite Hk; cbn; try done.
  - split; [done|]. by apply rune_bounds.
  - by rewrite Hu.
  - rewrite Hx. cbn. split; [done|]. rewrite app_nil_r. by apply number_bounds.
  - rewrite Hx. cbn. split; [done|]. rewrite app_nil_r. by apply number_bounds.
  - split; [|done]. by apply enum_member.
Qed.

Lemma boolValField_true o : boolValField o = true <-> o = Some true.
Proof. destruct o as [[]|]; naive_solver. Qed.

Lemma field_messages_nil data f : field_messages data f = [] <-> field_accepts f (data !! f_Name f).
Proof.
  unfold field_messages, field_accepts.
  assert (Hreq : (if boolValField (f_Required f) then ["required"] else []) = [] <-> f_Required f <> Some true).
  { rewrite if_single_nil, <- boolValField_true. by destruct (boolValField _). }
  destruct (data !! f_Name f) as [r|]; [|done].
  assert (Hr : r <> JNull -> (if value_valid f r then bound_errors f r else ["invalid_type"]) = [] <-> value_of_kind f r).
  { intros Hnn. split; [by apply present_messages_sound|]. by intros [-> ->]%present_messages_complete. }
  destruct r; [done | by apply Hr ..].
Qed.

(** The stored form of a field's value. *)
Definition is_reference_field (entity : EntityDefinition) (k : string) : bool :=
  existsb (fun f => String.eqb (f_Name f) k && String.eqb (f_Kind f) KindReference) (e_Fields entity).

Definition canonical (entity : EntityDefinition) (k : string) (v : json) : json :=
  if is_reference_field entity k && negb (isJSONNull v) then canonical_reference v else v.

Lemma existsb_ext_in {A} (f g : A -> bool) l : (forall a, a ∈ l -> f a = g a) -> existsb f l = existsb g l.
Proof.
  induction l as [|a l IH]; intros Hall; simpl; [done|].
  rewrite (Hall a (list_elem_of_here _ _)), IH; [done|]. intros b Hb. by apply Hall, list_elem_of_further.
Qed.

Lemma ValidatePayload_ok entity data result :
  ValidatePayload entity data = inl result <->
  Forall (fun f => field_accepts f (data !! f_Name f)) (e_Fields entity) /\
  (forall k, result !! k = canonical entity k <$> data !! k).
Proof.
  unfold ValidatePayload. destruct (fold_left _ _ _) as [errs res] eqn:E.
  assert (He : errs = ∅ <-> Forall (fun f => field_accepts f (data !! f_Name f)) (e_Fields entity)).
  { pose proof (validate_fold_errors data (e_Fields entity) ∅ data) as He. rewrite E in He. simpl in He. rewrite He.
    split; [intros [_ Hf] | intros Hf; split; [done|]]; (eapply Forall_impl; [exact Hf|]);
      intros f; apply field_messages_nil. }
  assert (Hres : Forall (fun f => field_accepts f (data !! f_Name f)) (e_Fields entity) ->
                 forall k, res !! k = canonical entity k <$> data !! k).
  { intros Hall k. pose proof (validate_fold_result data (e_Fields entity) ∅ data k) as Hr. rewrite E in Hr. simpl in Hr.
    rewrite Hr. clear Hr. unfold canonical, is_reference_field, isJSONNull.
    rewrite Forall_forall in Hall. destruct (data !! k) as [v|] eqn:Ek; simpl.
    - destruct (decide (v = JNull)) as [->|Hnn].
      + rewrite andb_false_r. replace (existsb _ (e_Fields entity)) with false; [done|]. symmetry.
        apply not_true_is_false. rewrite existsb_exists. intros (f & _ & Hf). apply andb_true_iff in Hf as [Hn Hc].
        apply String.eqb_eq in Hn. unfold canonical_at in Hc. by rewrite Hn, Ek in Hc.
      + rewrite (bool_decide_eq_false_2 _ Hnn), andb_true_r.
        rewrite (existsb_ext_in _ (fun f => String.eqb (f_Name f) k && String.eqb (f_Kind f) KindReference));
          [by destruct (existsb _ _)|]. intros f Hf. simpl.
        destruct (String.eqb_spec (f_Name f) k) as [Hn|]; [|done]. simpl. specialize (Hall f Hf).
        unfold canonical_at. rewrite Hn, Ek in *. unfold field_accepts in Hall.
        destruct v; [done | by destruct (present_messages_complete _ _ Hall) as [-> _] ..].
    - replace (existsb _ (e_Fields entity)) with false; [done|]. symmetry.
      apply not_true_is_false. rewrite existsb_exists. intros (f & _ & Hf). apply andb_true_iff in Hf as [Hn Hc].
      apply String.eqb_eq in Hn. unfold canonical_at in Hc. by rewrite Hn, Ek in Hc. }
  case_bool_decide as Hd.
  - apply He in Hd. split; [intros [= <-]; by auto|]. intros [_ Hk]. f_equal. apply map_eq. intros k.
    by rewrite Hk, (Hres Hd).
  - split; [done|]. intros [Ha _]. by apply He in Ha.
Qed.

(** A payload is refused exactly when some field does not accept its value. *)
Lemma ValidatePayload_refused entity data :
  (exists errs, ValidatePayload entity data = inr errs) <->
  ~ Forall (fun f => field_accepts f (data !! f_Name f)) (e_Fields entity).
Proof.
  split.
  - intros [errs He] Hall. set (r := map_imap (fun k v => Some (canonical entity k v)) data).
    assert (ValidatePayload entity data = inl r); [|congruence].
    apply ValidatePayload_ok. split; [done|]. intros k. unfold r. rewrite map_lookup_imap. by destruct (data !! k).
  - intros Hn. destruct (ValidatePayload entity data) as [r|errs] eqn:E; [|by exists errs].
    apply ValidatePayload_ok in E as [Ha _]. done.
Qed.

Section Canonical.
Context `{!UuidLaws _}.

Lemma canonical_reference_idem v : canonical_reference (canonical_reference v) = canonical_reference v.
Proof.
  unfold canonical_reference at 2 3. destruct (unmarshal_string v ≫= uuid_Parse) as [u|] eqn:E.
  - unfold canonical_reference. cbn. by rewrite uuid_parse_string.
  - unfold canonical_reference. by rewrite E.
Qed.

Lemma canonical_reference_null v : v <> JNull -> canonical_reference v <> JNull.
Proof. unfold canonical_reference. destruct (unmarshal_string v ≫= uuid_Parse); [done|]. done. Qed.

Lemma canonical_idem entity k v : canonical entity k (canonical entity k v) = canonical entity k v.
Proof.
  unfold canonical. destruct (is_reference_field entity k); simpl; [|done]. unfold isJSONNull.
  destruct (decide (v = JNull)) as [->|Hnn]; [done|]. rewrite (bool_decide_eq_false_2 _ Hnn). simpl.
  rewrite (bool_decide_eq_false_2 _ (canonical_reference_null _ Hnn)). apply canonical_reference_idem.
Qed.

(** A reference value stays valid when it is made canonical, and a field that
    shares its name with a reference field still accepts it. *)
Lemma accepts_canonical entity f v :
  f ∈ e_Fields entity -> NoDup (map f_Name (e_Fields entity)) ->
  field_accepts f v -> field_accepts f (canonical entity (f_Name f) <$> v).
Proof.
  intros Hf Hnd Ha. destruct v as [v|]; [|done]. cbn. unfold canonical.
  destruct (is_reference_field entity (f_Name f)) eqn:Er; [|done]. unfold isJSONNull.
  destruct (decide (v = JNull)) as [->|Hnn]; [done|]. rewrite (bool_decide_eq_false_2 _ Hnn). cbn.
  apply existsb_exists in Er as (g & Hg & Hgk). apply andb_true_iff in Hgk as [Hn Hk].
  apply String.eqb_eq in Hn, Hk.
  assert (g = f) as ->.
  { apply list_elem_of_In in Hg. apply list_elem_of_lookup in Hf as [i Hi], Hg as [j Hj].
    assert (i = j) as <-; [|congruence]. eapply NoDup_lookup; [exact Hnd | |];
      rewrite list_lookup_fmap; [by rewrite Hi | rewrite Hj; simpl; by rewrite Hn]. }
  assert (Hv : value_of_kind f v) by (destruct v; done).
  rename Hk into Hkind.
  destruct Hv as [s Hk|s Hk Hmin Hmax|s u Hk Hu|lit x Hk Hx Hmin Hmax|b Hk|s Hk|s Hk Hin|j Hk Hj];
    try (destruct Hk as [Hk|Hk]); try (rewrite Hkind in Hk; discriminate Hk).
  unfold canonical_reference. cbn. rewrite Hu. eapply VkReference; [done|]. apply uuid_parse_string.
Qed.

(** C14. The payload validator: it accepts exactly the payloads in which every
    field of the entity accepts its value (required, type of its kind, enum
    membership, range, length), what it returns is the payload with every
    reference in its canonical form and nothing else changed, and validating
    again what was stored changes nothing more. *)
Theorem ValidatePayload_exact entity data result :
  NoDup (map f_Name (e_Fields entity)) ->
  (ValidatePayload entity data = inl result <->
   Forall (fun f => field_accepts f (data !! f_Name f)) (e_Fields entity) /\
   (forall k, result !! k = canonical entity k <$> data !! k)) /\
  (ValidatePayload entity data = inl result -> ValidatePayload entity result = inl result).
Proof.
  intros Hnd. split; [apply ValidatePayload_ok|]. intros [Hall Hk]%ValidatePayload_ok.
  apply ValidatePayload_ok. split.
  - rewrite Forall_forall in *. intros f Hf. rewrite Hk. apply accepts_canonical; auto.
  - intros k. rewrite Hk. destruct (data !! k) as [v|]; [|done]. cbn. f_equal. symmetry. apply canonical_idem.
Qed.
End Canonical.
End Payload.
