(* ===== verification/Workflow.v ===== *)
(** The workflow engine (src/go/workflow/workflow.go): initial status,
    transition lookup, guards and validators, the append-only ledger of
    workflow events and who last performed each action, and the outbox events
    a record change emits (src/go/infra/outbox.go). The two tables are lists in
    insertion order; the columns the database fills in (identifier, time) are
    arguments of the inserts. *)
From S2P Require Import Prelude GoStrings Json Condition Context Uuid Evaluate Snapshot PermissionService Metadata.

Open Scope string_scope.
Open Scope list_scope.

(** ** Transitions *)

Definition GetInitialStatus (entity : EntityDefinition) (data : JsonObject) : option string :=
  match e_Workflow entity with
  | None => None
  | Some w =>
    match data !! w_StateField w with
    | Some raw => match unmarshal_string raw with
                  | Some explicit => Some explicit
                  | None => Some (w_InitialState w)
                  end
    | None => Some (w_InitialState w)
    end
  end.

Definition FindTransition (entity : EntityDefinition) (action fromState : string) : option WorkflowTransition :=
  match e_Workflow entity with
  | None => None
  | Some w => List.find (fun t => String.eqb (t_Action t) action && String.eqb (t_From t) fromState) (w_Transitions w)
  end.

Definition jsonObjectToRaw (data : JsonObject) : json := marshal_map data.

(** [None] is the nil error: the condition passed or there is none. *)
Definition run_condition (condition : option PolicyCondition) (message fallback : string)
    (data : JsonObject) (ctx : RequestContext) : option error :=
  match condition with
  | None => None
  | Some c =>
    let result := EvaluateCondition c (Some (jsonObjectToRaw data)) ctx in
    if IsPassed result then None
    else if negb (String.eqb message "") then Some message
    else Some (default fallback (Reason result))
  end.

Definition RunGuard (t : WorkflowTransition) (data : JsonObject) (ctx : RequestContext) : option error :=
  run_condition (t_Guard t) (t_GuardMessage t) "guard failed" data ctx.

Definition RunValidator (t : WorkflowTransition) (nextData : JsonObject) (ctx : RequestContext) : option error :=
  run_condition (t_Validator t) (t_ValidatorMessage t) "validator failed" nextData ctx.

Definition workflowContextKey : string := "$workflow".

Fixpoint ConditionAttributes (c : PolicyCondition) : list string :=
  match c with
  | mkCond attribute _ _ _ al an =>
    match al with
    | Some l => flat_map ConditionAttributes l
    | None => match an with
              | Some l => flat_map ConditionAttributes l
              | None => [attribute]
              end
    end
  end.

Definition conditionUsesPrefix (c : option PolicyCondition) (prefix : string) : bool :=
  match c with
  | None => false
  | Some c => existsb (fun attribute => HasPrefix attribute prefix) (ConditionAttributes c)
  end.

Definition UsesWorkflowContext (entity : EntityDefinition) : bool :=
  match e_Workflow entity with
  | None => false
  | Some w => existsb (fun t => conditionUsesPrefix (t_Guard t) WorkflowAttributePrefix
                                || conditionUsesPrefix (t_Validator t) WorkflowAttributePrefix) (w_Transitions w)
  end.

(** [actors] is [∅] for nil. *)
Definition WithWorkflowContext (data : JsonObject) (actors : gmap string string) : JsonObject :=
  <[workflowContextKey := JObj [("actors", marshal_map (JStr <$> actors))]]> data.

Definition ApplySetFields (t : WorkflowTransition) (data : JsonObject) (ctx : RequestContext) : JsonObject :=
  ((fun value => ResolveValue value ctx) <$> t_SetFields t) ∪ data.

(** ** The ledger and the outbox *)

Section Ledger.
Context `{UuidLib}.

Record WorkflowEvent : Type := mkEvent {
  we_ID : uuid;
  we_TenantID : uuid;
  we_Entity : string;
  we_RecordID : uuid;
  we_Action : string;
  we_FromState : string;
  we_ToState : string;
  we_Actor : option uuid;
  we_CreatedAt : Z
}.

Record OutboxEvent : Type := mkOutbox {
  ob_Topic : string;
  ob_AggregateType : string;
  ob_AggregateID : uuid;
  ob_Payload : json
}.

Definition parse_uuid (s : string) : result error uuid :=
  match uuid_Parse s with Some u => Ok u | None => Err uuid_parse_error end.

Definition parseContextIDs (ctx : RequestContext) : result error (uuid * option uuid) :=
  let! tenantID := parse_uuid (rc_TenantID ctx) in
  if String.eqb (rc_UserID ctx) "" then Ok (tenantID, None)
  else let! a := parse_uuid (rc_UserID ctx) in Ok (tenantID, Some a).

(** [id] and [now] are the defaults of the row's id and created_at. *)
Definition RecordEvent (events : list WorkflowEvent) (id : uuid) (now : Z) (entity : EntityDefinition)
    (recordID : uuid) (action fromState toState : string) (ctx : RequestContext) : result error (list WorkflowEvent) :=
  let! (tenantID, actor) := parseContextIDs ctx in
  Ok (events ++ [mkEvent id tenantID (e_Name entity) recordID action fromState toState actor now]).

(** ORDER BY created_at DESC, id DESC: [a] comes strictly before [b]; a uuid
    column compares as its canonical text does. *)
Definition more_recent (a b : WorkflowEvent) : bool :=
  (we_CreatedAt b <? we_CreatedAt a)%Z
  || ((we_CreatedAt a =? we_CreatedAt b)%Z && str_ltb (uuid_String (we_ID b)) (uuid_String (we_ID a))).

(** DISTINCT ON (record_id, action): the first row of each group in that order. *)
Definition keep_recent (best : option WorkflowEvent) (e : WorkflowEvent) : option WorkflowEvent :=
  match best with
  | Some b => if more_recent e b then Some e else Some b
  | None => Some e
  end.

Definition last_actor_rows (events : list WorkflowEvent) (tenantID : uuid) (entity : string) (recordIDs : list uuid)
  : list WorkflowEvent :=
  List.filter (fun e => bool_decide (we_TenantID e = tenantID) && String.eqb (we_Entity e) entity
    && bool_decide (we_RecordID e ∈ recordIDs) && is_some (we_Actor e)) events.

Definition distinct_step (out : gmap uuid (gmap string WorkflowEvent)) (e : WorkflowEvent)
  : gmap uuid (gmap string WorkflowEvent) :=
  let byAction := default ∅ (out !! we_RecordID e) in
  match keep_recent (byAction !! we_Action e) e with
  | Some b => <[we_RecordID e := <[we_Action e := b]> byAction]> out
  | None => out
  end.

Definition actor_text (e : WorkflowEvent) : string :=
  match we_Actor e with Some a => uuid_String a | None => "" end.

Definition LastActors (events : list WorkflowEvent) (tenantID : uuid) (entity : string) (recordIDs : list uuid)
  : gmap uuid (gmap string string) :=
  fmap (M := gmap uuid) (fun byAction : gmap string WorkflowEvent => actor_text <$> byAction)
    (fold_left distinct_step (last_actor_rows events tenantID entity recordIDs) ∅).

(** ORDER BY created_at ASC, a stable insertion sort of the rows. *)
Fixpoint insert_event (e : WorkflowEvent) (l : list WorkflowEvent) : list WorkflowEvent :=
  match l with
  | [] => [e]
  | x :: l' => if (we_CreatedAt x <? we_CreatedAt e)%Z then x :: insert_event e l' else e :: l
  end.

Definition ListEvents (events : list WorkflowEvent) (tenantID : uuid) (entity : string) (recordID : uuid) : list WorkflowEvent :=
  foldr insert_event [] (List.filter (fun e => bool_decide (we_TenantID e = tenantID) && String.eqb (we_Entity e) entity
    && bool_decide (we_RecordID e = recordID)) events).

Definition EnqueueOutboxEvent (outbox : list OutboxEvent) (event : OutboxEvent) : list OutboxEvent := outbox ++ [event].

Definition uuid_json (u : uuid) : json := JStr (uuid_String u).
Definition opt_uuid_json (u : option uuid) : json := match u with Some u => uuid_json u | None => JNull end.

Definition EmitTransitioned (outbox : list OutboxEvent) (entity : EntityDefinition) (tenantID recordID : uuid)
    (action fromState toState : string) (actor : option uuid) : list OutboxEvent :=
  EnqueueOutboxEvent outbox
    (mkOutbox (e_Name entity +:+ ".workflow.transitioned") (e_Name entity) recordID
      (marshal_map (list_to_map [("tenantId", uuid_json tenantID); ("recordId", uuid_json recordID); ("action", JStr action);
        ("from", JStr fromState); ("to", JStr toState); ("actor", opt_uuid_json actor)]))).

Definition EmitCreated (outbox : list OutboxEvent) (entity : EntityDefinition) (tenantID recordID : uuid)
    (data : JsonObject) : list OutboxEvent :=
  EnqueueOutboxEvent outbox
    (mkOutbox (e_Name entity +:+ ".record.created") (e_Name entity) recordID
      (marshal_map (list_to_map [("tenantId", uuid_json tenantID); ("recordId", uuid_json recordID); ("data", marshal_map data)]))).

Definition EmitDeleted (outbox : list OutboxEvent) (entity : EntityDefinition) (tenantID recordID : uuid) : list OutboxEvent :=
  EnqueueOutboxEvent outbox
    (mkOutbox (e_Name entity +:+ ".record.deleted") (e_Name entity) recordID
      (marshal_map (list_to_map [("tenantId", uuid_json tenantID); ("recordId", uuid_json recordID)]))).

Definition EmitUpdated (outbox : list OutboxEvent) (entity : EntityDefinition) (tenantID recordID : uuid)
    (data : JsonObject) (version : Z) : list OutboxEvent :=
  EnqueueOutboxEvent outbox
    (mkOutbox (e_Name entity +:+ ".record.updated") (e_Name entity) recordID
      (marshal_map (list_to_map [("tenantId", uuid_json tenantID); ("recordId", uuid_json recordID);
        ("data", marshal_map data); ("version", JNum (FormatInt version))]))).
End Ledger.

(** ** Properties *)

Section LedgerProperties.
Context `{UuidLib}.
Implicit Types (events : list WorkflowEvent).

(** The event kept for a record and an action, folded over the group alone. *)
Definition group_rows (r : uuid) (action : string) events : list WorkflowEvent :=
  List.filter (fun e => bool_decide (we_RecordID e = r) && String.eqb (we_Action e) action) events.

Definition lookup2 {A} (m : gmap uuid (gmap string A)) (r : uuid) (action : string) : option A :=
  default ∅ (m !! r) !! action.

Lemma distinct_step_lookup out e r action :
  lookup2 (distinct_step out e) r action =
  if bool_decide (we_RecordID e = r) && String.eqb (we_Action e) action
  then keep_recent (lookup2 out r action) e else lookup2 out r action.
Proof.
  unfold lookup2, distinct_step. destruct (keep_recent _ e) as [b|] eqn:Eb.
  2:{ unfold keep_recent in Eb. repeat case_match; done. }
  case_bool_decide as Hr; simpl.
  - subst r. rewrite lookup_insert_eq. simpl. destruct (String.eqb_spec (we_Action e) action) as [<-|Hne].
    + by rewrite lookup_insert_eq.
    + by rewrite lookup_insert_ne.
  - by rewrite lookup_insert_ne.
Qed.

Lemma distinct_fold_lookup events out r action :
  lookup2 (fold_left distinct_step events out) r action =
  fold_left keep_recent (group_rows r action events) (lookup2 out r action).
Proof.
  revert out. induction events as [|e events IH]; intros out; simpl; [done|].
  rewrite IH, distinct_step_lookup. by destruct (bool_decide (we_RecordID e = r) && _).
Qed.

Lemma str_ltb_lt a b : str_ltb a b = true <-> String.compare a b = Lt.
Proof. unfold str_ltb. by destruct (String.compare a b). Qed.

(** The order of the ledger, as a strict order on (time, id text). *)
Definition recency (e : WorkflowEvent) : Z * string := (we_CreatedAt e, uuid_String (we_ID e)).

Lemma keep_recent_fold events best :
  match fold_left keep_recent events best with
  | Some b => (Some b = best \/ b ∈ events)
  | None => best = None /\ events = []
  end.
Proof.
  revert best. induction events as [|e events IH]; intros best; simpl.
  - destruct best; naive_solver.
  - specialize (IH (keep_recent best e)). destruct (fold_left _ _ _) as [b|].
    + destruct IH as [Hb|Hin]; [|right; by apply list_elem_of_further].
      unfold keep_recent in Hb. destruct best as [c|]; [destruct (more_recent e c)|]; injection Hb as <-;
        [right; apply list_elem_of_here | by left | right; apply list_elem_of_here].
    + destruct IH as [Hk _]. unfold keep_recent in Hk. repeat case_match; done.
Qed.

Lemma last_actor_rows_elem events t entity rs e :
  e ∈ last_actor_rows events t entity rs <->
  e ∈ events /\ we_TenantID e = t /\ we_Entity e = entity /\ we_RecordID e ∈ rs /\ is_some (we_Actor e) = true.
Proof.
  unfold last_actor_rows. rewrite list_elem_of_In, filter_In, <- list_elem_of_In, !andb_true_iff,
    !bool_decide_eq_true, String.eqb_eq. tauto.
Qed.

Lemma LastActors_lookup events t entity rs r action :
  lookup2 (LastActors events t entity rs) r action =
  actor_text <$> fold_left keep_recent (group_rows r action (last_actor_rows events t entity rs)) None.
Proof.
  assert (Hf : fold_left keep_recent (group_rows r action (last_actor_rows events t entity rs)) None
    = lookup2 (fold_left distinct_step (last_actor_rows events t entity rs) ∅) r action).
  { rewrite distinct_fold_lookup. unfold lookup2. rewrite lookup_empty. simpl. by rewrite lookup_empty. }
  rewrite Hf. unfold lookup2, LastActors. rewrite lookup_fmap.
  destruct (fold_left distinct_step _ ∅ !! r) as [m|]; simpl; [by rewrite lookup_fmap | by rewrite !lookup_empty].
Qed.

(** Who last performed an action: the ledger reports an actor for a
    record and an action exactly when the tenant's ledger has such an event
    with an actor, and a newly recorded event, later than all before it, makes
    its caller the last actor of that action and of no other. *)
Lemma RecordEvent_sets_last_actor events id now entity r action from_ to_ ctx t a events' :
  parseContextIDs ctx = Ok (t, Some a) ->
  Forall (fun e => (we_CreatedAt e < now)%Z) events ->
  RecordEvent events id now entity r action from_ to_ ctx = Ok events' ->
  lookup2 (LastActors events' t (e_Name entity) [r]) r action = Some (uuid_String a) /\
  (forall action', action' <> action ->
     lookup2 (LastActors events' t (e_Name entity) [r]) r action'
     = lookup2 (LastActors events t (e_Name entity) [r]) r action') /\
  (forall action', lookup2 (LastActors events t (e_Name entity) [r]) r action' = None <->
     forall e, e ∈ events -> we_TenantID e = t -> we_Entity e = e_Name entity -> we_RecordID e = r ->
       we_Action e = action' -> we_Actor e = None).
Proof.
  intros Hctx Hpast. unfold RecordEvent. rewrite Hctx. cbn [rbind]. intros [= <-].
  set (new := mkEvent id t (e_Name entity) r action from_ to_ (Some a) now).
  assert (Hrows : last_actor_rows (events ++ [new]) t (e_Name entity) [r]
                  = last_actor_rows events t (e_Name entity) [r] ++ [new]).
  { unfold last_actor_rows. rewrite List.filter_app. f_equal. simpl.
    rewrite String.eqb_refl, !bool_decide_eq_true_2; [done | apply list_elem_of_here | done]. }
  split_and!.
  - rewrite LastActors_lookup, Hrows. unfold group_rows. rewrite List.filter_app, fold_left_app. simpl.
    rewrite String.eqb_refl, bool_decide_eq_true_2 by done. simpl.
    pose proof (keep_recent_fold (group_rows r action (last_actor_rows events t (e_Name entity) [r])) None) as Hk.
    unfold group_rows in Hk. destruct (fold_left keep_recent _ None) as [b|]; [|done]. simpl.
    replace (more_recent new b) with true; [done|]. symmetry. unfold more_recent. apply orb_true_iff. left.
    destruct Hk as [|Hb]; [done|]. rewrite Forall_forall in Hpast. apply Z.ltb_lt, Hpast.
    apply list_elem_of_In, filter_In in Hb as [Hb _]. apply list_elem_of_In in Hb.
    apply last_actor_rows_elem in Hb as [Hb _]. exact Hb.
  - intros action' Hne. rewrite !LastActors_lookup, Hrows. unfold group_rows. rewrite List.filter_app. simpl.
    rewrite (proj2 (String.eqb_neq action action')) by congruence. rewrite andb_false_r. by rewrite app_nil_r.
  - intros action'. rewrite LastActors_lookup.
    pose proof (keep_recent_fold (group_rows r action' (last_actor_rows events t (e_Name entity) [r])) None) as Hk.
    assert (Hin : forall e, e ∈ group_rows r action' (last_actor_rows events t (e_Name entity) [r]) <->
      (e ∈ events /\ we_TenantID e = t /\ we_Entity e = e_Name entity /\ we_RecordID e ∈ [r] /\ is_some (we_Actor e) = true)
      /\ we_RecordID e = r /\ we_Action e = action').
    { intros e. unfold group_rows. rewrite list_elem_of_In, filter_In, <- list_elem_of_In, last_actor_rows_elem.
      by rewrite andb_true_iff, bool_decide_eq_true, String.eqb_eq. }
    destruct (fold_left keep_recent _ None) as [b|]; simpl.
    + split; [done|]. intros Hall. destruct Hk as [|Hb]; [done|]. apply Hin in Hb.
      destruct Hb as ((He & Ht & Hen & _ & Hac) & Hr & Ha). rewrite (Hall b) in Hac by done. done.
    + split; [|done]. intros _ e He Ht Hen Hr Ha. destruct (we_Actor e) as [x|] eqn:E; [|done].
      destruct Hk as [_ Hk]. exfalso. assert (Hbad : e ∈ ([] : list WorkflowEvent)); [|by apply elem_of_nil in Hbad].
      rewrite <- Hk. apply Hin. rewrite E, Hr. split_and!; try done. apply list_elem_of_here.
Qed.
End LedgerProperties.

(** In an entity the compiler accepted, a state and an action determine
    the transition: the lookup returns a transition exactly when the workflow
    declares it, wherever it stands in the list. *)
Lemma FindTransition_deterministic e w t :
  Validate e = None -> e_Workflow e = Some w ->
  FindTransition e (t_Action t) (t_From t) = Some t <-> t ∈ w_Transitions w.
Proof.
  intros Hv Hw. unfold FindTransition. rewrite Hw. split.
  - intros [Hin _]%find_some. by apply list_elem_of_In.
  - intros Hin. destruct (List.find _ _) as [t'|] eqn:E.
    + apply find_some in E as [Hin' [Ha%String.eqb_eq Hf%String.eqb_eq]%andb_true_iff].
      destruct (validated_workflow e w Hv Hw) as (Hk & _).
      apply list_elem_of_In, list_elem_of_lookup in Hin' as [i Hi]. apply list_elem_of_lookup in Hin as [j Hj].
      assert (i = j) as ->; [|congruence].
      apply (NoDup_lookup _ i j (transition_key t) Hk); rewrite list_lookup_fmap; [|by rewrite Hj].
      rewrite Hi. simpl. unfold transition_key. by rewrite Ha, Hf.
    + apply find_none with (x := t) in E; [|by apply list_elem_of_In].
      by rewrite !String.eqb_refl in E.
Qed.

Lemma ConditionAttributes_conditionAttributes c : ConditionAttributes c = conditionAttributes c.
Proof.
  induction c as [a o v lf al an IHal IHan] using cond_nested_ind. simpl.
  destruct al as [l|]; [|destruct an as [l|]; [|done]].
  - specialize (IHal l eq_refl). clear -IHal. induction IHal as [|x l Hx _ IH]; simpl; [done|]. by rewrite Hx, IH.
  - specialize (IHan l eq_refl). clear -IHan. induction IHan as [|x l Hx _ IH]; simpl; [done|]. by rewrite Hx, IH.
Qed.

(** The three segments of a workflow attribute. *)
Lemma workflow_attribute_resolves data actors action ctx :
  ContainsByte action "." = false ->
  resolveAttribute (Some (jsonObjectToRaw (WithWorkflowContext data actors)))
    (WorkflowAttributePrefix +:+ "actors." +:+ action) (Some ctx)
  = match actors !! action with Some u => JStr u | None => JNull end.
Proof.
  intros Hdot. unfold resolveAttribute.
  change (CutPrefix (WorkflowAttributePrefix +:+ "actors." +:+ action) ContextAttributePrefix) with (@None string).
  unfold resolveAttributePath.
  change (WorkflowAttributePrefix +:+ "actors." +:+ action) with ("$workflow" +:+ String "." ("actors" +:+ String "." action)).
  rewrite !Split_app by done. rewrite Split_no_sep by done.
  cbn [resolve_segments]. unfold jsonObjectToRaw. rewrite unmarshal_marshal_map.
  unfold WithWorkflowContext, workflowContextKey. rewrite lookup_insert_eq.
  cbn [resolve_segments unmarshal_map].
  change (map_of_members [("actors", marshal_map (JStr <$> actors))] !! "actors")
    with (Some (marshal_map (JStr <$> actors))). cbn [resolve_segments].
  rewrite unmarshal_marshal_map, lookup_fmap. by destruct (actors !! action).
Qed.

(** Separation of duties: a guard that the actor who performed an earlier
    action must differ from the caller passes exactly when the ledger's last
    actor for that action is not the caller, whatever the record's own data
    says (a field named $workflow in it is overridden). *)
Lemma separation_of_duties t data actors action ctx :
  ContainsByte action "." = false -> rc_UserID ctx <> "" ->
  rc_ContextAttributes ctx = None -> t_GuardMessage t = "" ->
  t_Guard t = Some (AttributeCondition (WorkflowAttributePrefix +:+ "actors." +:+ action) OpNeq (FromContextValue "userId")) ->
  RunGuard t (WithWorkflowContext data actors) ctx = None <-> actors !! action <> Some (rc_UserID ctx).
Proof.
  intros Hdot Huser Hattrs Hmsg Hg. unfold RunGuard, run_condition. rewrite Hg, Hmsg. cbn [negb String.eqb].
  fold (condition_passes (Some (jsonObjectToRaw (WithWorkflowContext data actors))) ctx
    (AttributeCondition (WorkflowAttributePrefix +:+ "actors." +:+ action) OpNeq (FromContextValue "userId"))).
  unfold AttributeCondition. rewrite condition_passes_leaf, workflow_attribute_resolves by done.
  assert (Hval : ResolveValue (FromContextValue "userId") ctx = JStr (rc_UserID ctx)).
  { unfold ResolveValue. cbn [FromContextValue pv_isFromCtx pv_FromContext]. rewrite ToValue_members.
    unfold context_members. rewrite Hattrs. cbn [default].
    rewrite (proj2 (String.eqb_neq _ _) Huser), map_empty_union.
    destruct (rc_HasRoles ctx), (String.eqb (rc_FunctionID ctx) ""); by simplify_map_eq. }
  rewrite Hval. unfold matchOperator. cbn [String.eqb OpNeq OpEq]. cbn -[json_value_equal jsonEqual].
  unfold jsonEqual. destruct (actors !! action) as [u|].
  - rewrite json_value_equal_str. destruct (String.eqb_spec u (rc_UserID ctx)) as [->|Hne]; simpl; naive_solver.
  - simpl. naive_solver.
Qed.

(** ** Witnesses *)

#[local] Existing Instance TestUuid.

Lemma FindTransition_deterministic_witness :
  exists t, t_Action t = "finish" /\ FindTransition test_entity (t_Action t) (t_From t) = Some t.
Proof.
  exists (mkTransition "finish" "draft" "done" "Finish" None None ∅ "" ""). split; [reflexivity|].
  eapply (FindTransition_deterministic test_entity); [vm_compute; reflexivity | reflexivity |].
  apply list_elem_of_here.
Defined.

Definition test_approver : RequestContext := mkRequestContext "uuid-t1" "uuid-u2" (Some ["clerk"]) true "" None "".
Definition test_approve : WorkflowTransition :=
  mkTransition "approve" "submitted" "approved" "Approve"
    (Some (AttributeCondition "$workflow.actors.submit" OpNeq (FromContextValue "userId"))) None ∅ "" "".

Lemma separation_of_duties_witness :
  RunGuard test_approve (WithWorkflowContext ∅ {["submit" := "uuid-u1"]}) test_approver = None.
Proof.
  apply (separation_of_duties test_approve ∅ {["submit" := "uuid-u1"]} "submit" test_approver);
    [reflexivity | discriminate | reflexivity | reflexivity | reflexivity | vm_compute; discriminate].
Defined.

Definition record1 : @uuid TestUuid := "r1".
Definition event1 : @uuid TestUuid := "e1".
Lemma RecordEvent_sets_last_actor_witness :
  exists events', RecordEvent [] event1 5 test_entity record1 "finish" "draft" "done" test_approver = Ok events' /\
    lookup2 (LastActors events' "t1" (e_Name test_entity) [record1]) record1 "finish" = Some "uuid-u2".
Proof.
  eexists. split; [reflexivity|].
  refine (proj1 (RecordEvent_sets_last_actor [] event1 5 test_entity record1 "finish" "draft" "done" test_approver
    _ _ _ eq_refl _ eq_refl)).
  constructor.
Defined.
