(* ===== verification/AuditTrail.v ===== *)
(** The audit trail (src/go/audit/diff.go, entry.go, store.go,
    postgresstore.go): the diff of two record blobs, redaction, entries, the
    store interface and the Postgres store as its table. *)
From S2P Require Import Prelude GoStrings Json Condition Context Uuid Evaluate Snapshot PermissionService Metadata Workflow.

Open Scope string_scope.
Open Scope list_scope.

(** ** Diffs (diff.go) *)

Definition jsonRawEqual (a b : json) : bool := json_value_equal a b.

(** The entry of one key; [None] when the key is left out of the diff. *)
Definition diff_entry (before after : option json) : option json :=
  match before, after with
  | None, None => None
  | Some b, Some a =>
    if jsonRawEqual b a then None
    else Some (marshal_map (<["after" := a]> (<["before" := b]> ∅)))
  | _, _ => Some (marshal_map (<["after" := default JNull after]> (<["before" := default JNull before]> ∅)))
  end.

Definition DiffJSONObjects (before after : JsonObject) : JsonObject := merge diff_entry before after.

(** ** Entries and redaction (entry.go) *)

Inductive AuditAction : Type := AuditCreate | AuditUpdate | AuditDelete | AuditTransition.

Definition AuditAction_String (a : AuditAction) : string :=
  match a with
  | AuditCreate => "create"
  | AuditUpdate => "update"
  | AuditDelete => "delete"
  | AuditTransition => "transition"
  end.

Definition RedactedMarker : string := "redacted".

Definition redacted_value : json := JObj [(RedactedMarker, JBool true)].

Definition redact_step (diff : JsonObject) (field : string) : JsonObject :=
  match diff !! field with Some _ => <[field := redacted_value]> diff | None => diff end.

Definition RedactDiffFields (diff : JsonObject) (fields : list string) : JsonObject := fold_left redact_step fields diff.

Section Store.
Context `{UuidLib}.

Record Entry : Type := mkEntry {
  en_TenantID : uuid;
  en_Entity : string;
  en_RecordID : uuid;
  en_Action : AuditAction;
  en_TransitionAction : option string;
  en_ActorUserID : option uuid;
  en_Reason : option string;
  en_Diff : JsonObject;
  en_VersionAfter : option Z;
  en_OccurredAt : Z
}.

Record AuditRow : Type := mkAuditRow {
  ar_ID : uuid;
  ar_TenantID : uuid;
  ar_Entity : string;
  ar_RecordID : uuid;
  ar_Action : string;
  ar_TransitionAction : option string;
  ar_ActorUserID : option uuid;
  ar_Reason : option string;
  ar_Diff : json;
  ar_VersionAfter : option Z;
  ar_OccurredAt : Z
}.

(** type Store interface. *)
Class AuditStore (A : Type) := {
  Record_ : A -> uuid -> Entry -> result error A;
  ListForRecord : A -> uuid -> string -> uuid -> result error (list AuditRow)
}.

Definition maxEntriesPerRecord : nat := 200.

(** The table metadata.audit_trail_entries and the next row identifiers. *)
Record AuditTable : Type := mkAuditTable { as_rows : list AuditRow; as_ids : nat -> uuid }.

Definition pg_Record (s : AuditTable) (tenantID : uuid) (entry : Entry) : result error AuditTable :=
  if negb (bool_decide (tenantID = en_TenantID entry)) then
    Err ("audit.Store.Record called with tenantID " +:+ uuid_String tenantID +:+ " but entry.TenantID is "
         +:+ uuid_String (en_TenantID entry))
  else Ok (mkAuditTable
    (as_rows s ++ [mkAuditRow (as_ids s (length (as_rows s))) (en_TenantID entry) (en_Entity entry) (en_RecordID entry)
       (AuditAction_String (en_Action entry)) (en_TransitionAction entry) (en_ActorUserID entry) (en_Reason entry)
       (marshal_map (en_Diff entry)) (en_VersionAfter entry) (en_OccurredAt entry)]) (as_ids s)).

(** ORDER BY occurred_at DESC: an insertion sort, the newest first. *)
Fixpoint insert_newest (e : AuditRow) (l : list AuditRow) : list AuditRow :=
  match l with
  | [] => [e]
  | x :: l' => if (ar_OccurredAt e <? ar_OccurredAt x)%Z then x :: insert_newest e l' else e :: l
  end.

Definition pg_ListForRecord (s : AuditTable) (tenantID : uuid) (entity : string) (recordID : uuid)
  : result error (list AuditRow) :=
  Ok (take maxEntriesPerRecord (foldr insert_newest []
    (List.filter (fun r => bool_decide (ar_TenantID r = tenantID) && String.eqb (ar_Entity r) entity
       && bool_decide (ar_RecordID r = recordID)) (as_rows s)))).

#[export] Instance Postgres_AuditStore : AuditStore AuditTable := {|
  Record_ := pg_Record;
  ListForRecord := pg_ListForRecord
|}.
End Store.

(** ** Properties *)

Lemma DiffJSONObjects_lookup before after k :
  DiffJSONObjects before after !! k = diff_entry (before !! k) (after !! k).
Proof. unfold DiffJSONObjects. rewrite lookup_merge. by destruct (before !! k), (after !! k). Qed.

Lemma RedactDiffFields_lookup diff fields k :
  RedactDiffFields diff fields !! k =
  match diff !! k with
  | None => None
  | Some v => Some (if bool_decide (k ∈ fields) then redacted_value else v)
  end.
Proof.
  unfold RedactDiffFields. revert diff. induction fields as [|f fields IH]; intros diff; simpl.
  - by destruct (diff !! k).
  - rewrite IH. unfold redact_step. destruct (decide (f = k)) as [->|Hne].
    + assert (k ∈ k :: fields) by apply list_elem_of_here. destruct (diff !! k) as [w|] eqn:Ef; [|by rewrite Ef].
      rewrite lookup_insert_eq. by repeat case_bool_decide.
    + assert (k ∈ f :: fields <-> k ∈ fields) by (rewrite elem_of_cons; naive_solver).
      assert ((match diff !! f with Some _ => <[f := redacted_value]> diff | None => diff end) !! k = diff !! k) as ->.
      { destruct (diff !! f); [|done]. by rewrite lookup_insert_ne. }
      destruct (diff !! k); [|done]. repeat case_bool_decide; tauto.
Qed.

Lemma unmarshal_pair b a :
  unmarshal_map (marshal_map (<["after" := a]> (<["before" := b]> ∅))) = Some (<["after" := a]> (<["before" := b]> ∅)).
Proof. apply unmarshal_marshal_map. Qed.

(** The audit diff of two states and its redaction: a key is recorded
    exactly when its value (or its presence) differs; a recorded key that is
    not redacted carries both values, null for an absent one; a redacted key
    keeps only the fact that it changed; and redaction adds no key. *)
Lemma audit_diff_exact before after fields k :
  match RedactDiffFields (DiffJSONObjects before after) fields !! k with
  | None => match before !! k, after !! k with
            | Some b, Some a => jsonRawEqual b a = true
            | None, None => True
            | _, _ => False
            end
  | Some d =>
    match before !! k, after !! k with
    | Some b, Some a => jsonRawEqual b a = false
    | None, None => False
    | _, _ => True
    end /\
    if bool_decide (k ∈ fields) then d = redacted_value
    else exists m, unmarshal_map d = Some m /\ m !! "before" = Some (default JNull (before !! k))
           /\ m !! "after" = Some (default JNull (after !! k))
           /\ dom m = {["before"; "after"]}
  end.
Proof.
  rewrite RedactDiffFields_lookup, DiffJSONObjects_lookup.
  assert (Hpair : forall b a, exists m, unmarshal_map (marshal_map (<["after" := a]> (<["before" := b]> ∅))) = Some m
            /\ m !! "before" = Some b /\ m !! "after" = Some a /\ dom m = {["before"; "after"]}).
  { intros b a. rewrite unmarshal_pair. eexists. split; [reflexivity|]. split_and!.
    - by rewrite lookup_insert_ne, lookup_insert_eq.
    - by rewrite lookup_insert_eq.
    - rewrite !dom_insert_L, dom_empty_L. set_solver. }
  unfold diff_entry. destruct (before !! k) as [b|], (after !! k) as [a|]; simpl; try done.
  - destruct (jsonRawEqual b a); [done|]. split; [done|]. case_bool_decide; [done|]. apply Hpair.
  - split; [done|]. case_bool_decide; [done|]. apply Hpair.
  - split; [done|]. case_bool_decide; [done|]. apply Hpair.
Qed.
