(* ===== verification/Sql.v ===== *)
(** Generated SQL and its parameters (src/go/query/sql_builder.go). The query
    package concatenates SQL fragments; here a fragment is a tree of the shapes
    it concatenates, [render] is the text, and [holds] is what Postgres makes
    of it (three-valued logic over nullable scalars). A fragment builder
    threads the parameters already pushed and can fail. *)
From S2P Require Import Prelude GoStrings Json Condition Context Uuid.

Open Scope string_scope.
Open Scope list_scope.

(** ** Bind values and the parameter builder *)

Section Binds.
Context `{UuidLib}.

Inductive BindValue : Type :=
| TextBind (s : string)
| BoolBind (b : bool)
| UUIDBind (u : uuid).

(** The values a driver argument can have. *)
Inductive driver_arg : Type :=
| ArgText (s : string)
| ArgBool (b : bool)
| ArgUUID (u : uuid).

Definition BindValue_Arg (v : BindValue) : driver_arg :=
  match v with
  | TextBind s => ArgText s
  | BoolBind b => ArgBool b
  | UUIDBind u => ArgUUID u
  end.

Definition IsUUID (v : BindValue) : bool := match v with UUIDBind _ => true | _ => false end.
Definition ArgsOf (params : list BindValue) : list driver_arg := map BindValue_Arg params.

(** A parameter as the text Postgres reads it as. *)
Definition bind_text (v : BindValue) : string :=
  match v with
  | TextBind s => s
  | BoolBind b => FormatBool b
  | UUIDBind u => uuid_String u
  end.
End Binds.

(** ** Errors of the query package *)

Inductive QueryError : Type :=
| CrossRecordConditionInList (attribute : string)
| UnsupportedContainsConditionInList (attribute : string)
| InvalidCursor
| UnknownListView (name : string)
| InvalidJql (message : string)
| InvalidAggregate (message : string)
| PlainError (message : string).

(** ** SQL fragments *)

Inductive connective : Type := CAnd | COr.

Inductive sql : Type :=
| SCol (name : string)
| SQuoted (name : string)
| SPath (key : sql)
| SParam (n : nat)
| SCast (e : sql) (suffix : string)
| SParen (e : sql)
| SOp (op : string) (a b : sql)
| SIn (negate : bool) (e : sql) (l : list sql)
| SIsNull (negate : bool) (e : sql)
| SNot (e : sql)
| SJoin (c : connective) (l : list sql)
| SConst (b : bool)
| SFts (e query : sql).

Definition connective_text (c : connective) : string := match c with CAnd => " AND " | COr => " OR " end.

Fixpoint joinSQL (parts : list string) (sep : string) : string :=
  match parts with
  | [] => ""
  | [p] => p
  | p :: rest => p +:+ sep +:+ joinSQL rest sep
  end.

Fixpoint render (e : sql) : string :=
  match e with
  | SCol name => name
  | SQuoted name => quote +:+ name +:+ quote
  | SPath key => "jsonb_extract_path_text(data, " +:+ render key +:+ ")"
  | SParam n => "$" +:+ Itoa n
  | SCast e suffix => render e +:+ suffix
  | SParen e => "(" +:+ render e +:+ ")"
  | SOp op a b => render a +:+ " " +:+ op +:+ " " +:+ render b
  | SIn negate e l => render e +:+ " " +:+ (if negate then "NOT IN" else "IN") +:+ " (" +:+ joinSQL (map render l) ", " +:+ ")"
  | SIsNull negate e => render e +:+ (if negate then " IS NOT NULL" else " IS NULL")
  | SNot e => "NOT " +:+ render e
  | SJoin c l => joinSQL (map render l) (connective_text c)
  | SConst b => FormatBool b
  | SFts e q => "to_tsvector('simple', " +:+ render e +:+ ") @@ plainto_tsquery('simple', " +:+ render q +:+ ")"
  end.

(** The placeholder numbers a fragment mentions. *)
Fixpoint placeholders (e : sql) : list nat :=
  match e with
  | SCol _ | SQuoted _ | SConst _ => []
  | SParam n => [n]
  | SPath e | SCast e _ | SParen e | SIsNull _ e | SNot e => placeholders e
  | SOp _ a b | SFts a b => placeholders a ++ placeholders b
  | SIn _ e l => placeholders e ++ flat_map placeholders l
  | SJoin _ l => flat_map placeholders l
  end.

(** The literal texts of a fragment: everything in it that is not a placeholder
    or a fixed keyword. *)
Fixpoint names (e : sql) : list string :=
  match e with
  | SCol c | SQuoted c => [c]
  | SConst _ | SParam _ => []
  | SPath e | SParen e | SIsNull _ e | SNot e => names e
  | SCast e suffix => names e ++ [suffix]
  | SOp op a b => op :: names a ++ names b
  | SFts a b => names a ++ names b
  | SIn _ e l => names e ++ flat_map names l
  | SJoin _ l => flat_map names l
  end.

Section SqlInd.
Variable P : sql -> Prop.
Hypothesis Hcol : forall c, P (SCol c).
Hypothesis Hquoted : forall c, P (SQuoted c).
Hypothesis Hpath : forall e, P e -> P (SPath e).
Hypothesis Hparam : forall n, P (SParam n).
Hypothesis Hcast : forall e s, P e -> P (SCast e s).
Hypothesis Hparen : forall e, P e -> P (SParen e).
Hypothesis Hop : forall op a b, P a -> P b -> P (SOp op a b).
Hypothesis Hin : forall n e l, P e -> Forall P l -> P (SIn n e l).
Hypothesis Hnull : forall n e, P e -> P (SIsNull n e).
Hypothesis Hnot : forall e, P e -> P (SNot e).
Hypothesis Hjoin : forall c l, Forall P l -> P (SJoin c l).
Hypothesis Hconst : forall b, P (SConst b).
Hypothesis Hfts : forall a b, P a -> P b -> P (SFts a b).

Fixpoint sql_nested_ind (e : sql) : P e :=
  let go := fix go (l : list sql) : Forall P l :=
    match l with
    | [] => Forall_nil_2 P
    | x :: l' => Forall_cons_2 P x l' (sql_nested_ind x) (go l')
    end in
  match e with
  | SCol c => Hcol c
  | SQuoted c => Hquoted c
  | SPath e => Hpath e (sql_nested_ind e)
  | SParam n => Hparam n
  | SCast e s => Hcast e s (sql_nested_ind e)
  | SParen e => Hparen e (sql_nested_ind e)
  | SOp op a b => Hop op a b (sql_nested_ind a) (sql_nested_ind b)
  | SIn n e l => Hin n e l (sql_nested_ind e) (go l)
  | SIsNull n e => Hnull n e (sql_nested_ind e)
  | SNot e => Hnot e (sql_nested_ind e)
  | SJoin c l => Hjoin c l (go l)
  | SConst b => Hconst b
  | SFts a b => Hfts a b (sql_nested_ind a) (sql_nested_ind b)
  end.
End SqlInd.

(** ** Builders *)

Section Builders.
Context `{UuidLib}.

Definition Build (A : Type) : Type := list BindValue -> result QueryError (A * list BindValue).

Definition bret {A} (a : A) : Build A := fun ps => Ok (a, ps).
Definition bfail {A} (e : QueryError) : Build A := fun _ => Err e.
Definition bbind {A B} (m : Build A) (k : A -> Build B) : Build B :=
  fun ps => let! (a, ps') := m ps in k a ps'.

Definition Push (value : BindValue) : Build sql := fun ps => Ok (SParam (S (length ps)), ps ++ [value]).

Section Loop.
Context {A B : Type} (f : A -> Build B).

Fixpoint bmap (l : list A) : Build (list B) :=
  match l with
  | [] => bret []
  | a :: l' => bbind (f a) (fun b => bbind (bmap l') (fun bs => bret (b :: bs)))
  end.
End Loop.
End Builders.

Notation "'let+' x := c 'in' k" := (bbind c (fun x => k))
  (at level 10, x pattern, c at level 200, k at level 200) : go_scope.

(** ** What Postgres makes of a fragment *)

Section Semantics.
Context {V : Type} (scalar : sql -> option V) (eqb ltb : V -> V -> bool).
Context (other : sql -> option bool).

Definition cmp3 (op : string) (a b : V) : bool :=
  if String.eqb op "=" then eqb a b
  else if String.eqb op "!=" then negb (eqb a b)
  else if String.eqb op "<" then ltb a b
  else if String.eqb op ">" then ltb b a
  else if String.eqb op "<=" then negb (ltb b a)
  else negb (ltb a b).

Definition is_comparison (op : string) : bool :=
  existsb (String.eqb op) ["="; "!="; "<"; ">"; "<="; ">="].

Definition and3 (a b : option bool) : option bool :=
  match a, b with
  | Some false, _ | _, Some false => Some false
  | Some true, Some true => Some true
  | _, _ => None
  end.

Definition or3 (a b : option bool) : option bool :=
  match a, b with
  | Some true, _ | _, Some true => Some true
  | Some false, Some false => Some false
  | _, _ => None
  end.

Definition not3 (a : option bool) : option bool := negb <$> a.

(** e IN (l): the disjunction of the equalities. *)
Definition in3 (x : option V) (l : list (option V)) : option bool :=
  foldr (fun y acc => or3 (match x, y with Some a, Some b => Some (eqb a b) | _, _ => None end) acc) (Some false) l.

Fixpoint holds (e : sql) : option bool :=
  match e with
  | SConst b => Some b
  | SParen e => holds e
  | SNot e => not3 (holds e)
  | SJoin CAnd l => foldr (fun e acc => and3 (holds e) acc) (Some true) l
  | SJoin COr l => foldr (fun e acc => or3 (holds e) acc) (Some false) l
  | SIsNull negate e => Some (match scalar e with Some _ => negate | None => negb negate end)
  | SIn negate e l =>
    let r := in3 (scalar e) (map scalar l) in
    if negate then not3 r else r
  | SOp op a b =>
    if is_comparison op
    then match scalar a, scalar b with Some x, Some y => Some (cmp3 op x y) | _, _ => None end
    else other e
  | _ => other e
  end.
End Semantics.

(** ** Properties of fragments and builders *)

Section BuilderProperties.
Context `{UuidLib}.

(** A builder only appends parameters, and what it returns mentions only
    placeholders of parameters pushed by then. *)
Definition appends {A} (inrange : A -> nat -> Prop) (m : Build A) : Prop :=
  forall ps a ps', m ps = Ok (a, ps') -> exists new, ps' = ps ++ new /\ inrange a (length ps').

Definition in_range_sql (e : sql) (n : nat) : Prop := Forall (fun k => 1 <= k <= n)%nat (placeholders e).

Lemma in_range_mono e n m : in_range_sql e n -> (n <= m)%nat -> in_range_sql e m.
Proof. intros He Hle. eapply Forall_impl; [exact He|]. simpl. lia. Qed.

Lemma in_range_list_mono l n m :
  Forall (fun e => in_range_sql e n) l -> (n <= m)%nat -> Forall (fun e => in_range_sql e m) l.
Proof. intros Hl Hle. eapply Forall_impl; [exact Hl|]. intros e He. by apply (in_range_mono e n). Qed.

Lemma in_range_flat l n : Forall (fun e => in_range_sql e n) l <-> Forall (fun k => 1 <= k <= n)%nat (flat_map placeholders l).
Proof.
  induction l as [|e l IH]; simpl; [by split|]. rewrite Forall_cons, Forall_app, IH. done.
Qed.

Lemma appends_ret {A} (R : A -> nat -> Prop) a : (forall n, R a n) -> appends R (bret a).
Proof. intros Ha ps a' ps' [= <- <-]. exists []. by rewrite app_nil_r. Qed.

Lemma appends_fail {A} (R : A -> nat -> Prop) e : appends R (bfail e).
Proof. intros ps a ps' Hm. discriminate Hm. Qed.

Lemma appends_push v : appends in_range_sql (Push v).
Proof.
  intros ps a ps' [= <- <-]. exists [v]. split; [done|]. rewrite length_app. simpl. constructor; [lia|constructor].
Qed.

Lemma appends_bind {A B} (R : A -> nat -> Prop) (Q : B -> nat -> Prop) (m : Build A) (k : A -> Build B) :
  appends R m ->
  (forall a ps b ps', R a (length ps) -> k a ps = Ok (b, ps') -> exists new, ps' = ps ++ new /\ Q b (length ps')) ->
  appends Q (bbind m k).
Proof.
  intros Hm Hk ps b ps' ([a ps1] & Ha & Hb)%rbind_ok.
  destruct (Hm _ _ _ Ha) as (n1 & -> & HR). destruct (Hk _ _ _ _ HR Hb) as (n2 & -> & HQ).
  exists (n1 ++ n2). by rewrite app_assoc.
Qed.

Lemma appends_map {A} (f : A -> Build sql) l :
  (forall a, a ∈ l -> appends in_range_sql (f a)) ->
  appends (fun es n => Forall (fun e => in_range_sql e n) es) (bmap f l).
Proof.
  induction l as [|a l IH]; intros Hf; simpl; [apply appends_ret; constructor|].
  eapply appends_bind; [apply Hf, list_elem_of_here|].
  intros e ps es ps' He ([es' ps1] & Hes & [= <- <-])%rbind_ok.
  destruct (IH (fun b Hb => Hf b (list_elem_of_further _ _ _ Hb)) _ _ _ Hes) as (new & -> & Hall).
  exists new. split; [done|]. constructor; [|done]. eapply in_range_mono; [exact He|]. rewrite length_app. lia.
Qed.
End BuilderProperties.
