(* ===== verification/ConditionSql.v ===== *)
(** Policy conditions as SQL (src/go/query/condition_to_sql.go): the WHERE
    fragment a list query filters its rows with, and how it relates to the
    evaluator that single-record operations use. *)
From S2P Require Import Prelude GoStrings Json Condition Context Uuid Evaluate Snapshot Sql.

Open Scope string_scope.
Open Scope list_scope.

Inductive colType : Type := colUUID | colText | colTimestamptz.

Section ConditionSql.
Context `{UuidLib}.

Definition fieldExpression (fieldName : string) : Build (sql * colType) :=
  if ContainsByte fieldName "." then bfail (CrossRecordConditionInList fieldName)
  else if String.eqb fieldName "createdBy" then bret (SCol "created_by", colUUID)
  else if String.eqb fieldName "updatedBy" then bret (SCol "updated_by", colUUID)
  else if String.eqb fieldName "status" then bret (SCol "status", colText)
  else if String.eqb fieldName "createdAt" then bret (SCol "created_at", colTimestamptz)
  else if String.eqb fieldName "updatedAt" then bret (SCol "updated_at", colTimestamptz)
  else let+ ph := Push (TextBind fieldName) in bret (SPath ph, colText).

(** [None] is a nil message: a literal that was never set. *)
Definition resolveValue (value : PolicyValue) (ctx : RequestContext) : option json :=
  if pv_isFromCtx value then
    Some (match unmarshal_map (ToValue ctx) with
          | Some obj => default JNull (obj !! pv_FromContext value)
          | None => JNull
          end)
  else pv_Literal value.

Definition jsonScalarToText (value : option json) : option string :=
  match value with
  | None => None
  | Some j =>
    match unmarshal_string j with
    | Some s => Some s
    | None =>
      match unmarshal_bool j with
      | Some b => Some (FormatBool b)
      | None => unmarshal_number j
      end
    end
  end.

Definition scalar_error {A} : Build A := bfail (PlainError "policy condition value must be a string, bool, or number").

Definition push_text_value (value : option json) : Build sql :=
  match jsonScalarToText value with
  | Some text => Push (TextBind text)
  | None => scalar_error
  end.

Definition bindScalar (ct : colType) (value : option json) : Build sql :=
  match ct with
  | colUUID =>
    match value ≫= unmarshal_string with
    | None => bfail (PlainError "expected a UUID string")
    | Some s => match uuid_Parse s with
                | Some u => Push (UUIDBind u)
                | None => bfail (PlainError "invalid UUID")
                end
    end
  | colTimestamptz => let+ ph := push_text_value value in bret (SCast ph "::timestamptz")
  | colText => push_text_value value
  end.

Definition comparableExprAndValue (expr : sql) (ct : colType) (expected : option json) : Build (sql * sql) :=
  match ct with
  | colUUID => bfail (PlainError "gt/gte/lt/lte is not supported on a UUID-typed field")
  | colTimestamptz =>
    let+ ph := push_text_value expected in bret (expr, SCast ph "::timestamptz")
  | colText =>
    match expected ≫= unmarshal_number with
    | Some _ =>
      let+ ph := push_text_value expected in
      bret (SCast (SParen expr) "::numeric", SCast ph "::numeric")
    | None =>
      let+ rhs := bindScalar ct expected in bret (expr, rhs)
    end
  end.

Definition ordering_text (op : ConditionOp) : string :=
  if String.eqb op OpGt then ">"
  else if String.eqb op OpGte then ">="
  else if String.eqb op OpLt then "<"
  else "<=".

Definition is_ordering (op : ConditionOp) : bool :=
  String.eqb op OpGt || String.eqb op OpGte || String.eqb op OpLt || String.eqb op OpLte.

(** The operator switch on a leaf that names a field of the record. *)
Definition field_leaf_sql (attribute : string) (op : ConditionOp) (expected : option json) : Build sql :=
  let+ (expr, ct) := fieldExpression attribute in
  if String.eqb op OpEq then
    let+ ph := bindScalar ct expected in bret (SOp "=" expr ph)
  else if String.eqb op OpNeq then
    let+ ph := bindScalar ct expected in bret (SOp "!=" expr ph)
  else if String.eqb op OpIn || String.eqb op OpNotIn then
    let values := default [] (expected ≫= unmarshal_array) in
    let negate := String.eqb op OpNotIn in
    if (length values =? 0)%nat then bret (SConst negate)
    else let+ phs := bmap (fun v => bindScalar ct (Some v)) values in bret (SIn negate expr phs)
  else if is_ordering op then
    let+ (lhs, rhs) := comparableExprAndValue expr ct expected in
    bret (SOp (ordering_text op) lhs rhs)
  else if String.eqb op OpContains || String.eqb op OpNotContains then
    bfail (UnsupportedContainsConditionInList attribute)
  else bfail (PlainError ("unknown condition op " +:+ op)).

Definition leaf_sql (attribute : string) (op : ConditionOp) (value : PolicyValue) (isLeaf : bool) (ctx : RequestContext) : Build sql :=
  if IsContextAttribute attribute then
    bret (SConst (IsPassed (EvaluateCondition (mkCond attribute op value isLeaf None None) None ctx)))
  else if HasPrefix attribute WorkflowAttributePrefix then
    bfail (PlainError "$workflow. attributes are only available to workflow guards and validators, not to record policies")
  else field_leaf_sql attribute op (resolveValue value ctx).

Fixpoint ConditionToSQL (condition : PolicyCondition) (ctx : RequestContext) : Build sql :=
  match condition with
  | mkCond attribute op value isLeaf al an =>
    match al with
    | Some [] => bret (SConst true)
    | Some l => let+ clauses := bmap (fun c => ConditionToSQL c ctx) l in bret (SParen (SJoin CAnd clauses))
    | None =>
      match an with
      | Some [] => bret (SConst false)
      | Some l => let+ clauses := bmap (fun c => ConditionToSQL c ctx) l in bret (SParen (SJoin COr clauses))
      | None => leaf_sql attribute op value isLeaf ctx
      end
    end
  end.

Definition row_clause (ctx : RequestContext) (row : PolicyRow) : Build sql :=
  match p_Condition row with
  | Some c => ConditionToSQL c ctx
  | None => bret (SConst true)
  end.

(** [None] is "no restriction". *)
Definition RecordPolicyWhereClause (rows : list PolicyRow) (ctx : RequestContext) : Build (option sql) :=
  if (length rows =? 0)%nat || IsAdmin ctx then bret None
  else
    let matching := List.filter (fun row => RoleGatePassed (p_Roles row) (p_HasRoles row) (roles_of ctx)) rows in
    let allowRows := List.filter (fun r => bool_decide (p_Effect r = EffectAllow)) matching in
    if (length allowRows =? 0)%nat then bret (Some (SConst false))
    else
      let+ allowClauses := bmap (row_clause ctx) allowRows in
      let allowSQL := SParen (SJoin COr allowClauses) in
      let denyRows := List.filter (fun r => bool_decide (p_Effect r = EffectDeny)) matching in
      if (length denyRows =? 0)%nat then bret (Some allowSQL)
      else
        let+ denyClauses := bmap (row_clause ctx) denyRows in
        let denySQL := SParen (SJoin COr denyClauses) in
        bret (Some (SParen (SJoin CAnd [allowSQL; SNot denySQL]))).
End ConditionSql.

(** The texts of the examples in the package's own tests. *)
Section Texts.
#[local] Existing Instance TestUuid.
Definition sql_text (m : Build sql) : option (string * list BindValue) :=
  match m [] with Ok (e, ps) => Some (render e, ps) | _ => None end.
Definition nobody : RequestContext := mkRequestContext "uuid-t1" "u1" None false "" None "".

Example sql_text_eq :
  sql_text (ConditionToSQL (AttributeCondition "ownerId" OpEq (FromContextValue "userId")) nobody)
  = Some ("jsonb_extract_path_text(data, $1) = $2", [TextBind "ownerId"; TextBind "u1"]).
Proof. vm_compute. reflexivity. Qed.

Example sql_text_numeric :
  sql_text (ConditionToSQL (AttributeCondition "amount" OpGte (LiteralValue (JNum "10"))) nobody)
  = Some ("(jsonb_extract_path_text(data, $1))::numeric >= $2::numeric", [TextBind "amount"; TextBind "10"]).
Proof. vm_compute. reflexivity. Qed.
End Texts.

(** ** Parameters *)

Section Parameters.
Context `{UuidLib}.

Definition fst_in_range {A} (x : sql * A) (n : nat) : Prop := in_range_sql x.1 n.

Lemma appends_bret_mono {A} (R : A -> nat -> Prop) a (ps : list BindValue) b ps' :
  R a (length ps) -> bret a ps = Ok (b, ps') -> exists new, ps' = ps ++ new /\ R b (length ps').
Proof. intros Ha [= <- <-]. exists []. by rewrite app_nil_r. Qed.

Lemma fieldExpression_appends name : appends fst_in_range (fieldExpression name).
Proof.
  unfold fieldExpression.
  repeat (match goal with |- appends _ (if ?b then _ else _) => destruct b end;
          [first [apply appends_fail | apply appends_ret; intros; by constructor]|]).
  eapply appends_bind; [apply appends_push|]. intros ph ps b ps' Hph. by apply appends_bret_mono.
Qed.

Lemma push_text_value_appends v : appends in_range_sql (push_text_value v).
Proof. unfold push_text_value. destruct (jsonScalarToText v); [apply appends_push | apply appends_fail]. Qed.

Lemma bindScalar_appends ct v : appends in_range_sql (bindScalar ct v).
Proof.
  destruct ct; simpl.
  - destruct (v ≫= unmarshal_string) as [s|]; [|apply appends_fail].
    destruct (uuid_Parse s); [apply appends_push | apply appends_fail].
  - apply push_text_value_appends.
  - eapply appends_bind; [apply push_text_value_appends|]. intros ph ps b ps' Hph. by apply appends_bret_mono.
Qed.

(** Extending with a bind whose result keeps the range of what came before. *)
Lemma appends_then {A} (m : Build sql) (R : A -> nat -> Prop) (k : sql -> A) (ps : list BindValue) b ps' :
  appends in_range_sql m ->
  (forall e n, in_range_sql e n -> (length ps <= n)%nat -> R (k e) n) ->
  bbind m (fun e => bret (k e)) ps = Ok (b, ps') -> exists new, ps' = ps ++ new /\ R b (length ps').
Proof.
  intros Hm Hk ([e ps1] & He & [= <- <-])%rbind_ok. destruct (Hm _ _ _ He) as (new & -> & Hr).
  exists new. split; [done|]. apply Hk; [done|]. rewrite length_app. lia.
Qed.

Lemma comparable_appends expr ct v ps b ps' :
  in_range_sql expr (length ps) -> comparableExprAndValue expr ct v ps = Ok (b, ps') ->
  exists new, ps' = ps ++ new /\ in_range_sql b.1 (length ps') /\ in_range_sql b.2 (length ps').
Proof.
  intros He Hm. destruct ct; simpl in Hm; [done| |].
  - destruct (v ≫= unmarshal_number).
    + eapply (appends_then _ (fun b n => in_range_sql b.1 n /\ in_range_sql b.2 n)); [..|exact Hm];
        [apply push_text_value_appends|]. intros e n Hr Hle. split; [|done]. by apply (in_range_mono expr (length ps)).
    + eapply (appends_then _ (fun b n => in_range_sql b.1 n /\ in_range_sql b.2 n)); [..|exact Hm];
        [apply (bindScalar_appends colText)|]. intros e n Hr Hle. split; [|done]. by apply (in_range_mono expr (length ps)).
  - eapply (appends_then _ (fun b n => in_range_sql b.1 n /\ in_range_sql b.2 n)); [..|exact Hm];
      [apply push_text_value_appends|]. intros e n Hr Hle. split; [|done]. by apply (in_range_mono expr (length ps)).
Qed.

Lemma SOp_in_range op a b n : in_range_sql a n -> in_range_sql b n -> in_range_sql (SOp op a b) n.
Proof. intros Ha Hb. by apply Forall_app. Qed.

Lemma cmp_clause_appends op expr ct v ps b ps' :
  in_range_sql expr (length ps) -> bbind (bindScalar ct v) (fun ph => bret (SOp op expr ph)) ps = Ok (b, ps') ->
  exists new, ps' = ps ++ new /\ in_range_sql b (length ps').
Proof.
  intros He. apply appends_then; [apply bindScalar_appends|]. intros e n Hr Hle.
  apply SOp_in_range; [|done]. by apply (in_range_mono expr (length ps)).
Qed.

Lemma in_clause_appends negate expr ct vs ps b ps' :
  in_range_sql expr (length ps) ->
  bbind (bmap (fun v => bindScalar ct (Some v)) vs) (fun phs => bret (SIn negate expr phs)) ps = Ok (b, ps') ->
  exists new, ps' = ps ++ new /\ in_range_sql b (length ps').
Proof.
  intros He ([es ps1] & Hes & [= <- <-])%rbind_ok.
  destruct (appends_map (fun v => bindScalar ct (Some v)) vs (fun v _ => bindScalar_appends ct (Some v)) _ _ _ Hes)
    as (new & -> & Hall).
  exists new. split; [done|]. apply Forall_app. split; [|by apply in_range_flat].
  apply (in_range_mono expr (length ps)); [done|]. rewrite length_app. lia.
Qed.

Lemma field_leaf_appends attribute op v : appends in_range_sql (field_leaf_sql attribute op v).
Proof.
  eapply appends_bind; [apply fieldExpression_appends|]. intros [expr ct] ps b ps' He Hk.
  unfold fst_in_range in He. simpl in He. cbv zeta in Hk.
  repeat (match type of Hk with (if ?c then _ else _) _ = _ => destruct c end);
    try (eapply cmp_clause_appends; [exact He|exact Hk]); try done.
  - revert Hk. apply appends_bret_mono. constructor.
  - eapply in_clause_appends; [exact He|exact Hk].
  - apply rbind_ok in Hk as ([[l r] ps1] & Hc & [= <- <-]).
    destruct (comparable_appends _ _ _ _ _ _ He Hc) as (new & -> & Hl & Hr).
    exists new. split; [done|]. by apply SOp_in_range.
Qed.

Lemma leaf_appends attribute op v lf ctx : appends in_range_sql (leaf_sql attribute op v lf ctx).
Proof.
  unfold leaf_sql. destruct (IsContextAttribute attribute); [apply appends_ret; by constructor|].
  destruct (HasPrefix _ _); [apply appends_fail | apply field_leaf_appends].
Qed.

Lemma join_appends c (m : Build (list sql)) :
  appends (fun es n => Forall (fun e => in_range_sql e n) es) m ->
  appends in_range_sql (bbind m (fun es => bret (SParen (SJoin c es)))).
Proof.
  intros Hm. eapply appends_bind; [exact Hm|]. intros es ps b ps' Hes. apply appends_bret_mono.
  by apply in_range_flat.
Qed.

Lemma ConditionToSQL_appends c ctx : appends in_range_sql (ConditionToSQL c ctx).
Proof.
  induction c as [a o v lf al an IHal IHan] using cond_nested_ind. cbn [ConditionToSQL].
  assert (Hgo : forall l, Forall (fun c => appends in_range_sql (ConditionToSQL c ctx)) l ->
    appends (fun es n => Forall (fun e => in_range_sql e n) es) (bmap (fun c => ConditionToSQL c ctx) l)).
  { intros l Hl. apply appends_map. by rewrite Forall_forall in Hl. }
  destruct al as [[|x l]|]; [apply appends_ret; by constructor | apply join_appends, Hgo, (IHal _ eq_refl) |].
  destruct an as [[|x l]|]; [apply appends_ret; by constructor | apply join_appends, Hgo, (IHan _ eq_refl) |].
  apply leaf_appends.
Qed.

Lemma row_clause_appends ctx row : appends in_range_sql (row_clause ctx row).
Proof.
  unfold row_clause. destruct (p_Condition row); [apply ConditionToSQL_appends | apply appends_ret; by constructor].
Qed.

Definition opt_in_range (w : option sql) (n : nat) : Prop := forall e, w = Some e -> in_range_sql e n.

Lemma RecordPolicyWhereClause_appends rows ctx : appends opt_in_range (RecordPolicyWhereClause rows ctx).
Proof.
  unfold RecordPolicyWhereClause. destruct (_ || _); [by apply appends_ret|].
  destruct (length _ =? 0)%nat; [apply appends_ret; intros n e [= <-]; constructor|].
  assert (Hrows : forall l, appends (fun es n => Forall (fun e => in_range_sql e n) es) (bmap (row_clause ctx) l))
    by (intros l; apply appends_map; intros; apply row_clause_appends).
  eapply appends_bind; [apply Hrows|]. intros es ps b ps' Hes.
  destruct (length _ =? 0)%nat.
  { apply appends_bret_mono. intros e [= <-]. by apply in_range_flat. }
  intros ([ds ps1] & Hds & [= <- <-])%rbind_ok. destruct (Hrows _ _ _ _ Hds) as (new & -> & Hall).
  exists new. split; [done|]. intros e [= <-]. unfold in_range_sql. cbn [placeholders flat_map].
  apply Forall_app. split; [|rewrite app_nil_r; by apply in_range_flat].
  apply in_range_flat. eapply in_range_list_mono; [exact Hes|]. rewrite length_app. lia.
Qed.

Lemma RecordPolicyWhereClause_params_app rows ctx ps w ps' :
  RecordPolicyWhereClause rows ctx ps = Ok (w, ps') -> exists new, ps' = ps ++ new /\ opt_in_range w (length ps').
Proof. apply RecordPolicyWhereClause_appends. Qed.

(** The WHERE fragment of the record policies only appends to the
    parameters already bound, and every placeholder in it is the number of a
    parameter that is bound when it is complete; so fragments can be
    concatenated in any number without renumbering. *)
Lemma RecordPolicyWhereClause_params rows ctx ps w ps' :
  RecordPolicyWhereClause rows ctx ps = Ok (w, ps') ->
  exists new, ps' = ps ++ new /\ forall e, w = Some e -> Forall (fun k => 1 <= k <= length ps')%nat (placeholders e).
Proof. apply RecordPolicyWhereClause_appends. Qed.
End Parameters.

(** ** The SQL filter and the in-memory evaluator *)

Section Agreement.
Context `{UuidLib}.
(** What the columns hold, and how Postgres prints a jsonb value that is not a
    string: neither is relied on. *)
Context (columns : string -> option string) (jsonb_text : json -> string) (other : sql -> option bool).

(** jsonb_extract_path_text: NULL for a missing key and for a JSON null. *)
Definition path_text (data : JsonObject) (key : string) : option string :=
  match data !! key with
  | None | Some JNull => None
  | Some (JStr s) => Some s
  | Some j => Some (jsonb_text j)
  end.

Fixpoint row_scalar (data : JsonObject) (ps : list BindValue) (e : sql) : option string :=
  match e with
  | SCol c | SQuoted c => columns c
  | SConst b => Some (FormatBool b)
  | SParam n => bind_text <$> ps !! pred n
  | SPath k => row_scalar data ps k ≫= path_text data
  | SCast e _ | SParen e => row_scalar data ps e
  | _ => None
  end.

Definition row_holds (data : JsonObject) (ps : list BindValue) : sql -> option bool :=
  holds (row_scalar data ps) String.eqb str_ltb other.

(** A leaf both sides read the same way: a plain field holding a string (or
    nothing), compared for equality or membership with strings. *)
Definition special_column (attribute : string) : bool :=
  existsb (String.eqb attribute) ["createdBy"; "updatedBy"; "status"; "createdAt"; "updatedAt"].

Definition is_string (j : json) : bool := match j with JStr _ => true | _ => false end.

Definition string_field (data : JsonObject) (attribute : string) : bool :=
  match data !! attribute with None | Some JNull | Some (JStr _) => true | _ => false end.

Definition exact_value (op : ConditionOp) (expected : option json) : bool :=
  match expected with
  | Some (JStr _) => String.eqb op OpEq || String.eqb op OpNeq
  | Some (JArr l) => (String.eqb op OpIn || String.eqb op OpNotIn) && forallb is_string l
  | _ => false
  end.

Fixpoint sql_exact (data : JsonObject) (ctx : RequestContext) (c : PolicyCondition) : bool :=
  match c with
  | mkCond attribute op value isLeaf al an =>
    match al with
    | Some l => forallb (sql_exact data ctx) l
    | None =>
      match an with
      | Some l => forallb (sql_exact data ctx) l
      | None =>
        IsContextAttribute attribute
        || (negb (special_column attribute) && string_field data attribute
            && exact_value op (resolveValue value ctx))
      end
    end
  end.

(** In every later state of the parameters, a definite answer of the fragment
    is the evaluator's answer. *)
Definition denotes (data : JsonObject) (passes : bool) (ps : list BindValue) (e : sql) : Prop :=
  forall more b, row_holds data (ps ++ more) e = Some b -> passes = b.

Lemma denotes_mono data p ps new e : denotes data p ps e -> denotes data p (ps ++ new) e.
Proof. intros Hd more b. rewrite <- app_assoc. apply Hd. Qed.

Lemma scalar_pushed data ps v more :
  row_scalar data ((ps ++ [v]) ++ more) (SParam (S (length ps))) = Some (bind_text v).
Proof. simpl. rewrite <- app_assoc. simpl. by rewrite list_lookup_middle. Qed.

Lemma plain_attribute attribute :
  special_column attribute = false -> ContainsByte attribute "." = false ->
  fieldExpression attribute = bbind (Push (TextBind attribute)) (fun ph => bret (SPath ph, colText)).
Proof.
  unfold special_column, fieldExpression. simpl. rewrite !orb_false_iff. intros (-> & -> & -> & -> & -> & _) ->. done.
Qed.

(** A leaf whose attribute has no dot reads the record's own member. *)
Lemma leaf_passes_plain data ctx a o v lf :
  ContainsByte a "." = false ->
  condition_passes (Some (marshal_map data)) ctx (mkCond a o v lf None None)
  = matchOperator o (default JNull (data !! a)) (ResolveValue v ctx).
Proof.
  intros Hdot. rewrite condition_passes_leaf. f_equal.
  apply resolveAttribute_plain; [apply unmarshal_marshal_map | done].
Qed.

Lemma ResolveValue_resolveValue v ctx : ResolveValue v ctx = default JNull (resolveValue v ctx).
Proof. unfold ResolveValue, resolveValue. by destruct (pv_isFromCtx v). Qed.

Lemma string_field_cases data a :
  string_field data a = true ->
  (exists s, data !! a = Some (JStr s) /\ path_text data a = Some s) \/
  (default JNull (data !! a) = JNull /\ path_text data a = None).
Proof.
  unfold string_field, path_text. destruct (data !! a) as [[]|]; try done; eauto.
Qed.

Lemma scalar_path data ps a more :
  row_scalar data ((ps ++ [TextBind a]) ++ more) (SPath (SParam (S (length ps)))) = path_text data a.
Proof.
  change (row_scalar data ((ps ++ [TextBind a]) ++ more) (SParam (S (length ps))) ≫= path_text data = path_text data a).
  by rewrite scalar_pushed.
Qed.

(** Pushing a list of strings: each placeholder reads its own string. *)
Lemma bmap_strings ss data ps es ps' :
  bmap (fun v => bindScalar colText (Some v)) (map JStr ss) ps = Ok (es, ps') ->
  (exists new, ps' = ps ++ new) /\ forall more, map (row_scalar data (ps' ++ more)) es = map Some ss.
Proof.
  revert ps es ps'. induction ss as [|s ss IH]; intros ps es ps'.
  - intros [= <- <-]. split; [exists []; by rewrite app_nil_r | done].
  - intros ([e ps1] & [= <- <-] & ([es1 ps2] & Hes & [= <- <-])%rbind_ok)%rbind_ok.
    destruct (IH _ _ _ Hes) as [[new ->] Hmap]. split; [exists ([TextBind s] ++ new); by rewrite app_assoc|].
    intros more. cbn [map]. rewrite Hmap. f_equal.
    rewrite <- (app_assoc (ps ++ [TextBind s])). apply scalar_pushed.
Qed.

Lemma in3_strings x ss :
  in3 String.eqb (Some x) (map Some ss) = Some (existsb (String.eqb x) ss).
Proof.
  unfold in3. induction ss as [|s ss IH]; simpl; [done|]. rewrite IH.
  destruct (String.eqb x s), (existsb (String.eqb x) ss); done.
Qed.

Lemma in3_null ss : in3 (V := string) String.eqb None (map Some ss) = match ss with [] => Some false | _ => None end.
Proof.
  induction ss as [|s ss IH]; [done|]. unfold in3 in *. cbn [map foldr]. rewrite IH. by destruct ss.
Qed.

Lemma arrayContains_strings ss x : arrayContains (map JStr ss) (JStr x) = existsb (String.eqb x) ss.
Proof.
  unfold arrayContains, jsonEqual. induction ss as [|s ss IH]; simpl; [done|].
  rewrite json_value_equal_str, IH, String.eqb_sym. done.
Qed.

Lemma forallb_is_string l : forallb is_string l = true -> exists ss, l = map JStr ss.
Proof.
  induction l as [|j l IH]; simpl; [by exists []|]. intros [Hj Hl]%andb_true_iff.
  destruct (IH Hl) as [ss ->]. destruct j; try done. by exists (s :: ss).
Qed.

(** Membership, on a field holding a string or nothing. *)
Lemma membership_denotes data a ss ps es ps' (negate : bool) :
  string_field data a = true -> ss <> [] ->
  bmap (fun v => bindScalar colText (Some v)) (map JStr ss) (ps ++ [TextBind a]) = Ok (es, ps') ->
  denotes data (matchOperator (if negate then OpNotIn else OpIn) (default JNull (data !! a)) (JArr (map JStr ss)))
    ps' (SIn negate (SPath (SParam (S (length ps)))) es).
Proof.
  intros Hs Hne Hes more b. destruct (bmap_strings ss data _ _ _ Hes) as [[new ->] Hmap].
  unfold row_holds. cbn [holds]. rewrite Hmap.
  replace (row_scalar data (((ps ++ [TextBind a]) ++ new) ++ more) (SPath (SParam (S (length ps)))))
    with (path_text data a) by (by rewrite <- app_assoc, scalar_path).
  destruct (string_field_cases data a Hs) as [(x & Hd & ->)|[Hd ->]].
  - rewrite Hd, in3_strings. cbn [default].
    destruct negate; intros [= <-];
      [change (negb (arrayContains (map JStr ss) (JStr x)) = negb (existsb (String.eqb x) ss))
      |change (arrayContains (map JStr ss) (JStr x) = existsb (String.eqb x) ss)];
      by rewrite arrayContains_strings.
  - rewrite in3_null. destruct ss; [done|]. by destruct negate.
Qed.

(** Equality, on a field holding a string or nothing. *)
Lemma equality_denotes data a t ps (negate : bool) :
  string_field data a = true ->
  denotes data (matchOperator (if negate then OpNeq else OpEq) (default JNull (data !! a)) (JStr t))
    ((ps ++ [TextBind a]) ++ [TextBind t])
    (SOp (if negate then "!=" else "=") (SPath (SParam (S (length ps)))) (SParam (S (length (ps ++ [TextBind a]))))).
Proof.
  intros Hs more b. unfold row_holds. cbn [holds].
  rewrite (scalar_pushed data (ps ++ [TextBind a]) (TextBind t) more).
  replace (row_scalar data (((ps ++ [TextBind a]) ++ [TextBind t]) ++ more) (SPath (SParam (S (length ps)))))
    with (path_text data a) by (by rewrite <- app_assoc, scalar_path).
  destruct (string_field_cases data a Hs) as [(x & Hd & ->)|[Hd ->]]; [|by destruct negate].
  rewrite Hd. cbn [default bind_text].
  destruct negate; intros [= <-];
    [change (negb (json_value_equal (JStr x) (JStr t)) = negb (String.eqb x t))
    |change (json_value_equal (JStr x) (JStr t) = String.eqb x t)]; by rewrite json_value_equal_str.
Qed.

Lemma leaf_denotes data ctx a o v lf ps e ps' :
  sql_exact data ctx (mkCond a o v lf None None) = true ->
  leaf_sql a o v lf ctx ps = Ok (e, ps') ->
  denotes data (condition_passes (Some (marshal_map data)) ctx (mkCond a o v lf None None)) ps' e.
Proof.
  cbn [sql_exact]. unfold leaf_sql. destruct (IsContextAttribute a) eqn:Hc.
  { intros _ [= <- <-] more b [= <-]. unfold condition_passes. cbn [EvaluateCondition].
    unfold resolveAttribute. unfold IsContextAttribute, HasPrefix in Hc.
    by destruct (CutPrefix a ContextAttributePrefix). }
  cbn [orb]. intros [[Hsp Hstr]%andb_true_iff Hex]%andb_true_iff. apply negb_true_iff in Hsp.
  destruct (HasPrefix a WorkflowAttributePrefix); [done|]. unfold field_leaf_sql.
  destruct (ContainsByte a ".") eqn:Hdot; [unfold fieldExpression; by rewrite Hdot|].
  rewrite plain_attribute by done. rewrite leaf_passes_plain, ResolveValue_resolveValue by done.
  unfold bbind at 1 2. cbn [Push bret rbind]. unfold exact_value in Hex.
  destruct (resolveValue v ctx) as [[| | |t|l|]|]; try done.
  - apply orb_true_iff in Hex as [->%String.eqb_eq| ->%String.eqb_eq]; intros [= <- <-];
      [apply (equality_denotes data a t ps false Hstr) | apply (equality_denotes data a t ps true Hstr)].
  - apply andb_true_iff in Hex as [Hop Hl]. apply forallb_is_string in Hl as [ss ->].
    destruct ss as [|s ss].
    { apply orb_true_iff in Hop as [->%String.eqb_eq| ->%String.eqb_eq]; intros [= <- <-] more b [= <-]; done. }
    apply orb_true_iff in Hop as [->%String.eqb_eq| ->%String.eqb_eq];
      intros ([es ps1] & Hes & [= <- <-])%rbind_ok;
      [apply (membership_denotes data a (s :: ss) ps es ps1 false) | apply (membership_denotes data a (s :: ss) ps es ps1 true)];
      done.
Qed.

Lemma bmap_denotes {A} (f : A -> Build sql) (passes : A -> bool) data l ps es ps' :
  (forall a, a ∈ l -> appends in_range_sql (f a)) ->
  (forall a ps e ps', a ∈ l -> f a ps = Ok (e, ps') -> denotes data (passes a) ps' e) ->
  bmap f l ps = Ok (es, ps') -> Forall2 (fun a e => denotes data (passes a) ps' e) l es.
Proof.
  intros Happ Hden. revert ps es. induction l as [|a l IH]; intros ps es; [by intros [= <- <-]; constructor|].
  intros ([e ps1] & He & ([es' ps2] & Hes & [= <- <-])%rbind_ok)%rbind_ok.
  assert (Hl : forall b, b ∈ l -> b ∈ a :: l) by (intros; by apply list_elem_of_further).
  destruct (appends_map f l (fun b Hb => Happ b (Hl b Hb)) _ _ _ Hes) as (new & -> & _).
  constructor; [apply denotes_mono; eapply Hden, He; apply list_elem_of_here|].
  apply (IH (fun b Hb => Happ b (Hl b Hb)) (fun b _ _ _ Hb => Hden b _ _ _ (Hl b Hb)) ps1 es' Hes).
Qed.

Lemma or_denotes {A} (passes : A -> bool) data l ps es :
  Forall2 (fun a e => denotes data (passes a) ps e) l es ->
  denotes data (existsb passes l) ps (SParen (SJoin COr es)).
Proof.
  intros Hall more. unfold row_holds. cbn [holds].
  induction Hall as [|a e l es Hd _ IH]; intros b; simpl; [by intros [= <-]|].
  specialize (Hd more). unfold row_holds in Hd.
  destruct (holds _ _ _ _ e) as [[]|]; [rewrite (Hd true) by done | rewrite (Hd false) by done |];
    destruct (foldr _ _ es) as [[]|]; simpl; intros [= <-]; rewrite ?(IH _ eq_refl), ?orb_true_r; done.
Qed.

Lemma and_denotes {A} (passes : A -> bool) data l ps es :
  Forall2 (fun a e => denotes data (passes a) ps e) l es ->
  denotes data (forallb passes l) ps (SParen (SJoin CAnd es)).
Proof.
  intros Hall more. unfold row_holds. cbn [holds].
  induction Hall as [|a e l es Hd _ IH]; intros b; simpl; [by intros [= <-]|].
  specialize (Hd more). unfold row_holds in Hd.
  destruct (holds _ _ _ _ e) as [[]|]; [rewrite (Hd true) by done | rewrite (Hd false) by done |];
    destruct (foldr _ _ es) as [[]|]; simpl; intros [= <-]; rewrite ?(IH _ eq_refl), ?andb_false_r; done.
Qed.

(** A definite answer of the fragment of a condition is the evaluator's. *)
Lemma ConditionToSQL_denotes data ctx c : forall ps e ps',
  sql_exact data ctx c = true -> ConditionToSQL c ctx ps = Ok (e, ps') ->
  denotes data (condition_passes (Some (marshal_map data)) ctx c) ps' e.
Proof.
  induction c as [a o v lf al an IHal IHan] using cond_nested_ind. intros ps e ps'.
  cbn [ConditionToSQL sql_exact].
  assert (Hgo : forall l es ps1, Forall (fun c => forall ps e ps', sql_exact data ctx c = true ->
      ConditionToSQL c ctx ps = Ok (e, ps') -> denotes data (condition_passes (Some (marshal_map data)) ctx c) ps' e) l ->
    forallb (sql_exact data ctx) l = true -> bmap (fun c => ConditionToSQL c ctx) l ps = Ok (es, ps1) ->
    Forall2 (fun c e => denotes data (condition_passes (Some (marshal_map data)) ctx c) ps1 e) l es).
  { intros l es ps1 Hl Hex. apply bmap_denotes; [intros; apply ConditionToSQL_appends|].
    intros c ps2 e2 ps3 Hin. rewrite Forall_forall in Hl. apply (Hl c Hin).
    rewrite forallb_forall in Hex. by apply Hex, list_elem_of_In. }
  destruct al as [l|].
  - intros Hex. rewrite condition_passes_all. destruct l as [|x l]; [by intros [= <- <-] more b [= <-]|].
    intros ([es ps1] & Hes & [= <- <-])%rbind_ok. eapply and_denotes, Hgo; [apply (IHal _ eq_refl) | done | exact Hes].
  - destruct an as [l|]; [|apply leaf_denotes].
    intros Hex. rewrite condition_passes_any. destruct l as [|x l]; [by intros [= <- <-] more b [= <-]|].
    intros ([es ps1] & Hes & [= <- <-])%rbind_ok. eapply or_denotes, Hgo; [apply (IHan _ eq_refl) | done | exact Hes].
Qed.

Definition row_exact (data : JsonObject) (ctx : RequestContext) (row : PolicyRow) : bool :=
  String.eqb (p_Subject row) "record"
  && match p_Condition row with Some c => sql_exact data ctx c | None => true end.

Definition gate_passed (ctx : RequestContext) (row : PolicyRow) : bool :=
  RoleGatePassed (p_Roles row) (p_HasRoles row) (roles_of ctx).

Lemma row_clause_denotes data ctx row ps e ps' :
  row_exact data ctx row = true -> gate_passed ctx row = true -> row_clause ctx row ps = Ok (e, ps') ->
  denotes data (EvaluatePolicyRow row ctx (Some (marshal_map data))) ps' e.
Proof.
  intros [Hsub%String.eqb_eq Hex]%andb_true_iff Hg. unfold row_clause, EvaluatePolicyRow.
  unfold gate_passed in Hg. rewrite Hg. cbn [negb].
  destruct (p_Condition row) as [c|]; [|by intros [= <- <-] more b [= <-]].
  unfold condition_subject. rewrite Hsub. by apply ConditionToSQL_denotes.
Qed.

(** The rows of one effect whose role gate the caller passes. *)
Definition gated (ctx : RequestContext) (eff : PolicyEffect) (rows : list PolicyRow) : list PolicyRow :=
  List.filter (fun r => bool_decide (p_Effect r = eff)) (List.filter (gate_passed ctx) rows).

Lemma gated_elem ctx eff rows r :
  r ∈ gated ctx eff rows <-> r ∈ rows /\ gate_passed ctx r = true /\ p_Effect r = eff.
Proof.
  unfold gated. rewrite list_elem_of_In, !filter_In, bool_decide_eq_true, <- list_elem_of_In. tauto.
Qed.

Lemma gated_matching data ctx eff rows :
  existsb (fun r => EvaluatePolicyRow r ctx (Some (marshal_map data))) (gated ctx eff rows)
  = matching_with_effect eff rows ctx (Some (marshal_map data)).
Proof.
  apply eq_iff_eq_true. rewrite existsb_elem, matching_with_effect_true. setoid_rewrite gated_elem. split.
  - naive_solver.
  - intros (p & Hin & Hev & He). exists p. split_and!; try done.
    unfold EvaluatePolicyRow in Hev. unfold gate_passed. by destruct (RoleGatePassed _ _ _).
Qed.

Lemma gated_clauses data ctx eff rows ps es ps' :
  forallb (row_exact data ctx) rows = true ->
  bmap (row_clause ctx) (gated ctx eff rows) ps = Ok (es, ps') ->
  denotes data (matching_with_effect eff rows ctx (Some (marshal_map data))) ps' (SParen (SJoin COr es)).
Proof.
  intros Hex Hes. rewrite <- gated_matching. apply or_denotes.
  eapply bmap_denotes; [intros; apply row_clause_appends| |exact Hes].
  intros r ps1 e ps2 (Hin & Hg & _)%gated_elem. apply row_clause_denotes; [|done].
  rewrite forallb_forall in Hex. by apply Hex, list_elem_of_In.
Qed.

(** A row of the table is visible to a list query. *)
Definition visible (data : JsonObject) (ps : list BindValue) (w : option sql) : Prop :=
  match w with None => True | Some e => row_holds data ps e = Some true end.

Lemma visible_rows_allowed s ctx data ps w ps' more :
  forallb (row_exact data ctx) (GetRecordPolicies s ActionRead) = true ->
  RecordPolicyWhereClause (GetRecordPolicies s ActionRead) ctx ps = Ok (w, ps') ->
  visible data (ps' ++ more) w ->
  CanPerformRecordCondition s ctx data ActionRead = Allowed.
Proof.
  intros Hex. unfold RecordPolicyWhereClause, CanPerformRecordCondition.
  set (rows := GetRecordPolicies s ActionRead) in *. rewrite orb_comm.
  destruct (IsAdmin ctx || (length rows =? 0)%nat); [done|].
  fold (gate_passed ctx). fold (gated ctx EffectAllow rows). fold (gated ctx EffectDeny rows).
  destruct (length (gated ctx EffectAllow rows) =? 0)%nat; [by intros [= <- <-]|].
  intros ([es ps1] & Hes & Hrest)%rbind_ok. pose proof (gated_clauses _ _ _ _ _ _ _ Hex Hes) as Hallow.
  rewrite EvaluatePolicies_spec. unfold policies_verdict.
  destruct (length (gated ctx EffectDeny rows) =? 0)%nat eqn:Hnd.
  - injection Hrest as <- <-. intros Hv. rewrite (Hallow _ _ Hv).
    rewrite <- gated_matching. apply Nat.eqb_eq, nil_length_inv in Hnd. by rewrite Hnd.
  - apply rbind_ok in Hrest as ([ds ps2] & Hds & [= <- <-]).
    pose proof (gated_clauses _ _ _ _ _ _ _ Hex Hds) as Hdeny.
    destruct (appends_map (row_clause ctx) _ (fun r _ => row_clause_appends ctx r) _ _ _ Hds) as (new & -> & _).
    apply (denotes_mono _ _ _ new) in Hallow. specialize (Hallow more). specialize (Hdeny more).
    unfold visible, row_holds in *. intros Hv.
    change (and3 (holds (row_scalar data ((ps1 ++ new) ++ more)) String.eqb str_ltb other (SParen (SJoin COr es)))
      (and3 (not3 (holds (row_scalar data ((ps1 ++ new) ++ more)) String.eqb str_ltb other (SParen (SJoin COr ds)))) (Some true))
      = Some true) in Hv.
    destruct (holds _ _ _ _ (SParen (SJoin COr ds))) as [[]|], (holds _ _ _ _ (SParen (SJoin COr es))) as [[]|]; try done.
    by rewrite (Hdeny false eq_refl), (Hallow true eq_refl).
Qed.

(** C6. Every row a list query returns is one the caller may read: when the
    record policies compare plain string fields with strings (equality and
    membership, in any combination of all, any, allow and deny, plus caller
    conditions), a row that satisfies the WHERE fragment, in SQL's
    three-valued logic and whatever is bound after it, is allowed by the
    evaluator that a single-record read uses. *)
Theorem listed_rows_are_readable s ctx data ps w ps' more :
  forallb (row_exact data ctx) (GetRecordPolicies s ActionRead) = true ->
  RecordPolicyWhereClause (GetRecordPolicies s ActionRead) ctx ps = Ok (w, ps') ->
  visible data (ps' ++ more) w ->
  CanPerformRecordCondition s ctx data ActionRead = Allowed.
Proof. apply visible_rows_allowed. Qed.
End Agreement.

(** A membership test against an empty list binds the field's name and
    then returns a constant that does not mention it: the finished query has a
    parameter no placeholder refers to. *)
Lemma empty_membership_orphans_parameter `{UuidLib} a ctx ps :
  special_column a = false -> ContainsByte a "." = false ->
  IsContextAttribute a = false -> HasPrefix a WorkflowAttributePrefix = false ->
  ConditionToSQL (AttributeCondition a OpIn (LiteralValue (JArr []))) ctx ps
    = Ok (SConst false, ps ++ [TextBind a]) /\
  ConditionToSQL (AttributeCondition a OpNotIn (LiteralValue (JArr []))) ctx ps
    = Ok (SConst true, ps ++ [TextBind a]).
Proof.
  intros Hs Hd Hc Hw. unfold AttributeCondition. cbn [ConditionToSQL]. unfold leaf_sql. rewrite Hc, Hw.
  unfold field_leaf_sql. rewrite plain_attribute by done. done.
Qed.

(** ** Witnesses and concrete divergences *)

Section Concrete.
#[local] Existing Instance TestUuid.

Definition owner_rule (id : @uuid TestUuid) (effect : PolicyEffect) (c : option PolicyCondition) : PolicyRow :=
  mkPolicyRow _ id "t1" "invoice" "read" "" "record" [] false c None effect.

Definition alice : RequestContext := mkRequestContext "uuid-t1" "uuid-alice" (Some ["clerk"]) true "" None "".

Definition own_or_open : list PolicyRow :=
  [owner_rule "p0" EffectAllow (Some (AttributeCondition "ownerId" OpEq (FromContextValue "userId")));
   owner_rule "p1" EffectDeny (Some (AttributeCondition "stage" OpIn (LiteralValue (JArr [JStr "sealed"]))))].

Definition alices_invoice : JsonObject := {["ownerId" := JStr "uuid-alice"; "stage" := JStr "open"]}.
Definition no_columns (c : string) : option string := None.
Definition no_other (e : sql) : option bool := None.

Definition own_clause : option sql * list BindValue :=
  Eval vm_compute in
    match RecordPolicyWhereClause own_or_open alice [] with Ok r => r | _ => (None, []) end.

Lemma listed_rows_are_readable_witness :
  CanPerformRecordCondition (PermissionSnapshotFromRows own_or_open) alice alices_invoice ActionRead = Allowed.
Proof.
  refine (listed_rows_are_readable no_columns json_text no_other (PermissionSnapshotFromRows own_or_open) alice
            alices_invoice [] own_clause.1 own_clause.2 [] _ _ _); vm_compute; reflexivity.
Defined.

Lemma RecordPolicyWhereClause_params_witness :
  exists new, own_clause.2 = [] ++ new /\
    forall e, own_clause.1 = Some e -> Forall (fun k => 1 <= k <= length own_clause.2)%nat (placeholders e).
Proof.
  refine (RecordPolicyWhereClause_params own_or_open alice [] own_clause.1 own_clause.2 _). vm_compute. reflexivity.
Defined.

Lemma empty_membership_orphans_parameter_witness :
  ConditionToSQL (AttributeCondition "teamId" OpIn (LiteralValue (JArr []))) alice [] = Ok (SConst false, [TextBind "teamId"]).
Proof. apply (empty_membership_orphans_parameter "teamId" alice []); reflexivity. Defined.

(** Visible in a list and refused by a read, for one set of policies. *)
Definition listed_but_refused (columns : string -> option string) (rows : list PolicyRow) (data : JsonObject) : Prop :=
  match RecordPolicyWhereClause rows alice [] with
  | Ok (w, ps) => visible columns json_text no_other data ps w
  | _ => False
  end /\
  CanPerformRecordCondition (PermissionSnapshotFromRows rows) alice data ActionRead = Forbidden.

(** Outside that fragment the two sides differ in the unsafe direction: a
    row is returned by a list query although reading it is refused. A deny on
    a number misses the same number spelled differently (the SQL compares
    texts); notIn against a value that is not a list is true in SQL and false
    in the evaluator; and createdBy names a column in SQL but a field of the
    record, which has none, in the evaluator. *)
Lemma list_filter_exceeds_evaluator :
  listed_but_refused no_columns
    [owner_rule "p0" EffectAllow None;
     owner_rule "p1" EffectDeny (Some (AttributeCondition "level" OpEq (LiteralValue (JNum "5"))))]
    {["level" := JNum "5.0"]} /\
  listed_but_refused no_columns
    [owner_rule "p0" EffectAllow (Some (AttributeCondition "stage" OpNotIn (LiteralValue (JStr "sealed"))))]
    {["stage" := JStr "sealed"]} /\
  listed_but_refused (fun c => if String.eqb c "created_by" then Some "uuid-alice" else None)
    [owner_rule "p0" EffectAllow (Some (AttributeCondition "createdBy" OpEq (FromContextValue "userId")))]
    {["stage" := JStr "open"]}.
Proof. split_and!; split; vm_compute; reflexivity. Qed.
End Concrete.
