(* ===== verification/Jql.v ===== *)
(** The JQL query language (src/go/query/jql_ast.go, jql_lexer.go,
    jql_parser.go, jql_codegen.go): tokens, the recursive-descent parser, and
    the compilation to SQL against an entity's metadata. The lexer works on the
    runes of the query; the parser's state is the tokens still to read, the
    last of which is never dropped. The loops and the recursion carry fuel;
    running out is [Panic], and a theorem shows it never happens with the fuel
    given. *)
From S2P Require Import Prelude GoStrings Json Condition Context Uuid Evaluate Metadata Sql.

Open Scope string_scope.
Open Scope list_scope.

(** ** AST (jql_ast.go) *)

Inductive jqlCompareOp : Type :=
| jqlOpEq | jqlOpNe | jqlOpGt | jqlOpGte | jqlOpLt | jqlOpLte | jqlOpContains | jqlOpNotContains.

Inductive jqlValue : Type :=
| jqlStrValue (s : string)
| jqlBoolValue (b : bool).

Inductive jqlExpr : Type :=
| jqlExprCompare (field : string) (op : jqlCompareOp) (value : jqlValue)
| jqlExprIn (field : string) (negate : bool) (values : list jqlValue)
| jqlExprIsEmpty (field : string) (negate : bool)
| jqlExprAnd (parts : list jqlExpr)
| jqlExprOr (parts : list jqlExpr)
| jqlExprNot (inner : jqlExpr).

Record jqlOrder : Type := mkOrder { o_field : string; o_descending : bool }.
Record parsedJql : Type := mkParsed { pj_expr : option jqlExpr; pj_orderBy : option jqlOrder }.

(** ** Lexer (jql_lexer.go) *)

Inductive jqlTokenKind : Type :=
| tokIdent | tokStr | tokNumber | tokLParen | tokRParen | tokComma
| tokEq | tokNe | tokGt | tokGte | tokLt | tokLte | tokTilde | tokNotTilde
| tokKwAnd | tokKwOr | tokKwNot | tokKwIn | tokKwIs | tokKwEmpty
| tokKwOrder | tokKwBy | tokKwAsc | tokKwDesc | tokKwTrue | tokKwFalse | tokEof.

#[export] Instance jqlTokenKind_eq_dec : EqDecision jqlTokenKind.
Proof. solve_decision. Defined.

Record jqlToken : Type := mkTok { kind : jqlTokenKind; text : string }.
Definition tok (k : jqlTokenKind) : jqlToken := mkTok k "".

Definition jqlKeyword (word : string) : option jqlTokenKind :=
  let w := ToUpper word in
  if String.eqb w "AND" then Some tokKwAnd
  else if String.eqb w "OR" then Some tokKwOr
  else if String.eqb w "NOT" then Some tokKwNot
  else if String.eqb w "IN" then Some tokKwIn
  else if String.eqb w "IS" then Some tokKwIs
  else if String.eqb w "EMPTY" then Some tokKwEmpty
  else if String.eqb w "ORDER" then Some tokKwOrder
  else if String.eqb w "BY" then Some tokKwBy
  else if String.eqb w "ASC" then Some tokKwAsc
  else if String.eqb w "DESC" then Some tokKwDesc
  else if String.eqb w "TRUE" then Some tokKwTrue
  else if String.eqb w "FALSE" then Some tokKwFalse
  else None.

Definition maxJqlLen : nat := 2000.

Definition jql_isDigit (c : N) : bool := is_digit c.
Definition jql_isAlpha (c : N) : bool := is_lower c || is_upper c.
Definition jql_isAlnum (c : N) : bool := jql_isAlpha c || jql_isDigit c.

(** The body of a string literal after its opening quote: its text, and the
    runes after the closing quote; [None] when it is not closed. *)
Fixpoint read_string (q : N) (rs : list N) (acc : list N) : option (string * list N) :=
  match rs with
  | [] => None
  | ch :: rest =>
    match rest with
    | c :: rest' =>
      if (ch =? rn backslash_char)%N then read_string q rest' (acc ++ [c])
      else if (ch =? q)%N then Some (of_runes acc, rest)
      else read_string q rest (acc ++ [ch])
    | [] => if (ch =? q)%N then Some (of_runes acc, rest) else None
    end
  end.

Fixpoint take_while (f : N -> bool) (rs : list N) : list N * list N :=
  match rs with
  | r :: rest => if f r then let '(w, t) := take_while f rest in (r :: w, t) else ([], rs)
  | [] => ([], [])
  end.

Definition next_is (c : ascii) (rs : list N) : bool :=
  match rs with r :: _ => (r =? rn c)%N | [] => false end.

Definition next_is_digit (rs : list N) : bool :=
  match rs with r :: _ => jql_isDigit r | [] => false end.

Definition jql_is_space (c : N) : bool :=
  (c =? 32)%N || (c =? 9)%N || (c =? 10)%N || (c =? 13)%N.

(** One token from a rune that is not a space, and the runes after it. *)
Definition lex_token (c : N) (rest : list N) : result QueryError (jqlToken * list N) :=
  let one k := Ok (tok k, rest) in
  let two k := Ok (tok k, drop 1 rest) in
  if (c =? rn "(")%N then one tokLParen
  else if (c =? rn ")")%N then one tokRParen
  else if (c =? rn ",")%N then one tokComma
  else if (c =? rn "=")%N then one tokEq
  else if (c =? rn "!")%N then
    if next_is "=" rest then two tokNe
    else if next_is "~" rest then two tokNotTilde
    else Err (InvalidJql "Unexpected '!' (expected '!=' or '!~')")
  else if (c =? rn ">")%N then if next_is "=" rest then two tokGte else one tokGt
  else if (c =? rn "<")%N then if next_is "=" rest then two tokLte else one tokLt
  else if (c =? rn "~")%N then one tokTilde
  else if (c =? rn "'")%N || (c =? rn quote_char)%N then
    match read_string c rest [] with
    | Some (s, rest') => Ok (mkTok tokStr s, rest')
    | None => Err (InvalidJql "Unterminated string literal")
    end
  else if jql_isDigit c || ((c =? rn "-")%N && next_is_digit rest) then
    let '(w, rest') := take_while (fun r => jql_isDigit r || (r =? rn ".")%N) rest in
    Ok (mkTok tokNumber (of_runes (c :: w)), rest')
  else if jql_isAlpha c || (c =? rn "_")%N then
    let '(w, rest') := take_while (fun r => jql_isAlnum r || (r =? rn "_")%N) rest in
    let word := of_runes (c :: w) in
    Ok (match jqlKeyword word with Some k => tok k | None => mkTok tokIdent word end, rest')
  else Err (InvalidJql ("Unexpected character '" +:+ encode_rune c +:+ "'")).

Fixpoint lex (fuel : nat) (rs : list N) : result QueryError (list jqlToken) :=
  match rs with
  | [] => Ok [tok tokEof]
  | c :: rest =>
    match fuel with
    | O => Panic
    | S fuel' =>
      if jql_is_space c then lex fuel' rest
      else let! (t, rest') := lex_token c rest in
           let! ts := lex fuel' rest' in
           Ok (t :: ts)
    end
  end.

Definition jqlTokenize (input : string) : result QueryError (list jqlToken) :=
  if (maxJqlLen <? String.length input)%nat then
    Err (InvalidJql ("Query too long (max " +:+ Itoa maxJqlLen +:+ " characters)"))
  else let rs := runes input in lex (length rs) rs.

(** ** Parser (jql_parser.go) *)

Definition parser (A : Type) : Type := list jqlToken -> result QueryError (A * list jqlToken).

Definition pret {A} (a : A) : parser A := fun ts => Ok (a, ts).
Definition perr {A} (m : string) : parser A := fun _ => Err (InvalidJql m).
Definition pbind {A B} (m : parser A) (k : A -> parser B) : parser B :=
  fun ts => let! (a, ts') := m ts in k a ts'.

Notation "'let-' x := c 'in' k" := (pbind c (fun x => k))
  (at level 10, x pattern, c at level 200, k at level 200) : go_scope.

Definition peek : parser jqlToken := fun ts =>
  match ts with t :: _ => Ok (t, ts) | [] => Panic end.

Definition advance : parser jqlToken := fun ts =>
  match ts with
  | [t] => Ok (t, [t])
  | t :: ts' => Ok (t, ts')
  | [] => Panic
  end.

Definition eat (k : jqlTokenKind) : parser bool :=
  let- t := peek in
  if bool_decide (kind t = k) then let- _ := advance in pret true else pret false.

Definition expect (k : jqlTokenKind) (what : string) : parser unit :=
  let- ok := eat k in if (ok : bool) then pret tt else perr ("Expected " +:+ what).

Definition expectIdent : parser string :=
  let- t := advance in
  if bool_decide (kind t = tokIdent) then pret (text t) else perr "Expected a field name".

Definition parseValue : parser jqlValue :=
  let- t := advance in
  match kind t with
  | tokStr | tokNumber => pret (jqlStrValue (text t))
  | tokKwTrue => pret (jqlBoolValue true)
  | tokKwFalse => pret (jqlBoolValue false)
  | _ => perr "Expected a value (string, number, true, or false)"
  end.

(** for p.eat(sep) { next; append }, at most [n] times. *)
Fixpoint sep_loop {A} (sep : jqlTokenKind) (item : parser A) (n : nat) (acc : list A) : parser (list A) :=
  match n with
  | O => fun _ => Panic
  | S n' =>
    let- more := eat sep in
    if (more : bool) then let- a := item in sep_loop sep item n' (acc ++ [a]) else pret acc
  end.

(** The item, then the loop; the tokens left bound its iterations. *)
Definition sep_list {A} (sep : jqlTokenKind) (item : parser A) : parser (list A) :=
  let- first := item in
  fun ts => sep_loop sep item (S (length ts)) [first] ts.

Definition parseValueList : parser (list jqlValue) :=
  let- _ := expect tokLParen "`(` after `IN`" in
  let- values := sep_list tokComma parseValue in
  let- _ := expect tokRParen "`)` to close the value list" in
  pret values.

Definition cmp_op (k : jqlTokenKind) : option jqlCompareOp :=
  match k with
  | tokEq => Some jqlOpEq
  | tokNe => Some jqlOpNe
  | tokGt => Some jqlOpGt
  | tokGte => Some jqlOpGte
  | tokLt => Some jqlOpLt
  | tokLte => Some jqlOpLte
  | tokTilde => Some jqlOpContains
  | tokNotTilde => Some jqlOpNotContains
  | _ => None
  end.

Definition parseComparison : parser jqlExpr :=
  let- field := expectIdent in
  let- t := advance in
  match cmp_op (kind t) with
  | Some op => let- v := parseValue in pret (jqlExprCompare field op v)
  | None =>
    match kind t with
    | tokKwIn => let- values := parseValueList in pret (jqlExprIn field false values)
    | tokKwNot =>
      let- _ := expect tokKwIn "`IN` after `NOT`" in
      let- values := parseValueList in pret (jqlExprIn field true values)
    | tokKwIs =>
      let- negate := eat tokKwNot in
      let- _ := expect tokKwEmpty "`EMPTY` after `IS`" in
      pret (jqlExprIsEmpty field negate)
    | _ => perr ("Expected an operator after field `" +:+ field +:+ "`")
    end
  end.

Definition one_or (wrap : list jqlExpr -> jqlExpr) (parts : list jqlExpr) : jqlExpr :=
  match parts with [e] => e | _ => wrap parts end.

(** The levels of the grammar over the parser of the NOT level. *)
Definition parseAnd_over (parseNot : parser jqlExpr) : parser jqlExpr :=
  let- parts := sep_list tokKwAnd parseNot in pret (one_or jqlExprAnd parts).

Definition parseOr_over (parseNot : parser jqlExpr) : parser jqlExpr :=
  let- parts := sep_list tokKwOr (parseAnd_over parseNot) in pret (one_or jqlExprOr parts).

Definition parsePrimary_over (parseNot : parser jqlExpr) : parser jqlExpr :=
  let- paren := eat tokLParen in
  if (paren : bool) then
    let- e := parseOr_over parseNot in
    let- _ := expect tokRParen "`)`" in
    pret e
  else parseComparison.

Fixpoint parseNot (fuel : nat) : parser jqlExpr :=
  match fuel with
  | O => fun _ => Panic
  | S fuel' =>
    let- isNot := eat tokKwNot in
    if (isNot : bool) then let- inner := parseNot fuel' in pret (jqlExprNot inner)
    else parsePrimary_over (parseNot fuel')
  end.

Definition parseOr (fuel : nat) : parser jqlExpr := parseOr_over (parseNot fuel).

Definition parse_order : parser (option jqlOrder) :=
  let- isOrder := eat tokKwOrder in
  if (isOrder : bool) then
    let- _ := expect tokKwBy "`BY` after `ORDER`" in
    let- field := expectIdent in
    let- desc := eat tokKwDesc in
    if (desc : bool) then pret (Some (mkOrder field true))
    else let- _ := eat tokKwAsc in pret (Some (mkOrder field false))
  else pret None.

Definition parse_filter (fuel : nat) : parser (option jqlExpr) :=
  let- t := peek in
  if bool_decide (kind t = tokKwOrder) || bool_decide (kind t = tokEof) then pret None
  else let- e := parseOr fuel in pret (Some e).

Definition parseQuery (fuel : nat) : parser parsedJql :=
  let- expr := parse_filter fuel in
  let- orderBy := parse_order in
  let- t := peek in
  if bool_decide (kind t = tokEof) then pret (mkParsed expr orderBy)
  else perr "Unexpected trailing input".

(** ** Code generation (jql_codegen.go) *)

Inductive jqlFieldType : Type :=
| jqlFieldText | jqlFieldNumber | jqlFieldMoney | jqlFieldBoolean | jqlFieldDate | jqlFieldDatetime | jqlFieldUUID.

#[export] Instance jqlFieldType_eq_dec : EqDecision jqlFieldType.
Proof. solve_decision. Defined.

Definition jqlCastSuffix (t : jqlFieldType) : string :=
  match t with
  | jqlFieldNumber => "::double precision"
  | jqlFieldMoney => "::numeric"
  | jqlFieldBoolean => "::boolean"
  | jqlFieldDate => "::date"
  | jqlFieldDatetime => "::timestamptz"
  | jqlFieldUUID => "::uuid"
  | jqlFieldText => ""
  end.

Definition jql_field_type (k : FieldKind) : jqlFieldType :=
  if String.eqb k KindString || String.eqb k KindEnum || String.eqb k KindJSON then jqlFieldText
  else if String.eqb k KindNumber then jqlFieldNumber
  else if String.eqb k KindMoney then jqlFieldMoney
  else if String.eqb k KindBoolean then jqlFieldBoolean
  else if String.eqb k KindDate then jqlFieldDate
  else if String.eqb k KindDatetime then jqlFieldDatetime
  else if String.eqb k KindReference || String.eqb k KindID then jqlFieldUUID
  else jqlFieldText.

Definition find_field (entity : EntityDefinition) (name : string) : option EntityField :=
  List.find (fun f => String.eqb (f_Name f) name) (e_Fields entity).

Section Codegen.
Context `{UuidLib}.

Definition resolveJqlField (fieldName : string) (entity : EntityDefinition) : Build (sql * jqlFieldType) :=
  if String.eqb fieldName "createdAt" then bret (SCol "created_at", jqlFieldDatetime)
  else if String.eqb fieldName "updatedAt" then bret (SCol "updated_at", jqlFieldDatetime)
  else match find_field entity fieldName with
  | None => bfail (InvalidJql ("Unknown field: " +:+ fieldName))
  | Some field =>
    let ftype := jql_field_type (f_Kind field) in
    if FieldHasRealColumn field then bret (SQuoted fieldName, ftype)
    else let+ ph := Push (TextBind fieldName) in bret (SPath ph, ftype)
  end.

Definition validateJqlOp (op : jqlCompareOp) (ftype : jqlFieldType) : bool :=
  match op with
  | jqlOpEq | jqlOpNe => true
  | jqlOpGt | jqlOpGte | jqlOpLt | jqlOpLte =>
    bool_decide (ftype = jqlFieldNumber) || bool_decide (ftype = jqlFieldMoney)
    || bool_decide (ftype = jqlFieldDate) || bool_decide (ftype = jqlFieldDatetime)
  | jqlOpContains | jqlOpNotContains => bool_decide (ftype = jqlFieldText)
  end.

Definition jqlValueToBindText (v : jqlValue) : string :=
  match v with jqlBoolValue b => FormatBool b | jqlStrValue s => s end.

Definition ilike_rune (c : N) : string :=
  if (c =? rn backslash_char)%N || (c =? rn "%")%N || (c =? rn "_")%N
  then str1 backslash_char +:+ encode_rune c else encode_rune c.

Definition jqlIlikePattern (value : string) : string :=
  "%" +:+ String.concat "" (map ilike_rune (runes value)) +:+ "%".

Definition jql_op_text (op : jqlCompareOp) : string :=
  match op with
  | jqlOpEq => "="
  | jqlOpNe => "!="
  | jqlOpGt => ">"
  | jqlOpGte => ">="
  | jqlOpLt => "<"
  | _ => "<="
  end.

Definition jql_lhs (base : sql) (ftype : jqlFieldType) : sql := SCast (SParen base) (jqlCastSuffix ftype).

Definition compile_compare (entity : EntityDefinition) (field : string) (op : jqlCompareOp) (value : jqlValue) : Build sql :=
  let+ (base, ftype) := resolveJqlField field entity in
  if negb (validateJqlOp op ftype) then bfail (InvalidJql ("Operator not supported on field `" +:+ field +:+ "`"))
  else
    let lhs := jql_lhs base ftype in
    match op with
    | jqlOpContains | jqlOpNotContains =>
      match value with
      | jqlBoolValue _ => bfail (InvalidJql ("`~`/`!~` need a string value for field `" +:+ field +:+ "`"))
      | jqlStrValue s =>
        let+ ph := Push (TextBind (jqlIlikePattern s)) in
        bret (SParen (SOp (match op with jqlOpContains => "ILIKE" | _ => "NOT ILIKE" end) lhs ph))
      end
    | _ =>
      let+ ph := Push (TextBind (jqlValueToBindText value)) in
      bret (SParen (SOp (jql_op_text op) lhs (SCast ph (jqlCastSuffix ftype))))
    end.

Definition compile_in (entity : EntityDefinition) (field : string) (negate : bool) (values : list jqlValue) : Build sql :=
  if (length values =? 0)%nat then bfail (InvalidJql ("`IN`/`NOT IN` needs at least one value for field `" +:+ field +:+ "`"))
  else
    let+ (base, ftype) := resolveJqlField field entity in
    let+ phs := bmap (fun v => let+ ph := Push (TextBind (jqlValueToBindText v)) in bret (SCast ph (jqlCastSuffix ftype))) values in
    bret (SParen (SIn negate (jql_lhs base ftype) phs)).

Definition compile_empty (entity : EntityDefinition) (field : string) (negate : bool) : Build sql :=
  let+ (base, ftype) := resolveJqlField field entity in
  bret (SParen (SIsNull negate (jql_lhs base ftype))).

Fixpoint compileJqlExpr (entity : EntityDefinition) (expr : jqlExpr) : Build sql :=
  match expr with
  | jqlExprAnd parts => let+ l := bmap (compileJqlExpr entity) parts in bret (SParen (SJoin CAnd l))
  | jqlExprOr parts => let+ l := bmap (compileJqlExpr entity) parts in bret (SParen (SJoin COr l))
  | jqlExprNot inner => let+ s := compileJqlExpr entity inner in bret (SParen (SNot s))
  | jqlExprIsEmpty field negate => compile_empty entity field negate
  | jqlExprCompare field op value => compile_compare entity field op value
  | jqlExprIn field negate values => compile_in entity field negate values
  end.

Definition isJqlSortable (fieldName : string) (entity : EntityDefinition) : bool :=
  if String.eqb fieldName "createdAt" || String.eqb fieldName "updatedAt" then true
  else existsb (fun f => String.eqb (f_Name f) fieldName && boolVal (f_Sortable f)) (e_Fields entity).

(** The WHERE fragment, when the query has a filter, and its ORDER BY. *)
Definition ParseAndCompileJQL (jql : string) (entity : EntityDefinition) : Build (option sql * option jqlOrder) := fun ps =>
  let! tokens := jqlTokenize jql in
  let! (parsed, _) := parseQuery (S (length tokens)) tokens in
  let! (w, ps') := match pj_expr parsed with
                   | Some e => (let+ s := compileJqlExpr entity e in bret (Some s)) ps
                   | None => Ok (None, ps)
                   end in
  match pj_orderBy parsed with
  | Some o => if isJqlSortable (o_field o) entity then Ok ((w, Some o), ps')
              else Err (InvalidJql ("Field `" +:+ o_field o +:+ "` is not sortable"))
  | None => Ok ((w, None), ps')
  end.
End Codegen.

(** ** The lexer and the parser always answer *)

Lemma take_while_length f rs : (length (take_while f rs).2 <= length rs)%nat.
Proof.
  induction rs as [|r rs IH]; simpl; [done|]. destruct (f r); [|done].
  destruct (take_while f rs). simpl in *. lia.
Qed.

Lemma read_string_cons q ch c rs acc :
  read_string q (ch :: c :: rs) acc =
  if (ch =? rn backslash_char)%N then read_string q rs (acc ++ [c])
  else if (ch =? q)%N then Some (of_runes acc, c :: rs)
  else read_string q (c :: rs) (acc ++ [ch]).
Proof. done. Qed.

Lemma read_string_length q n : forall rs acc s rest,
  (length rs <= n)%nat -> read_string q rs acc = Some (s, rest) -> (length rest <= length rs)%nat.
Proof.
  induction n as [|n IH]; intros rs acc s rest Hn; destruct rs as [|ch [|c rs]]; try done; simpl in Hn; try lia.
  - simpl. destruct (ch =? q)%N; [|done]. intros [= _ <-]. simpl. lia.
  - rewrite read_string_cons. destruct (ch =? rn backslash_char)%N.
    + intros Hr. apply IH in Hr; simpl in *; lia.
    + destruct (ch =? q)%N; [intros [= _ <-]; simpl; lia|].
      intros Hr. apply IH in Hr; simpl in *; lia.
Qed.

Lemma lex_token_answers c rest :
  match lex_token c rest with
  | Ok (t, rest') => (length rest' <= length rest)%nat
  | Err _ => True
  | Panic => False
  end.
Proof.
  unfold lex_token.
  repeat (match goal with |- context [if ?b then _ else _] => destruct b end;
          try done; try (rewrite length_drop; lia)).
  - destruct (read_string c rest []) as [[s rest']|] eqn:E; [|done].
    eapply read_string_length; [|exact E]. done.
  - pose proof (take_while_length (fun r => jql_isDigit r || (r =? rn ".")%N) rest) as Hl.
    destruct (take_while _ rest). exact Hl.
  - pose proof (take_while_length (fun r => jql_isAlnum r || (r =? rn "_")%N) rest) as Hl.
    destruct (take_while _ rest). exact Hl.
Qed.

(** The tokens of a query end with the end-of-input token. *)
Definition ends_eof (ts : list jqlToken) : Prop := exists ts0 t, ts = ts0 ++ [t] /\ kind t = tokEof.

Lemma ends_eof_cons t ts : ends_eof ts -> ends_eof (t :: ts).
Proof. intros (ts0 & e & -> & He). by exists (t :: ts0), e. Qed.

Lemma ends_eof_tail t t' ts : ends_eof (t :: t' :: ts) -> ends_eof (t' :: ts).
Proof.
  intros (ts0 & e & Heq & He). destruct ts0 as [|x ts0]; [done|]. injection Heq as -> Heq.
  exists ts0, e. by rewrite Heq.
Qed.

Lemma lex_answers fuel rs :
  (length rs <= fuel)%nat ->
  match lex fuel rs with Ok ts => ends_eof ts | Err _ => True | Panic => False end.
Proof.
  revert rs. induction fuel as [|fuel IH]; intros [|c rest] Hn; simpl in *; try lia;
    try (by exists [], (tok tokEof)).
  destruct (jql_is_space c); [apply IH; lia|].
  pose proof (lex_token_answers c rest) as Ht. destruct (lex_token c rest) as [[t rest']| |]; simpl; [|done..].
  specialize (IH rest' ltac:(lia)). destruct (lex fuel rest') as [ts| |]; simpl; [|done..].
  by apply ends_eof_cons.
Qed.

(** A parser that, on at most [n] tokens, answers and never grows its input. *)
Definition answers {A} (n : nat) (m : parser A) : Prop := forall ts,
  ends_eof ts -> (length ts <= n)%nat ->
  match m ts with
  | Ok (_, ts') => ends_eof ts' /\ (length ts' <= length ts)%nat
  | Err _ => True
  | Panic => False
  end.

Create HintDb jql.

Lemma answers_ret {A} n (a : A) : answers n (pret a).
Proof. intros ts He Hl. by split. Qed.

Lemma answers_err {A} n m : answers (A := A) n (perr m).
Proof. done. Qed.

Lemma answers_bind {A B} n (m : parser A) (k : A -> parser B) :
  answers n m -> (forall a, answers n (k a)) -> answers n (pbind m k).
Proof.
  intros Hm Hk ts He Hl. unfold pbind. specialize (Hm ts He Hl).
  destruct (m ts) as [[a ts1]| |]; simpl; [|done..]. destruct Hm as [He1 Hl1].
  specialize (Hk a ts1 He1 ltac:(lia)). destruct (k a ts1) as [[b ts2]| |]; [|done..].
  destruct Hk. split; [done|]. lia.
Qed.

Lemma answers_peek n : answers n peek.
Proof. intros ts He Hl. destruct ts as [|t ts]; [by destruct He as ([|] & ? & ? & ?)|]. by split. Qed.

Lemma answers_advance n : answers n advance.
Proof.
  intros ts He Hl. destruct ts as [|t [|t' ts]]; simpl.
  - by destruct He as ([|] & ? & ? & ?).
  - by split.
  - split; [by eapply ends_eof_tail | lia].
Qed.

Lemma answers_if {A} n (b : bool) (m1 m2 : parser A) : answers n m1 -> answers n m2 -> answers n (if b then m1 else m2).
Proof. by destruct b. Qed.

#[export] Hint Resolve answers_ret answers_err answers_bind answers_peek answers_advance answers_if : jql.

Lemma answers_eat n k : answers n (eat k).
Proof. unfold eat. auto 6 with jql. Qed.
#[export] Hint Resolve answers_eat : jql.

Lemma answers_expect n k w : answers n (expect k w).
Proof. unfold expect. auto 6 with jql. Qed.

Lemma answers_expectIdent n : answers n expectIdent.
Proof. unfold expectIdent. auto 6 with jql. Qed.

Lemma answers_parseValue n : answers n parseValue.
Proof. unfold parseValue. apply answers_bind; [auto with jql|]. intros t. destruct (kind t); auto with jql. Qed.
#[export] Hint Resolve answers_expect answers_expectIdent answers_parseValue : jql.

(** Eating a token other than the end of input shortens what is left. *)
Lemma eat_shrinks k ts ts' :
  k <> tokEof -> ends_eof ts -> eat k ts = Ok (true, ts') -> (length ts' < length ts)%nat /\ ends_eof ts'.
Proof.
  intros Hk He. destruct ts as [|t [|t' ts]]; [by destruct He as ([|] & ? & ? & ?)| |].
  - destruct He as (ts0 & e & Heq & Hke). destruct ts0 as [|? [|]]; try done. injection Heq as ->.
    unfold eat, pbind. simpl. rewrite Hke. by rewrite bool_decide_eq_false_2.
  - unfold eat, pbind. simpl. case_bool_decide; [|done]. intros [= <-]. simpl. split; [lia|].
    by eapply ends_eof_tail.
Qed.

Lemma answers_after_eat {A} n k (m1 m2 : parser A) :
  k <> tokEof -> (forall n', n = S n' -> answers n' m1) -> answers n m2 ->
  answers n (pbind (eat k) (fun b : bool => if b then m1 else m2)).
Proof.
  intros Hk H1 H2 ts He Hl. unfold pbind. pose proof (answers_eat n k ts He Hl) as Ha.
  destruct (eat k ts) as [[[] ts1]| |] eqn:E; simpl; [| |done..].
  - apply eat_shrinks in E as [Hlt He1]; [|done..]. destruct n as [|n']; [lia|].
    specialize (H1 n' eq_refl ts1 He1 ltac:(lia)). destruct (m1 ts1) as [[a ts2]| |]; [|done..].
    destruct H1. split; [done|lia].
  - destruct Ha as [He1 Hl1]. specialize (H2 ts1 He1 ltac:(lia)). destruct (m2 ts1) as [[a ts2]| |]; [|done..].
    destruct H2. split; [done|lia].
Qed.

Lemma answers_mono {A} n n' (m : parser A) : (n' <= n)%nat -> answers n m -> answers n' m.
Proof. intros Hle Hm ts He Hl. apply Hm; [done|lia]. Qed.

Lemma sep_loop_answers {A} sep (item : parser A) k : forall n acc,
  sep <> tokEof -> (n < k)%nat -> answers n item -> answers n (sep_loop sep item k acc).
Proof.
  induction k as [|k IH]; intros n acc Hsep Hlt Hi; [lia|]. cbn [sep_loop].
  apply answers_after_eat; [done| |auto with jql]. intros n' ->.
  assert (answers n' item) by (eapply answers_mono; [|exact Hi]; lia).
  apply answers_bind; [done|]. intros a. apply IH; [done|lia|done].
Qed.

Lemma answers_sep_list {A} n sep (item : parser A) :
  sep <> tokEof -> answers n item -> answers n (sep_list sep item).
Proof.
  intros Hsep Hi. unfold sep_list. apply answers_bind; [done|]. intros first ts He Hl.
  assert (Hit : answers (length ts) item) by (eapply answers_mono; [|exact Hi]; done).
  apply (sep_loop_answers sep item (S (length ts)) (length ts) [first] Hsep ltac:(lia) Hit ts He). done.
Qed.

Lemma answers_parseValueList n : answers n parseValueList.
Proof.
  unfold parseValueList. apply answers_bind; [auto with jql|]. intros _.
  apply answers_bind; [apply answers_sep_list; auto with jql; done|]. auto with jql.
Qed.
#[export] Hint Resolve answers_parseValueList : jql.

Lemma answers_parseComparison n : answers n parseComparison.
Proof.
  unfold parseComparison. apply answers_bind; [auto with jql|]. intros f.
  apply answers_bind; [auto with jql|]. intros t. destruct (cmp_op (kind t)); [auto with jql|].
  destruct (kind t); auto 7 with jql.
Qed.

Lemma answers_parseAnd_over n pn : answers n pn -> answers n (parseAnd_over pn).
Proof. intros Hp. unfold parseAnd_over. apply answers_bind; [by apply answers_sep_list|auto with jql]. Qed.

Lemma answers_parseOr_over n pn : answers n pn -> answers n (parseOr_over pn).
Proof.
  intros Hp. unfold parseOr_over. apply answers_bind; [|auto with jql].
  apply answers_sep_list; [done|]. by apply answers_parseAnd_over.
Qed.

Lemma answers_parseNot fuel : answers fuel (parseNot fuel).
Proof.
  induction fuel as [|fuel IH]; [intros [|] He Hl; [by destruct He as ([|] & ? & ? & ?) | simpl in Hl; lia]|].
  cbn [parseNot]. apply answers_after_eat; [done| |].
  - intros n' [= <-]. auto with jql.
  - apply answers_after_eat; [done| |apply answers_parseComparison].
    intros n' [= <-]. apply answers_bind; [by apply answers_parseOr_over|auto with jql].
Qed.

Lemma answers_parseQuery fuel : answers fuel (parseQuery fuel).
Proof.
  unfold parseQuery, parse_filter, parse_order, parseOr.
  assert (answers fuel (parseOr_over (parseNot fuel))) by (apply answers_parseOr_over, answers_parseNot).
  apply answers_bind; [auto 8 with jql|]. intros expr. apply answers_bind; [auto 12 with jql|]. auto 8 with jql.
Qed.

(** ** Code generation: parameters and vocabulary *)

Section JqlInd.
Variable P : jqlExpr -> Prop.
Hypothesis Hcompare : forall f op v, P (jqlExprCompare f op v).
Hypothesis Hin : forall f n vs, P (jqlExprIn f n vs).
Hypothesis Hempty : forall f n, P (jqlExprIsEmpty f n).
Hypothesis Hand : forall l, Forall P l -> P (jqlExprAnd l).
Hypothesis Hor : forall l, Forall P l -> P (jqlExprOr l).
Hypothesis Hnot : forall e, P e -> P (jqlExprNot e).

Fixpoint jql_nested_ind (e : jqlExpr) : P e :=
  let go := fix go (l : list jqlExpr) : Forall P l :=
    match l with
    | [] => Forall_nil_2 P
    | x :: l' => Forall_cons_2 P x l' (jql_nested_ind x) (go l')
    end in
  match e with
  | jqlExprCompare f op v => Hcompare f op v
  | jqlExprIn f n vs => Hin f n vs
  | jqlExprIsEmpty f n => Hempty f n
  | jqlExprAnd l => Hand l (go l)
  | jqlExprOr l => Hor l (go l)
  | jqlExprNot e => Hnot e (jql_nested_ind e)
  end.
End JqlInd.

Section CodegenProperties.
Context `{UuidLib} (entity : EntityDefinition).

(** Everything the compiler writes besides placeholders and quoted columns. *)
Definition jql_vocabulary : list string :=
  ["created_at"; "updated_at"; "="; "!="; ">"; ">="; "<"; "<="; "ILIKE"; "NOT ILIKE";
   ""; "::double precision"; "::numeric"; "::boolean"; "::date"; "::timestamptz"; "::uuid"].

Definition safe_name (n : string) : Prop :=
  n ∈ jql_vocabulary \/ exists f, f ∈ e_Fields entity /\ f_Name f = n /\ FieldHasRealColumn f = true.

(** The placeholders are bound, and the text has only known words. *)
Definition safe_sql (e : sql) (n : nat) : Prop := in_range_sql e n /\ Forall safe_name (names e).

Lemma in_vocabulary n : bool_decide (n ∈ jql_vocabulary) = true -> safe_name n.
Proof. intros Hb. left. by apply bool_decide_eq_true in Hb. Qed.

Lemma jqlCastSuffix_safe t : safe_name (jqlCastSuffix t).
Proof. apply in_vocabulary. by destruct t. Qed.

Lemma jql_op_text_safe op : safe_name (jql_op_text op).
Proof. apply in_vocabulary. by destruct op. Qed.

Lemma safe_mono e n m : safe_sql e n -> (n <= m)%nat -> safe_sql e m.
Proof. intros [Hr Hn] Hle. split; [|done]. by apply (in_range_mono e n). Qed.

Lemma push_safe v : appends safe_sql (Push v).
Proof.
  intros ps a ps' Hp. destruct (appends_push v ps a ps' Hp) as (new & -> & Hr). exists new.
  split; [done|]. split; [done|]. injection Hp as <- _. constructor.
Qed.

Lemma resolve_safe field : appends (fun x n => safe_sql x.1 n) (resolveJqlField field entity).
Proof.
  unfold resolveJqlField.
  destruct (String.eqb field "createdAt"); [apply appends_ret; intros n; split; constructor; [by apply in_vocabulary|constructor]|].
  destruct (String.eqb field "updatedAt"); [apply appends_ret; intros n; split; constructor; [by apply in_vocabulary|constructor]|].
  destruct (find_field entity field) as [f|] eqn:E; [|apply appends_fail].
  apply find_some in E as [Hin Hn%String.eqb_eq]. destruct (FieldHasRealColumn f) eqn:Hc.
  - apply appends_ret. intros n. split; [constructor|]. constructor; [|constructor]. right.
    exists f. split_and!; [by apply list_elem_of_In|done|done].
  - eapply appends_bind; [apply push_safe|]. intros ph ps b ps' Hph [= <- <-]. exists []. by rewrite app_nil_r.
Qed.

Lemma lhs_safe base t n : safe_sql base n -> safe_sql (jql_lhs base t) n.
Proof.
  intros [Hr Hn]. split; [done|]. simpl. apply Forall_app. split; [done|].
  constructor; [apply jqlCastSuffix_safe|constructor].
Qed.

Lemma op_safe op a b n : safe_name op -> safe_sql a n -> safe_sql b n -> safe_sql (SParen (SOp op a b)) n.
Proof.
  intros Ho [Ha Hna] [Hb Hnb]. split; [by apply Forall_app|]. simpl. constructor; [done|]. by apply Forall_app.
Qed.

(** Pushing one value and closing the fragment with it. *)
Lemma push_then_safe v (k : sql -> sql) ps b ps' :
  (forall ph n, safe_sql ph n -> (length ps <= n)%nat -> safe_sql (k ph) n) ->
  bbind (Push v) (fun ph => bret (k ph)) ps = Ok (b, ps') -> exists new, ps' = ps ++ new /\ safe_sql b (length ps').
Proof.
  intros Hk ([ph ps1] & Hp & [= <- <-])%rbind_ok. destruct (push_safe v _ _ _ Hp) as (new & -> & Hs).
  exists new. split; [done|]. apply Hk; [done|]. rewrite length_app. lia.
Qed.

Lemma compile_compare_safe field op value : appends safe_sql (compile_compare entity field op value).
Proof.
  eapply appends_bind; [apply resolve_safe|]. intros [base t] ps b ps' Hb Hk. simpl in Hb, Hk.
  destruct (validateJqlOp op t); [|done].
  assert (Hl : forall n, (length ps <= n)%nat -> safe_sql (jql_lhs base t) n)
    by (intros n Hn; apply lhs_safe; by apply (safe_mono base (length ps))).
  destruct op; try (revert Hk; apply push_then_safe; intros ph n Hph Hn;
    apply op_safe; [apply jql_op_text_safe | by apply Hl |];
    destruct Hph; split; [done|]; simpl; apply Forall_app; split; [done|];
    constructor; [apply jqlCastSuffix_safe|constructor]).
  all: destruct value as [s|]; [|done]; revert Hk; apply push_then_safe; intros ph n Hph Hn;
    apply op_safe; [by apply in_vocabulary | by apply Hl | done].
Qed.

Lemma value_list_safe t vs :
  appends (fun es n => Forall (fun e => safe_sql e n) es)
    (bmap (fun v => bbind (Push (TextBind (jqlValueToBindText v))) (fun ph => bret (SCast ph (jqlCastSuffix t)))) vs).
Proof.
  induction vs as [|v vs IH]; simpl; [apply appends_ret; constructor|].
  intros ps es ps' ([e ps1] & He & ([es' ps2] & Hes & [= <- <-])%rbind_ok)%rbind_ok.
  apply push_then_safe in He as (n1 & -> & He).
  2:{ intros ph n [Hr Hn] _. split; [done|]. simpl. apply Forall_app. split; [done|].
      constructor; [apply jqlCastSuffix_safe|constructor]. }
  destruct (IH _ _ _ Hes) as (n2 & -> & Hall). exists (n1 ++ n2). split; [by rewrite app_assoc|].
  constructor; [|done]. eapply safe_mono; [exact He|]. rewrite !length_app. lia.
Qed.

Lemma safe_list es n : Forall (fun e => safe_sql e n) es ->
  Forall (fun k => 1 <= k <= n)%nat (flat_map placeholders es) /\ Forall safe_name (flat_map names es).
Proof.
  induction 1 as [|e es [Hr Hn] _ [IH1 IH2]]; simpl; [split; constructor|]. split; by apply Forall_app.
Qed.

Lemma compile_in_safe field negate vs : appends safe_sql (compile_in entity field negate vs).
Proof.
  unfold compile_in. destruct (length vs =? 0)%nat; [apply appends_fail|].
  eapply appends_bind; [apply resolve_safe|]. intros [base t] ps b ps' Hb ([es ps1] & Hes & [= <- <-])%rbind_ok.
  destruct (value_list_safe t vs _ _ _ Hes) as (new & -> & Hall). exists new. split; [done|].
  apply safe_list in Hall as [H1 H2].
  assert (Hl : safe_sql (jql_lhs base t) (length (ps ++ new))).
  { apply lhs_safe. apply (safe_mono base (length ps)); [done|]. rewrite length_app. lia. }
  destruct Hl. split; by apply Forall_app.
Qed.

Lemma compile_empty_safe field negate : appends safe_sql (compile_empty entity field negate).
Proof.
  eapply appends_bind; [apply resolve_safe|]. intros [base t] ps b ps' Hb [= <- <-].
  exists []. rewrite app_nil_r. split; [done|]. by apply (lhs_safe base t).
Qed.

Lemma bmap_safe (f : jqlExpr -> Build sql) l :
  Forall (fun e => appends safe_sql (f e)) l -> appends (fun es n => Forall (fun e => safe_sql e n) es) (bmap f l).
Proof.
  induction 1 as [|e l He _ IH]; simpl; [apply appends_ret; constructor|].
  eapply appends_bind; [exact He|]. intros s ps es ps' Hs ([es' ps1] & Hes & [= <- <-])%rbind_ok.
  destruct (IH _ _ _ Hes) as (new & -> & Hall). exists new. split; [done|]. constructor; [|done].
  eapply safe_mono; [exact Hs|]. rewrite length_app. lia.
Qed.

Lemma compileJqlExpr_safe e : appends safe_sql (compileJqlExpr entity e).
Proof.
  induction e as [f op v|f n vs|f n|l IH|l IH|e IH] using jql_nested_ind; cbn [compileJqlExpr].
  - apply compile_compare_safe.
  - apply compile_in_safe.
  - apply compile_empty_safe.
  - eapply appends_bind; [by apply bmap_safe|]. intros es ps b ps' Hes [= <- <-]. exists [].
    rewrite app_nil_r. split; [done|]. by apply safe_list.
  - eapply appends_bind; [by apply bmap_safe|]. intros es ps b ps' Hes [= <- <-]. exists [].
    rewrite app_nil_r. split; [done|]. by apply safe_list.
  - eapply appends_bind; [exact IH|]. intros s ps b ps' Hs [= <- <-]. exists []. by rewrite app_nil_r.
Qed.

(** C8. No injection: whatever the query text, the SQL a JQL filter compiles
    to is made of placeholders of bound parameters, a fixed vocabulary of
    operators, casts and two column names, and the quoted names of the
    entity's own real columns; nothing of the text of the query, and no name
    the entity does not declare, reaches the SQL. *)
Theorem jql_no_injection jql ps w order ps' :
  ParseAndCompileJQL jql entity ps = Ok ((Some w, order), ps') ->
  (exists new, ps' = ps ++ new) /\
  Forall (fun k => 1 <= k <= length ps')%nat (placeholders w) /\
  Forall (fun n => n ∈ jql_vocabulary \/
            exists f, f ∈ e_Fields entity /\ f_Name f = n /\ FieldHasRealColumn f = true) (names w).
Proof.
  intros (ts & Hts & ([parsed rest] & Hp & ([w' ps1] & Hw & Ho)%rbind_ok)%rbind_ok)%rbind_ok.
  assert (w' = Some w /\ ps1 = ps') as [-> ->].
  { destruct (pj_orderBy parsed) as [o|]; [destruct (isJqlSortable (o_field o) entity)|]; by simplify_eq. }
  destruct (pj_expr parsed) as [e|]; [|done].
  apply rbind_ok in Hw as ([s ps2] & He & [= -> <-]).
  destruct (compileJqlExpr_safe e _ _ _ He) as (new & -> & Hr & Hn). split_and!; [by exists new | done | done].
Qed.

(** *** Totality *)

Lemma bmap_total {A B} (f : A -> Build B) l ps : (forall a ps, f a ps <> Panic) -> bmap f l ps <> Panic.
Proof.
  intros Hf. revert ps. induction l as [|a l IH]; intros ps; simpl; [done|]. unfold bbind at 1.
  pose proof (Hf a ps). destruct (f a ps) as [[b ps1]| |]; simpl; [|done..].
  unfold bbind. pose proof (IH ps1). by destruct (bmap f l ps1) as [[]| |].
Qed.

Lemma bbind_total {A B} (m : Build A) (k : A -> Build B) ps :
  m ps <> Panic -> (forall a ps, k a ps <> Panic) -> bbind m k ps <> Panic.
Proof. intros Hm Hk. unfold bbind. destruct (m ps) as [[a ps1]| |]; simpl; [apply Hk|done..]. Qed.

Lemma resolve_total field ps : resolveJqlField field entity ps <> Panic.
Proof. unfold resolveJqlField. repeat case_match; done. Qed.

Lemma compileJqlExpr_total e : forall ps, compileJqlExpr entity e ps <> Panic.
Proof.
  assert (Hlist : forall l, Forall (fun e => forall ps, compileJqlExpr entity e ps <> Panic) l ->
    forall ps, bmap (compileJqlExpr entity) l ps <> Panic).
  { induction 1 as [|a l Ha _ IH]; intros ps; simpl; [done|].
    apply bbind_total; [apply Ha|]. intros s ps1. by apply bbind_total. }
  induction e as [f op v|f n vs|f n|l IH|l IH|e IH] using jql_nested_ind; intros ps; cbn [compileJqlExpr].
  - apply bbind_total; [apply resolve_total|]. intros [base t] ps1.
    destruct (negb _), op, v; done.
  - unfold compile_in. destruct (length vs =? 0)%nat; [done|]. apply bbind_total; [apply resolve_total|].
    intros [base t] ps1. apply bbind_total; [by apply bmap_total|done].
  - apply bbind_total; [apply resolve_total|]. by intros [base t] ps1.
  - apply bbind_total; [by apply Hlist|done].
  - apply bbind_total; [by apply Hlist|done].
  - by apply bbind_total.
Qed.

(** C16. The query language is total: on every input text the lexer, the
    recursive-descent parser and the compiler answer with SQL or with an
    error; no loop or recursion outruns the tokens (the fuel is one more than
    their number), and no index is out of range. *)
Theorem jql_total jql ps : ParseAndCompileJQL jql entity ps <> Panic.
Proof.
  unfold ParseAndCompileJQL, jqlTokenize. destruct (_ <? _)%nat; [done|].
  pose proof (lex_answers (length (runes jql)) (runes jql) ltac:(done)) as Hl.
  destruct (lex _ _) as [ts| |]; simpl; [|done..].
  pose proof (answers_parseQuery (S (length ts)) ts Hl ltac:(lia)) as Hp.
  destruct (parseQuery _ ts) as [[parsed rest]| |]; simpl; [|done..].
  assert (Hc : match pj_expr parsed with
               | Some e => bbind (compileJqlExpr entity e) (fun s => bret (Some s)) ps
               | None => Ok (None, ps) end <> Panic).
  { destruct (pj_expr parsed); [|done]. apply bbind_total; [apply compileJqlExpr_total|done]. }
  destruct (match pj_expr parsed with Some _ => _ | None => _ end) as [[w ps1]| |]; simpl; [|done..].
  destruct (pj_orderBy parsed) as [o|]; [destruct (isJqlSortable (o_field o) entity)|]; done.
Qed.
End CodegenProperties.

(** ** Printing and reading back *)

Definition value_token (v : jqlValue) : jqlToken :=
  match v with
  | jqlStrValue s => mkTok tokStr s
  | jqlBoolValue true => tok tokKwTrue
  | jqlBoolValue false => tok tokKwFalse
  end.

Definition op_token (op : jqlCompareOp) : jqlTokenKind :=
  match op with
  | jqlOpEq => tokEq
  | jqlOpNe => tokNe
  | jqlOpGt => tokGt
  | jqlOpGte => tokGte
  | jqlOpLt => tokLt
  | jqlOpLte => tokLte
  | jqlOpContains => tokTilde
  | jqlOpNotContains => tokNotTilde
  end.

Fixpoint sep_by (sep : jqlTokenKind) (l : list (list jqlToken)) : list jqlToken :=
  match l with
  | [] => []
  | [x] => x
  | x :: l' => x ++ tok sep :: sep_by sep l'
  end.

Definition paren (b : bool) (ts : list jqlToken) : list jqlToken :=
  if b then tok tokLParen :: ts ++ [tok tokRParen] else ts.

(** The tokens of an expression with the fewest parentheses: level 0 is the OR
    level, 1 the AND level, 2 the NOT level. *)
Fixpoint print (level : nat) (e : jqlExpr) : list jqlToken :=
  match e with
  | jqlExprCompare f op v => [mkTok tokIdent f; tok (op_token op); value_token v]
  | jqlExprIn f negate vs =>
    mkTok tokIdent f :: (if negate then [tok tokKwNot] else []) ++ tok tokKwIn ::
    tok tokLParen :: sep_by tokComma (map (fun v => [value_token v]) vs) ++ [tok tokRParen]
  | jqlExprIsEmpty f negate =>
    mkTok tokIdent f :: tok tokKwIs :: (if negate then [tok tokKwNot] else []) ++ [tok tokKwEmpty]
  | jqlExprNot e => tok tokKwNot :: print 2 e
  | jqlExprAnd l => paren (2 <=? level)%nat (sep_by tokKwAnd (map (print 2) l))
  | jqlExprOr l => paren (1 <=? level)%nat (sep_by tokKwOr (map (print 1) l))
  end.

(** The expressions the grammar can produce. *)
Fixpoint jql_wf (e : jqlExpr) : bool :=
  match e with
  | jqlExprCompare _ _ _ | jqlExprIsEmpty _ _ => true
  | jqlExprIn _ _ vs => (0 <? length vs)%nat
  | jqlExprAnd l | jqlExprOr l => (1 <? length l)%nat && forallb jql_wf l
  | jqlExprNot e => jql_wf e
  end.

Definition starts (k : jqlTokenKind) (ts : list jqlToken) : bool :=
  match ts with t :: _ => bool_decide (kind t = k) | [] => true end.

Lemma advance_cons t ts : ts <> [] -> advance (t :: ts) = Ok (t, ts).
Proof. by destruct ts. Qed.

Lemma eat_yes t k ts : kind t = k -> ts <> [] -> eat k (t :: ts) = Ok (true, ts).
Proof.
  intros Hk Hne. unfold eat, pbind. cbn [peek rbind]. rewrite bool_decide_eq_true_2 by done.
  by rewrite advance_cons.
Qed.

Lemma eat_no k ts : starts k ts = false -> eat k ts = Ok (false, ts).
Proof.
  destruct ts as [|t ts]; [done|]. simpl. intros Hb. unfold eat, pbind. cbn [peek rbind]. by rewrite Hb.
Qed.

Lemma pbind_ok {A B} (m : parser A) (k : A -> parser B) ts a ts' :
  m ts = Ok (a, ts') -> pbind m k ts = k a ts'.
Proof. unfold pbind. by intros ->. Qed.

Lemma app_ne_nil {A} (l1 l2 : list A) : l2 <> [] -> l1 ++ l2 <> [].
Proof. by destruct l1. Qed.

(** A separated list is read item by item; [okrest] is what an item needs of
    the tokens after it. *)
Lemma sep_loop_reads {A} sep (item : parser A) (pr : A -> list jqlToken) (okrest : list jqlToken -> Prop) rest :
  (forall r, okrest (tok sep :: r)) -> okrest rest -> rest <> [] -> starts sep rest = false ->
  forall l n acc,
  (forall a r, a ∈ l -> r <> [] -> okrest r -> item (pr a ++ r) = Ok (a, r)) -> (length l < n)%nat ->
  sep_loop sep item n acc (flat_map (fun a => tok sep :: pr a) l ++ rest) = Ok (acc ++ l, rest).
Proof.
  intros Hsep Hok Hne Hst. induction l as [|a l IH]; intros n acc Hi Hn; destruct n as [|n]; simpl in Hn; try lia;
    cbn [flat_map app sep_loop].
  - erewrite pbind_ok by (by apply eat_no). by rewrite app_nil_r.
  - rewrite <- app_assoc. erewrite pbind_ok by (apply eat_yes; [done|]; by apply app_ne_nil, app_ne_nil).
    cbn beta iota.
    erewrite pbind_ok. 2:{ apply Hi; [apply list_elem_of_here | by apply app_ne_nil |]. destruct l; simpl; [exact Hok | apply Hsep]. }
    rewrite IH; [by rewrite <- app_assoc | | lia]. intros b r Hb. apply Hi. by apply list_elem_of_further.
Qed.

Lemma sep_by_flat sep x (l : list (list jqlToken)) : sep_by sep (x :: l) = x ++ flat_map (fun y => tok sep :: y) l.
Proof.
  revert x. induction l as [|y l IH]; intros x; [simpl; by rewrite app_nil_r|].
  change (sep_by sep (x :: y :: l)) with (x ++ tok sep :: sep_by sep (y :: l)). by rewrite IH.
Qed.

Lemma flat_map_length_ge {A} sep (pr : A -> list jqlToken) l :
  (length l <= length (flat_map (fun a => tok sep :: pr a) l))%nat.
Proof. induction l as [|a l IH]; simpl; [done|]. rewrite length_app. lia. Qed.

Lemma flat_map_map {A B C} (f : B -> list C) (g : A -> B) l : flat_map f (map g l) = flat_map (fun a => f (g a)) l.
Proof. induction l; simpl; congruence. Qed.

Lemma sep_list_reads {A} sep (item : parser A) (pr : A -> list jqlToken) (okrest : list jqlToken -> Prop) a l rest :
  (forall r, okrest (tok sep :: r)) -> okrest rest -> rest <> [] -> starts sep rest = false ->
  (forall b r, b ∈ a :: l -> r <> [] -> okrest r -> item (pr b ++ r) = Ok (b, r)) ->
  sep_list sep item (sep_by sep (map pr (a :: l)) ++ rest) = Ok (a :: l, rest).
Proof.
  intros Hsep Hok Hne Hst Hi. cbn [map]. rewrite sep_by_flat, flat_map_map, <- app_assoc. unfold sep_list.
  erewrite pbind_ok. 2:{ apply Hi; [apply list_elem_of_here | by apply app_ne_nil |]. destruct l; simpl; [exact Hok | apply Hsep]. }
  cbn beta. rewrite (sep_loop_reads sep item pr okrest rest); try done.
  - intros b r Hb. apply Hi. by apply list_elem_of_further.
  - rewrite length_app. pose proof (flat_map_length_ge sep pr l). lia.
Qed.

Lemma value_read v r : r <> [] -> parseValue (value_token v :: r) = Ok (v, r).
Proof.
  intros Hr. unfold parseValue. erewrite pbind_ok by (by apply advance_cons). by destruct v as [|[]].
Qed.

Lemma expect_read k w t r : kind t = k -> r <> [] -> expect k w (t :: r) = Ok (tt, r).
Proof. intros Hk Hr. unfold expect. by erewrite pbind_ok by (by apply eat_yes). Qed.

Lemma ident_read f r : r <> [] -> expectIdent (mkTok tokIdent f :: r) = Ok (f, r).
Proof. intros Hr. unfold expectIdent. by erewrite pbind_ok by (by apply advance_cons). Qed.

Lemma value_list_read v vs r : r <> [] ->
  parseValueList (tok tokLParen :: sep_by tokComma (map (fun v => [value_token v]) (v :: vs)) ++ tok tokRParen :: r)
  = Ok (v :: vs, r).
Proof.
  intros Hr. unfold parseValueList.
  erewrite pbind_ok by (apply expect_read; [done|]; by apply app_ne_nil).
  erewrite pbind_ok.
  2:{ apply (sep_list_reads tokComma parseValue (fun v => [value_token v]) (fun _ => True)); try done.
      intros b r' _ Hr' _. by apply value_read. }
  by erewrite pbind_ok by (by apply expect_read).
Qed.

Ltac step := erewrite pbind_ok by
  (first [apply ident_read | apply advance_cons | apply value_read | apply expect_read | apply eat_yes];
   try done; by repeat apply app_ne_nil); cbn beta iota.

(** The three kinds of atom. *)
Lemma atom_read e level r :
  match e with jqlExprCompare _ _ _ | jqlExprIsEmpty _ _ | jqlExprIn _ _ _ => jql_wf e = true | _ => False end ->
  r <> [] -> parseComparison (print level e ++ r) = Ok (e, r).
Proof.
  intros Hwf Hr. unfold parseComparison. destruct e as [f op v|f n vs|f n| | |]; try done; cbn [print app].
  - step. step. destruct op; cbn [kind tok op_token cmp_op]; by step.
  - destruct vs as [|v vs]; [done|]. step. destruct n; cbn [app]; rewrite <- ?app_assoc; cbn [app].
    + step. cbn [kind tok cmp_op]. step. rewrite <- ?app_assoc. cbn [app]. by erewrite pbind_ok by (by apply value_list_read).
    + step. cbn [kind tok cmp_op]. rewrite <- ?app_assoc. cbn [app]. by erewrite pbind_ok by (by apply value_list_read).
  - step. step. cbn [kind tok cmp_op]. destruct n; cbn [app].
    + step. by step.
    + erewrite pbind_ok by (by apply eat_no). cbn beta. by step.
Qed.

Definition reads_not (e : jqlExpr) : Prop := forall fuel r,
  (length (print 2 e) < fuel)%nat -> r <> [] -> parseNot fuel (print 2 e ++ r) = Ok (e, r).
Definition reads_and (e : jqlExpr) : Prop := forall fuel r,
  (length (print 1 e) < fuel)%nat -> r <> [] -> starts tokKwAnd r = false ->
  parseAnd_over (parseNot fuel) (print 1 e ++ r) = Ok (e, r).
Definition reads_or (e : jqlExpr) : Prop := forall fuel r,
  (length (print 0 e) < fuel)%nat -> r <> [] -> starts tokKwAnd r = false -> starts tokKwOr r = false ->
  parseOr_over (parseNot fuel) (print 0 e ++ r) = Ok (e, r).

(** An expression printed alike at two levels is read alike at both. *)
Lemma reads_and_of_not e : print 1 e = print 2 e -> reads_not e -> reads_and e.
Proof.
  intros Heq Hn fuel r Hf Hr Hst. unfold parseAnd_over. rewrite Heq in *.
  change (print 2 e) with (sep_by tokKwAnd (map (print 2) [e])).
  rewrite (pbind_ok _ _ _ [e] r); [reflexivity|].
  apply (sep_list_reads tokKwAnd _ (print 2) (fun _ => True)); try done.
  intros b r' [->|Hb]%elem_of_cons Hr' _; [by apply Hn | by apply elem_of_nil in Hb].
Qed.

Lemma reads_or_of_and e : print 0 e = print 1 e -> reads_and e -> reads_or e.
Proof.
  intros Heq Hn fuel r Hf Hr Ha Ho. unfold parseOr_over. rewrite Heq in *.
  change (print 1 e) with (sep_by tokKwOr (map (print 1) [e])).
  rewrite (pbind_ok _ _ _ [e] r); [reflexivity|].
  apply (sep_list_reads tokKwOr _ (print 1) (fun r => starts tokKwAnd r = false)); try done.
  intros b r' [->|Hb]%elem_of_cons Hr' Hst; [by apply Hn | by apply elem_of_nil in Hb].
Qed.

(** Parentheses lower any expression to the NOT level. *)
Lemma reads_not_of_or e : print 2 e = tok tokLParen :: print 0 e ++ [tok tokRParen] -> reads_or e -> reads_not e.
Proof.
  intros Heq Ho fuel r Hf Hr. destruct fuel as [|fuel]; [lia|]. rewrite Heq in *. cbn [length] in Hf.
  rewrite length_app in Hf. cbn [parseNot app]. erewrite pbind_ok by (by apply eat_no). cbn beta iota.
  unfold parsePrimary_over. rewrite <- app_assoc. cbn [app].
  erewrite pbind_ok by (apply eat_yes; [done|]; by apply app_ne_nil). cbn beta iota.
  erewrite pbind_ok by (apply Ho; try done; simpl in Hf; lia).
  by erewrite pbind_ok by (by apply expect_read).
Qed.

Lemma part_length {A} sep (pr : A -> list jqlToken) l a :
  a ∈ l -> (length (pr a) <= length (sep_by sep (map pr l)))%nat.
Proof.
  destruct l as [|x l]; [by intros Ha%elem_of_nil|]. cbn [map]. rewrite sep_by_flat, flat_map_map, length_app.
  intros [->|Ha]%elem_of_cons; [lia|]. induction l as [|y l IH]; [by apply elem_of_nil in Ha|].
  simpl. rewrite length_app. apply elem_of_cons in Ha as [->|Ha]; [lia|]. specialize (IH Ha). lia.
Qed.

Lemma reads_and_parts l :
  (1 < length l)%nat -> (forall e, e ∈ l -> reads_not e) -> reads_and (jqlExprAnd l).
Proof.
  intros Hl Hp fuel r Hf Hr Hst. destruct l as [|x [|y l]]; simpl in Hl; try lia.
  unfold parseAnd_over. change (print 1 (jqlExprAnd (x :: y :: l))) with (sep_by tokKwAnd (map (print 2) (x :: y :: l))) in *.
  rewrite (pbind_ok _ _ _ (x :: y :: l) r); [reflexivity|].
  apply (sep_list_reads tokKwAnd _ (print 2) (fun _ => True)); try done.
  intros b r' Hb Hr' _. apply Hp; [done| |done].
  pose proof (part_length tokKwAnd (print 2) _ b Hb). lia.
Qed.

Lemma reads_or_parts l :
  (1 < length l)%nat -> (forall e, e ∈ l -> reads_and e) -> reads_or (jqlExprOr l).
Proof.
  intros Hl Hp fuel r Hf Hr Ha Ho. destruct l as [|x [|y l]]; simpl in Hl; try lia.
  unfold parseOr_over. change (print 0 (jqlExprOr (x :: y :: l))) with (sep_by tokKwOr (map (print 1) (x :: y :: l))) in *.
  rewrite (pbind_ok _ _ _ (x :: y :: l) r); [reflexivity|].
  apply (sep_list_reads tokKwOr _ (print 1) (fun r => starts tokKwAnd r = false)); try done.
  intros b r' Hb Hr' Hst. apply Hp; [done| |done|done].
  pose proof (part_length tokKwOr (print 1) _ b Hb). lia.
Qed.

Lemma atom_reads_not e :
  match e with jqlExprCompare _ _ _ | jqlExprIsEmpty _ _ | jqlExprIn _ _ _ => jql_wf e = true | _ => False end ->
  reads_not e.
Proof.
  intros Ha fuel r Hf Hr. destruct fuel as [|fuel]; [lia|]. cbn [parseNot].
  assert (Hs : starts tokKwNot (print 2 e ++ r) = false /\ starts tokLParen (print 2 e ++ r) = false)
    by (by destruct e; try done; split).
  destruct Hs. erewrite pbind_ok by (by apply eat_no). cbn beta iota. unfold parsePrimary_over.
  erewrite pbind_ok by (by apply eat_no). cbn beta iota. by apply atom_read.
Qed.

Lemma reads_all e : jql_wf e = true -> reads_not e /\ reads_and e /\ reads_or e.
Proof.
  assert (Hup : forall e, print 1 e = print 2 e -> print 0 e = print 1 e -> reads_not e ->
    reads_not e /\ reads_and e /\ reads_or e).
  { intros e' H1 H0 Hn. pose proof (reads_and_of_not e' H1 Hn) as Ha. split_and!; [done|done|].
    by apply reads_or_of_and. }
  induction e as [f op v|f n vs|f n|l IH|l IH|e IH] using jql_nested_ind; intros Hwf.
  - apply Hup; [done..|]. by apply atom_reads_not.
  - apply Hup; [done..|]. by apply atom_reads_not.
  - apply Hup; [done..|]. by apply atom_reads_not.
  - cbn [jql_wf] in Hwf. apply andb_true_iff in Hwf as [Hl%Nat.ltb_lt Hall]. rewrite forallb_forall in Hall.
    rewrite Forall_forall in IH.
    assert (Ha : reads_and (jqlExprAnd l)).
    { apply reads_and_parts; [done|]. intros e He. apply IH; [done|]. by apply Hall, list_elem_of_In. }
    assert (Ho : reads_or (jqlExprAnd l)) by (by apply reads_or_of_and).
    split_and!; [by apply reads_not_of_or | done | done].
  - cbn [jql_wf] in Hwf. apply andb_true_iff in Hwf as [Hl%Nat.ltb_lt Hall]. rewrite forallb_forall in Hall.
    rewrite Forall_forall in IH.
    assert (Ho : reads_or (jqlExprOr l)).
    { apply reads_or_parts; [done|]. intros e He. apply IH; [done|]. by apply Hall, list_elem_of_In. }
    assert (Hn : reads_not (jqlExprOr l)) by (by apply reads_not_of_or).
    split_and!; [done | by apply reads_and_of_not | done].
  - apply Hup; [done..|]. destruct (IH Hwf) as [Hn _]. intros fuel r Hf Hr. destruct fuel as [|fuel]; [simpl in Hf; lia|].
    cbn [print app parseNot]. erewrite pbind_ok by (apply eat_yes; [done|]; by apply app_ne_nil). cbn beta iota.
    rewrite (pbind_ok _ _ _ e r); [reflexivity|]. apply Hn; [|done]. simpl in Hf. lia.
Qed.

(** The first token of an expression. *)
Lemma print_starts e : forall level r, jql_wf e = true ->
  starts tokKwOrder (print level e ++ r) = false /\ starts tokEof (print level e ++ r) = false.
Proof.
  induction e as [f op v|f n vs|f n|l IH|l IH|e IH] using jql_nested_ind; intros level r Hwf; try done.
  all: cbn [jql_wf] in Hwf; apply andb_true_iff in Hwf as [Hl Hall];
    destruct l as [|x l]; [done|]; cbn [print]; unfold paren; destruct (_ <=? level)%nat; [done|];
    cbn [map]; rewrite sep_by_flat, <- app_assoc; apply Forall_cons in IH as [IHx _];
    apply IHx; simpl in Hall; by apply andb_true_iff in Hall as [? _].
Qed.

(** C17. Precedence and round trip: the tokens of an expression, written with
    the fewest parentheses (OR below AND below NOT), followed by the end of
    input, are parsed back to exactly that expression. *)
Theorem jql_parse_print e :
  jql_wf e = true ->
  parseQuery (S (length (print 0 e))) (print 0 e ++ [tok tokEof])
  = Ok (mkParsed (Some e) None, [tok tokEof]).
Proof.
  intros Hwf. destruct (reads_all e Hwf) as (_ & _ & Ho). unfold parseQuery.
  assert (Hf : parse_filter (S (length (print 0 e))) (print 0 e ++ [tok tokEof]) = Ok (Some e, [tok tokEof])).
  { unfold parse_filter, parseOr. destruct (print 0 e ++ [tok tokEof]) as [|t ts] eqn:E.
    { by destruct (print 0 e). }
    erewrite pbind_ok by reflexivity. cbn beta.
    replace (bool_decide (kind t = tokKwOrder) || bool_decide (kind t = tokEof)) with false.
    - rewrite <- E. rewrite (pbind_ok _ _ _ e [tok tokEof]); [reflexivity|]. apply Ho; [lia|done|done|done].
    - pose proof (print_starts e 0 [tok tokEof] Hwf) as Hs. rewrite E in Hs. simpl in Hs.
      by destruct Hs as [-> ->]. }
  erewrite pbind_ok by exact Hf. cbn beta. unfold parse_order.
  erewrite pbind_ok by (erewrite pbind_ok by (by apply eat_no); reflexivity). reflexivity.
Qed.

(** ** Witnesses *)

Section Concrete.
#[local] Existing Instance TestUuid.

Definition jql_entity : EntityDefinition :=
  mkEntity "shop.order" "Order" "shop.orders"
    [field_of_kind "title" KindString; field_of_kind "amount" KindNumber;
     mkField "customer" "" KindReference None None None None None (Some "shop.customer") None None None None None
       None None None None None None] [] None [] None.

Definition jql_example : string := "amount >= 10 AND (customer = 'c1' OR NOT title ~ '50%') ORDER BY createdAt DESC".

Definition jql_compiled : option sql * option jqlOrder * list BindValue :=
  Eval vm_compute in
    match ParseAndCompileJQL jql_example jql_entity [] with Ok r => r | _ => (None, None, []) end.

Example jql_example_text :
  match jql_compiled.1.1 with Some w => render w | None => "" end
  = ("(((jsonb_extract_path_text(data, $1))::double precision >= $2::double precision) AND "
     +:+ "(((" +:+ quote +:+ "customer" +:+ quote +:+ ")::uuid = $3::uuid) OR "
     +:+ "(NOT ((jsonb_extract_path_text(data, $4)) ILIKE $5))))")
  /\ jql_compiled.2 = [TextBind "amount"; TextBind "10"; TextBind "c1"; TextBind "title"; TextBind "%50\%%"].
Proof. split; vm_compute; reflexivity. Qed.

Lemma jql_no_injection_witness :
  exists w, jql_compiled.1.1 = Some w /\
    Forall (fun k => 1 <= k <= length jql_compiled.2)%nat (placeholders w).
Proof.
  eexists. split; [reflexivity|].
  refine (proj1 (proj2 (jql_no_injection jql_entity jql_example [] _ jql_compiled.1.2 jql_compiled.2 _))).
  vm_compute. reflexivity.
Defined.

Definition jql_tree : jqlExpr :=
  jqlExprOr [jqlExprAnd [jqlExprCompare "a" jqlOpEq (jqlStrValue "1");
                         jqlExprOr [jqlExprIsEmpty "b" true; jqlExprIn "c" true [jqlBoolValue true]]];
             jqlExprNot (jqlExprAnd [jqlExprIsEmpty "d" false; jqlExprIsEmpty "e" false])].

Lemma jql_parse_print_witness :
  parseQuery (S (length (print 0 jql_tree))) (print 0 jql_tree ++ [tok tokEof])
  = Ok (mkParsed (Some jql_tree) None, [tok tokEof]).
Proof. apply jql_parse_print. reflexivity. Defined.
End Concrete.
