(* ===== verification/Planner.v ===== *)
(** The list planner (src/go/query/query_planner.go) and its cursor
    (cursor.go): tenant and deletion scoping, record policies, filters, JQL,
    the resolved sort, and keyset pagination. A cursor is modelled as the JSON
    document it carries; its base64 text is not. *)
From S2P Require Import Prelude GoStrings Json Condition Context Uuid Evaluate Snapshot PermissionService Metadata Sql ConditionSql Jql.

Open Scope string_scope.
Open Scope list_scope.

(** ** Cursors (cursor.go) *)

Definition SortDir := string.
Definition SortAsc : SortDir := "asc".
Definition SortDesc : SortDir := "desc".

Record Cursor : Type := mkCursor {
  cu_Field : string;
  cu_Value : option string;
  cu_ID : string;
  cu_Dir : SortDir
}.

Definition is_hex (b : N) : bool := is_digit b || in_range 97 102 b || in_range 65 70 b.

(** The byte at a position has the shape of that position of a UUID. *)
Definition uuid_byte_ok (pos : nat) (b : N) : bool :=
  if existsb (Nat.eqb pos) [8; 13; 18; 23]%nat then (b =? byte_of "-")%N else is_hex b.

Fixpoint bytes_ok (pos : nat) (s : string) : bool :=
  match s with
  | EmptyString => true
  | String a s' => uuid_byte_ok pos (byte_of a) && bytes_ok (S pos) s'
  end.

Definition isCursorUUID (s : string) : bool := (String.length s =? 36)%nat && bytes_ok 0 s.

Definition EncodeCursor (c : Cursor) : json :=
  JObj [("field", JStr (cu_Field c));
        ("value", match cu_Value c with Some v => JStr v | None => JNull end);
        ("id", JStr (cu_ID c));
        ("dir", JStr (cu_Dir c))].

(** json.Unmarshal into the struct, member by member; the flag records a type
    mismatch. *)
Definition cursor_step (st : Cursor * bool) (kv : string * json) : Cursor * bool :=
  let '(mkCursor f v i d, bad) := st in
  let str (cur : string) (set : string -> Cursor) :=
    match kv.2 with JStr s => (set s, bad) | JNull => (set cur, bad) | _ => (set cur, true) end in
  if key_matches "field" kv.1 then str f (fun s => mkCursor s v i d)
  else if key_matches "value" kv.1 then
    match kv.2 with
    | JStr s => (mkCursor f (Some s) i d, bad)
    | JNull => (mkCursor f None i d, bad)
    | _ => (mkCursor f v i d, true)
    end
  else if key_matches "id" kv.1 then str i (fun s => mkCursor f v s d)
  else if key_matches "dir" kv.1 then str d (fun s => mkCursor f v i s)
  else st.

(** [None] is a text that is not base64 of a JSON document. *)
Definition DecodeCursor (raw : option json) : option Cursor :=
  match raw with
  | Some (JObj l) =>
    let '(c, bad) := fold_left cursor_step l (mkCursor "" None "" "", false) in
    if bad || negb (isCursorUUID (cu_ID c)) then None else Some c
  | Some JNull => if isCursorUUID "" then Some (mkCursor "" None "" "") else None
  | _ => None
  end.

(** ** The planner *)

Record ResolvedSort : Type := mkSort { rs_Field : string; rs_Descending : bool }.

Record ListInput : Type := mkListInput {
  li_Limit : Z;
  li_Sort : option string;
  li_Filters : list (string * string);
  li_Cursor : option (option json);
  li_ListView : option string;
  li_JQL : option string
}.

Inductive sortColType : Type := sortColTimestamptz | sortColUUID | sortColText.

Definition castSuffix (t : sortColType) : string :=
  match t with
  | sortColTimestamptz => "::timestamptz"
  | sortColUUID => "::uuid"
  | sortColText => ""
  end.

Definition parseSort (candidate : option string) (sortable : string -> bool) : option ResolvedSort :=
  match candidate with
  | None => None
  | Some c =>
    let field := TrimPrefix c "-" in
    if sortable field then Some (mkSort field (HasPrefix c "-")) else None
  end.

Definition ilikeEscape (value : string) : string :=
  "%" +:+ String.concat "" (map ilike_rune (runes value)) +:+ "%".

(** The four cases of the keyset predicate, under NULLS LAST ascending and
    NULLS FIRST descending. *)
Definition cursorCondition (sortExpr : sql) (descending : bool) (valuePh : option sql) (idPh : sql) : sql :=
  let id_after := SOp ">" (SCol "id") idPh in
  match descending, valuePh with
  | false, Some v =>
    SParen (SJoin COr [SParen (SOp ">" sortExpr v);
                       SParen (SJoin CAnd [SOp "=" sortExpr v; id_after]);
                       SIsNull false sortExpr])
  | true, Some v =>
    SParen (SJoin COr [SParen (SOp "<" sortExpr v);
                       SParen (SJoin CAnd [SOp "=" sortExpr v; id_after])])
  | false, None => SParen (SJoin CAnd [SIsNull false sortExpr; id_after])
  | true, None =>
    SParen (SJoin COr [SParen (SJoin CAnd [SIsNull false sortExpr; id_after]); SIsNull true sortExpr])
  end.

Section Planner.
Context `{UuidLib}.

Record PlannedListQuery : Type := mkPlanned {
  pl_Where : sql;
  pl_OrderBy : sql * bool;
  pl_Limit : Z;
  pl_ResolvedSort : ResolvedSort
}.

(** The text of the ORDER BY clause. *)
Definition order_by_text (o : sql * bool) : string :=
  let '(sortExpr, descending) := o in
  render sortExpr +:+ (if descending then " DESC NULLS FIRST, id ASC" else " ASC NULLS LAST, id ASC").

Definition sortFieldExpression (fieldName : string) (fieldDef : option EntityField) : Build (sql * sortColType) :=
  if String.eqb fieldName "createdAt" then bret (SCol "created_at", sortColTimestamptz)
  else if String.eqb fieldName "updatedAt" then bret (SCol "updated_at", sortColTimestamptz)
  else
    let fallback := let+ ph := Push (TextBind fieldName) in bret (SPath ph, sortColText) in
    match fieldDef with
    | Some f =>
      if FieldHasRealColumn f then
        bret (SQuoted (f_Name f),
              if String.eqb (f_Kind f) KindReference || String.eqb (f_Kind f) KindID then sortColUUID else sortColText)
      else fallback
    | None => fallback
    end.

(** fieldsByName: the last of two fields of one name wins. *)
Definition field_by_name (entity : EntityDefinition) (name : string) : option EntityField :=
  List.find (fun f => String.eqb (f_Name f) name) (rev (e_Fields entity)).

Definition filter_condition (entity : EntityDefinition) (kv : string * string) : Build sql :=
  let '(field, value) := kv in
  let fieldDef := field_by_name entity field in
  let+ (fieldExpr, fieldColType) := sortFieldExpression field fieldDef in
  let searchable := match fieldDef with Some f => boolVal (f_Searchable f) | None => false end in
  let isFTS := searchable && match fieldDef with
                             | Some f => match f_SearchMode f with Some m => String.eqb m "fts" | None => false end
                             | None => false
                             end in
  if isFTS then let+ ph := Push (TextBind value) in bret (SFts fieldExpr ph)
  else if searchable then let+ ph := Push (TextBind (ilikeEscape value)) in bret (SOp "ILIKE" fieldExpr ph)
  else if String.eqb value "" then bret (SIsNull false fieldExpr)
  else let+ ph := Push (TextBind value) in bret (SOp "=" fieldExpr (SCast ph (castSuffix fieldColType))).

Definition find_view (entity : EntityDefinition) (name : string) : option EntityListView :=
  List.find (fun v => String.eqb (lv_Name v) name) (e_ListViews entity).

Definition is_sortable (entity : EntityDefinition) (name : string) : bool :=
  String.eqb name "createdAt" || String.eqb name "updatedAt"
  || existsb (fun f => String.eqb (f_Name f) name && boolVal (f_Sortable f)) (e_Fields entity).

(** The conditions a cursor adds: none without one. *)
Definition cursor_conditions (cursor : option (option json)) (rs : ResolvedSort) (sortExpr : sql) (ct : sortColType)
  : Build (list sql) :=
  match cursor with
  | None => bret []
  | Some raw =>
    match DecodeCursor raw with
    | None => bfail InvalidCursor
    | Some c =>
      let wantDir := if rs_Descending rs then SortDesc else SortAsc in
      if negb (String.eqb (cu_Field c) (rs_Field rs)) || negb (String.eqb (cu_Dir c) wantDir) then bfail InvalidCursor
      else match uuid_Parse (cu_ID c) with
      | None => bfail InvalidCursor
      | Some id =>
        match cu_Value c with
        | Some v =>
          let+ vph := Push (TextBind v) in
          let+ idph := Push (UUIDBind id) in
          bret [cursorCondition sortExpr (rs_Descending rs) (Some (SCast vph (castSuffix ct))) idph]
        | None =>
          let+ idph := Push (UUIDBind id) in
          bret [cursorCondition sortExpr (rs_Descending rs) None idph]
        end
      end
    end
  end.

Definition resolve_sort (entity : EntityDefinition) (view : option EntityListView)
    (sort : option string) (jqlOrder : option jqlOrder) : ResolvedSort :=
  let effective := match jqlOrder with
                   | Some o => Some (if o_descending o then "-" +:+ o_field o else o_field o)
                   | None => sort
                   end in
  match parseSort effective (is_sortable entity) with
  | Some s => s
  | None =>
    match (match view with Some v => parseSort (lv_DefaultSort v) (is_sortable entity) | None => None end) with
    | Some s => s
    | None => mkSort "createdAt" true
    end
  end.

Definition opt_list {A} (o : option A) : list A := match o with Some a => [a] | None => [] end.

Definition jql_part (jql : option string) (entity : EntityDefinition) : Build (option sql * option jqlOrder) :=
  match jql with
  | Some q => ParseAndCompileJQL q entity
  | None => bret (None, None)
  end.

(** [view] has been resolved; the parameters start empty. *)
Definition plan_with_view (entity : EntityDefinition) (tenantID : uuid) (view : option EntityListView)
    (input : ListInput) (ctx : RequestContext) (policies : list PolicyRow) : Build PlannedListQuery :=
  let maxLimit := match view with Some v => Z.of_N (lv_MaxLimit v) | None => 100%Z end in
  let limit := if (maxLimit <? li_Limit input)%Z then maxLimit else li_Limit input in
  let+ tph := Push (UUIDBind tenantID) in
  let+ recordCondition := RecordPolicyWhereClause policies ctx in
  let allowed field := match view with Some v => bool_decide (field ∈ lv_Filters v) | None => false end in
  let+ filters := bmap (filter_condition entity) (List.filter (fun kv => allowed kv.1) (li_Filters input)) in
  let+ (jqlWhere, jqlOrder) := jql_part (li_JQL input) entity in
  let rs := resolve_sort entity view (li_Sort input) jqlOrder in
  let+ (sortExpr, ct) := sortFieldExpression (rs_Field rs) (field_by_name entity (rs_Field rs)) in
  let+ cursorConds := cursor_conditions (li_Cursor input) rs sortExpr ct in
  bret (mkPlanned
    (SJoin CAnd ([SOp "=" (SCol "tenant_id") tph; SOp "=" (SCol "deleted") (SConst false)]
                 ++ opt_list recordCondition ++ filters ++ opt_list jqlWhere ++ cursorConds))
    (sortExpr, rs_Descending rs) limit rs).

Definition resolve_view (entity : EntityDefinition) (name : option string) : result QueryError (option EntityListView) :=
  match name with
  | Some n => match find_view entity n with Some v => Ok (Some v) | None => Err (UnknownListView n) end
  | None => Ok (head (e_ListViews entity))
  end.

Definition query_error {A} (r : result error A) : result QueryError A :=
  match r with Ok a => Ok a | Err e => Err (PlainError e) | Panic => Panic end.

Definition PlanList (registry : MetadataRegistry) (entityName : string) (input : ListInput) (ctx : RequestContext)
    (policies : list PolicyRow) : result QueryError (PlannedListQuery * list BindValue) :=
  match GetEntity registry entityName with
  | None => Err (PlainError ("Entity not found: " +:+ entityName))
  | Some entity =>
    let! tenantID := query_error (ScopedTenant ctx) in
    let! view := resolve_view entity (li_ListView input) in
    plan_with_view entity tenantID view input ctx policies []
  end.
End Planner.

(** ** Keyset pagination *)

Section Keyset.
Context {V Row : Type} (value : Row -> option V) (id : Row -> V).
Context (eqb ltb : V -> V -> bool) (other : sql -> option bool).
Hypothesis eqb_spec : forall x y, eqb x y = true <-> x = y.
Hypothesis ltb_irrefl : forall x, ltb x x = false.
Hypothesis ltb_trans : forall x y z, ltb x y = true -> ltb y z = true -> ltb x z = true.
Context (sortExpr vph idph : sql).

(** The scalars of the query for one row of the table and one cursor row. *)
Definition keyset_scalar (cursor r : Row) (e : sql) : option V :=
  if bool_decide (render e = render sortExpr) then value r
  else if bool_decide (render e = render vph) then value cursor
  else if bool_decide (render e = render idph) then Some (id cursor)
  else if bool_decide (render e = "id") then Some (id r)
  else None.
Hypothesis distinct_exprs :
  NoDup [render sortExpr; render vph; render idph; "id"].

(** The order of ORDER BY sortExpr ASC NULLS LAST, id ASC, and of its DESC
    NULLS FIRST counterpart: [a] comes strictly before [b]. *)
Definition value_before (descending : bool) (a b : option V) : bool :=
  match a, b with
  | Some x, Some y => if descending then ltb y x else ltb x y
  | Some _, None => negb descending
  | None, Some _ => descending
  | None, None => false
  end.

Definition same_value (a b : option V) : bool :=
  match a, b with
  | Some x, Some y => eqb x y
  | None, None => true
  | _, _ => false
  end.

Definition before (descending : bool) (a b : Row) : bool :=
  value_before descending (value a) (value b) || (same_value (value a) (value b) && ltb (id a) (id b)).

(** What the next page asks the database for. *)
Definition selected (descending : bool) (cursor r : Row) : bool :=
  match holds (keyset_scalar cursor r) eqb ltb other
          (cursorCondition sortExpr descending (match value cursor with Some _ => Some vph | None => None end) idph) with
  | Some true => true
  | _ => false
  end.

Lemma keyset_scalars cursor r :
  keyset_scalar cursor r sortExpr = value r /\ keyset_scalar cursor r vph = value cursor /\
  keyset_scalar cursor r idph = Some (id cursor) /\ keyset_scalar cursor r (SCol "id") = Some (id r).
Proof.
  unfold keyset_scalar.
  apply NoDup_cons in distinct_exprs as [H1 [H2 [H3 _]%NoDup_cons]%NoDup_cons].
  repeat (rewrite not_elem_of_cons in *; destruct_and?). cbn [render].
  split_and!; repeat case_bool_decide; congruence.
Qed.

Lemma selected_before descending cursor r : selected descending cursor r = before descending cursor r.
Proof.
  unfold selected, before, cursorCondition.
  destruct (keyset_scalars cursor r) as (Hs & Hv & Hi & Hid).
  destruct descending, (value cursor) as [c|] eqn:Ec; cbn [holds map foldr]; rewrite ?Hs, ?Hv, ?Hi, ?Hid; cbn;
    destruct (value r) as [x|] eqn:Er; cbn; try done;
    try (rewrite ?orb_false_r; destruct (ltb (id cursor) (id r)); done).
  - destruct (ltb x c) eqn:E1, (eqb x c) eqn:E2, (ltb (id cursor) (id r)), (eqb c x) eqn:E3; cbn; try done;
      apply eqb_spec in E2 || apply eqb_spec in E3; subst;
      try (rewrite (proj2 (eqb_spec _ _) eq_refl) in *; done).
  - destruct (ltb c x) eqn:E1, (eqb x c) eqn:E2, (ltb (id cursor) (id r)), (eqb c x) eqn:E3; cbn; try done;
      apply eqb_spec in E2 || apply eqb_spec in E3; subst;
      try (rewrite (proj2 (eqb_spec _ _) eq_refl) in *; done).
Qed.

Lemma eqb_refl x : eqb x x = true.
Proof. by apply eqb_spec. Qed.

Lemma ltb_asym x y : ltb x y = true -> ltb y x = false.
Proof.
  intros Hxy. destruct (ltb y x) eqn:Hyx; [|done]. pose proof (ltb_trans x y x Hxy Hyx) as Hc. by rewrite ltb_irrefl in Hc.
Qed.

(** A row never comes before one it follows, nor before itself. *)
Lemma before_asym descending a b : before descending a b = true -> before descending b a = false.
Proof.
  unfold before, value_before, same_value. intros Hab.
  destruct (value a) as [x|], (value b) as [y|], descending; cbn in *; try done; try (by apply ltb_asym).
  all: apply orb_true_iff in Hab as [Hlt|[Heq Hid]%andb_true_iff];
    [ rewrite (ltb_asym _ _ Hlt); cbn; destruct (eqb y x) eqn:E; [|done]; apply eqb_spec in E; subst;
      by rewrite ltb_irrefl in Hlt
    | apply eqb_spec in Heq; subst; rewrite ltb_irrefl, eqb_refl; cbn; by apply ltb_asym ].
Qed.

Lemma before_irrefl descending a : before descending a a = false.
Proof.
  destruct (before descending a a) eqn:E; [|done]. pose proof (before_asym _ _ _ E). congruence.
Qed.

(** The table in the order of the query, one page after another: a page is the
    first [limit] of the rows selected after the cursor, the next cursor is its
    last row, and there is a next page when more than [limit] were selected. *)
Context (descending : bool) (rows : list Row) (limit : nat).

Definition after (cursor : option Row) : list Row :=
  match cursor with
  | None => rows
  | Some c => List.filter (selected descending c) rows
  end.

Fixpoint pages (n : nat) (cursor : option Row) : list (list Row) :=
  match n with
  | O => []
  | S n' =>
    let found := after cursor in
    let page := take limit found in
    page :: (if (limit <? length found)%nat then pages n' (last page) else [])
  end.

Hypothesis rows_sorted : StronglySorted (fun a b => before descending a b = true) rows.
Hypothesis limit_positive : (0 < limit)%nat.

Lemma StronglySorted_app_inv {A} (R : A -> A -> Prop) l1 l2 :
  StronglySorted R (l1 ++ l2) -> forall x y, x ∈ l1 -> y ∈ l2 -> R x y.
Proof.
  induction l1 as [|a l1 IH]; simpl; intros Hs x y Hx Hy; [by apply elem_of_nil in Hx|].
  apply StronglySorted_inv in Hs as [Hs Hall]. apply elem_of_cons in Hx as [->|Hx]; [|by apply IH].
  rewrite Forall_forall in Hall. apply Hall, elem_of_app. by right.
Qed.

(** The rows after a cursor are the rest of the table. *)
Lemma after_split pre c rest : rows = pre ++ c :: rest -> after (Some c) = rest.
Proof.
  intros Hrows. unfold after. rewrite Hrows, List.filter_app. simpl.
  rewrite selected_before, before_irrefl.
  assert (Hpre : List.filter (selected descending c) pre = []).
  { apply filter_none. intros r Hr. rewrite selected_before. apply before_asym.
    rewrite Hrows in rows_sorted. apply (StronglySorted_app_inv _ _ _ rows_sorted); [done | apply list_elem_of_here]. }
  rewrite Hpre. simpl.
  rewrite (cons_middle c pre rest), app_assoc in Hrows. rewrite Hrows in rows_sorted.
  assert (Hall : forall r, r ∈ rest -> selected descending c r = true).
  { intros r Hr. rewrite selected_before. apply (StronglySorted_app_inv _ _ _ rows_sorted); [|done].
    apply elem_of_app. right. apply list_elem_of_here. }
  by apply filter_all.
Qed.

(** [pre] has been delivered; the cursor is its last row. *)
Lemma pages_from n : forall pre rest cursor,
  rows = pre ++ rest -> cursor = last pre -> (length rest < n)%nat -> concat (pages n cursor) = rest.
Proof.
  induction n as [|n IH]; intros pre rest cursor Hrows Hc Hn; [lia|]. cbn [pages concat].
  assert (Hafter : after cursor = rest).
  { subst cursor. destruct (last pre) as [c|] eqn:El.
    - apply last_Some in El as [pre0 ->]. rewrite <- app_assoc in Hrows. by apply (after_split pre0 c rest).
    - apply last_None in El as ->. exact Hrows. }
  rewrite Hafter. destruct (limit <? length rest)%nat eqn:Elim.
  - apply Nat.ltb_lt in Elim. rewrite (IH (pre ++ take limit rest) (drop limit rest) (last (take limit rest))).
    + apply take_drop.
    + rewrite <- app_assoc. by rewrite take_drop.
    + rewrite last_app. destruct (last (take limit rest)) eqn:E; [done|].
      apply last_None in E. apply (f_equal length) in E. rewrite length_take in E. simpl in E. lia.
    + rewrite length_drop. lia.
  - apply Nat.ltb_ge in Elim. simpl. rewrite app_nil_r. by apply take_ge.
Qed.


(** The keyset predicate is exact: in SQL's three-valued logic it is true
    of exactly the rows that come strictly after the cursor's row in the
    query's own order, in each of its four cases. *)
Lemma cursorCondition_exact cursor r :
  holds (keyset_scalar cursor r) eqb ltb other
    (cursorCondition sortExpr descending (match value cursor with Some _ => Some vph | None => None end) idph) = Some true
  <-> before descending cursor r = true.
Proof.
  rewrite <- selected_before. unfold selected. destruct (holds _ _ _ _ _) as [[]|]; naive_solver.
Qed.
End Keyset.

(** ** Scoping *)

Section PlanProperties.
Context `{UuidLib}.

Lemma sortFieldExpression_appends name def : appends fst_in_range (sortFieldExpression name def).
Proof.
  assert (Hfb : appends fst_in_range (bbind (Push (TextBind name)) (fun ph => bret (SPath ph, sortColText)))).
  { eapply appends_bind; [apply appends_push|]. intros ph ps b ps' Hph. by apply appends_bret_mono. }
  unfold sortFieldExpression.
  destruct (String.eqb name "createdAt"); [apply appends_ret; by constructor|].
  destruct (String.eqb name "updatedAt"); [apply appends_ret; by constructor|].
  destruct def as [f|]; [|done]. destruct (FieldHasRealColumn f); [apply appends_ret; by constructor|done].
Qed.

Lemma filter_condition_appends entity kv : appends in_range_sql (filter_condition entity kv).
Proof.
  destruct kv as [field value]. eapply appends_bind; [apply sortFieldExpression_appends|].
  intros [e ct] ps b ps' He Hk. unfold fst_in_range in He. simpl in He, Hk.
  assert (Hpush : forall v (k : sql -> sql), (forall ph n, in_range_sql ph n -> (length ps <= n)%nat -> in_range_sql (k ph) n) ->
    bbind (Push v) (fun ph => bret (k ph)) ps = Ok (b, ps') -> exists new, ps' = ps ++ new /\ in_range_sql b (length ps')).
  { intros v k Hin. apply appends_then; [apply appends_push|done]. }
  repeat match type of Hk with (if ?c then _ else _) _ = _ => destruct c end.
  - revert Hk. apply Hpush. intros ph n Hph Hn. apply Forall_app. split; [by apply (in_range_mono e (length ps))|done].
  - revert Hk. apply Hpush. intros ph n Hph Hn. apply SOp_in_range; [by apply (in_range_mono e (length ps))|done].
  - revert Hk. by apply (appends_bret_mono in_range_sql).
  - revert Hk. apply Hpush. intros ph n Hph Hn. apply SOp_in_range; [by apply (in_range_mono e (length ps))|done].
Qed.

Lemma jql_part_appends jql entity : appends (fun x n => opt_in_range x.1 n) (jql_part jql entity).
Proof.
  destruct jql as [q|]; simpl; [|apply appends_ret; by intros n e]. intros ps [w o] ps' Hq.
  unfold ParseAndCompileJQL in Hq.
  apply rbind_ok in Hq as (ts & _ & ([parsed rest] & _ & ([w' ps1] & Hw & Ho)%rbind_ok)%rbind_ok).
  assert (w' = w /\ ps1 = ps') as [-> ->].
  { destruct (pj_orderBy parsed) as [x|]; [destruct (isJqlSortable (o_field x) entity)|]; by simplify_eq. }
  destruct (pj_expr parsed) as [e|].
  - apply rbind_ok in Hw as ([s ps2] & He & [= <- <-]).
    destruct (compileJqlExpr_safe entity e _ _ _ He) as (new & -> & Hr & _). exists new. split; [done|]. by intros e' [= <-].
  - injection Hw as <- <-. exists []. rewrite app_nil_r. split; [done|]. by intros e.
Qed.

Lemma cursorCondition_in_range e desc vph idph n :
  in_range_sql e n -> (forall v, vph = Some v -> in_range_sql v n) -> in_range_sql idph n ->
  in_range_sql (cursorCondition e desc vph idph) n.
Proof.
  intros He Hv Hi. unfold in_range_sql in *. unfold cursorCondition.
  destruct desc, vph as [v|]; cbn [placeholders flat_map app]; rewrite ?app_nil_r;
    try specialize (Hv v eq_refl); repeat (apply Forall_app; split); done.
Qed.

Lemma cursor_conditions_appends cursor rs e ct ps cs ps' :
  in_range_sql e (length ps) -> cursor_conditions cursor rs e ct ps = Ok (cs, ps') ->
  exists new, ps' = ps ++ new /\ Forall (fun c => in_range_sql c (length ps')) cs.
Proof.
  intros He. unfold cursor_conditions. destruct cursor as [raw|].
  2:{ intros [= <- <-]. exists []. by rewrite app_nil_r. }
  destruct (DecodeCursor raw) as [c|]; [|done]. destruct (_ || _); [done|].
  destruct (uuid_Parse (cu_ID c)) as [u|]; [|done]. destruct (cu_Value c) as [v|]; intros [= <- <-].
  - exists [TextBind v; UUIDBind u]. rewrite <- app_assoc. split; [done|]. constructor; [|constructor].
    rewrite !length_app. simpl.
    apply cursorCondition_in_range; [apply (in_range_mono e (length ps)); [done|lia] | |];
      [intros x [= <-]|]; constructor; try constructor; lia.
  - exists [UUIDBind u]. split; [done|]. constructor; [|constructor]. rewrite !length_app. simpl.
    apply cursorCondition_in_range; [apply (in_range_mono e (length ps)); [done|lia] | done|].
    constructor; try constructor; lia.
Qed.

Lemma resolve_sort_sortable entity view sort order : is_sortable entity (rs_Field (resolve_sort entity view sort order)) = true.
Proof.
  assert (Hp : forall c s, parseSort c (is_sortable entity) = Some s -> is_sortable entity (rs_Field s) = true).
  { intros [c|] s; simpl; [|done]. destruct (is_sortable entity _) eqn:E; [|done]. by intros [= <-]. }
  unfold resolve_sort. destruct (parseSort _ _) eqn:E; [by eapply Hp|].
  destruct view as [v|]; [|done]. destruct (parseSort (lv_DefaultSort v) _) eqn:E2; [by eapply Hp|done].
Qed.

(** Every planned list query is scoped: its WHERE is a conjunction that
    starts with the caller's own tenant (bound as the first parameter) and
    with the exclusion of deleted rows, and contains the record-policy
    fragment whenever there is one; every placeholder is bound; the limit
    never exceeds the view's maximum (100 without a view); and the sort field
    is one the entity declares sortable. *)
Lemma PlanList_scoped registry name input ctx policies p ps :
  PlanList registry name input ctx policies = Ok (p, ps) ->
  exists entity t rest,
    GetEntity registry name = Some entity /\ ScopedTenant ctx = Ok t /\
    pl_Where p = SJoin CAnd (SOp "=" (SCol "tenant_id") (SParam 1) :: SOp "=" (SCol "deleted") (SConst false) :: rest) /\
    ps !! 0%nat = Some (UUIDBind t) /\
    Forall (fun k => 1 <= k <= length ps)%nat (placeholders (pl_Where p) ++ placeholders (pl_OrderBy p).1) /\
    (forall w ps1, RecordPolicyWhereClause policies ctx [UUIDBind t] = Ok (Some w, ps1) -> w ∈ rest) /\
    (pl_Limit p <= li_Limit input)%Z /\
    (forall v, resolve_view entity (li_ListView input) = Ok (Some v) -> pl_Limit p <= Z.of_N (lv_MaxLimit v))%Z /\
    (resolve_view entity (li_ListView input) = Ok None -> pl_Limit p <= 100)%Z /\
    is_sortable entity (rs_Field (pl_ResolvedSort p)) = true.
Proof.
  unfold PlanList. destruct (GetEntity registry name) as [entity|]; [|done].
  intros (t & Ht & (view & Hview & Hplan)%rbind_ok)%rbind_ok.
  assert (Htenant : ScopedTenant ctx = Ok t) by (by destruct (ScopedTenant ctx); simplify_eq/=).
  unfold plan_with_view in Hplan.
  apply rbind_ok in Hplan as ([tph ps0] & [= <- <-] & Hplan). simpl in Hplan.
  apply rbind_ok in Hplan as ([rc ps1] & Hrc & Hplan).
  apply rbind_ok in Hplan as ([fs ps2] & Hfs & Hplan).
  apply rbind_ok in Hplan as ([[jw jo] ps3] & Hj & Hplan).
  apply rbind_ok in Hplan as ([[se ct] ps4] & Hse & Hplan).
  apply rbind_ok in Hplan as ([cs ps5] & Hcs & [= <- <-]).
  destruct (RecordPolicyWhereClause_params_app _ _ _ _ _ Hrc) as (n1 & -> & Hr1).
  destruct (appends_map (filter_condition entity) _ (fun kv _ => filter_condition_appends entity kv) _ _ _ Hfs) as (n2 & -> & Hr2).
  destruct (jql_part_appends _ _ _ _ _ Hj) as (n3 & -> & Hr3).
  destruct (sortFieldExpression_appends _ _ _ _ _ Hse) as (n4 & -> & Hr4).
  destruct (cursor_conditions_appends _ _ _ _ _ _ _ Hr4 Hcs) as (n5 & -> & Hr5).
  exists entity, t, (opt_list rc ++ fs ++ opt_list jw ++ cs). split_and!; try done.
  - unfold fst_in_range in Hr4. simpl in Hr4. simpl. constructor; [rewrite !length_app; simpl; lia|].
    rewrite !length_app in *. cbn [length] in *.
    repeat (apply Forall_app; split).
    + rewrite !flat_map_app. repeat (apply Forall_app; split).
      * destruct rc as [w|]; [|constructor]. simpl. rewrite app_nil_r. eapply in_range_mono; [by apply Hr1|lia].
      * apply in_range_flat. eapply in_range_list_mono; [exact Hr2|lia].
      * destruct jw as [w|]; [|constructor]. simpl. rewrite app_nil_r. eapply in_range_mono; [by apply Hr3|lia].
      * apply in_range_flat. eapply in_range_list_mono; [exact Hr5|lia].
    + eapply in_range_mono; [exact Hr4|lia].
  - intros w ps1 Hw. rewrite Hw in Hrc. injection Hrc as <- _. apply elem_of_app. left. apply list_elem_of_here.
  - simpl. destruct (_ <? li_Limit input)%Z eqn:E; [apply Z.ltb_lt in E|]; lia.
  - intros v Hv. rewrite Hview in Hv. injection Hv as ->. simpl. destruct (_ <? li_Limit input)%Z eqn:E; lia.
  - intros Hv. rewrite Hview in Hv. injection Hv as ->. simpl. destruct (_ <? li_Limit input)%Z eqn:E; lia.
  - apply resolve_sort_sortable.
Qed.
End PlanProperties.

(** A cursor survives its trip through the client exactly when its id has
    the shape of a UUID: a NULL sort value stays distinct from the empty
    string, and a cursor with any other id is refused. *)
Lemma cursor_roundtrip c :
  DecodeCursor (Some (EncodeCursor c)) = if isCursorUUID (cu_ID c) then Some c else None.
Proof.
  unfold EncodeCursor, DecodeCursor.
  assert (Hfold : fold_left cursor_step
    [("field", JStr (cu_Field c)); ("value", match cu_Value c with Some v => JStr v | None => JNull end);
     ("id", JStr (cu_ID c)); ("dir", JStr (cu_Dir c))] (mkCursor "" None "" "", false) = (c, false))
    by (by destruct c as [f [v|] i d]).
  rewrite Hfold. by destruct (isCursorUUID (cu_ID c)).
Qed.

(** ** Witnesses *)

Section Concrete.
#[local] Existing Instance TestUuid.

(** A table of (sort value, id) rows in descending order, NULLs first. *)
Definition keyset_rows : list (option nat * nat) :=
  [(None, 3); (None, 8); (Some 7, 1); (Some 7, 2); (Some 4, 9)]%nat.


Lemma cursorCondition_exact_witness :
  holds (keyset_scalar fst snd (SCol "created_at") (SParam 2) (SParam 3) (None, 8)%nat (Some 7, 1)%nat) Nat.eqb Nat.ltb no_other
    (cursorCondition (SCol "created_at") true None (SParam 3)) = Some true.
Proof.
  apply (cursorCondition_exact fst snd Nat.eqb Nat.ltb no_other).
  - intros x y. apply Nat.eqb_eq.
  - vm_compute. repeat (constructor; [vm_compute; set_solver|]). constructor.
  - reflexivity.
Defined.

Definition planner_registry : MetadataRegistry := mkRegistry {["shop.order" := jql_entity]} ∅ ∅.
Definition planner_input : ListInput := mkListInput 500 (Some "-createdAt") [] None None (Some "amount > 3").
Definition planned : PlannedListQuery * list BindValue :=
  Eval vm_compute in
    match PlanList planner_registry "shop.order" planner_input alice own_or_open with
    | Ok r => r
    | _ => (mkPlanned (SConst false) (SConst false, false) 0 (mkSort "" false), [])
    end.

Lemma PlanList_scoped_witness :
  exists entity t rest,
    GetEntity planner_registry "shop.order" = Some entity /\ ScopedTenant alice = Ok t /\
    pl_Where planned.1 = SJoin CAnd (SOp "=" (SCol "tenant_id") (SParam 1) :: SOp "=" (SCol "deleted") (SConst false) :: rest).
Proof.
  destruct (PlanList_scoped planner_registry "shop.order" planner_input alice own_or_open planned.1 planned.2)
    as (entity & t & rest & H1 & H2 & H3 & _).
  - vm_compute. reflexivity.
  - exists entity, t, rest. split; [exact H1|]. split; [exact H2 | exact H3].
Defined.
End Concrete.
