(* ===== verification/Records.v ===== *)
(** Records as the database keeps them, and what the CRUD service returns
    (src/go/crud/result.go, dto.go and the row helpers of helpers.go).
    Postgres is a service outside the repository: the class [Postgres] has what
    the statements of this code ask of it (the text form of jsonb, defaults of
    columns, unique indexes, running a planned list query), [PostgresLaws]
    the documented behaviour the theorems rely on. A table is the list of its
    rows; the columns the code never reads back are kept because it writes
    them. A timestamp is in microseconds since 1970, printed in UTC. *)
From S2P Require Import Prelude GoStrings Json Floats Condition Context Uuid Evaluate Snapshot PermissionService Metadata Router Payload Workflow AuditTrail Sql ConditionSql Jql Planner.

Open Scope string_scope.
Open Scope list_scope.

(** ** Results (result.go) *)

Record PageInfo : Type := mkPage { pi_Limit : Z; pi_NextCursor : option json }.

Record ServiceError : Type := mkServiceError {
  se_Status : Z;
  se_ErrorCode : string;
  se_Message : option string;
  se_FieldErrors : option FieldErrors
}.

Inductive ServiceResult (T : Type) : Type :=
| ServiceOk (data : T) (page : option PageInfo)
| ServiceErr (e : ServiceError).
Arguments ServiceOk {T} data page.
Arguments ServiceErr {T} e.

Definition ResultErr (status : Z) (errorCode : string) : ServiceError := mkServiceError status errorCode None None.
Definition ResultErrWithMessage (status : Z) (errorCode message : string) : ServiceError :=
  mkServiceError status errorCode (Some message) None.
Definition ResultErrWithFieldErrors (status : Z) (errorCode : string) (fe : FieldErrors) : ServiceError :=
  mkServiceError status errorCode None (Some fe).
Definition ResultErrWithMessageAndFieldErrors (status : Z) (errorCode message : string) (fe : FieldErrors) : ServiceError :=
  mkServiceError status errorCode (Some message) (Some fe).

(** ** Timestamps: time.Format with the layout RFC3339Nano *)

Definition pad (width : nat) (z : Z) : string :=
  let s := FormatInt z in zeros (width - String.length s) +:+ s.

(** Year, month and day of a day number since 1970-01-01. *)
Definition civil_of_days (days : Z) : Z * Z * Z :=
  (let z := days + 719468 in
   let era := z / 146097 in
   let doe := z - era * 146097 in
   let yoe := (doe - doe / 1460 + doe / 36524 - doe / 146096) / 365 in
   let doy := doe - (365 * yoe + yoe / 4 - yoe / 100) in
   let mp := (5 * doy + 2) / 153 in
   let d := doy - (153 * mp + 2) / 5 + 1 in
   let m := if mp <? 10 then mp + 3 else mp - 9 in
   (yoe + era * 400 + (if m <=? 2 then 1 else 0), m, d))%Z.

Fixpoint drop_trailing_zeros (s : string) : string :=
  match s with
  | EmptyString => ""
  | String a s' => match drop_trailing_zeros s' with
                   | EmptyString => if Ascii.eqb a "0" then "" else str1 a
                   | r => String a r
                   end
  end.

Definition format_time (micros : Z) : string :=
  (let secs := micros / 1000000 in
   let frac := drop_trailing_zeros (pad 6 (micros mod 1000000)) in
   let '(y, m, d) := civil_of_days (secs / 86400) in
   let sod := secs mod 86400 in
   pad 4 y +:+ "-" +:+ pad 2 m +:+ "-" +:+ pad 2 d +:+ "T" +:+ pad 2 (sod / 3600) +:+ ":" +:+ pad 2 ((sod / 60) mod 60)
   +:+ ":" +:+ pad 2 (sod mod 60) +:+ (if String.eqb frac "" then "" else "." +:+ frac) +:+ "Z")%Z.

Example format_times : map format_time [0; 951782400000000; 1735689599500000]%Z
  = ["1970-01-01T00:00:00Z"; "2000-02-29T00:00:00Z"; "2024-12-31T23:59:59.5Z"].
Proof. vm_compute. reflexivity. Qed.

(** ** Rows and the database *)

Section Records.
Context `{UuidLib}.

Record Row : Type := mkRow {
  r_id : uuid;
  r_tenant_id : uuid;
  r_code : option string;
  r_status : option string;
  r_data : JsonObject;
  r_version : Z;
  r_created_at : Z;
  r_updated_at : Z;
  r_created_by : option uuid;
  r_updated_by : option uuid;
  r_deleted : bool
}.

(** The tables by their qualified name, the workflow ledger and the outbox. *)
Record Database : Type := mkDatabase {
  db_tables : gmap string (list Row);
  db_events : list WorkflowEvent;
  db_outbox : list OutboxEvent
}.

Class Postgres := {
  (** A document written to a jsonb column and read back; [None] is refused. *)
  pg_jsonb : JsonObject -> option JsonObject;
  (** The ->> operator on a value that is not a string. *)
  pg_jsonb_text : json -> string;
  pg_uuid_cast : string -> option uuid;
  (** gen_random_uuid() and now(). *)
  pg_gen_uuid : Database -> uuid;
  pg_now : Database -> Z;
  (** The unique index a row would violate in a table, by its name. *)
  pg_violated : list Row -> Row -> option string;
  (** The rows of a planned list query, in order. *)
  pg_select : list Row -> PlannedListQuery -> list BindValue -> result error (list Row)
}.

Class PostgresLaws `{!Postgres} : Prop := {
  (** jsonb keeps the keys, strings and nulls as they are, and makes no other
      value a string or null. *)
  jsonb_dom : forall m m', pg_jsonb m = Some m' -> dom m' = dom m;
  jsonb_string : forall m m' k s, pg_jsonb m = Some m' -> m' !! k = Some (JStr s) <-> m !! k = Some (JStr s);
  jsonb_null : forall m m' k, pg_jsonb m = Some m' -> m' !! k = Some JNull <-> m !! k = Some JNull;
  (** What was read from a jsonb column is written back unchanged. *)
  jsonb_stable : forall m m', pg_jsonb m = Some m' -> pg_jsonb m' = Some m';
  uuid_cast_canonical : forall u : uuid, pg_uuid_cast (uuid_String u) = Some u;
  (** A generated identifier is new. *)
  gen_uuid_fresh : forall db table rows r, db_tables db !! table = Some rows -> r ∈ rows -> r_id r <> pg_gen_uuid db;
  (** A list query returns rows of the table that the query selects, at most
      one more than its limit. *)
  select_rows : forall rows q ps out, pg_select rows q ps = Ok out ->
    (forall r, r ∈ out -> r ∈ rows) /\ (length out <= Z.to_nat (pl_Limit q + 1))%nat
}.

(** ** Transfer objects (dto.go) *)

(** [rd_RelatedDisplay] is [∅] for nil. *)
Record RecordDto : Type := mkDto {
  rd_ID : uuid;
  rd_Entity : string;
  rd_Code : option string;
  rd_Status : option string;
  rd_Data : JsonObject;
  rd_Version : Z;
  rd_CreatedAt : Z;
  rd_UpdatedAt : Z;
  rd_RelatedDisplay : gmap string string
}.

Record TransitionAvailability : Type := mkAvailability {
  ta_Action : string;
  ta_Available : bool;
  ta_Reason : option string
}.

Record RecordCapabilities : Type := mkCapabilities {
  rcap_WritableFields : list string;
  rcap_CanUpdate : bool;
  rcap_CanDelete : bool;
  rcap_Transitions : list TransitionAvailability
}.

(** ** Statements *)

Inductive DbError : Type :=
| ErrNoRows
| UniqueViolation (constraint : string)
| StatementError (e : error).

Definition no_table {A} : result DbError A := Err (StatementError "relation does not exist").

Definition table_rows (db : Database) (table : string) : result DbError (list Row) :=
  match db_tables db !! table with Some rows => Ok rows | None => no_table end.

Definition scanRecordRow (r : Row) (entityName : string) : RecordDto :=
  mkDto (r_id r) entityName (r_code r) (r_status r) (r_data r) (r_version r) (r_created_at r) (r_updated_at r) ∅.

(** WHERE id = $1 AND tenant_id = $2 AND deleted = false *)
Definition live_row (id tenantID : uuid) (r : Row) : bool :=
  bool_decide (r_id r = id) && bool_decide (r_tenant_id r = tenantID) && negb (r_deleted r).

Definition fetchExisting (db : Database) (id tenantID : uuid) (entity : EntityDefinition) : result DbError (option RecordDto) :=
  let! rows := table_rows db (e_TableName entity) in
  Ok ((fun r => scanRecordRow r (e_Name entity)) <$> List.find (live_row id tenantID) rows).

Definition fetchExistingBatch (db : Database) (ids : list uuid) (tenantID : uuid) (entity : EntityDefinition)
  : result DbError (list RecordDto) :=
  let! rows := table_rows db (e_TableName entity) in
  Ok (map (fun r => scanRecordRow r (e_Name entity))
        (List.filter (fun r => bool_decide (r_id r ∈ ids) && bool_decide (r_tenant_id r = tenantID) && negb (r_deleted r)) rows)).

Definition fetchRelatedData (db : Database) (id tenantID : uuid) (refEntity : EntityDefinition) : result DbError (option JsonObject) :=
  let! rows := table_rows db (e_TableName refEntity) in
  Ok (r_data <$> List.find (live_row id tenantID) rows).

Definition fetchRelatedRecordsBatch (db : Database) (ids : gset uuid) (tenantID : uuid) (refEntity : EntityDefinition)
  : result DbError (gmap uuid JsonObject) :=
  let! rows := table_rows db (e_TableName refEntity) in
  Ok (fold_left (fun m r => <[r_id r := r_data r]> m)
        (List.filter (fun r => bool_decide (r_id r ∈ ids) && bool_decide (r_tenant_id r = tenantID) && negb (r_deleted r)) rows) ∅).

Section Statements.
Context `{!Postgres}.

(** version = version + 1 in an integer column of 32 bits. *)
Definition max_version : Z := 2147483647.

Definition set_table (db : Database) (table : string) (rows : list Row) : Database :=
  mkDatabase (<[table := rows]> (db_tables db)) (db_events db) (db_outbox db).

(** INSERT INTO table (tenant_id, code, status, data, created_by, updated_by) ... RETURNING *)
Definition insert_record (db : Database) (table : string) (tenantID : uuid) (code status : option string)
    (data : JsonObject) (userID : option uuid) : result DbError (Row * Database) :=
  let! rows := table_rows db table in
  match pg_jsonb data with
  | None => Err (StatementError "unsupported Unicode escape sequence")
  | Some stored =>
    let row := mkRow (pg_gen_uuid db) tenantID code status stored 1 (pg_now db) (pg_now db) userID userID false in
    match pg_violated rows row with
    | Some constraint => Err (UniqueViolation constraint)
    | None => Ok (row, set_table db table (rows ++ [row]))
    end
  end.

(** WHERE id = $4 AND tenant_id = $5 AND version = $6 AND deleted = false *)
Definition version_row (id tenantID : uuid) (expectedVersion : Z) (r : Row) : bool :=
  live_row id tenantID r && (r_version r =? expectedVersion)%Z.

(** UPDATE table SET ... WHERE id, tenant_id, version, deleted = false RETURNING:
    [change] is the SET list, on the row found. *)
Definition update_record (db : Database) (table : string) (id tenantID : uuid) (expectedVersion : Z)
    (change : Row -> result DbError Row) : result DbError (Row * Database) :=
  let! rows := table_rows db table in
  let matches := version_row id tenantID expectedVersion in
  match List.find matches rows with
  | None => Err ErrNoRows
  | Some r =>
    if (max_version <=? r_version r)%Z then Err (StatementError "integer out of range") else
    let! r' := change r in
    match pg_violated (List.filter (fun x => negb (matches x)) rows) r' with
    | Some constraint => Err (UniqueViolation constraint)
    | None => Ok (r', set_table db table (map (fun x => if matches x then r' else x) rows))
    end
  end.

(** ($1::jsonb - $7::text[]) || the stored members named in $7. *)
Definition keep_system (systemFields : list string) (stored new : JsonObject) : JsonObject :=
  filter (fun kv => kv.1 ∈ systemFields) stored ∪ filter (fun kv => kv.1 ∉ systemFields) new.

Definition set_updated (data : JsonObject) (code : option string) (userID : option uuid) (systemFields : list string)
    (now : Z) (r : Row) : result DbError Row :=
  match pg_jsonb data with
  | None => Err (StatementError "unsupported Unicode escape sequence")
  | Some stored =>
    Ok (mkRow (r_id r) (r_tenant_id r) code (r_status r) (keep_system systemFields (r_data r) stored) (r_version r + 1)
          (r_created_at r) now (r_created_by r) userID (r_deleted r))
  end.

Definition set_transitioned (data : JsonObject) (toState : string) (userID : option uuid) (now : Z) (r : Row) : result DbError Row :=
  match pg_jsonb data with
  | None => Err (StatementError "unsupported Unicode escape sequence")
  | Some stored =>
    Ok (mkRow (r_id r) (r_tenant_id r) (r_code r) (Some toState) stored (r_version r + 1)
          (r_created_at r) now (r_created_by r) userID (r_deleted r))
  end.

Definition set_deleted (userID : option uuid) (now : Z) (r : Row) : result DbError Row :=
  Ok (mkRow (r_id r) (r_tenant_id r) (r_code r) (r_status r) (r_data r) (r_version r + 1)
        (r_created_at r) now (r_created_by r) userID true).
End Statements.
End Records.
