(* ===== verification/Times.v ===== *)
(** Instants as text: time.Time's JSON decoding (RFC 3339, read strictly), and that it
    reads back what [format_time] prints for every instant of the years 0 to 9999.
    An instant is its microseconds since 1970-01-01; finer digits are dropped. *)
From S2P Require Import Prelude GoStrings GoText Json Floats Numbers Condition Context Uuid Evaluate Snapshot PermissionService PolicyStore Metadata Schema Router Payload Workflow AuditTrail Sql ConditionSql Jql Planner Records.

Open Scope string_scope.
Open Scope list_scope.

(** [n] digits at the start of the text, and the rest. *)
Fixpoint read_digits (n : nat) (s : string) : option (Z * string) :=
  match n with
  | O => Some (0%Z, s)
  | S k =>
    match read_digits k s with
    | Some (v, String a s') => if is_digit (byte_of a) then Some ((v * 10 + Z.of_N (byte_of a - 48))%Z, s') else None
    | _ => None
    end
  end.

(** A field of [n] digits within its bounds, then a text that must follow. *)
Definition read_field (n : nat) (lo hi : Z) (sep : string) (s : string) : option (Z * string) :=
  match read_digits n s with
  | Some (v, r) => if ((lo <=? v) && (v <=? hi))%Z then (fun r => (v, r)) <$> CutPrefix r sep else None
  | None => None
  end.

(** The day number of a date, and the days of its month. *)
Definition days_of_civil (y m d : Z) : Z :=
  (let y' := y - (if m <=? 2 then 1 else 0) in
   let mp := if m <=? 2 then m + 9 else m - 3 in
   let doy := (153 * mp + 2) / 5 + d - 1 in
   let yoe := y' mod 400 in
   y' / 400 * 146097 + (365 * yoe + yoe / 4 - yoe / 100 + doy) - 719468)%Z.

Definition is_leap (y : Z) : bool := ((y mod 4 =? 0) && (negb (y mod 100 =? 0) || (y mod 400 =? 0)))%Z.

Definition days_in (y m : Z) : Z :=
  if (m =? 2)%Z then (if is_leap y then 29 else 28)
  else if bool_decide (m ∈ [4; 6; 9; 11]%Z) then 30 else 31.

(** The digits after the point, as microseconds. *)
Fixpoint right_pad (n : nat) (s : string) : string :=
  match n, s with
  | O, _ => ""
  | S k, EmptyString => String "0" (right_pad k "")
  | S k, String a s' => String a (right_pad k s')
  end.

Fixpoint span_digits (s : string) : string * string :=
  match s with
  | String a s' => if is_digit (byte_of a) then let '(d, r) := span_digits s' in (String a d, r) else ("", s)
  | EmptyString => ("", "")
  end.

Definition read_fraction (s : string) : option (Z * string) :=
  match CutPrefix s "." with
  | None => Some (0%Z, s)
  | Some r =>
    match span_digits r with
    | (EmptyString, _) => None
    | (d, r') => (fun p => (p.1, r')) <$> read_digits 6 (right_pad 6 d)
    end
  end.

(** The offset of the zone in seconds. *)
Definition read_zone (s : string) : option Z :=
  match s with
  | String sign r =>
    if Ascii.eqb sign "Z" then (if String.eqb r "" then Some 0%Z else None)
    else if Ascii.eqb sign "+" || Ascii.eqb sign "-" then
      match read_field 2 0 23 ":" r with
      | Some (h, r) =>
        match read_field 2 0 59 "" r with
        | Some (m, EmptyString) => Some ((if Ascii.eqb sign "-" then -1 else 1) * (h * 3600 + m * 60))%Z
        | _ => None
        end
      | None => None
      end
    else None
  | EmptyString => None
  end.

Definition parse_time (s : string) : option Z :=
  y ← read_field 4 0 9999 "-" s; m ← read_field 2 1 12 "-" y.2; d ← read_field 2 1 (days_in y.1 m.1) "T" m.2;
  hh ← read_field 2 0 23 ":" d.2; mm ← read_field 2 0 59 ":" hh.2; ss ← read_field 2 0 59 "" mm.2;
  f ← read_fraction ss.2; z ← read_zone f.2;
  Some (((days_of_civil y.1 m.1 d.1 * 86400 + hh.1 * 3600 + mm.1 * 60 + ss.1 - z) * 1000000 + f.1)%Z).

Example parse_times :
  map parse_time ["1970-01-01T00:00:00Z"; "2000-02-29T01:00:00+01:00"; "2024-12-31T23:59:59.5Z"; "2023-02-29T00:00:00Z"; "2024-1-31T23:59:59Z"]
  = [Some 0; Some 951782400000000; Some 1735689599500000; None; None]%Z.
Proof. vm_compute. reflexivity. Qed.

(** ** The printed fields *)

Definition digit_char (z : Z) : ascii := pretty_N_char (Z.to_N z).

Fixpoint digits_text (w : nat) (z : Z) : string :=
  match w with O => "" | S k => digits_text k (z / 10) +:+ str1 (digit_char (z mod 10)) end.

Lemma digit_char_value z : (0 <= z < 10)%Z -> is_digit (byte_of (digit_char z)) = true /\ Z.of_N (byte_of (digit_char z) - 48) = z.
Proof.
  intros Hz. assert (Hc : In z [0; 1; 2; 3; 4; 5; 6; 7; 8; 9]%Z) by (simpl; lia).
  simpl in Hc. destruct_or! Hc; try done; by subst z.
Qed.

Lemma str1_app a s : str1 a +:+ s = String a s.
Proof. done. Qed.

Lemma read_digits_text w : forall z s, (0 <= z < 10 ^ Z.of_nat w)%Z -> read_digits w (digits_text w z +:+ s) = Some (z, s).
Proof.
  induction w as [|w IH]; intros z s Hz.
  - cbn. by replace z with 0%Z by (cbn in Hz; lia).
  - cbn [digits_text read_digits]. rewrite <- app_str_assoc, str1_app.
    rewrite Nat2Z.inj_succ, Z.pow_succ_r in Hz by lia.
    rewrite IH by (split; [apply Z.div_pos; lia|apply Z.div_lt_upper_bound; lia]).
    destruct (digit_char_value (z mod 10)) as [-> ->]; [apply Z.mod_pos_bound; lia|].
    do 2 f_equal. pose proof (Z.div_mod z 10). lia.
Qed.

Lemma FormatInt_small z : (0 <= z < 10)%Z -> FormatInt z = str1 (digit_char z).
Proof.
  intros Hz. assert (Hc : In z [0; 1; 2; 3; 4; 5; 6; 7; 8; 9]%Z) by (simpl; lia).
  simpl in Hc. destruct_or! Hc; try done; subst z; vm_compute; reflexivity.
Qed.

Lemma pretty_N_go_app n s : pretty_N_go n s = pretty_N_go n "" +:+ s.
Proof.
  revert s. induction n as [n IH] using (well_founded_ind N.lt_wf_0). intros s. destruct (decide (n = 0%N)) as [->|Hn].
  - by rewrite !pretty_N_go_0.
  - rewrite !(pretty_N_go_step n) by lia. assert (Hlt : (n `div` 10 < n)%N) by (apply N.div_lt; lia).
    rewrite (IH _ Hlt (String _ s)), (IH _ Hlt (String _ "")), <- app_str_assoc. done.
Qed.

Lemma FormatInt_step z : (10 <= z)%Z -> FormatInt z = FormatInt (z / 10) +:+ str1 (digit_char (z mod 10)).
Proof.
  intros Hz. assert (Hp : forall x, (0 < x)%Z -> FormatInt x = pretty_N_go (Z.to_N x) "").
  { intros [|p|p] Hx; [lia| |lia]. done. }
  assert (0 < z / 10)%Z by (apply Z.div_str_pos; lia).
  rewrite !Hp by lia. rewrite (pretty_N_go_step (Z.to_N z)) by lia. rewrite pretty_N_go_app.
  unfold digit_char. rewrite Z2N.inj_div, Z2N.inj_mod by lia. done.
Qed.

Lemma pad_digits w : forall z, (0 < w)%nat -> (0 <= z < 10 ^ Z.of_nat w)%Z -> pad w z = digits_text w z.
Proof.
  induction w as [|w IH]; intros z Hw Hz; [lia|]. unfold pad. destruct (decide (z < 10)%Z) as [Hs|Hs].
  - rewrite FormatInt_small by lia. cbn [String.length digits_text str1]. rewrite Z.mod_small, Z.div_small by lia.
    f_equal. rewrite Nat.sub_succ, Nat.sub_0_r. clear. induction w as [|w IH]; [done|]. cbn [digits_text]. rewrite Z.div_0_l, Z.mod_0_l by lia.
    rewrite <- IH. clear IH. induction w as [|w IH]; [done|]. cbn [zeros]. change (String "0" (zeros w)) with (zeros (S w)).
    cbn [zeros]. rewrite IH at 1. done.
  - rewrite FormatInt_step by lia. cbn [digits_text]. destruct w as [|w].
    { cbn in Hz. lia. }
    rewrite Nat2Z.inj_succ, Z.pow_succ_r in Hz by lia.
    rewrite <- IH by first [lia | split; [apply Z.div_pos; lia|apply Z.div_lt_upper_bound; lia]]. unfold pad.
    rewrite length_app_str. cbn [String.length str1]. rewrite <- app_str_assoc. do 2 f_equal. lia.
Qed.

Lemma read_pad w z s : (0 < w)%nat -> (0 <= z < 10 ^ Z.of_nat w)%Z -> read_digits w (pad w z +:+ s) = Some (z, s).
Proof. intros Hw Hz. rewrite pad_digits by done. by apply read_digits_text. Qed.

Lemma read_field_pad w lo hi sep z s :
  (0 < w)%nat -> (0 <= z < 10 ^ Z.of_nat w)%Z -> (lo <= z <= hi)%Z -> read_field w lo hi sep (pad w z +:+ (sep +:+ s)) = Some (z, s).
Proof.
  intros Hw Hz Hb. unfold read_field. rewrite read_pad by done.
  assert ((lo <=? z)%Z && (z <=? hi)%Z = true) as -> by (apply andb_true_iff; rewrite !Z.leb_le; lia).
  assert (CutPrefix (sep +:+ s) sep = Some s) as -> by (by apply CutPrefix_Some). done.
Qed.

(** ** The fraction *)

Lemma right_pad_drop s : right_pad (String.length s) (drop_trailing_zeros s) = s.
Proof.
  induction s as [|a s IH]; [done|]. cbn [String.length drop_trailing_zeros]. destruct (drop_trailing_zeros s) as [|b r].
  - destruct (Ascii.eqb_spec a "0") as [->|Hn]; cbn [right_pad str1]; by rewrite IH.
  - cbn [right_pad]. by rewrite IH.
Qed.

Definition digit_byte (a : ascii) : bool := is_digit (byte_of a).

Lemma all_bytes_app f a b : all_bytes f (a +:+ b) = all_bytes f a && all_bytes f b.
Proof.
  induction a as [|x a IH]; [done|]. change (String x a +:+ b) with (String x (a +:+ b)). cbn [all_bytes]. by rewrite IH, andb_assoc.
Qed.

Lemma all_digits_text w z : (0 <= z)%Z -> all_bytes digit_byte (digits_text w z) = true.
Proof.
  revert z. induction w as [|w IH]; intros z Hz; [done|]. cbn [digits_text]. rewrite all_bytes_app, IH by (apply Z.div_pos; lia).
  cbn. unfold digit_byte. destruct (digit_char_value (z mod 10)) as [-> _]; [apply Z.mod_pos_bound; lia|done].
Qed.

Lemma all_digits_drop s : all_bytes digit_byte s = true -> all_bytes digit_byte (drop_trailing_zeros s) = true.
Proof.
  induction s as [|a s IH]; [done|]. cbn [all_bytes drop_trailing_zeros]. intros [Ha Hs]%andb_true_iff. specialize (IH Hs).
  destruct (drop_trailing_zeros s) as [|b r].
  - destruct (Ascii.eqb a "0"); [done|]. cbn. by rewrite Ha.
  - cbn [all_bytes] in *. by rewrite Ha.
Qed.

Lemma span_digits_all s a r : all_bytes digit_byte s = true -> digit_byte a = false -> span_digits (s +:+ String a r) = (s, String a r).
Proof.
  intros Hs Ha. unfold digit_byte in *. induction s as [|b s IH].
  - change ("" +:+ String a r) with (String a r). cbn [span_digits]. by rewrite Ha.
  - cbn [all_bytes] in Hs. apply andb_true_iff in Hs as [Hb Hs]. change (String b s +:+ String a r) with (String b (s +:+ String a r)).
    cbn [span_digits]. rewrite Hb. by rewrite (IH Hs).
Qed.

Lemma digits_text_length w z : String.length (digits_text w z) = w.
Proof. revert z. induction w as [|w IH]; intros z; [done|]. cbn [digits_text]. rewrite length_app_str, IH. cbn. lia. Qed.

Lemma read_fraction_back z :
  (0 <= z < 1000000)%Z ->
  let frac := drop_trailing_zeros (pad 6 z) in
  read_fraction ((if String.eqb frac "" then "" else "." +:+ frac) +:+ "Z") = Some (z, "Z").
Proof.
  intros Hz frac. assert (Hp : pad 6 z = digits_text 6 z) by (apply pad_digits; cbn; lia).
  assert (Hback : read_digits 6 (right_pad 6 frac) = Some (z, "")).
  { unfold frac. rewrite Hp. rewrite <- (digits_text_length 6 z) at 2. rewrite right_pad_drop.
    rewrite <- (str_app_nil_r (digits_text 6 z)). by apply read_digits_text. }
  assert (Hd : all_bytes digit_byte frac = true) by (unfold frac; rewrite Hp; apply all_digits_drop, all_digits_text; lia).
  unfold read_fraction. destruct frac as [|a f] eqn:E; cbn [String.eqb].
  - assert (Some (0%Z, "") = Some (z, "")) as [= <-] by (rewrite <- Hback; reflexivity). done.
  - assert (CutPrefix (("." +:+ String a f) +:+ "Z") "." = Some (String a f +:+ "Z")) as -> by (by apply CutPrefix_Some).
    rewrite (span_digits_all (String a f) "Z" "") by done. by rewrite Hback.
Qed.

(** ** The calendar *)

Lemma civil_bounds doe :
  (0 <= doe <= 146096)%Z ->
  let yoe := ((doe - doe / 1460 + doe / 36524 - doe / 146096) / 365)%Z in
  (0 <= yoe <= 399 /\ 0 <= doe - (365 * yoe + yoe / 4 - yoe / 100) <= 365)%Z.
Proof. intros H yoe. unfold yoe. Z.div_mod_to_equations. lia. Qed.

Lemma month_bounds doy :
  (0 <= doy <= 365)%Z ->
  let mp := ((5 * doy + 2) / 153)%Z in (0 <= mp <= 11 /\ 1 <= doy - (153 * mp + 2) / 5 + 1 <= 31)%Z.
Proof. intros H mp. unfold mp. Z.div_mod_to_equations. lia. Qed.

(** The last day of a long year is a 29 February. *)
Lemma long_year doe :
  (0 <= doe <= 146096)%Z ->
  let yoe := ((doe - doe / 1460 + doe / 36524 - doe / 146096) / 365)%Z in
  (doe - (365 * yoe + yoe / 4 - yoe / 100) = 365)%Z -> ((yoe + 1) mod 4 = 0 /\ ((yoe + 1) mod 100 <> 0 \/ (yoe + 1) mod 400 = 0))%Z.
Proof. intros H yoe. unfold yoe. Z.div_mod_to_equations. lia. Qed.

Lemma leap_period y k : is_leap (y + k * 400) = is_leap y.
Proof.
  unfold is_leap. replace (y + k * 400)%Z with (y + (k * 100) * 4)%Z at 1 by lia. replace (y + k * 400)%Z with (y + (k * 4) * 100)%Z at 1 by lia.
  by rewrite !Z.mod_add by lia.
Qed.

(** The date of a day is one of the calendar, and gives the day back. *)
Lemma civil_back days :
  let '(y, m, d) := civil_of_days days in
  days_of_civil y m d = days /\ (1 <= m <= 12)%Z /\ (1 <= d <= days_in y m)%Z.
Proof.
  unfold civil_of_days. set (z := (days + 719468)%Z). set (era := (z / 146097)%Z). set (doe := (z - era * 146097)%Z).
  assert (Hdoe : (0 <= doe <= 146096)%Z) by (unfold doe, era; Z.div_mod_to_equations; lia).
  destruct (civil_bounds doe Hdoe) as [Hy Hdoy]. set (yoe := ((doe - doe / 1460 + doe / 36524 - doe / 146096) / 365)%Z) in *.
  set (doy := (doe - (365 * yoe + yoe / 4 - yoe / 100))%Z) in *. destruct (month_bounds doy Hdoy) as [Hm Hday].
  set (mp := ((5 * doy + 2) / 153)%Z) in *. set (d := (doy - (153 * mp + 2) / 5 + 1)%Z) in *.
  set (m := (if mp <? 10 then mp + 3 else mp - 9)%Z).
  assert (Hm' : (1 <= m <= 12)%Z /\ ((if m <=? 2 then m + 9 else m - 3) = mp)%Z).
  { unfold m. destruct (Z.ltb_spec mp 10); match goal with |- context [(?a <=? 2)%Z] => destruct (Z.leb_spec a 2) end; lia. }
  destruct Hm' as [Hm1 Hm2]. split_and!; try lia.
  - unfold days_of_civil. rewrite Hm2. rewrite Z.add_simpl_r.
    rewrite Z.mod_add, Z.div_add, Z.mod_small, Z.div_small by lia. unfold d, doy, doe, z. lia.
  - assert (Hleap : (doy = 365)%Z -> is_leap (yoe + 1) = true).
    { intros He. destruct (long_year doe Hdoe He) as [H4 H1]. fold yoe in H4, H1. unfold is_leap. apply andb_true_iff. split; [by apply Z.eqb_eq|].
      apply orb_true_iff. destruct H1 as [H1|H1]; [left; apply negb_true_iff, Z.eqb_neq; done|right; by apply Z.eqb_eq]. }
    assert (Hmp : In mp [0; 1; 2; 3; 4; 5; 6; 7; 8; 9; 10; 11]%Z) by (simpl; lia).
    assert (Hmd : (mp * 153 <= 5 * doy + 2 < (mp + 1) * 153)%Z) by (unfold mp; Z.div_mod_to_equations; lia).
    unfold d, m. clearbody mp doy yoe era. clear - Hmp Hmd Hleap Hdoy. simpl in Hmp.
    assert (Hfeb : forall y, days_in y 2 = if is_leap y then 29%Z else 28%Z) by done.
    destruct_or! Hmp; try done; subst mp;
      match goal with |- (_ <= days_in ?y ?m)%Z => let m' := eval vm_compute in m in change m with m' end;
      try match goal with |- (_ <= days_in _ 2)%Z => fail 1 | |- (_ <= ?r)%Z => let r' := eval vm_compute in r in change r with r' end;
      try (Z.div_mod_to_equations; lia).
    rewrite Hfeb. change (if (2 <=? 2)%Z then 1%Z else 0%Z) with 1%Z. replace (yoe + era * 400 + 1)%Z with (yoe + 1 + era * 400)%Z by lia.
    rewrite leap_period. destruct (decide (doy = 365)%Z) as [He|He]; [rewrite (Hleap He)|destruct (is_leap _)]; Z.div_mod_to_equations; lia.
Qed.

(** ** The round trip *)

(** The instants of the years 0 to 9999. *)
Definition printable_time (t : Z) : Prop := (-62167219200000000 <= t < 253402300800000000)%Z.

Lemma civil_year days : (-719528 <= days < 2932897)%Z -> let '(y, _, _) := civil_of_days days in (0 <= y <= 9999)%Z.
Proof.
  intros Hd. unfold civil_of_days. set (z := (days + 719468)%Z). set (era := (z / 146097)%Z). set (doe := (z - era * 146097)%Z).
  assert (Hz : (0 <= doe <= 146096 /\ -1 <= era <= 24 /\ (era = -1 -> 146037 <= doe) /\ (era = 24 -> doe <= 146036))%Z)
    by (unfold doe, era, z; Z.div_mod_to_equations; lia).
  destruct Hz as (Hdoe & Hera & Hlo & Hhi). destruct (civil_bounds doe Hdoe) as [Hy Hdoy].
  set (yoe := ((doe - doe / 1460 + doe / 36524 - doe / 146096) / 365)%Z) in *.
  set (doy := (doe - (365 * yoe + yoe / 4 - yoe / 100))%Z) in *. destruct (month_bounds doy Hdoy) as [Hm _].
  assert (Hlate : (146037 <= doe -> yoe = 399 /\ 306 <= doy)%Z) by (unfold doy, yoe; clearbody doe; clear - Hdoe; intros; Z.div_mod_to_equations; lia).
  assert (Hearly : (doe <= 146036 -> yoe = 399 -> doy <= 305)%Z) by (unfold doy; clearbody doe yoe; intros ? ->; Z.div_mod_to_equations; lia).
  set (mp := ((5 * doy + 2) / 153)%Z) in *.
  assert (Hmp : (306 <= doy <-> 10 <= mp)%Z) by (unfold mp; clear; Z.div_mod_to_equations; lia).
  clearbody mp doy yoe doe era. destruct (Z.ltb_spec mp 10).
  - destruct (Z.leb_spec (mp + 3) 2); lia.
  - destruct (Z.leb_spec (mp - 9) 2); lia.
Qed.

(** What is printed for a time is read back as the same time. *)
Lemma parse_format_time t : printable_time t -> parse_time (format_time t) = Some t.
Proof.
  intros Ht. unfold printable_time in Ht. unfold format_time, parse_time.
  set (secs := (t / 1000000)%Z). set (sod := (secs mod 86400)%Z).
  assert (Hdays : (-719528 <= secs / 86400 < 2932897)%Z) by (unfold secs; Z.div_mod_to_equations; lia).
  pose proof (civil_back (secs / 86400)) as Hc. pose proof (civil_year (secs / 86400) Hdays) as Hy.
  destruct (civil_of_days (secs / 86400)) as [[y m] d]. destruct Hc as (Hback & Hm & Hd).
  assert (Hd31 : (days_in y m <= 31)%Z) by (unfold days_in; repeat case_match; lia).
  assert (Hsod : (0 <= sod < 86400)%Z) by (apply Z.mod_pos_bound; lia).
  assert (Hh : (0 <= sod / 3600 <= 23)%Z) by (Z.div_mod_to_equations; lia).
  assert (Hmi : (0 <= (sod / 60) mod 60 <= 59)%Z) by (Z.div_mod_to_equations; lia).
  assert (Hs : (0 <= sod mod 60 <= 59)%Z) by (Z.div_mod_to_equations; lia).
  assert (Hsec : forall r, read_field 2 0 59 "" (pad 2 (sod mod 60) +:+ r) = Some ((sod mod 60)%Z, r))
    by (intros r; apply (read_field_pad 2 0 59 ""); cbn; lia).
  pose proof (read_fraction_back (t mod 1000000) ltac:(apply Z.mod_pos_bound; lia)) as Hf. cbv zeta in Hf.
  do 5 (rewrite read_field_pad by (cbn; lia); cbn [mbind option_bind fst snd]).
  rewrite Hsec. cbn [mbind option_bind fst snd].
  rewrite Hf. cbn [mbind option_bind fst snd]. change (read_zone "Z") with (Some 0%Z). cbn [mbind option_bind]. rewrite Hback. f_equal.
  unfold sod, secs. clear. Z.div_mod_to_equations. lia.
Qed.
