(* ===== verification/Crud.v ===== *)
(** The CRUD service (src/go/crud): the handlers of every record operation,
    whole: permission checks, validation, the transactions, the events they
    emit and the audit entry they leave.

    A handler is a state transformer over the [World] (the database, the policy
    cache, the audit store, the cache of context attributes) that ends with a
    value, with the refusal of a ServiceResult, or with an error. A transaction
    that is rolled back leaves the database as it was, so writes are installed
    where the code commits. A handler that checks in one transaction and writes
    in another takes what the other sessions commit between the two as an
    argument, [others]; the identity is the case of no concurrent writer. *)
From S2P Require Import Prelude GoStrings Json Floats Condition Context Uuid Evaluate Snapshot PermissionService Metadata Router Payload Workflow AuditTrail Sql ConditionSql Jql Planner Records.

Open Scope string_scope.
Open Scope list_scope.

(** ** Handlers *)

Inductive exit : Type :=
| Refused (e : ServiceError)
| Failed (e : error).

Definition Handler (W A : Type) : Type := W -> result exit A * W.

Definition hret {W A} (a : A) : Handler W A := fun w => (Ok a, w).
Definition refuse {W A} (e : ServiceError) : Handler W A := fun w => (Err (Refused e), w).
Definition hfail {W A} (e : error) : Handler W A := fun w => (Err (Failed e), w).
Definition hpanic {W A} : Handler W A := fun w => (Panic, w).

Definition hbind {W A B} (m : Handler W A) (k : A -> Handler W B) : Handler W B :=
  fun w => match m w with
           | (Ok a, w') => k a w'
           | (Err e, w') => (Err e, w')
           | (Panic, w') => (Panic, w')
           end.

Notation "'let*' x := c 'in' k" := (hbind c (fun x => k))
  (at level 10, x pattern, c at level 200, k at level 200) : go_scope.

Definition hlift {W A} (r : result error A) : Handler W A :=
  fun w => (match r with Ok a => Ok a | Err e => Err (Failed e) | Panic => Panic end, w).

(** if !ok { return refusal } *)
Definition require {W} (ok : bool) (e : ServiceError) : Handler W unit := if ok then hret tt else refuse e.

Definition require_some {W A} (o : option A) (e : ServiceError) : Handler W A :=
  match o with Some a => hret a | None => refuse e end.

Definition refuse_if {W} (o : option ServiceError) : Handler W unit :=
  match o with Some e => refuse e | None => hret tt end.

(** What the caller of the method sees. *)
Definition run {W A} (m : Handler W A) (page : A -> option PageInfo) (w : W) : result error (ServiceResult A) * W :=
  match m w with
  | (Ok a, w') => (Ok (ServiceOk a (page a)), w')
  | (Err (Refused e), w') => (Ok (ServiceErr e), w')
  | (Err (Failed e), w') => (Err e, w')
  | (Panic, w') => (Panic, w')
  end.

Section Crud.
Context `{UuidLib} `{!Postgres} {St C A : Type} `{!PolicyStore St} `{!Cache C} `{!AuditStore A}.

(** ContextAttributesCache (src/go/control/authcontext.go), by its keys. *)
Definition ContextAttributesCache := gmap string json.
Definition ctx_cache_key (tenantID userID : uuid) : string := uuid_String tenantID +:+ "/" +:+ uuid_String userID.
Definition ctx_cache_Invalidate (c : ContextAttributesCache) (tenantID userID : uuid) : ContextAttributesCache :=
  delete (ctx_cache_key tenantID userID) c.

Record World : Type := mkWorld {
  w_db : Database;
  w_policyCache : option C;
  w_audit : option A;
  w_contextCache : ContextAttributesCache
}.

(** What a service is built with; the audit store, when there is one, is in
    the world. [cs_clock] is time.Now. *)
Record CrudService : Type := mkCrudService {
  cs_router : Router;
  cs_metadata : MetadataRegistry;
  cs_policies : St;
  cs_contextInvalidation : option string;
  cs_metadataResolver : option (uuid -> result error MetadataRegistry);
  cs_clock : Z
}.

Definition set_db (w : World) (db : Database) : World :=
  mkWorld db (w_policyCache w) (w_audit w) (w_contextCache w).

Definition get_db : Handler World Database := fun w => (Ok (w_db w), w).
(** tx.Commit of a transaction that holds [db]. *)
Definition commit (db : Database) : Handler World unit := fun w => (Ok tt, set_db w db).
(** What other sessions commit meanwhile. *)
Definition interleave (others : Database -> Database) : Handler World unit :=
  fun w => (Ok tt, set_db w (others (w_db w))).

Definition dberror_text (e : DbError) : error :=
  match e with
  | ErrNoRows => "no rows in result set"
  | UniqueViolation c => "duplicate key value violates unique constraint " +:+ quote +:+ c +:+ quote
  | StatementError e => e
  end.

(** A statement whose error is only passed on. *)
Definition hquery {B} (r : result DbError B) : Handler World B :=
  hlift (match r with Ok b => Ok b | Err e => Err (dberror_text e) | Panic => Panic end).

Definition LoadSnapshotM (s : CrudService) (tenantID : uuid) (entity : string) : Handler World PermissionSnapshot :=
  fun w =>
    let '(r, c) := LoadSnapshot (cs_policies s) (w_policyCache w) tenantID entity in
    (match r with Ok a => Ok a | Err e => Err (Failed e) | Panic => Panic end,
     mkWorld (w_db w) c (w_audit w) (w_contextCache w)).

(** ** Helpers (helpers.go, crud_service.go) *)

Definition parseUserID (rc : RequestContext) : result error (option uuid) :=
  if String.eqb (rc_UserID rc) "" then Ok None
  else match uuid_Parse (rc_UserID rc) with Some u => Ok (Some u) | None => Err uuid_parse_error end.

Definition decision_reason (d : PermissionDecision) : string :=
  if String.eqb (pd_Reason d) "" then "forbidden" else pd_Reason d.

Definition forbidden (d : PermissionDecision) : ServiceError := ResultErr 403 (decision_reason d).

Definition forbiddenWithField (d : PermissionDecision) : ServiceError :=
  if negb (String.eqb (pd_Field d) "")
  then ResultErrWithFieldErrors 403 (decision_reason d) {[ pd_Field d := ["forbidden"] ]}
  else ResultErr 403 (decision_reason d).

Definition compositeUniqueIndexName (prefix : string) (fields : list string) : string := prefix +:+ Join fields "_".

Definition unnamedUniqueViolation (entity : EntityDefinition) : ServiceError :=
  ResultErrWithMessage 409 "unique_violation"
    ("A unique constraint was violated on " +:+ quote +:+ e_Name entity +:+ quote +:+ ".").

Definition replace_dots (s : string) : string := Join (Split s ".") "_".

Definition uniqueViolation (entity : EntityDefinition) (err : DbError) : option ServiceError :=
  match err with
  | UniqueViolation constraintName =>
    if String.eqb constraintName "" then Some (unnamedUniqueViolation entity)
    else
      let prefix := "uniq_" +:+ replace_dots (e_Name entity) +:+ "_" in
      match List.find (fun c => String.eqb (compositeUniqueIndexName prefix (uc_Fields c)) constraintName)
              (e_UniqueConstraints entity) with
      | Some c =>
        Some (ResultErrWithFieldErrors 409 "unique_violation"
          (fold_left (fun m f => <[f := ["A record with this combination of values already exists."]]> m) (uc_Fields c) ∅))
      | None =>
        match CutPrefix constraintName prefix with
        | Some field => Some (ResultErrWithFieldErrors 409 "unique_violation"
                          {[ field := ["A record with this value already exists."] ]})
        | None => Some (unnamedUniqueViolation entity)
        end
      end
  | _ => None
  end.

Definition routerUnavailable (e : RouterFailure) : option ServiceError :=
  match e with
  | RouterError (ErrTenantSuspended | ErrTenantExpired) _ => Some (ResultErr 403 "tenant_unavailable")
  | RouterError (ErrTenantMigrating | ErrTenantProvisioning) _ => Some (ResultErr 503 "tenant_unavailable")
  | RouterError ErrTenantDeleted _ => Some (ResultErr 404 "tenant_not_found")
  | RouterError ErrInvalidSchemaName _ => None
  | OtherFailure _ => None
  end.

Definition failure_text (e : RouterFailure) : error :=
  match e with RouterError k n => RouterError_Error k n | OtherFailure e => e end.

(** router.Begin with the mapping of its errors; the transaction sees the
    database as it is now. *)
Definition begin_tx (s : CrudService) (tenantID : uuid) : Handler World Database :=
  match Begin (cs_router s) tenantID with
  | Ok _ => get_db
  | Err e => match routerUnavailable e with Some r => refuse r | None => hfail (failure_text e) end
  | Panic => hpanic
  end.

(** router.Begin where every error is passed on. *)
Definition begin_raw (s : CrudService) (tenantID : uuid) : Handler World Database :=
  match Begin (cs_router s) tenantID with
  | Ok _ => get_db
  | Err e => hfail (failure_text e)
  | Panic => hpanic
  end.

Definition registryFor (s : CrudService) (tenantID : uuid) : result error MetadataRegistry :=
  match cs_metadataResolver s with
  | Some resolve => resolve tenantID
  | None => Ok (cs_metadata s)
  end.

(** The first steps of every method: tenant, registry, entity. *)
Definition open_entity (s : CrudService) (entityName : string) (rc : RequestContext)
  : Handler World (uuid * MetadataRegistry * EntityDefinition) :=
  let* tenantID := hlift (ScopedTenant rc) in
  let* registry := hlift (registryFor s tenantID) in
  let* entity := require_some (GetEntity registry entityName) (ResultErr 404 "entity_not_found") in
  hret (tenantID, registry, entity).

(** Check a decision of the permission service. *)
Definition authorize (r : result error PermissionDecision) : Handler World unit :=
  let* decision := hlift r in
  require (pd_Allowed decision) (forbidden decision).

Definition maskRecordForRead (entity : EntityDefinition) (rc : RequestContext) (snapshot : PermissionSnapshot)
    (row : RecordDto) : RecordDto :=
  let filteredData := FilterReadableFields snapshot rc (rd_Data row) in
  mkDto (rd_ID row) (rd_Entity row)
    (if is_some (filteredData !! "code") then rd_Code row else None)
    (match e_Workflow entity with
     | Some w => if is_some (filteredData !! w_StateField w) then rd_Status row else None
     | None => rd_Status row
     end)
    filteredData (rd_Version row) (rd_CreatedAt row) (rd_UpdatedAt row) (rd_RelatedDisplay row).

Definition opt_string (s : string) : option string := if String.eqb s "" then None else Some s.

Definition transition_availability (entity : EntityDefinition) (rc : RequestContext) (snapshot : PermissionSnapshot)
    (transitionDecision : PermissionDecision) (guardSubject : JsonObject) (t : WorkflowTransition) : TransitionAvailability :=
  if negb (pd_Allowed transitionDecision) then mkAvailability (t_Action t) false (opt_string (pd_Reason transitionDecision))
  else
    let actionDecision := snapshot_CanTransitionAction snapshot rc (e_Name entity) (t_Action t) in
    if negb (pd_Allowed actionDecision) then mkAvailability (t_Action t) false (Some (pd_Reason actionDecision))
    else let guardErr := RunGuard t guardSubject rc in
         mkAvailability (t_Action t) (is_none guardErr) guardErr.

Definition currentState (entity : EntityDefinition) (existingData : JsonObject) : string :=
  match e_Workflow entity with
  | None => ""
  | Some w => default "" (existingData !! w_StateField w ≫= unmarshal_string)
  end.

Definition computeCapabilities (entity : EntityDefinition) (rc : RequestContext) (snapshot : PermissionSnapshot)
    (existingData : JsonObject) (actors : gmap string string) : RecordCapabilities :=
  let writableFields := WritableFields snapshot rc (map f_Name (e_Fields entity)) (Some existingData) in
  let canUpdate := pd_Allowed (CanPerformRecordCondition snapshot rc existingData ActionUpdate)
                   && pd_Allowed (snapshot_CanPerformEntityAction snapshot rc (e_Name entity) ActionUpdate) in
  let transitionDecision := CanPerformRecordCondition snapshot rc existingData ActionTransition in
  let canDelete := pd_Allowed (CanPerformRecordCondition snapshot rc existingData ActionDelete)
                   && pd_Allowed (snapshot_CanPerformEntityAction snapshot rc (e_Name entity) ActionDelete) in
  let guardSubject := WithWorkflowContext existingData actors in
  let state := currentState entity existingData in
  let transitions := match e_Workflow entity with
    | Some w => if String.eqb state "" then []
                else map (transition_availability entity rc snapshot transitionDecision guardSubject)
                       (List.filter (fun t => String.eqb (t_From t) state) (w_Transitions w))
    | None => []
    end in
  mkCapabilities writableFields canUpdate canDelete transitions.

Definition sortFieldValue (row : RecordDto) (field : string) : option string :=
  if String.eqb field "createdAt" then Some (format_time (rd_CreatedAt row))
  else if String.eqb field "updatedAt" then Some (format_time (rd_UpdatedAt row))
  else match rd_Data row !! field with
       | None => None
       | Some raw =>
         if isJSONNull raw then None
         else match unmarshal_string raw with
              | Some s => Some s
              | None =>
                match unmarshal_float64 raw with
                | Some f => Some (formatFloat f)
                | None => match unmarshal_bool raw with
                          | Some b => Some (FormatBool b)
                          | None => Some (json_text raw)
                          end
                end
              end
       end.

(** *** References that block a delete *)

Record referencingField : Type := mkRef {
  refEntity : string;
  refField : string;
  refTable : string;
  hasRealColumn : bool
}.

(** The entities in the order of their names. *)
Definition referencingFields (registry : MetadataRegistry) (targetEntity : string) : list referencingField :=
  flat_map (fun kv => omap (fun field =>
      if String.eqb (f_Kind field) KindReference
         && match f_RefEntity field with Some r => String.eqb r targetEntity | None => false end
      then Some (mkRef (e_Name kv.2) (f_Name field) (e_TableName kv.2) (FieldHasRealColumn field)) else None)
    (e_Fields kv.2)) (sorted_members (entities registry)).

Record referencingRecordHit : Type := mkHit { hit_entity : string; hit_field : string; hit_id : uuid }.

Definition maxReferencingHits : nat := 50.

(** data ->> field *)
Definition data_text (data : JsonObject) (field : string) : option string := path_text pg_jsonb_text data field.

(** The clause of one referencing field; a real column is kept equal to
    (data ->> field)::uuid by its trigger. *)
Definition references (id : uuid) (r : referencingField) (row : Row) : bool :=
  if hasRealColumn r then bool_decide (data_text (r_data row) (refField r) ≫= pg_uuid_cast = Some id)
  else bool_decide (data_text (r_data row) (refField r) = Some (uuid_String id)).

Definition blocks (tenantID id : uuid) (group : list referencingField) (row : Row) : bool :=
  bool_decide (r_tenant_id row = tenantID) && negb (r_deleted row) && negb (bool_decide (r_id row = id))
  && existsb (fun r => references id r row) group.

Fixpoint find_in_tables (db : Database) (tenantID id : uuid) (byTable : gmap string (list referencingField))
    (tables : list string) (hits : list referencingRecordHit) : result DbError (list referencingRecordHit) :=
  match tables with
  | [] => Ok hits
  | table :: rest =>
    if (maxReferencingHits <=? length hits)%nat then Ok hits
    else
      let group := default [] (byTable !! table) in
      let! rows := table_rows db table in
      let found := take (maxReferencingHits - length hits) (List.filter (blocks tenantID id group) rows) in
      find_in_tables db tenantID id byTable rest
        (hits ++ match head group with
                 | Some g => map (fun row => mkHit (refEntity g) (refField g) (r_id row)) found
                 | None => []
                 end)
  end.

Definition findReferencingRecords (db : Database) (tenantID id : uuid) (refs : list referencingField)
  : result DbError (list referencingRecordHit) :=
  find_in_tables db tenantID id (group refTable (fun _ => true) refs)
    (sort_strings (remove_dups (map refTable refs))) [].

(** *** Cross-record conditions *)

Definition findField (entity : EntityDefinition) (name : string) : option EntityField :=
  List.find (fun f => String.eqb (f_Name f) name) (e_Fields entity).

(** A member read as a string and parsed as an identifier. *)
Definition uuid_at (data : JsonObject) (key : string) : option uuid :=
  raw ← data !! key;
  s ← unmarshal_string raw;
  uuid_Parse s.

(** The related record a relation field of the record points at. *)
Definition relation_target (entity : EntityDefinition) (registry : MetadataRegistry) (record : JsonObject) (fieldName : string)
  : option (uuid * EntityDefinition) :=
  field ← findField entity fieldName;
  if negb (String.eqb (f_Kind field) KindReference) then None else
  refName ← f_RefEntity field;
  refID ← uuid_at record fieldName;
  refEntityDef ← GetEntity registry refName;
  Some (refID, refEntityDef).

Fixpoint enrich_fields (db : Database) (entity : EntityDefinition) (tenantID : uuid) (registry : MetadataRegistry)
    (record : JsonObject) (fields : list string) (enriched : JsonObject) : result DbError JsonObject :=
  match fields with
  | [] => Ok enriched
  | fieldName :: rest =>
    match relation_target entity registry record fieldName with
    | None => enrich_fields db entity tenantID registry record rest enriched
    | Some (refID, refEntityDef) =>
      let! relatedData := fetchRelatedData db refID tenantID refEntityDef in
      enrich_fields db entity tenantID registry record rest
        (match relatedData with Some d => <[fieldName := marshal_map d]> enriched | None => enriched end)
    end
  end.

(** [remove_dups] keeps the last of equal names; the loop does not depend on
    the order. *)
Definition enrichRecordForActions (s : CrudService) (entity : EntityDefinition) (snapshot : PermissionSnapshot)
    (actions : list EntityAction) (tenantID : uuid) (registry : MetadataRegistry) (record : JsonObject)
  : Handler World JsonObject :=
  let relationFields := remove_dups (flat_map (snapshot_RequiredRelationFields snapshot) actions) in
  if (length relationFields =? 0)%nat then hret record
  else
    let* db := begin_raw s tenantID in
    hquery (enrich_fields db entity tenantID registry record relationFields record).

(** *** After the commit *)

Definition recordAudit (entity : EntityDefinition) (entry : Entry) : Handler World unit :=
  fun w =>
    match w_audit w, e_Audit entity with
    | Some store, Some config =>
      if negb (ac_Enabled config) then (Ok tt, w)
      else
        let entry := mkEntry (en_TenantID entry) (en_Entity entry) (en_RecordID entry) (en_Action entry)
                       (en_TransitionAction entry) (en_ActorUserID entry) (en_Reason entry)
                       (RedactDiffFields (en_Diff entry) (ac_RedactedFields config)) (en_VersionAfter entry) (en_OccurredAt entry) in
        (Ok tt, match Record_ store (en_TenantID entry) entry with
                | Ok store' => mkWorld (w_db w) (w_policyCache w) (Some store') (w_contextCache w)
                | _ => w
                end)
    | _, _ => (Ok tt, w)
    end.

Definition invalidateContextCacheIfConfigured (s : CrudService) (entityName : string) (tenantID : uuid) (data : JsonObject)
  : Handler World unit :=
  fun w =>
    (Ok tt,
     match cs_contextInvalidation s with
     | Some name =>
       if String.eqb name entityName then
         match uuid_at data "userId" with
         | Some userID => mkWorld (w_db w) (w_policyCache w) (w_audit w) (ctx_cache_Invalidate (w_contextCache w) tenantID userID)
         | None => w
         end
       else w
     | None => w
     end).

(** ** Create (create.go) *)

(** The code column mirrors data.code. *)
Definition code_of (data : JsonObject) : option string := data !! "code" ≫= unmarshal_string.

Definition initial_data (entity : EntityDefinition) (status : option string) (data : JsonObject) : JsonObject :=
  match e_Workflow entity, status with
  | Some w, Some status => match data !! w_StateField w with
                           | Some _ => data
                           | None => <[w_StateField w := JStr status]> data
                           end
  | _, _ => data
  end.

(** The outcome of a writing statement: a unique violation becomes a refusal
    where [mapUnique] says so, a missing row a version conflict. *)
Definition write_result (entity : EntityDefinition) (mapUnique : bool) (r : result DbError (Row * Database))
  : Handler World (Row * Database) :=
  match r with
  | Ok x => hret x
  | Err e =>
    match (if mapUnique then uniqueViolation entity e else None) with
    | Some refusal => refuse refusal
    | None => match e with
              | ErrNoRows => refuse (ResultErr 409 "version_conflict")
              | _ => hfail (dberror_text e)
              end
    end
  | Panic => hpanic
  end.

Definition with_outbox (db : Database) (outbox : list OutboxEvent) : Database :=
  mkDatabase (db_tables db) (db_events db) outbox.

Definition validate_payload (entity : EntityDefinition) (data : JsonObject) : Handler World JsonObject :=
  match ValidatePayload entity data with
  | inl result => hret result
  | inr errs => refuse (ResultErrWithFieldErrors 400 "validation_failed" errs)
  end.

Definition refuse_system_fields (entity : EntityDefinition) (data : JsonObject) : Handler World unit :=
  refuse_if (ResultErrWithFieldErrors 400 "validation_failed" <$> rejectSystemFields entity data).

Definition payload_keys (data : JsonObject) : list string := map fst (map_to_list data).

Definition Create (s : CrudService) (entityName : string) (rawData : JsonObject) (rc : RequestContext) (reason : option string)
  : Handler World RecordDto :=
  let* (tenantID, registry, entity) := open_entity s entityName rc in
  let* _ := authorize (CanCreateEntity (cs_policies s) rc (e_Name entity)) in
  let* snapshot := LoadSnapshotM s tenantID (e_Name entity) in
  let writeDecision := AssertWritableFields snapshot rc (payload_keys rawData) None in
  let* _ := require (pd_Allowed writeDecision) (forbiddenWithField writeDecision) in
  let* _ := refuse_system_fields entity rawData in
  let* validated := validate_payload entity rawData in
  let data := recomputeFields entity validated in
  let status := GetInitialStatus entity data in
  let data := initial_data entity status data in
  let* userID := hlift (parseUserID rc) in
  let* db := begin_tx s tenantID in
  let* (row, db') := write_result entity true
    (insert_record db (e_TableName entity) tenantID (code_of data) status data userID) in
  let record := scanRecordRow row (e_Name entity) in
  let* _ := commit (with_outbox db' (EmitCreated (db_outbox db') entity tenantID (rd_ID record) data)) in
  let* _ := recordAudit entity
    (mkEntry tenantID (e_Name entity) (rd_ID record) AuditCreate None userID reason (DiffJSONObjects ∅ data)
       (Some (rd_Version record)) (cs_clock s)) in
  hret (maskRecordForRead entity rc snapshot record).

(** ** Update (update.go) *)

(** The transaction that reads the record before a write. *)
Definition precheck (s : CrudService) (tenantID id : uuid) (entity : EntityDefinition) : Handler World RecordDto :=
  let* db := begin_tx s tenantID in
  let* existing := hquery (fetchExisting db id tenantID entity) in
  require_some existing (ResultErr 404 "record_not_found").

(** The record-level check of one action. *)
Definition check_record (s : CrudService) (entity : EntityDefinition) (snapshot : PermissionSnapshot) (action : EntityAction)
    (tenantID : uuid) (registry : MetadataRegistry) (rc : RequestContext) (data : JsonObject) : Handler World unit :=
  let* enriched := enrichRecordForActions s entity snapshot [action] tenantID registry data in
  let decision := CanPerformRecordCondition snapshot rc enriched action in
  require (pd_Allowed decision) (forbidden decision).

(** The payload over the stored data, the state field as it was. *)
Definition merge_update (entity : EntityDefinition) (existing rawData : JsonObject) : JsonObject :=
  let merged := rawData ∪ existing in
  match e_Workflow entity with
  | Some w => match existing !! w_StateField w with
              | Some state => <[w_StateField w := state]> merged
              | None => merged
              end
  | None => merged
  end.

Definition Update (s : CrudService) (others : Database -> Database) (entityName : string) (id : uuid) (expectedVersion : Z)
    (rawData : JsonObject) (rc : RequestContext) (reason : option string) : Handler World RecordDto :=
  let* (tenantID, registry, entity) := open_entity s entityName rc in
  let* _ := authorize (CanUpdateEntity (cs_policies s) rc (e_Name entity)) in
  let* existing := precheck s tenantID id entity in
  let* snapshot := LoadSnapshotM s tenantID (e_Name entity) in
  let* _ := check_record s entity snapshot ActionUpdate tenantID registry rc (rd_Data existing) in
  let* _ := refuse_system_fields entity rawData in
  let writeDecision := AssertWritableFields snapshot rc (payload_keys rawData) (Some (rd_Data existing)) in
  let* _ := require (pd_Allowed writeDecision) (forbiddenWithField writeDecision) in
  let* validated := validate_payload entity (merge_update entity (rd_Data existing) rawData) in
  let data := recomputeFields entity validated in
  let* userID := hlift (parseUserID rc) in
  let* _ := interleave others in
  let* db := begin_tx s tenantID in
  let* (row, db') := write_result entity true
    (update_record db (e_TableName entity) id tenantID expectedVersion
       (set_updated data (code_of data) userID (SystemFieldNames entity) (pg_now db))) in
  let record := scanRecordRow row (e_Name entity) in
  let* _ := commit (with_outbox db' (EmitUpdated (db_outbox db') entity tenantID (rd_ID record) data (rd_Version record))) in
  let* _ := invalidateContextCacheIfConfigured s (e_Name entity) tenantID data in
  let* _ := recordAudit entity
    (mkEntry tenantID (e_Name entity) (rd_ID record) AuditUpdate None userID reason (DiffJSONObjects (rd_Data existing) data)
       (Some (rd_Version record)) (cs_clock s)) in
  hret (maskRecordForRead entity rc snapshot record).

(** ** Transition (transition.go) *)

Definition last_actors (db : Database) (tenantID : uuid) (entity : EntityDefinition) (ids : list uuid)
  : gmap uuid (gmap string string) :=
  if UsesWorkflowContext entity then LastActors (db_events db) tenantID (e_Name entity) ids else ∅.

(** The first transaction of a transition and of Get: the record and who last
    performed each action on it. *)
Definition precheck_actors (s : CrudService) (tenantID id : uuid) (entity : EntityDefinition)
  : Handler World (RecordDto * gmap string string) :=
  let* db := begin_tx s tenantID in
  let* existing := hquery (fetchExisting db id tenantID entity) in
  let* existing := require_some existing (ResultErr 404 "record_not_found") in
  hret (existing, default ∅ (last_actors db tenantID entity [id] !! id)).

Definition guard_refusal (code : string) (e : option error) : option ServiceError :=
  ResultErrWithMessage 422 code <$> e.

(** [payload] is [None] for nil. *)
Definition Transition (s : CrudService) (others : Database -> Database) (entityName : string) (id : uuid) (action : string)
    (expectedVersion : Z) (payload : option JsonObject) (rc : RequestContext) (reason : option string) : Handler World RecordDto :=
  let* (tenantID, registry, entity) := open_entity s entityName rc in
  let* _ := authorize (CanTransitionAction (cs_policies s) rc (e_Name entity) action) in
  let* (existing, actors) := precheck_actors s tenantID id entity in
  let* snapshot := LoadSnapshotM s tenantID (e_Name entity) in
  let* _ := check_record s entity snapshot ActionTransition tenantID registry rc (rd_Data existing) in
  let* workflowDef := require_some (e_Workflow entity) (ResultErr 400 "no_workflow") in
  let* fromState := require_some (rd_Data existing !! w_StateField workflowDef ≫= unmarshal_string)
                      (ResultErr 409 "invalid_transition") in
  let* transition := require_some (FindTransition entity action fromState) (ResultErr 409 "invalid_transition") in
  let* _ := refuse_if (guard_refusal "guard_failed" (RunGuard transition (WithWorkflowContext (rd_Data existing) actors) rc)) in
  let toState := t_To transition in
  let writeDecision := match payload with
                       | Some p => AssertWritableFields snapshot rc (payload_keys p) (Some (rd_Data existing))
                       | None => Allowed
                       end in
  let* _ := require (pd_Allowed writeDecision) (forbiddenWithField writeDecision) in
  let merged := <[w_StateField workflowDef := JStr toState]> (default ∅ payload ∪ rd_Data existing) in
  let* validated := validate_payload entity merged in
  let* _ := refuse_if (guard_refusal "validator_failed" (RunValidator transition (WithWorkflowContext validated actors) rc)) in
  let nextData := ApplySetFields transition validated rc in
  let* userID := hlift (parseUserID rc) in
  let* _ := interleave others in
  let* db := begin_tx s tenantID in
  let* (row, db') := write_result entity false
    (update_record db (e_TableName entity) id tenantID expectedVersion (set_transitioned nextData toState userID (pg_now db))) in
  let record := scanRecordRow row (e_Name entity) in
  let* events := hlift (RecordEvent (db_events db') (pg_gen_uuid db') (pg_now db) entity (rd_ID record) action fromState toState rc) in
  let* _ := commit (mkDatabase (db_tables db') events
    (EmitTransitioned (db_outbox db') entity tenantID (rd_ID record) action fromState toState userID)) in
  let* _ := recordAudit entity
    (mkEntry tenantID (e_Name entity) (rd_ID record) AuditTransition (Some action) userID reason
       (DiffJSONObjects (rd_Data existing) (rd_Data record)) (Some (rd_Version record)) (cs_clock s)) in
  hret (maskRecordForRead entity rc snapshot record).

(** ** Delete (delete.go) *)

Definition blockers_refusal (blockers : list referencingRecordHit) : option ServiceError :=
  match blockers with
  | [] => None
  | first :: _ =>
    Some (ResultErrWithMessageAndFieldErrors 409 "record_referenced"
      ("This record is referenced by " +:+ quote +:+ hit_field first +:+ quote +:+ " on " +:+ quote +:+ hit_entity first
       +:+ quote +:+ " and cannot be deleted.")
      (fold_left (fun m hit => add_error m (hit_entity hit +:+ "." +:+ hit_field hit) (uuid_String (hit_id hit))) blockers ∅))
  end.

Definition Delete (s : CrudService) (others : Database -> Database) (entityName : string) (id : uuid) (expectedVersion : Z)
    (rc : RequestContext) (reason : option string) : Handler World RecordDto :=
  let* (tenantID, registry, entity) := open_entity s entityName rc in
  let* _ := authorize (CanDeleteEntity (cs_policies s) rc (e_Name entity)) in
  let* existing := precheck s tenantID id entity in
  let* snapshot := LoadSnapshotM s tenantID (e_Name entity) in
  let* _ := check_record s entity snapshot ActionDelete tenantID registry rc (rd_Data existing) in
  let* userID := hlift (parseUserID rc) in
  let* _ := interleave others in
  let* db := begin_tx s tenantID in
  let* blockers := hquery (findReferencingRecords db tenantID id (referencingFields registry (e_Name entity))) in
  let* _ := refuse_if (blockers_refusal blockers) in
  let* (row, db') := write_result entity false
    (update_record db (e_TableName entity) id tenantID expectedVersion (set_deleted userID (pg_now db))) in
  let record := scanRecordRow row (e_Name entity) in
  let* _ := commit (with_outbox db' (EmitDeleted (db_outbox db') entity tenantID (rd_ID record))) in
  let* _ := recordAudit entity
    (mkEntry tenantID (e_Name entity) (rd_ID record) AuditDelete None userID reason ∅
       (Some (rd_Version record)) (cs_clock s)) in
  hret (maskRecordForRead entity rc snapshot record).

(** ** Get and GetMany (get.go, get_many.go) *)

Definition record_actions : list EntityAction := [ActionRead; ActionUpdate; ActionTransition; ActionDelete].

Record GetResult : Type := mkGetResult { gr_Record : RecordDto; gr_Capabilities : RecordCapabilities }.

Definition Get (s : CrudService) (entityName : string) (id : uuid) (rc : RequestContext) : Handler World GetResult :=
  let* (tenantID, registry, entity) := open_entity s entityName rc in
  let* _ := authorize (CanReadEntity (cs_policies s) rc (e_Name entity)) in
  let* (existing, actors) := precheck_actors s tenantID id entity in
  let* snapshot := LoadSnapshotM s tenantID (e_Name entity) in
  let* enriched := enrichRecordForActions s entity snapshot record_actions tenantID registry (rd_Data existing) in
  let decision := CanPerformRecordCondition snapshot rc enriched ActionRead in
  let* _ := require (pd_Allowed decision) (forbidden decision) in
  hret (mkGetResult (maskRecordForRead entity rc snapshot existing) (computeCapabilities entity rc snapshot enriched actors)).

Record GetManyResult : Type := mkGetMany { gm_ID : uuid; gm_Record : RecordDto; gm_Capabilities : RecordCapabilities }.

(** The loop over the fetched records, keeping the readable ones by id. *)
Fixpoint readable_by_id (s : CrudService) (entity : EntityDefinition) (snapshot : PermissionSnapshot) (tenantID : uuid)
    (registry : MetadataRegistry) (rc : RequestContext) (actors : gmap uuid (gmap string string)) (records : list RecordDto)
    (byID : gmap uuid GetManyResult) : Handler World (gmap uuid GetManyResult) :=
  match records with
  | [] => hret byID
  | record :: rest =>
    let* enriched := enrichRecordForActions s entity snapshot record_actions tenantID registry (rd_Data record) in
    let byID := if pd_Allowed (CanPerformRecordCondition snapshot rc enriched ActionRead)
      then <[rd_ID record := mkGetMany (rd_ID record) (maskRecordForRead entity rc snapshot record)
               (computeCapabilities entity rc snapshot enriched (default ∅ (actors !! rd_ID record)))]> byID
      else byID in
    readable_by_id s entity snapshot tenantID registry rc actors rest byID
  end.

Definition GetMany (s : CrudService) (entityName : string) (ids : list uuid) (rc : RequestContext)
  : Handler World (list GetManyResult) :=
  let* (tenantID, registry, entity) := open_entity s entityName rc in
  let* _ := authorize (CanReadEntity (cs_policies s) rc (e_Name entity)) in
  if (length ids =? 0)%nat then hret []
  else
    let* db := begin_tx s tenantID in
    let* existing := hquery (fetchExistingBatch db ids tenantID entity) in
    let actors := last_actors db tenantID entity (map rd_ID existing) in
    let* snapshot := LoadSnapshotM s tenantID (e_Name entity) in
    let* byID := readable_by_id s entity snapshot tenantID registry rc actors existing ∅ in
    hret (omap (fun id => byID !! id) ids).

(** ** Permission of a record (check_permission.go) *)

Definition CheckRecordPermission (s : CrudService) (entityName : string) (id : uuid) (action : EntityAction) (rc : RequestContext)
  : Handler World unit :=
  let* (tenantID, registry, entity) := open_entity s entityName rc in
  let* _ := match action with
            | ActionRead => authorize (CanReadEntity (cs_policies s) rc (e_Name entity))
            | ActionUpdate => authorize (CanUpdateEntity (cs_policies s) rc (e_Name entity))
            | ActionDelete => authorize (CanDeleteEntity (cs_policies s) rc (e_Name entity))
            | _ => hpanic
            end in
  let* existing := precheck s tenantID id entity in
  let* snapshot := LoadSnapshotM s tenantID (e_Name entity) in
  check_record s entity snapshot action tenantID registry rc (rd_Data existing).

(** ** System fields (system_fields.go) *)

(** metadata.EntityDefinition{Name: entity.Name, Fields: declared} *)
Definition declared_entity (entity : EntityDefinition) (fields : JsonObject) : EntityDefinition :=
  mkEntity (e_Name entity) "" "" (List.filter (fun f => is_some (fields !! f_Name f)) (e_Fields entity)) [] None [] None.

(** UPDATE ... SET data = data || $1 WHERE id, tenant_id, deleted = false *)
Definition patch_system (db : Database) (table : string) (id tenantID : uuid) (patch : JsonObject)
  : result DbError (bool * Database) :=
  let! rows := table_rows db table in
  match pg_jsonb patch with
  | None => Err (StatementError "unsupported Unicode escape sequence")
  | Some stored =>
    let set_data r := mkRow (r_id r) (r_tenant_id r) (r_code r) (r_status r) (stored ∪ r_data r) (r_version r)
                        (r_created_at r) (r_updated_at r) (r_created_by r) (r_updated_by r) (r_deleted r) in
    Ok (existsb (live_row id tenantID) rows,
        set_table db table (map (fun r => if live_row id tenantID r then set_data r else r) rows))
  end.

Definition SetSystemFields (s : CrudService) (tenantID : uuid) (entityName : string) (id : uuid) (fields : JsonObject)
  : Handler World bool :=
  let* registry := hlift (registryFor s tenantID) in
  match GetEntity registry entityName with
  | None => hfail ("entity " +:+ quote +:+ entityName +:+ quote +:+ " not found")
  | Some entity =>
    match List.find (fun name => negb (bool_decide (name ∈ SystemFieldNames entity))) (payload_keys fields) with
    | Some name => hfail ("field " +:+ quote +:+ name +:+ quote +:+ " of " +:+ quote +:+ entityName +:+ quote
                          +:+ " is not a system field")
    | None =>
      match ValidatePayload (declared_entity entity fields) fields with
      | inr errs => hfail ("invalid system field values for " +:+ quote +:+ entityName +:+ quote)
      | inl validated =>
        let* db := begin_raw s tenantID in
        let* (found, db') := hquery (patch_system db (e_TableName entity) id tenantID validated) in
        let* _ := commit db' in
        hret found
      end
    end
  end.

(** ** List (list.go) *)

Definition QueryError_Error (e : QueryError) : error :=
  match e with
  | CrossRecordConditionInList a => a
  | UnsupportedContainsConditionInList a => a
  | InvalidCursor => "invalid cursor"
  | UnknownListView name => "Unknown list view: " +:+ name
  | InvalidJql m | InvalidAggregate m | PlainError m => m
  end.

Definition plan_refusal {B} (r : result QueryError B) : Handler World B :=
  match r with
  | Ok b => hret b
  | Err e =>
    match e with
    | InvalidCursor => refuse (ResultErrWithMessage 400 "invalid_cursor" (QueryError_Error e))
    | UnknownListView _ => refuse (ResultErrWithMessage 400 "unknown_list_view" (QueryError_Error e))
    | InvalidJql _ => refuse (ResultErrWithMessage 400 "invalid_jql" (QueryError_Error e))
    | CrossRecordConditionInList _ | UnsupportedContainsConditionInList _ =>
      refuse (ResultErrWithMessage 500 "unsupported_policy_condition" (QueryError_Error e))
    | _ => hfail (QueryError_Error e)
    end
  | Panic => hpanic
  end.

(** The display values of one reference field: related record id to value. *)
Definition display_values (snapshot : PermissionSnapshot) (rc : RequestContext) (displayField : string)
    (related : gmap uuid JsonObject) : gmap uuid string :=
  omap (M := gmap uuid) (fun relatedData =>
    if pd_Allowed (CanPerformRecordCondition snapshot rc relatedData ActionRead)
    then relatedData !! displayField ≫= unmarshal_string else None) related.

Definition page_ids (records : list RecordDto) (field : string) : gset uuid :=
  list_to_set (omap (fun r => uuid_at (rd_Data r) field) records).

Fixpoint resolve_displays (s : CrudService) (rc : RequestContext) (tenantID : uuid) (registry : MetadataRegistry)
    (db : Database) (records : list RecordDto) (fields : list EntityField) (resolved : gmap string (gmap uuid string))
  : Handler World (gmap string (gmap uuid string)) :=
  match fields with
  | [] => hret resolved
  | field :: rest =>
    match f_RefEntity field, f_RefDisplayField field with
    | Some refName, Some displayField =>
      let* decision := hlift (CanReadEntity (cs_policies s) rc refName) in
      let ids := page_ids records (f_Name field) in
      let skip := resolve_displays s rc tenantID registry db records rest resolved in
      if negb (pd_Allowed decision) || bool_decide (ids = ∅) then skip
      else match GetEntity registry refName with
      | None => skip
      | Some refEntityDef =>
        let* related := hquery (fetchRelatedRecordsBatch db ids tenantID refEntityDef) in
        if bool_decide (related = ∅) then skip
        else
          let* relatedSnapshot := LoadSnapshotM s tenantID refName in
          resolve_displays s rc tenantID registry db records rest
            (<[f_Name field := display_values relatedSnapshot rc displayField related]> resolved)
      end
    | _, _ => hpanic
    end
  end.

Definition add_display (displayFields : list EntityField) (resolved : gmap string (gmap uuid string)) (record : RecordDto) : RecordDto :=
  let display := fold_left (fun m field =>
    match (values ← resolved !! f_Name field; id ← uuid_at (rd_Data record) (f_Name field); values !! id) with
    | Some v => <[f_Name field := v]> m
    | None => m
    end) displayFields ∅ in
  if bool_decide (display = ∅) then record
  else mkDto (rd_ID record) (rd_Entity record) (rd_Code record) (rd_Status record) (rd_Data record) (rd_Version record)
         (rd_CreatedAt record) (rd_UpdatedAt record) display.

Definition hydrateRelatedDisplay (s : CrudService) (entity : EntityDefinition) (rc : RequestContext) (tenantID : uuid)
    (registry : MetadataRegistry) (db : Database) (records : list RecordDto) : Handler World (list RecordDto) :=
  let displayFields := List.filter (fun f => String.eqb (f_Kind f) KindReference && is_some (f_RefDisplayField f)) (e_Fields entity) in
  if (length displayFields =? 0)%nat then hret records
  else
    let* resolved := resolve_displays s rc tenantID registry db records displayFields ∅ in
    if bool_decide (resolved = ∅) then hret records
    else hret (map (add_display displayFields resolved) records).

Definition next_cursor (planned : PlannedListQuery) (hasMore : bool) (page : list RecordDto) : option json :=
  if hasMore then
    match last page with
    | Some r => Some (EncodeCursor (mkCursor (rs_Field (pl_ResolvedSort planned))
                  (sortFieldValue r (rs_Field (pl_ResolvedSort planned))) (uuid_String (rd_ID r))
                  (if rs_Descending (pl_ResolvedSort planned) then SortDesc else SortAsc)))
    | None => None
    end
  else None.

Definition List_ (s : CrudService) (entityName : string) (input : ListInput) (rc : RequestContext)
  : Handler World (list RecordDto * PageInfo) :=
  let* (tenantID, registry, entity) := open_entity s entityName rc in
  let* _ := authorize (CanReadEntity (cs_policies s) rc (e_Name entity)) in
  let* snapshot := LoadSnapshotM s tenantID (e_Name entity) in
  let* (planned, params) := plan_refusal (PlanList registry (e_Name entity) input rc (GetRecordPolicies snapshot ActionRead)) in
  let* db := begin_tx s tenantID in
  let* rows := hquery (table_rows db (e_TableName entity)) in
  let* selected := hlift (pg_select rows planned params) in
  let pageDtos := map (fun r => scanRecordRow r (e_Name entity)) selected in
  let hasMore := (pl_Limit planned <? Z.of_nat (length pageDtos))%Z in
  let pageDtos := if hasMore then take (Z.to_nat (pl_Limit planned)) pageDtos else pageDtos in
  let nextCursor := next_cursor planned hasMore pageDtos in
  let* data := hydrateRelatedDisplay s entity rc tenantID registry db (map (maskRecordForRead entity rc snapshot) pageDtos) in
  hret (data, mkPage (pl_Limit planned) nextCursor).

(** ** Audit events (audit_events.go) *)

(** [None] is nothing at all. *)
Definition diffVisibility := option (gset string).

Definition audit_probe (entity : EntityDefinition) (existing : option RecordDto) : JsonObject :=
  fold_left (fun probe field => match probe !! f_Name field with
                                | Some _ => probe
                                | None => <[f_Name field := JNull]> probe
                                end) (e_Fields entity) (match existing with Some r => rd_Data r | None => ∅ end).

Definition auditDiffVisibility (s : CrudService) (entityName : string) (recordID : uuid) (rc : RequestContext)
  : Handler World diffVisibility :=
  let* tenantID := hlift (ScopedTenant rc) in
  let* registry := hlift (registryFor s tenantID) in
  match GetEntity registry entityName with
  | None => hret None
  | Some entity =>
    let* db := begin_raw s tenantID in
    let* existing := hquery (fetchExisting db recordID tenantID entity) in
    let probe := audit_probe entity existing in
    let* snapshot := LoadSnapshotM s tenantID (e_Name entity) in
    if RecordAccessIsStateDependent snapshot rc ActionRead then hret None
    else
      let stateDependent := RecordStateDependentReadFields snapshot rc in
      let readable := FilterReadableFields snapshot rc probe in
      hret (Some (filter (fun field => field ∉ stateDependent) (dom readable)))
  end.

Definition maskDiff (diff : json) (visibility : diffVisibility) : json :=
  match visibility with
  | None => JObj []
  | Some fields =>
    if isJSONNull diff then JNull else
    match unmarshal_map diff with
    | None => JObj []
    | Some m => marshal_map (filter (fun kv => kv.1 ∈ fields) m)
    end
  end.

Definition with_diff (r : AuditRow) (d : json) : AuditRow :=
  mkAuditRow (ar_ID r) (ar_TenantID r) (ar_Entity r) (ar_RecordID r) (ar_Action r) (ar_TransitionAction r)
    (ar_ActorUserID r) (ar_Reason r) d (ar_VersionAfter r) (ar_OccurredAt r).

Definition ListAuditEvents (s : CrudService) (entityName : string) (recordID : uuid) (rc : RequestContext)
  : Handler World (list AuditRow) :=
  let* _ := CheckRecordPermission s entityName recordID ActionRead rc in
  let* w := (fun w => (Ok w, w)) in
  match w_audit w with
  | None => hret []
  | Some store =>
    let* tenantID := hlift (ScopedTenant rc) in
    let* events := hlift (ListForRecord store tenantID entityName recordID) in
    let* visibility := auditDiffVisibility s entityName recordID rc in
    hret (map (fun e => with_diff e (maskDiff (ar_Diff e) visibility)) events)
  end.
End Crud.
