(* ===== verification/CrudOutcomes.v ===== *)
(** What each CRUD handler does to the database, on every path: a small logic
    of outcomes for handlers, and one outcome lemma per writing handler. *)
From S2P Require Import Prelude GoStrings Json Floats Condition Context Uuid Evaluate Snapshot PermissionService Metadata Router Payload Workflow AuditTrail Sql ConditionSql Jql Planner Records Crud.

Open Scope string_scope.
Open Scope list_scope.

Section Outcomes.
Context `{UuidLib} `{!Postgres} {St C A : Type} `{!PolicyStore St} `{!Cache C} `{!AuditStore A}.
Local Notation World := (@World _ C A).
Local Notation Service := (@CrudService _ St).

(** [outcome db m F O]: started on the database [db], the handler ends with a
    value and a database related by [O], or without one on a database in [F]. *)
Definition outcome {B} (db : Database) (m : Handler World B) (F : Database -> Prop) (O : B -> Database -> Prop) : Prop :=
  forall w, w_db w = db ->
    match m w with
    | (Ok b, w') => O b (w_db w')
    | (_, w') => F (w_db w')
    end.

Lemma outcome_bind {B D} db (m : Handler World B) (k : B -> Handler World D) F O :
  outcome db m F (fun b db' => outcome db' (k b) F O) -> outcome db (hbind m k) F O.
Proof.
  intros Hm w Hw. specialize (Hm w Hw). unfold hbind. destruct (m w) as [[b|e|] w'] eqn:E; try exact Hm.
  exact (Hm w' eq_refl).
Qed.

Lemma outcome_conseq {B} db (m : Handler World B) (F F' : Database -> Prop) (O O' : B -> Database -> Prop) :
  outcome db m F O -> (forall d, F d -> F' d) -> (forall b d, O b d -> O' b d) -> outcome db m F' O'.
Proof.
  intros Hm HF HO w Hw. specialize (Hm w Hw). destruct (m w) as [[b|e|] w']; auto.
Qed.

(** A step that leaves the database alone and whose value satisfies [P]. *)
Definition reads {B} (db : Database) (m : Handler World B) (P : B -> Prop) : Prop :=
  outcome db m (fun d => d = db) (fun b d => d = db /\ P b).

Lemma step_read {B D} db (m : Handler World B) (k : B -> Handler World D) (P : B -> Prop) F O :
  reads db m P -> F db -> (forall b, P b -> outcome db (k b) F O) -> outcome db (hbind m k) F O.
Proof.
  intros Hm HF Hk. apply outcome_bind. eapply outcome_conseq; [exact Hm | by intros d -> |].
  intros b d [-> Hb]. auto.
Qed.

Lemma reads_bind {B D} db (m : Handler World B) (k : B -> Handler World D) (P : B -> Prop) Q :
  reads db m P -> (forall b, P b -> reads db (k b) Q) -> reads db (hbind m k) Q.
Proof. intros Hm Hk. unfold reads at 1. eapply step_read; [exact Hm | done | exact Hk]. Qed.

Lemma reads_weaken {B} db (m : Handler World B) (P Q : B -> Prop) :
  reads db m P -> (forall b, P b -> Q b) -> reads db m Q.
Proof. intros Hm HPQ. eapply outcome_conseq; [exact Hm | done | naive_solver]. Qed.

Lemma reads_ret {B} db (b : B) : reads db (hret b) (eq b).
Proof. intros w Hw. by split. Qed.

Lemma reads_lift {B} db (r : result error B) : reads db (hlift r) (fun b => r = Ok b).
Proof. intros w Hw. unfold hlift. by destruct r. Qed.

Lemma reads_query {B} db (r : result DbError B) : reads db (hquery r) (fun b => r = Ok b).
Proof. eapply reads_weaken; [apply reads_lift|]. simpl. intros b. destruct r; naive_solver. Qed.

Lemma reads_require db b e : reads db (require b e) (fun _ => b = true).
Proof. intros w Hw. unfold require. by destruct b. Qed.

Lemma reads_require_some {B} db (o : option B) e : reads db (require_some o e) (fun b => o = Some b).
Proof. intros w Hw. unfold require_some. by destruct o. Qed.

Lemma reads_refuse_if db o : reads db (refuse_if o) (fun _ => o = None).
Proof. intros w Hw. unfold refuse_if. by destruct o. Qed.

Lemma reads_begin_tx db (s : Service) t : reads db (begin_tx s t) (fun d => d = db /\ exists tx, Begin (cs_router s) t = Ok tx).
Proof.
  intros w Hw. unfold begin_tx. destruct (Begin (cs_router s) t); simpl; [eauto| |done].
  by destruct (routerUnavailable e).
Qed.

Lemma reads_begin_raw db (s : Service) t : reads db (begin_raw s t) (fun d => d = db).
Proof. intros w Hw. unfold begin_raw. by destruct (Begin (cs_router s) t). Qed.

Lemma reads_snapshot db (s : Service) t e : reads db (LoadSnapshotM s t e) (fun _ => True).
Proof. intros w Hw. unfold LoadSnapshotM. destruct (LoadSnapshot _ _ t e) as [[| |] c]; simpl; done. Qed.

Lemma reads_open_entity db (s : Service) name rc :
  reads db (open_entity s name rc) (fun '(t, reg, e) =>
    ScopedTenant rc = Ok t /\ registryFor s t = Ok reg /\ GetEntity reg name = Some e).
Proof.
  unfold open_entity. eapply reads_bind; [apply reads_lift|]. intros t Ht.
  eapply reads_bind; [apply reads_lift|]. intros reg Hr.
  eapply reads_bind; [apply reads_require_some|]. intros e He.
  eapply reads_weaken; [apply reads_ret|]. by intros ? <-.
Qed.

Lemma reads_authorize db r : reads db (authorize r) (fun _ => exists d, r = Ok d /\ pd_Allowed d = true).
Proof.
  unfold authorize. eapply reads_bind; [apply reads_lift|]. intros d Hd.
  eapply reads_weaken; [apply reads_require|]. intros ? Hb. by exists d.
Qed.

Lemma reads_precheck db (s : Service) t id e :
  reads db (precheck s t id e) (fun existing => exists rows r, db_tables db !! e_TableName e = Some rows /\
    List.find (live_row id t) rows = Some r /\ existing = scanRecordRow r (e_Name e)).
Proof.
  unfold precheck. eapply reads_bind; [apply reads_begin_tx|]. intros d [-> _].
  eapply reads_bind; [apply reads_query|]. intros o Ho.
  eapply reads_weaken; [apply reads_require_some|]. intros x ->.
  unfold fetchExisting, table_rows in Ho. destruct (db_tables db !! e_TableName e) as [rows|]; [|done].
  simpl in Ho. destruct (List.find _ rows) as [r|] eqn:Ef; [|done]. injection Ho as <-. by exists rows, r.
Qed.

Lemma reads_precheck_actors db (s : Service) t id e :
  reads db (precheck_actors s t id e) (fun '(existing, actors) => exists rows r, db_tables db !! e_TableName e = Some rows /\
    List.find (live_row id t) rows = Some r /\ existing = scanRecordRow r (e_Name e) /\
    actors = default ∅ (last_actors db t e [id] !! id)).
Proof.
  unfold precheck_actors. eapply reads_bind; [apply reads_begin_tx|]. intros d [-> _].
  eapply reads_bind; [apply reads_query|]. intros o Ho.
  eapply reads_bind; [apply reads_require_some|]. intros x ->.
  eapply reads_weaken; [apply reads_ret|]. intros ? <-.
  unfold fetchExisting, table_rows in Ho. destruct (db_tables db !! e_TableName e) as [rows|]; [|done].
  simpl in Ho. destruct (List.find _ rows) as [r|] eqn:Ef; [|done]. injection Ho as <-. by exists rows, r.
Qed.

Lemma reads_enrich db (s : Service) e snap actions t reg data :
  reads db (enrichRecordForActions s e snap actions t reg data) (fun enriched =>
    flat_map (snapshot_RequiredRelationFields snap) actions = [] -> enriched = data).
Proof.
  unfold enrichRecordForActions. destruct (Nat.eqb_spec (length (remove_dups (flat_map (snapshot_RequiredRelationFields snap) actions))) 0) as [Hz|Hnz].
  - eapply reads_weaken; [apply reads_ret|]. by intros ? <-.
  - eapply reads_bind; [apply reads_begin_raw|]. intros d ->. eapply reads_weaken; [apply reads_query|].
    intros x _ Hnil. by rewrite Hnil in Hnz.
Qed.

Lemma reads_check_record db (s : Service) e snap a t reg rc data :
  reads db (check_record s e snap a t reg rc data) (fun _ =>
    exists enriched, pd_Allowed (CanPerformRecordCondition snap rc enriched a) = true).
Proof.
  unfold check_record. eapply reads_bind; [apply reads_enrich|]. intros enriched _.
  eapply reads_weaken; [apply reads_require|]. intros ? Hb. by exists enriched.
Qed.

Lemma reads_system_fields db e data : reads db (refuse_system_fields e data) (fun _ => rejectSystemFields e data = None).
Proof.
  eapply reads_weaken; [apply reads_refuse_if|]. intros ? Hn. by destruct (rejectSystemFields e data).
Qed.

Lemma reads_validate db e data : reads db (validate_payload e data) (fun r => ValidatePayload e data = inl r).
Proof. intros w Hw. unfold validate_payload. by destruct (ValidatePayload e data). Qed.

Lemma reads_write db e b stmt : reads db (write_result e b stmt) (fun x => stmt = Ok x).
Proof.
  intros w Hw. unfold write_result. destruct stmt as [x|err|]; simpl; try done.
  destruct (if b then uniqueViolation e err else None); [done|]. by destruct err.
Qed.

(** What follows a commit cannot fail and leaves the database alone. *)
Lemma step_recordAudit {D} db e entry (k : unit -> Handler World D) F O :
  outcome db (k tt) F O -> outcome db (hbind (recordAudit e entry) k) F O.
Proof.
  intros Hk. apply outcome_bind. intros w Hw. unfold recordAudit. subst db.
  destruct (w_audit w), (e_Audit e); try done. destruct (negb (ac_Enabled _)); [done|]. by destruct (Record_ _ _ _).
Qed.

Lemma step_invalidate {D} db (s : Service) name t data (k : unit -> Handler World D) F O :
  outcome db (k tt) F O -> outcome db (hbind (invalidateContextCacheIfConfigured s name t data) k) F O.
Proof.
  intros Hk. apply outcome_bind. intros w Hw. subst db. unfold invalidateContextCacheIfConfigured. simpl.
  destruct (cs_contextInvalidation s); [|done]. destruct (String.eqb _ name); [|done]. by destruct (uuid_at data "userId").
Qed.

Lemma step_commit {D} db db' (k : unit -> Handler World D) F O :
  outcome db' (k tt) F O -> outcome db (hbind (commit db') k) F O.
Proof. intros Hk. apply outcome_bind. intros w Hw. exact Hk. Qed.

Lemma step_interleave {D} db others (k : unit -> Handler World D) F O :
  outcome (others db) (k tt) F O -> outcome db (hbind (interleave others) k) F O.
Proof. intros Hk. apply outcome_bind. intros w Hw. simpl. by rewrite Hw. Qed.

Lemma outcome_ret {B} db (b : B) (F : Database -> Prop) (O : B -> Database -> Prop) : O b db -> outcome db (hret b) F O.
Proof. intros HO w <-. exact HO. Qed.
End Outcomes.

(** One step of a handler whose first action only reads; the fact it
    establishes is introduced. *)
Tactic Notation "read_step" uconstr(L) := eapply step_read; [apply L | by auto | cbv beta].

Section Handlers.
Context `{UuidLib} `{!Postgres} {St C A : Type} `{!PolicyStore St} `{!Cache C} `{!AuditStore A}.
Local Notation World := (@World _ C A).
Local Notation Service := (@CrudService _ St).
Implicit Types (s : Service) (db : Database) (rc : RequestContext).

(** Where a call of a method works: its tenant and the entity it names. *)
Definition addresses s (entityName : string) rc (t : uuid) (reg : MetadataRegistry) (e : EntityDefinition) : Prop :=
  ScopedTenant rc = Ok t /\ registryFor s t = Ok reg /\ GetEntity reg entityName = Some e.

(** The live row a call reads before it writes. *)
Definition stored db (e : EntityDefinition) (id t : uuid) (r : Row) : Prop :=
  exists rows, db_tables db !! e_TableName e = Some rows /\ List.find (live_row id t) rows = Some r.

Lemma Create_outcome s db name raw rc reason :
  outcome (C := C) (A := A) db (Create s name raw rc reason) (fun d => d = db)
    (fun dto d => exists t reg e snap validated userID row db',
       addresses s name rc t reg e /\ rejectSystemFields e raw = None /\ ValidatePayload e raw = inl validated /\
       let data0 := recomputeFields e validated in
       let data := initial_data e (GetInitialStatus e data0) data0 in
       insert_record db (e_TableName e) t (code_of data) (GetInitialStatus e data0) data userID = Ok (row, db') /\
       d = with_outbox db' (EmitCreated (db_outbox db') e t (r_id row) data) /\
       dto = maskRecordForRead e rc snap (scanRecordRow row (e_Name e))).
Proof.
  unfold Create. read_step reads_open_entity. intros [[t reg] e] Haddr.
  read_step reads_authorize. intros _ _. read_step reads_snapshot. intros snap _.
  read_step reads_require. intros _ _. read_step reads_system_fields. intros ? Hsys.
  read_step reads_validate. intros validated Hval.
  read_step @reads_lift. intros userID _. read_step reads_begin_tx. intros d [-> _].
  read_step reads_write. intros [row db'] Hins. apply step_commit.
  apply step_recordAudit, outcome_ret.
  exists t, reg, e, snap, validated, userID, row, db'. by split_and!.
Qed.

Lemma Update_outcome s others db name id v raw rc reason :
  outcome (C := C) (A := A) db (Update s others name id v raw rc reason) (fun d => d = db \/ d = others db)
    (fun dto d => exists t reg e r0 snap validated userID row db',
       addresses s name rc t reg e /\ stored db e id t r0 /\ rejectSystemFields e raw = None /\
       ValidatePayload e (merge_update e (r_data r0) raw) = inl validated /\
       let data := recomputeFields e validated in
       update_record (others db) (e_TableName e) id t v
         (set_updated data (code_of data) userID (SystemFieldNames e) (pg_now (others db))) = Ok (row, db') /\
       d = with_outbox db' (EmitUpdated (db_outbox db') e t (r_id row) data (r_version row)) /\
       dto = maskRecordForRead e rc snap (scanRecordRow row (e_Name e))).
Proof.
  unfold Update. read_step reads_open_entity. intros [[t reg] e] Haddr.
  read_step reads_authorize. intros _ _. read_step reads_precheck. intros ex (rows0 & r0 & Ht0 & Hf0 & ->).
  read_step reads_snapshot. intros snap _. read_step reads_check_record. intros _ _.
  read_step reads_system_fields. intros ? Hsys. read_step reads_require. intros _ _.
  read_step reads_validate. intros validated Hval. read_step @reads_lift. intros userID _.
  apply step_interleave. read_step reads_begin_tx. intros d [-> _].
  read_step reads_write. intros [row db'] Hupd. apply step_commit, step_invalidate, step_recordAudit, outcome_ret.
  exists t, reg, e, r0, snap, validated, userID, row, db'. split_and!; try done. by exists rows0.
Qed.

Lemma Transition_outcome s others db name id action v payload rc reason :
  outcome (C := C) (A := A) db (Transition s others name id action v payload rc reason) (fun d => d = db \/ d = others db)
    (fun dto d => exists t reg e r0 snap w from tr validated userID row db' events,
       addresses s name rc t reg e /\ stored db e id t r0 /\ e_Workflow e = Some w /\
       r_data r0 !! w_StateField w ≫= unmarshal_string = Some from /\ FindTransition e action from = Some tr /\
       RunGuard tr (WithWorkflowContext (r_data r0) (default ∅ (last_actors db t e [id] !! id))) rc = None /\
       ValidatePayload e (<[w_StateField w := JStr (t_To tr)]> (default ∅ payload ∪ r_data r0)) = inl validated /\
       RunValidator tr (WithWorkflowContext validated (default ∅ (last_actors db t e [id] !! id))) rc = None /\
       parseUserID rc = Ok userID /\
       let next := ApplySetFields tr validated rc in
       update_record (others db) (e_TableName e) id t v (set_transitioned next (t_To tr) userID (pg_now (others db))) = Ok (row, db') /\
       RecordEvent (db_events db') (pg_gen_uuid db') (pg_now (others db)) e (r_id row) action from (t_To tr) rc = Ok events /\
       d = mkDatabase (db_tables db') events
             (EmitTransitioned (db_outbox db') e t (r_id row) action from (t_To tr) userID) /\
       dto = maskRecordForRead e rc snap (scanRecordRow row (e_Name e))).
Proof.
  unfold Transition. read_step reads_open_entity. intros [[t reg] e] Haddr.
  read_step reads_authorize. intros _ _. read_step reads_precheck_actors.
  intros [ex actors] (rows0 & r0 & Ht0 & Hf0 & -> & ->).
  read_step reads_snapshot. intros snap _. read_step reads_check_record. intros _ _.
  read_step @reads_require_some. intros w Hw. read_step @reads_require_some. intros from Hfrom.
  read_step @reads_require_some. intros tr Htr. read_step reads_refuse_if. intros ? Hguard.
  read_step reads_require. intros _ _. read_step reads_validate. intros validated Hval.
  read_step reads_refuse_if. intros ? Hvalid. read_step @reads_lift. intros userID Huser.
  apply step_interleave. read_step reads_begin_tx. intros d [-> _].
  read_step reads_write. intros [row db'] Hupd. read_step @reads_lift. intros events Hev.
  apply step_commit, step_recordAudit, outcome_ret.
  exists t, reg, e, r0, snap, w, from, tr, validated, userID, row, db', events.
  unfold guard_refusal in Hguard, Hvalid. apply fmap_None in Hguard, Hvalid.
  split_and!; try done. by exists rows0.
Qed.

Lemma Delete_outcome s others db name id v rc reason :
  outcome (C := C) (A := A) db (Delete s others name id v rc reason) (fun d => d = db \/ d = others db)
    (fun dto d => exists t reg e r0 snap userID row db',
       addresses s name rc t reg e /\ stored db e id t r0 /\
       findReferencingRecords (others db) t id (referencingFields reg (e_Name e)) = Ok [] /\
       update_record (others db) (e_TableName e) id t v (set_deleted userID (pg_now (others db))) = Ok (row, db') /\
       d = with_outbox db' (EmitDeleted (db_outbox db') e t (r_id row)) /\
       dto = maskRecordForRead e rc snap (scanRecordRow row (e_Name e))).
Proof.
  unfold Delete. read_step reads_open_entity. intros [[t reg] e] Haddr.
  read_step reads_authorize. intros _ _. read_step reads_precheck. intros ex (rows0 & r0 & Ht0 & Hf0 & ->).
  read_step reads_snapshot. intros snap _. read_step reads_check_record. intros _ _.
  read_step @reads_lift. intros userID _.
  apply step_interleave. read_step reads_begin_tx. intros d [-> _].
  read_step @reads_query. intros blockers Hb. read_step reads_refuse_if. intros ? Hnone.
  read_step reads_write. intros [row db'] Hupd. apply step_commit, step_recordAudit, outcome_ret.
  destruct blockers; [|done].
  exists t, reg, e, r0, snap, userID, row, db'. split_and!; try done. by exists rows0.
Qed.

Lemma SetSystemFields_outcome s db t name id fields :
  outcome (C := C) (A := A) db (SetSystemFields s t name id fields) (fun d => d = db)
    (fun found d => exists reg e validated,
       registryFor s t = Ok reg /\ GetEntity reg name = Some e /\
       Forall (fun k => k ∈ SystemFieldNames e) (payload_keys fields) /\
       ValidatePayload (declared_entity e fields) fields = inl validated /\
       patch_system db (e_TableName e) id t validated = Ok (found, d)).
Proof.
  unfold SetSystemFields. read_step @reads_lift. intros reg Hreg.
  destruct (GetEntity reg name) as [e|] eqn:He; [|intros w Hw; exact Hw].
  destruct (List.find _ (payload_keys fields)) eqn:Ef; [intros w Hw; exact Hw|].
  destruct (ValidatePayload _ fields) as [validated|] eqn:Ev; [|intros w Hw; exact Hw].
  read_step reads_begin_raw. intros d ->. read_step @reads_query. intros [found db'] Hp.
  apply step_commit, outcome_ret. exists reg, e, validated. split_and!; try done.
  apply Forall_forall. intros k Hk. apply list_elem_of_In in Hk. apply (find_none _ _ Ef) in Hk.
  apply negb_false_iff, bool_decide_eq_true in Hk. done.
Qed.
End Handlers.
