(* ===== verification/CrudProps.v ===== *)
(** Correctness of the CRUD service over every interleaving of its writes: how
    rows evolve, optimistic locking, the workflow state, references, tenants. *)
From S2P Require Import Prelude GoStrings Json Floats Condition Context Uuid Evaluate Snapshot PermissionService Metadata Router Payload Workflow AuditTrail Sql ConditionSql Jql Planner Records Crud CrudOutcomes.

Open Scope string_scope.
Open Scope list_scope.

Section Rows.
Context `{UuidLib} `{!Postgres}.

(** Equal outside the fields the platform writes. *)
Definition same_outside (sys : list string) (d d' : JsonObject) : Prop := forall k, k ∉ sys -> d' !! k = d !! k.

(** How a row may differ later: its version has grown, or only system fields
    have changed. *)
Definition row_evolves (sys : list string) (r r' : Row) : Prop :=
  r_id r' = r_id r /\ r_tenant_id r' = r_tenant_id r /\
  ((r_version r < r_version r')%Z \/
   (r_version r' = r_version r /\ r_deleted r' = r_deleted r /\ r_code r' = r_code r /\ r_status r' = r_status r /\
    same_outside sys (r_data r) (r_data r'))).

#[export] Instance row_evolves_preorder sys : PreOrder (row_evolves sys).
Proof.
  split.
  - intros r. split_and!; try done. right. split_and!; done.
  - intros a b c (Hi & Ht & Hab) (Hi' & Ht' & Hbc). split_and!; [congruence..|].
    destruct Hab as [|(? & ? & ? & ? & Hs)], Hbc as [|(? & ? & ? & ? & Hs')]; [left; lia ..|].
    right. split_and!; [congruence..|]. intros k Hk. by rewrite Hs', Hs.
Qed.

Definition table_evolves (sys : list string) (rows rows' : list Row) : Prop :=
  (NoDup (map r_id rows) -> NoDup (map r_id rows')) /\
  forall r, r ∈ rows -> exists r', r' ∈ rows' /\ row_evolves sys r r'.

#[export] Instance table_evolves_preorder sys : PreOrder (table_evolves sys).
Proof.
  split.
  - intros rows. split; [done|]. intros r Hr. by exists r.
  - intros a b c [Hn Hab] [Hn' Hbc]. split; [auto|]. intros r Hr.
    destruct (Hab r Hr) as (r' & Hr' & He). destruct (Hbc r' Hr') as (r'' & Hr'' & He').
    exists r''. split; [done|]. by transitivity r'.
Qed.

Definition db_evolves (table : string) (sys : list string) (db db' : Database) : Prop :=
  match db_tables db !! table with
  | Some rows => exists rows', db_tables db' !! table = Some rows' /\ table_evolves sys rows rows'
  | None => db_tables db' !! table = None
  end.

#[export] Instance db_evolves_preorder table sys : PreOrder (db_evolves table sys).
Proof.
  split.
  - intros db. unfold db_evolves. destruct (db_tables db !! table) as [rows|]; [|done]. by exists rows.
  - intros a b c. unfold db_evolves. destruct (db_tables a !! table) as [rows|].
    + intros (rows' & -> & He) (rows'' & -> & He'). exists rows''. split; [done|]. by transitivity rows'.
    + by intros ->.
Qed.

(** *** Statements *)

Lemma find_some_elem {B} (f : B -> bool) l x : List.find f l = Some x -> x ∈ l /\ f x = true.
Proof. intros Hf. apply find_some in Hf as [Hin Hx]. split; [by apply list_elem_of_In | done]. Qed.

Lemma live_row_true id t r : live_row id t r = true <-> r_id r = id /\ r_tenant_id r = t /\ r_deleted r = false.
Proof. unfold live_row. rewrite !andb_true_iff, !bool_decide_eq_true, negb_true_iff. tauto. Qed.

Lemma version_row_true id t v r : version_row id t v r = true <-> live_row id t r = true /\ r_version r = v.
Proof. unfold version_row. by rewrite andb_true_iff, Z.eqb_eq. Qed.

Lemma update_record_ok db table id t v change row db' :
  update_record db table id t v change = Ok (row, db') ->
  exists rows r, db_tables db !! table = Some rows /\ r ∈ rows /\ version_row id t v r = true /\
    (r_version r < max_version)%Z /\ change r = Ok row /\
    db' = set_table db table (map (fun x => if version_row id t v x then row else x) rows).
Proof.
  unfold update_record, table_rows. destruct (db_tables db !! table) as [rows|]; [|done]. simpl.
  destruct (List.find _ rows) as [r|] eqn:Ef; [|done]. apply find_some_elem in Ef as [Hin Hv].
  destruct (Z.leb_spec max_version (r_version r)); [done|].
  destruct (change r) as [r'| |] eqn:Ec; simpl; [|done..]. destruct (pg_violated _ r'); [done|].
  intros [= <- <-]. exists rows, r. done.
Qed.

Lemma insert_record_ok db table t code status data user row db' :
  insert_record db table t code status data user = Ok (row, db') ->
  exists rows kept, db_tables db !! table = Some rows /\ pg_jsonb data = Some kept /\
    row = mkRow (pg_gen_uuid db) t code status kept 1 (pg_now db) (pg_now db) user user false /\
    db' = set_table db table (rows ++ [row]).
Proof.
  unfold insert_record, table_rows. destruct (db_tables db !! table) as [rows|]; [|done]. simpl.
  destruct (pg_jsonb data) as [kept|]; [|done]. destruct (pg_violated _ _); [done|].
  intros [= <- <-]. by exists rows, kept.
Qed.

(** Every writing statement keeps identity and owner and raises the version. *)
Definition bumps (change : Row -> result DbError Row) : Prop :=
  forall r r', change r = Ok r' -> r_id r' = r_id r /\ r_tenant_id r' = r_tenant_id r /\ r_version r' = (r_version r + 1)%Z.

Lemma set_updated_bumps data code user sys now : bumps (set_updated data code user sys now).
Proof. intros r r'. unfold set_updated. destruct (pg_jsonb data); [|done]. by intros [= <-]. Qed.

Lemma set_updated_deleted data code user sys now r r' :
  set_updated data code user sys now r = Ok r' -> r_deleted r' = r_deleted r.
Proof. unfold set_updated. destruct (pg_jsonb data); [|done]. by intros [= <-]. Qed.

Lemma set_transitioned_deleted data to user now r r' :
  set_transitioned data to user now r = Ok r' -> r_deleted r' = r_deleted r.
Proof. unfold set_transitioned. destruct (pg_jsonb data); [|done]. by intros [= <-]. Qed.

Lemma set_transitioned_bumps data to user now : bumps (set_transitioned data to user now).
Proof. intros r r'. unfold set_transitioned. destruct (pg_jsonb data); [|done]. by intros [= <-]. Qed.

Lemma set_deleted_bumps user now : bumps (set_deleted user now).
Proof. intros r r'. unfold set_deleted. by intros [= <-]. Qed.

Lemma lookup_set_table db table rows table' :
  db_tables (set_table db table rows) !! table' = if decide (table = table') then Some rows else db_tables db !! table'.
Proof. simpl. destruct (decide (table = table')) as [<-|]; [by rewrite lookup_insert_eq | by rewrite lookup_insert_ne]. Qed.

Lemma set_table_evolves db table rows rows' table' sys :
  db_tables db !! table = Some rows -> (table = table' -> table_evolves sys rows rows') ->
  db_evolves table' sys db (set_table db table rows').
Proof.
  intros Hrows He. unfold db_evolves. rewrite lookup_set_table.
  destruct (decide (table = table')) as [<-|].
  - rewrite Hrows. exists rows'. auto.
  - destruct (db_tables db !! table') as [rs|]; [|done]. exists rs. done.
Qed.

Lemma map_id_replace (test : Row -> bool) row rows :
  (forall x, test x = true -> r_id x = r_id row) ->
  map r_id (map (fun x => if test x then row else x) rows) = map r_id rows.
Proof.
  intros Ht. rewrite map_map. apply map_ext. intros x. destruct (test x) eqn:E; [|done]. symmetry. auto.
Qed.

Lemma update_record_evolves db table id t v change row db' table' sys :
  bumps change -> update_record db table id t v change = Ok (row, db') -> db_evolves table' sys db db'.
Proof.
  intros Hb (rows & r & Hrows & Hin & Hv & _ & Hc & ->)%update_record_ok.
  apply Hb in Hc as (Hi & Ht & Hver). apply version_row_true in Hv as [Hl Hv]. apply live_row_true in Hl as (Hid & Htn & _).
  apply (set_table_evolves _ _ rows); [done|]. intros _. split.
  - rewrite map_id_replace; [done|]. intros x [Hx _]%version_row_true. apply live_row_true in Hx as [Hx _]. congruence.
  - intros x Hx. destruct (version_row id t v x) eqn:E.
    + exists row. split.
      * apply list_elem_of_fmap. exists x. by rewrite E.
      * apply version_row_true in E as [El Ev]. apply live_row_true in El as (Eid & Et & _).
        split_and!; [congruence..|]. left. lia.
    + exists x. split; [|done]. apply list_elem_of_fmap. exists x. by rewrite E.
Qed.

Lemma insert_record_evolves `{!PostgresLaws} db table t code status data user row db' table' sys :
  insert_record db table t code status data user = Ok (row, db') -> db_evolves table' sys db db'.
Proof.
  intros (rows & kept & Hrows & _ & -> & ->)%insert_record_ok.
  apply (set_table_evolves _ _ rows); [done|]. intros _. split.
  - intros Hnd. rewrite map_app. apply NoDup_app. split_and!; [done | | apply NoDup_singleton].
    intros i (x & -> & Hx)%list_elem_of_fmap Hi. apply list_elem_of_singleton in Hi. simpl in Hi.
    by apply (gen_uuid_fresh db table rows x).
  - intros x Hx. exists x. split; [|done]. apply elem_of_app. by left.
Qed.

Lemma patch_system_ok db table id t patch found db' :
  patch_system db table id t patch = Ok (found, db') ->
  exists rows kept, db_tables db !! table = Some rows /\ pg_jsonb patch = Some kept /\
    db' = set_table db table (map (fun r => if live_row id t r then
      mkRow (r_id r) (r_tenant_id r) (r_code r) (r_status r) (kept ∪ r_data r) (r_version r)
        (r_created_at r) (r_updated_at r) (r_created_by r) (r_updated_by r) (r_deleted r) else r) rows).
Proof.
  unfold patch_system, table_rows. destruct (db_tables db !! table) as [rows|]; [|done]. simpl.
  destruct (pg_jsonb patch) as [kept|]; [|done]. intros [= <- <-]. by exists rows, kept.
Qed.

Lemma patch_system_evolves `{!PostgresLaws} db table id t patch found db' table' sys :
  patch_system db table id t patch = Ok (found, db') -> (table = table' -> forall k, k ∈ dom patch -> k ∈ sys) ->
  db_evolves table' sys db db'.
Proof.
  intros (rows & kept & Hrows & Hk & ->)%patch_system_ok Hsys.
  apply (set_table_evolves _ _ rows); [done|]. intros Heq. specialize (Hsys Heq). split.
  - rewrite map_map. intros Hnd. erewrite map_ext; [exact Hnd|]. intros x. by destruct (live_row id t x).
  - intros x Hx. eexists. split; [apply list_elem_of_fmap; by exists x|]. destruct (live_row id t x); [|done].
    split_and!; try done. right. split_and!; try done. intros k Hki. simpl. rewrite lookup_union_r; [done|].
    apply not_elem_of_dom. rewrite (jsonb_dom _ _ Hk). naive_solver.
Qed.
End Rows.

Section Interleaving.
Context `{UuidLib} `{!Postgres} {St C A : Type} `{!PolicyStore St} `{!Cache C} `{!AuditStore A}.
Local Notation World := (@World _ C A).
Local Notation Service := (@CrudService _ St).
Implicit Types (s : Service) (db : Database) (w : World) (rc : RequestContext).

(** An entity the service knows, in the registry of some tenant. *)
Definition serves s (e : EntityDefinition) : Prop :=
  exists t reg name, registryFor s t = Ok reg /\ GetEntity reg name = Some e.

(** No two entities share a table. *)
Definition tables_distinct s : Prop :=
  forall e e', serves s e -> serves s e' -> e_TableName e = e_TableName e' -> e = e'.

(** Identifiers are the primary key of every entity's table. *)
Definition ids_unique s db : Prop :=
  forall e rows, serves s e -> db_tables db !! e_TableName e = Some rows -> NoDup (map r_id rows).

(** A committed write transaction of some session: the call may have read an
    older database before, [others] being what was committed in between. *)
Inductive write_step s : Database -> Database -> Prop :=
| WriteCreate w name raw rc reason dto w' :
    Create s name raw rc reason w = (Ok dto, w') -> write_step s (w_db w) (w_db w')
| WriteUpdate w others name id v raw rc reason dto w' :
    Update s others name id v raw rc reason w = (Ok dto, w') -> write_step s (others (w_db w)) (w_db w')
| WriteTransition w others name id action v payload rc reason dto w' :
    Transition s others name id action v payload rc reason w = (Ok dto, w') -> write_step s (others (w_db w)) (w_db w')
| WriteDelete w others name id v rc reason dto w' :
    Delete s others name id v rc reason w = (Ok dto, w') -> write_step s (others (w_db w)) (w_db w')
| WriteSystem w t name id fields found w' :
    SetSystemFields s t name id fields w = (Ok found, w') -> write_step s (w_db w) (w_db w').

Lemma outcome_run {B} (m : Handler World B) F O w b w' :
  outcome (w_db w) m F O -> m w = (Ok b, w') -> O b (w_db w').
Proof. intros Ho Hm. specialize (Ho w eq_refl). by rewrite Hm in Ho. Qed.

Lemma addresses_serves s name rc t reg e : addresses s name rc t reg e -> serves s e.
Proof. intros (_ & Hr & He). by exists t, reg, name. Qed.

(** Only the tables of a database matter to how its rows evolve. *)
Lemma db_evolves_tables table sys db d d' :
  db_tables d = db_tables d' -> db_evolves table sys db d -> db_evolves table sys db d'.
Proof. unfold db_evolves. by intros ->. Qed.

Lemma validated_dom e data result : ValidatePayload e data = inl result -> dom result = dom data.
Proof.
  intros [_ Hk]%ValidatePayload_ok. apply set_eq. intros k. rewrite !elem_of_dom, Hk. by rewrite fmap_is_Some.
Qed.

Lemma write_step_evolves `{!PostgresLaws} s e db db' :
  tables_distinct s -> serves s e -> write_step s db db' -> db_evolves (e_TableName e) (SystemFieldNames e) db db'.
Proof.
  intros Hdist He. destruct 1 as [w name raw rc reason dto w' Hr|w others name id v raw rc reason dto w' Hr
    |w others name id action v payload rc reason dto w' Hr|w others name id v rc reason dto w' Hr|w t name id fields found w' Hr].
  - apply (outcome_run _ _ _ _ _ _ (Create_outcome s _ _ _ _ _)) in Hr
      as (? & ? & ? & ? & ? & ? & ? & ? & _ & _ & _ & Hi & -> & _).
    eapply db_evolves_tables; [|by eapply insert_record_evolves]. done.
  - apply (outcome_run _ _ _ _ _ _ (Update_outcome s others _ _ _ _ _ _ _)) in Hr
      as (? & ? & ? & ? & ? & ? & ? & ? & ? & _ & _ & _ & _ & Hu & -> & _).
    eapply db_evolves_tables; [|eapply update_record_evolves; [apply set_updated_bumps | exact Hu]]. done.
  - apply (outcome_run _ _ _ _ _ _ (Transition_outcome s others _ _ _ _ _ _ _ _)) in Hr
      as (? & ? & ? & ? & ? & ? & ? & ? & ? & ? & ? & ? & ? & _ & _ & _ & _ & _ & _ & _ & _ & _ & Hu & _ & -> & _).
    eapply db_evolves_tables; [|eapply update_record_evolves; [apply set_transitioned_bumps | exact Hu]]. done.
  - apply (outcome_run _ _ _ _ _ _ (Delete_outcome s others _ _ _ _ _ _)) in Hr
      as (? & ? & ? & ? & ? & ? & ? & ? & _ & _ & _ & Hu & -> & _).
    eapply db_evolves_tables; [|eapply update_record_evolves; [apply set_deleted_bumps | exact Hu]]. done.
  - apply (outcome_run _ _ _ _ _ _ (SetSystemFields_outcome s _ _ _ _ _)) in Hr
      as (reg & e' & validated & Hreg & He' & Hsys & Hval & Hp).
    eapply patch_system_evolves; [exact Hp|]. intros Heq k Hk.
    assert (e' = e) as <- by (apply Hdist; [by exists t, reg, name | done..]).
    rewrite (validated_dom _ _ _ Hval) in Hk. apply elem_of_dom in Hk as [v Hv]. rewrite Forall_forall in Hsys.
    apply Hsys. apply list_elem_of_fmap. exists (k, v). split; [done|]. by apply elem_of_map_to_list.
Qed.

Lemma write_steps_evolve `{!PostgresLaws} s e db db' :
  tables_distinct s -> serves s e -> rtc (write_step s) db db' -> db_evolves (e_TableName e) (SystemFieldNames e) db db'.
Proof.
  intros Hdist He. induction 1 as [|a b c Hab _ IH]; [done|]. transitivity b; [|done]. by apply (write_step_evolves s).
Qed.

(** With unique identifiers, reading a record is membership. *)
Lemma unique_row rows (r r' : Row) : NoDup (map r_id rows) -> r ∈ rows -> r' ∈ rows -> r_id r = r_id r' -> r = r'.
Proof.
  intros Hnd [i Hi]%list_elem_of_lookup [j Hj]%list_elem_of_lookup Heq.
  assert (i = j) as <-; [|congruence]. eapply NoDup_lookup; [exact Hnd | |]; rewrite list_lookup_fmap;
    [by rewrite Hi | rewrite Hj; simpl; by rewrite Heq].
Qed.

Lemma find_live rows id t r :
  NoDup (map r_id rows) -> r ∈ rows -> live_row id t r = true -> List.find (live_row id t) rows = Some r.
Proof.
  intros Hnd Hin Hl. destruct (List.find (live_row id t) rows) as [r'|] eqn:Ef.
  - apply find_some_elem in Ef as [Hin' Hl']. f_equal. apply live_row_true in Hl as [Hid _], Hl' as [Hid' _].
    eapply unique_row; [exact Hnd | done | done | congruence].
  - apply list_elem_of_In in Hin. apply (find_none _ _ Ef) in Hin. congruence.
Qed.

Lemma stored_elem db e id t r : stored db e id t r ->
  exists rows, db_tables db !! e_TableName e = Some rows /\ r ∈ rows /\ live_row id t r = true.
Proof. intros (rows & Ht & [Hin Hl]%find_some_elem). by exists rows. Qed.

(** The row a version-checked statement replaced, seen from what the call read
    before: nothing but system fields changed in between, if the caller did
    not ask for a version newer than the one that was there to read. *)
Lemma overwritten_row `{!PostgresLaws} s others db e id t v change row db' r0 :
  tables_distinct s -> serves s e -> ids_unique s db -> rtc (write_step s) db (others db) -> stored db e id t r0 ->
  bumps change -> (forall r r', change r = Ok r' -> r_deleted r' = r_deleted r) ->
  update_record (others db) (e_TableName e) id t v change = Ok (row, db') ->
  exists r1, stored (others db) e id t r1 /\ stored db' e id t row /\ change r1 = Ok row /\ r_version r1 = v /\
    (r_version r0 <= v)%Z /\
    ((v <= r_version r0)%Z -> same_outside (SystemFieldNames e) (r_data r0) (r_data r1) /\ r_status r1 = r_status r0).
Proof.
  intros Hdist He Hids Hsteps Hs0 Hb Hdel Hu. apply stored_elem in Hs0 as (rows0 & Ht0 & Hin0 & Hl0).
  apply (write_steps_evolve s e) in Hsteps; [|done..]. unfold db_evolves in Hsteps. rewrite Ht0 in Hsteps.
  destruct Hsteps as (rows1 & Ht1 & Hnd & Hev). specialize (Hnd (Hids _ _ He Ht0)).
  apply update_record_ok in Hu as (rows & r1 & Ht1' & Hin1 & Hv1 & _ & Hc & ->).
  rewrite Ht1 in Ht1'. injection Ht1' as <-. pose proof Hv1 as [Hl1 Hver]%version_row_true.
  destruct (Hev r0 Hin0) as (r1' & Hin1' & Hid & _ & Hver').
  pose proof Hl0 as (Hid0 & _)%live_row_true. pose proof Hl1 as (Hid1 & Htn1 & Hd1)%live_row_true.
  assert (r1' = r1) as -> by (eapply unique_row; [exact Hnd | done | done | congruence]).
  pose proof (Hb _ _ Hc) as (Hrid & Hrt & _). exists r1. split_and!; try done.
  - exists rows1. split; [done|]. by apply find_live.
  - eexists. rewrite lookup_set_table, decide_True by done. split; [reflexivity|]. apply find_live.
    + rewrite map_id_replace; [done|]. intros x [Hx _]%version_row_true. apply live_row_true in Hx as [Hx _]. congruence.
    + apply list_elem_of_fmap. exists r1. by rewrite Hv1.
    + apply live_row_true. rewrite (Hdel _ _ Hc). split_and!; congruence.
  - destruct Hver' as [|(Heq & _)]; lia.
  - intros Hle. destruct Hver' as [|(_ & _ & _ & Hst & Hs)]; [lia|]. done.
Qed.


(** *** Transitions *)

Lemma find_transition e wf action from tr :
  e_Workflow e = Some wf -> FindTransition e action from = Some tr ->
  tr ∈ w_Transitions wf /\ t_Action tr = action /\ t_From tr = from.
Proof.
  unfold FindTransition. intros -> [Hin Ht]%find_some_elem. apply andb_true_iff in Ht as [Ha%String.eqb_eq Hf%String.eqb_eq].
  done.
Qed.

Lemma state_not_system e wf : Validate e = None -> e_Workflow e = Some wf -> w_StateField wf ∉ SystemFieldNames e.
Proof.
  intros (_ & _ & _ & _ & Hs & _)%validated_parts Hw (f & Hn & Hf)%list_elem_of_fmap.
  apply list_elem_of_In, filter_In in Hf as [Hf Hsys]. rewrite Forall_forall in Hs.
  specialize (Hs f (proj2 (list_elem_of_In _ _) Hf)). unfold system_issues in Hs. rewrite Hsys, Hw in Hs. simpl in Hs.
  autorewrite with issues in Hs. destruct Hs as (_ & _ & Hs). rewrite Hn, String.eqb_refl in Hs. done.
Qed.

Lemma canonical_string e k (st : string) : exists st' : string, canonical e k (JStr st) = JStr st'.
Proof.
  unfold canonical. destruct (_ && _); [|by exists st]. unfold canonical_reference. cbn.
  destruct (uuid_Parse st) as [u|]; [by exists (uuid_String u) | by exists st].
Qed.

Lemma canonical_plain e k v : is_reference_field e k = false -> canonical e k v = v.
Proof. unfold canonical. by intros ->. Qed.

(** The data of a transition holds its target state. *)
Lemma transition_state e wf tr merged validated rc :
  Validate e = None -> e_Workflow e = Some wf -> tr ∈ w_Transitions wf ->
  ValidatePayload e (<[w_StateField wf := JStr (t_To tr)]> merged) = inl validated ->
  ApplySetFields tr validated rc !! w_StateField wf = Some (canonical e (w_StateField wf) (JStr (t_To tr))).
Proof.
  intros Hv Hw Htr [_ Hk]%ValidatePayload_ok. destruct (validated_workflow e wf Hv Hw) as (_ & _ & _ & Hall).
  rewrite Forall_forall in Hall. destruct (Hall tr Htr) as (_ & _ & _ & Hset).
  unfold ApplySetFields. rewrite lookup_union_r; [|by rewrite lookup_fmap, Hset].
  by rewrite Hk, lookup_insert_eq.
Qed.

Lemma scoped_tenant_parse rc t : ScopedTenant rc = Ok t -> uuid_Parse (rc_TenantID rc) = Some t.
Proof.
  unfold ScopedTenant. destruct (String.eqb _ ""); [done|]. destruct (uuid_Parse _); [|done]. by intros [= ->].
Qed.

Lemma RecordEvent_ok events eid now e r action from to rc t user events' :
  ScopedTenant rc = Ok t -> parseUserID rc = Ok user ->
  RecordEvent events eid now e r action from to rc = Ok events' ->
  events' = events ++ [mkEvent eid t (e_Name e) r action from to user now].
Proof.
  intros Ht%scoped_tenant_parse Hu. unfold RecordEvent, parseContextIDs, parse_uuid. rewrite Ht. cbn.
  unfold parseUserID in Hu. destruct (String.eqb (rc_UserID rc) "").
  - injection Hu as <-. cbn. by intros [= <-].
  - destruct (uuid_Parse (rc_UserID rc)); [|done]. injection Hu as <-. cbn. by intros [= <-].
Qed.

(** C3. A transition follows the workflow under any interleaving: a call that
    succeeds took a declared transition of the requested action whose guard
    held on the record it read; the record it replaced was at the expected
    version and, when the caller expected no more than it could read, in the
    transition's source state; afterwards the record's data and its status
    column both hold the target state; and with it, atomically, exactly one
    event that says so is added to the ledger and one to the outbox. *)
Theorem Transition_follows_workflow `{!PostgresLaws} s others w name id action v payload rc reason dto w' :
  tables_distinct s -> (forall e, serves s e -> Validate e = None) -> ids_unique s (w_db w) ->
  rtc (write_step s) (w_db w) (others (w_db w)) ->
  Transition s others name id action v payload rc reason w = (Ok dto, w') ->
  exists t reg e wf tr r0 r1 r2 user eid now, addresses s name rc t reg e /\ e_Workflow e = Some wf /\
    tr ∈ w_Transitions wf /\ t_Action tr = action /\
    stored (w_db w) e id t r0 /\ stored (others (w_db w)) e id t r1 /\ stored (w_db w') e id t r2 /\
    r_version r1 = v /\ r_version r2 = (v + 1)%Z /\
    RunGuard tr (WithWorkflowContext (r_data r0) (default ∅ (last_actors (w_db w) t e [id] !! id))) rc = None /\
    ((v <= r_version r0)%Z -> r_data r1 !! w_StateField wf ≫= unmarshal_string = Some (t_From tr)) /\
    r_data r2 !! w_StateField wf = Some (canonical e (w_StateField wf) (JStr (t_To tr))) /\
    r_status r2 = Some (t_To tr) /\
    parseUserID rc = Ok user /\
    db_events (w_db w') = db_events (others (w_db w))
      ++ [mkEvent eid t (e_Name e) id action (t_From tr) (t_To tr) user now] /\
    db_outbox (w_db w') = EmitTransitioned (db_outbox (others (w_db w))) e t id action (t_From tr) (t_To tr) user.
Proof.
  intros Hdist Hvalid Hids Hsteps Hr. apply (outcome_run _ _ _ _ _ _ (Transition_outcome s others _ _ _ _ _ _ _ _)) in Hr
    as (t & reg & e & r0 & snap & wf & from & tr & validated & user & row & db' & events & Haddr & Hs0 & Hw & Hfrom & Htr
        & Hguard & Hval & _ & Huser & Hu & Hev & Hdb & _).
  pose proof (addresses_serves _ _ _ _ _ _ Haddr) as He.
  destruct (find_transition e wf action from tr Hw Htr) as (Hin & Hact & <-).
  destruct (overwritten_row _ _ _ _ _ _ _ _ _ _ _ Hdist He Hids Hsteps Hs0 (set_transitioned_bumps _ _ _ _)
    (set_transitioned_deleted _ _ _ _) Hu) as (r1 & Hs1 & Hs2 & Hc & Hv & _ & Hsame).
  pose proof (set_transitioned_bumps _ _ _ _ _ _ Hc) as (Hrid & _ & Hver).
  pose proof Hs1 as (rows1 & _ & _ & (Hid1 & _)%live_row_true)%stored_elem.
  apply update_record_ok in Hu as (rows & _ & _ & _ & _ & _ & _ & Hdb').
  apply (RecordEvent_ok _ _ _ _ _ _ _ _ _ t user) in Hev; [|apply Haddr | done].
  unfold set_transitioned in Hc. destruct (pg_jsonb _) as [kept|] eqn:Ek; [|done]. injection Hc as <-. simpl in *.
  rewrite Hid1 in *.
  exists t, reg, e, wf, tr, r0, r1. eexists _, user, (pg_gen_uuid db'), (pg_now (others (w_db w))).
  split_and!; try done.
  - by rewrite Hdb.
  - simpl. lia.
  - intros Hl. destruct (Hsame Hl) as [Hs _]. rewrite <- Hfrom. f_equal. apply Hs. apply state_not_system; auto.
  - simpl. destruct (canonical_string e (w_StateField wf) (t_To tr)) as [st Hst]. rewrite Hst.
    apply (jsonb_string _ _ _ _ Ek). rewrite <- Hst. by eapply transition_state; eauto.
  - reflexivity.
  - rewrite Hdb, Hev, Hdb'. done.
  - rewrite Hdb, Hdb'. done.
Qed.

(** *** References *)

Lemma find_in_tables_prefix db t id byTable tables hits out :
  find_in_tables db t id byTable tables hits = Ok out -> exists more, out = hits ++ more.
Proof.
  revert hits. induction tables as [|table tables IH]; intros hits; cbn [find_in_tables].
  - intros [= <-]. exists []. by rewrite app_nil_r.
  - destruct (maxReferencingHits <=? length hits)%nat; [intros [= <-]; exists []; by rewrite app_nil_r|].
    destruct (table_rows db table) as [rows| |]; cbn [rbind]; [|done..]. intros [more ->]%IH.
    rewrite <- app_assoc. eauto.
Qed.

Lemma find_in_tables_nil db t id byTable tables table g gs :
  find_in_tables db t id byTable tables [] = Ok [] -> table ∈ tables -> byTable !! table = Some (g :: gs) ->
  exists rows, db_tables db !! table = Some rows /\ forall x, x ∈ rows -> blocks t id (g :: gs) x = false.
Proof.
  induction tables as [|table' tables IH]; [intros _ Hin; by apply elem_of_nil in Hin|].
  cbn [find_in_tables length]. intros Hf Hin Hg. change (maxReferencingHits <=? 0)%nat with false in Hf. cbv iota in Hf.
  unfold table_rows in Hf. destruct (db_tables db !! table') as [rows|] eqn:Et; [|done]. cbn [rbind] in Hf.
  set (group := default [] (byTable !! table')) in *.
  assert (Hnone : head group = None \/ List.filter (blocks t id group) rows = []).
  { destruct (head group) as [g'|]; [right | by left]. pose proof Hf as [more Hm]%find_in_tables_prefix.
    symmetry in Hm. apply app_nil in Hm as [Hm _]. apply app_nil in Hm as [_ Hm]. apply map_eq_nil in Hm.
    by destruct (List.filter _ rows). }
  apply elem_of_cons in Hin as [->|Hin].
  - exists rows. split; [done|]. unfold group in Hnone. rewrite Hg in Hnone. simpl in Hnone.
    destruct Hnone as [|Hnone]; [done|]. intros x Hx. destruct (blocks t id (g :: gs) x) eqn:Eb; [|done].
    assert (Hbad : x ∈ List.filter (blocks t id (g :: gs)) rows) by (apply list_elem_of_In, filter_In; by rewrite <- list_elem_of_In).
    rewrite Hnone in Hbad. by apply elem_of_nil in Hbad.
  - apply IH; [|done..]. assert (Hnil : match head group with
      | Some g' => map (fun row => mkHit (refEntity g') (refField g') (r_id row)) (take 50 (List.filter (blocks t id group) rows))
      | None => [] end = []).
    { destruct (head group); [|done]. destruct Hnone as [Hbad|Hnone]; [done|]. rewrite Hnone. by rewrite take_nil. }
    rewrite <- Hf. f_equal. symmetry. exact Hnil.
Qed.

Lemma referencingFields_elem reg name e f target :
  GetEntity reg name = Some e -> f ∈ e_Fields e -> f_Kind f = KindReference -> f_RefEntity f = Some target ->
  mkRef (e_Name e) (f_Name f) (e_TableName e) (FieldHasRealColumn f) ∈ referencingFields reg target.
Proof.
  intros He Hf Hk Hr. unfold referencingFields. apply list_elem_of_In, in_flat_map. exists (name, e). split.
  - apply list_elem_of_In. rewrite sorted_members_perm. by apply elem_of_map_to_list.
  - apply list_elem_of_In. apply list_elem_of_omap. exists f. split; [done|]. simpl. by rewrite Hk, Hr, !String.eqb_refl.
Qed.

(** When the guard finds nothing, no live record of the tenant refers to the
    record, in any table of any entity that can. *)
Lemma no_references `{!PostgresLaws} db t id reg target name e f rows x :
  findReferencingRecords db t id (referencingFields reg target) = Ok [] ->
  GetEntity reg name = Some e -> f ∈ e_Fields e -> f_Kind f = KindReference -> f_RefEntity f = Some target ->
  db_tables db !! e_TableName e = Some rows -> x ∈ rows -> r_tenant_id x = t -> r_deleted x = false -> r_id x <> id ->
  r_data x !! f_Name f <> Some (JStr (uuid_String id)).
Proof.
  intros Hfind He Hf Hk Hr Hrows Hx Ht Hd Hid Hdata.
  pose proof (referencingFields_elem reg name e f target He Hf Hk Hr) as Href.
  set (rf := mkRef _ _ _ _) in Href. set (refs := referencingFields reg target) in *.
  assert (Hin : rf ∈ group_members refTable (fun _ => true) (e_TableName e) refs).
  { unfold group_members. apply list_elem_of_In, filter_In. split; [by apply list_elem_of_In|]. simpl.
    by apply bool_decide_eq_true. }
  destruct (group_members refTable (fun _ => true) (e_TableName e) refs) as [|g gs] eqn:Eg; [by apply elem_of_nil in Hin|].
  unfold findReferencingRecords in Hfind.
  destruct (find_in_tables_nil db t id _ _ (e_TableName e) g gs Hfind) as (rows' & Hrows' & Hall).
  { rewrite sort_strings_perm. apply elem_of_remove_dups, list_elem_of_fmap. by exists rf. }
  { rewrite group_lookup. unfold group_members in Eg. unfold group_members. by rewrite Eg. }
  rewrite Hrows in Hrows'. injection Hrows' as <-. specialize (Hall x Hx). unfold blocks in Hall.
  rewrite Ht, Hd, (bool_decide_eq_true_2 (t = t)), (bool_decide_eq_false_2 _ Hid) in Hall by done. simpl in Hall.
  apply not_true_iff_false in Hall. apply Hall.
  change (existsb (fun r => references id r x) (g :: gs) = true). apply existsb_exists. exists rf. split; [by apply list_elem_of_In|].
  unfold references, data_text, path_text. simpl. rewrite Hdata. simpl.
  destruct (FieldHasRealColumn f); apply bool_decide_eq_true; [apply uuid_cast_canonical | done].
Qed.

Lemma ids_unique_steps `{!PostgresLaws} s e db db' rows :
  tables_distinct s -> serves s e -> ids_unique s db -> rtc (write_step s) db db' ->
  is_Some (db_tables db !! e_TableName e) -> db_tables db' !! e_TableName e = Some rows -> NoDup (map r_id rows).
Proof.
  intros Hdist He Hids Hsteps [rows0 Hr0] Hr. apply (write_steps_evolve s e) in Hsteps; [|done..].
  unfold db_evolves in Hsteps. rewrite Hr0 in Hsteps. destruct Hsteps as (rows' & Hr' & Hnd & _).
  rewrite Hr in Hr'. injection Hr' as <-. exact (Hnd (Hids _ _ He Hr0)).
Qed.

(** *** Calls, one after the other *)

Inductive call : Type :=
| CallCreate (name : string) (raw : JsonObject) (rc : RequestContext) (reason : option string)
| CallUpdate (name : string) (id : uuid) (v : Z) (raw : JsonObject) (rc : RequestContext) (reason : option string)
| CallTransition (name : string) (id : uuid) (action : string) (v : Z) (payload : option JsonObject) (rc : RequestContext)
    (reason : option string)
| CallDelete (name : string) (id : uuid) (v : Z) (rc : RequestContext) (reason : option string)
| CallSystem (t : uuid) (name : string) (id : uuid) (fields : JsonObject).

(** The tenant a call works for, when its context names one. *)
Definition call_tenant (c : call) : option uuid :=
  match c with
  | CallCreate _ _ rc _ | CallUpdate _ _ _ _ rc _ | CallTransition _ _ _ _ _ rc _ | CallDelete _ _ _ rc _ =>
    match ScopedTenant rc with Ok t => Some t | _ => None end
  | CallSystem t _ _ _ => Some t
  end.

Definition no_others (db : Database) : Database := db.

Definition perform s (c : call) : Handler World unit :=
  match c with
  | CallCreate name raw rc reason => let* _ := Create s name raw rc reason in hret tt
  | CallUpdate name id v raw rc reason => let* _ := Update s no_others name id v raw rc reason in hret tt
  | CallTransition name id action v payload rc reason =>
    let* _ := Transition s no_others name id action v payload rc reason in hret tt
  | CallDelete name id v rc reason => let* _ := Delete s no_others name id v rc reason in hret tt
  | CallSystem t name id fields => let* _ := SetSystemFields s t name id fields in hret tt
  end.

(** The rows of the other tenants. *)
Definition foreign (t : uuid) (rows : list Row) : list Row :=
  List.filter (fun r => negb (bool_decide (r_tenant_id r = t))) rows.

(** Nothing of another tenant is changed, added or removed. *)
Definition isolated (t : uuid) (db db' : Database) : Prop :=
  (forall table, foreign t <$> db_tables db' !! table = foreign t <$> db_tables db !! table) /\
  exists events, db_events db' = db_events db ++ events /\ Forall (fun e => we_TenantID e = t) events.

Lemma foreign_replace t (test : Row -> bool) (new : Row -> Row) rows :
  (forall x, test x = true -> r_tenant_id x = t /\ r_tenant_id (new x) = t) ->
  foreign t (map (fun x => if test x then new x else x) rows) = foreign t rows.
Proof.
  intros Ht. induction rows as [|x rows IH]; [done|]. unfold foreign in *. simpl. rewrite IH.
  destruct (test x) eqn:E; [|done]. destruct (Ht x E) as [Hx Hn]. by rewrite Hx, Hn, bool_decide_eq_true_2 by done.
Qed.

Lemma set_table_foreign t db table rows rows' :
  db_tables db !! table = Some rows -> foreign t rows' = foreign t rows ->
  forall table', foreign t <$> db_tables (set_table db table rows') !! table' = foreign t <$> db_tables db !! table'.
Proof.
  intros Hr Hf table'. rewrite lookup_set_table. destruct (decide (table = table')) as [<-|]; [|done].
  rewrite Hr. simpl. by rewrite Hf.
Qed.

Lemma update_record_foreign db table id t v change row db' :
  bumps change -> update_record db table id t v change = Ok (row, db') ->
  (forall table', foreign t <$> db_tables db' !! table' = foreign t <$> db_tables db !! table') /\ db_events db' = db_events db.
Proof.
  intros Hb (rows & r & Hrows & Hin & Hv & _ & Hc & ->)%update_record_ok. split; [|done].
  apply (set_table_foreign _ _ _ rows); [done|]. apply (foreign_replace t _ (fun _ => row)).
  apply Hb in Hc as (_ & Ht & _). apply version_row_true in Hv as [(_ & Hv & _)%live_row_true _].
  intros x [(_ & Hx & _)%live_row_true _]%version_row_true. split; congruence.
Qed.

Lemma outcome_discard {B} db (m : Handler World B) (F : Database -> Prop) (O : unit -> Database -> Prop) :
  outcome db m F (fun _ d => O tt d) -> outcome db (let* _ := m in hret tt) F O.
Proof. intros Hm. apply outcome_bind. eapply outcome_conseq; [exact Hm | done|]. intros b d Hd. by apply outcome_ret. Qed.

Lemma isolated_intro t db db' d :
  (forall table, foreign t <$> db_tables db' !! table = foreign t <$> db_tables db !! table) ->
  db_tables d = db_tables db' -> db_events d = db_events db -> isolated t db d.
Proof. intros Hf Ht He. split; [by rewrite Ht|]. exists []. by rewrite app_nil_r. Qed.

Lemma perform_isolated s c db :
  outcome db (perform s c) (fun d => d = db) (fun _ d => exists t, call_tenant c = Some t /\ isolated t db d).
Proof.
  destruct c as [name raw rc reason|name id v raw rc reason|name id action v payload rc reason|name id v rc reason|t name id fields];
    apply outcome_discard; (eapply outcome_conseq;
      [first [apply Create_outcome | apply Update_outcome | apply Transition_outcome | apply Delete_outcome | apply SetSystemFields_outcome]
      | unfold no_others; tauto |]); unfold no_others.
  - intros dto d (t & reg & e & snap & validated & user & row & db' & (Ht & _) & _ & _ & Hi & -> & _).
    exists t. simpl. rewrite Ht. split; [done|]. apply insert_record_ok in Hi as (rows & kept & Hrows & _ & Hrow & ->).
    eapply isolated_intro; [|reflexivity..]. apply (set_table_foreign _ _ _ rows); [done|].
    unfold foreign. rewrite List.filter_app, Hrow. simpl. rewrite bool_decide_eq_true_2 by done. simpl. by rewrite app_nil_r.
  - intros dto d (t & reg & e & r0 & snap & validated & user & row & db' & (Ht & _) & _ & _ & _ & Hu & -> & _).
    exists t. simpl. rewrite Ht. split; [done|].
    destruct (update_record_foreign _ _ _ _ _ _ _ _ (set_updated_bumps _ _ _ _ _) Hu) as [Hf He].
    by apply (isolated_intro t _ db').
  - intros dto d (t & reg & e & r0 & snap & wf & from & tr & validated & user & row & db' & events & (Ht & _) & _ & _ & _ & _
      & _ & _ & _ & Huser & Hu & Hev & -> & _).
    exists t. simpl. pose proof Ht as Ht'. rewrite Ht. split; [done|].
    destruct (update_record_foreign _ _ _ _ _ _ _ _ (set_transitioned_bumps _ _ _ _) Hu) as [Hf He].
    split; [done|]. rewrite <- He. apply (RecordEvent_ok _ _ _ _ _ _ _ _ _ _ _ _ Ht' Huser) in Hev as ->.
    eexists. split; [reflexivity|]. by repeat constructor.
  - intros dto d (t & reg & e & r0 & snap & user & row & db' & (Ht & _) & _ & _ & Hu & -> & _).
    exists t. simpl. rewrite Ht. split; [done|].
    destruct (update_record_foreign _ _ _ _ _ _ _ _ (set_deleted_bumps _ _) Hu) as [Hf He].
    by apply (isolated_intro t _ db').
  - intros found d (reg & e & validated & _ & _ & _ & _ & Hps). exists t. split; [done|].
    apply patch_system_ok in Hps as (rows & kept & Hrows & _ & ->).
    eapply isolated_intro; [|reflexivity..]. apply (set_table_foreign _ _ _ rows); [done|].
    apply foreign_replace. intros x (_ & Hx & _)%live_row_true. done.
Qed.

(** C4. Every write call is atomic and stays in its tenant: a call that does
    not succeed leaves the database exactly as it was, and a call that does
    changes, adds and removes no row of another tenant in any table, and
    appends to the workflow ledger only events of its own tenant. *)
Theorem calls_atomic_and_isolated s c w r w' :
  perform s c w = (r, w') ->
  (r <> Ok tt -> w_db w' = w_db w) /\
  (r = Ok tt -> exists t, call_tenant c = Some t /\ isolated t (w_db w) (w_db w')).
Proof.
  intros Hp. pose proof (perform_isolated s c (w_db w) w eq_refl) as Ho. rewrite Hp in Ho.
  destruct r as [[]| |]; split; try done; by intros [].
Qed.
End Interleaving.
