(* ===== verification/CrudState.v ===== *)
(** The status column and the workflow state: they agree in every database the
    service's calls reach one after the other, and a concrete interleaving of
    two sessions in which they come apart. Also the concrete database and
    service the CRUD theorems are exercised on. *)
From S2P Require Import Prelude GoStrings Json Floats Condition Context Uuid Evaluate Snapshot PermissionService PolicyStore Metadata Router Payload Workflow AuditTrail Sql ConditionSql Jql Planner Records Crud CrudOutcomes CrudProps.

Open Scope string_scope.
Open Scope list_scope.

Section Mirror.
Context `{UuidLib} `{!Postgres} {St C A : Type} `{!PolicyStore St} `{!Cache C} `{!AuditStore A}.
Local Notation World := (@World _ C A).
Local Notation Service := (@CrudService _ St).
Implicit Types (s : Service) (db : Database) (rc : RequestContext).

(** The state field holds plain values: it is neither a reference nor
    computed. *)
Definition plain_state (e : EntityDefinition) : Prop :=
  forall wf, e_Workflow e = Some wf -> is_reference_field e (w_StateField wf) = false /\
    forall f, f ∈ e_Fields e -> f_Name f = w_StateField wf -> f_Computed f = None.

(** The data has the state field, and the status column says the same. *)
Definition mirrored (e : EntityDefinition) (r : Row) : Prop :=
  forall wf, e_Workflow e = Some wf ->
    exists v, r_data r !! w_StateField wf = Some v /\ forall st, unmarshal_string v = Some st -> r_status r = Some st.

Definition state_inv s db : Prop :=
  ids_unique s db /\
  forall e rows r, serves s e -> db_tables db !! e_TableName e = Some rows -> r ∈ rows -> mirrored e r.

Definition well_defined s : Prop := forall e, serves s e -> Validate e = None /\ plain_state e.

Lemma recompute_lookup e data k :
  (forall f, f ∈ e_Fields e -> f_Name f = k -> f_Computed f = None) -> recomputeFields e data !! k = data !! k.
Proof.
  unfold recomputeFields. revert data. induction (e_Fields e) as [|f fs IH]; intros data Hk; simpl; [done|].
  rewrite IH by (intros g Hg; apply Hk; by apply list_elem_of_further).
  unfold recompute_step. destruct (f_Computed f) as [spec|] eqn:Ec; [|done].
  rewrite lookup_insert_ne; [done|]. intros Hn. rewrite (Hk f (list_elem_of_here _ _) Hn) in Ec. done.
Qed.

(** What a jsonb column reads back as a string or null was written as one. *)
Lemma jsonb_decodes `{!PostgresLaws} m kept k v st :
  pg_jsonb m = Some kept -> kept !! k = Some v -> unmarshal_string v = Some st ->
  m !! k = Some v.
Proof.
  intros Hj Hk. destruct v as [| | |x| |]; try done; intros _.
  - by apply (jsonb_null _ _ _ Hj).
  - by apply (jsonb_string _ _ _ _ Hj).
Qed.

Lemma jsonb_present `{!PostgresLaws} m kept k :
  pg_jsonb m = Some kept -> is_Some (m !! k) -> exists v, kept !! k = Some v.
Proof. intros Hj Hk%elem_of_dom. rewrite <- (jsonb_dom _ _ Hj) in Hk. by apply elem_of_dom in Hk. Qed.

(** A row written from data that holds the state is mirrored, if the status
    agrees with what was written. *)
Lemma mirrored_intro `{!PostgresLaws} e data kept r :
  pg_jsonb data = Some kept ->
  (forall wf, e_Workflow e = Some wf -> r_data r !! w_StateField wf = kept !! w_StateField wf /\
     exists raw, data !! w_StateField wf = Some raw /\ forall st, unmarshal_string raw = Some st -> r_status r = Some st) ->
  mirrored e r.
Proof.
  intros Hj Hr wf Hw. destruct (Hr wf Hw) as (Hd & raw & Hraw & Hst).
  destruct (jsonb_present data kept (w_StateField wf) Hj) as [v Hv]; [by eexists|].
  exists v. rewrite Hd. split; [done|]. intros st Hs. pose proof (jsonb_decodes _ _ _ _ _ Hj Hv Hs). apply Hst. congruence.
Qed.

Lemma created_mirrored e data wf :
  e_Workflow e = Some wf ->
  exists raw, initial_data e (GetInitialStatus e data) data !! w_StateField wf = Some raw /\
    forall st, unmarshal_string raw = Some st -> GetInitialStatus e data = Some st.
Proof.
  intros Hw. unfold initial_data, GetInitialStatus. rewrite Hw. destruct (data !! w_StateField wf) as [raw|] eqn:Ed.
  - exists raw. destruct (unmarshal_string raw); split; try done; congruence.
  - exists (JStr (w_InitialState wf)). rewrite lookup_insert_eq. split; [done|]. by intros st [= ->].
Qed.

Lemma merged_state e wf existing raw v :
  e_Workflow e = Some wf -> existing !! w_StateField wf = Some v ->
  merge_update e existing raw !! w_StateField wf = Some v.
Proof. intros Hw Hv. unfold merge_update. rewrite Hw, Hv. by rewrite lookup_insert_eq. Qed.

(** The state an update writes back is the one it read. *)
Lemma updated_state e wf existing raw validated v :
  plain_state e -> e_Workflow e = Some wf -> existing !! w_StateField wf = Some v ->
  ValidatePayload e (merge_update e existing raw) = inl validated ->
  recomputeFields e validated !! w_StateField wf = Some v.
Proof.
  intros Hp Hw Hv [_ Hk]%ValidatePayload_ok. destruct (Hp wf Hw) as [Href Hc].
  rewrite recompute_lookup, Hk, (merged_state e wf existing raw v) by done. simpl. by rewrite canonical_plain.
Qed.

Lemma keep_system_outside sys stored new k : k ∉ sys -> keep_system sys stored new !! k = new !! k.
Proof.
  intros Hk. unfold keep_system. rewrite lookup_union_r.
  - destruct (new !! k) as [x|] eqn:E; [by apply map_lookup_filter_Some | apply map_lookup_filter_None; by left].
  - apply map_lookup_filter_None. right. intros x _. done.
Qed.

(** How one call changes the invariant's two halves. *)
Lemma ids_unique_evolves s db db' :
  (forall e, serves s e -> db_evolves (e_TableName e) (SystemFieldNames e) db db') -> ids_unique s db -> ids_unique s db'.
Proof.
  intros He Hu e rows Hs Hr. specialize (He e Hs). unfold db_evolves in He.
  destruct (db_tables db !! e_TableName e) as [rows0|] eqn:E0; [|congruence].
  destruct He as (rows' & Hr' & Hnd & _). rewrite Hr in Hr'. injection Hr' as <-. by apply Hnd, (Hu e).
Qed.

(** Replacing rows of one entity's table by mirrored ones keeps the rest. *)
Lemma set_table_mirrored s db e rows rows' :
  tables_distinct s -> serves s e -> db_tables db !! e_TableName e = Some rows ->
  (forall e0 rows0 r, serves s e0 -> db_tables db !! e_TableName e0 = Some rows0 -> r ∈ rows0 -> mirrored e0 r) ->
  (forall r, r ∈ rows' -> r ∈ rows \/ mirrored e r) ->
  forall e0 rows0 r, serves s e0 -> db_tables (set_table db (e_TableName e) rows') !! e_TableName e0 = Some rows0 ->
    r ∈ rows0 -> mirrored e0 r.
Proof.
  intros Hd He Hr Hall Hnew e0 rows0 r He0. rewrite lookup_set_table.
  destruct (decide (e_TableName e = e_TableName e0)) as [Heq|]; [|by apply Hall].
  assert (e = e0) as <- by (by apply Hd). intros [= <-] Hin. destruct (Hnew r Hin) as [Hold|]; [|done].
  by apply (Hall e rows).
Qed.

Lemma replaced_rows (test : Row -> bool) row rows r (P : Row -> Prop) :
  P row -> r ∈ map (fun x => if test x then row else x) rows -> r ∈ rows \/ P r.
Proof. intros HP (x & -> & Hx)%list_elem_of_fmap. destruct (test x); [by right | by left]. Qed.

Lemma perform_write_step s c (w w' : World) : perform s c w = (Ok tt, w') -> write_step s (w_db w) (w_db w').
Proof.
  assert (Hinv : forall B (m : Handler World B), (let* _ := m in hret tt) w = (Ok tt, w') -> exists b, m w = (Ok b, w')).
  { intros B m. unfold hbind, hret. destruct (m w) as [[b| |] w1]; [|done..]. intros [= ->]. by exists b. }
  destruct c; simpl; intros [b Hb]%Hinv.
  - by eapply WriteCreate.
  - by eapply (WriteUpdate s w no_others).
  - by eapply (WriteTransition s w no_others).
  - by eapply (WriteDelete s w no_others).
  - by eapply WriteSystem.
Qed.

Lemma stored_unique db e id t r r' : stored db e id t r -> stored db e id t r' -> r = r'.
Proof. intros (rows & Ht & Hf) (rows' & Ht' & Hf'). congruence. Qed.

Section Preservation.
Context `{!PostgresLaws} s (Hdist : tables_distinct s) (Hwd : well_defined s).

(** The rows of every entity are mirrored. *)
Definition rows_mirrored db : Prop :=
  forall e rows r, serves s e -> db_tables db !! e_TableName e = Some rows -> r ∈ rows -> mirrored e r.

Lemma create_mirrored db name raw rc reason :
  outcome (C := C) (A := A) db (Create s name raw rc reason) (fun d => d = db) (fun _ d => rows_mirrored db -> rows_mirrored d).
Proof.
  eapply outcome_conseq; [apply Create_outcome | done|].
  intros dto d (t & reg & e & snap & validated & user & row & db' & Haddr & _ & _ & Hi & -> & _) Hm.
  apply insert_record_ok in Hi as (rows & kept & Hrows & Hj & Hrow & ->).
  refine (set_table_mirrored s db e rows _ Hdist (addresses_serves _ _ _ _ _ _ Haddr) Hrows Hm _).
  intros r [Hin|Hin]%elem_of_app; [by left | right]. apply list_elem_of_singleton in Hin as ->. rewrite Hrow.
  eapply mirrored_intro; [exact Hj|]. intros wf Hw. split; [done|]. by apply created_mirrored.
Qed.

Lemma update_mirrored db name id v raw rc reason :
  ids_unique s db ->
  outcome (C := C) (A := A) db (Update s no_others name id v raw rc reason) (fun d => d = db)
    (fun _ d => rows_mirrored db -> rows_mirrored d).
Proof.
  intros Hids. eapply outcome_conseq; [apply Update_outcome | unfold no_others; tauto | unfold no_others].
  intros dto d (t & reg & e & r0 & snap & validated & user & row & db' & Haddr & Hs0 & _ & Hval & Hu & -> & _) Hm.
  pose proof (addresses_serves _ _ _ _ _ _ Haddr) as He. destruct (Hwd e He) as [Hv Hp].
  destruct (overwritten_row s no_others _ _ _ _ _ _ _ _ _ Hdist He Hids (rtc_refl _ _) Hs0 (set_updated_bumps _ _ _ _ _)
    (set_updated_deleted _ _ _ _ _) Hu) as (r1 & Hs1 & _ & Hc & _).
  assert (r1 = r0) as -> by (by eapply stored_unique).
  pose proof Hs0 as (rows & Hrows & Hin & _)%stored_elem.
  apply update_record_ok in Hu as (rows' & _ & Hrows' & _ & _ & _ & _ & ->). rewrite Hrows in Hrows'. injection Hrows' as <-.
  refine (set_table_mirrored s db e rows _ Hdist He Hrows Hm _). intros r. apply replaced_rows.
  unfold set_updated in Hc. destruct (pg_jsonb _) as [kept|] eqn:Ek; [|done]. injection Hc as <-.
  eapply mirrored_intro; [exact Ek|]. intros wf Hw. simpl. split.
  - apply keep_system_outside. by apply state_not_system.
  - destruct (Hm e rows r0 He Hrows Hin wf Hw) as (x & Hx & Hst). exists x. split; [|done].
    by eapply updated_state.
Qed.

Lemma transition_mirrored db name id action v payload rc reason :
  outcome (C := C) (A := A) db (Transition s no_others name id action v payload rc reason) (fun d => d = db)
    (fun _ d => rows_mirrored db -> rows_mirrored d).
Proof.
  eapply outcome_conseq; [apply Transition_outcome | unfold no_others; tauto | unfold no_others].
  intros dto d (t & reg & e & r0 & snap & wf & from & tr & validated & user & row & db' & events & Haddr & _ & Hw & _ & Htr
    & _ & Hval & _ & _ & Hu & _ & -> & _) Hm.
  pose proof (addresses_serves _ _ _ _ _ _ Haddr) as He. destruct (Hwd e He) as [Hv Hp].
  destruct (find_transition e wf action from tr Hw Htr) as (Hin & _ & _).
  apply update_record_ok in Hu as (rows & r1 & Hrows & _ & _ & _ & Hc & ->).
  refine (set_table_mirrored s db e rows _ Hdist He Hrows Hm _). intros r. apply replaced_rows.
  unfold set_transitioned in Hc. destruct (pg_jsonb _) as [kept|] eqn:Ek; [|done]. injection Hc as <-.
  eapply mirrored_intro; [exact Ek|]. intros wf' Hw'. rewrite Hw in Hw'. injection Hw' as <-. simpl. split; [done|].
  exists (JStr (t_To tr)). rewrite (transition_state e wf tr _ validated rc Hv Hw Hin Hval).
  rewrite canonical_plain by apply (Hp wf Hw). split; [done|]. by intros st [= ->].
Qed.

Lemma delete_mirrored db name id v rc reason :
  outcome (C := C) (A := A) db (Delete s no_others name id v rc reason) (fun d => d = db)
    (fun _ d => rows_mirrored db -> rows_mirrored d).
Proof.
  eapply outcome_conseq; [apply Delete_outcome | unfold no_others; tauto | unfold no_others].
  intros dto d (t & reg & e & r0 & snap & user & row & db' & Haddr & _ & _ & Hu & -> & _) Hm.
  pose proof (addresses_serves _ _ _ _ _ _ Haddr) as He.
  apply update_record_ok in Hu as (rows & r1 & Hrows & Hin & _ & _ & Hc & ->).
  refine (set_table_mirrored s db e rows _ Hdist He Hrows Hm _). intros r. apply replaced_rows.
  unfold set_deleted in Hc. injection Hc as <-. exact (Hm e rows r1 He Hrows Hin).
Qed.

Lemma system_mirrored db t name id fields :
  outcome (C := C) (A := A) db (SetSystemFields s t name id fields) (fun d => d = db)
    (fun _ d => rows_mirrored db -> rows_mirrored d).
Proof.
  eapply outcome_conseq; [apply SetSystemFields_outcome | done|].
  intros found d (reg & e & validated & Hreg & Hge & Hsys & Hval & Hps) Hm.
  assert (He : serves s e) by (by exists t, reg, name). destruct (Hwd e He) as [Hv _].
  apply patch_system_ok in Hps as (rows & kept & Hrows & Hj & ->).
  refine (set_table_mirrored s db e rows _ Hdist He Hrows Hm _). intros r (x & -> & Hx)%list_elem_of_fmap.
  destruct (live_row id t x); [right | by left]. intros wf Hw. simpl.
  rewrite lookup_union_r; [by apply (Hm e rows)|]. apply not_elem_of_dom.
  rewrite (jsonb_dom _ _ Hj), (validated_dom _ _ _ Hval). intros [y Hy]%elem_of_dom.
  apply (state_not_system e wf Hv Hw). rewrite Forall_forall in Hsys. apply Hsys.
  apply list_elem_of_fmap. exists (w_StateField wf, y). split; [done|]. by apply elem_of_map_to_list.
Qed.

Lemma perform_keeps_inv c (w w' : World) r : perform s c w = (r, w') -> state_inv s (w_db w) -> state_inv s (w_db w').
Proof.
  intros Hp [Hids Hm]. assert (Ho : outcome (w_db w) (perform s c) (fun d => d = w_db w)
    (fun _ d => rows_mirrored (w_db w) -> rows_mirrored d)).
  { destruct c; apply outcome_discard;
      [apply create_mirrored | by apply update_mirrored | apply transition_mirrored | apply delete_mirrored | apply system_mirrored]. }
  specialize (Ho w eq_refl). rewrite Hp in Ho. destruct r as [[]| |]; [|by rewrite Ho ..]. split; [|by apply Ho].
  eapply ids_unique_evolves; [|exact Hids]. intros e He. eapply write_step_evolves; [done..|].
  by eapply perform_write_step.
Qed.
End Preservation.

(** The databases calls reach one after the other, however each ends. *)
Inductive calls_reach s : Database -> Database -> Prop :=
| reach_none db : calls_reach s db db
| reach_call db c (w w' : World) r :
    calls_reach s db (w_db w) -> perform s c w = (r, w') -> calls_reach s db (w_db w').

(** C5. State machine invariant: for well-defined entities, each with a table
    of its own, every database that any sequence of calls reaches keeps the
    primary keys unique and every record's status column equal to the state
    its data holds, the field being present. *)
Theorem status_mirrors_state `{!PostgresLaws} s db db' :
  tables_distinct s -> well_defined s -> state_inv s db -> calls_reach s db db' -> state_inv s db'.
Proof.
  intros Hd Hw Hi. induction 1 as [|db c w w' r _ IH Hp]; [done|].
  eapply perform_keeps_inv; [exact Hd | exact Hw | exact Hp | by apply IH].
Qed.
End Mirror.

(** ** A concrete service and database *)

#[local] Existing Instance TestUuid.
#[local] Existing Instance test_Cache.

(** Identifiers longer than every one in use; documents stored as they are. *)
Definition used_ids (db : Database) : list string :=
  flat_map (fun kv => map r_id (snd kv)) (map_to_list (db_tables db)).

Definition longer_than (l : list string) : string := zeros (S (list_sum (map String.length l))).

#[export] Instance TestPg : Postgres := {|
  pg_jsonb m := Some m;
  pg_jsonb_text j := json_text j;
  pg_uuid_cast s := uuid_Parse s;
  pg_gen_uuid db := longer_than (used_ids db);
  pg_now db := 1000%Z;
  pg_violated _ _ := None;
  pg_select rows q _ := Ok (take (Z.to_nat (pl_Limit q + 1)) rows)
|}.

Lemma zeros_length n : String.length (zeros n) = n.
Proof. induction n as [|n IH]; simpl; [done|]. by rewrite IH. Qed.

Lemma longer_than_fresh l x : x ∈ l -> x <> longer_than l.
Proof.
  intros Hx Heq. assert (Hle : String.length x <= list_sum (map String.length l)).
  { clear Heq. induction l as [|y l IH]; [by apply elem_of_nil in Hx|]. simpl.
    apply elem_of_cons in Hx as [->|Hx]; [lia|]. specialize (IH Hx). lia. }
  apply (f_equal String.length) in Heq. unfold longer_than in Heq. rewrite zeros_length in Heq. lia.
Qed.

#[export] Instance TestPg_laws : PostgresLaws.
Proof.
  constructor.
  - by intros m m' [= ->].
  - by intros m m' k s [= ->].
  - by intros m m' k [= ->].
  - by intros m m' [= ->].
  - intros u. apply uuid_parse_string.
  - intros db table rows r Hr Hin Heq. apply (longer_than_fresh (used_ids db) (r_id r)); [|done].
    unfold used_ids. apply list_elem_of_In, in_flat_map. exists (table, rows).
    split; [by apply list_elem_of_In, elem_of_map_to_list | by apply list_elem_of_In, list_elem_of_fmap_2].
  - intros rows q ps out [= <-]. split; [intros r Hr; by eapply subseteq_take | rewrite length_take; lia].
Qed.

Definition test_registry : MetadataRegistry := mkRegistry {[ "shop.order" := test_entity ]} ∅ ∅.

Definition test_service : CrudService (St := PostgresPolicyStore) :=
  mkCrudService test_router test_registry test_store None None 0.

Definition test_admin : RequestContext := mkRequestContext "uuid-t1" "uuid-u1" (Some ["admin"]) true "" None "".

Definition test_data (title state : string) : JsonObject :=
  <["title" := JStr title]> (<["status" := JStr state]> (<["summary" := JStr (title +:+ "!")]> ∅)).

Definition order1 : @uuid TestUuid := "o1".

Definition test_order : Row := mkRow order1 tenant1 None (Some "draft") (test_data "A" "draft") 3 0 0 None None false.

Definition test_db : Database := mkDatabase {[ "shop.orders" := [test_order] ]} [] [].

Definition test_world (db : Database) : World (C := test_cache) (A := AuditTable) := mkWorld db None None ∅.

(** Another session finishes the order meanwhile. *)
Definition finish_meanwhile (db : Database) : Database :=
  w_db (snd (Transition test_service no_others "shop.order" order1 "finish" 3 None test_admin None (test_world db))).

Definition raced : result exit RecordDto * World :=
  Update test_service finish_meanwhile "shop.order" order1 4 {[ "title" := JStr "B" ]} test_admin None (test_world test_db).

Definition raced_row : option Row := head (default [] (db_tables (w_db (snd raced)) !! "shop.orders")).

(** *** The hypotheses of the theorems on this service *)

Lemma test_serves e : serves test_service e -> e = test_entity.
Proof.
  intros (t & reg & name & [= <-] & He). unfold GetEntity, test_registry in He. simpl in He.
  by apply lookup_singleton_Some in He as [_ <-].
Qed.

Lemma test_tables_distinct : tables_distinct test_service.
Proof. intros e e' ->%test_serves ->%test_serves _. done. Qed.

Lemma test_valid e : serves test_service e -> Validate e = None.
Proof. intros ->%test_serves. vm_compute. reflexivity. Qed.

Lemma test_ids_unique : ids_unique test_service test_db.
Proof.
  intros e rows ->%test_serves Hr. vm_compute in Hr. injection Hr as <-. simpl. apply NoDup_singleton.
Qed.

Lemma test_well_defined : well_defined test_service.
Proof.
  intros e He. split; [by apply test_valid|]. apply test_serves in He as ->. intros wf [= <-]. split; [done|].
  intros f Hf. repeat (apply elem_of_cons in Hf as [->|Hf]; [done|]). by apply elem_of_nil in Hf.
Qed.

Lemma test_state_inv : state_inv test_service test_db.
Proof.
  split; [apply test_ids_unique|]. intros e rows r ->%test_serves Hr Hin wf [= <-]. vm_compute in Hr. injection Hr as <-.
  apply list_elem_of_singleton in Hin as ->. exists (JStr "draft"). split; [reflexivity|]. by intros st [= <-].
Qed.

(** A computed call: its outcome, and the world after it. *)
Definition finished : result exit RecordDto * World :=
  Transition test_service no_others "shop.order" order1 "finish" 3 None test_admin None (test_world test_db).

Definition ok_value {B} (r : result exit B) : option B := match r with Ok b => Some b | _ => None end.

Definition finished_dto : option RecordDto := Eval vm_compute in ok_value (fst finished).
Definition raced_dto : option RecordDto := Eval vm_compute in ok_value (fst raced).

Lemma ok_value_eq {B} (r : result exit B * World (C := test_cache) (A := AuditTable)) b :
  ok_value (fst r) = Some b -> r = (Ok b, snd r).
Proof. destruct r as [[x| |] w]; simpl; [by intros [= ->] | done | done]. Qed.

Lemma finish_meanwhile_step : rtc (write_step test_service) test_db (finish_meanwhile test_db).
Proof.
  eapply rtc_l; [|apply rtc_refl].
  refine (WriteTransition test_service (test_world test_db) no_others "shop.order" order1 "finish" 3 None test_admin None _ _ _).
  apply ok_value_eq. vm_compute. reflexivity.
Qed.

(** The version check does not cover the read the payload is merged into:
    when a caller asks for a version that another session is about to create,
    the update reads the record before that session's transition, writes after
    it, and succeeds. The order was finished; after the update its data is back
    in the state draft, with no transition leading there, while the status
    column still says done. *)
Lemma Update_race_reverts_state :
  rtc (write_step test_service) test_db (finish_meanwhile test_db) /\
  exists dto w' r1 r2,
    Update test_service finish_meanwhile "shop.order" order1 4 {[ "title" := JStr "B" ]} test_admin None (test_world test_db)
    = (Ok dto, w') /\
    stored (finish_meanwhile test_db) test_entity order1 tenant1 r1 /\ r_data r1 !! "status" = Some (JStr "done") /\
    stored (w_db w') test_entity order1 tenant1 r2 /\ r_data r2 !! "status" = Some (JStr "draft") /\
    r_status r2 = Some "done" /\ db_events (w_db w') = db_events (finish_meanwhile test_db).
Proof.
  split; [apply finish_meanwhile_step|]. destruct raced_dto as [dto|] eqn:Ed; [|discriminate Ed].
  exists dto, (snd raced). do 2 eexists. split_and!.
  - apply ok_value_eq. rewrite <- Ed. vm_compute. reflexivity.
  - eexists. split; vm_compute; reflexivity.
  - vm_compute. reflexivity.
  - eexists. split; vm_compute; reflexivity.
  - vm_compute. reflexivity.
  - vm_compute. reflexivity.
  - vm_compute. reflexivity.
Qed.

(** ** Witnesses *)

Definition updated : result exit RecordDto * World :=
  Update test_service no_others "shop.order" order1 3 {[ "title" := JStr "B" ]} test_admin None (test_world test_db).
Definition updated_dto : option RecordDto := Eval vm_compute in ok_value (fst updated).

Definition deleted : result exit RecordDto * World :=
  Delete test_service no_others "shop.order" order1 3 test_admin None (test_world test_db).
Definition deleted_dto : option RecordDto := Eval vm_compute in ok_value (fst deleted).


Lemma Transition_follows_workflow_witness :
  exists t reg e r2, addresses test_service "shop.order" test_admin t reg e /\
    stored (w_db (snd finished)) e order1 t r2 /\ r_version r2 = 4%Z.
Proof.
  destruct finished_dto as [dto|] eqn:Ed; [|discriminate Ed].
  destruct (Transition_follows_workflow test_service no_others (test_world test_db) "shop.order" order1 "finish" 3 None
    test_admin None dto (snd finished) test_tables_distinct test_valid test_ids_unique (rtc_refl _ _))
    as (t & reg & e & wf & tr & r0 & r1 & r2 & user & eid & now & Ha & _ & _ & _ & _ & _ & Hs & _ & Hv & _).
  - apply ok_value_eq. rewrite <- Ed. vm_compute. reflexivity.
  - exists t, reg, e, r2. split; [exact Ha|]. split; [exact Hs | exact Hv].
Defined.


Lemma calls_atomic_and_isolated_witness :
  exists t, call_tenant (CallDelete "shop.order" order1 3 test_admin None) = Some t /\
    isolated t test_db (w_db (snd (perform test_service (CallDelete "shop.order" order1 3 test_admin None) (test_world test_db)))).
Proof.
  refine (proj2 (calls_atomic_and_isolated test_service (CallDelete "shop.order" order1 3 test_admin None) (test_world test_db)
    _ _ (surjective_pairing _)) _).
  vm_compute. reflexivity.
Defined.

Lemma status_mirrors_state_witness :
  state_inv test_service (w_db (snd (perform test_service
    (CallTransition "shop.order" order1 "finish" 3 None test_admin None) (test_world test_db)))).
Proof.
  refine (status_mirrors_state test_service test_db _ test_tables_distinct test_well_defined test_state_inv _).
  eapply reach_call; [|apply surjective_pairing]. apply reach_none.
Defined.

Lemma ValidatePayload_exact_witness :
  ValidatePayload test_entity (test_data "A" "draft") = inl (test_data "A" "draft").
Proof.
  refine (proj2 (ValidatePayload_exact test_entity (test_data "A" "draft") (test_data "A" "draft") _) _).
  - refine (proj1 (validated_fields test_entity _)). vm_compute. reflexivity.
  - vm_compute. reflexivity.
Defined.
