(* ===== verification/CrudReads.v ===== *)
(** The reading side of the CRUD service: the capabilities Get offers against
    the checks the write handlers make, and what the audit trail shows. *)
From S2P Require Import Prelude GoStrings Json Floats Condition Context Uuid Evaluate Snapshot PermissionService PolicyStore Metadata Router Payload Workflow AuditTrail Sql ConditionSql Jql Planner Records Crud CrudOutcomes CrudProps CrudState.

Open Scope string_scope.
Open Scope list_scope.

Section Reads.
Context `{UuidLib} `{!Postgres} {St C A : Type} `{!PolicyStore St} `{!Cache C} `{!AuditStore A}.
Local Notation World := (@World _ C A).
Local Notation Service := (@CrudService _ St).
Implicit Types (s : Service) (db : Database) (w : World) (rc : RequestContext).

(** *** Outcomes without a policy cache: the snapshot is the store's *)

(** [uncached m P]: on a world without a policy cache the handler leaves the
    world as it is, and a value it returns satisfies [P]. *)
Definition uncached {B} w (m : Handler World B) (P : B -> Prop) : Prop :=
  match m w with
  | (Ok b, w') => w' = w /\ P b
  | (_, w') => w' = w
  end.

Lemma uncached_bind {B D} w (m : Handler World B) (k : B -> Handler World D) P Q :
  uncached w m P -> (forall b, P b -> uncached w (k b) Q) -> uncached w (hbind m k) Q.
Proof.
  unfold uncached, hbind. destruct (m w) as [[b| |] w']; [|done..]. intros [-> Hb] Hk. exact (Hk b Hb).
Qed.

Lemma uncached_weaken {B} w (m : Handler World B) (P Q : B -> Prop) :
  uncached w m P -> (forall b, P b -> Q b) -> uncached w m Q.
Proof. unfold uncached. destruct (m w) as [[b| |] w']; naive_solver. Qed.

Lemma uncached_ret {B} w (b : B) : uncached w (hret b) (eq b).
Proof. done. Qed.

Lemma uncached_lift {B} w (r : result error B) : uncached w (hlift r) (fun b => r = Ok b).
Proof. unfold uncached, hlift. by destruct r. Qed.

Lemma uncached_query {B} w (r : result DbError B) : uncached w (hquery r) (fun b => r = Ok b).
Proof. eapply uncached_weaken; [apply uncached_lift|]. intros b. by destruct r; naive_solver. Qed.

Lemma uncached_require w b e : uncached w (require b e) (fun _ => b = true).
Proof. unfold uncached, require. by destruct b. Qed.

Lemma uncached_require_some {B} w (o : option B) e : uncached w (require_some o e) (fun b => o = Some b).
Proof. unfold uncached, require_some. by destruct o. Qed.

Lemma uncached_begin w s t : uncached w (begin_tx s t) (fun db => db = w_db w).
Proof. unfold uncached, begin_tx. destruct (Begin (cs_router s) t); simpl; [done| |done]. by destruct (routerUnavailable e). Qed.

Lemma uncached_begin_raw w s t : uncached w (begin_raw s t) (fun db => db = w_db w).
Proof. unfold uncached, begin_raw. by destruct (Begin (cs_router s) t). Qed.

Lemma uncached_snapshot w s t e :
  w_policyCache w = None -> uncached w (LoadSnapshotM s t e) (fun snap => LoadPermissionSnapshot (cs_policies s) t e = Ok snap).
Proof.
  intros Hc. unfold uncached, LoadSnapshotM. rewrite Hc. simpl. destruct w as [db c a x]. simpl in *. subst c.
  by destruct (LoadPermissionSnapshot (cs_policies s) t e).
Qed.

Lemma uncached_open w s name rc :
  uncached w (open_entity s name rc) (fun '(t, reg, e) => addresses s name rc t reg e).
Proof.
  unfold open_entity. eapply uncached_bind; [apply uncached_lift|]. intros t Ht.
  eapply uncached_bind; [apply uncached_lift|]. intros reg Hr.
  eapply uncached_bind; [apply uncached_require_some|]. intros e He.
  eapply uncached_weaken; [apply uncached_ret|]. intros ? <-. done.
Qed.

Lemma uncached_authorize w r : uncached w (authorize r) (fun _ => exists d, r = Ok d /\ pd_Allowed d = true).
Proof.
  unfold authorize. eapply uncached_bind; [apply uncached_lift|]. intros d Hd.
  eapply uncached_weaken; [apply uncached_require|]. intros ? Hb. by exists d.
Qed.

Lemma uncached_precheck_actors w s t id e :
  uncached w (precheck_actors s t id e) (fun '(existing, actors) => exists r, stored (w_db w) e id t r /\
    existing = scanRecordRow r (e_Name e) /\ actors = default ∅ (last_actors (w_db w) t e [id] !! id)).
Proof.
  unfold precheck_actors. eapply uncached_bind; [apply uncached_begin|]. intros db ->.
  eapply uncached_bind; [apply uncached_query|]. intros o Ho.
  eapply uncached_bind; [apply uncached_require_some|]. intros x ->.
  eapply uncached_weaken; [apply uncached_ret|]. intros ? <-.
  unfold fetchExisting, table_rows in Ho. destruct (db_tables (w_db w) !! e_TableName e) as [rows|] eqn:Et; [|done].
  simpl in Ho. destruct (List.find _ rows) as [r|] eqn:Ef; [|done]. injection Ho as <-. exists r. split; [by exists rows|done].
Qed.

Lemma uncached_enrich w s e snap actions t reg data :
  uncached w (enrichRecordForActions s e snap actions t reg data) (fun enriched =>
    flat_map (snapshot_RequiredRelationFields snap) actions = [] -> enriched = data).
Proof.
  unfold enrichRecordForActions.
  destruct (Nat.eqb_spec (length (remove_dups (flat_map (snapshot_RequiredRelationFields snap) actions))) 0) as [Hz|Hnz].
  - eapply uncached_weaken; [apply uncached_ret|]. by intros ? <-.
  - eapply uncached_bind; [apply uncached_begin_raw|]. intros d ->. eapply uncached_weaken; [apply uncached_query|].
    intros x _ Hnil. by rewrite Hnil in Hnz.
Qed.

(** *** Capabilities *)

(** The checks a write of an action makes before it looks at its payload: the
    entity-level check of the service, then the record-level one. *)
Definition may_write (st : St) rc (e : EntityDefinition) (snap : PermissionSnapshot) (data : JsonObject) (a : EntityAction) : Prop :=
  (exists d, checkAction st rc (e_Name e) a = Ok d /\ pd_Allowed d = true) /\
  pd_Allowed (CanPerformRecordCondition snap rc data a) = true.

(** The same for a workflow transition, whose entity-level check also counts
    the policies of its own action, and whose guard must hold. *)
Definition may_transition (st : St) rc (e : EntityDefinition) (snap : PermissionSnapshot) (data : JsonObject)
    (actors : gmap string string) (tr : WorkflowTransition) : Prop :=
  (exists d, CanTransitionAction st rc (e_Name e) (t_Action tr) = Ok d /\ pd_Allowed d = true) /\
  pd_Allowed (CanPerformRecordCondition snap rc data ActionTransition) = true /\
  RunGuard tr (WithWorkflowContext data actors) rc = None.

Lemma available_transition st rc e snap data actors tr :
  CanTransitionAction st rc (e_Name e) (t_Action tr) = Ok (snapshot_CanTransitionAction snap rc (e_Name e) (t_Action tr)) ->
  ta_Available (transition_availability e rc snap (CanPerformRecordCondition snap rc data ActionTransition)
    (WithWorkflowContext data actors) tr) = true <-> may_transition st rc e snap data actors tr.
Proof.
  intros Hc. unfold transition_availability, may_transition. rewrite Hc.
  destruct (pd_Allowed (CanPerformRecordCondition snap rc data ActionTransition)); simpl; [|naive_solver].
  destruct (pd_Allowed (snapshot_CanTransitionAction snap rc (e_Name e) (t_Action tr))) eqn:Ea; simpl.
  - destruct (RunGuard tr _ rc); simpl; naive_solver.
  - split; [done|]. intros ((d & [= <-] & Hd) & _). congruence.
Qed.

Lemma availability_action e rc snap d subject tr : ta_Action (transition_availability e rc snap d subject tr) = t_Action tr.
Proof. unfold transition_availability. by repeat case_match. Qed.

(** The transitions the capabilities list as available. *)
Lemma available_transitions st rc e snap data actors a :
  (forall action, CanTransitionAction st rc (e_Name e) action = Ok (snapshot_CanTransitionAction snap rc (e_Name e) action)) ->
  (exists ta, ta ∈ rcap_Transitions (computeCapabilities e rc snap data actors) /\ ta_Action ta = a /\ ta_Available ta = true) <->
  exists wf tr, e_Workflow e = Some wf /\ tr ∈ w_Transitions wf /\ t_Action tr = a /\
    t_From tr = currentState e data /\ currentState e data <> "" /\ may_transition st rc e snap data actors tr.
Proof.
  intros Htrans. cbn [computeCapabilities rcap_Transitions]. destruct (e_Workflow e) as [wf|] eqn:Ew.
  2:{ split; [intros (ta & Hta & _); by apply elem_of_nil in Hta | naive_solver]. }
  destruct (String.eqb_spec (currentState e data) "") as [Hempty|Hne].
  { split; [intros (ta & Hta & _); by apply elem_of_nil in Hta | naive_solver]. }
  split.
  - intros (ta & (tr & -> & Htr)%list_elem_of_fmap & <- & Hav). apply list_elem_of_In, filter_In in Htr as [Htr Hfrom].
    exists wf, tr. apply (available_transition st) in Hav; [|apply Htrans]. apply String.eqb_eq in Hfrom.
    apply list_elem_of_In in Htr. split_and!; try done. by rewrite availability_action.
  - intros (wf' & tr & [= <-] & Htr & <- & Hfrom & _ & Hmay). eexists. split_and!.
    + apply list_elem_of_fmap. exists tr. split; [reflexivity|]. apply list_elem_of_In, filter_In.
      split; [by apply list_elem_of_In | by apply String.eqb_eq].
    + apply availability_action.
    + by apply (available_transition st).
Qed.

Lemma Get_outcome s w name id rc :
  w_policyCache w = None ->
  uncached w (Get s name id rc) (fun g => exists t reg e snap r enriched,
    addresses s name rc t reg e /\ LoadPermissionSnapshot (cs_policies s) t (e_Name e) = Ok snap /\ stored (w_db w) e id t r /\
    (flat_map (snapshot_RequiredRelationFields snap) record_actions = [] -> enriched = r_data r) /\
    gr_Capabilities g = computeCapabilities e rc snap enriched (default ∅ (last_actors (w_db w) t e [id] !! id))).
Proof.
  intros Hcache. unfold Get. eapply uncached_bind; [apply uncached_open|]. intros [[t reg] e] Haddr.
  eapply uncached_bind; [apply uncached_authorize|]. intros _ _.
  eapply uncached_bind; [apply uncached_precheck_actors|]. intros [ex actors] (r & Hr & -> & ->).
  eapply uncached_bind; [by apply uncached_snapshot|]. intros snap Hsnap.
  eapply uncached_bind; [apply uncached_enrich|]. intros enriched Hen.
  eapply uncached_bind; [apply uncached_require|]. intros _ _.
  eapply uncached_weaken; [apply uncached_ret|]. intros ? <-. by exists t, reg, e, snap, r, enriched.
Qed.

Section AgainstTheStore.
Context `{!PolicyStoreLaws St}.

End AgainstTheStore.

(** *** The audit trail *)

Lemma uncached_fetch {B} w (m : Handler World B) (P : B -> Prop) : uncached w m P -> uncached w m (fun _ => True).
Proof. intros Hm. by eapply uncached_weaken. Qed.

Lemma uncached_check_permission w s name id rc :
  w_policyCache w = None -> uncached w (CheckRecordPermission s name id ActionRead rc) (fun _ => True).
Proof.
  intros Hc. unfold CheckRecordPermission. eapply uncached_bind; [apply uncached_open|]. intros [[t reg] e] _.
  eapply uncached_bind; [apply uncached_authorize|]. intros _ _.
  eapply uncached_bind.
  { unfold precheck. eapply uncached_bind; [apply uncached_begin|]. intros db ->.
    eapply uncached_bind; [apply uncached_query|]. intros o _. by eapply uncached_fetch, uncached_require_some. }
  intros ex _. eapply uncached_bind; [by apply uncached_snapshot|]. intros snap _.
  unfold check_record. eapply uncached_bind; [apply uncached_enrich|]. intros enriched _.
  eapply uncached_fetch, uncached_require.
Qed.

(** A field whose readability does not depend on the record, and which is
    readable on one record, is readable on every record. *)
Lemma stable_field_readable snap rc probe k record v :
  is_Some (FilterReadableFields snap rc probe !! k) -> k ∉ RecordStateDependentReadFields snap rc ->
  record !! k = Some v -> FilterReadableFields snap rc record !! k = Some v.
Proof.
  unfold FilterReadableFields, RecordStateDependentReadFields. destruct (IsAdmin rc); [done|].
  intros [x [_ Hr]%map_lookup_filter_Some] Hk Hv. apply map_lookup_filter_Some. split; [done|]. simpl in *.
  unfold field_readable in *. destruct (policies_by_field "read" snap !! k) as [ps|] eqn:Ep; [|done].
  rewrite <- Hr. apply stable_verdict_ignores_record.
  destruct (verdictIsRecordDependent ps rc) eqn:Ed; [|done]. exfalso. apply Hk, elem_of_dom.
  exists ps. by apply map_lookup_filter_Some.
Qed.

Lemma uncached_visibility w s name id rc :
  w_policyCache w = None ->
  uncached w (auditDiffVisibility s name id rc) (fun vis => forall fields, vis = Some fields ->
    exists t reg e snap, addresses s name rc t reg e /\ LoadPermissionSnapshot (cs_policies s) t (e_Name e) = Ok snap /\
      RecordAccessIsStateDependent snap rc ActionRead = false /\
      forall k record v, k ∈ fields -> record !! k = Some v -> FilterReadableFields snap rc record !! k = Some v).
Proof.
  intros Hc. unfold auditDiffVisibility. eapply uncached_bind; [apply uncached_lift|]. intros t Ht.
  eapply uncached_bind; [apply uncached_lift|]. intros reg Hreg.
  destruct (GetEntity reg name) as [e|] eqn:He; [|eapply uncached_weaken; [apply uncached_ret|]; by intros ? <-].
  eapply uncached_bind; [apply uncached_begin_raw|]. intros db ->.
  eapply uncached_bind; [apply uncached_query|]. intros ex _.
  eapply uncached_bind; [by apply uncached_snapshot|]. intros snap Hsnap.
  destruct (RecordAccessIsStateDependent snap rc ActionRead) eqn:Es;
    (eapply uncached_weaken; [apply uncached_ret|]); intros ? <- fields Hf; [done|]. injection Hf as <-.
  exists t, reg, e, snap. split_and!; try done. intros k record v Hk Hv.
  apply elem_of_filter in Hk as [Hn Hd%elem_of_dom]. by eapply stable_field_readable.
Qed.

Lemma empty_no_key k : ~ is_Some ((∅ : JsonObject) !! k).
Proof. rewrite lookup_empty. apply is_Some_None. Qed.

Lemma maskDiff_keys diff vis m k :
  unmarshal_map (maskDiff diff vis) = Some m -> is_Some (m !! k) -> exists fields, vis = Some fields /\ k ∈ fields.
Proof.
  unfold maskDiff. destruct vis as [fields|].
  - unfold isJSONNull. destruct (bool_decide (diff = JNull)); [intros [= <-] Hk; by destruct (empty_no_key k)|].
    destruct (unmarshal_map diff) as [d|].
    + rewrite unmarshal_marshal_map. intros [= <-] [v [_ Hin]%map_lookup_filter_Some]. by exists fields.
    + intros [= <-] Hk. by destruct (empty_no_key k).
  - intros [= <-] Hk. by destruct (empty_no_key k).
Qed.

(** What the caller may see of a diff, as the visibility was computed. *)
Definition justified s name rc (vis : diffVisibility) : Prop :=
  forall fields, vis = Some fields -> exists t reg e snap, addresses s name rc t reg e /\
    LoadPermissionSnapshot (cs_policies s) t (e_Name e) = Ok snap /\ RecordAccessIsStateDependent snap rc ActionRead = false /\
    forall k record v, k ∈ fields -> record !! k = Some v -> FilterReadableFields snap rc record !! k = Some v.

Lemma ListAuditEvents_outcome s w name id rc :
  w_policyCache w = None ->
  uncached w (ListAuditEvents s name id rc) (fun rows => rows = [] \/
    exists events vis, rows = map (fun e => with_diff e (maskDiff (ar_Diff e) vis)) events /\ justified s name rc vis).
Proof.
  intros Hc. unfold ListAuditEvents. eapply uncached_bind; [by apply uncached_check_permission|]. intros _ _.
  eapply (uncached_bind _ _ _ (eq w)); [done|]. intros ? <-. destruct (w_audit w) as [store|].
  2:{ eapply uncached_weaken; [apply uncached_ret|]. intros ? <-. by left. }
  eapply uncached_bind; [apply uncached_lift|]. intros t _. eapply uncached_bind; [apply uncached_lift|]. intros events _.
  eapply uncached_bind; [by apply uncached_visibility|]. intros vis Hvis.
  eapply uncached_weaken; [apply uncached_ret|]. intros ? <-. right. by exists events, vis.
Qed.

(** C15. The audit trail shows no more than the record would: every field that
    a returned diff still mentions is one whose values the caller may read on
    every state of the record, whatever it held when the entry was written, and
    none is shown when record-level read access itself depends on the state. *)
Theorem audit_shows_only_readable s w name id rc rows w' row m k :
  w_policyCache w = None -> ListAuditEvents s name id rc w = (Ok rows, w') ->
  row ∈ rows -> unmarshal_map (ar_Diff row) = Some m -> is_Some (m !! k) ->
  exists t reg e snap, addresses s name rc t reg e /\ LoadPermissionSnapshot (cs_policies s) t (e_Name e) = Ok snap /\
    RecordAccessIsStateDependent snap rc ActionRead = false /\
    forall record v, record !! k = Some v -> FilterReadableFields snap rc record !! k = Some v.
Proof.
  intros Hc Hl Hin Hm Hk. pose proof (ListAuditEvents_outcome s w name id rc Hc) as Ho.
  unfold uncached in Ho. rewrite Hl in Ho. destruct Ho as (_ & [->|(events & vis & -> & Hvis)]); [by apply elem_of_nil in Hin|].
  apply list_elem_of_fmap in Hin as (ev & -> & _). simpl in Hm.
  destruct (maskDiff_keys _ _ _ _ Hm Hk) as (fields & -> & Hkf).
  destruct (Hvis fields eq_refl) as (t & reg & e & snap & Ha & Hs & Hd & Hr). exists t, reg, e, snap. split_and!; eauto.
Qed.
End Reads.

(** ** A capability that is offered and then refused *)

#[local] Existing Instance TestUuid.
#[local] Existing Instance test_Cache.

Definition customer_entity : EntityDefinition :=
  mkEntity "shop.customer" "Customer" "shop.customers" [field_of_kind "tier" KindString] [] None [] None.

(** A deal may be shipped unless its customer is c1. *)
Definition ship : WorkflowTransition :=
  mkTransition "ship" "draft" "done" "Ship" (Some (AttributeCondition "customer" OpNeq (LiteralValue (JStr "uuid-c1"))))
    None ∅ "" "".

Definition deal_entity : EntityDefinition :=
  let customer := mkField "customer" "" KindReference None None None None None (Some "shop.customer") None None None None None
                    None None None None None None in
  let status := mkField "status" "" KindEnum None None None None (Some ["draft"; "done"]) None None None None None None
                    None None None None None None in
  mkEntity "shop.deal" "Deal" "shop.deals" [customer; status] [] (Some (mkWorkflow "status" "draft" ["done"] [ship])) [] None.

(** A record-level policy on transitions that reads the related customer. *)
Definition tier_condition : json :=
  match PolicyCondition_MarshalJSON (AttributeCondition "customer.tier" OpEq (LiteralValue (JStr "gold"))) with
  | Ok j => j
  | _ => JNull
  end.

Definition deal_store : PostgresPolicyStore :=
  mkPgStore [mkColumns _ "p0" "t1" "shop.deal" "transition" None "record" None (Some tier_condition) None "allow"]
    (fun _ => None) test_fresh.

Definition deal_service : CrudService (St := PostgresPolicyStore) :=
  mkCrudService test_router (mkRegistry (<["shop.customer" := customer_entity]> {[ "shop.deal" := deal_entity ]}) ∅ ∅)
    deal_store None None 0.

Definition deal1 : @uuid TestUuid := "d1".
Definition customer1 : @uuid TestUuid := "c1".

Definition deal_db : Database :=
  mkDatabase (<["shop.customers" := [mkRow customer1 tenant1 None None {[ "tier" := JStr "gold" ]} 1 0 0 None None false]]>
    {[ "shop.deals" := [mkRow deal1 tenant1 None (Some "draft")
         (<["customer" := JStr "uuid-c1"]> {[ "status" := JStr "draft" ]}) 1 0 0 None None false] ]}) [] [].

Definition got_deal : result exit GetResult * World :=
  Get deal_service "shop.deal" deal1 test_admin (test_world deal_db).
Definition got_deal_value : option GetResult := Eval vm_compute in ok_value (fst got_deal).

(** The refusal of the transition, as the caller sees it. *)
Definition refusal {B} (r : result exit B) : option (Z * string) :=
  match r with Err (Refused e) => Some (se_Status e, se_ErrorCode e) | _ => None end.

(** With a cross-record condition among the policies, Get computes its
    capabilities on the record enriched with the related one, where Transition
    evaluates the guard on the record as stored: here the same caller is offered
    the action ship, and is then refused it because its guard fails. *)
Lemma capability_offered_then_refused :
  exists g w1, Get deal_service "shop.deal" deal1 test_admin (test_world deal_db) = (Ok g, w1) /\
    mkAvailability "ship" true None ∈ rcap_Transitions (gr_Capabilities g) /\
    refusal (fst (Transition deal_service no_others "shop.deal" deal1 "ship" 1 None test_admin None (test_world deal_db)))
    = Some (422%Z, "guard_failed").
Proof.
  destruct got_deal_value as [g|] eqn:Eg; [|discriminate Eg]. exists g, (snd got_deal). split_and!.
  - apply ok_value_eq. rewrite <- Eg. vm_compute. reflexivity.
  - vm_compute in Eg. injection Eg as <-. apply list_elem_of_here.
  - vm_compute. reflexivity.
Qed.

(** ** Witnesses *)

Definition got_order : result exit GetResult * World :=
  Get test_service "shop.order" order1 test_admin (test_world test_db).
Definition got_order_value : option GetResult := Eval vm_compute in ok_value (fst got_order).


(** An audit table with one entry of the order. *)
Definition audited_row : AuditRow :=
  @mkAuditRow TestUuid "a1" "t1" "shop.order" "o1" "update" None None None
    (marshal_map {[ "title" := marshal_map (<["after" := JStr "B"]> {[ "before" := JStr "A" ]}) ]}) (Some 3%Z) 5.

Definition audited_world : World (C := test_cache) (A := AuditTable) :=
  mkWorld test_db None (Some (mkAuditTable [audited_row] (fun _ => "a2"))) ∅.

Definition shown : result exit (list AuditRow) * World :=
  ListAuditEvents test_service "shop.order" order1 test_admin audited_world.

Lemma audit_shows_only_readable_witness :
  exists t reg e snap, addresses test_service "shop.order" test_admin t reg e /\
    LoadPermissionSnapshot (cs_policies test_service) t (e_Name e) = Ok snap /\
    RecordAccessIsStateDependent snap test_admin ActionRead = false.
Proof.
  destruct (audit_shows_only_readable test_service audited_world "shop.order" order1 test_admin [audited_row] (snd shown)
    audited_row {[ "title" := marshal_map (<["after" := JStr "B"]> {[ "before" := JStr "A" ]}) ]} "title")
    as (t & reg & e & snap & Ha & Hs & Hd & _).
  - reflexivity.
  - apply ok_value_eq. vm_compute. reflexivity.
  - apply list_elem_of_here.
  - vm_compute. reflexivity.
  - eexists. vm_compute. reflexivity.
  - exists t, reg, e, snap. split; [exact Ha|]. split; [exact Hs | exact Hd].
Defined.
