(* ===== verification/Aggregate.v ===== *)
(** Aggregations: the planner of GROUP BY queries (src/go/query/aggregate.go) and
    the handlers that run them (src/go/crud/aggregate.go, record_backend.go).

    As for lists, a planned query is a tree of the fragments the source
    concatenates, [aggregate_text] is its text, and the parameters are threaded.
    What Postgres computes for a planned query is a parameter of the handlers. *)
From S2P Require Import Prelude GoStrings GoText Json Floats Condition Context Uuid Evaluate Snapshot PermissionService PolicyStore Metadata Schema Router Payload Workflow AuditTrail Sql ConditionSql Jql Planner Records Crud CrudOutcomes CrudProps CrudState CrudReads.

Open Scope string_scope.
Open Scope list_scope.

(** ** The request *)

Inductive AggregateFn : Type := AggCount | AggSum | AggAvg | AggMin | AggMax.

Definition sqlName (f : AggregateFn) : string :=
  match f with AggCount => "count" | AggSum => "sum" | AggAvg => "avg" | AggMin => "min" | AggMax => "max" end.

Definition is_count (f : AggregateFn) : bool := match f with AggCount => true | _ => false end.

Record AggregateMetric : Type := mkMetric { am_Func : AggregateFn; am_Field : option string }.

Definition tick : string := "`".

Definition parse_fn (s : string) : option AggregateFn :=
  if String.eqb s "count" then Some AggCount
  else if String.eqb s "sum" then Some AggSum
  else if String.eqb s "avg" then Some AggAvg
  else if String.eqb s "min" then Some AggMin
  else if String.eqb s "max" then Some AggMax
  else None.

Definition ParseAggregateMetric (raw : string) : result QueryError AggregateMetric :=
  let '(funcRaw, field) := match Cut raw ":" with Some (f, rest) => (f, Some (TrimSpace rest)) | None => (raw, None) end in
  match parse_fn (TrimSpace funcRaw) with
  | None => Err (InvalidAggregate ("Unknown aggregate function: " +:+ funcRaw))
  | Some fn =>
    if negb (is_count fn) && is_none field
    then Err (InvalidAggregate (tick +:+ sqlName fn +:+ tick +:+ " needs a field — write it as " +:+ tick +:+ sqlName fn +:+ ":<field>" +:+ tick +:+ "."))
    else Ok (mkMetric fn field)
  end.

Definition Alias (m : AggregateMetric) : string :=
  match am_Field m with
  | Some f => sqlName (am_Func m) +:+ "_" +:+ f
  | None => sqlName (am_Func m)
  end.

Inductive TimeBucket : Type := BucketHour | BucketDay | BucketWeek | BucketMonth.

Definition truncUnit (b : TimeBucket) : string :=
  match b with BucketHour => "hour" | BucketDay => "day" | BucketWeek => "week" | BucketMonth => "month" end.

Definition ParseTimeBucket (raw : string) : result QueryError TimeBucket :=
  let s := TrimSpace raw in
  if String.eqb s "hour" then Ok BucketHour
  else if String.eqb s "day" then Ok BucketDay
  else if String.eqb s "week" then Ok BucketWeek
  else if String.eqb s "month" then Ok BucketMonth
  else Err (InvalidAggregate ("Unknown time bucket: " +:+ raw +:+ " (expected hour/day/week/month)")).

Record AggregateInput : Type := mkAggregateInput {
  ai_Metrics : list AggregateMetric;
  ai_GroupBy : option string;
  ai_Bucket : option TimeBucket;
  ai_TimeField : option string;
  ai_Filters : list (string * string);
  ai_Since : option string;
  ai_Until : option string;
  ai_Limit : Z
}.

Definition MaxGroups : Z := 500.
Definition DefaultGroups : Z := 100.
Definition maxMetrics : nat := 10.

(** [as_Filters] lists the entries of the map in the order its iteration takes. *)
Record AggregateSpec : Type := mkSpec {
  as_Metrics : list string;
  as_GroupBy : option string;
  as_Bucket : option string;
  as_TimeField : option string;
  as_Filters : list (string * string);
  as_Since : option string;
  as_Until : option string;
  as_Limit : option Z
}.

Definition IntoInput (s : AggregateSpec) : result QueryError AggregateInput :=
  let! metrics := (match as_Metrics s with [] => Ok [mkMetric AggCount None] | l => mapR ParseAggregateMetric l end) in
  let! bucket := (match as_Bucket s with
                  | Some raw => let! b := ParseTimeBucket raw in Ok (Some b)
                  | None => Ok None
                  end) in
  Ok (mkAggregateInput metrics (as_GroupBy s) bucket (as_TimeField s) (as_Filters s) (as_Since s) (as_Until s)
        (default DefaultGroups (as_Limit s))).

(** ** Planned queries *)

(** A time axis: a column of the platform, or a field read as a timestamp with
    NULLIF(..., '')::timestamptz. *)
Inductive time_expr : Type := TColumn (name : string) | TField (e : sql).

(** The condition of one filter, or a bound of the time axis. *)
Inductive agg_cond : Type :=
| ACond (e : sql)
| ATime (t : time_expr) (op : string) (bound : sql).

(** count( * ), count(e), or fn(NULLIF(e, '')::numeric). *)
Inductive metric_expr : Type := MCountAll | MCount (e : sql) | MNumeric (f : AggregateFn) (e : sql).

Inductive select_part : Type :=
| SelBucket (b : TimeBucket) (t : time_expr)
| SelGroup (e : sql)
| SelMetric (m : metric_expr) (alias : string).

Inductive agg_order : Type := OrderBucket | OrderMetric (alias : string).

Record PlannedAggregateQuery : Type := mkAggregate {
  pa_Select : list select_part;
  pa_Table : string;
  pa_Where : list agg_cond;
  pa_Group : list select_part;
  pa_Order : option agg_order;
  pa_Limit : Z
}.

Definition quoted (s : string) : string := quote +:+ s +:+ quote.

Definition nullif_blank (e : sql) (type : string) : string := "NULLIF(" +:+ render e +:+ ", '')::" +:+ type.

Definition time_text (t : time_expr) : string :=
  match t with TColumn c => c | TField e => nullif_blank e "timestamptz" end.

Definition cond_text (c : agg_cond) : string :=
  match c with
  | ACond e => render e
  | ATime t op bound => time_text t +:+ " " +:+ op +:+ " " +:+ render bound +:+ "::timestamptz"
  end.

Definition metric_text (m : metric_expr) : string :=
  match m with
  | MCountAll => "count(*)"
  | MCount e => "count(" +:+ render e +:+ ")"
  | MNumeric f e => sqlName f +:+ "(" +:+ nullif_blank e "numeric" +:+ ")"
  end.

Definition part_text (p : select_part) : string :=
  match p with
  | SelBucket b t => "date_trunc('" +:+ truncUnit b +:+ "', " +:+ time_text t +:+ ")"
  | SelGroup e => "(" +:+ render e +:+ ")::text"
  | SelMetric m _ => "(" +:+ metric_text m +:+ ")::float8"
  end.

Definition part_alias (p : select_part) : string :=
  match p with SelBucket _ _ => "bucket" | SelGroup _ => "group" | SelMetric _ alias => alias end.

Definition order_text (o : agg_order) : string :=
  match o with
  | OrderBucket => " ORDER BY " +:+ quoted "bucket" +:+ " ASC"
  | OrderMetric alias => " ORDER BY " +:+ quoted alias +:+ " DESC NULLS LAST"
  end.

Definition aggregate_text (q : PlannedAggregateQuery) : string :=
  "SELECT to_jsonb(agg) AS row FROM (SELECT "
  +:+ joinSQL (map (fun p => part_text p +:+ " AS " +:+ quoted (part_alias p)) (pa_Select q)) ", "
  +:+ " FROM " +:+ pa_Table q
  +:+ " WHERE " +:+ joinSQL (map cond_text (pa_Where q)) " AND "
  +:+ match pa_Group q with [] => "" | l => " GROUP BY " +:+ joinSQL (map part_text l) ", " end
  +:+ match pa_Order q with Some o => order_text o | None => "" end
  +:+ " LIMIT " +:+ FormatInt (pa_Limit q) +:+ ") agg".

(** ** The planner *)

Section Plan.
Context `{UuidLib}.

Definition invalid {A} (message : string) : Build A := bfail (InvalidAggregate message).

Definition valueExpression (field : EntityField) : Build sql :=
  if FieldHasRealColumn field then bret (SQuoted (f_Name field))
  else let+ ph := Push (TextBind (f_Name field)) in bret (SPath ph).

(** The first field of the name. *)
Definition first_field (entity : EntityDefinition) (name : string) : option EntityField :=
  List.find (fun f => String.eqb (f_Name f) name) (e_Fields entity).

Definition timestampExpression (fieldName : string) (entity : EntityDefinition) : Build time_expr :=
  if String.eqb fieldName "createdAt" then bret (TColumn "created_at")
  else if String.eqb fieldName "updatedAt" then bret (TColumn "updated_at")
  else
    match first_field entity fieldName with
    | None => invalid ("Unknown field: " +:+ fieldName)
    | Some field =>
      if negb (String.eqb (f_Kind field) KindDate) && negb (String.eqb (f_Kind field) KindDatetime)
      then invalid (tick +:+ fieldName +:+ tick +:+ " is not a date field and cannot be used as a time axis.")
      else let+ e := valueExpression field in bret (TField e)
    end.

Definition list_view_filter (entity : EntityDefinition) (name : string) : bool :=
  existsb (fun lv => bool_decide (name ∈ lv_Filters lv)) (e_ListViews entity).

Definition groupable (field : EntityField) (entity : EntityDefinition) : bool :=
  String.eqb (f_Name field) "status" || boolVal (f_Indexed field) || is_some (f_EnumValues field)
  || list_view_filter entity (f_Name field).

Definition assertGroupable (field : EntityField) (entity : EntityDefinition) : Build unit :=
  if groupable field entity then bret tt
  else invalid (tick +:+ f_Name field +:+ tick +:+ " cannot be grouped by — mark it " +:+ tick +:+ "indexed" +:+ tick
                +:+ ", give it " +:+ tick +:+ "enum_values" +:+ tick +:+ ", or add it to a list view's filters first.").

Definition clampInt64 (v lo hi : Z) : Z := if (v <? lo)%Z then lo else if (hi <? v)%Z then hi else v.

(** The condition of one filter; [None] when it is skipped. *)
Definition agg_filter (entity : EntityDefinition) (kv : string * string) : Build (option agg_cond) :=
  let '(fieldName, value) := kv in
  if negb (list_view_filter entity fieldName) then bret None
  else
    match field_by_name entity fieldName with
    | None => bret None
    | Some field =>
      let+ expr := valueExpression field in
      if String.eqb value "" then bret (Some (ACond (SIsNull false expr)))
      else
        let+ ph := Push (TextBind value) in
        let cast := if FieldHasRealColumn field && (String.eqb (f_Kind field) KindReference || String.eqb (f_Kind field) KindID)
                    then "::uuid" else "" in
        bret (Some (ACond (SOp "=" expr (SCast ph cast))))
    end.

Definition time_axis (entity : EntityDefinition) (input : AggregateInput) : Build (option time_expr) :=
  if is_some (ai_Bucket input) || is_some (ai_Since input) || is_some (ai_Until input)
  then let+ t := timestampExpression (default "createdAt" (ai_TimeField input)) entity in bret (Some t)
  else bret None.

(** timeExpr op $n::timestamptz *)
Definition time_bound (t : option time_expr) (op : string) (bound : option string) : Build (list agg_cond) :=
  match t, bound with
  | Some t, Some b => let+ ph := Push (TextBind b) in bret [ATime t op ph]
  | _, _ => bret []
  end.

Definition bucket_part (t : option time_expr) (bucket : option TimeBucket) : list select_part :=
  match bucket, t with Some b, Some t => [SelBucket b t] | _, _ => [] end.

Definition group_part (entity : EntityDefinition) (groupBy : option string) : Build (list select_part) :=
  match groupBy with
  | None => bret []
  | Some name =>
    match field_by_name entity name with
    | None => invalid ("Unknown field: " +:+ name)
    | Some field =>
      let+ _ := assertGroupable field entity in
      let+ expr := valueExpression field in
      bret [SelGroup expr]
    end
  end.

Definition metric_part (entity : EntityDefinition) (m : AggregateMetric) : Build select_part :=
  match am_Field m with
  | None => if is_count (am_Func m) then bret (SelMetric MCountAll (Alias m))
            else invalid (tick +:+ sqlName (am_Func m) +:+ tick +:+ " needs a field.")
  | Some name =>
    match field_by_name entity name with
    | None => invalid ("Unknown field: " +:+ name)
    | Some field =>
      if is_count (am_Func m) then let+ e := valueExpression field in bret (SelMetric (MCount e) (Alias m))
      else if negb (String.eqb (f_Kind field) KindNumber) && negb (String.eqb (f_Kind field) KindMoney)
      then invalid (tick +:+ f_Name field +:+ tick +:+ " is not a numeric field — " +:+ tick +:+ sqlName (am_Func m) +:+ tick
                    +:+ " needs Number or Money.")
      else let+ e := valueExpression field in bret (SelMetric (MNumeric (am_Func m) e) (Alias m))
    end
  end.

Definition first_alias (metrics : list AggregateMetric) : string :=
  match metrics with m :: _ => Alias m | [] => "" end.

Definition agg_order_of (input : AggregateInput) : option agg_order :=
  if is_some (ai_Bucket input) then Some OrderBucket
  else if is_some (ai_GroupBy input) then Some (OrderMetric (first_alias (ai_Metrics input)))
  else None.

(** Everything after the tenant and the record policies. *)
Definition plan_rest (entity : EntityDefinition) (tph : sql) (recordCondition : option sql) (input : AggregateInput)
  : Build PlannedAggregateQuery :=
  let+ filters := bmap (agg_filter entity) (ai_Filters input) in
  let+ timeExpr := time_axis entity input in
  let+ since := time_bound timeExpr ">=" (ai_Since input) in
  let+ until := time_bound timeExpr "<" (ai_Until input) in
  let+ group := group_part entity (ai_GroupBy input) in
  let+ metrics := bmap (metric_part entity) (ai_Metrics input) in
  let keys := bucket_part timeExpr (ai_Bucket input) ++ group in
  bret (mkAggregate (keys ++ metrics) (e_TableName entity)
    ([ACond (SOp "=" (SCol "tenant_id") tph); ACond (SOp "=" (SCol "deleted") (SConst false))]
     ++ map ACond (opt_list recordCondition) ++ omap id filters ++ since ++ until)
    keys (agg_order_of input) (clampInt64 (ai_Limit input) 1 MaxGroups)).

Definition plan_aggregate (entity : EntityDefinition) (tenantID : uuid) (input : AggregateInput) (ctx : RequestContext)
    (policies : list PolicyRow) : Build PlannedAggregateQuery :=
  let+ tph := Push (UUIDBind tenantID) in
  let+ recordCondition := RecordPolicyWhereClause policies ctx in
  plan_rest entity tph recordCondition input.

Definition PlanAggregate (registry : MetadataRegistry) (entityName : string) (input : AggregateInput) (ctx : RequestContext)
    (policies : list PolicyRow) : result QueryError (PlannedAggregateQuery * list BindValue) :=
  match GetEntity registry entityName with
  | None => Err (PlainError ("Entity not found: " +:+ entityName))
  | Some entity =>
    if (length (ai_Metrics input) =? 0)%nat then Err (InvalidAggregate "At least one metric is required.")
    else if (maxMetrics <? length (ai_Metrics input))%nat
    then Err (InvalidAggregate ("At most " +:+ Itoa maxMetrics +:+ " metrics per request."))
    else
      let! tenantID := query_error (ScopedTenant ctx) in
      plan_aggregate entity tenantID input ctx policies []
  end.
End Plan.

(** ** The handlers (crud/aggregate.go, crud/record_backend.go) *)

Section Handlers.
Context `{UuidLib} `{!Postgres} {St C A : Type} `{!PolicyStore St} `{!Cache C} `{!AuditStore A}.
Local Notation World := (@World _ C A).
Local Notation Service := (@CrudService _ St).

(** The rows of a planned aggregation, one JSON document each. *)
Variable pg_aggregate : list Row -> PlannedAggregateQuery -> list BindValue -> result error (list json).

Definition aggregate_refusal {B} (r : result QueryError B) : Handler World B :=
  match r with
  | Ok b => hret b
  | Err e =>
    match e with
    | InvalidAggregate _ => refuse (ResultErrWithMessage 400 "invalid_aggregate" (QueryError_Error e))
    | CrossRecordConditionInList _ | UnsupportedContainsConditionInList _ =>
      refuse (ResultErrWithMessage 500 "unsupported_policy_condition" (QueryError_Error e))
    | _ => hfail (QueryError_Error e)
    end
  | Panic => hpanic
  end.

Definition AggregateWithInput (s : Service) (entityName : string) (input : AggregateInput) (rc : RequestContext)
  : Handler World (list json) :=
  let* (tenantID, registry, entity) := open_entity s entityName rc in
  let* _ := authorize (CanReadEntity (cs_policies s) rc (e_Name entity)) in
  let* snapshot := LoadSnapshotM s tenantID (e_Name entity) in
  let* (planned, params) := aggregate_refusal (PlanAggregate registry (e_Name entity) input rc (GetRecordPolicies snapshot ActionRead)) in
  let* db := begin_tx s tenantID in
  let* rows := hquery (table_rows db (e_TableName entity)) in
  hlift (pg_aggregate rows planned params).

Definition Aggregate (s : Service) (entityName : string) (spec : AggregateSpec) (rc : RequestContext) : Handler World (list json) :=
  match IntoInput spec with
  | Ok input => AggregateWithInput s entityName input rc
  | Err e => refuse (ResultErrWithMessage 400 "invalid_aggregate" (QueryError_Error e))
  | Panic => hpanic
  end.
End Handlers.

(** ** Properties of planned aggregations *)

Definition time_placeholders (t : time_expr) : list nat := match t with TColumn _ => [] | TField e => placeholders e end.

Definition cond_placeholders (c : agg_cond) : list nat :=
  match c with ACond e => placeholders e | ATime t _ b => time_placeholders t ++ placeholders b end.

Definition part_placeholders (p : select_part) : list nat :=
  match p with
  | SelBucket _ t => time_placeholders t
  | SelGroup e | SelMetric (MCount e) _ | SelMetric (MNumeric _ e) _ => placeholders e
  | SelMetric MCountAll _ => []
  end.

Definition bound (n : nat) (l : list nat) : Prop := Forall (fun k => 1 <= k <= n)%nat l.

Lemma bound_mono n m l : bound n l -> (n <= m)%nat -> bound m l.
Proof. intros Hl Hle. eapply Forall_impl; [exact Hl|]. simpl. lia. Qed.

Section Bound.
Context `{UuidLib}.

(** [bounded ph m]: the builder only appends, and what it returns mentions only
    bound parameters; [ph] lists the placeholders. *)
Definition bounded {B} (ph : B -> list nat) (m : Build B) : Prop := appends (fun b n => bound n (ph b)) m.

Lemma bounded_ret {B} (ph : B -> list nat) b : ph b = [] -> bounded ph (bret b).
Proof. intros Hb. apply appends_ret. intros n. rewrite Hb. constructor. Qed.

(** The last step of a builder: its result mentions what came before. *)
Lemma bounded_map {B D} (ph : B -> list nat) (ph' : D -> list nat) (m : Build B) (k : B -> D) :
  bounded ph m -> (forall b, ph' (k b) = ph b) -> bounded ph' (bbind m (fun b => bret (k b))).
Proof.
  intros Hm Hk. eapply appends_bind; [exact Hm|]. intros b ps d ps' Hb [= <- <-]. exists []. rewrite app_nil_r, Hk. done.
Qed.

Lemma bounded_bmap {B D} (ph : D -> list nat) (f : B -> Build D) l :
  (forall b, bounded ph (f b)) -> bounded (flat_map ph) (bmap f l).
Proof.
  intros Hf. induction l as [|b l IH]; simpl; [by apply bounded_ret|]. eapply appends_bind; [apply Hf|].
  intros d ps ds ps' Hd ([ds' ps1] & Hds & [= <- <-])%rbind_ok. destruct (IH _ _ _ Hds) as (new & -> & Hall).
  exists new. split; [done|]. simpl. apply Forall_app. split; [|done]. eapply bound_mono; [exact Hd|]. rewrite length_app. lia.
Qed.

Lemma valueExpression_bounded f : bounded placeholders (valueExpression f).
Proof.
  unfold valueExpression. destruct (FieldHasRealColumn f); [by apply bounded_ret|].
  apply (bounded_map placeholders); [apply appends_push|done].
Qed.

Lemma timestampExpression_bounded name entity : bounded time_placeholders (timestampExpression name entity).
Proof.
  unfold timestampExpression. repeat case_match; try (by apply bounded_ret); try apply appends_fail.
  apply (bounded_map placeholders); [apply valueExpression_bounded|done].
Qed.

Definition opt_ph {B} (ph : B -> list nat) (o : option B) : list nat := flat_map ph (opt_list o).

Lemma agg_filter_bounded entity kv : bounded (opt_ph cond_placeholders) (agg_filter entity kv).
Proof.
  destruct kv as [name value]. unfold agg_filter. destruct (negb _); [by apply bounded_ret|].
  destruct (field_by_name entity name) as [f|]; [|by apply bounded_ret].
  eapply appends_bind; [apply valueExpression_bounded|]. intros e ps c ps' He. destruct (String.eqb value "").
  - intros [= <- <-]. exists []. rewrite app_nil_r. split; [done|]. cbn. by rewrite app_nil_r.
  - intros [= <- <-]. eexists. split; [done|]. cbn. rewrite app_nil_r. apply Forall_app.
    rewrite length_app. cbn [length]. split; [eapply bound_mono; [exact He|lia]|]. constructor; [lia|constructor].
Qed.

Lemma time_axis_bounded entity input : bounded (opt_ph time_placeholders) (time_axis entity input).
Proof.
  unfold time_axis. destruct (_ || _); [|by apply bounded_ret].
  apply (bounded_map time_placeholders); [apply timestampExpression_bounded|]. intros t. apply app_nil_r.
Qed.

Lemma group_part_bounded entity g : bounded (flat_map part_placeholders) (group_part entity g).
Proof.
  unfold group_part. destruct g as [name|]; [|by apply bounded_ret]. destruct (field_by_name entity name) as [f|]; [|apply appends_fail].
  unfold assertGroupable. destruct (groupable f entity).
  - apply (bounded_map placeholders); [apply valueExpression_bounded|]. intros e. apply app_nil_r.
  - intros ps b ps' [=].
Qed.

Lemma metric_part_bounded entity m : bounded part_placeholders (metric_part entity m).
Proof.
  unfold metric_part. repeat case_match; try (by apply bounded_ret); try apply appends_fail;
    (apply (bounded_map placeholders); [apply valueExpression_bounded|done]).
Qed.

(** A bound of the time axis mentions the axis, which was built before it. *)
Lemma time_bound_bounded t op b ps cs ps' :
  bound (length ps) (opt_ph time_placeholders t) -> time_bound t op b ps = Ok (cs, ps') ->
  exists new, ps' = ps ++ new /\ bound (length ps') (flat_map cond_placeholders cs).
Proof.
  intros Ht. unfold time_bound. destruct t as [t|], b as [b|]; intros [= <- <-];
    try (exists []; rewrite app_nil_r; split; [done|constructor]).
  eexists. split; [done|]. cbn in *. rewrite app_nil_r in *. rewrite length_app. cbn [length]. apply Forall_app.
  split; [eapply bound_mono; [exact Ht|lia]|]. constructor; [lia|constructor].
Qed.
End Bound.

Section Scoped.
Context `{UuidLib}.

Lemma bmap_length {B D} (f : B -> Build D) l ps ds ps' : bmap f l ps = Ok (ds, ps') -> length ds = length l.
Proof.
  revert ps ds ps'. induction l as [|b l IH]; intros ps ds ps'; [by intros [= <- _]|]. simpl.
  intros ([d psb] & _ & ([ds' psc] & Hds & [= <- <-])%rbind_ok)%rbind_ok. simpl. f_equal. by eapply IH.
Qed.

(** What a planned aggregation is made of, and where its parameters come from. *)
Lemma PlanAggregate_parts registry name input ctx policies q ps :
  PlanAggregate registry name input ctx policies = Ok (q, ps) ->
  exists entity t w ps1 more rest metrics keys,
    GetEntity registry name = Some entity /\ ScopedTenant ctx = Ok t /\
    RecordPolicyWhereClause policies ctx [UUIDBind t] = Ok (w, ps1) /\ (exists n1, ps1 = [UUIDBind t] ++ n1) /\ ps = ps1 ++ more /\
    pa_Where q = ACond (SOp "=" (SCol "tenant_id") (SParam 1)) :: ACond (SOp "=" (SCol "deleted") (SConst false))
                   :: map ACond (opt_list w) ++ rest /\
    pa_Table q = e_TableName entity /\ pa_Group q = keys /\ pa_Select q = keys ++ metrics /\
    (length metrics = length (ai_Metrics input) /\ (1 <= length metrics <= maxMetrics)%nat) /\
    pa_Limit q = clampInt64 (ai_Limit input) 1 MaxGroups /\
    bound (length ps) (flat_map cond_placeholders (pa_Where q) ++ flat_map part_placeholders (pa_Select q)).
Proof.
  unfold PlanAggregate. destruct (GetEntity registry name) as [entity|]; [|done].
  destruct (_ =? 0)%nat eqn:Hz; [done|]. destruct (_ <? _)%nat eqn:Hmax; [done|].
  intros (t & Ht & Hplan)%rbind_ok. assert (ScopedTenant ctx = Ok t) by (by destruct (ScopedTenant ctx); simplify_eq/=).
  unfold plan_aggregate in Hplan.
  apply rbind_ok in Hplan as ([tph ps0] & [= <- <-] & Hplan). cbn [length app] in Hplan.
  apply rbind_ok in Hplan as ([w ps1] & Hw & Hplan). unfold plan_rest in Hplan. apply rbind_ok in Hplan as ([fs ps2] & Hfs & Hplan).
  apply rbind_ok in Hplan as ([te ps3] & Hte & Hplan). apply rbind_ok in Hplan as ([since ps4] & Hsi & Hplan).
  apply rbind_ok in Hplan as ([until ps5] & Hun & Hplan). apply rbind_ok in Hplan as ([g ps6] & Hg & Hplan).
  apply rbind_ok in Hplan as ([ms ps7] & Hms & [= <- <-]).
  destruct (RecordPolicyWhereClause_params_app _ _ _ _ _ Hw) as (n1 & -> & Hr1).
  destruct (bounded_bmap _ _ _ (agg_filter_bounded entity) _ _ _ Hfs) as (n2 & -> & Hr2).
  destruct (time_axis_bounded _ _ _ _ _ Hte) as (n3 & -> & Hr3).
  destruct (time_bound_bounded _ _ _ _ _ _ Hr3 Hsi) as (n4 & -> & Hr4).
  assert (bound (length ((((([UUIDBind t] ++ n1) ++ n2) ++ n3) ++ n4))) (opt_ph time_placeholders te)) as Hr3'
    by (eapply bound_mono; [exact Hr3|rewrite !length_app; lia]).
  destruct (time_bound_bounded _ _ _ _ _ _ Hr3' Hun) as (n5 & -> & Hr5).
  destruct (group_part_bounded _ _ _ _ _ Hg) as (n6 & -> & Hr6).
  destruct (bounded_bmap _ _ _ (metric_part_bounded entity) _ _ _ Hms) as (n7 & -> & Hr7).
  exists entity, t, w, ([UUIDBind t] ++ n1), (n2 ++ n3 ++ n4 ++ n5 ++ n6 ++ n7), (omap id fs ++ since ++ until), ms,
    (bucket_part te (ai_Bucket input) ++ g).
  assert (length ms = length (ai_Metrics input)) as Hlen by by eapply bmap_length.
  split_and!; try done; [by exists n1|by rewrite <- !app_assoc| | |].
  - apply Nat.eqb_neq in Hz. lia.
  - apply Nat.ltb_ge in Hmax. lia.
  - cbn [pa_Where pa_Select]. set (N := length _). cbn [app flat_map cond_placeholders placeholders].
    rewrite !flat_map_app. unfold bound. constructor; [unfold N; rewrite !length_app; simpl; lia|].
    repeat (apply Forall_app; split).
    + destruct w as [w|]; [|constructor]. simpl. rewrite app_nil_r. eapply in_range_mono; [by apply Hr1|]. unfold N. rewrite !length_app. lia.
    + assert (flat_map cond_placeholders (omap id fs) = flat_map (opt_ph cond_placeholders) fs) as ->.
      { clear. induction fs as [|[c|] fs IH]; csimpl; [done| |done]. rewrite IH. unfold opt_ph. simpl. by rewrite app_nil_r. }
      eapply bound_mono; [exact Hr2|]. unfold N. rewrite !length_app. lia.
    + eapply bound_mono; [exact Hr4|]. unfold N. rewrite !length_app. lia.
    + eapply bound_mono; [exact Hr5|]. unfold N. rewrite !length_app. lia.
    + unfold bucket_part. destruct (ai_Bucket input), te; try constructor. simpl. rewrite app_nil_r.
      cbn in Hr3. rewrite app_nil_r in Hr3. eapply bound_mono; [exact Hr3|]. unfold N. rewrite !length_app. cbn [length]. lia.
    + eapply bound_mono; [exact Hr6|]. unfold N. rewrite !length_app. lia.
    + eapply bound_mono; [exact Hr7|]. unfold N. rewrite !length_app. lia.
Qed.

(** What the row's columns hold, and what is not relied on. *)
Context (columns : string -> option string) (jsonb_text : json -> string) (other : sql -> option bool).

(** The conditions on the row that the WHERE clause is made of; the bounds of
    the time axis only remove rows. *)
Definition cond_holds (data : JsonObject) (ps : list BindValue) (c : agg_cond) : Prop :=
  match c with ACond e => row_holds columns jsonb_text other data ps e = Some true | ATime _ _ _ => True end.

End Scoped.

(** *** Values never reach the text *)

Section Values.
Context `{UuidLib}.

(** Two builders that differ only in the values they bind. *)
Definition same_text {B} (m m' : Build B) : Prop :=
  forall ps ps', length ps = length ps' ->
  match m ps, m' ps' with
  | Ok (b, qs), Ok (b', qs') => b = b' /\ length qs = length qs'
  | Err e, Err e' => e = e'
  | Panic, Panic => True
  | _, _ => False
  end.

Lemma same_text_ret {B} (b : B) : same_text (bret b) (bret b).
Proof. by intros ps ps'. Qed.

Lemma same_text_fail {B} e : same_text (B := B) (bfail e) (bfail e).
Proof. by intros ps ps'. Qed.

Lemma same_text_push v v' : same_text (Push v) (Push v').
Proof. intros ps ps' Hl. unfold Push. rewrite Hl, !length_app, Hl. done. Qed.

Lemma same_text_bind {B D} (m m' : Build B) (k k' : B -> Build D) :
  same_text m m' -> (forall b, same_text (k b) (k' b)) -> same_text (bbind m k) (bbind m' k').
Proof.
  intros Hm Hk ps ps' Hl. unfold bbind. specialize (Hm ps ps' Hl). destruct (m ps) as [[b qs]| |], (m' ps') as [[b' qs']| |]; try done.
  destruct Hm as [-> Hq]. cbn. by apply Hk.
Qed.

Lemma same_text_bmap {B D} (f f' : B -> Build D) l l' :
  Forall2 (fun b b' => same_text (f b) (f' b')) l l' -> same_text (bmap f l) (bmap f' l').
Proof.
  induction 1 as [|b b' l l' Hb Hl IH]; simpl; [apply same_text_ret|].
  apply same_text_bind; [done|]. intros d. apply same_text_bind; [done|]. intros ds. apply same_text_ret.
Qed.

Lemma valueExpression_same f : same_text (valueExpression f) (valueExpression f).
Proof.
  unfold valueExpression. destruct (FieldHasRealColumn f); [apply same_text_ret|].
  apply same_text_bind; [apply same_text_push|]. intros. apply same_text_ret.
Qed.

Ltac same_steps :=
  repeat first
    [ apply same_text_ret | apply same_text_fail | apply same_text_push | apply valueExpression_same
    | apply same_text_bind; [|intros ?] | case_match ].

Lemma time_axis_same entity input input' :
  is_some (ai_Bucket input) = is_some (ai_Bucket input') -> is_some (ai_Since input) = is_some (ai_Since input') ->
  is_some (ai_Until input) = is_some (ai_Until input') -> ai_TimeField input = ai_TimeField input' ->
  same_text (time_axis entity input) (time_axis entity input').
Proof. intros H1 H2 H3 H4. unfold time_axis, timestampExpression. rewrite H1, H2, H3, H4. same_steps. Qed.

Lemma time_bound_same t op b b' : is_some b = is_some b' -> same_text (time_bound t op b) (time_bound t op b').
Proof. unfold time_bound. destruct t, b, b'; intros [=]; same_steps. Qed.

Lemma agg_filter_same entity kv kv' : kv.1 = kv'.1 -> String.eqb kv.2 "" = String.eqb kv'.2 "" ->
  same_text (agg_filter entity kv) (agg_filter entity kv').
Proof. destruct kv as [k v], kv' as [k' v']. simpl. intros -> Hv. unfold agg_filter. rewrite Hv. same_steps. Qed.

(** The requests name the same things and bind different values. *)
Definition same_request (input input' : AggregateInput) : Prop :=
  ai_Metrics input = ai_Metrics input' /\ ai_GroupBy input = ai_GroupBy input' /\ ai_Bucket input = ai_Bucket input' /\
  ai_TimeField input = ai_TimeField input' /\ ai_Limit input = ai_Limit input' /\
  Forall2 (fun kv kv' => kv.1 = kv'.1 /\ String.eqb kv.2 "" = String.eqb kv'.2 "") (ai_Filters input) (ai_Filters input') /\
  is_some (ai_Since input) = is_some (ai_Since input') /\ is_some (ai_Until input) = is_some (ai_Until input').

Lemma plan_rest_same entity tph w input input' :
  same_request input input' -> same_text (plan_rest entity tph w input) (plan_rest entity tph w input').
Proof.
  intros (H1 & H2 & H3 & H4 & H5 & Hf & Hs & Hu). unfold plan_rest.
  assert (agg_order_of input = agg_order_of input') as -> by (unfold agg_order_of; by rewrite H1, H2, H3).
  rewrite H1, H2, H3, H5.
  apply same_text_bind; [|intros fs].
  { apply same_text_bmap. eapply Forall2_impl; [exact Hf|]. intros kv kv' [Hk Hv]. by apply agg_filter_same. }
  apply same_text_bind; [apply time_axis_same; by rewrite ?H3|intros te].
  apply same_text_bind; [by apply time_bound_same|intros si]. apply same_text_bind; [by apply time_bound_same|intros un].
  apply same_text_bind; [unfold group_part, assertGroupable; same_steps|intros g].
  apply same_text_bind; [|intros ms; apply same_text_ret].
  apply same_text_bmap, Forall_Forall2_diag, Forall_true. intros m. unfold metric_part. same_steps.
Qed.

(** The values of a request never reach the text of the query: two
    requests that name the same metrics, grouping, time axis and filters, and
    differ in the values they filter by and in their time bounds, are refused
    with the same error or planned as the same query with as many parameters. *)
Lemma aggregate_values_are_bound registry name input input' ctx policies :
  same_request input input' ->
  match PlanAggregate registry name input ctx policies, PlanAggregate registry name input' ctx policies with
  | Ok (q, ps), Ok (q', ps') => q = q' /\ aggregate_text q = aggregate_text q' /\ length ps = length ps'
  | Err e, Err e' => e = e'
  | Panic, Panic => True
  | _, _ => False
  end.
Proof.
  intros Hr. unfold PlanAggregate. destruct (GetEntity registry name) as [entity|]; [|done]. rewrite (proj1 Hr).
  destruct (_ =? 0)%nat; [done|]. destruct (_ <? _)%nat; [done|]. destruct (query_error (ScopedTenant ctx)) as [t| |]; cbn; try done.
  unfold plan_aggregate, bbind, Push. cbn [rbind length app].
  destruct (RecordPolicyWhereClause policies ctx [UUIDBind t]) as [[w ps1]| |]; cbn [rbind]; try done.
  pose proof (plan_rest_same entity (SParam 1) w input input' Hr ps1 ps1 eq_refl) as Hp.
  destruct (plan_rest entity (SParam 1) w input ps1) as [[q ps]| |], (plan_rest entity (SParam 1) w input' ps1) as [[q' ps']| |]; try done.
  destruct Hp as [-> Hl]. done.
Qed.
End Values.

(** *** Result columns *)

(** Different metrics have different keys in a result row, and none of them is
    "bucket" or "group". *)
#[global] Instance Alias_injective : Inj (=) (=) Alias.
Proof.
  intros m m'. unfold Alias. destruct m as [[] [f|]], m' as [[] [f'|]]; cbn [am_Func am_Field sqlName]; intros E; try discriminate E; try done.
  all: cbv [String.append] in E; by injection E as ->.
Qed.

Lemma Alias_not_key m : Alias m <> "bucket" /\ Alias m <> "group".
Proof. unfold Alias. by destruct m as [[] [f|]]. Qed.

Section Columns.
Context `{UuidLib}.

Lemma metric_part_alias entity m ps p ps' : metric_part entity m ps = Ok (p, ps') -> part_alias p = Alias m.
Proof.
  unfold metric_part. repeat case_match; try (by intros [=]); intros Hp;
    first [injection Hp as <- _; done | apply rbind_ok in Hp as ([? ?] & _ & [= <- _]); done].
Qed.

Lemma metric_aliases entity l ps parts ps' : bmap (metric_part entity) l ps = Ok (parts, ps') -> map part_alias parts = map Alias l.
Proof.
  revert ps parts ps'. induction l as [|m l IH]; intros ps parts ps'; [by intros [= <- _]|]. simpl.
  intros ([p ps1] & Hp & ([parts' ps2] & Hl & [= <- _])%rbind_ok)%rbind_ok. simpl. f_equal; [by eapply metric_part_alias|by eapply IH].
Qed.

(** The keys of a result row are different when the metrics are. *)
Lemma aggregate_columns_distinct entity tph w input ps q ps' :
  plan_rest entity tph w input ps = Ok (q, ps') -> NoDup (ai_Metrics input) -> NoDup (map part_alias (pa_Select q)).
Proof.
  unfold plan_rest. intros ([fs ?] & _ & Hplan)%rbind_ok Hnd. apply rbind_ok in Hplan as ([te ?] & _ & Hplan).
  apply rbind_ok in Hplan as ([si ?] & _ & Hplan). apply rbind_ok in Hplan as ([un ?] & _ & Hplan).
  apply rbind_ok in Hplan as ([g ps6] & Hg & Hplan). apply rbind_ok in Hplan as ([ms ps7] & Hms & [= <- _]).
  cbn [pa_Select]. rewrite map_app, (metric_aliases _ _ _ _ _ Hms).
  assert (map part_alias g = [] \/ map part_alias g = ["group"]) as Hgroup.
  { unfold group_part in Hg. destruct (ai_GroupBy input) as [n|]; [|injection Hg as <- _; by left].
    destruct (field_by_name entity n) as [f|]; [|done]. apply rbind_ok in Hg as ([[] ?] & _ & ([e ?] & _ & [= <- _])%rbind_ok). by right. }
  assert (map part_alias (bucket_part te (ai_Bucket input)) = [] \/ map part_alias (bucket_part te (ai_Bucket input)) = ["bucket"]) as Hbucket.
  { unfold bucket_part. destruct (ai_Bucket input), te; auto. }
  rewrite map_app. assert (NoDup (map Alias (ai_Metrics input))) as Ha.
  { by apply (NoDup_fmap_2 Alias). }
  assert (forall k, k = "bucket" \/ k = "group" -> k ∉ map Alias (ai_Metrics input)) as Hk.
  { intros k Hk (m & -> & _)%list_elem_of_fmap. destruct (Alias_not_key m). naive_solver. }
  destruct Hbucket as [-> | ->], Hgroup as [-> | ->]; cbn [app]; repeat (apply NoDup_cons; split); auto; set_solver.
Qed.
End Columns.

(** *** Two findings *)

Section Findings.
#[local] Existing Instance TestUuid.
#[local] Existing Instance test_Cache.

(** NULLIF(x, '') reads the blank as a value of x's type; only texts have one. *)
Definition has_blank (sqlType : string) : bool := String.eqb sqlType "text" || HasPrefix sqlType "varchar".

Definition nullif_accepted (types : string -> option string) (e : sql) : bool :=
  match e with SQuoted c => match types c with Some t => has_blank t | None => false end | _ => true end.

Definition part_accepted (types : string -> option string) (p : select_part) : bool :=
  match p with
  | SelBucket _ (TField e) | SelMetric (MNumeric _ e) _ => nullif_accepted types e
  | _ => true
  end.

Definition column_types (e : EntityDefinition) (c : string) : option string :=
  match Compile e with Ok s => col_SQLType <$> ps_Columns s !! c | _ => None end.

(** A deal with its amount and its date in the document, or in columns of their own. *)
Definition deals (storage : option FieldStorage) : EntityDefinition :=
  let field name kind := mkField name "" kind None (Some true) None None None None None None None None storage None None None None None None in
  mkEntity "sales.deal" "Deal" "entities.sales_deal" [field "amount" KindMoney; field "closedOn" KindDate] [] None [] None.

Definition deals_registry (storage : option FieldStorage) : MetadataRegistry := mkRegistry {[ "sales.deal" := deals storage ]} ∅ ∅.

Definition total_by_month : AggregateInput :=
  mkAggregateInput [mkMetric AggSum (Some "amount")] None (Some BucketMonth) (Some "closedOn") [] None None 100.

Definition deals_parts (storage : option FieldStorage) : option (list select_part) :=
  match PlanAggregate (deals_registry storage) "sales.deal" total_by_month test_admin [] with
  | Ok (q, _) => Some (pa_Select q)
  | _ => None
  end.

(** A sum over a number or money field, or a time axis over a date field,
    that the definition keeps in a column of its own is planned as
    NULLIF(column, ''), and the compiled column has a numeric or date type, for
    which Postgres rejects the blank: the aggregation that works while the field
    is in the document fails once it has a column. *)
Lemma column_fields_cannot_be_aggregated :
  (Validate (deals (Some StorageColumn)) = None /\ is_ok (Compile (deals (Some StorageColumn))) = true /\
   exists parts, deals_parts (Some StorageColumn) = Some parts /\
     map (part_accepted (column_types (deals (Some StorageColumn)))) parts = [false; false] /\
     map part_text parts = ["date_trunc('month', NULLIF(" +:+ quoted "closedOn" +:+ ", '')::timestamptz)";
                            "(sum(NULLIF(" +:+ quoted "amount" +:+ ", '')::numeric))::float8"]) /\
  (exists parts, deals_parts None = Some parts /\ map (part_accepted (column_types (deals None))) parts = [true; true]).
Proof. split; [split; [|split]|]; [vm_compute; reflexivity..| |]; eexists; split_and!; vm_compute; reflexivity. Qed.

(** A payslip whose salary only the payroll role may read. *)
Definition slip_entity : EntityDefinition :=
  mkEntity "hr.slip" "Payslip" "hr.slips"
    [mkField "salary" "" KindString None (Some true) None None None None None None None None None None None None None None None] [] None [] None.

Definition slip_store : PostgresPolicyStore :=
  mkPgStore [mkColumns _ "p0" "t1" "hr.slip" "read" None "context" (Some (JArr [JStr "clerk"])) None None "allow";
             mkColumns _ "p1" "t1" "hr.slip" "read" (Some "salary") "context" (Some (JArr [JStr "payroll"])) None None "allow"]
    (fun _ => None) test_fresh.

Definition slip_service : CrudService (St := PostgresPolicyStore) :=
  mkCrudService test_router (mkRegistry {[ "hr.slip" := slip_entity ]} ∅ ∅) slip_store None None 0.

Definition clerk : RequestContext := mkRequestContext "uuid-t1" "uuid-u1" (Some ["clerk"]) true "" None "".

Definition slips : list Row := [mkRow order1 tenant1 None None {[ "salary" := JStr "9000" ]} 1 0 0 None None false].
Definition slip_db : Database := mkDatabase {[ "hr.slips" := slips ]} [] [].

Definition by_salary : AggregateInput := mkAggregateInput [mkMetric AggCount None] (Some "salary") None None [] None None 100.

Definition salary_plan : option (PlannedAggregateQuery * list BindValue) :=
  Eval vm_compute in match PlanAggregate (cs_metadata slip_service) "hr.slip" by_salary clerk [] with Ok r => Some r | _ => None end.

(** Field policies do not reach aggregations: a caller who may read an
    entity but not one of its fields gets its records without that field from Get
    and List, and gets the field's values, unmasked, as the groups of an
    aggregation (or as its min and max, when it is a number): whatever Postgres
    returns for the query that selects them is what the caller is given. *)
Lemma aggregate_reveals_hidden_field pg_aggregate :
  (exists g, fst (Get slip_service "hr.slip" order1 clerk (test_world slip_db)) = Ok g /\ rd_Data (gr_Record g) = ∅) /\
  exists q ps, salary_plan = Some (q, ps) /\
    pa_Select q = [SelGroup (SPath (SParam 2)); SelMetric MCountAll "count"] /\ ps = [UUIDBind tenant1; TextBind "salary"] /\
    fst (AggregateWithInput (C := test_cache) (A := AuditTable) pg_aggregate slip_service "hr.slip" by_salary clerk (test_world slip_db))
    = match pg_aggregate slips q ps with Ok l => Ok l | Err e => Err (Failed e) | Panic => Panic end.
Proof.
  split.
  - eexists. split; vm_compute; reflexivity.
  - eexists _, _. split; [reflexivity|]. split; [reflexivity|]. split; [reflexivity|]. vm_compute. reflexivity.
Qed.

(** ** Witnesses *)

Definition slip_columns (c : string) : option string :=
  if String.eqb c "tenant_id" then Some "uuid-t1" else if String.eqb c "deleted" then Some "false" else None.

(** A clerk who reads only their own payslips. *)
Definition own_slips : PermissionSnapshot := PermissionSnapshotFromRows own_or_open.
Definition own_plan : option (PlannedAggregateQuery * list BindValue) :=
  Eval vm_compute in
    match PlanAggregate (cs_metadata slip_service) "hr.slip" by_salary alice (GetRecordPolicies own_slips ActionRead) with
    | Ok r => Some r | _ => None end.

Definition own_query : PlannedAggregateQuery := Eval vm_compute in match own_plan with Some (q, _) => q | None => mkAggregate [] "" [] [] None 0 end.
Definition own_params : list BindValue := Eval vm_compute in match own_plan with Some (_, ps) => ps | None => [] end.


Definition deals_since (v : string) : AggregateInput :=
  mkAggregateInput [mkMetric AggCount None] None None None [] (Some v) None 5.

Lemma aggregate_values_are_bound_witness :
  match PlanAggregate (deals_registry None) "sales.deal" (deals_since "2024-01-01") test_admin [],
        PlanAggregate (deals_registry None) "sales.deal" (deals_since "'; drop table x --") test_admin [] with
  | Ok (q, _), Ok (q', _) => aggregate_text q = aggregate_text q'
  | _, _ => False
  end.
Proof.
  pose proof (aggregate_values_are_bound (deals_registry None) "sales.deal" (deals_since "2024-01-01") (deals_since "'; drop table x --")
    test_admin []) as Hx.
  destruct (PlanAggregate _ _ (deals_since "2024-01-01") _ _) as [[q ps]| |] eqn:E1; [|discriminate E1..].
  destruct (PlanAggregate _ _ (deals_since "'; drop table x --") _ _) as [[q' ps']| |] eqn:E2; [|discriminate E2..].
  apply Hx. repeat split; constructor.
Defined.
End Findings.
