(* ===== verification/Authn.v ===== *)
(** Who is calling: access tokens (src/go/peripherals/auth.go, jwks/mint.go,
    signer.go, verifier.go), the roles and attributes of a user
    (peripherals/role_assignment.go, context_attributes.go,
    control/authcontext.go), and the request context every transport builds
    from a token (httpserver/auth.go, grpcapi/auth.go, runtime/bearer.go,
    cookieauth.go).

    Signatures are an interface: [jwt_sign] and [jwt_open] stand for the JWT
    package with one key; its law is that an opened token has the claims it was
    signed with. Times are seconds. *)
From S2P Require Import Prelude GoStrings GoText Json Floats Condition Context Uuid Evaluate Snapshot PermissionService PolicyStore Metadata Schema Router Payload Workflow AuditTrail Sql ConditionSql Jql Planner Records Crud.

Open Scope string_scope.
Open Scope list_scope.

(** ** Access tokens *)

Definition JWTIssuer : string := "metap".
Definition JWTAudience : string := "metap-api".

(** The claims of a token as they travel: an absent member is [None]. *)
Record TokenWire : Type := mkWire {
  tw_sub : string;
  tw_exp : Z;
  tw_iss : string;
  tw_aud : list string;
  tw_jti : string;
  tw_tenantId : string;
  tw_functionId : option string;
  tw_scope : option string;
  tw_clientId : option string
}.

Class Jwt := {
  jwt_sign : string -> TokenWire -> string;
  jwt_open : string -> string -> option TokenWire
}.

Class JwtLaws `{!Jwt} : Prop := {
  jwt_open_sign : forall key w, jwt_open key (jwt_sign key w) = Some w
}.

(** A string member with the tag omitempty. *)
Definition omitempty (s : string) : option string := if String.eqb s "" then None else Some s.

Section Tokens.
Context `{UuidLib} `{!Jwt}.

Definition mintClaims (key : string) (now : Z) (jti : string) (tenantID userID : uuid) (ttlSeconds : Z) (scope clientID : string) : string :=
  jwt_sign key (mkWire (uuid_String userID) (now + ttlSeconds) JWTIssuer [JWTAudience] jti (uuid_String tenantID) None
                  (omitempty scope) (omitempty clientID)).

Definition MintJWT (key : string) (now : Z) (jti : string) (tenantID userID : uuid) (ttlSeconds : Z) : string :=
  mintClaims key now jti tenantID userID ttlSeconds "" "".

Definition MintOAuthAccessToken (key : string) (now : Z) (jti : string) (tenantID userID : uuid) (ttlSeconds : Z)
    (scope clientID : string) : string :=
  mintClaims key now jti tenantID userID ttlSeconds scope clientID.

(** jwks/mint.go: the members are pointers, an empty scope is a member. *)
Definition mintJwksClaims (key : string) (now : Z) (tenantID userID : uuid) (functionID : option string) (ttlSeconds : Z)
    (scope clientID : option string) : string :=
  jwt_sign key (mkWire (uuid_String userID) (now + ttlSeconds) JWTIssuer [JWTAudience] "" (uuid_String tenantID) functionID scope clientID).

Definition MintServiceOrUserJWT key now tenantID userID functionID ttlSeconds : string :=
  mintJwksClaims key now tenantID userID functionID ttlSeconds None None.

Definition MintScopedServiceOrUserJWT key now tenantID userID ttlSeconds (scope clientID : string) : string :=
  mintJwksClaims key now tenantID userID None ttlSeconds (Some scope) (Some clientID).

Inductive TokenSigner : Type := SignerStatic (privateKeyPEM : string) | SignerJwks (key : string).

Definition MintWithSigner (signer : TokenSigner) now jti tenantID userID functionID ttlSeconds : string :=
  match signer with
  | SignerStatic key => MintJWT key now jti tenantID userID ttlSeconds
  | SignerJwks key => MintServiceOrUserJWT key now tenantID userID functionID ttlSeconds
  end.

Definition MintOAuthTokenWithSigner (signer : TokenSigner) now jti tenantID userID ttlSeconds scope clientID : string :=
  match signer with
  | SignerStatic key => MintOAuthAccessToken key now jti tenantID userID ttlSeconds scope clientID
  | SignerJwks key => MintScopedServiceOrUserJWT key now tenantID userID ttlSeconds scope clientID
  end.

Record AccessClaims : Type := mkAccess {
  a_Subject : string;
  a_TenantID : string;
  a_FunctionID : option string;
  a_JTI : option string;
  a_Scope : option string;
  a_ClientID : option string
}.

(** The audience and issuer are pinned; a token is accepted while now is before
    its expiry plus the leeway. *)
Definition DecodeAccessToken (key : string) (now leeway : Z) (token : string) : option AccessClaims :=
  match jwt_open key token with
  | None => None
  | Some w =>
    if bool_decide (JWTAudience ∈ tw_aud w) && String.eqb (tw_iss w) JWTIssuer && (now <? tw_exp w + leeway)%Z
    then Some (mkAccess (tw_sub w) (tw_tenantId w) (tw_functionId w) (omitempty (tw_jti w)) (tw_scope w) (tw_clientId w))
    else None
  end.

(** [VerifierJwks] fetches the keys of the issuer: what it decodes is an argument. *)
Inductive TokenVerifier : Type :=
| VerifierStatic (publicKey : string) (leeway : Z)
| VerifierJwks (leeway : Z) (decode : Z -> string -> option AccessClaims).

Definition DecodeWithVerifier (verifier : TokenVerifier) (now : Z) (token : string) (leewayOverride : option Z) : option AccessClaims :=
  match verifier with
  | VerifierStatic key leeway => DecodeAccessToken key now (default leeway leewayOverride) token
  | VerifierJwks leeway decode => decode (default leeway leewayOverride) token
  end.
End Tokens.

(** ** Roles (role_assignment.go) *)

Section Roles.
Context `{UuidLib}.

(** The rows of user_roles: tenant, user and role are their key. *)
Notation role_rows := (list (uuid * uuid * string)).

Definition GetRolesForUser (rows : role_rows) (tenantID userID : uuid) : list string :=
  map snd (List.filter (fun r => bool_decide (fst r = (tenantID, userID))) rows).

Definition AssignRole (rows : role_rows) (tenantID userID : uuid) (role : string) : role_rows :=
  if bool_decide ((tenantID, userID, role) ∈ rows) then rows else rows ++ [(tenantID, userID, role)].

Definition RevokeRole (rows : role_rows) (tenantID userID : uuid) (role : string) : role_rows :=
  List.filter (fun r => negb (bool_decide (r = (tenantID, userID, role)))) rows.

(** One turn of the grouping loop: the roles of a user, in the order met. *)
Definition group_role (grouped : list (uuid * list string)) (userID : uuid) (role : string) : list (uuid * list string) :=
  if existsb (fun g => bool_decide (fst g = userID)) grouped
  then map (fun g => if bool_decide (fst g = userID) then (userID, snd g ++ [role]) else g) grouped
  else grouped ++ [(userID, [role])].

Definition ListUsers (rows : role_rows) (tenantID : uuid) : list (uuid * list string) :=
  fold_left (fun g r => group_role g (snd (fst r)) (snd r))
    (List.filter (fun r => bool_decide (fst (fst r) = tenantID)) rows) [].
End Roles.

(** ** The request context (authcontext.go) *)

Section Resolve.
Context `{UuidLib} `{!Postgres}.

(** data ->> 'userId' *)
Definition user_id_text (data : JsonObject) : option string :=
  match data !! "userId" with
  | None | Some JNull => None
  | Some (JStr s) => Some s
  | Some j => Some (pg_jsonb_text j)
  end.

Definition FetchContextAttributes (db : Database) (tenantID : uuid) (tableName : string) (userID : uuid)
  : result DbError (option JsonObject) :=
  let! rows := table_rows db tableName in
  Ok (r_data <$> List.find (fun r => bool_decide (r_tenant_id r = tenantID) && negb (r_deleted r)
                                     && bool_decide (user_id_text (r_data r) = Some (uuid_String userID))) rows).

(** What the cache holds by its keys; an entry without attributes is one. *)
Notation attributes_cache := (gmap string (option JsonObject)).

(** A miss asks [fetch]; what it finds is kept, an error is not. *)
Definition GetWith (cache : attributes_cache) (tenantID userID : uuid) (fetch : result error (option JsonObject))
  : result error (option JsonObject) * attributes_cache :=
  let key := ctx_cache_key tenantID userID in
  match cache !! key with
  | Some attrs => (Ok attrs, cache)
  | None =>
    match fetch with
    | Ok attrs => (Ok attrs, <[key := attrs]> cache)
    | Err e => (Err e, cache)
    | Panic => (Panic, cache)
    end
  end.

Record AuthEnv : Type := mkAuthEnv {
  ae_router : Router;
  ae_roles : list (uuid * uuid * string);
  ae_db : Database;
  ae_entity : string;
  ae_registry : option MetadataRegistry
}.

Definition auth_table (env : AuthEnv) : string :=
  if String.eqb (ae_entity env) "" then ""
  else match ae_registry env with
       | Some reg => match GetEntity reg (ae_entity env) with Some e => e_TableName e | None => "" end
       | None => ""
       end.

(** The attributes' own transaction and query. *)
Definition attributes_query (env : AuthEnv) (tenantID userID : uuid) : result error (option JsonObject) :=
  match Begin (ae_router env) tenantID with
  | Ok _ => match FetchContextAttributes (ae_db env) tenantID (auth_table env) userID with
            | Ok a => Ok a
            | Err e => Err (dberror_text e)
            | Panic => Panic
            end
  | Err e => Err (failure_text e)
  | Panic => Panic
  end.

Definition ResolveRequestContext (env : AuthEnv) (cache : attributes_cache) (tenantID userID : uuid) (functionID : string)
  : result error RequestContext * attributes_cache :=
  match Begin (ae_router env) tenantID with
  | Err e => (Err (failure_text e), cache)
  | Panic => (Panic, cache)
  | Ok _ =>
    let roles := GetRolesForUser (ae_roles env) tenantID userID in
    let '(attrs, cache') :=
      if String.eqb (auth_table env) "" then (Ok None, cache)
      else GetWith cache tenantID userID (attributes_query env tenantID userID) in
    let contextAttributes := match attrs with Ok a => a | _ => None end in
    (Ok (mkRequestContext (uuid_String tenantID) (uuid_String userID) (match roles with [] => None | _ => Some roles end) true
           functionID contextAttributes ""), cache')
  end.
End Resolve.

(** ** Authenticating a request *)

Definition ParseBearer (header : string) : option string :=
  match CutPrefix header "Bearer " with
  | None => None
  | Some rest => let token := TrimSpace rest in if String.eqb token "" then None else Some token
  end.

Definition RequiresCSRFCheck (method : string) : bool :=
  negb (String.eqb method "GET" || String.eqb method "HEAD" || String.eqb method "OPTIONS").

Definition CSRFMatches (cookie header : option string) : bool :=
  match cookie, header with
  | Some c, Some h => negb (String.eqb c "") && String.eqb c h
  | _, _ => false
  end.

(** What authentication reads of a request: a header that is not there is empty,
    a cookie that is not there is [None]. *)
Record AuthRequest : Type := mkAuthRequest {
  rq_Method : string;
  rq_Authorization : string;
  rq_SessionCookie : option string;
  rq_CSRFCookie : option string;
  rq_CSRFHeader : string
}.

Inductive authError : Type := Unauthorized (message : string) | ForbiddenError (message : string).

(** The token of a request: the header wins when there is one; a session cookie
    needs the CSRF header for a method that changes state. *)
Definition request_token (r : AuthRequest) : authError + string :=
  if negb (String.eqb (rq_Authorization r) "") then
    match ParseBearer (rq_Authorization r) with
    | Some t => inr t
    | None => inl (Unauthorized "Missing or invalid authorization header.")
    end
  else
    match rq_SessionCookie r with
    | None => inl (Unauthorized "Missing or invalid authorization header.")
    | Some v =>
      if String.eqb v "" then inl (Unauthorized "Missing or invalid authorization header.")
      else if RequiresCSRFCheck (rq_Method r) && negb (CSRFMatches (rq_CSRFCookie r) (omitempty (rq_CSRFHeader r)))
      then inl (Unauthorized "Missing or invalid CSRF token.")
      else inr v
    end.

Section Authenticate.
Context `{UuidLib} `{!Jwt}.
(** ResolveRequestContext, with everything but the identity given. *)
Variable resolve : uuid -> uuid -> string -> result error RequestContext.

(** A grant a token carries is folded into the context. *)
Definition apply_grant (claims : AccessClaims) (rc : RequestContext) : RequestContext :=
  match a_Scope claims with
  | Some scope => ApplyOAuthGrant rc scope (default "" (a_ClientID claims)) (is_some (a_ClientID claims))
  | None => rc
  end.

(** From verified claims to a context; the message tells what was wrong. *)
Definition context_of_claims (missing failed : string) (claims : AccessClaims) : string + RequestContext :=
  match uuid_Parse (a_TenantID claims), uuid_Parse (a_Subject claims) with
  | Some tenantID, Some userID =>
    match resolve tenantID userID (default "" (a_FunctionID claims)) with
    | Ok rc => inr (apply_grant claims rc)
    | _ => inl failed
    end
  | _, _ => inl missing
  end.

Definition authenticate (key : string) (now : Z) (r : AuthRequest) : authError + RequestContext :=
  match request_token r with
  | inl e => inl e
  | inr token =>
    match DecodeAccessToken key now 20 token with
    | None => inl (Unauthorized "Invalid or expired token.")
    | Some claims =>
      match context_of_claims "Token is missing required claims." "Failed to resolve roles." claims with
      | inl message => inl (Unauthorized message)
      | inr rc => inr rc
      end
    end
  end.

Definition requireAdmin (key : string) (now : Z) (r : AuthRequest) : authError + RequestContext :=
  match authenticate key now r with
  | inl e => inl e
  | inr rc =>
    if negb (IsAdmin rc) then inl (ForbiddenError "This action requires the admin role.")
    else if negb (ScopePermitsAdminSurface rc) then inl (ForbiddenError "This action requires the `admin` OAuth2 scope.")
    else inr rc
  end.

Definition requirePlatformAdmin (platformTenant : uuid) (key : string) (now : Z) (r : AuthRequest) : authError + RequestContext :=
  match authenticate key now r with
  | inl e => inl e
  | inr rc =>
    if negb (String.eqb (rc_TenantID rc) (uuid_String platformTenant)) || negb (bool_decide ("platform_admin" ∈ roles_of rc))
    then inl (ForbiddenError "This action requires the platform_admin role.")
    else if negb (ScopePermitsAdminSurface rc) then inl (ForbiddenError "This action requires the `admin` OAuth2 scope.")
    else inr rc
  end.

(** gRPC: the values of the metadata key authorization; [None] without metadata. *)
Definition grpc_authenticate (verifier : TokenVerifier) (now : Z) (authorization : option (list string)) : string + RequestContext :=
  match authorization with
  | None | Some [] => inl "missing authorization metadata"
  | Some (header :: _) =>
    match ParseBearer header with
    | None => inl "authorization metadata must be a Bearer token"
    | Some token =>
      match DecodeWithVerifier verifier now token None with
      | None => inl "invalid or expired token"
      | Some claims => context_of_claims "token is missing required claims" "failed to resolve roles" claims
      end
    end
  end.
End Authenticate.

(** ** Properties *)

Section Properties.
Context `{UuidLib} `{!UuidLaws _} `{!Jwt} `{!JwtLaws}.

Lemma DecodeAccessToken_minted key now now' leeway jti tenantID userID ttl scope clientID :
  (now' < now + ttl + leeway)%Z ->
  DecodeAccessToken key now' leeway (mintClaims key now jti tenantID userID ttl scope clientID)
  = Some (mkAccess (uuid_String userID) (uuid_String tenantID) None (omitempty jti) (omitempty scope) (omitempty clientID)).
Proof.
  intros Hexp. unfold DecodeAccessToken, mintClaims. rewrite jwt_open_sign. cbn [tw_aud tw_iss tw_exp].
  rewrite bool_decide_true by set_solver. rewrite (proj2 (Z.ltb_lt _ _)) by lia. done.
Qed.

Lemma DecodeAccessToken_expired key now now' leeway jti tenantID userID ttl scope clientID :
  (now + ttl + leeway <= now')%Z -> DecodeAccessToken key now' leeway (mintClaims key now jti tenantID userID ttl scope clientID) = None.
Proof.
  intros Hexp. unfold DecodeAccessToken, mintClaims. rewrite jwt_open_sign. cbn [tw_aud tw_iss tw_exp].
  rewrite (proj2 (Z.ltb_ge _ _)) by lia. by rewrite andb_false_r.
Qed.

(** The context of a bearer request with a minted token. *)
Lemma authenticate_minted resolve key now now' jti tenantID userID ttl scope clientID r rc :
  request_token r = inr (mintClaims key now jti tenantID userID ttl scope clientID) ->
  (now' < now + ttl + 20)%Z -> resolve tenantID userID "" = Ok rc ->
  authenticate resolve key now' r
  = inr (match omitempty scope with Some s => ApplyOAuthGrant rc s (default "" (omitempty clientID)) (is_some (omitempty clientID)) | None => rc end).
Proof.
  intros Hr Hexp Hres. unfold authenticate. rewrite Hr, DecodeAccessToken_minted by lia. unfold context_of_claims.
  cbn [a_TenantID a_Subject a_FunctionID default]. rewrite !uuid_parse_string, Hres. done.
Qed.

(** C21. A token minted for an OAuth2 grant with a scope authenticates as its
    user and tenant while it is fresh (its lifetime and twenty seconds), is
    refused afterwards, and everything the request may do is bounded by the scope:
    an entity action is permitted exactly when a token of the scope names it, and
    the administration surface exactly when the scope has admin. *)
Theorem scoped_token_is_bounded resolve key now now' jti tenantID userID ttl scope clientID r rc :
  scope <> "" -> request_token r = inr (MintOAuthAccessToken key now jti tenantID userID ttl scope clientID) ->
  resolve tenantID userID "" = Ok rc ->
  ((now' < now + ttl + 20)%Z ->
   exists rc', authenticate resolve key now' r = inr rc' /\ rc_TenantID rc' = rc_TenantID rc /\ rc_UserID rc' = rc_UserID rc /\
     (forall entity action, ScopePermits rc' entity action = existsb (scope_token_permits (scope_verb action) entity) (Fields scope)) /\
     ScopePermitsAdminSurface rc' = existsb (fun t => String.eqb t AdminScope) (Fields scope)) /\
  ((now + ttl + 20 <= now')%Z -> authenticate resolve key now' r = inl (Unauthorized "Invalid or expired token.")).
Proof.
  intros Hs Hr Hres. split.
  - intros Hexp. eexists. split; [by eapply authenticate_minted|]. unfold omitempty.
    rewrite (proj2 (String.eqb_neq _ _) Hs). split; [done|]. split; [done|].
    unfold ScopePermits, ScopePermitsAdminSurface. rewrite ApplyOAuthGrant_scope. done.
  - intros Hexp. unfold authenticate. rewrite Hr. unfold MintOAuthAccessToken. by rewrite DecodeAccessToken_expired by lia.
Qed.

(** A grant without a scope is an unrestricted session: the static signer
    leaves an empty scope out of the token, and authentication reads a token
    without a scope as an ordinary login. The request then has every right of
    the user, on every entity and on the administration surface, where the key-set
    signer's token for the same grant has none. *)
Lemma empty_scope_is_full_session resolve key now now' jti tenantID userID ttl clientID r rc :
  request_token r = inr (MintOAuthAccessToken key now jti tenantID userID ttl "" clientID) ->
  (now' < now + ttl + 20)%Z -> resolve tenantID userID "" = Ok rc -> OAuthScope rc = None ->
  authenticate resolve key now' r = inr rc /\
  (forall entity action, ScopePermits rc entity action = true) /\ ScopePermitsAdminSurface rc = true /\
  (forall decode, (forall leeway, decode leeway (MintScopedServiceOrUserJWT key now tenantID userID ttl "" clientID)
                     = DecodeAccessToken key now' leeway (MintScopedServiceOrUserJWT key now tenantID userID ttl "" clientID)) ->
     exists rc', context_of_claims resolve "token is missing required claims" "failed to resolve roles"
         (default (mkAccess "" "" None None None None)
            (DecodeWithVerifier (VerifierJwks 20 decode) now' (MintScopedServiceOrUserJWT key now tenantID userID ttl "" clientID) None)) = inr rc' /\
       (forall entity action, ScopePermits rc' entity action = false) /\ ScopePermitsAdminSurface rc' = false).
Proof.
  intros Hr Hexp Hres Hsc. split; [|split; [|split]].
  - rewrite (authenticate_minted _ _ _ _ _ _ _ _ _ _ _ _ Hr Hexp Hres). done.
  - intros entity action. unfold ScopePermits. by rewrite Hsc.
  - unfold ScopePermitsAdminSurface. by rewrite Hsc.
  - intros decode Hdec. unfold DecodeWithVerifier. cbn [default]. rewrite Hdec.
    unfold DecodeAccessToken, MintScopedServiceOrUserJWT, mintJwksClaims. rewrite jwt_open_sign. cbn [tw_aud tw_iss tw_exp].
    rewrite bool_decide_true by set_solver. rewrite (proj2 (Z.ltb_lt _ _)) by lia. cbn.
    unfold context_of_claims. cbn [a_TenantID a_Subject a_FunctionID default]. rewrite !uuid_parse_string, Hres.
    eexists. split; [done|]. unfold apply_grant. cbn [a_Scope a_ClientID default is_some].
    split; [intros entity action; unfold ScopePermits; by rewrite ApplyOAuthGrant_scope|].
    unfold ScopePermitsAdminSurface. by rewrite ApplyOAuthGrant_scope.
Qed.
End Properties.

(** A request that changes state and carries no authorization header is accepted
    only with a CSRF header equal to a non-empty CSRF cookie. *)
Lemma cookie_writes_need_csrf r token :
  request_token r = inr token -> rq_Authorization r = "" -> RequiresCSRFCheck (rq_Method r) = true ->
  rq_SessionCookie r = Some token /\ token <> "" /\ exists c, rq_CSRFCookie r = Some c /\ c <> "" /\ rq_CSRFHeader r = c.
Proof.
  unfold request_token. intros Hr Ha Hm. rewrite Ha in Hr. cbn in Hr. destruct (rq_SessionCookie r) as [v|]; [|done].
  destruct (String.eqb v "") eqn:Ev; [done|]. rewrite Hm in Hr. cbn [andb] in Hr.
  destruct (CSRFMatches _ _) eqn:Ec; [|done]. injection Hr as ->. apply String.eqb_neq in Ev. split; [done|]. split; [done|].
  unfold CSRFMatches in Ec. destruct (rq_CSRFCookie r) as [c|]; [|done]. unfold omitempty in Ec.
  destruct (String.eqb (rq_CSRFHeader r) ""); [done|]. apply andb_prop in Ec as [Hc%negb_true_iff%String.eqb_neq Hh%String.eqb_eq]. eauto.
Qed.

Section RoleProperties.
Context `{UuidLib}.

Lemma GetRolesForUser_elem rows t u role : role ∈ GetRolesForUser rows t u <-> (t, u, role) ∈ rows.
Proof.
  unfold GetRolesForUser. rewrite list_elem_of_In, in_map_iff. setoid_rewrite filter_In. setoid_rewrite bool_decide_eq_true.
  setoid_rewrite <- list_elem_of_In. split; [intros ([k v] & <- & Hin & Hk); cbn in *; by subst|]. intros Hin. by exists (t, u, role).
Qed.

(** Assigning a role gives exactly that role to exactly that user, and revoking
    takes exactly it away; no row is ever there twice. *)
Lemma roles_exact rows t u role t' u' role' :
  (role' ∈ GetRolesForUser (AssignRole rows t u role) t' u' <->
   role' ∈ GetRolesForUser rows t' u' \/ (t', u', role') = (t, u, role)) /\
  (role' ∈ GetRolesForUser (RevokeRole rows t u role) t' u' <->
   role' ∈ GetRolesForUser rows t' u' /\ (t', u', role') <> (t, u, role)) /\
  (NoDup rows -> NoDup (AssignRole rows t u role) /\ NoDup (RevokeRole rows t u role)).
Proof.
  rewrite !GetRolesForUser_elem. unfold AssignRole, RevokeRole. split; [|split].
  - case_bool_decide; [naive_solver|]. rewrite elem_of_app, list_elem_of_singleton. done.
  - rewrite !list_elem_of_In, filter_In, negb_true_iff, bool_decide_eq_false. done.
  - intros Hnd. split.
    + case_bool_decide; [done|]. apply NoDup_app. split; [done|]. split; [|apply NoDup_singleton].
      intros x Hx ->%list_elem_of_singleton. done.
    + apply NoDup_ListNoDup, List.NoDup_filter, NoDup_ListNoDup. done.
Qed.
End RoleProperties.

(** ** Witnesses *)

#[local] Existing Instance TestUuid.

(** A token that is the key followed by its claims, in binary. *)
#[export] Instance TokenWire_eq_dec : EqDecision TokenWire.
Proof. solve_decision. Defined.

#[export] Instance TokenWire_countable : Countable TokenWire.
Proof.
  refine (inj_countable'
    (fun w => (tw_sub w, tw_exp w, tw_iss w, tw_aud w, tw_jti w, tw_tenantId w, tw_functionId w, tw_scope w, tw_clientId w))
    (fun '(a, b, c, d, e, f, g, h, i) => mkWire a b c d e f g h i) _). by intros [].
Defined.

Fixpoint bits_text (p : positive) : string :=
  match p with xH => "" | xO q => String "0" (bits_text q) | xI q => String "1" (bits_text q) end.
Fixpoint text_bits (s : string) : positive :=
  match s with
  | EmptyString => xH
  | String c s' => if Ascii.eqb c "1" then xI (text_bits s') else xO (text_bits s')
  end.

Lemma text_bits_text p : text_bits (bits_text p) = p.
Proof. induction p as [p IH|p IH|]; simpl; by rewrite ?IH. Qed.

#[export] Instance TestJwt : Jwt := {
  jwt_sign key w := key +:+ "." +:+ bits_text (encode w);
  jwt_open key token := CutPrefix token (key +:+ ".") ≫= fun s => decode (text_bits s)
}.

#[export] Instance TestJwt_laws : JwtLaws.
Proof.
  constructor. intros key w. unfold jwt_open, jwt_sign, TestJwt. rewrite app_str_assoc, CutPrefix_app. cbn [mbind option_bind].
  by rewrite text_bits_text, decode_encode.
Qed.

Definition test_context : RequestContext := mkRequestContext "uuid-t1" "uuid-u1" (Some ["admin"]) true "" None "".
Definition test_resolve (t u : @uuid TestUuid) (f : string) : result error RequestContext := Ok test_context.

Definition scoped_token (scope : string) : string := MintOAuthAccessToken (H := TestUuid) "k" 100 "j" "t1" "u1" 3600 scope "mcl_1".
Definition with_token (token : string) : AuthRequest := mkAuthRequest "GET" "" (Some token) None "".

Lemma scoped_token_is_bounded_witness :
  exists rc', authenticate test_resolve "k" 200 (with_token (scoped_token "read:crm.lead")) = inr rc' /\ ScopePermitsAdminSurface rc' = false.
Proof.
  destruct (scoped_token_is_bounded test_resolve "k" 100 200 "j" "t1" "u1" 3600 "read:crm.lead" "mcl_1"
    (with_token (scoped_token "read:crm.lead")) test_context) as [Hf _]; [discriminate|reflexivity|reflexivity|].
  destruct Hf as (rc' & E & _ & _ & _ & Ha); [lia|]. exists rc'. split; [exact E|]. rewrite Ha. vm_compute. reflexivity.
Defined.

Lemma empty_scope_is_full_session_witness :
  authenticate test_resolve "k" 200 (with_token (scoped_token "")) = inr test_context /\ ScopePermitsAdminSurface test_context = true.
Proof.
  destruct (empty_scope_is_full_session test_resolve "k" 100 200 "j" "t1" "u1" 3600 "mcl_1" (with_token (scoped_token "")) test_context)
    as (H1 & _ & H3 & _); [reflexivity|lia|reflexivity|reflexivity|]. split; [exact H1|exact H3].
Defined.
