(* ===== verification/OAuth.v ===== *)
(** The OAuth2 authorization server's storage (src/go/oauthserver): clients,
    authorization codes, refresh tokens, pending authorizations, consents, PKCE,
    scopes and the sweep of expired rows.

    The digests are an interface, [OAuthCrypto]: what the code relies on is only
    that equal texts have equal digests. Random tokens, generated identifiers and
    the time are arguments. The tables are lists of rows in the order of
    insertion; a duplicate digest or identifier is refused by their unique
    constraints. An operation is a handler over the tables (Crud.v). *)
From S2P Require Import Prelude GoStrings GoText Json Floats Condition Context Uuid Evaluate Snapshot PermissionService PolicyStore Metadata Schema Router Payload Workflow AuditTrail Sql ConditionSql Jql Planner Records Crud.

Open Scope string_scope.
Open Scope list_scope.

Class OAuthCrypto := {
  HashToken : string -> string;
  (** SHA-256, base64url without padding *)
  s256 : string -> string
}.

(** ** Scopes (scope.go) and PKCE (pkce.go) *)

Definition ScopeTokens (scope : string) : list string := Fields scope.

Definition ScopeIsSubset (requested allowed : string) : bool :=
  forallb (fun t => bool_decide (t ∈ ScopeTokens allowed)) (ScopeTokens requested).

Definition VerifyPKCE `{OAuthCrypto} (codeVerifier codeChallenge : string) : bool := String.eqb (s256 codeVerifier) codeChallenge.

Definition AuthorizationCodeTTLSeconds : Z := 60.
Definition RefreshTokenTTLSeconds : Z := 30 * 24 * 3600.
Definition PendingAuthorizationTTLSeconds : Z := 10 * 60.
Definition CleanupGracePeriodSeconds : Z := 24 * 3600.
Definition DeleteBatchSize : nat := 5000.

Section OAuth.
Context `{UuidLib} `{!OAuthCrypto}.

(** ** The tables *)

Record OAuthClient : Type := mkClient {
  oc_ID : uuid;
  oc_TenantID : uuid;
  oc_ClientID : string;
  oc_Name : string;
  oc_RedirectURIs : list string;
  oc_AllowedScopes : list string;
  oc_IsConfidential : bool;
  oc_RevokedAt : option Z;
  oc_ServiceUserID : option uuid
}.

Record ClientWithSecret : Type := mkClientRow { cw_Client : OAuthClient; cw_SecretHash : string }.

(** What a code is issued for; a pending authorization has a state besides. *)
Record AuthorizationCode : Type := mkCode {
  ac_ID : uuid;
  ac_ClientID : uuid;
  ac_TenantID : uuid;
  ac_UserID : uuid;
  ac_RedirectURI : string;
  ac_Scope : string;
  ac_CodeChallenge : option string;
  ac_CodeChallengeMethod : option string
}.

Record CodeRow : Type := mkCodeRow {
  cd_Code : AuthorizationCode;
  cd_Hash : string;
  cd_ExpiresAt : Z;
  cd_UsedAt : option Z
}.

Record RefreshToken : Type := mkRefresh {
  rt_ID : uuid;
  rt_ClientID : uuid;
  rt_TenantID : uuid;
  rt_UserID : uuid;
  rt_Scope : string
}.

Record RefreshRow : Type := mkRefreshRow {
  rr_Token : RefreshToken;
  rr_Hash : string;
  rr_ExpiresAt : Z;
  rr_RevokedAt : option Z;
  rr_ReplacedBy : option uuid
}.

Record PendingAuthorization : Type := mkPending {
  pe_Code : AuthorizationCode;
  pe_ClientState : option string
}.

Record PendingRow : Type := mkPendingRow { pr_Pending : PendingAuthorization; pr_ExpiresAt : Z }.

Record OAuthTables : Type := mkTables {
  t_clients : list ClientWithSecret;
  t_codes : list CodeRow;
  t_refresh : list RefreshRow;
  t_pending : list PendingRow;
  t_consents : gmap (uuid * uuid) (uuid * string)
}.

Definition set_clients t x := mkTables x (t_codes t) (t_refresh t) (t_pending t) (t_consents t).
Definition set_codes t x := mkTables (t_clients t) x (t_refresh t) (t_pending t) (t_consents t).
Definition set_refresh t x := mkTables (t_clients t) (t_codes t) x (t_pending t) (t_consents t).
Definition set_pending t x := mkTables (t_clients t) (t_codes t) (t_refresh t) x (t_consents t).
Definition set_consents t x := mkTables (t_clients t) (t_codes t) (t_refresh t) (t_pending t) x.

Definition duplicate_key : error := "duplicate key value violates unique constraint".

(** Reading and replacing the tables. *)
Definition get_tables : Handler OAuthTables OAuthTables := fun t => (Ok t, t).
Definition put_tables (t : OAuthTables) : Handler OAuthTables unit := fun _ => (Ok tt, t).

(** UPDATE ... WHERE p: the rows of a list that satisfy [p] are changed. *)
Definition update_where {R} (p : R -> bool) (f : R -> R) (rows : list R) : list R :=
  map (fun r => if p r then f r else r) rows.

(** ** Clients (client.go) *)

Definition set_revoked (now : Z) (c : ClientWithSecret) : ClientWithSecret :=
  let k := cw_Client c in
  mkClientRow (mkClient (oc_ID k) (oc_TenantID k) (oc_ClientID k) (oc_Name k) (oc_RedirectURIs k) (oc_AllowedScopes k)
                 (oc_IsConfidential k) (Some now) (oc_ServiceUserID k)) (cw_SecretHash c).

Record CreateClientInput : Type := mkClientInput {
  ci_TenantID : uuid;
  ci_Name : string;
  ci_RedirectURIs : list string;
  ci_AllowedScopes : list string;
  ci_IsConfidential : bool;
  ci_ServiceUserID : uuid
}.

Definition CreateClient (newID : uuid) (rawID clientSecret : string) (input : CreateClientInput)
  : Handler OAuthTables (OAuthClient * string) :=
  let* t := get_tables in
  let clientID := "mcl_" +:+ rawID in
  let client := mkClient newID (ci_TenantID input) clientID (ci_Name input) (ci_RedirectURIs input) (ci_AllowedScopes input)
                  (ci_IsConfidential input) None (Some (ci_ServiceUserID input)) in
  if existsb (fun c => String.eqb (oc_ClientID (cw_Client c)) clientID || bool_decide (oc_ID (cw_Client c) = newID)) (t_clients t)
  then hfail duplicate_key
  else
    let* _ := put_tables (set_clients t (t_clients t ++ [mkClientRow client (HashToken clientSecret)])) in
    hret (client, clientSecret).

Definition GetClientByClientID (t : OAuthTables) (clientID : string) : option ClientWithSecret :=
  List.find (fun c => String.eqb (oc_ClientID (cw_Client c)) clientID) (t_clients t).

Definition is_none_Z (o : option Z) : bool := match o with None => true | Some _ => false end.

Definition ListClients (t : OAuthTables) (tenantID : uuid) : list OAuthClient :=
  map cw_Client (List.filter (fun c => bool_decide (oc_TenantID (cw_Client c) = tenantID) && is_none_Z (oc_RevokedAt (cw_Client c))) (t_clients t)).

Definition RevokeClient (now : Z) (tenantID id : uuid) : Handler OAuthTables bool :=
  let* t := get_tables in
  let p c := bool_decide (oc_ID (cw_Client c) = id) && bool_decide (oc_TenantID (cw_Client c) = tenantID)
             && is_none_Z (oc_RevokedAt (cw_Client c)) in
  let* _ := put_tables (set_clients t (update_where p (set_revoked now) (t_clients t))) in
  hret (existsb p (t_clients t)).

Definition VerifyClientSecret (client : ClientWithSecret) (rawSecret : string) : bool :=
  is_none_Z (oc_RevokedAt (cw_Client client)) && String.eqb (HashToken rawSecret) (cw_SecretHash client).

(** ** Authorization codes (code.go) *)

Definition CreateAuthorizationCode (now : Z) (rawCode : string) (code : AuthorizationCode) : Handler OAuthTables (AuthorizationCode * string) :=
  let* t := get_tables in
  if existsb (fun r => String.eqb (cd_Hash r) (HashToken rawCode)) (t_codes t) then hfail duplicate_key
  else
    let row := mkCodeRow code (HashToken rawCode) (now + AuthorizationCodeTTLSeconds) None in
    let* _ := put_tables (set_codes t (t_codes t ++ [row])) in
    hret (code, rawCode).

Definition code_matches (now : Z) (rawCode : string) (clientID : uuid) (redirectURI : string) (r : CodeRow) : bool :=
  String.eqb (cd_Hash r) (HashToken rawCode) && bool_decide (ac_ClientID (cd_Code r) = clientID)
  && String.eqb (ac_RedirectURI (cd_Code r)) redirectURI && is_none_Z (cd_UsedAt r) && (now <? cd_ExpiresAt r)%Z.

Definition set_used (now : Z) (r : CodeRow) : CodeRow := mkCodeRow (cd_Code r) (cd_Hash r) (cd_ExpiresAt r) (Some now).

(** One UPDATE: the row it returns is the one it changed. *)
Definition ConsumeAuthorizationCode (now : Z) (rawCode : string) (clientID : uuid) (redirectURI : string)
  : Handler OAuthTables (option AuthorizationCode) :=
  let* t := get_tables in
  let p := code_matches now rawCode clientID redirectURI in
  let* _ := put_tables (set_codes t (update_where p (set_used now) (t_codes t))) in
  hret (cd_Code <$> List.find p (t_codes t)).

(** ** Refresh tokens (refresh.go) *)

Definition CreateRefreshToken (now : Z) (rawToken : string) (token : RefreshToken) : Handler OAuthTables (RefreshToken * string) :=
  let* t := get_tables in
  if existsb (fun r => String.eqb (rr_Hash r) (HashToken rawToken) || bool_decide (rt_ID (rr_Token r) = rt_ID token)) (t_refresh t)
  then hfail duplicate_key
  else
    let row := mkRefreshRow token (HashToken rawToken) (now + RefreshTokenTTLSeconds) None None in
    let* _ := put_tables (set_refresh t (t_refresh t ++ [row])) in
    hret (token, rawToken).

Inductive ConsumeRefreshOutcome : Type :=
| RefreshRotated (record : RefreshToken) (rawToken : string)
| RefreshInvalid
| RefreshReused.

Definition revoke_row (now : Z) (r : RefreshRow) : RefreshRow :=
  mkRefreshRow (rr_Token r) (rr_Hash r) (rr_ExpiresAt r) (Some now) (rr_ReplacedBy r).
Definition replace_row (now : Z) (by_ : uuid) (r : RefreshRow) : RefreshRow :=
  mkRefreshRow (rr_Token r) (rr_Hash r) (rr_ExpiresAt r) (Some now) (Some by_).

(** The SELECT: it takes no lock. *)
Definition find_refresh (t : OAuthTables) (rawToken : string) (clientID : uuid) : option RefreshRow :=
  List.find (fun r => String.eqb (rr_Hash r) (HashToken rawToken) && bool_decide (rt_ClientID (rr_Token r) = clientID)) (t_refresh t).

Definition chain_row (clientID userID : uuid) (r : RefreshRow) : bool :=
  bool_decide (rt_ClientID (rr_Token r) = clientID) && bool_decide (rt_UserID (rr_Token r) = userID) && is_none_Z (rr_RevokedAt r).

(** What follows the SELECT, with the row it read. *)
Definition rotate (now : Z) (newID : uuid) (newToken : string) (clientID : uuid) (found : option RefreshRow)
  : Handler OAuthTables ConsumeRefreshOutcome :=
  match found with
  | None => hret RefreshInvalid
  | Some row =>
    let k := rr_Token row in
    if negb (is_none_Z (rr_RevokedAt row)) then
      let* t := get_tables in
      let* _ := put_tables (set_refresh t (update_where (chain_row clientID (rt_UserID k)) (revoke_row now) (t_refresh t))) in
      hret RefreshReused
    else if negb (now <? rr_ExpiresAt row)%Z then hret RefreshInvalid
    else
      let* (record, raw) := CreateRefreshToken now newToken (mkRefresh newID clientID (rt_TenantID k) (rt_UserID k) (rt_Scope k)) in
      let* t := get_tables in
      let* _ := put_tables (set_refresh t (update_where (fun r => bool_decide (rt_ID (rr_Token r) = rt_ID k)) (replace_row now newID) (t_refresh t))) in
      hret (RefreshRotated record raw)
  end.

Definition ConsumeRefreshToken (now : Z) (newID : uuid) (newToken rawToken : string) (clientID : uuid)
  : Handler OAuthTables ConsumeRefreshOutcome :=
  let* t := get_tables in
  rotate now newID newToken clientID (find_refresh t rawToken clientID).

Definition RevokeRefreshToken (now : Z) (rawToken : string) (clientID : uuid) : Handler OAuthTables unit :=
  let* t := get_tables in
  put_tables (set_refresh t (update_where (fun r => String.eqb (rr_Hash r) (HashToken rawToken)
    && bool_decide (rt_ClientID (rr_Token r) = clientID) && is_none_Z (rr_RevokedAt r)) (revoke_row now) (t_refresh t))).

(** ** Consent (consent.go) *)

Definition CreatePendingAuthorization (now : Z) (p : PendingAuthorization) : Handler OAuthTables PendingAuthorization :=
  let* t := get_tables in
  if existsb (fun r => bool_decide (ac_ID (pe_Code (pr_Pending r)) = ac_ID (pe_Code p))) (t_pending t) then hfail duplicate_key
  else
    let* _ := put_tables (set_pending t (t_pending t ++ [mkPendingRow p (now + PendingAuthorizationTTLSeconds)])) in
    hret p.

Definition GetPendingAuthorization (now : Z) (t : OAuthTables) (id : uuid) : option PendingAuthorization :=
  pr_Pending <$> List.find (fun r => bool_decide (ac_ID (pe_Code (pr_Pending r)) = id) && (now <? pr_ExpiresAt r)%Z) (t_pending t).

Definition pending_matches (now : Z) (id tenantID userID : uuid) (r : PendingRow) : bool :=
  bool_decide (ac_ID (pe_Code (pr_Pending r)) = id) && bool_decide (ac_TenantID (pe_Code (pr_Pending r)) = tenantID)
  && bool_decide (ac_UserID (pe_Code (pr_Pending r)) = userID) && (now <? pr_ExpiresAt r)%Z.

Definition ConsumePendingAuthorization (now : Z) (id tenantID userID : uuid) : Handler OAuthTables (option PendingAuthorization) :=
  let* t := get_tables in
  let p := pending_matches now id tenantID userID in
  let* _ := put_tables (set_pending t (List.filter (fun r => negb (p r)) (t_pending t))) in
  hret (pr_Pending <$> List.find p (t_pending t)).

Definition GetConsentScope (t : OAuthTables) (clientID userID : uuid) : option string :=
  snd <$> t_consents t !! (clientID, userID).

(** One turn of the merging loop. *)
Definition merge_token (tokens : list string) (t : string) : list string :=
  if bool_decide (t ∈ tokens) then tokens else tokens ++ [t].

Definition merged_scope (existing : option string) (approved : string) : string :=
  match existing with
  | Some scope => Join (fold_left merge_token (ScopeTokens approved) (ScopeTokens scope)) " "
  | None => approved
  end.

Definition RecordConsent (tenantID clientID userID : uuid) (approved : string) : Handler OAuthTables unit :=
  let* t := get_tables in
  let merged := merged_scope (GetConsentScope t clientID userID) approved in
  let tenant := match t_consents t !! (clientID, userID) with Some (old, _) => old | None => tenantID end in
  put_tables (set_consents t (<[(clientID, userID) := (tenant, merged)]> (t_consents t))).

(** ** The sweep (cleanup.go)

    A statement deletes at most [batchSize] of the rows that match; which ones is
    Postgres's choice, [pick]. It is refused when a row that stays refers to a
    row that goes. *)

Definition code_expired (cutoff : Z) (r : CodeRow) : bool := (cd_ExpiresAt r <? cutoff)%Z.
Definition pending_expired (cutoff : Z) (r : PendingRow) : bool := (pr_ExpiresAt r <? cutoff)%Z.
Definition refresh_expired (cutoff : Z) (r : RefreshRow) : bool :=
  (rr_ExpiresAt r <? cutoff)%Z || match rr_RevokedAt r with Some at_ => (at_ <? cutoff)%Z | None => false end.

Definition code_key (r : CodeRow) : uuid := ac_ID (cd_Code r).
Definition refresh_key (r : RefreshRow) : uuid := rt_ID (rr_Token r).
Definition pending_key (r : PendingRow) : uuid := ac_ID (pe_Code (pr_Pending r)).

Section Batches.
Context {R : Type} (key : R -> uuid) (refers : R -> option uuid) (expired : R -> bool).
Context (pick : nat -> list R -> list uuid) (batchSize : nat).

Definition foreign_key_error : error := "update or delete on table violates foreign key constraint".

(** The identifiers one statement deletes. *)
Definition delete_batch (rows : list R) : list uuid := pick batchSize (List.filter expired rows).

Definition remaining (ids : list uuid) (rows : list R) : list R := List.filter (fun r => negb (bool_decide (key r ∈ ids))) rows.

Definition dangling (ids : list uuid) (rows : list R) : bool :=
  existsb (fun r => match refers r with Some id => bool_decide (id ∈ ids) | None => false end) (remaining ids rows).

(** for { ... }: a statement that deletes a full batch deletes a row, so one unit
    of fuel per row and one more are enough. *)
Fixpoint delete_loop (fuel : nat) (rows : list R) (total : nat) : result error nat * list R :=
  match fuel with
  | O => (Panic, rows)
  | S fuel' =>
    let ids := delete_batch rows in
    if dangling ids rows then (Err foreign_key_error, rows)
    else
      let rows' := remaining ids rows in
      let deleted := (length rows - length rows')%nat in
      if (deleted <? batchSize)%nat then (Ok (total + deleted)%nat, rows')
      else delete_loop fuel' rows' (total + deleted)%nat
  end.

Definition deleteInBatches (rows : list R) : result error nat * list R := delete_loop (S (length rows)) rows 0.
End Batches.

Record CleanupCounts : Type := mkCounts {
  AuthorizationCodesDeleted : nat;
  RefreshTokensDeleted : nat;
  PendingAuthorizationsDeleted : nat
}.

(** Postgres's choices for the three tables. *)
Record Picks : Type := mkPicks {
  pick_codes : nat -> list CodeRow -> list uuid;
  pick_refresh : nat -> list RefreshRow -> list uuid;
  pick_pending : nat -> list PendingRow -> list uuid
}.

Definition DeleteExpiredInBatches (picks : Picks) (now : Z) (batchSize : nat) : Handler OAuthTables CleanupCounts :=
  fun t =>
    let batchSize := Nat.max 1 batchSize in
    let cutoff := (now - CleanupGracePeriodSeconds)%Z in
    match deleteInBatches code_key (fun _ => None) (code_expired cutoff) (pick_codes picks) batchSize (t_codes t) with
    | (Ok codes, cs) =>
      let t1 := set_codes t cs in
      match deleteInBatches refresh_key rr_ReplacedBy (refresh_expired cutoff) (pick_refresh picks) batchSize (t_refresh t1) with
      | (Ok tokens, rs) =>
        let t2 := set_refresh t1 rs in
        match deleteInBatches pending_key (fun _ => None) (pending_expired cutoff) (pick_pending picks) batchSize (t_pending t2) with
        | (Ok pending, ps) => (Ok (mkCounts codes tokens pending), set_pending t2 ps)
        | (Err e, ps) => (Err (Failed e), set_pending t2 ps)
        | (Panic, ps) => (Panic, set_pending t2 ps)
        end
      | (Err e, rs) => (Err (Failed e), set_refresh t1 rs)
      | (Panic, rs) => (Panic, set_refresh t1 rs)
      end
    | (Err e, cs) => (Err (Failed e), set_codes t cs)
    | (Panic, cs) => (Panic, set_codes t cs)
    end.

Definition DeleteExpired (picks : Picks) (now : Z) : Handler OAuthTables CleanupCounts := DeleteExpiredInBatches picks now DeleteBatchSize.
End OAuth.
