(* ===== verification/OAuthRoutes.v ===== *)
(** The OAuth2 endpoints (src/go/httpserver/routes_oauth2.go): authorize, the
    consent decision, the token endpoint with its three grants, revocation and the
    administration of clients.

    A request is what the handlers read of it: who is authenticated, its query or
    form values (the empty text when a value is missing), its authorization
    header. The response is a value; the text of the consent page is left out, it
    shows the client's name and the requested scope. Tokens, identifiers and the
    time a request draws are in [Draws]. *)
From S2P Require Import Prelude GoStrings GoText Json Floats Condition Context Uuid Evaluate Snapshot PermissionService PolicyStore Metadata Schema Router Payload Workflow AuditTrail Sql ConditionSql Jql Planner Records Crud Authn OAuth.

Open Scope string_scope.
Open Scope list_scope.

(** ** Texts *)

Definition hex_upper (n : N) : ascii :=
  ascii_of_N (if (n <? 10)%N then 48 + n else 55 + n)%N.

Definition unreserved (c : ascii) : bool :=
  let b := N_of_ascii c in
  is_upper b || is_lower b || is_digit b || Ascii.eqb c "-" || Ascii.eqb c "_" || Ascii.eqb c "." || Ascii.eqb c "~".

Fixpoint percentEncode (s : string) : string :=
  match s with
  | EmptyString => ""
  | String c s' =>
    if unreserved c then String c (percentEncode s')
    else let b := N_of_ascii c in
         String "%" (String (hex_upper (b / 16)) (String (hex_upper (b mod 16)) (percentEncode s')))
  end.

Definition withQuerySep (redirectURI : string) : string := if ContainsByte redirectURI "?" then "&" else "?".

Definition state_suffix (clientState : option string) : string :=
  match clientState with Some s => "&state=" +:+ percentEncode s | None => "" end.

Definition deniedRedirect (redirectURI : string) (clientState : option string) : string :=
  redirectURI +:+ withQuerySep redirectURI +:+ "error=access_denied" +:+ state_suffix clientState.

Definition code_redirect (redirectURI rawCode : string) (clientState : option string) : string :=
  redirectURI +:+ withQuerySep redirectURI +:+ "code=" +:+ percentEncode rawCode +:+ state_suffix clientState.

(** base64.StdEncoding.DecodeString. *)
Definition b64_value (c : ascii) : option N :=
  let b := N_of_ascii c in
  if is_upper b then Some (b - 65)%N
  else if is_lower b then Some (b - 71)%N
  else if is_digit b then Some (b + 4)%N
  else if Ascii.eqb c "+" then Some 62%N
  else if Ascii.eqb c "/" then Some 63%N
  else None.

Fixpoint b64_quads (l : list ascii) : option string :=
  match l with
  | [] => Some ""
  | a :: b :: c :: d :: rest =>
    match b64_value a, b64_value b with
    | Some x, Some y =>
      let first := ascii_of_N ((x * 4 + y / 16) mod 256) in
      if Ascii.eqb c "=" then
        match d, rest with
        | "="%char, [] => Some (String first "")
        | _, _ => None
        end
      else
        match b64_value c with
        | None => None
        | Some z =>
          let second := ascii_of_N ((y * 16 + z / 4) mod 256) in
          if Ascii.eqb d "=" then match rest with [] => Some (String first (String second "")) | _ => None end
          else
            match b64_value d, b64_quads rest with
            | Some w, Some s => Some (String first (String second (String (ascii_of_N ((z * 64 + w) mod 256)) s)))
            | _, _ => None
            end
        end
    | _, _ => None
    end
  | _ => None
  end.

Definition is_newline (c : ascii) : bool := (N_of_ascii c =? 10)%N || (N_of_ascii c =? 13)%N.
Definition b64_decode (s : string) : option string :=
  b64_quads (List.filter (fun c => negb (is_newline c)) (String.list_ascii_of_string s)).

(** ** Requests and responses *)

Section Routes.
Context `{UuidLib} `{!OAuthCrypto} `{!Jwt}.

Record OAuthRequest : Type := mkOAuthRequest {
  or_auth : authError + RequestContext;
  or_header : string;
  or_value : string -> string
}.

(** What one request draws: the time, two identifiers, the random texts, the
    identifier of the access token; and the key tokens are signed with. *)
Record Draws : Type := mkDraws {
  dr_now : Z;
  dr_id : uuid;
  dr_token : string;
  dr_secret : string;
  dr_jti : string;
  dr_serviceUser : result error uuid
}.

Record oauthTokenResponse : Type := mkTokenResponse {
  tr_AccessToken : string;
  tr_TokenType : string;
  tr_ExpiresIn : Z;
  tr_RefreshToken : option string;
  tr_Scope : string
}.

Inductive OAuthResponse : Type :=
| Redirected (url : string)
| ConsentPage (clientName : string) (scopes : list string) (requestID : uuid)
| Decided (redirectTo : string)
| TokenIssued (response : oauthTokenResponse)
| TokenRevoked
| ClientCreated (client : OAuthClient) (clientSecret : string)
| ClientList (clients : list OAuthClient)
| ClientRevoked.

Variable key : string.
Local Notation Handle := (Handler OAuthTables OAuthResponse).

Definition bad (status : Z) (code message : string) {B} : Handler OAuthTables B := refuse (ResultErrWithMessage status code message).

Definition auth_refusal {B} (e : authError) : Handler OAuthTables B :=
  match e with
  | Unauthorized m => bad 401 "unauthorized" m
  | ForbiddenError m => bad 403 "forbidden" m
  end.

Definition require_auth (r : OAuthRequest) : Handler OAuthTables RequestContext :=
  match or_auth r with inr rc => hret rc | inl e => auth_refusal e end.

(** requireAdmin, after the authentication. *)
Definition require_admin (r : OAuthRequest) : Handler OAuthTables RequestContext :=
  let* rc := require_auth r in
  if negb (IsAdmin rc) then auth_refusal (ForbiddenError "This action requires the admin role.")
  else if negb (ScopePermitsAdminSurface rc) then auth_refusal (ForbiddenError "This action requires the `admin` OAuth2 scope.")
  else hret rc.

Definition oauthAccessTokenTTLSeconds : Z := 3600.

Definition MintOAuthToken (d : Draws) (tenantID userID : uuid) (scope clientID : string) : string :=
  MintOAuthAccessToken key (dr_now d) (dr_jti d) tenantID userID oauthAccessTokenTTLSeconds scope clientID.

(** ** Authorize *)

Definition issueAuthorizationCode (d : Draws) (code : AuthorizationCode) (clientState : option string) : Handler OAuthTables string :=
  let* (_, rawCode) := CreateAuthorizationCode (dr_now d) (dr_token d) code in
  hret (code_redirect (ac_RedirectURI code) rawCode clientState).

(** The checks on the client and on the request, in their order. *)
Definition authorize_checks (tenantID : uuid) (client : OAuthClient) (redirectURI scope : string)
    (challenge method : option string) : Handler OAuthTables unit :=
  if is_some (oc_RevokedAt client) then bad 400 "invalid_client" "This client has been revoked."
  else if negb (bool_decide (oc_TenantID client = tenantID)) then bad 403 "invalid_client" "This client does not belong to your tenant."
  else if negb (bool_decide (redirectURI ∈ oc_RedirectURIs client))
  then bad 400 "invalid_request" "redirect_uri is not registered for this client."
  else if match method with Some m => negb (String.eqb m "S256") | None => false end
  then bad 400 "invalid_request" "Only code_challenge_method=S256 is supported."
  else if negb (oc_IsConfidential client) && is_none challenge
  then bad 400 "invalid_request" "code_challenge (PKCE) is required for a public client."
  else if negb (ScopeIsSubset scope (Join (oc_AllowedScopes client) " "))
  then bad 400 "invalid_scope" "Requested scope exceeds what this client is allowed to request."
  else hret tt.

Definition authorizeOAuth2 (d : Draws) (r : OAuthRequest) : Handle :=
  let* rc := require_auth r in
  if negb (String.eqb (or_value r "response_type") "code")
  then bad 400 "unsupported_response_type" "Only response_type=code is supported."
  else
    let* tenantID := hlift (ScopedTenant rc) in
    match uuid_Parse (rc_UserID rc) with
    | None => bad 401 "unauthorized" "A user session is required to authorize a client."
    | Some userID =>
      let redirectURI := or_value r "redirect_uri" in
      let scope := or_value r "scope" in
      let clientState := omitempty (or_value r "state") in
      let challenge := omitempty (or_value r "code_challenge") in
      let method := omitempty (or_value r "code_challenge_method") in
      let* t := get_tables in
      match GetClientByClientID t (or_value r "client_id") with
      | None => bad 400 "invalid_client" "Unknown client_id."
      | Some withSecret =>
        let client := cw_Client withSecret in
        let* _ := authorize_checks tenantID client redirectURI scope challenge method in
        let code := mkCode (dr_id d) (oc_ID client) tenantID userID redirectURI scope challenge method in
        let consented := match GetConsentScope t (oc_ID client) userID with
                         | Some s => ScopeIsSubset scope s
                         | None => false
                         end in
        if consented then
          let* url := issueAuthorizationCode d code clientState in
          hret (Redirected url)
        else
          let* p := CreatePendingAuthorization (dr_now d) (mkPending code clientState) in
          hret (ConsentPage (oc_Name client) (ScopeTokens scope) (ac_ID (pe_Code p)))
      end
    end.

(** The decision; [None] for a body that does not decode. *)
Definition authorizeDecision (d : Draws) (r : OAuthRequest) (body : option (uuid * bool)) : Handle :=
  let* rc := require_auth r in
  match body with
  | None => bad 400 "validation_failed" "Invalid request body."
  | Some (requestID, approve) =>
    let* tenantID := hlift (ScopedTenant rc) in
    match uuid_Parse (rc_UserID rc) with
    | None => bad 401 "unauthorized" "A user session is required."
    | Some userID =>
      let* pending := ConsumePendingAuthorization (dr_now d) requestID tenantID userID in
      match pending with
      | None => bad 400 "invalid_request" "This authorization request has expired or was already decided. Please start over."
      | Some p =>
        let c := pe_Code p in
        if negb approve then hret (Decided (deniedRedirect (ac_RedirectURI c) (pe_ClientState p)))
        else
          let* _ := RecordConsent tenantID (ac_ClientID c) userID (ac_Scope c) in
          let* url := issueAuthorizationCode d
            (mkCode (dr_id d) (ac_ClientID c) tenantID userID (ac_RedirectURI c) (ac_Scope c) (ac_CodeChallenge c) (ac_CodeChallengeMethod c))
            (pe_ClientState p) in
          hret (Decided url)
      end
    end
  end.

(** ** The token endpoint *)

Definition extractClientAuth (r : OAuthRequest) : option (string * string) :=
  let basic := b64 ← CutPrefix (or_header r) "Basic "; decoded ← b64_decode b64; Cut decoded ":" in
  match basic with
  | Some p => Some p
  | None =>
    let id := or_value r "client_id" in
    let secret := or_value r "client_secret" in
    if negb (String.eqb id "") && negb (String.eqb secret "") then Some (id, secret) else None
  end.

Definition authenticateOAuthClient (r : OAuthRequest) : Handler OAuthTables ClientWithSecret :=
  match extractClientAuth r with
  | None => bad 401 "invalid_client" "Client authentication is required."
  | Some (id, secret) =>
    let* t := get_tables in
    match GetClientByClientID t id with
    | None => bad 401 "invalid_client" "Unknown client."
    | Some client =>
      if VerifyClientSecret client secret then hret client else bad 401 "invalid_client" "Invalid client credentials."
    end
  end.

Definition clientCredentialsGrant (d : Draws) (client : OAuthClient) : Handle :=
  if negb (oc_IsConfidential client) then bad 400 "unauthorized_client" "client_credentials requires a confidential client."
  else
    match oc_ServiceUserID client with
    | None => bad 400 "unauthorized_client" "This client has no service account provisioned; re-register it to use client_credentials."
    | Some serviceUser =>
      let requestedScope := "" in
      if negb (ScopeIsSubset requestedScope (Join (oc_AllowedScopes client) " "))
      then bad 400 "invalid_scope" "Requested scope exceeds what this client is allowed to request."
      else hret (TokenIssued (mkTokenResponse (MintOAuthToken d (oc_TenantID client) serviceUser requestedScope (oc_ClientID client))
                   "Bearer" oauthAccessTokenTTLSeconds None requestedScope))
    end.

(** The PKCE check of a redeemed code. *)
Definition check_pkce (r : OAuthRequest) (record : AuthorizationCode) : Handler OAuthTables unit :=
  match ac_CodeChallenge record with
  | None => hret tt
  | Some challenge =>
    let verifier := or_value r "code_verifier" in
    if String.eqb verifier "" then bad 400 "invalid_grant" "code_verifier is required for this authorization code."
    else if negb (VerifyPKCE verifier challenge) then bad 400 "invalid_grant" "code_verifier does not match code_challenge."
    else hret tt
  end.

Definition authorizationCodeGrant (d : Draws) (r : OAuthRequest) (client : OAuthClient) : Handle :=
  let code := or_value r "code" in
  let redirectURI := or_value r "redirect_uri" in
  if String.eqb code "" || String.eqb redirectURI "" then bad 400 "invalid_request" "code and redirect_uri are required."
  else
    let* consumed := ConsumeAuthorizationCode (dr_now d) code (oc_ID client) redirectURI in
    match consumed with
    | None => bad 400 "invalid_grant" "Invalid, expired, or already-used authorization code."
    | Some record =>
      let* _ := check_pkce r record in
      let accessToken := MintOAuthToken d (ac_TenantID record) (ac_UserID record) (ac_Scope record) (oc_ClientID client) in
      let* (_, rawRefresh) := CreateRefreshToken (dr_now d) (dr_token d)
        (mkRefresh (dr_id d) (oc_ID client) (ac_TenantID record) (ac_UserID record) (ac_Scope record)) in
      hret (TokenIssued (mkTokenResponse accessToken "Bearer" oauthAccessTokenTTLSeconds (Some rawRefresh) (ac_Scope record)))
    end.

(** The transaction of the grant commits on rotation and on reuse. *)
Definition refreshTokenGrant (d : Draws) (r : OAuthRequest) (client : OAuthClient) : Handle :=
  let rawRefresh := or_value r "refresh_token" in
  if String.eqb rawRefresh "" then bad 400 "invalid_request" "refresh_token is required."
  else fun t =>
    match ConsumeRefreshToken (dr_now d) (dr_id d) (dr_token d) rawRefresh (oc_ID client) t with
    | (Ok RefreshInvalid, _) => bad 400 "invalid_grant" "Invalid, expired, or revoked refresh token." t
    | (Ok RefreshReused, t') =>
      bad 400 "invalid_grant" "Refresh token reuse detected; this client's token chain has been revoked. The user must re-authorize." t'
    | (Ok (RefreshRotated record rawToken), t') =>
      let requestedScope := if String.eqb (or_value r "scope") "" then rt_Scope record else or_value r "scope" in
      if negb (ScopeIsSubset requestedScope (rt_Scope record))
      then bad 400 "invalid_scope" "Requested scope exceeds the originally granted scope." t
      else (Ok (TokenIssued (mkTokenResponse
                  (MintOAuthToken d (rt_TenantID record) (rt_UserID record) requestedScope (oc_ClientID client))
                  "Bearer" oauthAccessTokenTTLSeconds (Some rawToken) requestedScope)), t')
    | (Err e, _) => (Err e, t)
    | (Panic, _) => (Panic, t)
    end.

Definition tokenEndpoint (d : Draws) (r : OAuthRequest) : Handle :=
  let* withSecret := authenticateOAuthClient r in
  let client := cw_Client withSecret in
  if is_some (oc_RevokedAt client) then bad 401 "invalid_client" "This client has been revoked."
  else
    let grant := or_value r "grant_type" in
    if String.eqb grant "authorization_code" then authorizationCodeGrant d r client
    else if String.eqb grant "refresh_token" then refreshTokenGrant d r client
    else if String.eqb grant "client_credentials" then clientCredentialsGrant d client
    else bad 400 "unsupported_grant_type" "Only authorization_code, refresh_token, and client_credentials are supported.".

Definition revokeEndpoint (d : Draws) (r : OAuthRequest) : Handle :=
  let* withSecret := authenticateOAuthClient r in
  let* _ := RevokeRefreshToken (dr_now d) (or_value r "token") (oc_ID (cw_Client withSecret)) in
  hret TokenRevoked.

(** ** Administration *)

Record createOAuthClientBody : Type := mkClientBody {
  cb_Name : string;
  cb_RedirectURIs : list string;
  cb_AllowedScopes : list string;
  cb_IsConfidential : option bool
}.

Definition createOAuthClientAdmin (d : Draws) (r : OAuthRequest) (body : option createOAuthClientBody) : Handle :=
  let* rc := require_admin r in
  match body with
  | None => bad 400 "validation_failed" "Invalid request body."
  | Some b =>
    let* tenantID := hlift (ScopedTenant rc) in
    let isConfidential := match cb_IsConfidential b with None => true | Some c => c end in
    let* serviceUser := hlift (dr_serviceUser d) in
    let* (client, secret) := CreateClient (dr_id d) (dr_token d) (dr_secret d)
      (mkClientInput tenantID (cb_Name b) (cb_RedirectURIs b) (cb_AllowedScopes b) isConfidential serviceUser) in
    hret (ClientCreated client secret)
  end.

Definition listOAuthClientsAdmin (r : OAuthRequest) : Handle :=
  let* rc := require_admin r in
  let* tenantID := hlift (ScopedTenant rc) in
  let* t := get_tables in
  hret (ClientList (ListClients t tenantID)).

(** [None] for an id that does not parse. *)
Definition revokeOAuthClientAdmin (d : Draws) (r : OAuthRequest) (id : option uuid) : Handle :=
  let* rc := require_admin r in
  match id with
  | None => bad 404 "not_found" "No such client in your tenant."
  | Some id =>
    let* tenantID := hlift (ScopedTenant rc) in
    let* revoked := RevokeClient (dr_now d) tenantID id in
    if revoked then hret ClientRevoked else bad 404 "not_found" "No such client in your tenant."
  end.
End Routes.
