(* ===== verification/OAuthProps.v ===== *)
(** What the OAuth2 server guarantees: every code, pending authorization and
    refresh token stays within its client's registration, whatever requests are
    served in whatever order; codes are redeemed once; a replayed refresh token
    ends its chain; the sweep deletes exactly what has expired. And where it does
    not: concurrent rotation, replay after the sweep, consent given by a scoped
    token, and the sweep's foreign key. *)
From S2P Require Import Prelude GoStrings GoText Json Floats Condition Context Uuid Evaluate Snapshot PermissionService PolicyStore Metadata Schema Router Payload Workflow AuditTrail Sql ConditionSql Jql Planner Records Crud Authn OAuth OAuthRoutes.

Open Scope string_scope.
Open Scope list_scope.

Section Handlers.
Context {W : Type}.

(** A handler that leaves the state as it is. *)
Definition only_reads {B} (m : Handler W B) : Prop := forall w, snd (m w) = w.

Lemma only_reads_ret {B} (b : B) : only_reads (hret b).
Proof. done. Qed.
Lemma only_reads_refuse {B} e : only_reads (B := B) (refuse e).
Proof. done. Qed.
Lemma only_reads_lift {B} (r : result error B) : only_reads (hlift r).
Proof. intros w. unfold hlift. by destruct r. Qed.

(** A property of what a handler returns and leaves, step by step. *)
Lemma bind_reads {B D} (P : result exit D * W -> Prop) (m : Handler W B) (k : B -> Handler W D) w :
  only_reads m -> (forall e, P (Err e, w)) -> P (Panic, w) ->
  (forall b, fst (m w) = Ok b -> P (k b w)) -> P (hbind m k w).
Proof.
  intros Hr He Hp Hk. unfold hbind. specialize (Hr w). destruct (m w) as [[b|e|] w']; cbn in *; subst w'; auto.
Qed.

Lemma bind_steps {B D} (P : result exit D * W -> Prop) (m : Handler W B) (k : B -> Handler W D) w :
  (forall e w', m w = (Err e, w') -> P (Err e, w')) -> (forall w', m w = (Panic, w') -> P (Panic, w')) ->
  (forall b w', m w = (Ok b, w') -> P (k b w')) -> P (hbind m k w).
Proof. intros He Hp Hk. unfold hbind. destruct (m w) as [[b|e|] w']; auto. Qed.
End Handlers.

Lemma update_where_elem {R} p (f : R -> R) rows r : r ∈ update_where p f rows <-> (exists x, x ∈ rows /\ r = if p x then f x else x).
Proof. unfold update_where. rewrite list_elem_of_In, in_map_iff. setoid_rewrite <- list_elem_of_In. naive_solver. Qed.

Section Server.
Context `{UuidLib} `{!OAuthCrypto} `{!Jwt}.
Variable key : string.

(** ** Every call of the server *)

Inductive oauth_call : Type :=
| CallAuthorize (d : Draws) (r : OAuthRequest)
| CallDecision (d : Draws) (r : OAuthRequest) (body : option (uuid * bool))
| CallToken (d : Draws) (r : OAuthRequest)
| CallRevoke (d : Draws) (r : OAuthRequest)
| CallCreateClient (d : Draws) (r : OAuthRequest) (body : option createOAuthClientBody)
| CallListClients (r : OAuthRequest)
| CallRevokeClient (d : Draws) (r : OAuthRequest) (id : option uuid)
| CallSweep (picks : Picks) (now : Z) (batchSize : nat).

Definition after_call (c : oauth_call) (t : OAuthTables) : OAuthTables :=
  match c with
  | CallAuthorize d r => snd (authorizeOAuth2 d r t)
  | CallDecision d r body => snd (authorizeDecision d r body t)
  | CallToken d r => snd (tokenEndpoint key d r t)
  | CallRevoke d r => snd (revokeEndpoint d r t)
  | CallCreateClient d r body => snd (createOAuthClientAdmin d r body t)
  | CallListClients r => snd (listOAuthClientsAdmin r t)
  | CallRevokeClient d r id => snd (revokeOAuthClientAdmin d r id t)
  | CallSweep picks now n => snd (DeleteExpiredInBatches picks now n t)
  end.

(** The states of a server that started with empty tables. *)
Inductive oauth_reachable : OAuthTables -> Prop :=
| reach_empty : oauth_reachable (mkTables [] [] [] [] ∅)
| reach_call c t : oauth_reachable t -> oauth_reachable (after_call c t).

(** ** Registration *)

Definition within (k : OAuthClient) (tenantID : uuid) (scope : string) : Prop :=
  oc_TenantID k = tenantID /\ ScopeIsSubset scope (Join (oc_AllowedScopes k) " ") = true.

(** The client with the identifier is registered for what the code asks. *)
Definition code_registered (clients : list ClientWithSecret) (c : AuthorizationCode) : Prop :=
  exists k, k ∈ clients /\ oc_ID (cw_Client k) = ac_ClientID c /\ within (cw_Client k) (ac_TenantID c) (ac_Scope c) /\
    ac_RedirectURI c ∈ oc_RedirectURIs (cw_Client k) /\
    (oc_IsConfidential (cw_Client k) = false -> ac_CodeChallenge c <> None).

Definition refresh_registered (clients : list ClientWithSecret) (r : RefreshToken) : Prop :=
  exists k, k ∈ clients /\ oc_ID (cw_Client k) = rt_ClientID r /\ within (cw_Client k) (rt_TenantID r) (rt_Scope r).

Record oauth_inv (t : OAuthTables) : Prop := {
  inv_clients : NoDup (map (fun k => oc_ID (cw_Client k)) (t_clients t));
  inv_codes : Forall (fun r => code_registered (t_clients t) (cd_Code r)) (t_codes t);
  inv_pending : Forall (fun r => code_registered (t_clients t) (pe_Code (pr_Pending r))) (t_pending t);
  inv_refresh : Forall (fun r => refresh_registered (t_clients t) (rr_Token r)) (t_refresh t)
}.

(** Clients are added and marked revoked, never changed otherwise. *)
Definition same_registration (k k' : OAuthClient) : Prop :=
  oc_ID k' = oc_ID k /\ oc_TenantID k' = oc_TenantID k /\ oc_RedirectURIs k' = oc_RedirectURIs k /\
  oc_AllowedScopes k' = oc_AllowedScopes k /\ oc_IsConfidential k' = oc_IsConfidential k.

Definition clients_grow (cs cs' : list ClientWithSecret) : Prop :=
  forall k, k ∈ cs -> exists k', k' ∈ cs' /\ same_registration (cw_Client k) (cw_Client k').

Lemma code_registered_grow cs cs' c : clients_grow cs cs' -> code_registered cs c -> code_registered cs' c.
Proof.
  intros Hg (k & Hk & Hid & [Ht Hs] & Hr & Hc). destruct (Hg k Hk) as (k' & Hk' & E1 & E2 & E3 & E4 & E5).
  exists k'. unfold within. rewrite E1, E2, E3, E4, E5. done.
Qed.

Lemma refresh_registered_grow cs cs' r : clients_grow cs cs' -> refresh_registered cs r -> refresh_registered cs' r.
Proof.
  intros Hg (k & Hk & Hid & [Ht Hs]). destruct (Hg k Hk) as (k' & Hk' & E1 & E2 & E3 & E4 & E5).
  exists k'. unfold within. rewrite E1, E2, E4. done.
Qed.

Lemma inv_grow t cs' : oauth_inv t -> clients_grow (t_clients t) cs' -> NoDup (map (fun k => oc_ID (cw_Client k)) cs') ->
  oauth_inv (set_clients t cs').
Proof.
  intros [I1 I2 I3 I4] Hg Hnd. constructor; cbn [set_clients t_clients t_codes t_pending t_refresh]; [done| | |];
    (eapply Forall_impl; [eassumption|]); intros r; [apply code_registered_grow|apply code_registered_grow|apply refresh_registered_grow]; done.
Qed.

Lemma inv_codes_sub t rows : oauth_inv t -> Forall (fun r => code_registered (t_clients t) (cd_Code r)) rows -> oauth_inv (set_codes t rows).
Proof. intros [I1 I2 I3 I4] Hr. by constructor. Qed.
Lemma inv_pending_sub t rows : oauth_inv t -> Forall (fun r => code_registered (t_clients t) (pe_Code (pr_Pending r))) rows -> oauth_inv (set_pending t rows).
Proof. intros [I1 I2 I3 I4] Hr. by constructor. Qed.
Lemma inv_refresh_sub t rows : oauth_inv t -> Forall (fun r => refresh_registered (t_clients t) (rr_Token r)) rows -> oauth_inv (set_refresh t rows).
Proof. intros [I1 I2 I3 I4] Hr. by constructor. Qed.
Lemma inv_set_consents t x : oauth_inv t -> oauth_inv (set_consents t x).
Proof. intros [I1 I2 I3 I4]. by constructor. Qed.

Lemma Forall_update_where {R} (Q : R -> Prop) p f rows : (forall r, Q r -> Q (f r)) -> Forall Q rows -> Forall Q (update_where p f rows).
Proof. intros Hf Hall. unfold update_where. apply Forall_map. eapply Forall_impl; [exact Hall|]. intros r Hr. cbn. destruct (p r); auto. Qed.

Lemma Forall_filter_sub {R} (Q : R -> Prop) p rows : Forall Q rows -> Forall Q (List.filter p rows).
Proof. rewrite !List.Forall_forall. intros Hall r Hr%filter_In. naive_solver. Qed.

(** ** The operations keep it *)

Lemma CreateClient_inv newID rawID secret input t : oauth_inv t -> oauth_inv (snd (CreateClient newID rawID secret input t)).
Proof.
  intros Hi. unfold CreateClient, hbind, get_tables. destruct (existsb _ _) eqn:E; [done|]. cbn.
  apply inv_grow; [done| |].
  - intros k Hk. exists k. split; [apply elem_of_app; by left|done].
  - rewrite map_app. apply NoDup_app. split; [apply Hi|]. split; [|apply NoDup_singleton].
    intros x Hx ->%list_elem_of_singleton. apply list_elem_of_In, in_map_iff in Hx as (k & Hk & Hin).
    assert (existsb (fun c => String.eqb (oc_ClientID (cw_Client c)) ("mcl_" +:+ rawID) || bool_decide (oc_ID (cw_Client c) = newID)) (t_clients t) = true) as Ht.
    { apply existsb_exists. exists k. split; [done|]. cbn in Hk. rewrite (bool_decide_true _ Hk). apply orb_true_r. }
    by rewrite Ht in E.
Qed.

Lemma set_revoked_same now k : same_registration (cw_Client k) (cw_Client (set_revoked now k)).
Proof. done. Qed.

Lemma RevokeClient_inv now tenantID id t : oauth_inv t -> oauth_inv (snd (RevokeClient now tenantID id t)).
Proof.
  intros Hi. unfold RevokeClient, hbind, get_tables, put_tables. cbn. apply inv_grow; [done| |].
  - intros k Hk. eexists. split; [apply update_where_elem; eexists; split; [exact Hk|done]|]. destruct (_ && _); done.
  - unfold update_where. rewrite map_map.
    erewrite map_ext; [apply Hi|]. intros k. cbn. by destruct (_ && _).
Qed.

Lemma CreateAuthorizationCode_inv now raw code t : code_registered (t_clients t) code -> oauth_inv t ->
  oauth_inv (snd (CreateAuthorizationCode now raw code t)).
Proof.
  intros Hc Hi. unfold CreateAuthorizationCode, hbind, get_tables. destruct (existsb _ _); [done|]. cbn.
  apply inv_codes_sub; [done|]. apply Forall_app. split; [apply Hi|]. by constructor.
Qed.

Lemma ConsumeAuthorizationCode_inv now raw clientID uri t : oauth_inv t -> oauth_inv (snd (ConsumeAuthorizationCode now raw clientID uri t)).
Proof. intros Hi. cbn. apply inv_codes_sub; [done|]. apply Forall_update_where; [done|apply Hi]. Qed.

Lemma CreateRefreshToken_inv now raw token t : refresh_registered (t_clients t) token -> oauth_inv t ->
  oauth_inv (snd (CreateRefreshToken now raw token t)).
Proof.
  intros Hc Hi. unfold CreateRefreshToken, hbind, get_tables. destruct (existsb _ _); [done|]. cbn.
  apply inv_refresh_sub; [done|]. apply Forall_app. split; [apply Hi|]. by constructor.
Qed.

Lemma CreateRefreshToken_clients now raw token t : t_clients (snd (CreateRefreshToken now raw token t)) = t_clients t.
Proof. unfold CreateRefreshToken, hbind, get_tables. by destruct (existsb _ _). Qed.

Lemma find_refresh_elem t raw clientID row : find_refresh t raw clientID = Some row ->
  row ∈ t_refresh t /\ rr_Hash row = HashToken raw /\ rt_ClientID (rr_Token row) = clientID.
Proof.
  intros [Hin Hp]%List.find_some. apply andb_prop in Hp as [Hh%String.eqb_eq Hc%bool_decide_eq_true].
  split; [by apply list_elem_of_In|done].
Qed.

Lemma rotate_inv now newID newToken clientID row t : row ∈ t_refresh t -> rt_ClientID (rr_Token row) = clientID -> oauth_inv t ->
  oauth_inv (snd (rotate now newID newToken clientID (Some row) t)).
Proof.
  intros Hin Hc Hi. unfold rotate. destruct (negb (is_none_Z _)).
  { cbn. apply inv_refresh_sub; [done|]. apply Forall_update_where; [done|apply Hi]. }
  destruct (negb _); [done|]. set (token := mkRefresh _ _ _ _ _).
  assert (oauth_inv (snd (CreateRefreshToken now newToken token t))) as Hi'.
  { apply CreateRefreshToken_inv; [|done]. pose proof (inv_refresh t Hi) as Hr. rewrite Forall_forall in Hr.
    destruct (Hr row Hin) as (k & Hk & Hid & Hw). exists k. unfold token. cbn. rewrite Hid, Hc. done. }
  apply bind_steps.
  - intros e w' E. by rewrite E in Hi'.
  - intros w' E. by rewrite E in Hi'.
  - intros [rec raw] w' E. rewrite E in Hi'. cbn in *. apply inv_refresh_sub; [done|]. apply Forall_update_where; [done|apply Hi'].
Qed.

Lemma ConsumeRefreshToken_inv now newID newToken raw clientID t : oauth_inv t ->
  oauth_inv (snd (ConsumeRefreshToken now newID newToken raw clientID t)).
Proof.
  intros Hi. unfold ConsumeRefreshToken, hbind, get_tables. destruct (find_refresh t raw clientID) as [row|] eqn:E; [|done].
  apply find_refresh_elem in E as (Hin & _ & Hc). by apply rotate_inv.
Qed.

Lemma CreatePendingAuthorization_inv now p t : code_registered (t_clients t) (pe_Code p) -> oauth_inv t ->
  oauth_inv (snd (CreatePendingAuthorization now p t)).
Proof.
  intros Hc Hi. unfold CreatePendingAuthorization, hbind, get_tables. destruct (existsb _ _); [done|]. cbn.
  apply inv_pending_sub; [done|]. apply Forall_app. split; [apply Hi|]. by constructor.
Qed.

Lemma ConsumePendingAuthorization_ok now id tenantID userID t p t' :
  oauth_inv t -> ConsumePendingAuthorization now id tenantID userID t = (Ok (Some p), t') ->
  oauth_inv t' /\ t_clients t' = t_clients t /\ code_registered (t_clients t) (pe_Code p) /\
  ac_TenantID (pe_Code p) = tenantID /\ ac_UserID (pe_Code p) = userID /\ ac_ID (pe_Code p) = id.
Proof.
  intros Hi [= E <-]. destruct (List.find _ _) as [row|] eqn:Ef; [|done]. injection E as <-.
  apply List.find_some in Ef as [Hin Hp]. apply list_elem_of_In in Hin.
  unfold pending_matches in Hp. rewrite !andb_true_iff, !bool_decide_eq_true in Hp.
  split; [apply inv_pending_sub; [done|apply Forall_filter_sub, Hi]|]. split; [done|].
  pose proof (inv_pending t Hi) as Hr. rewrite Forall_forall in Hr. split; [by apply Hr|]. tauto.
Qed.

Lemma ConsumePendingAuthorization_inv now id tenantID userID t :
  oauth_inv t -> oauth_inv (snd (ConsumePendingAuthorization now id tenantID userID t)).
Proof. intros Hi. cbn. apply inv_pending_sub; [done|]. apply Forall_filter_sub, Hi. Qed.

(** The sweep only removes rows. *)
Lemma delete_loop_sub {R} (rkey : R -> uuid) refers expired pick n fuel rows total (Q : R -> Prop) :
  Forall Q rows -> Forall Q (snd (delete_loop rkey refers expired pick n fuel rows total)).
Proof.
  revert rows total. induction fuel as [|fuel IH]; intros rows total Hall; cbn [delete_loop]; [done|].
  destruct (dangling _ _ _ _); [done|]. destruct (_ <? _)%nat; [|apply IH]; by apply Forall_filter_sub.
Qed.

Lemma DeleteExpiredInBatches_inv picks now n t : oauth_inv t -> oauth_inv (snd (DeleteExpiredInBatches picks now n t)).
Proof.
  intros Hi. unfold DeleteExpiredInBatches. set (m := Nat.max 1 n). set (cutoff := (now - _)%Z). unfold deleteInBatches.
  pose proof (delete_loop_sub code_key (fun _ => None) (code_expired cutoff) (pick_codes picks) m (S (length (t_codes t)))
    (t_codes t) 0 _ (inv_codes t Hi)) as Hc.
  destruct (delete_loop code_key _ _ _ _ _ _ _) as [[codes|e|] cs]; cbn [snd] in *; try (by apply inv_codes_sub).
  set (t1 := set_codes t cs) in *. assert (oauth_inv t1) as Hi1 by by apply inv_codes_sub.
  pose proof (delete_loop_sub refresh_key rr_ReplacedBy (refresh_expired cutoff) (pick_refresh picks) m (S (length (t_refresh t1)))
    (t_refresh t1) 0 _ (inv_refresh t1 Hi1)) as Hr.
  destruct (delete_loop refresh_key _ _ _ _ _ _ _) as [[tokens|e|] rs]; cbn [snd] in *; try (by apply inv_refresh_sub).
  set (t2 := set_refresh t1 rs) in *. assert (oauth_inv t2) as Hi2 by by apply inv_refresh_sub.
  pose proof (delete_loop_sub pending_key (fun _ => None) (pending_expired cutoff) (pick_pending picks) m (S (length (t_pending t2)))
    (t_pending t2) 0 _ (inv_pending t2 Hi2)) as Hp.
  destruct (delete_loop pending_key _ _ _ _ _ _ _) as [[pend|e|] ps]; cbn [snd] in *; by apply inv_pending_sub.
Qed.

(** ** The endpoints keep it *)

Lemma require_auth_reads r : only_reads (require_auth r).
Proof. intros t. unfold require_auth. destruct (or_auth r) as [e|rc]; [|done]. by destruct e. Qed.

Lemma require_admin_reads r : only_reads (require_admin r).
Proof.
  intros t. unfold require_admin. apply (bind_reads (fun p => snd p = t)); [apply require_auth_reads|done..|].
  intros rc _. destruct (negb (IsAdmin rc)); [done|]. by destruct (negb (ScopePermitsAdminSurface rc)).
Qed.

Lemma authorize_checks_ok tenantID client uri scope challenge method t :
  snd (authorize_checks tenantID client uri scope challenge method t) = t /\
  (fst (authorize_checks tenantID client uri scope challenge method t) = Ok tt ->
   oc_RevokedAt client = None /\ within client tenantID scope /\ uri ∈ oc_RedirectURIs client /\
   (oc_IsConfidential client = false -> challenge <> None)).
Proof.
  unfold authorize_checks. destruct (oc_RevokedAt client); [done|]. cbn [is_some].
  case_bool_decide as Ht; [|done]. case_bool_decide as Hu; [|done]. cbn [negb].
  destruct (match method with Some m => _ | None => _ end); [done|].
  destruct (negb (oc_IsConfidential client) && is_none challenge) eqn:Ep; [done|].
  destruct (ScopeIsSubset scope _) eqn:Es; [|done]. cbn. split; [done|]. intros _. split; [done|]. split; [by split|].
  split; [done|]. intros Hc. rewrite Hc in Ep. cbn in Ep. by destruct challenge.
Qed.

Lemma authorize_checks_reads tenantID client uri scope challenge method : only_reads (authorize_checks tenantID client uri scope challenge method).
Proof. intros t. apply authorize_checks_ok. Qed.

Lemma issueAuthorizationCode_inv d code st t : code_registered (t_clients t) code -> oauth_inv t ->
  oauth_inv (snd (issueAuthorizationCode d code st t)).
Proof.
  intros Hc Hi. pose proof (CreateAuthorizationCode_inv (dr_now d) (dr_token d) code t Hc Hi) as Hi'.
  unfold issueAuthorizationCode. apply (bind_steps (fun p => oauth_inv (snd p)));
    [intros e w' E|intros w' E|intros [c raw] w' E]; rewrite E in Hi'; done.
Qed.

(** A handler whose last step answers with what the one before returned. *)
Lemma bind_answer {B D} (m : Handler OAuthTables B) (k : B -> D) t : snd (hbind m (fun b => hret (k b)) t) = snd (m t).
Proof. unfold hbind. by destruct (m t) as [[b|e|] t']. Qed.

Lemma GetClientByClientID_elem t id k : GetClientByClientID t id = Some k -> k ∈ t_clients t.
Proof. intros [Hin _]%List.find_some. by apply list_elem_of_In. Qed.

Lemma authorizeOAuth2_inv d r t : oauth_inv t -> oauth_inv (snd (authorizeOAuth2 d r t)).
Proof.
  intros Hi. unfold authorizeOAuth2. apply (bind_reads (fun p => oauth_inv (snd p))); [apply require_auth_reads|done..|]. intros rc _.
  destruct (negb _); [done|]. apply (bind_reads (fun p => oauth_inv (snd p))); [apply only_reads_lift|done..|]. intros tenantID _.
  destruct (uuid_Parse (rc_UserID rc)) as [userID|]; [|done]. unfold hbind at 1, get_tables.
  destruct (GetClientByClientID t _) as [k|] eqn:Ek; [|done].
  apply (bind_reads (fun p => oauth_inv (snd p))); [apply authorize_checks_reads|done..|]. intros [] Hok.
  apply authorize_checks_ok in Hok as (_ & Hw & Hu & Hc).
  set (code := mkCode _ _ _ _ _ _ _ _). assert (code_registered (t_clients t) code) as Hreg.
  { exists k. split; [by eapply GetClientByClientID_elem|]. done. }
  destruct (match GetConsentScope _ _ _ with Some s => _ | None => _ end); rewrite bind_answer;
    [by apply issueAuthorizationCode_inv|by apply CreatePendingAuthorization_inv].
Qed.

Lemma authorizeDecision_inv d r body t : oauth_inv t -> oauth_inv (snd (authorizeDecision d r body t)).
Proof.
  intros Hi. unfold authorizeDecision. apply (bind_reads (fun p => oauth_inv (snd p))); [apply require_auth_reads|done..|]. intros rc _.
  destruct body as [[id approve]|]; [|done]. apply (bind_reads (fun p => oauth_inv (snd p))); [apply only_reads_lift|done..|]. intros tenantID _.
  destruct (uuid_Parse (rc_UserID rc)) as [userID|]; [|done].
  pose proof (ConsumePendingAuthorization_inv (dr_now d) id tenantID userID t Hi) as Hc.
  apply (bind_steps (fun p => oauth_inv (snd p))); [intros e w' E; by rewrite E in Hc|intros w' E; by rewrite E in Hc|].
  intros [p|] w' E; [|by rewrite E in Hc]. destruct (ConsumePendingAuthorization_ok _ _ _ _ _ _ _ Hi E) as (Hi' & Hcl & Hreg & Ht & Hu & _).
  destruct (negb approve); [done|]. unfold hbind at 1, RecordConsent, hbind at 1, get_tables, put_tables.
  rewrite bind_answer. apply issueAuthorizationCode_inv; [|by apply inv_set_consents].
  cbn [set_consents t_clients]. rewrite Hcl. unfold code_registered in *. cbn. by rewrite <- Ht.
Qed.

Lemma authenticateOAuthClient_ok r t :
  snd (authenticateOAuthClient r t) = t /\
  forall k, fst (authenticateOAuthClient r t) = Ok k ->
    exists id secret, extractClientAuth r = Some (id, secret) /\ GetClientByClientID t id = Some k /\ VerifyClientSecret k secret = true.
Proof.
  unfold authenticateOAuthClient. destruct (extractClientAuth r) as [[id secret]|]; [|done].
  unfold hbind, get_tables. destruct (GetClientByClientID t id) as [k|] eqn:Ek; [|done].
  destruct (VerifyClientSecret k secret) eqn:Ev; [|done]. split; [done|]. intros k' [= <-]. eauto.
Qed.

Lemma check_pkce_reads r c : only_reads (check_pkce r c).
Proof.
  intros t. unfold check_pkce. destruct (ac_CodeChallenge c); [|done]. destruct (String.eqb _ _); [done|]. by destruct (negb _).
Qed.

Lemma authorizationCodeGrant_inv d r client t : oauth_inv t -> oauth_inv (snd (authorizationCodeGrant key d r client t)).
Proof.
  intros Hi. unfold authorizationCodeGrant. destruct (_ || _); [done|].
  pose proof (ConsumeAuthorizationCode_inv (dr_now d) (or_value r "code") (oc_ID client) (or_value r "redirect_uri") t Hi) as Hi'.
  unfold hbind at 1. cbn [ConsumeAuthorizationCode hbind get_tables put_tables hret] in *.
  set (t' := set_codes t _) in *.
  destruct (List.find _ _) as [row|] eqn:Ef; [|done]. cbn [fmap option_fmap option_map].
  apply (bind_reads (fun p => oauth_inv (snd p))); [apply check_pkce_reads|done..|]. intros [] _.
  set (token := mkRefresh _ _ _ _ _). assert (oauth_inv (snd (CreateRefreshToken (dr_now d) (dr_token d) token t'))) as Hr.
  { apply CreateRefreshToken_inv; [|done]. apply List.find_some in Ef as [Hin Hp]. unfold code_matches in Hp.
    rewrite !andb_true_iff, bool_decide_eq_true in Hp. destruct Hp as ((((_ & Hcl) & _) & _) & _).
    pose proof (inv_codes t Hi) as Hc. rewrite List.Forall_forall in Hc. destruct (Hc row Hin) as (k & Hk & Hid & Hw & _).
    exists k. unfold token. cbn. by rewrite Hid, Hcl. }
  apply (bind_steps (fun p => oauth_inv (snd p))); [intros e w' E|intros w' E|intros [rec raw] w' E]; rewrite E in Hr; done.
Qed.

Lemma refreshTokenGrant_inv d r client t : oauth_inv t -> oauth_inv (snd (refreshTokenGrant key d r client t)).
Proof.
  intros Hi. unfold refreshTokenGrant. destruct (String.eqb _ _); [done|].
  pose proof (ConsumeRefreshToken_inv (dr_now d) (dr_id d) (dr_token d) (or_value r "refresh_token") (oc_ID client) t Hi) as Hi'.
  destruct (ConsumeRefreshToken _ _ _ _ _ t) as [[[rec raw| |]|e|] t']; cbn [snd] in *; try done.
  destruct (negb _); done.
Qed.

Lemma tokenEndpoint_inv d r t : oauth_inv t -> oauth_inv (snd (tokenEndpoint key d r t)).
Proof.
  intros Hi. unfold tokenEndpoint. apply (bind_reads (fun p => oauth_inv (snd p))); [intros w; apply authenticateOAuthClient_ok|done..|].
  intros k _. destruct (is_some _); [done|]. destruct (String.eqb _ "authorization_code"); [by apply authorizationCodeGrant_inv|].
  destruct (String.eqb _ "refresh_token"); [by apply refreshTokenGrant_inv|]. destruct (String.eqb _ "client_credentials"); [|done].
  unfold clientCredentialsGrant. destruct (negb _); [done|]. destruct (oc_ServiceUserID _); [|done]. by destruct (negb _).
Qed.

Lemma revokeEndpoint_inv d r t : oauth_inv t -> oauth_inv (snd (revokeEndpoint d r t)).
Proof.
  intros Hi. unfold revokeEndpoint. apply (bind_reads (fun p => oauth_inv (snd p))); [intros w; apply authenticateOAuthClient_ok|done..|].
  intros k _. cbn. apply inv_refresh_sub; [done|]. apply Forall_update_where; [done|apply Hi].
Qed.

Lemma after_call_inv c t : oauth_inv t -> oauth_inv (after_call c t).
Proof.
  intros Hi. destruct c; cbn [after_call].
  - by apply authorizeOAuth2_inv.
  - by apply authorizeDecision_inv.
  - by apply tokenEndpoint_inv.
  - by apply revokeEndpoint_inv.
  - unfold createOAuthClientAdmin. apply (bind_reads (fun p => oauth_inv (snd p))); [apply require_admin_reads|done..|]. intros rc _.
    destruct body as [b|]; [|done]. apply (bind_reads (fun p => oauth_inv (snd p))); [apply only_reads_lift|done..|]. intros tenantID _.
    apply (bind_reads (fun p => oauth_inv (snd p))); [apply only_reads_lift|done..|]. intros user _.
    set (input := mkClientInput _ _ _ _ _ _). pose proof (CreateClient_inv (dr_id d) (dr_token d) (dr_secret d) input t Hi) as Hc.
    apply (bind_steps (fun p => oauth_inv (snd p))); [intros e w' E|intros w' E|intros [cl sec] w' E]; rewrite E in Hc; done.
  - unfold listOAuthClientsAdmin. apply (bind_reads (fun p => oauth_inv (snd p))); [apply require_admin_reads|done..|]. intros rc _.
    apply (bind_reads (fun p => oauth_inv (snd p))); [apply only_reads_lift|done..|]. done.
  - unfold revokeOAuthClientAdmin. apply (bind_reads (fun p => oauth_inv (snd p))); [apply require_admin_reads|done..|]. intros rc _.
    destruct id as [id|]; [|done]. apply (bind_reads (fun p => oauth_inv (snd p))); [apply only_reads_lift|done..|]. intros tenantID _.
    pose proof (RevokeClient_inv (dr_now d) tenantID id t Hi) as Hc.
    apply (bind_steps (fun p => oauth_inv (snd p))); [intros e w' E|intros w' E|intros b w' E]; rewrite E in Hc; [done|done|by destruct b].
  - by apply DeleteExpiredInBatches_inv.
Qed.

Lemma reachable_inv t : oauth_reachable t -> oauth_inv t.
Proof.
  induction 1 as [|c t _ IH]; [|by apply after_call_inv]. constructor; cbn; constructor.
Qed.

(** ** What an issued token is for *)

Lemma ScopeIsSubset_spec a b : ScopeIsSubset a b = true <-> forall x, x ∈ ScopeTokens a -> x ∈ ScopeTokens b.
Proof. unfold ScopeIsSubset. rewrite forallb_forall. setoid_rewrite <- list_elem_of_In. setoid_rewrite bool_decide_eq_true. done. Qed.

Lemma ScopeIsSubset_trans a b c : ScopeIsSubset a b = true -> ScopeIsSubset b c = true -> ScopeIsSubset a c = true.
Proof. rewrite !ScopeIsSubset_spec. auto. Qed.

Lemma same_client t k k' : oauth_inv t -> k ∈ t_clients t -> k' ∈ t_clients t -> oc_ID (cw_Client k) = oc_ID (cw_Client k') -> k = k'.
Proof.
  intros Hi Hk Hk' He. apply list_elem_of_lookup in Hk as [i Hk]. apply list_elem_of_lookup in Hk' as [j Hk'].
  assert (i = j) as <-; [|by simplify_eq]. eapply (NoDup_lookup (map (fun k => oc_ID (cw_Client k)) (t_clients t))); [apply Hi| |];
    change (map ?f ?l) with (f <$> l); rewrite list_lookup_fmap, ?Hk, ?Hk'; cbn; [done|by rewrite He].
Qed.

(** How a code grant that answers was served. *)
Lemma authorizationCodeGrant_issued d r client t resp t' :
  authorizationCodeGrant key d r client t = (Ok (TokenIssued resp), t') ->
  exists row, row ∈ t_codes t /\ code_matches (dr_now d) (or_value r "code") (oc_ID client) (or_value r "redirect_uri") row = true /\
    (forall c, ac_CodeChallenge (cd_Code row) = Some c -> VerifyPKCE (or_value r "code_verifier") c = true) /\
    tr_Scope resp = ac_Scope (cd_Code row) /\
    tr_AccessToken resp = MintOAuthToken key d (ac_TenantID (cd_Code row)) (ac_UserID (cd_Code row)) (ac_Scope (cd_Code row)) (oc_ClientID client) /\
    t_codes t' = update_where (code_matches (dr_now d) (or_value r "code") (oc_ID client) (or_value r "redirect_uri")) (set_used (dr_now d)) (t_codes t).
Proof.
  unfold authorizationCodeGrant. destruct (_ || _); [done|]. unfold hbind at 1.
  cbn [ConsumeAuthorizationCode hbind get_tables put_tables hret]. destruct (List.find _ _) as [row|] eqn:Ef; [|done].
  cbn [fmap option_fmap option_map]. apply List.find_some in Ef as [Hin%list_elem_of_In Hm].
  unfold hbind at 1. set (t1 := set_codes t _). pose proof (check_pkce_reads r (cd_Code row) t1) as Hr.
  destruct (check_pkce r (cd_Code row) t1) as [[[]|e|] t2] eqn:Ep; [|done..]. cbn in Hr. subst t2.
  unfold hbind, CreateRefreshToken, hbind, get_tables, put_tables. destruct (existsb _ _); [done|]. cbn. intros [= <- <-].
  exists row. split; [done|]. split; [done|]. split; [|done]. intros c Hc. unfold check_pkce in Ep. rewrite Hc in Ep.
  destruct (String.eqb (or_value r "code_verifier") ""); [done|]. by destruct (VerifyPKCE _ _).
Qed.

(** How a refresh grant that answers was served. *)
Lemma refreshTokenGrant_issued d r client t resp t' :
  refreshTokenGrant key d r client t = (Ok (TokenIssued resp), t') ->
  exists row, find_refresh t (or_value r "refresh_token") (oc_ID client) = Some row /\
    rr_RevokedAt row = None /\ (dr_now d < rr_ExpiresAt row)%Z /\ ScopeIsSubset (tr_Scope resp) (rt_Scope (rr_Token row)) = true /\
    tr_AccessToken resp = MintOAuthToken key d (rt_TenantID (rr_Token row)) (rt_UserID (rr_Token row)) (tr_Scope resp) (oc_ClientID client) /\
    (forall x, x ∈ t_refresh t' -> rt_ID (rr_Token x) = rt_ID (rr_Token row) -> rr_RevokedAt x <> None).
Proof.
  unfold refreshTokenGrant. destruct (String.eqb _ _); [done|]. unfold ConsumeRefreshToken, hbind at 1, get_tables.
  destruct (find_refresh t _ _) as [row|]; [|done]. unfold rotate. destruct (rr_RevokedAt row) eqn:Erev; [done|]. cbn [is_none_Z negb].
  destruct (dr_now d <? rr_ExpiresAt row)%Z eqn:Eexp; [|done]. cbn [negb]. unfold hbind, CreateRefreshToken, hbind, get_tables, put_tables.
  destruct (existsb _ _); [done|]. cbn. destruct (ScopeIsSubset _ _) eqn:Es; [|done]. intros [= <- <-].
  exists row. split; [done|]. split; [done|]. split; [by apply Z.ltb_lt|]. split; [done|]. split; [done|].
  cbn. intros x Hx Hid. apply update_where_elem in Hx as (y & _ & ->). cbn in *. case_bool_decide as E; [done|]. by destruct E.
Qed.

(** C22. Whatever has been served before, a token the server issues belongs to a
    client that authenticated with its secret and is not revoked; it is for the
    client's tenant, and its scope is within the scopes the client registered. A
    code grant is answered only for a code of that client that is unused, not
    expired, was issued for the redirect address presented, and whose challenge
    the verifier meets; the token is for the user and the scope of the code. A
    refresh grant is answered only for a live token of the client, for its user
    and within its scope. *)
Theorem issued_tokens_within_registration t d r resp t' :
  oauth_reachable t -> tokenEndpoint key d r t = (Ok (TokenIssued resp), t') ->
  exists k id secret user,
    extractClientAuth r = Some (id, secret) /\ GetClientByClientID t id = Some k /\
    oc_RevokedAt (cw_Client k) = None /\ HashToken secret = cw_SecretHash k /\
    ScopeIsSubset (tr_Scope resp) (Join (oc_AllowedScopes (cw_Client k)) " ") = true /\
    tr_AccessToken resp = MintOAuthToken key d (oc_TenantID (cw_Client k)) user (tr_Scope resp) (oc_ClientID (cw_Client k)) /\
    (or_value r "grant_type" = "authorization_code" ->
     exists row, row ∈ t_codes t /\ user = ac_UserID (cd_Code row) /\ tr_Scope resp = ac_Scope (cd_Code row) /\
       code_matches (dr_now d) (or_value r "code") (oc_ID (cw_Client k)) (or_value r "redirect_uri") row = true /\
       (oc_IsConfidential (cw_Client k) = false -> ac_CodeChallenge (cd_Code row) <> None) /\
       (forall c, ac_CodeChallenge (cd_Code row) = Some c -> VerifyPKCE (or_value r "code_verifier") c = true)) /\
    (or_value r "grant_type" = "refresh_token" ->
     exists row, find_refresh t (or_value r "refresh_token") (oc_ID (cw_Client k)) = Some row /\ user = rt_UserID (rr_Token row) /\
       rr_RevokedAt row = None /\ (dr_now d < rr_ExpiresAt row)%Z /\ ScopeIsSubset (tr_Scope resp) (rt_Scope (rr_Token row)) = true).
Proof.
  intros Hreach. pose proof (reachable_inv _ Hreach) as Hi. unfold tokenEndpoint, hbind at 1.
  destruct (authenticateOAuthClient_ok r t) as [Hst Hk]. destruct (authenticateOAuthClient r t) as [[k|e|] t0]; [|done..].
  cbn in Hst. subst t0. destruct (Hk k eq_refl) as (id & secret & Hx & Hg & Hv). apply andb_prop in Hv as [_ Hv%String.eqb_eq].
  destruct (oc_RevokedAt (cw_Client k)) eqn:Erev; [done|]. cbn [is_some]. pose proof (GetClientByClientID_elem _ _ _ Hg) as Hkin.
  destruct (String.eqb _ "authorization_code") eqn:G1.
  { apply String.eqb_eq in G1. intros (row & Hin & Hm & Hp & Hs & Ha & _)%authorizationCodeGrant_issued.
    pose proof (inv_codes t Hi) as Hc. rewrite Forall_forall in Hc. destruct (Hc row Hin) as (k' & Hk' & Hid & [Ht Hsc] & _ & Hch).
    assert (k' = k) as ->.
    { apply (same_client t); [done..|]. rewrite Hid. unfold code_matches in Hm. rewrite !andb_true_iff, bool_decide_eq_true in Hm. tauto. }
    exists k, id, secret, (ac_UserID (cd_Code row)). rewrite Hs, G1, Ht. split_and!; try done. intros _. exists row. by split_and!. }
  destruct (String.eqb _ "refresh_token") eqn:G2.
  { apply String.eqb_eq in G2. intros (row & Hf & Hrev & Hexp & Hs & Ha & _)%refreshTokenGrant_issued.
    pose proof (find_refresh_elem _ _ _ _ Hf) as (Hin & _ & Hcl). pose proof (inv_refresh t Hi) as Hr. rewrite Forall_forall in Hr.
    destruct (Hr row Hin) as (k' & Hk' & Hid & [Ht Hsc]).
    assert (k' = k) as ->. { apply (same_client t); [done..|]. by rewrite Hid. }
    exists k, id, secret, (rt_UserID (rr_Token row)). rewrite Ht, G2. split_and!; try done; [by eapply ScopeIsSubset_trans|].
    intros _. exists row. by split_and!. }
  destruct (String.eqb _ "client_credentials") eqn:G3; [|done]. apply String.eqb_eq in G3. unfold clientCredentialsGrant.
  destruct (negb _); [done|]. destruct (oc_ServiceUserID (cw_Client k)) as [u|]; [|done]. destruct (ScopeIsSubset _ _) eqn:Es; [|done].
  intros [= <- <-]. exists k, id, secret, u. rewrite G3. split_and!; done.
Qed.

(** ** How the tables evolve *)

(** Rows are added with the digest of the token a call draws, or stay what they
    were, possibly used or revoked. *)
Definition code_from (t : OAuthTables) (x : CodeRow) : Prop :=
  exists y, y ∈ t_codes t /\ cd_Hash y = cd_Hash x /\ (cd_UsedAt y <> None -> cd_UsedAt x <> None).
Definition refresh_from (t : OAuthTables) (x : RefreshRow) : Prop :=
  exists y, y ∈ t_refresh t /\ rr_Token y = rr_Token x /\ rr_Hash y = rr_Hash x /\ (rr_RevokedAt y <> None -> rr_RevokedAt x <> None).

Definition evolves (drawn : option string) (t t' : OAuthTables) : Prop :=
  (forall x, x ∈ t_codes t' -> drawn = Some (cd_Hash x) \/ code_from t x) /\
  (forall x, x ∈ t_refresh t' -> drawn = Some (rr_Hash x) \/ refresh_from t x).

Lemma evolves_refl drawn t : evolves drawn t t.
Proof. split; intros x Hx; right; exists x; auto. Qed.

Lemma evolves_trans drawn t1 t2 t3 : evolves drawn t1 t2 -> evolves drawn t2 t3 -> evolves drawn t1 t3.
Proof.
  intros [A1 A2] [B1 B2]. split; intros x Hx.
  - destruct (B1 x Hx) as [?|(y & Hy & Eh & Hu)]; [by left|]. destruct (A1 y Hy) as [E|(z & Hz & Eh' & Hu')]; [left; by rewrite E, Eh|].
    right. exists z. split; [done|]. split; [congruence|auto].
  - destruct (B2 x Hx) as [?|(y & Hy & Et & Eh & Hu)]; [by left|]. destruct (A2 y Hy) as [E|(z & Hz & Et' & Eh' & Hu')]; [left; by rewrite E, Eh|].
    right. exists z. split; [done|]. split; [congruence|]. split; [congruence|auto].
Qed.

(** The changes the operations make. *)
Inductive table_step (drawn : option string) : OAuthTables -> OAuthTables -> Prop :=
| step_other t t' : t_codes t' = t_codes t -> t_refresh t' = t_refresh t -> table_step drawn t t'
| step_add_code t row : drawn = Some (cd_Hash row) -> cd_Hash row ∉ map cd_Hash (t_codes t) ->
    table_step drawn t (set_codes t (t_codes t ++ [row]))
| step_use t p now : table_step drawn t (set_codes t (update_where p (set_used now) (t_codes t)))
| step_add_refresh t row : drawn = Some (rr_Hash row) -> rr_Hash row ∉ map rr_Hash (t_refresh t) ->
    rt_ID (rr_Token row) ∉ map (fun x => rt_ID (rr_Token x)) (t_refresh t) -> table_step drawn t (set_refresh t (t_refresh t ++ [row]))
| step_revoke t p f : (forall r, rr_Token (f r) = rr_Token r /\ rr_Hash (f r) = rr_Hash r /\ rr_RevokedAt (f r) <> None) ->
    table_step drawn t (set_refresh t (update_where p f (t_refresh t)))
| step_sweep t t' : t_codes t' `sublist_of` t_codes t -> t_refresh t' `sublist_of` t_refresh t -> table_step drawn t t'.

Notation rewrites drawn := (rtc (table_step drawn)).

Lemma step_evolves drawn t t' : table_step drawn t t' -> evolves drawn t t'.
Proof.
  intros [t0 t1 E1 E2|t0 row Hd _|t0 p now|t0 row Hd _ _|t0 p f Hf|t0 t1 S1 S2]; split; intros x Hx; cbn in *;
    try (right; exists x; split_and!; (done || congruence)).
  - apply elem_of_app in Hx as [Hx| ->%list_elem_of_singleton]; [right; exists x; auto|by left].
  - apply update_where_elem in Hx as (y & Hy & ->). right. exists y. by destruct (p y).
  - apply elem_of_app in Hx as [Hx| ->%list_elem_of_singleton]; [right; exists x; auto|by left].
  - apply update_where_elem in Hx as (y & Hy & ->). right. exists y. destruct (p y); [|done]. destruct (Hf y) as (-> & -> & ?). auto.
  - right. exists x. split; [by eapply elem_of_sublist|done].
  - right. exists x. split; [by eapply elem_of_sublist|done].
Qed.

Lemma rewrites_evolves drawn t t' : rewrites drawn t t' -> evolves drawn t t'.
Proof. induction 1 as [|t1 t2 t3 Hs _ IH]; [apply evolves_refl|]. eapply evolves_trans; [by apply step_evolves|exact IH]. Qed.

(** [keeps drawn m]: the handler changes the tables by such steps. *)
Definition keeps {B} (drawn : option string) (m : Handler OAuthTables B) : Prop := forall t, rewrites drawn t (snd (m t)).

Lemma keeps_reads {B} drawn (m : Handler OAuthTables B) : only_reads m -> keeps drawn m.
Proof. intros Hm t. rewrite Hm. apply rtc_refl. Qed.

Lemma keeps_bind {B D} drawn (m : Handler OAuthTables B) (k : B -> Handler OAuthTables D) :
  keeps drawn m -> (forall b, keeps drawn (k b)) -> keeps drawn (hbind m k).
Proof.
  intros Hm Hk t. specialize (Hm t). unfold hbind. destruct (m t) as [[b|e|] t']; [|done..]. etrans; [exact Hm|apply Hk].
Qed.

Lemma keeps_get {D} drawn (k : OAuthTables -> Handler OAuthTables D) : (forall t, rewrites drawn t (snd (k t t))) -> keeps drawn (hbind get_tables k).
Proof. intros Hk t. apply Hk. Qed.

Lemma existsb_hash_fresh {R} (f : R -> string) h rows : existsb (fun r => String.eqb (f r) h) rows = false -> h ∉ map f rows.
Proof.
  intros E (r & -> & Hr)%list_elem_of_fmap. rewrite <- not_true_iff_false, existsb_exists in E. apply E. exists r.
  split; [by apply list_elem_of_In|apply String.eqb_refl].
Qed.

Lemma existsb_orb {R} (f g : R -> bool) rows : existsb (fun r => f r || g r) rows = existsb f rows || existsb g rows.
Proof. induction rows as [|r rows IH]; cbn; [done|]. rewrite IH. destruct (f r), (g r), (existsb f rows); done. Qed.

Lemma CreateAuthorizationCode_keeps now raw code : keeps (Some (HashToken raw)) (CreateAuthorizationCode now raw code).
Proof.
  apply keeps_get. intros t. destruct (existsb _ _) eqn:E; [apply rtc_refl|]. apply rtc_once, step_add_code; [done|].
  by apply (existsb_hash_fresh cd_Hash).
Qed.

Lemma CreateRefreshToken_keeps now raw token : keeps (Some (HashToken raw)) (CreateRefreshToken now raw token).
Proof.
  apply keeps_get. intros t. destruct (existsb _ _) eqn:E; [apply rtc_refl|]. rewrite existsb_orb in E. apply orb_false_elim in E as [E1 E2].
  apply rtc_once, step_add_refresh; [done|by apply (existsb_hash_fresh rr_Hash)|].
  intros (r & Hr & Hin)%list_elem_of_fmap. rewrite <- not_true_iff_false, existsb_exists in E2. apply E2. exists r.
  split; [by apply list_elem_of_In|]. apply bool_decide_eq_true. by symmetry.
Qed.

Lemma ConsumeAuthorizationCode_keeps drawn now raw c uri : keeps drawn (ConsumeAuthorizationCode now raw c uri).
Proof. apply keeps_get. intros t. apply rtc_once, step_use. Qed.

Lemma ConsumeRefreshToken_keeps now newID newToken raw c : keeps (Some (HashToken newToken)) (ConsumeRefreshToken now newID newToken raw c).
Proof.
  apply keeps_get. intros t. unfold rotate. destruct (find_refresh t raw c) as [row|]; [|apply rtc_refl].
  destruct (negb (is_none_Z _)); [by apply rtc_once, step_revoke|]. destruct (negb _); [apply rtc_refl|].
  apply (keeps_bind _ _ _ (CreateRefreshToken_keeps _ _ _)). intros [rec r']. apply keeps_get. intros t'. by apply rtc_once, step_revoke.
Qed.

Lemma filter_sublist {R} (p : R -> bool) rows : List.filter p rows `sublist_of` rows.
Proof. induction rows as [|r rows IH]; cbn; [done|]. destruct (p r); by constructor. Qed.

Lemma delete_loop_sublist {R} (rkey : R -> uuid) refers expired pick n fuel rows total :
  snd (delete_loop rkey refers expired pick n fuel rows total) `sublist_of` rows.
Proof.
  revert rows total. induction fuel as [|fuel IH]; intros rows total; cbn [delete_loop]; [done|].
  destruct (dangling _ _ _ _); [done|]. destruct (_ <? _)%nat; [apply filter_sublist|]. etrans; [apply IH|apply filter_sublist].
Qed.

Lemma DeleteExpiredInBatches_keeps drawn picks now n : keeps drawn (DeleteExpiredInBatches picks now n).
Proof.
  intros t. apply rtc_once. unfold DeleteExpiredInBatches, deleteInBatches. set (cutoff := (now - _)%Z). set (m := Nat.max 1 n).
  pose proof (delete_loop_sublist code_key (fun _ => None) (code_expired cutoff) (pick_codes picks) m (S (length (t_codes t))) (t_codes t) 0) as Hc.
  destruct (delete_loop code_key _ _ _ _ _ _ _) as [[codes|e|] cs]; cbn [snd] in *; [|by apply step_sweep..].
  change (t_refresh (set_codes t cs)) with (t_refresh t).
  pose proof (delete_loop_sublist refresh_key rr_ReplacedBy (refresh_expired cutoff) (pick_refresh picks) m (S (length (t_refresh t))) (t_refresh t) 0) as Hr.
  destruct (delete_loop refresh_key _ _ _ _ _ _ _) as [[tokens|e|] rs]; cbn [snd] in *; [|by apply step_sweep..].
  destruct (delete_loop pending_key _ _ _ _ _ _ _) as [[pend|e|] ps]; by apply step_sweep.
Qed.

(** The digest of the token a call draws, when it can be stored. *)
Definition drawn_by (c : oauth_call) : option string :=
  match c with
  | CallAuthorize d _ | CallDecision d _ _ | CallToken d _ => Some (HashToken (dr_token d))
  | _ => None
  end.

Lemma issueAuthorizationCode_keeps d code st : keeps (Some (HashToken (dr_token d))) (issueAuthorizationCode d code st).
Proof. apply keeps_bind; [apply CreateAuthorizationCode_keeps|]. intros [c raw]. by apply keeps_reads. Qed.

Lemma tokenEndpoint_keeps d r : keeps (Some (HashToken (dr_token d))) (tokenEndpoint key d r).
Proof.
  apply keeps_bind; [apply keeps_reads; intros t; apply authenticateOAuthClient_ok|]. intros k; cbv beta zeta. destruct (is_some _); [by apply keeps_reads|].
  destruct (String.eqb _ "authorization_code").
  { unfold authorizationCodeGrant. destruct (_ || _); [by apply keeps_reads|]. apply keeps_bind; [apply ConsumeAuthorizationCode_keeps|].
    intros [c|]; [|by apply keeps_reads]. apply keeps_bind; [apply keeps_reads, check_pkce_reads|]. intros []; cbv beta zeta. 
    apply keeps_bind; [apply CreateRefreshToken_keeps|]. intros [rec raw]; cbv beta zeta. by apply keeps_reads. }
  destruct (String.eqb _ "refresh_token").
  { intros t. unfold refreshTokenGrant. destruct (String.eqb _ _); [apply rtc_refl|].
    pose proof (ConsumeRefreshToken_keeps (dr_now d) (dr_id d) (dr_token d) (or_value r "refresh_token") (oc_ID (cw_Client k)) t) as Hk.
    destruct (ConsumeRefreshToken _ _ _ _ _ t) as [[[rec raw| |]|e|] t']; cbn [snd] in *; try apply rtc_refl; [|done].
    destruct (negb _); [apply rtc_refl|done]. }
  destruct (String.eqb _ "client_credentials"); [|by apply keeps_reads]. apply keeps_reads. intros t. unfold clientCredentialsGrant.
  destruct (negb _); [done|]. destruct (oc_ServiceUserID _); [|done]. by destruct (negb _).
Qed.

Lemma after_call_rewrites c t : rewrites (drawn_by c) t (after_call c t).
Proof.
  destruct c; cbn [after_call drawn_by].
  - apply (keeps_bind _ (require_auth r) _); [apply keeps_reads, require_auth_reads|]. intros rc; cbv beta zeta. destruct (negb _); [by apply keeps_reads|].
    apply keeps_bind; [apply keeps_reads, only_reads_lift|]. intros tenantID; cbv beta zeta. destruct (uuid_Parse _); [|by apply keeps_reads].
    apply keeps_get. intros t0; cbv beta zeta. destruct (GetClientByClientID t0 _); [|apply rtc_refl].
    apply (keeps_bind _ (authorize_checks _ _ _ _ _ _) _); [apply keeps_reads, authorize_checks_reads|]. intros []; cbv beta zeta. 
    destruct (match GetConsentScope _ _ _ with Some s => _ | None => _ end).
    + apply keeps_bind; [apply issueAuthorizationCode_keeps|]. intros url; cbv beta zeta. by apply keeps_reads.
    + apply keeps_bind; [|intros p; by apply keeps_reads]. apply keeps_get. intros t1. destruct (existsb _ _); [apply rtc_refl|by apply rtc_once, step_other].
  - apply (keeps_bind _ (require_auth r) _); [apply keeps_reads, require_auth_reads|]. intros rc; cbv beta zeta. destruct body as [[id approve]|]; [|by apply keeps_reads].
    apply keeps_bind; [apply keeps_reads, only_reads_lift|]. intros tenantID; cbv beta zeta. destruct (uuid_Parse _) as [userID|]; [|by apply keeps_reads].
    apply keeps_bind; [apply keeps_get; intros t0; by apply rtc_once, step_other|]. intros [p|]; [|by apply keeps_reads].
    destruct (negb approve); [by apply keeps_reads|]. apply keeps_bind; [apply keeps_get; intros t0; by apply rtc_once, step_other|]. intros []; cbv beta zeta. 
    apply keeps_bind; [apply issueAuthorizationCode_keeps|]. intros url; cbv beta zeta. by apply keeps_reads.
  - apply tokenEndpoint_keeps.
  - apply (keeps_bind _ (authenticateOAuthClient r) _); [apply keeps_reads; intros t0; apply authenticateOAuthClient_ok|]. intros k; cbv beta zeta. 
    apply keeps_bind; [apply keeps_get; intros t0; by apply rtc_once, step_revoke|]. intros []; cbv beta zeta. by apply keeps_reads.
  - apply (keeps_bind _ (require_admin r) _); [apply keeps_reads, require_admin_reads|]. intros rc; cbv beta zeta. destruct body as [b|]; [|by apply keeps_reads].
    apply keeps_bind; [apply keeps_reads, only_reads_lift|]. intros tenantID; cbv beta zeta. apply keeps_bind; [apply keeps_reads, only_reads_lift|]. intros u; cbv beta zeta. 
    apply keeps_bind; [|intros [cl sec]; by apply keeps_reads]. apply keeps_get. intros t0; cbv beta zeta. destruct (existsb _ _); [apply rtc_refl|by apply rtc_once, step_other].
  - apply (keeps_bind _ (require_admin r) _); [apply keeps_reads, require_admin_reads|]. intros rc; cbv beta zeta. 
    apply keeps_bind; [apply keeps_reads, only_reads_lift|]. intros tenantID; cbv beta zeta. apply keeps_get. intros t0; cbv beta zeta. apply rtc_refl.
  - apply (keeps_bind _ (require_admin r) _); [apply keeps_reads, require_admin_reads|]. intros rc; cbv beta zeta. destruct id as [id|]; [|by apply keeps_reads].
    apply keeps_bind; [apply keeps_reads, only_reads_lift|]. intros tenantID; cbv beta zeta. apply keeps_bind; [apply keeps_get; intros t0; by apply rtc_once, step_other|].
    intros b; cbv beta zeta. apply keeps_reads. by destruct b.
  - apply DeleteExpiredInBatches_keeps.
Qed.

Lemma after_call_evolves c t : evolves (drawn_by c) t (after_call c t).
Proof. apply rewrites_evolves, after_call_rewrites. Qed.

(** A server that goes on, with calls whose tokens have other digests than [h]. *)
Inductive serves_on (h : string) : OAuthTables -> OAuthTables -> Prop :=
| serves_now t : serves_on h t t
| serves_more c t t' : serves_on h t t' -> drawn_by c <> Some h -> serves_on h t (after_call c t').

Lemma spent_stays h t t' : serves_on h t t' ->
  (forall x, x ∈ t_codes t -> cd_Hash x = h -> cd_UsedAt x <> None) -> forall x, x ∈ t_codes t' -> cd_Hash x = h -> cd_UsedAt x <> None.
Proof.
  induction 1 as [|c t t' _ IH Hd]; [done|]. intros Hs x Hx Hh. destruct (after_call_evolves c t') as [Hc _].
  destruct (Hc x Hx) as [E|(y & Hy & Eh & Hu)]; [by rewrite Hh in E|]. apply Hu, (IH Hs y Hy). congruence.
Qed.

Lemma revoked_stays h t t' : serves_on h t t' ->
  (forall x, x ∈ t_refresh t -> rr_Hash x = h -> rr_RevokedAt x <> None) -> forall x, x ∈ t_refresh t' -> rr_Hash x = h -> rr_RevokedAt x <> None.
Proof.
  induction 1 as [|c t t' _ IH Hd]; [done|]. intros Hs x Hx Hh. destruct (after_call_evolves c t') as [_ Hc].
  destruct (Hc x Hx) as [E|(y & Hy & Et & Eh & Hu)]; [by rewrite Hh in E|]. apply Hu, (IH Hs y Hy). congruence.
Qed.

(** ** Used once *)

(** The digests of the stored codes, the digests of the stored refresh tokens
    and the identifiers of these are different. *)
Record hashes_unique (t : OAuthTables) : Prop := {
  unique_codes : NoDup (map cd_Hash (t_codes t));
  unique_refresh : NoDup (map rr_Hash (t_refresh t));
  unique_ids : NoDup (map (fun x => rt_ID (rr_Token x)) (t_refresh t))
}.

Lemma NoDup_add {R A} (f : R -> A) rows r : NoDup (map f rows) -> f r ∉ map f rows -> NoDup (map f (rows ++ [r])).
Proof.
  intros Hnd Hr. rewrite map_app. apply NoDup_app. split; [done|]. split; [|apply NoDup_singleton].
  intros x Hx ->%list_elem_of_singleton. done.
Qed.

Lemma map_update_where {R A} (f : R -> A) p g rows : (forall r, f (g r) = f r) -> map f (update_where p g rows) = map f rows.
Proof. intros Hg. unfold update_where. rewrite map_map. apply map_ext. intros r. by destruct (p r). Qed.

Lemma NoDup_sublist_map {R A} (f : R -> A) rows rows' : rows' `sublist_of` rows -> NoDup (map f rows) -> NoDup (map f rows').
Proof. intros Hs Hnd. eapply sublist_NoDup; [exact Hnd|]. by apply (fmap_sublist f). Qed.

Lemma step_unique drawn t t' : table_step drawn t t' -> hashes_unique t -> hashes_unique t'.
Proof.
  intros Hs [U1 U2 U3]. destruct Hs as [t0 t1 E1 E2|t0 row _ Hh|t0 p now|t0 row _ Hh Hid|t0 p f Hf|t0 t1 S1 S2]; constructor; cbn;
    rewrite ?E1, ?E2; try done; try (by apply NoDup_add); try (by eapply NoDup_sublist_map).
  - by rewrite map_update_where.
  - rewrite map_update_where; [done|]. intros r. apply Hf.
  - rewrite map_update_where; [done|]. intros r. by destruct (Hf r) as (-> & _).
Qed.

Lemma reachable_unique t : oauth_reachable t -> hashes_unique t.
Proof.
  induction 1 as [|c t _ IH]; [constructor; cbn; constructor|]. pose proof (after_call_rewrites c t) as Hr.
  induction Hr as [|t1 t2 t3 Hs _ IH2]; [done|]. by apply IH2, (step_unique _ _ _ Hs).
Qed.

(** A grant the token endpoint answers, by the value of its grant type. *)
Lemma tokenEndpoint_issued d r t resp t' :
  tokenEndpoint key d r t = (Ok (TokenIssued resp), t') ->
  exists k, k ∈ t_clients t /\
    (or_value r "grant_type" = "authorization_code" -> authorizationCodeGrant key d r (cw_Client k) t = (Ok (TokenIssued resp), t')) /\
    (or_value r "grant_type" = "refresh_token" -> refreshTokenGrant key d r (cw_Client k) t = (Ok (TokenIssued resp), t')).
Proof.
  unfold tokenEndpoint, hbind at 1. destruct (authenticateOAuthClient_ok r t) as [Hst Hk].
  destruct (authenticateOAuthClient r t) as [[k|e|] t0]; [|done..]. cbn in Hst. subst t0.
  destruct (Hk k eq_refl) as (id & secret & _ & Hg & _). destruct (is_some _); [done|].
  intros He. exists k. split; [by eapply GetClientByClientID_elem|]. split; intros Hgt; rewrite Hgt in He; done.
Qed.

(** C23. An authorization code is redeemed at most once: after the token endpoint
    has answered for a code, it never answers for the same code again, whatever
    calls are served in between (concurrent ones are served in some order, since
    one statement checks and marks the code), by whichever client and with
    whichever verifier, unless another code with the same digest is issued. *)
Theorem code_redeemed_once t d r resp t1 t2 d' r' :
  tokenEndpoint key d r t = (Ok (TokenIssued resp), t1) -> or_value r "grant_type" = "authorization_code" ->
  oauth_reachable t -> serves_on (HashToken (or_value r "code")) t1 t2 ->
  or_value r' "grant_type" = "authorization_code" -> or_value r' "code" = or_value r "code" ->
  forall resp' t3, tokenEndpoint key d' r' t2 <> (Ok (TokenIssued resp'), t3).
Proof.
  intros (k & _ & Hc & _)%tokenEndpoint_issued Hg Hu%reachable_unique Hs Hg' Hcode resp' t3 (k' & _ & Hc' & _)%tokenEndpoint_issued.
  apply Hc, authorizationCodeGrant_issued in Hg as (row & Hin & Hm & _ & _ & _ & Ht1).
  apply Hc', authorizationCodeGrant_issued in Hg' as (row' & Hin' & Hm' & _). rewrite Hcode in Hm'.
  assert (cd_Hash row' = HashToken (or_value r "code") /\ cd_UsedAt row' = None) as [Hh' Hu'].
  { unfold code_matches in Hm'. rewrite !andb_true_iff, String.eqb_eq in Hm'. destruct Hm' as ((((? & _) & _) & Hn) & _).
    by destruct (cd_UsedAt row'). }
  refine (spent_stays _ _ _ Hs _ row' Hin' Hh' Hu'). intros x Hx Hh. rewrite Ht1 in Hx.
  apply update_where_elem in Hx as (y & Hy & ->).
  assert (cd_Hash y = HashToken (or_value r "code")) as Hy' by (destruct (code_matches _ _ _ _ y); done).
  assert (cd_Hash row = HashToken (or_value r "code")) as Hrow.
  { unfold code_matches in Hm. rewrite !andb_true_iff, String.eqb_eq in Hm. tauto. }
  assert (y = row) as ->; [|by rewrite Hm].
  apply list_elem_of_lookup in Hy as [i Hy]. apply list_elem_of_lookup in Hin as [j Hj].
  assert (i = j) as <-; [|by simplify_eq]. eapply (NoDup_lookup (cd_Hash <$> t_codes t)); [apply Hu| |];
    rewrite list_lookup_fmap, ?Hy, ?Hj; cbn; [done|by rewrite Hrow, Hy'].
Qed.

(** Every live refresh token of a client and a user. *)
Definition live_tokens (t : OAuthTables) (clientID userID : uuid) : list RefreshRow := List.filter (chain_row clientID userID) (t_refresh t).

End Server.

(** ** The sweep *)

Section Sweep.
Context `{UuidLib} {R : Type} (rkey : R -> uuid) (expired : R -> bool) (pick : nat -> list R -> list uuid).

(** LIMIT: as many different rows as there are, up to the limit. *)
Definition picks_rows : Prop := forall n l, NoDup (map rkey l) ->
  NoDup (pick n l) /\ length (pick n l) = Nat.min n (length l) /\ forall id, id ∈ pick n l -> id ∈ map rkey l.

Lemma removed_length ids rows : NoDup (map rkey rows) -> NoDup ids -> (forall id, id ∈ ids -> id ∈ map rkey rows) ->
  (length rows - length (remaining rkey ids rows))%nat = length ids.
Proof.
  intros Hr Hi Hsub. set (p := fun r => bool_decide (rkey r ∈ ids)).
  assert (length (List.filter p rows) + length (remaining rkey ids rows) = length rows)%nat as Hlen.
  { unfold remaining, p. clear. induction rows as [|r rows IH]; [done|]. cbn [List.filter]. destruct (bool_decide _); cbn [negb length]; lia. }
  assert (length (List.filter p rows) = length ids) as <-; [|lia].
  rewrite <- (length_map rkey). apply Permutation_length, NoDup_Permutation; [|done|].
  - eapply NoDup_sublist_map; [apply filter_sublist|done].
  - intros id. rewrite list_elem_of_In, in_map_iff. setoid_rewrite filter_In. unfold p. setoid_rewrite bool_decide_eq_true. split.
    + by intros (r & <- & _ & Hin).
    + intros Hin. destruct (proj1 (list_elem_of_fmap _ _ _) (Hsub id Hin)) as (r & -> & Hrin). exists r. rewrite <- list_elem_of_In. done.
Qed.

Lemma expired_remaining ids rows : NoDup (map rkey rows) -> NoDup ids -> (forall id, id ∈ ids -> id ∈ map rkey (List.filter expired rows)) ->
  (length (List.filter expired rows) = length ids + length (List.filter expired (remaining rkey ids rows)))%nat /\
  List.filter (fun r => negb (expired r)) (remaining rkey ids rows) = List.filter (fun r => negb (expired r)) rows.
Proof.
  intros Hr Hi Hsub.
  assert (forall l, List.filter expired (remaining rkey ids l) = remaining rkey ids (List.filter expired l)) as Hcomm.
  { induction l as [|r l IH]; [done|]. unfold remaining in *. cbn.
    destruct (expired r) eqn:E, (bool_decide (rkey r ∈ ids)) eqn:E2; cbn; rewrite ?E, ?E2, ?IH; done. }
  split.
  - rewrite Hcomm. rewrite <- (removed_length ids (List.filter expired rows)); [|eapply NoDup_sublist_map; [apply filter_sublist|done]|done|done].
    pose proof (sublist_length _ _ (filter_sublist (fun r => negb (bool_decide (rkey r ∈ ids))) (List.filter expired rows))) as Hle.
    unfold remaining in *. lia.
  - assert (forall l, (forall r, r ∈ l -> r ∈ rows) -> List.filter (fun r => negb (expired r)) (remaining rkey ids l) = List.filter (fun r => negb (expired r)) l) as Hl;
      [|by apply Hl].
    induction l as [|r l IH]; intros Hl; [done|]. unfold remaining in *. cbn.
    assert (expired r = false -> rkey r ∉ ids) as Hkeep.
    { intros Ee Hin. apply Hsub in Hin. apply list_elem_of_fmap in Hin as (r' & Hk & Hin'). apply list_elem_of_In, filter_In in Hin' as [Hin' Ee'].
      assert (r = r') as ->; [|congruence]. apply list_elem_of_In in Hin'.
      assert (r ∈ rows) as Hrr by (apply Hl; left). apply list_elem_of_lookup in Hrr as [i Hx]. apply list_elem_of_lookup in Hin' as [j Hy].
      assert (i = j) as <-; [|by simplify_eq]. eapply (NoDup_lookup (rkey <$> rows)); [exact Hr| |]; rewrite list_lookup_fmap, ?Hx, ?Hy; cbn; [done|by rewrite Hk]. }
    destruct (expired r) eqn:E; cbn.
    + destruct (bool_decide _); cbn; rewrite ?E; cbn; apply IH; intros; apply Hl; by right.
    + rewrite bool_decide_false by auto. cbn. rewrite E. cbn. f_equal. apply IH. intros. apply Hl. by right.
Qed.

(** A sweep ends and deletes exactly the expired rows of a table no other
    rows refer to, whichever rows Postgres puts in each batch; the count it
    reports is theirs. *)
Lemma sweep_exact batchSize rows :
  picks_rows -> NoDup (map rkey rows) -> (1 <= batchSize)%nat ->
  deleteInBatches rkey (fun _ => None) expired pick batchSize rows
  = (Ok (length (List.filter expired rows)), List.filter (fun r => negb (expired r)) rows).
Proof.
  intros Hpick Hnd Hn. unfold deleteInBatches.
  assert (forall fuel rows total, NoDup (map rkey rows) -> (length (List.filter expired rows) < fuel)%nat ->
    delete_loop rkey (fun _ => None) expired pick batchSize fuel rows total
    = (Ok (total + length (List.filter expired rows))%nat, List.filter (fun r => negb (expired r)) rows)) as Hloop.
  { clear Hnd rows. induction fuel as [|fuel IH]; intros rows total Hnd Hf; [lia|]. cbn [delete_loop]. unfold delete_batch.
    set (m := length (List.filter expired rows)) in *.
    assert (NoDup (map rkey (List.filter expired rows))) as Hnde by (eapply NoDup_sublist_map; [apply filter_sublist|done]).
    destruct (Hpick batchSize (List.filter expired rows) Hnde) as (Hi & Hlen & Hsub). set (ids := pick _ _) in *. fold m in Hlen.
    assert (dangling rkey (fun _ : R => None) ids rows = false) as ->.
    { unfold dangling. induction (remaining rkey ids rows); done. }
    rewrite removed_length; [|done|done|].
    2:{ intros id Hid. apply Hsub in Hid. apply list_elem_of_fmap in Hid as (r & -> & Hr). apply list_elem_of_fmap. exists r.
        split; [done|]. apply list_elem_of_In, filter_In in Hr as [Hr _]. by apply list_elem_of_In. }
    destruct (expired_remaining ids rows Hnd Hi Hsub) as [Hcount Hkeep]. fold m in Hcount. rewrite Hlen in *.
    destruct (Nat.ltb_spec (Nat.min batchSize m) batchSize) as [Hlt|Hge].
    - replace (Nat.min batchSize m) with m in * by lia. f_equal. rewrite <- Hkeep.
      assert (List.filter expired (remaining rkey ids rows) = []) as He by (apply nil_length_inv; lia).
      generalize dependent (remaining rkey ids rows). clear. intros l _ _ He. induction l as [|r l IH]; [done|]. cbn in *.
      destruct (expired r); [done|]. cbn. f_equal. by apply IH.
    - rewrite IH; [|eapply NoDup_sublist_map; [apply filter_sublist|done]|lia]. rewrite Hkeep. do 2 f_equal. lia. }
  rewrite Hloop; [done|done|]. pose proof (sublist_length _ _ (filter_sublist expired rows)). lia.
Qed.
End Sweep.

(** ** Texts *)

Definition hex_value (c : ascii) : N :=
  let b := N_of_ascii c in if is_digit b then (b - 48)%N else (b - 55)%N.

(** What a server reads of a percent-encoded text. *)
Fixpoint percent_decode (s : string) : string :=
  match s with
  | String c s' =>
    if Ascii.eqb c "%" then
      match s' with
      | String h (String l s'') => String (ascii_of_N (hex_value h * 16 + hex_value l)) (percent_decode s'')
      | _ => s
      end
    else String c (percent_decode s')
  | EmptyString => ""
  end.

(** The code and the state reach the client unchanged: a percent-encoded text
    reads back as it was. *)
Lemma percentEncode_roundtrip s : percent_decode (percentEncode s) = s.
Proof.
  induction s as [|c s IH]; [done|]. cbn [percentEncode]. destruct (unreserved c) eqn:E.
  - cbn [percent_decode]. destruct (Ascii.eqb_spec c "%") as [->|]; [by vm_compute in E|]. by rewrite IH.
  - cbn [percent_decode Ascii.eqb Bool.eqb]. rewrite IH. f_equal. clear. by destruct c as [[] [] [] [] [] [] [] []].
Qed.

(** ** Concrete runs *)

#[local] Existing Instance TestUuid.

#[local] Instance TestCrypto : OAuthCrypto := { HashToken s := "h:" +:+ s; s256 s := "s:" +:+ s }.
(** Tokens that only show their user and scope. *)
#[local] Instance ShownJwt : Jwt := { jwt_sign _ w := tw_sub w +:+ "/" +:+ default "" (tw_scope w); jwt_open _ _ := None }.

Definition draws (now : Z) (id token : string) : Draws := mkDraws now id token "secret" "jti" (Ok "svc").

(** A request with its values, most of them empty. *)
Definition request (auth : authError + RequestContext) (values : list (string * string)) : OAuthRequest :=
  mkOAuthRequest auth "" (fun k => match List.find (fun kv => String.eqb (fst kv) k) values with Some (_, v) => v | None => "" end).

Definition admin_auth : authError + RequestContext := inr (mkRequestContext "uuid-t1" "uuid-admin" (Some ["admin"]) true "" None "").
Definition user_context : RequestContext := mkRequestContext "uuid-t1" "uuid-u1" (Some ["clerk"]) true "" None "".
Definition nobody_auth : authError + RequestContext := inl (Unauthorized "").

Definition app_body : createOAuthClientBody := mkClientBody "App" ["https://app/cb"] ["read:crm.lead"; "write:crm.lead"] None.

Definition authorize_values (scope : string) : list (string * string) :=
  [("response_type", "code"); ("client_id", "mcl_app"); ("redirect_uri", "https://app/cb"); ("scope", scope); ("state", "x y")].
Definition token_values (grant : string) : list (string * string) :=
  [("client_id", "mcl_app"); ("client_secret", "secret"); ("grant_type", grant); ("code", "c1"); ("redirect_uri", "https://app/cb"); ("refresh_token", "r1")].

Definition serve (calls : list oauth_call) : OAuthTables := fold_left (fun t c => after_call "k" c t) calls (mkTables [] [] [] [] ∅).

Lemma serve_reachable calls : oauth_reachable "k" (serve calls).
Proof.
  unfold serve. assert (forall l t, oauth_reachable "k" t -> oauth_reachable "k" (fold_left (fun t c => after_call "k" c t) l t)) as Hl;
    [|apply Hl; constructor].
  induction l as [|c l IH]; intros t Ht; [done|]. cbn [fold_left]. apply IH. by constructor.
Qed.

(** Both sides are evaluated by the kernel's machine. *)
Ltac by_evaluation := match goal with |- _ = ?r => vm_cast_no_check (eq_refl r) end.

(** An application is registered, a user approves it, the code is issued. *)
Definition registered : list oauth_call := [CallCreateClient (draws 0 "app" "app") (request admin_auth []) (Some app_body)].
Definition approved : list oauth_call :=
  registered ++ [CallAuthorize (draws 10 "q1" "") (request (inr user_context) (authorize_values "read:crm.lead"));
                 CallDecision (draws 20 "c1" "c1") (request (inr user_context) []) (Some ("q1", true))].
Definition code_request : OAuthRequest := request nobody_auth (token_values "authorization_code").
Definition exchanged : list oauth_call := approved ++ [CallToken (draws 30 "r1" "r1") code_request].
Definition refresh_request : OAuthRequest := request nobody_auth (token_values "refresh_token").

Definition approved_tables : OAuthTables := serve approved.
Definition exchanged_tables : OAuthTables := serve exchanged.

Definition code_answer : result exit OAuthResponse * OAuthTables := Eval vm_compute in tokenEndpoint "k" (draws 30 "r1" "r1") code_request approved_tables.
Definition refresh_answer : result exit OAuthResponse * OAuthTables :=
  Eval vm_compute in tokenEndpoint "k" (draws 40 "r2" "r2") refresh_request exchanged_tables.

Definition issued (a : result exit OAuthResponse * OAuthTables) : oauthTokenResponse :=
  match fst a with Ok (TokenIssued r) => r | _ => mkTokenResponse "" "" 0 None "" end.
Definition code_response : oauthTokenResponse := Eval vm_compute in issued code_answer.
Definition refresh_response : oauthTokenResponse := Eval vm_compute in issued refresh_answer.

Lemma issued_tokens_within_registration_witness :
  exists k, k ∈ t_clients approved_tables /\ ScopeIsSubset (tr_Scope code_response) (Join (oc_AllowedScopes (cw_Client k)) " ") = true.
Proof.
  destruct (issued_tokens_within_registration "k" approved_tables (draws 30 "r1" "r1") code_request code_response (snd code_answer))
    as (k & id & secret & user & _ & Hg & _ & _ & Hs & _); [exact (serve_reachable approved)|by_evaluation|].
  exists k. split; [exact (GetClientByClientID_elem _ _ _ Hg)|exact Hs].
Defined.

Lemma code_redeemed_once_witness :
  code_answer = (Ok (TokenIssued code_response), snd code_answer) /\
  forall resp t3, tokenEndpoint "k" (draws 50 "r9" "r9") code_request (snd code_answer) <> (Ok (TokenIssued resp), t3).
Proof.
  split; [by_evaluation|].
  refine (code_redeemed_once "k" approved_tables (draws 30 "r1" "r1") code_request code_response (snd code_answer) (snd code_answer)
    (draws 50 "r9" "r9") code_request _ _ _ _ _ _); [by_evaluation|reflexivity|exact (serve_reachable approved)
    |constructor|reflexivity|reflexivity].
Defined.


Lemma sweep_exact_witness :
  deleteInBatches (fun n : string => n) (fun _ => None) (fun n => String.eqb n "old") (fun n l => take n l) 1 ["new"; "old"]
  = (Ok 1%nat, ["new"]).
Proof.
  refine (sweep_exact (fun n : string => n) (fun n => String.eqb n "old") (fun n l => take n l) 1 ["new"; "old"] _ _ _).
  - intros n l Hl. rewrite map_id in Hl. rewrite map_id. split; [eapply sublist_NoDup; [exact Hl|apply sublist_take]|].
    split; [apply length_take|]. intros id Hid. eapply elem_of_sublist; [exact Hid|apply sublist_take].
  - apply (bool_decide_unpack _). vm_compute. exact I.
  - lia.
Defined.

(** *** Where the guarantees end *)

(** Two refreshes with the same token whose SELECTs both run before either commits. *)
Definition first_refresh : result exit ConsumeRefreshOutcome * OAuthTables :=
  Eval vm_compute in rotate 40 "r2" "r2" "app" (find_refresh exchanged_tables "r1" "app") exchanged_tables.
Definition second_refresh : result exit ConsumeRefreshOutcome * OAuthTables :=
  Eval vm_compute in rotate 40 "r3" "r3" "app" (find_refresh exchanged_tables "r1" "app") (snd first_refresh).

(** Rotation reads the token without a lock and later marks it by its
    identifier, whatever became of it: when two requests present the same refresh
    token at the same time, both are given a new one, and both new tokens are
    live. The replay is not noticed, where one after the other the second would
    have ended the chain. *)
Lemma concurrent_refresh_both_rotate :
  (exists a b, fst first_refresh = Ok (RefreshRotated a "r2") /\ fst second_refresh = Ok (RefreshRotated b "r3")) /\
  map rr_Hash (live_tokens (snd second_refresh) "app" "u1") = ["h:r2"; "h:r3"] /\
  fst (ConsumeRefreshToken 40 "r3" "r3" "r1" "app" (snd first_refresh)) = Ok RefreshReused.
Proof. split; [|split]; [eexists _, _; split; reflexivity|vm_compute; reflexivity|vm_compute; reflexivity]. Qed.

Definition all_rows : Picks :=
  mkPicks (fun n l => take n (map code_key l)) (fun n l => take n (map refresh_key l)) (fun n l => take n (map pending_key l)).

(** A day and a minute after the exchange of r1, with the successor still live. *)
Definition swept_tables : OAuthTables := Eval vm_compute in snd (DeleteExpiredInBatches all_rows (40 + 86460) 50 (snd refresh_answer)).

(** The sweep removes the row of an exchanged token a day after the
    exchange, while its successor lives thirty. A stolen token replayed after
    that is answered like one that never existed: the successor stays live,
    where an hour earlier the replay would have revoked it. *)
Lemma sweep_forgets_reuse :
  map rr_Hash (live_tokens swept_tables "app" "u1") = ["h:r2"] /\
  fst (ConsumeRefreshToken (40 + 86500) "r8" "r8" "r1" "app" swept_tables) = Ok RefreshInvalid /\
  map rr_Hash (live_tokens (snd (ConsumeRefreshToken (40 + 86500) "r8" "r8" "r1" "app" swept_tables)) "app" "u1") = ["h:r2"] /\
  (let '(outcome, t) := ConsumeRefreshToken (40 + 82800) "r8" "r8" "r1" "app" (snd refresh_answer) in
   outcome = Ok RefreshReused /\ live_tokens t "app" "u1" = []).
Proof. vm_compute. auto. Qed.

(** The sweep deletes the newest rows first. *)
Definition newest_first : Picks :=
  mkPicks (fun n l => take n (rev (map code_key l))) (fun n l => take n (rev (map refresh_key l))) (fun n l => take n (rev (map pending_key l))).

Definition chain_ended : OAuthTables := Eval vm_compute in snd (RevokeRefreshToken 45 "r2" "app" (snd refresh_answer)).

(** A batch that takes a token and not the older one it replaced is refused by the
    foreign key of replaced_by, and the sweep with it. *)
Lemma sweep_breaks_on_replaced_by :
  fst (DeleteExpiredInBatches newest_first (45 + 86460) 1 chain_ended) = Err (Failed foreign_key_error).
Proof. vm_compute. reflexivity. Qed.

(** The application's own token, granted for reading. *)
Definition scoped_auth : authError + RequestContext := inr (ApplyOAuthGrant user_context "read:crm.lead" "mcl_app" true).

Definition widened : list oauth_call :=
  exchanged ++ [CallAuthorize (draws 50 "q2" "") (request scoped_auth (authorize_values "write:crm.lead"));
                CallDecision (draws 51 "c2" "c2") (request scoped_auth []) (Some ("q2", true))].
Definition widened_tables : OAuthTables := Eval vm_compute in serve widened.

Definition wide_request : OAuthRequest :=
  request nobody_auth [("client_id", "mcl_app"); ("client_secret", "secret"); ("grant_type", "authorization_code"); ("code", "c2"); ("redirect_uri", "https://app/cb")].
Definition wide_response : oauthTokenResponse := Eval vm_compute in issued (tokenEndpoint "k" (draws 52 "r5" "r5") wide_request widened_tables).

(** Consent can be given with a token that was itself granted to a client:
    an application that was approved for reading uses its own access token to
    ask for writing and to approve the request, and is issued a token for
    writing. The user takes no part after the first approval, and that token is
    outside the scope the application acted under. *)
Lemma scoped_token_widens_its_grant :
  ScopePermits (ApplyOAuthGrant user_context "read:crm.lead" "mcl_app" true) "crm.lead" ActionUpdate = false /\
  GetConsentScope exchanged_tables "app" "u1" = Some "read:crm.lead" /\
  tr_Scope wide_response = "write:crm.lead" /\
  fst (tokenEndpoint "k" (draws 52 "r5" "r5") wide_request widened_tables) = Ok (TokenIssued wide_response) /\
  GetConsentScope widened_tables "app" "u1" = Some "read:crm.lead write:crm.lead".
Proof. split_and!; vm_compute; reflexivity. Qed.
