(* ===== verification/SchemaDiff.v ===== *)
(** The difference of two physical schemas (src/go/reconciler/diff.go), the SQL
    of each operation (buildSQL and its helpers, executor.go) and the preview
    of both (plan.go). An operation is a value of a sum type; the source has
    a struct with a kind tag of which only the kind's fields are set. *)
From S2P Require Import Prelude GoStrings GoText Json Condition Context Evaluate Metadata Schema.

Open Scope string_scope.
Open Scope list_scope.

(** ** Operations *)

Inductive DdlOp : Type :=
| OpCreateTable
| OpAddColumn (name : string) (spec : ColumnSpec)
| OpRenameColumn (from to : string)
| OpAddSyncTrigger (field sqlType : string)
| OpBackfillColumn (opID column sourceField sqlType : string)
| OpCreateIndexConcurrently (name : string) (spec : IndexSpec)
| OpDropIndexConcurrently (name : string)
| OpAddForeignKeyNotValid (name : string) (spec : FkSpec)
| OpValidateForeignKey (name : string)
| OpDropForeignKey (name : string)
| OpAddUnique (name : string) (spec : UniqueSpec)
| OpDropUnique (name : string).

Inductive Cost : Type := CostInstant | CostBackgroundFast | CostHeavy.
Inductive ExecutionMode : Type := ModeTransactional | ModeNonTransactional | ModeBatched.

Definition DdlOp_Cost (op : DdlOp) : Cost :=
  match op with
  | OpBackfillColumn _ _ _ _ => CostHeavy
  | OpCreateIndexConcurrently _ _ | OpDropIndexConcurrently _ | OpValidateForeignKey _ => CostBackgroundFast
  | _ => CostInstant
  end.

Definition DdlOp_ExecutionMode (op : DdlOp) : ExecutionMode :=
  match op with
  | OpCreateIndexConcurrently _ _ | OpDropIndexConcurrently _ => ModeNonTransactional
  | OpBackfillColumn _ _ _ _ => ModeBatched
  | _ => ModeTransactional
  end.

Definition BackfillOpID (table column : string) : string := "backfill:" +:+ table +:+ ":" +:+ column.

(** ** Diff *)

Definition sortedKeys {V} (m : gmap string V) : list string := sort_strings (map fst (map_to_list m)).

Definition whereClauseMatches (actual desired : string) : bool :=
  if String.eqb actual "" && String.eqb desired "" then true
  else if String.eqb actual "" || String.eqb desired "" then false
  else String.eqb (NormalizeExpr actual) (NormalizeExpr desired).

Definition indexMatches (actual desired : IndexSpec) : bool :=
  String.eqb (NormalizeExpr (ix_Expression actual)) (NormalizeExpr (ix_Expression desired))
  && Bool.eqb (ix_Unique actual) (ix_Unique desired)
  && String.eqb (ix_Using actual) (ix_Using desired)
  && whereClauseMatches (ix_WhereClause actual) (ix_WhereClause desired).

Definition fkMatches (actual desired : FkSpec) : bool :=
  String.eqb (fk_Column actual) (fk_Column desired) && String.eqb (fk_RefTable actual) (fk_RefTable desired)
  && String.eqb (fk_RefColumn actual) (fk_RefColumn desired) && OnDelete_eqb (fk_OnDelete actual) (fk_OnDelete desired).

Fixpoint stringSlicesEqual (a b : list string) : bool :=
  match a, b with
  | [], [] => true
  | x :: a', y :: b' => String.eqb x y && stringSlicesEqual a' b'
  | _, _ => false
  end.

Definition pushSyncAndBackfill (table column sourceField sqlType : string) : list DdlOp :=
  [OpAddSyncTrigger sourceField sqlType; OpBackfillColumn (BackfillOpID table column) column sourceField sqlType].

Definition has {V} (m : gmap string V) (k : string) : bool := match m !! k with Some _ => true | None => false end.

(** Step 1: the renames, applied in order to the columns. *)
Fixpoint rename_columns (desired : gmap string ColumnSpec) (columns : gmap string ColumnSpec)
    (renames : list (string * string)) : list DdlOp * gmap string ColumnSpec :=
  match renames with
  | [] => ([], columns)
  | (from, to) :: renames' =>
    if has columns to then rename_columns desired columns renames' else
    match columns !! from with
    | None => rename_columns desired columns renames'
    | Some spec =>
      if has desired to then
        let '(ops, columns') := rename_columns desired (<[to := spec]> (delete from columns)) renames' in
        (OpRenameColumn from to :: ops, columns')
      else rename_columns desired columns renames'
    end
  end.

Definition is_generated (o : ColumnOrigin) : bool := match o_Kind o with OriginGenerated => true | _ => false end.

(** Step 2: one column of the desired schema. *)
Definition column_ops (table : string) (columns : gmap string ColumnSpec) (name : string) (spec : ColumnSpec) : list DdlOp :=
  match columns !! name with
  | None =>
    OpAddColumn name spec
    :: (if is_generated (col_Origin spec)
        then pushSyncAndBackfill table name (o_SourceField (col_Origin spec)) (col_SQLType spec) else [])
  | Some actualSpec =>
    if is_generated (col_Origin actualSpec) && negb (o_Backfilled (col_Origin actualSpec))
    then pushSyncAndBackfill table name (o_SourceField (col_Origin actualSpec)) (col_SQLType spec) else []
  end.

(** Step 3: an index of the desired schema, and one of the actual schema. *)
Definition index_ops (indexes : gmap string IndexSpec) (name : string) (spec : IndexSpec) : list DdlOp :=
  match indexes !! name with
  | None => [OpCreateIndexConcurrently name spec]
  | Some actualIdx =>
    if negb (ix_Valid actualIdx) || negb (indexMatches actualIdx spec)
    then [OpDropIndexConcurrently name; OpCreateIndexConcurrently name spec] else []
  end.

Definition stale_index_ops (desired : gmap string IndexSpec) (uniques : gmap string UniqueSpec) (name : string) : list DdlOp :=
  if has desired name then [] else if has uniques name then [] else [OpDropIndexConcurrently name].

(** Step 4: foreign keys. *)
Definition fk_ops (fks : gmap string FkSpec) (name : string) (spec : FkSpec) : list DdlOp :=
  match fks !! name with
  | None => [OpAddForeignKeyNotValid name spec; OpValidateForeignKey name]
  | Some actualFk =>
    if negb (fkMatches actualFk spec)
    then [OpDropForeignKey name; OpAddForeignKeyNotValid name spec; OpValidateForeignKey name]
    else if negb (fk_Validated actualFk) then [OpValidateForeignKey name] else []
  end.

Definition stale_fk_ops (desired : gmap string FkSpec) (name : string) : list DdlOp :=
  if has desired name then [] else [OpDropForeignKey name].

(** Step 5: unique constraints. *)
Definition unique_ops (uniques : gmap string UniqueSpec) (name : string) (spec : UniqueSpec) : list DdlOp :=
  match uniques !! name with
  | None => [OpAddUnique name spec]
  | Some actualUq =>
    if negb (stringSlicesEqual (uq_Columns actualUq) (uq_Columns spec))
    then [OpDropUnique name; OpAddUnique name spec] else []
  end.

Definition stale_unique_ops (desired : gmap string UniqueSpec) (name : string) : list DdlOp :=
  if has desired name then [] else [OpDropUnique name].

(** for _, name := range sortedKeys(m) { ... m[name] ... } *)
Definition each_sorted {V} (m : gmap string V) (body : string -> V -> list DdlOp) : list DdlOp :=
  flat_map (fun name => match m !! name with Some v => body name v | None => [] end) (sortedKeys m).

Definition rank (op : DdlOp) : nat :=
  match op with
  | OpCreateTable => 0
  | OpRenameColumn _ _ => 1
  | OpAddColumn _ _ => 2
  | OpAddSyncTrigger _ _ => 3
  | OpBackfillColumn _ _ _ _ => 4
  | OpDropForeignKey _ => 5
  | OpDropUnique _ => 6
  | OpDropIndexConcurrently _ => 7
  | OpCreateIndexConcurrently _ _ => 8
  | OpAddUnique _ _ => 9
  | OpAddForeignKeyNotValid _ _ => 10
  | OpValidateForeignKey _ => 11
  end.

(** sort.SliceStable by rank. *)
Fixpoint insert_op (op : DdlOp) (ops : list DdlOp) : list DdlOp :=
  match ops with
  | [] => [op]
  | o :: ops' => if (rank o <? rank op)%nat then o :: insert_op op ops' else op :: ops
  end.
Definition topoSort (ops : list DdlOp) : list DdlOp := foldr insert_op [] ops.

Definition Diff (desired : PhysicalSchema) (actual : option PhysicalSchema) (renames : list (string * string)) : list DdlOp :=
  let '(created, actualCopy) :=
    match actual with
    | None => ([OpCreateTable], EmptySchema (ps_Table desired))
    | Some s => ([], s)
    end in
  let '(renamed, columns) := rename_columns (ps_Columns desired) (ps_Columns actualCopy) renames in
  topoSort
    (created ++ renamed
     ++ each_sorted (ps_Columns desired) (column_ops (ps_Table desired) columns)
     ++ each_sorted (ps_Indexes desired) (index_ops (ps_Indexes actualCopy))
     ++ each_sorted (ps_Indexes actualCopy) (fun name _ => stale_index_ops (ps_Indexes desired) (ps_Uniques actualCopy) name)
     ++ each_sorted (ps_ForeignKeys desired) (fk_ops (ps_ForeignKeys actualCopy))
     ++ each_sorted (ps_ForeignKeys actualCopy) (fun name _ => stale_fk_ops (ps_ForeignKeys desired) name)
     ++ each_sorted (ps_Uniques desired) (unique_ops (ps_Uniques actualCopy))
     ++ each_sorted (ps_Uniques actualCopy) (fun name _ => stale_unique_ops (ps_Uniques desired) name)).

(** ** The SQL of an operation (executor.go) *)

Definition buildCreateIndexSQL (table name : string) (spec : IndexSpec) : string :=
  let unique := if ix_Unique spec then "UNIQUE " else "" in
  let access := if String.eqb (ix_Using spec) "" then "" else "USING " +:+ ix_Using spec +:+ " " in
  let whereClause := if String.eqb (ix_WhereClause spec) "" then "" else " WHERE " +:+ ix_WhereClause spec in
  "CREATE " +:+ unique +:+ "INDEX CONCURRENTLY IF NOT EXISTS " +:+ quoteIdent name +:+ " ON "
  +:+ quoteQualifiedIdent table +:+ " " +:+ access +:+ "(" +:+ ix_Expression spec +:+ ")" +:+ whereClause.

Definition buildAddFkSQL (table name : string) (spec : FkSpec) : string :=
  "ALTER TABLE " +:+ quoteQualifiedIdent table +:+ " ADD CONSTRAINT " +:+ quoteIdent name
  +:+ " FOREIGN KEY (" +:+ quoteIdent (fk_Column spec) +:+ ") REFERENCES " +:+ quoteQualifiedIdent (fk_RefTable spec)
  +:+ " (" +:+ quoteIdent (fk_RefColumn spec) +:+ ") ON DELETE " +:+ OnDelete_SQL (fk_OnDelete spec) +:+ " NOT VALID".

Definition buildAddUniqueSQL (table name : string) (spec : UniqueSpec) : string :=
  "ALTER TABLE " +:+ quoteQualifiedIdent table +:+ " ADD CONSTRAINT " +:+ quoteIdent name
  +:+ " UNIQUE (" +:+ Join (map quoteIdent (uq_Columns spec)) ", " +:+ ")".

Definition sync_name (prefix table field : string) : string :=
  prefix +:+ after_last table "." +:+ "_" +:+ field.

Definition buildSyncTriggerSQL (table field sqlType : string) : list string :=
  let fnName := quoteIdent (sync_name "sync_" table field) in
  let triggerName := quoteIdent (sync_name "trg_sync_" table field) in
  [ "CREATE OR REPLACE FUNCTION " +:+ fnName +:+ "() RETURNS trigger AS $$ BEGIN NEW." +:+ quoteIdent field
    +:+ " := (NEW.data ->> " +:+ quoteLiteral field +:+ ")::" +:+ sqlType
    +:+ "; RETURN NEW; END; $$ LANGUAGE plpgsql";
    "CREATE OR REPLACE TRIGGER " +:+ triggerName +:+ " BEFORE INSERT OR UPDATE ON " +:+ quoteQualifiedIdent table
    +:+ " FOR EACH ROW EXECUTE FUNCTION " +:+ fnName +:+ "()" ].

(** The columns of CREATE TABLE, as the statement lists them; its line breaks are not kept. *)
Definition create_table_columns : list string :=
  [ "id uuid PRIMARY KEY DEFAULT gen_random_uuid()";
    "tenant_id uuid NOT NULL";
    "code varchar(120)";
    "status varchar(80)";
    "data jsonb NOT NULL DEFAULT '{}'::jsonb";
    "version integer NOT NULL DEFAULT 1";
    "deleted boolean NOT NULL DEFAULT false";
    "created_at timestamptz NOT NULL DEFAULT now()";
    "updated_at timestamptz NOT NULL DEFAULT now()";
    "created_by uuid";
    "updated_by uuid" ].

(** The schema of a table name: the panic of schemaOf is the caller's. *)
Definition buildSQL (table : string) (op : DdlOp) : result CompileError (list string) :=
  let t := quoteQualifiedIdent table in
  match op with
  | OpCreateTable => Ok ["CREATE TABLE IF NOT EXISTS " +:+ t +:+ " (" +:+ Join create_table_columns ", " +:+ ")"]
  | OpAddColumn name spec => Ok ["ALTER TABLE " +:+ t +:+ " ADD COLUMN IF NOT EXISTS " +:+ quoteIdent name +:+ " " +:+ col_SQLType spec]
  | OpRenameColumn from to => Ok ["ALTER TABLE " +:+ t +:+ " RENAME COLUMN " +:+ quoteIdent from +:+ " TO " +:+ quoteIdent to]
  | OpAddSyncTrigger field sqlType => Ok (buildSyncTriggerSQL table field sqlType)
  | OpBackfillColumn _ _ _ _ => Ok []
  | OpCreateIndexConcurrently name spec => Ok [buildCreateIndexSQL table name spec]
  | OpDropIndexConcurrently name =>
    let! schema := schemaOf table in
    Ok ["DROP INDEX CONCURRENTLY IF EXISTS " +:+ quoteIdent schema +:+ "." +:+ quoteIdent name]
  | OpAddForeignKeyNotValid name spec => Ok [buildAddFkSQL table name spec]
  | OpValidateForeignKey name => Ok ["ALTER TABLE " +:+ t +:+ " VALIDATE CONSTRAINT " +:+ quoteIdent name]
  | OpDropForeignKey name => Ok ["ALTER TABLE " +:+ t +:+ " DROP CONSTRAINT IF EXISTS " +:+ quoteIdent name]
  | OpAddUnique name spec => Ok [buildAddUniqueSQL table name spec]
  | OpDropUnique name => Ok ["ALTER TABLE " +:+ t +:+ " DROP CONSTRAINT IF EXISTS " +:+ quoteIdent name]
  end.

(** ** The preview (plan.go) *)

Record PlannedOp : Type := mkPlannedOp { po_Op : DdlOp; po_SQL : list string }.

Definition Plan (desired : PhysicalSchema) (actual : option PhysicalSchema) (renames : list (string * string))
    : result CompileError (list PlannedOp) :=
  mapR (fun op => let! sql := buildSQL (ps_Table desired) op in Ok (mkPlannedOp op sql)) (Diff desired actual renames).

(** ** Lemmas: sorting by rank *)

Lemma sortedKeys_elem {V} (m : gmap string V) name : name ∈ sortedKeys m <-> is_Some (m !! name).
Proof.
  unfold sortedKeys. rewrite sort_strings_perm, list_elem_of_fmap. split.
  - intros ([k v] & -> & H%elem_of_map_to_list). by exists v.
  - intros [v H]. exists (name, v). split; [done|]. by apply elem_of_map_to_list.
Qed.

Lemma sortedKeys_NoDup {V} (m : gmap string V) : NoDup (sortedKeys m).
Proof. unfold sortedKeys. rewrite sort_strings_perm. apply NoDup_fst_map_to_list. Qed.

Lemma elem_of_each_sorted {V} (m : gmap string V) body op :
  op ∈ each_sorted m body <-> exists name v, m !! name = Some v /\ op ∈ body name v.
Proof.
  unfold each_sorted. rewrite list_elem_of_In, in_flat_map. split.
  - intros (name & _ & H). destruct (m !! name) as [v|] eqn:E; [|done]. rewrite <- list_elem_of_In in H. eauto.
  - intros (name & v & H & Hin). exists name. rewrite <- !list_elem_of_In, H. split; [|done].
    apply sortedKeys_elem. eauto.
Qed.

Lemma each_sorted_nil {V} (m : gmap string V) body :
  each_sorted m body = [] <-> forall name v, m !! name = Some v -> body name v = [].
Proof.
  split.
  - intros H name v Hm. destruct (body name v) as [|op l] eqn:E; [done|]. exfalso.
    assert (op ∈ each_sorted m body) as Hin; [|rewrite H in Hin; by apply elem_of_nil in Hin].
    apply elem_of_each_sorted. exists name, v. rewrite E. split; [done|left].
  - intros H. destruct (each_sorted m body) as [|op l] eqn:E; [done|]. exfalso.
    assert (op ∈ each_sorted m body) as Hin by (rewrite E; left).
    apply elem_of_each_sorted in Hin as (name & v & Hm & Hin). rewrite (H _ _ Hm) in Hin. by apply elem_of_nil in Hin.
Qed.

Lemma insert_op_perm op ops : insert_op op ops ≡ₚ op :: ops.
Proof.
  induction ops as [|o ops IH]; simpl; [done|]. destruct (rank o <? rank op)%nat; [|done]. rewrite IH. apply perm_swap.
Qed.

Lemma topoSort_perm ops : topoSort ops ≡ₚ ops.
Proof. induction ops as [|o ops IH]; simpl; [done|]. rewrite insert_op_perm. by rewrite IH. Qed.

Lemma topoSort_nil ops : topoSort ops = [] <-> ops = [].
Proof.
  split; [|by intros ->]. intros H. pose proof (topoSort_perm ops) as P. rewrite H in P. by apply Permutation_nil_l in P.
Qed.

Definition of_rank (r : nat) (ops : list DdlOp) : list DdlOp := List.filter (fun op => (rank op =? r)%nat) ops.

(** The operations of ranks [from], [from]+1, ..., in order. *)
Definition buckets (from n : nat) (ops : list DdlOp) : list DdlOp := flat_map (fun r => of_rank r ops) (seq from n).

Lemma of_rank_cons r op ops : of_rank r (op :: ops) = if (rank op =? r)%nat then op :: of_rank r ops else of_rank r ops.
Proof. done. Qed.

Lemma buckets_cons_other from n op ops :
  (rank op < from)%nat -> buckets from n (op :: ops) = buckets from n ops.
Proof.
  unfold buckets. revert from. induction n as [|n IH]; intros from H; cbn [seq flat_map]; [done|].
  rewrite of_rank_cons. destruct (Nat.eqb_spec (rank op) from); [lia|]. by rewrite IH by lia.
Qed.

Lemma insert_op_app_lower op l1 l2 :
  Forall (fun o => (rank o < rank op)%nat) l1 -> insert_op op (l1 ++ l2) = l1 ++ insert_op op l2.
Proof.
  induction l1 as [|o l1 IH]; [done|]. intros [H1 H2]%Forall_cons. simpl.
  destruct (Nat.ltb_spec (rank o) (rank op)); [|lia]. by rewrite IH.
Qed.

Lemma insert_op_higher op l : Forall (fun o => (rank op <= rank o)%nat) l -> insert_op op l = op :: l.
Proof. intros H. destruct H as [|o l H]; simpl; [done|]. destruct (Nat.ltb_spec (rank o) (rank op)); [lia|done]. Qed.

Lemma of_rank_rank r ops : Forall (fun o => rank o = r) (of_rank r ops).
Proof. apply Forall_forall. intros o [_ H]%list_elem_of_In%filter_In. by apply Nat.eqb_eq. Qed.

Lemma buckets_rank from n ops : Forall (fun o => (from <= rank o)%nat) (buckets from n ops).
Proof.
  unfold buckets. revert from. induction n as [|n IH]; intros from; cbn [seq flat_map]; [done|].
  apply Forall_app_2; [eapply Forall_impl; [apply of_rank_rank|simpl; lia]|].
  eapply Forall_impl; [apply IH|]. simpl. lia.
Qed.

Lemma insert_op_buckets from n op ops :
  (from <= rank op < from + n)%nat -> insert_op op (buckets from n ops) = buckets from n (op :: ops).
Proof.
  unfold buckets. revert from. induction n as [|n IH]; intros from H; [lia|]. cbn [seq flat_map].
  rewrite of_rank_cons. destruct (Nat.eqb_spec (rank op) from) as [Heq|Hne].
  - fold (buckets (S from) n (op :: ops)). fold (buckets (S from) n ops).
    rewrite buckets_cons_other by lia. apply insert_op_higher. apply Forall_app_2.
    + eapply Forall_impl; [apply of_rank_rank|simpl; lia].
    + eapply Forall_impl; [apply buckets_rank|simpl; lia].
  - rewrite insert_op_app_lower.
    + f_equal. apply IH. lia.
    + eapply Forall_impl; [apply of_rank_rank|simpl; lia].
Qed.

(** The sorted operations are those of rank 0, then those of rank 1, and so on:
    each group in the order in which the steps emitted it. *)
Lemma topoSort_buckets ops : topoSort ops = buckets 0 12 ops.
Proof.
  induction ops as [|op ops IH]; [done|]. cbn [topoSort foldr]. fold (topoSort ops). rewrite IH.
  apply insert_op_buckets. destruct op; simpl; lia.
Qed.

(** ** When there is nothing to do *)

(** The actual schema has what the desired one asks for: its columns (the
    generated ones filled), exactly its indexes, apart from those that back a
    unique constraint, exactly its foreign keys, all validated, and exactly its
    unique constraints. Expressions are compared in normal form. *)
Record conforms (desired actual : PhysicalSchema) : Prop := {
  conforms_columns : forall name c, ps_Columns desired !! name = Some c ->
    exists a, ps_Columns actual !! name = Some a /\ (is_generated (col_Origin a) = true -> o_Backfilled (col_Origin a) = true);
  conforms_indexes : forall name d, ps_Indexes desired !! name = Some d ->
    exists a, ps_Indexes actual !! name = Some a /\ ix_Valid a = true /\ indexMatches a d = true;
  conforms_no_more_indexes : forall name a, ps_Indexes actual !! name = Some a ->
    is_Some (ps_Indexes desired !! name) \/ is_Some (ps_Uniques actual !! name);
  conforms_fks : forall name d, ps_ForeignKeys desired !! name = Some d ->
    exists a, ps_ForeignKeys actual !! name = Some a /\ fk_Validated a = true /\ fkMatches a d = true;
  conforms_no_more_fks : forall name a, ps_ForeignKeys actual !! name = Some a -> is_Some (ps_ForeignKeys desired !! name);
  conforms_uniques : forall name d, ps_Uniques desired !! name = Some d ->
    exists a, ps_Uniques actual !! name = Some a /\ uq_Columns a = uq_Columns d;
  conforms_no_more_uniques : forall name a, ps_Uniques actual !! name = Some a -> is_Some (ps_Uniques desired !! name)
}.

Lemma stringSlicesEqual_spec a b : stringSlicesEqual a b = true <-> a = b.
Proof.
  revert b. induction a as [|x a IH]; intros [|y b]; simpl; try done.
  rewrite andb_true_iff, String.eqb_eq, IH. naive_solver.
Qed.

Lemma has_spec {V} (m : gmap string V) k : has m k = true <-> is_Some (m !! k).
Proof. unfold has. by destruct (m !! k). Qed.

(** One operation list, against the object that makes it empty. *)
Ltac ops_nil :=
  cbn [negb orb andb]; split;
  [intros ?; (discriminate || (eexists; split_and!; [reflexivity|intros; congruence..])) | intros (? & [= <-] & ?); (reflexivity || (exfalso; intuition congruence))].

Lemma column_ops_nil table columns name spec :
  column_ops table columns name spec = [] <->
  exists a, columns !! name = Some a /\ (is_generated (col_Origin a) = true -> o_Backfilled (col_Origin a) = true).
Proof.
  unfold column_ops. destruct (columns !! name) as [a|]; [|split; [discriminate|by intros (? & [=] & _)]].
  destruct (is_generated (col_Origin a)) eqn:Eg, (o_Backfilled (col_Origin a)) eqn:E; ops_nil.
Qed.

Lemma index_ops_nil indexes name spec :
  index_ops indexes name spec = [] <->
  exists a, indexes !! name = Some a /\ ix_Valid a = true /\ indexMatches a spec = true.
Proof.
  unfold index_ops. destruct (indexes !! name) as [a|]; [|split; [discriminate|by intros (? & [=] & _)]].
  destruct (ix_Valid a) eqn:Ev, (indexMatches a spec) eqn:Em; ops_nil.
Qed.

Lemma fk_ops_nil fks name spec :
  fk_ops fks name spec = [] <->
  exists a, fks !! name = Some a /\ fk_Validated a = true /\ fkMatches a spec = true.
Proof.
  unfold fk_ops. destruct (fks !! name) as [a|]; [|split; [discriminate|by intros (? & [=] & _)]].
  destruct (fk_Validated a) eqn:Ev, (fkMatches a spec) eqn:Em; ops_nil.
Qed.

Lemma unique_ops_nil uniques name spec :
  unique_ops uniques name spec = [] <->
  exists a, uniques !! name = Some a /\ uq_Columns a = uq_Columns spec.
Proof.
  unfold unique_ops. destruct (uniques !! name) as [a|]; [|split; [discriminate|by intros (? & [=] & _)]].
  destruct (stringSlicesEqual (uq_Columns a) (uq_Columns spec)) eqn:E; simpl.
  - apply stringSlicesEqual_spec in E. naive_solver.
  - split; [done|]. intros (? & [= <-] & H%stringSlicesEqual_spec). congruence.
Qed.

Lemma stale_nil {V} (m : gmap string V) name (op : DdlOp) : (if has m name then [] else [op]) = [] <-> is_Some (m !! name).
Proof. rewrite <- has_spec. by destruct (has m name). Qed.

Lemma stale_index_nil desired uniques name :
  stale_index_ops desired uniques name = [] <-> is_Some (desired !! name) \/ is_Some (uniques !! name).
Proof. unfold stale_index_ops. rewrite <- !has_spec. destruct (has desired name), (has uniques name); naive_solver. Qed.

(** The difference of two schemas is empty exactly when the actual schema has
    what the desired one asks for. *)
Lemma Diff_nil_iff desired actual :
  Diff desired (Some actual) [] = [] <-> conforms desired actual.
Proof.
  unfold Diff. cbn [rename_columns app]. rewrite topoSort_nil, !app_nil, !each_sorted_nil.
  setoid_rewrite column_ops_nil. setoid_rewrite index_ops_nil. setoid_rewrite stale_index_nil.
  setoid_rewrite fk_ops_nil. setoid_rewrite (@stale_nil FkSpec).
  setoid_rewrite unique_ops_nil. setoid_rewrite (@stale_nil UniqueSpec).
  split.
  - intros (H1 & H2 & H3 & H4 & H5 & H6 & H7). by constructor.
  - intros []. split_and!; done.
Qed.
