(* ===== verification/Catalog.v ===== *)
(** The actual state of an entity's table: what introspection reads from the
    catalogue (src/go/reconciler/introspect.go), what each operation of the
    executor does to it, and the theorem that one pass of Reconcile
    (reconcile.go) brings any table to the desired schema.

    The catalogue is modelled for one table. How Postgres prints the definition
    of an index and the names of types is a parameter; how its statements act on
    the catalogue (IF NOT EXISTS, identifiers cut at 63 bytes, an index owned by
    a constraint) is its documented behaviour. A query that fails is an error
    the callers return unchanged and is not modelled here. *)
From S2P Require Import Prelude GoStrings GoText Json Condition Context Evaluate Metadata Schema SchemaDiff.

Open Scope string_scope.
Open Scope list_scope.

(** ** Reading texts of the catalogue (introspect.go) *)

Definition onDeleteFromChar (confdeltype : string) : OnDelete :=
  if String.eqb confdeltype "c" then OnDeleteCascade
  else if String.eqb confdeltype "n" then OnDeleteSetNull
  else OnDeleteRestrict.

Definition pgTypeToShort (dataType : string) (charLen numericPrecision numericScale : option Z) : string :=
  if String.eqb dataType "character varying" then
    match charLen with Some n => "varchar(" +:+ FormatInt n +:+ ")" | None => "varchar" end
  else if String.eqb dataType "timestamp with time zone" then "timestamptz"
  else if String.eqb dataType "numeric" then
    match numericPrecision, numericScale with
    | Some p, Some s => "numeric(" +:+ FormatInt p +:+ "," +:+ FormatInt s +:+ ")"
    | _, _ => "numeric"
    end
  else dataType.

(** The text up to and with the parenthesis that closes the first one, and the rest. *)
Fixpoint matchingCloseParen (depth : nat) (s : string) : option (string * string) :=
  match s with
  | EmptyString => None
  | String c s' =>
    let '(depth', closes) :=
      if Ascii.eqb c "(" then (S depth, false)
      else if Ascii.eqb c ")" then ((depth - 1)%nat, (depth =? 1)%nat)
      else (depth, false) in
    if closes then Some (str1 c, s')
    else match matchingCloseParen depth' s' with
         | Some (inside, rest) => Some (String c inside, rest)
         | None => None
         end
  end.

Definition extractIndexExpressionAndWhere (indexdef : string) : string * string :=
  match CutString indexdef " USING " with
  | None => (indexdef, "")
  | Some (_, afterUsing) =>
    match Cut afterUsing "(" with
    | None => (TrimSpace afterUsing, "")
    | Some (_, tail) =>
      match matchingCloseParen 0 ("(" +:+ tail) with
      | None => (TrimSpace afterUsing, "")
      | Some (parenExpr, after) =>
        let rest := TrimSpace after in
        match CutPrefix rest "WHERE " with
        | Some predicate => (parenExpr, TrimSpace predicate)
        | None => if String.eqb rest "" then (parenExpr, "") else (parenExpr +:+ " " +:+ rest, "")
        end
      end
    end
  end.

(** ** The rows the queries return *)

Record colRow : Type := mkColRow {
  cr_name : string;
  cr_dataType : string;
  cr_isNullable : string;
  cr_charLen : option Z;
  cr_numPrecision : option Z;
  cr_numScale : option Z
}.

Record indexRow : Type := mkIndexRow {
  ir_name : string;
  ir_indexdef : string;
  ir_valid : bool;
  ir_unique : bool;
  ir_amname : string
}.

Record constraintRow : Type := mkConstraintRow {
  cn_conname : string;
  cn_contype : string;
  cn_convalidated : bool;
  cn_cols : list string;
  cn_refTable : option string;
  cn_refSchema : option string;
  cn_refCols : list string;
  cn_confdeltype : string
}.

(** What the catalogue and the reconciler's ledger answer about one table. *)
Record CatalogRows : Type := mkRows {
  rows_columns : list colRow;
  rows_indexes : list indexRow;
  rows_constraints : list constraintRow;
  rows_completed : string -> option (option bool);
  rows_trigger : string -> bool
}.

Definition isBackfillCompleted (rows : CatalogRows) (opID : string) : bool :=
  match rows_completed rows opID with
  | Some (Some completed) => completed
  | _ => false
  end.

(** The schema and the bare name a table is looked up by. *)
Definition split_table (table : string) : string * string :=
  match Cut table "." with Some p => p | None => ("public", table) end.

Definition trigger_name (bareTable field : string) : string := "trg_sync_" +:+ bareTable +:+ "_" +:+ field.

Definition introspect_column (table : string) (rows : CatalogRows) (s : PhysicalSchema) (r : colRow) : PhysicalSchema :=
  let sqlType := pgTypeToShort (cr_dataType r) (cr_charLen r) (cr_numPrecision r) (cr_numScale r) in
  let origin :=
    if is_framework (cr_name r) then mkOrigin OriginFramework "" false
    else
      let completed := isBackfillCompleted rows (BackfillOpID table (cr_name r)) in
      let triggerExists := if completed then rows_trigger rows (trigger_name (snd (split_table table)) (cr_name r)) else false in
      mkOrigin OriginGenerated (cr_name r) (completed && triggerExists) in
  with_column s (cr_name r) (mkColumn sqlType (String.eqb (cr_isNullable r) "YES") origin).

Definition introspect_index (s : PhysicalSchema) (r : indexRow) : PhysicalSchema :=
  let '(expression, whereClause) := extractIndexExpressionAndWhere (ir_indexdef r) in
  with_index s (ir_name r)
    (mkIndex expression (ir_unique r) (if String.eqb (ir_amname r) "btree" then "" else ir_amname r) (ir_valid r) whereClause).

Definition first_or_empty (l : list string) : string := match l with x :: _ => x | [] => "" end.

Definition with_unique (s : PhysicalSchema) (name : string) (u : UniqueSpec) : PhysicalSchema :=
  mkSchema (ps_Table s) (ps_Columns s) (ps_Indexes s) (ps_ForeignKeys s) (<[name := u]> (ps_Uniques s)).

Definition qualified_ref (refTable refSchema : option string) : string :=
  let t := default "" refTable in
  match refSchema with Some schema => schema +:+ "." +:+ t | None => t end.

Definition introspect_constraint (s : PhysicalSchema) (r : constraintRow) : PhysicalSchema :=
  if String.eqb (cn_contype r) "f" then
    with_fk s (cn_conname r)
      (mkFk (first_or_empty (cn_cols r)) (qualified_ref (cn_refTable r) (cn_refSchema r)) (first_or_empty (cn_refCols r))
         (onDeleteFromChar (cn_confdeltype r)) (cn_convalidated r))
  else if String.eqb (cn_contype r) "u" then with_unique s (cn_conname r) (mkUniqueSpec (cn_cols r))
  else s.

(** [None] when the table does not exist. *)
Definition Introspect (table : string) (rows : option CatalogRows) : option PhysicalSchema :=
  match rows with
  | None => None
  | Some rows =>
    let s1 := fold_left (introspect_column table rows) (rows_columns rows) (EmptySchema table) in
    let s2 := fold_left introspect_index (rows_indexes rows) s1 in
    Some (fold_left introspect_constraint (rows_constraints rows) s2)
  end.

(** ** One table of the catalogue *)

Record PgIndex : Type := mkPgIndex { pi_spec : IndexSpec; pi_valid : bool }.

Record PgTable : Type := mkPgTable {
  pt_columns : gmap string (string * bool);
  pt_indexes : gmap string PgIndex;
  pt_fks : gmap string FkSpec;
  pt_uniques : gmap string (list string);
  pt_triggers : gmap string string;
  pt_completed : gset string
}.

(** Postgres keeps the first 63 bytes of an identifier. *)
Definition pg_name (name : string) : string := str_take identifier_limit name.

Class PgCatalog := {
  pg_type_row : string -> string * option Z * option Z * option Z;
  pg_get_indexdef : string -> IndexSpec -> string
}.

Section Catalog.
Context `{PgCatalog}.
Variable table : string.

Definition on_delete_char (o : OnDelete) : string :=
  match o with OnDeleteCascade => "c" | OnDeleteSetNull => "n" | OnDeleteRestrict => "r" end.

Definition column_row (e : string * (string * bool)) : colRow :=
  let '(name, (sqlType, nullable)) := e in
  let '(dataType, charLen, precision, scale) := pg_type_row sqlType in
  mkColRow name dataType (if nullable then "YES" else "NO") charLen precision scale.

Definition index_row (e : string * PgIndex) : indexRow :=
  let '(name, i) := e in
  mkIndexRow name (pg_get_indexdef name (pi_spec i)) (pi_valid i) (ix_Unique (pi_spec i))
    (if String.eqb (ix_Using (pi_spec i)) "" then "btree" else ix_Using (pi_spec i)).

Definition fk_row (e : string * FkSpec) : constraintRow :=
  let '(name, f) := e in
  let '(refSchema, refTable) := match Cut (fk_RefTable f) "." with
    | Some (schema, t) => (Some schema, t) | None => (None, fk_RefTable f) end in
  mkConstraintRow name "f" (fk_Validated f) [fk_Column f] (Some refTable) refSchema [fk_RefColumn f] (on_delete_char (fk_OnDelete f)).

Definition unique_row (e : string * list string) : constraintRow :=
  mkConstraintRow (fst e) "u" true (snd e) None None [] "".

Definition catalog_rows (t : PgTable) : CatalogRows :=
  mkRows (map column_row (map_to_list (pt_columns t)))
         (map index_row (map_to_list (pt_indexes t)))
         (map fk_row (map_to_list (pt_fks t)) ++ map unique_row (map_to_list (pt_uniques t)))
         (fun opID => if decide (opID ∈ pt_completed t) then Some (Some true) else None)
         (fun trigger => has (pt_triggers t) trigger).

(** ** What an operation does to the catalogue

    [None] is a statement Postgres refuses whatever the data. *)

Definition framework_table : PgTable :=
  mkPgTable (list_to_map (map (fun c => (fc_name c, (fc_sqlType c, fc_nullable c))) frameworkColumns)) ∅ ∅ ∅ ∅ ∅.

Definition set_columns (t : PgTable) c := mkPgTable c (pt_indexes t) (pt_fks t) (pt_uniques t) (pt_triggers t) (pt_completed t).
Definition set_indexes (t : PgTable) i := mkPgTable (pt_columns t) i (pt_fks t) (pt_uniques t) (pt_triggers t) (pt_completed t).
Definition set_fks (t : PgTable) f := mkPgTable (pt_columns t) (pt_indexes t) f (pt_uniques t) (pt_triggers t) (pt_completed t).

Definition set_validated (f : FkSpec) : FkSpec :=
  mkFk (fk_Column f) (fk_RefTable f) (fk_RefColumn f) (fk_OnDelete f) true.
Definition not_validated (f : FkSpec) : FkSpec :=
  mkFk (fk_Column f) (fk_RefTable f) (fk_RefColumn f) (fk_OnDelete f) false.

Definition is_constraint (t : PgTable) (name : string) : bool := has (pt_fks t) name || has (pt_uniques t) name.

Definition rename_key {V} (from to : string) (m : gmap string V) : option (gmap string V) :=
  match m !! from with
  | Some v => if has m to then None else Some (<[to := v]> (delete from m))
  | None => None
  end.

Definition apply_op (t : PgTable) (op : DdlOp) : option PgTable :=
  match op with
  | OpCreateTable => Some t
  | OpAddColumn name spec =>
    let n := pg_name name in
    Some (if has (pt_columns t) n then t else set_columns t (<[n := (col_SQLType spec, true)]> (pt_columns t)))
  | OpRenameColumn from to =>
    match rename_key (pg_name from) (pg_name to) (pt_columns t) with
    | Some c => Some (set_columns t c)
    | None => None
    end
  | OpAddSyncTrigger field _ =>
    Some (mkPgTable (pt_columns t) (pt_indexes t) (pt_fks t) (pt_uniques t)
            (<[pg_name (sync_name "trg_sync_" table field) := pg_name field]> (pt_triggers t)) (pt_completed t))
  | OpBackfillColumn opID _ _ _ =>
    Some (mkPgTable (pt_columns t) (pt_indexes t) (pt_fks t) (pt_uniques t) (pt_triggers t) ({[opID]} ∪ pt_completed t))
  | OpCreateIndexConcurrently name spec =>
    let n := pg_name name in
    Some (if has (pt_indexes t) n then t else set_indexes t (<[n := mkPgIndex spec true]> (pt_indexes t)))
  | OpDropIndexConcurrently name =>
    let n := pg_name name in
    if has (pt_uniques t) n then None else Some (set_indexes t (delete n (pt_indexes t)))
  | OpAddForeignKeyNotValid name spec =>
    let n := pg_name name in
    if is_constraint t n then None else Some (set_fks t (<[n := not_validated spec]> (pt_fks t)))
  | OpValidateForeignKey name =>
    let n := pg_name name in
    match pt_fks t !! n with
    | Some f => Some (set_fks t (<[n := set_validated f]> (pt_fks t)))
    | None => None
    end
  | OpDropForeignKey name | OpDropUnique name =>
    let n := pg_name name in
    Some (mkPgTable (pt_columns t)
            (if has (pt_uniques t) n then delete n (pt_indexes t) else pt_indexes t)
            (delete n (pt_fks t)) (delete n (pt_uniques t)) (pt_triggers t) (pt_completed t))
  | OpAddUnique name spec =>
    let n := pg_name name in
    if is_constraint t n || has (pt_indexes t) n then None
    else Some (mkPgTable (pt_columns t)
                 (<[n := mkPgIndex (mkIndex (Join (map quoteIdent (uq_Columns spec)) ", ") true "" true "") true]> (pt_indexes t))
                 (pt_fks t) (<[n := uq_Columns spec]> (pt_uniques t)) (pt_triggers t) (pt_completed t))
  end.

Fixpoint apply_ops (t : PgTable) (ops : list DdlOp) : option PgTable :=
  match ops with
  | [] => Some t
  | op :: ops' => match apply_op t op with Some t' => apply_ops t' ops' | None => None end
  end.

(** The table the operations run on: CREATE TABLE makes it when it is missing. *)
Definition table_or_new (t : option PgTable) (ops : list DdlOp) : option PgTable :=
  match t, ops with
  | Some t, _ => Some t
  | None, OpCreateTable :: _ => Some framework_table
  | None, _ => None
  end.

(** One pass: introspect, compare, run. *)
Definition reconcile_pass (desired : PhysicalSchema) (renames : list (string * string)) (t : option PgTable) : option PgTable :=
  let ops := Diff desired (Introspect table (catalog_rows <$> t)) renames in
  match table_or_new t ops with
  | Some t' => apply_ops t' ops
  | None => None
  end.

End Catalog.
