(* ===== verification/CatalogProps.v ===== *)
(** One pass of the reconciler brings a table to its desired schema: lemmas on
    what introspection sees of a catalogue and on each phase of the sorted
    operations, and the convergence theorem. *)
From S2P Require Import Prelude GoStrings GoText Json Condition Context Evaluate Metadata Schema SchemaDiff Catalog.

Open Scope string_scope.
Open Scope list_scope.

(** ** What introspection sees *)

Lemma fold_insert_rows {V W} (M : gmap string V) (f : string -> V -> W) n :
  fold_left (fun (m : gmap string W) e => <[e.1 := f e.1 e.2]> m) (map_to_list M) ∅ !! n = f n <$> M !! n.
Proof.
  pose proof (fold_put_if_lookup fst (fun _ => true) (fun e => f e.1 e.2) (map_to_list M) ∅ n) as Hf.
  unfold put_if in Hf. rewrite Hf by apply NoDup_fst_map_to_list. clear Hf.
  destruct (List.find _ _) as [[k v]|] eqn:E.
  - apply List.find_some in E as [Hin He%String.eqb_eq]. simpl in *. subst k.
    apply list_elem_of_In, elem_of_map_to_list in Hin. by rewrite Hin.
  - destruct (M !! n) as [v|] eqn:Em; [|done]. exfalso.
    apply elem_of_map_to_list, list_elem_of_In in Em. pose proof (List.find_none _ _ E _ Em) as Hn. simpl in Hn.
    by rewrite String.eqb_refl in Hn.
Qed.

Lemma pg_name_short n : (String.length n <= identifier_limit)%nat -> pg_name n = n.
Proof.
  unfold pg_name. generalize identifier_limit. intros k. revert k. induction n as [|a n IH]; intros [|k]; simpl; try done; [lia|].
  intros Hle. rewrite IH by lia. done.
Qed.

Section Convergence.
Context `{PgCatalog}.
Variable table : string.

Definition seen_column (t : PgTable) (name : string) (c : string * bool) : ColumnSpec :=
  let '(dataType, charLen, precision, scale) := pg_type_row (fst c) in
  mkColumn (pgTypeToShort dataType charLen precision scale) (snd c)
    (if is_framework name then mkOrigin OriginFramework "" false
     else mkOrigin OriginGenerated name
       (bool_decide (BackfillOpID table name ∈ pt_completed t)
        && has (pt_triggers t) (trigger_name (snd (split_table table)) name))).

Definition seen_index (name : string) (i : PgIndex) : IndexSpec :=
  let '(expression, whereClause) := extractIndexExpressionAndWhere (pg_get_indexdef name (pi_spec i)) in
  let amname := if String.eqb (ix_Using (pi_spec i)) "" then "btree" else ix_Using (pi_spec i) in
  mkIndex expression (ix_Unique (pi_spec i)) (if String.eqb amname "btree" then "" else amname) (pi_valid i) whereClause.

(** The schema introspection reads from a table. *)
Definition seen (t : PgTable) : PhysicalSchema := default (EmptySchema table) (Introspect table (Some (catalog_rows t))).

Lemma fold_columns t rows l s :
  rows = catalog_rows t ->
  let s' := fold_left (introspect_column table rows) (map column_row l) s in
  ps_Columns s' = fold_left (fun m e => <[e.1 := seen_column t e.1 e.2]> m) l (ps_Columns s) /\
  ps_Indexes s' = ps_Indexes s /\ ps_ForeignKeys s' = ps_ForeignKeys s /\ ps_Uniques s' = ps_Uniques s.
Proof.
  intros ->. revert s. induction l as [|[n c] l IH]; intros s; [done|]. cbn [map fold_left].
  destruct (IH (introspect_column table (catalog_rows t) s (column_row (n, c)))) as (E & -> & -> & ->).
  rewrite E. split; [|done]. f_equal. unfold introspect_column, column_row, seen_column. destruct c as [ty nullable]. simpl.
  destruct (pg_type_row ty) as [[[a b] c'] d]. cbn [cr_name cr_dataType cr_charLen cr_numPrecision cr_numScale cr_isNullable].
  f_equal. f_equal; [by destruct nullable|]. destruct (is_framework n); [done|]. f_equal.
  unfold isBackfillCompleted, catalog_rows. cbn [rows_completed rows_trigger].
  destruct (decide (BackfillOpID table n ∈ pt_completed t)) as [Hin|Hin];
    [rewrite bool_decide_true by done|rewrite bool_decide_false by done]; done.
Qed.

Lemma fold_indexes l s :
  let s' := fold_left introspect_index (map index_row l) s in
  ps_Indexes s' = fold_left (fun m e => <[e.1 := seen_index e.1 e.2]> m) l (ps_Indexes s) /\
  ps_Columns s' = ps_Columns s /\ ps_ForeignKeys s' = ps_ForeignKeys s /\ ps_Uniques s' = ps_Uniques s.
Proof.
  revert s. induction l as [|[n i] l IH]; intros s; [done|]. cbn [map fold_left].
  destruct (IH (introspect_index s (index_row (n, i)))) as (E & -> & -> & ->). rewrite E.
  unfold introspect_index, index_row, seen_index. cbn [ir_indexdef ir_name ir_unique ir_amname ir_valid fst snd].
  destruct (extractIndexExpressionAndWhere _). done.
Qed.

Lemma fk_row_reads_back s n f : introspect_constraint s (fk_row (n, f)) = with_fk s n f.
Proof.
  unfold introspect_constraint, fk_row. destruct f as [c r rc o v]. cbn [fk_RefTable fk_Column fk_RefColumn fk_OnDelete fk_Validated].
  destruct (Cut r ".") as [[a b]|] eqn:E; cbn [cn_contype cn_conname cn_cols cn_refTable cn_refSchema cn_refCols cn_confdeltype cn_convalidated].
  - apply Cut_spec in E as ->. rewrite String.eqb_refl. unfold qualified_ref. cbn [default first_or_empty]. by destruct o.
  - rewrite String.eqb_refl. unfold qualified_ref. cbn [default first_or_empty]. by destruct o.
Qed.

Lemma fold_fks l s :
  let s' := fold_left introspect_constraint (map fk_row l) s in
  ps_ForeignKeys s' = fold_left (fun m e => <[e.1 := e.2]> m) l (ps_ForeignKeys s) /\
  ps_Columns s' = ps_Columns s /\ ps_Indexes s' = ps_Indexes s /\ ps_Uniques s' = ps_Uniques s.
Proof.
  revert s. induction l as [|[n f] l IH]; intros s; [done|]. cbn [map fold_left]. rewrite fk_row_reads_back.
  apply (IH (with_fk s n f)).
Qed.

Lemma fold_uniques l s :
  let s' := fold_left introspect_constraint (map unique_row l) s in
  ps_Uniques s' = fold_left (fun m e => <[e.1 := mkUniqueSpec e.2]> m) l (ps_Uniques s) /\
  ps_Columns s' = ps_Columns s /\ ps_Indexes s' = ps_Indexes s /\ ps_ForeignKeys s' = ps_ForeignKeys s.
Proof.
  revert s. induction l as [|[n u] l IH]; intros s; [done|]. cbn [map fold_left].
  apply (IH (with_unique s n (mkUniqueSpec u))).
Qed.

Lemma seen_parts t n :
  ps_Columns (seen t) !! n = seen_column t n <$> pt_columns t !! n /\
  ps_Indexes (seen t) !! n = seen_index n <$> pt_indexes t !! n /\
  ps_ForeignKeys (seen t) !! n = pt_fks t !! n /\
  ps_Uniques (seen t) !! n = mkUniqueSpec <$> pt_uniques t !! n.
Proof.
  change (seen t) with
    (fold_left introspect_constraint (map fk_row (map_to_list (pt_fks t)) ++ map unique_row (map_to_list (pt_uniques t)))
      (fold_left introspect_index (map index_row (map_to_list (pt_indexes t)))
        (fold_left (introspect_column table (catalog_rows t)) (map column_row (map_to_list (pt_columns t))) (EmptySchema table)))).
  rewrite fold_left_app.
  destruct (fold_uniques (map_to_list (pt_uniques t))
    (fold_left introspect_constraint (map fk_row (map_to_list (pt_fks t)))
      (fold_left introspect_index (map index_row (map_to_list (pt_indexes t)))
        (fold_left (introspect_column table (catalog_rows t)) (map column_row (map_to_list (pt_columns t))) (EmptySchema table)))))
    as (-> & -> & -> & ->).
  destruct (fold_fks (map_to_list (pt_fks t))
      (fold_left introspect_index (map index_row (map_to_list (pt_indexes t)))
        (fold_left (introspect_column table (catalog_rows t)) (map column_row (map_to_list (pt_columns t))) (EmptySchema table))))
    as (-> & -> & -> & ->).
  destruct (fold_indexes (map_to_list (pt_indexes t))
        (fold_left (introspect_column table (catalog_rows t)) (map column_row (map_to_list (pt_columns t))) (EmptySchema table)))
    as (-> & -> & -> & ->).
  destruct (fold_columns t _ (map_to_list (pt_columns t)) (EmptySchema table) eq_refl) as (-> & -> & -> & ->).
  cbn [ps_Columns ps_Indexes ps_ForeignKeys ps_Uniques EmptySchema].
  rewrite (fold_insert_rows _ (seen_column t)), (fold_insert_rows _ seen_index), (fold_insert_rows _ (fun _ => mkUniqueSpec)).
  rewrite (fold_insert_rows (pt_fks t) (fun _ f => f)). split_and!; try done. by destruct (pt_fks t !! n).
Qed.

(** ** The phases of a pass *)

Lemma apply_ops_app t l1 l2 :
  apply_ops table t (l1 ++ l2) = match apply_ops table t l1 with Some t' => apply_ops table t' l2 | None => None end.
Proof. revert t. induction l1 as [|o l1 IH]; intros t; simpl; [done|]. by destruct (apply_op table t o). Qed.

Definition op_name (op : DdlOp) : string :=
  match op with
  | OpCreateTable => ""
  | OpAddColumn n _ | OpRenameColumn n _ | OpAddSyncTrigger n _ | OpBackfillColumn _ n _ _
  | OpCreateIndexConcurrently n _ | OpDropIndexConcurrently n | OpAddForeignKeyNotValid n _ | OpValidateForeignKey n
  | OpDropForeignKey n | OpAddUnique n _ | OpDropUnique n => n
  end.

Definition short (n : string) : Prop := (String.length n <= identifier_limit)%nat.

(** The names an operation writes to the catalogue are kept whole. *)
Definition op_short (op : DdlOp) : Prop :=
  short (op_name op) /\
  match op with OpAddSyncTrigger f _ => short (sync_name "trg_sync_" table f) | _ => True end.

(** Columns, triggers and the ledger only grow. *)
Record grows (t t' : PgTable) : Prop := {
  grows_columns : forall n, is_Some (pt_columns t !! n) -> is_Some (pt_columns t' !! n);
  grows_triggers : forall n, is_Some (pt_triggers t !! n) -> is_Some (pt_triggers t' !! n);
  grows_completed : pt_completed t ⊆ pt_completed t'
}.

#[local] Instance grows_refl : Reflexive grows.
Proof. by constructor. Qed.
#[local] Instance grows_trans : Transitive grows.
Proof. intros ??? [] []. constructor; [auto..|set_solver]. Qed.

Definition same_objects (t t' : PgTable) : Prop :=
  pt_indexes t' = pt_indexes t /\ pt_fks t' = pt_fks t /\ pt_uniques t' = pt_uniques t.

(** What an operation on columns leaves behind. *)
Definition column_effect (t : PgTable) (op : DdlOp) : Prop :=
  match op with
  | OpAddColumn n _ => is_Some (pt_columns t !! n)
  | OpAddSyncTrigger f _ => is_Some (pt_triggers t !! sync_name "trg_sync_" table f)
  | OpBackfillColumn id _ _ _ => id ∈ pt_completed t
  | _ => True
  end.

Lemma column_effect_grows t t' op : grows t t' -> column_effect t op -> column_effect t' op.
Proof. intros [] . destruct op; simpl; auto. Qed.

Lemma column_op_applies t op :
  (rank op < 5)%nat -> rank op <> 1%nat -> op_short op ->
  exists t', apply_op table t op = Some t' /\ grows t t' /\ same_objects t t' /\ column_effect t' op.
Proof.
  intros Hr1 Hr2 [Hs Ht]. destruct op; simpl in Hr1, Hr2; try lia; cbn [apply_op op_name] in *.
  - eexists. split; [done|]. split; [reflexivity|]. done.
  - rewrite (pg_name_short _ Hs). eexists. split; [done|]. destruct (has (pt_columns t) name) eqn:E.
    + split; [reflexivity|]. split; [done|]. by apply has_spec.
    + split; [|split; [done|]].
      * constructor; [|done..]. intros n Hn. cbn [pt_columns set_columns].
        destruct (decide (n = name)) as [->|]; [rewrite lookup_insert_eq; eauto|by rewrite lookup_insert_ne].
      * cbn [column_effect pt_columns set_columns]. rewrite lookup_insert_eq. eauto.
  - rewrite (pg_name_short _ Ht). eexists. split; [done|]. split; [|split; [done|]].
    + constructor; [done| |done]. intros n Hn. cbn [pt_triggers].
      destruct (decide (n = sync_name "trg_sync_" table field)) as [->|]; [rewrite lookup_insert_eq; eauto|by rewrite lookup_insert_ne].
    + cbn [column_effect pt_triggers]. rewrite lookup_insert_eq. eauto.
  - eexists. split; [done|]. split; [constructor; [done..|cbn [pt_completed]; set_solver]|]. split; [done|].
    cbn [column_effect pt_completed]. set_solver.
Qed.

Lemma column_phase B t :
  Forall (fun op => (rank op < 5)%nat /\ rank op <> 1%nat /\ op_short op) B ->
  exists t', apply_ops table t B = Some t' /\ grows t t' /\ same_objects t t' /\ Forall (column_effect t') B.
Proof.
  revert t. induction B as [|op B IH]; intros t HB; [exists t; split_and!; done|].
  apply Forall_cons in HB as ((Hr1 & Hr2 & Hs) & HB).
  destruct (column_op_applies t op Hr1 Hr2 Hs) as (t1 & E1 & G1 & S1 & C1).
  destruct (IH t1 HB) as (t2 & E2 & G2 & S2 & C2). exists t2. cbn [apply_ops]. rewrite E1.
  split; [done|]. split; [by etransitivity|]. split; [unfold same_objects in *; naive_solver congruence|].
  constructor; [|done]. by eapply column_effect_grows.
Qed.

Definition same_columns (t t' : PgTable) : Prop :=
  pt_columns t' = pt_columns t /\ pt_triggers t' = pt_triggers t /\ pt_completed t' = pt_completed t.

Definition is_drop_constraint (op : DdlOp) : bool :=
  match op with OpDropForeignKey _ | OpDropUnique _ => true | _ => false end.

(** The objects called [n], in two states of the table. *)
Definition same_at (t t' : PgTable) (n : string) : Prop :=
  pt_fks t' !! n = pt_fks t !! n /\ pt_uniques t' !! n = pt_uniques t !! n /\ pt_indexes t' !! n = pt_indexes t !! n.

Definition dropped_at (t t' : PgTable) (n : string) : Prop :=
  pt_fks t' !! n = None /\ pt_uniques t' !! n = None /\
  (pt_uniques t !! n = None -> pt_indexes t' !! n = pt_indexes t !! n) /\
  (is_Some (pt_uniques t !! n) -> pt_indexes t' !! n = None).

Lemma drop_constraint_phase B t :
  Forall (fun op => is_drop_constraint op = true /\ op_short op) B ->
  exists t', apply_ops table t B = Some t' /\ same_columns t t' /\
    forall n, (n ∈ map op_name B -> dropped_at t t' n) /\ (n ∉ map op_name B -> same_at t t' n).
Proof.
  revert t. induction B as [|op B IH]; intros t HB.
  { exists t. split; [done|]. split; [done|]. intros n. split; [by intros ?%elem_of_nil|done]. }
  apply Forall_cons in HB as ((Hd & Hs & _) & HB). pose proof (pg_name_short _ Hs) as Hn.
  set (t1 := mkPgTable (pt_columns t)
    (if has (pt_uniques t) (op_name op) then delete (op_name op) (pt_indexes t) else pt_indexes t)
    (delete (op_name op) (pt_fks t)) (delete (op_name op) (pt_uniques t)) (pt_triggers t) (pt_completed t)).
  assert (apply_op table t op = Some t1) as E1.
  { destruct op; try done; cbn [apply_op op_name] in *; unfold t1; by rewrite Hn. }
  destruct (IH t1 HB) as (t2 & E2 & S2 & P2). exists t2. cbn [apply_ops map]. rewrite E1. split; [done|]. split; [done|].
  intros n. destruct (P2 n) as [Pin Pout]. destruct (decide (n = op_name op)) as [->|Hne].
  - split; [|set_solver]. intros _. unfold dropped_at.
    assert (pt_uniques t1 !! op_name op = None) as Hu by apply lookup_delete_eq.
    assert (pt_fks t1 !! op_name op = None) as Hf by apply lookup_delete_eq.
    assert (pt_fks t2 !! op_name op = None /\ pt_uniques t2 !! op_name op = None /\
            pt_indexes t2 !! op_name op = pt_indexes t1 !! op_name op) as (-> & -> & ->).
    { destruct (decide (op_name op ∈ map op_name B)) as [Hin|Hnin].
      - destruct (Pin Hin) as (? & ? & Hi & _). auto.
      - destruct (Pout Hnin) as (-> & -> & ->). auto. }
    split; [done|]. split; [done|]. cbn [pt_indexes t1]. unfold has.
    destruct (pt_uniques t !! op_name op); split; intros Hx; try done; apply lookup_delete_eq.
  - assert (pt_fks t1 !! n = pt_fks t !! n) as Ef by by apply lookup_delete_ne.
    assert (pt_uniques t1 !! n = pt_uniques t !! n) as Eu by by apply lookup_delete_ne.
    assert (pt_indexes t1 !! n = pt_indexes t !! n) as Ei.
    { cbn [pt_indexes t1]. destruct (has _ _); [by apply lookup_delete_ne|done]. }
    unfold dropped_at, same_at in *. rewrite Ef, Eu, Ei in *. split.
    + intros [?|Hin]%elem_of_cons; [done|]. auto.
    + intros [_ Hnin]%not_elem_of_cons. auto.
Qed.

Lemma drop_index_phase B t :
  Forall (fun op => rank op = 7%nat /\ op_short op) B -> (forall n, pt_uniques t !! n = None) ->
  exists t', apply_ops table t B = Some t' /\ same_columns t t' /\ pt_fks t' = pt_fks t /\ pt_uniques t' = pt_uniques t /\
    forall n, (n ∈ map op_name B -> pt_indexes t' !! n = None) /\ (n ∉ map op_name B -> pt_indexes t' !! n = pt_indexes t !! n).
Proof.
  revert t. induction B as [|op B IH]; intros t HB Hu.
  { exists t. split_and!; try done. intros n. split; [by intros ?%elem_of_nil|done]. }
  apply Forall_cons in HB as ((Hr & Hs & _) & HB). destruct op; try (simpl in Hr; lia).
  cbn [op_name] in Hs. pose proof (pg_name_short _ Hs) as Hn.
  destruct (IH (set_indexes t (delete name (pt_indexes t))) HB Hu) as (t2 & E2 & S2 & F2 & U2 & P2).
  exists t2. cbn [apply_ops apply_op map op_name]. rewrite Hn. unfold has. rewrite (Hu name). split_and!; try done.
  intros n. destruct (P2 n) as [Pin Pout]. cbn [set_indexes pt_indexes] in Pout.
  destruct (decide (n = name)) as [->|Hne].
  - split; [|set_solver]. intros _. destruct (decide (name ∈ map op_name B)) as [Hin|Hnin]; [auto|].
    rewrite (Pout Hnin). apply lookup_delete_eq.
  - rewrite lookup_delete_ne in Pout by done. split.
    + intros [?|Hin]%elem_of_cons; auto. done.
    + intros [_ Hnin]%not_elem_of_cons. auto.
Qed.

Lemma create_index_phase B t :
  Forall (fun op => rank op = 8%nat /\ op_short op) B ->
  (forall n d d', OpCreateIndexConcurrently n d ∈ B -> OpCreateIndexConcurrently n d' ∈ B -> d = d') ->
  exists t', apply_ops table t B = Some t' /\ same_columns t t' /\ pt_fks t' = pt_fks t /\ pt_uniques t' = pt_uniques t /\
    forall n, (forall d, OpCreateIndexConcurrently n d ∈ B -> pt_indexes t !! n = None -> pt_indexes t' !! n = Some (mkPgIndex d true)) /\
              (is_Some (pt_indexes t !! n) \/ n ∉ map op_name B -> pt_indexes t' !! n = pt_indexes t !! n).
Proof.
  revert t. induction B as [|op B IH]; intros t HB Hdet.
  { exists t. split_and!; try done. intros n. split; [by intros ? ?%elem_of_nil|done]. }
  apply Forall_cons in HB as ((Hr & Hs & _) & HB). destruct op; try (simpl in Hr; lia).
  cbn [op_name] in Hs. pose proof (pg_name_short _ Hs) as Hn.
  set (t1 := if has (pt_indexes t) name then t else set_indexes t (<[name := mkPgIndex spec true]> (pt_indexes t))).
  destruct (IH t1 HB) as (t2 & E2 & S2 & F2 & U2 & P2).
  { intros n d d' H1 H2. apply (Hdet n); by right. }
  exists t2. cbn [apply_ops apply_op map op_name]. rewrite Hn. fold t1.
  assert (same_columns t t1 /\ pt_fks t1 = pt_fks t /\ pt_uniques t1 = pt_uniques t) as (? & ? & ?)
    by (unfold t1; by destruct (has (pt_indexes t) name)).
  split_and!; try done; [unfold same_columns in *; naive_solver congruence|congruence|congruence|].
  intros n. destruct (P2 n) as [Pin Pout]. destruct (decide (n = name)) as [->|Hne].
  - split.
    + intros d [[= ->]|Hin]%elem_of_cons Hnone.
      * rewrite Pout; unfold t1, has; rewrite Hnone; cbn [set_indexes pt_indexes]; rewrite lookup_insert_eq; eauto.
      * assert (d = spec) as -> by (apply (Hdet name); [by right|left]).
        rewrite Pout; unfold t1, has; rewrite Hnone; cbn [set_indexes pt_indexes]; rewrite lookup_insert_eq; eauto.
    + intros [Hsome|Hn']; [|set_solver].
      assert (t1 = t) as Ht1 by (unfold t1; by rewrite (proj2 (has_spec _ _) Hsome)).
      rewrite Ht1 in Pout. auto.
  - assert (pt_indexes t1 !! n = pt_indexes t !! n) as E1.
    { unfold t1. destruct (has _ _); [done|]. by apply lookup_insert_ne. }
    rewrite E1 in *. split.
    + intros d [[= -> ->]|Hin]%elem_of_cons; [done|]. auto.
    + intros [Hsome|[_ Hnin]%not_elem_of_cons]; auto.
Qed.

Definition add_fk_op (g : string -> option FkSpec) (k : string) : list DdlOp :=
  match g k with Some d => [OpAddForeignKeyNotValid k d] | None => [] end.

Lemma add_fk_phase keys g t :
  NoDup keys -> (forall k d, k ∈ keys -> g k = Some d -> short k) -> (forall n, pt_uniques t !! n = None) ->
  (forall k d, k ∈ keys -> g k = Some d -> pt_fks t !! k = None) ->
  exists t', apply_ops table t (flat_map (add_fk_op g) keys) = Some t' /\ same_columns t t' /\
    pt_indexes t' = pt_indexes t /\ pt_uniques t' = pt_uniques t /\
    forall n, (forall d, n ∈ keys -> g n = Some d -> pt_fks t' !! n = Some (not_validated d)) /\
              (n ∉ keys \/ g n = None -> pt_fks t' !! n = pt_fks t !! n).
Proof.
  revert t. induction keys as [|k keys IH]; intros t Hnd Hs Hu Hf.
  { exists t. split_and!; try done. intros n. split; [by intros ? ?%elem_of_nil|done]. }
  apply NoDup_cons in Hnd as [Hni Hnd]. cbn [flat_map]. unfold add_fk_op at 1. destruct (g k) as [d|] eqn:Eg.
  - pose proof (Hs k d (list_elem_of_here _ _) Eg) as Hsk. pose proof (Hf k d (list_elem_of_here _ _) Eg) as Hfk.
    set (t1 := set_fks t (<[k := not_validated d]> (pt_fks t))).
    destruct (IH t1 Hnd) as (t2 & E2 & S2 & I2 & U2 & P2).
    { intros k' d' Hin. apply Hs. by right. }
    { done. }
    { intros k' d' Hin Hg. cbn [pt_fks t1 set_fks]. rewrite lookup_insert_ne by set_solver. apply (Hf k' d'); [by right|done]. }
    exists t2. cbn [app apply_ops apply_op]. rewrite (pg_name_short _ Hsk). unfold is_constraint, has. rewrite Hfk, (Hu k).
    cbn [orb]. split_and!; try done. intros n. destruct (P2 n) as [Pin Pout]. destruct (decide (n = k)) as [->|Hne].
    + rewrite Pout by auto. cbn [pt_fks t1 set_fks]. rewrite lookup_insert_eq. split; [naive_solver|].
      intros [?|?]; [set_solver|congruence].
    + cbn [pt_fks t1 set_fks] in Pout. rewrite lookup_insert_ne in Pout by done. split.
      * intros d' [?|?]%elem_of_cons; auto. done.
      * intros [[_ ?]%not_elem_of_cons|?]; auto.
  - destruct (IH t Hnd) as (t2 & E2 & S2 & I2 & U2 & P2); [intros; eapply Hs; [by right|done]|done|intros; eapply Hf; [by right|done]|].
    exists t2. cbn [app]. split_and!; try done. intros n. destruct (P2 n) as [Pin Pout]. split.
    + intros d [->|?]%elem_of_cons; [congruence|auto].
    + intros [[_ ?]%not_elem_of_cons|?]; auto.
Qed.

Lemma validate_phase B t :
  Forall (fun op => rank op = 11%nat /\ op_short op) B -> (forall n, n ∈ map op_name B -> is_Some (pt_fks t !! n)) ->
  exists t', apply_ops table t B = Some t' /\ same_columns t t' /\ pt_indexes t' = pt_indexes t /\ pt_uniques t' = pt_uniques t /\
    forall n, (n ∈ map op_name B -> pt_fks t' !! n = set_validated <$> pt_fks t !! n) /\
              (n ∉ map op_name B -> pt_fks t' !! n = pt_fks t !! n).
Proof.
  revert t. induction B as [|op B IH]; intros t HB Hex.
  { exists t. split_and!; try done. intros n. split; [by intros ?%elem_of_nil|done]. }
  apply Forall_cons in HB as ((Hr & Hs & _) & HB). destruct op; try (simpl in Hr; lia).
  cbn [op_name map] in *. destruct (Hex name (list_elem_of_here _ _)) as [f Hf].
  set (t1 := set_fks t (<[name := set_validated f]> (pt_fks t))).
  assert (forall n, n <> name -> pt_fks t1 !! n = pt_fks t !! n) as Hother by (intros; by apply lookup_insert_ne).
  destruct (IH t1 HB) as (t2 & E2 & S2 & I2 & U2 & P2).
  { intros n Hin. destruct (decide (n = name)) as [->|Hne]; [cbn [pt_fks t1 set_fks]; rewrite lookup_insert_eq; eauto|].
    rewrite Hother by done. apply Hex. by right. }
  exists t2. cbn [apply_ops apply_op]. rewrite (pg_name_short _ Hs), Hf. split_and!; try done.
  intros n. destruct (P2 n) as [Pin Pout]. destruct (decide (n = name)) as [->|Hne].
  - split; [|set_solver]. intros _. rewrite Hf. cbn [pt_fks t1 set_fks] in Pin, Pout. rewrite lookup_insert_eq in Pin, Pout.
    destruct (decide (name ∈ map op_name B)); [by rewrite Pin|by rewrite Pout].
  - rewrite (Hother n Hne) in *. split; [intros [?|?]%elem_of_cons; auto; done|intros [_ ?]%not_elem_of_cons; auto].
Qed.

(** ** The operations of a pass *)

(** The operations before they are sorted, without renames and for a desired
    schema without unique constraints. *)
Definition raw_ops (created : list DdlOp) (desired a : PhysicalSchema) : list DdlOp :=
  created
  ++ each_sorted (ps_Columns desired) (column_ops (ps_Table desired) (ps_Columns a))
  ++ each_sorted (ps_Indexes desired) (index_ops (ps_Indexes a))
  ++ each_sorted (ps_Indexes a) (fun name _ => stale_index_ops (ps_Indexes desired) (ps_Uniques a) name)
  ++ each_sorted (ps_ForeignKeys desired) (fk_ops (ps_ForeignKeys a))
  ++ each_sorted (ps_ForeignKeys a) (fun name _ => stale_fk_ops (ps_ForeignKeys desired) name)
  ++ each_sorted (ps_Uniques a) (fun name _ => stale_unique_ops ∅ name).

Inductive emitted (created : list DdlOp) (desired a : PhysicalSchema) (op : DdlOp) : Prop :=
| emitted_created : op ∈ created -> emitted created desired a op
| emitted_column n c : ps_Columns desired !! n = Some c -> op ∈ column_ops (ps_Table desired) (ps_Columns a) n c -> emitted created desired a op
| emitted_index n d : ps_Indexes desired !! n = Some d -> op ∈ index_ops (ps_Indexes a) n d -> emitted created desired a op
| emitted_stale_index n i : ps_Indexes a !! n = Some i -> op ∈ stale_index_ops (ps_Indexes desired) (ps_Uniques a) n -> emitted created desired a op
| emitted_fk n d : ps_ForeignKeys desired !! n = Some d -> op ∈ fk_ops (ps_ForeignKeys a) n d -> emitted created desired a op
| emitted_stale_fk n f : ps_ForeignKeys a !! n = Some f -> op ∈ stale_fk_ops (ps_ForeignKeys desired) n -> emitted created desired a op
| emitted_stale_unique n u : ps_Uniques a !! n = Some u -> op ∈ stale_unique_ops ∅ n -> emitted created desired a op.

Lemma raw_ops_emitted created desired a op : op ∈ raw_ops created desired a <-> emitted created desired a op.
Proof.
  unfold raw_ops. rewrite !elem_of_app, !elem_of_each_sorted. split.
  - intros [Hin|[(n & v & H1 & H2)|[(n & v & H1 & H2)|[(n & v & H1 & H2)|[(n & v & H1 & H2)|[(n & v & H1 & H2)|(n & v & H1 & H2)]]]]]];
      [by constructor|by eapply emitted_column|by eapply emitted_index|by eapply emitted_stale_index|by eapply emitted_fk
      |by eapply emitted_stale_fk|by eapply emitted_stale_unique].
  - intros []; eauto 12.
Qed.

Lemma elem_of_of_rank r op ops : op ∈ of_rank r ops <-> op ∈ ops /\ rank op = r.
Proof. unfold of_rank. rewrite !list_elem_of_In, filter_In, Nat.eqb_eq. done. Qed.

Lemma of_rank_app r l1 l2 : of_rank r (l1 ++ l2) = of_rank r l1 ++ of_rank r l2.
Proof. apply List.filter_app. Qed.

Lemma of_rank_none r l : (forall op, op ∈ l -> rank op <> r) -> of_rank r l = [].
Proof. intros Hl. apply filter_none. intros op Hop. apply Nat.eqb_neq. by apply Hl. Qed.

Lemma of_rank_flat_map {A} r (f : A -> list DdlOp) l : of_rank r (flat_map f l) = flat_map (fun x => of_rank r (f x)) l.
Proof. induction l as [|x l IH]; cbn [flat_map]; [done|]. by rewrite of_rank_app, IH. Qed.

(** What a pass relies on: the desired schema is a compiled one of a table
    [schema.name]; the names it needs and those in the catalogue fit Postgres's
    limit; Postgres prints an index so that it reads back in the same normal
    form; and the index behind a unique constraint is unique and not partial. *)
Record reconcilable (desired : PhysicalSchema) (t : PgTable) : Prop := {
  rc_compiled : compiled_ok desired;
  rc_table : ps_Table desired = table;
  rc_one_dot : after_last table "." = snd (split_table table);
  rc_columns : forall n, is_Some (ps_Columns desired !! n) -> short n /\ short (sync_name "trg_sync_" table n);
  rc_indexes : forall n, is_Some (ps_Indexes desired !! n) -> short n;
  rc_fks : forall n, is_Some (ps_ForeignKeys desired !! n) -> short n;
  rc_echo : forall n d, ps_Indexes desired !! n = Some d ->
    let '(e, w) := extractIndexExpressionAndWhere (pg_get_indexdef n d) in
    NormalizeExpr e = NormalizeExpr (ix_Expression d) /\ whereClauseMatches w (ix_WhereClause d) = true;
  rc_actual : forall n, is_Some (pt_indexes t !! n) \/ is_Some (pt_fks t !! n) \/ is_Some (pt_uniques t !! n) -> short n;
  rc_backed : forall n, is_Some (pt_uniques t !! n) -> pt_fks t !! n = None /\
    forall i, pt_indexes t !! n = Some i ->
      ix_Unique (pi_spec i) = true /\ snd (extractIndexExpressionAndWhere (pg_get_indexdef n (pi_spec i))) = ""
}.

(** What the pass was told of the table: all its objects, and of its columns
    none or all. *)
Record views (a : PhysicalSchema) (t : PgTable) : Prop := {
  views_columns : forall n c, ps_Columns a !! n = Some c -> exists c0, pt_columns t !! n = Some c0 /\ c = seen_column t n c0;
  views_indexes : forall n, ps_Indexes a !! n = seen_index n <$> pt_indexes t !! n;
  views_fks : forall n, ps_ForeignKeys a !! n = pt_fks t !! n;
  views_uniques : forall n, ps_Uniques a !! n = mkUniqueSpec <$> pt_uniques t !! n
}.

Lemma views_seen t : views (seen t) t.
Proof.
  split; intros n; [|apply seen_parts..]. intros c. destruct (seen_parts t n) as (-> & _).
  intros (c0 & -> & E)%fmap_Some. eauto.
Qed.

Section Pass.
Variables (created : list DdlOp) (desired a : PhysicalSchema) (t : PgTable).
Hypothesis Hcreated : created = [] \/ created = [OpCreateTable].
Hypothesis Hviews : views a t.
Hypothesis Hrec : reconcilable desired t.

Let raw := raw_ops created desired a.

Ltac inv_elem :=
  repeat match goal with
  | Hin : _ ∈ [] |- _ => by apply elem_of_nil in Hin
  | Hin : _ ∈ _ :: _ |- _ => apply elem_of_cons in Hin as [Hin|Hin]
  | Hin : _ = OpCreateTable |- _ => subst
  end.

Lemma column_ops_cases n c op : ps_Columns desired !! n = Some c -> op ∈ column_ops (ps_Table desired) (ps_Columns a) n c ->
  op = OpAddColumn n c \/ op = OpAddSyncTrigger n (col_SQLType c) \/ op = OpBackfillColumn (BackfillOpID table n) n n (col_SQLType c).
Proof.
  intros Hd Hin. destruct (rc_compiled _ _ Hrec) as (_ & _ & _ & Hcols). specialize (Hcols n c Hd).
  unfold column_ops, pushSyncAndBackfill in Hin. rewrite (rc_table _ _ Hrec) in Hin. destruct (ps_Columns a !! n) as [ac|] eqn:Ea.
  - destruct (views_columns _ _ Hviews _ _ Ea) as (c0 & Hc0 & ->). unfold seen_column in Hin.
    destruct (pg_type_row (fst c0)) as [[[? ?] ?] ?]. cbn [col_Origin] in Hin.
    destruct (is_framework n); cbn [is_generated o_Kind andb o_SourceField] in Hin; [inv_elem|].
    case_match; inv_elem; subst; auto.
  - apply elem_of_cons in Hin as [->|Hin]; [auto|]. unfold is_generated in Hin. destruct Hcols as [[_ Ho]|Ho].
    + rewrite Ho in Hin. inv_elem.
    + rewrite Ho in Hin. cbn [o_SourceField o_Kind] in Hin. inv_elem; subst; auto.
Qed.

(** The operations every desired column gets when it is missing or unfilled. *)
Lemma column_ops_in n c : ps_Columns desired !! n = Some c ->
  (ps_Columns a !! n = None -> OpAddColumn n c ∈ raw) /\
  (is_framework n = false ->
   (forall ac, ps_Columns a !! n = Some ac -> o_Backfilled (col_Origin ac) = false) ->
   col_Origin c = mkOrigin OriginGenerated n true ->
   OpAddSyncTrigger n (col_SQLType c) ∈ raw /\ OpBackfillColumn (BackfillOpID table n) n n (col_SQLType c) ∈ raw).
Proof.
  intros Hd. split.
  - intros Ha. apply raw_ops_emitted. eapply emitted_column; [done|]. unfold column_ops. rewrite Ha. left.
  - intros Hf Hb Ho.
    assert (forall op, op ∈ pushSyncAndBackfill table n n (col_SQLType c) -> op ∈ raw) as Hall;
      [|split; apply Hall; [left|right; left]].
    intros op Hop. apply raw_ops_emitted. eapply emitted_column; [done|]. unfold column_ops. rewrite (rc_table _ _ Hrec).
    destruct (ps_Columns a !! n) as [ac|] eqn:Ea.
    + specialize (Hb _ eq_refl). destruct (views_columns _ _ Hviews _ _ Ea) as (c0 & Hc0 & ->). revert Hb. unfold seen_column.
      destruct (pg_type_row (fst c0)) as [[[? ?] ?] ?]. cbn [col_Origin]. rewrite Hf. cbn [is_generated o_Kind o_Backfilled o_SourceField andb].
      intros ->. done.
    + rewrite Ho. by right.
Qed.

(** Every operation of a pass, by the step that emitted it. *)
Lemma raw_cases op : op ∈ raw ->
  op = OpCreateTable \/
  (exists n c, ps_Columns desired !! n = Some c /\ op ∈ column_ops (ps_Table desired) (ps_Columns a) n c /\ (2 <= rank op <= 4)%nat) \/
  (exists n d, ps_Indexes desired !! n = Some d /\ op ∈ index_ops (ps_Indexes a) n d /\ (7 <= rank op <= 8)%nat) \/
  (exists n, is_Some (ps_Indexes a !! n) /\ ps_Indexes desired !! n = None /\ ps_Uniques a !! n = None /\ op = OpDropIndexConcurrently n) \/
  (exists n d, ps_ForeignKeys desired !! n = Some d /\ op ∈ fk_ops (ps_ForeignKeys a) n d /\ (rank op = 5 \/ 10 <= rank op)%nat) \/
  (exists n, is_Some (ps_ForeignKeys a !! n) /\ ps_ForeignKeys desired !! n = None /\ op = OpDropForeignKey n) \/
  (exists n, is_Some (ps_Uniques a !! n) /\ op = OpDropUnique n).
Proof.
  intros Hin%raw_ops_emitted. destruct Hin as [Hc|n c Hd Hc|n d Hd Hc|n i Hd Hc|n d Hd Hc|n f Hd Hc|n u Hd Hc].
  - left. destruct Hcreated as [->| ->]; inv_elem; done.
  - right; left. exists n, c. split_and!; try done; apply (column_ops_cases n c op Hd) in Hc as [->|[->| ->]]; simpl; lia.
  - do 2 right; left. exists n, d. split_and!; try done; unfold index_ops in Hc; repeat case_match; inv_elem; subst; simpl; lia.
  - do 3 right; left. exists n. unfold stale_index_ops, has in Hc.
    destruct (ps_Indexes desired !! n), (ps_Uniques a !! n); inv_elem; eauto.
  - do 4 right; left. exists n, d. split_and!; try done. unfold fk_ops in Hc; repeat case_match; inv_elem; subst; simpl; lia.
  - do 5 right; left. exists n. unfold stale_fk_ops, has in Hc. destruct (ps_ForeignKeys desired !! n); inv_elem; eauto.
  - do 6 right. exists n. unfold stale_unique_ops, has in Hc. rewrite lookup_empty in Hc. inv_elem. eauto.
Qed.

Ltac raw_case Hop :=
  apply raw_cases in Hop as [->|[(n' & c' & Hd' & Hin' & Hr')|[(n' & d' & Hd' & Hin' & Hr')|[(n' & Ha' & Hd' & Hu' & ->)
    |[(n' & d' & Hd' & Hin' & Hr')|[(n' & Ha' & Hd' & ->)|(n' & Ha' & ->)]]]]]].

(** The names a pass writes are kept whole. *)
Lemma raw_short op : op ∈ raw -> op_short op.
Proof.
  intros Hop. pose proof (rc_columns _ _ Hrec) as Hsc. pose proof (rc_indexes _ _ Hrec) as Hsi. pose proof (rc_fks _ _ Hrec) as Hsf.
  pose proof (rc_actual _ _ Hrec) as Hsa. raw_case Hop.
  - split; [|done]. unfold short. simpl. unfold identifier_limit. lia.
  - destruct (Hsc n' (ex_intro _ _ Hd')) as [H1 H2].
    apply (column_ops_cases n' c' op Hd') in Hin' as [->|[->| ->]]; by split.
  - pose proof (Hsi n' (ex_intro _ _ Hd')) as H1. unfold index_ops in Hin'. repeat case_match; inv_elem; subst; by split.
  - split; [|done]. apply Hsa. left. rewrite (views_indexes _ _ Hviews) in Ha'. by apply fmap_is_Some in Ha'.
  - pose proof (Hsf n' (ex_intro _ _ Hd')) as H1. unfold fk_ops in Hin'. repeat case_match; inv_elem; subst; by split.
  - split; [|done]. apply Hsa. right; left. by rewrite <- (views_fks _ _ Hviews).
  - split; [|done]. apply Hsa. right; right. rewrite (views_uniques _ _ Hviews) in Ha'. by apply fmap_is_Some in Ha'.
Qed.

(** Which names are dropped, created and validated. *)
Lemma dropped_index n : n ∈ map op_name (of_rank 7 raw) <->
  (exists d i, ps_Indexes desired !! n = Some d /\ ps_Indexes a !! n = Some i /\ (ix_Valid i = false \/ indexMatches i d = false)) \/
  (is_Some (ps_Indexes a !! n) /\ ps_Indexes desired !! n = None /\ ps_Uniques a !! n = None).
Proof.
  rewrite list_elem_of_fmap. split.
  - intros (op & -> & [Hop Hr]%elem_of_of_rank). raw_case Hop; simpl in *; try lia; [|by right].
    left. unfold index_ops in Hin'. destruct (ps_Indexes a !! n') as [i|] eqn:Ea; [|inv_elem; subst; simpl in *; lia].
      destruct (ix_Valid i) eqn:Ev, (indexMatches i d') eqn:Em; cbn [negb orb] in Hin'; inv_elem; subst; simpl in *; try lia;
        exists d', i; rewrite Ea; auto.
  - intros [(d & i & Hd & Ha & Hm)|(Ha & Hd & Hu)]; exists (OpDropIndexConcurrently n); (split; [done|]); apply elem_of_of_rank;
      (split; [|done]); apply raw_ops_emitted.
    + eapply emitted_index; [done|]. unfold index_ops. rewrite Ha. destruct Hm as [-> | ->]; [left|rewrite orb_true_r; left].
    + destruct Ha as [i Ha]. eapply emitted_stale_index; [done|]. unfold stale_index_ops, has. rewrite Hd, Hu. left.
Qed.

Lemma created_index n d : OpCreateIndexConcurrently n d ∈ of_rank 8 raw <->
  ps_Indexes desired !! n = Some d /\ (forall i, ps_Indexes a !! n = Some i -> ix_Valid i = false \/ indexMatches i d = false).
Proof.
  rewrite elem_of_of_rank. split.
  - intros [Hop _]. apply raw_cases in Hop as [[=]|[(n' & c' & Hd' & Hin' & Hr')|[(n' & d' & Hd' & Hin' & Hr')|[(n' & Ha' & Hd' & Hu' & [=])
      |[(n' & d' & Hd' & Hin' & Hr')|[(n' & Ha' & Hd' & [=])|(n' & Ha' & [=])]]]]]]; simpl in *; try lia.
    unfold index_ops in Hin'. destruct (ps_Indexes a !! n') as [i|] eqn:Ea.
    + destruct (ix_Valid i) eqn:Ev, (indexMatches i d') eqn:Em; cbn [negb orb] in Hin'; inv_elem; simplify_eq;
        split; try done; intros i' Hi'; simplify_eq; auto.
    + inv_elem. simplify_eq. split; [done|]. intros i. by rewrite Ea.
  - intros [Hd Hm]. split; [|done]. apply raw_ops_emitted. eapply emitted_index; [done|]. unfold index_ops.
    destruct (ps_Indexes a !! n) as [i|]; [|left]. destruct (Hm i eq_refl) as [-> | ->]; [right; left|rewrite orb_true_r; right; left].
Qed.

Lemma dropped_constraint n : n ∈ map op_name (of_rank 5 raw ++ of_rank 6 raw) <->
  (exists d f, ps_ForeignKeys desired !! n = Some d /\ ps_ForeignKeys a !! n = Some f /\ fkMatches f d = false) \/
  (is_Some (ps_ForeignKeys a !! n) /\ ps_ForeignKeys desired !! n = None) \/ is_Some (ps_Uniques a !! n).
Proof.
  rewrite list_elem_of_fmap. setoid_rewrite elem_of_app. setoid_rewrite elem_of_of_rank. split.
  - intros (op & -> & Hop'). assert (op ∈ raw /\ (rank op = 5 \/ rank op = 6)%nat) as [Hop Hr] by tauto. clear Hop'.
    raw_case Hop; simpl in *; try lia; [|by right; left|by right; right].
    left. unfold fk_ops in Hin'. destruct (ps_ForeignKeys a !! n') as [f|] eqn:Ea; [|inv_elem; subst; simpl in *; lia].
    destruct (fkMatches f d') eqn:Em; cbn [negb] in Hin'.
    + case_match; inv_elem; subst; simpl in *; lia.
    + inv_elem; subst; simpl in *; try lia. exists d', f. by rewrite Ea.
  - intros [(d & f & Hd & Ha & Hm)|[([f Ha] & Hd)|[u Hu]]].
    + exists (OpDropForeignKey n). split; [done|]. left. split; [|done]. apply raw_ops_emitted. eapply emitted_fk; [done|].
      unfold fk_ops. rewrite Ha, Hm. left.
    + exists (OpDropForeignKey n). split; [done|]. left. split; [|done]. apply raw_ops_emitted. eapply emitted_stale_fk; [done|].
      unfold stale_fk_ops, has. rewrite Hd. left.
    + exists (OpDropUnique n). split; [done|]. right. split; [|done]. apply raw_ops_emitted. eapply emitted_stale_unique; [done|].
      unfold stale_unique_ops, has. rewrite lookup_empty. left.
Qed.

(** The foreign key a pass adds under a name. *)
Definition fk_to_add (n : string) : option FkSpec :=
  match ps_ForeignKeys desired !! n with
  | Some d => match ps_ForeignKeys a !! n with Some f => if fkMatches f d then None else Some d | None => Some d end
  | None => None
  end.

Lemma added_fks : of_rank 10 raw = flat_map (add_fk_op fk_to_add) (sortedKeys (ps_ForeignKeys desired)).
Proof.
  unfold raw, raw_ops. rewrite !of_rank_app.
  assert (forall l, (forall op, op ∈ l -> (rank op < 10)%nat) -> of_rank 10 l = []) as Hnone.
  { intros l Hl. apply of_rank_none. intros op Hop. specialize (Hl op Hop). lia. }
  assert (forall V (m : gmap string V) body, (forall n v op, m !! n = Some v -> op ∈ body n v -> (rank op < 10)%nat) -> of_rank 10 (each_sorted m body) = []) as Hes.
  { intros V m body Hb. apply Hnone. intros op (n & v & Hm & Hop)%elem_of_each_sorted. by eapply Hb. }
  rewrite (Hnone created); [|intros op Hop; destruct Hcreated as [E|E]; rewrite E in Hop; inv_elem; subst; simpl; lia].
  rewrite (Hes _ (ps_Columns desired)); [|intros n v op Hm Hop; apply (column_ops_cases n v op Hm) in Hop as [->|[->| ->]]; simpl; lia].
  rewrite (Hes _ (ps_Indexes desired)); [|intros n v op Hm Hop; unfold index_ops in Hop; repeat case_match; inv_elem; subst; simpl; lia].
  rewrite (Hes _ (ps_Indexes a)); [|intros n v op Hm Hop; unfold stale_index_ops in Hop; repeat case_match; inv_elem; subst; simpl; lia].
  rewrite (Hes _ (ps_ForeignKeys a)); [|intros n v op Hm Hop; unfold stale_fk_ops in Hop; case_match; inv_elem; subst; simpl; lia].
  rewrite (Hes _ (ps_Uniques a)); [|intros n v op Hm Hop; unfold stale_unique_ops in Hop; case_match; inv_elem; subst; simpl; lia].
  rewrite !app_nil_r.
  cbn [app]. unfold each_sorted. rewrite of_rank_flat_map. apply flat_map_ext. intros n. unfold add_fk_op, fk_to_add.
  destruct (ps_ForeignKeys desired !! n) as [d|]; [|done]. unfold fk_ops.
  destruct (ps_ForeignKeys a !! n) as [f|]; [|done]. destruct (fkMatches f d); [|done]. by destruct (fk_Validated f).
Qed.

Lemma validated_fk n : n ∈ map op_name (of_rank 11 raw) <->
  exists d, ps_ForeignKeys desired !! n = Some d /\
    (forall f, ps_ForeignKeys a !! n = Some f -> fkMatches f d = false \/ fk_Validated f = false).
Proof.
  rewrite list_elem_of_fmap. split.
  - intros (op & -> & [Hop Hr]%elem_of_of_rank). raw_case Hop; simpl in *; try lia.
    unfold fk_ops in Hin'. destruct (ps_ForeignKeys a !! n') as [f|] eqn:Ea.
    + destruct (fkMatches f d') eqn:Em, (fk_Validated f) eqn:Ev; cbn [negb] in Hin'; inv_elem; subst; simpl in *; try lia;
        exists d'; (split; [done|]); rewrite Ea; intros ? [= <-]; auto.
    + inv_elem; subst; simpl in *; try lia. exists d'. split; [done|]. intros f. by rewrite Ea.
  - intros (d & Hd & Hm). exists (OpValidateForeignKey n). split; [done|]. apply elem_of_of_rank. split; [|done].
    apply raw_ops_emitted. eapply emitted_fk; [done|]. unfold fk_ops.
    destruct (ps_ForeignKeys a !! n) as [f|]; [|right; left]. destruct (fkMatches f d) eqn:Em; cbn [negb]; [|do 2 right; left].
    destruct (Hm f eq_refl) as [?| ->]; [congruence|left].
Qed.

Lemma no_rank r : r = 1%nat \/ r = 9%nat -> of_rank r raw = [].
Proof.
  intros Hr. apply of_rank_none. intros op Hop. raw_case Hop; simpl; try lia.
Qed.

(** What the objects of the table are after the pass. *)
Record passed (t' : PgTable) : Prop := {
  passed_grows : grows t t';
  passed_effects : forall op, op ∈ raw -> column_effect t' op;
  passed_uniques : forall n, pt_uniques t' !! n = None;
  passed_index_kept : forall n d i, ps_Indexes desired !! n = Some d -> pt_indexes t !! n = Some i ->
    ix_Valid (seen_index n i) = true -> indexMatches (seen_index n i) d = true -> pt_indexes t' !! n = Some i;
  passed_index_made : forall n d, ps_Indexes desired !! n = Some d ->
    (forall i, pt_indexes t !! n = Some i -> ix_Valid (seen_index n i) = false \/ indexMatches (seen_index n i) d = false) ->
    pt_indexes t' !! n = Some (mkPgIndex d true);
  passed_index_gone : forall n, ps_Indexes desired !! n = None -> pt_indexes t' !! n = None;
  passed_fk_made : forall n d, ps_ForeignKeys desired !! n = Some d ->
    exists f, pt_fks t' !! n = Some f /\ fk_Validated f = true /\ fkMatches f d = true;
  passed_fk_gone : forall n, ps_ForeignKeys desired !! n = None -> pt_fks t' !! n = None
}.

(** An index behind a unique constraint never matches a compiled index. *)
Lemma backed_mismatch n d i :
  ps_Indexes desired !! n = Some d -> pt_indexes t !! n = Some i -> is_Some (pt_uniques t !! n) ->
  indexMatches (seen_index n i) d = false.
Proof.
  intros Hd Hi Hu. destruct (rc_backed _ _ Hrec n Hu) as [_ Hb]. destruct (Hb i Hi) as [Huniq Hwhere].
  destruct (rc_compiled _ _ Hrec) as (Hidx & _). destruct (Hidx n d Hd) as (_ & Hw & _).
  unfold indexMatches, seen_index. destruct (extractIndexExpressionAndWhere _) as [e w]. simpl in Hwhere. subst w.
  cbn [ix_Unique ix_WhereClause]. rewrite Huniq. destruct (ix_Unique d) eqn:Eu; [|by rewrite andb_false_r].
  rewrite (Hw eq_refl). by rewrite andb_false_r.
Qed.

Lemma fkMatches_spec f d : fkMatches f d = true <->
  fk_Column f = fk_Column d /\ fk_RefTable f = fk_RefTable d /\ fk_RefColumn f = fk_RefColumn d /\ fk_OnDelete f = fk_OnDelete d.
Proof. unfold fkMatches, OnDelete_eqb. rewrite !andb_true_iff, !String.eqb_eq, bool_decide_eq_true. tauto. Qed.

Lemma bucket_forall (P : DdlOp -> Prop) B :
  (forall op, op ∈ B -> op ∈ raw /\ P op) -> Forall (fun op => P op /\ op_short op) B.
Proof. intros HB. apply Forall_forall. intros op Hop. destruct (HB op Hop). split; [done|]. by apply raw_short. Qed.

Definition column_bucket : list DdlOp := of_rank 0 raw ++ of_rank 2 raw ++ of_rank 3 raw ++ of_rank 4 raw.
Definition drop_bucket : list DdlOp := of_rank 5 raw ++ of_rank 6 raw.

Lemma sorted_buckets : topoSort raw =
  (column_bucket ++ drop_bucket) ++ (of_rank 7 raw ++ of_rank 8 raw) ++ (of_rank 10 raw ++ of_rank 11 raw).
Proof.
  rewrite topoSort_buckets. unfold buckets. cbn [seq flat_map]. rewrite app_nil_r, (no_rank 1), (no_rank 9) by auto.
  unfold column_bucket, drop_bucket. cbn [app]. by rewrite <- !app_assoc.
Qed.

Lemma column_bucket_spec op : op ∈ column_bucket <-> op ∈ raw /\ (rank op < 5)%nat.
Proof.
  unfold column_bucket. rewrite !elem_of_app, !elem_of_of_rank.
  split; [intros [[? ->]|[[? ->]|[[? ->]|[? ->]]]]; (split; [done|lia])|]. intros [Hop Hr].
  destruct (decide (rank op = 1%nat)) as [H1|H1]; [|assert (rank op = 0 \/ rank op = 2 \/ rank op = 3 \/ rank op = 4)%nat as [|[|[|]]] by lia; tauto].
  assert (op ∈ of_rank 1 raw) as Hx by (by apply elem_of_of_rank). rewrite (no_rank 1) in Hx by auto. by apply elem_of_nil in Hx.
Qed.

(** Columns, then the constraints that must go. *)
Lemma pass_columns_and_drops : exists t2,
  apply_ops table t (column_bucket ++ drop_bucket) = Some t2 /\
  grows t t2 /\ (forall op, op ∈ raw -> column_effect t2 op) /\ (forall n, pt_uniques t2 !! n = None) /\
  (forall n, pt_fks t2 !! n = if decide (n ∈ map op_name drop_bucket) then None else pt_fks t !! n) /\
  (forall n, (pt_uniques t !! n = None -> pt_indexes t2 !! n = pt_indexes t !! n) /\
             (is_Some (pt_uniques t !! n) -> pt_indexes t2 !! n = None)).
Proof.
  destruct (column_phase column_bucket t) as (t1 & E1 & G1 & (I1 & F1 & U1) & C1).
  { eapply Forall_impl; [apply (bucket_forall (fun op => rank op < 5 /\ rank op <> 1)%nat)|simpl; tauto].
    intros op [Hop Hr]%column_bucket_spec. split; [done|]. split; [done|]. intros H1.
    assert (op ∈ of_rank 1 raw) as Hx by (by apply elem_of_of_rank). rewrite (no_rank 1) in Hx by auto. by apply elem_of_nil in Hx. }
  destruct (drop_constraint_phase drop_bucket t1) as (t2 & E2 & (S2 & S2' & S2'') & P2).
  { apply bucket_forall. intros op. unfold drop_bucket. rewrite elem_of_app, !elem_of_of_rank. intros Hop.
    split; [tauto|]. destruct op; simpl in Hop; try lia; done. }
  exists t2. rewrite apply_ops_app, E1. split; [done|].
  assert (grows t1 t2) as G2 by (constructor; [by rewrite S2|by rewrite S2'|by rewrite S2'']).
  assert (forall n, n ∉ map op_name drop_bucket -> pt_uniques t !! n = None) as Hn.
  { intros n Hnin. destruct (pt_uniques t !! n) eqn:Eu; [|done]. destruct Hnin. apply dropped_constraint. right; right.
    rewrite (views_uniques _ _ Hviews), Eu. eauto. }
  split; [by etransitivity|]. split; [|split; [|split]].
  - intros op Hop. destruct (decide (rank op < 5)%nat) as [Hr|Hr].
    + eapply column_effect_grows; [done|]. rewrite Forall_forall in C1. by apply C1, column_bucket_spec.
    + by destruct op; simpl in Hr; try lia.
  - intros n. destruct (P2 n) as [Pin Pout]. destruct (decide (n ∈ map op_name drop_bucket)) as [Hin|Hnin].
    + by destruct (Pin Hin) as (_ & ? & _).
    + destruct (Pout Hnin) as (_ & Hu & _). rewrite Hu, U1. auto.
  - intros n. destruct (P2 n) as [Pin Pout]. case_decide as Hin; [by destruct (Pin Hin)|].
    destruct (Pout Hin) as (-> & _). by rewrite F1.
  - intros n. destruct (P2 n) as [Pin Pout]. destruct (decide (n ∈ map op_name drop_bucket)) as [Hin|Hnin].
    + destruct (Pin Hin) as (_ & _ & H1 & H2). rewrite U1 in H1, H2. rewrite I1 in H1. auto.
    + destruct (Pout Hnin) as (_ & _ & ->). rewrite I1, (Hn n Hnin). split; [done|]. by intros [? [=]].
Qed.

(** Indexes. *)
Lemma pass_indexes t2 :
  (forall n, pt_uniques t2 !! n = None) ->
  (forall n, (pt_uniques t !! n = None -> pt_indexes t2 !! n = pt_indexes t !! n) /\
             (is_Some (pt_uniques t !! n) -> pt_indexes t2 !! n = None)) ->
  exists t4, apply_ops table t2 (of_rank 7 raw ++ of_rank 8 raw) = Some t4 /\ same_columns t2 t4 /\
    pt_fks t4 = pt_fks t2 /\ pt_uniques t4 = pt_uniques t2 /\
    (forall n d i, ps_Indexes desired !! n = Some d -> pt_indexes t !! n = Some i ->
       ix_Valid (seen_index n i) = true -> indexMatches (seen_index n i) d = true -> pt_indexes t4 !! n = Some i) /\
    (forall n d, ps_Indexes desired !! n = Some d ->
       (forall i, pt_indexes t !! n = Some i -> ix_Valid (seen_index n i) = false \/ indexMatches (seen_index n i) d = false) ->
       pt_indexes t4 !! n = Some (mkPgIndex d true)) /\
    (forall n, ps_Indexes desired !! n = None -> pt_indexes t4 !! n = None).
Proof.
  intros U2 I2. destruct (drop_index_phase (of_rank 7 raw) t2) as (t3 & E3 & S3 & F3 & U3 & P3); [|done|].
  { apply bucket_forall. by intros op ?%elem_of_of_rank. }
  destruct (create_index_phase (of_rank 8 raw) t3) as (t4 & E4 & S4 & F4 & U4 & P4).
  { apply bucket_forall. by intros op ?%elem_of_of_rank. }
  { intros n d d' [H1 _]%created_index [H2 _]%created_index. congruence. }
  exists t4. rewrite apply_ops_app, E3. split; [done|].
  split; [unfold same_columns in *; naive_solver congruence|]. split; [congruence|]. split; [congruence|].
  assert (forall n, pt_indexes t3 !! n = None \/ pt_indexes t3 !! n = pt_indexes t !! n) as I3.
  { intros n. destruct (P3 n) as [Pin Pout]. destruct (decide (n ∈ map op_name (of_rank 7 raw))) as [Hin|Hnin]; [auto|].
    rewrite (Pout Hnin). destruct (I2 n) as [I2a I2b]. destruct (pt_uniques t !! n) eqn:Eu; [left|right]; eauto. }
  split; [|split].
  - intros n d i Hd Hi Hv Hm. destruct (P4 n) as [_ P4b]. destruct (P3 n) as [_ P3b]. destruct (I2 n) as [I2a _].
    assert (pt_uniques t !! n = None) as Hu.
    { destruct (pt_uniques t !! n) eqn:Eu; [|done]. pose proof (backed_mismatch n d i Hd Hi) as Hb. rewrite Eu in Hb.
      rewrite Hb in Hm by eauto. done. }
    assert (pt_indexes t3 !! n = Some i) as H3.
    { rewrite P3b, I2a; [done..|]. rewrite dropped_index, (views_indexes _ _ Hviews), Hi. simpl.
      intros [(d' & i' & Hd' & [= <-] & Hx)|(_ & Hx & _)]; [|congruence]. assert (d' = d) as -> by congruence.
      destruct Hx; congruence. }
    rewrite P4b, H3; [done|]. left. eauto.
  - intros n d Hd Hm. destruct (P4 n) as [P4a _]. apply P4a.
    + apply created_index. split; [done|]. intros i. rewrite (views_indexes _ _ Hviews).
      intros (i0 & Hi0 & ->)%fmap_Some. auto.
    + destruct (pt_indexes t !! n) as [i|] eqn:Ei; [|destruct (I3 n) as [?| ->]; done].
      apply (P3 n), dropped_index. left. exists d, (seen_index n i). rewrite (views_indexes _ _ Hviews), Ei. auto.
  - intros n Hd. destruct (P4 n) as [_ P4b].
    assert (pt_indexes t3 !! n = None) as H3.
    { destruct (pt_indexes t !! n) as [i|] eqn:Ei; [|destruct (I3 n) as [?| ->]; done].
      destruct (P3 n) as [P3a P3b]. destruct (decide (n ∈ map op_name (of_rank 7 raw))) as [Hin|Hnin]; [auto|].
      rewrite (P3b Hnin). apply (I2 n). destruct (pt_uniques t !! n) eqn:Eu; [eauto|]. destruct Hnin. apply dropped_index.
      right. rewrite (views_indexes _ _ Hviews), (views_uniques _ _ Hviews), Ei, Eu. split_and!; eauto. }
    rewrite P4b; [done|]. right. intros (op & Hname & Hop)%list_elem_of_fmap. pose proof Hop as [_ Hr]%elem_of_of_rank.
    destruct op; simpl in Hr; try lia. apply created_index in Hop as [Hop _]. simpl in Hname. congruence.
Qed.

(** Foreign keys. *)
Lemma pass_fks t4 :
  (forall n, pt_uniques t4 !! n = None) ->
  (forall n, pt_fks t4 !! n = if decide (n ∈ map op_name drop_bucket) then None else pt_fks t !! n) ->
  exists t6, apply_ops table t4 (of_rank 10 raw ++ of_rank 11 raw) = Some t6 /\ same_columns t4 t6 /\
    pt_indexes t6 = pt_indexes t4 /\ pt_uniques t6 = pt_uniques t4 /\
    (forall n d, ps_ForeignKeys desired !! n = Some d ->
       exists f, pt_fks t6 !! n = Some f /\ fk_Validated f = true /\ fkMatches f d = true) /\
    (forall n, ps_ForeignKeys desired !! n = None -> pt_fks t6 !! n = None).
Proof.
  intros U4 F4. destruct (add_fk_phase (sortedKeys (ps_ForeignKeys desired)) fk_to_add t4) as (t5 & E5 & S5 & I5 & U5 & P5).
  { apply sortedKeys_NoDup. }
  { intros k d Hk%sortedKeys_elem _. by apply (rc_fks _ _ Hrec). }
  { done. }
  { intros k d _ Hg. rewrite F4. case_decide as Hin; [done|]. unfold fk_to_add in Hg.
    destruct (ps_ForeignKeys desired !! k) as [d'|] eqn:Ed; [|done]. rewrite <- (views_fks _ _ Hviews).
    destruct (ps_ForeignKeys a !! k) as [f|] eqn:Ef; [|done]. destruct (fkMatches f d') eqn:Em; [done|]. destruct Hin.
    apply dropped_constraint. left. eauto. }
  (* what a desired key is before validation *)
  assert (forall n d, ps_ForeignKeys desired !! n = Some d ->
    exists f, pt_fks t5 !! n = Some f /\ fkMatches f d = true /\ (n ∈ map op_name (of_rank 11 raw) \/ fk_Validated f = true)) as Hfk.
  { intros n d Hd. destruct (P5 n) as [Pin Pout]. unfold fk_to_add in Pin, Pout. rewrite Hd in Pin, Pout.
    assert (n ∈ sortedKeys (ps_ForeignKeys desired)) as Hkey by (apply sortedKeys_elem; eauto).
    assert (fkMatches (not_validated d) d = true) as Hnv by (by apply fkMatches_spec).
    setoid_rewrite validated_fk. destruct (ps_ForeignKeys a !! n) as [f|] eqn:Ef.
    - destruct (fkMatches f d) eqn:Em.
      + exists f. rewrite Pout by auto. rewrite F4, <- (views_fks _ _ Hviews), Ef. rewrite decide_False.
        * split; [done|]. split; [done|]. destruct (fk_Validated f) eqn:Ev; [auto|]. left. exists d. split; [done|].
          intros ? [= <-]. auto.
        * rewrite dropped_constraint, Ef, Hd. intros [(d' & f' & [= <-] & [= <-] & ?)|[[_ ?]|Hu]]; [congruence..|].
          rewrite (views_uniques _ _ Hviews) in Hu. apply fmap_is_Some in Hu. destruct (rc_backed _ _ Hrec n Hu) as [Hno _].
          rewrite <- (views_fks _ _ Hviews) in Hno. congruence.
      + exists (not_validated d). rewrite (Pin d Hkey eq_refl). split; [done|]. split; [done|]. left. exists d. split; [done|].
        intros ? [= <-]. auto.
    - exists (not_validated d). rewrite (Pin d Hkey eq_refl). split; [done|]. split; [done|]. left. exists d. done. }
  destruct (validate_phase (of_rank 11 raw) t5) as (t6 & E6 & S6 & I6 & U6 & P6).
  { apply bucket_forall. by intros op ?%elem_of_of_rank. }
  { intros n (d & Hd & _)%validated_fk. destruct (Hfk n d Hd) as (f & -> & _). eauto. }
  exists t6. rewrite apply_ops_app, added_fks, E5. split; [done|].
  split; [unfold same_columns in *; naive_solver congruence|]. split; [congruence|]. split; [congruence|]. split.
  - intros n d Hd. destruct (Hfk n d Hd) as (f & Hf & Hm & Hv). destruct (P6 n) as [Pin Pout].
    destruct (decide (n ∈ map op_name (of_rank 11 raw))) as [Hin|Hnin].
    + exists (set_validated f). rewrite (Pin Hin), Hf. split; [done|]. split; [done|]. apply fkMatches_spec in Hm. by apply fkMatches_spec.
    + exists f. rewrite (Pout Hnin), Hf. destruct Hv; [done|]. auto.
  - intros n Hd. destruct (P6 n) as [_ Pout]. rewrite Pout; [|intros (d & Hd' & _)%validated_fk; congruence].
    destruct (P5 n) as [_ P5b]. rewrite P5b by (left; rewrite sortedKeys_elem, Hd; by intros [? [=]]).
    rewrite F4. case_decide as Hin; [done|]. destruct (pt_fks t !! n) as [f|] eqn:Ef; [|done]. destruct Hin.
    apply dropped_constraint. right; left. rewrite (views_fks _ _ Hviews), Ef. eauto.
Qed.

Lemma pass_runs : exists t', apply_ops table t (topoSort raw) = Some t' /\ passed t'.
Proof.
  destruct pass_columns_and_drops as (t2 & E2 & G2 & C2 & U2 & F2 & I2).
  destruct (pass_indexes t2 U2 I2) as (t4 & E4 & S4 & F4 & U4 & K4 & M4 & N4).
  destruct (pass_fks t4) as (t6 & E6 & S6 & I6 & U6 & M6 & N6); [by rewrite U4|by rewrite F4|].
  exists t6. rewrite sorted_buckets, apply_ops_app, E2, apply_ops_app, E4. split; [done|].
  assert (grows t2 t6) as G6.
  { destruct S4 as (H1 & H2 & H3), S6 as (H4 & H5 & H6). constructor; rewrite ?H4, ?H5, ?H6, ?H1, ?H2, ?H3; done. }
  constructor; try done.
  - by etransitivity.
  - intros op Hop. eapply column_effect_grows; eauto.
  - intros n. by rewrite U6, U4.
  - intros n d i. rewrite I6. apply K4.
  - intros n d. rewrite I6. apply M4.
  - intros n. rewrite I6. apply N4.
Qed.

(** The index made from a desired one reads back as it. *)
Lemma made_index_matches n d : ps_Indexes desired !! n = Some d ->
  ix_Valid (seen_index n (mkPgIndex d true)) = true /\ indexMatches (seen_index n (mkPgIndex d true)) d = true.
Proof.
  intros Hd. pose proof (rc_echo _ _ Hrec n d Hd) as He. destruct (rc_compiled _ _ Hrec) as (Hidx & _).
  destruct (Hidx n d Hd) as (_ & _ & Hu). unfold seen_index, indexMatches. cbn [pi_spec pi_valid].
  destruct (extractIndexExpressionAndWhere _) as [e w]. destruct He as [He Hw]. cbn [ix_Valid ix_Expression ix_Unique ix_Using ix_WhereClause].
  split; [done|]. rewrite He, Hw, String.eqb_refl, Bool.eqb_reflx. rewrite !elem_of_cons, elem_of_nil in Hu.
  by destruct Hu as [->|[->|[]]].
Qed.

Lemma passed_conforms t' : passed t' -> conforms desired (seen t').
Proof.
  intros [G E U K M N FM FN]. destruct (rc_compiled _ _ Hrec) as (_ & _ & Huq & Hcols).
  constructor; intros n; destruct (seen_parts t' n) as (Ec & Ei & Ef & Eu).
  - intros c Hd. destruct (column_ops_in n c Hd) as [Hadd Hsync].
    assert (is_Some (pt_columns t' !! n)) as [c0 Hc0].
    { destruct (ps_Columns a !! n) as [ac|] eqn:Ea.
      - destruct (views_columns _ _ Hviews _ _ Ea) as (c0 & Hc0 & _). apply (grows_columns _ _ G). eauto.
      - apply (E (OpAddColumn n c)). auto. }
    exists (seen_column t' n c0). rewrite Ec, Hc0. split; [done|]. unfold seen_column.
    destruct (pg_type_row (fst c0)) as [[[? ?] ?] ?]. cbn [col_Origin]. destruct (is_framework n) eqn:Efr; [done|]. intros _. cbn [o_Backfilled].
    assert (BackfillOpID table n ∈ pt_completed t' /\ is_Some (pt_triggers t' !! trigger_name (snd (split_table table)) n)) as [Hcomp Htrig].
    { assert (sync_name "trg_sync_" table n = trigger_name (snd (split_table table)) n) as Hname
        by (unfold sync_name, trigger_name; by rewrite (rc_one_dot _ _ Hrec)).
      destruct (Hcols n c Hd) as [[Hx _]|Ho]; [congruence|].
      assert ((exists ac, ps_Columns a !! n = Some ac /\ o_Backfilled (col_Origin ac) = true) \/
              (forall ac, ps_Columns a !! n = Some ac -> o_Backfilled (col_Origin ac) = false)) as [(ac & Ea & Hb)|Hno].
      { destruct (ps_Columns a !! n) as [ac|]; [|by right]. destruct (o_Backfilled (col_Origin ac)) eqn:Eb; [left; eauto|].
        right. by intros ? [= <-]. }
      - destruct (views_columns _ _ Hviews _ _ Ea) as (c1 & Hc1 & ->). revert Hb. unfold seen_column.
        destruct (pg_type_row (fst c1)) as [[[? ?] ?] ?]. cbn [col_Origin]. rewrite Efr. cbn [o_Backfilled].
        intros [Hb1%bool_decide_eq_true Hb2%has_spec]%andb_prop.
        split; [by apply (grows_completed _ _ G)|by apply (grows_triggers _ _ G)].
      - destruct (Hsync eq_refl Hno Ho) as [Ht Hbf].
        split; [by apply (E _ Hbf)|]. rewrite <- Hname. by apply (E _ Ht). }
    by rewrite bool_decide_true, (proj2 (has_spec _ _) Htrig).
  - intros d Hd. rewrite Ei. destruct (pt_indexes t !! n) as [i|] eqn:Et.
    + destruct (ix_Valid (seen_index n i)) eqn:Ev, (indexMatches (seen_index n i) d) eqn:Em;
        [rewrite (K n d i Hd Et Ev Em); eauto|..]; rewrite (M n d Hd) by (intros i' Hi'; assert (i' = i) as -> by congruence; auto);
        eexists; (split; [done|]); by apply made_index_matches.
    + rewrite (M n d Hd) by (by rewrite Et). eexists. split; [done|]. by apply made_index_matches.
  - intros i Hi. left. destruct (ps_Indexes desired !! n) eqn:Ed; [eauto|]. rewrite Ei, (N n Ed) in Hi. done.
  - intros d Hd. rewrite Ef. eauto.
  - intros f Hf. destruct (ps_ForeignKeys desired !! n) eqn:Ed; [eauto|]. rewrite Ef, (FN n Ed) in Hf. done.
  - intros d. rewrite Huq. by rewrite lookup_empty.
  - intros u. rewrite Eu, U. done.
Qed.

End Pass.
(** ** Convergence *)

Definition shortb (n : string) : bool := (String.length n <=? identifier_limit)%nat.

(** The names the desired schema needs and those of the table fit Postgres's
    limit, and the table's own name has one dot. *)
Definition names_fit (desired : PhysicalSchema) (t : PgTable) : bool :=
  String.eqb (after_last table ".") (snd (split_table table))
  && forallb (fun n => shortb n && shortb (sync_name "trg_sync_" table n)) (sortedKeys (ps_Columns desired))
  && forallb shortb (sortedKeys (ps_Indexes desired) ++ sortedKeys (ps_ForeignKeys desired)
                     ++ sortedKeys (pt_indexes t) ++ sortedKeys (pt_fks t) ++ sortedKeys (pt_uniques t)).

(** Postgres prints every desired index so that it reads back in the same normal form. *)
Definition indexes_echo (desired : PhysicalSchema) : bool :=
  forallb (fun '(n, d) =>
    let '(e, w) := extractIndexExpressionAndWhere (pg_get_indexdef n d) in
    String.eqb (NormalizeExpr e) (NormalizeExpr (ix_Expression d)) && whereClauseMatches w (ix_WhereClause d))
    (map_to_list (ps_Indexes desired)).

(** Postgres's own invariants: the constraints of a table have different names,
    and a unique constraint has an index under its name, unique and not partial. *)
Definition catalog_sound (t : PgTable) : bool :=
  forallb (fun n =>
    negb (has (pt_fks t) n) &&
    match pt_indexes t !! n with
    | Some i => ix_Unique (pi_spec i) && String.eqb (snd (extractIndexExpressionAndWhere (pg_get_indexdef n (pi_spec i)))) ""
    | None => false
    end) (sortedKeys (pt_uniques t)).

Lemma deployable_reconcilable entity desired t :
  Compile entity = Ok desired -> e_TableName entity = table ->
  names_fit desired t = true -> indexes_echo desired = true -> catalog_sound t = true -> reconcilable desired t.
Proof.
  intros HC Ht [[Hdot%String.eqb_eq Hcols]%andb_prop Hnames]%andb_prop Hecho Hsound.
  unfold indexes_echo, catalog_sound in Hecho, Hsound.
  rewrite forallb_forall in Hcols, Hnames, Hecho, Hsound. setoid_rewrite <- list_elem_of_In in Hcols.
  setoid_rewrite <- list_elem_of_In in Hnames. setoid_rewrite <- list_elem_of_In in Hecho. setoid_rewrite <- list_elem_of_In in Hsound.
  assert (forall n, shortb n = true -> short n) as Hshort by (intros n; apply Nat.leb_le).
  setoid_rewrite elem_of_app in Hnames. setoid_rewrite elem_of_app in Hnames. setoid_rewrite elem_of_app in Hnames.
  setoid_rewrite elem_of_app in Hnames. setoid_rewrite sortedKeys_elem in Hnames.
  constructor; [by eapply Compile_ok|by rewrite <- Ht; apply Compile_table|done|..].
  - intros n Hn%sortedKeys_elem. apply Hcols, andb_prop in Hn as []. auto.
  - intros n Hn. apply Hshort, Hnames. auto.
  - intros n Hn. apply Hshort, Hnames. auto.
  - intros n d Hd%elem_of_map_to_list. specialize (Hecho _ Hd). simpl in Hecho.
    destruct (extractIndexExpressionAndWhere _). by apply andb_prop in Hecho as [?%String.eqb_eq ?].
  - intros n Hn. apply Hshort, Hnames. tauto.
  - intros n Hn%sortedKeys_elem. specialize (Hsound n Hn). apply andb_prop in Hsound as [Hfk Hi].
    split; [unfold has in Hfk; by destruct (pt_fks t !! n)|]. intros i Ei. rewrite Ei in Hi.
    by apply andb_prop in Hi as [? ?%String.eqb_eq].
Qed.

Lemma each_sorted_empty {V} (m : gmap string V) body : m = ∅ -> each_sorted m body = [].
Proof. intros ->. apply each_sorted_nil. intros n v. by rewrite lookup_empty. Qed.

Lemma Diff_raw desired actual : ps_Uniques desired = ∅ ->
  Diff desired actual [] =
  topoSort (match actual with Some a => raw_ops [] desired a | None => raw_ops [OpCreateTable] desired (EmptySchema (ps_Table desired)) end).
Proof.
  intros Hu. unfold Diff, raw_ops. destruct actual as [a|]; cbn [rename_columns];
    rewrite (each_sorted_empty (ps_Uniques desired)) by done; rewrite Hu; done.
Qed.

Lemma topoSort_create l : topoSort (OpCreateTable :: l) = OpCreateTable :: topoSort l.
Proof. cbn [topoSort foldr]. apply insert_op_higher. apply Forall_forall. intros op _. simpl. lia. Qed.

End Convergence.

Lemma pass_converges `{PgCatalog} entity desired t :
  Compile entity = Ok desired ->
  let table := e_TableName entity in
  let t0 := default framework_table t in
  names_fit table desired t0 = true -> indexes_echo desired = true -> catalog_sound t0 = true ->
  exists t', reconcile_pass table desired [] t = Some t' /\
    conforms desired (seen table t') /\
    Diff desired (Introspect table (Some (catalog_rows t'))) [] = [].
Proof.
  intros HC table t0 Hn He Hs. pose proof (deployable_reconcilable table entity desired t0 HC eq_refl Hn He Hs) as Hrec.
  destruct (rc_compiled _ _ _ Hrec) as (_ & _ & Huq & _).
  assert (forall created a, created = [] \/ created = [OpCreateTable] -> views table a t0 ->
    exists t', apply_ops table t0 (topoSort (raw_ops created desired a)) = Some t' /\ conforms desired (seen table t')) as Hrun.
  { intros created a Hc Hv. destruct (pass_runs table created desired a t0 Hc Hv Hrec) as (t' & E & P).
    exists t'. split; [done|]. by eapply passed_conforms. }
  unfold reconcile_pass. rewrite Diff_raw by done. destruct t as [t|]; cbn [fmap option_fmap option_map Introspect table_or_new].
  - destruct (Hrun [] (seen table t)) as (t' & E & Hc); [by left|apply views_seen|].
    exists t'. split; [done|]. split; [done|]. by apply Diff_nil_iff.
  - destruct (Hrun [OpCreateTable] (EmptySchema (ps_Table desired))) as (t' & E & Hc); [by right| |].
    { by constructor. }
    exists t'. unfold raw_ops in *. cbn [app] in *. rewrite topoSort_create in *. split; [done|]. split; [done|].
    by apply Diff_nil_iff.
Qed.

(** *** Stopping anywhere *)

Section Interrupted.
Context `{PgCatalog}.
Variable table : string.

(** The part of the hypotheses of a pass that depends on the table. *)
Definition table_fits (t : PgTable) : Prop :=
  (forall n, is_Some (pt_indexes t !! n) \/ is_Some (pt_fks t !! n) \/ is_Some (pt_uniques t !! n) -> short n) /\
  (forall n, is_Some (pt_uniques t !! n) -> pt_fks t !! n = None /\
     exists i, pt_indexes t !! n = Some i /\ ix_Unique (pi_spec i) = true /\
       snd (extractIndexExpressionAndWhere (pg_get_indexdef n (pi_spec i))) = "").

Lemma table_fits_iff t :
  table_fits t <-> forallb shortb (sortedKeys (pt_indexes t) ++ sortedKeys (pt_fks t) ++ sortedKeys (pt_uniques t)) = true /\ catalog_sound t = true.
Proof.
  unfold table_fits, catalog_sound. rewrite !forallb_forall.
  setoid_rewrite <- list_elem_of_In. setoid_rewrite elem_of_app. setoid_rewrite elem_of_app. setoid_rewrite sortedKeys_elem.
  setoid_rewrite andb_true_iff. setoid_rewrite negb_true_iff. setoid_rewrite <- not_true_iff_false. setoid_rewrite has_spec.
  assert (forall n, shortb n = true <-> short n) as Hs by (intros n; apply Nat.leb_le). setoid_rewrite Hs.
  split; intros [H1 H2]; (split; [done|]); intros n Hn; destruct (H2 n Hn) as [Hf Hi].
  - rewrite Hf. destruct Hi as (i & -> & Hu & Hw). split; [by intros [? [=]]|]. by rewrite Hu, Hw.
  - split; [destruct (pt_fks t !! n); [by destruct Hf|done]|]. destruct (pt_indexes t !! n) as [i|]; [|done].
    apply andb_prop in Hi as [Hu Hw%String.eqb_eq]. eauto.
Qed.

Definition no_add_unique (op : DdlOp) : Prop := match op with OpAddUnique _ _ => False | _ => True end.

(** An index that a failed CREATE INDEX CONCURRENTLY leaves behind is not valid. *)
Definition after_failure (t : PgTable) (op : DdlOp) : PgTable :=
  match op with
  | OpCreateIndexConcurrently name spec =>
    let n := pg_name name in
    if has (pt_indexes t) n then t else set_indexes t (<[n := mkPgIndex spec false]> (pt_indexes t))
  | _ => t
  end.

Lemma new_index_fits t n i : short n -> table_fits t -> table_fits (if has (pt_indexes t) n then t else set_indexes t (<[n := i]> (pt_indexes t))).
Proof.
  intros Hn [H1 H2]. destruct (has (pt_indexes t) n) eqn:E; [done|]. split; cbn [set_indexes pt_indexes pt_fks pt_uniques].
  - intros m Hm. destruct (decide (m = n)) as [->|]; [done|]. rewrite lookup_insert_ne in Hm by done. auto.
  - intros m Hm. destruct (H2 m Hm) as [Hf (i0 & Hi & Hr)]. split; [done|]. exists i0. rewrite lookup_insert_ne; [done|].
    intros ->. unfold has in E. by rewrite Hi in E.
Qed.

Lemma new_fk_fits t n f : short n -> pt_uniques t !! n = None -> table_fits t -> table_fits (set_fks t (<[n := f]> (pt_fks t))).
Proof.
  intros Hn Hu [H1 H2]. split; cbn [set_fks pt_indexes pt_fks pt_uniques].
  - intros m Hm. destruct (decide (m = n)) as [->|]; [done|]. rewrite lookup_insert_ne in Hm by done. auto.
  - intros m Hm. destruct (decide (m = n)) as [->|]; [rewrite Hu in Hm; by destruct Hm|]. rewrite lookup_insert_ne by done. auto.
Qed.

Lemma dropped_fits t n : table_fits t ->
  table_fits (mkPgTable (pt_columns t) (if has (pt_uniques t) n then delete n (pt_indexes t) else pt_indexes t)
    (delete n (pt_fks t)) (delete n (pt_uniques t)) (pt_triggers t) (pt_completed t)).
Proof.
  intros [H1 H2]. assert (forall m, m <> n -> (if has (pt_uniques t) n then delete n (pt_indexes t) else pt_indexes t) !! m = pt_indexes t !! m) as Hi.
  { intros m Hm. destruct (has (pt_uniques t) n); [by rewrite lookup_delete_ne|done]. }
  assert (forall m, is_Some ((if has (pt_uniques t) n then delete n (pt_indexes t) else pt_indexes t) !! m) -> is_Some (pt_indexes t !! m)) as Hsub.
  { intros m. destruct (has (pt_uniques t) n); [|done]. intros [i Hx]. apply lookup_delete_Some in Hx as [_ ->]. eauto. }
  split; cbn [pt_indexes pt_fks pt_uniques].
  - intros m Hm. apply H1. destruct Hm as [Hm|[[f Hm]|[u Hm]]]; [by left; apply Hsub|..];
      apply lookup_delete_Some in Hm as [_ Hm]; rewrite Hm; eauto.
  - intros m [u Hm]. apply lookup_delete_Some in Hm as [Hne Hm]. rewrite lookup_delete_ne by done. rewrite Hi by done. apply H2. eauto.
Qed.

Lemma apply_op_fits t op t' : op_short table op -> no_add_unique op -> table_fits t -> apply_op table t op = Some t' -> table_fits t'.
Proof.
  intros [Hs _] Hno Ht. destruct op; cbn [apply_op op_name no_add_unique] in *; rewrite ?(pg_name_short _ Hs); try done.
  - intros [= <-]. done.
  - intros [= <-]. by destruct (has (pt_columns t) name).
  - destruct (rename_key _ _ _); [|done]. by intros [= <-].
  - intros [= <-]. done.
  - intros [= <-]. done.
  - intros [= <-]. by apply new_index_fits.
  - destruct (has (pt_uniques t) name) eqn:E; [done|]. intros [= <-]. destruct Ht as [H1 H2]. split; cbn [set_indexes pt_indexes pt_fks pt_uniques].
    + intros m Hm. apply H1. destruct Hm as [[i Hm]|?]; [|auto]. apply lookup_delete_Some in Hm as [_ Hm]. rewrite Hm. eauto.
    + intros m Hm. rewrite lookup_delete_ne; [auto|]. intros ->. unfold has in E. destruct Hm as [u Hm]. by rewrite Hm in E.
  - unfold is_constraint. destruct (has (pt_fks t) name), (has (pt_uniques t) name) eqn:E; try done. cbn [orb]. intros [= <-].
    apply new_fk_fits; try done. unfold has in E. by destruct (pt_uniques t !! name).
  - destruct (pt_fks t !! name) as [f|] eqn:E; [|done]. intros [= <-]. apply new_fk_fits; try done.
    destruct (pt_uniques t !! name) eqn:Eu; [|done]. destruct Ht as [_ H2]. destruct (H2 name) as [? _]; [eauto|congruence].
  - intros [= <-]. by apply dropped_fits.
  - intros [= <-]. by apply dropped_fits.
Qed.

Lemma apply_ops_fits ops t t' : Forall (fun op => op_short table op /\ no_add_unique op) ops -> table_fits t ->
  apply_ops table t ops = Some t' -> table_fits t'.
Proof.
  revert t. induction ops as [|op ops IH]; intros t Hops Ht; cbn [apply_ops]; [by intros [= <-]|].
  apply Forall_cons in Hops as [[Hs Hn] Hops]. destruct (apply_op table t op) as [t1|] eqn:E; [|done]. apply IH; [done|].
  by eapply apply_op_fits.
Qed.

End Interrupted.

(** Whatever state a table is in (missing, half migrated after a crash,
    with invalid indexes, keys not yet validated or constraints of an older
    definition), one pass of the reconciler without renames runs to its end:
    Postgres refuses none of its operations for the state of the catalogue.
    The table then has exactly what the compiled definition asks for, and a
    further pass has nothing to do. *)
Lemma reconcile_converges `{PgCatalog} entity desired t :
  Compile entity = Ok desired ->
  let table := e_TableName entity in
  let t0 := default framework_table t in
  names_fit table desired t0 = true -> indexes_echo desired = true -> catalog_sound t0 = true ->
  exists t', reconcile_pass table desired [] t = Some t' /\
    conforms desired (seen table t') /\
    Diff desired (Introspect table (Some (catalog_rows t'))) [] = [].
Proof. apply pass_converges. Qed.

(** ** A catalogue to run on *)

(** A printer in the shape of pg_get_indexdef, and types printed as written. *)
Definition TestCatalog : PgCatalog := {|
  pg_type_row := fun ty => (ty, None, None, None);
  pg_get_indexdef := fun name spec =>
    "CREATE INDEX " +:+ name +:+ " ON t USING " +:+ (if String.eqb (ix_Using spec) "" then "btree" else ix_Using spec)
    +:+ " (" +:+ ix_Expression spec +:+ ")" +:+ (if String.eqb (ix_WhereClause spec) "" then "" else " WHERE (" +:+ ix_WhereClause spec +:+ ")")
|}.

Definition column_field (name : string) : EntityField :=
  mkField name "" KindString None (Some true) None None None None None None None None (Some StorageColumn) None None None None None None.

Definition staff : EntityDefinition :=
  mkEntity "hr.staff" "Staff" "entities.hr_staff"
    [unique_field "email"; column_field "team";
     mkField "boss" "" KindReference None None None None None (Some "hr.people") None None None None None None None None None None None]
    [] None [] None.

(** A table an older definition left: a unique constraint where the new
    definition wants a partial index, an index that failed to build, a foreign
    key that was never validated, a column whose backfill did not finish. *)
Definition old_staff : PgTable :=
  mkPgTable (<["team" := ("text", true)]> (pt_columns framework_table))
    {[ "uniq_hr_staff_email" := mkPgIndex (mkIndex "email" true "" true "") true;
       "idx_hr_staff_boss" := mkPgIndex (mkIndex "boss" false "" true "") false;
       "idx_hr_staff_gone" := mkPgIndex (mkIndex "gone" false "" true "") true ]}
    {[ "fk_hr_staff_boss" := mkFk "boss" "entities.hr_people" "id" OnDeleteRestrict false ]}
    {[ "uniq_hr_staff_email" := ["email"] ]} ∅ ∅.

Definition schema_of (e : EntityDefinition) : PhysicalSchema := match Compile e with Ok d => d | _ => EmptySchema "" end.
Definition staff_schema : PhysicalSchema := Eval vm_compute in schema_of staff.

Definition test_pass (e : EntityDefinition) (renames : list (string * string)) (t : option PgTable) : option PgTable :=
  reconcile_pass (H := TestCatalog) (e_TableName e) (schema_of e) renames t.
Definition test_diff (e : EntityDefinition) (t : PgTable) : list DdlOp :=
  Diff (schema_of e) (Introspect (e_TableName e) (Some (catalog_rows (H := TestCatalog) t))) [].

Lemma reconcile_converges_witness :
  exists t', reconcile_pass (H := TestCatalog) "entities.hr_staff" staff_schema [] (Some old_staff) = Some t' /\
    Diff staff_schema (Introspect "entities.hr_staff" (Some (catalog_rows (H := TestCatalog) t'))) [] = [].
Proof.
  destruct (reconcile_converges (H := TestCatalog) staff staff_schema (Some old_staff)) as (t' & H1 & _ & H2);
    [vm_compute; reflexivity..|]. exists t'. split; [exact H1|exact H2].
Defined.

(** *** Where it does not converge *)

Definition long_field : string := "responsible_department_of_the_primary_contact".

Definition contracts : EntityDefinition :=
  mkEntity "sales.contracts_history" "Contracts" "entities.sales_contracts_history"
    [mkField long_field "" KindString None (Some true) None None None None None None None None None None None None None None None]
    [] None [] None.

Fixpoint passes (e : EntityDefinition) (n : nat) (t : option PgTable) : option PgTable :=
  match n with O => t | S n' => match test_pass e [] t with Some t' => passes e n' (Some t') | None => None end end.

Definition contracts_table : PgTable := Eval vm_compute in default framework_table (passes contracts 1 None).

(** The name of a field's index is not limited to the 63 bytes Postgres
    keeps, as the table's name is. An entity the validator accepts and the
    compiler compiles can have an index whose name Postgres cuts: every pass,
    however many have run, drops the index the previous one built and builds it
    again. *)
Lemma long_index_name_never_converges :
  Validate contracts = None /\ is_ok (Compile contracts) = true /\
  forall n, exists t, passes contracts (S n) None = Some t /\
    let name := indexName (e_Name contracts) long_field "idx" in
    exists spec, test_diff contracts t = [OpDropIndexConcurrently (pg_name name); OpCreateIndexConcurrently name spec].
Proof.
  split; [vm_compute; reflexivity|]. split; [vm_compute; reflexivity|].
  assert (test_pass contracts [] (Some contracts_table) = Some contracts_table) as Hfix by (vm_compute; reflexivity).
  assert (forall n, passes contracts n (Some contracts_table) = Some contracts_table) as Hn.
  { induction n as [|n IH]; [done|]. cbn [passes]. by rewrite Hfix. }
  assert (test_pass contracts [] None = Some contracts_table) as H1 by (vm_compute; reflexivity).
  intros n. exists contracts_table. split.
  - cbn [passes]. by rewrite H1, Hn.
  - eexists. vm_compute. reflexivity.
Qed.

(** The triggers of a table whose column does not exist: every insert or update
    of a row runs them and fails. *)
Definition broken_triggers (t : PgTable) : list string :=
  map fst (List.filter (fun e => negb (has (pt_columns t) (snd e))) (map_to_list (pt_triggers t))).

Definition before_rename : EntityDefinition := mkEntity "hr.staff" "Staff" "entities.hr_staff" [column_field "team"] [] None [] None.
Definition after_rename : EntityDefinition := mkEntity "hr.staff" "Staff" "entities.hr_staff" [column_field "squad"] [] None [] None.

Definition rename_t0 : PgTable := Eval vm_compute in default framework_table (test_pass before_rename [] None).
Definition rename_t1 : PgTable := Eval vm_compute in default framework_table (test_pass after_rename [("team", "squad")] (Some rename_t0)).
Definition rename_t2 : PgTable := Eval vm_compute in default framework_table (test_pass after_rename [("team", "squad")] (Some rename_t1)).

(** Renaming a field that has its own column renames the column and leaves
    the trigger that fills the old one: after the pass, and after every further
    pass, the table has a trigger that writes a column it no longer has. *)
Lemma rename_leaves_trigger :
  exists t0 t1 t2,
    test_pass before_rename [] None = Some t0 /\ broken_triggers t0 = [] /\
    test_pass after_rename [("team", "squad")] (Some t0) = Some t1 /\ broken_triggers t1 = ["trg_sync_hr_staff_team"] /\
    test_pass after_rename [("team", "squad")] (Some t1) = Some t2 /\ broken_triggers t2 = ["trg_sync_hr_staff_team"] /\
    test_diff after_rename t2 = [].
Proof.
  exists rename_t0, rename_t1, rename_t2. split_and!; vm_compute; reflexivity.
Qed.
