(* ===== verification/Orchestrator.v ===== *)
(** The rollout of schema changes to many tenants
    (src/go/reconciler/orchestrator.go): the order of a claimed batch, the work
    queue in metadata.reconciler_entity_deployments, the batch of workers, and
    the waves of a rollout. The table is a list of rows; a statement is one
    atomic step, and the rows other transactions hold locked are an argument of
    the claim. [now] is the clock both Go and Postgres read. *)
From S2P Require Import Prelude GoStrings GoText Json Condition Context Evaluate Metadata Schema.
From Stdlib Require Import Floats.SpecFloat.

Open Scope string_scope.
Open Scope list_scope.

(** ** Dependency waves *)

Record ClaimedEntity : Type := mkClaimed {
  ce_TenantID : string;
  ce_EntityName : string;
  ce_DesiredVersion : Z
}.

Record ClaimedPair : Type := mkPair {
  cp_Claimed : ClaimedEntity;
  cp_Def : EntityDefinition
}.

(** The claimed entities one definition refers to, without itself. *)
Definition entity_deps (names : gset string) (it : ClaimedPair) : gset string :=
  list_to_set (omap (fun f =>
    if String.eqb (f_Kind f) KindReference then
      match f_RefEntity f with
      | Some r => if negb (String.eqb r (ce_EntityName (cp_Claimed it))) && bool_decide (r ∈ names) then Some r else None
      | None => None
      end
    else None) (e_Fields (cp_Def it))).

Definition item_names (items : list ClaimedPair) : gset string :=
  list_to_set (map (fun it => ce_EntityName (cp_Claimed it)) items).

Definition deps_of (items : list ClaimedPair) : gmap string (gset string) :=
  fold_left (fun m it => <[ce_EntityName (cp_Claimed it) := entity_deps (item_names items) it]> m) items ∅.

Definition claimedByName (items : list ClaimedPair) : gmap string ClaimedEntity :=
  fold_left (fun m it => <[ce_EntityName (cp_Claimed it) := cp_Claimed it]> m) items ∅.

Definition all_clear (deps : gmap string (gset string)) (remaining : gset string) (name : string) : bool :=
  bool_decide (default ∅ (deps !! name) ## remaining).

Definition sorted_elements (s : gset string) : list string := sort_strings (elements s).

Definition ready_names (deps : gmap string (gset string)) (remaining : gset string) : list string :=
  sort_strings (List.filter (all_clear deps remaining) (elements remaining)).

(** The loop over what remains: every turn but the last removes a name, so one
    unit of fuel per name and one more are enough. *)
Fixpoint wave_loop (fuel : nat) (deps : gmap string (gset string)) (remaining : gset string) : list (list string) :=
  match fuel with
  | O => []
  | S fuel' =>
    if bool_decide (remaining = ∅) then []
    else match ready_names deps remaining with
         | [] => [sorted_elements remaining]
         | ready => ready :: wave_loop fuel' deps (remaining ∖ list_to_set ready)
         end
  end.

Definition wave_names (items : list ClaimedPair) : list (list string) :=
  let remaining := dom (claimedByName items) in
  wave_loop (S (size remaining)) (deps_of items) remaining.

Definition tenantWaves (items : list ClaimedPair) : list (list ClaimedEntity) :=
  map (omap (fun n => claimedByName items !! n)) (wave_names items).

Definition pair_tenant (e : ClaimedPair) : string := ce_TenantID (cp_Claimed e).

(** The tenants, in the order in which they first appear. *)
Fixpoint tenant_order (seen : list string) (entities : list ClaimedPair) : list string :=
  match entities with
  | [] => []
  | e :: entities' =>
    if existsb (String.eqb (pair_tenant e)) seen then tenant_order seen entities'
    else pair_tenant e :: tenant_order (pair_tenant e :: seen) entities'
  end.

Definition of_tenant (t : string) (entities : list ClaimedPair) : list ClaimedPair :=
  List.filter (fun e => String.eqb (pair_tenant e) t) entities.

(** merged[i] = append(merged[i], wave...), for as many waves as the longest has. *)
Fixpoint merge_waves {A} (a b : list (list A)) : list (list A) :=
  match a, b with
  | [], _ => b
  | _, [] => a
  | x :: a', y :: b' => (x ++ y) :: merge_waves a' b'
  end.

Definition TopoSortWaves (entities : list ClaimedPair) : list (list ClaimedEntity) :=
  fold_left merge_waves (map (fun t => tenantWaves (of_tenant t entities)) (tenant_order [] entities)) [].

(** ** The work queue *)

Record Deployment : Type := mkDeployment {
  dp_tenant : string;
  dp_entity : string;
  dp_desired : Z;
  dp_applied : option Z;
  dp_status : string;
  dp_failure_class : option string;
  dp_attempts : Z;
  dp_last_error : option string;
  dp_priority : Z;
  dp_worker : option string;
  dp_heartbeat : option Z;
  dp_updated : Z
}.

Definition minute : Z := 60000000.
Definition leaseStaleAfter : Z := 60 * minute.

Definition has_key (tenant entity : string) (d : Deployment) : bool :=
  String.eqb (dp_tenant d) tenant && String.eqb (dp_entity d) entity.

(** The WHERE clause of the claim. *)
Definition claimable (now : Z) (entityNameFilter : string) (maxAttempts : Z) (d : Deployment) : bool :=
  (default 0 (dp_applied d) <? dp_desired d)%Z
  && (String.eqb (dp_status d) "pending" || String.eqb (dp_status d) "failed"
      || (String.eqb (dp_status d) "running"
          && match dp_heartbeat d with Some h => (h <? now - leaseStaleAfter)%Z | None => false end))
  && (dp_attempts d <? maxAttempts)%Z
  && (String.eqb entityNameFilter "" || String.eqb (dp_entity d) entityNameFilter).

(** ORDER BY (status = 'failed') ASC, priority_tier ASC, updated_at ASC. *)
Definition claim_key (d : Deployment) : Z * Z * Z :=
  ((if String.eqb (dp_status d) "failed" then 1 else 0)%Z, dp_priority d, dp_updated d).

Definition claim_before (a b : Deployment) : bool :=
  let '(f1, p1, u1) := claim_key a in
  let '(f2, p2, u2) := claim_key b in
  if (f1 =? f2)%Z then if (p1 =? p2)%Z then (u1 <? u2)%Z else (p1 <? p2)%Z else (f1 <? f2)%Z.

Fixpoint insert_claim (d : Deployment) (l : list Deployment) : list Deployment :=
  match l with
  | [] => [d]
  | x :: l' => if claim_before x d then x :: insert_claim d l' else d :: l
  end.
Definition sort_claims (l : list Deployment) : list Deployment := foldr insert_claim [] l.

Definition key_of (d : Deployment) : string * string := (dp_tenant d, dp_entity d).

(** The keys the subselect picks: FOR UPDATE SKIP LOCKED passes over the rows
    other transactions hold. *)
Definition picked (now : Z) (entityNameFilter : string) (maxAttempts limit : Z) (locked : string * string -> bool)
    (table : list Deployment) : list (string * string) :=
  map key_of (take (Z.to_nat limit)
    (sort_claims (List.filter (fun d => claimable now entityNameFilter maxAttempts d && negb (locked (key_of d))) table))).

Definition claim_row (workerID : string) (now : Z) (d : Deployment) : Deployment :=
  mkDeployment (dp_tenant d) (dp_entity d) (dp_desired d) (dp_applied d) "running" (dp_failure_class d)
    (dp_attempts d + 1) (dp_last_error d) (dp_priority d) (Some workerID) (Some now) now.

Definition is_picked (keys : list (string * string)) (d : Deployment) : bool := bool_decide (key_of d ∈ keys).

Definition ClaimDue (workerID entityNameFilter : string) (maxAttempts limit : Z) (now : Z)
    (locked : string * string -> bool) (table : list Deployment) : list Deployment * list ClaimedEntity :=
  let keys := picked now entityNameFilter maxAttempts limit locked table in
  (map (fun d => if is_picked keys d then claim_row workerID now d else d) table,
   map (fun d => mkClaimed (dp_tenant d) (dp_entity d) (dp_desired d)) (List.filter (is_picked keys) table)).

(** Rows updated by key. *)
Definition update_rows (tenant entity : string) (f : Deployment -> Deployment) (table : list Deployment) : list Deployment :=
  map (fun d => if has_key tenant entity d then f d else d) table.

Definition reset_to (desiredVersion now : Z) (d : Deployment) : Deployment :=
  mkDeployment (dp_tenant d) (dp_entity d) desiredVersion (dp_applied d) "pending" None 0 None
    (dp_priority d) (dp_worker d) (dp_heartbeat d) now.

Definition new_deployment (tenant entity : string) (desiredVersion now : Z) : Deployment :=
  mkDeployment tenant entity desiredVersion None "pending" None 0 None 0 None None now.

(** INSERT ... ON CONFLICT DO UPDATE ... WHERE the stored version is older. *)
Definition EnqueueDeployment (tenant entity : string) (desiredVersion now : Z) (table : list Deployment) : list Deployment :=
  if existsb (has_key tenant entity) table
  then update_rows tenant entity (fun d => if (dp_desired d <? desiredVersion)%Z then reset_to desiredVersion now d else d) table
  else table ++ [new_deployment tenant entity desiredVersion now].

Inductive FailureClass : Type := FailureTransient | FailureDataError | FailureFatal.

Definition FailureClass_String (c : FailureClass) : string :=
  match c with FailureDataError => "data_error" | FailureFatal => "fatal" | FailureTransient => "transient" end.

(** An error of a reconcile: its text, and the SQLSTATE of the Postgres error in
    its chain when it has one. *)
Record ReconcileError : Type := mkReconcileError { re_text : string; re_code : option string }.

Definition ClassifyError (err : ReconcileError) : FailureClass :=
  match re_code err with
  | None => FailureFatal
  | Some code =>
    if existsb (String.eqb code) ["40001"; "40P01"; "55P03"; "53300"] then FailureTransient
    else if existsb (String.eqb code) ["23503"; "23505"; "23514"; "22P02"; "22003"] then FailureDataError
    else FailureFatal
  end.

Definition RecordSuccess (tenant entity : string) (appliedVersion now : Z) : list Deployment -> list Deployment :=
  update_rows tenant entity (fun d =>
    mkDeployment (dp_tenant d) (dp_entity d) (dp_desired d) (Some appliedVersion) "done" None
      (dp_attempts d) None (dp_priority d) None (dp_heartbeat d) now).

Definition failure_status (class : FailureClass) : string :=
  match class with FailureTransient => "failed" | _ => "blocked" end.

Definition RecordFailure (tenant entity : string) (recErr : ReconcileError) (now : Z) : list Deployment -> list Deployment :=
  let class := ClassifyError recErr in
  update_rows tenant entity (fun d =>
    mkDeployment (dp_tenant d) (dp_entity d) (dp_desired d) (dp_applied d) (failure_status class)
      (Some (FailureClass_String class)) (dp_attempts d) (Some (re_text recErr)) (dp_priority d) None (dp_heartbeat d) now).

Record DeploymentStatus : Type := mkDeploymentStatus {
  ds_Status : string;
  ds_DesiredVersion : Z;
  ds_AppliedVersion : option Z;
  ds_FailureClass : option string;
  ds_LastError : option string
}.

Definition Ready (s : DeploymentStatus) : bool :=
  String.eqb (ds_Status s) "done"
  && match ds_AppliedVersion s with Some v => (ds_DesiredVersion s <=? v)%Z | None => false end.

Definition GetDeploymentStatus (tenant entity : string) (table : list Deployment) : option DeploymentStatus :=
  match List.find (has_key tenant entity) table with
  | Some d => Some (mkDeploymentStatus (dp_status d) (dp_desired d) (dp_applied d) (dp_failure_class d) (dp_last_error d))
  | None => None
  end.

(** ** The batch

    [reconcileOne] is the caller's function; the workers finish the entities in
    the order of the list, and each records its own outcome. *)
Record BatchOutcome : Type := mkOutcome { bo_Entity : ClaimedEntity; bo_Err : option ReconcileError }.

Definition record_outcome (now : Z) (e : ClaimedEntity) (err : option ReconcileError) : list Deployment -> list Deployment :=
  match err with
  | None => RecordSuccess (ce_TenantID e) (ce_EntityName e) (ce_DesiredVersion e) now
  | Some err => RecordFailure (ce_TenantID e) (ce_EntityName e) err now
  end.

Fixpoint RunClaimedBatch (now : Z) (reconcileOne : ClaimedEntity -> option ReconcileError)
    (completed : list ClaimedEntity) (table : list Deployment) : list Deployment * list BatchOutcome :=
  match completed with
  | [] => (table, [])
  | e :: completed' =>
    let err := reconcileOne e in
    let '(table', outcomes) := RunClaimedBatch now reconcileOne completed' (record_outcome now e err table) in
    (table', mkOutcome e err :: outcomes)
  end.

(** ** Waves of a rollout *)

Definition f64_of_Z (z : Z) : float64 := binary_normalize 53 1024 z 0 false.
Definition f64_mul (a b : float64) : float64 := SFmul 53 1024 a b.
Definition f64_div (a b : float64) : float64 := SFdiv 53 1024 a b.

(** The constants 0.05, 0.25 and 100.0 of the source. *)
Definition f64_const (lit : string) : float64 := default f64_zero (f64_of_literal lit).

(** int(math.Ceil(x)) and math.Round(x) of a non-negative finite float. *)
Definition ceil_Z (x : float64) : Z :=
  match x with
  | S754_finite false m e => if (0 <=? e)%Z then Zpos m * 2 ^ e else - ((- Zpos m) / 2 ^ (- e))
  | _ => 0
  end.
Definition round_Z (x : float64) : Z :=
  match x with
  | S754_finite false m e => if (0 <=? e)%Z then Zpos m * 2 ^ e else (2 * Zpos m + 2 ^ (- e)) / (2 * 2 ^ (- e))
  | _ => 0
  end.

Definition WaveSize (totalTenants : Z) (wave : Z) : Z :=
  if (totalTenants =? 0)%Z then 0 else
  let canary := Z.min totalTenants 2 in
  let size :=
    if (wave =? 0)%Z then canary
    else if (wave =? 1)%Z then Z.max canary (ceil_Z (f64_mul (f64_of_Z totalTenants) (f64_const "0.05")))
    else if (wave =? 2)%Z then Z.max canary (ceil_Z (f64_mul (f64_of_Z totalTenants) (f64_const "0.25")))
    else totalTenants in
  Z.min size totalTenants.

Inductive WaveDecision : Type :=
| WaveAdvanced (TenantsInWave : Z)
| WaveHalted (ErrorRatePercent : Z).

Definition cohortErrorRatePercent (entityName : string) (packVersion : Z) (cohort : list string) (table : list Deployment) : Z :=
  match cohort with
  | [] => 0
  | _ =>
    let rows := List.filter (fun d => String.eqb (dp_entity d) entityName && (dp_desired d =? packVersion)%Z
                                      && existsb (String.eqb (dp_tenant d)) cohort) table in
    let total := Z.of_nat (length rows) in
    let blocked := Z.of_nat (length (List.filter (fun d => String.eqb (dp_status d) "blocked") rows)) in
    if (total =? 0)%Z then 0
    else round_Z (f64_mul (f64_div (f64_of_Z blocked) (f64_of_Z total)) (f64_const "100.0"))
  end.

Definition AdvanceWave (entityName : string) (packVersion : Z) (tenantIDs : list string) (wave maxErrorRatePercent now : Z)
    (table : list Deployment) : list Deployment * WaveDecision :=
  let total := Z.of_nat (length tenantIDs) in
  let errorRate :=
    if (0 <? wave)%Z
    then Some (cohortErrorRatePercent entityName packVersion (take (Z.to_nat (WaveSize total (wave - 1))) tenantIDs) table)
    else None in
  match errorRate with
  | Some rate =>
    if (maxErrorRatePercent <? rate)%Z then (table, WaveHalted rate)
    else
      let size := WaveSize total wave in
      (fold_left (fun tb t => EnqueueDeployment t entityName packVersion now tb) (take (Z.to_nat size) tenantIDs) table, WaveAdvanced size)
  | None =>
    let size := WaveSize total wave in
    (fold_left (fun tb t => EnqueueDeployment t entityName packVersion now tb) (take (Z.to_nat size) tenantIDs) table, WaveAdvanced size)
  end.

(** ** Lemmas: waves *)

Lemma sort_strings_elem x l : x ∈ sort_strings l <-> x ∈ l.
Proof. by rewrite sort_strings_perm. Qed.

Lemma ready_names_elem deps remaining n : n ∈ ready_names deps remaining <-> n ∈ remaining /\ all_clear deps remaining n = true.
Proof.
  unfold ready_names. rewrite sort_strings_elem, list_elem_of_In, filter_In, <- list_elem_of_In, elem_of_elements. done.
Qed.

Lemma ready_names_NoDup deps remaining : NoDup (ready_names deps remaining).
Proof. unfold ready_names. rewrite sort_strings_perm. apply NoDup_ListNoDup, List.NoDup_filter, NoDup_ListNoDup, NoDup_elements. Qed.

(** Every name comes in exactly one wave. *)
Lemma wave_loop_perm fuel deps remaining :
  (size remaining < fuel)%nat -> concat (wave_loop fuel deps remaining) ≡ₚ elements remaining.
Proof.
  revert remaining. induction fuel as [|fuel IH]; intros remaining Hs; [lia|]. cbn [wave_loop].
  case_bool_decide as He; [subst; by rewrite elements_empty|].
  destruct (ready_names deps remaining) as [|r rs] eqn:Er.
  - cbn [concat]. rewrite app_nil_r. apply sort_strings_perm.
  - cbn [concat]. assert (list_to_set (r :: rs) ⊆ remaining) as Hsub.
    { intros n. rewrite elem_of_list_to_set, <- Er. by intros [? _]%ready_names_elem. }
    rewrite IH.
    + rewrite <- (elements_list_to_set (C := gset string) (r :: rs)) at 1 by (rewrite <- Er; apply ready_names_NoDup).
      rewrite <- elements_disj_union by set_solver. by rewrite <- union_difference_L.
    + rewrite size_difference by done. rewrite size_list_to_set by (rewrite <- Er; apply ready_names_NoDup). cbn [length].
      pose proof (subseteq_size _ _ Hsub) as Hle. rewrite size_list_to_set in Hle by (rewrite <- Er; apply ready_names_NoDup). simpl in Hle. lia.
Qed.

(** A wave whose members wait for each other. *)
Definition stuck_wave (deps : gmap string (gset string)) (w : list string) : Prop :=
  forall m, m ∈ w -> exists d, d ∈ default ∅ (deps !! m) /\ d ∈ w.

Lemma wave_loop_ordered fuel deps remaining i w n d :
  wave_loop fuel deps remaining !! i = Some w -> n ∈ w -> d ∈ default ∅ (deps !! n) -> d ∈ remaining ->
  (exists j w', (j < i)%nat /\ wave_loop fuel deps remaining !! j = Some w' /\ d ∈ w') \/ (d ∈ w /\ stuck_wave deps w).
Proof.
  revert remaining i. induction fuel as [|fuel IH]; intros remaining i; cbn [wave_loop]; [done|].
  case_bool_decide as He; [done|]. destruct (ready_names deps remaining) as [|r rs] eqn:Er.
  - destruct i as [|i]; [|done]. intros [= <-] Hn Hd Hr. right. split; [by apply sort_strings_elem, elem_of_elements|].
    intros m Hm. apply sort_strings_elem, elem_of_elements in Hm.
    destruct (set_choose_or_empty (default ∅ (deps !! m) ∩ remaining)) as [(x & [H1 H2]%elem_of_intersection)|Hno].
    + exists x. split; [done|]. by apply sort_strings_elem, elem_of_elements.
    + assert (m ∈ ready_names deps remaining) as Hx; [|rewrite Er in Hx; by apply elem_of_nil in Hx].
      apply ready_names_elem. split; [done|]. unfold all_clear. rewrite bool_decide_eq_true. set_solver.
  - destruct i as [|i]; cbn [lookup list_lookup].
    + intros [= <-] Hn Hd Hr. exfalso. rewrite <- Er in Hn. apply ready_names_elem in Hn as [_ Hc].
      unfold all_clear in Hc. rewrite bool_decide_eq_true in Hc. set_solver.
    + intros Hw Hn Hd Hr. destruct (decide (d ∈ r :: rs)) as [Hin|Hnin].
      * left. exists 0%nat, (r :: rs). split; [lia|done].
      * destruct (IH _ i Hw Hn Hd) as [(j & w' & Hj & Hw' & Hdw)|?]; [set_solver| |by right].
        left. exists (S j), w'. split; [lia|done].
Qed.

Definition pair_name (it : ClaimedPair) : string := ce_EntityName (cp_Claimed it).
Definition pair_key (it : ClaimedPair) : string * string := (pair_tenant it, pair_name it).

(** The definition of [it] refers to the entity [it'] of the same tenant. *)
Definition refers_to (it it' : ClaimedPair) : Prop :=
  pair_tenant it = pair_tenant it' /\ pair_name it <> pair_name it' /\
  exists f, f ∈ e_Fields (cp_Def it) /\ f_Kind f = KindReference /\ f_RefEntity f = Some (pair_name it').

Lemma fold_items_lookup {B} (val : ClaimedPair -> B) items n :
  NoDup (map pair_name items) ->
  fold_left (fun m it => <[pair_name it := val it]> m) items (∅ : gmap string B) !! n =
  val <$> List.find (fun it => String.eqb (pair_name it) n) items.
Proof.
  intros Hnd. pose proof (fold_put_if_lookup pair_name (fun _ => true) val items ∅ n Hnd) as E. unfold put_if in E. rewrite E.
  by destruct (List.find _ items).
Qed.

Lemma find_item items it : NoDup (map pair_name items) -> it ∈ items ->
  List.find (fun x => String.eqb (pair_name x) (pair_name it)) items = Some it.
Proof.
  intros Hnd Hin. induction items as [|x items IH]; [by apply elem_of_nil in Hin|]. cbn [List.find map] in *.
  apply NoDup_cons in Hnd as [Hni Hnd]. apply elem_of_cons in Hin as [->|Hin]; [by rewrite String.eqb_refl|].
  destruct (String.eqb_spec (pair_name x) (pair_name it)) as [Heq|]; [|by apply IH].
  destruct Hni. rewrite Heq. apply list_elem_of_fmap. eauto.
Qed.

Lemma claimedByName_item items it : NoDup (map pair_name items) -> it ∈ items ->
  claimedByName items !! pair_name it = Some (cp_Claimed it).
Proof. intros Hnd Hin. unfold claimedByName. rewrite (fold_items_lookup cp_Claimed) by done. by rewrite find_item. Qed.

Lemma claimedByName_dom items : NoDup (map pair_name items) -> elements (dom (claimedByName items)) ≡ₚ map pair_name items.
Proof.
  intros Hnd. apply NoDup_Permutation; [apply NoDup_elements|done|]. intros n. rewrite elem_of_elements, elem_of_dom.
  unfold claimedByName. rewrite (fold_items_lookup cp_Claimed) by done. rewrite fmap_is_Some. split.
  - intros [it E]. apply List.find_some in E as [Hin He%String.eqb_eq]. subst. apply list_elem_of_fmap.
    exists it. split; [done|]. by apply list_elem_of_In.
  - intros (it & -> & Hin)%list_elem_of_fmap. rewrite find_item by done. eauto.
Qed.

Lemma deps_of_item items it : NoDup (map pair_name items) -> it ∈ items ->
  deps_of items !! pair_name it = Some (entity_deps (item_names items) it).
Proof.
  intros Hnd Hin. unfold deps_of. rewrite (fold_items_lookup (entity_deps (item_names items))) by done. by rewrite find_item.
Qed.

Lemma refers_to_dep items it it' : it' ∈ items -> refers_to it it' -> pair_name it' ∈ entity_deps (item_names items) it.
Proof.
  intros Hin' (_ & Hne & f & Hf & Hk & Hr). unfold entity_deps. apply elem_of_list_to_set, list_elem_of_omap.
  exists f. split; [done|]. rewrite Hk, Hr. cbn [String.eqb]. rewrite (proj2 (String.eqb_eq _ _)) by done.
  destruct (String.eqb_spec (pair_name it') (ce_EntityName (cp_Claimed it))) as [He|_]; [by destruct Hne|].
  rewrite bool_decide_true; [done|]. apply elem_of_list_to_set, list_elem_of_fmap. by exists it'.
Qed.

Lemma wave_names_perm items : NoDup (map pair_name items) -> concat (wave_names items) ≡ₚ map pair_name items.
Proof. intros Hnd. unfold wave_names. rewrite wave_loop_perm by lia. by apply claimedByName_dom. Qed.

Lemma omap_claimed items l : NoDup (map pair_name items) -> l ⊆ map pair_name items ->
  forall x, x ∈ omap (fun n => claimedByName items !! n) l <-> exists it, it ∈ items /\ x = cp_Claimed it /\ pair_name it ∈ l.
Proof.
  intros Hnd Hsub x. rewrite list_elem_of_omap. split.
  - intros (n & Hn & Hx). specialize (Hsub n Hn) as (it & -> & Hit)%list_elem_of_fmap.
    rewrite claimedByName_item in Hx by done. injection Hx as <-. eauto.
  - intros (it & Hit & -> & Hn). exists (pair_name it). split; [done|]. by apply claimedByName_item.
Qed.

(** The members of the i-th wave of a list of waves; none past its end. *)
Definition nth_wave {A} (ws : list (list A)) (i : nat) : list A := default [] (ws !! i).

Lemma wave_names_sub items i : NoDup (map pair_name items) -> nth_wave (wave_names items) i ⊆ map pair_name items.
Proof.
  intros Hnd n Hn. unfold nth_wave in Hn. destruct (wave_names items !! i) as [w|] eqn:E; [|by apply elem_of_nil in Hn].
  rewrite <- wave_names_perm by done. apply list_elem_of_In, in_concat. exists w.
  rewrite <- !list_elem_of_In. split; [by eapply list_elem_of_lookup_2|done].
Qed.

Lemma tenantWaves_elem items i x : NoDup (map pair_name items) ->
  x ∈ nth_wave (tenantWaves items) i <-> exists it, it ∈ items /\ x = cp_Claimed it /\ pair_name it ∈ nth_wave (wave_names items) i.
Proof.
  intros Hnd. unfold tenantWaves, nth_wave at 1. rewrite list_lookup_fmap.
  pose proof (wave_names_sub items i Hnd) as Hsub. unfold nth_wave in *.
  destruct (wave_names items !! i) as [w|]; cbn [fmap option_fmap option_map from_option].
  - by apply omap_claimed.
  - split; [by intros ?%elem_of_nil|]. intros (? & _ & _ & []%elem_of_nil).
Qed.

Lemma merge_waves_nth {A} (a b : list (list A)) i : nth_wave (merge_waves a b) i = nth_wave a i ++ nth_wave b i.
Proof.
  revert b i. induction a as [|x a IH]; intros b i; [done|]. destruct b as [|y b]; cbn [merge_waves].
  - unfold nth_wave at 3. cbn. by rewrite app_nil_r.
  - destruct i as [|i]; [done|]. apply (IH b i).
Qed.

Lemma merge_fold_elem {A} (l : list (list (list A))) acc i x :
  x ∈ nth_wave (fold_left merge_waves l acc) i <-> x ∈ nth_wave acc i \/ exists ws, ws ∈ l /\ x ∈ nth_wave ws i.
Proof.
  revert acc. induction l as [|ws l IH]; intros acc; cbn [fold_left].
  - split; [by left|]. intros [?|(? & []%elem_of_nil & _)]. done.
  - rewrite IH, merge_waves_nth, elem_of_app. setoid_rewrite elem_of_cons. naive_solver.
Qed.

Lemma tenant_order_elem seen entities t :
  t ∈ tenant_order seen entities <-> t ∉ seen /\ exists e, e ∈ entities /\ pair_tenant e = t.
Proof.
  revert seen. induction entities as [|e entities IH]; intros seen; cbn [tenant_order].
  - split; [by intros ?%elem_of_nil|]. intros (_ & ? & []%elem_of_nil & _).
  - destruct (existsb (String.eqb (pair_tenant e)) seen) eqn:E.
    + apply existsb_exists in E as (s & Hs%list_elem_of_In & He%String.eqb_eq). rewrite IH. setoid_rewrite elem_of_cons. naive_solver.
    + assert (pair_tenant e ∉ seen) as Hn.
      { intros Hin. rewrite <- not_true_iff_false in E. destruct E. apply existsb_exists. exists (pair_tenant e).
        split; [by apply list_elem_of_In|apply String.eqb_refl]. }
      rewrite elem_of_cons, IH. setoid_rewrite elem_of_cons. split.
      * intros [->|(H1 & x & H2 & H3)]; [naive_solver|]. split; [set_solver|]. eauto.
      * intros (H1 & x & [->|H2] & H3); [by left|]. destruct (decide (t = pair_tenant e)) as [->|]; [by left|]. right.
        split; [set_solver|]. eauto.
Qed.

Lemma of_tenant_elem t entities e : e ∈ of_tenant t entities <-> e ∈ entities /\ pair_tenant e = t.
Proof. unfold of_tenant. rewrite !list_elem_of_In, filter_In, String.eqb_eq. done. Qed.

Lemma of_tenant_NoDup t entities : NoDup (map pair_key entities) -> NoDup (map pair_name (of_tenant t entities)).
Proof.
  induction entities as [|e entities IH]; [intros _; constructor|]. cbn [map of_tenant List.filter].
  intros [Hni Hnd]%NoDup_cons. fold (of_tenant t entities). destruct (String.eqb_spec (pair_tenant e) t) as [<-|]; [|by apply IH].
  cbn [map]. apply NoDup_cons. split; [|by apply IH]. intros (x & Hx & [Hin Ht]%of_tenant_elem)%list_elem_of_fmap.
  destruct Hni. apply list_elem_of_fmap. exists x. split; [|done]. unfold pair_key. congruence.
Qed.

(** The i-th wave, tenant by tenant. *)
Lemma TopoSortWaves_elem entities i x : NoDup (map pair_key entities) ->
  x ∈ nth_wave (TopoSortWaves entities) i <->
  exists it, it ∈ entities /\ x = cp_Claimed it /\ pair_name it ∈ nth_wave (wave_names (of_tenant (pair_tenant it) entities)) i.
Proof.
  intros Hnd. unfold TopoSortWaves. rewrite merge_fold_elem. split.
  - intros [[]%elem_of_nil|(ws & (t & -> & Ht)%list_elem_of_fmap & Hx)].
    apply tenantWaves_elem in Hx as (it & [Hit <-]%of_tenant_elem & -> & Hn); [|by apply of_tenant_NoDup]. eauto.
  - intros (it & Hit & -> & Hn). right. exists (tenantWaves (of_tenant (pair_tenant it) entities)). split.
    + apply list_elem_of_fmap. exists (pair_tenant it). split; [done|]. apply tenant_order_elem. split; [apply not_elem_of_nil|eauto].
    + apply tenantWaves_elem; [by apply of_tenant_NoDup|]. exists it. split; [|done]. by apply of_tenant_elem.
Qed.

Lemma nth_wave_unique {A} (ws : list (list A)) n i j :
  NoDup (concat ws) -> n ∈ nth_wave ws i -> n ∈ nth_wave ws j -> i = j.
Proof.
  assert (forall (l : list (list A)) k, n ∈ nth_wave l k -> n ∈ concat l) as Hin.
  { intros l k. unfold nth_wave. destruct (l !! k) as [w|] eqn:E; [|by intros ?%elem_of_nil]. intros Hn.
    apply list_elem_of_In, in_concat. exists w. rewrite <- !list_elem_of_In. split; [by eapply list_elem_of_lookup_2|done]. }
  revert i j. induction ws as [|w ws IH]; intros i j Hnd Hi Hj; [by apply elem_of_nil in Hi|].
  cbn [concat] in Hnd. apply NoDup_app in Hnd as (_ & Hdis & Hnd).
  destruct i as [|i], j as [|j]; [done|..].
  - destruct (Hdis n Hi). by apply (Hin ws j).
  - destruct (Hdis n Hj). by apply (Hin ws i).
  - f_equal. by apply IH.
Qed.

Lemma in_some_wave {A} (ws : list (list A)) n : n ∈ concat ws -> exists i, n ∈ nth_wave ws i.
Proof.
  intros (w & Hw & Hn)%list_elem_of_In%in_concat. apply list_elem_of_In, list_elem_of_lookup_1 in Hw as [i Hi].
  exists i. unfold nth_wave. rewrite Hi. by apply list_elem_of_In.
Qed.

Lemma same_pair entities it it' : NoDup (map pair_key entities) -> it ∈ entities -> it' ∈ entities ->
  cp_Claimed it = cp_Claimed it' -> it = it'.
Proof.
  intros Hnd Hi Hi' He. assert (pair_key it = pair_key it') as Hk by (unfold pair_key, pair_tenant, pair_name; by rewrite He).
  clear He. induction entities as [|e entities IH]; [by apply elem_of_nil in Hi|]. cbn [map] in Hnd.
  apply NoDup_cons in Hnd as [Hni Hnd]. apply elem_of_cons in Hi as [->|Hi], Hi' as [->|Hi']; [done|..|by apply IH];
    destruct Hni; apply list_elem_of_fmap; eauto.
Qed.

Lemma TopoSortWaves_place entities it i : NoDup (map pair_key entities) -> it ∈ entities ->
  cp_Claimed it ∈ nth_wave (TopoSortWaves entities) i <-> pair_name it ∈ nth_wave (wave_names (of_tenant (pair_tenant it) entities)) i.
Proof.
  intros Hnd Hit. rewrite TopoSortWaves_elem by done. split; [|eauto].
  intros (it' & Hit' & He & Hn). by rewrite (same_pair entities it it' Hnd Hit Hit' He).
Qed.

Lemma dep_refers items it d : it ∈ items -> d ∈ entity_deps (item_names items) it -> (forall x, x ∈ items -> pair_tenant x = pair_tenant it) ->
  exists it', it' ∈ items /\ pair_name it' = d /\ refers_to it it'.
Proof.
  intros Hit Hd Hten. unfold entity_deps in Hd. apply elem_of_list_to_set, list_elem_of_omap in Hd as (f & Hf & Hd).
  destruct (String.eqb_spec (f_Kind f) KindReference) as [Hk|]; [|done]. destruct (f_RefEntity f) as [r|] eqn:Er; [|done].
  destruct (String.eqb_spec r (ce_EntityName (cp_Claimed it))) as [|Hne]; [done|]. cbn [negb andb] in Hd.
  case_bool_decide as Hin; [|done]. injection Hd as ->. apply elem_of_list_to_set, list_elem_of_fmap in Hin as (it' & -> & Hit').
  exists it'. split; [done|]. split; [done|]. split; [by rewrite (Hten it')|]. split; [by intros E; apply Hne|]. eauto.
Qed.

(** A claimed batch is run in waves: every claimed entity is in exactly one
    wave, and an entity that refers to another claimed entity of its tenant comes
    in a later wave than it. The only exception is the last wave of a tenant whose
    references form a cycle: there every entity refers to another one of the wave. *)
Lemma TopoSortWaves_ordered entities :
  NoDup (map pair_key entities) ->
  let wave := nth_wave (TopoSortWaves entities) in
  (forall it, it ∈ entities -> exists i, cp_Claimed it ∈ wave i /\ forall j, cp_Claimed it ∈ wave j -> j = i) /\
  (forall i x, x ∈ wave i -> exists it, it ∈ entities /\ x = cp_Claimed it) /\
  (forall it it' i j, it ∈ entities -> it' ∈ entities -> refers_to it it' -> cp_Claimed it ∈ wave i -> cp_Claimed it' ∈ wave j ->
     (j < i)%nat \/
     (j = i /\ forall m, m ∈ entities -> pair_tenant m = pair_tenant it -> cp_Claimed m ∈ wave i ->
        exists m', m' ∈ entities /\ refers_to m m' /\ cp_Claimed m' ∈ wave i)).
Proof.
  intros Hnd. cbv zeta. split; [|split].
  - intros it Hit. set (items := of_tenant (pair_tenant it) entities).
    pose proof (wave_names_perm items (of_tenant_NoDup _ _ Hnd)) as Hp.
    assert (pair_name it ∈ concat (wave_names items)) as (i & Hi)%in_some_wave.
    { rewrite Hp. apply list_elem_of_fmap. exists it. split; [done|]. by apply of_tenant_elem. }
    exists i. split; [by apply TopoSortWaves_place|]. intros j Hj%TopoSortWaves_place; [|done..].
    apply (nth_wave_unique (wave_names items) (pair_name it)); [|exact Hj|exact Hi]. rewrite Hp. by apply of_tenant_NoDup.
  - intros i x (it & Hit & -> & _)%TopoSortWaves_elem; [|done]. eauto.
  - intros it it' i j Hit Hit' Href Hi%TopoSortWaves_place Hj%TopoSortWaves_place; [|done..].
    destruct Href as [Hten Href']. assert (refers_to it it') as Href by done. rewrite <- Hten in Hj.
    set (items := of_tenant (pair_tenant it) entities) in *.
    assert (NoDup (map pair_name items)) as Hnd' by (by apply of_tenant_NoDup).
    assert (it ∈ items) as Hin by (by apply of_tenant_elem). assert (it' ∈ items) as Hin' by (by apply of_tenant_elem).
    destruct (wave_names items !! i) as [w|] eqn:Ew; [|unfold nth_wave in Hi; rewrite Ew in Hi; by apply elem_of_nil in Hi].
    assert (nth_wave (wave_names items) i = w) as Hw by (unfold nth_wave; by rewrite Ew). rewrite Hw in Hi.
    assert (forall k, pair_name it' ∈ nth_wave (wave_names items) k -> k = j) as Huniq.
    { intros k Hk. eapply nth_wave_unique; [|exact Hk|exact Hj]. by rewrite wave_names_perm. }
    destruct (wave_loop_ordered (S (size (dom (claimedByName items)))) (deps_of items) (dom (claimedByName items)) i w
                (pair_name it) (pair_name it') Ew Hi) as [(k & w' & Hk & Ew' & Hdw)|[Hdw Hstuck]].
    + rewrite deps_of_item by done. by apply refers_to_dep.
    + apply elem_of_elements. rewrite claimedByName_dom by done. apply list_elem_of_fmap. eauto.
    + left. assert (k = j) as <-; [|done]. apply Huniq. unfold nth_wave, wave_names. by rewrite Ew'.
    + right. assert (j = i) as -> by (symmetry; apply Huniq; by rewrite Hw). split; [done|].
      intros m Hm Hmt Hmw%TopoSortWaves_place; [|done..]. rewrite Hmt in Hmw. fold items in Hmw. rewrite Hw in Hmw.
      assert (m ∈ items) as Hmi by (by apply of_tenant_elem).
      destruct (Hstuck _ Hmw) as (d & Hd & Hdw'). rewrite deps_of_item in Hd by done. simpl in Hd.
      destruct (dep_refers items m d Hmi Hd) as (m' & Hm' & <- & Hr).
      { intros x [_ ->]%of_tenant_elem. done. }
      pose proof (proj1 (of_tenant_elem _ _ _) Hm') as [Hme Hmt']. exists m'. split; [done|]. split; [done|].
      apply TopoSortWaves_place; [done..|]. rewrite Hmt'. fold items. by rewrite Hw.
Qed.

Definition ref_field (name target : string) : EntityField :=
  mkField name "" KindReference None None None None None (Some target) None None None None None None None None None None None.
Definition claimed_pair (tenant entity : string) (refs : list string) : ClaimedPair :=
  mkPair (mkClaimed tenant entity 1)
    (mkEntity entity entity "" (map (fun r => ref_field r r) refs) [] None [] None).
Definition test_batch : list ClaimedPair :=
  [claimed_pair "t1" "orders" ["customers"]; claimed_pair "t1" "customers" []; claimed_pair "t2" "orders" ["customers"]].

Lemma TopoSortWaves_ordered_witness :
  TopoSortWaves test_batch = [[mkClaimed "t1" "customers" 1; mkClaimed "t2" "orders" 1]; [mkClaimed "t1" "orders" 1]] /\
  exists i, cp_Claimed (claimed_pair "t1" "orders" ["customers"]) ∈ nth_wave (TopoSortWaves test_batch) i.
Proof.
  split; [vm_compute; reflexivity|].
  destruct (proj1 (TopoSortWaves_ordered test_batch ltac:(apply (bool_decide_unpack _); vm_compute; exact I))
              (claimed_pair "t1" "orders" ["customers"])) as (i & Hi & _).
  - left.
  - exists i. exact Hi.
Defined.

(** ** The life of a row of the queue *)

Inductive queue_event : Type :=
| EvClaim (workerID entityNameFilter : string) (maxAttempts limit now : Z) (locked : string * string -> bool)
| EvEnqueue (tenant entity : string) (version now : Z)
| EvSuccess (tenant entity : string) (version now : Z)
| EvFailure (tenant entity : string) (err : ReconcileError) (now : Z).

Definition queue_step (table : list Deployment) (ev : queue_event) : list Deployment :=
  match ev with
  | EvClaim w filter max limit now locked => fst (ClaimDue w filter max limit now locked table)
  | EvEnqueue t e v now => EnqueueDeployment t e v now table
  | EvSuccess t e v now => RecordSuccess t e v now table
  | EvFailure t e err now => RecordFailure t e err now table
  end.

Definition queue_run (table : list Deployment) (evs : list queue_event) : list Deployment := fold_left queue_step evs table.

(** The events that write the row of a key, claims apart. *)
Definition touches (key : string * string) (ev : queue_event) : bool :=
  match ev with
  | EvClaim _ _ _ _ _ _ => false
  | EvEnqueue t e _ _ | EvSuccess t e _ _ | EvFailure t e _ _ => bool_decide ((t, e) = key)
  end.

Definition row_is (key : string * string) (P : Deployment -> Prop) (table : list Deployment) : Prop :=
  forall d, d ∈ table -> key_of d = key -> P d.

Lemma has_key_spec t e d : has_key t e d = true <-> key_of d = (t, e).
Proof. unfold has_key, key_of. rewrite andb_true_iff, !String.eqb_eq. naive_solver. Qed.

Lemma update_rows_elem t e f table d : d ∈ update_rows t e f table ->
  (d ∈ table /\ key_of d <> (t, e)) \/ exists d0, d0 ∈ table /\ key_of d0 = (t, e) /\ d = f d0.
Proof.
  intros (d0 & -> & Hd0)%list_elem_of_fmap. destruct (has_key t e d0) eqn:E.
  - right. apply has_key_spec in E. eauto.
  - left. split; [done|]. intros Hk. apply has_key_spec in Hk. congruence.
Qed.

Lemma insert_claim_perm d l : insert_claim d l ≡ₚ d :: l.
Proof. induction l as [|x l IH]; simpl; [done|]. destruct (claim_before x d); [|done]. rewrite IH. apply perm_swap. Qed.

Lemma sort_claims_perm l : sort_claims l ≡ₚ l.
Proof. induction l as [|d l IH]; simpl; [done|]. rewrite insert_claim_perm. by rewrite IH. Qed.

(** Only claimable rows are picked. *)
Lemma picked_claimable now filter max limit locked table key :
  key ∈ picked now filter max limit locked table ->
  exists d, d ∈ table /\ key_of d = key /\ claimable now filter max d = true /\ locked key = false.
Proof.
  unfold picked. intros (d & -> & Hd)%list_elem_of_fmap. exists d.
  assert (d ∈ List.filter (fun d => claimable now filter max d && negb (locked (key_of d))) table) as Hin.
  { rewrite <- sort_claims_perm. by apply elem_of_take in Hd as (i & ? & _); eapply list_elem_of_lookup_2. }
  apply list_elem_of_In, filter_In in Hin as [Hin [Hc Hl%negb_true_iff]%andb_prop]. rewrite <- list_elem_of_In in Hin. done.
Qed.

Lemma not_picked key P now filter max limit locked table :
  row_is key P table -> (forall d, P d -> claimable now filter max d = false) ->
  key ∉ picked now filter max limit locked table.
Proof. intros Hrow HP (d & Hd & Hk & Hc & _)%picked_claimable. rewrite (HP d) in Hc; [done|]. by apply Hrow. Qed.

(** A claim at which no row of the key is claimable leaves it as it is. *)
Lemma claim_keeps key P w filter max limit now locked table :
  row_is key P table -> (forall d, P d -> claimable now filter max d = false) ->
  row_is key P (fst (ClaimDue w filter max limit now locked table)) /\
  (forall c, c ∈ snd (ClaimDue w filter max limit now locked table) -> (ce_TenantID c, ce_EntityName c) <> key).
Proof.
  intros Hrow HP. pose proof (not_picked key P now filter max limit locked table Hrow HP) as Hnp. cbn [ClaimDue fst snd]. split.
  - intros d (d0 & -> & Hd0)%list_elem_of_fmap Hk. unfold is_picked in *. case_bool_decide as Hp; [|by apply Hrow].
    exfalso. apply Hnp. by rewrite <- Hk.
  - intros c (d & -> & Hd)%list_elem_of_fmap Hk. apply list_elem_of_In, filter_In in Hd as [_ Hp].
    unfold is_picked in Hp. rewrite bool_decide_eq_true in Hp. apply Hnp. by rewrite <- Hk.
Qed.

Lemma update_keeps key P t e f table : (t, e) <> key -> (forall d, key_of (f d) = key_of d) -> row_is key P table ->
  row_is key P (update_rows t e f table).
Proof.
  intros Hne Hf Hrow d Hd Hk. apply update_rows_elem in Hd as [[Hd _]|(d0 & Hd0 & Hk0 & ->)]; [by apply Hrow|].
  rewrite Hf in Hk. congruence.
Qed.

Lemma enqueue_keeps key P t e v now table : (t, e) <> key -> row_is key P table -> row_is key P (EnqueueDeployment t e v now table).
Proof.
  intros Hne Hrow. unfold EnqueueDeployment. destruct (existsb _ _).
  - apply update_keeps; try done. intros d. by destruct (dp_desired d <? v)%Z.
  - intros d [Hd|Hd%list_elem_of_singleton]%elem_of_app Hk; [by apply Hrow|]. subst. by destruct Hne.
Qed.

(** Events that do not write the key, with claims at which it is not claimable. *)
Lemma queue_run_keeps key P (inert : Z -> Prop) table evs :
  (forall now filter max d, inert now -> P d -> claimable now filter max d = false) ->
  Forall (fun ev => touches key ev = false /\ match ev with EvClaim _ _ _ _ now _ => inert now | _ => True end) evs ->
  row_is key P table -> row_is key P (queue_run table evs).
Proof.
  intros HP. revert table. induction evs as [|ev evs IH]; intros table Hevs Hrow; [done|].
  apply Forall_cons in Hevs as [[Ht Hi] Hevs]. apply IH; [done|]. destruct ev; cbn [queue_step touches] in *.
  - apply claim_keeps; eauto.
  - rewrite bool_decide_eq_false in Ht. by apply enqueue_keeps.
  - rewrite bool_decide_eq_false in Ht. by apply update_keeps.
  - rewrite bool_decide_eq_false in Ht. by apply update_keeps.
Qed.

Definition held_since (t0 : Z) (d : Deployment) : Prop := dp_status d = "running" /\ dp_heartbeat d = Some t0.

Lemma held_not_claimable t0 now filter max d : (now <= t0 + leaseStaleAfter)%Z -> held_since t0 d -> claimable now filter max d = false.
Proof.
  intros Hle [Hs Hh]. unfold claimable. rewrite Hs, Hh. destruct (Z.ltb_spec t0 (now - leaseStaleAfter)); [lia|].
  rewrite !andb_false_r. done.
Qed.

Lemma claimed_is_held w filter max limit now locked table c :
  c ∈ snd (ClaimDue w filter max limit now locked table) ->
  row_is (ce_TenantID c, ce_EntityName c) (held_since now) (fst (ClaimDue w filter max limit now locked table)).
Proof.
  cbn [ClaimDue fst snd]. intros (d0 & -> & Hd0)%list_elem_of_fmap. apply list_elem_of_In, filter_In in Hd0 as [_ Hp].
  unfold is_picked in Hp. rewrite bool_decide_eq_true in Hp.
  intros d (d1 & -> & Hd1)%list_elem_of_fmap Hk. unfold is_picked in *. case_bool_decide as Hp1; [done|].
  destruct Hp1. by rewrite Hk.
Qed.

(** C18. Work that a worker has claimed is claimed by no other for an hour:
    whatever other claims, enqueues and outcomes happen meanwhile, as long as
    nothing is recorded or enqueued for the claimed entity itself, no claim
    within the hour returns it. *)
Theorem claims_exclusive w filter max limit now locked table c evs w' filter' max' limit' now' locked' :
  c ∈ snd (ClaimDue w filter max limit now locked table) ->
  let key := (ce_TenantID c, ce_EntityName c) in
  Forall (fun ev => touches key ev = false /\
            match ev with EvClaim _ _ _ _ n _ => (n <= now + leaseStaleAfter)%Z | _ => True end) evs ->
  (now' <= now + leaseStaleAfter)%Z ->
  forall c', c' ∈ snd (ClaimDue w' filter' max' limit' now' locked' (queue_run (fst (ClaimDue w filter max limit now locked table)) evs)) ->
    (ce_TenantID c', ce_EntityName c') <> key.
Proof.
  intros Hc key Hevs Hnow. apply claim_keeps with (P := held_since now).
  - eapply (queue_run_keeps key (held_since now) (fun n => n <= now + leaseStaleAfter)%Z); [|done|by apply claimed_is_held].
    intros n f m d. apply held_not_claimable.
  - intros d. by apply held_not_claimable.
Qed.

Definition due (tenant entity : string) : Deployment := new_deployment tenant entity 1 0.
Definition nothing_locked : string * string -> bool := fun _ => false.

Lemma claims_exclusive_witness :
  let first := ClaimDue "w1" "" 5 10 100 nothing_locked [due "t1" "orders"; due "t2" "orders"] in
  snd first = [mkClaimed "t1" "orders" 1; mkClaimed "t2" "orders" 1] /\
  forall c', c' ∈ snd (ClaimDue "w2" "" 5 10 200 nothing_locked (queue_run (fst first) [EvSuccess "t2" "orders" 1 150])) ->
    (ce_TenantID c', ce_EntityName c') <> ("t1", "orders").
Proof.
  split; [reflexivity|].
  refine (claims_exclusive "w1" "" 5 10 100 nothing_locked [due "t1" "orders"; due "t2" "orders"] (mkClaimed "t1" "orders" 1)
    [EvSuccess "t2" "orders" 1 150] "w2" "" 5 10 200 nothing_locked _ _ _).
  - left.
  - apply Forall_cons. split; [split; [reflexivity|exact I]|]. constructor.
  - vm_compute. discriminate.
Defined.

(** A row outside the statuses a claim looks for. *)
Definition parked (d : Deployment) : Prop := dp_status d = "blocked" \/ dp_status d = "done".

Lemma parked_not_claimable now filter max d : parked d -> claimable now filter max d = false.
Proof. intros [Hs|Hs]; unfold claimable; rewrite Hs; by rewrite andb_false_r. Qed.

Lemma parked_stays key table evs w filter max limit now locked :
  row_is key parked table -> Forall (fun ev => touches key ev = false) evs ->
  forall c, c ∈ snd (ClaimDue w filter max limit now locked (queue_run table evs)) -> (ce_TenantID c, ce_EntityName c) <> key.
Proof.
  intros Hrow Hevs. apply claim_keeps with (P := parked); [|by intros; apply parked_not_claimable].
  apply (queue_run_keeps key parked (fun _ => True)); [by intros; apply parked_not_claimable| |done].
  eapply Forall_impl; [exact Hevs|]. intros ev Ht. split; [done|]. by destruct ev.
Qed.

Lemma update_rows_row t e f table P : (forall d, key_of (f d) = key_of d -> P (f d)) -> (forall d, key_of (f d) = key_of d) ->
  row_is (t, e) P (update_rows t e f table).
Proof.
  intros HP Hf d Hd Hk. apply update_rows_elem in Hd as [[_ Hn]|(d0 & Hd0 & Hk0 & ->)]; [done|]. by apply HP.
Qed.

(** An error that is not transient blocks its entity: no claim, at any time
    and by any worker, returns it again until something is enqueued or recorded
    for it. *)
Lemma blocked_needs_a_human t e err now table evs w filter max limit now' locked :
  ClassifyError err <> FailureTransient ->
  Forall (fun ev => touches (t, e) ev = false) evs ->
  forall c, c ∈ snd (ClaimDue w filter max limit now' locked (queue_run (RecordFailure t e err now table) evs)) ->
    (ce_TenantID c, ce_EntityName c) <> (t, e).
Proof.
  intros Hclass. apply parked_stays. apply update_rows_row; [|done].
  intros d _. left. cbn [dp_status]. by destruct (ClassifyError err).
Qed.

Lemma blocked_needs_a_human_witness :
  let err := mkReconcileError "unique violation" (Some "23505") in
  forall c, c ∈ snd (ClaimDue "w" "" 5 10 999 nothing_locked (queue_run (RecordFailure "t1" "orders" err 5 [due "t1" "orders"]) [EvEnqueue "t2" "orders" 3 7])) ->
    (ce_TenantID c, ce_EntityName c) <> ("t1", "orders").
Proof.
  refine (blocked_needs_a_human "t1" "orders" _ 5 _ _ "w" "" 5 10 999 nothing_locked _ _).
  - discriminate.
  - apply Forall_cons. split; [reflexivity|]. constructor.
Defined.

(** A version enqueued while an older one is being applied is lost: when the
    worker records its success, the row is done although a newer version is
    desired, and no claim at any later time returns it, so it is never ready. *)
Lemma newer_version_is_lost t e :
  let table := queue_run []
    [EvEnqueue t e 1 0; EvClaim "w1" "" 5 10 1 nothing_locked; EvEnqueue t e 2 2; EvSuccess t e 1 3] in
  GetDeploymentStatus t e table = Some (mkDeploymentStatus "done" 2 (Some 1%Z) None None) /\
  forall evs, Forall (fun ev => touches (t, e) ev = false) evs ->
    (forall w filter max limit now locked c, c ∈ snd (ClaimDue w filter max limit now locked (queue_run table evs)) ->
       (ce_TenantID c, ce_EntityName c) <> (t, e)).
Proof.
  cbv zeta. set (table := queue_run [] _).
  assert (table = [mkDeployment t e 2 (Some 1%Z) "done" None 0 None 0 None (Some 1%Z) 3]) as Htable.
  { unfold table, queue_run. cbn [fold_left queue_step EnqueueDeployment existsb app].
    unfold ClaimDue, picked, new_deployment. cbn. unfold is_picked, key_of. cbn [dp_tenant dp_entity].
    rewrite bool_decide_true by (apply list_elem_of_In; left; done).
    unfold claim_row, EnqueueDeployment, RecordSuccess, update_rows, has_key, reset_to. cbn.
    rewrite !String.eqb_refl. cbn. unfold has_key. cbn. by rewrite !String.eqb_refl. }
  rewrite Htable. split.
  - unfold GetDeploymentStatus, has_key. cbn. by rewrite !String.eqb_refl.
  - intros evs Hevs w filter max limit now locked. apply parked_stays; [|done].
    intros d ->%list_elem_of_singleton _. by right.
Qed.

(** ** The batch *)

Definition claimed_key (e : ClaimedEntity) : string * string := (ce_TenantID e, ce_EntityName e).

(** The row an outcome leaves. *)
Definition outcome_row (now : Z) (e : ClaimedEntity) (err : option ReconcileError) (d : Deployment) : Deployment :=
  match err with
  | None => mkDeployment (dp_tenant d) (dp_entity d) (dp_desired d) (Some (ce_DesiredVersion e)) "done" None
              (dp_attempts d) None (dp_priority d) None (dp_heartbeat d) now
  | Some err => mkDeployment (dp_tenant d) (dp_entity d) (dp_desired d) (dp_applied d) (failure_status (ClassifyError err))
              (Some (FailureClass_String (ClassifyError err))) (dp_attempts d) (Some (re_text err)) (dp_priority d) None (dp_heartbeat d) now
  end.

Definition claimed_for (completed : list ClaimedEntity) (d : Deployment) : option ClaimedEntity :=
  List.find (fun e => bool_decide (claimed_key e = key_of d)) completed.

Lemma record_outcome_rows now e err table :
  record_outcome now e err table =
  map (fun d => if bool_decide (claimed_key e = key_of d) then outcome_row now e err d else d) table.
Proof.
  assert (forall d, has_key (ce_TenantID e) (ce_EntityName e) d = bool_decide (claimed_key e = key_of d)) as Hk.
  { intros d. apply eq_true_iff_eq. rewrite has_key_spec, bool_decide_eq_true. unfold claimed_key. naive_solver. }
  unfold record_outcome, RecordSuccess, RecordFailure, update_rows.
  destruct err; apply map_ext; intros d; rewrite Hk; done.
Qed.

Lemma outcome_row_key now e err d : key_of (outcome_row now e err d) = key_of d.
Proof. by destruct err. Qed.

Lemma claimed_for_none completed d : key_of d ∉ map claimed_key completed -> claimed_for completed d = None.
Proof.
  intros Hn. unfold claimed_for. destruct (List.find _ _) as [e|] eqn:E; [|done].
  apply List.find_some in E as [Hin He]. rewrite bool_decide_eq_true in He. destruct Hn. rewrite <- He.
  apply list_elem_of_fmap. exists e. split; [done|]. by apply list_elem_of_In.
Qed.

Lemma RunClaimedBatch_rows now f completed table : NoDup (map claimed_key completed) ->
  RunClaimedBatch now f completed table =
  (map (fun d => match claimed_for completed d with Some e => outcome_row now e (f e) d | None => d end) table,
   map (fun e => mkOutcome e (f e)) completed).
Proof.
  revert table. induction completed as [|e completed IH]; intros table Hnd.
  - cbn. by rewrite map_id.
  - cbn [map] in Hnd. apply NoDup_cons in Hnd as [Hni Hnd]. cbn [RunClaimedBatch]. rewrite (IH _ Hnd), record_outcome_rows.
    cbn [fst snd map]. rewrite map_map. apply (f_equal (fun x => (x, _))), map_ext. intros d. unfold claimed_for at 2. cbn [List.find].
    case_bool_decide as Hk; [|done]. rewrite claimed_for_none; [done|]. by rewrite outcome_row_key, <- Hk.
Qed.

Lemma claimed_for_perm c1 c2 d : c1 ≡ₚ c2 -> NoDup (map claimed_key c1) -> claimed_for c1 d = claimed_for c2 d.
Proof.
  intros Hp Hnd. unfold claimed_for.
  destruct (List.find _ c1) as [e|] eqn:E1.
  - apply List.find_some in E1 as [Hin1 Hk1]. rewrite bool_decide_eq_true in Hk1.
    destruct (List.find _ c2) as [e'|] eqn:E2.
    + apply List.find_some in E2 as [Hin2 Hk2]. rewrite bool_decide_eq_true in Hk2. f_equal.
      apply list_elem_of_In in Hin1, Hin2. rewrite <- Hp in Hin2.
      apply list_elem_of_lookup_1 in Hin1 as [i Hi]. apply list_elem_of_lookup_1 in Hin2 as [j Hj].
      assert (i = j) as ->; [|congruence]. eapply (NoDup_lookup _ i j (claimed_key e)); [exact Hnd|..];
        rewrite list_lookup_fmap; [by rewrite Hi|rewrite Hj; simpl; congruence].
    + assert (e ∈ c2) as Hin by (rewrite <- Hp; by apply list_elem_of_In).
      apply list_elem_of_In in Hin. pose proof (List.find_none _ _ E2 _ Hin) as Hn. cbv beta in Hn. rewrite bool_decide_eq_false in Hn. done.
  - destruct (List.find _ c2) as [e'|] eqn:E2; [|done]. apply List.find_some in E2 as [Hin2 Hk2].
    assert (e' ∈ c1) as Hin by (rewrite Hp; by apply list_elem_of_In).
    apply list_elem_of_In in Hin. pose proof (List.find_none _ _ E1 _ Hin) as Hn. cbv beta in Hn. congruence.
Qed.

(** The workers of a batch may finish in any order: the queue they leave is
    the same, every claimed entity gets the row its own outcome asks for (one
    failure changes no other row), and every claimed entity has one outcome. *)
Lemma batch_isolated now f claimed completed table :
  completed ≡ₚ claimed -> NoDup (map claimed_key claimed) ->
  fst (RunClaimedBatch now f completed table) = fst (RunClaimedBatch now f claimed table) /\
  fst (RunClaimedBatch now f completed table) =
    map (fun d => match claimed_for claimed d with Some e => outcome_row now e (f e) d | None => d end) table /\
  snd (RunClaimedBatch now f completed table) ≡ₚ map (fun e => mkOutcome e (f e)) claimed.
Proof.
  intros Hp Hnd. assert (NoDup (map claimed_key completed)) as Hnd' by (by rewrite Hp).
  rewrite !RunClaimedBatch_rows by done. cbn [fst snd].
  assert (map (fun d => match claimed_for completed d with Some e => outcome_row now e (f e) d | None => d end) table =
          map (fun d => match claimed_for claimed d with Some e => outcome_row now e (f e) d | None => d end) table) as E.
  { apply map_ext. intros d. by rewrite (claimed_for_perm completed claimed d Hp Hnd'). }
  rewrite E. split; [done|]. split; [done|]. by rewrite Hp.
Qed.

Definition fails_for (tenant : string) (e : ClaimedEntity) : option ReconcileError :=
  if String.eqb (ce_TenantID e) tenant then Some (mkReconcileError "deadlock" (Some "40P01")) else None.

Lemma batch_isolated_witness :
  let claimed := [mkClaimed "t1" "orders" 1; mkClaimed "t2" "orders" 1] in
  fst (RunClaimedBatch 9 (fails_for "t1") (rev claimed) [due "t1" "orders"; due "t2" "orders"]) =
  fst (RunClaimedBatch 9 (fails_for "t1") claimed [due "t1" "orders"; due "t2" "orders"]).
Proof.
  refine (proj1 (batch_isolated 9 (fails_for "t1") _ _ [due "t1" "orders"; due "t2" "orders"] _ _)).
  - apply perm_swap.
  - apply (bool_decide_unpack _). vm_compute. exact I.
Defined.

(** ** Waves of a rollout *)

Lemma ceil_Z_nonneg x : (0 <= ceil_Z x)%Z.
Proof.
  destruct x as [| | |[] m e]; simpl; try lia. destruct (Z.leb_spec 0 e); [nia|].
  assert ((- Zpos m) / 2 ^ (- e) <= 0)%Z; [|lia]. apply Z.div_le_upper_bound; nia.
Qed.

(** A wave of a rollout is never larger than the fleet and never smaller
    than the canaries (two tenants, or all of a smaller fleet); wave 0 is exactly
    the canaries, and from wave 3 on it is the whole fleet. *)
Lemma WaveSize_bounds total wave :
  (0 <= total)%Z -> (0 <= wave)%Z ->
  (Z.min total 2 <= WaveSize total wave <= total)%Z /\
  WaveSize total 0 = Z.min total 2 /\ ((3 <= wave)%Z -> WaveSize total wave = total).
Proof.
  intros Ht Hw. unfold WaveSize. destruct (Z.eqb_spec total 0) as [->|Hne]; [lia|].
  pose proof (ceil_Z_nonneg (f64_mul (f64_of_Z total) (f64_const "0.05"))) as H1.
  pose proof (ceil_Z_nonneg (f64_mul (f64_of_Z total) (f64_const "0.25"))) as H2.
  destruct (Z.eqb_spec wave 0), (Z.eqb_spec wave 1), (Z.eqb_spec wave 2); cbn [Z.eqb]; lia.
Qed.

Lemma WaveSize_bounds_witness : WaveSize 100 1 = 5%Z /\ WaveSize 100 2 = 25%Z /\ (2 <= WaveSize 100 2 <= 100)%Z.
Proof.
  split; [vm_compute; reflexivity|]. split; [vm_compute; reflexivity|].
  refine (proj1 (WaveSize_bounds 100 2 _ _)); discriminate.
Defined.

(** On fleets of up to two thousand tenants the float arithmetic of the source
    gives exactly the twentieth and the quarter, rounded up. *)
Lemma WaveSize_exact_small :
  forallb (fun n => let total := Z.of_nat n in
    ((ceil_Z (f64_mul (f64_of_Z total) (f64_const "0.05")) =? - ((- total) / 20))
     && (ceil_Z (f64_mul (f64_of_Z total) (f64_const "0.25")) =? - ((- total) / 4)))%Z) (seq 0 2000) = true.
Proof. vm_compute. reflexivity. Qed.

(** A wave is only started on top of a cohort whose error rate was acceptable,
    and it enqueues exactly its own tenants. *)
Lemma AdvanceWave_guarded entityName version tenants wave maxRate now table rate :
  AdvanceWave entityName version tenants wave maxRate now table = (table, WaveHalted rate) ->
  (maxRate < rate)%Z /\ (0 < wave)%Z.
Proof.
  unfold AdvanceWave. destruct (Z.ltb_spec 0 wave); [|done]. case_match eqn:E; [|done]. apply Z.ltb_lt in E. intros [= <-]. done.
Qed.
