(* ===== verification/Backfill.v ===== *)
(** Checkpointed batches over an entity's rows (src/go/reconciler/backfill.go)
    and the copy of a legacy table (migrate.go).

    A table is the list of its rows, with different identifiers; identifiers are
    their canonical texts, whose byte order is the order of the 16 bytes. The SET
    clause and the extra condition of a batched update are arguments: what they
    compute on a row, or the error Postgres raises. A batch and its checkpoint
    are one transaction. *)
From S2P Require Import Prelude GoStrings GoText Json Condition Context Evaluate Metadata Schema SchemaDiff.

Open Scope string_scope.
Open Scope list_scope.

(** ** The ledger metadata.reconciler_backfill_progress *)

Record Progress : Type := mkProgress {
  pr_cursor : option string;
  pr_completed : bool
}.

(** By tenant, entity and operation. *)
Notation ledger := (gmap (string * string * string) Progress).

Definition uuid_Nil : string := "00000000-0000-0000-0000-000000000000".

Definition loadCursor (l : ledger) (tenant entity opID : string) : string :=
  match l !! (tenant, entity, opID) with
  | Some p => default uuid_Nil (pr_cursor p)
  | None => uuid_Nil
  end.

Definition saveProgress (l : ledger) (tenant entity opID cursor : string) (completed : bool) : ledger :=
  <[(tenant, entity, opID) := mkProgress (Some cursor) completed]> l.

(** The cursor of the row stays. *)
Definition markCompleted (l : ledger) (tenant entity opID : string) : ledger :=
  <[(tenant, entity, opID) := mkProgress (l !! (tenant, entity, opID) ≫= pr_cursor) true]> l.

(** ** Batches *)

Inductive BackfillScope : Type := ScopeSingleTenant | ScopeAllTenants.

Definition backfillBatchSize : nat := 5000.
Definition migrateBatchSize : nat := 5000.

Definition maxUUID (ids : list string) : string :=
  match ids with
  | [] => ""
  | first :: rest => fold_left (fun m id => if str_ltb m id then id else m) rest first
  end.

Section Rows.
Context {Row Error : Type}.
Variable (r_id r_tenant : Row -> string).

Fixpoint insert_row (r : Row) (l : list Row) : list Row :=
  match l with
  | [] => [r]
  | x :: l' => if str_ltb (r_id x) (r_id r) then x :: insert_row r l' else r :: l
  end.
(** ORDER BY id. *)
Definition sort_rows (l : list Row) : list Row := foldr insert_row [] l.

(** WHERE p ORDER BY id LIMIT n. *)
Definition smallest (n : nat) (p : Row -> bool) (rows : list Row) : list Row := take n (sort_rows (List.filter p rows)).

Definition in_scope (scope : BackfillScope) (tenant : string) (r : Row) : bool :=
  match scope with ScopeAllTenants => true | ScopeSingleTenant => String.eqb (r_tenant r) tenant end.

(** WHERE [tenant_id = $2 AND] id > $1 [AND (extra)]. *)
Definition selected (scope : BackfillScope) (tenant cursor : string) (extra : Row -> bool) (r : Row) : bool :=
  in_scope scope tenant r && str_ltb cursor (r_id r) && extra r.

Definition next_batch (scope : BackfillScope) (tenant cursor : string) (extra : Row -> bool) (rows : list Row) : list Row :=
  smallest backfillBatchSize (selected scope tenant cursor extra) rows.

(** UPDATE ... WHERE t.id = batch.id: all rows of the batch, or the first error. *)
Definition update_batch (set : Row -> result Error Row) (ids : list string) (rows : list Row) : result Error (list Row) :=
  mapR (fun r => if bool_decide (r_id r ∈ ids) then set r else Ok r) rows.

(** The state of the loop when it stops: its rows, its ledger, and the error that stopped it. *)
Record BatchResult : Type := mkBatchResult {
  br_rows : list Row;
  br_ledger : ledger;
  br_outcome : result Error ()
}.

(** for { ... }: every turn that goes on moves the cursor past the rows it
    updated; one unit of fuel per row and one more are enough. *)
Fixpoint batch_loop (fuel : nat) (scope : BackfillScope) (tenant entity opID : string)
    (set : Row -> result Error Row) (extra : Row -> bool) (cursor : string) (rows : list Row) (l : ledger) : BatchResult :=
  match fuel with
  | O => mkBatchResult rows l Panic
  | S fuel' =>
    let ids := map r_id (next_batch scope tenant cursor extra rows) in
    match update_batch set ids rows with
    | Ok rows' =>
      match ids with
      | [] => mkBatchResult rows' (markCompleted l tenant entity opID) (Ok tt)
      | _ => batch_loop fuel' scope tenant entity opID set extra (maxUUID ids) rows'
               (saveProgress l tenant entity opID (maxUUID ids) false)
      end
    | Err e => mkBatchResult rows l (Err e)
    | Panic => mkBatchResult rows l Panic
    end
  end.

Definition RunBatchedUpdate (scope : BackfillScope) (tenant entity opID : string)
    (set : Row -> result Error Row) (extra : Row -> bool) (rows : list Row) (l : ledger) : BatchResult :=
  batch_loop (S (length rows)) scope tenant entity opID set extra (loadCursor l tenant entity opID) rows l.

(** ** The copy of a legacy table (migrate.go)

    [entity_of] is the discriminator column of the generic table. *)
Definition MigrateOpID : string := "migrate_generic_to_dedicated".

Definition copy_batch (entity_of : Row -> string) (tenant entity cursor : string) (source : list Row) : list Row :=
  smallest migrateBatchSize
    (fun r => String.eqb (r_tenant r) tenant && String.eqb (entity_of r) entity && str_ltb cursor (r_id r)) source.

(** INSERT ... ON CONFLICT (id) DO NOTHING. *)
Definition insert_missing (dest : list Row) (r : Row) : list Row :=
  if existsb (fun d => String.eqb (r_id d) (r_id r)) dest then dest else dest ++ [r].

Record CopyResult : Type := mkCopyResult {
  cr_dest : list Row;
  cr_ledger : ledger;
  cr_RowsScanned : nat
}.

Fixpoint copy_loop (fuel : nat) (entity_of : Row -> string) (tenant entity cursor : string) (source dest : list Row)
    (l : ledger) (scanned : nat) : option CopyResult :=
  match fuel with
  | O => None
  | S fuel' =>
    let batch := copy_batch entity_of tenant entity cursor source in
    let dest' := fold_left insert_missing batch dest in
    match map r_id batch with
    | [] => Some (mkCopyResult dest' (markCompleted l tenant entity MigrateOpID) scanned)
    | ids => copy_loop fuel' entity_of tenant entity (maxUUID ids) source dest'
               (saveProgress l tenant entity MigrateOpID (maxUUID ids) false) (scanned + length ids)
    end
  end.

Definition CopyGenericRecords (entity_of : Row -> string) (tenant entity : string) (source dest : list Row) (l : ledger)
    : option CopyResult :=
  copy_loop (S (length source)) entity_of tenant entity (loadCursor l tenant entity MigrateOpID) source dest l 0.

End Rows.

(** ** The statements, as texts *)

Definition update_statement (table setClause whereExtra : string) (scope : BackfillScope) : string :=
  let quotedTable := quoteQualifiedIdent table in
  let extra := if String.eqb whereExtra "" then "" else " AND (" +:+ whereExtra +:+ ")" in
  let filter := match scope with ScopeAllTenants => "" | ScopeSingleTenant => "t.tenant_id = $2 AND " end in
  "WITH batch AS (SELECT id FROM " +:+ quotedTable +:+ " t WHERE " +:+ filter +:+ "id > $1" +:+ extra
  +:+ " ORDER BY id LIMIT " +:+ Itoa backfillBatchSize +:+ ") UPDATE " +:+ quotedTable +:+ " t SET " +:+ setClause
  +:+ " FROM batch WHERE t.id = batch.id RETURNING t.id".

Definition heavy_set_clause (column sourceField sqlType : string) : string :=
  quoteIdent column +:+ " = (t.data ->> " +:+ quoteLiteral sourceField +:+ ")::" +:+ sqlType.

(** ** Lemmas: the order of texts *)

Lemma ascii_compare_lt a b : Ascii.compare a b = Lt <-> (Ascii.N_of_ascii a < Ascii.N_of_ascii b)%N.
Proof. unfold Ascii.compare. apply N.compare_lt_iff. Qed.

Lemma ascii_compare_eq a b : Ascii.compare a b = Eq <-> a = b.
Proof. split; [apply Ascii.compare_eq_iff|]. intros ->. unfold Ascii.compare. apply N.compare_refl. Qed.

Lemma str_ltb_irrefl a : str_ltb a a = false.
Proof.
  unfold str_ltb. induction a as [|x a IH]; simpl; [done|].
  by rewrite (proj2 (ascii_compare_eq x x) eq_refl).
Qed.

Lemma str_ltb_trans a b c : str_ltb a b = true -> str_ltb b c = true -> str_ltb a c = true.
Proof.
  unfold str_ltb. revert b c. induction a as [|x a IH]; intros [|y b] [|z c]; simpl; try done.
  destruct (Ascii.compare x y) eqn:E1, (Ascii.compare y z) eqn:E2; try done; intros H1 H2.
  - apply ascii_compare_eq in E1, E2. subst. rewrite (proj2 (ascii_compare_eq z z) eq_refl). by apply (IH b c).
  - apply ascii_compare_eq in E1. subst. by rewrite E2.
  - apply ascii_compare_eq in E2. subst. by rewrite E1.
  - assert (Ascii.compare x z = Lt) as ->; [|done]. rewrite ascii_compare_lt in E1, E2 |- *. by eapply N.lt_trans.
Qed.

Lemma str_ltb_total a b : a <> b -> str_ltb a b = false -> str_ltb b a = true.
Proof.
  unfold str_ltb. intros Hne. rewrite (String.compare_antisym b a). destruct (String.compare a b) eqn:E; simpl; intros H; try done.
  by apply String.compare_eq_iff in E.
Qed.

(** ** Lemmas: batches *)

Section RowLemmas.
Context {Row Error : Type}.
Variable (r_id r_tenant : Row -> string).

Lemma insert_row_perm r l : insert_row r_id r l ≡ₚ r :: l.
Proof. induction l as [|x l IH]; simpl; [done|]. destruct (str_ltb (r_id x) (r_id r)); [|done]. rewrite IH. apply perm_swap. Qed.

Lemma sort_rows_perm l : sort_rows r_id l ≡ₚ l.
Proof. induction l as [|r l IH]; simpl; [done|]. rewrite insert_row_perm. by rewrite IH. Qed.

Definition id_lt (a b : Row) : Prop := str_ltb (r_id a) (r_id b) = true.

Lemma insert_row_sorted r l :
  r_id r ∉ map r_id l -> StronglySorted id_lt l -> StronglySorted id_lt (insert_row r_id r l).
Proof.
  induction l as [|x l IH]; intros Hni Hs; simpl; [by repeat constructor|]. cbn [map] in Hni. apply not_elem_of_cons in Hni as [Hne Hni].
  apply StronglySorted_inv in Hs as [Hs Hall]. destruct (str_ltb (r_id x) (r_id r)) eqn:E.
  - constructor; [by apply IH|]. rewrite insert_row_perm. constructor; [exact E|done].
  - assert (id_lt r x) as Hrx by (apply str_ltb_total; congruence). constructor; [by constructor|]. constructor; [done|].
    eapply Forall_impl; [exact Hall|]. intros y. by apply str_ltb_trans.
Qed.

Lemma sort_rows_sorted l : NoDup (map r_id l) -> StronglySorted id_lt (sort_rows r_id l).
Proof.
  induction l as [|r l IH]; intros Hnd; simpl; [constructor|]. cbn [map] in Hnd. apply NoDup_cons in Hnd as [Hni Hnd].
  apply insert_row_sorted; [|by apply IH]. by rewrite sort_rows_perm.
Qed.

Lemma sorted_split l n x y : StronglySorted id_lt l -> x ∈ take n l -> y ∈ drop n l -> id_lt x y.
Proof.
  revert n. induction l as [|a l IH]; intros [|n] Hs; simpl; try by intros ?%elem_of_nil.
  apply StronglySorted_inv in Hs as [Hs Hall]. intros [->|Hx]%elem_of_cons Hy; [|by apply (IH n)].
  rewrite Forall_forall in Hall. apply Hall. rewrite <- (take_drop n l). apply elem_of_app. by right.
Qed.

Lemma maxUUID_fold rest first :
  let m := fold_left (fun m id => if str_ltb m id then id else m) rest first in
  m ∈ first :: rest /\ (forall id, id ∈ first :: rest -> str_ltb m id = false).
Proof.
  revert first. induction rest as [|x rest IH]; intros first; cbn [fold_left].
  - split; [left|]. intros id ->%list_elem_of_singleton. apply str_ltb_irrefl.
  - destruct (str_ltb first x) eqn:E.
    + destruct (IH x) as [H1 H2]. revert H1 H2. generalize (fold_left (fun m id => if str_ltb m id then id else m) rest x). intros m H1 H2.
      split; [set_solver|]. intros id [->|Hin]%elem_of_cons; [|auto]. apply not_true_iff_false. intros E2.
      pose proof (str_ltb_trans _ _ _ E2 E) as E3. rewrite H2 in E3; [done|left].
    + destruct (IH first) as [H1 H2]. revert H1 H2. generalize (fold_left (fun m id => if str_ltb m id then id else m) rest first). intros m H1 H2.
      split; [set_solver|]. assert (str_ltb m first = false) as H3 by (apply H2; left).
      intros id [->|[->|Hin]%elem_of_cons]%elem_of_cons; [done| |apply H2; by right].
      apply not_true_iff_false. intros E2. destruct (decide (m = first)) as [->|He]; [congruence|].
      apply str_ltb_total in H3; [|done]. pose proof (str_ltb_trans _ _ _ H3 E2). congruence.
Qed.

Lemma maxUUID_spec ids : ids <> [] -> maxUUID ids ∈ ids /\ forall id, id ∈ ids -> str_ltb (maxUUID ids) id = false.
Proof. destruct ids as [|x ids]; [done|]. intros _. apply maxUUID_fold. Qed.

Lemma take_nil_inv {A} n : (0 < n)%nat -> forall l : list A, take n l = [] -> l = [].
Proof. destruct n; [lia|]. by intros _ [|x l]. Qed.

Lemma batch_size_pos : (0 < backfillBatchSize)%nat.
Proof. apply Nat.ltb_lt. vm_compute. reflexivity. Qed.

Lemma smallest_elem n p rows r : r ∈ smallest r_id n p rows -> r ∈ rows /\ p r = true.
Proof.
  intros Hr. assert (r ∈ List.filter p rows) as Hin.
  { rewrite <- (sort_rows_perm (List.filter p rows)), <- (take_drop n (sort_rows _ _)). apply elem_of_app. by left. }
  apply list_elem_of_In, filter_In in Hin as [Hin Hs]. by rewrite <- list_elem_of_In in Hin.
Qed.

Lemma filter_ids_NoDup p rows : NoDup (map r_id rows) -> NoDup (map r_id (List.filter p rows)).
Proof.
  induction rows as [|a rows IH]; [constructor|]. cbn [map List.filter]. intros [Hni Hnd]%NoDup_cons.
  case_match; [|by apply IH]. cbn [map]. apply NoDup_cons. split; [|by apply IH].
  intros (b & Hb & [Hin _]%list_elem_of_In%filter_In)%list_elem_of_fmap. destruct Hni. rewrite Hb. apply list_elem_of_fmap.
  exists b. split; [done|]. by apply list_elem_of_In.
Qed.

(** A selected row is among the first, or comes after all of them. *)
Lemma smallest_split n p rows : (0 < n)%nat -> NoDup (map r_id rows) ->
  forall r, r ∈ rows -> p r = true ->
    r ∈ smallest r_id n p rows \/ (smallest r_id n p rows <> [] /\ str_ltb (maxUUID (map r_id (smallest r_id n p rows))) (r_id r) = true).
Proof.
  intros Hn Hnd r Hr Hsel. unfold smallest. set (l := sort_rows r_id (List.filter p rows)).
  pose proof (filter_ids_NoDup p rows Hnd) as Hnd'.
  assert (r ∈ l) as Hl. { unfold l. rewrite sort_rows_perm. apply list_elem_of_In, filter_In. by rewrite <- list_elem_of_In. }
  rewrite <- (take_drop n l) in Hl. apply elem_of_app in Hl as [Hl|Hl]; [by left|]. right.
  assert (take n l <> []) as Hne.
  { intros He. apply (take_nil_inv _ Hn) in He. rewrite He, drop_nil in Hl. by apply elem_of_nil in Hl. }
  split; [done|]. destruct (maxUUID_spec (map r_id (take n l))) as [Hm _]; [by destruct (take n l)|].
  apply list_elem_of_fmap in Hm as (b & -> & Hb). by apply (sorted_split l n b r (sort_rows_sorted _ Hnd')).
Qed.

Lemma next_batch_split scope tenant cursor extra rows :
  NoDup (map r_id rows) ->
  let batch := next_batch r_id r_tenant scope tenant cursor extra rows in
  forall r, r ∈ rows -> selected r_id r_tenant scope tenant cursor extra r = true ->
    r ∈ batch \/ (batch <> [] /\ str_ltb (maxUUID (map r_id batch)) (r_id r) = true).
Proof. intros Hnd. apply smallest_split; [apply batch_size_pos|done]. Qed.

(** *** A run, wherever it stops *)

Context (scope : BackfillScope) (tenant entity opID : string) (extra : Row -> bool).

Let sel := selected r_id r_tenant scope tenant.

(** The rows a run from [cursor] that stopped at [c] has updated. *)
Definition upto (cursor c : string) (r : Row) : bool := sel cursor extra r && negb (str_ltb c (r_id r)).

Definition keeps_id (set : Row -> result Error Row) : Prop := forall r r', set r = Ok r' -> r_id r' = r_id r.

Lemma mapR_Forall2 {A B} (f : A -> result Error B) l l' : mapR f l = Ok l' -> Forall2 (fun a b => f a = Ok b) l l'.
Proof.
  revert l'. induction l as [|a l IH]; intros l'; cbn [mapR].
  - intros [= <-]. constructor.
  - intros (b & Hb & (bs & Hbs & [= <-])%rbind_ok)%rbind_ok. constructor; auto.
Qed.

Lemma update_batch_rows (set : Row -> result Error Row) ids rows rows' : update_batch r_id set ids rows = Ok rows' ->
  Forall2 (fun r r' => if bool_decide (r_id r ∈ ids) then set r = Ok r' else r' = r) rows rows'.
Proof.
  intros H%mapR_Forall2. eapply Forall2_impl; [exact H|]. intros r r'. simpl. case_bool_decide; [done|]. by intros [= ->].
Qed.

Lemma update_batch_ids set ids rows rows' : keeps_id set -> update_batch r_id set ids rows = Ok rows' -> map r_id rows' = map r_id rows.
Proof.
  intros Hk H%update_batch_rows. induction H as [|r r' rows rows' Hr _ IH]; [done|]. cbn [map]. rewrite IH. f_equal.
  case_bool_decide; [by apply Hk|by subst].
Qed.

Lemma batch_selected cursor rows id : id ∈ map r_id (next_batch r_id r_tenant scope tenant cursor extra rows) ->
  exists r, r ∈ rows /\ r_id r = id /\ sel cursor extra r = true.
Proof.
  intros (r & -> & [Hin Hs]%smallest_elem)%list_elem_of_fmap. eauto.
Qed.

Lemma NoDup_id rows r r' : NoDup (map r_id rows) -> r ∈ rows -> r' ∈ rows -> r_id r = r_id r' -> r = r'.
Proof.
  intros Hnd Hr Hr' He. apply list_elem_of_lookup_1 in Hr as [i Hi], Hr' as [j Hj].
  assert (i = j) as ->; [|congruence]. eapply (NoDup_lookup _ i j (r_id r)); [exact Hnd|..]; rewrite list_lookup_fmap;
    [by rewrite Hi|rewrite Hj; simpl; congruence].
Qed.

(** One turn: a row of the batch was selected and is not selected any more; a
    row outside it is unchanged, and selected after the turn exactly if before. *)
Lemma turn_effect cursor rows set rows1 :
  NoDup (map r_id rows) -> keeps_id set ->
  let ids := map r_id (next_batch r_id r_tenant scope tenant cursor extra rows) in
  ids <> [] -> update_batch r_id set ids rows = Ok rows1 ->
  str_ltb cursor (maxUUID ids) = true /\
  Forall2 (fun r r1 => if bool_decide (r_id r ∈ ids)
    then set r = Ok r1 /\ sel cursor extra r = true /\ str_ltb (maxUUID ids) (r_id r) = false /\ sel (maxUUID ids) extra r1 = false
    else r1 = r /\ sel (maxUUID ids) extra r = sel cursor extra r) rows rows1.
Proof.
  intros Hnd Hk ids Hne Hup. destruct (maxUUID_spec ids Hne) as [Hmax Hle].
  assert (str_ltb cursor (maxUUID ids) = true) as Hcur.
  { apply batch_selected in Hmax as (r & _ & <- & Hs). unfold sel, selected in Hs. by apply andb_prop in Hs as [[_ ?]%andb_prop _]. }
  split; [done|]. apply update_batch_rows in Hup. apply Forall2_same_length_lookup_2; [by apply Forall2_length in Hup|].
  intros i r r1 Hi Hi1. pose proof (Forall2_lookup_lr _ _ _ _ _ _ Hup Hi Hi1) as Hr. simpl in Hr.
  assert (r ∈ rows) as Hin by (by eapply list_elem_of_lookup_2). case_bool_decide as Hid.
  - split; [done|]. pose proof Hid as (r0 & Hr0 & He & Hs)%batch_selected.
    assert (r0 = r) as -> by (by apply (NoDup_id rows)). split; [done|]. split; [by apply Hle|].
    unfold sel, selected. rewrite (Hk _ _ Hr), (Hle _ Hid). by rewrite andb_false_r.
  - split; [done|]. destruct (sel cursor extra r) eqn:Es.
    + destruct (next_batch_split scope tenant cursor extra rows Hnd r Hin Es) as [Hb|[_ Hlt]].
      * destruct Hid. apply list_elem_of_fmap. eauto.
      * fold ids in Hlt. unfold sel, selected in *. apply andb_prop in Es as [[-> _]%andb_prop ->]. by rewrite Hlt.
    + apply not_true_iff_false. intros Hs. apply not_true_iff_false in Es. apply Es. unfold sel, selected in *.
      apply andb_prop in Hs as [[-> Hs]%andb_prop ->]. by rewrite (str_ltb_trans _ _ _ Hcur Hs).
Qed.

Lemma Forall2_refl_id (P : Row -> bool) (Q : Row -> Row -> Prop) rows : (forall r, P r = false) ->
  Forall2 (fun r r' => if P r then Q r r' else r' = r) rows rows.
Proof. intros HP. induction rows; constructor; [by rewrite HP|done]. Qed.

Lemma upto_self cursor r : upto cursor cursor r = false.
Proof. unfold upto, sel, selected. destruct (str_ltb cursor (r_id r)); by rewrite ?andb_false_r. Qed.

Lemma batch_loop_stops fuel set cursor rows l :
  NoDup (map r_id rows) -> keeps_id set -> loadCursor l tenant entity opID = cursor ->
  let res := batch_loop r_id r_tenant fuel scope tenant entity opID set extra cursor rows l in
  exists c, loadCursor (br_ledger res) tenant entity opID = c /\ str_ltb c cursor = false /\
    Forall2 (fun r r' => if upto cursor c r then set r = Ok r' else r' = r) rows (br_rows res) /\
    (br_outcome res = Ok tt -> forall r, r ∈ rows -> sel cursor extra r = true -> str_ltb c (r_id r) = false).
Proof.
  revert cursor rows l. induction fuel as [|fuel IH]; intros cursor rows l Hnd Hk Hl; cbn [batch_loop].
  { exists cursor. split; [done|]. split; [apply str_ltb_irrefl|]. split; [|done]. apply Forall2_refl_id, upto_self. }
  remember (map r_id (next_batch r_id r_tenant scope tenant cursor extra rows)) as ids eqn:Hids.
  destruct (update_batch r_id set ids rows) as [rows1|e|] eqn:Eup; cbn [br_ledger br_rows br_outcome].
  2,3: exists cursor; split; [done|]; split; [apply str_ltb_irrefl|]; split; [apply Forall2_refl_id, upto_self|done].
  destruct ids as [|id ids'] eqn:Eids; cbn [br_ledger br_rows br_outcome].
  - exists cursor. split; [|split; [apply str_ltb_irrefl|split]].
    + revert Hl. unfold loadCursor, markCompleted. rewrite lookup_insert_eq. cbn [pr_cursor].
      destruct (l !! (tenant, entity, opID)) as [p|]; done.
    + assert (rows1 = rows) as ->; [|apply Forall2_refl_id, upto_self].
      apply update_batch_rows in Eup. clear -Eup. induction Eup as [|r r' rows rows' Hr _ IH]; [done|].
      rewrite bool_decide_false in Hr by apply not_elem_of_nil. by subst.
    + intros _ r Hr Hs. destruct (next_batch_split scope tenant cursor extra rows Hnd r Hr Hs) as [Hb|[Hne _]].
      * exfalso. apply (list_elem_of_fmap_2 r_id) in Hb. change (r_id r ∈ map r_id (next_batch r_id r_tenant scope tenant cursor extra rows)) in Hb.
        rewrite <- Hids in Hb. by apply elem_of_nil in Hb.
      * exfalso. apply Hne. symmetry in Hids. by apply map_eq_nil in Hids.
  - rewrite <- Eids in *. assert (ids <> []) as Hne by (by rewrite Eids). clear Eids. subst ids.
    destruct (turn_effect cursor rows set rows1 Hnd Hk Hne Eup) as [Hcur Hturn].
    set (ids := map r_id (next_batch r_id r_tenant scope tenant cursor extra rows)) in *.
    destruct (IH (maxUUID ids) rows1 (saveProgress l tenant entity opID (maxUUID ids) false)) as (c & Hc & Hle & Hrows & Hdone).
    { by rewrite (update_batch_ids _ _ _ _ Hk Eup). }
    { done. }
    { unfold loadCursor, saveProgress. by rewrite lookup_insert_eq. }
    exists c. split; [done|].
    assert (str_ltb cursor c = true) as Hcc.
    { destruct (decide (c = maxUUID ids)) as [->|Hn]; [done|]. apply str_ltb_total in Hle; [|done]. by eapply str_ltb_trans. }
    split; [|split].
    + apply not_true_iff_false. intros Hx. pose proof (str_ltb_trans _ _ _ Hcc Hx) as Hbad. by rewrite str_ltb_irrefl in Hbad.
    + apply Forall2_same_length_lookup_2.
      { apply Forall2_length in Hturn, Hrows. lia. }
      intros i r r' Hi Hi'. destruct (Forall2_lookup_l _ _ _ _ _ Hturn Hi) as (r1 & Hi1 & Ht).
      pose proof (Forall2_lookup_lr _ _ _ _ _ _ Hrows Hi1 Hi') as Hr. simpl in Hr. case_bool_decide as Hid.
      * destruct Ht as (Hset & Hs & Hm & Hs1). unfold upto at 1 in Hr. rewrite Hs1 in Hr. cbn [andb] in Hr. subst r'.
        assert (upto cursor c r = true) as ->; [|done]. unfold upto. rewrite Hs. apply negb_true_iff, not_true_iff_false. intros Hx.
        destruct (decide (c = maxUUID ids)) as [->|Hn]; [congruence|]. apply str_ltb_total in Hle; [|done].
        pose proof (str_ltb_trans _ _ _ Hle Hx). congruence.
      * destruct Ht as [-> Hs]. unfold upto in *. by rewrite Hs in Hr.
    + intros Hok r Hr Hs. apply list_elem_of_lookup_1 in Hr as [i Hi]. destruct (Forall2_lookup_l _ _ _ _ _ Hturn Hi) as (r1 & Hi1 & Ht).
      case_bool_decide as Hid.
      * destruct Ht as (_ & _ & Hm & _). apply not_true_iff_false. intros Hx.
        destruct (decide (c = maxUUID ids)) as [->|Hn]; [congruence|]. apply str_ltb_total in Hle; [|done].
        pose proof (str_ltb_trans _ _ _ Hle Hx). congruence.
      * destruct Ht as [-> Hs1]. apply (Hdone Hok); [by eapply list_elem_of_lookup_2|congruence].
Qed.

(** *** A run that meets no error *)

Lemma filter_length_lt (p p' : Row -> bool) rows rows' :
  Forall2 (fun r r' => p' r' = true -> p r = true) rows rows' ->
  (exists i r r', rows !! i = Some r /\ rows' !! i = Some r' /\ p r = true /\ p' r' = false) ->
  (length (List.filter p' rows') < length (List.filter p rows))%nat.
Proof.
  assert (forall rows rows', Forall2 (fun r r' => p' r' = true -> p r = true) rows rows' ->
    (length (List.filter p' rows') <= length (List.filter p rows))%nat) as Hle.
  { induction 1 as [|r r' l l' Hr _ IH]; simpl; [lia|]. destruct (p' r') eqn:E; [rewrite Hr by done; simpl; lia|].
    destruct (p r); simpl; lia. }
  intros HF. induction HF as [|r r' l l' Hr HF IH]; intros (i & a & a' & Hi & Hi' & Ha & Ha'); [done|].
  destruct i as [|i]; simpl in *.
  - injection Hi as ->. injection Hi' as ->. rewrite Ha, Ha'. simpl. specialize (Hle _ _ HF). lia.
  - assert (length (List.filter p' l') < length (List.filter p l))%nat as Hlt by (apply IH; eauto 8).
    destruct (p' r') eqn:E; [rewrite Hr by done; simpl; lia|]. destruct (p r); simpl; lia.
Qed.

Lemma mapR_total {A B} (f : A -> result Error B) l : (forall a, a ∈ l -> exists b, f a = Ok b) -> exists bs, mapR f l = Ok bs.
Proof.
  induction l as [|a l IH]; intros H; cbn [mapR]; [eauto|]. destruct (H a) as [b ->]; [left|]. cbn [rbind].
  destruct IH as [bs ->]; [intros; apply H; by right|]. cbn [rbind]. eauto.
Qed.

Lemma batch_loop_succeeds fuel (set : Row -> result Error Row) cursor rows l :
  NoDup (map r_id rows) -> keeps_id set -> (length (List.filter (sel cursor extra) rows) < fuel)%nat ->
  (forall r, r ∈ rows -> sel cursor extra r = true -> exists r', set r = Ok r') ->
  let res := batch_loop r_id r_tenant fuel scope tenant entity opID set extra cursor rows l in
  br_outcome res = Ok tt /\ exists c, br_ledger res !! (tenant, entity, opID) = Some (mkProgress c true).
Proof.
  revert cursor rows l. induction fuel as [|fuel IH]; intros cursor rows l Hnd Hk Hfuel Hok; [lia|]. cbn [batch_loop].
  remember (map r_id (next_batch r_id r_tenant scope tenant cursor extra rows)) as ids eqn:Hids.
  destruct (mapR_total (fun r => if bool_decide (r_id r ∈ ids) then set r else Ok r) rows) as [rows1 Eup].
  { intros r Hr. case_bool_decide as Hid; [|eauto]. subst ids. apply batch_selected in Hid as (r0 & Hr0 & He & Hs).
    assert (r0 = r) as -> by (by apply (NoDup_id rows)). by apply Hok. }
  fold (update_batch r_id set ids rows) in Eup. rewrite Eup.
  destruct ids as [|id ids'] eqn:Eids; cbn [br_outcome br_ledger].
  { split; [done|]. eexists. unfold markCompleted. apply lookup_insert_eq. }
  rewrite <- Eids in *. assert (ids <> []) as Hne by (by rewrite Eids). clear Eids. subst ids.
  destruct (turn_effect cursor rows set rows1 Hnd Hk Hne Eup) as [Hcur Hturn].
  set (ids := map r_id (next_batch r_id r_tenant scope tenant cursor extra rows)) in *.
  apply IH; [by rewrite (update_batch_ids _ _ _ _ Hk Eup)|done|..].
  - assert (length (List.filter (sel (maxUUID ids) extra) rows1) < length (List.filter (sel cursor extra) rows))%nat; [|lia].
    apply filter_length_lt.
    + eapply Forall2_impl; [exact Hturn|]. intros r r1. simpl. case_bool_decide; [naive_solver congruence|]. intros [-> <-]. done.
    + destruct (maxUUID_spec ids Hne) as [Hmax _]. pose proof Hmax as (r0 & Hr0 & He & Hs)%batch_selected.
      apply list_elem_of_lookup_1 in Hr0 as [i Hi]. destruct (Forall2_lookup_l _ _ _ _ _ Hturn Hi) as (r1 & Hi1 & Ht).
      rewrite bool_decide_true in Ht by (by rewrite He). destruct Ht as (_ & _ & _ & Hs1). by exists i, r0, r1.
  - intros r1 Hr1 Hs1. apply list_elem_of_lookup_1 in Hr1 as [i Hi1]. destruct (Forall2_lookup_r _ _ _ _ _ Hturn Hi1) as (r & Hi & Ht).
    case_bool_decide.
    + destruct Ht as (_ & _ & _ & Hx). congruence.
    + destruct Ht as [-> Hs]. apply Hok; [by eapply list_elem_of_lookup_2|congruence].
Qed.

Lemma filter_length_le {A} (p : A -> bool) l : (length (List.filter p l) <= length l)%nat.
Proof. induction l as [|a l IH]; simpl; [lia|]. destruct (p a); simpl; lia. Qed.

(** Rows after a run that stopped are rows of before: changed up to the cursor, the same past it. *)
Lemma stopped_rows cursor c (set : Row -> result Error Row) rows rows1 : keeps_id set ->
  Forall2 (fun r r' => if upto cursor c r then set r = Ok r' else r' = r) rows rows1 ->
  map r_id rows1 = map r_id rows.
Proof.
  intros Hk. induction 1 as [|r r' rows rows' Hr _ IH]; [done|]. cbn [map]. rewrite IH. f_equal.
  destruct (upto cursor c r); [by apply Hk|by subst].
Qed.

(** A row after a run that stopped: updated and not selected any more, or the
    same and selected from the stopping point exactly if it was selected before. *)
Lemma stopped_row_cases cursor c (set : Row -> result Error Row) rows rows1 :
  keeps_id set -> str_ltb c cursor = false ->
  Forall2 (fun r r' => if upto cursor c r then set r = Ok r' else r' = r) rows rows1 ->
  forall i r r1, rows !! i = Some r -> rows1 !! i = Some r1 ->
    (upto cursor c r = true /\ set r = Ok r1 /\ sel c extra r1 = false) \/
    (upto cursor c r = false /\ r1 = r /\ sel c extra r = sel cursor extra r).
Proof.
  intros Hk Hle Hrows i r r1 Hi Hi1. pose proof (Forall2_lookup_lr _ _ _ _ _ _ Hrows Hi Hi1) as Hr. simpl in Hr.
  destruct (upto cursor c r) eqn:Eu; [left|right].
  - split; [done|]. split; [done|]. unfold upto in Eu. apply andb_prop in Eu as [_ Hlt%negb_true_iff].
    unfold sel, selected. rewrite (Hk _ _ Hr), Hlt. by rewrite andb_false_r.
  - split; [done|]. split; [done|]. unfold upto in Eu. destruct (sel cursor extra r) eqn:Es; cbn [andb] in Eu.
    + apply negb_false_iff in Eu. unfold sel, selected in *. apply andb_prop in Es as [[-> _]%andb_prop ->]. by rewrite Eu.
    + apply not_true_iff_false. intros Hs. apply not_true_iff_false in Es. apply Es. unfold sel, selected in *.
      apply andb_prop in Hs as [[-> Hs]%andb_prop ->]. destruct (decide (cursor = c)) as [->|Hn]; [by rewrite Hs|].
      apply str_ltb_total in Hle; [|done]. by rewrite (str_ltb_trans _ _ _ Hle Hs).
Qed.

(** A single run without errors. *)
Lemma batched_update_runs (set : Row -> result Error Row) rows l :
  let run := RunBatchedUpdate r_id r_tenant scope tenant entity opID set extra rows l in
  let first := loadCursor l tenant entity opID in
  NoDup (map r_id rows) -> keeps_id set ->
  (forall r, r ∈ rows -> sel first extra r = true -> exists r', set r = Ok r') ->
  br_outcome run = Ok tt /\
  Forall2 (fun r r' => if sel first extra r then set r = Ok r' else r' = r) rows (br_rows run).
Proof.
  intros run first Hnd Hk Hok.
  destruct (batch_loop_succeeds (S (length rows)) set first rows l Hnd Hk) as [Hdone _];
    [pose proof (filter_length_le (sel first extra) rows); lia|done|].
  destruct (batch_loop_stops (S (length rows)) set first rows l Hnd Hk eq_refl) as (c & _ & _ & Hrows & Hall).
  specialize (Hall Hdone). split; [exact Hdone|]. apply Forall2_same_length_lookup_2; [by apply Forall2_length in Hrows|].
  intros i r r' Hi Hi'. pose proof (Forall2_lookup_lr _ _ _ _ _ _ Hrows Hi Hi') as Hr. simpl in Hr. revert Hr. unfold upto.
  destruct (sel first extra r) eqn:Es; [|done]. rewrite (Hall r); [done|by eapply list_elem_of_lookup_2|done].
Qed.

(** A batched update that stops at an error, wherever it stops, is completed
    by running it again: with the error gone the second run ends, marks the
    operation completed, and in the end every row of the scope above the first
    cursor that satisfies the condition has been updated exactly once, and no
    other row has changed. With no error in the first run this describes a single
    run. *)
Lemma batched_update_resumes (set set' : Row -> result Error Row) rows l :
  let run1 := RunBatchedUpdate r_id r_tenant scope tenant entity opID set extra rows l in
  let run2 := RunBatchedUpdate r_id r_tenant scope tenant entity opID set' extra (br_rows run1) (br_ledger run1) in
  let first := loadCursor l tenant entity opID in
  NoDup (map r_id rows) -> keeps_id set -> keeps_id set' ->
  (forall r r', set r = Ok r' -> set' r = Ok r') ->
  (forall r, r ∈ rows -> sel first extra r = true -> exists r', set' r = Ok r') ->
  br_outcome run2 = Ok tt /\
  (exists c, br_ledger run2 !! (tenant, entity, opID) = Some (mkProgress c true)) /\
  Forall2 (fun r r' => if sel first extra r then set' r = Ok r' else r' = r) rows (br_rows run2).
Proof.
  intros run1 run2 first Hnd Hk Hk' Hagree Hok.
  destruct (batch_loop_stops (S (length rows)) set first rows l Hnd Hk eq_refl) as (c & Hc & Hle & Hrows & _).
  change (loadCursor (br_ledger run1) tenant entity opID = c) in Hc.
  change (Forall2 (fun r r' => if upto first c r then set r = Ok r' else r' = r) rows (br_rows run1)) in Hrows.
  assert (NoDup (map r_id (br_rows run1))) as Hnd1 by (by rewrite (stopped_rows _ _ _ _ _ Hk Hrows)).
  pose proof (stopped_row_cases first c set rows (br_rows run1) Hk Hle Hrows) as Hmid.
  assert (forall r1, r1 ∈ br_rows run1 -> sel c extra r1 = true -> exists r', set' r1 = Ok r') as Hok1.
  { intros r1 Hr1 Hs. apply list_elem_of_lookup_1 in Hr1 as [i Hi1]. destruct (Forall2_lookup_r _ _ _ _ _ Hrows Hi1) as (r & Hi & _).
    destruct (Hmid i r r1 Hi Hi1) as [(_ & _ & ?)|(_ & -> & Hs')]; [congruence|]. apply Hok; [by eapply list_elem_of_lookup_2|congruence]. }
  unfold run2, RunBatchedUpdate. rewrite Hc.
  destruct (batch_loop_succeeds (S (length (br_rows run1))) set' c (br_rows run1) (br_ledger run1) Hnd1 Hk') as [Hdone Hledger];
    [pose proof (filter_length_le (sel c extra) (br_rows run1)); lia|done|].
  split; [done|]. split; [done|].
  destruct (batch_loop_stops (S (length (br_rows run1))) set' c (br_rows run1) (br_ledger run1) Hnd1 Hk' Hc) as (c2 & _ & _ & Hrows2 & Hall).
  specialize (Hall Hdone). apply Forall2_same_length_lookup_2.
  { apply Forall2_length in Hrows, Hrows2. lia. }
  intros i r r' Hi Hi'. destruct (Forall2_lookup_l _ _ _ _ _ Hrows Hi) as (r1 & Hi1 & _).
  pose proof (Forall2_lookup_lr _ _ _ _ _ _ Hrows2 Hi1 Hi') as Hr2. simpl in Hr2.
  assert (sel c extra r1 = true -> upto c c2 r1 = true) as Hup.
  { intros Hs. unfold upto. rewrite Hs. rewrite Hall; [done|by eapply list_elem_of_lookup_2|done]. }
  assert (sel c extra r1 = false -> upto c c2 r1 = false) as Hdown by (intros Hs; unfold upto; by rewrite Hs).
  destruct (Hmid i r r1 Hi Hi1) as [(Hu & Hset & Hs)|(Hu & -> & Hs)].
  - rewrite (Hdown Hs) in Hr2. subst r'. unfold upto in Hu. apply andb_prop in Hu as [-> _]. by apply Hagree.
  - rewrite <- Hs. destruct (sel c extra r) eqn:E; [by rewrite (Hup eq_refl) in Hr2|by rewrite (Hdown eq_refl) in Hr2].
Qed.

Lemma batch_loop_nothing fuel (set : Row -> result Error Row) cursor rows l :
  (0 < fuel)%nat -> (forall r, r ∈ rows -> str_ltb cursor (r_id r) = false) ->
  let res := batch_loop r_id r_tenant fuel scope tenant entity opID set extra cursor rows l in
  br_rows res = rows /\ br_outcome res = Ok tt /\ br_ledger res = markCompleted l tenant entity opID.
Proof.
  intros Hfuel Hno. destruct fuel as [|fuel]; [lia|]. cbn [batch_loop].
  assert (next_batch r_id r_tenant scope tenant cursor extra rows = []) as ->.
  { unfold next_batch, smallest. rewrite filter_none; [apply take_nil|]. intros r Hr. unfold selected. rewrite (Hno r Hr).
    by rewrite andb_false_r. }
  cbn [map]. assert (update_batch r_id set [] rows = Ok rows) as ->; [|done].
  unfold update_batch. clear. induction rows as [|r rows IH]; cbn [mapR]; [done|].
  rewrite bool_decide_false by apply not_elem_of_nil. cbn [rbind]. by rewrite IH.
Qed.

(** Once a backfill has completed, running the same operation again repairs
    nothing: it starts from the saved cursor, so whatever was written meanwhile
    to the rows it had covered stays as it is, and the ledger says completed. A
    table whose sync trigger was lost is backfilled this way. *)
Lemma rebackfill_repairs_nothing (set set' : Row -> result Error Row) rows rows' l :
  let run1 := RunBatchedUpdate r_id r_tenant scope tenant entity opID set extra rows l in
  let run2 := RunBatchedUpdate r_id r_tenant scope tenant entity opID set' extra rows' (br_ledger run1) in
  NoDup (map r_id rows) -> keeps_id set -> br_outcome run1 = Ok tt ->
  (forall r, r ∈ rows -> sel (loadCursor l tenant entity opID) extra r = true) ->
  map r_id rows' = map r_id rows ->
  br_rows run2 = rows' /\ br_outcome run2 = Ok tt /\
  exists c, br_ledger run2 !! (tenant, entity, opID) = Some (mkProgress c true).
Proof.
  intros run1 run2 Hnd Hk Hok Hall Hids.
  destruct (batch_loop_stops (S (length rows)) set (loadCursor l tenant entity opID) rows l Hnd Hk eq_refl) as (c & Hc & _ & _ & Hdone).
  change (loadCursor (br_ledger run1) tenant entity opID = c) in Hc. specialize (Hdone Hok).
  unfold run2, RunBatchedUpdate. rewrite Hc.
  destruct (batch_loop_nothing (S (length rows')) set' c rows' (br_ledger run1)) as (-> & -> & ->); [lia| |].
  - intros r Hr. apply (list_elem_of_fmap_2 r_id) in Hr. change (r_id r ∈ map r_id rows') in Hr. rewrite Hids in Hr.
    apply list_elem_of_fmap in Hr as (r0 & -> & Hr0). auto.
  - split; [done|]. split; [done|]. eexists. unfold markCompleted. apply lookup_insert_eq.
Qed.

(** *** The copy of a legacy table *)

Definition copied (entity_of : Row -> string) (cursor : string) (r : Row) : bool :=
  String.eqb (r_tenant r) tenant && String.eqb (entity_of r) entity && str_ltb cursor (r_id r).

Lemma migrate_batch_size_pos : (0 < migrateBatchSize)%nat.
Proof. apply Nat.ltb_lt. vm_compute. reflexivity. Qed.

Lemma insert_missing_fold batch dest :
  let dest' := fold_left (insert_missing r_id) batch dest in
  (forall d, d ∈ dest -> d ∈ dest') /\
  (forall r, r ∈ batch -> exists d, d ∈ dest' /\ r_id d = r_id r) /\
  (forall d, d ∈ dest' -> d ∈ dest \/ d ∈ batch).
Proof.
  revert dest. induction batch as [|r batch IH]; intros dest; cbn [fold_left].
  { split; [done|]. split; [by intros ? ?%elem_of_nil|auto]. }
  destruct (IH (insert_missing r_id dest r)) as (H1 & H2 & H3).
  assert (forall d, d ∈ dest -> d ∈ insert_missing r_id dest r) as Hkeep.
  { intros d Hd. unfold insert_missing. case_match; [done|]. apply elem_of_app. by left. }
  assert (exists d, d ∈ insert_missing r_id dest r /\ r_id d = r_id r) as (d0 & Hd0 & He0).
  { unfold insert_missing. destruct (existsb _ dest) eqn:E.
    - apply existsb_exists in E as (d & Hd%list_elem_of_In & He%String.eqb_eq). eauto.
    - exists r. split; [|done]. apply elem_of_app. right. by apply list_elem_of_singleton. }
  split; [auto|]. split.
  - intros x [->|Hx]%elem_of_cons; [eauto|auto].
  - intros d Hd. destruct (H3 d Hd) as [Hd'|Hd']; [|right; by right].
    unfold insert_missing in Hd'. case_match; [by left|]. apply elem_of_app in Hd' as [?|Hx%list_elem_of_singleton]; [by left|]. subst. right. left.
Qed.

(** The copy of a legacy table ends, and copies every row of the tenant and
    entity past the checkpoint: each is in the new table under its identifier
    (a row that was already there is kept as it was), rows of the new table
    stay, and nothing comes from another tenant or entity. *)
Lemma copy_complete (entity_of : Row -> string) source dest l :
  let cursor := loadCursor l tenant entity MigrateOpID in
  NoDup (map r_id source) ->
  exists res, CopyGenericRecords r_id r_tenant entity_of tenant entity source dest l = Some res /\
    (forall d, d ∈ dest -> d ∈ cr_dest res) /\
    (forall r, r ∈ source -> copied entity_of cursor r = true -> exists d, d ∈ cr_dest res /\ r_id d = r_id r) /\
    (forall d, d ∈ cr_dest res -> d ∈ dest \/ (d ∈ source /\ r_tenant d = tenant /\ entity_of d = entity)).
Proof.
  intros cursor Hnd. unfold CopyGenericRecords. fold cursor.
  assert (forall fuel cur dst lg n, (length (List.filter (copied entity_of cur) source) < fuel)%nat ->
    exists res, copy_loop r_id r_tenant fuel entity_of tenant entity cur source dst lg n = Some res /\
      (forall d, d ∈ dst -> d ∈ cr_dest res) /\
      (forall r, r ∈ source -> copied entity_of cur r = true -> exists d, d ∈ cr_dest res /\ r_id d = r_id r) /\
      (forall d, d ∈ cr_dest res -> d ∈ dst \/ (d ∈ source /\ r_tenant d = tenant /\ entity_of d = entity))) as Hloop;
    [|apply Hloop; pose proof (filter_length_le (copied entity_of cursor) source); lia].
  induction fuel as [|fuel IH]; intros cur dst lg n Hfuel; [lia|]. cbn [copy_loop].
  change (copy_batch r_id r_tenant entity_of tenant entity cur source) with (smallest r_id migrateBatchSize (copied entity_of cur) source).
  set (batch := smallest r_id migrateBatchSize (copied entity_of cur) source).
  destruct (insert_missing_fold batch dst) as (K1 & K2 & K3).
  assert (forall d, d ∈ batch -> d ∈ source /\ r_tenant d = tenant /\ entity_of d = entity) as Hbatch.
  { intros d [Hd [[?%String.eqb_eq ?%String.eqb_eq]%andb_prop _]%andb_prop]%smallest_elem. done. }
  pose proof (smallest_split migrateBatchSize (copied entity_of cur) source migrate_batch_size_pos Hnd) as Hsplit. fold batch in Hsplit.
  destruct (map r_id batch) as [|id ids] eqn:Eids.
  - eexists. split; [done|]. cbn [cr_dest]. split; [done|]. apply map_eq_nil in Eids. split.
    + intros r Hr Hs. destruct (Hsplit r Hr Hs) as [Hb|[Hne _]]; [by apply K2|done].
    + intros d Hd. destruct (K3 d Hd); auto.
  - rewrite <- Eids in Hsplit |- *. assert (map r_id batch <> []) as Hne by (by rewrite Eids). clear Eids.
    destruct (maxUUID_spec (map r_id batch) Hne) as [Hmax Hle]. set (c := maxUUID (map r_id batch)) in *.
    assert (str_ltb cur c = true) as Hcur.
    { apply list_elem_of_fmap in Hmax as (b & Hb & [_ Hs]%smallest_elem). rewrite Hb. by apply andb_prop in Hs as [_ ?]. }
    assert (forall r, copied entity_of c r = true -> copied entity_of cur r = true) as Hdown.
    { intros r [Hr Hlt]%andb_prop. unfold copied. rewrite Hr. by rewrite (str_ltb_trans _ _ _ Hcur Hlt). }
    destruct (IH c (fold_left (insert_missing r_id) batch dst) (saveProgress lg tenant entity MigrateOpID c false) (n + length (map r_id batch))%nat)
      as (res & Hres & H1 & H2 & H3).
    { assert (length (List.filter (copied entity_of c) source) < length (List.filter (copied entity_of cur) source))%nat; [|lia].
      apply filter_length_lt.
      { apply Forall2_same_length_lookup_2; [done|]. intros i x y Hx Hy. assert (x = y) as -> by congruence. apply Hdown. }
      apply list_elem_of_fmap in Hmax as (b & Hb & Hin). pose proof Hin as [Hs Hc]%smallest_elem.
      apply list_elem_of_lookup_1 in Hs as [i Hi]. exists i, b, b. split_and!; try done. unfold copied. rewrite <- Hb, str_ltb_irrefl.
      by rewrite andb_false_r. }
    exists res. split; [done|]. split; [auto|]. split.
    + intros r Hr Hs. destruct (Hsplit r Hr Hs) as [Hb|[_ Hlt]].
      * destruct (K2 r Hb) as (d & Hd & He). eauto.
      * apply H2; [done|]. unfold copied in *. apply andb_prop in Hs as [-> _]. exact Hlt.
    + intros d Hd. destruct (H3 d Hd) as [Hd'|?]; [|auto]. destruct (K3 d Hd'); auto.
Qed.

End RowLemmas.

(** ** On concrete rows *)

Record test_row : Type := mkTestRow { tr_id : string; tr_tenant : string; tr_data : string; tr_column : string }.

(** SET column = data ->> 'field', a value that does not cast failing. *)
Definition sync_column (r : test_row) : result string test_row :=
  if String.eqb (tr_data r) "bad" then Err "22P02" else Ok (mkTestRow (tr_id r) (tr_tenant r) (tr_data r) (tr_data r)).
Definition sync_any (r : test_row) : result string test_row := Ok (mkTestRow (tr_id r) (tr_tenant r) (tr_data r) (tr_data r)).

Definition test_rows : list test_row :=
  [mkTestRow "b" "t1" "bad" ""; mkTestRow "a" "t1" "x" ""; mkTestRow "c" "t2" "y" ""].

Lemma sync_column_id : keeps_id tr_id sync_column.
Proof. intros r r'. unfold sync_column. destruct (String.eqb (tr_data r) "bad"); [done|]. by intros [= <-]. Qed.
Lemma sync_any_id : keeps_id tr_id sync_any.
Proof. by intros r r' [= <-]. Qed.
Lemma test_rows_ids : NoDup (map tr_id test_rows).
Proof. apply (bool_decide_unpack _). vm_compute. exact I. Qed.

Lemma batched_update_resumes_witness :
  let run1 := RunBatchedUpdate tr_id tr_tenant ScopeSingleTenant "t1" "orders" "op" sync_column (fun _ => true) test_rows ∅ in
  let run2 := RunBatchedUpdate tr_id tr_tenant ScopeSingleTenant "t1" "orders" "op" sync_any (fun _ => true) (br_rows run1) (br_ledger run1) in
  br_outcome run1 = Err "22P02" /\ br_outcome run2 = Ok tt.
Proof.
  split; [vm_compute; reflexivity|].
  refine (proj1 (batched_update_resumes tr_id tr_tenant ScopeSingleTenant "t1" "orders" "op" (fun _ => true) sync_column sync_any test_rows ∅ _ _ _ _ _)).
  - exact test_rows_ids.
  - exact sync_column_id.
  - exact sync_any_id.
  - intros r r'. unfold sync_column. destruct (String.eqb (tr_data r) "bad"); [discriminate|]. intros H. exact H.
  - intros r _ _. eexists. reflexivity.
Defined.

Lemma rebackfill_repairs_nothing_witness :
  let rows := [mkTestRow "a" "t1" "x" ""] in
  let stale := [mkTestRow "a" "t1" "new" "x"] in
  let run1 := RunBatchedUpdate tr_id tr_tenant ScopeSingleTenant "t1" "orders" "op" sync_any (fun _ => true) rows ∅ in
  br_rows (RunBatchedUpdate tr_id tr_tenant ScopeSingleTenant "t1" "orders" "op" sync_any (fun _ => true) stale (br_ledger run1)) = stale.
Proof.
  refine (proj1 (rebackfill_repairs_nothing tr_id tr_tenant ScopeSingleTenant "t1" "orders" "op" (fun _ => true) sync_any sync_any
    [mkTestRow "a" "t1" "x" ""] _ ∅ _ _ _ _ _)).
  - apply (bool_decide_unpack _). vm_compute. exact I.
  - exact sync_any_id.
  - vm_compute. reflexivity.
  - intros r Hr. apply list_elem_of_singleton in Hr. subst. vm_compute. reflexivity.
  - reflexivity.
Defined.

Lemma copy_complete_witness :
  exists res, CopyGenericRecords tr_id tr_tenant tr_data "t1" "x" test_rows [] ∅ = Some res /\
    exists d, d ∈ cr_dest res /\ tr_id d = "a".
Proof.
  destruct (copy_complete tr_id tr_tenant "t1" "x" tr_data test_rows [] ∅ test_rows_ids) as (res & Hres & _ & H2 & _).
  exists res. split; [exact Hres|]. refine (H2 (mkTestRow "a" "t1" "x" "") _ _); [right; left|vm_compute; reflexivity].
Defined.
