(* ===== verification/Migration.v ===== *)
(** Declared changes of the data of an entity (src/go/reconciler/migration.go)
    and the rows that cannot follow them (quarantine.go).

    A row is its identifier, its tenant and its jsonb document. Every operation
    is given as the SQL text the source builds and as what that text computes on
    a row. Postgres's casts are a parameter: [cast_json text type] is
    to_jsonb(text::type), [None] where the input is not valid for the type, which
    is what pg_input_is_valid tells. *)
From S2P Require Import Prelude GoStrings GoText Json Condition Context Evaluate Metadata Schema SchemaDiff Backfill.

Open Scope string_scope.
Open Scope list_scope.

(** ** Operations and policies *)

Inductive MigrationOp : Type :=
| MigRenameField (from to : string)
| MigAddField (name : string) (default : option json)
| MigWidenType (field toSQLType : string)
| MigDropField (field : string) (keepData : bool)
| MigRemoveEnum (field value remapTo : string).

(** The fallback of a coercion is the decoded document; [None] is a text that does not decode. *)
Inductive QuarantinePolicy : Type :=
| PolicyBlock
| PolicyCoerce (fallback : option json)
| PolicyQuarantine.

Inductive MigrationError : Type :=
| FallbackNotDecodable
| FallbackNotScalar
| MigrationBlocked (badRows : nat)
| InvalidInput
| QuarantineConflict (id : string)
| QuarantineNotFound (id : string).

Definition scalarFallbackText (raw : option json) : result MigrationError string :=
  match raw with
  | None => Err FallbackNotDecodable
  | Some (JStr s) => Ok s
  | Some (JBool b) => Ok (FormatBool b)
  | Some (JNum lit) => Ok lit
  | Some _ => Err FallbackNotScalar
  end.

(** ** The SQL texts *)

Definition fkOrphanPredicate (fk : FkSpec) : string :=
  let col := quoteIdent (fk_Column fk) in
  "t." +:+ col +:+ " IS NOT NULL AND NOT EXISTS (SELECT 1 FROM " +:+ quoteQualifiedIdent (fk_RefTable fk)
  +:+ " r WHERE r." +:+ quoteIdent (fk_RefColumn fk) +:+ " = t." +:+ col +:+ ")".

Definition badRowPredicate (op : MigrationOp) : option string :=
  match op with
  | MigWidenType field toSQLType =>
    let f := quoteLiteral field in
    Some ("jsonb_typeof(t.data -> " +:+ f +:+ ") = 'string' AND NOT pg_input_is_valid(t.data ->> " +:+ f +:+ ", "
          +:+ quoteLiteral toSQLType +:+ ")")
  | _ => None
  end.

(** (setClause, whereExtra), or [None] when there is nothing to run. *)
Definition applySQL (op : MigrationOp) (policy : QuarantinePolicy) : result MigrationError (option (string * string)) :=
  match op with
  | MigRenameField from to =>
    let fromLit := quoteLiteral from in
    Ok (Some ("data = (t.data - " +:+ fromLit +:+ ") || jsonb_build_object(" +:+ quoteLiteral to +:+ ", t.data -> " +:+ fromLit +:+ ")",
              "t.data ? " +:+ fromLit))
  | MigAddField name None => Ok None
  | MigAddField name (Some d) =>
    let nameLit := quoteLiteral name in
    Ok (Some ("data = jsonb_set(t.data, ARRAY[" +:+ nameLit +:+ "], " +:+ quoteLiteral (json_text d) +:+ "::jsonb, true)",
              "NOT (t.data ? " +:+ nameLit +:+ ")"))
  | MigWidenType field toSQLType =>
    let f := quoteLiteral field in
    let! castExpr :=
      match policy with
      | PolicyCoerce fallback =>
        let! fallbackText := scalarFallbackText fallback in
        Ok ("CASE WHEN pg_input_is_valid(t.data ->> " +:+ f +:+ ", " +:+ quoteLiteral toSQLType +:+ ") THEN (t.data ->> " +:+ f
            +:+ ")::" +:+ toSQLType +:+ " ELSE " +:+ quoteLiteral fallbackText +:+ "::" +:+ toSQLType +:+ " END")
      | _ => Ok ("(t.data ->> " +:+ f +:+ ")::" +:+ toSQLType)
      end in
    Ok (Some ("data = jsonb_set(t.data, ARRAY[" +:+ f +:+ "], to_jsonb((" +:+ castExpr +:+ ")))",
              "jsonb_typeof(t.data -> " +:+ f +:+ ") = 'string'"))
  | MigDropField field true => Ok None
  | MigDropField field false =>
    let f := quoteLiteral field in
    Ok (Some ("data = t.data - " +:+ f, "t.data ? " +:+ f))
  | MigRemoveEnum field value remapTo =>
    let f := quoteLiteral field in
    Ok (Some ("data = jsonb_set(t.data, ARRAY[" +:+ f +:+ "], to_jsonb(" +:+ quoteLiteral remapTo +:+ "::text))",
              "t.data ->> " +:+ f +:+ " = " +:+ quoteLiteral value))
  end.

(** ** What the texts compute *)

Class PgCasts := {
  cast_json : string -> string -> option json;
  jsonb_as_text : json -> string
}.

Record MRow : Type := mkMRow { m_id : string; m_tenant : string; m_data : gmap string json }.

Record QRow : Type := mkQRow {
  q_id : string;
  q_tenant : string;
  q_original_data : gmap string json;
  q_migration_id : string;
  q_reason : string;
  q_resolved : bool
}.

Record MDb : Type := mkMDb {
  md_rows : list MRow;
  md_quarantine : list QRow;
  md_ledger : ledger
}.

Section Migrations.
Context `{PgCasts}.

(** data ->> key. *)
Definition arrow_text (data : gmap string json) (key : string) : option string :=
  match data !! key with
  | None | Some JNull => None
  | Some (JStr s) => Some s
  | Some v => Some (jsonb_as_text v)
  end.

Definition is_json_string (v : option json) : bool := match v with Some (JStr _) => true | _ => false end.

Definition with_data (r : MRow) (d : gmap string json) : MRow := mkMRow (m_id r) (m_tenant r) d.

(** badRowPredicate. *)
Definition bad_row (op : MigrationOp) (r : MRow) : bool :=
  match op with
  | MigWidenType field ty =>
    match m_data r !! field with
    | Some (JStr s) => match cast_json s ty with None => true | Some _ => false end
    | _ => false
    end
  | _ => false
  end.

(** The extra condition of applySQL. *)
Definition mig_where (op : MigrationOp) (r : MRow) : bool :=
  match op with
  | MigRenameField from _ => has (m_data r) from
  | MigAddField name _ => negb (has (m_data r) name)
  | MigWidenType field _ => is_json_string (m_data r !! field)
  | MigDropField field _ => has (m_data r) field
  | MigRemoveEnum field value _ =>
    match arrow_text (m_data r) field with Some v => String.eqb v value | None => false end
  end.

(** The SET clause of applySQL. *)
Definition mig_set (op : MigrationOp) (policy : QuarantinePolicy) (r : MRow) : result MigrationError MRow :=
  match op with
  | MigRenameField from to =>
    Ok (with_data r (<[to := default JNull (m_data r !! from)]> (delete from (m_data r))))
  | MigAddField name d => Ok (with_data r (<[name := default JNull d]> (m_data r)))
  | MigWidenType field ty =>
    let text := default "" (arrow_text (m_data r) field) in
    match cast_json text ty with
    | Some v => Ok (with_data r (<[field := v]> (m_data r)))
    | None =>
      match policy with
      | PolicyCoerce fallback =>
        let! fallbackText := scalarFallbackText fallback in
        match cast_json fallbackText ty with
        | Some v => Ok (with_data r (<[field := v]> (m_data r)))
        | None => Err InvalidInput
        end
      | _ => Err InvalidInput
      end
    end
  | MigDropField field _ => Ok (with_data r (delete field (m_data r)))
  | MigRemoveEnum field _ remapTo => Ok (with_data r (<[field := JStr remapTo]> (m_data r)))
  end.

(** ** Preflight and quarantine *)

Definition Preflight (tenant : string) (op : MigrationOp) (rows : list MRow) : nat :=
  match badRowPredicate op with
  | None => 0
  | Some _ => length (List.filter (fun r => String.eqb (m_tenant r) tenant && bad_row op r) rows)
  end.

Record QuarantineOutcome : Type := mkQuarantineOutcome { qo_Quarantined : nat; qo_SkippedReferenced : nat }.

Definition is_row (id tenant : string) (r : MRow) : bool := String.eqb (m_id r) id && String.eqb (m_tenant r) tenant.

(** The loop over the candidates: one transaction each. [referenced] tells the
    rows whose deletion a RESTRICT foreign key refuses. *)
Fixpoint quarantine_rows (referenced : string -> bool) (tenant migrationID reason : string) (ids : list string)
    (db : MDb) (out : QuarantineOutcome) : MDb * result MigrationError QuarantineOutcome :=
  match ids with
  | [] => (db, Ok out)
  | id :: ids' =>
    match List.find (is_row id tenant) (md_rows db) with
    | None => quarantine_rows referenced tenant migrationID reason ids' db out
    | Some r =>
      if referenced id
      then quarantine_rows referenced tenant migrationID reason ids' db
             (mkQuarantineOutcome (qo_Quarantined out) (S (qo_SkippedReferenced out)))
      else if existsb (fun q => String.eqb (q_id q) id) (md_quarantine db) then (db, Err (QuarantineConflict id))
      else
        let db' := mkMDb (List.filter (fun x => negb (is_row id (m_tenant r) x)) (md_rows db))
                     (md_quarantine db ++ [mkQRow id (m_tenant r) (m_data r) migrationID reason false]) (md_ledger db) in
        quarantine_rows referenced tenant migrationID reason ids' db'
          (mkQuarantineOutcome (S (qo_Quarantined out)) (qo_SkippedReferenced out))
    end
  end.

Definition QuarantineBadRows (referenced : string -> bool) (tenant : string) (op : MigrationOp) (migrationID reason : string)
    (db : MDb) : MDb * result MigrationError QuarantineOutcome :=
  let candidateIDs := map m_id (List.filter (fun r => String.eqb (m_tenant r) tenant && bad_row op r) (md_rows db)) in
  quarantine_rows referenced tenant migrationID reason candidateIDs db (mkQuarantineOutcome 0 0).

(** Resolve: the corrected document goes back under the row's identifier. *)
Definition Resolve (id : string) (correctedData : gmap string json) (db : MDb) : MDb * result MigrationError () :=
  match List.find (fun q => String.eqb (q_id q) id && negb (q_resolved q)) (md_quarantine db) with
  | None => (db, Err (QuarantineNotFound id))
  | Some q =>
    if existsb (fun r => String.eqb (m_id r) id) (md_rows db) then (db, Err (QuarantineConflict id))
    else
      (mkMDb (md_rows db ++ [mkMRow id (q_tenant q) correctedData])
         (map (fun x => if String.eqb (q_id x) id
                        then mkQRow (q_id x) (q_tenant x) (q_original_data x) (q_migration_id x) (q_reason x) true else x)
            (md_quarantine db)) (md_ledger db), Ok tt)
  end.

Record MigrationOutcome : Type := mkMigrationOutcome { mo_Quarantined : nat; mo_SkippedReferenced : nat }.

(** The batched transform of the rows that still need it. *)
Definition run_transform (tenant entity table : string) (op : MigrationOp) (policy : QuarantinePolicy) (migrationID : string)
    (db : MDb) (outcome : MigrationOutcome) : MDb * result MigrationError MigrationOutcome :=
  let opID := "migration:" +:+ table +:+ ":" +:+ migrationID in
  match applySQL op policy with
  | Err e => (db, Err e)
  | Panic => (db, Panic)
  | Ok None => (db, Ok outcome)
  | Ok (Some _) =>
    let res := RunBatchedUpdate m_id m_tenant ScopeSingleTenant tenant entity opID (mig_set op policy) (mig_where op)
                 (md_rows db) (md_ledger db) in
    (mkMDb (br_rows res) (md_quarantine db) (br_ledger res), let! _ := br_outcome res in Ok outcome)
  end.

Definition RunMigration (referenced : string -> bool) (tenant entity table : string) (op : MigrationOp) (policy : QuarantinePolicy)
    (migrationID : string) (db : MDb) : MDb * result MigrationError MigrationOutcome :=
  let badRows := Preflight tenant op (md_rows db) in
  if (badRows =? 0)%nat then run_transform tenant entity table op policy migrationID db (mkMigrationOutcome 0 0)
  else
    match policy with
    | PolicyBlock => (db, Err (MigrationBlocked badRows))
    | PolicyCoerce _ => run_transform tenant entity table op policy migrationID db (mkMigrationOutcome 0 0)
    | PolicyQuarantine =>
      match QuarantineBadRows referenced tenant op migrationID "migration_preflight_failed" db with
      | (db', Ok q) => run_transform tenant entity table op policy migrationID db' (mkMigrationOutcome (qo_Quarantined q) (qo_SkippedReferenced q))
      | (db', Err e) => (db', Err e)
      | (db', Panic) => (db', Panic)
      end
    end.

(** ** Lemmas *)

Lemma mig_set_id op policy : keeps_id m_id (mig_set op policy).
Proof.
  intros r r'. destruct op; cbn [mig_set]; try by intros [= <-].
  destruct (cast_json _ _); [by intros [= <-]|]. destruct policy; try done.
  intros (txt & _ & Hr)%rbind_ok. destruct (cast_json txt _); [by injection Hr as <-|done].
Qed.

Lemma is_row_spec id tenant r : is_row id tenant r = true <-> m_id r = id /\ m_tenant r = tenant.
Proof. unfold is_row. by rewrite andb_true_iff, !String.eqb_eq. Qed.

Definition quarantined (tenant migrationID reason : string) (r : MRow) : QRow :=
  mkQRow (m_id r) (m_tenant r) (m_data r) migrationID reason false.

Lemma filter_filter {A} (p q : A -> bool) l : List.filter p (List.filter q l) = List.filter (fun x => q x && p x) l.
Proof. induction l as [|x l IH]; simpl; [done|]. destruct (q x), (p x) eqn:Ep; simpl; rewrite ?Ep, IH; done. Qed.

Lemma filter_ext_In {A} (p q : A -> bool) l : (forall x, x ∈ l -> p x = q x) -> List.filter p l = List.filter q l.
Proof.
  induction l as [|x l IH]; intros H'; simpl; [done|]. rewrite (H' x) by left. rewrite IH; [done|]. intros y Hy. apply H'. by right.
Qed.

(** Rows that nothing refers to, moved one by one. *)
Lemma quarantine_rows_all referenced tenant migrationID reason (moved : list MRow) db out :
  NoDup (map m_id (md_rows db)) -> NoDup (map m_id moved) ->
  (forall r, r ∈ moved -> r ∈ md_rows db /\ m_tenant r = tenant /\ referenced (m_id r) = false /\
     (forall q, q ∈ md_quarantine db -> q_id q <> m_id r)) ->
  quarantine_rows referenced tenant migrationID reason (map m_id moved) db out =
  (mkMDb (List.filter (fun x => negb (bool_decide (m_id x ∈ map m_id moved))) (md_rows db))
     (md_quarantine db ++ map (quarantined tenant migrationID reason) moved) (md_ledger db),
   Ok (mkQuarantineOutcome (qo_Quarantined out + length moved) (qo_SkippedReferenced out))).
Proof.
  revert db out. induction moved as [|r moved IH]; intros db out Hnd Hndm Hmoved.
  { cbn [map quarantine_rows length]. rewrite app_nil_r, Nat.add_0_r, filter_all; [by destruct db, out|].
    intros x _. rewrite bool_decide_false; [done|apply not_elem_of_nil]. }
  cbn [map quarantine_rows]. cbn [map] in Hndm. apply NoDup_cons in Hndm as [Hni Hndm].
  destruct (Hmoved r) as (Hr & Ht & Href & Hq); [left|].
  assert (List.find (is_row (m_id r) tenant) (md_rows db) = Some r) as ->.
  { destruct (List.find _ _) as [r'|] eqn:E.
    - apply List.find_some in E as [Hin [He _]%is_row_spec]. f_equal. apply (NoDup_id m_id (md_rows db)); auto. by apply list_elem_of_In.
    - apply list_elem_of_In in Hr. pose proof (List.find_none _ _ E r Hr) as Hn. cbv beta in Hn.
      rewrite (proj2 (is_row_spec _ _ _)) in Hn by done. done. }
  rewrite Href.
  assert (existsb (fun q => String.eqb (q_id q) (m_id r)) (md_quarantine db) = false) as ->.
  { apply not_true_iff_false. intros (q & Hqin%list_elem_of_In & He%String.eqb_eq)%existsb_exists. by apply (Hq q). }
  assert (List.filter (fun x => negb (is_row (m_id r) (m_tenant r) x)) (md_rows db) =
          List.filter (fun x => negb (bool_decide (m_id x = m_id r))) (md_rows db)) as ->.
  { apply filter_ext_In. intros x Hx. f_equal. apply eq_true_iff_eq. rewrite is_row_spec, bool_decide_eq_true. split; [by intros []|].
    intros He. split; [done|]. by rewrite (NoDup_id m_id (md_rows db) x r Hnd Hx Hr He). }
  rewrite IH; cbn [md_rows md_quarantine md_ledger qo_Quarantined qo_SkippedReferenced].
  - f_equal; [|f_equal; f_equal; simpl; lia]. f_equal.
    + rewrite filter_filter. apply filter_ext_In. intros x _.
      apply eq_true_iff_eq. by rewrite andb_true_iff, !negb_true_iff, !bool_decide_eq_false, not_elem_of_cons.
    + cbn [map]. by rewrite <- app_assoc.
  - by apply filter_ids_NoDup.
  - done.
  - intros x Hx. destruct (Hmoved x) as (Hxr & Hxt & Hxref & Hxq); [by right|].
    assert (m_id x <> m_id r) as Hne. { intros He. apply Hni. rewrite <- He. apply list_elem_of_fmap. eauto. }
    split; [|split; [done|split; [done|]]].
    + apply list_elem_of_In, filter_In. rewrite <- list_elem_of_In. split; [done|]. by rewrite bool_decide_false.
    + intros q [Hq'|Hq'%list_elem_of_singleton]%elem_of_app; [by apply Hxq|]. subst q. cbn. congruence.
Qed.

(** The rows a widening cannot follow. *)
Definition bad_rows (tenant : string) (op : MigrationOp) (rows : list MRow) : list MRow :=
  List.filter (fun r => String.eqb (m_tenant r) tenant && bad_row op r) rows.

Definition stays (tenant : string) (op : MigrationOp) (r : MRow) : bool := negb (String.eqb (m_tenant r) tenant && bad_row op r).

Lemma QuarantineBadRows_all referenced tenant op migrationID reason db :
  NoDup (map m_id (md_rows db)) ->
  (forall r, r ∈ bad_rows tenant op (md_rows db) -> referenced (m_id r) = false /\ (forall q, q ∈ md_quarantine db -> q_id q <> m_id r)) ->
  QuarantineBadRows referenced tenant op migrationID reason db =
  (mkMDb (List.filter (stays tenant op) (md_rows db))
     (md_quarantine db ++ map (quarantined tenant migrationID reason) (bad_rows tenant op (md_rows db))) (md_ledger db),
   Ok (mkQuarantineOutcome (length (bad_rows tenant op (md_rows db))) 0)).
Proof.
  intros Hnd Hfree. unfold QuarantineBadRows. fold (bad_rows tenant op (md_rows db)). rewrite quarantine_rows_all; [|done|by apply filter_ids_NoDup|].
  - f_equal. f_equal. apply filter_ext_In. intros x Hx. unfold stays. f_equal. apply eq_true_iff_eq. rewrite bool_decide_eq_true. split.
    + intros (y & He & Hy)%list_elem_of_fmap. pose proof Hy as [Hyin Hyb]%list_elem_of_In%filter_In.
      rewrite (NoDup_id m_id (md_rows db) x y Hnd Hx); [done|by apply list_elem_of_In|done].
    + intros Hb. apply list_elem_of_fmap. exists x. split; [done|]. apply list_elem_of_In, filter_In. by rewrite <- list_elem_of_In.
  - intros r Hr. destruct (Hfree r Hr). pose proof Hr as [Hin [Ht%String.eqb_eq _]%andb_prop]%list_elem_of_In%filter_In.
    rewrite <- list_elem_of_In in Hin. done.
Qed.

(** A widening of a row that is not bad. *)
Lemma mig_set_widen_ok field ty policy r :
  mig_where (MigWidenType field ty) r = true -> bad_row (MigWidenType field ty) r = false ->
  exists v, mig_set (MigWidenType field ty) policy r = Ok (with_data r (<[field := v]> (m_data r))).
Proof.
  cbn [mig_where bad_row mig_set]. unfold arrow_text. destruct (m_data r !! field) as [[]|]; try done.
  intros _. cbn [default from_option id]. destruct (cast_json s ty) eqn:E; [|done]. eauto.
Qed.

(** The row a widening makes of one it can follow. *)
Definition widened (field ty : string) (r r' : MRow) : Prop :=
  match m_data r !! field with
  | Some (JStr text) => exists v, cast_json text ty = Some v /\ r' = with_data r (<[field := v]> (m_data r))
  | _ => r' = r
  end.

Definition migration_op_id (table migrationID : string) : string := "migration:" +:+ table +:+ ":" +:+ migrationID.

Lemma transform_clean tenant entity table field ty policy migrationID db outcome :
  let op := MigWidenType field ty in
  NoDup (map m_id (md_rows db)) -> is_ok (applySQL op policy) = true ->
  (forall r, r ∈ md_rows db -> stays tenant op r = true) ->
  (forall r, r ∈ md_rows db -> str_ltb (loadCursor (md_ledger db) tenant entity (migration_op_id table migrationID)) (m_id r) = true) ->
  exists rows l, run_transform tenant entity table op policy migrationID db outcome = (mkMDb rows (md_quarantine db) l, Ok outcome) /\
    Forall2 (fun r r' => if String.eqb (m_tenant r) tenant then widened field ty r r' else r' = r) (md_rows db) rows.
Proof.
  intros op Hnd Happ Hstay Hcur. unfold run_transform.
  assert (exists st, applySQL op policy = Ok (Some st)) as [st ->].
  { revert Happ. cbn [applySQL op]. destruct policy as [|fb|]; cbn [rbind]; try (intros _; eauto; fail).
    destruct (scalarFallbackText fb); cbn [rbind]; [eauto|done|done]. }
  destruct (batched_update_runs m_id m_tenant ScopeSingleTenant tenant entity (migration_op_id table migrationID) (mig_where op)
    (mig_set op policy) (md_rows db) (md_ledger db) Hnd (mig_set_id op policy)) as [Hok Hrows].
  { intros r Hr [[Ht _]%andb_prop Hw]%andb_prop. specialize (Hstay r Hr). unfold stays in Hstay. simpl in Ht. rewrite Ht in Hstay.
    cbn [andb] in Hstay. apply negb_true_iff in Hstay. destruct (mig_set_widen_ok field ty policy r Hw Hstay) as [v Hv]. eexists. exact Hv. }
  unfold migration_op_id in *. rewrite Hok. do 2 eexists. split; [reflexivity|].
  apply Forall2_same_length_lookup_2; [by apply Forall2_length in Hrows|].
  intros i r r' Hi Hi'. pose proof (Forall2_lookup_lr _ _ _ _ _ _ Hrows Hi Hi') as Hr. simpl in Hr. revert Hr.
  assert (r ∈ md_rows db) as Hin by (by eapply list_elem_of_lookup_2). unfold selected, in_scope. rewrite (Hcur r Hin), andb_true_r.
  specialize (Hstay r Hin). unfold stays in Hstay. destruct (String.eqb (m_tenant r) tenant); [|done]. cbn [andb] in *.
  apply negb_true_iff in Hstay. unfold widened. cbn [mig_where bad_row op] in *. unfold is_json_string, arrow_text.
  destruct (m_data r !! field) as [[]|] eqn:Ed; try done. cbn [default from_option id].
  destruct (cast_json s ty) as [v|] eqn:E; [|done]. intros [= <-]. eauto.
Qed.

(** Widening a field's type under the quarantine policy, when nothing refers
    to the rows that cannot follow: the migration succeeds; exactly the rows of
    the tenant whose text is not valid for the type are moved to the quarantine,
    with their documents as they were; every other row of the tenant holding a
    text gets the converted value; no row is lost and no other row changes. *)
Lemma quarantine_migration_exact referenced tenant entity table field ty migrationID db :
  let op := MigWidenType field ty in
  let bad := bad_rows tenant op (md_rows db) in
  NoDup (map m_id (md_rows db)) ->
  (forall r, r ∈ md_rows db -> str_ltb (loadCursor (md_ledger db) tenant entity (migration_op_id table migrationID)) (m_id r) = true) ->
  (forall r, r ∈ bad -> referenced (m_id r) = false /\ (forall q, q ∈ md_quarantine db -> q_id q <> m_id r)) ->
  exists rows l,
    RunMigration referenced tenant entity table op PolicyQuarantine migrationID db =
      (mkMDb rows (md_quarantine db ++ map (quarantined tenant migrationID "migration_preflight_failed") bad) l,
       Ok (mkMigrationOutcome (length bad) 0)) /\
    Forall2 (fun r r' => if String.eqb (m_tenant r) tenant then widened field ty r r' else r' = r)
      (List.filter (stays tenant op) (md_rows db)) rows.
Proof.
  intros op bad Hnd Hcur Hfree. unfold RunMigration. change (Preflight tenant op (md_rows db)) with (length bad).
  assert (forall x, x ∈ List.filter (stays tenant op) (md_rows db) -> x ∈ md_rows db /\ stays tenant op x = true) as Hstay.
  { intros x [Hx Hs]%list_elem_of_In%filter_In. by rewrite <- list_elem_of_In in Hx. }
  destruct (Nat.eqb_spec (length bad) 0) as [H0|Hn].
  - assert (bad = []) as Hb by (by apply nil_length_inv). rewrite Hb. cbn [map length]. rewrite app_nil_r.
    assert (List.filter (stays tenant op) (md_rows db) = md_rows db) as ->.
    { apply filter_all. intros x Hx. unfold stays. apply negb_true_iff, not_true_iff_false. intros Hbad.
      assert (x ∈ bad) as Hxb by (apply list_elem_of_In, filter_In; by rewrite <- list_elem_of_In). rewrite Hb in Hxb. by apply elem_of_nil in Hxb. }
    apply transform_clean; try done. intros r Hr. unfold stays. apply negb_true_iff, not_true_iff_false. intros Hbad.
    assert (r ∈ bad) as Hxb by (apply list_elem_of_In, filter_In; by rewrite <- list_elem_of_In). rewrite Hb in Hxb. by apply elem_of_nil in Hxb.
  - rewrite QuarantineBadRows_all by done. cbn [qo_Quarantined qo_SkippedReferenced]. apply transform_clean; cbn [md_rows md_ledger].
    + by apply filter_ids_NoDup.
    + done.
    + intros r Hr. by apply Hstay.
    + intros r Hr. apply Hcur. by apply Hstay.
Qed.

Lemma quarantine_rows_keeps referenced tenant migrationID reason ids db out db' res r :
  quarantine_rows referenced tenant migrationID reason ids db out = (db', res) ->
  NoDup (map m_id (md_rows db)) -> r ∈ md_rows db -> referenced (m_id r) = true ->
  r ∈ md_rows db' /\ NoDup (map m_id (md_rows db')) /\ md_ledger db' = md_ledger db.
Proof.
  revert db out. induction ids as [|id ids IH]; intros db out; cbn [quarantine_rows].
  - intros [= <- _]. done.
  - destruct (List.find (is_row id tenant) (md_rows db)) as [r0|] eqn:Ef; [|apply IH].
    destruct (referenced id) eqn:Er; [apply IH|]. destruct (existsb _ _); [by intros [= <- _]|].
    intros Hq Hnd Hr Href. destruct (IH _ _ Hq) as (H1 & H2 & H3); cbn [md_rows md_ledger] in *.
    + by apply filter_ids_NoDup.
    + apply list_elem_of_In, filter_In. rewrite <- list_elem_of_In. split; [done|]. apply negb_true_iff, not_true_iff_false.
      intros [He _]%is_row_spec. congruence.
    + done.
    + done.
Qed.

(** A row that cannot follow a widening and that another row refers to is
    left in its table by the quarantine, and the transform that runs next fails
    on it: under the quarantine policy the migration never succeeds, at whatever
    attempt, although its quarantine phase has moved the other bad rows. *)
Lemma referenced_bad_row_fails referenced tenant entity table field ty migrationID db r :
  let op := MigWidenType field ty in
  NoDup (map m_id (md_rows db)) -> r ∈ bad_rows tenant op (md_rows db) -> referenced (m_id r) = true ->
  str_ltb (loadCursor (md_ledger db) tenant entity (migration_op_id table migrationID)) (m_id r) = true ->
  is_ok (snd (RunMigration referenced tenant entity table op PolicyQuarantine migrationID db)) = false.
Proof.
  intros op Hnd Hbad Href Hcur. unfold RunMigration. change (Preflight tenant op (md_rows db)) with (length (bad_rows tenant op (md_rows db))).
  destruct (Nat.eqb_spec (length (bad_rows tenant op (md_rows db))) 0) as [H0|_].
  { apply nil_length_inv in H0. rewrite H0 in Hbad. by apply elem_of_nil in Hbad. }
  pose proof Hbad as [Hin [Ht Hb]%andb_prop]%list_elem_of_In%filter_In. rewrite <- list_elem_of_In in Hin.
  destruct (QuarantineBadRows referenced tenant op migrationID "migration_preflight_failed" db) as [db' [q|e|]] eqn:Eq; [|done..].
  destruct (quarantine_rows_keeps _ _ _ _ _ _ _ _ _ r Eq Hnd Hin Href) as (Hin' & Hnd' & Hl').
  unfold run_transform. cbn [applySQL op rbind snd]. fold op.
  destruct (batch_loop_stops m_id m_tenant ScopeSingleTenant tenant entity (migration_op_id table migrationID) (mig_where op) (S (length (md_rows db')))
    (mig_set op PolicyQuarantine) (loadCursor (md_ledger db') tenant entity (migration_op_id table migrationID)) (md_rows db') (md_ledger db')
    Hnd' (mig_set_id op _) eq_refl) as (c & _ & _ & Hrows & Hdone).
  fold (migration_op_id table migrationID). unfold RunBatchedUpdate.
  destruct (br_outcome _) as [[]|e|] eqn:Eo; [exfalso|done..]. specialize (Hdone eq_refl).
  assert (selected m_id m_tenant ScopeSingleTenant tenant (loadCursor (md_ledger db') tenant entity (migration_op_id table migrationID)) (mig_where op) r = true) as Hs.
  { unfold selected, in_scope. rewrite Ht, Hl', Hcur. cbn [andb]. cbn [mig_where bad_row op] in *. by destruct (m_data r !! field) as [[]|]. }
  apply list_elem_of_lookup_1 in Hin' as [i Hi]. destruct (Forall2_lookup_l _ _ _ _ _ Hrows Hi) as (r' & _ & Hr').
  unfold upto in Hr'. rewrite Hs in Hr'. rewrite (Hdone r) in Hr' by (eauto using list_elem_of_lookup_2). cbn [andb negb] in Hr'.
  revert Hr' Hb. cbn [mig_set bad_row op]. unfold arrow_text. destruct (m_data r !! field) as [[]|]; try done.
  cbn [default from_option id]. by destruct (cast_json s ty).
Qed.

End Migrations.

(** ** On concrete rows *)

(** Casts to a numeric type: texts of digits. *)
Definition TestCasts : PgCasts := {|
  cast_json := fun s _ => if all_bytes isASCIIDigit s then Some (JNum s) else None;
  jsonb_as_text := json_text
|}.

Definition m_row (id tenant amount : string) : MRow := mkMRow id tenant {[ "amount" := JStr amount ]}.
Definition test_mdb : MDb := mkMDb [m_row "a1" "t1" "10"; m_row "a2" "t1" "ten"; m_row "a3" "t2" "ten"] [] ∅.

Lemma quarantine_migration_exact_witness :
  exists rows l, RunMigration (H := TestCasts) (fun _ => false) "t1" "orders" "entities.orders" (MigWidenType "amount" "numeric") PolicyQuarantine "m1" test_mdb =
    (mkMDb rows [mkQRow "a2" "t1" {[ "amount" := JStr "ten" ]} "m1" "migration_preflight_failed" false] l, Ok (mkMigrationOutcome 1 0)).
Proof.
  destruct (quarantine_migration_exact (H := TestCasts) (fun _ => false) "t1" "orders" "entities.orders" "amount" "numeric" "m1" test_mdb)
    as (rows & l & Hrun & _).
  - apply (bool_decide_unpack _). vm_compute. exact I.
  - intros r Hr. repeat (apply elem_of_cons in Hr as [->|Hr]; [vm_compute; reflexivity|]). apply elem_of_nil in Hr. destruct Hr.
  - intros r _. split; [reflexivity|]. intros q Hq. apply elem_of_nil in Hq. destruct Hq.
  - exists rows, l. exact Hrun.
Defined.

Lemma referenced_bad_row_fails_witness :
  is_ok (snd (RunMigration (H := TestCasts) (fun id => String.eqb id "a2") "t1" "orders" "entities.orders" (MigWidenType "amount" "numeric") PolicyQuarantine "m1" test_mdb)) = false.
Proof.
  refine (referenced_bad_row_fails (H := TestCasts) _ "t1" "orders" "entities.orders" "amount" "numeric" "m1" test_mdb (m_row "a2" "t1" "ten") _ _ _ _).
  - apply (bool_decide_unpack _). vm_compute. exact I.
  - apply list_elem_of_In, filter_In. split; [right; left; reflexivity|vm_compute; reflexivity].
  - reflexivity.
  - vm_compute. reflexivity.
Defined.
