(* ===== verification/Executor.v ===== *)
(** Running a plan: the executor of src/go/reconciler/executor.go, the status of
    an entity (status.go), the watchdog (watchdog.go) and the entry point
    Reconcile (reconcile.go), on the catalogue of one table.

    Every call to Postgres can fail. [Faults] says which ones do: a call that
    fails changes nothing, except that a failed CREATE INDEX CONCURRENTLY leaves
    an index that is not valid. A process that dies in the middle of a run is a
    run whose operation fails at that point and which then fails to record the
    error: it leaves the same state. *)
From S2P Require Import Prelude GoStrings GoText Json Condition Context Evaluate Metadata Schema SchemaDiff Catalog CatalogProps.

Open Scope string_scope.
Open Scope list_scope.

(** ** The status of an entity (status.go) *)

Inductive EntityStatus : Type := StatusActive | StatusMigrating | StatusError.

Definition EntityStatus_String (s : EntityStatus) : string :=
  match s with StatusMigrating => "migrating" | StatusError => "error" | StatusActive => "active" end.

(** A row of metadata.reconciler_entity_status; instants are microseconds. *)
Record StatusRow : Type := mkStatusRow {
  sr_status : string;
  sr_lease_owner : option string;
  sr_lease_expires_at : option Z;
  sr_attempts : Z;
  sr_last_error : option string
}.

Notation statuses := (gmap (string * string) StatusRow).

Definition GetStatus (st : statuses) (tenant entity : string) : EntityStatus :=
  match st !! (tenant, entity) with
  | None => StatusActive
  | Some r => if String.eqb (sr_status r) "migrating" then StatusMigrating
              else if String.eqb (sr_status r) "error" then StatusError else StatusActive
  end.

Definition SetStatus (now : Z) (st : statuses) (tenant entity : string) (status : EntityStatus) (owner : string) (ttl : Z) : statuses :=
  let expires := match status with StatusMigrating => Some (now + ttl)%Z | _ => None end in
  <[(tenant, entity) :=
      match st !! (tenant, entity) with
      | Some r => mkStatusRow (EntityStatus_String status) (Some owner) expires (sr_attempts r) (sr_last_error r)
      | None => mkStatusRow (EntityStatus_String status) (Some owner) expires 0 None
      end]> st.

Definition RecordError (st : statuses) (tenant entity msg : string) : statuses :=
  <[(tenant, entity) :=
      match st !! (tenant, entity) with
      | Some r => mkStatusRow "error" (sr_lease_owner r) (sr_lease_expires_at r) (sr_attempts r + 1) (Some msg)
      | None => mkStatusRow "error" None None 1 (Some msg)
      end]> st.

Definition lock_key (tenant entity : string) : string := tenant +:+ ":" +:+ entity.

(** ** The watchdog (watchdog.go) *)

Definition maxRetryAttempts : Z := 5.

Definition is_stuck (now : Z) (r : StatusRow) : bool :=
  String.eqb (sr_status r) "migrating" && match sr_lease_expires_at r with Some t => (t <? now)%Z | None => false end.

Definition FindStuckEntities (now : Z) (st : statuses) : list (string * string * Z) :=
  map (fun e => (fst e, sr_attempts (snd e))) (List.filter (fun e => is_stuck now (snd e)) (map_to_list st)).

Definition watchdog_error : string :=
  "watchdog: exceeded " +:+ FormatInt maxRetryAttempts +:+ " retry attempts on a stuck Migrating lease — needs manual intervention".

Definition RequeueOrFail (st : statuses) (tenant entity : string) (attempts : Z) : statuses :=
  if (maxRetryAttempts <? attempts + 1)%Z
  then alter (fun r => mkStatusRow "error" None None (sr_attempts r + 1) (Some watchdog_error)) (tenant, entity) st
  else alter (fun r => mkStatusRow (sr_status r) None None (sr_attempts r + 1) (sr_last_error r)) (tenant, entity) st.

(** ** The executor *)

Record DbFault : Type := mkFault { ft_code : string; ft_text : string }.

Record Faults : Type := mkFaults {
  f_introspect : option DbFault;
  f_schema : option DbFault;
  f_acquire : option DbFault;
  f_lock : option DbFault;
  f_unlock : option DbFault;
  f_migrating : option DbFault;
  f_record : option DbFault;
  f_active : option DbFault;
  f_op : option PgTable -> DdlOp -> option DbFault
}.

Definition no_faults : Faults := mkFaults None None None None None None None None (fun _ _ => None).

Record World : Type := mkWorld {
  w_schemas : gset string;
  w_table : option PgTable;
  w_status : statuses;
  w_locks : gset Z
}.

Definition set_table (w : World) t := mkWorld (w_schemas w) t (w_status w) (w_locks w).
Definition set_status (w : World) s := mkWorld (w_schemas w) (w_table w) s (w_locks w).
Definition set_locks (w : World) l := mkWorld (w_schemas w) (w_table w) (w_status w) l.

Section Executor.
Context `{PgCatalog}.
Variable hashtext : string -> Z.
Variable now : Z.
Variable lockOwner : string.

Definition ensureSchemaExists (f : Faults) (schema : string) (w : World) : World * option DbFault :=
  match f_schema f with
  | None => (mkWorld ({[schema]} ∪ w_schemas w) (w_table w) (w_status w) (w_locks w), None)
  | Some e =>
    if String.eqb (ft_code e) "42710" || String.eqb (ft_code e) "23505" then (w, None) else (w, Some e)
  end.

(** What Postgres answers when the state of the catalogue forbids the statement. *)
Definition refused (op : DdlOp) : DbFault :=
  match op with
  | OpRenameColumn _ _ => mkFault "42703" "column does not exist"
  | OpDropIndexConcurrently _ => mkFault "2BP01" "cannot drop index: a constraint requires it"
  | OpAddForeignKeyNotValid _ _ | OpAddUnique _ _ => mkFault "42710" "constraint already exists"
  | _ => mkFault "42704" "constraint does not exist"
  end.
Definition no_table : DbFault := mkFault "42P01" "relation does not exist".

Definition runOne (f : Faults) (table : string) (t : option PgTable) (op : DdlOp) : option PgTable * option DbFault :=
  match f_op f t op with
  | Some e => ((fun t0 => after_failure t0 op) <$> t, Some e)
  | None =>
    match op, t with
    | OpCreateTable, _ => (Some (default framework_table t), None)
    | _, None => (None, Some no_table)
    | _, Some t0 => match apply_op table t0 op with Some t1 => (Some t1, None) | None => (Some t0, Some (refused op)) end
    end
  end.

(** The operations in order, up to the first that fails. *)
Fixpoint run_ops (f : Faults) (table : string) (t : option PgTable) (ops : list DdlOp) : option PgTable * option DbFault :=
  match ops with
  | [] => (t, None)
  | op :: ops' =>
    match runOne f table t op with
    | (t', None) => run_ops f table t' ops'
    | (t', Some e) => (t', Some e)
    end
  end.

Definition is_heavy (op : DdlOp) : bool := match DdlOp_Cost op with CostHeavy => true | _ => false end.

Definition lease_ttl : Z := (10 * 60 * 1000000)%Z.

Definition executeLocked (f : Faults) (tenant entity : string) (desired : PhysicalSchema) (ops : list DdlOp) (w : World)
  : World * option DbFault :=
  let hasHeavy := existsb is_heavy ops in
  match (if hasHeavy then f_migrating f else None) with
  | Some e => (w, Some e)
  | None =>
    let w1 := if hasHeavy then set_status w (SetStatus now (w_status w) tenant entity StatusMigrating lockOwner lease_ttl) else w in
    match run_ops f (ps_Table desired) (w_table w1) ops with
    | (t', Some e) =>
      let w2 := set_table w1 t' in
      match f_record f with
      | Some e' => (w2, Some e')
      | None => (set_status w2 (RecordError (w_status w2) tenant entity (ft_text e)), Some e)
      end
    | (t', None) =>
      let w2 := set_table w1 t' in
      if hasHeavy then
        match f_active f with
        | Some e => (w2, Some e)
        | None => (set_status w2 (SetStatus now (w_status w2) tenant entity StatusActive lockOwner 0), None)
        end
      else (w2, None)
    end
  end.

Inductive ExecuteError : Type :=
| Database (e : DbFault)
| AlreadyRunning (entity : string)
| CompileFailed (e : CompileError).

(** From the dedicated connection on: lock, run, unlock. *)
Definition execute_under_lock (f : Faults) (tenant entity : string) (desired : PhysicalSchema) (ops : list DdlOp) (w : World)
  : World * option ExecuteError :=
  match f_acquire f with
  | Some e => (w, Some (Database e))
  | None =>
    match f_lock f with
    | Some e => (w, Some (Database e))
    | None =>
      let key := hashtext (lock_key tenant entity) in
      if bool_decide (key ∈ w_locks w) then (w, Some (AlreadyRunning entity))
      else
        let '(w1, result) := executeLocked f tenant entity desired ops (set_locks w ({[key]} ∪ w_locks w)) in
        match f_unlock f with
        | Some e => (w1, Some (Database e))
        | None => (set_locks w1 (w_locks w1 ∖ {[key]}), Database <$> result)
        end
    end
  end.

Definition ExecuteWithScope (f : Faults) (tenant entity : string) (desired : PhysicalSchema) (ops : list DdlOp) (w : World)
  : World * option ExecuteError :=
  match ops with
  | [] => (w, None)
  | _ =>
    match Cut (ps_Table desired) "." with
    | Some (schema, _) =>
      match ensureSchemaExists f schema w with
      | (w0, Some e) => (w0, Some (Database e))
      | (w0, None) => execute_under_lock f tenant entity desired ops w0
      end
    | None => execute_under_lock f tenant entity desired ops w
    end
  end.

(** ** Reconcile (reconcile.go) *)

Definition ReconcileWithScope (f : Faults) (tenant : string) (entity : EntityDefinition) (renames : list (string * string)) (w : World)
  : World * result ExecuteError (string * nat) :=
  match Compile entity with
  | Err e => (w, Err (CompileFailed e))
  | Panic => (w, Panic)
  | Ok desired =>
    match f_introspect f with
    | Some e => (w, Err (Database e))
    | None =>
      let actual := Introspect (ps_Table desired) (catalog_rows <$> w_table w) in
      let ops := Diff desired actual renames in
      match ExecuteWithScope f tenant (e_Name entity) desired ops w with
      | (w', Some e) => (w', Err e)
      | (w', None) => (w', Ok (ps_Table desired, length ops))
      end
    end
  end.

End Executor.

(** ** Proofs *)

Section Recovery.
Context `{PgCatalog}.
Variable (hashtext : string -> Z) (now : Z) (lockOwner : string).

Lemma locked_table f tenant entity desired ops w :
  let w' := fst (executeLocked now lockOwner f tenant entity desired ops w) in
  w_table w' = w_table w \/ w_table w' = fst (run_ops f (ps_Table desired) (w_table w) ops).
Proof.
  unfold executeLocked. set (heavy := existsb is_heavy _). set (w1 := if heavy then set_status _ _ else _).
  assert (w_table w1 = w_table w) as Hw1 by by (unfold w1; destruct heavy). rewrite Hw1.
  destruct (if heavy then f_migrating f else None); [by left|].
  right. destruct (run_ops _ _ _ _) as [t' [e|]]; cbn [fst]; [by destruct (f_record f)|].
  by destruct heavy, (f_active f).
Qed.

(** What a run does to the table is a run of the operations, possibly none. *)
Lemma ExecuteWithScope_table f tenant entity desired ops w :
  let w' := fst (ExecuteWithScope hashtext now lockOwner f tenant entity desired ops w) in
  w_table w' = w_table w \/ w_table w' = fst (run_ops f (ps_Table desired) (w_table w) ops).
Proof.
  assert (forall w0, w_table w0 = w_table w ->
    let w' := fst (execute_under_lock hashtext now lockOwner f tenant entity desired ops w0) in
    w_table w' = w_table w \/ w_table w' = fst (run_ops f (ps_Table desired) (w_table w) ops)) as Hlock.
  { intros w0 Hw0. unfold execute_under_lock. destruct (f_acquire f); [by left|]. destruct (f_lock f); [by left|]. cbn zeta.
    destruct (bool_decide _); [by left|].
    pose proof (locked_table f tenant entity desired ops (set_locks w0 ({[hashtext (lock_key tenant entity)]} ∪ w_locks w0))) as Hl.
    cbn zeta in Hl. cbn [set_locks w_table] in Hl. rewrite Hw0 in Hl.
    destruct (executeLocked _ _ _ _ _ _ _ _) as [w1 r]. by destruct (f_unlock f). }
  unfold ExecuteWithScope. destruct ops as [|op ops]; [by left|].
  destruct (Cut (ps_Table desired) ".") as [[schema rest]|]; [|by apply Hlock].
  unfold ensureSchemaExists. destruct (f_schema f) as [e|]; [|by apply Hlock].
  destruct (_ || _); [by apply Hlock|by left].
Qed.

Lemma names_fit_split table desired t :
  names_fit table desired t = true /\ catalog_sound t = true <->
  names_fit table desired framework_table = true /\ table_fits t.
Proof.
  rewrite table_fits_iff. unfold names_fit. rewrite !andb_true_iff, !forallb_app, !andb_true_iff.
  change (sortedKeys (pt_indexes framework_table)) with (@nil string).
  change (sortedKeys (pt_fks framework_table)) with (@nil string).
  change (sortedKeys (pt_uniques framework_table)) with (@nil string). cbn [forallb]. tauto.
Qed.

Lemma after_failure_fits t op table : op_short table op -> table_fits t -> table_fits (after_failure t op).
Proof.
  intros [Hs _] Ht. destruct op; try done. cbn [after_failure op_name] in *. rewrite (pg_name_short _ Hs). by apply new_index_fits.
Qed.

Lemma runOne_fits f table t op : op_short table op -> no_add_unique op ->
  table_fits (default framework_table t) -> table_fits (default framework_table (fst (runOne f table t op))).
Proof.
  intros Hs Hn Ht. unfold runOne. destruct (f_op f t op).
  - destruct t as [t|]; [|done]. by eapply after_failure_fits.
  - destruct t as [t|]; [|by destruct op].
    destruct (apply_op table t op) as [t1|] eqn:E; [|by destruct op].
    assert (table_fits t1) by (eapply apply_op_fits; eauto). by destruct op.
Qed.

Lemma run_ops_fits f table ops t : Forall (fun op => op_short table op /\ no_add_unique op) ops ->
  table_fits (default framework_table t) -> table_fits (default framework_table (fst (run_ops f table t ops))).
Proof.
  revert t. induction ops as [|op ops IH]; intros t Hops Ht; [done|]. apply Forall_cons in Hops as [[Hs Hn] Hops].
  cbn [run_ops]. pose proof (runOne_fits f table t op Hs Hn Ht) as H1. destruct (runOne f table t op) as [t' [e|]]; [done|].
  by apply IH.
Qed.

Lemma plan_well_named entity desired t : Compile entity = Ok desired ->
  names_fit (e_TableName entity) desired (default framework_table t) = true -> indexes_echo desired = true ->
  catalog_sound (default framework_table t) = true ->
  Forall (fun op => op_short (e_TableName entity) op /\ no_add_unique op)
    (Diff desired (Introspect (e_TableName entity) (catalog_rows <$> t)) []).
Proof.
  intros HC Hn He Hs. set (table := e_TableName entity) in *.
  pose proof (deployable_reconcilable table entity desired _ HC eq_refl Hn He Hs) as Hrec.
  destruct (rc_compiled _ _ _ Hrec) as (_ & _ & Huq & _). rewrite Diff_raw by done.
  assert (forall created a, created = [] \/ created = [OpCreateTable] -> views table a (default framework_table t) ->
    Forall (fun op => op_short table op /\ no_add_unique op) (topoSort (raw_ops created desired a))) as Hraw.
  { intros created a Hc Hv. rewrite topoSort_perm. apply Forall_forall. intros op Hop.
    split; [by eapply raw_short|]. pose proof Hop as Hop'. eapply raw_cases in Hop; try done.
    assert (rank op <> 9%nat) as Hr; [|by destruct op].
    destruct Hop as [->|[(?&?&?&?&?)|[(?&?&?&?&?)|[(?&?&?&?& ->)|[(?&?&?&?&?)|[(?&?&?& ->)|(?&?& ->)]]]]]]; simpl; lia. }
  destruct t as [t|]; cbn [fmap option_fmap option_map Introspect] in *.
  - apply (Hraw [] (seen table t)); [by left|apply views_seen].
  - apply (Hraw [OpCreateTable]); [by right|by constructor].
Qed.

Lemma run_ops_ok table ops t t' : apply_ops table t ops = Some t' -> run_ops no_faults table (Some t) ops = (Some t', None).
Proof.
  revert t. induction ops as [|op ops IH]; intros t; cbn [apply_ops run_ops]; [by intros [= ->]|].
  destruct (apply_op table t op) as [t1|] eqn:E; [|done]. intros Ht. unfold runOne. cbn [f_op no_faults]. rewrite E.
  destruct op; try (by apply IH). injection E as ->. by apply IH.
Qed.

Lemma pass_run_ops desired t t' : reconcile_pass (ps_Table desired) desired [] t = Some t' ->
  run_ops no_faults (ps_Table desired) t (Diff desired (Introspect (ps_Table desired) (catalog_rows <$> t)) []) = (Some t', None).
Proof.
  unfold reconcile_pass. destruct t as [t|]; [by apply run_ops_ok|]. cbn [fmap option_fmap option_map Introspect].
  destruct (Diff desired None []) as [|[] ops] eqn:E; cbn [table_or_new]; try done. apply run_ops_ok.
Qed.

(** Nothing in the way: the operations run to their end. *)
Lemma ExecuteWithScope_ok tenant entity desired ops w t' :
  hashtext (lock_key tenant entity) ∉ w_locks w -> ops <> [] ->
  run_ops no_faults (ps_Table desired) (w_table w) ops = (t', None) ->
  exists w', ExecuteWithScope hashtext now lockOwner no_faults tenant entity desired ops w = (w', None) /\ w_table w' = t'.
Proof.
  intros Hl Hne Hr.
  assert (forall w0, w_table w0 = w_table w -> w_locks w0 = w_locks w ->
    exists w', execute_under_lock hashtext now lockOwner no_faults tenant entity desired ops w0 = (w', None) /\ w_table w' = t') as Hlock.
  { intros w0 Ht Hk. unfold execute_under_lock. cbn [f_acquire f_lock f_unlock no_faults]. rewrite Hk, bool_decide_false by done.
    unfold executeLocked. cbn [f_migrating f_active no_faults]. destruct (existsb is_heavy ops); cbn [set_status set_locks w_table]; rewrite Ht, Hr; eauto. }
  unfold ExecuteWithScope. destruct ops; [done|]. destruct (Cut (ps_Table desired) ".") as [[schema ?]|]; by apply Hlock.
Qed.

(** Any number of runs, of any tenants, each with its own faults. *)
Definition runs_of (entity : EntityDefinition) (runs : list (string * Faults)) (w : World) : World :=
  fold_left (fun w r => fst (ReconcileWithScope hashtext now lockOwner (snd r) (fst r) entity [] w)) runs w.

Lemma runs_fit entity desired runs w : Compile entity = Ok desired ->
  names_fit (e_TableName entity) desired (default framework_table (w_table w)) = true -> indexes_echo desired = true ->
  catalog_sound (default framework_table (w_table w)) = true ->
  let t := default framework_table (w_table (runs_of entity runs w)) in
  names_fit (e_TableName entity) desired t = true /\ catalog_sound t = true.
Proof.
  intros HC Hn He Hs. revert w Hn Hs. induction runs as [|[tenant f] runs IH]; intros w Hn Hs; [done|].
  cbn [runs_of fold_left fst snd].
  assert (let t := default framework_table (w_table (fst (ReconcileWithScope hashtext now lockOwner f tenant entity [] w))) in
    names_fit (e_TableName entity) desired t = true /\ catalog_sound t = true) as [H1 H2]; [|by apply IH].
  pose proof (plan_well_named entity desired (w_table w) HC Hn He Hs) as Hplan.
  destruct (proj1 (names_fit_split _ _ _) (conj Hn Hs)) as [Hf Ht]. apply names_fit_split. split; [done|].
  unfold ReconcileWithScope. rewrite HC. destruct (f_introspect f); [done|]. rewrite (Compile_table _ _ HC) at 1.
  pose proof (ExecuteWithScope_table f tenant (e_Name entity) desired
    (Diff desired (Introspect (e_TableName entity) (catalog_rows <$> w_table w)) []) w) as [E|E]; cbn zeta in E;
    destruct (ExecuteWithScope _ _ _ _ _ _ _ _ _) as [w' [e|]]; cbn [fst] in *; rewrite E; try done;
    rewrite (Compile_table _ _ HC); by apply run_ops_fits.
Qed.

End Recovery.


(** *** A run to look at *)

(** The identity of a staff table's run, on an empty database. *)
Definition test_world : World := mkWorld ∅ None ∅ ∅.
Definition test_hash (s : string) : Z := Z.of_nat (String.length s).

(** The unique index cannot be built: two rows have the same value. *)
Definition duplicate_rows : Faults :=
  mkFaults None None None None None None None None
    (fun _ op => match op with
                 | OpCreateIndexConcurrently n _ => if String.eqb n "uniq_hr_staff_email" then Some (mkFault "23505" "could not create unique index") else None
                 | _ => None
                 end).

(** The process dies while it builds the index. *)
Definition dies_at_index : Faults :=
  mkFaults None None None None None None (Some (mkFault "" "process died")) None (f_op duplicate_rows).

Definition staff_run (f : Faults) (w : World) : World * result ExecuteError (string * nat) :=
  ReconcileWithScope (H := TestCatalog) test_hash 1000 "w" f "t1" staff [] w.

Definition staff_failed : World := Eval vm_compute in fst (staff_run duplicate_rows test_world).
Definition staff_fixed : World := Eval vm_compute in fst (staff_run no_faults staff_failed).
Definition staff_dead : World := Eval vm_compute in fst (staff_run dies_at_index test_world).
Definition staff_requeued : World := Eval vm_compute in set_status staff_dead (RequeueOrFail (w_status staff_dead) "t1" "hr.staff" 0).
Definition staff_resumed : World := Eval vm_compute in fst (staff_run no_faults staff_requeued).


(** An entity the watchdog has requeued is not found again until a run takes a
    new lease: its status still says "migrating". *)
Lemma requeued_not_found (now now' : Z) (st : statuses) (tenant entity : string) (attempts : Z) :
  (tenant, entity, attempts) ∈ FindStuckEntities now st -> (attempts < maxRetryAttempts)%Z ->
  let st' := RequeueOrFail st tenant entity attempts in
  GetStatus st' tenant entity = StatusMigrating /\
  forall a, (tenant, entity, a) ∉ FindStuckEntities now' st'.
Proof.
  unfold FindStuckEntities, RequeueOrFail. rewrite list_elem_of_In, in_map_iff. intros (((k1 & k2) & r) & [= -> -> <-] & Hin) Hlt.
  apply filter_In in Hin as [Hin Hs]. apply list_elem_of_In, elem_of_map_to_list in Hin. cbn [snd] in *.
  rewrite (proj2 (Z.ltb_ge _ _)) by lia. unfold is_stuck in Hs. apply andb_prop in Hs as [Hm _].
  split.
  - unfold GetStatus. rewrite lookup_alter_eq, Hin. cbn [fmap option_fmap option_map sr_status]. by rewrite Hm.
  - intros a. rewrite list_elem_of_In, in_map_iff. intros (((k1 & k2) & r') & [= -> -> <-] & Hin').
    apply filter_In in Hin' as [Hin' Hs']. apply list_elem_of_In, elem_of_map_to_list in Hin'. cbn [snd] in *.
    rewrite lookup_alter_eq, Hin in Hin'. injection Hin' as <-. unfold is_stuck in Hs'. cbn [sr_lease_expires_at] in Hs'.
    by rewrite andb_false_r in Hs'.
Qed.

(** The status is only written by a run that has a backfill to do. A run
    whose unique index could not be built records the error; the next run, which
    builds it and brings the table to its schema, leaves the status at "error",
    and no later run changes it. If instead the process died there, the watchdog
    requeues the entity, the next run completes it, and the status stays at
    "migrating" although nothing runs, where the watchdog no longer sees it. *)
Lemma status_sticks_after_recovery :
  (staff_run duplicate_rows test_world = (staff_failed, Err (Database (mkFault "23505" "could not create unique index"))) /\
   GetStatus (w_status staff_failed) "t1" "hr.staff" = StatusError /\
   staff_run no_faults staff_failed = (staff_fixed, Ok ("entities.hr_staff", 4%nat)) /\
   GetStatus (w_status staff_fixed) "t1" "hr.staff" = StatusError /\
   staff_run no_faults staff_fixed = (staff_fixed, Ok ("entities.hr_staff", 0%nat))) /\
  (fst (staff_run dies_at_index test_world) = staff_dead /\
   FindStuckEntities 700000000 (w_status staff_dead) = [("t1", "hr.staff", 0%Z)] /\
   w_status staff_requeued = RequeueOrFail (w_status staff_dead) "t1" "hr.staff" 0 /\
   staff_run no_faults staff_requeued = (staff_resumed, Ok ("entities.hr_staff", 4%nat)) /\
   GetStatus (w_status staff_resumed) "t1" "hr.staff" = StatusMigrating /\
   FindStuckEntities 700000000 (w_status staff_resumed) = [] /\
   staff_run no_faults staff_resumed = (staff_resumed, Ok ("entities.hr_staff", 0%nat))).
Proof. split_and!; match goal with |- _ = ?r => vm_cast_no_check (eq_refl r) end. Qed.

(** While another session holds the lock of an entity (or of one whose
    name hashes to the same key), a run with operations to do changes neither the
    table nor the status nor the locks, and says so. *)
Lemma lock_excludes `{PgCatalog} hashtext now lockOwner f tenant entity desired ops w :
  ops <> [] -> hashtext (lock_key tenant entity) ∈ w_locks w ->
  let '(w', err) := ExecuteWithScope hashtext now lockOwner f tenant entity desired ops w in
  w_table w' = w_table w /\ w_status w' = w_status w /\ w_locks w' = w_locks w /\ err <> None /\
  (f_schema f = None -> f_acquire f = None -> f_lock f = None -> err = Some (AlreadyRunning entity)).
Proof.
  intros Hne Hl.
  assert (forall w0, w_table w0 = w_table w -> w_status w0 = w_status w -> w_locks w0 = w_locks w ->
    let '(w', err) := execute_under_lock hashtext now lockOwner f tenant entity desired ops w0 in
    w_table w' = w_table w /\ w_status w' = w_status w /\ w_locks w' = w_locks w /\ err <> None /\
    (f_schema f = None -> f_acquire f = None -> f_lock f = None -> err = Some (AlreadyRunning entity))) as Hlock.
  { intros w0 H1 H2 H3. unfold execute_under_lock. destruct (f_acquire f); [done|]. destruct (f_lock f); [done|].
    rewrite H3, bool_decide_true by done. done. }
  unfold ExecuteWithScope. destruct ops; [done|]. destruct (Cut (ps_Table desired) ".") as [[schema ?]|]; [|by apply Hlock].
  unfold ensureSchemaExists. destruct (f_schema f) as [e|] eqn:E; [|by apply Hlock].
  destruct (_ || _); [by apply Hlock|done].
Qed.

Lemma lock_excludes_witness :
  let w := mkWorld ∅ None ∅ {[ test_hash "t1:hr.staff" ]} in
  snd (ExecuteWithScope test_hash 0 "w" no_faults "t1" "hr.staff" staff_schema [OpCreateTable] w)
  = Some (AlreadyRunning "hr.staff").
Proof.
  intros w. pose proof (lock_excludes (H := TestCatalog) test_hash 0 "w" no_faults "t1" "hr.staff" staff_schema [OpCreateTable] w) as Hx.
  destruct (ExecuteWithScope _ _ _ _ _ _ _ _ _) as [w' err].
  destruct Hx as (_ & _ & _ & _ & Hx); [discriminate|apply (bool_decide_unpack _); vm_compute; exact I|].
  apply Hx; reflexivity.
Defined.
