(* ===== verification/Cron.v ===== *)
(** Scheduled jobs (src/go/cron): the definitions of jobs, their runs, the runs of
    step chains, and the claims that turn a due job, a due retry or a matching
    event into a run to execute.

    The three tables are lists of rows in the order of insertion, with the
    constraints of the migrations: a run belongs to a job and a workflow run to
    both (deleting the job deletes them), and a run has one workflow run at most.
    The cron expression parser and the time zone database are an interface,
    [CronLib]. Generated identifiers come from a supply of them, the instants
    (nanoseconds) are arguments, and so is the set of rows other schedulers hold
    locked (FOR UPDATE SKIP LOCKED). An operation is a handler over the tables
    (Crud.v); one that runs in a transaction restores them when it fails. *)
From S2P Require Import Prelude GoStrings GoText Json Floats Condition Context Uuid Evaluate Snapshot PermissionService PolicyStore Metadata Schema Router Payload Workflow AuditTrail Sql ConditionSql Jql Planner Records Crud.

Open Scope string_scope.
Open Scope list_scope.

(** ** Names (model.go) *)

Inductive TargetType : Type :=
| TargetWorkflowTransition | TargetBulkQueryAction | TargetWebhook | TargetEmail | TargetSteps | TargetWaitEvent.

Definition TargetType_text (t : TargetType) : string :=
  match t with
  | TargetWorkflowTransition => "workflow_transition"
  | TargetBulkQueryAction => "bulk_query_action"
  | TargetWebhook => "webhook"
  | TargetEmail => "email"
  | TargetSteps => "steps"
  | TargetWaitEvent => "wait_event"
  end.

(** The value among [all] whose text is [s]. *)
Definition parse_named {A} (text : A -> string) (all : list A) (s : string) : option A :=
  List.find (fun a => String.eqb (text a) s) all.

Definition ParseTargetType (s : string) : option TargetType :=
  parse_named TargetType_text
    [TargetWorkflowTransition; TargetBulkQueryAction; TargetWebhook; TargetEmail; TargetSteps; TargetWaitEvent] s.

Inductive DispatchMode : Type := DispatchOutbox | DispatchDirect.

Definition DispatchMode_text (m : DispatchMode) : string :=
  match m with DispatchOutbox => "outbox" | DispatchDirect => "direct" end.

Definition ParseDispatchMode (s : string) : option DispatchMode :=
  parse_named DispatchMode_text [DispatchOutbox; DispatchDirect] s.

Inductive TriggerType : Type := TriggerSchedule | TriggerOnTransition | TriggerOnRecordEvent.

Definition TriggerType_text (t : TriggerType) : string :=
  match t with
  | TriggerSchedule => "schedule"
  | TriggerOnTransition => "on_transition"
  | TriggerOnRecordEvent => "on_record_event"
  end.

Definition ParseTriggerType (s : string) : option TriggerType :=
  parse_named TriggerType_text [TriggerSchedule; TriggerOnTransition; TriggerOnRecordEvent] s.

Inductive RunStatus : Type := RunEnqueued | RunSuccess | RunFailed | RunWaiting.

Definition RunStatus_text (s : RunStatus) : string :=
  match s with RunEnqueued => "enqueued" | RunSuccess => "success" | RunFailed => "failed" | RunWaiting => "waiting" end.

Definition ParseRunStatus (s : string) : option RunStatus :=
  parse_named RunStatus_text [RunEnqueued; RunSuccess; RunFailed; RunWaiting] s.

(** workflow_runs.status. *)
Definition WorkflowRunning : string := "running".
Definition WorkflowSuccess : string := "success".
Definition WorkflowFailed : string := "failed".
Definition WorkflowWaiting : string := "waiting".

Definition RoutingKey : string := "cron.job.due".

(** ** Decoding a JSON object into a struct

    A member is matched to a field by its name, then case-insensitively; null
    leaves a field alone (and sets a pointer to nil); a member of another type is
    an error the decoder reports at the end. The last member of a field wins. *)

Definition into_string (cur : string * bool) (v : json) : string * bool :=
  match v with JStr s => (s, cur.2) | JNull => cur | _ => (cur.1, true) end.

Definition into_pointer (cur : option string * bool) (v : json) : option string * bool :=
  match v with JStr s => (Some s, cur.2) | JNull => (None, cur.2) | _ => (cur.1, true) end.

Record WaitEventTargetConfig : Type := mkWait {
  wt_Entity : string;
  wt_Action : option string;
  wt_Event : option string
}.

Definition wait_step (st : WaitEventTargetConfig * bool) (kv : string * json) : WaitEventTargetConfig * bool :=
  let '(mkWait e a ev, bad) := st in
  if key_matches "entity" kv.1 then let '(e, bad) := into_string (e, bad) kv.2 in (mkWait e a ev, bad)
  else if key_matches "action" kv.1 then let '(a, bad) := into_pointer (a, bad) kv.2 in (mkWait e a ev, bad)
  else if key_matches "event" kv.1 then let '(ev, bad) := into_pointer (ev, bad) kv.2 in (mkWait e a ev, bad)
  else st.

(** json.Unmarshal of a message; [None] is the message of a field that is absent,
    which is not a document. *)
Definition unmarshal_struct {A} (zero : A) (step : A * bool -> string * json -> A * bool) (raw : option json) : option A :=
  match raw with
  | Some (JObj l) => let '(a, bad) := fold_left step l (zero, false) in if bad then None else Some a
  | Some JNull => Some zero
  | _ => None
  end.

Definition unmarshal_wait (raw : option json) : option WaitEventTargetConfig :=
  unmarshal_struct (mkWait "" None None) wait_step raw.

(** ** Schedules (schedule.go) *)

Class CronLib := {
  schedule : Type;
  location : Type;
  cron_Parse : string -> option schedule;
  LoadLocation : string -> option location;
  (** the next activation after an instant, on the clock of a location; [None] is
      the zero time *)
  schedule_Next : schedule -> location -> Z -> option Z
}.

(** Next is documented to give an instant later than its argument. *)
Class CronLaws (C : CronLib) : Prop := {
  schedule_Next_later : forall s l after next, schedule_Next s l after = Some next -> (after < next)%Z
}.

Section Schedules.
Context `{!CronLib}.

Definition bad_expression (cronExpr : string) : error := "invalid cron expression " +:+ string_text cronExpr.
Definition bad_timezone (timezone : string) : error := "invalid IANA timezone " +:+ string_text timezone.

Definition ValidateSchedule (cronExpr timezone : string) : option error :=
  match cron_Parse cronExpr with
  | None => Some (bad_expression cronExpr)
  | Some _ => match LoadLocation timezone with None => Some (bad_timezone timezone) | Some _ => None end
  end.

Definition NextRunAt (cronExpr timezone : string) (after : Z) : result error Z :=
  match cron_Parse cronExpr with
  | None => Err (bad_expression cronExpr)
  | Some s =>
    match LoadLocation timezone with
    | None => Err (bad_timezone timezone)
    | Some loc =>
      match schedule_Next s loc after with
      | None => Err ("cron expression " +:+ string_text cronExpr +:+ " has no future occurrence")
      | Some next => Ok next
      end
    end
  end.
End Schedules.

(** ** Integers of a width *)

Definition wrap (bits : Z) (z : Z) : Z := ((z + 2 ^ (bits - 1)) mod 2 ^ bits - 2 ^ (bits - 1))%Z.
Definition i32 (z : Z) : Z := wrap 32 z.
Definition i64 (z : Z) : Z := wrap 64 z.

(** time.Second, in the nanoseconds of a Duration. *)
Definition Second : Z := 1000000000.

Definition backoffDelay (retryBackoffSeconds attempt : Z) : Z :=
  let exponent := i32 (attempt - 1) in
  let exponent := if (exponent <? 0)%Z then 0%Z else exponent in
  let exponent := if (30 <? exponent)%Z then 30%Z else exponent in
  let seconds := i64 (Z.shiftl retryBackoffSeconds exponent) in
  i64 (seconds * Second).

Section Cron.
Context `{!UuidLib} `{!CronLib} `{!Postgres}.
(** uuid.New and gen_random_uuid: the supply of identifiers. *)
Variable fresh : nat -> uuid.

(** ** The tables *)

Record CronJob : Type := mkJob {
  cj_ID : uuid;
  cj_TenantID : uuid;
  cj_Name : string;
  cj_Enabled : bool;
  cj_TriggerType : string;
  cj_TriggerConfig : option json;
  cj_CronExpr : option string;
  cj_Timezone : string;
  cj_TargetType : string;
  cj_TargetConfig : json;
  cj_DispatchMode : string;
  cj_MaxAttempts : Z;
  cj_RetryBackoffSeconds : Z;
  cj_NextRunAt : option Z;
  cj_LastRunAt : option Z;
  cj_CreatedAt : Z;
  cj_UpdatedAt : Z;
  cj_CreatedBy : option uuid
}.

Record CronJobRun : Type := mkRun {
  jr_ID : uuid;
  jr_TenantID : uuid;
  jr_JobID : uuid;
  jr_Status : string;
  jr_Attempt : Z;
  jr_ScheduledFor : Z;
  jr_StartedAt : option Z;
  jr_FinishedAt : option Z;
  jr_Error : option string;
  jr_ResponseSummary : option json;
  jr_CreatedAt : Z
}.

Record WorkflowRun : Type := mkWorkflowRun {
  wr_ID : uuid;
  wr_TenantID : uuid;
  wr_JobID : uuid;
  wr_CronJobRunID : uuid;
  wr_Status : string;
  wr_CurrentStepIndex : Z;
  wr_TotalSteps : Z;
  wr_Context : gmap string json;
  wr_Error : option string;
  wr_WaitEntity : option string;
  wr_WaitAction : option string;
  wr_WaitRecordEvent : option string;
  wr_StartedAt : Z;
  wr_FinishedAt : option Z
}.

(** A firing on its way to the executor: the payload of cron.job.due, and the
    ClaimedDirectJob with the same fields a direct job is handed over as. *)
Record CronJobDuePayload : Type := mkDue {
  du_RunID : uuid;
  du_JobID : uuid;
  du_TenantID : uuid;
  du_TargetType : string;
  du_TargetConfig : json;
  du_Attempt : Z;
  du_MaxAttempts : Z;
  du_RetryBackoffSeconds : Z;
  du_DispatchMode : string;
  du_TriggerRecordID : option uuid;
  du_TriggerEntity : option string
}.

Record CronTables : Type := mkCron {
  ct_jobs : list CronJob;
  ct_runs : list CronJobRun;
  ct_workflows : list WorkflowRun;
  ct_outbox : list OutboxEvent;
  ct_drawn : nat
}.

Definition set_jobs t x := mkCron x (ct_runs t) (ct_workflows t) (ct_outbox t) (ct_drawn t).
Definition set_runs t x := mkCron (ct_jobs t) x (ct_workflows t) (ct_outbox t) (ct_drawn t).
Definition set_workflows t x := mkCron (ct_jobs t) (ct_runs t) x (ct_outbox t) (ct_drawn t).
Definition set_outbox t x := mkCron (ct_jobs t) (ct_runs t) (ct_workflows t) x (ct_drawn t).
Definition set_drawn t x := mkCron (ct_jobs t) (ct_runs t) (ct_workflows t) (ct_outbox t) x.

Definition new_uuid : Handler CronTables uuid :=
  fun t => (Ok (fresh (ct_drawn t)), set_drawn t (S (ct_drawn t))).

(** Statements that always succeed. *)
Definition exec (f : CronTables -> CronTables) : Handler CronTables unit := fun t => (Ok tt, f t).
Definition read_with {A} (f : CronTables -> A) : Handler CronTables A := fun t => (Ok (f t), t).

(** A transaction: committed when the body returns, rolled back when it fails. *)
Definition transaction {A} (m : Handler CronTables A) : Handler CronTables A :=
  fun t => match m t with
           | (Ok a, t') => (Ok a, t')
           | (r, _) => (r, t)
           end.

(** UPDATE ... WHERE p. *)
Definition update_matching {R} (p : R -> bool) (f : R -> R) (rows : list R) : list R :=
  map (fun r => if p r then f r else r) rows.

Definition job_is (id : uuid) (j : CronJob) : bool := bool_decide (cj_ID j = id).
Definition run_is (id : uuid) (r : CronJobRun) : bool := bool_decide (jr_ID r = id).
Definition workflow_is (id : uuid) (w : WorkflowRun) : bool := bool_decide (wr_ID w = id).

Definition update_job (id : uuid) (f : CronJob -> CronJob) : Handler CronTables unit :=
  exec (fun t => set_jobs t (update_matching (job_is id) f (ct_jobs t))).
Definition update_run (id : uuid) (f : CronJobRun -> CronJobRun) : Handler CronTables unit :=
  exec (fun t => set_runs t (update_matching (run_is id) f (ct_runs t))).
Definition update_workflow (id : uuid) (f : WorkflowRun -> WorkflowRun) : Handler CronTables unit :=
  exec (fun t => set_workflows t (update_matching (workflow_is id) f (ct_workflows t))).

Definition foreign_key_violation : error := "insert or update violates foreign key constraint".
Definition unique_violation : error := "duplicate key value violates unique constraint".

(** INSERT INTO cron_job_runs: its job must exist. *)
Definition insert_run (id tenantID jobID : uuid) (status : RunStatus) (attempt scheduledFor now : Z) : Handler CronTables unit :=
  fun t =>
    if existsb (run_is id) (ct_runs t) then hfail unique_violation t
    else if existsb (job_is jobID) (ct_jobs t)
    then exec (fun t => set_runs t (ct_runs t ++
      [mkRun id tenantID jobID (RunStatus_text status) attempt scheduledFor None None None None now])) t
    else hfail foreign_key_violation t.

(** ** The life of a run (run_lifecycle.go) *)

Definition RunStatusOf (t : CronTables) (runID : uuid) : option RunStatus :=
  match List.find (run_is runID) (ct_runs t) with
  | None => None
  | Some r => ParseRunStatus (jr_Status r)
  end.

Definition set_started (now : Z) (r : CronJobRun) : CronJobRun :=
  mkRun (jr_ID r) (jr_TenantID r) (jr_JobID r) (jr_Status r) (jr_Attempt r) (jr_ScheduledFor r) (Some now)
    (jr_FinishedAt r) (jr_Error r) (jr_ResponseSummary r) (jr_CreatedAt r).

Definition set_run_status (status : RunStatus) (r : CronJobRun) : CronJobRun :=
  mkRun (jr_ID r) (jr_TenantID r) (jr_JobID r) (RunStatus_text status) (jr_Attempt r) (jr_ScheduledFor r) (jr_StartedAt r)
    (jr_FinishedAt r) (jr_Error r) (jr_ResponseSummary r) (jr_CreatedAt r).

Definition set_finished (now : Z) (status : RunStatus) (errMsg : option string) (summary : option json) (r : CronJobRun)
  : CronJobRun :=
  mkRun (jr_ID r) (jr_TenantID r) (jr_JobID r) (RunStatus_text status) (jr_Attempt r) (jr_ScheduledFor r) (jr_StartedAt r)
    (Some now) errMsg summary (jr_CreatedAt r).

Definition StartRun (now : Z) (runID : uuid) : Handler CronTables unit := update_run runID (set_started now).

Definition FinishRun (now : Z) (runID : uuid) (status : RunStatus) (errMsg : option string) (summary : option json)
  : Handler CronTables unit :=
  update_run runID (set_finished now status errMsg summary).

Definition is_failed (status : RunStatus) : bool := match status with RunFailed => true | _ => false end.

Definition FinishRunWithRetry (now : Z) (payload : CronJobDuePayload) (status : RunStatus) (errMsg : option string)
    (summary : option json) : Handler CronTables unit :=
  let* _ := FinishRun now (du_RunID payload) status errMsg summary in
  if negb (is_failed status) || (du_MaxAttempts payload <=? du_Attempt payload)%Z then hret tt
  else
    let nextAttempt := i32 (du_Attempt payload + 1) in
    let scheduledFor := (now + backoffDelay (du_RetryBackoffSeconds payload) (du_Attempt payload))%Z in
    let* id := new_uuid in
    insert_run id (du_TenantID payload) (du_JobID payload) RunEnqueued nextAttempt scheduledFor now.

(** ** Chains of steps (workflow_run.go) *)

Definition set_progress (status : string) (index : Z) (context : gmap string json) (w : WorkflowRun) : WorkflowRun :=
  mkWorkflowRun (wr_ID w) (wr_TenantID w) (wr_JobID w) (wr_CronJobRunID w) status index (wr_TotalSteps w) context
    (wr_Error w) (wr_WaitEntity w) (wr_WaitAction w) (wr_WaitRecordEvent w) (wr_StartedAt w) (wr_FinishedAt w).

Definition set_ended (status : string) (index : Z) (errMsg : option string) (now : Z) (w : WorkflowRun) : WorkflowRun :=
  mkWorkflowRun (wr_ID w) (wr_TenantID w) (wr_JobID w) (wr_CronJobRunID w) status index (wr_TotalSteps w) (wr_Context w)
    errMsg (wr_WaitEntity w) (wr_WaitAction w) (wr_WaitRecordEvent w) (wr_StartedAt w) (Some now).

Definition set_waiting (index : Z) (wait : WaitEventTargetConfig) (w : WorkflowRun) : WorkflowRun :=
  mkWorkflowRun (wr_ID w) (wr_TenantID w) (wr_JobID w) (wr_CronJobRunID w) WorkflowWaiting index (wr_TotalSteps w)
    (wr_Context w) (wr_Error w) (Some (wt_Entity wait)) (wt_Action wait) (wt_Event wait) (wr_StartedAt w) (wr_FinishedAt w).

Definition StartWorkflowRun (now : Z) (tenantID jobID cronJobRunID : uuid) (totalSteps : Z) : Handler CronTables uuid :=
  let* id := new_uuid in
  fun t =>
    if existsb (fun w => workflow_is id w || bool_decide (wr_CronJobRunID w = cronJobRunID)) (ct_workflows t)
    then hfail unique_violation t
    else if existsb (job_is jobID) (ct_jobs t) && existsb (run_is cronJobRunID) (ct_runs t)
    then (Ok id, set_workflows t (ct_workflows t ++
      [mkWorkflowRun id tenantID jobID cronJobRunID WorkflowRunning 0 totalSteps ∅ None None None None now None]))
    else hfail foreign_key_violation t.

Definition step_key (stepIndex : Z) : string := "step_" +:+ FormatInt stepIndex.

Definition AdvanceWorkflowRun (runID : uuid) (stepIndex : Z) (result : json) : Handler CronTables unit :=
  update_workflow runID (fun w => set_progress (wr_Status w) (i32 (stepIndex + 1)) (<[step_key stepIndex := result]> (wr_Context w)) w).

Definition FinishWorkflowRun (now : Z) (runID : uuid) : Handler CronTables unit :=
  update_workflow runID (fun w => set_ended WorkflowSuccess (wr_CurrentStepIndex w) (wr_Error w) now w).

Definition FailWorkflowRun (now : Z) (runID : uuid) (stepIndex : Z) (errMsg : string) : Handler CronTables unit :=
  update_workflow runID (set_ended WorkflowFailed stepIndex (Some errMsg) now).

Definition GetWorkflowRunByCronJobRun (t : CronTables) (tenantID cronJobRunID : uuid) : option WorkflowRun :=
  List.find (fun w => bool_decide (wr_TenantID w = tenantID) && bool_decide (wr_CronJobRunID w = cronJobRunID)) (ct_workflows t).

Definition PauseWorkflowRun (workflowRunID cronJobRunID : uuid) (stepIndex : Z) (wait : WaitEventTargetConfig)
  : Handler CronTables unit :=
  transaction (
    let* _ := update_workflow workflowRunID (set_waiting stepIndex wait) in
    update_run cronJobRunID (set_run_status RunWaiting)).

Record ResumedWorkflowRun : Type := mkResumed {
  rs_WorkflowRunID : uuid;
  rs_CronJobRunID : uuid;
  rs_JobID : uuid;
  rs_TenantID : uuid;
  rs_ResumeFromStepIndex : Z;
  rs_TargetConfig : json;
  rs_DispatchMode : string;
  rs_MaxAttempts : Z;
  rs_RetryBackoffSeconds : Z;
  rs_Attempt : Z;
  rs_ResumingRecordID : uuid;
  rs_ResumingEntity : string
}.

(** The column resumeMatching compares. *)
Inductive WaitColumn : Type := WaitAction | WaitRecordEvent.

Definition wait_detail (column : WaitColumn) (w : WorkflowRun) : option string :=
  match column with WaitAction => wr_WaitAction w | WaitRecordEvent => wr_WaitRecordEvent w end.

(** The WHERE clause, for the rows no other session holds. *)
Definition waits_for (locked : uuid -> bool) (tenantID : uuid) (entity : string) (column : WaitColumn) (detail : string)
    (w : WorkflowRun) : bool :=
  bool_decide (wr_TenantID w = tenantID) && String.eqb (wr_Status w) WorkflowWaiting
  && bool_decide (wr_WaitEntity w = Some entity) && bool_decide (wait_detail column w = Some detail)
  && negb (locked (wr_ID w)).

(** The row joined to its job and its run, as the resume path gets it. *)
Definition resumed_of (t : CronTables) (entity : string) (recordID : uuid) (w : WorkflowRun) : option ResumedWorkflowRun :=
  match List.find (job_is (wr_JobID w)) (ct_jobs t), List.find (run_is (wr_CronJobRunID w)) (ct_runs t) with
  | Some j, Some r =>
    Some (mkResumed (wr_ID w) (wr_CronJobRunID w) (wr_JobID w) (wr_TenantID w) (i32 (wr_CurrentStepIndex w + 1))
            (cj_TargetConfig j) (cj_DispatchMode j) (cj_MaxAttempts j) (cj_RetryBackoffSeconds j) (jr_Attempt r) recordID entity)
  | _, _ => None
  end.

Definition set_running (w : WorkflowRun) : WorkflowRun :=
  set_progress WorkflowRunning (wr_CurrentStepIndex w) (wr_Context w) w.

Definition resumeMatching (locked : uuid -> bool) (tenantID : uuid) (entity : string) (column : WaitColumn) (detail : string)
    (recordID : uuid) : Handler CronTables (list ResumedWorkflowRun) :=
  fun t =>
    let resumed := omap (resumed_of t entity recordID)
                     (List.filter (waits_for locked tenantID entity column detail) (ct_workflows t)) in
    let ids := map rs_WorkflowRunID resumed in
    (Ok resumed, set_workflows t (update_matching (fun w => bool_decide (wr_ID w ∈ ids)) set_running (ct_workflows t))).

Definition DispatchOnWaitEventTransitionMatches (locked : uuid -> bool) (tenantID : uuid) (entity action : string)
    (recordID : uuid) : Handler CronTables (list ResumedWorkflowRun) :=
  resumeMatching locked tenantID entity WaitAction action recordID.

Definition DispatchOnWaitEventRecordMatches (locked : uuid -> bool) (tenantID : uuid) (entity event : string)
    (recordID : uuid) : Handler CronTables (list ResumedWorkflowRun) :=
  resumeMatching locked tenantID entity WaitRecordEvent event recordID.

(** ** Claims (dispatch.go) *)

(** The JSON of the payload: the pointers are omitted when nil. *)
Definition optional_member (key : string) (v : option json) : list (string * json) :=
  match v with Some j => [(key, j)] | None => [] end.

Definition payload_json (p : CronJobDuePayload) : json :=
  JObj ([("runId", uuid_json (du_RunID p)); ("jobId", uuid_json (du_JobID p)); ("tenantId", uuid_json (du_TenantID p));
         ("targetType", JStr (du_TargetType p)); ("targetConfig", du_TargetConfig p);
         ("attempt", JNum (FormatInt (du_Attempt p))); ("maxAttempts", JNum (FormatInt (du_MaxAttempts p)));
         ("retryBackoffSeconds", JNum (FormatInt (du_RetryBackoffSeconds p))); ("dispatchMode", JStr (du_DispatchMode p))]
        ++ optional_member "triggerRecordId" (uuid_json <$> du_TriggerRecordID p)
        ++ optional_member "triggerEntity" (JStr <$> du_TriggerEntity p)).

Definition due_of (job : CronJob) (runID : uuid) (attempt : Z) (triggerEntity : option string) (triggerRecordID : option uuid)
  : CronJobDuePayload :=
  mkDue runID (cj_ID job) (cj_TenantID job) (cj_TargetType job) (cj_TargetConfig job) attempt (cj_MaxAttempts job)
    (cj_RetryBackoffSeconds job) (cj_DispatchMode job) triggerRecordID triggerEntity.

(** Gives the job back when the caller must execute it itself. *)
Definition dispatchClaimed (job : CronJob) (runID : uuid) (attempt : Z) (triggerEntity : option string)
    (triggerRecordID : option uuid) : Handler CronTables (list CronJobDuePayload) :=
  let payload := due_of job runID attempt triggerEntity triggerRecordID in
  match ParseDispatchMode (cj_DispatchMode job) with
  | Some DispatchDirect => hret [payload]
  | _ =>
    let* _ := exec (fun t => set_outbox t (EnqueueOutboxEvent (ct_outbox t)
                (mkOutbox RoutingKey "cron_job" (cj_ID job) (payload_json payload)))) in
    hret []
  end.

(** ClaimResult: how many were claimed, and the direct ones. *)
Record ClaimResult : Type := mkClaim { cl_Claimed : nat; cl_DirectJobs : list CronJobDuePayload }.

Definition set_enabled (enabled : bool) (now : Z) (j : CronJob) : CronJob :=
  mkJob (cj_ID j) (cj_TenantID j) (cj_Name j) enabled (cj_TriggerType j) (cj_TriggerConfig j) (cj_CronExpr j) (cj_Timezone j)
    (cj_TargetType j) (cj_TargetConfig j) (cj_DispatchMode j) (cj_MaxAttempts j) (cj_RetryBackoffSeconds j) (cj_NextRunAt j)
    (cj_LastRunAt j) (cj_CreatedAt j) now (cj_CreatedBy j).

Definition set_ran (next : option Z) (last now : Z) (j : CronJob) : CronJob :=
  mkJob (cj_ID j) (cj_TenantID j) (cj_Name j) (cj_Enabled j) (cj_TriggerType j) (cj_TriggerConfig j) (cj_CronExpr j)
    (cj_Timezone j) (cj_TargetType j) (cj_TargetConfig j) (cj_DispatchMode j) (cj_MaxAttempts j) (cj_RetryBackoffSeconds j)
    next (Some last) (cj_CreatedAt j) now (cj_CreatedBy j).

Definition job_due (now : Z) (locked : uuid -> bool) (j : CronJob) : bool :=
  cj_Enabled j && match cj_NextRunAt j with Some at_ => (at_ <=? now)%Z | None => false end && negb (locked (cj_ID j)).

Definition due_at (j : CronJob) : Z := default 0%Z (cj_NextRunAt j).

(** One turn of the loop of ClaimDueJobs. *)
Definition claim_job (now : Z) (job : CronJob) : Handler CronTables (list CronJobDuePayload) :=
  let disable := let* _ := update_job (cj_ID job) (set_enabled false now) in hret [] in
  match cj_CronExpr job with
  | None => disable
  | Some expr =>
    match NextRunAt expr (cj_Timezone job) now with
    | Ok next =>
      let* _ := update_job (cj_ID job) (set_ran (Some next) now now) in
      let* runID := new_uuid in
      let* _ := insert_run runID (cj_TenantID job) (cj_ID job) RunEnqueued 1 (due_at job) now in
      dispatchClaimed job runID 1 None None
    | _ => disable
    end
  end.

(** A loop over the claimed rows that collects the direct jobs. *)
Fixpoint claim_all {A} (claim : A -> Handler CronTables (list CronJobDuePayload)) (l : list A)
  : Handler CronTables (list CronJobDuePayload) :=
  match l with
  | [] => hret []
  | a :: l' => let* d := claim a in let* ds := claim_all claim l' in hret (d ++ ds)
  end.

Definition ClaimDueJobs (now : Z) (batchSize : nat) (locked : uuid -> bool) : Handler CronTables ClaimResult :=
  transaction (
    let* jobs := read_with (fun t => take batchSize (order_by due_at (List.filter (job_due now locked) (ct_jobs t)))) in
    let* direct := claim_all (claim_job now) jobs in
    hret (mkClaim (length jobs) direct)).

(** trigger_config ->> key *)
Definition config_text (config : option json) (key : string) : option string :=
  match config with
  | Some (JObj l) =>
    match map_of_members l !! key with
    | None | Some JNull => None
    | Some (JStr s) => Some s
    | Some j => Some (pg_jsonb_text j)
    end
  | _ => None
  end.

Definition triggered_by (tenantID : uuid) (trigger : TriggerType) (entity key detail : string) (j : CronJob) : bool :=
  bool_decide (cj_TenantID j = tenantID) && cj_Enabled j && String.eqb (cj_TriggerType j) (TriggerType_text trigger)
  && bool_decide (config_text (cj_TriggerConfig j) "entity" = Some entity)
  && bool_decide (config_text (cj_TriggerConfig j) key = Some detail).

(** One turn of the loop of fireMatchedJobs. *)
Definition fire_job (now : Z) (entity : string) (recordID : uuid) (job : CronJob) : Handler CronTables (list CronJobDuePayload) :=
  let* runID := new_uuid in
  let* _ := insert_run runID (cj_TenantID job) (cj_ID job) RunEnqueued 1 now now in
  let* _ := update_job (cj_ID job) (fun j => set_ran (cj_NextRunAt j) now now j) in
  dispatchClaimed job runID 1 (Some entity) (Some recordID).

Definition fireMatchedJobs (now : Z) (entity : string) (recordID : uuid) (jobs : list CronJob) : Handler CronTables ClaimResult :=
  let* direct := claim_all (fire_job now entity recordID) jobs in
  hret (mkClaim (length jobs) direct).

Definition DispatchOnTransitionMatches (now : Z) (tenantID : uuid) (entity action : string) (recordID : uuid)
  : Handler CronTables ClaimResult :=
  transaction (
    let* jobs := read_with (fun t => List.filter (triggered_by tenantID TriggerOnTransition entity "action" action) (ct_jobs t)) in
    fireMatchedJobs now entity recordID jobs).

Definition DispatchOnRecordEventMatches (now : Z) (tenantID : uuid) (entity event : string) (recordID : uuid)
  : Handler CronTables ClaimResult :=
  transaction (
    let* jobs := read_with (fun t => List.filter (triggered_by tenantID TriggerOnRecordEvent entity "event" event) (ct_jobs t)) in
    fireMatchedJobs now entity recordID jobs).

(** retryClaimStaleAfter: 300 seconds. *)
Definition retryClaimStaleAfter : Z := 300 * Second.

(** A run joined to its job. *)
Definition run_job (t : CronTables) (r : CronJobRun) : option (CronJobRun * CronJob) :=
  (fun j => (r, j)) <$> List.find (job_is (jr_JobID r)) (ct_jobs t).

Definition retry_due (now : Z) (locked : uuid -> bool) (rj : CronJobRun * CronJob) : bool :=
  let '(r, j) := rj in
  (1 <? jr_Attempt r)%Z && String.eqb (jr_Status r) (RunStatus_text RunEnqueued)
  && match jr_StartedAt r with None => true | Some at_ => (at_ <? now - retryClaimStaleAfter)%Z end
  && (jr_ScheduledFor r <=? now)%Z && cj_Enabled j && negb (locked (jr_ID r)).

Definition claim_retry (now : Z) (rj : CronJobRun * CronJob) : Handler CronTables (list CronJobDuePayload) :=
  let '(r, j) := rj in
  let* d := dispatchClaimed j (jr_ID r) (jr_Attempt r) None None in
  let* _ := update_run (jr_ID r) (set_started now) in
  hret d.

Definition ClaimDueRetries (now : Z) (batchSize : nat) (locked : uuid -> bool) : Handler CronTables ClaimResult :=
  transaction (
    let* retries := read_with (fun t => take batchSize
      (order_by (fun rj => jr_ScheduledFor rj.1) (List.filter (retry_due now locked) (omap (run_job t) (ct_runs t))))) in
    let* direct := claim_all (claim_retry now) retries in
    hret (mkClaim (length retries) direct)).

(** ** Managing jobs (job_crud.go) *)

Definition ListJobs (t : CronTables) (tenantID : uuid) : list CronJob :=
  order_by cj_CreatedAt (List.filter (fun j => bool_decide (cj_TenantID j = tenantID)) (ct_jobs t)).

Definition tenant_job (tenantID id : uuid) (j : CronJob) : bool := bool_decide (cj_TenantID j = tenantID) && job_is id j.

Definition GetJob (t : CronTables) (tenantID id : uuid) : option CronJob := List.find (tenant_job tenantID id) (ct_jobs t).

Record NewCronJob : Type := mkNewJob {
  nj_Name : string;
  nj_TriggerType : string;
  nj_TriggerConfig : option json;
  nj_CronExpr : option string;
  nj_Timezone : string;
  nj_TargetType : string;
  nj_TargetConfig : json;
  nj_DispatchMode : string;
  nj_MaxAttempts : Z;
  nj_RetryBackoffSeconds : Z;
  nj_Enabled : bool
}.

Definition computeNextRun (triggerType : string) (cronExpr : option string) (timezone : string) (now : Z) : result error (option Z) :=
  match ParseTriggerType triggerType with
  | Some TriggerSchedule =>
    match cronExpr with
    | None => Err "`cronExpr` is required when triggerType is schedule"
    | Some expr => let! next := NextRunAt expr timezone now in Ok (Some next)
    end
  | _ => Ok None
  end.

Definition CreateJob (now : Z) (tenantID : uuid) (input : NewCronJob) (createdBy : option uuid) : Handler CronTables CronJob :=
  let* nextRun := hlift (computeNextRun (nj_TriggerType input) (nj_CronExpr input) (nj_Timezone input) now) in
  let* id := new_uuid in
  let job := mkJob id tenantID (nj_Name input) (nj_Enabled input) (nj_TriggerType input) (nj_TriggerConfig input) (nj_CronExpr input)
    (nj_Timezone input) (nj_TargetType input) (nj_TargetConfig input) (nj_DispatchMode input) (nj_MaxAttempts input)
    (nj_RetryBackoffSeconds input) nextRun None now now createdBy in
  fun t =>
    if existsb (job_is id) (ct_jobs t) then hfail unique_violation t
    else (Ok job, set_jobs t (ct_jobs t ++ [job])).

Record JobUpdate : Type := mkJobUpdate {
  ju_Name : option string;
  ju_TriggerType : option string;
  ju_TriggerConfig : option json;
  ju_CronExpr : option string;
  ju_Timezone : option string;
  ju_TargetType : option string;
  ju_TargetConfig : option json;
  ju_DispatchMode : option string;
  ju_MaxAttempts : option Z;
  ju_RetryBackoffSeconds : option Z;
  ju_Enabled : option bool
}.

(** strOr, i32Or, boolOr and rawOr. *)
Definition or_existing {A} (override : option A) (existing : A) : A := default existing override.
Definition or_else {A} (override existing : option A) : option A := match override with Some _ => override | None => existing end.

(** The row an update writes over [existing]. *)
Definition updated_job (now : Z) (update : JobUpdate) (nextRun : option Z) (e : CronJob) : CronJob :=
  mkJob (cj_ID e) (cj_TenantID e) (or_existing (ju_Name update) (cj_Name e)) (or_existing (ju_Enabled update) (cj_Enabled e))
    (or_existing (ju_TriggerType update) (cj_TriggerType e)) (or_else (ju_TriggerConfig update) (cj_TriggerConfig e))
    (or_else (ju_CronExpr update) (cj_CronExpr e)) (or_existing (ju_Timezone update) (cj_Timezone e))
    (or_existing (ju_TargetType update) (cj_TargetType e)) (or_existing (ju_TargetConfig update) (cj_TargetConfig e))
    (or_existing (ju_DispatchMode update) (cj_DispatchMode e)) (or_existing (ju_MaxAttempts update) (cj_MaxAttempts e))
    (or_existing (ju_RetryBackoffSeconds update) (cj_RetryBackoffSeconds e)) nextRun (cj_LastRunAt e) (cj_CreatedAt e) now
    (cj_CreatedBy e).

Definition UpdateJob (now : Z) (tenantID id : uuid) (update : JobUpdate) : Handler CronTables (option CronJob) :=
  let* existing := read_with (fun t => GetJob t tenantID id) in
  match existing with
  | None => hret None
  | Some e =>
    let* nextRun := hlift (computeNextRun (or_existing (ju_TriggerType update) (cj_TriggerType e))
                             (or_else (ju_CronExpr update) (cj_CronExpr e)) (or_existing (ju_Timezone update) (cj_Timezone e)) now) in
    let job := updated_job now update nextRun e in
    let* _ := exec (fun t => set_jobs t (update_matching (tenant_job tenantID id) (fun _ => job) (ct_jobs t))) in
    hret (Some job)
  end.

(** The runs and workflow runs of the job go with it (ON DELETE CASCADE). *)
Definition DeleteJob (tenantID id : uuid) : Handler CronTables unit :=
  exec (fun t =>
    if existsb (tenant_job tenantID id) (ct_jobs t) then
      set_workflows (set_runs (set_jobs t (List.filter (fun j => negb (tenant_job tenantID id j)) (ct_jobs t)))
        (List.filter (fun r => negb (bool_decide (jr_JobID r = id))) (ct_runs t)))
        (List.filter (fun w => negb (bool_decide (wr_JobID w = id))) (ct_workflows t))
    else t).

Definition ListJobRuns (t : CronTables) (tenantID jobID : uuid) (limit : nat) : list CronJobRun :=
  take limit (reverse (order_by jr_CreatedAt
    (List.filter (fun r => bool_decide (jr_TenantID r = tenantID) && bool_decide (jr_JobID r = jobID)) (ct_runs t)))).
End Cron.
