(* ===== verification/Outbound.v ===== *)
(** What a scheduled job does to the outside (src/go/cronscheduler): webhooks and
    the guard on their targets (ssrfguard.go, webhook.go), mail (email.go), and the
    record operations of another service (workflowtransition.go).

    The outside is an interface, [Outside]: the URL parser, the resolver, the HTTP
    and SMTP clients, the secret store and the record backend. Every call made to
    it is appended to a log, and an answer may depend on the log. The order in
    which Go ranges over a map is a parameter. *)
From S2P Require Import Prelude GoStrings GoText Json Floats Condition Context Uuid Evaluate Snapshot PermissionService PolicyStore Metadata Schema Router Payload Workflow AuditTrail Sql ConditionSql Jql Planner Records Crud Cron.

Open Scope string_scope.
Open Scope list_scope.

(** ** Addresses: package net *)

(** A net.IP: 4 or 16 bytes. *)
Notation ip := (list N).

Definition ip_byte (a : ip) (i : nat) : N := nth i a 0%N.

Definition is_zero (b : N) : bool := (b =? 0)%N.

Definition To4 (a : ip) : option ip :=
  if (length a =? 4)%nat then Some a
  else if (length a =? 16)%nat && forallb is_zero (take 10 a) && (ip_byte a 10 =? 255)%N && (ip_byte a 11 =? 255)%N
  then Some (drop 12 a) else None.

Definition To16 (a : ip) : option ip :=
  if (length a =? 4)%nat then Some (repeat 0%N 10 ++ [255%N; 255%N] ++ a)
  else if (length a =? 16)%nat then Some a else None.

Definition IPv6loopback : ip := repeat 0%N 15 ++ [1%N].

(** The methods of an IP on its 4 bytes, then on its 16. *)
Definition v4_IsPrivate (a : ip) : bool :=
  (ip_byte a 0 =? 10)%N || ((ip_byte a 0 =? 172)%N && (N.land (ip_byte a 1) 240 =? 16)%N)
  || ((ip_byte a 0 =? 192)%N && (ip_byte a 1 =? 168)%N).
Definition v4_IsLoopback (a : ip) : bool := (ip_byte a 0 =? 127)%N.
Definition v4_IsLinkLocalUnicast (a : ip) : bool := (ip_byte a 0 =? 169)%N && (ip_byte a 1 =? 254)%N.
Definition v4_IsUnspecified (a : ip) : bool := forallb is_zero a.
Definition v4_IsMulticast (a : ip) : bool := (N.land (ip_byte a 0) 240 =? 224)%N.
Definition v4_IsBroadcast (a : ip) : bool := forallb (fun b => b =? 255)%N a.

Definition v6_IsLoopback (a : ip) : bool := bool_decide (a = IPv6loopback).
Definition v6_IsUnspecified (a : ip) : bool := bool_decide (a = repeat 0%N 16).
Definition v6_IsMulticast (a : ip) : bool := (ip_byte a 0 =? 255)%N.

(** ** The guard (ssrfguard.go) *)

Definition isBlockedV4 (a : ip) : bool :=
  let x := ip_byte a 0 in let y := ip_byte a 1 in let z := ip_byte a 2 in
  v4_IsPrivate a || v4_IsLoopback a || v4_IsLinkLocalUnicast a || v4_IsUnspecified a || v4_IsMulticast a
  || v4_IsBroadcast a
  || ((x =? 192) && (y =? 0) && (z =? 2))%N
  || ((x =? 198) && (y =? 51) && (z =? 100))%N
  || ((x =? 203) && (y =? 0) && (z =? 113))%N
  || ((x =? 100) && (64 <=? y) && (y <? 128))%N.

Definition isBlockedV6 (a : ip) : bool :=
  v6_IsLoopback a || v6_IsUnspecified a || v6_IsMulticast a
  || let first := N.lor (N.shiftl (ip_byte a 0) 8) (ip_byte a 1) in
     (N.land first 0xfe00 =? 0xfc00)%N || (N.land first 0xffc0 =? 0xfe80)%N.

(** An address of another length indexes an empty slice. *)
Definition IsBlockedIP (a : ip) : result error bool :=
  match To4 a with
  | Some v4 => Ok (isBlockedV4 v4)
  | None => match To16 a with Some v6 => Ok (isBlockedV6 v6) | None => Panic end
  end.

Definition forbiddenHeaders : list string := ["authorization"; "cookie"; "proxy-authorization"].

Record WebhookPolicy : Type := mkPolicy { wp_AllowedHosts : list string; wp_AllowPrivateTargets : bool }.

(** The value of CRON_WEBHOOK_ALLOWED_HOSTS and whether the escape hatch is on. *)
Definition WebhookPolicyFromEnv (allowedHosts : option string) (allowPrivate : bool) : WebhookPolicy :=
  mkPolicy (match allowedHosts with
            | Some raw => List.filter (fun h => negb (String.eqb h "")) (map (fun h => ToLower (TrimSpace h)) (Split raw ","))
            | None => []
            end) allowPrivate.

Definition host_matches (host allowed : string) : bool :=
  match CutPrefix allowed "." with
  | Some domain => String.eqb host domain || HasSuffix host allowed
  | None => String.eqb host allowed
  end.

Definition hostAllowed (p : WebhookPolicy) (host : string) : bool :=
  match wp_AllowedHosts p with [] => true | hosts => existsb (host_matches host) hosts end.

(** A parsed URL: its scheme, its host without port and brackets, its text. *)
Record URL : Type := mkURL { u_Scheme : string; u_Hostname : string; u_String : string }.

Record HttpRequest : Type := mkHttp {
  hq_Method : string;
  hq_URL : URL;
  hq_Header : gmap string string;
  hq_Body : goany
}.

(** A call of smtp.SendMail: the server, the credentials of PlainAuth if any. *)
Record Mail : Type := mkMail {
  ml_Addr : string;
  ml_Auth : option (string * string);
  ml_From : string;
  ml_To : list string;
  ml_Message : string
}.

Section Outbound.
Context `{!UuidLib}.

Inductive Effect : Type :=
| SentHttp (r : HttpRequest)
| SentMail (m : Mail)
| CalledList (entity : string) (input : ListInput)
| CalledGet (entity : string) (id : uuid)
| CalledTransition (entity : string) (id : uuid) (action : string) (version : Z).

(** The calls a job makes on a crud.RecordBackend. *)
Record RecordBackend : Type := mkBackend {
  rb_List : list Effect -> string -> ListInput -> RequestContext -> result error (ServiceResult (list RecordDto));
  rb_Get : list Effect -> string -> uuid -> RequestContext -> result error (ServiceResult GetResult);
  rb_Transition : list Effect -> string -> uuid -> string -> Z -> RequestContext -> result error (ServiceResult RecordDto)
}.
End Outbound.

Class Outside `{!UuidLib} := {
  url_Parse : string -> option URL;
  (** the addresses of a host name; [None] is an error *)
  LookupIPAddr : string -> option (list ip);
  (** the status and the body of the answer *)
  http_Do : list Effect -> HttpRequest -> result error (Z * string);
  smtp_SendMail : list Effect -> Mail -> option error;
  (** [None]: no secret store is configured *)
  secrets : option (string -> result error string);
  (** [None]: CRON_TARGET_GRPC_ADDR is unset *)
  backend : option RecordBackend;
  (** the order of a range over a map *)
  range : gmap string string -> list (string * string)
}.

Class OutsideLaws `{!UuidLib} (O : Outside) : Prop := {
  range_permutes : forall m, range m ≡ₚ map_to_list m
}.

Section Targets.
Context `{!UuidLib} `{!Outside}.

Definition CheckURLShape (p : WebhookPolicy) (rawURL : string) : result error URL :=
  match url_Parse rawURL with
  | None => Err ("invalid webhook url " +:+ string_text rawURL)
  | Some u =>
    if negb (String.eqb (u_Scheme u) "http") && negb (String.eqb (u_Scheme u) "https")
    then Err ("webhook url scheme " +:+ string_text (u_Scheme u) +:+ " is not allowed (http/https only)")
    else
      let host := ToLower (u_Hostname u) in
      if String.eqb host "" then Err "webhook url has no host"
      else if negb (hostAllowed p host)
      then Err ("webhook host " +:+ string_text host +:+ " is not in CRON_WEBHOOK_ALLOWED_HOSTS")
      else Ok u
  end.

(** The loop over the resolved addresses: the first blocked one is an error. *)
Fixpoint check_addresses (host : string) (addrs : list ip) : result error () :=
  match addrs with
  | [] => Ok tt
  | a :: rest =>
    let! blocked := IsBlockedIP a in
    if blocked then Err ("webhook target " +:+ host +:+ " resolves to a blocked address")
    else check_addresses host rest
  end.

Definition Check (p : WebhookPolicy) (rawURL : string) : result error URL :=
  let! u := CheckURLShape p rawURL in
  if wp_AllowPrivateTargets p then Ok u
  else match LookupIPAddr (u_Hostname u) with
       | None => Err ("resolving webhook host " +:+ string_text (u_Hostname u))
       | Some [] => Err ("webhook host " +:+ string_text (u_Hostname u) +:+ " resolved to no addresses")
       | Some addrs => let! _ := check_addresses (u_Hostname u) addrs in Ok u
       end.

Definition CheckHeaders (names : list string) : result error () :=
  match List.find (fun n => bool_decide (ToLower (TrimSpace n) ∈ forbiddenHeaders)) names with
  | Some n => Err ("webhook header " +:+ string_text n +:+ " is not allowed")
  | None => Ok tt
  end.

(** ** Webhooks (webhook.go) *)

Definition log_call (e : Effect) : Handler (list Effect) unit := fun log => (Ok tt, log ++ [e]).
Definition read_log : Handler (list Effect) (list Effect) := fun log => (Ok log, log).

Record webhookConfig : Type := mkWebhook {
  wh_URL : string;
  wh_Method : string;
  wh_Headers : gmap string string;
  wh_Body : option json;
  wh_AuthorizationFromSecret : bool
}.

(** Into a map[string]string: null is the empty string. *)
Fixpoint into_headers (l : list (string * json)) (acc : gmap string string * bool) : gmap string string * bool :=
  match l with
  | [] => acc
  | (k, v) :: l' =>
    into_headers l' (match v with
                     | JStr s => (<[k := s]> acc.1, acc.2)
                     | JNull => (<[k := ""]> acc.1, acc.2)
                     | _ => (acc.1, true)
                     end)
  end.

Definition webhook_step (st : webhookConfig * bool) (kv : string * json) : webhookConfig * bool :=
  let '(mkWebhook u m h b a, bad) := st in
  let '(k, v) := kv in
  if key_matches "url" k then let '(u, bad) := into_string (u, bad) v in (mkWebhook u m h b a, bad)
  else if key_matches "method" k then let '(m, bad) := into_string (m, bad) v in (mkWebhook u m h b a, bad)
  else if key_matches "headers" k then
    match v with
    | JObj l => let '(h, bad) := into_headers l (h, bad) in (mkWebhook u m h b a, bad)
    | JNull => (mkWebhook u m ∅ b a, bad)
    | _ => (mkWebhook u m h b a, true)
    end
  else if key_matches "body" k then (mkWebhook u m h (Some v) a, bad)
  else if key_matches "authorizationFromSecret" k then
    match v with
    | JBool x => (mkWebhook u m h b x, bad)
    | JNull => st
    | _ => (mkWebhook u m h b a, true)
    end
  else st.

Definition unmarshal_webhook (raw : option json) : option webhookConfig :=
  unmarshal_struct (mkWebhook "" "" ∅ None false) webhook_step raw.

Definition webhookAuthorizationKey : string := "cron.webhookAuthorization".

(** control.TenantSecretRef *)
Definition ref_rune (r : N) : string :=
  if is_lower r || is_upper r || is_digit r then encode_rune r else "_".

Definition TenantSecretRef (tenantID : uuid) (key : string) : string :=
  "METAP_TENANT_" +:+ ToUpper (ReplaceByte (uuid_String tenantID) "-" "") +:+ "_"
  +:+ ToUpper (String.concat "" (map ref_rune (runes key))).

(** The bytes of a token: httpguts and textproto. *)
Definition token_byte (c : ascii) : bool :=
  let b := byte_of c in
  is_lower b || is_upper b || is_digit b || ContainsByte "!#$%&'*+-.^_`|~" c.

Definition valid_method (m : string) : bool := negb (String.eqb m "") && all_bytes token_byte m.

(** textproto.CanonicalMIMEHeaderKey. *)
Fixpoint canonical_from (upper : bool) (s : string) : string :=
  match s with
  | "" => ""
  | String c s' =>
    (if upper then ToUpper (str1 c) else ToLower (str1 c)) +:+ canonical_from (Ascii.eqb c "-") s'
  end.

Definition CanonicalHeaderKey (s : string) : string := if all_bytes token_byte s then canonical_from true s else s.

(** Header.Set *)
Definition header_Set (key value : string) (h : gmap string string) : gmap string string := <[CanonicalHeaderKey key := value]> h.

Definition request_headers (headers : gmap string string) (credential : option string) : gmap string string :=
  let h := header_Set "Content-Type" "application/json" ∅ in
  let h := fold_left (fun h kv => header_Set kv.1 kv.2 h) (range headers) h in
  match credential with Some c => header_Set "Authorization" c h | None => h end.

(** strings.ReplaceAll of a pattern that is not empty. *)
Fixpoint replace_all (fuel : nat) (s old new : string) : string :=
  match fuel with
  | O => s
  | S fuel =>
    match CutString s old with
    | Some (before, after) => before +:+ new +:+ replace_all fuel after old new
    | None => s
    end
  end.

Definition redact (text : string) (credential : option string) : string :=
  match credential with
  | Some secret => if String.eqb secret "" then text else replace_all (String.length text) text secret "[REDACTED]"
  | None => text
  end.

(** The offset of the last rune that starts at or before [max]. *)
Fixpoint last_start (max offset last : nat) (rs : list (N * string)) : nat :=
  match rs with
  | [] => last
  | (_, bytes) :: rs' =>
    if (max <? offset)%nat then last else last_start max (offset + String.length bytes) offset rs'
  end.

Definition truncate (s : string) (max : nat) : string :=
  if (String.length s <=? max)%nat then s
  else str_take (last_start max 0 0 (decode_utf8 s)) s +:+ "...".

(** The body sent: the configured one, with the identifiers of the firing when it
    is an object. *)
Definition webhook_body (cfg : webhookConfig) (jobID runID : uuid) (triggerEntity : option string)
    (triggerRecordID : option uuid) : result error goany :=
  let! value := match wh_Body cfg with
                | None => Ok (AMap [])
                | Some b => match unmarshal_any b with Some a => Ok a | None => Err "invalid webhook body" end
                end in
  match value with
  | AMap l =>
    let l := assoc_insert "jobId" (AStr (uuid_String jobID)) l in
    let l := assoc_insert "runId" (AStr (uuid_String runID)) l in
    let l := match triggerEntity with Some e => assoc_insert "entity" (AStr e) l | None => l end in
    let l := match triggerRecordID with Some r => assoc_insert "recordId" (AStr (uuid_String r)) l | None => l end in
    Ok (AMap l)
  | v => Ok v
  end.

Definition webhook_credential (cfg : webhookConfig) (tenantID : uuid) : result error (option string) :=
  if wh_AuthorizationFromSecret cfg then
    match secrets with
    | None => Err "this job requests its tenant's stored credential, but no secret backend is configured for cron-scheduler"
    | Some get =>
      let secretRef := TenantSecretRef tenantID webhookAuthorizationKey in
      match get secretRef with
      | Ok v => Ok (Some v)
      | Err e => Err ("could not resolve this tenant's webhook credential (" +:+ secretRef +:+ "): " +:+ e)
      | Panic => Panic
      end
    end
  else Ok None.

Definition RunWebhook (policy : WebhookPolicy) (tenantID jobID runID : uuid) (triggerEntity : option string)
    (triggerRecordID : option uuid) (targetConfig : option json) : Handler (list Effect) json :=
  match unmarshal_webhook targetConfig with
  | None => hfail "invalid webhook target_config"
  | Some cfg =>
    let method := if String.eqb (wh_Method cfg) "" then "POST" else wh_Method cfg in
    let* _ := hlift (CheckHeaders (map fst (range (wh_Headers cfg)))) in
    let* u := hlift (Check policy (wh_URL cfg)) in
    let* credential := hlift (webhook_credential cfg tenantID) in
    let* body := hlift (webhook_body cfg jobID runID triggerEntity triggerRecordID) in
    if negb (valid_method method) then hfail ("invalid HTTP method " +:+ string_text (wh_Method cfg))
    else
      let request := mkHttp method u (request_headers (wh_Headers cfg) credential) body in
      let* log := read_log in
      let* _ := log_call (SentHttp request) in
      let* (status, answer) := hlift (http_Do log request) in
      let text := redact answer credential in
      if (status <? 200)%Z || (300 <=? status)%Z
      then hfail ("webhook returned " +:+ FormatInt status +:+ ": " +:+ truncate text 500)
      else hret (JObj [("body", JStr (truncate text 2000)); ("status", JNum (FormatInt status))])
  end.

(** ** Mail (email.go) *)

Record SmtpConfig : Type := mkSmtp {
  sm_Host : string;
  sm_Port : Z;
  sm_User : string;
  sm_Password : string;
  sm_From : string
}.

Record emailConfig : Type := mkEmail { em_To : list string; em_Subject : string; em_Body : string }.

(** emailRecipients.UnmarshalJSON: one address (null reads as an empty one) or a list. *)
Definition into_recipients (v : json) : option (list string) :=
  match unmarshal_string v with
  | Some one => Some [one]
  | None => unmarshal_strings v
  end.

Definition email_step (st : emailConfig * bool) (kv : string * json) : emailConfig * bool :=
  let '(mkEmail t s b, bad) := st in
  if key_matches "to" kv.1 then
    match into_recipients kv.2 with Some t => (mkEmail t s b, bad) | None => (mkEmail t s b, true) end
  else if key_matches "subject" kv.1 then let '(s, bad) := into_string (s, bad) kv.2 in (mkEmail t s b, bad)
  else if key_matches "body" kv.1 then let '(b, bad) := into_string (b, bad) kv.2 in (mkEmail t s b, bad)
  else st.

Definition unmarshal_email (raw : option json) : option emailConfig := unmarshal_struct (mkEmail [] "" "") email_step raw.

Definition crlf : string := String "013" (String "010" "").
Definition newline : string := String "010" "".

Definition buildMimeMessage (from : string) (to : list string) (subject body : string) : string :=
  "From: " +:+ from +:+ crlf +:+ "To: " +:+ Join to ", " +:+ crlf +:+ "Subject: " +:+ subject +:+ crlf +:+ crlf +:+ body.

Definition email_body (cfg : emailConfig) (triggerEntity : option string) (triggerRecordID : option uuid) : string :=
  match triggerEntity with
  | None => em_Body cfg
  | Some e =>
    em_Body cfg +:+ newline +:+ newline +:+ "---" +:+ newline +:+ "Triggered by: " +:+ e
    +:+ match triggerRecordID with Some r => " (record " +:+ uuid_String r +:+ ")" | None => "" end
  end.

Definition RunEmail (smtp : SmtpConfig) (triggerEntity : option string) (triggerRecordID : option uuid)
    (targetConfig : option json) : Handler (list Effect) json :=
  match unmarshal_email targetConfig with
  | None => hfail "invalid email target_config"
  | Some cfg =>
    if String.eqb (sm_Host smtp) "" then hfail "email target requires SMTP_HOST to be configured"
    else if String.eqb (sm_From smtp) "" then hfail "email target requires SMTP_FROM to be configured"
    else if (length (em_To cfg) =? 0)%nat then hfail "email target_config.to must not be empty"
    else
      let auth := if negb (String.eqb (sm_User smtp) "") && negb (String.eqb (sm_Password smtp) "")
                  then Some (sm_User smtp, sm_Password smtp) else None in
      let mail := mkMail (sm_Host smtp +:+ ":" +:+ FormatInt (sm_Port smtp)) auth (sm_From smtp) (em_To cfg)
                    (buildMimeMessage (sm_From smtp) (em_To cfg) (em_Subject cfg) (email_body cfg triggerEntity triggerRecordID)) in
      let* log := read_log in
      let* _ := log_call (SentMail mail) in
      match smtp_SendMail log mail with
      | Some e => hfail e
      | None => hret (JObj [("subject", JStr (em_Subject cfg)); ("to", JArr (map JStr (em_To cfg)))])
      end
  end.

(** ** Records of another service (workflowtransition.go) *)

(** The context of a call the process makes for itself: no field is set. *)
Definition serviceContext : RequestContext := mkRequestContext "" "" None false "" None "".

(** %v of a map of lists of strings: keys in order. *)
Definition field_errors_text (m : FieldErrors) : string :=
  "map[" +:+ Join (map (fun kv => kv.1 +:+ ":[" +:+ Join kv.2 " " +:+ "]") (sorted_members m)) " " +:+ "]".

(** A refusal is an error like any other. *)
Definition unwrapResult {T} (r : result error (ServiceResult T)) : result error T :=
  let! s := r in
  match s with
  | ServiceOk data _ => Ok data
  | ServiceErr e =>
    let msg := match se_Message e with Some m => se_ErrorCode e +:+ ": " +:+ m | None => se_ErrorCode e end in
    let msg := match se_FieldErrors e with Some f => msg +:+ " (field_errors: " +:+ field_errors_text f +:+ ")" | None => msg end in
    Err (FormatInt (se_Status e) +:+ " " +:+ msg)
  end.

Definition targetGRPCBackend : result error RecordBackend :=
  match backend with
  | Some b => Ok b
  | None => Err "CRON_TARGET_GRPC_ADDR is unset or the initial connection to it failed — workflow_transition/bulk_query_action jobs cannot run"
  end.

Definition transitionOne (entity : string) (recordID : uuid) (action : string) : Handler (list Effect) RecordDto :=
  let* b := hlift targetGRPCBackend in
  let* log := read_log in
  let* _ := log_call (CalledGet entity recordID) in
  let* got := hlift (unwrapResult (rb_Get b log entity recordID serviceContext)) in
  let* log := read_log in
  let* _ := log_call (CalledTransition entity recordID action (rd_Version (gr_Record got))) in
  hlift (unwrapResult (rb_Transition b log entity recordID action (rd_Version (gr_Record got)) serviceContext)).

Record workflowTransitionConfig : Type := mkWorkflowTransition { wtc_Entity : string; wtc_RecordID : uuid; wtc_Action : string }.

(** recordId decodes with uuid.UUID.UnmarshalText; absent it is the nil UUID. *)
Definition into_uuid (cur : uuid * bool) (v : json) : uuid * bool :=
  match v with
  | JStr s => match uuid_Parse s with Some u => (u, cur.2) | None => (cur.1, true) end
  | JNull => cur
  | _ => (cur.1, true)
  end.

Definition transition_step (st : workflowTransitionConfig * bool) (kv : string * json) : workflowTransitionConfig * bool :=
  let '(mkWorkflowTransition e r a, bad) := st in
  if key_matches "entity" kv.1 then let '(e, bad) := into_string (e, bad) kv.2 in (mkWorkflowTransition e r a, bad)
  else if key_matches "recordId" kv.1 then let '(r, bad) := into_uuid (r, bad) kv.2 in (mkWorkflowTransition e r a, bad)
  else if key_matches "action" kv.1 then let '(a, bad) := into_string (a, bad) kv.2 in (mkWorkflowTransition e r a, bad)
  else st.

(** json.Marshal of a RecordDto. *)
Definition opt_string_json (s : option string) : json := match s with Some s => JStr s | None => JNull end.

Definition dto_json (d : RecordDto) : json :=
  JObj ([("id", uuid_json (rd_ID d)); ("entity", JStr (rd_Entity d)); ("code", opt_string_json (rd_Code d));
         ("status", opt_string_json (rd_Status d)); ("data", marshal_map (rd_Data d));
         ("version", JNum (FormatInt (rd_Version d))); ("createdAt", JStr (format_time (rd_CreatedAt d)));
         ("updatedAt", JStr (format_time (rd_UpdatedAt d)))]
        ++ match sorted_members (rd_RelatedDisplay d) with
           | [] => []
           | l => [("relatedDisplay", JObj (map (fun kv => (kv.1, JStr kv.2)) l))]
           end).

Definition RunWorkflowTransition (nil_uuid : uuid) (targetConfig : option json) : Handler (list Effect) json :=
  match unmarshal_struct (mkWorkflowTransition "" nil_uuid "") transition_step targetConfig with
  | None => hfail "invalid workflow_transition target_config"
  | Some cfg =>
    let* record := transitionOne (wtc_Entity cfg) (wtc_RecordID cfg) (wtc_Action cfg) in
    hret (dto_json record)
  end.

Record bulkQueryActionConfig : Type := mkBulk { bq_Entity : string; bq_Filter : gmap string string; bq_Action : string }.

Definition bulk_step (st : bulkQueryActionConfig * bool) (kv : string * json) : bulkQueryActionConfig * bool :=
  let '(mkBulk e f a, bad) := st in
  let '(k, v) := kv in
  if key_matches "entity" k then let '(e, bad) := into_string (e, bad) v in (mkBulk e f a, bad)
  else if key_matches "filter" k then
    match v with
    | JObj l => let '(f, bad) := into_headers l (f, bad) in (mkBulk e f a, bad)
    | JNull => (mkBulk e ∅ a, bad)
    | _ => (mkBulk e f a, true)
    end
  else if key_matches "action" k then let '(a, bad) := into_string (a, bad) v in (mkBulk e f a, bad)
  else st.

(** One record of the loop: its failure is collected, not returned. *)
Definition attempt_one (entity action : string) (id : uuid) : Handler (list Effect) (option error) :=
  fun log => match transitionOne entity id action log with
             | (Ok _, log') => (Ok None, log')
             | (Err (Failed e), log') => (Ok (Some e), log')
             | (Err (Refused r), log') => (Ok (Some (se_ErrorCode r)), log')
             | (Panic, log') => (Panic, log')
             end.

Fixpoint attempt_each (entity action : string) (ids : list uuid) : Handler (list Effect) (list (uuid * option error)) :=
  match ids with
  | [] => hret []
  | id :: ids' =>
    let* e := attempt_one entity action id in
    let* rest := attempt_each entity action ids' in
    hret ((id, e) :: rest)
  end.

Definition failure_json (f : uuid * option error) : option json :=
  match f.2 with Some e => Some (JObj [("error", JStr e); ("id", uuid_json f.1)]) | None => None end.

Definition bulk_input (filter : gmap string string) : ListInput := mkListInput 200 None (range filter) None None None.

Definition RunBulkQueryAction (targetConfig : option json) : Handler (list Effect) json :=
  match unmarshal_struct (mkBulk "" ∅ "") bulk_step targetConfig with
  | None => hfail "invalid bulk_query_action target_config"
  | Some cfg =>
    let* b := hlift targetGRPCBackend in
    let* log := read_log in
    let* _ := log_call (CalledList (bq_Entity cfg) (bulk_input (bq_Filter cfg))) in
    let* records := hlift (unwrapResult (rb_List b log (bq_Entity cfg) (bulk_input (bq_Filter cfg)) serviceContext)) in
    let* outcomes := attempt_each (bq_Entity cfg) (bq_Action cfg) (map rd_ID records) in
    let failed := omap failure_json outcomes in
    hret (JObj [("failed", JArr failed); ("matched", JNum (Itoa (length records)));
                ("succeeded", JNum (Itoa (length records - length failed)))])
  end.
End Targets.
