(* ===== verification/CronScheduler.v ===== *)
(** The process that runs scheduled jobs (src/go/cronscheduler): the execution of a
    firing and of a chain of steps (dispatch.go, steps.go), the ticker (ticker.go)
    and the listener that turns events into firings and resumes paused chains
    (trigger.go).

    The state is the tables of Cron.v and the log of the calls made to the outside
    (Outbound.v). A statement on the tables fails only on a constraint. A panic
    ends the process: nothing recovers it, so it is the end of a handler here. *)
From S2P Require Import Prelude GoStrings GoText Json Floats Condition Context Uuid Evaluate Snapshot PermissionService PolicyStore Metadata Schema Router Payload Workflow AuditTrail Sql ConditionSql Jql Planner Records Crud Cron Outbound.

Open Scope string_scope.
Open Scope list_scope.

(** A decoded step of a chain. *)
Record activity : Type := mkActivity { act_TargetType : string; act_TargetConfig : option json }.

Definition zero_activity : activity := mkActivity "" None.

Definition activity_step (st : activity * bool) (kv : string * json) : activity * bool :=
  let '(mkActivity t c, bad) := st in
  if key_matches "targetType" kv.1 then let '(t, bad) := into_string (t, bad) kv.2 in (mkActivity t c, bad)
  else if key_matches "targetConfig" kv.1 then (mkActivity t (Some kv.2), bad)
  else st.

Definition unmarshal_activity (j : json) : option activity := unmarshal_struct zero_activity activity_step (Some j).

(** stepsConfig: only the steps. *)
Definition steps_step (st : list activity * bool) (kv : string * json) : list activity * bool :=
  if key_matches "steps" kv.1 then
    match kv.2 with
    | JArr l => match mapM unmarshal_activity l with Some steps => (steps, st.2) | None => (st.1, true) end
    | JNull => ([], st.2)
    | _ => (st.1, true)
    end
  else st.

Definition unmarshal_steps (j : json) : option (list activity) := unmarshal_struct [] steps_step (Some j).

(** ** Topics (trigger.go) *)

Inductive topic : Type :=
| topicNone
| topicTransitioned (entity : string)
| topicRecordEvent (entity event : string).

Definition record_events : list (string * string) :=
  [(".record.created", "created"); (".record.updated", "updated"); (".record.deleted", "deleted")].

Fixpoint classify_record (routingKey : string) (pairs : list (string * string)) : topic :=
  match pairs with
  | [] => topicNone
  | (suffix, event) :: rest =>
    match CutSuffix routingKey suffix with
    | Some entity => topicRecordEvent entity event
    | None => classify_record routingKey rest
    end
  end.

Definition classifyTopic (routingKey : string) : topic :=
  match CutSuffix routingKey ".workflow.transitioned" with
  | Some entity => topicTransitioned entity
  | None => classify_record routingKey record_events
  end.

(** What becomes of the message. *)
Inductive delivery : Type := Acked | DeadLettered | SentToRetry.

Section Scheduler.
Context `{!UuidLib} `{!CronLib} `{!Postgres} `{!Outside}.
Variable fresh : nat -> uuid.
(** uuid.Nil *)
Variable nil_uuid : uuid.

Record ExecutorConfig : Type := mkExecutor { ec_SMTP : SmtpConfig; ec_Webhook : WebhookPolicy }.

Variable config : ExecutorConfig.

Record Scheduler : Type := mkScheduler { sw_tables : CronTables; sw_log : list Effect }.

Definition on_tables {A} (m : Handler CronTables A) : Handler Scheduler A :=
  fun w => let '(r, t) := m (sw_tables w) in (r, mkScheduler t (sw_log w)).

Definition on_outside {A} (m : Handler (list Effect) A) : Handler Scheduler A :=
  fun w => let '(r, l) := m (sw_log w) in (r, mkScheduler (sw_tables w) l).

(** The text of an error; a handler here only fails. *)
Definition exit_text (e : exit) : error := match e with Failed e => e | Refused r => se_ErrorCode r end.

(** err := m(); the error is a value. *)
Definition catch {W A} (m : Handler W A) : Handler W (A + error) :=
  fun w => match m w with
           | (Ok a, w') => (Ok (inl a), w')
           | (Err e, w') => (Ok (inr (exit_text e)), w')
           | (Panic, w') => (Panic, w')
           end.

(** if err := m(); err != nil { log it } *)
Definition ignoring {W} (m : Handler W unit) : Handler W unit :=
  let* _ := catch m in hret tt.

(** ** One step and a chain (steps.go) *)

Definition runOneStep (chain : CronJobDuePayload) (step : activity) : Handler (list Effect) json :=
  match ParseTargetType (act_TargetType step) with
  | None => hfail ("unknown targetType " +:+ string_text (act_TargetType step) +:+ " in step")
  | Some TargetWorkflowTransition => RunWorkflowTransition nil_uuid (act_TargetConfig step)
  | Some TargetBulkQueryAction => RunBulkQueryAction (act_TargetConfig step)
  | Some TargetWebhook =>
    RunWebhook (ec_Webhook config) (du_TenantID chain) (du_JobID chain) (du_RunID chain) (du_TriggerEntity chain)
      (du_TriggerRecordID chain) (act_TargetConfig step)
  | Some TargetEmail => RunEmail (ec_SMTP config) (du_TriggerEntity chain) (du_TriggerRecordID chain) (act_TargetConfig step)
  | Some TargetSteps => hfail "nested steps targetType is not supported inside a step"
  | Some TargetWaitEvent => hfail "wait_event step reached runOneStep — should have been intercepted by runStepRange"
  end.

Definition is_wait (step : activity) : bool :=
  match ParseTargetType (act_TargetType step) with Some TargetWaitEvent => true | _ => false end.

Definition step_message (stepIndex : Z) (step : activity) (e : error) : error :=
  "step " +:+ FormatInt stepIndex +:+ " (" +:+ act_TargetType step +:+ ") failed: " +:+ e.

Definition summary_json (results : list json) : json := JObj [("steps", JArr results)].

(** The loop of runStepRange from a step on; [None] is a chain that waits. *)
Fixpoint run_steps (now : Z) (payload : CronJobDuePayload) (workflowRunID : uuid) (stepIndex : Z) (steps : list activity)
    (results : list json) : Handler Scheduler (option json) :=
  match steps with
  | [] =>
    let* _ := on_tables (FinishWorkflowRun now workflowRunID) in
    hret (Some (summary_json results))
  | step :: rest =>
    if is_wait step then
      match unmarshal_wait (act_TargetConfig step) with
      | None => hfail ("step " +:+ FormatInt stepIndex +:+ " (wait_event) has an invalid targetConfig")
      | Some wait =>
        let* _ := on_tables (PauseWorkflowRun workflowRunID (du_RunID payload) stepIndex wait) in
        hret None
      end
    else
      let* outcome := catch (on_outside (runOneStep payload step)) in
      match outcome with
      | inr e =>
        let message := step_message stepIndex step e in
        let* _ := on_tables (FailWorkflowRun now workflowRunID stepIndex message) in
        hfail message
      | inl value =>
        let* _ := on_tables (AdvanceWorkflowRun workflowRunID stepIndex value) in
        run_steps now payload workflowRunID (i32 (stepIndex + 1)) rest (results ++ [value])
      end
  end.

(** steps[startIndex:] panics beyond the end of the slice. *)
Definition runStepRange (now : Z) (payload : CronJobDuePayload) (workflowRunID : uuid) (steps : list activity) (startIndex : Z)
  : Handler Scheduler (option json) :=
  if (startIndex <? 0)%Z || (Z.of_nat (length steps) <? startIndex)%Z then hpanic
  else run_steps now payload workflowRunID startIndex (drop (Z.to_nat startIndex) steps) [].

Definition RunSteps (now : Z) (payload : CronJobDuePayload) : Handler Scheduler (option json) :=
  match unmarshal_steps (du_TargetConfig payload) with
  | None => hfail "invalid steps target_config"
  | Some [] => hfail "steps target_config.steps must not be empty"
  | Some steps =>
    let* workflowRunID := on_tables (StartWorkflowRun fresh now (du_TenantID payload) (du_JobID payload) (du_RunID payload)
                                       (i32 (Z.of_nat (length steps)))) in
    runStepRange now payload workflowRunID steps 0
  end.

Definition resumed_payload (r : ResumedWorkflowRun) : CronJobDuePayload :=
  mkDue (rs_CronJobRunID r) (rs_JobID r) (rs_TenantID r) (TargetType_text TargetSteps) (rs_TargetConfig r) (rs_Attempt r)
    (rs_MaxAttempts r) (rs_RetryBackoffSeconds r) (rs_DispatchMode r) (Some (rs_ResumingRecordID r)) (Some (rs_ResumingEntity r)).

Definition ResumeSteps (now : Z) (resumed : ResumedWorkflowRun) : Handler Scheduler unit :=
  let payload := resumed_payload resumed in
  let failed msg := ignoring (on_tables (FinishRunWithRetry fresh now payload RunFailed (Some msg) None)) in
  match unmarshal_steps (du_TargetConfig payload) with
  | None => failed "invalid steps target_config"
  | Some steps =>
    let* outcome := catch (runStepRange now payload (rs_WorkflowRunID resumed) steps (rs_ResumeFromStepIndex resumed)) in
    match outcome with
    | inr msg => failed msg
    | inl None => hret tt
    | inl (Some summary) => on_tables (FinishRun now (du_RunID payload) RunSuccess None (Some summary))
    end
  end.

(** ** One firing (dispatch.go) *)

Definition dispatch (now : Z) (payload : CronJobDuePayload) : Handler Scheduler (option json) :=
  let done_by m := let* summary := on_outside m in hret (Some summary) in
  let raw := Some (du_TargetConfig payload) in
  match ParseTargetType (du_TargetType payload) with
  | None => hfail ("unknown target_type " +:+ string_text (du_TargetType payload))
  | Some TargetWorkflowTransition => done_by (RunWorkflowTransition nil_uuid raw)
  | Some TargetBulkQueryAction => done_by (RunBulkQueryAction raw)
  | Some TargetWebhook =>
    done_by (RunWebhook (ec_Webhook config) (du_TenantID payload) (du_JobID payload) (du_RunID payload)
               (du_TriggerEntity payload) (du_TriggerRecordID payload) raw)
  | Some TargetEmail => done_by (RunEmail (ec_SMTP config) (du_TriggerEntity payload) (du_TriggerRecordID payload) raw)
  | Some TargetSteps => RunSteps now payload
  | Some TargetWaitEvent => hfail "wait_event is not a valid top-level targetType, only a step inside a steps chain"
  end.

(** success, failed or waiting: this firing already ran, or is paused. *)
Definition already_ran (status : option RunStatus) : bool :=
  match status with Some RunSuccess | Some RunFailed | Some RunWaiting => true | _ => false end.

Definition Execute (now : Z) (payload : CronJobDuePayload) : Handler Scheduler unit :=
  let* status := on_tables (read_with (fun t => RunStatusOf t (du_RunID payload))) in
  if already_ran status then hret tt
  else
    let* _ := on_tables (StartRun now (du_RunID payload)) in
    let* outcome := catch (dispatch now payload) in
    match outcome with
    | inl None => hret tt
    | inl (Some summary) => ignoring (on_tables (FinishRunWithRetry fresh now payload RunSuccess None (Some summary)))
    | inr msg => ignoring (on_tables (FinishRunWithRetry fresh now payload RunFailed (Some msg) None))
    end.

(** The body of RunExecutor's consumer; [None] is a payload that does not decode. *)
Definition executor_handle (now : Z) (payload : option CronJobDuePayload) : Handler Scheduler delivery :=
  match payload with
  | None => hret DeadLettered
  | Some p => let* _ := Execute now p in hret Acked
  end.

(** ** The ticker (ticker.go) *)

Fixpoint runDirectJobs (now : Z) (jobs : list CronJobDuePayload) : Handler Scheduler unit :=
  match jobs with
  | [] => hret tt
  | p :: rest => let* _ := Execute now p in runDirectJobs now rest
  end.

Definition tick (now : Z) (batchSize : nat) (locked : uuid -> bool) : Handler Scheduler unit :=
  let* due := on_tables (ClaimDueJobs fresh now batchSize locked) in
  let* _ := runDirectJobs now (cl_DirectJobs due) in
  let* retries := on_tables (ClaimDueRetries now batchSize locked) in
  runDirectJobs now (cl_DirectJobs retries).

(** ** The listener (trigger.go) *)

Definition parsePayloadString (payload : json) (key : string) : option string :=
  match unmarshal_map payload with
  | Some m => match m !! key with Some raw => unmarshal_string raw | None => None end
  | None => None
  end.

Definition payload_uuid (payload : json) (key : string) : option uuid :=
  match parsePayloadString payload key with Some s => uuid_Parse s | None => None end.

Definition parseTenantID (payload : json) : option uuid := payload_uuid payload "tenantId".
Definition parseRecordID (payload : json) : option uuid := payload_uuid payload "recordId".

Fixpoint resume_all (now : Z) (resumed : list ResumedWorkflowRun) : Handler Scheduler unit :=
  match resumed with
  | [] => hret tt
  | r :: rest => let* _ := ResumeSteps now r in resume_all now rest
  end.

Definition finishDispatch (now : Z) (fired : ClaimResult + error) (resumeQuery : Handler CronTables (list ResumedWorkflowRun))
  : Handler Scheduler delivery :=
  match fired with
  | inr _ => hret SentToRetry
  | inl claim =>
    let* _ := runDirectJobs now (cl_DirectJobs claim) in
    let* resumed := catch (on_tables resumeQuery) in
    let* _ := match resumed with inl l => resume_all now l | inr _ => hret tt end in
    hret Acked
  end.

Definition dispatchTransition (now : Z) (locked : uuid -> bool) (tenantID : uuid) (entity action : string) (recordID : uuid)
  : Handler Scheduler delivery :=
  let* fired := catch (on_tables (DispatchOnTransitionMatches fresh now tenantID entity action recordID)) in
  finishDispatch now fired (DispatchOnWaitEventTransitionMatches locked tenantID entity action recordID).

Definition dispatchRecordEvent (now : Z) (locked : uuid -> bool) (tenantID : uuid) (entity recordEvent : string) (recordID : uuid)
  : Handler Scheduler delivery :=
  let* fired := catch (on_tables (DispatchOnRecordEventMatches fresh now tenantID entity recordEvent recordID)) in
  finishDispatch now fired (DispatchOnWaitEventRecordMatches locked tenantID entity recordEvent recordID).

(** The body of RunTriggerListener's consumer. *)
Definition listener_handle (now : Z) (locked : uuid -> bool) (routingKey : string) (payload : json) : Handler Scheduler delivery :=
  match classifyTopic routingKey with
  | topicTransitioned entity =>
    match parseTenantID payload, parseRecordID payload with
    | Some tenantID, Some recordID =>
      match parsePayloadString payload "action" with
      | Some action => dispatchTransition now locked tenantID entity action recordID
      | None => hret DeadLettered
      end
    | _, _ => hret DeadLettered
    end
  | topicRecordEvent entity event =>
    match parseTenantID payload, parseRecordID payload with
    | Some tenantID, Some recordID => dispatchRecordEvent now locked tenantID entity event recordID
    | _, _ => hret DeadLettered
    end
  | topicNone => hret Acked
  end.
End Scheduler.
