(* ===== verification/CronRoutes.v ===== *)
(** The administration of scheduled jobs (src/go/httpserver/routes_cron.go): the
    validation of a job's trigger and target, and the handlers.

    A handler takes the outcome of the authentication, the decoded body ([None]
    when it does not decode) and the identifiers of the path ([None] when they do
    not parse). Message texts are shortened where they carry an index. *)
From S2P Require Import Prelude GoStrings GoText Json Floats Condition Context Uuid Evaluate Snapshot PermissionService PolicyStore Metadata Schema Router Payload Workflow AuditTrail Sql ConditionSql Jql Planner Records Crud Authn Cron Outbound CronScheduler.

Open Scope string_scope.
Open Scope list_scope.

(** ** Validation *)

(** onTransitionTriggerConfig and onRecordEventTriggerConfig: the entity and the
    field named [key]. *)
Definition trigger_step (key : string) (st : (string * string) * bool) (kv : string * json) : (string * string) * bool :=
  let '((e, d), bad) := st in
  if key_matches "entity" kv.1 then let '(e, bad) := into_string (e, bad) kv.2 in ((e, d), bad)
  else if key_matches key kv.1 then let '(d, bad) := into_string (d, bad) kv.2 in ((e, d), bad)
  else st.

Definition unmarshal_trigger (key : string) (raw : option json) : option (string * string) :=
  unmarshal_struct ("", "") (trigger_step key) raw.

Definition is_record_event (e : string) : bool :=
  String.eqb e "created" || String.eqb e "updated" || String.eqb e "deleted".

Definition blank (s : string) : bool := String.eqb (TrimSpace s) "".

Definition bad_trigger_type : string := "`triggerType` must be one of: schedule, on_transition, on_record_event.".

Section Validation.
Context `{!CronLib}.

(** [None] when the trigger is accepted, else the message. *)
Definition validateTrigger (triggerType : string) (triggerConfig : option json) (cronExpr : option string) (timezone : string)
  : option string :=
  match ParseTriggerType triggerType with
  | None => Some bad_trigger_type
  | Some TriggerSchedule =>
    match cronExpr with
    | None => Some "`cronExpr` is required when `triggerType` is schedule."
    | Some expr => ValidateSchedule expr timezone
    end
  | Some TriggerOnTransition =>
    match triggerConfig with
    | None => Some "`triggerConfig` ({entity, action}) is required when `triggerType` is on_transition."
    | Some c =>
      match unmarshal_trigger "action" (Some c) with
      | None => Some "`triggerConfig` must be `{ entity: string, action: string }`."
      | Some (entity, action) =>
        if blank entity || blank action then Some "`triggerConfig.entity`/`triggerConfig.action` must not be empty." else None
      end
    end
  | Some TriggerOnRecordEvent =>
    match triggerConfig with
    | None => Some "`triggerConfig` ({entity, event}) is required when `triggerType` is on_record_event."
    | Some c =>
      match unmarshal_trigger "event" (Some c) with
      | None => Some "`triggerConfig` must be `{ entity: string, event: string }`."
      | Some (entity, event) =>
        if blank entity then Some "`triggerConfig.entity` must not be empty."
        else if negb (is_record_event event) then Some "`triggerConfig.event` must be one of: created, updated, deleted."
        else None
      end
    end
  end.
End Validation.

Definition validateWaitEventConfig (targetConfig : option json) : option string :=
  match unmarshal_wait targetConfig with
  | None => Some "`targetConfig` must be `{ entity: string, action?: string, event?: string }`."
  | Some cfg =>
    if blank (wt_Entity cfg) then Some "`targetConfig.entity` must not be empty."
    else match wt_Action cfg, wt_Event cfg with
         | Some a, None =>
           if negb (blank a) then None else Some "`targetConfig` must set exactly one of `action`/`event`."
         | None, Some e =>
           if is_record_event e then None else Some "`targetConfig.event` must be one of: created, updated, deleted."
         | _, _ => Some "`targetConfig` must set exactly one of `action`/`event`."
         end
  end.

(** One turn of the loop over the steps. *)
Definition validate_step (step : json) : option string :=
  match unmarshal_activity step with
  | None => Some "step must be `{ targetType: string, targetConfig: object }`."
  | Some a =>
    match ParseTargetType (act_TargetType a) with
    | None => Some "step targetType must be one of: workflow_transition, bulk_query_action, webhook, email, wait_event."
    | Some TargetSteps => Some "step targetType cannot be steps (chains cannot nest)."
    | Some TargetWaitEvent => validateWaitEventConfig (act_TargetConfig a)
    | Some _ => None
    end
  end.

Fixpoint first_message {A} (f : A -> option string) (l : list A) : option string :=
  match l with [] => None | a :: l' => match f a with Some m => Some m | None => first_message f l' end end.

(** The anonymous struct with the raw steps; [None] inside is a nil slice. *)
Definition raw_steps_step (st : option (list json) * bool) (kv : string * json) : option (list json) * bool :=
  if key_matches "steps" kv.1 then
    match kv.2 with
    | JArr l => (Some l, st.2)
    | JNull => (None, st.2)
    | _ => (st.1, true)
    end
  else st.

Definition unmarshal_raw_steps (raw : option json) : option (option (list json)) := unmarshal_struct None raw_steps_step raw.

Definition validateTargetConfig (targetType : string) (targetConfig : option json) : option string :=
  match ParseTargetType targetType with
  | Some TargetWaitEvent =>
    Some "`targetType` wait_event is only valid as a step inside a steps chain, not as a job's own targetType."
  | Some TargetSteps =>
    match unmarshal_raw_steps targetConfig with
    | Some (Some steps) =>
      if (length steps =? 0)%nat then Some "`targetConfig.steps` must not be empty." else first_message validate_step steps
    | _ => Some "`targetConfig.steps` (a non-empty array) is required when `targetType` is steps."
    end
  | _ => None
  end.

(** ** Handlers *)

Section Routes.
Context `{!UuidLib} `{!CronLib} `{!Postgres}.
Variable fresh : nat -> uuid.

Inductive CronResponse : Type :=
| JobCreated (job : CronJob)
| JobData (job : CronJob)
| JobList (jobs : list CronJob)
| JobDeleted
| RunList (runs : list CronJobRun)
| WorkflowRunData (run : WorkflowRun).

Local Notation Handle := (Handler CronTables CronResponse).

Definition cron_refuse {B} (status : Z) (code message : string) : Handler CronTables B := refuse (ResultErrWithMessage status code message).
Definition cronNotFound {B} : Handler CronTables B := cron_refuse 404 "cron_job_not_found" "Cron job not found.".
Definition cronValidationError {B} (message : string) : Handler CronTables B := cron_refuse 400 "validation_failed" message.
Definition valid_or_refuse (message : option string) : Handler CronTables unit :=
  match message with Some m => cronValidationError m | None => hret tt end.

(** The outcome of requireAdmin. *)
Definition admin (auth : authError + RequestContext) : Handler CronTables RequestContext :=
  match auth with
  | inr rc => hret rc
  | inl (Unauthorized m) => cron_refuse 401 "unauthorized" m
  | inl (ForbiddenError m) => cron_refuse 403 "forbidden" m
  end.

Definition parseOptionalUUID (s : string) : option uuid := if String.eqb s "" then None else uuid_Parse s.

Record createCronJobBody : Type := mkCreateJob {
  cb_Name : string;
  cb_TriggerType : string;
  cb_TriggerConfig : option json;
  cb_CronExpr : option string;
  cb_Timezone : string;
  cb_TargetType : string;
  cb_TargetConfig : option json;
  cb_DispatchMode : string;
  cb_MaxAttempts : Z;
  cb_RetryBackoffSeconds : Z;
  cb_Enabled : option bool
}.

Definition or_default (s d : string) : string := if String.eqb s "" then d else s.
Definition or_default_Z (n d : Z) : Z := if (n =? 0)%Z then d else n.

Definition applyDefaults (b : createCronJobBody) : createCronJobBody :=
  mkCreateJob (cb_Name b) (or_default (cb_TriggerType b) (TriggerType_text TriggerSchedule)) (cb_TriggerConfig b) (cb_CronExpr b)
    (or_default (cb_Timezone b) "UTC") (cb_TargetType b) (cb_TargetConfig b)
    (or_default (cb_DispatchMode b) (DispatchMode_text DispatchOutbox)) (or_default_Z (cb_MaxAttempts b) 1)
    (or_default_Z (cb_RetryBackoffSeconds b) 30) (cb_Enabled b).

Definition body_enabled (b : createCronJobBody) : bool := default true (cb_Enabled b).

Definition known_target (s : string) : option string :=
  match ParseTargetType s with
  | Some _ => None
  | None => Some "`targetType` must be one of: workflow_transition, bulk_query_action, webhook, email, steps."
  end.
Definition known_mode (s : string) : option string :=
  match ParseDispatchMode s with Some _ => None | None => Some "`dispatchMode` must be one of: outbox, direct." end.
Definition attempts_ok (n : Z) : option string := if (n <? 1)%Z then Some "`maxAttempts` must be at least 1." else None.
Definition backoff_ok (n : Z) : option string :=
  if (n <? 0)%Z then Some "`retryBackoffSeconds` must be non-negative." else None.

(** The target_config column refuses NULL. *)
Definition not_null (c : option json) : result error json :=
  match c with Some j => Ok j | None => Err "null value in column target_config violates not-null constraint" end.

Definition createCronJob (now : Z) (auth : authError + RequestContext) (body : option createCronJobBody) : Handle :=
  let* rc := admin auth in
  match body with
  | None => cronValidationError "Invalid request body."
  | Some raw =>
    let b := applyDefaults raw in
    let* tenantID := hlift (ScopedTenant rc) in
    let* _ := valid_or_refuse (known_target (cb_TargetType b)) in
    let* _ := valid_or_refuse (validateTargetConfig (cb_TargetType b) (cb_TargetConfig b)) in
    let* _ := valid_or_refuse (known_mode (cb_DispatchMode b)) in
    let* _ := valid_or_refuse (attempts_ok (cb_MaxAttempts b)) in
    let* _ := valid_or_refuse (backoff_ok (cb_RetryBackoffSeconds b)) in
    let* _ := valid_or_refuse (validateTrigger (cb_TriggerType b) (cb_TriggerConfig b) (cb_CronExpr b) (cb_Timezone b)) in
    let* targetConfig := hlift (not_null (cb_TargetConfig b)) in
    let* job := CreateJob fresh now tenantID
      (mkNewJob (cb_Name b) (cb_TriggerType b) (cb_TriggerConfig b) (cb_CronExpr b) (cb_Timezone b) (cb_TargetType b) targetConfig
         (cb_DispatchMode b) (cb_MaxAttempts b) (cb_RetryBackoffSeconds b) (body_enabled b)) (parseOptionalUUID (rc_UserID rc)) in
    hret (JobCreated job)
  end.

Definition listCronJobs (auth : authError + RequestContext) : Handle :=
  let* rc := admin auth in
  let* tenantID := hlift (ScopedTenant rc) in
  let* jobs := read_with (fun t => ListJobs t tenantID) in
  hret (JobList jobs).

Definition getCronJob (auth : authError + RequestContext) (id : option uuid) : Handle :=
  let* rc := admin auth in
  match id with
  | None => cronNotFound
  | Some id =>
    let* tenantID := hlift (ScopedTenant rc) in
    let* job := read_with (fun t => GetJob t tenantID id) in
    match job with Some j => hret (JobData j) | None => cronNotFound end
  end.

Definition check_optional {A} (check : A -> option string) (o : option A) : Handler CronTables unit :=
  valid_or_refuse (match o with Some a => check a | None => None end).

Definition is_set {A} (o : option A) : bool := match o with Some _ => true | None => false end.

(** The trigger the update leaves the job with. *)
Definition check_trigger (tenantID id : uuid) (u : JobUpdate) : Handler CronTables unit :=
  if is_set (ju_TriggerType u) || is_set (ju_TriggerConfig u) || is_set (ju_CronExpr u) || is_set (ju_Timezone u) then
    let* existing := read_with (fun t => GetJob t tenantID id) in
    match existing with
    | None => cronNotFound
    | Some e =>
      valid_or_refuse (validateTrigger (or_existing (ju_TriggerType u) (cj_TriggerType e)) (or_else (ju_TriggerConfig u) (cj_TriggerConfig e))
                         (or_else (ju_CronExpr u) (cj_CronExpr e)) (or_existing (ju_Timezone u) (cj_Timezone e)))
    end
  else hret tt.

(** The target the update leaves the job with. *)
Definition check_target (tenantID id : uuid) (u : JobUpdate) : Handler CronTables unit :=
  if is_set (ju_TargetType u) || is_set (ju_TargetConfig u) then
    let* existing := read_with (fun t => GetJob t tenantID id) in
    match existing with
    | None => cronNotFound
    | Some e =>
      valid_or_refuse (validateTargetConfig (or_existing (ju_TargetType u) (cj_TargetType e))
                         (Some (or_existing (ju_TargetConfig u) (cj_TargetConfig e))))
    end
  else hret tt.

(** updateCronJobBody has the fields of a JobUpdate. *)
Definition updateCronJob (now : Z) (auth : authError + RequestContext) (id : option uuid) (body : option JobUpdate) : Handle :=
  let* rc := admin auth in
  match id with
  | None => cronNotFound
  | Some id =>
    match body with
    | None => cronValidationError "Invalid request body."
    | Some u =>
      let* tenantID := hlift (ScopedTenant rc) in
      let* _ := check_optional known_target (ju_TargetType u) in
      let* _ := check_optional known_mode (ju_DispatchMode u) in
      let* _ := check_optional attempts_ok (ju_MaxAttempts u) in
      let* _ := check_optional backoff_ok (ju_RetryBackoffSeconds u) in
      let* _ := check_trigger tenantID id u in
      let* _ := check_target tenantID id u in
      let* job := UpdateJob now tenantID id u in
      match job with Some j => hret (JobData j) | None => cronNotFound end
    end
  end.

Definition deleteCronJob (auth : authError + RequestContext) (id : option uuid) : Handle :=
  let* rc := admin auth in
  match id with
  | None => cronNotFound
  | Some id =>
    let* tenantID := hlift (ScopedTenant rc) in
    let* _ := DeleteJob tenantID id in
    hret JobDeleted
  end.

(** [limit]: the parsed query parameter, when it is an integer. *)
Definition run_limit (limit : option Z) : nat :=
  match limit with Some n => if (0 <? n)%Z && (n <=? 200)%Z then Z.to_nat n else 50 | None => 50 end.

Definition listCronJobRuns (auth : authError + RequestContext) (id : option uuid) (limit : option Z) : Handle :=
  let* rc := admin auth in
  match id with
  | None => cronNotFound
  | Some id =>
    let* tenantID := hlift (ScopedTenant rc) in
    let* runs := read_with (fun t => ListJobRuns t tenantID id (run_limit limit)) in
    hret (RunList runs)
  end.

Definition workflowRunNotFound {B} : Handler CronTables B := cron_refuse 404 "workflow_run_not_found" "Workflow run not found.".

Definition getWorkflowRun (auth : authError + RequestContext) (jobID runID : option uuid) : Handle :=
  let* rc := admin auth in
  match jobID, runID with
  | Some jobID, Some runID =>
    let* tenantID := hlift (ScopedTenant rc) in
    let* run := read_with (fun t => GetWorkflowRunByCronJobRun t tenantID runID) in
    match run with
    | Some r => if bool_decide (wr_JobID r = jobID) then hret (WorkflowRunData r) else workflowRunNotFound
    | None => workflowRunNotFound
    end
  | _, _ => workflowRunNotFound
  end.
End Routes.
