(* ===== verification/CronExamples.v ===== *)
(** The environment the theorems on scheduled jobs are exercised in: a clock that
    ticks every minute, a mail server and a web server that accept everything, an
    unbounded supply of identifiers, and a tenant with a chain that sends a mail,
    waits for a deal to be approved and sends another. *)
From S2P Require Import Prelude GoStrings GoText Json Floats Condition Context Uuid Evaluate Snapshot PermissionService PolicyStore Metadata Schema Router Payload Workflow AuditTrail Sql ConditionSql Jql Planner Records Crud CrudOutcomes CrudProps CrudState Authn Cron Outbound CronScheduler CronRoutes.

Open Scope string_scope.
Open Scope list_scope.

#[local] Existing Instance TestUuid.

(** Every expression but the empty one runs every minute, everywhere. *)
#[export] Instance TestCron : CronLib := {|
  schedule := unit;
  location := unit;
  cron_Parse s := if String.eqb s "" then None else Some tt;
  LoadLocation s := Some tt;
  schedule_Next _ _ after := Some (after + 60 * Second)%Z
|}.

#[export] Instance TestCron_laws : CronLaws TestCron.
Proof. constructor. intros s l after next [= <-]. unfold Second. lia. Qed.

Definition test_url (raw : string) : option URL :=
  (fun host => mkURL "https" host raw) <$> CutPrefix raw "https://".

(** One public host and one private one. *)
Definition test_lookup (host : string) : option (list ip) :=
  if String.eqb host "hooks.example" then Some [[93; 184; 216; 34]%N]
  else if String.eqb host "inside.example" then Some [[10; 0; 0; 7]%N] else None.

#[export] Instance TestOutside : Outside := {|
  url_Parse := test_url;
  LookupIPAddr := test_lookup;
  http_Do _ _ := Ok (200%Z, "thanks");
  smtp_SendMail _ _ := None;
  secrets := Some (fun ref => Ok ("Bearer of " +:+ ref));
  backend := None;
  range m := map_to_list m
|}.

#[export] Instance TestOutside_laws : OutsideLaws TestOutside.
Proof. by constructor. Qed.

(** id, idx, idxx, ... *)
Fixpoint marks (n : nat) : string := match n with O => "" | S n => String "x" (marks n) end.
Definition test_fresh (n : nat) : @uuid TestUuid := "id" +:+ marks n.

Lemma marks_length n : String.length (marks n) = n.
Proof. induction n as [|n IH]; simpl; [done|]. by rewrite IH. Qed.

Lemma test_fresh_inj a b : test_fresh a = test_fresh b -> a = b.
Proof.
  unfold test_fresh. cbv [String.append]. intros He. injection He as He.
  apply (f_equal String.length) in He. by rewrite !marks_length in He.
Qed.

Definition test_config : ExecutorConfig := mkExecutor (mkSmtp "mail.example" 25 "" "" "cron@example") (mkPolicy [] false).

(** ** The tenant's jobs *)

Definition mail_to (who : string) : json := JObj [("to", JStr who); ("subject", JStr "hello"); ("body", JStr "")].
Definition step_json (target : string) (config : json) : json :=
  JObj [("targetType", JStr target); ("targetConfig", config)].
Definition approval : json := JObj [("entity", JStr "deal"); ("action", JStr "approve")].

Definition chain_json : json :=
  JObj [("steps", JArr [step_json "email" (mail_to "a"); step_json "wait_event" approval; step_json "email" (mail_to "b")])].

Definition chain_job : CronJob :=
  mkJob "j1" "t1" "chain" true "schedule" None (Some "* * * * *") "UTC" "steps" chain_json "outbox" 3 30
    (Some 100%Z) None 0 0 None.

Definition mail_job : CronJob :=
  mkJob "j2" "t2" "mail" true "schedule" None (Some "") "UTC" "email" (mail_to "c") "direct" 1 30 (Some 90%Z) None 0 0 None.

Definition chain_run : CronJobRun := mkRun "r1" "t1" "j1" "enqueued" 1 100 None None None None 100.

Definition test_tables : CronTables := mkCron [chain_job; mail_job] [chain_run] [] [] 0.
Definition test_world : Scheduler := mkScheduler test_tables [].
Definition chain_firing : CronJobDuePayload := due_of chain_job "r1" 1 None None.
