(* ===== verification/CronProps.v ===== *)
(** What the scheduler guarantees: a redelivered firing does nothing, a chain goes
    on after the event it waits for, due jobs are claimed once, an accepted chain
    decodes, the administration of a tenant stays in the tenant; and what a step
    does not guarantee. *)
From S2P Require Import Prelude GoStrings GoText Json Floats Condition Context Uuid Evaluate Snapshot PermissionService PolicyStore Metadata Schema Router Payload Workflow AuditTrail Sql ConditionSql Jql Planner Records Crud CrudOutcomes CrudProps CrudState Authn Cron Outbound CronScheduler CronRoutes CronExamples.

Open Scope string_scope.
Open Scope list_scope.

(** ** Rows *)

Section Rows.
Context {R K : Type} `{EqDecision K} (key : R -> K).

Lemma find_update (k : K) (f : R -> R) rows :
  (forall r, key (f r) = key r) ->
  List.find (fun r => bool_decide (key r = k)) (update_matching (fun r => bool_decide (key r = k)) f rows)
  = f <$> List.find (fun r => bool_decide (key r = k)) rows.
Proof.
  intros Hf. induction rows as [|r rows IH]; simpl; [done|].
  destruct (bool_decide (key r = k)) eqn:Hk; simpl.
  - rewrite Hf, Hk. done.
  - rewrite Hk. exact IH.
Qed.

Lemma find_app_some {A} (p : A -> bool) l l' a : List.find p l = Some a -> List.find p (l ++ l') = Some a.
Proof. induction l as [|b l IH]; simpl; [done|]. by destruct (p b). Qed.
End Rows.

Lemma find_app_none {A} (p : A -> bool) l l' : (forall a, a ∈ l -> p a = false) -> List.find p (l ++ l') = List.find p l'.
Proof.
  induction l as [|a l IH]; simpl; [done|]. intros Hall. rewrite (Hall a (list_elem_of_here _ _)).
  apply IH. intros b Hb. apply Hall. by apply list_elem_of_further.
Qed.

Lemma existsb_false_all {A} (f : A -> bool) l : (forall a, a ∈ l -> f a = false) -> existsb f l = false.
Proof.
  induction l as [|a l IH]; simpl; [done|]. intros Hall. rewrite (Hall a (list_elem_of_here _ _)). simpl.
  apply IH. intros b Hb. apply Hall. by apply list_elem_of_further.
Qed.

Lemma ParseRunStatus_text s : ParseRunStatus (RunStatus_text s) = Some s.
Proof. by destruct s. Qed.

Lemma ParseTargetType_text s t : ParseTargetType s = Some t -> s = TargetType_text t.
Proof.
  unfold ParseTargetType, parse_named. intros Hf. apply find_some in Hf as [_ He]. by apply String.eqb_eq in He.
Qed.

Section Props.
Context `{!UuidLib} `{!CronLib} `{!Postgres} `{!Outside}.
Variable fresh : nat -> uuid.
Variable nil_uuid : uuid.
Variable config : ExecutorConfig.

Local Notation runs w := (ct_runs (sw_tables w)).
Local Notation jobs w := (ct_jobs (sw_tables w)).
Local Notation workflows w := (ct_workflows (sw_tables w)).

Definition paused_run (id : uuid) (rows : list CronJobRun) : list CronJobRun :=
  update_matching (run_is id) (set_run_status RunWaiting) rows.

(** What a dispatch does to the runs: nothing, unless it leaves its own run waiting. *)
Definition runs_after (id : uuid) (r : result exit (option json)) (before after : list CronJobRun) : Prop :=
  after = match r with Ok None => paused_run id before | _ => before end.

Lemma on_outside_tables {A} (m : Handler (list Effect) A) w : sw_tables (snd (on_outside m w)) = sw_tables w.
Proof. unfold on_outside. by destruct (m (sw_log w)). Qed.

Lemma run_steps_runs now p wid steps : forall i results w r w',
  run_steps nil_uuid config now p wid i steps results w = (r, w') -> runs_after (du_RunID p) r (runs w) (runs w').
Proof.
  induction steps as [|step rest IH]; intros i results w r w'; simpl.
  - unfold hbind. simpl. intros [= <- <-]. done.
  - destruct (is_wait step).
    + destruct (unmarshal_wait _) as [wait|]; [|by intros [= <- <-]].
      unfold hbind. simpl. intros [= <- <-]. done.
    + unfold hbind, catch. pose proof (on_outside_tables (runOneStep nil_uuid config p step) w) as Ht.
      destruct (on_outside _ w) as [[v|e|] w1]; simpl in Ht.
      * cbn. intros Hr. apply IH in Hr. unfold runs_after in *. cbn in Hr. by rewrite Ht in Hr.
      * cbn. intros [= <- <-]. unfold runs_after. cbn. by rewrite Ht.
      * intros [= <- <-]. unfold runs_after. by rewrite Ht.
Qed.

Lemma runStepRange_runs now p wid steps start w r w' :
  runStepRange nil_uuid config now p wid steps start w = (r, w') -> runs_after (du_RunID p) r (runs w) (runs w').
Proof.
  unfold runStepRange. destruct (_ || _); [by intros [= <- <-]|]. apply run_steps_runs.
Qed.

Lemma StartWorkflowRun_runs now tn j r n t : ct_runs (snd (StartWorkflowRun fresh now tn j r n t)) = ct_runs t.
Proof. unfold StartWorkflowRun, hbind. cbn. destruct (existsb _ _); [done|]. by destruct (_ && _). Qed.

Lemma dispatch_runs now p w r w' :
  dispatch fresh nil_uuid config now p w = (r, w') -> runs_after (du_RunID p) r (runs w) (runs w').
Proof.
  assert (Hout : forall m, (let* s := on_outside m in hret (Some s)) w = (r, w') ->
                           runs_after (du_RunID p) r (runs w) (runs w')).
  { intros m. unfold hbind. pose proof (on_outside_tables m w) as Ht.
    destruct (on_outside m w) as [[v|e|] w1]; intros [= <- <-]; unfold runs_after; by rewrite <- Ht. }
  unfold dispatch. destruct (ParseTargetType _) as [[]|]; try apply Hout; try (by intros [= <- <-]).
  unfold RunSteps. destruct (unmarshal_steps _) as [[|s l]|]; try (by intros [= <- <-]).
  unfold hbind, on_tables.
  pose proof (StartWorkflowRun_runs now (du_TenantID p) (du_JobID p) (du_RunID p) (i32 (Z.of_nat (length (s :: l)))) (sw_tables w)) as Hs.
  destruct (StartWorkflowRun _ _ _ _ _ _ _) as [[wid|e|] t1]; simpl in Hs.
  - intros Hr. apply runStepRange_runs in Hr. unfold runs_after in *. simpl in Hr. by rewrite <- Hs.
  - intros [= <- <-]. unfold runs_after. by rewrite <- Hs.
  - intros [= <- <-]. unfold runs_after. by rewrite <- Hs.
Qed.

Definition run_of (id : uuid) (rows : list CronJobRun) : option CronJobRun := List.find (run_is id) rows.

Lemma run_of_update id f rows : (forall r, jr_ID (f r) = jr_ID r) -> run_of id (update_matching (run_is id) f rows) = f <$> run_of id rows.
Proof. intros Hf. unfold run_of, run_is. by apply find_update. Qed.

Lemma insert_run_of id new tn j st a s now t r :
  run_of id (ct_runs t) = Some r ->
  run_of id (ct_runs (snd (insert_run new tn j st a s now t))) = Some r.
Proof.
  intros Hr. unfold insert_run. destruct (existsb _ _); [done|]. destruct (existsb _ _); [|done].
  simpl. by apply find_app_some.
Qed.

(** The run after its outcome is recorded. *)
Lemma FinishRunWithRetry_run now p status msg summary t r :
  run_of (du_RunID p) (ct_runs t) = Some r ->
  run_of (du_RunID p) (ct_runs (snd (FinishRunWithRetry fresh now p status msg summary t))) = Some (set_finished now status msg summary r).
Proof.
  intros Hr. unfold FinishRunWithRetry, FinishRun, update_run, hbind, exec. cbn.
  set (t1 := set_runs t _).
  assert (Hr1 : run_of (du_RunID p) (ct_runs t1) = Some (set_finished now status msg summary r)).
  { unfold t1. cbn [ct_runs set_runs]. rewrite run_of_update by done. by rewrite Hr. }
  destruct (negb (is_failed status) || _); [exact Hr1|]. cbn.
  by apply insert_run_of.
Qed.

Lemma ignoring_state {W} (m : Handler W unit) w : snd (ignoring m w) = snd (m w).
Proof. unfold ignoring, hbind, catch. destruct (m w) as [[[]|e|] w']; done. Qed.

Definition started (now : Z) (id : uuid) (w : Scheduler) : Scheduler :=
  mkScheduler (set_runs (sw_tables w) (update_matching (run_is id) (set_started now) (runs w))) (sw_log w).

Definition finish (now : Z) (p : CronJobDuePayload) (status : RunStatus) (msg : option string) (summary : option json)
  : Handler Scheduler unit :=
  ignoring (on_tables (FinishRunWithRetry fresh now p status msg summary)).

Lemma Execute_eq now p w :
  Execute fresh nil_uuid config now p w =
  if already_ran (RunStatusOf (sw_tables w) (du_RunID p)) then (Ok tt, w)
  else match dispatch fresh nil_uuid config now p (started now (du_RunID p) w) with
       | (Ok None, w') => (Ok tt, w')
       | (Ok (Some summary), w') => finish now p RunSuccess None (Some summary) w'
       | (Err e, w') => finish now p RunFailed (Some (exit_text e)) None w'
       | (Panic, w') => (Panic, w')
       end.
Proof.
  destruct w as [t l]. cbv [Execute hbind on_tables read_with StartRun update_run exec catch started]. cbn [sw_tables sw_log].
  destruct (already_ran _); [done|].
  destruct (dispatch _ _ _ _ _ _) as [[[|]| |] ?]; done.
Qed.

Lemma finish_run now p status msg summary w r :
  run_of (du_RunID p) (runs w) = Some r ->
  run_of (du_RunID p) (runs (snd (finish now p status msg summary w))) = Some (set_finished now status msg summary r).
Proof.
  intros Hr. unfold finish. rewrite ignoring_state. unfold on_tables.
  pose proof (FinishRunWithRetry_run now p status msg summary (sw_tables w) r Hr) as Hf.
  by destruct (FinishRunWithRetry _ _ _ _ _ _ _).
Qed.

(** After a firing is executed its run is finished or waits. *)
Lemma Execute_settles now p w w' r :
  run_of (du_RunID p) (runs w) = Some r ->
  Execute fresh nil_uuid config now p w = (Ok tt, w') ->
  exists r', run_of (du_RunID p) (runs w') = Some r' /\ already_ran (ParseRunStatus (jr_Status r')) = true.
Proof.
  intros Hr. rewrite Execute_eq. unfold RunStatusOf. fold (run_of (du_RunID p) (runs w)). rewrite Hr.
  destruct (already_ran (ParseRunStatus (jr_Status r))) eqn:Hran; [intros [= <-]; eauto|].
  assert (Hr1 : run_of (du_RunID p) (runs (started now (du_RunID p) w)) = Some (set_started now r)).
  { cbn [started sw_tables set_runs ct_runs]. rewrite run_of_update by done. by rewrite Hr. }
  destruct (dispatch _ _ _ now p _) as [o w2] eqn:Hd. apply dispatch_runs in Hd. unfold runs_after in Hd.
  destruct o as [[summary|]|e|]; try discriminate.
  - rewrite <- Hd in Hr1. intros He. apply (finish_run now p RunSuccess None (Some summary)) in Hr1. rewrite He in Hr1. eauto.
  - intros [= <-]. exists (set_run_status RunWaiting (set_started now r)). split; [|done].
    rewrite Hd. unfold paused_run. rewrite run_of_update by done. by rewrite Hr1.
  - rewrite <- Hd in Hr1. intros He. apply (finish_run now p RunFailed (Some (exit_text e)) None) in Hr1. rewrite He in Hr1. eauto.
Qed.


(** ** Chains *)

(** The calls of consecutive steps that are no waits, all of them successful. *)
Fixpoint perform (p : CronJobDuePayload) (steps : list activity) (log : list Effect) : option (list json * list Effect) :=
  match steps with
  | [] => Some ([], log)
  | step :: rest =>
    if is_wait step then None
    else match runOneStep nil_uuid config p step log with
         | (Ok v, log1) =>
           match perform p rest log1 with Some (vs, log2) => Some (v :: vs, log2) | None => None end
         | _ => None
         end
  end.

(** The context of a workflow run after the results of the steps from [i] on. *)
Fixpoint context_with (i : Z) (vs : list json) (ctx : gmap string json) : gmap string json :=
  match vs with [] => ctx | v :: vs' => context_with (i + 1) vs' (<[step_key i := v]> ctx) end.

Fixpoint progressed (i : Z) (vs : list json) (row : WorkflowRun) : WorkflowRun :=
  match vs with
  | [] => row
  | v :: vs' => progressed (i + 1) vs' (set_progress (wr_Status row) (i + 1) (<[step_key i := v]> (wr_Context row)) row)
  end.

Lemma progressed_fields i vs row :
  wr_ID (progressed i vs row) = wr_ID row /\ wr_TenantID (progressed i vs row) = wr_TenantID row /\
  wr_JobID (progressed i vs row) = wr_JobID row /\ wr_CronJobRunID (progressed i vs row) = wr_CronJobRunID row /\
  wr_Status (progressed i vs row) = wr_Status row /\ wr_Context (progressed i vs row) = context_with i vs (wr_Context row).
Proof.
  revert i row. induction vs as [|v vs IH]; intros i row; simpl; [done|].
  destruct (IH (i + 1)%Z (set_progress (wr_Status row) (i + 1) (<[step_key i := v]> (wr_Context row)) row)) as (?&?&?&?&?&?).
  naive_solver.
Qed.

Lemma wrap_id bits z : (0 < bits)%Z -> (- 2 ^ (bits - 1) <= z < 2 ^ (bits - 1))%Z -> wrap bits z = z.
Proof.
  intros Hb Hz. unfold wrap. assert (2 ^ bits = 2 * 2 ^ (bits - 1))%Z as He.
  { replace bits with (Z.succ (bits - 1)) at 1 by lia. rewrite Z.pow_succ_r by lia. lia. }
  rewrite Z.mod_small by lia. lia.
Qed.

Lemma i32_id z : (- 2 ^ 31 <= z < 2 ^ 31)%Z -> i32 z = z.
Proof. intros Hz. unfold i32. apply wrap_id; lia. Qed.

Lemma update_others {R} (p : R -> bool) f (rows : list R) : (forall r, r ∈ rows -> p r = false) -> update_matching p f rows = rows.
Proof.
  induction rows as [|r rows IH]; simpl; [done|]. intros Hall. rewrite (Hall r (list_elem_of_here _ _)).
  f_equal. apply IH. intros r' Hr'. apply Hall. by apply list_elem_of_further.
Qed.

Lemma update_last {R} (p : R -> bool) f (rows : list R) r :
  (forall r, r ∈ rows -> p r = false) -> p r = true -> update_matching p f (rows ++ [r]) = rows ++ [f r].
Proof.
  intros Hall Hr. unfold update_matching. rewrite map_app. f_equal; [by apply update_others|]. simpl. by rewrite Hr.
Qed.

Definition other_rows (wid : uuid) (rows : list WorkflowRun) : Prop := forall x, x ∈ rows -> workflow_is wid x = false.

(** The chain's own row is the last one of the table. *)
Definition chain_world (t : CronTables) (others : list WorkflowRun) (row : WorkflowRun) (log : list Effect) : Scheduler :=
  mkScheduler (set_workflows t (others ++ [row])) log.

Lemma on_row {B} (t : CronTables) others row wid f log (k : unit -> Handler Scheduler B) :
  other_rows wid others -> wr_ID row = wid ->
  hbind (on_tables (update_workflow wid f)) k (chain_world t others row log) = k tt (chain_world t others (f row) log).
Proof.
  intros Ho Hid. unfold hbind, on_tables, update_workflow, exec, chain_world. cbn [sw_tables sw_log].
  unfold set_workflows at 1. cbn [ct_workflows set_workflows]. rewrite update_last; [done|exact Ho|].
  unfold workflow_is. by case_bool_decide.
Qed.

Lemma run_steps_perform now p wid others t rest pre : forall i results row log vs log1,
  other_rows wid others -> wr_ID row = wid -> (0 <= i)%Z -> (i + Z.of_nat (length pre) < 2 ^ 31)%Z ->
  perform p pre log = Some (vs, log1) ->
  run_steps nil_uuid config now p wid i (pre ++ rest) results (chain_world t others row log) =
  run_steps nil_uuid config now p wid (i + Z.of_nat (length pre)) rest (results ++ vs)
    (chain_world t others (progressed i vs row) log1).
Proof.
  induction pre as [|step pre IH]; intros i results row log vs log1 Ho Hid Hi Hlen; cbn [perform app].
  - intros [= <- <-]. simpl. by rewrite Z.add_0_r, app_nil_r.
  - cbn [run_steps]. destruct (is_wait step); [done|].
    destruct (runOneStep nil_uuid config p step log) as [[v|e|] log2] eqn:Hv; try done.
    destruct (perform p pre log2) as [[vs' log3]|] eqn:Hp; [|done]. intros [= <- <-].
    unfold hbind at 1, catch, on_outside. cbn [chain_world sw_log sw_tables]. rewrite Hv.
    change (mkScheduler (set_workflows t (others ++ [row])) log2) with (chain_world t others row log2).
    simpl length in Hlen. unfold AdvanceWorkflowRun. rewrite (on_row t others row wid _ _ _ Ho Hid).
    rewrite i32_id by lia. rewrite (IH (i + 1)%Z _ _ _ vs' log3).
    + rewrite <- app_assoc. by replace (i + Z.of_nat (length (step :: pre)))%Z with (i + 1 + Z.of_nat (length pre))%Z by (simpl; lia).
    + exact Ho.
    + exact Hid.
    + lia.
    + lia.
    + exact Hp.
Qed.

Lemma run_steps_wait now p wid others t i ws post results row log wait :
  other_rows wid others -> wr_ID row = wid -> is_wait ws = true -> unmarshal_wait (act_TargetConfig ws) = Some wait ->
  run_steps nil_uuid config now p wid i (ws :: post) results (chain_world t others row log) =
  (Ok None, chain_world (set_runs t (paused_run (du_RunID p) (ct_runs t))) others (set_waiting i wait row) log).
Proof.
  intros Ho Hid Hw Hu. cbn [run_steps]. rewrite Hw, Hu.
  unfold hbind, on_tables, PauseWorkflowRun, transaction, hbind, update_workflow, update_run, exec, chain_world.
  cbn [sw_tables sw_log]. unfold set_workflows, set_runs. cbn [ct_workflows ct_runs ct_jobs ct_outbox ct_drawn].
  rewrite update_last; [done|exact Ho|]. unfold workflow_is. by case_bool_decide.
Qed.

Lemma run_steps_end now p wid others t i results row log :
  other_rows wid others -> wr_ID row = wid ->
  run_steps nil_uuid config now p wid i [] results (chain_world t others row log) =
  (Ok (Some (summary_json results)),
   chain_world t others (set_ended WorkflowSuccess (wr_CurrentStepIndex row) (wr_Error row) now row) log).
Proof. intros Ho Hid. cbn [run_steps]. unfold FinishWorkflowRun. by rewrite (on_row t others row wid). Qed.

(** The row StartWorkflowRun inserts. *)
Definition new_workflow (now : Z) (wid : uuid) (p : CronJobDuePayload) (n : Z) : WorkflowRun :=
  mkWorkflowRun wid (du_TenantID p) (du_JobID p) (du_RunID p) WorkflowRunning 0 n ∅ None None None None now None.

Definition not_locked : uuid -> bool := fun _ => false.

(** No row of the table belongs to the firing, and none already waits for the event. *)
Definition chain_fresh (p : CronJobDuePayload) (entity action : string) (w : Scheduler) : Prop :=
  forall x, x ∈ workflows w ->
    workflow_is (fresh (ct_drawn (sw_tables w))) x = false /\ bool_decide (wr_CronJobRunID x = du_RunID p) = false /\
    waits_for not_locked (du_TenantID p) entity WaitAction action x = false.

Lemma StartWorkflowRun_fresh now p entity action n w job r :
  chain_fresh p entity action w ->
  List.find (job_is (du_JobID p)) (jobs w) = Some job -> run_of (du_RunID p) (runs w) = Some r ->
  on_tables (StartWorkflowRun fresh now (du_TenantID p) (du_JobID p) (du_RunID p) n) w =
  (Ok (fresh (ct_drawn (sw_tables w))),
   chain_world (set_drawn (sw_tables w) (S (ct_drawn (sw_tables w)))) (workflows w)
     (new_workflow now (fresh (ct_drawn (sw_tables w))) p n) (sw_log w)).
Proof.
  intros Hf Hj Hr. unfold on_tables, StartWorkflowRun, hbind, new_uuid. cbn [ct_workflows ct_jobs ct_runs set_drawn].
  rewrite existsb_false_all.
  - assert (existsb (job_is (du_JobID p)) (jobs w) = true) as ->.
    { apply existsb_exists. apply find_some in Hj as [? ?]. eauto. }
    assert (existsb (run_is (du_RunID p)) (runs w) = true) as ->.
    { apply existsb_exists. apply find_some in Hr as [? ?]. eauto. }
    done.
  - intros x Hx. destruct (Hf x Hx) as (-> & -> & _). done.
Qed.

Section Chain.
Variables (now now' : Z) (p : CronJobDuePayload) (w : Scheduler) (job : CronJob) (r : CronJobRun).
Variables (entity action : string) (recordID : uuid).
Variables (pre post : list activity) (ws : activity) (vs vs' : list json) (log1 log2 : list Effect).

Local Notation wid := (fresh (ct_drawn (sw_tables w))).
Local Notation wait := (mkWait entity (Some action) None).
Local Notation at_wait := (Z.of_nat (length pre)).

(** A firing of a chain whose steps up to the wait succeed. *)
Record pausing : Prop := {
  pa_steps : ParseTargetType (du_TargetType p) = Some TargetSteps;
  pa_config : unmarshal_steps (du_TargetConfig p) = Some (pre ++ ws :: post);
  pa_short : (Z.of_nat (length (pre ++ ws :: post)) < 2 ^ 31)%Z;
  pa_wait : is_wait ws = true;
  pa_event : unmarshal_wait (act_TargetConfig ws) = Some wait;
  pa_job : List.find (job_is (du_JobID p)) (jobs w) = Some job;
  pa_run : run_of (du_RunID p) (runs w) = Some r;
  pa_enqueued : jr_Status r = "enqueued";
  pa_fresh : chain_fresh p entity action w;
  pa_perform : perform p pre (sw_log w) = Some (vs, log1)
}.

Definition chain_tables : CronTables :=
  set_drawn (sw_tables (started now (du_RunID p) w)) (S (ct_drawn (sw_tables w))).

Definition first_row : WorkflowRun := new_workflow now wid p (i32 (Z.of_nat (length (pre ++ ws :: post)))).

Definition paused_row : WorkflowRun := set_waiting at_wait wait (progressed 0 vs first_row).

Definition paused_world : Scheduler :=
  chain_world (set_runs chain_tables (paused_run (du_RunID p) (ct_runs chain_tables))) (workflows w) paused_row log1.

Lemma first_rows_other : pausing -> other_rows wid (workflows w).
Proof. intros Hp x Hx. by destruct (pa_fresh Hp x Hx). Qed.

Lemma chain_pauses : pausing -> Execute fresh nil_uuid config now p w = (Ok tt, paused_world).
Proof.
  intros Hp. rewrite Execute_eq. unfold RunStatusOf. fold (run_of (du_RunID p) (runs w)).
  rewrite (pa_run Hp), (pa_enqueued Hp). simpl already_ran. cbv iota.
  unfold dispatch. rewrite (pa_steps Hp). unfold RunSteps. rewrite (pa_config Hp).
  destruct (pre ++ ws :: post) as [|s0 rest] eqn:Hl; [by destruct pre|]. rewrite <- Hl.
  unfold hbind at 1.
  rewrite (StartWorkflowRun_fresh now p entity action _ (started now (du_RunID p) w) job (set_started now r)); cycle 1.
  { exact (pa_fresh Hp). }
  { exact (pa_job Hp). }
  { cbn [started sw_tables set_runs ct_runs]. rewrite run_of_update by done. by rewrite (pa_run Hp). }
  unfold runStepRange. destruct (_ || _) eqn:Hb; [apply orb_true_iff in Hb as [Hb%Z.ltb_lt|Hb%Z.ltb_lt]; lia|].
  change (drop (Z.to_nat 0) (pre ++ ws :: post)) with (pre ++ ws :: post).
  change (ct_drawn (sw_tables (started now (du_RunID p) w))) with (ct_drawn (sw_tables w)).
  change (workflows (started now (du_RunID p) w)) with (workflows w).
  change (sw_log (started now (du_RunID p) w)) with (sw_log w).
  pose proof (pa_short Hp) as Hs. rewrite length_app in Hs. simpl length in Hs.
  rewrite (run_steps_perform _ _ _ _ _ _ pre 0 [] _ _ vs log1); [|exact (first_rows_other Hp)|done|lia|lia|exact (pa_perform Hp)].
  rewrite Z.add_0_l, (run_steps_wait _ _ _ _ _ _ _ _ _ _ _ wait); [done|exact (first_rows_other Hp)| |exact (pa_wait Hp)|exact (pa_event Hp)].
  by destruct (progressed_fields 0 vs (new_workflow now wid p (i32 (Z.of_nat (length (pre ++ ws :: post)))))) as (-> & _).
Qed.

(** The event that resumes it. *)
Definition resumed : ResumedWorkflowRun :=
  mkResumed wid (du_RunID p) (du_JobID p) (du_TenantID p) (at_wait + 1) (cj_TargetConfig job) (cj_DispatchMode job)
    (cj_MaxAttempts job) (cj_RetryBackoffSeconds job) (jr_Attempt r) recordID entity.

Definition resumed_row : WorkflowRun := progressed (at_wait + 1) vs' (set_running paused_row).

Definition resumed_world : Scheduler :=
  let t := sw_tables paused_world in
  chain_world (set_runs t (update_matching (run_is (du_RunID p)) (set_finished now' RunSuccess None (Some (summary_json vs'))) (ct_runs t)))
    (workflows w) (set_ended WorkflowSuccess (wr_CurrentStepIndex resumed_row) (wr_Error resumed_row) now' resumed_row) log2.

Record resuming : Prop := {
  re_unedited : cj_TargetConfig job = du_TargetConfig p;
  re_perform : perform (resumed_payload resumed) post log1 = Some (vs', log2)
}.

Lemma paused_row_fields :
  wr_ID paused_row = wid /\ wr_TenantID paused_row = du_TenantID p /\ wr_JobID paused_row = du_JobID p /\
  wr_CronJobRunID paused_row = du_RunID p.
Proof.
  unfold paused_row, set_waiting. cbn [wr_ID wr_TenantID wr_JobID wr_CronJobRunID].
  by destruct (progressed_fields 0 vs first_row) as (-> & -> & -> & -> & _).
Qed.

Lemma paused_world_run : pausing -> run_of (du_RunID p) (runs paused_world) = Some (set_run_status RunWaiting (set_started now r)).
Proof.
  intros Hp. unfold paused_world, chain_world, chain_tables, paused_run, started. cbn [sw_tables set_workflows set_runs set_drawn ct_runs].
  rewrite !run_of_update by done. by rewrite (pa_run Hp).
Qed.

Lemma paused_row_waits : waits_for not_locked (du_TenantID p) entity WaitAction action paused_row = true.
Proof.
  destruct paused_row_fields as (_ & Ht & _). unfold waits_for. rewrite Ht. simpl.
  rewrite !bool_decide_eq_true_2 by done. done.
Qed.

Lemma paused_world_matches :
  pausing -> on_tables (DispatchOnWaitEventTransitionMatches not_locked (du_TenantID p) entity action recordID) paused_world
  = (Ok [resumed], chain_world (sw_tables paused_world) (workflows w) (set_running paused_row) log1).
Proof.
  intros Hp. unfold on_tables, DispatchOnWaitEventTransitionMatches, resumeMatching.
  assert (Hws : ct_workflows (sw_tables paused_world) = workflows w ++ [paused_row]) by done.
  destruct paused_row_fields as (Hid & Ht & Hj & Hr).
  assert (Hres : resumed_of (sw_tables paused_world) entity recordID paused_row = Some resumed).
  { unfold resumed_of. rewrite Hid, Ht, Hj, Hr. fold (run_of (du_RunID p) (runs paused_world)).
    rewrite (paused_world_run Hp). change (ct_jobs (sw_tables paused_world)) with (jobs w). rewrite (pa_job Hp).
    unfold resumed. do 2 f_equal. pose proof (pa_short Hp) as Hs. rewrite length_app in Hs. simpl in Hs. apply i32_id. simpl. lia. }
  rewrite Hws, List.filter_app, filter_none; cycle 1.
  { intros x Hx. by destruct (pa_fresh Hp x Hx) as (_ & _ & ->). }
  cbn [List.filter app]. rewrite paused_row_waits. cbn [omap list_omap]. rewrite Hres. cbn [map rs_WorkflowRunID resumed].
  rewrite update_last; [done| |].
  - intros x Hx. apply bool_decide_eq_false. rewrite list_elem_of_singleton. intros He.
    pose proof (first_rows_other Hp x Hx) as Ho. unfold workflow_is in Ho. by rewrite bool_decide_eq_true_2 in Ho.
  - apply bool_decide_eq_true. rewrite Hid. by apply list_elem_of_singleton.
Qed.

Lemma chain_resumes :
  pausing -> resuming ->
  finishDispatch fresh nil_uuid config now' (inl (mkClaim 0 []))
    (DispatchOnWaitEventTransitionMatches not_locked (du_TenantID p) entity action recordID) paused_world
  = (Ok Acked, resumed_world).
Proof.
  intros Hp Hq. unfold finishDispatch. cbn [cl_DirectJobs runDirectJobs]. unfold hbind at 1, hret at 1.
  unfold hbind at 1, catch at 1. rewrite (paused_world_matches Hp). cbn [resume_all].
  pose proof (first_rows_other Hp) as Ho. destruct paused_row_fields as (Hid & _).
  pose proof (pa_short Hp) as Hs. rewrite length_app in Hs. simpl length in Hs.
  assert (Hdrop : drop (Z.to_nat (at_wait + 1)) (pre ++ ws :: post) = post).
  { rewrite cons_middle, app_assoc. apply drop_app_length'. rewrite length_app. simpl. lia. }
  unfold ResumeSteps. cbn [resumed_payload du_TargetConfig resumed rs_TargetConfig rs_WorkflowRunID rs_ResumeFromStepIndex].
  rewrite (re_unedited Hq), (pa_config Hp).
  unfold runStepRange. destruct (_ || _) eqn:Hb.
  { rewrite length_app in Hb. simpl length in Hb. apply orb_true_iff in Hb as [Hb%Z.ltb_lt|Hb%Z.ltb_lt]; lia. }
  rewrite Hdrop, <- (app_nil_r post).
  unfold hbind at 1 2 3, catch.
  rewrite (run_steps_perform _ _ _ _ _ [] post (at_wait + 1) [] (set_running paused_row) log1 vs' log2);
    [|exact Ho|exact Hid|lia|lia|exact (re_perform Hq)].
  rewrite run_steps_end; [|exact Ho|by destruct (progressed_fields (at_wait + 1) vs' (set_running paused_row)) as (-> & _)].
  done.
Qed.

Lemma run_status_of t id x : run_of id (ct_runs t) = Some x -> RunStatusOf t id = ParseRunStatus (jr_Status x).
Proof. intros Hx. unfold RunStatusOf. fold (run_of id (ct_runs t)). by rewrite Hx. Qed.

Lemma resumed_row_fields :
  wr_ID resumed_row = wid /\ wr_TenantID resumed_row = du_TenantID p /\ wr_CronJobRunID resumed_row = du_RunID p /\
  wr_Context resumed_row = context_with (at_wait + 1) vs' (context_with 0 vs ∅).
Proof.
  unfold resumed_row. destruct (progressed_fields (at_wait + 1) vs' (set_running paused_row)) as (-> & -> & _ & -> & _ & ->).
  unfold set_running, set_progress. cbn [wr_ID wr_TenantID wr_CronJobRunID wr_Context].
  destruct paused_row_fields as (-> & -> & _ & ->). repeat split; try done.
  unfold paused_row, set_waiting. cbn [wr_Context]. by destruct (progressed_fields 0 vs first_row) as (_ & _ & _ & _ & _ & ->).
Qed.

End Chain.

(** ** Claims *)

(** What a claim does to the row of a due job. *)
Definition next_of (now : Z) (j : CronJob) : option Z :=
  match cj_CronExpr j with
  | None => None
  | Some expr => match NextRunAt expr (cj_Timezone j) now with Ok next => Some next | _ => None end
  end.

Definition claimed_job (now : Z) (j : CronJob) : CronJob :=
  match next_of now j with Some next => set_ran (Some next) now now j | None => set_enabled false now j end.

Definition fires (now : Z) (j : CronJob) : bool := match next_of now j with Some _ => true | None => false end.

(** The run a claim opens. *)
Definition opened (now : Z) (j : CronJob) (r : CronJobRun) : Prop :=
  jr_JobID r = cj_ID j /\ jr_TenantID r = cj_TenantID j /\ jr_Status r = "enqueued" /\ jr_Attempt r = 1%Z /\
  jr_ScheduledFor r = due_at j /\ jr_StartedAt r = None.

Definition ids_unused (t : CronTables) : Prop := forall k r, (ct_drawn t <= k)%nat -> r ∈ ct_runs t -> jr_ID r <> fresh k.

Lemma claimed_job_id now j : cj_ID (claimed_job now j) = cj_ID j.
Proof. unfold claimed_job. by destruct (next_of now j). Qed.

(** The row with a job's identifier is the job. *)
Lemma job_row_unique t (j x : CronJob) :
  NoDup (map cj_ID (ct_jobs t)) -> j ∈ ct_jobs t -> x ∈ ct_jobs t -> cj_ID x = cj_ID j -> x = j.
Proof.
  induction (ct_jobs t) as [|y l IH]; simpl; [by intros _ ?%elem_of_nil|].
  rewrite NoDup_cons, !elem_of_cons. intros [Hy Hnd] [->|Hj] [->|Hx] He; [done| | |by apply IH].
  - exfalso. apply Hy. rewrite <- He. apply list_elem_of_fmap. eauto.
  - exfalso. apply Hy. rewrite He. apply list_elem_of_fmap. eauto.
Qed.

Lemma update_job_row (f g : CronJob -> CronJob) t j :
  NoDup (map cj_ID (ct_jobs t)) -> j ∈ ct_jobs t -> f j = g j ->
  update_matching (job_is (cj_ID j)) f (ct_jobs t) = update_matching (job_is (cj_ID j)) g (ct_jobs t).
Proof.
  intros Hnd Hj Hfg. unfold update_matching. apply map_ext_in. intros x Hx%list_elem_of_In.
  unfold job_is. case_bool_decide as He; [|done]. by rewrite (job_row_unique t j x).
Qed.

Lemma dispatchClaimed_tables job runID a te tr t :
  exists ds t', dispatchClaimed job runID a te tr t = (Ok ds, t') /\ ct_jobs t' = ct_jobs t /\ ct_runs t' = ct_runs t /\
    ct_workflows t' = ct_workflows t /\ ct_drawn t' = ct_drawn t.
Proof. unfold dispatchClaimed. destruct (ParseDispatchMode _) as [[]|]; cbn; eexists _, _; done. Qed.

Section ClaimLoop.
Context (Hinj : forall a b, fresh a = fresh b -> a = b).

Lemma claim_job_tables now j t :
  NoDup (map cj_ID (ct_jobs t)) -> j ∈ ct_jobs t -> ids_unused t ->
  exists ds t' rs, claim_job fresh now j t = (Ok ds, t') /\
    ct_jobs t' = update_matching (job_is (cj_ID j)) (claimed_job now) (ct_jobs t) /\
    ct_runs t' = ct_runs t ++ rs /\ Forall2 (opened now) (if fires now j then [j] else []) rs /\ ids_unused t'.
Proof.
  intros Hnd Hj Hun. unfold claim_job, fires, next_of.
  assert (Hdis : next_of now j = None -> exists ds t' rs,
    (let* _ := update_job (cj_ID j) (set_enabled false now) in hret ([] : list CronJobDuePayload)) t = (Ok ds, t') /\
    ct_jobs t' = update_matching (job_is (cj_ID j)) (claimed_job now) (ct_jobs t) /\
    ct_runs t' = ct_runs t ++ rs /\ Forall2 (opened now) [] rs /\ ids_unused t').
  { intros Hn. eexists [], _, []. unfold hbind, update_job, exec. split; [reflexivity|]. cbn [ct_jobs ct_runs set_jobs].
    rewrite app_nil_r. split; [|done]. apply update_job_row; [done..|]. unfold claimed_job. by rewrite Hn. }
  unfold next_of in Hdis. destruct (cj_CronExpr j) as [expr|] eqn:He; [|by apply Hdis].
  destruct (NextRunAt expr (cj_Timezone j) now) as [next|e|] eqn:Hn; [|by apply Hdis..]. clear Hdis.
  unfold hbind at 1, update_job, exec. set (t1 := set_jobs t _).
  assert (Hj1 : ct_jobs t1 = update_matching (job_is (cj_ID j)) (claimed_job now) (ct_jobs t)).
  { apply update_job_row; [done..|]. unfold claimed_job, next_of. by rewrite He, Hn. }
  unfold hbind at 1, new_uuid. change (ct_drawn t1) with (ct_drawn t).
  unfold hbind at 1, insert_run. rewrite existsb_false_all; cycle 1.
  { intros r Hr. unfold run_is. apply bool_decide_eq_false. by apply Hun. }
  cbn [ct_jobs set_drawn]. rewrite Hj1.
  assert (existsb (job_is (cj_ID j)) (update_matching (job_is (cj_ID j)) (claimed_job now) (ct_jobs t)) = true) as ->.
  { apply existsb_exists. exists (claimed_job now j). split.
    - apply in_map_iff. exists j. split; [|by apply list_elem_of_In]. unfold job_is. by rewrite bool_decide_eq_true_2.
    - unfold job_is. rewrite claimed_job_id. by rewrite bool_decide_eq_true_2. }
  unfold exec. destruct (dispatchClaimed_tables j (fresh (ct_drawn t)) 1 None None
    (set_runs (set_drawn t1 (S (ct_drawn t))) (ct_runs t ++ [mkRun (fresh (ct_drawn t)) (cj_TenantID j) (cj_ID j) (RunStatus_text RunEnqueued) 1 (due_at j) None None None None now])))
    as (ds & t2 & Hd & Hd1 & Hd2 & _ & Hd3).
  exists ds, t2. eexists. split; [exact Hd|]. rewrite Hd1, Hd2. split; [exact Hj1|]. split; [reflexivity|].
  split; [by repeat constructor|].
  intros k r Hk. rewrite Hd3 in Hk. rewrite Hd2. cbn [ct_drawn set_runs set_drawn] in Hk. cbn [ct_runs set_runs].
  rewrite elem_of_app, list_elem_of_singleton. intros [Hr| ->]; [apply Hun; [lia|done]|].
  cbn [jr_ID]. intros He'. apply Hinj in He'. lia.
Qed.

Definition claim_rows (now : Z) (js l : list CronJob) : list CronJob :=
  map (fun x => if bool_decide (cj_ID x ∈ map cj_ID js) then claimed_job now x else x) l.

Lemma claim_rows_cons now j js l :
  cj_ID j ∉ map cj_ID js ->
  claim_rows now js (update_matching (job_is (cj_ID j)) (claimed_job now) l) = claim_rows now (j :: js) l.
Proof.
  intros Hj. unfold claim_rows, update_matching. rewrite map_map. apply map_ext. intros x. unfold job_is. simpl.
  destruct (decide (cj_ID x = cj_ID j)) as [He|Hne].
  - rewrite (bool_decide_eq_true_2 _ He), claimed_job_id, He. rewrite bool_decide_eq_false_2 by done.
    rewrite bool_decide_eq_true_2; [done|]. apply list_elem_of_here.
  - rewrite (bool_decide_eq_false_2 _ Hne). apply (f_equal (fun b : bool => if b then claimed_job now x else x)).
    apply bool_decide_ext. rewrite elem_of_cons. naive_solver.
Qed.

Lemma claim_rows_ids now js l : map cj_ID (claim_rows now js l) = map cj_ID l.
Proof. unfold claim_rows. rewrite map_map. apply map_ext. intros x. by destruct (bool_decide _); [apply claimed_job_id|]. Qed.

Lemma claim_all_tables now js : forall t,
  NoDup (map cj_ID (ct_jobs t)) -> NoDup (map cj_ID js) -> (forall j, j ∈ js -> j ∈ ct_jobs t) -> ids_unused t ->
  exists ds t' rs, claim_all (claim_job fresh now) js t = (Ok ds, t') /\ ct_jobs t' = claim_rows now js (ct_jobs t) /\
    ct_runs t' = ct_runs t ++ rs /\ Forall2 (opened now) (List.filter (fires now) js) rs.
Proof.
  induction js as [|j js IH]; intros t Hnd Hjs Hin Hun.
  - eexists [], t, []. split; [done|]. rewrite app_nil_r. split; [|done]. unfold claim_rows. symmetry. simpl. apply map_id.
  - simpl in Hjs. apply NoDup_cons in Hjs as [Hj Hjs].
    destruct (claim_job_tables now j t Hnd (Hin j (list_elem_of_here _ _)) Hun) as (ds & t1 & rs & Hc & Hj1 & Hr1 & Ho & Hun1).
    destruct (IH t1) as (ds' & t2 & rs' & Hc' & Hj2 & Hr2 & Ho').
    + rewrite Hj1. replace (map cj_ID _) with (map cj_ID (ct_jobs t)); [done|].
      unfold update_matching. rewrite map_map. apply map_ext. intros x. by destruct (job_is _ _); [rewrite claimed_job_id|].
    + done.
    + intros x Hx. rewrite Hj1. apply list_elem_of_In, in_map_iff. exists x. split.
      * unfold job_is. rewrite bool_decide_eq_false_2; [done|]. intros He. apply Hj. rewrite <- He. apply list_elem_of_fmap. eauto.
      * apply list_elem_of_In, Hin. by apply list_elem_of_further.
    + done.
    + exists (ds ++ ds'), t2, (rs ++ rs'). cbn [claim_all]. unfold hbind. rewrite Hc, Hc'. split; [done|].
      rewrite Hj2, Hj1, claim_rows_cons by done. split; [done|]. rewrite Hr2, Hr1, app_assoc. split; [done|].
      simpl. destruct (fires now j); [|by inversion Ho; subst].
      change (j :: List.filter (fires now) js) with ([j] ++ List.filter (fires now) js). by apply Forall2_app.
Qed.
End ClaimLoop.

Lemma claimed_not_due now locked j : CronLaws _ -> job_due now locked (claimed_job now j) = false.
Proof.
  intros Hl. unfold job_due, claimed_job, next_of.
  destruct (cj_CronExpr j) as [expr|]; [|done].
  destruct (NextRunAt expr (cj_Timezone j) now) as [next|e|] eqn:Hn; [|done..].
  unfold NextRunAt in Hn. destruct (cron_Parse expr); [|done]. destruct (LoadLocation _); [|done].
  destruct (schedule_Next _ _ _) eqn:Hs; [|done]. injection Hn as ->.
  apply schedule_Next_later in Hs. simpl. assert ((next <=? now)%Z = false) as -> by (apply Z.leb_gt; lia).
  by rewrite andb_false_r.
Qed.

Lemma filter_job_ids_NoDup (q : CronJob -> bool) l : NoDup (map cj_ID l) -> NoDup (map cj_ID (List.filter q l)).
Proof.
  induction l as [|j l IH]; simpl; [done|]. rewrite NoDup_cons. intros [Hj Hnd]. destruct (q j); [|by apply IH].
  simpl. rewrite NoDup_cons. split; [|by apply IH]. intros Hin. apply Hj.
  apply list_elem_of_fmap in Hin as (x & -> & Hx). apply list_elem_of_fmap. exists x. split; [done|].
  apply list_elem_of_In, filter_In in Hx as [Hx _]. by apply list_elem_of_In.
Qed.

Lemma due_ids now t j :
  NoDup (map cj_ID (ct_jobs t)) -> j ∈ ct_jobs t ->
  bool_decide (cj_ID j ∈ map cj_ID (order_by due_at (List.filter (job_due now not_locked) (ct_jobs t)))) = job_due now not_locked j.
Proof.
  intros Hnd Hj. destruct (job_due now not_locked j) eqn:Hd.
  - apply bool_decide_eq_true. apply list_elem_of_fmap. exists j. split; [done|]. rewrite order_by_perm.
    apply list_elem_of_In, filter_In. split; [by apply list_elem_of_In|done].
  - apply bool_decide_eq_false. intros (x & He & Hx)%list_elem_of_fmap. rewrite order_by_perm in Hx.
    apply list_elem_of_In, filter_In in Hx as [Hx Hdx]. apply list_elem_of_In in Hx.
    rewrite (job_row_unique t j x) in Hdx by done. congruence.
Qed.

(** Claiming takes every due job once: the row of a due job moves to its next
    occurrence, later than now, or is disabled when it has none, the other rows stay
    as they are, one enqueued run is opened for each job claimed and scheduled for
    the instant it was due, and no job is due any more. *)
Lemma due_jobs_claimed_once now n t :
  CronLaws _ -> (forall a b, fresh a = fresh b -> a = b) -> ids_unused t -> NoDup (map cj_ID (ct_jobs t)) ->
  (length (ct_jobs t) <= n)%nat ->
  exists c t' rs, ClaimDueJobs fresh now n not_locked t = (Ok c, t') /\
    ct_jobs t' = map (fun j => if job_due now not_locked j then claimed_job now j else j) (ct_jobs t) /\
    (forall j, j ∈ ct_jobs t' -> job_due now not_locked j = false) /\
    ct_runs t' = ct_runs t ++ rs /\
    Forall2 (opened now) (List.filter (fires now) (order_by due_at (List.filter (job_due now not_locked) (ct_jobs t)))) rs /\
    cl_Claimed c = length (List.filter (job_due now not_locked) (ct_jobs t)).
Proof.
  intros Hl Hinj Hun Hnd Hn. set (js := order_by due_at (List.filter (job_due now not_locked) (ct_jobs t))).
  assert (Hperm : js ≡ₚ List.filter (job_due now not_locked) (ct_jobs t)) by apply order_by_perm.
  assert (Hlen : (length (List.filter (job_due now not_locked) (ct_jobs t)) <= length (ct_jobs t))%nat) by apply filter_length_le.
  destruct (claim_all_tables Hinj now js t Hnd) as (ds & t' & rs & Hc & Hj & Hr & Ho).
  { rewrite Hperm. by apply filter_job_ids_NoDup. }
  { intros j Hj. rewrite Hperm in Hj. apply list_elem_of_In, filter_In in Hj as [Hj _]. by apply list_elem_of_In. }
  { done. }
  assert (Hjobs : ct_jobs t' = map (fun j => if job_due now not_locked j then claimed_job now j else j) (ct_jobs t)).
  { rewrite Hj. unfold claim_rows. apply map_ext_in. intros j Hx%list_elem_of_In.
    pose proof (due_ids now t j Hnd Hx) as Hd. fold js in Hd. by rewrite Hd. }
  exists (mkClaim (length js) ds), t', rs. split.
  { unfold ClaimDueJobs, transaction, hbind, read_with. rewrite take_ge; [by fold js; rewrite Hc|].
    rewrite (Permutation_length (order_by_perm _ _)). lia. }
  split; [exact Hjobs|]. split.
  { rewrite Hjobs. intros j (x & -> & Hx)%list_elem_of_fmap. destruct (job_due now not_locked x) eqn:Hd; [|done].
    by apply claimed_not_due. }
  split; [done|]. split; [done|]. cbn [cl_Claimed]. by rewrite Hperm.
Qed.
End Props.

(** ** Witnesses *)

#[local] Existing Instance TestUuid.


Definition mail_step (who : string) : activity := mkActivity "email" (Some (mail_to who)).
Definition wait_approval : activity := mkActivity "wait_event" (Some approval).
Definition mail_result (who : string) : json := JObj [("subject", JStr "hello"); ("to", JArr [JStr who])].

Definition sent (who body : string) : Effect :=
  SentMail (mkMail "mail.example:25" None "cron@example" [who] (buildMimeMessage "cron@example" [who] "hello" body)).

Definition approved_note : string := newline +:+ newline +:+ "---" +:+ newline +:+ "Triggered by: deal (record uuid-d9)".


Lemma due_jobs_claimed_once_witness :
  exists c t' rs, ClaimDueJobs test_fresh 200 5 not_locked test_tables = (Ok c, t') /\
    ct_jobs t' = [set_ran (Some (200 + 60 * Second)%Z) 200 200 chain_job; set_enabled false 200 mail_job] /\
    ct_runs t' = chain_run :: rs /\ Forall2 (opened 200) [chain_job] rs /\ cl_Claimed c = 2%nat.
Proof.
  destruct (due_jobs_claimed_once test_fresh 200 5 test_tables) as (c & t' & rs & Hc & Hj & _ & Hr & Ho & Hn).
  - apply TestCron_laws.
  - exact test_fresh_inj.
  - intros k r _ Hr. apply list_elem_of_singleton in Hr as ->. done.
  - apply (bool_decide_unpack (NoDup _)). by vm_compute.
  - simpl. lia.
  - exists c, t', rs. split; [exact Hc|]. split; [exact Hj|]. split; [exact Hr|]. split; [exact Ho|exact Hn].
Defined.
