(* ===== verification/OutboundProps.v ===== *)
(** What the guard on webhook targets blocks, and what a webhook sends. *)
From S2P Require Import Prelude GoStrings GoText Json Floats Condition Context Uuid Evaluate Snapshot PermissionService PolicyStore Metadata Schema Router Payload Workflow AuditTrail Sql ConditionSql Jql Planner Records Crud CrudOutcomes CrudProps CrudState Authn Cron Outbound CronScheduler CronRoutes CronExamples.

Open Scope string_scope.
Open Scope list_scope.

(** ** Blocked addresses *)

Definition is_address (n : nat) (a : ip) : Prop := length a = n /\ Forall (fun b => b < 256)%N a.

(** The number an address is, most significant byte first. *)
Definition ip_number (a : ip) : N := fold_left (fun acc b => acc * 256 + b)%N a 0%N.

(** A network: a prefix of a number of bits. *)
Definition net (width : N) (base : ip) (bits : N) : N * N :=
  let lo := ip_number base in (lo, (lo + 2 ^ (width - bits) - 1)%N).

Definition in_net (n : N) (r : N * N) : bool := ((r.1 <=? n) && (n <=? r.2))%N.

Definition blocked_v4 : list (N * N) :=
  [net 32 [10; 0; 0; 0]%N 8; net 32 [172; 16; 0; 0]%N 12; net 32 [192; 168; 0; 0]%N 16; net 32 [127; 0; 0; 0]%N 8;
   net 32 [169; 254; 0; 0]%N 16; net 32 [0; 0; 0; 0]%N 32; net 32 [224; 0; 0; 0]%N 4; net 32 [255; 255; 255; 255]%N 32;
   net 32 [192; 0; 2; 0]%N 24; net 32 [198; 51; 100; 0]%N 24; net 32 [203; 0; 113; 0]%N 24; net 32 [100; 64; 0; 0]%N 10].

(** All the values of a byte, to check a claim on each of them. *)
Definition all_byte_values : list N := Eval vm_compute in map N.of_nat (seq 0 256).

Lemma all_byte_values_in b : (b < 256)%N -> In b all_byte_values.
Proof.
  intros Hb. change all_byte_values with (map N.of_nat (seq 0 256)). apply in_map_iff.
  exists (N.to_nat b). split; [apply N2Nat.id|]. apply in_seq. lia.
Qed.

Lemma byte_check (f g : N -> bool) :
  forallb (fun b => Bool.eqb (f b) (g b)) all_byte_values = true -> forall b, (b < 256)%N -> f b = g b.
Proof. intros Hall b Hb. rewrite forallb_forall in Hall. by apply Bool.eqb_prop, Hall, all_byte_values_in. Qed.

Lemma land_172 b : (b < 256)%N -> (N.land b 240 =? 16)%N = ((16 <=? b) && (b <? 32))%N.
Proof. apply (byte_check (fun b => N.land b 240 =? 16)%N (fun b => (16 <=? b) && (b <? 32))%N). by vm_compute. Qed.

Lemma land_multicast b : (b < 256)%N -> (N.land b 240 =? 224)%N = ((224 <=? b) && (b <? 240))%N.
Proof. apply (byte_check (fun b => N.land b 240 =? 224)%N (fun b => (224 <=? b) && (b <? 240))%N). by vm_compute. Qed.

(** Both sides are comparisons of numbers. *)
Ltac bool_lia :=
  apply Bool.eq_iff_eq_true; unfold in_net; cbn [fst snd];
  repeat rewrite ?orb_true_iff, ?andb_true_iff, ?N.eqb_eq, ?N.leb_le, ?N.ltb_lt; lia.

Section V4.
Variables x y z u : N.
Hypotheses (Hx : (x < 256)%N) (Hy : (y < 256)%N) (Hz : (z < 256)%N) (Hu : (u < 256)%N).
Local Notation n := (((x * 256 + y) * 256 + z) * 256 + u)%N.

Lemma net_8 b : in_net n (b * 16777216, b * 16777216 + 16777215)%N = (x =? b)%N.
Proof using Hx Hy Hz Hu. bool_lia. Qed.

Lemma net_16 b c : (c < 256)%N -> in_net n (b * 16777216 + c * 65536, b * 16777216 + c * 65536 + 65535)%N = ((x =? b) && (y =? c))%N.
Proof using Hx Hy Hz Hu. intros. bool_lia. Qed.

Lemma net_24 b c d : (c < 256)%N -> (d < 256)%N ->
  in_net n (b * 16777216 + c * 65536 + d * 256, b * 16777216 + c * 65536 + d * 256 + 255)%N = ((x =? b) && (y =? c) && (z =? d))%N.
Proof using Hx Hy Hz Hu. intros. bool_lia. Qed.

Lemma net_host b : (b < 256)%N ->
  in_net n (b * 16843009, b * 16843009)%N = forallb (fun c => c =? b)%N [x; y; z; u].
Proof using Hx Hy Hz Hu. intros. cbn [forallb]. rewrite andb_true_r. bool_lia. Qed.

(** A range of the second byte. *)
Lemma net_second b lo hi : (lo <= hi)%N -> (hi <= 256)%N -> (0 < hi)%N ->
  in_net n (b * 16777216 + lo * 65536, b * 16777216 + hi * 65536 - 1)%N = ((x =? b) && ((lo <=? y) && (y <? hi)))%N.
Proof using Hx Hy Hz Hu. intros. bool_lia. Qed.

Lemma net_first lo hi : (lo <= hi)%N -> (0 < hi)%N ->
  in_net n (lo * 16777216, hi * 16777216 - 1)%N = ((lo <=? x) && (x <? hi))%N.
Proof using Hx Hy Hz Hu. intros. bool_lia. Qed.
End V4.

Lemma isBlockedV4_exact a : is_address 4 a -> isBlockedV4 a = existsb (in_net (ip_number a)) blocked_v4.
Proof.
  intros [Hl Hb]. destruct a as [|x [|y [|z [|u [|]]]]]; try discriminate Hl.
  rewrite !Forall_cons in Hb. destruct Hb as (Hx & Hy & Hz & Hu & _).
  unfold blocked_v4, ip_number at 1. cbn [fold_left existsb].
  change (net 32 [10; 0; 0; 0]%N 8) with (10 * 16777216, 10 * 16777216 + 16777215)%N.
  change (net 32 [172; 16; 0; 0]%N 12) with (172 * 16777216 + 16 * 65536, 172 * 16777216 + 32 * 65536 - 1)%N.
  change (net 32 [192; 168; 0; 0]%N 16) with (192 * 16777216 + 168 * 65536, 192 * 16777216 + 168 * 65536 + 65535)%N.
  change (net 32 [127; 0; 0; 0]%N 8) with (127 * 16777216, 127 * 16777216 + 16777215)%N.
  change (net 32 [169; 254; 0; 0]%N 16) with (169 * 16777216 + 254 * 65536, 169 * 16777216 + 254 * 65536 + 65535)%N.
  change (net 32 [0; 0; 0; 0]%N 32) with (0 * 16843009, 0 * 16843009)%N.
  change (net 32 [224; 0; 0; 0]%N 4) with (224 * 16777216, 240 * 16777216 - 1)%N.
  change (net 32 [255; 255; 255; 255]%N 32) with (255 * 16843009, 255 * 16843009)%N.
  change (net 32 [192; 0; 2; 0]%N 24) with (192 * 16777216 + 0 * 65536 + 2 * 256, 192 * 16777216 + 0 * 65536 + 2 * 256 + 255)%N.
  change (net 32 [198; 51; 100; 0]%N 24) with (198 * 16777216 + 51 * 65536 + 100 * 256, 198 * 16777216 + 51 * 65536 + 100 * 256 + 255)%N.
  change (net 32 [203; 0; 113; 0]%N 24) with (203 * 16777216 + 0 * 65536 + 113 * 256, 203 * 16777216 + 0 * 65536 + 113 * 256 + 255)%N.
  change (net 32 [100; 64; 0; 0]%N 10) with (100 * 16777216 + 64 * 65536, 100 * 16777216 + 128 * 65536 - 1)%N.
  change (((0 * 256 + x) * 256 + y) * 256 + z)%N with ((x * 256 + y) * 256 + z)%N.
  rewrite !net_8, !net_second, !net_16, !net_24, !net_host, !net_first by done.
  unfold isBlockedV4, v4_IsPrivate, v4_IsLoopback, v4_IsLinkLocalUnicast, v4_IsUnspecified, v4_IsMulticast, v4_IsBroadcast, is_zero.
  cbn [ip_byte nth]. rewrite land_172, land_multicast by done.
  rewrite orb_false_r, !orb_assoc, !andb_assoc. done.
Qed.

(** ** Addresses as numbers *)

Definition is_bytes (a : ip) : Prop := Forall (fun b => b < 256)%N a.

Lemma ip_number_from acc a : fold_left (fun acc b => acc * 256 + b)%N a acc = (acc * 256 ^ N.of_nat (length a) + ip_number a)%N.
Proof.
  unfold ip_number. revert acc. induction a as [|b a IH]; intros acc; [simpl; lia|].
  cbn [fold_left length]. rewrite (IH (acc * 256 + b)%N), (IH (0 * 256 + b)%N), Nat2N.inj_succ, N.pow_succ_r'. lia.
Qed.

Lemma ip_number_app a b : ip_number (a ++ b) = (ip_number a * 256 ^ N.of_nat (length b) + ip_number b)%N.
Proof. unfold ip_number. rewrite fold_left_app. apply ip_number_from. Qed.

Lemma ip_number_bound a : is_bytes a -> (ip_number a < 256 ^ N.of_nat (length a))%N.
Proof.
  induction a as [|b a IH] using rev_ind; [by vm_compute|]. intros [Ha Hb]%Forall_app. rewrite Forall_singleton in Hb.
  rewrite ip_number_app, length_app, Nat2N.inj_add, N.pow_add_r. specialize (IH Ha).
  change (256 ^ N.of_nat (length [b]))%N with 256%N. change (ip_number [b]) with (0 * 256 + b)%N. lia.
Qed.

Lemma ip_number_inj a b : is_bytes a -> is_bytes b -> length a = length b -> ip_number a = ip_number b -> a = b.
Proof.
  revert b. induction a as [|x a IH] using rev_ind; intros b; [by destruct b|].
  destruct b as [|y b _] using rev_ind; [rewrite length_app; simpl; lia|].
  intros [Ha Hx]%Forall_app [Hb Hy]%Forall_app. rewrite Forall_singleton in Hx, Hy. rewrite !length_app, !ip_number_app.
  change (ip_number [x]) with (0 * 256 + x)%N. change (ip_number [y]) with (0 * 256 + y)%N.
  change (256 ^ N.of_nat (length [x]))%N with 256%N. change (256 ^ N.of_nat (length [y]))%N with 256%N. simpl length.
  intros Hl Hn. assert (ip_number a = ip_number b /\ x = y) as [Ha' ->] by lia. f_equal. apply IH; [done..|lia|done].
Qed.

Lemma two_byte_check (f g : N -> N -> bool) :
  forallb (fun b => forallb (fun c => Bool.eqb (f b c) (g b c)) all_byte_values) all_byte_values = true ->
  forall b c, (b < 256)%N -> (c < 256)%N -> f b c = g b c.
Proof.
  intros Hall b c Hb Hc. rewrite forallb_forall in Hall. apply (byte_check (f b) (g b)); [|done]. by apply Hall, all_byte_values_in.
Qed.

Definition first16 (x y : N) : N := N.lor (N.shiftl x 8) y.

Lemma unique_local x y : (x < 256)%N -> (y < 256)%N -> (N.land (first16 x y) 0xfe00 =? 0xfc00)%N = ((252 <=? x) && (x <? 254))%N.
Proof. revert x y. apply (two_byte_check (fun x y => N.land (first16 x y) 0xfe00 =? 0xfc00)%N (fun x _ => (252 <=? x) && (x <? 254))%N). by vm_compute. Qed.

Lemma link_local x y : (x < 256)%N -> (y < 256)%N ->
  (N.land (first16 x y) 0xffc0 =? 0xfe80)%N = ((x =? 254) && ((128 <=? y) && (y <? 192)))%N.
Proof. revert x y. apply (two_byte_check (fun x y => N.land (first16 x y) 0xffc0 =? 0xfe80)%N (fun x y => (x =? 254) && ((128 <=? y) && (y <? 192)))%N). by vm_compute. Qed.

Definition v6 (hi : list N) (lo : list N) : ip := hi ++ repeat 0%N (16 - length hi - length lo) ++ lo.

Definition blocked_v6 : list (N * N) :=
  [net 128 (v6 [] [1]%N) 128; net 128 (v6 [] []) 128; net 128 (v6 [255]%N []) 8; net 128 (v6 [252]%N []) 7;
   net 128 (v6 [254; 128]%N []) 10].

(** ::ffff:0:0/96, the addresses of IPv4 written as IPv6. *)
Definition mapped_v4 : N * N := net 128 (v6 [] [255; 255; 0; 0; 0; 0]%N) 96.

Lemma isBlockedV6_exact a : is_address 16 a -> isBlockedV6 a = existsb (in_net (ip_number a)) blocked_v6.
Proof.
  intros [Hl Hb]. destruct a as [|x [|y r]]; try discriminate Hl.
  assert (Hr : is_bytes r /\ length r = 14%nat /\ (x < 256)%N /\ (y < 256)%N).
  { rewrite !Forall_cons in Hb. destruct Hb as (? & ? & ?). simpl in Hl. repeat split; [done|lia|done..]. }
  destruct Hr as (Hr & Hlr & Hx & Hy). pose proof (ip_number_bound r Hr) as Hbr. rewrite Hlr in Hbr.
  change (256 ^ N.of_nat 14)%N with (2 ^ 112)%N in Hbr.
  assert (Hn : ip_number (x :: y :: r) = ((x * 256 + y) * 2 ^ 112 + ip_number r)%N).
  { change (x :: y :: r) with ([x; y] ++ r). rewrite ip_number_app, Hlr. change (256 ^ N.of_nat 14)%N with (2 ^ 112)%N. change (ip_number [x; y]) with ((0 * 256 + x) * 256 + y)%N. lia. }
  assert (Heq : forall b, is_address 16 b -> bool_decide (x :: y :: r = b) = in_net (ip_number (x :: y :: r)) (ip_number b, ip_number b)).
  { intros b [Hlb Hbb]. unfold in_net. cbn [fst snd]. apply Bool.eq_iff_eq_true.
    rewrite bool_decide_eq_true, andb_true_iff, !N.leb_le. split; [intros <-; lia|].
    intros Hle. apply ip_number_inj; [done..|by rewrite Hlb|lia]. }
  unfold isBlockedV6, v6_IsLoopback, v6_IsUnspecified. rewrite !Heq; cycle 1.
  { split; [done|]. repeat constructor. } { split; [done|]. repeat constructor. }
  unfold v6_IsMulticast. cbn [ip_byte nth]. fold (first16 x y). rewrite unique_local, link_local by done.
  assert (Hm : in_net (ip_number (x :: y :: r)) (net 128 (v6 [255]%N []) 8) = (x =? 255)%N).
  { rewrite Hn. change (net 128 (v6 [255]%N []) 8) with (255 * 2 ^ 120, 256 * 2 ^ 120 - 1)%N. bool_lia. }
  assert (Hul : in_net (ip_number (x :: y :: r)) (net 128 (v6 [252]%N []) 7) = ((252 <=? x) && (x <? 254))%N).
  { rewrite Hn. change (net 128 (v6 [252]%N []) 7) with (252 * 2 ^ 120, 254 * 2 ^ 120 - 1)%N. bool_lia. }
  assert (Hll : in_net (ip_number (x :: y :: r)) (net 128 (v6 [254; 128]%N []) 10) = ((x =? 254) && ((128 <=? y) && (y <? 192)))%N).
  { rewrite Hn. change (net 128 (v6 [254; 128]%N []) 10) with (254 * 2 ^ 120 + 128 * 2 ^ 112, 254 * 2 ^ 120 + 192 * 2 ^ 112 - 1)%N. bool_lia. }
  unfold blocked_v6. cbn [existsb]. rewrite Hm, Hul, Hll, orb_false_r, !orb_assoc.
  change (net 128 (v6 [] [1]%N) 128) with (ip_number IPv6loopback, ip_number IPv6loopback).
  by change (net 128 (v6 [] []) 128) with (ip_number (repeat 0%N 16), ip_number (repeat 0%N 16)).
Qed.

Lemma To4_mapped a : is_address 16 a ->
  To4 a = if in_net (ip_number a) mapped_v4 then Some (drop 12 a) else None.
Proof.
  intros [Hl Hb]. unfold To4. rewrite Hl. cbn [Nat.eqb andb].
  assert (Hsplit : a = take 12 a ++ drop 12 a) by (by rewrite take_drop).
  assert (Ht : is_bytes (take 12 a)) by by apply Forall_take.
  assert (Hd : is_bytes (drop 12 a)) by by apply Forall_drop.
  assert (Hlt : length (take 12 a) = 12%nat) by (rewrite length_take; lia).
  assert (Hld : length (drop 12 a) = 4%nat) by (rewrite length_drop; lia).
  pose proof (ip_number_bound _ Hd) as Hbd. rewrite Hld in Hbd. change (256 ^ N.of_nat 4)%N with 4294967296%N in Hbd.
  assert (Hn : ip_number a = (ip_number (take 12 a) * 4294967296 + ip_number (drop 12 a))%N).
  { rewrite Hsplit at 1. rewrite ip_number_app, Hld. done. }
  assert (Hnet : in_net (ip_number a) mapped_v4 = bool_decide (take 12 a = repeat 0%N 10 ++ [255; 255]%N)).
  { change mapped_v4 with (65535 * 4294967296, 65536 * 4294967296 - 1)%N. apply Bool.eq_iff_eq_true.
    unfold in_net. cbn [fst snd]. rewrite andb_true_iff, !N.leb_le, bool_decide_eq_true. split.
    - intros Hr. apply ip_number_inj; [done|repeat constructor|done|]. change (ip_number (repeat 0%N 10 ++ [255; 255]%N)) with 65535%N. lia.
    - intros He. rewrite He in Hn. change (ip_number (repeat 0%N 10 ++ [255; 255]%N)) with 65535%N in Hn. lia. }
  rewrite Hnet. clear -Hl Hlt.
  do 16 (destruct a as [|? a]; [discriminate Hl|]). destruct a; [|discriminate Hl]. clear Hl Hlt. cbn [take firstn ip_byte nth forallb repeat app].
  unfold is_zero. match goal with |- (if ?b then _ else _) = (if ?c then _ else _) => enough (b = c) as -> by done end.
  apply Bool.eq_iff_eq_true. rewrite !andb_true_iff, !N.eqb_eq, bool_decide_eq_true. split; [intros; destruct_and!; congruence|].
  intros He. injection He. intros. subst. done.
Qed.

(** C32. The guard blocks exactly the addresses of these networks: loopback, private,
    link-local, shared (100.64/10), multicast, documentation, the unspecified and the
    broadcast address of IPv4, in 4 bytes or mapped into IPv6, and the loopback,
    unspecified, multicast, unique-local and link-local addresses of IPv6. *)
Theorem IsBlockedIP_exact a :
  (is_address 4 a -> IsBlockedIP a = Ok (existsb (in_net (ip_number a)) blocked_v4)) /\
  (is_address 16 a ->
     IsBlockedIP a = Ok (if in_net (ip_number a) mapped_v4 then existsb (in_net (ip_number (drop 12 a))) blocked_v4
                         else existsb (in_net (ip_number a)) blocked_v6)).
Proof.
  split; intros Ha.
  - unfold IsBlockedIP, To4. pose proof Ha as [Hl _]. rewrite Hl. simpl. by rewrite isBlockedV4_exact.
  - unfold IsBlockedIP. rewrite To4_mapped by done. destruct (in_net _ _).
    + rewrite isBlockedV4_exact; [done|]. destruct Ha as [Hl Hb]. split; [rewrite length_drop; lia|by apply Forall_drop].
    + unfold To16. pose proof Ha as [Hl _]. rewrite Hl. simpl. by rewrite isBlockedV6_exact.
Qed.

(** Addresses that translate or tunnel to IPv4 are not unwrapped: the metadata
    address 169.254.169.254 passes as 64:ff9b::a9fe:a9fe and as 2002:a9fe:a9fe::. *)
Lemma translated_addresses_pass :
  IsBlockedIP [169; 254; 169; 254]%N = Ok true /\
  IsBlockedIP (v6 [0; 100; 255; 155]%N [169; 254; 169; 254]%N) = Ok false /\
  IsBlockedIP (v6 [32; 2; 169; 254; 169; 254]%N []) = Ok false.
Proof. by vm_compute. Qed.

(** ** Header names *)

Fixpoint ascii_runes (s : string) : list (N * string) :=
  match s with "" => [] | String c s' => (byte_of c, str1 c) :: ascii_runes s' end.

Lemma token_byte_step c s : token_byte c = true -> utf8_step (String c s) = (byte_of c, 1%nat) /\ IsSpace (byte_of c) = false.
Proof. destruct c as [[] [] [] [] [] [] [] []]; try discriminate; done. Qed.

Lemma decode_token s : all_bytes token_byte s = true -> decode_utf8 s = ascii_runes s.
Proof.
  unfold decode_utf8. induction s as [|c s IH]; [done|]. cbn [all_bytes]. intros [Hc Hs]%andb_true_iff.
  destruct (token_byte_step c s Hc) as [Hu _]. cbn [decode_from ascii_runes]. rewrite Hu. cbn [pred str_take]. f_equal. by apply IH.
Qed.

Lemma drop_space_none l : Forall (fun x => IsSpace x.1 = false) l -> drop_space l = l.
Proof. destruct l as [|[r b] l]; [done|]. intros [Hr _]%Forall_cons. simpl in *. by rewrite Hr. Qed.

Lemma concat_ascii_runes s : String.concat "" (map snd (ascii_runes s)) = s.
Proof.
  induction s as [|c s IH]; [done|]. cbn [ascii_runes map snd]. destruct s as [|c' s]; [done|].
  cbn [ascii_runes map snd] in *. cbn [String.concat]. cbn [String.concat] in IH. rewrite IH. done.
Qed.

Lemma TrimSpace_token s : all_bytes token_byte s = true -> TrimSpace s = s.
Proof.
  intros Hs. unfold TrimSpace. rewrite decode_token by done.
  assert (Hns : Forall (fun x => IsSpace x.1 = false) (ascii_runes s)).
  { clear -Hs. induction s as [|c s IH]; [done|]. cbn [all_bytes] in Hs. apply andb_true_iff in Hs as [Hc Hs].
    constructor; [by destruct (token_byte_step c s Hc)|by apply IH]. }
  rewrite (drop_space_none _ Hns), (drop_space_none (rev _)), rev_involutive; [apply concat_ascii_runes|].
  by apply Forall_rev.
Qed.

Lemma ToLower_case c : ToLower (ToUpper (str1 c)) = ToLower (str1 c) /\ ToLower (ToLower (str1 c)) = ToLower (str1 c).
Proof. by destruct c as [[] [] [] [] [] [] [] []]. Qed.

Lemma ToLower_app s s' : ToLower (s +:+ s') = ToLower s +:+ ToLower s'.
Proof.
  induction s as [|c s IH]; [done|]. change (String c s +:+ s') with (String c (s +:+ s')).
  change (ToLower (String c (s +:+ s'))) with (ToLower (str1 c) +:+ ToLower (s +:+ s')). by rewrite IH.
Qed.

Lemma ToLower_canonical b s : ToLower (canonical_from b s) = ToLower s.
Proof.
  revert b. induction s as [|c s IH]; intros b; [done|].
  change (ToLower (String c s)) with (ToLower (str1 c) +:+ ToLower s).
  change (canonical_from b (String c s)) with ((if b then ToUpper (str1 c) else ToLower (str1 c)) +:+ canonical_from (Ascii.eqb c "-") s).
  rewrite ToLower_app, IH. destruct (ToLower_case c) as [Hu Hl]. by destruct b; rewrite ?Hu, ?Hl.
Qed.

(** A key that is set as [name] is one CheckHeaders compares with its lower case. *)
Lemma canonical_key_lower k name :
  all_bytes token_byte name = true -> CanonicalHeaderKey k = name -> ToLower (TrimSpace k) = ToLower name.
Proof.
  unfold CanonicalHeaderKey. intros Hn. destruct (all_bytes token_byte k) eqn:Hk.
  - intros <-. by rewrite ToLower_canonical, TrimSpace_token.
  - intros ->. congruence.
Qed.

Section Webhook.
Context `{!UuidLib} `{!Outside}.

Definition refused_header (name : string) : Prop :=
  all_bytes token_byte name = true /\ ToLower name ∈ forbiddenHeaders /\ name <> "Content-Type".

Lemma credential_headers_refused :
  refused_header "Cookie" /\ refused_header "Proxy-Authorization" /\ refused_header "Authorization".
Proof.
  assert (Hdec : forall s, bool_decide (s ∈ forbiddenHeaders) = true -> s ∈ forbiddenHeaders)
    by (intros s; apply bool_decide_eq_true_1).
  split; [|split]; (split; [by vm_compute|split; [apply Hdec; by vm_compute|done]]).
Qed.

Lemma headers_without headers credential name :
  CheckHeaders (map fst (range headers)) = Ok tt -> refused_header name ->
  request_headers headers credential !! name =
  if String.eqb name "Authorization" then credential else None.
Proof.
  intros Hc (Ht & Hf & Hne). unfold request_headers.
  assert (Hfold : forall l h, (forall kv, kv ∈ l -> CanonicalHeaderKey kv.1 <> name) ->
    fold_left (fun h kv => header_Set kv.1 kv.2 h) l h !! name = h !! name).
  { induction l as [|kv l IH]; intros h Hl; simpl; [done|]. rewrite IH.
    - unfold header_Set. apply lookup_insert_ne, Hl, list_elem_of_here.
    - intros kv' Hkv. apply Hl. by apply list_elem_of_further. }
  assert (Hbase : fold_left (fun h kv => header_Set kv.1 kv.2 h) (range headers) (header_Set "Content-Type" "application/json" ∅) !! name = None).
  { rewrite Hfold.
    - unfold header_Set. rewrite lookup_insert_ne; [apply lookup_empty|]. vm_compute (CanonicalHeaderKey _). congruence.
    - intros kv Hkv He. apply canonical_key_lower in He; [|done].
      unfold CheckHeaders in Hc. destruct (List.find _ _) eqn:Hfind; [done|].
      pose proof (find_none _ _ Hfind kv.1 (in_map fst _ _ (proj1 (list_elem_of_In _ _) Hkv))) as Hno. cbv beta in Hno.
      rewrite He in Hno. by rewrite bool_decide_eq_true_2 in Hno. }
  destruct credential as [c|].
  - unfold header_Set at 1. change (CanonicalHeaderKey "Authorization") with "Authorization".
    destruct (String.eqb name "Authorization") eqn:He.
    + apply String.eqb_eq in He as ->. apply lookup_insert_eq.
    + apply String.eqb_neq in He. by rewrite lookup_insert_ne.
  - rewrite Hbase. by destruct (String.eqb _ _).
Qed.

(** A target the guard accepts. *)
Definition target_allowed (p : WebhookPolicy) (u : URL) : Prop :=
  (u_Scheme u = "http" \/ u_Scheme u = "https") /\ hostAllowed p (ToLower (u_Hostname u)) = true /\
  (wp_AllowPrivateTargets p = false ->
   exists addrs, LookupIPAddr (u_Hostname u) = Some addrs /\ addrs <> [] /\ Forall (fun a => IsBlockedIP a = Ok false) addrs).

Lemma check_addresses_ok host addrs : check_addresses host addrs = Ok tt -> Forall (fun a => IsBlockedIP a = Ok false) addrs.
Proof.
  induction addrs as [|a l IH]; simpl; [done|]. destruct (IsBlockedIP a) as [[]| |] eqn:Ha; simpl; try done.
  intros Hl. constructor; [done|by apply IH].
Qed.

Lemma Check_allows p raw u : Check p raw = Ok u -> target_allowed p u.
Proof.
  unfold Check. destruct (CheckURLShape p raw) as [u'| |] eqn:Hs; simpl; try done. intros Hc.
  assert (Hshape : (u_Scheme u' = "http" \/ u_Scheme u' = "https") /\ hostAllowed p (ToLower (u_Hostname u')) = true).
  { unfold CheckURLShape in Hs. destruct (url_Parse raw); [|done]. destruct (negb _ && negb _) eqn:Hsch; [done|].
    destruct (String.eqb _ ""); [done|]. destruct (hostAllowed _ _) eqn:Hh; [|done]. injection Hs as ->. split; [|done].
    apply andb_false_iff in Hsch as [Hsch|Hsch]; apply negb_false_iff, String.eqb_eq in Hsch; tauto. }
  destruct (wp_AllowPrivateTargets p) eqn:Hp.
  - injection Hc as ->. split; [tauto|]. split; [tauto|]. congruence.
  - destruct (LookupIPAddr _) as [[|a l]|] eqn:Hl; try done.
    destruct (check_addresses _ _) as [[]| |] eqn:Hok; try done. injection Hc as ->.
    split; [tauto|]. split; [tauto|]. intros _. exists (a :: l). split; [done|]. split; [done|]. by apply check_addresses_ok in Hok.
Qed.


(** A line break in the configured subject ends the header: what follows is a header
    of its own. *)
Lemma mail_subject_adds_header from to subject header body :
  buildMimeMessage from to (subject +:+ crlf +:+ header) body =
  "From: " +:+ from +:+ crlf +:+ "To: " +:+ Join to ", " +:+ crlf +:+ "Subject: " +:+ subject +:+ crlf
  +:+ header +:+ crlf +:+ crlf +:+ body.
Proof. unfold buildMimeMessage. by rewrite !app_str_assoc. Qed.
End Webhook.

(** ** Witnesses *)

Lemma IsBlockedIP_exact_witness :
  IsBlockedIP [192; 168; 0; 1]%N = Ok (existsb (in_net (ip_number [192; 168; 0; 1]%N)) blocked_v4) /\
  existsb (in_net (ip_number [192; 168; 0; 1]%N)) blocked_v4 = true.
Proof.
  split; [|by vm_compute].
  apply (proj1 (IsBlockedIP_exact [192; 168; 0; 1]%N)). split; [done|]. repeat constructor.
Defined.

#[local] Existing Instance TestUuid.

Definition hook_json (host : string) : json :=
  JObj [("url", JStr ("https://" +:+ host)); ("authorizationFromSecret", JBool true)].

Definition hook_id : @uuid TestUuid := "t1".

