(* ===== verification/CronAdmin.v ===== *)
(** Scheduled jobs as the administration leaves them: every job the routes accept is
    one the scheduler can run, in every state the process reaches, and the routes of
    a tenant's administrator stay in the tenant. *)
From S2P Require Import Prelude GoStrings GoText Json Floats Condition Context Uuid Evaluate Snapshot PermissionService PolicyStore Metadata Schema Router Payload Workflow AuditTrail Sql ConditionSql Jql Planner Records Crud CrudOutcomes CrudProps CrudState Authn Cron Outbound CronScheduler CronRoutes CronExamples CronProps.

Open Scope string_scope.
Open Scope list_scope.

(** ** Chains the validation accepts *)

(** The members a field named [key] is decoded from. *)
Definition members_of (key : string) (l : list (string * json)) : list (string * json) :=
  List.filter (fun kv => key_matches key kv.1) l.

Lemma fold_members {A} (step : A -> string * json -> A) key l : forall a,
  (forall a kv, key_matches key kv.1 = false -> step a kv = a) ->
  fold_left step l a = fold_left step (members_of key l) a.
Proof.
  induction l as [|kv l IH]; intros a Hs; [done|]. simpl. destruct (key_matches key kv.1) eqn:Hk.
  - simpl. by apply IH.
  - rewrite Hs by done. by apply IH.
Qed.

(** A step the scheduler can run, as far as its declaration says. *)
Definition runnable_step (a : activity) : Prop :=
  match ParseTargetType (act_TargetType a) with
  | None | Some TargetSteps => False
  | Some TargetWaitEvent =>
    exists w, unmarshal_wait (act_TargetConfig a) = Some w /\ TrimSpace (wt_Entity w) <> "" /\
      ((exists action, wt_Action w = Some action /\ TrimSpace action <> "" /\ wt_Event w = None) \/
       (exists event, wt_Event w = Some event /\ event ∈ ["created"; "updated"; "deleted"] /\ wt_Action w = None))
  | Some _ => True
  end.

Lemma validateWaitEventConfig_ok c :
  validateWaitEventConfig c = None ->
  exists w, unmarshal_wait c = Some w /\ TrimSpace (wt_Entity w) <> "" /\
      ((exists action, wt_Action w = Some action /\ TrimSpace action <> "" /\ wt_Event w = None) \/
       (exists event, wt_Event w = Some event /\ event ∈ ["created"; "updated"; "deleted"] /\ wt_Action w = None)).
Proof.
  unfold validateWaitEventConfig. destruct (unmarshal_wait c) as [w|]; [|done]. unfold blank.
  destruct (String.eqb_spec (TrimSpace (wt_Entity w)) "") as [|He]; [done|].
  destruct (wt_Action w) as [a|] eqn:Ha, (wt_Event w) as [e|] eqn:Hev; try done.
  - destruct (String.eqb_spec (TrimSpace a) "") as [|Hb]; [done|]. intros _. exists w. rewrite Ha, Hev.
    split; [done|]. split; [done|]. left. by exists a.
  - destruct (is_record_event e) eqn:Hr; [|done]. intros _. exists w. rewrite Ha, Hev.
    split; [done|]. split; [done|]. right. exists e. split; [done|]. split; [|done]. unfold is_record_event in Hr.
    rewrite !elem_of_cons. rewrite !orb_true_iff, !String.eqb_eq in Hr. tauto.
Qed.

Lemma validate_step_ok j : validate_step j = None -> exists a, unmarshal_activity j = Some a /\ runnable_step a.
Proof.
  unfold validate_step. destruct (unmarshal_activity j) as [a|]; [|done]. intros Hv. exists a. split; [done|]. unfold runnable_step.
  destruct (ParseTargetType _) as [[]|]; try done. by apply validateWaitEventConfig_ok.
Qed.

Lemma first_message_none {A} (f : A -> option string) l : first_message f l = None -> Forall (fun a => f a = None) l.
Proof.
  induction l as [|a l IH]; simpl; [done|]. destruct (f a) eqn:Hf; [done|]. constructor; [done|by apply IH].
Qed.

Lemma validated_steps js :
  Forall (fun j => validate_step j = None) js ->
  exists steps, mapM unmarshal_activity js = Some steps /\ Forall runnable_step steps /\ length steps = length js.
Proof.
  induction js as [|j js IH]; intros Hv.
  - by exists [].
  - apply Forall_cons in Hv as [Hj Hv]. destruct (IH Hv) as (steps & Hs & Hf & Hl).
    destruct (validate_step_ok j Hj) as (a & Ha & Hr). exists (a :: steps). cbn [mapM]. rewrite Ha. cbn [mbind option_bind].
    rewrite Hs. split; [done|]. split; [by constructor|]. simpl. by rewrite Hl.
Qed.

(** What the scheduler decodes from a chain the validation accepted. Both match
    names of members without regard to case; they agree when one member holds the
    steps. *)
Lemma accepted_chain_decodes l :
  validateTargetConfig "steps" (Some (JObj l)) = None -> (length (members_of "steps" l) <= 1)%nat ->
  exists steps, unmarshal_steps (JObj l) = Some steps /\ steps <> [] /\ Forall runnable_step steps.
Proof.
  unfold validateTargetConfig. change (ParseTargetType "steps") with (Some TargetSteps). cbv iota.
  unfold unmarshal_raw_steps, unmarshal_steps, unmarshal_struct.
  rewrite (fold_members raw_steps_step "steps" l) by (intros a kv Hk; unfold raw_steps_step; by rewrite Hk).
  rewrite (fold_members steps_step "steps" l) by (intros a kv Hk; unfold steps_step; by rewrite Hk).
  assert (Hin : forall kv, kv ∈ members_of "steps" l -> key_matches "steps" kv.1 = true).
  { intros kv Hkv%list_elem_of_In. unfold members_of in Hkv. by apply filter_In in Hkv as [_ ?]. }
  destruct (members_of "steps" l) as [|kv [|]]; [done| |simpl; lia].
  specialize (Hin kv (list_elem_of_here _ _)). cbn [fold_left]. unfold raw_steps_step, steps_step. rewrite Hin.
  destruct kv as [k [| | | |js|]]; try done. simpl snd. cbv iota beta. destruct (length js =? 0)%nat eqn:Hl; [done|].
  intros Hv%first_message_none _.
  destruct (validated_steps js Hv) as (steps & -> & Hf & Hlen). exists steps. split; [done|]. split; [|done].
  intros ->. simpl in Hlen. by rewrite <- Hlen in Hl.
Qed.

(** ** What an operation preserves *)

Section Keeps.
Context {W : Type} (P : W -> Prop).

(** The state satisfies [P] after the handler, however it ends, if it did before. *)
Definition preserves {A} (m : Handler W A) : Prop := forall w, P w -> P (snd (m w)).

Lemma preserves_ret {A} (a : A) : preserves (hret a).
Proof. by intros w. Qed.
Lemma preserves_fail {A} e : preserves (hfail (A := A) e).
Proof. by intros w. Qed.
Lemma preserves_refuse {A} e : preserves (refuse (A := A) e).
Proof. by intros w. Qed.
Lemma preserves_panic {A} : preserves (hpanic (A := A)).
Proof. by intros w. Qed.
Lemma preserves_lift {A} (r : result error A) : preserves (hlift r).
Proof. by intros w. Qed.

Lemma preserves_bind {A B} (m : Handler W A) (k : A -> Handler W B) :
  preserves m -> (forall a, preserves (k a)) -> preserves (let* a := m in k a).
Proof.
  intros Hm Hk w Hw. specialize (Hm w Hw). unfold hbind. destruct (m w) as [[a|e|] w']; try done. by apply Hk.
Qed.

Lemma preserves_catch {A} (m : Handler W A) : preserves m -> preserves (catch m).
Proof. intros Hm w Hw. specialize (Hm w Hw). unfold catch. by destruct (m w) as [[a|e|] w']. Qed.

Lemma preserves_ignoring (m : Handler W unit) : preserves m -> preserves (ignoring m).
Proof. intros Hm. apply preserves_bind; [by apply preserves_catch|]. intros ?. apply preserves_ret. Qed.
End Keeps.

Create HintDb preserves.
#[export] Hint Resolve preserves_ret preserves_fail preserves_refuse preserves_panic preserves_lift preserves_bind preserves_catch preserves_ignoring : preserves.
#[export] Hint Extern 5 (preserves _ (match ?x with _ => _ end)) => destruct x : preserves.
#[export] Hint Extern 5 (preserves _ (if ?x then _ else _)) => destruct x : preserves.

Section Jobs.
Context `{!UuidLib} `{!CronLib} `{!Postgres} `{!Outside}.
Variable fresh : nat -> uuid.
Variable nil_uuid : uuid.
Variable config : ExecutorConfig.

(** A job the administration may leave in the table. *)
Record job_accepted (j : CronJob) : Prop := {
  ja_target : is_Some (ParseTargetType (cj_TargetType j));
  ja_config : validateTargetConfig (cj_TargetType j) (Some (cj_TargetConfig j)) = None;
  ja_mode : is_Some (ParseDispatchMode (cj_DispatchMode j));
  ja_attempts : (1 <= cj_MaxAttempts j)%Z;
  ja_backoff : (0 <= cj_RetryBackoffSeconds j)%Z;
  ja_trigger : validateTrigger (cj_TriggerType j) (cj_TriggerConfig j) (cj_CronExpr j) (cj_Timezone j) = None;
  ja_next : cj_TriggerType j = "schedule" -> is_Some (cj_NextRunAt j)
}.

Definition accepted (t : CronTables) : Prop := Forall job_accepted (ct_jobs t).
Definition accepted_world (w : Scheduler) : Prop := accepted (sw_tables w).

(** Handlers that leave the table of jobs alone. *)
Definition same_jobs {A} (m : Handler CronTables A) : Prop := forall t, ct_jobs (snd (m t)) = ct_jobs t.

Lemma same_jobs_accepted {A} (m : Handler CronTables A) : same_jobs m -> preserves accepted m.
Proof. intros Hm t Ht. unfold accepted. by rewrite Hm. Qed.

Lemma preserves_read {A} (f : CronTables -> A) : preserves accepted (read_with f).
Proof. by intros t. Qed.

Lemma preserves_transaction {A} (m : Handler CronTables A) : preserves accepted m -> preserves accepted (transaction m).
Proof. intros Hm t Ht. specialize (Hm t Ht). unfold transaction. by destruct (m t) as [[a|e|] t']. Qed.

Lemma preserves_new_uuid : preserves accepted (new_uuid fresh).
Proof. by intros t. Qed.

Lemma preserves_update_run id f : preserves accepted (update_run id f).
Proof. by intros t. Qed.

Lemma preserves_update_workflow id f : preserves accepted (update_workflow id f).
Proof. by intros t. Qed.

Lemma preserves_insert_run id tn j st a s now : preserves accepted (insert_run id tn j st a s now).
Proof. intros t Ht. unfold insert_run. repeat case_match; done. Qed.

Lemma preserves_update_job id f : (forall j, job_accepted j -> job_accepted (f j)) -> preserves accepted (update_job id f).
Proof.
  intros Hf t Ht. unfold accepted in *. cbn. unfold update_matching. apply Forall_map. eapply Forall_impl; [exact Ht|].
  intros j Hj. cbn. destruct (job_is id j); auto.
Qed.

Lemma preserves_set_enabled b now j : job_accepted j -> job_accepted (set_enabled b now j).
Proof. by intros []. Qed.

Lemma preserves_set_ran next last now j : job_accepted j -> job_accepted (set_ran (Some next) last now j).
Proof. intros []. by split; cbn. Qed.

Lemma preserves_set_fired last now j : job_accepted j -> job_accepted (set_ran (cj_NextRunAt j) last now j).
Proof. by intros []. Qed.
End Jobs.

#[export] Hint Resolve preserves_read preserves_transaction preserves_new_uuid preserves_update_run preserves_update_workflow preserves_insert_run
  preserves_update_job preserves_set_enabled preserves_set_ran preserves_set_fired : preserves.

Section Reach.
Context `{!UuidLib} `{!CronLib} `{!Postgres} `{!Outside}.
Variable fresh : nat -> uuid.
Variable nil_uuid : uuid.
Variable config : ExecutorConfig.

(** ** The scheduler *)

Lemma preserves_outbox f : preserves accepted (exec (fun t => set_outbox t (f t))).
Proof. by intros t. Qed.

Lemma preserves_dispatchClaimed job runID a te tr : preserves accepted (dispatchClaimed job runID a te tr).
Proof. unfold dispatchClaimed. destruct (ParseDispatchMode _) as [[]|]; auto using preserves_outbox with preserves. Qed.

Lemma preserves_claim_all {A} (claim : A -> Handler CronTables (list CronJobDuePayload)) l :
  (forall a, preserves accepted (claim a)) -> preserves accepted (claim_all claim l).
Proof. intros Hc. induction l as [|a l IH]; cbn [claim_all]; auto 6 with preserves. Qed.

Hint Resolve preserves_dispatchClaimed preserves_claim_all : preserves.

Lemma preserves_ClaimDueJobs now n locked : preserves accepted (ClaimDueJobs fresh now n locked).
Proof.
  apply preserves_transaction, preserves_bind; [auto with preserves|]. intros js. apply preserves_bind; [|auto with preserves].
  apply preserves_claim_all. intros j. unfold claim_job. repeat case_match; auto 8 with preserves.
Qed.

Lemma preserves_ClaimDueRetries now n locked : preserves accepted (ClaimDueRetries now n locked).
Proof.
  apply preserves_transaction, preserves_bind; [auto with preserves|]. intros js. apply preserves_bind; [|auto with preserves].
  apply preserves_claim_all. intros [r j]. unfold claim_retry. auto 8 with preserves.
Qed.

Lemma preserves_fireMatchedJobs now entity recordID js : preserves accepted (fireMatchedJobs fresh now entity recordID js).
Proof.
  apply preserves_bind; [|auto with preserves]. apply preserves_claim_all. intros j. unfold fire_job.
  apply preserves_bind; [auto with preserves|]. intros id. apply preserves_bind; [auto with preserves|]. intros _.
  apply preserves_bind; [|auto with preserves]. apply preserves_update_job. apply preserves_set_fired.
Qed.

Lemma preserves_resumeMatching locked tn entity col detail recordID :
  preserves accepted (resumeMatching locked tn entity col detail recordID).
Proof. by intros t. Qed.

Lemma preserves_FinishRun now id st msg s : preserves accepted (FinishRun now id st msg s).
Proof. by intros t. Qed.

Lemma preserves_FinishRunWithRetry now p st msg s : preserves accepted (FinishRunWithRetry fresh now p st msg s).
Proof. unfold FinishRunWithRetry. apply preserves_bind; [apply preserves_FinishRun|]. intros _. case_match; auto 6 with preserves. Qed.

Lemma preserves_StartWorkflowRun now tn j r n : preserves accepted (StartWorkflowRun fresh now tn j r n).
Proof. apply preserves_bind; [auto with preserves|]. intros id t Ht. repeat case_match; done. Qed.

Lemma preserves_on_tables {A} (m : Handler CronTables A) : preserves accepted m -> preserves accepted_world (on_tables m).
Proof. intros Hm w Hw. unfold on_tables. specialize (Hm _ Hw). by destruct (m (sw_tables w)). Qed.

Lemma preserves_on_outside {A} (m : Handler (list Effect) A) : preserves accepted_world (on_outside m).
Proof. intros w Hw. unfold on_outside. by destruct (m (sw_log w)). Qed.

Hint Resolve preserves_ClaimDueJobs preserves_ClaimDueRetries preserves_fireMatchedJobs preserves_resumeMatching preserves_FinishRun
  preserves_FinishRunWithRetry preserves_StartWorkflowRun preserves_on_tables preserves_on_outside : preserves.

Lemma preserves_run_steps now p wid steps : forall i results, preserves accepted_world (run_steps nil_uuid config now p wid i steps results).
Proof.
  induction steps as [|s steps IH]; intros i results; cbn [run_steps].
  - apply preserves_bind; [|auto with preserves]. apply preserves_on_tables. unfold FinishWorkflowRun. auto with preserves.
  - destruct (is_wait s).
    + case_match; [|auto with preserves]. apply preserves_bind; [|auto with preserves]. apply preserves_on_tables. unfold PauseWorkflowRun. auto with preserves.
    + apply preserves_bind; [auto with preserves|]. intros [v|e].
      * apply preserves_bind; [|intros _; apply IH]. apply preserves_on_tables. unfold AdvanceWorkflowRun. auto with preserves.
      * apply preserves_bind; [|auto with preserves]. apply preserves_on_tables. unfold FailWorkflowRun. auto with preserves.
Qed.

Lemma preserves_runStepRange now p wid steps i : preserves accepted_world (runStepRange nil_uuid config now p wid steps i).
Proof. unfold runStepRange. case_match; auto using preserves_run_steps with preserves. Qed.

Lemma preserves_Execute now p : preserves accepted_world (Execute fresh nil_uuid config now p).
Proof.
  unfold Execute. apply preserves_bind; [auto with preserves|]. intros st. case_match; [auto with preserves|].
  apply preserves_bind. { apply preserves_on_tables. unfold StartRun. auto with preserves. }
  intros _. apply preserves_bind.
  - apply preserves_catch. unfold dispatch, RunSteps. repeat case_match; auto using preserves_runStepRange with preserves.
  - intros [[s|]|e]; auto with preserves.
Qed.

Lemma preserves_ResumeSteps now r : preserves accepted_world (ResumeSteps fresh nil_uuid config now r).
Proof.
  unfold ResumeSteps. case_match; [|auto with preserves].
  apply preserves_bind; [auto using preserves_runStepRange with preserves|]. intros [[s|]|e]; auto with preserves.
Qed.

Lemma preserves_runDirectJobs now js : preserves accepted_world (runDirectJobs fresh nil_uuid config now js).
Proof. induction js as [|p js IH]; cbn [runDirectJobs]; auto using preserves_Execute with preserves. Qed.

Lemma preserves_resume_all now rs : preserves accepted_world (resume_all fresh nil_uuid config now rs).
Proof. induction rs as [|r rs IH]; cbn [resume_all]; auto using preserves_ResumeSteps with preserves. Qed.

Lemma preserves_tick now n locked : preserves accepted_world (tick fresh nil_uuid config now n locked).
Proof.
  unfold tick. apply preserves_bind; [auto with preserves|]. intros due. apply preserves_bind; [apply preserves_runDirectJobs|]. intros _.
  apply preserves_bind; [auto with preserves|]. intros retries. apply preserves_runDirectJobs.
Qed.

Lemma preserves_finishDispatch now fired q : preserves accepted q -> preserves accepted_world (finishDispatch fresh nil_uuid config now fired q).
Proof.
  intros Hq. unfold finishDispatch. destruct fired as [c|e]; [|auto with preserves].
  apply preserves_bind; [apply preserves_runDirectJobs|]. intros _. apply preserves_bind; [auto with preserves|]. intros [l|e].
  - apply preserves_bind; [apply preserves_resume_all|auto with preserves].
  - auto with preserves.
Qed.

Lemma preserves_listener now locked key payload : preserves accepted_world (listener_handle fresh nil_uuid config now locked key payload).
Proof.
  unfold listener_handle, dispatchTransition, dispatchRecordEvent. repeat case_match; try (auto with preserves; fail).
  - apply preserves_bind; [|intros f; apply preserves_finishDispatch, preserves_resumeMatching].
    apply preserves_catch, preserves_on_tables, preserves_transaction. auto with preserves.
  - apply preserves_bind; [|intros f; apply preserves_finishDispatch, preserves_resumeMatching].
    apply preserves_catch, preserves_on_tables, preserves_transaction. auto with preserves.
Qed.

(** ** The administration *)

Lemma valid_or_refuse_inv m t u t' : valid_or_refuse m t = (Ok u, t') -> m = None /\ t' = t.
Proof. unfold valid_or_refuse. destruct m; [done|]. by intros [= _ <-]. Qed.

Lemma preserves_valid m : preserves accepted (valid_or_refuse m).
Proof. unfold valid_or_refuse, cronValidationError, cron_refuse. destruct m; auto with preserves. Qed.

Lemma preserves_admin auth : preserves accepted (admin auth).
Proof. unfold admin, cron_refuse. repeat case_match; auto with preserves. Qed.

(** A validation whose success the rest of the handler may rely on. *)
Lemma preserves_bind_valid {B} m (k : Handler CronTables B) :
  (m = None -> preserves accepted k) -> preserves accepted (let* _ := valid_or_refuse m in k).
Proof.
  intros Hk t Ht. unfold hbind. destruct (valid_or_refuse m t) as [[u|e|] t'] eqn:Hv.
  - apply valid_or_refuse_inv in Hv as [-> ->]. by apply Hk.
  - pose proof (preserves_valid m t Ht) as Hv'. by rewrite Hv in Hv'.
  - pose proof (preserves_valid m t Ht) as Hv'. by rewrite Hv in Hv'.
Qed.

Lemma known_target_ok s : known_target s = None -> is_Some (ParseTargetType s).
Proof. unfold known_target. case_match; [eauto|done]. Qed.
Lemma known_mode_ok s : known_mode s = None -> is_Some (ParseDispatchMode s).
Proof. unfold known_mode. case_match; [eauto|done]. Qed.
Lemma attempts_ok_bound n : attempts_ok n = None -> (1 <= n)%Z.
Proof. unfold attempts_ok. case_match; [done|]. rewrite Z.ltb_ge in *. lia. Qed.
Lemma backoff_ok_bound n : backoff_ok n = None -> (0 <= n)%Z.
Proof. unfold backoff_ok. case_match; [done|]. rewrite Z.ltb_ge in *. lia. Qed.

Lemma computeNextRun_schedule expr tz now next : computeNextRun "schedule" expr tz now = Ok next -> is_Some next.
Proof.
  unfold computeNextRun. change (ParseTriggerType "schedule") with (Some TriggerSchedule). cbv iota.
  destruct expr as [e|]; [|done]. destruct (NextRunAt e tz now); [|done..]. intros [= <-]. eauto.
Qed.

(** Checks that give the job's row: they only read. *)
Lemma CreateJob_accepted now tn input by_ :
  is_Some (ParseTargetType (nj_TargetType input)) ->
  validateTargetConfig (nj_TargetType input) (Some (nj_TargetConfig input)) = None ->
  is_Some (ParseDispatchMode (nj_DispatchMode input)) -> (1 <= nj_MaxAttempts input)%Z -> (0 <= nj_RetryBackoffSeconds input)%Z ->
  validateTrigger (nj_TriggerType input) (nj_TriggerConfig input) (nj_CronExpr input) (nj_Timezone input) = None ->
  preserves accepted (CreateJob fresh now tn input by_).
Proof.
  intros Ht Hc Hm Ha Hb Htr. intros t Hacc. unfold CreateJob, hbind, hlift, new_uuid.
  destruct (computeNextRun _ _ _ _) as [next|e|] eqn:Hn; [|done..]. cbn [ct_jobs set_drawn].
  case_match; [done|]. cbn. unfold accepted. cbn. apply Forall_app. split; [done|]. apply Forall_singleton. split; cbn; try done.
  intros He. rewrite He in Hn. by apply computeNextRun_schedule in Hn.
Qed.

Lemma preserves_bind_lift {A B} (r : result error A) (k : A -> Handler CronTables B) :
  (forall a, r = Ok a -> preserves accepted (k a)) -> preserves accepted (let* a := hlift r in k a).
Proof. intros Hk t Ht. unfold hbind, hlift. destruct r as [a|e|]; [|done..]. by apply Hk. Qed.

Lemma preserves_createCronJob now auth body : preserves accepted (createCronJob fresh now auth body).
Proof.
  unfold createCronJob. apply preserves_bind; [apply preserves_admin|]. intros rc. destruct body as [raw|]; [|apply preserves_refuse].
  set (b := applyDefaults raw). apply preserves_bind; [auto with preserves|]. intros tn.
  do 6 (apply preserves_bind_valid; intros ?). apply preserves_bind_lift. intros c Hc.
  apply preserves_bind; [|auto with preserves]. apply CreateJob_accepted; cbn.
  - by apply known_target_ok.
  - unfold not_null in Hc. destruct (cb_TargetConfig b); [|done]. by injection Hc as <-.
  - by apply known_mode_ok.
  - by apply attempts_ok_bound.
  - by apply backoff_ok_bound.
  - done.
Qed.

(** The checks of an update only read; what they establish of the job it is for. *)
Lemma check_trigger_inv tn id u t r t' :
  check_trigger tn id u t = (r, t') ->
  t' = t /\ (r = Ok tt -> forall e, GetJob t tn id = Some e -> job_accepted e ->
    validateTrigger (or_existing (ju_TriggerType u) (cj_TriggerType e)) (or_else (ju_TriggerConfig u) (cj_TriggerConfig e))
      (or_else (ju_CronExpr u) (cj_CronExpr e)) (or_existing (ju_Timezone u) (cj_Timezone e)) = None).
Proof.
  unfold check_trigger. destruct (is_set (ju_TriggerType u) || _ || _ || _) eqn:Hs.
  - unfold hbind, read_with. destruct (GetJob t tn id) as [e|] eqn:Hg.
    + unfold valid_or_refuse. destruct (validateTrigger _ _ _ _) eqn:Hv; intros [= <- <-]; (split; [done|]); [done|].
      intros _ e' [= <-] _. exact Hv.
    + intros [= <- <-]. split; [done|]. intros [=].
  - intros [= <- <-]. split; [done|]. intros _ e _ He. rewrite !orb_false_iff in Hs. destruct_and!.
    destruct (ju_TriggerType u), (ju_TriggerConfig u), (ju_CronExpr u), (ju_Timezone u); try done. apply (ja_trigger _ He).
Qed.

Lemma check_target_inv tn id u t r t' :
  check_target tn id u t = (r, t') ->
  t' = t /\ (r = Ok tt -> forall e, GetJob t tn id = Some e -> job_accepted e ->
    validateTargetConfig (or_existing (ju_TargetType u) (cj_TargetType e)) (Some (or_existing (ju_TargetConfig u) (cj_TargetConfig e))) = None).
Proof.
  unfold check_target. destruct (is_set (ju_TargetType u) || _) eqn:Hs.
  - unfold hbind, read_with. destruct (GetJob t tn id) as [e|] eqn:Hg.
    + unfold valid_or_refuse. destruct (validateTargetConfig _ _) eqn:Hv; intros [= <- <-]; (split; [done|]); [done|].
      intros _ e' [= <-] _. exact Hv.
    + intros [= <- <-]. split; [done|]. intros [=].
  - intros [= <- <-]. split; [done|]. intros _ e _ He. rewrite !orb_false_iff in Hs. destruct_and!.
    destruct (ju_TargetType u), (ju_TargetConfig u); try done. apply (ja_config _ He).
Qed.

Lemma check_optional_ok {A} (check : A -> option string) (Q : A -> Prop) o d :
  (forall a, check a = None -> Q a) -> match o with Some a => check a | None => None end = None -> Q d -> Q (or_existing o d).
Proof. intros Hc. destruct o; cbn; auto. Qed.

Lemma preserves_updateCronJob now auth id body : preserves accepted (updateCronJob now auth id body).
Proof.
  unfold updateCronJob. apply preserves_bind; [apply preserves_admin|]. intros rc.
  destruct id as [id|]; [|apply preserves_refuse]. destruct body as [u|]; [|apply preserves_refuse].
  apply preserves_bind; [auto with preserves|]. intros tn. unfold check_optional.
  apply preserves_bind_valid; intros Hkt. apply preserves_bind_valid; intros Hkm. apply preserves_bind_valid; intros Hka. apply preserves_bind_valid; intros Hkb.
  intros t Ht. unfold hbind at 1. destruct (check_trigger tn id u t) as [r1 t1] eqn:Hc1. apply check_trigger_inv in Hc1 as [-> Hc1].
  destruct r1 as [[]|e|]; [|done..]. unfold hbind at 1.
  destruct (check_target tn id u t) as [r2 t2] eqn:Hc2. apply check_target_inv in Hc2 as [-> Hc2].
  destruct r2 as [[]|e|]; [|done..]. unfold hbind at 1, UpdateJob, hbind, read_with.
  destruct (GetJob t tn id) as [e|] eqn:Hg; [|done]. unfold hlift.
  destruct (computeNextRun _ _ _ _) as [next|er|] eqn:Hn; [|done..]. cbn.
  assert (He : job_accepted e).
  { apply find_some in Hg as [Hin _]. apply list_elem_of_In in Hin. unfold accepted in Ht. rewrite Forall_forall in Ht. by apply Ht. }
  unfold accepted. cbn. unfold update_matching. apply Forall_map. eapply Forall_impl; [exact Ht|]. intros j Hj. cbn.
  destruct (tenant_job tn id j); [|done]. pose proof He as []. split; unfold updated_job; cbn.
  - by apply (check_optional_ok known_target (fun s => is_Some (ParseTargetType s)) _ _ known_target_ok).
  - by apply Hc2.
  - by apply (check_optional_ok known_mode (fun s => is_Some (ParseDispatchMode s)) _ _ known_mode_ok).
  - by apply (check_optional_ok attempts_ok (fun n => (1 <= n)%Z) _ _ attempts_ok_bound).
  - by apply (check_optional_ok backoff_ok (fun n => (0 <= n)%Z) _ _ backoff_ok_bound).
  - by apply Hc1.
  - intros Hs. rewrite Hs in Hn. by apply computeNextRun_schedule in Hn.
Qed.

Lemma preserves_deleteCronJob auth id : preserves accepted (deleteCronJob auth id).
Proof.
  unfold deleteCronJob. apply preserves_bind; [apply preserves_admin|]. intros rc. destruct id as [id|]; [|apply preserves_refuse].
  apply preserves_bind; [auto with preserves|]. intros tn. apply preserves_bind; [|auto with preserves]. intros t Ht. unfold DeleteJob, exec.
  cbn. case_match; [|done]. unfold accepted. cbn. unfold accepted in Ht. rewrite Forall_forall in *. intros j Hj%list_elem_of_In.
  apply filter_In in Hj as [Hj _]. apply Ht. by apply list_elem_of_In.
Qed.

(** ** Reachable states *)

(** What happens to the tables: a request of an administrator, a tick, a delivery to
    the executor (of any payload) or to the listener. *)
Inductive cron_step : Scheduler -> Scheduler -> Prop :=
| step_create w now auth body : cron_step w (snd (on_tables (createCronJob fresh now auth body) w))
| step_update w now auth id body : cron_step w (snd (on_tables (updateCronJob now auth id body) w))
| step_delete w auth id : cron_step w (snd (on_tables (deleteCronJob auth id) w))
| step_tick w now n locked : cron_step w (snd (tick fresh nil_uuid config now n locked w))
| step_execute w now payload : cron_step w (snd (executor_handle fresh nil_uuid config now payload w))
| step_listen w now locked key payload : cron_step w (snd (listener_handle fresh nil_uuid config now locked key payload w)).

Definition no_jobs : Scheduler := mkScheduler (mkCron [] [] [] [] 0) [].

Lemma reachable_accepted w : rtc cron_step no_jobs w -> accepted_world w.
Proof.
  intros Hr. assert (Hg : forall w0, rtc cron_step w0 w -> accepted_world w0 -> accepted_world w).
  2: { apply (Hg no_jobs Hr). by apply Forall_nil. }
  clear Hr. induction 1 as [|w0 w1 w2 Hs _ IH]; [done|]. intros Hw. apply IH. destruct Hs.
  - exact (preserves_on_tables _ (preserves_createCronJob _ _ _) _ Hw).
  - exact (preserves_on_tables _ (preserves_updateCronJob _ _ _ _) _ Hw).
  - exact (preserves_on_tables _ (preserves_deleteCronJob _ _) _ Hw).
  - by apply preserves_tick.
  - unfold executor_handle. destruct payload as [p|]; [|done].
    refine (preserves_bind accepted_world _ _ _ _ w Hw); auto using preserves_Execute with preserves.
  - by apply preserves_listener.
Qed.

(** What the scheduler can do with a job it claims. *)
Definition job_runnable (j : CronJob) : Prop :=
  (exists target, ParseTargetType (cj_TargetType j) = Some target /\ target <> TargetWaitEvent) /\
  (forall l, cj_TargetType j = "steps" -> cj_TargetConfig j = JObj l -> (length (members_of "steps" l) <= 1)%nat ->
     exists steps, unmarshal_steps (cj_TargetConfig j) = Some steps /\ steps <> [] /\ Forall runnable_step steps) /\
  is_Some (ParseDispatchMode (cj_DispatchMode j)) /\ (1 <= cj_MaxAttempts j)%Z /\ (0 <= cj_RetryBackoffSeconds j)%Z /\
  (cj_TriggerType j = "schedule" ->
     is_Some (cj_NextRunAt j) /\ exists expr, cj_CronExpr j = Some expr /\ is_Some (cron_Parse expr) /\ is_Some (LoadLocation (cj_Timezone j))).

Lemma accepted_runnable j : job_accepted j -> job_runnable j.
Proof.
  intros [[target Ht] Hc Hm Ha Hb Htr Hn]. split.
  { exists target. split; [done|]. intros ->. unfold validateTargetConfig in Hc. by rewrite Ht in Hc. }
  split. { intros l Hs Hj Hl. rewrite Hs, Hj in Hc. rewrite Hj. by apply accepted_chain_decodes. }
  split; [done|]. split; [done|]. split; [done|]. intros Hs. split; [by apply Hn|]. rewrite Hs in Htr.
  unfold validateTrigger in Htr. change (ParseTriggerType "schedule") with (Some TriggerSchedule) in Htr. cbv iota in Htr.
  destruct (cj_CronExpr j) as [expr|]; [|done]. exists expr. split; [done|]. unfold ValidateSchedule in Htr.
  destruct (cron_Parse expr); [|done]. destruct (LoadLocation _); [|done]. eauto.
Qed.

(** C31. Every job of every state the system reaches, by requests of administrators,
    ticks and deliveries in any order, is one the scheduler can run: its target is a
    known one and no wait, a chain decodes to steps of known types with usable waits
    (when one member holds the steps), it is dispatched in a known mode, it has an
    attempt, and a schedule parses in its time zone and has a next run. *)
Theorem jobs_stay_runnable w :
  rtc cron_step no_jobs w -> forall j, j ∈ ct_jobs (sw_tables w) -> job_runnable j.
Proof.
  intros Hr j Hj. apply accepted_runnable. apply reachable_accepted in Hr. unfold accepted_world, accepted in Hr.
  rewrite Forall_forall in Hr. by apply Hr.
Qed.

(** ** Tenants *)

Inductive CronRequest : Type :=
| CreateRequest (body : option createCronJobBody)
| ListRequest
| GetRequest (id : option uuid)
| UpdateRequest (id : option uuid) (body : option JobUpdate)
| DeleteRequest (id : option uuid)
| RunsRequest (id : option uuid) (limit : option Z)
| WorkflowRequest (jobID runID : option uuid).

(** mountCron. *)
Definition serve_cron (now : Z) (auth : authError + RequestContext) (request : CronRequest) : Handler CronTables CronResponse :=
  match request with
  | CreateRequest body => createCronJob fresh now auth body
  | ListRequest => listCronJobs auth
  | GetRequest id => getCronJob auth id
  | UpdateRequest id body => updateCronJob now auth id body
  | DeleteRequest id => deleteCronJob auth id
  | RunsRequest id limit => listCronJobRuns auth id limit
  | WorkflowRequest jobID runID => getWorkflowRun auth jobID runID
  end.

Definition response_of_tenant (tn : uuid) (response : CronResponse) : Prop :=
  match response with
  | JobCreated j | JobData j => cj_TenantID j = tn
  | JobList l => Forall (fun j => cj_TenantID j = tn) l
  | JobDeleted => True
  | RunList l => Forall (fun r => jr_TenantID r = tn) l
  | WorkflowRunData w => wr_TenantID w = tn
  end.

(** The rows of the other tenants. *)
Definition others {R} (tenant : R -> uuid) (tn : uuid) (l : list R) : list R := List.filter (fun r => negb (bool_decide (tenant r = tn))) l.

Record others_kept (tn : uuid) (t t' : CronTables) : Prop := {
  ok_jobs : others cj_TenantID tn (ct_jobs t') = others cj_TenantID tn (ct_jobs t);
  ok_runs : others jr_TenantID tn (ct_runs t') = others jr_TenantID tn (ct_runs t);
  ok_workflows : others wr_TenantID tn (ct_workflows t') = others wr_TenantID tn (ct_workflows t);
  ok_outbox : ct_outbox t' = ct_outbox t
}.

(** Runs and workflow runs belong to the tenant of their job. *)
Record owned (t : CronTables) : Prop := {
  ow_runs : forall r j, r ∈ ct_runs t -> j ∈ ct_jobs t -> jr_JobID r = cj_ID j -> jr_TenantID r = cj_TenantID j;
  ow_workflows : forall w j, w ∈ ct_workflows t -> j ∈ ct_jobs t -> wr_JobID w = cj_ID j -> wr_TenantID w = cj_TenantID j
}.

Lemma others_kept_refl tn t : others_kept tn t t.
Proof. by split. Qed.

Lemma others_remove {R} (tenant : R -> uuid) tn (p : R -> bool) l :
  (forall r, r ∈ l -> p r = true -> tenant r = tn) -> others tenant tn (List.filter (fun r => negb (p r)) l) = others tenant tn l.
Proof.
  intros Hp. induction l as [|r l IH]; [done|]. cbn [List.filter].
  assert (IH' : others tenant tn (List.filter (fun r => negb (p r)) l) = others tenant tn l).
  { apply IH. intros x Hx. apply Hp. by apply list_elem_of_further. }
  destruct (p r) eqn:Hr; cbn [negb]; unfold others in *; cbn [List.filter]; rewrite IH'; [|done].
  rewrite bool_decide_eq_true_2; [done|]. apply Hp; [apply list_elem_of_here|done].
Qed.

Lemma others_update {R} (tenant : R -> uuid) tn (p : R -> bool) (f : R -> R) l :
  (forall r, p r = true -> tenant r = tn /\ tenant (f r) = tn) -> others tenant tn (update_matching p f l) = others tenant tn l.
Proof.
  intros Hp. unfold others, update_matching. induction l as [|r l IH]; [done|]. cbn [map List.filter]. rewrite IH.
  destruct (p r) eqn:Hr; [|done]. destruct (Hp r Hr) as [H1' H2']. by rewrite !bool_decide_eq_true_2.
Qed.

Lemma others_add {R} (tenant : R -> uuid) tn r l : tenant r = tn -> others tenant tn (l ++ [r]) = others tenant tn l.
Proof.
  intros Hr. unfold others. rewrite List.filter_app. cbn [List.filter]. rewrite bool_decide_eq_true_2 by done. apply app_nil_r.
Qed.

Lemma GetJob_tenant t tn id j : GetJob t tn id = Some j -> j ∈ ct_jobs t /\ cj_TenantID j = tn /\ cj_ID j = id.
Proof.
  unfold GetJob. intros [Hin Hj]%find_some. apply list_elem_of_In in Hin. unfold tenant_job, job_is in Hj.
  apply andb_true_iff in Hj as [?%bool_decide_eq_true ?%bool_decide_eq_true]. done.
Qed.

Lemma others_kept_delete tn id t : owned t -> others_kept tn t (snd (DeleteJob tn id t)).
Proof.
  intros [Hr Hw]. unfold DeleteJob, exec. cbn [snd]. destruct (existsb _ _) eqn:He; [|apply others_kept_refl].
  apply existsb_exists in He as (j & Hin & Hj). apply list_elem_of_In in Hin. unfold tenant_job, job_is in Hj.
  apply andb_true_iff in Hj as [Ht%bool_decide_eq_true Hid%bool_decide_eq_true]. split; [| | |done].
  - cbn. apply others_remove. intros x _ Hx. unfold tenant_job in Hx. by apply andb_true_iff in Hx as [?%bool_decide_eq_true _].
  - cbn. apply others_remove. intros x Hx He%bool_decide_eq_true. rewrite (Hr x j); [done..|congruence].
  - cbn. apply others_remove. intros x Hx He%bool_decide_eq_true. rewrite (Hw x j); [done..|congruence].
Qed.

(** The handler leaves the other tenants' rows alone and answers with the tenant's own. *)
Definition scoped {A} (tn : uuid) (t : CronTables) (Q : A -> Prop) (m : Handler CronTables A) : Prop :=
  others_kept tn t (snd (m t)) /\ (forall a, fst (m t) = Ok a -> Q a).

Lemma scoped_refuse {A} tn t (Q : A -> Prop) e : scoped tn t Q (refuse e).
Proof. split; [apply others_kept_refl|done]. Qed.

Lemma scoped_lift {A B} tn t (Q : B -> Prop) (r : result error A) k :
  (forall a, r = Ok a -> scoped tn t Q (k a)) -> scoped tn t Q (let* a := hlift r in k a).
Proof.
  intros Hk. unfold scoped, hbind, hlift. destruct r as [a|e|]; [by apply Hk|split; [apply others_kept_refl|done]..].
Qed.

Lemma scoped_valid {B} tn t (Q : B -> Prop) m k : scoped tn t Q k -> scoped tn t Q (let* _ := valid_or_refuse m in k).
Proof. intros Hk. unfold valid_or_refuse. destruct m; [apply scoped_refuse|exact Hk]. Qed.

Lemma scoped_read {A B} tn t (Q : B -> Prop) (f : CronTables -> A) k : scoped tn t Q (k (f t)) -> scoped tn t Q (let* a := read_with f in k a).
Proof. done. Qed.

Lemma scoped_ret {A} tn t (Q : A -> Prop) a : Q a -> scoped tn t Q (hret a).
Proof. intros Ha. split; [apply others_kept_refl|]. by intros a' [= <-]. Qed.

Hint Resolve scoped_refuse scoped_valid scoped_read scoped_ret : preserves.

Lemma scoped_create tn t now input by_ :
  scoped tn t (response_of_tenant tn) (let* job := CreateJob fresh now tn input by_ in hret (JobCreated job)).
Proof.
  unfold scoped, CreateJob, hbind, hlift, new_uuid. destruct (computeNextRun _ _ _ _) as [next|e|];
    [|split; [apply others_kept_refl|done]..].
  cbn [ct_jobs set_drawn]. destruct (existsb (job_is (fresh (ct_drawn t))) (ct_jobs t)).
  { split; [by split|done]. }
  split; [|by intros a [= <-]].
  split; try done. by apply others_add.
Qed.

Lemma scoped_update tn t now id u :
  scoped tn t (response_of_tenant tn) (let* job := UpdateJob now tn id u in match job with Some j => hret (JobData j) | None => cronNotFound end).
Proof.
  unfold scoped, UpdateJob, hbind, read_with. destruct (GetJob t tn id) as [e|] eqn:Hg; [|apply scoped_refuse].
  unfold hlift. destruct (computeNextRun _ _ _ _) as [next|er|]; [|split; [apply others_kept_refl|done]..].
  apply GetJob_tenant in Hg as (_ & Ht & _). cbn. split; [|by intros a [= <-]]. split; try done. cbn. apply others_update.
  intros j Hj. unfold tenant_job in Hj. apply andb_true_iff in Hj as [?%bool_decide_eq_true _]. done.
Qed.

Lemma scoped_check {B} tn t (Q : B -> Prop) (c : Handler CronTables unit) k :
  snd (c t) = t -> scoped tn t Q k -> scoped tn t Q (let* _ := c in k).
Proof.
  intros Hc Hk. unfold scoped, hbind. destruct (c t) as [[u|e|] t'] eqn:He; cbn in Hc; subst t'; [exact Hk|split; [apply others_kept_refl|done]..].
Qed.

Lemma scoped_delete tn t id : owned t -> scoped tn t (response_of_tenant tn) (let* _ := DeleteJob tn id in hret JobDeleted).
Proof. intros Ho. split; [exact (others_kept_delete tn id t Ho)|]. by intros a [= <-]. Qed.

Lemma ListJobs_tenant t tn : Forall (fun j => cj_TenantID j = tn) (ListJobs t tn).
Proof.
  unfold ListJobs. rewrite order_by_perm. rewrite Forall_forall. intros j Hj%list_elem_of_In.
  by apply filter_In in Hj as [_ ?%bool_decide_eq_true].
Qed.

Lemma ListJobRuns_tenant t tn id n : Forall (fun r => jr_TenantID r = tn) (ListJobRuns t tn id n).
Proof.
  unfold ListJobRuns. apply Forall_take. rewrite reverse_Permutation, order_by_perm. rewrite Forall_forall.
  intros r Hr%list_elem_of_In. apply filter_In in Hr as [_ Hr]. by apply andb_true_iff in Hr as [?%bool_decide_eq_true _].
Qed.

Lemma serve_cron_scoped now rc tn request t :
  owned t -> ScopedTenant rc = Ok tn -> scoped tn t (response_of_tenant tn) (serve_cron now (inr rc) request).
Proof.
  intros Ho Hs. assert (Hadmin : forall k : RequestContext -> Handler CronTables CronResponse,
    scoped tn t (response_of_tenant tn) (k rc) -> scoped tn t (response_of_tenant tn) (let* c := admin (inr rc) in k c)) by done.
  assert (Htn : forall k : uuid -> Handler CronTables CronResponse,
    scoped tn t (response_of_tenant tn) (k tn) -> scoped tn t (response_of_tenant tn) (let* x := hlift (ScopedTenant rc) in k x)).
  { intros k Hk. rewrite Hs. exact Hk. }
  destruct request as [[b|]| |[id|]|[id|] [u|]|[id|]|[id|] limit|[jobID|] [runID|]];
    cbn [serve_cron]; apply Hadmin; try apply scoped_refuse; apply Htn.
  - do 6 apply scoped_valid. apply scoped_lift. intros c _. apply scoped_create.
  - apply scoped_read, scoped_ret. apply ListJobs_tenant.
  - apply scoped_read. destruct (GetJob t tn id) as [j|] eqn:Hg; [|apply scoped_refuse]. apply scoped_ret. by apply GetJob_tenant in Hg as (_ & ? & _).
  - unfold check_optional. do 4 apply scoped_valid.
    apply scoped_check. { destruct (check_trigger tn id u t) eqn:Hc. by apply check_trigger_inv in Hc as [-> _]. }
    apply scoped_check. { destruct (check_target tn id u t) eqn:Hc. by apply check_target_inv in Hc as [-> _]. }
    apply scoped_update.
  - by apply scoped_delete.
  - apply scoped_read, scoped_ret. apply ListJobRuns_tenant.
  - apply scoped_read. unfold GetWorkflowRunByCronJobRun. destruct (List.find _ _) as [w|] eqn:Hf; [|apply scoped_refuse].
    apply find_some in Hf as [_ Hf]. apply andb_true_iff in Hf as [?%bool_decide_eq_true _].
    case_bool_decide; [by apply scoped_ret|apply scoped_refuse].
Qed.

Definition unchanged {A} (t : CronTables) (m : Handler CronTables A) : Prop := snd (m t) = t /\ (forall a, fst (m t) <> Ok a).

Lemma serve_unscoped now rc request t :
  (forall tn, ScopedTenant rc <> Ok tn) -> unchanged t (serve_cron now (inr rc) request).
Proof.
  intros Hno. assert (Hadmin : forall k : RequestContext -> Handler CronTables CronResponse,
    unchanged t (k rc) -> unchanged t (let* c := admin (inr rc) in k c)) by done.
  assert (Htn : forall k : uuid -> Handler CronTables CronResponse, unchanged t (let* x := hlift (ScopedTenant rc) in k x)).
  { intros k. unfold hbind, hlift. destruct (ScopedTenant rc) as [tn|e|]; [by destruct (Hno tn)|done..]. }
  destruct request as [[b|]| |[id|]|[id|] [u|]|[id|]|[id|] limit|[jobID|] [runID|]]; cbn [serve_cron]; apply Hadmin; try apply Htn; done.
Qed.

(** A request on scheduled jobs changes only rows of the tenant the
    authenticated administrator belongs to, and answers only with rows of that
    tenant; a request without such a tenant is refused and changes nothing. *)
Lemma cron_admin_isolated now auth request t r t' :
  owned t -> serve_cron now auth request t = (r, t') ->
  match auth with
  | inr rc =>
    match ScopedTenant rc with
    | Ok tn => others_kept tn t t' /\ (forall response, r = Ok response -> response_of_tenant tn response)
    | _ => t' = t /\ (forall response, r <> Ok response)
    end
  | inl _ => t' = t /\ (forall response, r <> Ok response)
  end.
Proof.
  intros Ho Hs. destruct auth as [e|rc].
  - assert (Hf : forall k : RequestContext -> Handler CronTables CronResponse, (let* c := admin (inl e) in k c) t = (r, t') -> t' = t /\ (forall response, r <> Ok response)).
    { intros k. by destruct e; intros [= <- <-]. }
    destruct request; exact (Hf _ Hs).
  - destruct (ScopedTenant rc) as [tn|e|] eqn:Ht.
    + destruct (serve_cron_scoped now rc tn request t Ho Ht) as [H1' H2']. by rewrite Hs in H1', H2'.
    + destruct (serve_unscoped now rc request t) as [H1' H2']; [congruence|]. by rewrite Hs in H1', H2'.
    + destruct (serve_unscoped now rc request t) as [H1' H2']; [congruence|]. by rewrite Hs in H1', H2'.
Qed.
End Reach.

(** ** Witnesses and limits *)

#[local] Existing Instance TestUuid.

Definition admin_t1 : authError + RequestContext := inr (mkRequestContext "uuid-t1" "uuid-u1" (Some ["admin"]) true "" None "").

Definition chain_body : createCronJobBody :=
  mkCreateJob "chain" "" None (Some "* * * * *") "" "steps" (Some chain_json) "" 0 0 None.

Definition created_world : Scheduler := snd (on_tables (createCronJob test_fresh 0 admin_t1 (Some chain_body)) no_jobs).
Definition ticked_world : Scheduler := snd (tick test_fresh "" test_config (70 * Second) 10 not_locked created_world).

Lemma jobs_stay_runnable_witness :
  map cj_Name (ct_jobs (sw_tables ticked_world)) = ["chain"] /\ length (ct_runs (sw_tables ticked_world)) = 1%nat /\
  Forall job_runnable (ct_jobs (sw_tables ticked_world)).
Proof.
  split; [by vm_compute|]. split; [by vm_compute|]. rewrite Forall_forall.
  apply (jobs_stay_runnable test_fresh "" test_config).
  eapply rtc_l; [exact (step_create test_fresh "" test_config no_jobs 0 admin_t1 (Some chain_body))|].
  apply rtc_once. exact (step_tick test_fresh "" test_config created_world (70 * Second) 10 not_locked).
Defined.

Lemma cron_admin_isolated_witness :
  exists t', serve_cron test_fresh 300 admin_t1 (DeleteRequest (Some "j1")) test_tables = (Ok JobDeleted, t') /\
    others_kept "t1" test_tables t' /\ ct_jobs t' = [mail_job] /\ ct_runs t' = [].
Proof.
  eexists. split; [reflexivity|]. split; [|by vm_compute].
  refine (proj1 (cron_admin_isolated test_fresh 300 admin_t1 (DeleteRequest (Some "j1")) test_tables (Ok JobDeleted) _ _ eq_refl)).
  split.
  - intros r j Hr Hj. apply list_elem_of_singleton in Hr as ->. by repeat (apply elem_of_cons in Hj as [-> | Hj]; [done|]); apply elem_of_nil in Hj.
  - intros w j Hw. by apply elem_of_nil in Hw.
Defined.

(** The job's chain is replaced by one of a single step. *)
Definition shorter : JobUpdate :=
  mkJobUpdate None None None None None None (Some (JObj [("steps", JArr [step_json "email" (mail_to "a")])])) None None None None.

Definition approved_event : json := JObj [("tenantId", JStr "uuid-t1"); ("recordId", JStr "uuid-d9"); ("action", JStr "approve")].

Definition paused_chain : Scheduler := snd (Execute test_fresh "" test_config 200 chain_firing test_world).
Definition edited_chain : Scheduler := snd (on_tables (updateCronJob 300 admin_t1 (Some "j1") (Some shorter)) paused_chain).
Definition approve_deal : Handler Scheduler delivery :=
  listener_handle test_fresh "" test_config 900 not_locked "deal.workflow.transitioned" approved_event.

(** A job may be edited while a chain of it waits. When the new chain has fewer
    steps than the waiting one had reached, the event that resumes it ends the
    process with a panic, and the chain stays in the running state, which no later
    event resumes. *)
Lemma edited_chain_panics :
  fst (on_tables (updateCronJob 300 admin_t1 (Some "j1") (Some shorter)) paused_chain) <> Panic /\
  map wr_Status (ct_workflows (sw_tables edited_chain)) = ["waiting"] /\
  fst (approve_deal edited_chain) = Panic /\
  map wr_Status (ct_workflows (sw_tables (snd (approve_deal edited_chain)))) = ["running"] /\
  fst (approve_deal (snd (approve_deal edited_chain))) = Ok Acked.
Proof. split; [by vm_compute|]. repeat split; by vm_compute. Qed.

(** Any record's event resumes a waiting chain: the record the chain is about is not
    compared. *)
Lemma wait_ignores_record locked tn entity col detail rec rec' t :
  map rs_WorkflowRunID (match fst (resumeMatching locked tn entity col detail rec t) with Ok l => l | _ => [] end) =
  map rs_WorkflowRunID (match fst (resumeMatching locked tn entity col detail rec' t) with Ok l => l | _ => [] end).
Proof.
  cbn. induction (List.filter _ _) as [|w l IH]; [done|]. cbn [omap list_omap].
  assert (He : rs_WorkflowRunID <$> resumed_of t entity rec w = rs_WorkflowRunID <$> resumed_of t entity rec' w).
  { unfold resumed_of. by destruct (List.find (job_is (wr_JobID w)) (ct_jobs t)), (List.find (run_is (wr_CronJobRunID w)) (ct_runs t)). }
  destruct (resumed_of t entity rec w), (resumed_of t entity rec' w); try discriminate He; [|exact IH].
  injection He as He. cbn [map]. by rewrite He, IH.
Qed.

(** A delivery repeated after the process died in the middle of a chain does not
    restart it: the row of the chain is in the way, the run fails and the chain's row
    stays running. *)
Definition chain_died : Scheduler :=
  snd (on_tables (StartWorkflowRun test_fresh 200 "t1" "j1" "r1" 3) test_world).

Lemma dead_chain_cannot_restart :
  let w := snd (Execute test_fresh "" test_config 400 chain_firing chain_died) in
  map jr_Status (ct_runs (sw_tables w)) = ["failed"; "enqueued"] /\
  map wr_Status (ct_workflows (sw_tables w)) = ["running"] /\ sw_log w = [].
Proof. by vm_compute. Qed.

(** The names of a trigger's members are matched without regard to case when the job
    is validated, and exactly when an event looks for jobs: this accepted job never
    fires. *)
Definition variant_trigger : json := JObj [("Entity", JStr "deal"); ("Action", JStr "approve")].

Lemma variant_trigger_never_fires j :
  cj_TriggerConfig j = Some variant_trigger ->
  validateTrigger "on_transition" (Some variant_trigger) None "UTC" = None /\
  forall tn entity detail, triggered_by tn TriggerOnTransition entity "action" detail j = false.
Proof.
  intros Hj. split; [by vm_compute|]. intros tn entity detail. unfold triggered_by. rewrite Hj.
  assert (config_text (Some variant_trigger) "action" = None) as -> by (by vm_compute).
  by rewrite (bool_decide_eq_false_2 (None = Some detail)), andb_false_r.
Qed.

(** An edit of any field moves the next run: a firing that is due and not claimed yet is
    lost. *)
Definition renamed : JobUpdate := mkJobUpdate (Some "other name") None None None None None None None None None None.

Lemma edit_skips_due_firing :
  map (job_due 200 not_locked) (ct_jobs test_tables) = [true; true] /\
  map (job_due 200 not_locked) (ct_jobs (snd (updateCronJob 200 admin_t1 (Some "j1") (Some renamed) test_tables))) = [false; true].
Proof. by vm_compute. Qed.

(** The retry of a firing forgets the record that triggered it. *)
Lemma retry_forgets_trigger now rj t ds t' :
  claim_retry now rj t = (Ok ds, t') -> Forall (fun p => du_TriggerRecordID p = None /\ du_TriggerEntity p = None) ds.
Proof.
  destruct rj as [r j]. unfold claim_retry, dispatchClaimed, hbind. destruct (ParseDispatchMode _) as [[]|]; cbn; intros [= <- _]; by repeat constructor.
Qed.
