(* ===== verification/Wire.v ===== *)
(** The gRPC encoding (src/go/grpcapi: convert.go, listinput.go, status.go): JSON
    documents as google.protobuf.Struct and back, list requests, and the errors of
    the service as a status with its details.

    A Go value decoded with UseNumber is a JSON document whose objects have their
    members in key order, each key once ([normal]). A Struct's map is its entries in
    key order. The document carried in the trailer is the document itself. The
    conversion of a float64 beyond the range of an integer type is left open by the
    language: its result is a parameter. *)
From Stdlib Require Import SpecFloat.
From S2P Require Import Prelude GoStrings GoText Json Floats Numbers Condition Context Uuid Evaluate Snapshot PermissionService PolicyStore Metadata Schema Router Payload Workflow AuditTrail Sql ConditionSql Jql Planner Records Crud Cron Outbound.

Open Scope string_scope.
Open Scope list_scope.

(** ** Values (convert.go) *)

Inductive pbvalue : Type :=
| PNull
| PNumber (f : float64)
| PString (s : string)
| PBool (b : bool)
| PStruct (fields : list (string * pbvalue))
| PList (values : list pbvalue).

Definition pbstruct : Type := list (string * pbvalue).

(** json.Number.Float64, with the error ignored: an infinity out of range, zero for
    a text that is no number. *)
Definition Number_Float64 (lit : string) : float64 :=
  match parse_number lit with
  | None => f64_zero
  | Some d => match f64_of_decimal d with Some f => f | None => S754_infinity (d_neg d) end
  end.

(** A document decoded into an any with UseNumber. *)
Fixpoint normal (j : json) : json :=
  match j with
  | JArr l => JArr (map normal l)
  | JObj l => JObj (fold_left (fun acc kv => assoc_insert kv.1 kv.2 acc) (map (fun kv => (kv.1, normal kv.2)) l) [])
  | j => j
  end.

Fixpoint jsonToPbValue (j : json) : pbvalue :=
  match j with
  | JNull => PNull
  | JBool b => PBool b
  | JNum lit => PNumber (Number_Float64 lit)
  | JStr s => PString s
  | JArr l => PList (map jsonToPbValue l)
  | JObj l => PStruct (map (fun kv => (kv.1, jsonToPbValue kv.2)) l)
  end.

(** A value that is not an object gives the empty Struct. *)
Definition JSONToStruct (j : json) : pbstruct :=
  match j with JObj l => map (fun kv => (kv.1, jsonToPbValue kv.2)) l | _ => [] end.

(** int64(f) and uint64(f) for f beyond the type's range. *)
Class Conversions := { int64_beyond : float64 -> Z; uint64_beyond : float64 -> Z }.
Class ConversionLaws (C : Conversions) : Prop := {
  int64_in : forall f, in_bits 64 (int64_beyond f) = true;
  uint64_in : forall f, (0 <= uint64_beyond f < 2 ^ 64)%Z
}.

Section Values.
Context `{!Conversions}.

Definition to_int64 (f : float64) (z : Z) : Z := if in_bits 64 z then z else int64_beyond f.
Definition to_uint64 (f : float64) (z : Z) : Z := if ((0 <=? z) && (z <? 2 ^ 64))%Z then z else uint64_beyond f.

(** The constants MaxInt64 and MaxUint64 compare as the float64 nearest to them, 2^63
    and 2^64. *)
Definition jsonNumberFromFloat64 (f : float64) : string :=
  match int_value f with
  | Some z =>
    if ((- 2 ^ 63 <=? z) && (z <=? 2 ^ 63))%Z then FormatInt (to_int64 f z)
    else if ((0 <=? z) && (z <=? 2 ^ 64))%Z then FormatInt (to_uint64 f z)
    else Sprintf_g f
  | None => Sprintf_g f
  end.

Fixpoint pbValueToJSON (v : pbvalue) : json :=
  match v with
  | PNull => JNull
  | PNumber f => JNum (jsonNumberFromFloat64 f)
  | PString s => JStr s
  | PBool b => JBool b
  | PStruct l => JObj (map (fun kv => (kv.1, pbValueToJSON kv.2)) l)
  | PList l => JArr (map pbValueToJSON l)
  end.

(** A nil Struct has no members. *)
Definition StructToJSON (s : option pbstruct) : list (string * json) :=
  match s with Some l => map (fun kv => (kv.1, pbValueToJSON kv.2)) l | None => [] end.

(** json.Marshal of such a value: a json.Number that is no number literal is an
    error. *)
Fixpoint numbers_valid (j : json) : bool :=
  match j with
  | JNum lit => match parse_number lit with Some _ => true | None => false end
  | JArr l => forallb numbers_valid l
  | JObj l => forallb (fun kv => numbers_valid kv.2) l
  | _ => true
  end.

Definition marshal_any (j : json) : option json := if numbers_valid j then Some j else None.

(** The document of a value that encodes as an object. *)
Definition ValueToStruct (doc : json) : option pbstruct :=
  match doc with
  | JObj _ => Some (JSONToStruct (normal doc))
  | JNull => Some []
  | _ => None
  end.

Definition StructToValue {A} (s : option pbstruct) (unmarshal : json -> option A) : option A :=
  match marshal_any (JObj (StructToJSON s)) with Some doc => unmarshal doc | None => None end.

Definition StructToJSONObject (s : option pbstruct) : option JsonObject := StructToValue s unmarshal_map.

(** ** Options (convert.go) *)

Definition any_member (m : list (string * json)) (key : string) : option json :=
  snd <$> List.find (fun kv => String.eqb kv.1 key) m.

Definition GetStr (m : list (string * json)) (key : string) : option string :=
  match any_member m key with Some (JStr s) => Some s | _ => None end.

(** int64 of a float64: towards zero. *)
Definition truncated (f : float64) : Z :=
  match f with
  | S754_finite s m e => cond_Zopp s (if (0 <=? e)%Z then Zpos m * 2 ^ e else Zpos m / 2 ^ (- e))%Z
  | _ => 0%Z
  end.

Definition float_to_int64 (f : float64) : Z :=
  match f with
  | S754_infinity _ | S754_nan => int64_beyond f
  | _ => to_int64 f (truncated f)
  end.

(** json.Number.Float64: the texts FormatFloat gives the values that are no numbers
    read back. *)
Definition parse_float (lit : string) : option float64 :=
  if String.eqb lit "+Inf" then Some (S754_infinity false)
  else if String.eqb lit "-Inf" then Some (S754_infinity true)
  else if String.eqb lit "NaN" then Some S754_nan
  else f64_of_literal lit.

Definition GetI64 (m : list (string * json)) (key : string) : option Z :=
  match any_member m key with
  | Some (JNum lit) =>
    match ParseInt lit 64 with
    | Some z => Some z
    | None => float_to_int64 <$> parse_float lit
    end
  | _ => None
  end.

(** ** Lists (listinput.go) *)

(** fmt.Sprintf("%v") of a decoded value. *)
Fixpoint any_text (j : json) : string :=
  match j with
  | JNull => "<nil>"
  | JBool b => FormatBool b
  | JNum lit => lit
  | JStr s => s
  | JArr l => "[" +:+ Join (map any_text l) " " +:+ "]"
  | JObj l => "map[" +:+ Join (map (fun kv => kv.1 +:+ ":" +:+ any_text kv.2) l) " " +:+ "]"
  end.

Definition valueToFilterString (j : json) : string := match j with JStr s => s | j => any_text j end.
End Values.

(** The opaque text of a cursor (base64 of its document), and a text that is none. *)
Class CursorText := {
  encode_text : json -> string;
  decode_text : string -> option json;
  bad_cursor : string
}.

Class CursorLaws (C : CursorText) : Prop := {
  decode_encode_cursor : forall c, decode_text (encode_text c) = Some c;
  cursor_not_empty : forall c, encode_text c <> "";
  bad_cursor_decodes : decode_text bad_cursor = None
}.

Definition limit_error : string := "`limit` must be a positive integer no greater than 200.".

Section Lists.
Context `{!Conversions} `{!CursorText}.

(** [range] gives the entries of the filter object in the order of the iteration. *)
Definition listInputFromQuery (range : list (string * json) -> list (string * json)) (q : list (string * json)) : result string ListInput :=
  let! limit := match GetI64 q "limit" with
                | Some n => if (n <=? 0)%Z || (200 <? n)%Z then Err limit_error else Ok n
                | None => Ok 30%Z
                end in
  let filters := match any_member q "filter" with
                 | Some (JObj l) => map (fun kv => (kv.1, valueToFilterString kv.2)) (range l)
                 | _ => []
                 end in
  Ok (mkListInput limit (GetStr q "sort") filters (decode_text <$> GetStr q "cursor") (GetStr q "listView") (GetStr q "jql")).

Definition cursor_text (c : option json) : string := match c with Some c => encode_text c | None => bad_cursor end.

(** The members of a map value, in key order. *)
Definition any_map (l : list (string * json)) : json := JObj (fold_left (fun acc kv => assoc_insert kv.1 kv.2 acc) l []).

Definition listInputToQuery (input : ListInput) : json :=
  any_map ([("limit", JNum (FormatInt (li_Limit input)));
            ("filter", any_map (map (fun kv => (kv.1, JStr kv.2)) (li_Filters input)))]
           ++ optional_member "sort" (JStr <$> li_Sort input)
           ++ optional_member "cursor" (JStr <$> (cursor_text <$> li_Cursor input))
           ++ optional_member "listView" (JStr <$> li_ListView input)
           ++ optional_member "jql" (JStr <$> li_JQL input)).
End Lists.

(** ** Errors (status.go) *)

Inductive Code : Type :=
| InvalidArgument | Unauthenticated | PermissionDenied | NotFound | Aborted | Internal | Unavailable.

Record GrpcError : Type := mkGrpcError { ge_Code : Code; ge_Message : string; ge_Details : option json }.

(** status.Error: no details. *)
Definition status_Error (code : Code) (message : string) : GrpcError := mkGrpcError code message None.

Definition codeForStatus (httpStatus : Z) : Code :=
  if ((httpStatus =? 400) || (httpStatus =? 422))%Z then InvalidArgument
  else if (httpStatus =? 401)%Z then Unauthenticated
  else if (httpStatus =? 403)%Z then PermissionDenied
  else if (httpStatus =? 404)%Z then NotFound
  else if (httpStatus =? 409)%Z then Aborted
  else Internal.

Definition strings_json (l : list string) : json := JArr (map JStr l).

(** json.Marshal of an ErrorDetails: the message and the field errors are omitted
    when empty. *)
Definition details_json (e : ServiceError) : json :=
  JObj ([("status", JNum (FormatInt (se_Status e))); ("error", JStr (se_ErrorCode e))]
        ++ optional_member "message" (JStr <$> se_Message e)
        ++ match se_FieldErrors e with
           | Some fe => match sorted_members fe with
                        | [] => []
                        | l => [("fieldErrors", JObj (map (fun kv => (kv.1, strings_json kv.2)) l))]
                        end
           | None => []
           end).

Definition errorToStatus (e : ServiceError) : GrpcError :=
  mkGrpcError (codeForStatus (se_Status e)) (default (se_ErrorCode e) (se_Message e)) (Some (details_json e)).

(** Into an unsigned integer of 16 bits. *)
Definition into_uint16 (cur : Z * bool) (v : json) : Z * bool :=
  match v with
  | JNum lit =>
    match ParseInt lit 64 with
    | Some z => if ((0 <=? z) && (z <? 2 ^ 16))%Z && negb (HasPrefix lit "-") then (z, cur.2) else (cur.1, true)
    | None => (cur.1, true)
    end
  | JNull => cur
  | _ => (cur.1, true)
  end.

(** Into a map of lists of strings: the members are added to the map. *)
Fixpoint into_field_errors (l : list (string * json)) (cur : FieldErrors * bool) : FieldErrors * bool :=
  match l with
  | [] => cur
  | (k, v) :: l' =>
    into_field_errors l' (match unmarshal_strings v with Some s => (<[k := s]> cur.1, cur.2) | None => (cur.1, true) end)
  end.

Definition details_step (st : ServiceError * bool) (kv : string * json) : ServiceError * bool :=
  let '(mkServiceError s c m f, bad) := st in
  if key_matches "status" kv.1 then let '(s, bad) := into_uint16 (s, bad) kv.2 in (mkServiceError s c m f, bad)
  else if key_matches "error" kv.1 then let '(c, bad) := into_string (c, bad) kv.2 in (mkServiceError s c m f, bad)
  else if key_matches "message" kv.1 then let '(m, bad) := into_pointer (m, bad) kv.2 in (mkServiceError s c m f, bad)
  else if key_matches "fieldErrors" kv.1 then
    match kv.2 with
    | JObj l => let '(fe, bad) := into_field_errors l (default ∅ f, bad) in (mkServiceError s c m (Some fe), bad)
    | JNull => (mkServiceError s c m None, bad)
    | _ => (mkServiceError s c m f, true)
    end
  else st.

Definition errorDetailsFromTrailer (details : option json) : option ServiceError :=
  match details with
  | Some doc => unmarshal_struct (mkServiceError 0 "" None None) details_step (Some doc)
  | None => None
  end.
