(* ===== verification/Grpc.v ===== *)
(** Records over gRPC (src/go/grpcapi/service.go and client.go): the server that
    calls a backend, and the backend that calls such a server.

    A backend is a record of its methods over a state [W], the interface
    crud.RecordBackend; CrudService is one. The authentication of a request is the
    function of its authorization header modelled in Authn.v. A connection is up,
    fails before the server sees the request, or loses the answer; a panic of the
    server loses it too. *)
From Stdlib Require Import SpecFloat.
From S2P Require Import Prelude GoStrings GoText Json Floats Numbers Condition Context Uuid Evaluate Snapshot PermissionService PolicyStore Metadata Schema Router Payload Workflow AuditTrail Sql ConditionSql Jql Planner Records Times Crud CrudOutcomes CrudProps CrudState CrudReads Aggregate Authn Cron Outbound Wire.

Open Scope string_scope.
Open Scope list_scope.

(** ** Documents of the transfer objects *)

Definition availability_json (a : TransitionAvailability) : json :=
  JObj ([("action", JStr (ta_Action a)); ("available", JBool (ta_Available a))] ++ optional_member "reason" (JStr <$> ta_Reason a)).

Definition capabilities_json (c : RecordCapabilities) : json :=
  JObj [("writableFields", strings_json (rcap_WritableFields c)); ("canUpdate", JBool (rcap_CanUpdate c));
        ("canDelete", JBool (rcap_CanDelete c)); ("transitions", JArr (map availability_json (rcap_Transitions c)))].

Definition into_bool (cur : bool * bool) (v : json) : bool * bool :=
  match v with JBool b => (b, cur.2) | JNull => cur | _ => (cur.1, true) end.

Definition availability_step (st : TransitionAvailability * bool) (kv : string * json) : TransitionAvailability * bool :=
  let '(mkAvailability a v r, bad) := st in
  if key_matches "action" kv.1 then let '(a, bad) := into_string (a, bad) kv.2 in (mkAvailability a v r, bad)
  else if key_matches "available" kv.1 then let '(v, bad) := into_bool (v, bad) kv.2 in (mkAvailability a v r, bad)
  else if key_matches "reason" kv.1 then let '(r, bad) := into_pointer (r, bad) kv.2 in (mkAvailability a v r, bad)
  else st.

Definition unmarshal_availability (j : json) : option TransitionAvailability :=
  unmarshal_struct (mkAvailability "" false None) availability_step (Some j).

Definition into_list {A} (unmarshal : json -> option (list A)) (cur : list A * bool) (v : json) : list A * bool :=
  match unmarshal v with Some l => (l, cur.2) | None => (cur.1, true) end.

Definition unmarshal_availabilities (j : json) : option (list TransitionAvailability) :=
  match j with JArr l => mapM unmarshal_availability l | JNull => Some [] | _ => None end.

Definition capabilities_step (st : RecordCapabilities * bool) (kv : string * json) : RecordCapabilities * bool :=
  let '(mkCapabilities w u d t, bad) := st in
  if key_matches "writableFields" kv.1 then let '(w, bad) := into_list unmarshal_strings (w, bad) kv.2 in (mkCapabilities w u d t, bad)
  else if key_matches "canUpdate" kv.1 then let '(u, bad) := into_bool (u, bad) kv.2 in (mkCapabilities w u d t, bad)
  else if key_matches "canDelete" kv.1 then let '(d, bad) := into_bool (d, bad) kv.2 in (mkCapabilities w u d t, bad)
  else if key_matches "transitions" kv.1 then let '(t, bad) := into_list unmarshal_availabilities (t, bad) kv.2 in (mkCapabilities w u d t, bad)
  else st.

Definition unmarshal_capabilities (j : json) : option RecordCapabilities :=
  unmarshal_struct (mkCapabilities [] false false []) capabilities_step (Some j).

Section Dto.
Context `{!UuidLib}.
(** uuid.Nil and the zero time. *)
Variable nil_uuid : uuid.
Variable zero_time : Z.

Definition into_int32 (cur : Z * bool) (v : json) : Z * bool :=
  match v with
  | JNum lit => match ParseInt lit 32 with Some z => (z, cur.2) | None => (cur.1, true) end
  | JNull => cur
  | _ => (cur.1, true)
  end.

Definition into_time (cur : Z * bool) (v : json) : Z * bool :=
  match v with
  | JStr s => match parse_time s with Some t => (t, cur.2) | None => (cur.1, true) end
  | JNull => cur
  | _ => (cur.1, true)
  end.

Definition into_document (cur : JsonObject * bool) (v : json) : JsonObject * bool :=
  match v with
  | JObj l => (map_of_members l ∪ cur.1, cur.2)
  | JNull => (∅, cur.2)
  | _ => (cur.1, true)
  end.

Definition dto_step (st : RecordDto * bool) (kv : string * json) : RecordDto * bool :=
  let '(mkDto i e c s d v cr u rd, bad) := st in
  let '(k, j) := kv in
  if key_matches "id" k then let '(i, bad) := into_uuid (i, bad) j in (mkDto i e c s d v cr u rd, bad)
  else if key_matches "entity" k then let '(e, bad) := into_string (e, bad) j in (mkDto i e c s d v cr u rd, bad)
  else if key_matches "code" k then let '(c, bad) := into_pointer (c, bad) j in (mkDto i e c s d v cr u rd, bad)
  else if key_matches "status" k then let '(s, bad) := into_pointer (s, bad) j in (mkDto i e c s d v cr u rd, bad)
  else if key_matches "data" k then let '(d, bad) := into_document (d, bad) j in (mkDto i e c s d v cr u rd, bad)
  else if key_matches "version" k then let '(v, bad) := into_int32 (v, bad) j in (mkDto i e c s d v cr u rd, bad)
  else if key_matches "createdAt" k then let '(cr, bad) := into_time (cr, bad) j in (mkDto i e c s d v cr u rd, bad)
  else if key_matches "updatedAt" k then let '(u, bad) := into_time (u, bad) j in (mkDto i e c s d v cr u rd, bad)
  else if key_matches "relatedDisplay" k then
    match j with
    | JObj l => let '(rd, bad) := into_headers l (rd, bad) in (mkDto i e c s d v cr u rd, bad)
    | JNull => (mkDto i e c s d v cr u ∅, bad)
    | _ => (mkDto i e c s d v cr u rd, true)
    end
  else st.

Definition unmarshal_dto (j : json) : option RecordDto :=
  unmarshal_struct (mkDto nil_uuid "" None None ∅ 0 zero_time zero_time ∅) dto_step (Some j).
End Dto.

(** ** Requests and answers *)

Record ListRequest : Type := mkListRequest { lq_EntityName : string; lq_Query : option pbstruct }.
Record ListResponse : Type := mkListResponse { lp_Records : list pbstruct; lp_NextCursor : string; lp_HasMore : bool }.
Record GetRequest : Type := mkGetRequest { gq_EntityName : string; gq_Id : string }.
Record GetResponse : Type := mkGetResponse { gp_Record : option pbstruct; gp_Capabilities : option pbstruct }.
Record CreateRequest : Type := mkCreateRequest { cq_EntityName : string; cq_Data : option pbstruct; cq_Reason : option string }.
Record UpdateRequest : Type := mkUpdateRequest {
  uq_EntityName : string; uq_Id : string; uq_ExpectedVersion : Z; uq_Data : option pbstruct; uq_Reason : option string }.
Record TransitionRequest : Type := mkTransitionRequest {
  tq_EntityName : string; tq_Id : string; tq_Action : string; tq_ExpectedVersion : Z; tq_Data : option pbstruct; tq_Reason : option string }.
Record DeleteRequest : Type := mkDeleteRequest { dq_EntityName : string; dq_Id : string; dq_ExpectedVersion : Z; dq_Reason : option string }.

(** ** The interface crud.RecordBackend *)

Section Backends.
Context `{!UuidLib} {W : Type}.

Definition Call (T : Type) : Type := W -> result error (ServiceResult T) * W.

Record Backend : Type := mkBackendOf {
  bk_List : string -> ListInput -> RequestContext -> Call (list RecordDto);
  bk_Get : string -> uuid -> RequestContext -> Call GetResult;
  bk_GetMany : string -> list uuid -> RequestContext -> Call (list GetManyResult);
  bk_Create : string -> JsonObject -> RequestContext -> option string -> Call RecordDto;
  bk_Update : string -> uuid -> Z -> JsonObject -> RequestContext -> option string -> Call RecordDto;
  bk_Transition : string -> uuid -> string -> Z -> option JsonObject -> RequestContext -> option string -> Call RecordDto;
  bk_Delete : string -> uuid -> Z -> RequestContext -> option string -> Call RecordDto
}.
End Backends.
Arguments Call W T : clear implicits.
Arguments Backend {_} W : assert.

(** CrudService is such a backend. *)
Section Local.
Context `{UuidLib} `{!Postgres} {St C A : Type} `{!PolicyStore St} `{!Cache C} `{!AuditStore A}.

Definition as_call {B T} (wrap : B -> ServiceResult T) (h : Handler (World (C := C) (A := A)) B) : Call (World (C := C) (A := A)) T :=
  fun w =>
    match h w with
    | (Ok b, w') => (Ok (wrap b), w')
    | (Err (Refused e), w') => (Ok (ServiceErr e), w')
    | (Err (Failed e), w') => (Err e, w')
    | (Panic, w') => (Panic, w')
    end.

Definition just {T} (d : T) : ServiceResult T := ServiceOk d None.

Definition CrudBackend (s : CrudService (St := St)) (others : Database -> Database) : Backend (World (C := C) (A := A)) :=
  mkBackendOf
    (fun entity input rc => as_call (fun p => ServiceOk p.1 (Some p.2)) (List_ s entity input rc))
    (fun entity id rc => as_call just (Get s entity id rc))
    (fun entity ids rc => as_call just (GetMany s entity ids rc))
    (fun entity data rc reason => as_call just (Create s entity data rc reason))
    (fun entity id version data rc reason => as_call just (Update s others entity id version data rc reason))
    (fun entity id action version data rc reason => as_call just (Transition s others entity id action version data rc reason))
    (fun entity id version rc reason => as_call just (Delete s others entity id version rc reason)).
End Local.

(** ** The server (service.go) *)

Section Server.
Context `{!UuidLib} `{!Conversions} `{!CursorText} {W : Type}.
Variable backend : Backend W.
(** The authorization metadata of the request. *)
Variable auth : option string -> GrpcError + RequestContext.
Variable range : list (string * json) -> list (string * json).

Definition Method (R : Type) : Type := W -> result GrpcError R * W.

Definition internalError : GrpcError := status_Error Internal "internal server error".

Definition parse_id (id : string) : result GrpcError uuid :=
  match uuid_Parse id with Some u => Ok u | None => Err (status_Error InvalidArgument "`id` must be a UUID") end.

Definition authenticated (header : option string) : result GrpcError RequestContext :=
  match auth header with inl e => Err e | inr rc => Ok rc end.

(** A method whose checks pass calls the backend; a refusal goes out with its
    details, any other error as an internal one. *)
Definition method {T R} (checks : result GrpcError (Call W T)) (encode : T -> option PageInfo -> option R) : Method R :=
  fun w =>
    match checks with
    | Err e => (Err e, w)
    | Panic => (Panic, w)
    | Ok call =>
      match call w with
      | (Ok (ServiceOk data page), w') => (match encode data page with Some r => Ok r | None => Err internalError end, w')
      | (Ok (ServiceErr e), w') => (Err (errorToStatus e), w')
      | (Err _, w') => (Err internalError, w')
      | (Panic, w') => (Panic, w')
      end
    end.

Definition record_struct (d : RecordDto) : option pbstruct := ValueToStruct (dto_json d).

Definition list_response (records : list RecordDto) (page : option PageInfo) : option ListResponse :=
  match mapM record_struct records with
  | None => None
  | Some structs =>
    match page with
    | Some (mkPage _ (Some c)) => Some (mkListResponse structs (encode_text c) true)
    | _ => Some (mkListResponse structs "" false)
    end
  end.

Definition record_service_List (header : option string) (req : ListRequest) : Method ListResponse :=
  method (let! rc := authenticated header in
          match listInputFromQuery range (StructToJSON (lq_Query req)) with
          | Ok input => Ok (bk_List backend (lq_EntityName req) input rc)
          | Err m => Err (status_Error InvalidArgument m)
          | Panic => Panic
          end) list_response.

Definition get_response (g : GetResult) (_ : option PageInfo) : option GetResponse :=
  match record_struct (gr_Record g), ValueToStruct (capabilities_json (gr_Capabilities g)) with
  | Some r, Some c => Some (mkGetResponse (Some r) (Some c))
  | _, _ => None
  end.

Definition record_service_Get (header : option string) (req : GetRequest) : Method GetResponse :=
  method (let! rc := authenticated header in
          let! id := parse_id (gq_Id req) in
          Ok (bk_Get backend (gq_EntityName req) id rc)) get_response.

(** RecordResponse: its one field. *)
Definition record_response (d : RecordDto) (_ : option PageInfo) : option (option pbstruct) := Some <$> record_struct d.

Definition request_data (s : option pbstruct) : result GrpcError JsonObject :=
  match StructToJSONObject s with Some d => Ok d | None => Err (status_Error InvalidArgument "`data` must be an object") end.

Definition record_service_Create (header : option string) (req : CreateRequest) : Method (option pbstruct) :=
  method (let! rc := authenticated header in
          let! data := request_data (cq_Data req) in
          Ok (bk_Create backend (cq_EntityName req) data rc (cq_Reason req))) record_response.

Definition record_service_Update (header : option string) (req : UpdateRequest) : Method (option pbstruct) :=
  method (let! rc := authenticated header in
          let! id := parse_id (uq_Id req) in
          let! data := request_data (uq_Data req) in
          Ok (bk_Update backend (uq_EntityName req) id (uq_ExpectedVersion req) data rc (uq_Reason req))) record_response.

(** The error of the conversion is dropped: the data is then nil. *)
Definition record_service_Transition (header : option string) (req : TransitionRequest) : Method (option pbstruct) :=
  method (let! rc := authenticated header in
          let! id := parse_id (tq_Id req) in
          let data := match tq_Data req with Some s => StructToJSONObject (Some s) | None => None end in
          Ok (bk_Transition backend (tq_EntityName req) id (tq_Action req) (tq_ExpectedVersion req) data rc (tq_Reason req)))
    record_response.

Definition record_service_Delete (header : option string) (req : DeleteRequest) : Method (option pbstruct) :=
  method (let! rc := authenticated header in
          let! id := parse_id (dq_Id req) in
          Ok (bk_Delete backend (dq_EntityName req) id (dq_ExpectedVersion req) rc (dq_Reason req))) record_response.
End Server.

(** ** The client (client.go) *)

Definition pickToken (rc : RequestContext) (serviceToken : string) : string :=
  if String.eqb (rc_ForwardedBearerToken rc) "" then serviceToken else rc_ForwardedBearerToken rc.

(** The header outgoingContext attaches. *)
Definition outgoing_header (rc : RequestContext) (serviceToken : string) : string := "Bearer " +:+ pickToken rc serviceToken.

Definition http_status_of (code : Code) : Z :=
  match code with
  | InvalidArgument => 400
  | Unauthenticated => 401
  | PermissionDenied => 403
  | NotFound => 404
  | Aborted => 409
  | Internal | Unavailable => 502
  end.

Definition derefOr (s : option string) (d : string) : string := default d s.

Definition statusToServiceErr (e : GrpcError) : ServiceError :=
  match errorDetailsFromTrailer (ge_Details e) with
  | Some d =>
    match se_FieldErrors d with
    | Some fe => ResultErrWithMessageAndFieldErrors (se_Status d) (se_ErrorCode d) (derefOr (se_Message d) (se_ErrorCode d)) fe
    | None =>
      match se_Message d with
      | Some m => ResultErrWithMessage (se_Status d) (se_ErrorCode d) m
      | None => ResultErr (se_Status d) (se_ErrorCode d)
      end
    end
  | None => ResultErrWithMessage (http_status_of (ge_Code e)) "upstream_error" (ge_Message e)
  end.

(** What becomes of a call: it arrives and is answered, fails before the server has
    it, or its answer is lost. *)
Inductive link : Type := Up | Refuses (e : GrpcError) | Drops (e : GrpcError).

Definition connection_lost : GrpcError := status_Error Unavailable "error reading from server: EOF".

Section Client.
Context `{!UuidLib} `{!Conversions} `{!CursorText} {W : Type}.
Variable backend : Backend W.
Variable auth : option string -> GrpcError + RequestContext.
Variable range : list (string * json) -> list (string * json).
Variable nil_uuid : uuid.
Variable zero_time : Z.
Variable serviceToken : string.
Variable conn : link.

(** One RPC: an error of any kind is a refusal for the caller. *)
Definition rpc {R T} (m : Method (W := W) R) (decode : R -> result error (ServiceResult T)) : Call W T :=
  fun w =>
    let refused e := Ok (ServiceErr (statusToServiceErr e)) in
    match conn with
    | Refuses e => (refused e, w)
    | Drops e => (refused e, snd (m w))
    | Up =>
      match m w with
      | (Ok r, w') => (decode r, w')
      | (Err e, w') => (refused e, w')
      | (Panic, w') => (refused connection_lost, w')
      end
    end.

Definition deserializeRecord (s : pbstruct) : result error RecordDto :=
  match StructToValue (Some s) (unmarshal_dto nil_uuid zero_time) with
  | Some d => Ok d
  | None => Err "upstream record did not match RecordDto shape"
  end.

Definition deserializeCapabilities (s : pbstruct) : result error RecordCapabilities :=
  match StructToValue (Some s) unmarshal_capabilities with
  | Some c => Ok c
  | None => Err "upstream capabilities did not match RecordCapabilities shape"
  end.

Definition header_for (rc : RequestContext) : option string := Some (outgoing_header rc serviceToken).

Definition decode_list (limit : Z) (r : ListResponse) : result error (ServiceResult (list RecordDto)) :=
  let! records := mapR deserializeRecord (lp_Records r) in
  let nextCursor := if String.eqb (lp_NextCursor r) "" then None else decode_text (lp_NextCursor r) in
  Ok (ServiceOk records (Some (mkPage limit nextCursor))).

Definition grpc_List (entity : string) (input : ListInput) (rc : RequestContext) : Call W (list RecordDto) :=
  rpc (record_service_List backend auth range (header_for rc) (mkListRequest entity (Some (JSONToStruct (listInputToQuery input)))))
    (decode_list (li_Limit input)).

Definition decode_get (r : GetResponse) : result error (ServiceResult GetResult) :=
  match gp_Record r, gp_Capabilities r with
  | None, _ => Err "upstream get response missing record"
  | _, None => Err "upstream get response missing capabilities"
  | Some rec, Some caps =>
    let! record := deserializeRecord rec in
    let! capabilities := deserializeCapabilities caps in
    Ok (ServiceOk (mkGetResult record capabilities) None)
  end.

Definition grpc_Get (entity : string) (id : uuid) (rc : RequestContext) : Call W GetResult :=
  rpc (record_service_Get backend auth (header_for rc) (mkGetRequest entity (uuid_String id))) decode_get.

(** One Get after the other; one that is refused is left out. *)
Fixpoint grpc_GetMany_loop (entity : string) (ids : list uuid) (rc : RequestContext) (results : list GetManyResult)
  : Call W (list GetManyResult) :=
  fun w =>
    match ids with
    | [] => (Ok (ServiceOk results None), w)
    | id :: ids' =>
      match grpc_Get entity id rc w with
      | (Ok (ServiceOk g _), w') =>
        grpc_GetMany_loop entity ids' rc (results ++ [mkGetMany id (gr_Record g) (gr_Capabilities g)]) w'
      | (Ok (ServiceErr _), w') => grpc_GetMany_loop entity ids' rc results w'
      | (Err e, w') => (Err e, w')
      | (Panic, w') => (Panic, w')
      end
    end.

Definition grpc_GetMany (entity : string) (ids : list uuid) (rc : RequestContext) : Call W (list GetManyResult) :=
  grpc_GetMany_loop entity ids rc [].

Definition decode_record (what : string) (r : option pbstruct) : result error (ServiceResult RecordDto) :=
  match r with
  | None => Err ("upstream " +:+ what +:+ " response missing record")
  | Some s => let! d := deserializeRecord s in Ok (ServiceOk d None)
  end.

(** Each raw value decoded with UseNumber. *)
Definition rawObjectToAny (data : JsonObject) : json := JObj (map (fun kv => (kv.1, normal kv.2)) (sorted_members data)).

Definition grpc_Create (entity : string) (data : JsonObject) (rc : RequestContext) (reason : option string) : Call W RecordDto :=
  rpc (record_service_Create backend auth (header_for rc) (mkCreateRequest entity (Some (JSONToStruct (rawObjectToAny data))) reason))
    (decode_record "create").

Definition grpc_Update (entity : string) (id : uuid) (expectedVersion : Z) (data : JsonObject) (rc : RequestContext)
    (reason : option string) : Call W RecordDto :=
  rpc (record_service_Update backend auth (header_for rc)
         (mkUpdateRequest entity (uuid_String id) expectedVersion (Some (JSONToStruct (rawObjectToAny data))) reason))
    (decode_record "update").

Definition grpc_Transition (entity : string) (id : uuid) (action : string) (expectedVersion : Z) (data : option JsonObject)
    (rc : RequestContext) (reason : option string) : Call W RecordDto :=
  rpc (record_service_Transition backend auth (header_for rc)
         (mkTransitionRequest entity (uuid_String id) action expectedVersion ((fun d => JSONToStruct (rawObjectToAny d)) <$> data) reason))
    (decode_record "transition").

Definition grpc_Delete (entity : string) (id : uuid) (expectedVersion : Z) (rc : RequestContext) (reason : option string)
  : Call W RecordDto :=
  rpc (record_service_Delete backend auth (header_for rc) (mkDeleteRequest entity (uuid_String id) expectedVersion reason))
    (decode_record "delete").

Definition GrpcBackend : Backend W :=
  mkBackendOf grpc_List grpc_Get grpc_GetMany grpc_Create grpc_Update grpc_Transition grpc_Delete.
End Client.
