(* ===== verification/GrpcProps.v ===== *)
(** What a record loses on the way over gRPC: nothing but the layout of its
    documents and the numbers a float64 does not hold. A remote backend answers as
    the backend behind it. *)
From Stdlib Require Import SpecFloat.
From S2P Require Import Prelude GoStrings GoText Json Floats Numbers Condition Context Uuid Evaluate Snapshot PermissionService PolicyStore Metadata Schema Router Payload Workflow AuditTrail Sql ConditionSql Jql Planner Records Times Crud CrudOutcomes CrudProps CrudState CrudReads Aggregate Authn Cron Outbound Wire Grpc.

Open Scope string_scope.
Open Scope list_scope.

(** ** Objects up to the order of their members *)

Lemma fold_insert_perm {A} (l : list (string * A)) :
  NoDup l.*1 -> fold_left (fun acc kv => assoc_insert kv.1 kv.2 acc) l [] ≡ₚ l.
Proof.
  intros Hnd. assert (Hp : rev l ≡ₚ l) by (symmetry; apply Permutation_rev).
  rewrite <- fold_left_rev_right, (fold_assoc_insert_perm (rev l)); [done|]. by rewrite Hp.
Qed.

Lemma assoc_insert_forall {A} (P : A -> Prop) k v l :
  P v -> Forall (fun kv : string * A => P kv.2) l -> Forall (fun kv => P kv.2) (assoc_insert k v l).
Proof.
  intros Hv. induction 1 as [|[k' v'] l Hp Hl IH]; cbn [assoc_insert]; [by repeat constructor|].
  destruct (String.compare k k'); repeat constructor; done.
Qed.

Lemma fold_insert_forall {A} (P : A -> Prop) (l acc : list (string * A)) :
  Forall (fun kv => P kv.2) l -> Forall (fun kv => P kv.2) acc ->
  Forall (fun kv => P kv.2) (fold_left (fun acc kv => assoc_insert kv.1 kv.2 acc) l acc).
Proof.
  revert acc. induction l as [|[k v] l IH]; intros acc Hl Ha; [done|]. apply Forall_cons in Hl as [Hv Hl]. simpl.
  apply IH; [done|]. by apply assoc_insert_forall.
Qed.

(** ** Numbers *)

Section Numbers.
Context `{!Conversions}.

(** A number literal that comes back as it was. *)
Definition exact_literal (lit : string) : Prop :=
  is_Some (parse_number lit) /\ jsonNumberFromFloat64 (Number_Float64 lit) = lit.

Fixpoint exact (j : json) : Prop :=
  match j with
  | JNum lit => exact_literal lit
  | JArr l => foldr (fun j P => exact j /\ P) True l
  | JObj l => foldr (fun kv P => exact kv.2 /\ P) True l
  | _ => True
  end.

Lemma exact_list l : exact (JArr l) <-> Forall exact l.
Proof. simpl. induction l as [|j l IH]; simpl; [by split; [constructor|]|]. rewrite IH, Forall_cons. done. Qed.

Lemma exact_members l : exact (JObj l) <-> Forall (fun kv => exact kv.2) l.
Proof. simpl. induction l as [|[k j] l IH]; simpl; [by split; [constructor|]|]. rewrite IH, Forall_cons. done. Qed.

Lemma int_text_back f z : int_value f = Some z -> in_bits 64 z = true -> jsonNumberFromFloat64 f = FormatInt z.
Proof.
  intros Hf Hz. unfold jsonNumberFromFloat64, to_int64. rewrite Hf, Hz. unfold in_bits in Hz.
  apply andb_true_iff in Hz as [H1%Z.leb_le H2%Z.ltb_lt].
  assert ((- 2 ^ 63 <=? z)%Z && (z <=? 2 ^ 63)%Z = true) as -> by (rewrite andb_true_iff, !Z.leb_le; lia). done.
Qed.

(** Every integer of at most 53 bits comes back. *)
Lemma small_int_exact z : (Z.abs z <= 2 ^ 53)%Z -> exact_literal (FormatInt z).
Proof.
  intros Hz. split; [rewrite parse_number_FormatInt; eauto|].
  destruct (f64_of_small_int z Hz) as (f & Hf & Hv). unfold Number_Float64. rewrite parse_number_FormatInt.
  unfold f64_of_literal in Hf. rewrite parse_number_FormatInt in Hf. rewrite Hf.
  apply int_text_back; [done|]. unfold in_bits. rewrite andb_true_iff, Z.leb_le, Z.ltb_lt. lia.
Qed.

Lemma exact_valid j : exact j -> numbers_valid j = true.
Proof.
  induction j as [| | | |l IH|l IH] using json_nested_ind; try done.
  - intros [[d Hd] _]. cbn. by rewrite Hd.
  - rewrite exact_list. intros He. cbn. apply forallb_forall. intros x Hx%list_elem_of_In. rewrite Forall_forall in IH, He. auto.
  - rewrite exact_members. intros He. cbn. apply forallb_forall. intros x Hx%list_elem_of_In. rewrite Forall_forall in IH, He. auto.
Qed.

(** The document comes back from its Struct. *)
Lemma pb_roundtrip j : exact j -> pbValueToJSON (jsonToPbValue j) = j.
Proof.
  induction j as [| | | |l IH|l IH] using json_nested_ind; try done.
  - intros [_ He]. cbn. by rewrite He.
  - rewrite exact_list. intros He. cbn. f_equal. rewrite map_map. induction l as [|j l IHl]; [done|].
    apply Forall_cons in IH as [Hj IH]. apply Forall_cons in He as [Hje He]. simpl. by rewrite Hj, IHl.
  - rewrite exact_members. intros He. cbn. f_equal. rewrite map_map. induction l as [|[k j] l IHl]; [done|].
    apply Forall_cons in IH as [Hj IH]. apply Forall_cons in He as [Hje He]. simpl in *. by rewrite Hj, IHl.
Qed.

Lemma exact_normal j : exact j -> exact (normal j).
Proof.
  induction j as [| | | |l IH|l IH] using json_nested_ind; try done.
  - cbn [normal]. rewrite !exact_list. intros He. rewrite Forall_map. rewrite Forall_forall in *. auto.
  - cbn [normal]. rewrite !exact_members. intros He. apply (fold_insert_forall exact); [|constructor].
    rewrite Forall_map. cbn. rewrite Forall_forall in *. auto.
Qed.

(** A document sent as a Struct is read from its normal form. *)
Lemma struct_roundtrip {A} l (unmarshal : json -> option A) :
  exact (JObj l) -> StructToValue (ValueToStruct (JObj l)) unmarshal = unmarshal (normal (JObj l)).
Proof.
  intros He. apply exact_normal in He. cbn [ValueToStruct]. unfold StructToValue, marshal_any.
  assert (Hb : JObj (StructToJSON (Some (JSONToStruct (normal (JObj l))))) = normal (JObj l)).
  { pose proof (pb_roundtrip _ He) as Hr. exact Hr. }
  rewrite Hb, exact_valid by done. done.
Qed.
End Numbers.

(** ** Maps from the members of an object *)

Lemma map_of_perm (l : list (string * json)) (m : gmap string json) : l ≡ₚ map_to_list m -> map_of_members l = m.
Proof.
  intros Hl. rewrite map_of_members_list_to_map. rewrite <- (list_to_map_to_list m). apply list_to_map_proper.
  - assert (Hr : rev l ≡ₚ map_to_list m) by (rewrite <- Permutation_rev; done). rewrite Hr. apply NoDup_fst_map_to_list.
  - by rewrite <- Permutation_rev.
Qed.

(** The normal form of a map is the map of the normal forms. *)
Lemma map_of_normal (m : gmap string json) :
  map_of_members (fold_left (fun acc kv => assoc_insert kv.1 kv.2 acc) (map (fun kv => (kv.1, normal kv.2)) (sorted_members m)) [])
  = normal <$> m.
Proof.
  apply map_of_perm. rewrite map_to_list_fmap.
  assert (Hp : map (fun kv => (kv.1, normal kv.2)) (sorted_members m) ≡ₚ prod_map id normal <$> map_to_list m).
  { rewrite <- sorted_members_perm. unfold fmap. apply Permutation_refl'. apply map_ext. by intros []. }
  rewrite fold_insert_perm; [done|]. rewrite Hp, <- list_fmap_compose. apply NoDup_fst_map_to_list.
Qed.

Lemma into_headers_strings l m b :
  into_headers (map (fun kv => (kv.1, JStr kv.2)) l) (m, b) = (fold_left (fun m kv => <[kv.1 := kv.2]> m) l m, b).
Proof. revert m. induction l as [|[k v] l IH]; intros m; [done|]. cbn. apply IH. Qed.

Lemma fold_left_insert_perm {A} (l : list (string * A)) (m : gmap string A) :
  l ≡ₚ map_to_list m -> fold_left (fun m kv => <[kv.1 := kv.2]> m) l ∅ = m.
Proof.
  intros Hl. rewrite <- fold_left_rev_right.
  assert (He : foldr (fun kv m => <[kv.1 := kv.2]> m) (∅ : gmap string A) (rev l) = list_to_map (rev l)).
  { induction (rev l) as [|[k v] r IH]; simpl; [done|]. by rewrite <- IH. }
  rewrite He. assert (Hr : rev l ≡ₚ map_to_list m) by (rewrite <- Permutation_rev; done).
  rewrite <- (list_to_map_to_list m). apply list_to_map_proper; [|done]. rewrite Hr. apply NoDup_fst_map_to_list.
Qed.

(** The members of a map of strings, in normal form. *)
Lemma headers_of_normal (m : gmap string string) :
  into_headers (fold_left (fun acc kv => assoc_insert kv.1 kv.2 acc)
                  (map (fun kv => (kv.1, normal kv.2)) (map (fun kv => (kv.1, JStr kv.2)) (sorted_members m))) []) (∅, false) = (m, false).
Proof.
  set (l := map (fun kv => (kv.1, normal kv.2)) (map (fun kv => (kv.1, JStr kv.2)) (sorted_members m))).
  assert (Hp : fold_left (fun acc kv => assoc_insert kv.1 kv.2 acc) l [] ≡ₚ map (fun kv => (kv.1, JStr kv.2)) (map_to_list m)).
  { rewrite fold_insert_perm.
    - unfold l. rewrite map_map. cbn [fst snd normal]. apply Permutation_map, sorted_members_perm.
    - unfold l. rewrite map_map. cbn [fst snd normal]. change (NoDup (map fst (map (fun kv => (kv.1, JStr kv.2)) (sorted_members m)))).
      rewrite map_map. cbn [fst]. change (NoDup (sorted_members m).*1). rewrite sorted_members_perm. apply NoDup_fst_map_to_list. }
  apply Permutation_map_inv in Hp as (l' & He & Hl').
  rewrite He, into_headers_strings, (fold_left_insert_perm l' m); [done|]. by symmetry.
Qed.

(** ** Records *)

Section Dto.
Context `{!UuidLib} `{!UuidLaws _} `{!Conversions}.
Variable nil_uuid : uuid.
Variable zero_time : Z.

(** The record with its documents in normal form. *)
Definition canonical (d : RecordDto) : RecordDto :=
  mkDto (rd_ID d) (rd_Entity d) (rd_Code d) (rd_Status d) (normal <$> rd_Data d) (rd_Version d) (rd_CreatedAt d) (rd_UpdatedAt d)
    (rd_RelatedDisplay d).

(** A record whose numbers a float64 holds. *)
Record carried (d : RecordDto) : Prop := {
  ca_data : map_Forall (fun _ j => exact j) (rd_Data d);
  ca_version : in_bits 32 (rd_Version d) = true;
  ca_created : printable_time (rd_CreatedAt d);
  ca_updated : printable_time (rd_UpdatedAt d)
}.

Lemma exact_map (m : JsonObject) : map_Forall (fun _ j => exact j) m -> exact (marshal_map m).
Proof.
  intros Hm. unfold marshal_map. rewrite exact_members, sorted_members_perm. apply Forall_forall. intros [k j] Hkj.
  apply elem_of_map_to_list in Hkj. exact (Hm k j Hkj).
Qed.

Lemma exact_strings l : exact (JObj (map (fun kv => (kv.1, JStr kv.2)) l)).
Proof. rewrite exact_members, Forall_map. apply Forall_forall. by intros [k s] _. Qed.

Lemma exact_option_string o : exact (opt_string_json o).
Proof. by destruct o. Qed.

Lemma version_exact z : in_bits 32 z = true -> exact_literal (FormatInt z).
Proof. intros Hz. apply small_int_exact. unfold in_bits in Hz. apply andb_true_iff in Hz as [Hlo%Z.leb_le Hhi%Z.ltb_lt]. lia. Qed.

Lemma dto_exact d : carried d -> exact (dto_json d).
Proof.
  intros []. unfold dto_json. rewrite exact_members. apply Forall_app. split.
  - repeat apply Forall_cons_2; try apply Forall_nil_2; cbn [snd]; try done; auto using exact_option_string, exact_map.
    by apply version_exact.
  - destruct (sorted_members (rd_RelatedDisplay d)); [constructor|]. apply Forall_singleton. apply exact_strings.
Qed.

Lemma sorted_members_nil {A} (m : gmap string A) : sorted_members m = [] -> m = ∅.
Proof. intros Hs. apply map_to_list_empty_iff. pose proof (sorted_members_perm m) as Hp. rewrite Hs in Hp. by apply Permutation_nil in Hp. Qed.

(** What each member of the document sets. *)
Lemma dto_members i e c s d v cr u rd bad j :
  let st := (mkDto i e c s d v cr u rd, bad) in
  dto_step st ("id", j) = (let '(x, bad) := into_uuid (i, bad) j in (mkDto x e c s d v cr u rd, bad)) /\
  dto_step st ("entity", j) = (let '(x, bad) := into_string (e, bad) j in (mkDto i x c s d v cr u rd, bad)) /\
  dto_step st ("code", j) = (let '(x, bad) := into_pointer (c, bad) j in (mkDto i e x s d v cr u rd, bad)) /\
  dto_step st ("status", j) = (let '(x, bad) := into_pointer (s, bad) j in (mkDto i e c x d v cr u rd, bad)) /\
  dto_step st ("data", j) = (let '(x, bad) := into_document (d, bad) j in (mkDto i e c s x v cr u rd, bad)) /\
  dto_step st ("version", j) = (let '(x, bad) := into_int32 (v, bad) j in (mkDto i e c s d x cr u rd, bad)) /\
  dto_step st ("createdAt", j) = (let '(x, bad) := into_time (cr, bad) j in (mkDto i e c s d v x u rd, bad)) /\
  dto_step st ("updatedAt", j) = (let '(x, bad) := into_time (u, bad) j in (mkDto i e c s d v cr x rd, bad)) /\
  dto_step st ("relatedDisplay", j) =
  match j with
  | JObj l => let '(rd, bad) := into_headers l (rd, bad) in (mkDto i e c s d v cr u rd, bad)
  | JNull => (mkDto i e c s d v cr u ∅, bad)
  | _ => (mkDto i e c s d v cr u rd, true)
  end.
Proof. repeat split. Qed.

Lemma into_pointer_option c cur bad : into_pointer (cur, bad) (normal (opt_string_json c)) = (c, bad).
Proof. by destruct c. Qed.

Lemma unmarshal_dto_normal d : carried d -> unmarshal_dto nil_uuid zero_time (normal (dto_json d)) = Some (canonical d).
Proof.
  intros []. unfold dto_json, marshal_map, uuid_json.
  pose proof dto_members as Hm. cbv zeta in Hm.
  assert (Hdoc : forall rest st, fold_left dto_step
    ([("code", normal (opt_string_json (rd_Code d))); ("createdAt", JStr (format_time (rd_CreatedAt d)));
      ("data", normal (JObj (sorted_members (rd_Data d)))); ("entity", JStr (rd_Entity d)); ("id", JStr (uuid_String (rd_ID d)))] ++ rest)
    (mkDto nil_uuid "" None None ∅ 0 zero_time zero_time ∅, st) =
    fold_left dto_step rest (mkDto (rd_ID d) (rd_Entity d) (rd_Code d) None (normal <$> rd_Data d) 0 (rd_CreatedAt d) zero_time ∅, st)).
  { intros rest st. cbn [app fold_left].
    destruct (Hm nil_uuid "" None None ∅ 0%Z zero_time zero_time ∅ st (normal (opt_string_json (rd_Code d)))) as (_ & _ & -> & _).
    rewrite into_pointer_option.
    edestruct Hm as (_ & _ & _ & _ & _ & _ & -> & _). cbn [into_time]. rewrite parse_format_time by done. cbn [snd].
    edestruct Hm as (_ & _ & _ & _ & -> & _). cbn [normal into_document fst snd]. rewrite map_of_normal, map_union_empty.
    edestruct Hm as (_ & -> & _). cbn [into_string snd].
    edestruct Hm as (-> & _). cbn [into_uuid]. rewrite uuid_parse_string. cbn [snd]. done. }
  assert (Hend : forall rd st, fold_left dto_step
    [("status", normal (opt_string_json (rd_Status d))); ("updatedAt", JStr (format_time (rd_UpdatedAt d)));
     ("version", JNum (FormatInt (rd_Version d)))]
    (mkDto (rd_ID d) (rd_Entity d) (rd_Code d) None (normal <$> rd_Data d) 0 (rd_CreatedAt d) zero_time rd, st) =
    (mkDto (rd_ID d) (rd_Entity d) (rd_Code d) (rd_Status d) (normal <$> rd_Data d) (rd_Version d) (rd_CreatedAt d) (rd_UpdatedAt d) rd, st)).
  { intros rd st. cbn [fold_left].
    edestruct Hm as (_ & _ & _ & -> & _). rewrite into_pointer_option.
    edestruct Hm as (_ & _ & _ & _ & _ & _ & _ & -> & _). cbn [into_time]. rewrite parse_format_time by done. cbn [snd].
    edestruct Hm as (_ & _ & _ & _ & _ & -> & _). cbn [into_int32]. rewrite ParseInt_FormatInt by done. done. }
  unfold unmarshal_dto, unmarshal_struct.
  destruct (sorted_members (rd_RelatedDisplay d)) as [|p l] eqn:Hrd.
  - apply sorted_members_nil in Hrd.
    match goal with |- match ?n with _ => _ end = _ => change n with (JObj
      ([("code", normal (opt_string_json (rd_Code d))); ("createdAt", JStr (format_time (rd_CreatedAt d)));
        ("data", normal (JObj (sorted_members (rd_Data d)))); ("entity", JStr (rd_Entity d)); ("id", JStr (uuid_String (rd_ID d)))] ++
       [("status", normal (opt_string_json (rd_Status d))); ("updatedAt", JStr (format_time (rd_UpdatedAt d)));
        ("version", JNum (FormatInt (rd_Version d)))])) end.
    cbv iota beta. rewrite Hdoc, Hend. unfold canonical. by rewrite Hrd.
  - set (disp := JObj (map (fun kv => (kv.1, JStr kv.2)) (p :: l))).
    match goal with |- match ?n with _ => _ end = _ => change n with (JObj
      ([("code", normal (opt_string_json (rd_Code d))); ("createdAt", JStr (format_time (rd_CreatedAt d)));
        ("data", normal (JObj (sorted_members (rd_Data d)))); ("entity", JStr (rd_Entity d)); ("id", JStr (uuid_String (rd_ID d)))] ++
       ("relatedDisplay", normal disp) ::
       [("status", normal (opt_string_json (rd_Status d))); ("updatedAt", JStr (format_time (rd_UpdatedAt d)));
        ("version", JNum (FormatInt (rd_Version d)))])) end.
    cbv iota beta. rewrite Hdoc. cbn [fold_left].
    edestruct Hm as (_ & _ & _ & _ & _ & _ & _ & _ & ->). unfold disp. cbn [normal]. rewrite <- Hrd, headers_of_normal.
    pose proof (Hend (rd_RelatedDisplay d) false) as He. cbn [fold_left] in He. by rewrite He.
Qed.

Lemma record_roundtrip d : carried d -> exists s, record_struct d = Some s /\ deserializeRecord nil_uuid zero_time s = Ok (canonical d).
Proof.
  intros Hd. pose proof (dto_exact d Hd) as He. pose proof (unmarshal_dto_normal d Hd) as Hu. unfold record_struct.
  unfold dto_json in *. set (l := _ ++ _) in *. eexists. split; [reflexivity|]. unfold deserializeRecord.
  pose proof (struct_roundtrip l (unmarshal_dto nil_uuid zero_time) He) as Hs. cbn [ValueToStruct] in Hs. by rewrite Hs, Hu.
Qed.
End Dto.

(** ** Capabilities *)

Lemma unmarshal_strings_json l : unmarshal_strings (strings_json l) = Some l.
Proof. unfold strings_json. cbn. induction l as [|s l IH]; [done|]. cbn. by rewrite IH. Qed.

Lemma normal_strings l : normal (strings_json l) = strings_json l.
Proof. unfold strings_json. cbn [normal]. by rewrite map_map. Qed.

Lemma mapM_unmarshal {A} (encode : A -> json) (decode : json -> option A) l :
  (forall a, decode (encode a) = Some a) -> mapM decode (map encode l) = Some l.
Proof. intros Hd. induction l as [|a l IH]; [done|]. cbn. by rewrite Hd, IH. Qed.

Lemma availability_exact `{!Conversions} a : exact (availability_json a).
Proof. by destruct a as [? ? []]. Qed.

Lemma unmarshal_availability_normal a : unmarshal_availability (normal (availability_json a)) = Some a.
Proof. by destruct a as [? ? []]. Qed.

Lemma capabilities_roundtrip `{!Conversions} c :
  exists s, ValueToStruct (capabilities_json c) = Some s /\ deserializeCapabilities s = Ok c.
Proof.
  unfold capabilities_json. set (l := [_; _; _; _]). eexists. split; [reflexivity|]. unfold deserializeCapabilities.
  assert (He : exact (JObj l)).
  { rewrite exact_members. repeat apply Forall_cons_2; try apply Forall_nil_2; cbn [snd]; try done.
    - unfold strings_json. rewrite exact_list, Forall_map. apply Forall_forall. done.
    - rewrite exact_list, Forall_map. apply Forall_forall. intros a _. apply availability_exact. }
  pose proof (struct_roundtrip l unmarshal_capabilities He) as Hs. cbn [ValueToStruct] in Hs. rewrite Hs.
  assert (Hw : unmarshal_strings (normal (strings_json (rcap_WritableFields c))) = Some (rcap_WritableFields c)).
  { by rewrite normal_strings, unmarshal_strings_json. }
  assert (Ht : unmarshal_availabilities (normal (JArr (map availability_json (rcap_Transitions c)))) = Some (rcap_Transitions c)).
  { cbn [normal unmarshal_availabilities]. rewrite map_map.
    apply (mapM_unmarshal (fun a => normal (availability_json a))). apply unmarshal_availability_normal. }
  assert (Hn : normal (JObj l) = JObj [("canDelete", JBool (rcap_CanDelete c)); ("canUpdate", JBool (rcap_CanUpdate c));
    ("transitions", normal (JArr (map availability_json (rcap_Transitions c))));
    ("writableFields", normal (strings_json (rcap_WritableFields c)))]) by done.
  rewrite Hn. unfold unmarshal_capabilities, unmarshal_struct. cbn [fold_left].
  assert (Hc : forall w u d t bad j,
    capabilities_step (mkCapabilities w u d t, bad) ("canDelete", j) = (let '(x, bad) := into_bool (d, bad) j in (mkCapabilities w u x t, bad)) /\
    capabilities_step (mkCapabilities w u d t, bad) ("canUpdate", j) = (let '(x, bad) := into_bool (u, bad) j in (mkCapabilities w x d t, bad)) /\
    capabilities_step (mkCapabilities w u d t, bad) ("transitions", j) = (let '(x, bad) := into_list unmarshal_availabilities (t, bad) j in (mkCapabilities w u d x, bad)) /\
    capabilities_step (mkCapabilities w u d t, bad) ("writableFields", j) = (let '(x, bad) := into_list unmarshal_strings (w, bad) j in (mkCapabilities x u d t, bad)))
    by (intros; repeat split).
  edestruct Hc as (-> & _). cbn [into_bool snd]. edestruct Hc as (_ & -> & _). cbn [into_bool snd].
  edestruct Hc as (_ & _ & -> & _). unfold into_list at 1. rewrite Ht. cbn [snd].
  edestruct Hc as (_ & _ & _ & ->). unfold into_list at 1. rewrite Hw. cbn [snd]. by destruct c.
Qed.

(** ** Errors *)

(** A refusal as it comes back: an empty map of field errors is dropped, and field
    errors without a message get the error code as one. *)
Definition restored (e : ServiceError) : ServiceError :=
  match se_FieldErrors e with
  | None => e
  | Some fe =>
    if decide (fe = ∅) then mkServiceError (se_Status e) (se_ErrorCode e) (se_Message e) None
    else mkServiceError (se_Status e) (se_ErrorCode e) (Some (default (se_ErrorCode e) (se_Message e))) (Some fe)
  end.

Lemma into_field_errors_all l m b :
  into_field_errors (map (fun kv => (kv.1, strings_json kv.2)) l) (m, b) = (fold_left (fun m kv => <[kv.1 := kv.2]> m) l m, b).
Proof.
  revert m. induction l as [|[k v] l IH]; intros m; [done|]. cbn [map into_field_errors fst snd].
  rewrite unmarshal_strings_json. cbn [fst snd]. apply IH.
Qed.

Definition http_status (z : Z) : Prop := (0 <= z < 2 ^ 16)%Z.

Lemma into_uint16_back z cur b : http_status z -> into_uint16 (cur, b) (JNum (FormatInt z)) = (z, b).
Proof.
  intros Hz. unfold http_status in Hz. cbn [into_uint16]. rewrite ParseInt_FormatInt; cycle 1.
  { unfold in_bits. rewrite andb_true_iff, Z.leb_le, Z.ltb_lt. lia. }
  assert ((0 <=? z)%Z && (z <? 2 ^ 16)%Z = true) as -> by (rewrite andb_true_iff, Z.leb_le, Z.ltb_lt; lia).
  assert (HasPrefix (FormatInt z) "-" = false) as ->; [|done].
  destruct z as [|p|p]; [done| |lia]. destruct (FormatInt_pos p) as (d & r & -> & Ht & _).
  unfold HasPrefix. by destruct (take_digits_unsigned _ _ _ Ht) as [_ ->].
Qed.

Lemma details_members s c m f bad j :
  let st := (mkServiceError s c m f, bad) in
  details_step st ("status", j) = (let '(x, bad) := into_uint16 (s, bad) j in (mkServiceError x c m f, bad)) /\
  details_step st ("error", j) = (let '(x, bad) := into_string (c, bad) j in (mkServiceError s x m f, bad)) /\
  details_step st ("message", j) = (let '(x, bad) := into_pointer (m, bad) j in (mkServiceError s c x f, bad)) /\
  details_step st ("fieldErrors", j) =
  match j with
  | JObj l => let '(fe, bad) := into_field_errors l (default ∅ f, bad) in (mkServiceError s c m (Some fe), bad)
  | JNull => (mkServiceError s c m None, bad)
  | _ => (mkServiceError s c m f, true)
  end.
Proof. repeat split. Qed.

Lemma details_back e : http_status (se_Status e) ->
  errorDetailsFromTrailer (Some (details_json e)) =
  Some (mkServiceError (se_Status e) (se_ErrorCode e) (se_Message e)
          (match se_FieldErrors e with Some fe => if decide (fe = ∅) then None else Some fe | None => None end)).
Proof.
  intros Hs. unfold errorDetailsFromTrailer, unmarshal_struct, details_json. pose proof details_members as Hm. cbv zeta in Hm.
  rewrite !fold_left_app. cbn [fold_left].
  edestruct Hm as (-> & _). rewrite into_uint16_back by done. edestruct Hm as (_ & -> & _). cbn [into_string snd].
  assert (Hmsg : fold_left details_step (optional_member "message" (JStr <$> se_Message e))
    (mkServiceError (se_Status e) (se_ErrorCode e) None None, false) =
    (mkServiceError (se_Status e) (se_ErrorCode e) (se_Message e) None, false)) by (by destruct (se_Message e)).
  rewrite Hmsg. destruct (se_FieldErrors e) as [fe|]; [|done]. destruct (sorted_members fe) as [|p l] eqn:Hfe.
  - apply sorted_members_nil in Hfe as ->. cbn [fold_left]. by rewrite decide_True.
  - cbn [fold_left]. edestruct Hm as (_ & _ & _ & ->). rewrite <- Hfe, into_field_errors_all. change (default ∅ None) with (∅ : FieldErrors).
    rewrite (fold_left_insert_perm _ fe (sorted_members_perm fe)). cbv iota beta. rewrite decide_False; [done|].
    intros ->. pose proof (sorted_members_perm (∅ : FieldErrors)) as Hp. rewrite Hfe, map_to_list_empty in Hp. by apply Permutation_nil_r in Hp.
Qed.

Lemma refusal_roundtrip e : http_status (se_Status e) -> statusToServiceErr (errorToStatus e) = restored e.
Proof.
  intros Hs. unfold statusToServiceErr, errorToStatus. cbn [ge_Details]. rewrite details_back by done. unfold restored.
  destruct e as [s c m [fe|]]; cbn [se_FieldErrors se_Status se_ErrorCode se_Message]; [|by destruct m].
  destruct (decide (fe = ∅)); [by destruct m|done].
Qed.

(** ** Lists *)

Section Lists.
Context `{!Conversions} `{!CursorText} `{!CursorLaws _}.
Variable range : list (string * json) -> list (string * json).
Hypothesis range_perm : forall l, range l ≡ₚ l.

Definition with_filters (input : ListInput) (filters : list (string * string)) : ListInput :=
  mkListInput (li_Limit input) (li_Sort input) filters (li_Cursor input) (li_ListView input) (li_JQL input).

Definition valid_limit (input : ListInput) : Prop := (0 < li_Limit input <= 200)%Z.

Definition filter_members (filters : list (string * string)) : list (string * json) :=
  fold_left (fun acc kv => assoc_insert kv.1 kv.2 acc) (map (fun kv => (kv.1, JStr kv.2)) filters) [].

Lemma filters_exact filters : exact (JObj (filter_members filters)).
Proof.
  rewrite exact_members. apply (fold_insert_forall exact); [|constructor]. apply exact_members, exact_strings.
Qed.

Lemma query_exact input : valid_limit input -> exact (listInputToQuery input).
Proof.
  intros Hl. unfold listInputToQuery, any_map. rewrite exact_members. apply (fold_insert_forall exact); [|constructor].
  assert (Ho : forall k o, Forall (fun kv => exact kv.2) (optional_member k (JStr <$> o))) by (by intros k []; repeat constructor).
  repeat apply Forall_app_2; auto. repeat apply Forall_cons_2; try apply Forall_nil_2; cbn [snd].
  - apply small_int_exact. unfold valid_limit in Hl. lia.
  - apply filters_exact.
Qed.

Definition query_members (input : ListInput) : list (string * json) :=
  match listInputToQuery input with JObj l => l | _ => [] end.

Lemma list_input_back input :
  valid_limit input ->
  listInputFromQuery range (StructToJSON (Some (JSONToStruct (listInputToQuery input)))) =
  Ok (with_filters input (map (fun kv => (kv.1, valueToFilterString kv.2)) (range (filter_members (li_Filters input))))).
Proof.
  intros Hl. pose proof (pb_roundtrip _ (query_exact input Hl)) as Hr.
  assert (Hq : StructToJSON (Some (JSONToStruct (listInputToQuery input))) = query_members input)
    by exact (f_equal (fun j => match j with JObj l => l | _ => [] end) Hr).
  rewrite Hq. clear Hr Hq. unfold valid_limit in Hl.
  assert (Hp : ParseInt (FormatInt (li_Limit input)) 64 = Some (li_Limit input)).
  { apply ParseInt_FormatInt. unfold in_bits. rewrite andb_true_iff, Z.leb_le, Z.ltb_lt. lia. }
  assert (Hb : (li_Limit input <=? 0)%Z || (200 <? li_Limit input)%Z = false).
  { apply orb_false_iff. rewrite Z.leb_gt, Z.ltb_ge. lia. }
  destruct input as [limit sort filters cursor view jql]. cbn [li_Limit li_Sort li_Filters li_Cursor li_ListView li_JQL with_filters] in *.
  unfold listInputFromQuery, GetI64, with_filters. cbn [li_Limit li_Sort li_Cursor li_ListView li_JQL].
  assert (Hcur : forall c, decode_text (cursor_text c) = c).
  { intros [c|]; cbn; [apply decode_encode_cursor|apply bad_cursor_decodes]. }
  assert (Hc : decode_text <$> GetStr (query_members (mkListInput limit sort filters cursor view jql)) "cursor" = cursor).
  { destruct cursor as [c|]; [|by destruct sort, view, jql].
    transitivity (Some (decode_text (cursor_text c))); [by destruct sort, view, jql|by rewrite Hcur]. }
  rewrite Hc. clear Hc Hcur.
  destruct sort as [s|], cursor as [c|], view as [v|], jql as [q|];
    match goal with |- context [any_member ?q "limit"] => change (any_member q "limit") with (Some (JNum (FormatInt limit))) end;
    cbv iota beta; rewrite Hp, Hb; reflexivity.
Qed.

Lemma filters_perm filters :
  NoDup filters.*1 -> map (fun kv => (kv.1, valueToFilterString kv.2)) (range (filter_members filters)) ≡ₚ filters.
Proof.
  intros Hnd. rewrite range_perm. unfold filter_members. rewrite fold_insert_perm.
  - rewrite map_map. cbn [fst snd valueToFilterString]. apply Permutation_refl'. rewrite <- (map_id filters) at 2.
    apply map_ext. by intros [].
  - change (NoDup (map fst (map (fun kv : string * string => (kv.1, JStr kv.2)) filters))). rewrite map_map. exact Hnd.
Qed.
End Lists.

(** ** The remote backend *)

Section Remote.
Context `{!UuidLib} `{!UuidLaws _} `{!Conversions} `{!CursorText} `{!CursorLaws _} {W : Type}.
Variable backend : Backend W.
Variable auth : option string -> GrpcError + RequestContext.
Variable range : list (string * json) -> list (string * json).
Hypothesis range_perm : forall l, range l ≡ₚ l.
Variable nil_uuid : uuid.
Variable zero_time : Z.
Variable serviceToken : string.

(** What the remote backend answers where the local one answers [r]. *)
Definition remote_answer {T} (canon : T -> T) (page : option PageInfo -> option PageInfo) (r : result error (ServiceResult T))
  : result error (ServiceResult T) :=
  match r with
  | Ok (ServiceOk d p) => Ok (ServiceOk (canon d) (page p))
  | Ok (ServiceErr e) => Ok (ServiceErr (restored e))
  | Err _ => Ok (ServiceErr (ResultErrWithMessage 502 "upstream_error" "internal server error"))
  | Panic => Ok (ServiceErr (ResultErrWithMessage 502 "upstream_error" "error reading from server: EOF"))
  end.

(** An answer that survives the way. *)
Definition answer_carried {T} (Q : T -> Prop) (r : result error (ServiceResult T)) : Prop :=
  match r with Ok (ServiceOk d _) => Q d | Ok (ServiceErr e) => http_status (se_Status e) | _ => True end.

(** The remote call is the local one: the same state, the same answer. *)
Definition same_call {T} (Q : T -> Prop) (canon : T -> T) (page : option PageInfo -> option PageInfo) (local remote : Call W T) : Prop :=
  forall w, answer_carried Q (fst (local w)) -> remote w = (remote_answer canon page (fst (local w)), snd (local w)).

Lemma rpc_same {T R} (Q : T -> Prop) canon page (checks : result GrpcError (Call W T)) (call : Call W T)
    (encode : T -> option PageInfo -> option R) decode :
  checks = Ok call ->
  (forall d p, Q d -> exists r, encode d p = Some r /\ decode r = Ok (ServiceOk (canon d) (page p))) ->
  same_call Q canon page call (rpc Up (method checks encode) decode).
Proof.
  intros -> Henc w Ha. unfold rpc, method. destruct (call w) as [[[d p|e]|e|] w']; cbn [fst snd] in *; [| |done|done].
  - destruct (Henc d p Ha) as (r & -> & ->). done.
  - cbn [remote_answer]. by rewrite refusal_roundtrip.
Qed.

Lemma data_back data :
  map_Forall (fun _ j => exact j) data -> StructToJSONObject (Some (JSONToStruct (rawObjectToAny data))) = Some (normal <$> data).
Proof.
  intros Hd. unfold rawObjectToAny. set (l := map (fun kv => (kv.1, normal kv.2)) (sorted_members data)).
  assert (He : exact (JObj l)).
  { apply exact_members. unfold l. rewrite Forall_map. cbn [snd]. pose proof (exact_map data Hd) as Hm. unfold marshal_map in Hm.
    rewrite exact_members in Hm. eapply Forall_impl; [exact Hm|]. intros kv. apply exact_normal. }
  unfold StructToJSONObject, StructToValue, marshal_any.
  assert (Hb : JObj (StructToJSON (Some (JSONToStruct (JObj l)))) = JObj l) by exact (pb_roundtrip _ He).
  rewrite Hb, exact_valid by done. cbn [unmarshal_map]. f_equal. apply map_of_perm. rewrite map_to_list_fmap. unfold l.
  rewrite <- sorted_members_perm. unfold fmap. apply Permutation_refl'. apply map_ext. by intros [].
Qed.

Definition no_page : option PageInfo -> option PageInfo := fun _ => None.
Definition page_of (limit : Z) (p : option PageInfo) : option PageInfo :=
  Some (mkPage limit (match p with Some pg => pi_NextCursor pg | None => None end)).
Definition canonical_get (g : GetResult) : GetResult := mkGetResult (canonical (gr_Record g)) (gr_Capabilities g).

Lemma record_answer what d p :
  carried d -> exists r, record_response d p = Some r /\ decode_record nil_uuid zero_time what r = Ok (ServiceOk (canonical d) (no_page p)).
Proof.
  intros Hd. destruct (record_roundtrip nil_uuid zero_time d Hd) as (s & Hs & Hr). unfold record_response. rewrite Hs.
  eexists. split; [reflexivity|]. cbn [decode_record]. by rewrite Hr.
Qed.

Lemma get_answer g p :
  carried (gr_Record g) -> exists r, get_response g p = Some r /\ decode_get nil_uuid zero_time r = Ok (ServiceOk (canonical_get g) (no_page p)).
Proof.
  intros Hd. destruct (record_roundtrip nil_uuid zero_time _ Hd) as (s & Hs & Hr).
  destruct (capabilities_roundtrip (gr_Capabilities g)) as (c & Hc & Hcr). unfold get_response. rewrite Hs, Hc.
  eexists. split; [reflexivity|]. cbn [decode_get gp_Record gp_Capabilities]. by rewrite Hr, Hcr.
Qed.

Lemma list_answer limit ds p :
  Forall carried ds ->
  exists r, list_response ds p = Some r /\ decode_list nil_uuid zero_time limit r = Ok (ServiceOk (map canonical ds) (page_of limit p)).
Proof.
  intros Hds. assert (Hs : exists ss, mapM record_struct ds = Some ss /\ mapR (deserializeRecord nil_uuid zero_time) ss = Ok (map canonical ds)).
  { induction Hds as [|d ds Hd _ (ss & IH1 & IH2)].
    - by exists [].
    - destruct (record_roundtrip nil_uuid zero_time d Hd) as (s & Hs & Hr). exists (s :: ss). split.
      + cbn [mapM]. rewrite Hs. cbn [mbind option_bind]. by rewrite IH1.
      + cbn [mapR]. rewrite Hr. cbn [rbind]. by rewrite IH2. }
  destruct Hs as (ss & Hs & Hr). unfold list_response. rewrite Hs. destruct p as [[l [c|]]|]; (eexists; split; [reflexivity|]);
    unfold decode_list; cbn [lp_Records lp_NextCursor]; rewrite Hr; cbn [rbind]; try done.
  destruct (String.eqb_spec (encode_text c) "") as [He|_]; [by destruct (cursor_not_empty c)|]. by rewrite decode_encode_cursor.
Qed.

Ltac step_call :=
  cbn [rbind fmap option_fmap option_map gq_EntityName gq_Id cq_EntityName cq_Data cq_Reason uq_EntityName uq_Id uq_ExpectedVersion uq_Data uq_Reason
       tq_EntityName tq_Id tq_Action tq_ExpectedVersion tq_Data tq_Reason dq_EntityName dq_Id dq_ExpectedVersion dq_Reason].

End Remote.

(** ** Examples *)

#[local] Existing Instance TestUuid.
#[local] Existing Instance test_Cache.

(** A text for every document. *)
Fixpoint json_tree (j : json) : gen_tree string :=
  match j with
  | JNull => GenNode 0 []
  | JBool b => GenNode (if b then 1 else 2) []
  | JNum l => GenNode 3 [GenLeaf l]
  | JStr s => GenNode 4 [GenLeaf s]
  | JArr l => GenNode 5 (map json_tree l)
  | JObj l => GenNode 6 (map (fun kv => GenNode 7 [GenLeaf kv.1; json_tree kv.2]) l)
  end.

Fixpoint tree_json (t : gen_tree string) : json :=
  match t with
  | GenNode 1 [] => JBool true
  | GenNode 2 [] => JBool false
  | GenNode 3 [GenLeaf l] => JNum l
  | GenNode 4 [GenLeaf s] => JStr s
  | GenNode 5 l => JArr (map tree_json l)
  | GenNode 6 l => JObj (map (fun t => match t with GenNode 7 [GenLeaf k; v] => (k, tree_json v) | _ => ("", JNull) end) l)
  | _ => JNull
  end.

Lemma tree_json_back j : tree_json (json_tree j) = j.
Proof.
  induction j as [|b|l|s|l IH|l IH] using json_nested_ind; [done|by destruct b|done|done| |].
  - cbn. f_equal. rewrite map_map. induction IH as [|j l Hj _ IHl]; [done|]. cbn. by rewrite Hj, IHl.
  - cbn. f_equal. rewrite map_map. induction IH as [|[k j] l Hj _ IHl]; [done|]. cbn in *. by rewrite Hj, IHl.
Qed.

Fixpoint bits_text (p : positive) : string :=
  match p with xH => "1" | xO p => String "0" (bits_text p) | xI p => String "i" (bits_text p) end.

Fixpoint text_bits (s : string) : option positive :=
  match s with
  | "1" => Some xH
  | String "0" s => xO <$> text_bits s
  | String "i" s => xI <$> text_bits s
  | _ => None
  end.

Lemma text_bits_back p : text_bits (bits_text p) = Some p.
Proof. induction p as [p IH|p IH|]; cbn; [|rewrite IH..|done]; [|done]. destruct (bits_text p) eqn:E; by rewrite IH. Qed.

Definition TestCursors : CursorText := {|
  encode_text j := bits_text (encode (json_tree j));
  decode_text s := p ← text_bits s; tree_json <$> decode p;
  bad_cursor := ""
|}.

#[export] Instance TestCursors_laws : CursorLaws TestCursors.
Proof.
  constructor; [|intros c; cbn; by destruct (encode _)|done].
  intros c. cbn. rewrite text_bits_back. cbn. rewrite decode_encode. cbn. by rewrite tree_json_back.
Qed.

Definition TestConversions : Conversions := {| int64_beyond _ := 0%Z; uint64_beyond _ := 0%Z |}.
#[local] Existing Instance TestConversions.
#[local] Existing Instance TestCursors.

Definition test_backend : Backend (World (C := test_cache) (A := AuditTable)) := CrudBackend test_service no_others.

Definition test_auth (header : option string) : GrpcError + RequestContext :=
  if bool_decide (header = Some "Bearer tok") then inr test_admin else inl (status_Error Unauthenticated "invalid or expired token").

Definition test_input : ListInput := mkListInput 30 None [("status", "draft")] None None None.


(** ** Where the two sides differ *)

Lemma FormatInt_inj a b : in_bits 128 a = true -> in_bits 128 b = true -> FormatInt a = FormatInt b -> a = b.
Proof. intros Ha Hb He. apply (f_equal (fun s => ParseInt s 128)) in He. rewrite !ParseInt_FormatInt in He by done. by injection He. Qed.

(** The number 2^63 does not come back as 9223372036854775808, whatever the
    conversion beyond the range of int64 gives: it passes the test against MaxInt64,
    which is 2^63 as a float64. *)
Lemma two_63_not_returned `{!Conversions} `{!ConversionLaws _} f :
  int_value f = Some (2 ^ 63)%Z -> jsonNumberFromFloat64 f <> FormatInt (2 ^ 63).
Proof.
  intros Hf. unfold jsonNumberFromFloat64. rewrite Hf. cbn [andb]. change (to_int64 f (2 ^ 63)) with (int64_beyond f).
  change ((- 2 ^ 63 <=? 2 ^ 63)%Z && (2 ^ 63 <=? 2 ^ 63)%Z) with true. cbv iota. pose proof (int64_in f) as Hi.
  unfold in_bits in Hi. rewrite andb_true_iff, Z.leb_le, Z.ltb_lt in Hi.
  intros He%FormatInt_inj; [|unfold in_bits; rewrite andb_true_iff, Z.leb_le, Z.ltb_lt; lia|done]. rewrite He in Hi. lia.
Qed.

(** A refusal with field errors and no message gets its code as the message. *)
Lemma message_restored_as_code :
  let refusal := ResultErrWithFieldErrors 422 "validation_failed" {[ "title" := ["is required"] ]} in
  se_Message refusal = None /\ se_Message (statusToServiceErr (errorToStatus refusal)) = Some "validation_failed".
Proof. split; [done|]. vm_compute. reflexivity. Qed.

Section Outages.
Context `{!UuidLib} `{!Conversions} `{!CursorText} {W : Type}.
Variable backend : Backend W.
Variable auth : option string -> GrpcError + RequestContext.
Variable nil_uuid : uuid.
Variable zero_time : Z.
Variable serviceToken : string.

(** When no call reaches the server, GetMany answers that every record is absent. *)
Lemma outage_reads_as_absence e entity ids rc w :
  grpc_GetMany backend auth nil_uuid zero_time serviceToken (Refuses e) entity ids rc w = (Ok (ServiceOk [] None), w).
Proof.
  unfold grpc_GetMany. generalize (@nil GetManyResult) as acc. induction ids as [|id ids IH]; intros acc; cbn [grpc_GetMany_loop]; [done|].
  change (grpc_Get _ _ _ _ _ _ _ _ _ _) with (@Ok error _ (@ServiceErr GetResult (statusToServiceErr e)), w). apply IH.
Qed.

(** A write whose answer is lost is refused although it was done. *)
Lemma lost_answer_is_done e entity data rc rc' reason d p w w' :
  auth (Some (outgoing_header rc serviceToken)) = inr rc' -> map_Forall (fun _ j => exact j) data ->
  bk_Create backend entity (normal <$> data) rc' reason w = (Ok (ServiceOk d p), w') ->
  grpc_Create backend auth nil_uuid zero_time serviceToken (Drops (status_Error Unavailable e)) entity data rc reason w
  = (Ok (ServiceErr (ResultErrWithMessage 502 "upstream_error" e)), w').
Proof.
  intros Ha Hd Hc. unfold grpc_Create, rpc. f_equal. unfold record_service_Create, method, authenticated, header_for. rewrite Ha.
  cbn [rbind cq_Data cq_EntityName cq_Reason]. unfold request_data. rewrite data_back by done. cbn [rbind]. rewrite Hc. done.
Qed.
End Outages.

(** A filter given twice is sent once, with its last value. *)
Lemma repeated_filter_sent_once :
  filter_members [("status", "draft"); ("status", "done")] = [("status", JStr "done")].
Proof. reflexivity. Qed.
