(* ===== verification/RestRecords.v ===== *)
(** Records over HTTP (src/go/httpserver/routes_records.go, errors.go and
    src/go/runtime/httperror.go): the error envelope, the list query, the bodies and
    the seven handlers with their routes.

    A request is the outcome of its authentication, the parameters of its path, its
    query as the entries of a map and the first JSON value of its body ([None] when
    none decodes). The handlers call a backend as in Grpc.v; a panic ends the request
    without a response. *)
From S2P Require Import Prelude GoStrings GoText Json Floats Numbers Condition Context Uuid Evaluate Snapshot PermissionService PolicyStore Metadata Schema Router Payload Workflow AuditTrail Sql ConditionSql Jql Planner Records Times Crud CrudOutcomes CrudProps CrudState CrudReads Aggregate Authn Cron Outbound Wire Grpc GrpcProps.

Open Scope string_scope.
Open Scope list_scope.

(** ** The error envelope (runtime/httperror.go) *)

Definition defaultMessage (errorCode : string) : string :=
  if String.eqb errorCode "entity_not_found" then "Entity not found."
  else if String.eqb errorCode "forbidden" then "You do not have permission to perform this action."
  else if String.eqb errorCode "validation_failed" then "Request validation failed."
  else if String.eqb errorCode "insert_failed" then "Failed to create the record."
  else if String.eqb errorCode "record_not_found" then "Record not found."
  else if String.eqb errorCode "version_conflict" then "The record was modified by someone else. Reload and try again."
  else if String.eqb errorCode "no_workflow" then "This entity has no workflow."
  else if String.eqb errorCode "invalid_transition" then "This transition is not valid from the record's current state."
  else if String.eqb errorCode "guard_failed" then "This transition is not allowed."
  else if String.eqb errorCode "invalid_cursor" then "The pagination cursor is invalid."
  else "Request failed.".

Record ErrorBody : Type := mkErrorBody { eb_Status : Z; eb_Code : string; eb_Message : string; eb_FieldErrors : option FieldErrors }.

Definition BuildServiceError (status : Z) (errorCode message : string) (fieldErrors : option FieldErrors) : ErrorBody :=
  mkErrorBody status errorCode (if String.eqb message "" then defaultMessage errorCode else message) fieldErrors.

Definition field_errors_member (fe : option FieldErrors) : list (string * json) :=
  match fe with
  | Some fe => match sorted_members fe with
               | [] => []
               | l => [("fieldErrors", JObj (map (fun kv => (kv.1, strings_json kv.2)) l))]
               end
  | None => []
  end.

Definition MarshalEnvelope (b : ErrorBody) : json :=
  JObj [("error", JObj ([("code", JStr (eb_Code b)); ("message", JStr (eb_Message b))] ++ field_errors_member (eb_FieldErrors b)))].

(** A response: its status and the document of its body. *)
Record Response : Type := mkResponse { rs_Status : Z; rs_Body : json }.

Definition ServiceErrorResponse (status : Z) (errorCode message : string) (fieldErrors : option FieldErrors) : Response :=
  mkResponse status (MarshalEnvelope (BuildServiceError status errorCode message fieldErrors)).

Definition InternalErrorResponse : Response :=
  mkResponse 500 (JObj [("error", JObj [("code", JStr "internal_error"); ("message", JStr "Internal server error.")])]).

(** ** errors.go *)

Definition writeServiceError := ServiceErrorResponse.
Definition writeInternalError (_ : error) : Response := InternalErrorResponse.

Definition writeRouterUnavailable (e : RouterFailure) : Response :=
  match e with
  | RouterError (ErrTenantSuspended | ErrTenantExpired) _ => writeServiceError 403 "tenant_unavailable" "" None
  | RouterError (ErrTenantMigrating | ErrTenantProvisioning) _ => writeServiceError 503 "tenant_unavailable" "" None
  | RouterError ErrTenantDeleted _ => writeServiceError 404 "tenant_not_found" "" None
  | RouterError ErrInvalidSchemaName _ | OtherFailure _ => writeInternalError (failure_text e)
  end.

Definition writeCrudServiceError (e : ServiceError) : Response :=
  writeServiceError (se_Status e) (se_ErrorCode e) (default "" (se_Message e)) (se_FieldErrors e).

(** authError.respond. *)
Definition auth_respond (e : authError) : Response :=
  let body code message := JObj [("error", JObj [("code", JStr code); ("message", JStr message)])] in
  match e with
  | Unauthorized m => mkResponse 401 (body "unauthorized" m)
  | ForbiddenError m => mkResponse 403 (body "forbidden" m)
  end.

(** ** The list query *)

Definition reservedQueryKeys : list string := ["limit"; "sort"; "cursor"; "listView"; "jql"].

Definition Values : Type := list (string * list string).

Definition firstValue (values : Values) (key : string) : string :=
  match List.find (fun kv => String.eqb kv.1 key) values with
  | Some (_, v :: _) => v
  | _ => ""
  end.

(** A value given and not empty. *)
Definition given (values : Values) (key : string) : option string :=
  let v := firstValue values key in if String.eqb v "" then None else Some v.

Definition filter_of (kv : string * list string) : list (string * string) :=
  if bool_decide (kv.1 ∈ reservedQueryKeys) then [] else match kv.2 with [] => [] | v :: _ => [(kv.1, v)] end.

Section ListQuery.
Context `{!CursorText}.
(** The order in which the entries of the map come. *)
Variable range : Values -> Values.

Definition parseListInput (values : Values) : Response + ListInput :=
  let build limit :=
    inr (mkListInput limit (given values "sort") (flat_map filter_of (range values)) (decode_text <$> given values "cursor")
           (given values "listView") (given values "jql")) in
  match given values "limit" with
  | None => build 30%Z
  | Some raw =>
    match ParseInt raw 64 with
    | Some n => if (n <=? 0)%Z || (200 <? n)%Z then inl (writeServiceError 400 "validation_failed" limit_error None) else build n
    | None => inl (writeServiceError 400 "validation_failed" limit_error None)
    end
  end.
End ListQuery.

(** ** Bodies *)

Definition into_object (cur : option JsonObject * bool) (v : json) : option JsonObject * bool :=
  match v with
  | JObj l => (Some (map_of_members l ∪ default ∅ cur.1), cur.2)
  | JNull => (None, cur.2)
  | _ => (cur.1, true)
  end.

(** recordBody, updateBody, deleteBody and transitionBody: a body without one of the
    members ignores it. *)
Record recordBody : Type := mkBody { rb_Version : Z; rb_Data : option JsonObject; rb_Reason : option string }.

Definition body_step (version data : bool) (st : recordBody * bool) (kv : string * json) : recordBody * bool :=
  let '(mkBody v d r, bad) := st in
  if version && key_matches "version" kv.1 then let '(v, bad) := into_int32 (v, bad) kv.2 in (mkBody v d r, bad)
  else if data && key_matches "data" kv.1 then let '(d, bad) := into_object (d, bad) kv.2 in (mkBody v d r, bad)
  else if key_matches "reason" kv.1 then let '(r, bad) := into_pointer (r, bad) kv.2 in (mkBody v d r, bad)
  else st.

Definition decode_body (version data : bool) (body : option json) : option recordBody :=
  unmarshal_struct (mkBody 0 None None) (body_step version data) body.

(** query.AggregateSpec has no tags: its members are named as its fields. *)
Definition into_strings (cur : list string * bool) (v : json) : list string * bool :=
  match unmarshal_strings v with Some l => (l, cur.2) | None => (cur.1, true) end.

Definition into_int64_pointer (cur : option Z * bool) (v : json) : option Z * bool :=
  match v with
  | JNum lit => match ParseInt lit 64 with Some z => (Some z, cur.2) | None => (cur.1, true) end
  | JNull => (None, cur.2)
  | _ => (cur.1, true)
  end.

Section SpecBody.
Variable range : list (string * string) -> list (string * string).

Definition spec_step (st : AggregateSpec * bool) (kv : string * json) : AggregateSpec * bool :=
  let '(mkSpec m g b t f s u l, bad) := st in
  let '(k, v) := kv in
  if key_matches "Metrics" k then let '(m, bad) := into_strings (m, bad) v in (mkSpec m g b t f s u l, bad)
  else if key_matches "GroupBy" k then let '(g, bad) := into_pointer (g, bad) v in (mkSpec m g b t f s u l, bad)
  else if key_matches "Bucket" k then let '(b, bad) := into_pointer (b, bad) v in (mkSpec m g b t f s u l, bad)
  else if key_matches "TimeField" k then let '(t, bad) := into_pointer (t, bad) v in (mkSpec m g b t f s u l, bad)
  else if key_matches "Filters" k then
    match v with
    | JObj members =>
      let '(fm, bad) := into_headers members (list_to_map f, bad) in (mkSpec m g b t (range (map_to_list fm)) s u l, bad)
    | JNull => (mkSpec m g b t [] s u l, bad)
    | _ => (mkSpec m g b t f s u l, true)
    end
  else if key_matches "Since" k then let '(s, bad) := into_pointer (s, bad) v in (mkSpec m g b t f s u l, bad)
  else if key_matches "Until" k then let '(u, bad) := into_pointer (u, bad) v in (mkSpec m g b t f s u l, bad)
  else if key_matches "Limit" k then let '(l, bad) := into_int64_pointer (l, bad) v in (mkSpec m g b t f s u l, bad)
  else st.

Definition decode_spec (body : option json) : option AggregateSpec :=
  unmarshal_struct (mkSpec [] None None None [] None None None) spec_step body.
End SpecBody.

(** ** The handlers *)

Record Request : Type := mkRequest {
  rq_Auth : authError + RequestContext;
  rq_Query : Values;
  rq_Body : option json
}.

Section Handlers.
Context `{!UuidLib} `{!CursorText} {W : Type}.
Variable crud : Backend W.
Variable aggregate : string -> AggregateSpec -> RequestContext -> Call W (list json).
Variable range : Values -> Values.
Variable range_filters : list (string * string) -> list (string * string).

Definition RestHandler : Type := W -> result error Response * W.

Definition answer (r : Response) : RestHandler := fun w => (Ok r, w).

Definition requireAuth (r : Request) (k : RequestContext -> RestHandler) : RestHandler :=
  match rq_Auth r with inl e => answer (auth_respond e) | inr rc => k rc end.

Definition with_id (raw : string) (k : uuid -> RestHandler) : RestHandler :=
  match uuid_Parse raw with
  | Some id => k id
  | None => answer (writeServiceError 404 "record_not_found" "" None)
  end.

Definition with_body {B} (code : string) (body : option B) (k : B -> RestHandler) : RestHandler :=
  match body with
  | Some b => k b
  | None => answer (writeServiceError 400 code "Invalid request body." None)
  end.

(** The shared tail: the answer of the service as a response. *)
Definition respond {T} (call : Call W T) (render : T -> option PageInfo -> Response) : RestHandler :=
  fun w =>
    match call w with
    | (Ok (ServiceOk data page), w') => (Ok (render data page), w')
    | (Ok (ServiceErr e), w') => (Ok (writeCrudServiceError e), w')
    | (Err e, w') => (Ok (writeInternalError e), w')
    | (Panic, w') => (Panic, w')
    end.

Definition data_body (j : json) : json := JObj [("data", j)].

Definition page_json (p : option PageInfo) : json :=
  match p with
  | None => JNull
  | Some pg => JObj [("limit", JNum (FormatInt (pi_Limit pg))); ("nextCursor", opt_string_json (encode_text <$> pi_NextCursor pg))]
  end.

Definition list_body (records : list RecordDto) (page : option PageInfo) : Response :=
  mkResponse 200 (JObj [("data", JArr (map dto_json records)); ("page", page_json page)]).

Definition listRecords (entity : string) (r : Request) : RestHandler :=
  requireAuth r (fun rc =>
    match parseListInput range (rq_Query r) with
    | inl bad => answer bad
    | inr input => respond (bk_List crud entity input rc) list_body
    end).

(** The record with a member for the capabilities. *)
Definition get_body (g : GetResult) (_ : option PageInfo) : Response :=
  match unmarshal_map (dto_json (gr_Record g)) with
  | Some data => mkResponse 200 (data_body (marshal_map (<["capabilities" := capabilities_json (gr_Capabilities g)]> data)))
  | None => writeInternalError "json: cannot unmarshal"
  end.

Definition getRecord (entity id : string) (r : Request) : RestHandler :=
  requireAuth r (fun rc => with_id id (fun id => respond (bk_Get crud entity id rc) get_body)).

Definition record_body (status : Z) (d : RecordDto) (_ : option PageInfo) : Response := mkResponse status (data_body (dto_json d)).

Definition createRecord (entity : string) (r : Request) : RestHandler :=
  requireAuth r (fun rc =>
    with_body "validation_failed" (decode_body false true (rq_Body r)) (fun b =>
      respond (bk_Create crud entity (default ∅ (rb_Data b)) rc (rb_Reason b)) (record_body 201))).

Definition updateRecord (entity id : string) (r : Request) : RestHandler :=
  requireAuth r (fun rc => with_id id (fun id =>
    with_body "validation_failed" (decode_body true true (rq_Body r)) (fun b =>
      respond (bk_Update crud entity id (rb_Version b) (default ∅ (rb_Data b)) rc (rb_Reason b)) (record_body 200)))).

Definition deleteRecord (entity id : string) (r : Request) : RestHandler :=
  requireAuth r (fun rc => with_id id (fun id =>
    with_body "validation_failed" (decode_body true false (rq_Body r)) (fun b =>
      respond (bk_Delete crud entity id (rb_Version b) rc (rb_Reason b)) (record_body 200)))).

Definition transitionRecord (entity id action : string) (r : Request) : RestHandler :=
  requireAuth r (fun rc => with_id id (fun id =>
    with_body "validation_failed" (decode_body true true (rq_Body r)) (fun b =>
      respond (bk_Transition crud entity id action (rb_Version b) (rb_Data b) rc (rb_Reason b)) (record_body 200)))).

Definition aggregateRecords (entity : string) (r : Request) : RestHandler :=
  requireAuth r (fun rc =>
    with_body "invalid_aggregate" (decode_spec range_filters (rq_Body r)) (fun spec =>
      respond (aggregate entity spec rc) (fun rows _ => mkResponse 200 (data_body (JArr rows))))).

(** The routes: a literal segment goes before a parameter. *)
Definition mountRecords (verb : string) (path : list string) : option (Request -> RestHandler) :=
  match path with
  | ["api"; entity] =>
    if String.eqb verb "GET" then Some (listRecords entity) else if String.eqb verb "POST" then Some (createRecord entity) else None
  | ["api"; entity; id] =>
    if String.eqb id "aggregate" && String.eqb verb "POST" then Some (aggregateRecords entity)
    else if String.eqb verb "GET" then Some (getRecord entity id)
    else if String.eqb verb "PATCH" then Some (updateRecord entity id)
    else if String.eqb verb "DELETE" then Some (deleteRecord entity id)
    else None
  | ["api"; entity; id; "transitions"; action] =>
    if String.eqb verb "POST" then Some (transitionRecord entity id action) else None
  | _ => None
  end.
End Handlers.

(** ** Lemmas *)

Section ListQueryProps.
Context `{!CursorText} `{!CursorLaws _}.
Variable range : Values -> Values.
Hypothesis range_perm : forall l, range l ≡ₚ l.

Lemma parseListInput_valid values input :
  NoDup values.*1 -> parseListInput range values = inr input -> valid_limit input /\ NoDup (li_Filters input).*1.
Proof.
  intros Hnd. unfold parseListInput.
  assert (Hf : NoDup (flat_map filter_of (range values)).*1).
  { assert (Hr : NoDup (range values).*1) by (by rewrite range_perm). clear Hnd. revert Hr. generalize (range values) as l.
    induction l as [|[k vs] l IH]; [constructor|]. cbn [fmap list_fmap fst flat_map]. intros [Hk Hl]%NoDup_cons. specialize (IH Hl).
    unfold filter_of at 1. cbn [fst snd]. destruct (bool_decide _); [done|]. destruct vs as [|v vs]; [done|]. cbn. constructor; [|done].
    intros Hin. apply Hk. apply list_elem_of_fmap in Hin as ([k' v'] & -> & Hin). apply list_elem_of_In, in_flat_map in Hin as ([k2 vs2] & Hin2 & Hf).
    unfold filter_of in Hf. cbn [fst snd] in Hf. destruct (bool_decide _); [done|]. destruct vs2; [done|]. destruct Hf as [[= <- <-]|[]].
    apply list_elem_of_fmap. exists (k2, s :: vs2). split; [done|]. by apply list_elem_of_In. }
  unfold valid_limit. destruct (given values "limit") as [raw|]; [destruct (ParseInt raw 64) as [n|]; [|done]|].
  - destruct ((n <=? 0)%Z || (200 <? n)%Z) eqn:Hn; [done|]. apply orb_false_iff in Hn as [?%Z.leb_gt ?%Z.ltb_ge].
    intros [= <-]. cbn. split; [lia|done].
  - intros [= <-]. cbn. split; [lia|done].
Qed.

(** The two transports list alike: whatever query string the REST parser accepts,
    the request sent for its list over gRPC is read back as the same list, sort,
    cursor, view, JQL and limit the same, and the filters up to their order. *)
Lemma list_transports_agree `{!Conversions} values input (range' : list (string * json) -> list (string * json)) :
  (forall l, range' l ≡ₚ l) -> NoDup values.*1 -> parseListInput range values = inr input ->
  exists filters, filters ≡ₚ li_Filters input /\
    listInputFromQuery range' (StructToJSON (Some (JSONToStruct (listInputToQuery input)))) = Ok (with_filters input filters).
Proof.
  intros Hr Hnd Hp. destruct (parseListInput_valid values input Hnd Hp) as [Hl Hf].
  eexists. split; [by apply (filters_perm range' Hr)|]. by apply list_input_back.
Qed.
End ListQueryProps.

(** ** Examples, and where the transports differ *)

#[local] Existing Instance TestUuid.
#[local] Existing Instance TestCursors.
#[local] Existing Instance TestConversions.

Definition no_order {A} (l : list A) : list A := l.

Definition test_query : Values := [("limit", ["20"]); ("status", ["draft"; "done"]); ("sort", ["-title"]); ("jql", [""])].

Definition wire_of (values : Values) : list (string * json) :=
  match parseListInput no_order values with
  | inr input => StructToJSON (Some (JSONToStruct (listInputToQuery input)))
  | inl _ => []
  end.

Lemma list_transports_agree_witness :
  parseListInput no_order test_query = inr (mkListInput 20 (Some "-title") [("status", "draft")] None None None) /\
  exists filters, filters ≡ₚ [("status", "draft")] /\
    listInputFromQuery no_order (wire_of test_query) = Ok (mkListInput 20 (Some "-title") filters None None None).
Proof.
  assert (Hp : parseListInput no_order test_query = inr (mkListInput 20 (Some "-title") [("status", "draft")] None None None)) by reflexivity.
  split; [exact Hp|].
  refine (list_transports_agree no_order (fun l => Permutation_refl l) test_query _ no_order (fun l => Permutation_refl l) _ Hp).
  vm_compute. repeat (constructor; [set_solver|]). constructor.
Defined.

(** A limit that is no integer is refused by REST; over gRPC one that is no number is
    ignored and a fraction is cut. An empty sort is no sort for REST and a sort by the
    empty name over gRPC. A filter may be named as an option only over gRPC. A null
    filter value is the text <nil>. *)
Lemma transports_differ :
  (exists r, parseListInput no_order [("limit", ["x"])] = inl r /\ rs_Status r = 400%Z) /\
  li_Limit <$> (match listInputFromQuery no_order [("limit", JStr "x")] with Ok i => Some i | _ => None end) = Some 30%Z /\
  (exists r, parseListInput no_order [("limit", ["1.5"])] = inl r /\ rs_Status r = 400%Z) /\
  li_Limit <$> (match listInputFromQuery no_order [("limit", JNum "1.5")] with Ok i => Some i | _ => None end) = Some 1%Z /\
  li_Sort <$> (match parseListInput no_order [("sort", [""])] with inr i => Some i | _ => None end) = Some None /\
  li_Sort <$> (match listInputFromQuery no_order [("sort", JStr "")] with Ok i => Some i | _ => None end) = Some (Some "") /\
  li_Filters <$> (match parseListInput no_order [("limit", ["20"])] with inr i => Some i | _ => None end) = Some [] /\
  li_Filters <$> (match listInputFromQuery no_order [("filter", JObj [("limit", JStr "20"); ("owner", JNull)])] with Ok i => Some i | _ => None end)
  = Some [("limit", "20"); ("owner", "<nil>")].
Proof. split_and!; try (eexists; split); vm_compute; reflexivity. Qed.

Section HandlerProps.
Context `{!UuidLib} `{!CursorText} {W : Type}.
Variable crud : Backend W.
Variable aggregate : string -> AggregateSpec -> RequestContext -> Call W (list json).

(** A request that is not authenticated reaches no service, on every route. *)
Lemma unauthenticated_changes_nothing range range_filters verb path r e h w :
  rq_Auth r = inl e -> mountRecords crud aggregate range range_filters verb path = Some h ->
  h r w = (Ok (auth_respond e), w).
Proof.
  intros Ha Hm.
  assert (Hreq : forall k : RequestContext -> RestHandler, requireAuth r k w = (Ok (auth_respond e), w)).
  { intros k. unfold requireAuth. by rewrite Ha. }
  unfold mountRecords in Hm. repeat (case_match; try done); injection Hm as <-; apply Hreq.
Qed.

(** A record body's members are those of the record, and the capabilities. *)
Lemma get_body_members g p :
  exists data, unmarshal_map (dto_json (gr_Record g)) = Some data /\ data !! "capabilities" = None /\
    get_body g p = mkResponse 200 (data_body (marshal_map (<["capabilities" := capabilities_json (gr_Capabilities g)]> data))).
Proof.
  unfold get_body, dto_json. cbn [unmarshal_map]. eexists. split; [reflexivity|]. split; [|reflexivity].
  unfold map_of_members. destruct (sorted_members (rd_RelatedDisplay (gr_Record g))); cbn [app fold_left fst snd];
    rewrite !lookup_insert_ne by done; apply lookup_empty.
Qed.
End HandlerProps.
