(* ===== verification/Config.v ===== *)
(** Configuration (src/go/config/config.go and keys.go): the declared keys with
    their tiers, defaults and validators, the stored overrides of the platform and of
    each tenant, the cached snapshots, and the effective value of a key.

    A value is the JSON document of a json.RawMessage ([None] for an absent one). The
    two tables are maps from their primary key. What Postgres keeps of a document in a
    jsonb column is the parameter [jsonb]: [None] when it refuses it. *)
From Stdlib Require Import SpecFloat.
From S2P Require Import Prelude GoStrings GoText Json Floats Numbers Condition Context Uuid Evaluate Snapshot PermissionService PolicyStore Metadata Schema Router Payload Workflow AuditTrail Sql ConditionSql Jql Planner Records Crud Cron Outbound Wire.

Open Scope string_scope.
Open Scope list_scope.

(** ** The declared keys (keys.go) *)

Inductive Level : Type := LevelOperator | LevelPlatformGlobal | LevelTenant.

#[export] Instance Level_eq_dec : EqDecision Level.
Proof. solve_decision. Defined.

Definition RawMessage : Type := option json.

(** A validator: [None] accepts, else the reason. *)
Definition Validator : Type := RawMessage -> option string.

Record KeyDef : Type := mkKey {
  kd_Key : string;
  kd_Level : Level;
  kd_Default : json;
  kd_Validate : Validator;
  kd_Public : bool;
  kd_Secret : bool
}.

Definition jsonNumber (v : RawMessage) : option float64 := match v with Some j => unmarshal_float64 j | None => None end.
Definition jsonString (v : RawMessage) : option string := match v with Some j => unmarshal_string j | None => None end.

Definition num (n : Z) : json := JNum (FormatInt n).
Definition str (s : string) : json := JStr s.
Definition emptyObjectMarker : json := JObj [].

Definition f64_of_Z (n : Z) : float64 := default f64_zero (f64_of_literal (FormatInt n)).

Definition positiveIntIn (min max : Z) : Validator := fun v =>
  match jsonNumber v with
  | None => Some "must be a positive integer"
  | Some n =>
    let refused := Some ("must be between " +:+ Sprintf_g (f64_of_Z min) +:+ " and " +:+ Sprintf_g (f64_of_Z max) +:+ ", got " +:+ Sprintf_g n) in
    match int_value n with
    | Some z => if (z <? min)%Z || (max <? z)%Z then refused else None
    | None => refused
    end
  end.

Definition isHexDigit (c : N) : bool :=
  ((48 <=? c) && (c <=? 57) || (97 <=? c) && (c <=? 102) || (65 <=? c) && (c <=? 70))%N.

Definition hexColor : Validator := fun v =>
  match jsonString v with
  | None => Some "must be a string"
  | Some s =>
    match CutPrefix s "#" with
    | None => Some "must start with '#'"
    | Some hex =>
      if negb (String.length hex =? 3)%nat && negb (String.length hex =? 6)%nat
      then Some ("must be #rgb or #rrggbb, got " +:+ FormatInt (Z.of_nat (String.length hex)) +:+ " hex digits")
      else if forallb isHexDigit (runes hex) then None else Some "must contain hex digits only"
    end
  end.

Definition logoURL : Validator := fun v =>
  match jsonString v with
  | None => Some "must be a string"
  | Some s =>
    if (2048 <? String.length s)%nat then Some "must be at most 2048 characters"
    else if String.eqb s "" then None
    else if HasPrefix s "/" && negb (HasPrefix s "//") then None
    else if HasPrefix s "https://" && (8 <? String.length s)%nat then None
    else Some "must be an https:// URL or a site-relative path starting with '/'"
  end.

Definition header_rune (c : N) : bool := ((c =? 9) || (32 <=? c) && (c <=? 126))%N.

Definition headerCredential : Validator := fun v =>
  match jsonString v with
  | None => Some "must be a string"
  | Some s =>
    if String.eqb s "" then Some "must not be empty — clear the key instead to remove the credential"
    else if (4096 <? String.length s)%nat then Some "must be at most 4096 characters"
    else if forallb header_rune (runes s) then None
    else Some "must contain only printable ASCII (no newlines, no control characters)"
  end.

Definition displayText (maxLen : nat) : Validator := fun v =>
  match jsonString v with
  | None => Some "must be a string"
  | Some s =>
    if (maxLen <? RuneCountInString s)%nat then Some ("must be at most " +:+ FormatInt (Z.of_nat maxLen) +:+ " characters")
    else if existsb IsControl (runes s) then Some "must not contain control characters" else None
  end.

Definition operatorOnly : Validator := fun _ => Some "operator-only key".

(** The primary colour may be left empty. *)
Definition primaryColor : Validator := fun v =>
  match jsonString v with Some "" => None | _ => hexColor v end.

Definition GraphQLMaxDepth : string := "graphql.maxDepth".
Definition GraphQLMaxComplexity : string := "graphql.maxComplexity".
Definition HTTPRateLimitPerMs : string := "http.rateLimitPerMillisecond".
Definition HTTPRateLimitBurst : string := "http.rateLimitBurst".
Definition AuthSessionTTLSeconds : string := "auth.sessionTtlSeconds".
Definition AuthSessionAbsoluteMaxSeconds : string := "auth.sessionAbsoluteMaxSeconds".
Definition CronWebhookAuthorization : string := "cron.webhookAuthorization".
Definition ThemePrimaryColor : string := "theme.primaryColor".
Definition ThemeLogoURL : string := "theme.logoUrl".
Definition ThemeDisplayName : string := "theme.displayName".
Definition CronWebhookAllowPrivateTargets : string := "cron.webhookAllowPrivateTargets".
Definition CronWebhookAllowedHosts : string := "cron.webhookAllowedHosts".
Definition CORSOrigins : string := "http.corsOrigins".

Definition Registry : list KeyDef :=
  [ mkKey GraphQLMaxDepth LevelPlatformGlobal (num 10) (positiveIntIn 3 50) false false;
    mkKey GraphQLMaxComplexity LevelPlatformGlobal (num 1000) (positiveIntIn 10 1000000) false false;
    mkKey HTTPRateLimitPerMs LevelPlatformGlobal (num 200) (positiveIntIn 1 60000) false false;
    mkKey HTTPRateLimitBurst LevelPlatformGlobal (num 300) (positiveIntIn 1 100000) false false;
    mkKey AuthSessionTTLSeconds LevelTenant (num 3600) (positiveIntIn 60 2592000) false false;
    mkKey AuthSessionAbsoluteMaxSeconds LevelPlatformGlobal (num 86400) (positiveIntIn 3600 2592000) false false;
    mkKey CronWebhookAuthorization LevelTenant emptyObjectMarker headerCredential false true;
    mkKey ThemePrimaryColor LevelTenant (str "") primaryColor true false;
    mkKey ThemeLogoURL LevelTenant (str "") logoURL true false;
    mkKey ThemeDisplayName LevelTenant (str "") (displayText 64) true false;
    mkKey CronWebhookAllowPrivateTargets LevelOperator (JBool false) operatorOnly false false;
    mkKey CronWebhookAllowedHosts LevelOperator (JArr []) operatorOnly false false;
    mkKey CORSOrigins LevelOperator (JArr []) operatorOnly false false ].

Definition Lookup (key : string) : option KeyDef := List.find (fun d => String.eqb (kd_Key d) key) Registry.

(** ** Snapshots (config.go) *)

(** The stored overrides of the platform; those of a tenant. *)
Definition Snapshot : Type := gmap string json.
Definition TenantSnapshot : Type := gmap string json.

Definition snapshot_Get (s : Snapshot) (key : string) : result error json :=
  match s !! key with
  | Some v => Ok v
  | None => match Lookup key with Some def => Ok (kd_Default def) | None => Panic end
  end.

Record EffectiveConfig : Type := NewEffectiveConfig { ec_platform : Snapshot; ec_tenant : option TenantSnapshot }.

Definition effective_Get (e : EffectiveConfig) (key : string) : result error json :=
  match ec_tenant e ≫= (fun t => t !! key) with
  | Some v => Ok v
  | None => snapshot_Get (ec_platform e) key
  end.

Section Numbers.
Context `{!Conversions}.

(** uint64 of a float64 that is not negative. *)
Definition float_to_uint64 (f : float64) : Z := to_uint64 f (truncated f).

Definition json_u64 (v : json) : option Z :=
  match unmarshal_float64 v with
  | Some n => if f64_ltb n f64_zero then None else Some (float_to_uint64 n)
  | None => None
  end.

(** GetU64 of the value found for the key. *)
Definition u64_or_default (key : string) (v : json) : result error Z :=
  match json_u64 v with
  | Some n => Ok n
  | None =>
    match Lookup key with
    | None => Panic
    | Some def => Ok (match unmarshal_float64 (kd_Default def) with Some n => float_to_uint64 n | None => 0%Z end)
    end
  end.

Definition snapshot_GetU64 (s : Snapshot) (key : string) : result error Z :=
  let! v := snapshot_Get s key in u64_or_default key v.

Definition effective_GetU64 (e : EffectiveConfig) (key : string) : result error Z :=
  let! v := effective_Get e key in u64_or_default key v.
End Numbers.

(** Every key a platform admin may write, with its value for the fleet. *)
Definition PlatformWritableView (s : Snapshot) : list (KeyDef * json) :=
  flat_map (fun def => match kd_Level def, snapshot_Get s (kd_Key def) with
                       | (LevelPlatformGlobal | LevelTenant), Ok v => [(def, v)]
                       | _, _ => []
                       end) Registry.

(** Every key of a tenant with its effective value, and whether the tenant set it. *)
Definition TenantView (e : EffectiveConfig) : list (KeyDef * json * bool) :=
  flat_map (fun def => match kd_Level def, effective_Get e (kd_Key def) with
                       | LevelTenant, Ok v => [(def, v, is_some (ec_tenant e ≫= (fun t => t !! kd_Key def)))]
                       | _, _ => []
                       end) Registry.

Definition marker_step (st : string * bool) (kv : string * json) : string * bool :=
  if key_matches "secretRef" kv.1 then into_string st kv.2 else st.

Definition SecretRef (e : EffectiveConfig) (key : string) : result error (option string) :=
  let! v := effective_Get e key in
  Ok (match unmarshal_struct "" marker_step (Some v) with
      | Some ref => if String.eqb ref "" then None else Some ref
      | None => None
      end).

Definition PublicView (e : EffectiveConfig) : list (string * json) :=
  flat_map (fun def => if kd_Public def then match effective_Get e (kd_Key def) with Ok v => [(kd_Key def, v)] | _ => [] end else []) Registry.

(** ** The store *)

Inductive ConfigError : Type :=
| ErrUnknownKey (key : string)
| ErrNotWritable (key reason : string)
| ErrInvalid (key reason : string)
| ErrDB (cause : error).

Definition ConfigError_Error (e : ConfigError) : error :=
  match e with
  | ErrUnknownKey key => "unknown config key " +:+ quote +:+ key +:+ quote
  | ErrNotWritable key reason => "config key " +:+ quote +:+ key +:+ quote +:+ " is not writable here: " +:+ reason
  | ErrInvalid key reason => "invalid value for " +:+ quote +:+ key +:+ quote +:+ ": " +:+ reason
  | ErrDB cause => "config storage error: " +:+ cause
  end.

(** 30 seconds, in microseconds. *)
Definition TenantCacheTTL : Z := 30000000.

Definition operator_reason : string := "operator-only, settable through deployment configuration only".

(** metadata.tenant_configs: by tenant and key. *)
Notation tenant_table := (gmap string (gmap string json)).

Definition rows_of (table : tenant_table) (tenant : string) : gmap string json := default ∅ (table !! tenant).
Definition put_row (tenant key : string) (j : json) (table : tenant_table) : tenant_table :=
  <[tenant := <[key := j]> (rows_of table tenant)]> table.
Definition drop_row (tenant key : string) (table : tenant_table) : tenant_table :=
  <[tenant := delete key (rows_of table tenant)]> table.

Definition tenant_level (key : string) : bool :=
  match Lookup key with Some def => bool_decide (kd_Level def = LevelTenant) | None => false end.

Section Store.
Context `{UuidLib}.
Variable jsonb : json -> option json.

(** The tables, and what the process holds: the snapshot of the platform and the
    cached tenants with the instants their entries end. *)
Record Store : Type := mkStore {
  st_platform_configs : gmap string json;
  st_tenant_configs : tenant_table;
  st_snapshot : Snapshot;
  st_tenants : gmap string (TenantSnapshot * Z)
}.

Definition Unloaded (platform : gmap string json) (tenants : tenant_table) : Store := mkStore platform tenants ∅ ∅.

(** The rows of declared keys. *)
Definition readSnapshot (s : Store) : Snapshot := filter (fun kv => is_Some (Lookup kv.1)) (st_platform_configs s).

Definition with_snapshot (s : Store) (snap : Snapshot) : Store :=
  mkStore (st_platform_configs s) (st_tenant_configs s) snap (st_tenants s).
Definition with_platform (s : Store) (t : gmap string json) : Store :=
  mkStore t (st_tenant_configs s) (st_snapshot s) (st_tenants s).
Definition with_tenant_table (s : Store) (t : tenant_table) : Store :=
  mkStore (st_platform_configs s) t (st_snapshot s) (st_tenants s).
Definition with_cache (s : Store) (c : gmap string (TenantSnapshot * Z)) : Store :=
  mkStore (st_platform_configs s) (st_tenant_configs s) (st_snapshot s) c.

(** [fault] is the error of the query, if it fails. *)
Definition Reload (fault : option error) (s : Store) : option error * Store :=
  match fault with Some e => (Some e, s) | None => (None, with_snapshot s (readSnapshot s)) end.

Definition Current (s : Store) : Snapshot := st_snapshot s.

Definition encode_jsonb (value : RawMessage) : result ConfigError json :=
  match value ≫= jsonb with Some j => Ok j | None => Err (ErrDB "invalid input syntax for type json") end.

(** After the write the table is read again; the write stays when that fails. *)
Definition publish (fault : option error) (s : Store) : option ConfigError * Store :=
  match Reload fault s with (Some e, s') => (Some (ErrDB e), s') | (None, s') => (None, s') end.

Definition platform_key (key : string) : result ConfigError KeyDef :=
  match Lookup key with
  | None => Err (ErrUnknownKey key)
  | Some def => if bool_decide (kd_Level def = LevelOperator) then Err (ErrNotWritable key operator_reason) else Ok def
  end.

Definition validated (key : string) (def : KeyDef) (value : RawMessage) : result ConfigError unit :=
  match kd_Validate def value with Some reason => Err (ErrInvalid key reason) | None => Ok tt end.

Definition SetPlatformGlobal (fault : option error) (key : string) (value : RawMessage) (s : Store) : option ConfigError * Store :=
  match (let! def := platform_key key in let! _ := validated key def value in encode_jsonb value) with
  | Ok j => publish fault (with_platform s (<[key := j]> (st_platform_configs s)))
  | Err e => (Some e, s)
  | Panic => (None, s)
  end.

Definition ResetPlatformGlobal (fault : option error) (key : string) (s : Store) : option ConfigError * Store :=
  match platform_key key with
  | Ok _ => publish fault (with_platform s (delete key (st_platform_configs s)))
  | Err e => (Some e, s)
  | Panic => (None, s)
  end.

Definition CachedTenant (now : Z) (s : Store) (tenantID : uuid) : option TenantSnapshot :=
  match st_tenants s !! uuid_String tenantID with
  | Some (snap, expires) => if (expires <? now)%Z then None else Some snap
  | None => None
  end.

(** The rows of one tenant, of keys that are declared for tenants. *)
Definition tenant_overrides (table : tenant_table) (tenantID : uuid) : TenantSnapshot :=
  filter (fun kv => tenant_level kv.1 = true) (rows_of table (uuid_String tenantID)).

Definition LoadTenant (now : Z) (tenantID : uuid) (s : Store) : TenantSnapshot * Store :=
  let snap := tenant_overrides (st_tenant_configs s) tenantID in
  (snap, with_cache s (<[uuid_String tenantID := (snap, (now + TenantCacheTTL)%Z)]> (st_tenants s))).

Definition Effective (s : Store) (tenant : option TenantSnapshot) : EffectiveConfig := NewEffectiveConfig (Current s) tenant.

Definition tenantWritableKey (key : string) : result ConfigError KeyDef :=
  match Lookup key with
  | None => Err (ErrUnknownKey key)
  | Some def =>
    match kd_Level def with
    | LevelTenant => Ok def
    | LevelOperator => Err (ErrNotWritable key operator_reason)
    | LevelPlatformGlobal => Err (ErrNotWritable key "fleet-wide, settable only by a platform administrator")
    end
  end.

Definition InvalidateTenant (tenantID : uuid) (s : Store) : Store := with_cache s (delete (uuid_String tenantID) (st_tenants s)).

(** The write of a tenant goes through the caller's transaction: its effect on the
    table, for the commit, and the store with the entry dropped. *)
Definition TenantWrite : Type := tenant_table -> tenant_table.

Definition SetTenant (tenantID : uuid) (key : string) (value : RawMessage) (s : Store) : result ConfigError TenantWrite * Store :=
  match (let! def := tenantWritableKey key in
         if kd_Secret def
         then Err (ErrNotWritable key "holds a credential; write it through the secret path, not as a config value")
         else let! _ := validated key def value in encode_jsonb value) with
  | Ok j => (Ok (put_row (uuid_String tenantID) key j), InvalidateTenant tenantID s)
  | Err e => (Err e, s)
  | Panic => (Panic, s)
  end.

Definition ResetTenant (tenantID : uuid) (key : string) (s : Store) : result ConfigError TenantWrite * Store :=
  match tenantWritableKey key with
  | Ok _ => (Ok (drop_row (uuid_String tenantID) key), InvalidateTenant tenantID s)
  | Err e => (Err e, s)
  | Panic => (Panic, s)
  end.

Definition ValidateTenantSecret (key : string) (plaintext : RawMessage) : result ConfigError KeyDef :=
  let! def := tenantWritableKey key in
  if negb (kd_Secret def) then Err (ErrNotWritable key "is not a credential; write it as an ordinary config value")
  else let! _ := validated key def plaintext in Ok def.

Definition secret_marker (secretRef : string) : json := JObj [("secretRef", JStr secretRef)].

Definition SetTenantSecretMarker (tenantID : uuid) (key secretRef : string) (s : Store) : result ConfigError TenantWrite * Store :=
  match (let! def := tenantWritableKey key in
         if negb (kd_Secret def) then Err (ErrNotWritable key "is not a credential") else encode_jsonb (Some (secret_marker secretRef))) with
  | Ok j => (Ok (put_row (uuid_String tenantID) key j), InvalidateTenant tenantID s)
  | Err e => (Err e, s)
  | Panic => (Panic, s)
  end.

(** A transaction's write and its commit: [others] is what other requests do between
    the two, [fault] the error of the commit. *)
Definition committed (others : Store -> Store) (fault : option error) (w : result ConfigError TenantWrite * Store)
  : result ConfigError unit * Store :=
  match w with
  | (Ok write, s) =>
    let s' := others s in
    match fault with
    | None => (Ok tt, with_tenant_table s' (write (st_tenant_configs s')))
    | Some e => (Err (ErrDB e), s')
    end
  | (Err e, s) => (Err e, s)
  | (Panic, s) => (Panic, s)
  end.

(** AppState.EffectiveConfig: the cache first; [begin] is whether the tenant's
    transaction opens and the query answers. *)
Definition EffectiveConfig_of (now : Z) (opens : bool) (tenantID : uuid) (s : Store) : EffectiveConfig * Store :=
  match CachedTenant now s tenantID with
  | Some cached => (Effective s (Some cached), s)
  | None =>
    if opens then let '(snap, s') := LoadTenant now tenantID s in (Effective s' (Some snap), s')
    else (Effective s None, s)
  end.
End Store.
