(* ===== verification/ConfigProps.v ===== *)
(** What configuration guarantees: stored values stay valid, numeric keys stay within
    their bounds for every tenant at every time, a write is read back and touches no
    other tenant; and where a credential or an old value gets through. *)
From Stdlib Require Import SpecFloat.
From S2P Require Import Prelude GoStrings GoText Json Floats Numbers Condition Context Uuid Evaluate Snapshot PermissionService PolicyStore Metadata Schema Router Payload Workflow AuditTrail Sql ConditionSql Jql Planner Records Crud Cron Outbound Wire Config.

Open Scope string_scope.
Open Scope list_scope.

(** ** Validators look at the value only *)

Definition same_value (a b : json) : Prop := unmarshal_string a = unmarshal_string b /\ unmarshal_float64 a = unmarshal_float64 b.

Definition by_value (v : Validator) : Prop := forall a b, same_value a b -> v (Some a) = v (Some b).

Lemma registry_by_value : Forall (fun def => by_value (kd_Validate def)) Registry.
Proof.
  unfold Registry.
  repeat (apply Forall_cons_2; [intros a b [Hs Hn]; cbn [kd_Validate];
    unfold positiveIntIn, headerCredential, primaryColor, hexColor, logoURL, displayText, jsonString, jsonNumber;
    by rewrite ?Hs, ?Hn|]).
  apply Forall_nil_2.
Qed.

Lemma Lookup_in key def : Lookup key = Some def -> def ∈ Registry /\ kd_Key def = key.
Proof.
  intros Hl. apply find_some in Hl as [Hin He%String.eqb_eq]. split; [by apply list_elem_of_In|done].
Qed.

Lemma Lookup_by_value key def : Lookup key = Some def -> by_value (kd_Validate def).
Proof. intros [Hin _]%Lookup_in. pose proof registry_by_value as Hr. rewrite Forall_forall in Hr. by apply Hr. Qed.

(** ** Stored values stay valid *)

Section Validity.
Context `{UuidLib}.
Variable jsonb : json -> option json.
(** What a jsonb column gives back reads as the same number or text. *)
Hypothesis jsonb_value : forall j j', jsonb j = Some j' -> same_value j' j.

Definition accepted (def : KeyDef) (v : json) : Prop := kd_Validate def (Some v) = None.

Definition valid_platform (m : gmap string json) : Prop :=
  map_Forall (fun key v => forall def, Lookup key = Some def -> kd_Level def <> LevelOperator -> accepted def v) m.

(** A credential's row holds a reference; any other an accepted value. *)
Definition valid_tenant_value (key : string) (v : json) : Prop :=
  forall def, Lookup key = Some def -> kd_Level def = LevelTenant -> kd_Secret def = false -> accepted def v.

Definition valid_table (m : tenant_table) : Prop := map_Forall (fun _ rows => map_Forall valid_tenant_value rows) m.
Definition valid_snapshot (m : gmap string json) : Prop := map_Forall (fun key v => tenant_level key = true /\ valid_tenant_value key v) m.

Record valid (s : Store) : Prop := {
  va_platform : valid_platform (st_platform_configs s);
  va_tenants : valid_table (st_tenant_configs s);
  va_snapshot : valid_platform (st_snapshot s);
  va_cache : map_Forall (fun _ e => valid_snapshot e.1) (st_tenants s)
}.

Lemma encoded_accepted key def value j :
  Lookup key = Some def -> validated key def value = Ok tt -> encode_jsonb jsonb value = Ok j -> accepted def j.
Proof.
  unfold validated, encode_jsonb, accepted. intros Hl Hv He. destruct (kd_Validate def value) eqn:Hd; [done|].
  destruct value as [v|]; cbn [mbind option_bind] in He; [|done]. destruct (jsonb v) as [j'|] eqn:Hj; [|done]. injection He as ->.
  rewrite <- Hd. by apply (Lookup_by_value key), jsonb_value.
Qed.

Lemma platform_write_valid s key j def :
  valid s -> Lookup key = Some def -> accepted def j -> valid (with_platform s (<[key := j]> (st_platform_configs s))).
Proof.
  intros [Hp Ht Hs Hc] Hl Ha. constructor; try done. cbn. apply map_Forall_insert_2; [|done].
  intros def' Hl' _. by simplify_eq.
Qed.

Lemma reload_valid fault s e s' : valid s -> Reload fault s = (e, s') -> valid s'.
Proof.
  intros Hs. destruct fault; [by intros [= _ <-]|]. intros [= _ <-]. destruct Hs as [Hp Ht Hsn Hc]. constructor; try done. cbn.
  intros k v [Hk _]%map_lookup_filter_Some. by apply Hp.
Qed.

Lemma publish_valid fault s e s' : valid s -> publish fault s = (e, s') -> valid s'.
Proof.
  unfold publish. intros Hs. destruct (Reload fault s) as [[e'|] s1] eqn:Hr; intros [= _ <-]; by eapply reload_valid.
Qed.

Lemma SetPlatformGlobal_valid fault key value s e s' : valid s -> SetPlatformGlobal jsonb fault key value s = (e, s') -> valid s'.
Proof.
  intros Hs. unfold SetPlatformGlobal. destruct (_ : result ConfigError json) as [j|?|] eqn:Hj; [|by intros [= _ <-]..].
  apply rbind_ok in Hj as (def & Hd & ([] & Hv & He)%rbind_ok). unfold platform_key in Hd.
  destruct (Lookup key) as [def'|] eqn:Hl; [|done]. case_bool_decide; [done|]. injection Hd as ->.
  apply publish_valid. eapply platform_write_valid; [done..|]. by eapply encoded_accepted.
Qed.

Lemma ResetPlatformGlobal_valid fault key s e s' : valid s -> ResetPlatformGlobal fault key s = (e, s') -> valid s'.
Proof.
  intros Hs. unfold ResetPlatformGlobal. destruct (platform_key key); [|by intros [= _ <-]..].
  apply publish_valid. destruct Hs as [Hp Ht Hsn Hc]. constructor; try done. cbn. by apply map_Forall_delete.
Qed.

Lemma rows_valid table t : valid_table table -> map_Forall valid_tenant_value (rows_of table t).
Proof. intros Ht. unfold rows_of. destruct (table !! t) as [rows|] eqn:E; [by apply (Ht t)|apply map_Forall_empty]. Qed.

Lemma LoadTenant_valid now t s snap s' : valid s -> LoadTenant now t s = (snap, s') -> valid s' /\ valid_snapshot snap.
Proof.
  intros [Hp Ht Hsn Hc] [= <- <-]. assert (Hv : valid_snapshot (tenant_overrides (st_tenant_configs s) t)).
  { intros k v [Hk Hl]%map_lookup_filter_Some. split; [done|]. exact (rows_valid _ _ Ht k v Hk). }
  split; [|done]. constructor; try done. cbn. by apply map_Forall_insert_2.
Qed.

Lemma invalidate_valid t s : valid s -> valid (InvalidateTenant t s).
Proof. intros [Hp Ht Hsn Hc]. constructor; try done. cbn. by apply map_Forall_delete. Qed.

(** A tenant's write keeps the table valid. *)
Definition keeps_valid (w : TenantWrite) : Prop := forall table, valid_table table -> valid_table (w table).

Lemma put_keeps t key j : valid_tenant_value key j -> keeps_valid (put_row t key j).
Proof. intros Hj table Ht. apply map_Forall_insert_2; [|done]. apply map_Forall_insert_2; [done|by apply rows_valid]. Qed.

Lemma drop_keeps t key : keeps_valid (drop_row t key).
Proof. intros table Ht. apply map_Forall_insert_2; [|done]. by apply map_Forall_delete, rows_valid. Qed.

Lemma tenantWritableKey_ok key def : tenantWritableKey key = Ok def -> Lookup key = Some def /\ kd_Level def = LevelTenant.
Proof. unfold tenantWritableKey. destruct (Lookup key) as [d|]; [|done]. destruct (kd_Level d) eqn:E; intros [= <-]. done. Qed.

Lemma SetTenant_valid t key value s w s' :
  valid s -> SetTenant jsonb t key value s = (w, s') -> valid s' /\ forall f, w = Ok f -> keeps_valid f.
Proof.
  intros Hs. unfold SetTenant. destruct (_ : result ConfigError json) as [j|?|] eqn:Hj; [|by intros [= <- <-]..].
  apply rbind_ok in Hj as (def & [Hl Hlev]%tenantWritableKey_ok & Hj). destruct (kd_Secret def); [done|].
  apply rbind_ok in Hj as ([] & Hv & He). intros [= <- <-]. split; [by apply invalidate_valid|]. intros f [= <-]. apply put_keeps.
  intros def' Hl' _ _. simplify_eq. by eapply encoded_accepted.
Qed.

Lemma ResetTenant_valid t key s w s' :
  valid s -> ResetTenant t key s = (w, s') -> valid s' /\ forall f, w = Ok f -> keeps_valid f.
Proof.
  intros Hs. unfold ResetTenant. destruct (tenantWritableKey key); [|by intros [= <- <-]..].
  intros [= <- <-]. split; [by apply invalidate_valid|]. intros f [= <-]. apply drop_keeps.
Qed.

Lemma SetTenantSecretMarker_valid t key ref s w s' :
  valid s -> SetTenantSecretMarker jsonb t key ref s = (w, s') -> valid s' /\ forall f, w = Ok f -> keeps_valid f.
Proof.
  intros Hs. unfold SetTenantSecretMarker. destruct (_ : result ConfigError json) as [j|?|] eqn:Hj; [|by intros [= <- <-]..].
  apply rbind_ok in Hj as (def & [Hl Hlev]%tenantWritableKey_ok & Hj). destruct (kd_Secret def) eqn:Hsec; [|done].
  intros [= <- <-]. split; [by apply invalidate_valid|]. intros f [= <-]. apply put_keeps. intros def' Hl' _ Hns. simplify_eq. congruence.
Qed.

(** *** The store among concurrent requests *)

(** The store, and the writes of transactions that are open. *)
Record System : Type := mkSystem { sy_store : Store; sy_open : list TenantWrite }.

Inductive config_step : System -> System -> Prop :=
| step_reload fault s o e s' : Reload fault s = (e, s') -> config_step (mkSystem s o) (mkSystem s' o)
| step_set_platform fault key value s o e s' :
    SetPlatformGlobal jsonb fault key value s = (e, s') -> config_step (mkSystem s o) (mkSystem s' o)
| step_reset_platform fault key s o e s' :
    ResetPlatformGlobal fault key s = (e, s') -> config_step (mkSystem s o) (mkSystem s' o)
| step_load now t s o snap s' : LoadTenant now t s = (snap, s') -> config_step (mkSystem s o) (mkSystem s' o)
| step_invalidate t s o : config_step (mkSystem s o) (mkSystem (InvalidateTenant t s) o)
| step_set_tenant t key value s o f s' :
    SetTenant jsonb t key value s = (Ok f, s') -> config_step (mkSystem s o) (mkSystem s' (f :: o))
| step_reset_tenant t key s o f s' :
    ResetTenant t key s = (Ok f, s') -> config_step (mkSystem s o) (mkSystem s' (f :: o))
| step_set_marker t key ref s o f s' :
    SetTenantSecretMarker jsonb t key ref s = (Ok f, s') -> config_step (mkSystem s o) (mkSystem s' (f :: o))
| step_commit s o1 f o2 : config_step (mkSystem s (o1 ++ f :: o2)) (mkSystem (with_tenant_table s (f (st_tenant_configs s))) (o1 ++ o2))
| step_abort s o1 f o2 : config_step (mkSystem s (o1 ++ f :: o2)) (mkSystem s (o1 ++ o2)).

Definition system_valid (y : System) : Prop := valid (sy_store y) /\ Forall keeps_valid (sy_open y).

Lemma step_keeps_valid y y' : config_step y y' -> system_valid y -> system_valid y'.
Proof.
  unfold system_valid. destruct 1; cbn [sy_store sy_open]; intros [Hv Ho].
  1-3: split; [|done]; first [by eapply reload_valid | by eapply SetPlatformGlobal_valid | by eapply ResetPlatformGlobal_valid].
  - split; [|done]. by eapply LoadTenant_valid.
  - split; [by apply invalidate_valid|done].
  - destruct (SetTenant_valid _ _ _ _ _ _ Hv H0) as [? Hf]. split; [done|]. constructor; [by apply Hf|done].
  - destruct (ResetTenant_valid _ _ _ _ _ Hv H0) as [? Hf]. split; [done|]. constructor; [by apply Hf|done].
  - destruct (SetTenantSecretMarker_valid _ _ _ _ _ _ Hv H0) as [? Hf]. split; [done|]. constructor; [by apply Hf|done].
  - apply Forall_app in Ho as [H1 [Hf H2]%Forall_cons]. destruct Hv as [Hp Ht Hsn Hc]. split; [|by apply Forall_app].
    constructor; try done. cbn. by apply Hf.
  - apply Forall_app in Ho as [H1 [Hf H2]%Forall_cons]. split; [done|by apply Forall_app].
Qed.

Lemma unloaded_valid p t : valid_platform p -> valid_table t -> system_valid (mkSystem (Unloaded p t) []).
Proof. intros Hp Ht. split; [|constructor]. constructor; cbn; try done; apply map_Forall_empty. Qed.

Lemma reachable_valid y y' : rtc config_step y y' -> system_valid y -> system_valid y'.
Proof. induction 1 as [|x y z Hstep _ IH]; [done|]. intros Hx. apply IH. by eapply step_keeps_valid. Qed.

(** ** Numeric keys stay within their bounds *)

Definition bounded_keys : list (string * Z * Z) :=
  [(GraphQLMaxDepth, 3, 50); (GraphQLMaxComplexity, 10, 1000000); (HTTPRateLimitPerMs, 1, 60000); (HTTPRateLimitBurst, 1, 100000);
   (AuthSessionTTLSeconds, 60, 2592000); (AuthSessionAbsoluteMaxSeconds, 3600, 2592000)]%Z.

(** The declaration of such a key. *)
Definition bounded_def (def : KeyDef) (lo hi : Z) : Prop :=
  kd_Level def <> LevelOperator /\ kd_Secret def = false /\ kd_Validate def = positiveIntIn lo hi /\ accepted def (kd_Default def) /\ (0 < lo)%Z /\ (hi < 2 ^ 53)%Z.

Lemma bounded_defs key lo hi : (key, lo, hi) ∈ bounded_keys -> exists def, Lookup key = Some def /\ bounded_def def lo hi.
Proof.
  unfold bounded_keys. intros Hin. repeat (apply elem_of_cons in Hin as [[= -> -> ->]|Hin]; [eexists; split; [reflexivity|split_and!; [done|done|done|vm_compute; reflexivity|lia|lia]]|]).
  by apply elem_of_nil in Hin.
Qed.

Context `{!Conversions}.

Lemma int_value_truncated f z : int_value f = Some z -> truncated f = z.
Proof.
  destruct f as [s|s| |s m e]; cbn; try done; [by intros [= <-]|]. destruct (Z.leb_spec 0 e); [by intros [= <-]|].
  by destruct (Zpos m mod 2 ^ (- e) =? 0)%Z; intros [= <-].
Qed.

Lemma nonneg_not_lt f z : int_value f = Some z -> (0 < z)%Z -> f64_ltb f f64_zero = false.
Proof.
  destruct f as [s|s| |s m e]; cbn; try done. destruct s; [|done].
  destruct (Z.leb_spec 0 e); [intros [= <-]|destruct (Zpos m mod 2 ^ (- e) =? 0)%Z; [intros [= <-]|done]]; cbn.
  - intros Hz. assert (0 < 2 ^ e)%Z by (apply Z.pow_pos_nonneg; lia). nia.
  - intros Hz. assert (0 <= Zpos m / 2 ^ (- e))%Z by (apply Z.div_pos; [lia|apply Z.pow_pos_nonneg; lia]). lia.
Qed.

Lemma accepted_u64 lo hi v : positiveIntIn lo hi (Some v) = None -> (0 < lo)%Z -> (hi < 2 ^ 53)%Z -> exists n, json_u64 v = Some n /\ (lo <= n <= hi)%Z.
Proof.
  unfold positiveIntIn, json_u64, jsonNumber. destruct (unmarshal_float64 v) as [f|]; [|done].
  destruct (int_value f) as [z|] eqn:Hz; [|done]. destruct ((z <? lo)%Z || (hi <? z)%Z) eqn:Hb; [done|]. intros _ Hlo Hhi.
  apply orb_false_iff in Hb as [Hb1%Z.ltb_ge Hb2%Z.ltb_ge]. rewrite (nonneg_not_lt f z) by (done || lia).
  exists z. split; [|lia]. unfold float_to_uint64, to_uint64. rewrite (int_value_truncated f z Hz).
  assert ((0 <=? z)%Z && (z <? 2 ^ 64)%Z = true) as ->; [|done]. rewrite andb_true_iff, Z.leb_le, Z.ltb_lt. lia.
Qed.

Lemma effective_value e key def :
  valid_platform (ec_platform e) -> (forall t, ec_tenant e = Some t -> valid_snapshot t) ->
  Lookup key = Some def -> kd_Level def <> LevelOperator -> kd_Secret def = false -> accepted def (kd_Default def) ->
  exists v, effective_Get e key = Ok v /\ accepted def v.
Proof.
  intros Hp Ht Hl Hop Hsec Hdef. unfold effective_Get. destruct (ec_tenant e) as [t|]; cbn [mbind option_bind].
  - destruct (t !! key) as [v|] eqn:Hk.
    + exists v. split; [done|]. destruct (Ht t eq_refl key v Hk) as [Hlev Hv]. unfold tenant_level in Hlev. rewrite Hl in Hlev.
      apply bool_decide_eq_true in Hlev. by apply Hv.
    + unfold snapshot_Get. destruct (ec_platform e !! key) as [v|] eqn:Hv; [exists v; split; [done|by apply (Hp key)]|]. rewrite Hl. by eexists.
  - unfold snapshot_Get. destruct (ec_platform e !! key) as [v|] eqn:Hv; [exists v; split; [done|by apply (Hp key)]|]. rewrite Hl. by eexists.
Qed.

Lemma EffectiveConfig_valid now opens t s e s' :
  valid s -> EffectiveConfig_of now opens t s = (e, s') ->
  valid_platform (ec_platform e) /\ forall snap, ec_tenant e = Some snap -> valid_snapshot snap.
Proof.
  intros Hs. unfold EffectiveConfig_of. destruct (CachedTenant now s t) as [snap|] eqn:Hc.
  - intros [= <- <-]. split; [apply Hs|]. intros snap' [= <-]. unfold CachedTenant in Hc.
    destruct (st_tenants s !! uuid_String t) as [[snap0 ex]|] eqn:Hl; [|done]. destruct (ex <? now)%Z; [done|]. injection Hc as ->.
    exact (va_cache s Hs _ _ Hl).
  - destruct opens; [|by intros [= <- <-]; split; [apply Hs|]]. destruct (LoadTenant now t s) as [snap s1] eqn:Hl.
    destruct (LoadTenant_valid now t s snap s1 Hs Hl) as [Hv Hsn]. intros [= <- <-]. split; [apply Hv|]. by intros snap' [= <-].
Qed.

Lemma effective_bounded now opens t s e s' key lo hi :
  valid s -> EffectiveConfig_of now opens t s = (e, s') -> (key, lo, hi) ∈ bounded_keys ->
  exists n, effective_GetU64 e key = Ok n /\ (lo <= n <= hi)%Z.
Proof.
  intros Hv He Hk. destruct (EffectiveConfig_valid _ _ _ _ _ _ Hv He) as [Hvp Hvt].
  destruct (bounded_defs key lo hi Hk) as (def & Hl & Hop & Hsec & Hval & Hdef & Hlo & Hhi).
  destruct (effective_value e key def Hvp Hvt Hl Hop Hsec Hdef) as (v & Hg & Ha).
  unfold accepted in Ha. rewrite Hval in Ha. destruct (accepted_u64 lo hi v Ha Hlo Hhi) as (n & Hn & Hb).
  exists n. split; [|done]. unfold effective_GetU64. rewrite Hg. cbn [rbind]. unfold u64_or_default. by rewrite Hn.
Qed.

(** C28. The numeric settings stay within their declared bounds: whatever requests
    write, reset, load, invalidate, commit or abort, in any order, the value any tenant
    is served for such a key (its own, the platform's or the declared one) is an
    integer between the key's bounds, and reading it never fails. *)
Theorem numeric_settings_bounded p t y now opens tenantID e s' key lo hi :
  valid_platform p -> valid_table t -> rtc config_step (mkSystem (Unloaded p t) []) y ->
  EffectiveConfig_of now opens tenantID (sy_store y) = (e, s') -> (key, lo, hi) ∈ bounded_keys ->
  exists n, effective_GetU64 e key = Ok n /\ (lo <= n <= hi)%Z.
Proof.
  intros Hp Ht Hy He Hk. destruct (reachable_valid _ _ Hy (unloaded_valid p t Hp Ht)) as [Hv _].
  by eapply effective_bounded.
Qed.
End Validity.

(** ** Reading a write back *)

Section RoundTrip.
Context `{UuidLib} `{!UuidLaws _}.
Variable jsonb : json -> option json.

Lemma rows_put_same table t key j : rows_of (put_row t key j table) t = <[key := j]> (rows_of table t).
Proof. unfold put_row. generalize (<[key := j]> (rows_of table t)). intros m. unfold rows_of. by rewrite lookup_insert_eq. Qed.
Lemma rows_put_other table t t' key j : t' <> t -> rows_of (put_row t key j table) t' = rows_of table t'.
Proof. intros Hne. unfold rows_of, put_row. by rewrite lookup_insert_ne. Qed.
Lemma rows_drop_same table t key : rows_of (drop_row t key table) t = delete key (rows_of table t).
Proof. unfold drop_row. generalize (delete key (rows_of table t)). intros m. unfold rows_of. by rewrite lookup_insert_eq. Qed.
Lemma rows_drop_other table t t' key : t' <> t -> rows_of (drop_row t key table) t' = rows_of table t'.
Proof. intros Hne. unfold rows_of, drop_row. by rewrite lookup_insert_ne. Qed.

(** The tenant part of the configuration a tenant is served. *)
Definition served (now : Z) (t : uuid) (s : Store) : option TenantSnapshot := ec_tenant (fst (EffectiveConfig_of now true t s)).

Lemma served_fresh now t s : st_tenants s !! uuid_String t = None -> served now t s = Some (tenant_overrides (st_tenant_configs s) t).
Proof. intros Hc. unfold served, EffectiveConfig_of, CachedTenant. by rewrite Hc. Qed.

Lemma served_same now t s s' :
  st_tenants s !! uuid_String t = st_tenants s' !! uuid_String t ->
  rows_of (st_tenant_configs s) (uuid_String t) = rows_of (st_tenant_configs s') (uuid_String t) ->
  served now t s = served now t s'.
Proof.
  intros Hc Hr. unfold served, EffectiveConfig_of, CachedTenant. rewrite Hc.
  destruct (st_tenants s' !! uuid_String t) as [[snap ex]|]; [destruct (ex <? now)%Z; [|done]|]; cbn; unfold tenant_overrides; by rewrite Hr.
Qed.

(** A tenant's setting takes effect at once and for that tenant only: after the
    write is committed the tenant is served the value its column gives back, after a
    reset the platform's value or the declared one; the settings any other tenant is
    served, its cached ones included, are the same as before. *)
Lemma tenant_setting_takes_effect now t key value s w s1 s2 :
  (SetTenant jsonb t key value s = (Ok w, s1) \/ ResetTenant t key s = (Ok w, s1)) ->
  committed (fun s => s) None (Ok w, s1) = (Ok tt, s2) ->
  (forall j, value ≫= jsonb = Some j -> SetTenant jsonb t key value s = (Ok w, s1) ->
     effective_Get (fst (EffectiveConfig_of now true t s2)) key = Ok j) /\
  (ResetTenant t key s = (Ok w, s1) ->
     effective_Get (fst (EffectiveConfig_of now true t s2)) key = snapshot_Get (Current s) key) /\
  (forall t', t' <> t -> served now t' s2 = served now t' s).
Proof.
  intros Hw [= <-].
  assert (Hs1 : s1 = InvalidateTenant t s /\ (exists def, Lookup key = Some def /\ kd_Level def = LevelTenant) /\
                ((exists j, w = put_row (uuid_String t) key j) \/ w = drop_row (uuid_String t) key)).
  { destruct Hw as [Hw|Hw].
    - unfold SetTenant in Hw. destruct (_ : result ConfigError json) as [j|?|] eqn:Hj; [|done..]. injection Hw as <- <-.
      apply rbind_ok in Hj as (def & Hd%tenantWritableKey_ok & _). eauto 10.
    - unfold ResetTenant in Hw. destruct (tenantWritableKey key) as [def|?|] eqn:Hd; [|done..]. injection Hw as <- <-.
      apply tenantWritableKey_ok in Hd. eauto 10. }
  destruct Hs1 as (-> & (def & Hl & Hlev) & Hform). set (s2 := with_tenant_table _ _).
  assert (Hfresh : served now t s2 = Some (tenant_overrides (st_tenant_configs s2) t)) by (apply served_fresh; cbn; apply lookup_delete_eq).
  assert (Hplat : ec_platform (fst (EffectiveConfig_of now true t s2)) = Current s).
  { unfold EffectiveConfig_of. destruct (CachedTenant now s2 t); done. }
  assert (Hlevel : tenant_level key = true) by (unfold tenant_level; rewrite Hl; by apply bool_decide_eq_true).
  unfold effective_Get. unfold served in Hfresh. rewrite Hfresh, Hplat. cbn [mbind option_bind]. split_and!.
  - intros j Hj HS. assert (Hwj : w = put_row (uuid_String t) key j).
    { unfold SetTenant in HS. destruct (_ : result ConfigError json) as [j'|?|] eqn:Hj'; [|done..]. injection HS as <-.
      apply rbind_ok in Hj' as (def' & _ & Hj'). destruct (kd_Secret def'); [done|]. apply rbind_ok in Hj' as (_ & _ & He).
      unfold encode_jsonb in He. rewrite Hj in He. by injection He as ->. }
    assert (tenant_overrides (st_tenant_configs s2) t !! key = Some j) as ->; [|done].
    unfold tenant_overrides. apply map_lookup_filter_Some. split; [|done]. cbn. rewrite Hwj, rows_put_same. apply lookup_insert_eq.
  - intros HR. assert (Hwd : w = drop_row (uuid_String t) key).
    { unfold ResetTenant in HR. destruct (tenantWritableKey key); [|done..]. by injection HR as <-. }
    assert (tenant_overrides (st_tenant_configs s2) t !! key = None) as ->; [|done].
    unfold tenant_overrides. apply map_lookup_filter_None. left. cbn. rewrite Hwd, rows_drop_same. apply lookup_delete_eq.
  - intros t' Hne. assert (Hne' : uuid_String t' <> uuid_String t) by (intros He; by apply Hne, uuid_String_inj).
    apply served_same; cbn; [by apply lookup_delete_ne|]. destruct Hform as [[j ->]| ->]; [by apply rows_put_other|by apply rows_drop_other].
Qed.
End RoundTrip.

(** ** What the views show *)

(** The keys a view lists are determined by their declarations: the public one shows
    no credential and nothing of the operator's, the tenant's nothing of the
    platform's. *)
Lemma views_are_bounded e s :
  (forall key v, (key, v) ∈ PublicView e -> exists def, Lookup key = Some def /\ kd_Secret def = false /\ kd_Level def = LevelTenant) /\
  (forall def v set, (def, v, set) ∈ TenantView e -> kd_Level def = LevelTenant) /\
  (forall def v, (def, v) ∈ PlatformWritableView s -> kd_Level def <> LevelOperator).
Proof.
  split_and!.
  - intros key v Hin%list_elem_of_In. unfold PublicView in Hin. apply in_flat_map in Hin as (def & Hd & Hin).
    destruct (kd_Public def) eqn:Hpub; [|done]. destruct (effective_Get e (kd_Key def)); [|done..]. destruct Hin as [[= <- <-]|[]].
    exists def. revert Hd Hpub. unfold Registry. intros Hd Hpub. repeat (destruct Hd as [<-|Hd]; [done|]). done.
  - intros def v set Hin%list_elem_of_In. unfold TenantView in Hin. apply in_flat_map in Hin as (d & _ & Hin).
    destruct (kd_Level d) eqn:Hl; [done..|]. destruct (effective_Get e (kd_Key d)); [|done..]. by destruct Hin as [[= <- <- <-]|[]].
  - intros def v Hin%list_elem_of_In. unfold PlatformWritableView in Hin. apply in_flat_map in Hin as (d & _ & Hin).
    destruct (kd_Level d) eqn:Hl; [done| |]; (destruct (snapshot_Get s (kd_Key d)); [|done..]); destruct Hin as [[= <- <-]|[]]; by rewrite Hl.
Qed.

Lemma declared_Get e key def : Lookup key = Some def -> exists v, effective_Get e key = Ok v.
Proof.
  intros Hl. unfold effective_Get. destruct (ec_tenant e ≫= _) as [v|]; [by exists v|]. unfold snapshot_Get.
  destruct (ec_platform e !! key) as [v|]; [by exists v|]. rewrite Hl. by eexists.
Qed.

Lemma public_keys e : map fst (PublicView e) = [ThemePrimaryColor; ThemeLogoURL; ThemeDisplayName].
Proof.
  unfold PublicView, Registry. cbn [flat_map kd_Public kd_Key app].
  destruct (declared_Get e ThemePrimaryColor _ eq_refl) as [v1 ->]. destruct (declared_Get e ThemeLogoURL _ eq_refl) as [v2 ->].
  destruct (declared_Get e ThemeDisplayName _ eq_refl) as [v3 ->]. done.
Qed.

Section Leaks.
Context `{UuidLib}.
Variable jsonb : json -> option json.

(** A credential set for the whole platform is stored in the clear and shown to
    every member of every tenant that has none of its own: only a tenant's write of a
    secret key is refused, the platform's takes the text and keeps it as the key's
    value, which the tenant view lists; a job that looks for the credential's
    reference finds none. *)
Lemma platform_credential_is_shown text s t :
  headerCredential (Some (JStr text)) = None -> jsonb (JStr text) = Some (JStr text) ->
  (forall own, t = Some own -> own !! CronWebhookAuthorization = None) ->
  exists s' def, SetPlatformGlobal jsonb None CronWebhookAuthorization (Some (JStr text)) s = (None, s') /\
    kd_Key def = CronWebhookAuthorization /\ kd_Secret def = true /\
    (def, JStr text, false) ∈ TenantView (Effective s' t) /\ SecretRef (Effective s' t) CronWebhookAuthorization = Ok None.
Proof.
  intros Hv Hj Hown. set (def := mkKey CronWebhookAuthorization LevelTenant emptyObjectMarker headerCredential false true).
  set (s' := snd (publish None (with_platform s (<[CronWebhookAuthorization := JStr text]> (st_platform_configs s))))).
  exists s', def.
  assert (Hset : SetPlatformGlobal jsonb None CronWebhookAuthorization (Some (JStr text)) s = (None, s')).
  { unfold SetPlatformGlobal. change (platform_key CronWebhookAuthorization) with (@Ok ConfigError _ def). cbn [rbind].
    unfold validated. change (kd_Validate def) with headerCredential. rewrite Hv. cbn [rbind]. unfold encode_jsonb. cbn [mbind option_bind].
    by rewrite Hj. }
  assert (Hno : t ≫= (fun own => own !! CronWebhookAuthorization) = None) by (destruct t as [own|]; [by apply (Hown own)|done]).
  assert (Hget : effective_Get (Effective s' t) CronWebhookAuthorization = Ok (JStr text)).
  { unfold effective_Get. cbn [ec_tenant Effective]. rewrite Hno. unfold snapshot_Get.
    assert (ec_platform (Effective s' t) !! CronWebhookAuthorization = Some (JStr text)) as ->; [|done].
    cbn. apply map_lookup_filter_Some. split; [apply lookup_insert_eq|]. by eexists. }
  split_and!; [exact Hset|done|done| |].
  - apply list_elem_of_In. unfold TenantView. apply in_flat_map. exists def. split; [by do 6 right; left|].
    change (kd_Level def) with LevelTenant. change (kd_Key def) with CronWebhookAuthorization. rewrite Hget. cbn [ec_tenant Effective].
    rewrite Hno. by left.
  - unfold SecretRef. by rewrite Hget.
Qed.

(** The cached settings of a tenant are dropped when the write is made, before it is
    committed: a request that reads them in between caches the old ones again, and
    they are served for half a minute after the commit. *)
Lemma stale_setting_served now t key value s w s1 :
  SetTenant jsonb t key value s = (Ok w, s1) ->
  let read s := snd (EffectiveConfig_of now true t s) in
  let s2 := snd (committed read None (Ok w, s1)) in
  forall later, (now <= later <= now + TenantCacheTTL)%Z ->
    ec_tenant (fst (EffectiveConfig_of later true t s2)) = Some (tenant_overrides (st_tenant_configs s) t).
Proof.
  intros HS read s2 later Hl. assert (Hs1 : s1 = InvalidateTenant t s).
  { unfold SetTenant in HS. destruct (_ : result ConfigError json); [|done..]. by injection HS as _ <-. }
  subst s1. unfold s2, committed, read. cbn [snd].
  assert (Hc : st_tenants (snd (EffectiveConfig_of now true t (InvalidateTenant t s))) !! uuid_String t
               = Some (tenant_overrides (st_tenant_configs s) t, (now + TenantCacheTTL)%Z)).
  { unfold EffectiveConfig_of, CachedTenant. cbn [st_tenants InvalidateTenant with_cache]. rewrite lookup_delete_eq. cbn. apply lookup_insert_eq. }
  unfold EffectiveConfig_of at 1. unfold CachedTenant. cbn [st_tenants with_tenant_table]. rewrite Hc.
  destruct (Z.ltb_spec (now + TenantCacheTTL) later); [lia|done].
Qed.
End Leaks.

(** A colour, a logo or a name may be set to null, which is served as it is. *)
Lemma null_branding_accepted :
  forallb (fun key => match Lookup key with
                      | Some def => bool_decide (kd_Validate def (Some JNull) = None)
                      | None => false
                      end) [ThemePrimaryColor; ThemeLogoURL; ThemeDisplayName] = true.
Proof. vm_compute. reflexivity. Qed.

(** ** Examples *)

#[local] Existing Instance TestUuid.

Definition keep_json (j : json) : option json := Some j.
Definition tenant_a : @uuid TestUuid := "a".
Definition no_configs : Store := Unloaded ∅ ∅.
Definition no_conversions : Conversions := {| int64_beyond _ := 0%Z; uint64_beyond _ := 0%Z |}.
Definition ttl_set : result ConfigError TenantWrite * Store := SetTenant keep_json tenant_a AuthSessionTTLSeconds (Some (JNum "120")) no_configs.
Definition ttl_write : TenantWrite := put_row "uuid-a" AuthSessionTTLSeconds (JNum "120").

Lemma numeric_settings_bounded_witness :
  (AuthSessionTTLSeconds, 60%Z, 2592000%Z) ∈ bounded_keys /\
  exists n, effective_GetU64 (H := no_conversions) (fst (EffectiveConfig_of 0 true tenant_a
              (with_tenant_table (snd ttl_set) (ttl_write (st_tenant_configs (snd ttl_set)))))) AuthSessionTTLSeconds = Ok n /\ (60 <= n <= 2592000)%Z.
Proof.
  assert (Hk : (AuthSessionTTLSeconds, 60%Z, 2592000%Z) ∈ bounded_keys) by (unfold bounded_keys; set_solver).
  split; [exact Hk|].
  eapply (numeric_settings_bounded keep_json (fun j j' Hj => match Hj in _ = o return match o with Some j' => same_value j' j | None => True end with eq_refl => conj eq_refl eq_refl end)
    ∅ ∅ (mkSystem (with_tenant_table (snd ttl_set) (ttl_write (st_tenant_configs (snd ttl_set)))) []) 0 true tenant_a).
  - apply map_Forall_empty.
  - apply map_Forall_empty.
  - eapply rtc_l; [eapply (step_set_tenant keep_json tenant_a AuthSessionTTLSeconds (Some (JNum "120"))); reflexivity|].
    eapply rtc_once. exact (step_commit keep_json (snd ttl_set) [] ttl_write []).
  - apply surjective_pairing.
  - exact Hk.
Defined.

Lemma tenant_setting_takes_effect_witness :
  ttl_set = (Ok ttl_write, snd ttl_set) /\
  effective_Get (fst (EffectiveConfig_of 0 true tenant_a (with_tenant_table (snd ttl_set) (ttl_write (st_tenant_configs (snd ttl_set))))))
    AuthSessionTTLSeconds = Ok (JNum "120").
Proof.
  assert (Hs : ttl_set = (Ok ttl_write, snd ttl_set)) by reflexivity. split; [exact Hs|].
  destruct (tenant_setting_takes_effect keep_json 0 tenant_a AuthSessionTTLSeconds (Some (JNum "120")) no_configs ttl_write (snd ttl_set)
              (with_tenant_table (snd ttl_set) (ttl_write (st_tenant_configs (snd ttl_set)))) (or_introl Hs) eq_refl) as [Hget _].
  exact (Hget _ eq_refl Hs).
Defined.

Lemma platform_credential_is_shown_witness :
  headerCredential (Some (JStr "Bearer s3cret")) = None /\
  exists s' def, SetPlatformGlobal keep_json None CronWebhookAuthorization (Some (JStr "Bearer s3cret")) no_configs = (None, s') /\
  kd_Key def = CronWebhookAuthorization /\ kd_Secret def = true /\
  (def, JStr "Bearer s3cret", false) ∈ TenantView (Effective s' (Some ∅)) /\
  SecretRef (Effective s' (Some ∅)) CronWebhookAuthorization = Ok None.
Proof.
  assert (Hv : headerCredential (Some (JStr "Bearer s3cret")) = None) by reflexivity. split; [exact Hv|].
  apply (platform_credential_is_shown keep_json "Bearer s3cret" no_configs (Some ∅) Hv eq_refl).
  intros own [= <-]. apply lookup_empty.
Defined.
