(* ===== verification/Sessions.v ===== *)
(** Login and sessions (src/go/httpserver/routes_auth.go, cookies.go, routes_users.go):
    the password login, the sliding session, tokens for the caller's own identity, and
    the cookies.

    A request is its authentication inputs (Authn.v), the cookie of the login's instant
    and its decoded body. The users table is read through the platform's pool or a
    tenant's transaction; the configuration's store is threaded, its cache being filled
    by reads. Random values ([jti], the CSRF value) and the clock are arguments. *)
From S2P Require Import Prelude GoStrings GoText Json Floats Numbers Condition Context Uuid Evaluate Snapshot PermissionService Users PolicyStore Metadata Schema Router Payload Workflow AuditTrail Sql ConditionSql Jql Planner Records Times Crud CrudOutcomes CrudProps CrudState CrudReads Aggregate Authn Cron Outbound Wire Grpc GrpcProps RestRecords Config ConfigProps.

Open Scope string_scope.
Open Scope list_scope.

(** ** Cookies (cookies.go) *)

Definition SessionCookieName : string := "metap_session".
Definition CSRFCookieName : string := "metap_csrf".
Definition sessionStartedAtCookieName : string := "metap_session_started_at".

(** Every cookie has the path / and is lax. *)
Record Cookie : Type := baseCookie { ck_Name : string; ck_Value : string; ck_HttpOnly : bool; ck_Secure : bool; ck_MaxAge : Z }.

Definition sessionCookies (token csrfValue : string) (ttlSeconds : Z) (secure : bool) : list Cookie :=
  [baseCookie SessionCookieName token true secure ttlSeconds; baseCookie CSRFCookieName csrfValue false secure ttlSeconds].

Definition sessionStartedAtCookie (startedAtUnixSecs absoluteMaxSeconds : Z) (secure : bool) : Cookie :=
  baseCookie sessionStartedAtCookieName (FormatInt startedAtUnixSecs) true secure absoluteMaxSeconds.

Definition clearSessionCookies (secure : bool) : list Cookie :=
  [baseCookie SessionCookieName "" true secure (-1); baseCookie CSRFCookieName "" false secure (-1);
   baseCookie sessionStartedAtCookieName "" true secure (-1)].

Definition credentialIssuingRequestAllowed (r : AuthRequest) : bool :=
  if negb (String.eqb (rq_Authorization r) "") then true
  else match rq_SessionCookie r with
       | None => true
       | Some _ => CSRFMatches (rq_CSRFCookie r) (omitempty (rq_CSRFHeader r))
       end.

(** ** The handlers (routes_auth.go, routes_users.go) *)

(** A response and the cookies it sets. *)
Definition Reply : Type := Response * list Cookie.

Section LoginBody.
Context `{UuidLib}.

Record loginBody : Type := mkLogin { lb_Email : string; lb_Password : string; lb_TenantID : option uuid }.

Definition into_uuid_pointer (cur : option uuid * bool) (v : json) : option uuid * bool :=
  match v with
  | JStr s => match uuid_Parse s with Some u => (Some u, cur.2) | None => (cur.1, true) end
  | JNull => (None, cur.2)
  | _ => (cur.1, true)
  end.

Definition login_step (st : loginBody * bool) (kv : string * json) : loginBody * bool :=
  let '(mkLogin e p t, bad) := st in
  if key_matches "email" kv.1 then let '(e, bad) := into_string (e, bad) kv.2 in (mkLogin e p t, bad)
  else if key_matches "password" kv.1 then let '(p, bad) := into_string (p, bad) kv.2 in (mkLogin e p t, bad)
  else if key_matches "tenantId" kv.1 then let '(t, bad) := into_uuid_pointer (t, bad) kv.2 in (mkLogin e p t, bad)
  else st.

Definition decode_login (body : option json) : option loginBody := unmarshal_struct (mkLogin "" "" None) login_step body.
End LoginBody.

Section Handlers.
Context `{UuidLib} `{!Argon} `{!Jwt} `{!Conversions}.
Variable router : Router.
(** The users the platform's pool reads, and those a tenant's transaction reads. *)
Variable users_at : option uuid -> list UserRow.
Variable sort_users : list AuthUser -> list AuthUser.
(** The error of the commit of the login's transaction. *)
Variable commit_fault : option error.
Variable key : string.
Variable resolve : uuid -> uuid -> string -> result error RequestContext.
Variable cookie_secure : bool.
(** Whether the configuration of a tenant can be read. *)
Variable config_opens : uuid -> bool.

Definition SessionHandler : Type := Store -> result error Reply * Store.

Definition reply (r : Response) : SessionHandler := fun s => (Ok (r, []), s).

Definition begun (tenantID : uuid) : Response + unit :=
  match Begin router tenantID with
  | Ok _ => inr tt
  | Err f => inl (writeRouterUnavailable f)
  | Panic => inl (writeInternalError "")
  end.

Definition EffectiveU64 (now : Z) (tenantID : uuid) (k : string) (s : Store) : result error Z * Store :=
  let '(e, s') := EffectiveConfig_of (now * 1000000) (config_opens tenantID) tenantID s in (effective_GetU64 e k, s').

Definition sessionTTLSeconds (now : Z) (tenantID : uuid) (s : Store) : result error Z * Store :=
  EffectiveU64 now tenantID AuthSessionTTLSeconds s.

Definition token_body (token : string) : json := data_body (JObj [("token", JStr token)]).

(** Who the credentials are: through the named tenant, or the platform. *)
Definition verified (b : loginBody) : Response + option AuthUser :=
  match lb_TenantID b with
  | Some t =>
    match begun t with
    | inl r => inl r
    | inr _ =>
      match VerifyCredentials (users_at (Some t)) (lb_Email b) (lb_Password b) with
      | Ok (Some u) => match commit_fault with Some e => inl (writeInternalError e) | None => inr (Some u) end
      | Ok None => inr None
      | Err e => inl (writeInternalError e)
      | Panic => inl (writeInternalError "")
      end
    end
  | None =>
    match VerifyCredentials (users_at None) (lb_Email b) (lb_Password b) with
    | Ok u => inr u
    | Err e => inl (writeInternalError e)
    | Panic => inl (writeInternalError "")
    end
  end.

Definition login (now : Z) (jti csrfValue : string) (body : option json) : SessionHandler := fun s =>
  match decode_login body with
  | None => reply (writeServiceError 400 "validation_failed" "Invalid request body." None) s
  | Some b =>
    match verified b with
    | inl r => reply r s
    | inr None => reply (writeServiceError 401 "invalid_credentials" "Invalid email or password." None) s
    | inr (Some u) =>
      match sessionTTLSeconds now (au_TenantID u) s with
      | (Ok ttl, s1) =>
        let token := MintJWT key now jti (au_TenantID u) (au_ID u) ttl in
        match EffectiveU64 now (au_TenantID u) AuthSessionAbsoluteMaxSeconds s1 with
        | (Ok absoluteMax, s2) =>
          (Ok (mkResponse 200 (token_body token),
               sessionCookies token csrfValue ttl cookie_secure ++ [sessionStartedAtCookie now absoluteMax cookie_secure]), s2)
        | (Err e, s2) => (Err e, s2)
        | (Panic, s2) => (Panic, s2)
        end
      | (Err e, s1) => (Err e, s1)
      | (Panic, s1) => (Panic, s1)
      end
    end
  end.

Definition logout : SessionHandler := fun s => (Ok (mkResponse 204 JNull, clearSessionCookies cookie_secure), s).

Definition nullableString (s : string) : json := if String.eqb s "" then JNull else JStr s.

Definition resolveOwnEmail (rc : RequestContext) : json :=
  match uuid_Parse (rc_UserID rc), ScopedTenant rc with
  | Some userID, Ok tenantID =>
    match begun tenantID with
    | inl _ => JNull
    | inr _ => match FindUserByID (users_at (Some tenantID)) tenantID userID with Some u => JStr (au_Email u) | None => JNull end
    end
  | _, _ => JNull
  end.

(** The difference of two int64. *)
Definition sub64 (a b : Z) : Z := ((a - b + 2 ^ 63) mod 2 ^ 64 - 2 ^ 63)%Z.

(** The cookies of a session that is carried on; none when it is not. *)
Definition tryRefreshSession (now : Z) (jti : string) (r : AuthRequest) (started : option string) (rc : RequestContext) (s : Store)
  : result error (list Cookie) * Store :=
  match rq_SessionCookie r, started ≫= (fun v => ParseInt v 64), rq_CSRFCookie r, uuid_Parse (rc_TenantID rc), uuid_Parse (rc_UserID rc) with
  | Some session, Some startedAt, Some csrf, Some tenantID, Some userID =>
    if String.eqb session "" then (Ok [], s) else
    let '(e, s') := EffectiveConfig_of (now * 1000000) (config_opens tenantID) tenantID s in
    (let! absoluteMax := effective_GetU64 e AuthSessionAbsoluteMaxSeconds in
     if (absoluteMax <=? sub64 now startedAt)%Z then Ok []
     else
       let! ttl := effective_GetU64 e AuthSessionTTLSeconds in
       Ok (sessionCookies (MintJWT key now jti tenantID userID ttl) csrf ttl cookie_secure), s')
  | _, _, _, _, _ => (Ok [], s)
  end.

Definition roles_json (roles : option (list string)) : json := match roles with Some l => strings_json l | None => JNull end.

Definition me (now : Z) (jti : string) (r : AuthRequest) (started : option string) : SessionHandler := fun s =>
  match authenticate resolve key now r with
  | inl e => reply (auth_respond e) s
  | inr rc =>
    let email := resolveOwnEmail rc in
    match tryRefreshSession now jti r started rc s with
    | (Ok cookies, s') =>
      (Ok (mkResponse 200 (data_body (JObj [("userId", nullableString (rc_UserID rc)); ("tenantId", JStr (rc_TenantID rc));
                                            ("email", email); ("roles", roles_json (rc_Roles rc))])), cookies), s')
    | (Err e, s') => (Err e, s')
    | (Panic, s') => (Panic, s')
    end
  end.

Definition issueToken (now : Z) (jti : string) (r : AuthRequest) : SessionHandler := fun s =>
  match authenticate resolve key now r with
  | inl e => reply (auth_respond e) s
  | inr rc =>
    if negb (credentialIssuingRequestAllowed r) then reply (writeServiceError 401 "unauthorized" "Missing or invalid CSRF token." None) s
    else match uuid_Parse (rc_TenantID rc), uuid_Parse (rc_UserID rc) with
         | Some tenantID, Some userID =>
           match sessionTTLSeconds now tenantID s with
           | (Ok ttl, s') => (Ok (mkResponse 200 (token_body (MintJWT key now jti tenantID userID ttl)), []), s')
           | (Err e, s') => (Err e, s')
           | (Panic, s') => (Panic, s')
           end
         | _, _ => reply (writeInternalError "invalid UUID") s
         end
  end.

Definition listUsersForTenant (now : Z) (r : AuthRequest) : SessionHandler := fun s =>
  match authenticate resolve key now r with
  | inl e => reply (auth_respond e) s
  | inr rc =>
    match ScopedTenant rc with
    | Ok tenantID =>
      match begun tenantID with
      | inl resp => reply resp s
      | inr _ =>
        reply (mkResponse 200 (data_body (JArr (map (fun u => JObj [("id", uuid_json (au_ID u)); ("email", JStr (au_Email u))])
                 (ListTenantUsers sort_users (users_at (Some tenantID)) tenantID))))) s
      end
    | Err e => reply (writeInternalError e) s
    | Panic => (Panic, s)
    end
  end.
End Handlers.

(** ** Properties *)

Section SessionProps.
Context `{UuidLib} `{!UuidLaws _} `{!Argon} `{!Jwt} `{!JwtLaws} `{!Conversions}.
Variable router : Router.
Variable users_at : option uuid -> list UserRow.
Variable commit_fault : option error.
Variable key : string.
Variable resolve : uuid -> uuid -> string -> result error RequestContext.
Variable cookie_secure : bool.
Variable config_opens : uuid -> bool.

Notation the_login := (login router users_at commit_fault key cookie_secure config_opens).
Notation the_token := (issueToken key resolve config_opens).
Notation the_refresh := (tryRefreshSession key cookie_secure config_opens).

Lemma ttl_key : (AuthSessionTTLSeconds, 60%Z, 2592000%Z) ∈ bounded_keys.
Proof. unfold bounded_keys. set_solver. Qed.
Lemma cap_key : (AuthSessionAbsoluteMaxSeconds, 3600%Z, 2592000%Z) ∈ bounded_keys.
Proof. unfold bounded_keys. set_solver. Qed.

(** A setting read while the stored values are valid. *)
Lemma EffectiveU64_bounded now t k lo hi s n s' :
  valid s -> (k, lo, hi) ∈ bounded_keys -> EffectiveU64 config_opens now t k s = (n, s') ->
  valid s' /\ exists z, n = Ok z /\ (lo <= z <= hi)%Z.
Proof.
  intros Hs Hk. unfold EffectiveU64. destruct (EffectiveConfig_of (now * 1000000) (config_opens t) t s) as [e s1] eqn:He. intros [= <- <-].
  split.
  - unfold EffectiveConfig_of in He. destruct (CachedTenant _ s t); [by injection He as _ <-|].
    destruct (config_opens t); [|by injection He as _ <-]. destruct (LoadTenant (now * 1000000) t s) as [snap s2] eqn:Hl. injection He as _ <-.
    by eapply LoadTenant_valid.
  - by eapply effective_bounded.
Qed.

Lemma minted_authenticates now now' jti t u ttl r rc :
  request_token r = inr (MintJWT key now jti t u ttl) -> resolve t u "" = Ok rc -> (now' < now + ttl + 20)%Z ->
  authenticate resolve key now' r = inr rc.
Proof. intros Hr Hres Hn. by rewrite (authenticate_minted _ _ _ _ _ _ _ _ _ _ _ _ Hr Hn Hres). Qed.

(** A login with the right password opens a session of that user and nothing
    else: the token it answers with, also set as the session cookie, lives between a
    minute and thirty days, authenticates until twenty seconds after its end as the
    user in the user's own tenant with no OAuth2 restriction, and is refused from then
    on. Any other credentials are answered alike, whether the email is unknown or the
    password wrong, and change nothing. *)
Lemma login_opens_session now jti csrf body b s :
  valid s -> decode_login body = Some b ->
  (forall u rc, verified router users_at commit_fault b = inr (Some u) -> resolve (au_TenantID u) (au_ID u) "" = Ok rc ->
     exists ttl cap s', (60 <= ttl <= 2592000)%Z /\
       the_login now jti csrf body s =
         (Ok (mkResponse 200 (token_body (MintJWT key now jti (au_TenantID u) (au_ID u) ttl)),
              sessionCookies (MintJWT key now jti (au_TenantID u) (au_ID u) ttl) csrf ttl cookie_secure ++ [sessionStartedAtCookie now cap cookie_secure]), s') /\
       forall r now', request_token r = inr (MintJWT key now jti (au_TenantID u) (au_ID u) ttl) ->
         ((now' < now + ttl + 20)%Z -> authenticate resolve key now' r = inr rc) /\
         ((now + ttl + 20 <= now')%Z -> authenticate resolve key now' r = inl (Unauthorized "Invalid or expired token."))) /\
  (verified router users_at commit_fault b = inr None ->
     the_login now jti csrf body s = (Ok (writeServiceError 401 "invalid_credentials" "Invalid email or password." None, []), s)).
Proof.
  intros Hs Hb. unfold login. rewrite Hb. split; [|by intros ->].
  intros u rc -> Hres. unfold sessionTTLSeconds.
  destruct (EffectiveU64 config_opens now (au_TenantID u) AuthSessionTTLSeconds s) as [n s1] eqn:Ettl.
  destruct (EffectiveU64_bounded _ _ _ _ _ _ _ _ Hs ttl_key Ettl) as [Hs1 (ttl & -> & Httl)].
  destruct (EffectiveU64 config_opens now (au_TenantID u) AuthSessionAbsoluteMaxSeconds s1) as [m s2] eqn:Ecap.
  destruct (EffectiveU64_bounded _ _ _ _ _ _ _ _ Hs1 cap_key Ecap) as [_ (cap & -> & _)].
  exists ttl, cap, s2. split; [done|]. split; [done|]. intros r now' Hr. split.
  - intros Hn. by eapply minted_authenticates.
  - intros Hn. unfold authenticate. rewrite Hr. unfold MintJWT. by rewrite DecodeAccessToken_expired by lia.
Qed.

Lemma bearer_is_allowed r : rq_Authorization r <> "" -> credentialIssuingRequestAllowed r = true.
Proof. intros Hne. unfold credentialIssuingRequestAllowed. by destruct (String.eqb_spec (rq_Authorization r) "") as [|_]. Qed.

(** C26. A third party's restricted token buys an unrestricted one: a request that
    authenticates with the token of an OAuth2 grant, whatever its scope, and passes the
    CSRF check (every bearer request does), is answered by the token endpoint of the
    session with a token of the same user and tenant that carries no scope, so that a
    request with it has every right of the user. *)
Theorem token_endpoint_drops_scope now jti r rc0 rc tenantID userID s :
  valid s -> credentialIssuingRequestAllowed r = true -> authenticate resolve key now r = inr rc ->
  uuid_Parse (rc_TenantID rc) = Some tenantID -> uuid_Parse (rc_UserID rc) = Some userID ->
  resolve tenantID userID "" = Ok rc0 -> OAuthScope rc0 = None ->
  exists token s', the_token now jti r s = (Ok (mkResponse 200 (token_body token), []), s') /\
    forall r', request_token r' = inr token ->
      authenticate resolve key now r' = inr rc0 /\
      (forall entity action, ScopePermits rc0 entity action = true) /\ ScopePermitsAdminSurface rc0 = true.
Proof.
  intros Hs Hauth Hrc Ht Hu Hres Hsc. unfold issueToken. rewrite Hrc, Hauth. cbn [negb]. rewrite Ht, Hu. unfold sessionTTLSeconds.
  destruct (EffectiveU64 config_opens now tenantID AuthSessionTTLSeconds s) as [n s1] eqn:Ettl.
  destruct (EffectiveU64_bounded _ _ _ _ _ _ _ _ Hs ttl_key Ettl) as [_ (ttl & -> & Httl)].
  eexists _, s1. split; [reflexivity|]. intros r' Hr'. split; [eapply minted_authenticates; [exact Hr'|done|lia]|].
  unfold ScopePermits, ScopePermitsAdminSurface. by rewrite Hsc.
Qed.

(** The session's first instant is what the request's cookie says: with the present
    one the session is carried on for another full period, however old it is. *)
Lemma session_start_is_claimed now jti r rc t u session csrf s :
  valid s -> (0 <= now < 2 ^ 62)%Z -> rq_SessionCookie r = Some session -> session <> "" -> rq_CSRFCookie r = Some csrf ->
  uuid_Parse (rc_TenantID rc) = Some t -> uuid_Parse (rc_UserID rc) = Some u ->
  exists ttl s', the_refresh now jti r (Some (FormatInt now)) rc s
    = (Ok (sessionCookies (MintJWT key now jti t u ttl) csrf ttl cookie_secure), s').
Proof.
  intros Hs Hnow Hse Hne Hcs Ht Hu. unfold tryRefreshSession. rewrite Hse, Hcs, Ht, Hu. cbn [mbind option_bind].
  rewrite ParseInt_FormatInt by (unfold in_bits; rewrite andb_true_iff, Z.leb_le, Z.ltb_lt; lia).
  destruct (String.eqb_spec session ""); [done|].
  destruct (EffectiveConfig_of (now * 1000000) (config_opens t) t s) as [e s1] eqn:He.
  destruct (effective_bounded (now * 1000000) (config_opens t) t s e s1 _ _ _ Hs He cap_key) as (cap & -> & Hcap).
  destruct (effective_bounded (now * 1000000) (config_opens t) t s e s1 _ _ _ Hs He ttl_key) as (ttl & -> & Httl).
  cbn [rbind]. assert (sub64 now now = 0%Z) as -> by (unfold sub64; rewrite Z.sub_diag; reflexivity).
  destruct (Z.leb_spec cap 0); [lia|]. by eexists _, _.
Qed.
End SessionProps.

(** ** Examples *)

#[local] Existing Instance TestUuid.
#[local] Existing Instance no_conversions.

Definition ada : AuthUser := mkAuthUser ("u1" : @uuid TestUuid) ("t1" : @uuid TestUuid) "ada@x.org".
Definition test_users (_ : option (@uuid TestUuid)) : list UserRow := [mkUserRow ada (Some "$pw") "local" None].
Definition test_login : option json := Some (JObj [("email", JStr "ada@x.org"); ("password", JStr "pw")]).
Definition ada_login : loginBody := mkLogin "ada@x.org" "pw" None.
Definition all_open (_ : @uuid TestUuid) : bool := true.

Lemma no_configs_valid : valid no_configs.
Proof. apply (unloaded_valid ∅ ∅); apply map_Forall_empty. Qed.

Lemma login_opens_session_witness :
  verified test_router test_users None ada_login = inr (Some ada) /\
  exists ttl cap s', (60 <= ttl <= 2592000)%Z /\
    login test_router test_users None "k" true all_open 100 "j" "c" test_login no_configs =
      (Ok (mkResponse 200 (token_body (MintJWT "k" 100 "j" (au_TenantID ada) (au_ID ada) ttl)),
           sessionCookies (MintJWT "k" 100 "j" (au_TenantID ada) (au_ID ada) ttl) "c" ttl true ++ [sessionStartedAtCookie 100 cap true]), s').
Proof.
  assert (Hv : verified test_router test_users None ada_login = inr (Some ada)) by reflexivity. split; [exact Hv|].
  destruct (login_opens_session test_router test_users None "k" test_resolve true all_open 100 "j" "c" test_login ada_login no_configs
              no_configs_valid eq_refl) as [Hl _].
  destruct (Hl ada test_context Hv eq_refl) as (ttl & cap & s' & Hb & He & _). exists ttl, cap, s'. split; [exact Hb|exact He].
Defined.

Definition scoped_request : AuthRequest := mkAuthRequest "GET" "" (Some (scoped_token "read:crm.lead")) (Some "c") "c".
Definition scoped_context : RequestContext := ApplyOAuthGrant test_context "read:crm.lead" "mcl_1" true.

Lemma token_endpoint_drops_scope_witness :
  authenticate test_resolve "k" 200 scoped_request = inr scoped_context /\ ScopePermitsAdminSurface scoped_context = false /\
  exists token s', issueToken "k" test_resolve all_open 200 "j" scoped_request no_configs = (Ok (mkResponse 200 (token_body token), []), s') /\
    forall r', request_token r' = inr token -> authenticate test_resolve "k" 200 r' = inr test_context /\ ScopePermitsAdminSurface test_context = true.
Proof.
  assert (Ha : authenticate test_resolve "k" 200 scoped_request = inr scoped_context)
    by exact (authenticate_minted test_resolve "k" 100 200 "j" "t1" "u1" 3600 "read:crm.lead" "mcl_1" scoped_request test_context eq_refl eq_refl eq_refl).
  split; [exact Ha|]. split; [vm_compute; reflexivity|].
  destruct (token_endpoint_drops_scope "k" test_resolve all_open 200 "j" scoped_request test_context scoped_context "t1" "u1" no_configs
              no_configs_valid eq_refl Ha eq_refl eq_refl eq_refl eq_refl) as (token & s' & He & Hr).
  exists token, s'. split; [exact He|]. intros r' Hr'. destruct (Hr r' Hr') as (H1 & _ & H2). by split.
Defined.
