(* ===== verification/ConfigRoutes.v ===== *)
(** The configuration routes (src/go/httpserver/routes_platform_config.go and
    routes_tenant_config.go): the platform's settings, a tenant's own, and the public
    ones a login page reads by its hostname. *)
From S2P Require Import Prelude GoStrings GoText Json Floats Numbers Condition Context Uuid Evaluate Snapshot PermissionService Users PolicyStore Metadata Schema Router Payload Workflow AuditTrail Sql ConditionSql Jql Planner Records Times Crud CrudOutcomes CrudProps CrudState CrudReads Aggregate Authn Cron Outbound Wire Grpc GrpcProps RestRecords Config ConfigProps Sessions.

Open Scope string_scope.
Open Scope list_scope.

Definition configLevelName (level : Level) : string :=
  match level with LevelOperator => "operator" | LevelPlatformGlobal => "platformGlobal" | LevelTenant => "tenant" end.

Definition configErrorResponse (e : ConfigError) : Response :=
  match e with
  | ErrUnknownKey key => writeServiceError 404 "unknown_config_key" ("No config key named " +:+ quote +:+ key +:+ quote +:+ ".") None
  | ErrNotWritable key reason =>
    writeServiceError 403 "config_key_not_writable" ("Config key " +:+ quote +:+ key +:+ quote +:+ " cannot be set here: " +:+ reason) None
  | ErrInvalid key reason =>
    writeServiceError 422 "invalid_config_value" ("Invalid value for " +:+ quote +:+ key +:+ quote +:+ ": " +:+ reason) None
  | ErrDB cause => writeInternalError cause
  end.

(** setConfigBody: its one member, [None] when it is absent. *)
Definition value_step (st : RawMessage * bool) (kv : string * json) : RawMessage * bool :=
  if key_matches "value" kv.1 then (Some kv.2, st.2) else st.
Definition decode_value (body : option json) : option RawMessage := unmarshal_struct None value_step body.

Definition raw_json (v : RawMessage) : json := default JNull v.

Definition appliesImmediately (key : string) : bool :=
  negb (String.eqb key HTTPRateLimitPerMs) && negb (String.eqb key HTTPRateLimitBurst).

Section Routes.
Context `{UuidLib}.
Variable jsonb : json -> option json.
Variable router : Router.
Variable config_opens : uuid -> bool.
Variable now : Z.

Definition ConfigHandler : Type := Store -> result error Response * Store.

Definition answered (r : Response) : ConfigHandler := fun s => (Ok r, s).

Definition authorized (auth : authError + RequestContext) (k : RequestContext -> ConfigHandler) : ConfigHandler :=
  match auth with inl e => answered (auth_respond e) | inr rc => k rc end.

Definition scoped (rc : RequestContext) (k : uuid -> ConfigHandler) : ConfigHandler :=
  match ScopedTenant rc with
  | Ok t => k t
  | Err e => answered (writeInternalError e)
  | Panic => fun s => (Panic, s)
  end.

Definition in_transaction (t : uuid) (k : ConfigHandler) : ConfigHandler :=
  match begun router t with inl r => answered r | inr _ => k end.

(** ** The platform's settings *)

Definition platform_item (entry : KeyDef * json) : json :=
  JObj [("key", JStr (kd_Key entry.1)); ("level", JStr (configLevelName (kd_Level entry.1)));
        ("tenantOverridable", JBool (bool_decide (kd_Level entry.1 = LevelTenant))); ("value", entry.2)].

Definition listPlatformConfig (auth : authError + RequestContext) : ConfigHandler :=
  authorized auth (fun _ s => answered (mkResponse 200 (data_body (JArr (map platform_item (PlatformWritableView (Current s)))))) s).

Definition platform_set_body (key : string) (v : json) : json :=
  data_body (JObj [("appliesImmediately", JBool (appliesImmediately key)); ("key", JStr key); ("value", v)]).

Definition setPlatformConfig (fault : option error) (auth : authError + RequestContext) (key : string) (body : option json) : ConfigHandler :=
  authorized auth (fun _ s =>
    match decode_value body with
    | None => answered (writeServiceError 400 "validation_failed" "Invalid request body." None) s
    | Some value =>
      match SetPlatformGlobal jsonb fault key value s with
      | (Some e, s') => (Ok (configErrorResponse e), s')
      | (None, s') => (Ok (mkResponse 200 (platform_set_body key (raw_json value))), s')
      end
    end).

Definition resetPlatformConfig (fault : option error) (auth : authError + RequestContext) (key : string) : ConfigHandler :=
  authorized auth (fun _ s =>
    match ResetPlatformGlobal fault key s with
    | (Some e, s') => (Ok (configErrorResponse e), s')
    | (None, s') =>
      match snapshot_Get (Current s') key with
      | Ok v => (Ok (mkResponse 200 (platform_set_body key v)), s')
      | Err e => (Err e, s')
      | Panic => (Panic, s')
      end
    end).

(** ** A tenant's settings *)

Definition tenant_item (entry : KeyDef * json * bool) : json :=
  JObj [("key", JStr (kd_Key entry.1.1)); ("level", JStr (configLevelName (kd_Level entry.1.1))); ("overridden", JBool entry.2);
        ("public", JBool (kd_Public entry.1.1)); ("value", entry.1.2)].

Definition listTenantConfig (auth : authError + RequestContext) : ConfigHandler :=
  authorized auth (fun rc => scoped rc (fun t s =>
    let '(e, s') := EffectiveConfig_of now (config_opens t) t s in
    (Ok (mkResponse 200 (data_body (JArr (map tenant_item (TenantView e))))), s'))).

Definition tenant_set_body (key : string) (v : json) (overridden : bool) : json :=
  data_body (JObj [("key", JStr key); ("overridden", JBool overridden); ("value", v)]).

Definition setTenantConfig (others : Store -> Store) (fault : option error) (auth : authError + RequestContext) (key : string) (body : option json)
  : ConfigHandler :=
  authorized auth (fun rc s =>
    match decode_value body with
    | None => answered (writeServiceError 400 "validation_failed" "Invalid request body." None) s
    | Some value =>
      scoped rc (fun t => in_transaction t (fun s =>
        match committed others fault (SetTenant jsonb t key value s) with
        | (Ok _, s') => (Ok (mkResponse 200 (tenant_set_body key (raw_json value) true)), s')
        | (Err e, s') => (Ok (configErrorResponse e), s')
        | (Panic, s') => (Panic, s')
        end)) s
    end).

Definition resetTenantConfig (others : Store -> Store) (fault : option error) (auth : authError + RequestContext) (key : string) : ConfigHandler :=
  authorized auth (fun rc => scoped rc (fun t => in_transaction t (fun s =>
    match committed others fault (ResetTenant t key s) with
    | (Ok _, s1) =>
      let '(e, s2) := EffectiveConfig_of now (config_opens t) t s1 in
      match effective_Get e key with
      | Ok v => (Ok (mkResponse 200 (tenant_set_body key v false)), s2)
      | Err e => (Err e, s2)
      | Panic => (Panic, s2)
      end
    | (Err e, s') => (Ok (configErrorResponse e), s')
    | (Panic, s') => (Panic, s')
    end))).

(** ** The public settings *)

(** [lookup] is the query of the hostnames; [None] when it fails. *)
Definition requestHostname (host : string) : option string := if String.eqb host "" then None else NormalizeHostname host.

Definition public_item (entry : string * json) : json := JObj [("key", JStr entry.1); ("value", entry.2)].

Definition publicConfig (hostnames : option (gmap string uuid)) (host : string) : ConfigHandler := fun s =>
  let '(e, s') :=
    match requestHostname host ≫= (fun h => hostnames ≫= (fun table => TenantIDForHostname table h)) with
    | Some t => EffectiveConfig_of now (config_opens t) t s
    | None => (Effective s None, s)
    end in
  (Ok (mkResponse 200 (data_body (JArr (map public_item (PublicView e))))), s').
End Routes.

(** ** Properties *)

Section RouteProps.
Context `{UuidLib}.
Variable jsonb : json -> option json.
Variable router : Router.
Variable config_opens : uuid -> bool.
Variable now : Z.

(** A refused write changes nothing, on either route, unless the refusal comes after
    the platform's table was written. *)
Lemma refused_writes_change_nothing auth key body others fault s :
  (forall e, auth = inl e -> setPlatformConfig jsonb fault auth key body s = (Ok (auth_respond e), s) /\
                             setTenantConfig jsonb router others fault auth key body s = (Ok (auth_respond e), s)) /\
  (forall rc value def, auth = inr rc -> decode_value body = Some value -> Lookup key = Some def -> kd_Level def = LevelOperator ->
     setPlatformConfig jsonb fault auth key body s = (Ok (configErrorResponse (ErrNotWritable key operator_reason)), s) /\
     forall t, ScopedTenant rc = Ok t -> begun router t = inr tt ->
       setTenantConfig jsonb router others fault auth key body s = (Ok (configErrorResponse (ErrNotWritable key operator_reason)), s)).
Proof.
  split; [by intros e ->|]. intros rc value def -> Hb Hl Hlev. unfold setPlatformConfig, setTenantConfig, authorized. rewrite Hb. split.
  - unfold SetPlatformGlobal, platform_key. rewrite Hl, bool_decide_eq_true_2 by done. done.
  - intros t Ht Hbeg. unfold scoped, in_transaction. rewrite Ht, Hbeg. unfold SetTenant, tenantWritableKey. rewrite Hl, Hlev. done.
Qed.

(** The public configuration is the branding and nothing more: whoever asks,
    under whatever hostname, gets exactly the three branding keys in order, and a
    hostname that is unusable, unknown or cannot be looked up is answered exactly as
    that of a tenant that has set nothing. *)
Lemma public_config_is_branding hostnames host s :
  exists e s', publicConfig config_opens now hostnames host s
      = (Ok (mkResponse 200 (data_body (JArr (map public_item (PublicView e))))), s') /\
    map fst (PublicView e) = [ThemePrimaryColor; ThemeLogoURL; ThemeDisplayName] /\ ec_platform e = Current s /\
    ((requestHostname host ≫= (fun h => hostnames ≫= (fun table => TenantIDForHostname table h))) = None ->
       s' = s /\ forall t snap, snap !! ThemePrimaryColor = None -> snap !! ThemeLogoURL = None -> snap !! ThemeDisplayName = None ->
         CachedTenant now s t = Some snap -> PublicView e = PublicView (fst (EffectiveConfig_of now (config_opens t) t s))).
Proof.
  unfold publicConfig.
  destruct (requestHostname host ≫= (fun h => hostnames ≫= (fun table => TenantIDForHostname table h))) as [t|] eqn:Hh.
  - destruct (EffectiveConfig_of now (config_opens t) t s) as [e s'] eqn:He. exists e, s'. split; [done|].
    split; [by apply public_keys|]. split; [|done]. unfold EffectiveConfig_of in He. destruct (CachedTenant now s t); [by injection He as <- _|].
    destruct (config_opens t); [|by injection He as <- _]. cbn in He. by injection He as <- _.
  - eexists _, s. split; [done|]. split; [by apply public_keys|]. split; [done|]. intros _. split; [done|].
    intros t snap H1 H2 H3 Hc. unfold EffectiveConfig_of. rewrite Hc. unfold PublicView, Registry, effective_Get. cbn [flat_map kd_Public kd_Key fst ec_tenant Effective mbind option_bind ec_platform app].
    by rewrite H1, H2, H3.
Qed.
End RouteProps.
