(* ===== verification/AdminRoutes.v ===== *)
(** The administration of a tenant (src/go/httpserver/routes_admin.go): users, roles
    and policies.

    A handler takes the outcome of its authentication, the decoded body ([None] when
    it does not decode) and the identifiers of its path ([None] when they do not
    parse). A transaction's writes are applied when it is committed; [commit_fault] is
    the error of the commit, if it fails. *)
From S2P Require Import Prelude GoStrings GoText Json Floats Numbers Condition Context Uuid Evaluate Snapshot PermissionService Users PolicyStore Metadata Schema Router Payload Workflow AuditTrail Sql ConditionSql Jql Planner Records Times Crud CrudOutcomes CrudProps CrudState CrudReads Aggregate Authn Cron Outbound CronScheduler CronRoutes CronExamples CronProps CronAdmin Wire Grpc GrpcProps RestRecords Config ConfigProps Sessions.

Open Scope string_scope.
Open Scope list_scope.

Section Admin.
Context `{UuidLib} {St C : Type} `{!PolicyStore St} `{!Cache C} `{!Argon}.
Variable router : Router.
Variable column_fault : UserRow -> option error.
Variable fresh_user : list UserRow -> uuid.
(** The error of a role the column does not take. *)
Variable role_fault : string -> option error.
Variable commit_fault : option error.
Variable salt : string.

Record AdminWorld : Type := mkAdminWorld {
  aw_users : list UserRow;
  aw_roles : list (uuid * uuid * string);
  aw_policies : St;
  aw_cache : option C;
  aw_context : ContextAttributesCache
}.

Inductive AdminAnswer : Type :=
| UserCreated (user : AuthUser) (roles : list string)
| UserList (users : list (uuid * list string))
| RoleAssigned (userID : uuid) (role : string)
| NoContent
| PolicyData (row : PolicyRow)
| PoliciesCreated (rows : list PolicyRow)
| PolicyList (rows : list PolicyRow)
| Explained (explanation : PolicyExplanation).

Notation Handle := (Handler AdminWorld AdminAnswer).

Definition bad_request {B} (message : string) : Handler AdminWorld B := refuse (ResultErrWithMessage 400 "validation_failed" message).

Definition admin_of (auth : authError + RequestContext) : Handler AdminWorld RequestContext :=
  match auth with
  | inr rc => hret rc
  | inl (Unauthorized m) => refuse (ResultErrWithMessage 401 "unauthorized" m)
  | inl (ForbiddenError m) => refuse (ResultErrWithMessage 403 "forbidden" m)
  end.

Definition body_of {B} (body : option B) : Handler AdminWorld B :=
  match body with Some b => hret b | None => bad_request "Invalid request body." end.

Definition path_uuid (name : string) (id : option uuid) : Handler AdminWorld uuid :=
  match id with Some u => hret u | None => bad_request ("`" +:+ name +:+ "` must be a UUID.") end.

Definition tx_begin (tenantID : uuid) : Handler AdminWorld unit :=
  match Begin router tenantID with
  | Ok _ => hret tt
  | Err e => match routerUnavailable e with Some r => refuse r | None => hfail (failure_text e) end
  | Panic => hpanic
  end.

(** The commit: the writes are there, or nothing is. *)
Definition tx_commit (write : AdminWorld -> AdminWorld) : Handler AdminWorld unit := fun w =>
  match commit_fault with Some e => (Err (Failed e), w) | None => (Ok tt, write w) end.

Definition set_users (users : list UserRow) (roles : list (uuid * uuid * string)) (w : AdminWorld) : AdminWorld :=
  mkAdminWorld users roles (aw_policies w) (aw_cache w) (aw_context w).
Definition set_roles (roles : list (uuid * uuid * string)) (w : AdminWorld) : AdminWorld := set_users (aw_users w) roles w.
Definition set_policies (st : St) (cache : option C) (w : AdminWorld) : AdminWorld :=
  mkAdminWorld (aw_users w) (aw_roles w) st cache (aw_context w).

Definition assign (rows : list (uuid * uuid * string)) (tenantID userID : uuid) (role : string)
  : result error (list (uuid * uuid * string)) :=
  match role_fault role with Some e => Err e | None => Ok (AssignRole rows tenantID userID role) end.

Fixpoint assign_all (rows : list (uuid * uuid * string)) (tenantID userID : uuid) (roles : list string)
  : result error (list (uuid * uuid * string)) :=
  match roles with
  | [] => Ok rows
  | role :: rest => let! rows' := assign rows tenantID userID role in assign_all rows' tenantID userID rest
  end.

(** ** Users and roles *)

Record createUserBody : Type := mkCreateUser { cu_Email : string; cu_Password : string; cu_Roles : list string }.

Definition created_user (tenantID : uuid) (b : createUserBody) : Handler AdminWorld (AuthUser * list UserRow) := fun w =>
  match CreateUser column_fault fresh_user salt (aw_users w) tenantID (cu_Email b) (cu_Password b) with
  | Ok r => (Ok r, w)
  | Err PgUnique => refuse (ResultErrWithMessage 409 "email_taken" "A user with this email already exists.") w
  | Err (OtherPgError e) => hfail e w
  | Panic => hpanic w
  end.

Definition reading {B} (f : AdminWorld -> B) : Handler AdminWorld B := fun w => (Ok (f w), w).

Definition createUserAdmin (auth : authError + RequestContext) (body : option createUserBody) : Handle :=
  let* rc := admin_of auth in
  let* b := body_of body in
  let* tenantID := hlift (ScopedTenant rc) in
  let* _ := tx_begin tenantID in
  let* (user, users) := created_user tenantID b in
  let* rows := reading aw_roles in
  let* roles := hlift (assign_all rows tenantID (au_ID user) (cu_Roles b)) in
  let* _ := tx_commit (set_users users roles) in
  hret (UserCreated user (cu_Roles b)).

Definition listUsersAdmin (auth : authError + RequestContext) : Handle :=
  let* rc := admin_of auth in
  let* tenantID := hlift (ScopedTenant rc) in
  let* _ := tx_begin tenantID in
  let* rows := reading aw_roles in
  hret (UserList (ListUsers rows tenantID)).

Definition assignRoleAdmin (auth : authError + RequestContext) (userID : option uuid) (body : option string) : Handle :=
  let* rc := admin_of auth in
  let* userID := path_uuid "userId" userID in
  let* role := body_of body in
  let* tenantID := hlift (ScopedTenant rc) in
  let* _ := tx_begin tenantID in
  let* rows := reading aw_roles in
  let* roles := hlift (assign rows tenantID userID role) in
  let* _ := tx_commit (set_roles roles) in
  hret (RoleAssigned userID role).

Definition revokeRoleAdmin (auth : authError + RequestContext) (userID : option uuid) (role : string) : Handle :=
  let* rc := admin_of auth in
  let* userID := path_uuid "userId" userID in
  let* tenantID := hlift (ScopedTenant rc) in
  let* _ := tx_begin tenantID in
  let* rows := reading aw_roles in
  let* _ := tx_commit (set_roles (RevokeRole rows tenantID userID role)) in
  hret NoContent.

Definition invalidateContextAdmin (auth : authError + RequestContext) (userID : option uuid) : Handle :=
  let* rc := admin_of auth in
  let* userID := path_uuid "userId" userID in
  let* tenantID := hlift (ScopedTenant rc) in
  fun w => (Ok NoContent, mkAdminWorld (aw_users w) (aw_roles w) (aw_policies w) (aw_cache w)
                            (ctx_cache_Invalidate (aw_context w) tenantID userID)).

(** ** Policies *)

(** [None] when the condition does not encode. *)
Definition policyToJSON (row : PolicyRow) : option json :=
  cond ← marshal_condition (p_Condition row);
  Some (JObj [("action", JStr (p_Action row)); ("condition", cond);
              ("createdBy", opt_uuid_json (p_CreatedBy row)); ("effect", JStr (PolicyEffect_String (p_Effect row)));
              ("entity", JStr (p_Entity row)); ("field", if String.eqb (p_Field row) "" then JNull else JStr (p_Field row));
              ("id", uuid_json (p_ID row)); ("roles", if p_HasRoles row then strings_json (p_Roles row) else JNull);
              ("subject", JStr (p_Subject row)); ("tenantId", uuid_json (p_TenantID row))]).

Definition listPoliciesAdmin (auth : authError + RequestContext) (entity : string) : Handle :=
  let* rc := admin_of auth in
  let* tenantID := hlift (ScopedTenant rc) in
  let* st := reading aw_policies in
  let* rows := hlift (ListPolicies st tenantID (if String.eqb entity "" then None else Some entity)) in
  hret (PolicyList rows).

Record createPolicyBody : Type := mkCreatePolicy {
  cp_Entity : string;
  cp_Action : string;
  cp_Roles : option (list string);
  cp_Condition : option PolicyCondition;
  cp_Field : option string;
  cp_Subject : option string;
  cp_Effect : option string
}.

(** A write of the service: the policies and the cache it leaves. *)
Definition writing {B} (f : St -> option C -> result error (B * St * option C)) : Handler AdminWorld B := fun w =>
  match f (aw_policies w) (aw_cache w) with
  | Ok (b, st, cache) => (Ok b, set_policies st cache w)
  | Err e => (Err (Failed e), w)
  | Panic => (Panic, w)
  end.

Definition policy_of_body (b : createPolicyBody) (createdBy : option uuid) : NewPolicy :=
  mkNewPolicy _ (cp_Entity b) (cp_Action b) (default [] (cp_Roles b)) (is_some (cp_Roles b)) (cp_Condition b) createdBy
    (default "" (cp_Field b))
    (Some (if bool_decide (cp_Subject b = Some "record") then SubjectRecord else SubjectContext))
    (match cp_Effect b with Some e => ParsePolicyEffect e | None => EffectAllow end).

Definition createPolicyAdmin (auth : authError + RequestContext) (body : option createPolicyBody) : Handle :=
  let* rc := admin_of auth in
  let* b := body_of body in
  let* tenantID := hlift (ScopedTenant rc) in
  let* row := writing (fun st cache => service_CreatePolicy st cache tenantID (policy_of_body b (parseOptionalUUID (rc_UserID rc)))) in
  hret (PolicyData row).

Definition knownActions : list string := map EntityAction_String AllEntityActions.
Definition isKnownAction (action : string) : bool := existsb (fun a => String.eqb a action) knownActions.

Definition joinQuoted (items : list string) : string :=
  "[" +:+ Join (map (fun s => quote +:+ s +:+ quote) items) ", " +:+ "]".

Definition unknown_action (a : string) : string :=
  "Unknown action " +:+ quote +:+ a +:+ quote +:+ " — must be one of " +:+ joinQuoted knownActions +:+ ".".

Definition all_known (actions : list string) : Handler AdminWorld unit :=
  match List.find (fun a => negb (isKnownAction a)) actions with
  | Some a => bad_request (unknown_action a)
  | None => hret tt
  end.

Record seedDefaultPoliciesBody : Type := mkSeed { sd_Entity : string; sd_Roles : list string; sd_Actions : list string }.

(** One policy per action, each in a transaction of its own. *)
Fixpoint seed_each (tenantID : uuid) (createdBy : option uuid) (entity : string) (roles : list string) (actions : list string)
  : Handler AdminWorld (list PolicyRow) :=
  match actions with
  | [] => hret []
  | action :: rest =>
    let* row := writing (fun st cache => service_CreatePolicy st cache tenantID
                  (mkNewPolicy _ entity action roles true None createdBy "" (Some SubjectContext) EffectAllow)) in
    let* rows := seed_each tenantID createdBy entity roles rest in
    hret (row :: rows)
  end.

Definition seedDefaultPoliciesAdmin (auth : authError + RequestContext) (body : option seedDefaultPoliciesBody) : Handle :=
  let* rc := admin_of auth in
  let* b := body_of body in
  let* tenantID := hlift (ScopedTenant rc) in
  if (length (sd_Roles b) =? 0)%nat then bad_request "`roles` must not be empty."
  else
    let actions := match sd_Actions b with [] => knownActions | l => l end in
    let* _ := all_known actions in
    let* rows := seed_each tenantID (parseOptionalUUID (rc_UserID rc)) (sd_Entity b) (sd_Roles b) actions in
    hret (PoliciesCreated rows).

Definition deletePolicyAdmin (auth : authError + RequestContext) (id : option uuid) : Handle :=
  let* rc := admin_of auth in
  let* id := path_uuid "id" id in
  let* tenantID := hlift (ScopedTenant rc) in
  let* _ := writing (fun st cache => let! (st', cache') := service_DeletePolicy st cache tenantID id in Ok (tt, st', cache')) in
  hret NoContent.

Record syncMatrixBody : Type := mkSync { sm_Entity : string; sm_Grants : list (option string * string) }.

Definition syncMatrixPoliciesAdmin (auth : authError + RequestContext) (body : option syncMatrixBody) : Handle :=
  let* rc := admin_of auth in
  let* b := body_of body in
  let* tenantID := hlift (ScopedTenant rc) in
  let* _ := all_known (map snd (sm_Grants b)) in
  let grants := map (fun g => mkGrant (default "" g.1) (is_some g.1) g.2) (sm_Grants b) in
  let* rows := writing (fun st cache => service_SyncBasicPolicies st cache tenantID (sm_Entity b) grants (parseOptionalUUID (rc_UserID rc))) in
  hret (PolicyList rows).

Record explainBody : Type := mkExplain { ex_Entity : string; ex_Action : string; ex_Field : option string; ex_Record : option JsonObject }.

Definition explainPolicyAdmin (auth : authError + RequestContext) (body : option explainBody) : Handle :=
  let* rc := admin_of auth in
  let* b := body_of body in
  let* st := reading aw_policies in
  let* explanation := hlift (Explain st rc (ex_Entity b) (ex_Action b) (ex_Field b) (ex_Record b)) in
  hret (Explained explanation).
End Admin.

(** ** Requests of administrators *)

Section Requests.
Context `{UuidLib} `{!Argon} {C : Type} `{!Cache C}.
Variable router : Router.
Variable column_fault : UserRow -> option error.
Variable fresh_user : list UserRow -> uuid.
Variable role_fault : string -> option error.
Variable salt : string.

Notation World := (AdminWorld (St := PostgresPolicyStore) (C := C)).

Inductive AdminRequest : Type :=
| CreateUserReq (body : option createUserBody)
| ListUsersReq
| AssignRoleReq (userID : option uuid) (body : option string)
| RevokeRoleReq (userID : option uuid) (role : string)
| InvalidateContextReq (userID : option uuid)
| ListPoliciesReq (entity : string)
| CreatePolicyReq (body : option createPolicyBody)
| SeedPoliciesReq (body : option seedDefaultPoliciesBody)
| DeletePolicyReq (id : option uuid)
| SyncMatrixReq (body : option syncMatrixBody)
| ExplainReq (body : option explainBody).

(** One request: its commit may fail. *)
Definition serve (commit_fault : option error) (auth : authError + RequestContext) (req : AdminRequest) : Handler World AdminAnswer :=
  match req with
  | CreateUserReq body => createUserAdmin router column_fault fresh_user role_fault commit_fault salt auth body
  | ListUsersReq => listUsersAdmin router auth
  | AssignRoleReq userID body => assignRoleAdmin router role_fault commit_fault auth userID body
  | RevokeRoleReq userID role => revokeRoleAdmin router commit_fault auth userID role
  | InvalidateContextReq userID => invalidateContextAdmin auth userID
  | ListPoliciesReq entity => listPoliciesAdmin auth entity
  | CreatePolicyReq body => createPolicyAdmin auth body
  | SeedPoliciesReq body => seedDefaultPoliciesAdmin auth body
  | DeletePolicyReq id => deletePolicyAdmin auth id
  | SyncMatrixReq body => syncMatrixPoliciesAdmin auth body
  | ExplainReq body => explainPolicyAdmin auth body
  end.

Definition serve_all (reqs : list (option error * (authError + RequestContext) * AdminRequest)) (w : World) : World :=
  fold_left (fun w r => snd (serve r.1.1 r.1.2 r.2 w)) reqs w.

(** What belongs to a tenant: its users, its roles and its policies. *)
Definition tenant_view (t : uuid) (w : World) : list UserRow * list (uuid * uuid * string) * list policies_row :=
  (List.filter (fun r => bool_decide (au_TenantID (ur_user r) = t)) (aw_users w),
   List.filter (fun r => bool_decide (r.1.1 = t)) (aw_roles w),
   rows_of_tenant t (aw_policies w)).

(** A step that leaves the state alone, before one that keeps [R]. *)
Lemma hbind_pure {W A B} (R : W -> Prop) (m : Handler W A) (k : A -> Handler W B) w :
  snd (m w) = w -> R w -> (forall a, fst (m w) = Ok a -> R (snd (k a w))) -> R (snd (hbind m k w)).
Proof. unfold hbind. destruct (m w) as [[a|e|] w']; cbn; intros -> Hw Hk; [by apply Hk|done|done]. Qed.

Lemma hbind_state {W A B} (R : W -> Prop) (m : Handler W A) (k : A -> Handler W B) w :
  R (snd (m w)) -> (forall a w', R w' -> R (snd (k a w'))) -> R (snd (hbind m k w)).
Proof. unfold hbind. destruct (m w) as [[a|e|] w']; cbn; intros Hw Hk; [by apply Hk|done|done]. Qed.

Lemma admin_of_pure auth (w : World) : snd (admin_of auth w) = w.
Proof. by destruct auth as [[]|]. Qed.
Lemma body_of_pure {B} (body : option B) (w : World) : snd (body_of body w) = w.
Proof. by destruct body. Qed.
Lemma path_uuid_pure name id (w : World) : snd (path_uuid name id w) = w.
Proof. by destruct id. Qed.
Lemma tx_begin_pure t (w : World) : snd (tx_begin router t w) = w.
Proof. unfold tx_begin. destruct (Begin router t) as [|e|]; [done| |done]. by destruct (routerUnavailable e). Qed.
Lemma created_user_pure t b (w : World) : snd (created_user column_fault fresh_user salt t b w) = w.
Proof. unfold created_user. by destruct (CreateUser _ _ _ _ _ _ _) as [|[]|]. Qed.
Lemma hlift_pure {W A} (r : result error A) (w : W) : snd (hlift r w) = w.
Proof. by destruct r. Qed.
Lemma all_known_pure l (w : World) : snd (all_known l w) = w.
Proof. unfold all_known. by destruct (List.find _ l). Qed.

#[local] Hint Resolve admin_of_pure body_of_pure path_uuid_pure tx_begin_pure created_user_pure hlift_pure all_known_pure : admin_pure.
#[local] Hint Extern 1 (snd (reading _ _) = _) => reflexivity : admin_pure.

Ltac pure_step := apply hbind_pure; [solve [eauto with admin_pure]|try done|].

Lemma admin_of_ok auth rc (w : World) : fst (admin_of auth w) = Ok rc -> auth = inr rc.
Proof. destruct auth as [[]|]; cbn; congruence. Qed.

Lemma hlift_ok {W A} (r : result error A) (w : W) a : fst (hlift r w) = Ok a -> r = Ok a.
Proof. unfold hlift. destruct r; cbn; congruence. Qed.

(** The tenant an administrator's requests are scoped to. *)
Definition outside (t' : uuid) (auth : authError + RequestContext) : Prop :=
  match auth with inr rc => forall t, ScopedTenant rc = Ok t -> t' <> t | inl _ => True end.

Section Isolated.
Variable t' : uuid.
Variable w0 : World.
Notation R := (fun w : World => tenant_view t' w = tenant_view t' w0).

Lemma users_kept (w : World) users roles :
  R w ->
  List.filter (fun r => bool_decide (au_TenantID (ur_user r) = t')) users = List.filter (fun r => bool_decide (au_TenantID (ur_user r) = t')) (aw_users w) ->
  List.filter (fun r => bool_decide (r.1.1 = t')) roles = List.filter (fun r => bool_decide (r.1.1 = t')) (aw_roles w) ->
  R (set_users users roles w).
Proof. unfold tenant_view. intros Hw Hu Hr. cbn. rewrite Hu, Hr. exact Hw. Qed.

Lemma commit_kept fault write (w : World) : R w -> R (write w) -> R (snd (tx_commit fault write w)).
Proof. unfold tx_commit. by destruct fault. Qed.

Lemma filter_app_none {A} (f : A -> bool) l a : f a = false -> List.filter f (l ++ [a]) = List.filter f l.
Proof. intros Hf. rewrite List.filter_app. cbn. by rewrite Hf, app_nil_r. Qed.

Lemma assign_kept rows t u role rows' :
  t' <> t -> assign role_fault rows t u role = Ok rows' ->
  List.filter (fun r : uuid * uuid * string => bool_decide (r.1.1 = t')) rows' = List.filter (fun r => bool_decide (r.1.1 = t')) rows.
Proof.
  intros Hne. unfold assign. destruct (role_fault role); [done|]. intros [= <-]. unfold AssignRole. case_bool_decide; [done|].
  apply filter_app_none. by apply bool_decide_eq_false.
Qed.

Lemma assign_all_kept roles : forall rows t u rows',
  t' <> t -> assign_all role_fault rows t u roles = Ok rows' ->
  List.filter (fun r : uuid * uuid * string => bool_decide (r.1.1 = t')) rows' = List.filter (fun r => bool_decide (r.1.1 = t')) rows.
Proof.
  induction roles as [|role roles IH]; intros rows t u rows' Hne; cbn [assign_all]; [by intros [= <-]|].
  intros (rows1 & Ha & Hr)%rbind_ok. rewrite (IH _ _ _ _ Hne Hr). by apply (assign_kept rows t u role).
Qed.

Lemma revoke_kept rows t u role :
  t' <> t ->
  List.filter (fun r : uuid * uuid * string => bool_decide (r.1.1 = t')) (RevokeRole rows t u role) = List.filter (fun r => bool_decide (r.1.1 = t')) rows.
Proof.
  intros Hne. unfold RevokeRole. apply filter_filter_ext. intros [[a b] c]. cbn. case_bool_decide as Heq; cbn; [|done].
  injection Heq as -> -> ->. symmetry. by apply bool_decide_eq_false.
Qed.

Lemma writing_kept {B} (f : PostgresPolicyStore -> option C -> result error (B * PostgresPolicyStore * option C)) (w : World) :
  R w -> (forall b st cache, f (aw_policies w) (aw_cache w) = Ok (b, st, cache) -> rows_of_tenant t' st = rows_of_tenant t' (aw_policies w)) ->
  R (snd (writing f w)).
Proof.
  unfold writing. intros Hw Hf. destruct (f (aw_policies w) (aw_cache w)) as [[[b st] cache]|e|] eqn:E; [|done|done].
  unfold tenant_view in *. cbn. by rewrite (Hf b st cache).
Qed.

Lemma create_kept rc (w : World) t np row st cache :
  ScopedTenant rc = Ok t -> t' <> t -> service_CreatePolicy (aw_policies w) (aw_cache w) t np = Ok (row, st, cache) ->
  rows_of_tenant t' st = rows_of_tenant t' (aw_policies w).
Proof.
  intros _ Hne ([row1 st1] & Hc & [= <- <- <-])%rbind_ok. exact (proj1 (policy_writes_isolated (aw_policies w) t t' Hne) _ _ _ Hc).
Qed.

Lemma seed_kept t by_ entity roles actions : forall w : World,
  t' <> t -> R w -> R (snd (seed_each t by_ entity roles actions w)).
Proof.
  induction actions as [|a actions IH]; intros w Hne Hw; [done|]. cbn [seed_each].
  apply (hbind_state R).
  - apply writing_kept; [done|]. intros row st cache ([row1 st1] & Hc & [= <- <- <-])%rbind_ok.
    exact (proj1 (policy_writes_isolated (aw_policies w) t t' Hne) _ _ _ Hc).
  - intros row w' Hw'. apply (hbind_state R); [by apply IH|]. intros rows w2 Hw2. done.
Qed.

Lemma serve_kept fault auth req : outside t' auth -> R w0 -> R (snd (serve fault auth req w0)).
Proof.
  intros Hout Hw.
  assert (Hscope : forall rc t, auth = inr rc -> ScopedTenant rc = Ok t -> t' <> t) by (intros rc t -> Ht; exact (Hout t Ht)).
  destruct req; cbn [serve].
  - unfold createUserAdmin. pure_step. intros rc ->%admin_of_ok. pure_step. intros b Hb. pure_step. intros t Ht%hlift_ok.
    pure_step. intros [] _. pure_step. intros [user users] Hu. pure_step. intros rows [= <-]. pure_step. intros roles Hr%hlift_ok.
    apply (hbind_state R); [|by intros]. apply commit_kept; [done|]. specialize (Hscope rc t eq_refl Ht). apply users_kept; [done| |].
    + unfold created_user in Hu. destruct (CreateUser _ _ _ _ _ _ _) as [[u us]|[]|] eqn:Hc; [|done..]. injection Hu as -> ->.
      unfold CreateUser, insert_user in Hc. destruct (column_fault _); [done|]. destruct (violates _ _); [done|]. injection Hc as _ <-.
      apply filter_app_none. by apply bool_decide_eq_false.
    + by eapply assign_all_kept.
  - unfold listUsersAdmin. pure_step. intros rc ->%admin_of_ok. pure_step. intros t Ht. pure_step. intros [] _. by pure_step.
  - unfold assignRoleAdmin. pure_step. intros rc ->%admin_of_ok. pure_step. intros u Hu. pure_step. intros role Hb. pure_step. intros t Ht%hlift_ok.
    pure_step. intros [] _. pure_step. intros rows [= <-]. pure_step. intros roles Hr%hlift_ok.
    apply (hbind_state R); [|by intros]. apply commit_kept; [done|]. apply users_kept; [done|done|].
    eapply assign_kept; [|exact Hr]. by apply (Hscope rc).
  - unfold revokeRoleAdmin. pure_step. intros rc ->%admin_of_ok. pure_step. intros u Hu. pure_step. intros t Ht%hlift_ok.
    pure_step. intros [] _. pure_step. intros rows [= <-].
    apply (hbind_state R); [|by intros]. apply commit_kept; [done|]. apply users_kept; [done|done|].
    apply revoke_kept. by apply (Hscope rc).
  - unfold invalidateContextAdmin. pure_step. intros rc ->%admin_of_ok. pure_step. intros u Hu. by pure_step.
  - unfold listPoliciesAdmin. pure_step. intros rc ->%admin_of_ok. pure_step. intros t Ht. pure_step. intros st Hst. by pure_step.
  - unfold createPolicyAdmin. pure_step. intros rc ->%admin_of_ok. pure_step. intros b Hb. pure_step. intros t Ht%hlift_ok.
    apply (hbind_state R); [|by intros]. apply writing_kept; [done|]. intros row st cache Hc. eapply create_kept; [exact Ht| |exact Hc].
    by apply (Hscope rc).
  - unfold seedDefaultPoliciesAdmin. pure_step. intros rc ->%admin_of_ok. pure_step. intros b Hb. pure_step. intros t Ht%hlift_ok.
    destruct (length (sd_Roles b) =? 0)%nat; [done|]. pure_step. intros [] _.
    apply (hbind_state R); [|by intros]. apply seed_kept; [by apply (Hscope rc)|done].
  - unfold deletePolicyAdmin. pure_step. intros rc ->%admin_of_ok. pure_step. intros i Hi. pure_step. intros t Ht%hlift_ok.
    apply (hbind_state R); [|by intros]. apply writing_kept; [done|]. intros [] st cache ([st1 c1] & Hd & [= <- <-])%rbind_ok.
    apply rbind_ok in Hd as (st2 & Hd & [= <- <-]).
    exact (proj1 (proj2 (policy_writes_isolated (aw_policies w0) t t' (Hscope rc t eq_refl Ht))) _ _ Hd).
  - unfold syncMatrixPoliciesAdmin. pure_step. intros rc ->%admin_of_ok. pure_step. intros b Hb. pure_step. intros t Ht%hlift_ok.
    pure_step. intros [] _.
    apply (hbind_state R); [|by intros]. apply writing_kept; [done|]. intros rows st cache ([rows1 st1] & Hd & [= <- <- <-])%rbind_ok.
    exact (proj2 (proj2 (policy_writes_isolated (aw_policies w0) t t' (Hscope rc t eq_refl Ht))) _ _ _ _ _ Hd).
  - unfold explainPolicyAdmin. pure_step. intros rc ->%admin_of_ok. pure_step. intros b Hb. pure_step. intros st Hst. by pure_step.
Qed.
End Isolated.

(** C27. Administrators stay in their tenant: whatever requests the administrators of
    other tenants make, in any order and with commits that may fail, a tenant's users,
    its role assignments and its policies are what they were. *)
Theorem tenant_admin_isolated t' reqs : forall w,
  Forall (fun r => outside t' r.1.2) reqs -> tenant_view t' (serve_all reqs w) = tenant_view t' w.
Proof.
  induction reqs as [|[[fault auth] req] reqs IH]; intros w Hall; [done|]. apply Forall_cons in Hall as [Ho Hall]. cbn.
  unfold serve_all in IH. rewrite IH by done. by apply serve_kept.
Qed.

Lemma assign_all_roles roles : forall rows t u rows' role,
  assign_all role_fault rows t u roles = Ok rows' ->
  role ∈ GetRolesForUser rows' t u <-> role ∈ GetRolesForUser rows t u \/ role ∈ roles.
Proof.
  induction roles as [|r roles IH]; intros rows t u rows' role; cbn [assign_all].
  - intros [= <-]. rewrite elem_of_nil. tauto.
  - intros (rows1 & Ha & Hr)%rbind_ok. rewrite (IH _ _ _ _ role Hr), elem_of_cons. unfold assign in Ha.
    destruct (role_fault r); [done|]. injection Ha as <-. rewrite (proj1 (roles_exact rows t u r t u role)). naive_solver.
Qed.

(** Creating a user is all or nothing: either the answer is the new user, who is
    in the administrator's tenant, can log in with the password and has exactly the
    roles asked for, or nothing has changed. *)
Lemma create_user_atomic `{!ArgonLaws} fault auth body w :
  users_ok (aw_users w) -> Forall (fun r => r.1.2 <> fresh_user (aw_users w)) (aw_roles w) ->
  (exists rc t b u w', serve fault auth (CreateUserReq body) w = (Ok (UserCreated u (cu_Roles b)), w') /\
     auth = inr rc /\ ScopedTenant rc = Ok t /\ body = Some b /\ users_ok (aw_users w') /\
     VerifyCredentials (aw_users w') (cu_Email b) (cu_Password b) = Ok (Some u) /\ au_TenantID u = t /\
     (forall role, role ∈ GetRolesForUser (aw_roles w') t (au_ID u) <-> role ∈ cu_Roles b)) \/
  (is_ok (fst (serve fault auth (CreateUserReq body) w)) = false /\ snd (serve fault auth (CreateUserReq body) w) = w).
Proof.
  intros Hu Hf. destruct (serve fault auth (CreateUserReq body) w) as [res w'] eqn:E. revert E. cbn [serve fst snd].
  unfold createUserAdmin, hbind. destruct auth as [[m|m]|rc]; [intros [= <- <-]; by right..|]. cbn [admin_of hret].
  destruct body as [b|]; [|intros [= <- <-]; by right]. cbn [body_of hret]. unfold hlift at 1.
  destruct (ScopedTenant rc) as [t|e|] eqn:Ht; [|intros [= <- <-]; by right..].
  pose proof (tx_begin_pure t w) as Hbp. destruct (tx_begin router t w) as [[[]|e|] w1]; cbn [snd] in Hbp; subst w1; [|intros [= <- <-]; by right..].
  unfold created_user. destruct (CreateUser column_fault fresh_user salt (aw_users w) t (cu_Email b) (cu_Password b)) as [[u users]|[]|] eqn:Hc;
    [|intros [= <- <-]; by right..].
  unfold reading, hlift. destruct (assign_all role_fault (aw_roles w) t (au_ID u) (cu_Roles b)) as [roles|e|] eqn:Ha; [|intros [= <- <-]; by right..].
  unfold tx_commit. destruct fault as [e|]; [intros [= <- <-]; by right|]. intros [= <- <-]. left.
  exists rc, t, b, u, (set_users users roles w). split; [done|].
  destruct (created_user_logs_in column_fault fresh_user salt _ t _ _ u users Hu Hc) as (Hlog & Htn & _).
  assert (Hid : au_ID u = fresh_user (aw_users w) /\ users_ok users).
  { apply insert_user_ok in Hc as (Hok & -> & ->); [by split|done|by eexists]. }
  destruct Hid as [Hid Hok]. split_and!; [done..|]. intros role. cbn. rewrite (assign_all_roles _ _ _ _ _ role Ha), GetRolesForUser_elem.
  split; [|by right]. intros [Hin|Hin]; [|done]. rewrite Forall_forall in Hf. exfalso. by apply (Hf _ Hin).
Qed.

(** A policy whose effect is not spelled deny allows, and one whose subject is not
    spelled record is about the caller: a misspelt prohibition is a permission. *)
Lemma misspelt_effect_allows auth rc t b w row w' :
  auth = inr rc -> ScopedTenant rc = Ok t -> cp_Effect b = Some "Deny" -> serve None auth (CreatePolicyReq (Some b)) w = (Ok (PolicyData row), w') ->
  p_Effect row = EffectAllow.
Proof.
  intros -> Ht He. cbn [serve]. unfold createPolicyAdmin, hbind. cbn [admin_of hret body_of]. unfold hlift. rewrite Ht. unfold writing.
  destruct (service_CreatePolicy _ _ _ _) as [[[r st] cache]|e|] eqn:Hc; [|done..]. intros [= <- <-].
  apply rbind_ok in Hc as ([r1 st1] & (_ & _ & [Hs _]%insert_returning_ok)%rbind_ok & [= <- <- <-]).
  apply scanPolicyRow_columns in Hs as (_ & _ & _ & _ & _ & _ & _ & ->). cbn. unfold policy_of_body. by rewrite He.
Qed.
End Requests.

(** ** Examples *)

#[local] Existing Instance TestUuid.
#[local] Existing Instance test_Cache.

Definition any_column (_ : @UserRow TestUuid) : option error := None.
Definition any_role (_ : string) : option error := None.
Definition next_user (rows : list (@UserRow TestUuid)) : @uuid TestUuid := longer_than (map (fun r => au_ID (ur_user r)) rows).
Definition admin_world : AdminWorld (St := PostgresPolicyStore) (C := test_cache) := mkAdminWorld (test_users None) [] test_store None ∅.
Definition bob : createUserBody := mkCreateUser "bob@x.org" "secret" ["clerk"].
Definition bob_request : option error * (authError + RequestContext) * AdminRequest := (None, inr test_admin, CreateUserReq (Some bob)).

Lemma tenant_admin_isolated_witness :
  outside ("t2" : @uuid TestUuid) (inr test_admin) /\
  tenant_view "t2" (serve_all test_router any_column next_user any_role "s" [bob_request] admin_world) = tenant_view "t2" admin_world.
Proof.
  assert (Ho : outside ("t2" : @uuid TestUuid) (inr test_admin)) by (intros t [= <-]; discriminate). split; [exact Ho|].
  apply tenant_admin_isolated. repeat constructor. exact Ho.
Defined.

Lemma create_user_atomic_witness :
  users_ok (aw_users admin_world) /\
  exists u w', serve test_router any_column next_user any_role "s" None (inr test_admin) (CreateUserReq (Some bob)) admin_world
      = (Ok (UserCreated u ["clerk"]), w') /\ VerifyCredentials (aw_users w') "bob@x.org" "secret" = Ok (Some u) /\
    "clerk" ∈ GetRolesForUser (aw_roles w') (au_TenantID u) (au_ID u).
Proof.
  assert (Hu : users_ok (aw_users admin_world)) by (constructor; [apply NoDup_singleton|repeat constructor; by eexists]).
  split; [exact Hu|].
  destruct (create_user_atomic test_router any_column next_user any_role "s" None (inr test_admin) (Some bob) admin_world Hu (Forall_nil_2 _))
    as [(rc & t & b & u & w' & He & _ & _ & Hb & _ & Hv & Ht & Hr)|[Hbad _]].
  - injection Hb as Hb. rewrite <- Hb in He, Hv, Hr. exists u, w'. split; [exact He|]. split; [exact Hv|]. rewrite Ht. apply Hr. left.
  - assert (Hok : is_ok (fst (serve test_router any_column next_user any_role "s" None (inr test_admin) (CreateUserReq (Some bob)) admin_world)) = true)
      by (vm_compute; reflexivity).
    congruence.
Defined.
