(* ===== verification/Events.v ===== *)
(** The message bus (src/go/infra/eventbus): topic patterns, the disposition of a
    delivered message and its retries, the consumer that reconnects, the registry of
    handlers; the publisher of the outbox (src/go/outboxpublisher/run.go) and the
    notification worker (src/go/notificationworker/run.go).

    The broker is outside the repository: [Broker] has what it records of a message
    that leaves a queue undelivered, [BrokerLaws] that it is one entry per queue. The
    loops are machines that take the signals of their environment one at a time: a
    connection that opened or failed, the end of a sleep, a cancelled context. *)
From S2P Require Import Prelude GoStrings GoText Json Floats Condition Context Uuid Evaluate Snapshot PermissionService PolicyStore Metadata Schema Router Payload Workflow AuditTrail Sql ConditionSql Jql Planner Records Crud Cron Outbound CronScheduler.

Open Scope string_scope.
Open Scope list_scope.

(** ** Topics (handlerregistry.go) *)

(** The loop of [#] tries every suffix of the key, the whole key first. *)
Fixpoint matchesSegments (pattern key : list string) : bool :=
  match pattern with
  | [] => match key with [] => true | _ => false end
  | head :: rest =>
    if String.eqb head "#" then
      match rest with
      | [] => true
      | _ =>
        (fix suffixes (k : list string) : bool :=
           matchesSegments rest k || match k with [] => false | _ :: k' => suffixes k' end) key
      end
    else if String.eqb head "*" then
      match key with [] => false | _ :: k => matchesSegments rest k end
    else
      match key with [] => false | w :: k => String.eqb w head && matchesSegments rest k end
  end.

Definition topicMatches (pattern routingKey : string) : bool :=
  matchesSegments (Split pattern ".") (Split routingKey ".").

(** ** Delivered messages (types.go, rabbit.go) *)

(** The values of an AMQP table the code looks at. *)
Inductive amqp_value : Type :=
| AString (s : string)
| AList (l : list amqp_value)
| ATable (t : list (string * amqp_value))
| AOther.

Definition originalRoutingKeyHeader : string := "x-original-routing-key".
Definition death_header : string := "x-death".

(** A message on a queue; [None] is a body that is not JSON. *)
Record message : Type := mkMessage {
  ms_RoutingKey : string;
  ms_Headers : gmap string amqp_value;
  ms_Body : option json
}.

(** Durations are nanoseconds. *)
Record RetryPolicy : Type := mkRetryPolicy { rp_Delays : list Z }.

Record ConsumedEvent : Type := mkConsumed {
  ce_RoutingKey : string;
  ce_Payload : json;
  ce_Headers : gmap string amqp_value;
  ce_Queue : string
}.

(** The body of the loop over the deliveries: [None] when the message is nacked. *)
Definition consumed_event (queue : string) (m : message) : option ConsumedEvent :=
  match ms_Body m with
  | None => None
  | Some payload =>
    let rk := match ms_Headers m !! originalRoutingKeyHeader with Some (AString orig) => orig | _ => ms_RoutingKey m end in
    Some (mkConsumed rk payload (ms_Headers m) queue)
  end.

(** What is done with a delivery: acknowledged, rejected, acknowledged after a copy
    was published to a retry queue, or nothing, when that publication fails. *)
Inductive disposition : Type :=
| DoAck
| DoNack (requeue : bool)
| DoRetry (queue : string) (copy : message)
| DoNothing (e : error).

Definition RetryCount (e : ConsumedEvent) : Z :=
  match ce_Headers e !! death_header with
  | Some (AList deaths) => (Z.of_nat (length deaths) mod 2 ^ 32)%Z
  | _ => 0%Z
  end.

Definition retry_queue (queue : string) (tier : Z) : string := queue +:+ ".retry." +:+ FormatInt tier.

(** [publish_fault] is the error of PublishWithContext, if it fails. *)
Definition RetryOrGiveUp (publish_fault : option error) (e : ConsumedEvent) (policy : RetryPolicy) : disposition :=
  let attempt := RetryCount e in
  if (Z.of_nat (length (rp_Delays policy)) <=? attempt)%Z then DoNack false
  else
    let headers := <[originalRoutingKeyHeader := AString (ce_RoutingKey e)]> (ce_Headers e) in
    match publish_fault with
    | Some err => DoNothing err
    | None =>
      let q := retry_queue (ce_Queue e) (attempt + 1) in
      DoRetry q (mkMessage q headers (Some (ce_Payload e)))
    end.

(** ** The registry of handlers *)

Definition handlerFn : Type := ConsumedEvent -> option error.

Record HandlerRegistry : Type := mkRegistry { hr_handlers : list (string * handlerFn) }.

Definition NewHandlerRegistry : HandlerRegistry := mkRegistry [].

Definition On (r : HandlerRegistry) (pattern : string) (handler : handlerFn) : HandlerRegistry :=
  mkRegistry (hr_handlers r ++ [(pattern, handler)]).

Definition matched_handlers (r : HandlerRegistry) (event : ConsumedEvent) : list handlerFn :=
  map snd (List.filter (fun h => topicMatches h.1 (ce_RoutingKey event)) (hr_handlers r)).

Definition failures (handlers : list handlerFn) (event : ConsumedEvent) : list error :=
  omap (fun h : handlerFn => h event) handlers.

(** The handler HandlerRegistry.Run gives the consumer; the matched handlers run
    concurrently and all of them run, whatever fails. *)
Definition registry_handle (r : HandlerRegistry) (retryPolicy : option RetryPolicy) (publish_fault : option error)
    (event : ConsumedEvent) : disposition :=
  match failures (matched_handlers r event) event with
  | [] => DoAck
  | _ => match retryPolicy with Some p => RetryOrGiveUp publish_fault event p | None => DoNack false end
  end.

(** ** Reconnecting (resilient.go) *)

Definition second : Z := 1000000000.

Definition BackoffDelay (attempt : Z) : Z :=
  let attempt := if (4 <? attempt)%Z then 4%Z else attempt in
  let d := (2 ^ attempt * second)%Z in
  if (30 * second <? d)%Z then (30 * second)%Z else d.

(** What the environment of a loop does. *)
Inductive signal : Type :=
| Cancelled
| ConnectFailed
| SubscribeFailed
| Connected
| SleepOver
| StreamClosed
| Delivered (event : ConsumedEvent).

Inductive consumer : Type :=
| Connecting (attempt : Z)
| Backoff (attempt : Z)
| Consuming
| Exited.

Inductive action : Type :=
| Sleep (delay : Z)
| CloseBus
| Handle (event : ConsumedEvent).

Definition uint32_succ (n : Z) : Z := ((n + 1) mod 2 ^ 32)%Z.

(** RunResilientConsumer; a signal that cannot occur in a state leaves it. *)
Definition consumer_step (s : consumer) (x : signal) : consumer * list action :=
  match s, x with
  | Connecting _, Cancelled => (Exited, [])
  | Connecting attempt, ConnectFailed => (Backoff attempt, [Sleep (BackoffDelay attempt)])
  | Connecting attempt, SubscribeFailed => (Backoff attempt, [CloseBus; Sleep (BackoffDelay attempt)])
  | Connecting _, Connected => (Consuming, [])
  | Backoff _, Cancelled => (Exited, [])
  | Backoff attempt, SleepOver => (Connecting (uint32_succ attempt), [])
  | Consuming, Cancelled => (Exited, [CloseBus])
  | Consuming, StreamClosed => (Connecting 0, [CloseBus])
  | Consuming, Delivered event => (Consuming, [Handle event])
  | _, _ => (s, [])
  end.

Fixpoint consumer_run (s : consumer) (xs : list signal) : consumer * list action :=
  match xs with
  | [] => (s, [])
  | x :: rest => let '(s', out) := consumer_step s x in let '(s'', out') := consumer_run s' rest in (s'', out ++ out')
  end.

Definition RunResilientConsumer (xs : list signal) : consumer * list action := consumer_run (Connecting 0) xs.

(** ** The broker *)

(** [died queue headers]: the headers of a message that leaves a queue undelivered
    and is routed on. *)
Class Broker : Type := { died : string -> gmap string amqp_value -> gmap string amqp_value }.

Definition deaths (headers : gmap string amqp_value) : list amqp_value :=
  match headers !! death_header with Some (AList l) => l | _ => [] end.

Fixpoint table_member (t : list (string * amqp_value)) (key : string) : option amqp_value :=
  match t with
  | [] => None
  | (k, v) :: rest => if String.eqb k key then Some v else table_member rest key
  end.

Definition death_queue (d : amqp_value) : option string :=
  match d with
  | ATable t => match table_member t "queue" with Some (AString q) => Some q | _ => None end
  | _ => None
  end.

Definition death_queues (headers : gmap string amqp_value) : list string := omap death_queue (deaths headers).

(** RabbitMQ's documentation of dead lettering: x-death has an entry for every queue
    a message died on, and the other headers are kept. *)
Class BrokerLaws `{!Broker} : Prop := {
  died_entry queue headers :
    queue ∉ death_queues headers -> length (deaths headers) = length (death_queues headers) ->
    length (deaths (died queue headers)) = S (length (deaths headers))
    /\ death_queues (died queue headers) ≡ₚ queue :: death_queues headers;
  died_others queue headers key : key <> death_header -> died queue headers !! key = headers !! key
}.

(** Its time in a retry queue over, a message is routed back to the queue. *)
Definition expired `{!Broker} (queue tier : string) (m : message) : message :=
  mkMessage queue (died tier (ms_Headers m)) (ms_Body m).

Inductive fate : Type := Completed | DeadLetter | Unresolved.

(** The deliveries of a message and where it ends; [handle n] is what is done with
    its n-th delivery. *)
Fixpoint message_life `{!Broker} (fuel : nat) (handle : nat -> ConsumedEvent -> disposition) (queue : string) (n : nat)
    (m : message) : list ConsumedEvent * option fate :=
  match fuel with
  | O => ([], None)
  | S fuel' =>
    match consumed_event queue m with
    | None => ([], Some DeadLetter)
    | Some e =>
      match handle n e with
      | DoAck => ([e], Some Completed)
      | DoNack false => ([e], Some DeadLetter)
      | DoNack true => let '(es, f) := message_life fuel' handle queue (S n) m in (e :: es, f)
      | DoRetry tier copy =>
        let '(es, f) := message_life fuel' handle queue (S n) (expired queue tier copy) in (e :: es, f)
      | DoNothing _ => ([e], Some Unresolved)
      end
    end
  end.

(** ** The publisher of the outbox (outboxpublisher/run.go) *)

(** What the bus has accepted, in order. *)
Notation sent := (list (string * json)).

Section Outbox.
Context `{!UuidLib}.

Record outbox_row : Type := mkOutboxRow {
  or_id : uuid;
  or_topic : string;
  or_payload : json;
  or_created_at : Z;
  or_published_at : option Z;
  or_attempts : Z;
  or_last_error : option error
}.

(** The row EnqueueOutboxEvent inserts. *)
Definition enqueued_row (id : uuid) (created_at : Z) (event : OutboxEvent) : outbox_row :=
  mkOutboxRow id (ob_Topic event) (ob_Payload event) created_at None 0 None.

Definition markPublished (now : Z) (id : uuid) (r : outbox_row) : outbox_row :=
  if bool_decide (or_id r = id)
  then mkOutboxRow (or_id r) (or_topic r) (or_payload r) (or_created_at r) (Some now) (or_attempts r) None else r.

Definition markFailed (errMsg : error) (id : uuid) (r : outbox_row) : outbox_row :=
  if bool_decide (or_id r = id) && negb (is_some (or_published_at r))
  then mkOutboxRow (or_id r) (or_topic r) (or_payload r) (or_created_at r) (or_published_at r) (or_attempts r + 1) (Some errMsg)
  else r.

Definition select_pending (locked : uuid -> bool) (batchSize : Z) (rows : list outbox_row) : list outbox_row :=
  take (Z.to_nat batchSize)
    (order_by or_created_at (List.filter (fun r => negb (is_some (or_published_at r)) && negb (locked (or_id r))) rows)).

(** How the database and the bus answer during one poll. *)
Record Poll : Type := mkPoll {
  po_now : Z;
  (** the rows the transactions of other publishers hold *)
  po_locked : uuid -> bool;
  (** the error of the publication of a row, after what was sent before *)
  po_publish : sent -> outbox_row -> option error;
  (** the error of the statement that marks a row *)
  po_mark : uuid -> option error;
  po_begin : option error;
  po_commit : option error
}.

Fixpoint publish_batch (p : Poll) (batch rows : list outbox_row) (log : sent) (allPublished : bool)
  : result error (bool * list outbox_row) * sent :=
  match batch with
  | [] => (Ok (allPublished, rows), log)
  | row :: rest =>
    match po_publish p log row with
    | None =>
      let log := log ++ [(or_topic row, or_payload row)] in
      match po_mark p (or_id row) with
      | Some e => (Err e, log)
      | None => publish_batch p rest (map (markPublished (po_now p) (or_id row)) rows) log allPublished
      end
    | Some pubErr =>
      match (if (or_attempts row =? 2147483647)%Z then Some "integer out of range" else po_mark p (or_id row)) with
      | Some e => (Err e, log)
      | None => publish_batch p rest (map (markFailed pubErr (or_id row)) rows) log false
      end
    end
  end.

(** A transaction that is rolled back leaves the rows; what was sent is sent. *)
Definition publishPending (p : Poll) (batchSize : Z) (w : list outbox_row * sent) : result error bool * (list outbox_row * sent) :=
  let '(rows, log) := w in
  match po_begin p with
  | Some e => (Err e, w)
  | None =>
    if (batchSize <? 0)%Z then (Err "LIMIT must not be negative", w)
    else
      match publish_batch p (select_pending (po_locked p) batchSize rows) rows log true with
      | (Ok (allPublished, rows'), log') =>
        match po_commit p with
        | Some e => (Err e, (rows, log'))
        | None => (Ok allPublished, (rows', log'))
        end
      | (Err e, log') => (Err e, (rows, log'))
      | (Panic, log') => (Panic, (rows, log'))
      end
  end.

Inductive publisher : Type :=
| PubConnecting (attempt : Z) (first : bool)
| PubBackoff (attempt : Z) (first : bool)
| PubPolling
| PubSleeping
| PubStopped (e : option error).

Inductive pub_signal : Type :=
| PubCancelled
| PubConnectFailed
| PubConnected
| PubSleepOver
| PubPoll (p : Poll).

(** Run with connectWithBackoff: one signal at a time. The first connection is
    followed by a poll, a reconnection by a sleep. *)
Definition publisher_step (batchSize : Z) (s : publisher) (w : list outbox_row * sent) (x : pub_signal)
  : publisher * (list outbox_row * sent) :=
  match s, x with
  | PubConnecting attempt first, PubConnectFailed => (PubBackoff attempt first, w)
  | PubConnecting _ first, PubConnected => (if first then PubPolling else PubSleeping, w)
  | PubBackoff _ _, PubCancelled => (PubStopped None, w)
  | PubBackoff attempt first, PubSleepOver => (PubConnecting (uint32_succ attempt) first, w)
  | PubPolling, PubCancelled => (PubStopped None, w)
  | PubPolling, PubPoll p =>
    match publishPending p batchSize w with
    | (Ok true, w') => (PubSleeping, w')
    | (Ok false, w') => (PubConnecting 0 false, w')
    | (Err e, w') => (PubStopped (Some e), w')
    | (Panic, w') => (PubStopped None, w')
    end
  | PubSleeping, PubCancelled => (PubStopped None, w)
  | PubSleeping, PubSleepOver => (PubPolling, w)
  | _, _ => (s, w)
  end.
End Outbox.

(** ** Notifications (notificationworker/run.go) *)

Definition NotificationQueue : string := "notification.workflow-transitioned".
Definition NotificationRoutingKey : string := "#.workflow.transitioned".

Record notification : Type := mkNotification { nt_entity : string; nt_record : string; nt_action : string; nt_from : string; nt_to : string }.

Definition jsonStringOr (raw : option json) (def : string) : string :=
  match raw with Some j => default def (unmarshal_string j) | None => def end.

Definition notify (event : ConsumedEvent) : notification :=
  let entity := TrimSuffix (ce_RoutingKey event) ".workflow.transitioned" in
  let payload := default ∅ (unmarshal_map (ce_Payload event)) in
  mkNotification entity (jsonStringOr (payload !! "recordId") "?") (jsonStringOr (payload !! "action") "?")
    (jsonStringOr (payload !! "from") "?") (jsonStringOr (payload !! "to") "?").

(** The handler: the line it logs, and the event is acknowledged. *)
Definition notification_handle (event : ConsumedEvent) : notification * disposition := (notify event, DoAck).
