(* ===== verification/EventsProps.v ===== *)
(** What the message bus guarantees: topic patterns mean what AMQP says they mean, a
    message is delivered at most once more than there are retries and then set aside,
    reconnecting waits no longer than sixteen seconds, and every event of the outbox
    is sent in the end, in the order of the events. *)
From S2P Require Import Prelude GoStrings GoText Json Floats Condition Context Uuid Evaluate Snapshot PermissionService PolicyStore Metadata Schema Router Payload Workflow AuditTrail Sql ConditionSql Jql Planner Records Crud Cron Outbound CronScheduler Events.

Open Scope string_scope.
Open Scope list_scope.

(** ** Topic patterns *)

(** AMQP's topic exchange: [*] is one word, [#] any number of them. *)
Inductive topic_match : list string -> list string -> Prop :=
| tm_end : topic_match [] []
| tm_word w p k : w <> "#" -> w <> "*" -> topic_match p k -> topic_match (w :: p) (w :: k)
| tm_star w p k : topic_match p k -> topic_match ("*" :: p) (w :: k)
| tm_hash ws p k : topic_match p k -> topic_match ("#" :: p) (ws ++ k).

Definition some_suffix (rest : list string) : list string -> bool :=
  fix suffixes (k : list string) : bool :=
    matchesSegments rest k || match k with [] => false | _ :: k' => suffixes k' end.

Lemma some_suffix_spec rest key :
  some_suffix rest key = true <-> exists ws k, key = ws ++ k /\ matchesSegments rest k = true.
Proof.
  induction key as [|w key IH]; simpl; rewrite orb_true_iff.
  - split; [intros [H|]; [by exists [], [] | done]|]. intros (ws & k & He & Hm). left.
    by destruct ws, k; simpl in He.
  - rewrite IH. split.
    + intros [H|(ws & k & -> & Hm)]; [by exists [], (w :: key) | by exists (w :: ws), k].
    + intros ([|v ws] & k & He & Hm); simpl in He; subst; [by left|]. injection He as -> ->. right. by exists ws, k.
Qed.

Lemma matchesSegments_hash rest key :
  matchesSegments ("#" :: rest) key = match rest with [] => true | _ => some_suffix rest key end.
Proof. by destruct rest. Qed.

Lemma matchesSegments_spec pattern key : matchesSegments pattern key = true <-> topic_match pattern key.
Proof.
  revert key. induction pattern as [|h p IH]; intros key.
  - destruct key; simpl; (split; [|by inversion 1]); [constructor | done].
  - destruct (String.eqb_spec h "#") as [->|Hh].
    + rewrite matchesSegments_hash. destruct p as [|h' p].
      * split; [|done]. intros _. rewrite <- (app_nil_r key). constructor. by apply IH.
      * rewrite some_suffix_spec. split.
        -- intros (ws & k & -> & Hm). constructor. by apply IH.
        -- inversion 1 as [| | |ws ? k Hm]; subst; [done|]. exists ws, k. split; [done|]. by apply IH.
    + destruct (String.eqb_spec h "*") as [->|Hs].
      * destruct key as [|w key]; simpl; [split; [done | inversion 1]|]. rewrite IH.
        split; [by constructor | inversion 1; by subst].
      * simpl. destruct (String.eqb_spec h "#"); [done|]. destruct (String.eqb_spec h "*"); [done|].
        destruct key as [|w key]; [split; [done | inversion 1; by subst]|].
        rewrite andb_true_iff, String.eqb_eq, IH. split; [intros [-> Hm]; by constructor | inversion 1; by subst].
Qed.

Lemma Split_app_sep a b c : Split (a +:+ String c b) c = Split a c ++ Split b c.
Proof.
  induction a as [|x a IH]; simpl.
  - by rewrite Ascii.eqb_refl.
  - destruct (Ascii.eqb x c); [by rewrite IH|]. rewrite IH. destruct (Split a c) eqn:E; [by apply Split_nonempty in E | done].
Qed.

(** ** Retries *)

Section Retries.
Context `{!Broker} `{!BrokerLaws}.
Variables (queue : string) (policy : RetryPolicy) (registries : nat -> HandlerRegistry).
Hypothesis few_tiers : (Z.of_nat (length (rp_Delays policy)) < 2 ^ 32)%Z.
Variables (rk0 : string) (body : json).

(** What is done with the n-th delivery, when retry copies can be published. *)
Definition deliver (n : nat) (e : ConsumedEvent) : disposition := registry_handle (registries n) (Some policy) None e.

Definition tier (i : nat) : string := retry_queue queue (Z.of_nat i).

Lemma tier_inj i j : (1 <= i)%nat -> (1 <= j)%nat -> tier i = tier j -> i = j.
Proof.
  unfold tier, retry_queue. intros Hi Hj He. do 2 apply (inj _) in He. unfold FormatInt, pretty, pretty_Z in He.
  destruct (Z.of_nat i) as [|p|] eqn:Ei, (Z.of_nat j) as [|q|] eqn:Ej; try lia.
  apply (inj pretty) in He. lia.
Qed.

(** A message before its n-th redelivery. *)
Definition retried (n : nat) (m : message) : Prop :=
  ms_Body m = Some body /\
  death_queues (ms_Headers m) ≡ₚ map tier (seq 1 n) /\
  length (deaths (ms_Headers m)) = n /\
  match ms_Headers m !! originalRoutingKeyHeader with
  | Some (AString orig) => orig = rk0
  | _ => ms_RoutingKey m = rk0
  end.

Lemma retried_event n m : retried n m -> consumed_event queue m = Some (mkConsumed rk0 body (ms_Headers m) queue).
Proof.
  intros (Hb & _ & _ & Hk). unfold consumed_event. rewrite Hb. do 2 f_equal.
  by destruct (ms_Headers m !! originalRoutingKeyHeader) as [[]|].
Qed.

Lemma retry_count n h : (Z.of_nat n < 2 ^ 32)%Z -> length (deaths h) = n -> RetryCount (mkConsumed rk0 body h queue) = Z.of_nat n.
Proof.
  intros Hn Hl. unfold RetryCount, deaths in *. simpl.
  destruct (h !! death_header) as [[]|]; simpl in *; subst; try done. rewrite Z.mod_small; [done | lia].
Qed.

Lemma retried_next n m :
  retried n m ->
  retried (S n) (expired queue (tier (S n))
    (mkMessage (tier (S n)) (<[originalRoutingKeyHeader := AString rk0]> (ms_Headers m)) (Some body))).
Proof.
  intros (_ & Hq & Hl & _). set (h := <[originalRoutingKeyHeader := AString rk0]> (ms_Headers m)).
  assert (Hd : deaths h = deaths (ms_Headers m)) by (unfold deaths, h; by rewrite lookup_insert_ne).
  assert (Hdq : death_queues h = death_queues (ms_Headers m)) by (unfold death_queues; by rewrite Hd).
  destruct (died_entry (tier (S n)) h) as [Hlen Hperm].
  - rewrite Hdq, Hq. intros (i & He & Hi)%list_elem_of_fmap. apply list_elem_of_In, in_seq in Hi.
    apply tier_inj in He; lia.
  - by rewrite Hdq, Hd, Hq, length_map, length_seq.
  - unfold retried, expired. cbn [ms_Body ms_Headers ms_RoutingKey]. split; [done|]. split; [|split].
    + rewrite Hperm, Hdq, Hq. rewrite seq_S, map_app. simpl. by rewrite Permutation_cons_append.
    + by rewrite Hlen, Hd, Hl.
    + rewrite died_others by done. unfold h. by rewrite lookup_insert_eq.
Qed.

Lemma life_bounded k n m es f :
  (n + k = length (rp_Delays policy))%nat -> retried n m ->
  message_life (S k) deliver queue n m = (es, f) ->
  (f = Some Completed \/ (f = Some DeadLetter /\ length es = S k)) /\ (length es <= S k)%nat /\
  Forall (fun e => ce_RoutingKey e = rk0 /\ ce_Payload e = body) es.
Proof.
  revert n m es f. induction k as [|k IH]; intros n m es f Hn Hr; cbn [message_life]; rewrite (retried_event n m Hr);
    set (e := mkConsumed rk0 body (ms_Headers m) queue); unfold deliver at 1, registry_handle;
    (destruct (failures _ _); [intros [= <- <-]; split; [by left|]; split; [simpl; lia | by repeat constructor]|]);
    unfold RetryOrGiveUp; destruct Hr as (Hb & Hq & Hl & Hk); subst e; rewrite (retry_count n) by (done || lia).
  - replace (_ <=? _)%Z with true by (symmetry; apply Z.leb_le; lia).
    intros [= <- <-]. split; [by right|]. split; [simpl; lia | by repeat constructor].
  - replace (_ <=? _)%Z with false by (symmetry; apply Z.leb_gt; lia). simpl ce_Queue. simpl ce_RoutingKey. simpl ce_Payload. simpl ce_Headers.
    replace (retry_queue queue (Z.of_nat n + 1)) with (tier (S n)) by (unfold tier; f_equal; lia).
    match goal with |- (let '(_, _) := ?l in _) = _ -> _ => destruct l as [es' f'] eqn:E end.
    intros [= <- <-]. apply (IH (S n)) in E; [|lia|by apply retried_next; unfold retried].
    destruct E as (Hf & Hle & Hall). split; [|split; [simpl; lia | by constructor]].
    destruct Hf as [->|[-> Hl']]; [by left | right; simpl; auto with lia].
Qed.
End Retries.

(** A message the bus delivers to a registry of handlers with a retry policy is
    delivered at most once more than the policy has delays, whatever its handlers do
    at each delivery: it is completed by a delivery all of whose handlers succeed, or it
    is dead-lettered after exactly that many deliveries; and every delivery has the
    routing key and the payload it was published with, although the broker rewrites the
    routing key of a message that comes back from a retry queue. *)
Lemma message_retried_then_set_aside `{!Broker} `{!BrokerLaws} (queue : string) (policy : RetryPolicy)
    (registries : nat -> HandlerRegistry) (topic : string) (payload : json) :
  (Z.of_nat (length (rp_Delays policy)) < 2 ^ 32)%Z ->
  let '(es, f) := message_life (S (length (rp_Delays policy)))
    (fun n e => registry_handle (registries n) (Some policy) None e) queue 0 (mkMessage topic ∅ (Some payload)) in
  (f = Some Completed \/ (f = Some DeadLetter /\ length es = S (length (rp_Delays policy)))) /\
  (length es <= S (length (rp_Delays policy)))%nat /\
  Forall (fun e => ce_RoutingKey e = topic /\ ce_Payload e = payload) es.
Proof.
  intros Hfew. destruct (message_life _ _ _ _ _) as [es f] eqn:E.
  eapply (life_bounded queue policy registries Hfew topic payload _ 0); [reflexivity | | exact E].
  by unfold retried.
Qed.

(** A failed publication of the retry copy leaves the delivery neither acknowledged
    nor rejected. *)
Lemma failed_retry_leaves_delivery e policy err :
  (RetryCount e < Z.of_nat (length (rp_Delays policy)))%Z -> RetryOrGiveUp (Some err) e policy = DoNothing err.
Proof. intros H. unfold RetryOrGiveUp. by replace (_ <=? _)%Z with false by (symmetry; apply Z.leb_gt; lia). Qed.

(** A broker that records a death as a table with the queue. *)
#[export] Instance TestBroker : Broker :=
  {| died q h := <[death_header := AList (ATable [("queue", AString q)] :: deaths h)]> h |}.

#[export] Instance TestBrokerLaws : BrokerLaws.
Proof.
  constructor.
  - intros q h _ _. unfold death_queues, deaths at 1 3. simpl. by rewrite lookup_insert_eq.
  - intros q h k Hk. simpl. by rewrite lookup_insert_ne.
Qed.

Definition flaky (n : nat) : HandlerRegistry :=
  On (On NewHandlerRegistry "crm.#" (fun _ => if (n <? 2)%nat then Some "down" else None)) "#.created" (fun _ => None).

Lemma message_retried_then_set_aside_witness :
  let '(es, f) := message_life 4 (fun n e => registry_handle (flaky n) (Some (mkRetryPolicy [5; 30; 120]%Z)) None e)
    "q" 0 (mkMessage "crm.deals.record.created" ∅ (Some JNull)) in
  f = Some Completed /\ length es = 3%nat /\
  Forall (fun e => ce_RoutingKey e = "crm.deals.record.created" /\ ce_Payload e = JNull) es.
Proof.
  pose proof (message_retried_then_set_aside "q" (mkRetryPolicy [5; 30; 120]%Z) flaky "crm.deals.record.created" JNull ltac:(reflexivity)) as H.
  simpl rp_Delays in H. cbn [length] in H.
  assert (E : exists es, message_life 4 (fun n e => registry_handle (flaky n) (Some (mkRetryPolicy [5; 30; 120]%Z)) None e)
    "q" 0 (mkMessage "crm.deals.record.created" ∅ (Some JNull)) = (es, Some Completed) /\ length es = 3%nat)
    by (eexists; split; vm_compute; reflexivity).
  destruct E as (es & E & Hl). rewrite E in H |- *. split; [reflexivity|]. split; [exact Hl | exact (proj2 (proj2 H))].
Defined.

(** ** Reconnecting *)

Lemma BackoffDelay_bounds attempt : (0 <= attempt)%Z -> (second <= BackoffDelay attempt <= 16 * second)%Z.
Proof.
  intros Ha. unfold BackoffDelay. assert (Hs : (0 < second)%Z) by reflexivity.
  set (a := if (4 <? attempt)%Z then 4%Z else attempt).
  assert (H : (1 <= 2 ^ a <= 2 ^ 4)%Z).
  { assert (0 <= a <= 4)%Z by (subst a; destruct (Z.ltb_spec 4 attempt); lia).
    split; [apply (Z.pow_le_mono_r 2 0) | apply Z.pow_le_mono_r]; lia. }
  change (2 ^ 4)%Z with 16%Z in H. replace (30 * second <? 2 ^ a * second)%Z with false by (symmetry; apply Z.ltb_ge; nia).
  nia.
Qed.

Definition counted (s : consumer) : Prop := match s with Connecting a | Backoff a => (0 <= a)%Z | _ => True end.

Lemma consumer_step_counted s x : counted s -> counted (consumer_step s x).1.
Proof. destruct s, x; simpl; try done. intros H. unfold uint32_succ. apply Z.mod_pos_bound. lia. Qed.

(** Whatever happens to its connections, a consumer never sleeps for less than one or
    more than sixteen seconds. *)
Lemma consumer_sleeps_bounded s xs d :
  counted s -> Sleep d ∈ (consumer_run s xs).2 -> (second <= d <= 16 * second)%Z.
Proof.
  revert s. induction xs as [|x xs IH]; intros s Hs; simpl; [intros H%elem_of_nil; done|].
  pose proof (consumer_step_counted s x Hs) as Hs'.
  destruct (consumer_step s x) as [s' out] eqn:E1. destruct (consumer_run s' xs) as [s'' out'] eqn:E2. simpl.
  intros [Hd|Hd]%elem_of_app; [|apply (IH s' Hs'); by rewrite E2].
  assert (Hb : exists a, (0 <= a)%Z /\ d = BackoffDelay a).
  { destruct s, x; simpl in E1; injection E1 as <- <-; simpl in Hs; set_solver. }
  destruct Hb as (a & Ha & ->). by apply BackoffDelay_bounds.
Qed.

(** A connection that opens and is closed at once is opened again without a delay,
    however often. *)
Lemma reconnects_without_delay n :
  RunResilientConsumer (concat (replicate n [Connected; StreamClosed])) = (Connecting 0, replicate n CloseBus).
Proof.
  unfold RunResilientConsumer. induction n as [|n IH]; [done|]. simpl. by rewrite IH.
Qed.

(** ** From a record's change to its consumers *)

Lemma CutSuffix_unfold s suffix :
  CutSuffix s suffix = if String.eqb s suffix then Some "" else
  match s with
  | EmptyString => None
  | String a s' => match CutSuffix s' suffix with Some b => Some (String a b) | None => None end
  end.
Proof. by destruct s. Qed.

Lemma CutSuffix_app a s : CutSuffix (a +:+ s) s = Some a.
Proof.
  induction a as [|x a IH]; rewrite CutSuffix_unfold.
  - change ("" +:+ s) with s. by rewrite String.eqb_refl.
  - change (String x a +:+ s) with (String x (a +:+ s)).
    destruct (String.eqb_spec (String x (a +:+ s)) s) as [He|]; [|by rewrite IH].
    apply (f_equal String.length) in He. simpl in He. rewrite length_app_str in He. lia.
Qed.

Lemma TrimSuffix_app a s : TrimSuffix (a +:+ s) s = a.
Proof. unfold TrimSuffix. by rewrite CutSuffix_app. Qed.

(** A topic of an entity, split at its dots. *)
Lemma Split_topic name suffix : Split (name +:+ String "." suffix) "." = Split name "." ++ Split suffix ".".
Proof. apply Split_app_sep. Qed.

Lemma transitioned_topic name : topicMatches NotificationRoutingKey (name +:+ ".workflow.transitioned") = true.
Proof. unfold topicMatches. rewrite Split_topic. apply matchesSegments_spec. apply (tm_hash _ ["workflow"; "transitioned"]). by apply matchesSegments_spec. Qed.

Lemma record_topic name event :
  event ∈ ["created"; "updated"; "deleted"] -> topicMatches NotificationRoutingKey (name +:+ ".record." +:+ event) = false.
Proof.
  intros He. apply not_true_is_false. unfold topicMatches. rewrite matchesSegments_spec.
  change (".record." +:+ event) with (String "." ("record" +:+ String "." event)). rewrite Split_topic, Split_topic.
  assert (Hs : Split event "." = [event]) by (repeat (apply elem_of_cons in He as [->|He]; [done|]); by apply elem_of_nil in He).
  rewrite Hs. change (Split NotificationRoutingKey ".") with ["#"; "workflow"; "transitioned"].
  inversion 1 as [| | |ws ? k Hm Hp Hk]; subst; [done|].
  inversion Hm as [|? ? ? ? ? Hm1| |]; subst. inversion Hm1 as [|? ? ? ? ? Hm2| |]; subst. inversion Hm2; subst.
  apply (f_equal reverse) in Hk. rewrite !reverse_app in Hk. cbn in Hk. injection Hk as <-. set_solver.
Qed.

(** A transition of any entity's record reaches those who wait for it: the event
    the workflow engine puts in the outbox matches the notification worker's pattern,
    the worker reads the entity, the record, the action and both states back from it,
    and the trigger listener of the scheduler takes it for a transition of the entity;
    the creation, change or deletion of a record does not match. *)
Lemma transitions_are_notified `{!UuidLib} (entity : EntityDefinition) (tenantID recordID : uuid)
    (action fromState toState : string) (actor : option uuid) (headers : gmap string amqp_value) :
  (exists event, EmitTransitioned [] entity tenantID recordID action fromState toState actor = [event] /\
    topicMatches NotificationRoutingKey (ob_Topic event) = true /\
    classifyTopic (ob_Topic event) = topicTransitioned (e_Name entity) /\
    notification_handle (mkConsumed (ob_Topic event) (ob_Payload event) headers NotificationQueue)
    = (mkNotification (e_Name entity) (uuid_String recordID) action fromState toState, DoAck)) /\
  (forall data version event,
    event ∈ EmitCreated [] entity tenantID recordID data ++ EmitDeleted [] entity tenantID recordID
      ++ EmitUpdated [] entity tenantID recordID data version ->
    topicMatches NotificationRoutingKey (ob_Topic event) = false).
Proof.
  split.
  - eexists. split; [reflexivity|]. simpl ob_Topic. simpl ob_Payload. split; [apply transitioned_topic|].
    split; [unfold classifyTopic; by rewrite CutSuffix_app|].
    unfold notification_handle, notify. simpl ce_RoutingKey. simpl ce_Payload.
    rewrite TrimSuffix_app, unmarshal_marshal_map. by vm_compute.
  - intros data version event Hin. unfold EmitCreated, EmitDeleted, EmitUpdated, EnqueueOutboxEvent in Hin. simpl in Hin.
    repeat (apply elem_of_cons in Hin as [->|Hin]; [apply record_topic; set_solver|]). by apply elem_of_nil in Hin.
Qed.

(** ** The outbox is emptied *)

Section Drain.
Context {UL : UuidLib}.

Definition sent_of (r : outbox_row) : string * json := (or_topic r, or_payload r).

(** What a statement of the publisher leaves of a row. *)
Definition same_event (r r' : outbox_row) : Prop :=
  or_id r' = or_id r /\ sent_of r' = sent_of r /\ or_created_at r' = or_created_at r.

Definition kept (log : sent) (r r' : outbox_row) : Prop :=
  same_event r r' /\ (is_some (or_published_at r') = true -> is_some (or_published_at r) = true \/ sent_of r ∈ log).

Lemma kept_refl log r : kept log r r.
Proof. split; [done | auto]. Qed.

Lemma kept_trans log log' r1 r2 r3 : (forall x, x ∈ log -> x ∈ log') -> kept log r1 r2 -> kept log' r2 r3 -> kept log' r1 r3.
Proof.
  intros Hsub [(Hi & Hs & Hc) Hp] [(Hi' & Hs' & Hc') Hp']. split; [unfold same_event; split_and!; congruence|].
  intros [H|H]%Hp'; [apply Hp in H as [H|H]; [by left | right; by apply Hsub] | right; by rewrite <- Hs].
Qed.

Lemma kept_all_trans log log' l1 l2 l3 :
  (forall x, x ∈ log -> x ∈ log') -> Forall2 (kept log) l1 l2 -> Forall2 (kept log') l2 l3 -> Forall2 (kept log') l1 l3.
Proof.
  intros Hsub H12. revert l3. induction H12 as [|x y l1 l2 Hxy _ IH]; intros l3 H23; inversion H23 as [|? z ? l4 Hyz H34]; subst; constructor.
  - by eapply kept_trans.
  - by apply IH.
Qed.

Lemma kept_refl_all log l : Forall2 (kept log) l l.
Proof. apply Forall2_same_length_lookup. split; [done|]. intros i x y Hx Hy. rewrite Hx in Hy. injection Hy as <-. apply kept_refl. Qed.

Lemma map_kept log (f : outbox_row -> outbox_row) l : (forall r, r ∈ l -> kept log r (f r)) -> Forall2 (kept log) l (map f l).
Proof.
  intros H. apply Forall2_fmap_r, Forall2_same_length_lookup. split; [done|]. intros i x y Hx Hy. rewrite Hx in Hy.
  injection Hy as <-. apply H. by eapply list_elem_of_lookup_2.
Qed.

Lemma markPublished_kept log now row r :
  (or_id r = or_id row -> sent_of r ∈ log) -> kept log r (markPublished now (or_id row) r).
Proof. intros H. unfold markPublished. case_bool_decide as E; [split; [done | right; by apply H] | apply kept_refl]. Qed.

Lemma markFailed_kept log e id r : kept log r (markFailed e id r).
Proof. unfold markFailed. destruct (_ && _) eqn:E; [|apply kept_refl]. split; [done | simpl; auto]. Qed.

(** The rows of a batch are rows of the table. *)
Definition drawn (batch rows : list outbox_row) : Prop :=
  forall b r, b ∈ batch -> r ∈ rows -> or_id r = or_id b -> sent_of r = sent_of b.

Lemma drawn_kept log b batch rows rows' : drawn (b :: batch) rows -> Forall2 (kept log) rows rows' -> drawn batch rows'.
Proof.
  intros Hd Hk c r' Hc Hr' He. apply list_elem_of_lookup in Hr' as [i Hi].
  destruct (Forall2_lookup_r _ _ _ _ _ Hk Hi) as (r & Hr & (Hid & Hs & _) & _). rewrite Hs.
  apply (Hd c r); [by right | by eapply list_elem_of_lookup_2 | congruence].
Qed.

Lemma publish_batch_kept p batch rows log b r log' :
  drawn batch rows -> publish_batch p batch rows log b = (r, log') ->
  (forall x, x ∈ log -> x ∈ log') /\ (forall rows' ap, r = Ok (ap, rows') -> Forall2 (kept log') rows rows').
Proof.
  revert rows log b. induction batch as [|row batch IH]; intros rows log b Hd; simpl.
  - intros [= <- <-]. split; [done|]. intros rows' ap [= <- <-]. apply kept_refl_all.
  - destruct (po_publish p log row) as [pubErr|] eqn:Ep.
    + destruct (if (or_attempts row =? 2147483647)%Z then Some _ else _) as [e|] eqn:Em; [intros [= <- <-]; split; [done | done]|]. intros Hrun.
      assert (Hk : Forall2 (kept log) rows (map (markFailed pubErr (or_id row)) rows))
        by (apply map_kept; intros; apply markFailed_kept).
      destruct (IH _ _ _ (drawn_kept _ _ _ _ _ Hd Hk) Hrun) as [Hsub Hall]. split; [done|]. intros rows' ap Hr.
      by eapply kept_all_trans, Hall.
    + set (log1 := log ++ [(or_topic row, or_payload row)]).
      assert (H1 : forall x, x ∈ log -> x ∈ log1) by (intros x Hx; subst log1; set_solver).
      destruct (po_mark p (or_id row)) as [e|] eqn:Em; [intros [= <- <-]; split; [done | done]|]. intros Hrun.
      assert (Hk : Forall2 (kept log1) rows (map (markPublished (po_now p) (or_id row)) rows)).
      { apply map_kept. intros r0 Hr0. apply markPublished_kept. intros He.
        rewrite (Hd row r0) by (done || by left). subst log1. unfold sent_of. set_solver. }
      destruct (IH _ _ _ (drawn_kept _ _ _ _ _ Hd Hk) Hrun) as [Hsub Hall]. split; [auto|].
      intros rows' ap Hr. by eapply kept_all_trans, Hall.
Qed.

Lemma select_pending_rows locked n rows r : r ∈ select_pending locked n rows -> r ∈ rows.
Proof.
  unfold select_pending. intros Hr. apply (subseteq_take _ _) in Hr. rewrite order_by_perm in Hr.
  apply list_elem_of_In, filter_In in Hr as [Hr _]. by apply list_elem_of_In.
Qed.

Lemma select_drawn locked n rows : NoDup (map or_id rows) -> drawn (select_pending locked n rows) rows.
Proof.
  intros Hnd b r Hb%select_pending_rows Hr He. by rewrite (NoDup_map_eq or_id rows r b).
Qed.

(** One poll, whatever fails in it: no event disappears or changes, and a row is
    marked only after its event was sent. *)
Lemma publishPending_kept p n rows log r rows' log' :
  NoDup (map or_id rows) -> publishPending p n (rows, log) = (r, (rows', log')) ->
  (forall x, x ∈ log -> x ∈ log') /\ Forall2 (kept log') rows rows'.
Proof.
  intros Hnd. unfold publishPending.
  destruct (po_begin p); [intros [= <- <- <-]; split; [done | apply kept_refl_all]|].
  destruct (n <? 0)%Z; [intros [= <- <- <-]; split; [done | apply kept_refl_all]|].
  destruct (publish_batch _ _ _ _ _) as [rb log1] eqn:Eb.
  pose proof (publish_batch_kept _ _ _ _ _ _ _ (select_drawn _ n _ Hnd) Eb) as [Hsub Hall].
  destruct rb as [[ap rows1]| |]; [destruct (po_commit p)| |]; intros [= <- <- <-]; (split; [done|]);
    (apply kept_refl_all || by eapply Hall).
Qed.

(** The life of an outbox: events are enqueued and publishers poll, in any order and
    with any failures. *)
Inductive outbox_reach : list outbox_row * sent -> Prop :=
| or_empty : outbox_reach ([], [])
| or_enqueue id created_at event rows log :
    outbox_reach (rows, log) -> id ∉ map or_id rows ->
    outbox_reach (rows ++ [enqueued_row id created_at event], log)
| or_poll p n w r w' : outbox_reach w -> publishPending p n w = (r, w') -> outbox_reach w'.

Lemma kept_ids log rows rows' : Forall2 (kept log) rows rows' -> map or_id rows' = map or_id rows.
Proof. induction 1 as [|r r' l l' [(Hi & _) _] _ IH]; simpl; [done|]. by rewrite Hi, IH. Qed.

Lemma outbox_reach_inv rows log :
  outbox_reach (rows, log) ->
  NoDup (map or_id rows) /\ Forall (fun r => is_some (or_published_at r) = true -> sent_of r ∈ log) rows.
Proof.
  remember (rows, log) as w eqn:Hw. intros Hr. revert rows log Hw.
  induction Hr as [|id c ev rows0 log0 Hr IH Hid|p n [rows0 log0] r w' Hr IH Hp]; intros rows log Hw.
  - injection Hw as <- <-. split; constructor.
  - injection Hw as <- <-. destruct (IH _ _ eq_refl) as [Hnd Hall]. split.
    + rewrite map_app. simpl. apply NoDup_app. split; [done|]. split; [|apply NoDup_singleton].
      intros x Hx ->%list_elem_of_singleton. done.
    + apply Forall_app. split; [done|]. by repeat constructor.
  - subst w'. destruct (IH _ _ eq_refl) as [Hnd Hall]. destruct (publishPending_kept _ _ _ _ _ _ _ Hnd Hp) as [Hsub Hk].
    split; [by rewrite (kept_ids _ _ _ Hk)|]. apply Forall_forall. intros r' Hr' Hpub.
    apply list_elem_of_lookup in Hr' as [i Hi]. destruct (Forall2_lookup_r _ _ _ _ _ Hk Hi) as (r0 & Hr0 & (_ & Hs & _) & Hor).
    rewrite Hs. destruct (Hor Hpub) as [H0|H0]; [|done]. apply Hsub. rewrite Forall_forall in Hall.
    apply Hall; [by eapply list_elem_of_lookup_2 | done].
Qed.

(** A poll in which nothing fails and no other publisher is active. *)
Definition clear_poll (p : Poll) : Prop :=
  (forall id, po_locked p id = false) /\ (forall log r, po_publish p log r = None) /\ (forall id, po_mark p id = None) /\
  po_begin p = None /\ po_commit p = None.

Definition unpublished (r : outbox_row) : bool := negb (is_some (or_published_at r)).

(** What is still to send, in the order of the events. *)
Definition backlog (rows : list outbox_row) : list outbox_row := order_by or_created_at (List.filter unpublished rows).

Definition polls (ps : list Poll) (n : Z) (w : list outbox_row * sent) : list outbox_row * sent :=
  fold_left (fun w p => (publishPending p n w).2) ps w.

Lemma publish_batch_clear p batch rows log b :
  clear_poll p ->
  publish_batch p batch rows log b =
  (Ok (b, fold_left (fun rows row => map (markPublished (po_now p) (or_id row)) rows) batch rows), log ++ map sent_of batch).
Proof.
  intros (_ & Hp & Hm & _). revert rows log. induction batch as [|row batch IH]; intros rows log; simpl; [by rewrite app_nil_r|].
  rewrite Hp, Hm, IH. by rewrite <- app_assoc.
Qed.

Lemma filter_marked now id (q : uuid -> bool) rows :
  List.filter (fun r => unpublished r && q (or_id r)) (map (markPublished now id) rows) =
  List.filter (fun r => unpublished r && (negb (bool_decide (or_id r = id)) && q (or_id r))) rows.
Proof.
  induction rows as [|r rows IH]; simpl; [done|]. rewrite IH. unfold markPublished at 1 2 3. case_bool_decide as E; simpl.
  - by rewrite andb_false_r.
  - done.
Qed.

Definition in_batch (batch : list outbox_row) (id : uuid) : bool := bool_decide (id ∈ map or_id batch).

Lemma filter_marked_batch now batch (q : uuid -> bool) rows :
  List.filter (fun r => unpublished r && q (or_id r))
    (fold_left (fun rows row => map (markPublished now (or_id row)) rows) batch rows) =
  List.filter (fun r => unpublished r && (negb (in_batch batch (or_id r)) && q (or_id r))) rows.
Proof.
  revert rows. induction batch as [|b batch IH]; intros rows; cbn [fold_left map].
  - apply filter_ext. intros r. unfold in_batch. by rewrite bool_decide_eq_false_2 by apply not_elem_of_nil.
  - rewrite IH. etransitivity; [apply (filter_marked now (or_id b) (fun id => negb (in_batch batch id) && q id))|].
    apply filter_ext. intros r. destruct (unpublished r); [|done]. simpl. rewrite andb_assoc. f_equal.
    rewrite <- negb_orb. f_equal. f_equal. unfold in_batch. repeat case_bool_decide; set_solver.
Qed.

Lemma filter_and {A} (f g : A -> bool) l : List.filter (fun a => f a && g a) l = List.filter g (List.filter f l).
Proof. induction l as [|a l IH]; simpl; [done|]. destruct (f a); simpl; by rewrite IH. Qed.

Lemma filter_taken n (l : list outbox_row) :
  NoDup (map or_id l) -> List.filter (fun r => negb (in_batch (take n l) (or_id r))) l = drop n l.
Proof.
  intros Hnd. assert (Hl : l = take n l ++ drop n l) by by rewrite take_drop.
  rewrite Hl, map_app in Hnd. apply NoDup_app in Hnd as (_ & Hd & _).
  set (f := fun r => negb (in_batch (take n l) (or_id r))). transitivity (List.filter f (take n l ++ drop n l)); [by rewrite <- Hl|].
  rewrite List.filter_app, filter_none, filter_all; [done| |]; intros r Hr; subst f; unfold in_batch.
  - rewrite bool_decide_eq_false_2; [done|]. intros Hin. by apply (Hd _ Hin), list_elem_of_fmap_2.
  - by rewrite bool_decide_eq_true_2 by by apply list_elem_of_fmap_2.
Qed.

Lemma clear_poll_step p n rows log :
  clear_poll p -> (0 <= n)%Z -> NoDup (map or_id rows) ->
  exists rows', publishPending p n (rows, log) = (Ok true, (rows', log ++ map sent_of (take (Z.to_nat n) (backlog rows)))) /\
    backlog rows' = drop (Z.to_nat n) (backlog rows).
Proof.
  intros Hp Hn Hnd. pose proof Hp as (Hlock & _ & _ & Hb & Hc). unfold publishPending. rewrite Hb.
  replace (n <? 0)%Z with false by (symmetry; apply Z.ltb_ge; lia). rewrite publish_batch_clear, Hc by done.
  assert (Hsel : select_pending (po_locked p) n rows = take (Z.to_nat n) (backlog rows)).
  { unfold select_pending, backlog. do 2 f_equal. apply filter_ext. intros r. by rewrite Hlock, andb_true_r. }
  rewrite Hsel. eexists. split; [reflexivity|]. unfold backlog at 1.
  rewrite (filter_ext unpublished (fun r => unpublished r && true)) by (intros r; by rewrite andb_true_r).
  rewrite (filter_marked_batch _ _ (fun _ => true)).
  rewrite (filter_ext _ (fun r => unpublished r && negb (in_batch (take (Z.to_nat n) (backlog rows)) (or_id r)))) by (intros r; by rewrite andb_true_r).
  rewrite filter_and, order_by_filter. fold (backlog rows). apply filter_taken.
  unfold backlog. rewrite order_by_perm. by apply map_filter_NoDup.
Qed.

Lemma polls_clear ps n rows log :
  Forall clear_poll ps -> (0 < n)%Z -> NoDup (map or_id rows) ->
  (Z.of_nat (length (backlog rows)) <= Z.of_nat (length ps) * n)%Z ->
  exists rows', polls ps n (rows, log) = (rows', log ++ map sent_of (backlog rows)) /\ backlog rows' = [].
Proof.
  revert rows log. induction ps as [|p ps IH]; intros rows log Hps Hn Hnd Hlen.
  - assert (backlog rows = []) as Hb by (destruct (backlog rows); simpl in Hlen; [done | lia]).
    exists rows. rewrite Hb. simpl. by rewrite app_nil_r.
  - apply Forall_cons in Hps as [Hp Hps]. destruct (clear_poll_step p n rows log Hp ltac:(lia) Hnd) as (rows1 & He & Hb).
    destruct (publishPending_kept _ _ _ _ _ _ _ Hnd He) as [_ Hk].
    unfold polls. cbn [fold_left]. rewrite He. cbn [snd].
    destruct (IH rows1 (log ++ map sent_of (take (Z.to_nat n) (backlog rows)))) as (rows' & Hpoll & Hempty);
      [done|done|by rewrite (kept_ids _ _ _ Hk)|rewrite Hb, length_drop; simpl in Hlen; lia|].
    exists rows'. split; [|done]. unfold polls in Hpoll. rewrite Hpoll, Hb. f_equal.
    rewrite <- app_assoc, <- map_app. by rewrite take_drop.
Qed.

(** C36. Nothing put in the outbox is lost: whatever polls failed before, at whatever
    point, once publishers can reach the database and the bus again as many polls as
    cover the backlog send every event still to send exactly once, the oldest first,
    after which every event ever enqueued has been sent and none is pending. *)
Theorem outbox_delivers (rows : list outbox_row) (log : sent) (ps : list Poll) (batchSize : Z) :
  outbox_reach (rows, log) -> Forall clear_poll ps -> (0 < batchSize)%Z ->
  (Z.of_nat (length (backlog rows)) <= Z.of_nat (length ps) * batchSize)%Z ->
  exists rows', polls ps batchSize (rows, log) = (rows', log ++ map sent_of (backlog rows)) /\ backlog rows' = [] /\
    StronglySorted (key_le or_created_at) (backlog rows) /\
    Forall (fun r => sent_of r ∈ log ++ map sent_of (backlog rows)) rows.
Proof.
  intros Hr Hps Hn Hlen. destruct (outbox_reach_inv _ _ Hr) as [Hnd Hall].
  destruct (polls_clear ps batchSize rows log Hps Hn Hnd Hlen) as (rows' & He & Hb).
  exists rows'. split_and!; [done | done | apply order_by_sorted|].
  apply Forall_forall. intros r Hin. apply elem_of_app. destruct (unpublished r) eqn:Eu.
  - right. apply list_elem_of_fmap_2. unfold backlog. rewrite order_by_perm. by apply list_elem_of_In, filter_In; split; [apply list_elem_of_In|].
  - left. rewrite Forall_forall in Hall. apply Hall; [done|]. by apply negb_false_iff.
Qed.

(** Two publishers that poll at once share no row: the second skips what the first has
    locked. *)
Lemma publishers_share_no_row n m rows r :
  r ∈ select_pending (in_batch (select_pending (fun _ => false) n rows)) m rows ->
  or_id r ∉ map or_id (select_pending (fun _ => false) n rows).
Proof.
  unfold select_pending at 1. intros Hr. apply (subseteq_take _ _) in Hr. rewrite order_by_perm in Hr.
  apply list_elem_of_In, filter_In in Hr as [_ Hr]. apply andb_true_iff in Hr as [_ Hr]. apply negb_true_iff in Hr.
  by apply bool_decide_eq_false in Hr.
Qed.
End Drain.

Definition test_poll (publish : option error) (commit : option error) : @Poll TestUuid :=
  @mkPoll TestUuid 100 (fun _ => false) (fun _ _ => publish) (fun _ => None) None commit.

Definition test_outbox : list (@outbox_row TestUuid) :=
  [@enqueued_row TestUuid "e1" 5 (@mkOutbox TestUuid "crm.deals.record.created" "crm.deals" "r1" JNull);
   @enqueued_row TestUuid "e2" 3 (@mkOutbox TestUuid "crm.deals.record.updated" "crm.deals" "r2" JNull)].

(** Two events, of which the older was enqueued last; a poll whose publications failed;
    and a poll that sent both events but could not commit. *)
Definition test_outbox_after : list (@outbox_row TestUuid) * sent :=
  polls [test_poll (Some "bus down") None; test_poll None (Some "connection lost")] 10 (test_outbox, []).

Lemma test_outbox_reach : outbox_reach test_outbox_after.
Proof.
  unfold test_outbox_after, polls. cbn [fold_left].
  eapply or_poll; [|apply surjective_pairing]. eapply or_poll; [|apply surjective_pairing].
  apply (@or_enqueue TestUuid "e2" 3 _ [_]); [|by vm_compute; intros ?%list_elem_of_singleton].
  apply (@or_enqueue TestUuid "e1" 5 _ []); [apply or_empty | apply not_elem_of_nil].
Qed.

Lemma outbox_delivers_witness :
  exists rows', polls [test_poll None None] 10 test_outbox_after =
    (rows', [("crm.deals.record.updated", JNull); ("crm.deals.record.created", JNull);
             ("crm.deals.record.updated", JNull); ("crm.deals.record.created", JNull)]) /\ backlog rows' = [].
Proof.
  destruct (@outbox_delivers TestUuid test_outbox_after.1 test_outbox_after.2 [test_poll None None] 10 test_outbox_reach)
    as (rows' & Hp & Hb & _).
  - constructor; [repeat split | constructor].
  - reflexivity.
  - vm_compute. discriminate.
  - exists rows'. split; [exact Hp | exact Hb].
Defined.
