(* ===== verification/Tenants.v ===== *)
(** The control plane (src/go/control): the registry of tenants (registry.go) and its
    cache (cache.go), the pools a tenant is reached through (router.go), the schema of
    a tenant (tenantschema.go) and the provisioning of tenants (provisioning.go).

    A database is its schemas with the tables and foreign keys they have, and the rows
    of the tables provisioning writes, by the schema they are in: a name without a
    schema is looked up along the search path of the connection. Statements outside a
    transaction take effect one by one, so a call that fails leaves what it did; which
    calls fail is an argument. Times are nanoseconds. *)
From S2P Require Import Prelude GoStrings GoText Json Condition Context Uuid Evaluate Snapshot PermissionService Users PolicyStore Metadata Schema Router Payload Workflow AuditTrail Sql ConditionSql Jql Planner Records Crud Authn.

Open Scope string_scope.
Open Scope list_scope.

(** ** The registry (registry.go) *)

Section Registry.
Context `{UuidLib}.

(** A row of control.tenants. *)
Record tenant_row : Type := mkTenantRow {
  tn_id : uuid;
  tn_tier : string;
  tn_strategy : string;
  tn_schema_name : option string;
  tn_dsn_secret_ref : option string;
  tn_status : string;
  tn_created_at : Z;
  tn_trial_expires_at : option Z;
  tn_product : option string
}.

Record TenantSummary : Type := mkSummary {
  ts_ID : uuid;
  ts_Tier : string;
  ts_Strategy : TenantStrategy;
  ts_Status : TenantStatus;
  ts_CreatedAt : Z;
  ts_TrialExpiresAt : option Z;
  ts_Product : option string
}.

Definition parseStrategy (strategyCol : string) (schemaName dsnSecretRef : option string) : result error TenantStrategy :=
  if String.eqb strategyCol "schema" then
    match schemaName with
    | None => Err "control.tenants row with strategy='schema' has no schema_name"
    | Some name => Ok (SchemaStrategy name)
    end
  else if String.eqb strategyCol "dedicated_db" then
    match dsnSecretRef with
    | None => Err "control.tenants row with strategy='dedicated_db' has no dsn_secret_ref"
    | Some ref => Ok (DedicatedDbStrategy ref)
    end
  else Err ("unknown control.tenants.strategy value: " +:+ strategyCol).

Definition is_tenant (id : uuid) (r : tenant_row) : bool := bool_decide (tn_id r = id).

(** The primary key refuses a second row of a tenant. *)
Definition Provision (now : Z) (rows : list tenant_row) (id : uuid) (tier strategy : string)
    (schemaName dsnSecretRef : option string) (status : string) : result error (list tenant_row) :=
  if existsb (is_tenant id) rows then Err "duplicate key value violates unique constraint tenants_pkey"
  else Ok (rows ++ [mkTenantRow id tier strategy schemaName dsnSecretRef status now None None]).

Definition with_status (status : string) (r : tenant_row) : tenant_row :=
  mkTenantRow (tn_id r) (tn_tier r) (tn_strategy r) (tn_schema_name r) (tn_dsn_secret_ref r) status (tn_created_at r)
    (tn_trial_expires_at r) (tn_product r).

Definition with_product (product : string) (r : tenant_row) : tenant_row :=
  mkTenantRow (tn_id r) (tn_tier r) (tn_strategy r) (tn_schema_name r) (tn_dsn_secret_ref r) (tn_status r) (tn_created_at r)
    (tn_trial_expires_at r) (Some product).

(** UPDATE ... WHERE id = $1, and whether a row was affected. *)
Definition update_tenant (f : tenant_row -> tenant_row) (id : uuid) (rows : list tenant_row) : bool * list tenant_row :=
  (existsb (is_tenant id) rows, map (fun r => if is_tenant id r then f r else r) rows).

Definition SetStatus (id : uuid) (status : string) (rows : list tenant_row) : bool * list tenant_row :=
  update_tenant (with_status status) id rows.
Definition SetProduct (id : uuid) (product : string) (rows : list tenant_row) : bool * list tenant_row :=
  update_tenant (with_product product) id rows.
Definition Deprovision (id : uuid) (rows : list tenant_row) : bool * list tenant_row :=
  update_tenant (with_status "deleted") id rows.

Definition GetProduct (id : uuid) (rows : list tenant_row) : option string := List.find (is_tenant id) rows ≫= tn_product.

Definition summary_of (r : tenant_row) : option TenantSummary :=
  match parseStrategy (tn_strategy r) (tn_schema_name r) (tn_dsn_secret_ref r), ParseTenantStatus (tn_status r) with
  | Ok strategy, Ok status =>
    Some (mkSummary (tn_id r) (tn_tier r) strategy status (tn_created_at r) (tn_trial_expires_at r) (tn_product r))
  | _, _ => None
  end.

(** ORDER BY created_at DESC; a row that does not parse is left out. *)
Definition ListTenants (rows : list tenant_row) : list TenantSummary := omap summary_of (reverse (order_by tn_created_at rows)).

Definition Registry_Get (rows : list tenant_row) (tenantID : uuid) : result error (option TenantRouting) :=
  match List.find (is_tenant tenantID) rows with
  | None => Ok None
  | Some r =>
    let! strategy := parseStrategy (tn_strategy r) (tn_schema_name r) (tn_dsn_secret_ref r) in
    let! status := ParseTenantStatus (tn_status r) in
    Ok (Some (mkRouting status strategy))
  end.

(** ** The cache (cache.go) *)

Definition registryCacheTTL : Z := 30 * 1000000000.

(** go-cache: an entry is served up to its expiry, inclusively. *)
Definition ttl_get {V} (now : Z) (cache : gmap string (V * Z)) (key : string) : option V :=
  match cache !! key with
  | Some (v, expiration) => if (expiration <? now)%Z then None else Some v
  | None => None
  end.

Definition ttl_set {V} (now ttl : Z) (cache : gmap string (V * Z)) (key : string) (v : V) : gmap string (V * Z) :=
  <[key := (v, (now + ttl)%Z)]> cache.

Notation registry_cache := (gmap string (option TenantRouting * Z)).

Definition RegistryCache_Get (registry : uuid -> result error (option TenantRouting)) (now : Z) (tenantID : uuid)
    (cache : registry_cache) : result error (option TenantRouting) * registry_cache :=
  let key := uuid_String tenantID in
  match ttl_get now cache key with
  | Some routing => (Ok routing, cache)
  | None =>
    match registry tenantID with
    | Ok routing => (Ok routing, ttl_set now registryCacheTTL cache key routing)
    | Err e => (Err ("tenant registry lookup failed for " +:+ uuid_String tenantID +:+ ": " +:+ e), cache)
    | Panic => (Panic, cache)
    end
  end.

(** ** Pools (router.go) *)

Definition dedicatedPoolIdleTTL : Z := 10 * 60 * 1000000000.

(** What the connections of a pool reach: the shared database as it is configured, the
    shared database with a statement run on every new connection, another database. *)
Inductive pool_target : Type :=
| SharedDatabase
| SharedWithSetup (statement : string)
| DatabaseAt (dsn : string).

Record Pool : Type := mkPool { pl_number : nat; pl_target : pool_target }.

(** The two caches, and every pool that was opened; nothing closes one. *)
Record Pools : Type := mkPools {
  ps_dedicated : gmap string (Pool * Z);
  ps_schema : gmap string (Pool * Z);
  ps_opened : list Pool
}.

Definition sharedPool : Pool := mkPool 0 SharedDatabase.

Definition open_pool (target : pool_target) (ps : Pools) : Pool * Pools :=
  let pool := mkPool (S (length (ps_opened ps))) target in
  (pool, mkPools (ps_dedicated ps) (ps_schema ps) (ps_opened ps ++ [pool])).

(** [secrets] resolves a reference to a connection string; [open_fault] is the error of
    opening a pool. *)
Definition dedicatedPool (secrets : string -> result error string) (open_fault : option error) (now : Z)
    (dsnSecretRef : string) (ps : Pools) : result RouterFailure Pool * Pools :=
  let wrap e := Err (OtherFailure ("failed to open dedicated pool for " +:+ dsnSecretRef +:+ ": " +:+ e)) in
  match ttl_get now (ps_dedicated ps) dsnSecretRef with
  | Some pool => (Ok pool, ps)
  | None =>
    match secrets dsnSecretRef, open_fault with
    | Ok dsn, None =>
      let '(pool, ps) := open_pool (DatabaseAt dsn) ps in
      (Ok pool, mkPools (ttl_set now dedicatedPoolIdleTTL (ps_dedicated ps) dsnSecretRef pool) (ps_schema ps) (ps_opened ps))
    | Ok _, Some e => (wrap e, ps)
    | Err e, _ => (wrap e, ps)
    | Panic, _ => (Panic, ps)
    end
  end.

(** The quotes of %q; the names it is used on have no byte to escape. *)
Definition quoted_name (s : string) : string := quote +:+ s +:+ quote.

Definition schema_setup (schemaName : string) : string := "SET search_path TO " +:+ quoted_name schemaName +:+ ", metadata, control".

Definition schemaPool (open_fault : option error) (now : Z) (schemaName : string) (ps : Pools) : result RouterFailure Pool * Pools :=
  if String.eqb schemaName "public" then (Ok sharedPool, ps)
  else
    match ValidateSchemaName schemaName with
    | Some e => (Err e, ps)
    | None =>
      match ttl_get now (ps_schema ps) schemaName with
      | Some pool => (Ok pool, ps)
      | None =>
        match open_fault with
        | Some e => (Err (OtherFailure ("failed to open schema pool for " +:+ schemaName +:+ ": " +:+ e)), ps)
        | None =>
          let '(pool, ps) := open_pool (SharedWithSetup (schema_setup schemaName)) ps in
          (Ok pool, mkPools (ps_dedicated ps) (ttl_set now dedicatedPoolIdleTTL (ps_schema ps) schemaName pool) (ps_opened ps))
        end
      end
    end.

Definition PoolFor (r : Router) (secrets : string -> result error string) (open_fault : option error) (now : Z) (tenantID : uuid)
    (ps : Pools) : result RouterFailure Pool * Pools :=
  match resolve r tenantID with
  | Ok (SchemaStrategy schemaName) => schemaPool open_fault now schemaName ps
  | Ok (DedicatedDbStrategy ref) => dedicatedPool secrets open_fault now ref ps
  | Err e => (Err e, ps)
  | Panic => (Panic, ps)
  end.
End Registry.

(** ** The schema of a tenant (tenantschema.go) *)

Definition tenantScopedTables : list (string * string) :=
  [("metadata", "dashboard_configs"); ("metadata", "policies"); ("metadata", "reconciler_backfill_progress");
   ("metadata", "reconciler_entity_deployments"); ("metadata", "reconciler_entity_status"); ("metadata", "tenant_auth_configs");
   ("metadata", "tenant_configs"); ("metadata", "user_preferences"); ("metadata", "workflow_events"); ("metadata", "attachments");
   ("metadata", "cron_jobs"); ("metadata", "cron_job_runs"); ("metadata", "workflow_runs")].

Record foreign_key : Type := mkForeignKey { fk_table : string; fk_column : string; fk_ref_table : string; fk_ref_column : string }.

Definition tenantScopedForeignKeys : list foreign_key :=
  [mkForeignKey "cron_job_runs" "job_id" "cron_jobs" "id";
   mkForeignKey "workflow_runs" "cron_job_run_id" "cron_job_runs" "id";
   mkForeignKey "workflow_runs" "job_id" "cron_jobs" "id"].

Definition fk_name (fk : foreign_key) : string := fk_table fk +:+ "_" +:+ fk_column fk +:+ "_fkey".

(** The tables of a schema, and the foreign keys by their table and their name. *)
Record schema_state : Type := mkSchemaState { sc_tables : gset string; sc_constraints : gset (string * string) }.

Notation catalogue := (gmap string schema_state).

Inductive ddl : Type :=
| CreateSchema
| CloneTable (source_schema table : string)
| AddForeignKey (fk : foreign_key).

Definition ddl_text (schemaName : string) (d : ddl) : string :=
  match d with
  | CreateSchema => "CREATE SCHEMA IF NOT EXISTS " +:+ quoted_name schemaName
  | CloneTable source table =>
    "CREATE TABLE IF NOT EXISTS " +:+ quoted_name schemaName +:+ "." +:+ quoted_name table +:+ " (LIKE " +:+ quoted_name source
    +:+ "." +:+ quoted_name table +:+ " INCLUDING DEFAULTS INCLUDING CONSTRAINTS INCLUDING INDEXES)"
  | AddForeignKey fk =>
    "ALTER TABLE " +:+ quoted_name schemaName +:+ "." +:+ quoted_name (fk_table fk) +:+ " ADD CONSTRAINT " +:+ quoted_name (fk_name fk)
    +:+ " FOREIGN KEY (" +:+ quoted_name (fk_column fk) +:+ ") REFERENCES " +:+ quoted_name schemaName +:+ "."
    +:+ quoted_name (fk_ref_table fk) +:+ "(" +:+ quoted_name (fk_ref_column fk) +:+ ") ON DELETE CASCADE"
  end.

(** An error of Postgres with its code. *)
Record pg_error : Type := mkPgError { pe_Code : string; pe_Message : error }.

Definition has_table (cat : catalogue) (schema table : string) : bool :=
  match cat !! schema with Some s => bool_decide (table ∈ sc_tables s) | None => false end.

(** What Postgres does with a statement. *)
Definition exec_ddl (schemaName : string) (d : ddl) (cat : catalogue) : result pg_error catalogue :=
  match d with
  | CreateSchema => Ok (match cat !! schemaName with Some _ => cat | None => <[schemaName := mkSchemaState ∅ ∅]> cat end)
  | CloneTable source table =>
    match cat !! schemaName with
    | None => Err (mkPgError "3F000" "schema does not exist")
    | Some s =>
      if bool_decide (table ∈ sc_tables s) then Ok cat
      else if has_table cat source table then Ok (<[schemaName := mkSchemaState ({[table]} ∪ sc_tables s) (sc_constraints s)]> cat)
      else Err (mkPgError "42P01" "relation does not exist")
    end
  | AddForeignKey fk =>
    match cat !! schemaName with
    | None => Err (mkPgError "3F000" "schema does not exist")
    | Some s =>
      if bool_decide (fk_table fk ∈ sc_tables s) && bool_decide (fk_ref_table fk ∈ sc_tables s) then
        if bool_decide ((fk_table fk, fk_name fk) ∈ sc_constraints s)
        then Err (mkPgError "42710" "constraint already exists")
        else Ok (<[schemaName := mkSchemaState (sc_tables s) ({[(fk_table fk, fk_name fk)]} ∪ sc_constraints s)]> cat)
      else Err (mkPgError "42P01" "relation does not exist")
    end
  end.

(** One pool.Exec: [fault] is the error of a statement that never reaches the
    database. A foreign key that exists already is passed over. *)
Definition run_ddl (fault : ddl -> option error) (schemaName : string) (d : ddl) (cat : catalogue) : result error catalogue :=
  match fault d with
  | Some e => Err e
  | None =>
    match exec_ddl schemaName d cat with
    | Ok cat' => Ok cat'
    | Err e =>
      match d with
      | AddForeignKey _ => if String.eqb (pe_Code e) "42710" then Ok cat else Err (pe_Message e)
      | _ => Err (pe_Message e)
      end
    | Panic => Panic
    end
  end.

(** The statements are not in a transaction: one that fails leaves the others. *)
Fixpoint run_ddls (fault : ddl -> option error) (schemaName : string) (ds : list ddl) (cat : catalogue) : option error * catalogue :=
  match ds with
  | [] => (None, cat)
  | d :: rest =>
    match run_ddl fault schemaName d cat with
    | Ok cat' => run_ddls fault schemaName rest cat'
    | Err e => (Some e, cat)
    | Panic => (Some "panic", cat)
    end
  end.

Definition schema_ddls : list ddl :=
  CreateSchema :: map (fun t => CloneTable t.1 t.2) tenantScopedTables ++ map AddForeignKey tenantScopedForeignKeys.

Definition failure_error (f : RouterFailure) : error :=
  match f with RouterError k name => RouterError_Error k name | OtherFailure e => e end.

Definition CreateTenantSchema (fault : ddl -> option error) (schemaName : string) (cat : catalogue) : option error * catalogue :=
  match ValidateSchemaName schemaName with
  | Some e => (Some (failure_error e), cat)
  | None => run_ddls fault schemaName schema_ddls cat
  end.

(** ** Provisioning (provisioning.go) *)

(** The bytes of an identifier; a uuid is an array of sixteen. *)
Class UuidBytes `{UuidLib} : Type := { uuid_bytes : uuid -> list N }.
Class UuidBytesLaws `{UuidLib} `{!UuidBytes} : Prop := {
  bytes_length u : length (uuid_bytes u) = 16%nat;
  bytes_range u : Forall (fun b => (b < 256)%N) (uuid_bytes u);
  bytes_inj u v : uuid_bytes u = uuid_bytes v -> u = v
}.

Definition hex_byte (b : N) : string := String (hex_digit (N.shiftr b 4)) (str1 (hex_digit (N.land b 15))).

Fixpoint hex_bytes (bs : list N) : string :=
  match bs with [] => "" | b :: rest => hex_byte b +:+ hex_bytes rest end.

Section Provisioning.
Context {UL : UuidLib} `{!UuidBytes} `{!Argon}.
Variable column_fault : UserRow -> option error.
Variable fresh : list UserRow -> uuid.

Definition tenantSimpleHex (id : uuid) : string := hex_bytes (uuid_bytes id).

(** A database: its catalogue, and the rows of three of its tables by the schema the
    table is in. *)
Record database : Type := mkDatabase {
  db_catalogue : catalogue;
  db_users : gmap string (list UserRow);
  db_roles : gmap string (list (uuid * uuid * string));
  db_auth : gmap string (list (uuid * string))
}.

(** The platform: the registry, the shared database, the search path each connection of
    the shared pool was left with ([None] for the configured one), and the databases of
    their own by their address. *)
Record platform : Type := mkPlatform {
  pf_tenants : list tenant_row;
  pf_shared : database;
  pf_connections : list (option (list string));
  pf_dedicated : gmap string database
}.

(** A table named without its schema. *)
Definition resolve_table (cat : catalogue) (path : list string) (table : string) : option string :=
  List.find (fun schema => has_table cat schema table) path.

Definition missing_relation : error := "relation does not exist".

(** ON CONFLICT (tenant_id, provider_kind) DO NOTHING. *)
Definition seedLocalAuthConfig (path : list string) (tenantID : uuid) (db : database) : result error database :=
  match resolve_table (db_catalogue db) path "tenant_auth_configs" with
  | None => Err missing_relation
  | Some schema =>
    let rows := default [] (db_auth db !! schema) in
    let rows' := if bool_decide ((tenantID, "local") ∈ rows) then rows else rows ++ [(tenantID, "local")] in
    Ok (mkDatabase (db_catalogue db) (db_users db) (db_roles db) (<[schema := rows']> (db_auth db)))
  end.

Definition pg_text (e : PgError) : error := match e with PgUnique => "duplicate key value violates unique constraint" | OtherPgError e => e end.

Definition create_user (salt : string) (path : list string) (tenantID : uuid) (email password : string) (db : database)
  : result error (AuthUser * database) :=
  match resolve_table (db_catalogue db) path "users" with
  | None => Err missing_relation
  | Some schema =>
    match CreateUser column_fault fresh salt (default [] (db_users db !! schema)) tenantID email password with
    | Ok (user, rows) => Ok (user, mkDatabase (db_catalogue db) (<[schema := rows]> (db_users db)) (db_roles db) (db_auth db))
    | Err e => Err (pg_text e)
    | Panic => Panic
    end
  end.

Definition assign_admin (path : list string) (tenantID userID : uuid) (db : database) : result error database :=
  match resolve_table (db_catalogue db) path "user_roles" with
  | None => Err missing_relation
  | Some schema =>
    Ok (mkDatabase (db_catalogue db) (db_users db)
      (<[schema := AssignRole (default [] (db_roles db !! schema)) tenantID userID "admin"]> (db_roles db)) (db_auth db))
  end.

(** The calls of one provisioning that do not reach the database. *)
Record provision_faults : Type := mkProvisionFaults {
  vf_ddl : ddl -> option error;
  vf_acquire : option error;
  vf_set : option error;
  vf_seed : option error;
  vf_user : option error;
  vf_role : option error;
  vf_provision : option error
}.

Definition guarded {A} (fault : option error) (r : result error A) : result error A :=
  match fault with Some e => Err e | None => r end.

Record ProvisionedTenant : Type := mkProvisioned { pt_TenantID : uuid; pt_AdminUserID : uuid }.

(** The three statements on the tenant's connection; each takes effect by itself. *)
Definition seed_tenant (f : provision_faults) (salt : string) (path : list string) (tenantID : uuid) (email password : string)
    (db : database) : result error uuid * database :=
  match guarded (vf_seed f) (seedLocalAuthConfig path tenantID db) with
  | Ok db =>
    match guarded (vf_user f) (create_user salt path tenantID email password db) with
    | Ok (user, db) =>
      match guarded (vf_role f) (assign_admin path tenantID (au_ID user) db) with
      | Ok db => (Ok (au_ID user), db)
      | Err e => (Err e, db)
      | Panic => (Panic, db)
      end
    | Err e => (Err e, db)
    | Panic => (Panic, db)
    end
  | Err e => (Err e, db)
  | Panic => (Panic, db)
  end.

Definition with_shared (p : platform) (db : database) : platform :=
  mkPlatform (pf_tenants p) db (pf_connections p) (pf_dedicated p).

Definition with_catalogue (db : database) (cat : catalogue) : database := mkDatabase cat (db_users db) (db_roles db) (db_auth db).

Definition provisioned (f : provision_faults) (now : Z) (p : platform) (tenantID userID : uuid) (tier strategy : string)
    (schemaName ref : option string) : result error ProvisionedTenant * platform :=
  match guarded (vf_provision f) (Provision now (pf_tenants p) tenantID tier strategy schemaName ref "active") with
  | Ok rows => (Ok (mkProvisioned tenantID userID), mkPlatform rows (pf_shared p) (pf_connections p) (pf_dedicated p))
  | Err e => (Err e, p)
  | Panic => (Panic, p)
  end.

(** [conn] is the connection the pool hands out. *)
Definition ProvisionSchemaTenant (f : provision_faults) (now : Z) (salt : string) (conn : nat) (tenantID : uuid)
    (adminEmail adminPassword : string) (p : platform) : result error ProvisionedTenant * platform :=
  let schemaName := "t_" +:+ tenantSimpleHex tenantID in
  let '(err, cat) := CreateTenantSchema (vf_ddl f) schemaName (db_catalogue (pf_shared p)) in
  let p := with_shared p (with_catalogue (pf_shared p) cat) in
  match err with
  | Some e => (Err e, p)
  | None =>
    match vf_acquire f with
    | Some e => (Err e, p)
    | None =>
      match vf_set f with
      | Some e => (Err e, p)
      | None =>
        let path := [schemaName; "metadata"; "control"] in
        let p := mkPlatform (pf_tenants p) (pf_shared p) (<[conn := Some path]> (pf_connections p)) (pf_dedicated p) in
        let '(seeded, db) := seed_tenant f salt path tenantID adminEmail adminPassword (pf_shared p) in
        let p := with_shared p db in
        match seeded with
        | Ok userID => provisioned f now p tenantID userID "trial" "schema" (Some schemaName) None
        | Err e => (Err e, p)
        | Panic => (Panic, p)
        end
      end
    end
  end.

(** [migrated] is the database the migrations leave at the address, or the error of
    connecting or migrating; the schema control is dropped from it. *)
Definition ProvisionDedicatedDbTenant (f : provision_faults) (now : Z) (salt : string) (tenantID : uuid)
    (dsnSecretRef dedicatedDatabaseURL adminEmail adminPassword : string) (migrated : result error database) (p : platform)
  : result error ProvisionedTenant * platform :=
  match migrated with
  | Err e => (Err e, p)
  | Panic => (Panic, p)
  | Ok db =>
    let keep db p := mkPlatform (pf_tenants p) (pf_shared p) (pf_connections p) (<[dedicatedDatabaseURL := db]> (pf_dedicated p)) in
    match vf_set f with
    | Some e => (Err e, keep db p)
    | None =>
      let db := with_catalogue db (delete "control" (db_catalogue db)) in
      match guarded (vf_provision f) (Provision now (pf_tenants p) tenantID "paid" "dedicated_db" None (Some dsnSecretRef) "active") with
      | Err e => (Err e, keep db p)
      | Panic => (Panic, keep db p)
      | Ok rows =>
        let p := mkPlatform rows (pf_shared p) (pf_connections p) (pf_dedicated p) in
        let '(seeded, db) := seed_tenant f salt ["public"; "metadata"; "control"] tenantID adminEmail adminPassword db in
        match seeded with
        | Ok userID => (Ok (mkProvisioned tenantID userID), keep db p)
        | Err e => (Err e, keep db p)
        | Panic => (Panic, keep db p)
        end
      end
    end
  end.
End Provisioning.
