(* ===== verification/TenantsProps.v ===== *)
(** What the control plane guarantees: the schema of a tenant is complete before the
    tenant is visible, its name is safe and its own, a change of status reaches every
    request after the cache's time, transactions and pools reach the same data; and
    what a provisioning that fails or is repeated leaves behind. *)
From S2P Require Import Prelude GoStrings GoText Json Condition Context Uuid Evaluate Snapshot PermissionService Users PolicyStore Metadata Schema Router Payload Workflow AuditTrail Sql ConditionSql Jql Planner Records Crud Authn Tenants.

Open Scope string_scope.
Open Scope list_scope.

(** ** Names of schemas *)

Definition nibbles : list N := [0; 1; 2; 3; 4; 5; 6; 7; 8; 9; 10; 11; 12; 13; 14; 15]%N.

Lemma nibble_in n : (n < 16)%N -> n ∈ nibbles.
Proof.
  intros H. unfold nibbles. assert (n = 0 \/ n = 1 \/ n = 2 \/ n = 3 \/ n = 4 \/ n = 5 \/ n = 6 \/ n = 7 \/ n = 8 \/ n = 9
    \/ n = 10 \/ n = 11 \/ n = 12 \/ n = 13 \/ n = 14 \/ n = 15)%N as Hn by lia. set_solver.
Qed.

Lemma hex_digit_name n : (n < 16)%N -> schema_byte (hex_digit n) = true.
Proof.
  intros H%nibble_in. assert (Hall : forallb (fun n => schema_byte (hex_digit n)) nibbles = true) by reflexivity.
  rewrite forallb_forall in Hall. by apply Hall, list_elem_of_In.
Qed.

Lemma hex_digit_inj n m : (n < 16)%N -> (m < 16)%N -> hex_digit n = hex_digit m -> n = m.
Proof.
  intros Hn%nibble_in Hm%nibble_in.
  assert (Hall : forallb (fun n => forallb (fun m => negb (Ascii.eqb (hex_digit n) (hex_digit m)) || (n =? m)%N) nibbles) nibbles = true)
    by reflexivity.
  rewrite forallb_forall in Hall. specialize (Hall n ltac:(by apply list_elem_of_In)). rewrite forallb_forall in Hall.
  specialize (Hall m ltac:(by apply list_elem_of_In)). intros He. rewrite He, Ascii.eqb_refl in Hall. simpl in Hall.
  by apply N.eqb_eq in Hall.
Qed.

Lemma byte_nibbles b : (b < 256)%N -> (N.shiftr b 4 < 16)%N /\ (N.land b 15 < 16)%N /\ b = (16 * N.shiftr b 4 + N.land b 15)%N.
Proof.
  intros Hb. rewrite N.shiftr_div_pow2. change 15%N with (N.ones 4). rewrite N.land_ones. change (2 ^ 4)%N with 16%N.
  split_and!; [apply N.Div0.div_lt_upper_bound; lia | apply N.mod_lt; lia | apply N.div_mod'].
Qed.

Lemma hex_bytes_inj bs cs :
  Forall (fun b => (b < 256)%N) bs -> Forall (fun b => (b < 256)%N) cs -> hex_bytes bs = hex_bytes cs -> bs = cs.
Proof.
  intros Hbs. revert cs. induction Hbs as [|b bs Hb _ IH]; intros cs Hcs; destruct Hcs as [|c cs Hc Hcs]; simpl; try done.
  intros [= H1 H2 Hrest]. destruct (byte_nibbles b Hb) as (Hb1 & Hb2 & Eb), (byte_nibbles c Hc) as (Hc1 & Hc2 & Ec).
  apply hex_digit_inj in H1, H2; [|done..]. f_equal; [congruence | by apply IH].
Qed.

Lemma hex_bytes_name bs : Forall (fun b => (b < 256)%N) bs -> all_bytes schema_byte (hex_bytes bs) = true.
Proof.
  induction 1 as [|b bs Hb _ IH]; [done|]. destruct (byte_nibbles b Hb) as (Hb1 & Hb2 & _).
  change (schema_byte (hex_digit (N.shiftr b 4)) && (schema_byte (hex_digit (N.land b 15)) && all_bytes schema_byte (hex_bytes bs)) = true).
  by rewrite !hex_digit_name, IH.
Qed.

Section Names.
Context {UL : UuidLib} `{!UuidBytes} `{!UuidBytesLaws}.

Definition schema_of (id : uuid) : string := "t_" +:+ tenantSimpleHex id.

Lemma schema_of_inj id id' : schema_of id = schema_of id' -> id = id'.
Proof.
  unfold schema_of, tenantSimpleHex. intros He%(inj _). apply bytes_inj, hex_bytes_inj; [apply bytes_range.. | done].
Qed.

Lemma schema_of_valid id : ValidateSchemaName (schema_of id) = None.
Proof.
  apply ValidateSchemaName_spec. right. exists (tenantSimpleHex id). split; [done|]. unfold tenantSimpleHex.
  pose proof (bytes_length id) as Hl. pose proof (bytes_range id) as Hr. split; [|by apply hex_bytes_name].
  by destruct (uuid_bytes id).
Qed.

Lemma schema_of_metadata id : schema_of id <> "metadata".
Proof. unfold schema_of. by intros Hn%(f_equal (fun s => String.get 0 s)). Qed.
End Names.

(** ** The statements that create a schema *)

Section CreateSchema.
Variable name : string.

Definition done_ddl (cat : catalogue) (d : ddl) : Prop :=
  exists s, cat !! name = Some s /\
  match d with
  | CreateSchema => True
  | CloneTable _ table => table ∈ sc_tables s
  | AddForeignKey fk => (fk_table fk, fk_name fk) ∈ sc_constraints s
  end.

(** The schema only grows, and the others stay. *)
Definition grown (cat cat' : catalogue) : Prop :=
  (forall n, n <> name -> cat' !! n = cat !! n) /\
  (forall s, cat !! name = Some s -> exists s', cat' !! name = Some s' /\ sc_tables s ⊆ sc_tables s' /\ sc_constraints s ⊆ sc_constraints s').

Lemma grown_refl cat : grown cat cat.
Proof. split; [done|]. intros s Hs. by exists s. Qed.

Lemma grown_trans c1 c2 c3 : grown c1 c2 -> grown c2 c3 -> grown c1 c3.
Proof.
  intros [Ho1 Hg1] [Ho2 Hg2]. split; [intros n Hn; by rewrite Ho2, Ho1|]. intros s (s' & Hs' & Ht & Hc)%Hg1.
  destruct (Hg2 s' Hs') as (s'' & Hs'' & Ht' & Hc'). exists s''. split_and!; [done | set_solver | set_solver].
Qed.

Lemma grown_insert cat s s' :
  cat !! name = Some s -> sc_tables s ⊆ sc_tables s' -> sc_constraints s ⊆ sc_constraints s' -> grown cat (<[name := s']> cat).
Proof.
  intros Hs Ht Hc. split; [intros n Hn; by rewrite lookup_insert_ne|]. intros s0 Hs0. rewrite Hs in Hs0. injection Hs0 as <-.
  exists s'. by rewrite lookup_insert_eq.
Qed.

Lemma done_grown cat cat' d : grown cat cat' -> done_ddl cat d -> done_ddl cat' d.
Proof.
  intros [_ Hg] (s & Hs & Hd). destruct (Hg s Hs) as (s' & Hs' & Ht & Hc). exists s'. split; [done|]. destruct d; set_solver.
Qed.

Lemma run_ddl_ok fault d cat cat' : run_ddl fault name d cat = Ok cat' -> grown cat cat' /\ done_ddl cat' d.
Proof.
  unfold run_ddl, exec_ddl. destruct (fault d); [done|].
  destruct d as [|source table|fk]; (destruct (cat !! name) as [s|] eqn:Es; [|try done]).
  - intros [= <-]. split; [apply grown_refl | by exists s].
  - intros [= <-]. split; [|eexists; by rewrite lookup_insert_eq].
    split; [intros n Hn; by rewrite lookup_insert_ne | intros s Hs; congruence].
  - case_bool_decide as Ht; [intros [= <-]; split; [apply grown_refl | by exists s]|].
    destruct (has_table cat source table); [|done]. intros [= <-]. split; [apply (grown_insert _ s); simpl; set_solver|].
    eexists. rewrite lookup_insert_eq. split; [done | simpl; set_solver].
  - destruct (bool_decide _ && bool_decide _); [|done]. case_bool_decide as Hc; simpl.
    + intros [= <-]. split; [apply grown_refl | by exists s].
    + intros [= <-]. split; [apply (grown_insert _ s); simpl; set_solver|]. eexists. rewrite lookup_insert_eq. split; [done | simpl; set_solver].
Qed.

Lemma run_ddls_grown fault ds cat e cat' :
  run_ddls fault name ds cat = (e, cat') -> grown cat cat' /\ (e = None -> Forall (done_ddl cat') ds).
Proof.
  revert cat. induction ds as [|d ds IH]; intros cat; simpl.
  - intros [= <- <-]. split; [apply grown_refl | by constructor].
  - destruct (run_ddl fault name d cat) as [c1| |] eqn:Ed; try (intros [= <- <-]; split; [apply grown_refl | done]).
    intros Hrun. destruct (run_ddl_ok _ _ _ _ Ed) as [Hg Hd]. destruct (IH _ Hrun) as [Hg' Hall].
    split; [by eapply grown_trans|]. intros ->. constructor; [by eapply done_grown | by apply Hall].
Qed.

(** When a statement cannot fail. *)
Definition ready_ddl (cat : catalogue) (d : ddl) : Prop :=
  match d with
  | CreateSchema => True
  | CloneTable source table => source <> name /\ is_Some (cat !! name) /\ has_table cat source table = true
  | AddForeignKey fk => exists s, cat !! name = Some s /\ fk_table fk ∈ sc_tables s /\ fk_ref_table fk ∈ sc_tables s
  end.

Lemma ready_grown cat cat' d : grown cat cat' -> ready_ddl cat d -> ready_ddl cat' d.
Proof.
  intros [Ho Hg]. destruct d as [|source table|fk]; simpl; [done| |].
  - intros (Hne & [s Hs] & Hh). destruct (Hg s Hs) as (s' & Hs' & _). unfold has_table in *. rewrite (Ho source) by done. split_and!; [done | by exists s' | done].
  - intros (s & Hs & Ht & Hr). destruct (Hg s Hs) as (s' & Hs' & Hts & _). exists s'. set_solver.
Qed.

Lemma ready_runs cat d : ready_ddl cat d -> exists cat', run_ddl (fun _ => None) name d cat = Ok cat'.
Proof.
  unfold run_ddl, exec_ddl. destruct d as [|source table|fk]; simpl; [eauto| |].
  - intros (_ & [s ->] & ->). case_bool_decide; eauto.
  - intros (s & -> & Ht & Hr). rewrite !bool_decide_eq_true_2 by done. simpl. case_bool_decide; simpl; eauto.
Qed.

Lemma ready_all_run ds cat : Forall (ready_ddl cat) ds -> exists cat', run_ddls (fun _ => None) name ds cat = (None, cat').
Proof.
  revert cat. induction ds as [|d ds IH]; intros cat; simpl; [eauto|]. intros [Hd Hds]%Forall_cons.
  destruct (ready_runs cat d Hd) as [c1 E]. rewrite E. apply IH. eapply Forall_impl; [exact Hds|]. intros x.
  apply ready_grown. by apply run_ddl_ok in E as [Hg _].
Qed.

Lemma run_ddls_app fault ds es cat c1 :
  run_ddls fault name ds cat = (None, c1) -> run_ddls fault name (ds ++ es) cat = run_ddls fault name es c1.
Proof.
  revert cat. induction ds as [|d ds IH]; intros cat; simpl; [by intros [= ->]|].
  destruct (run_ddl fault name d cat); [apply IH | done | done].
Qed.

(** Every table of a tenant and every foreign key. *)
Definition complete_schema (cat : catalogue) : Prop :=
  exists s, cat !! name = Some s /\ (forall t, t ∈ tenantScopedTables -> t.2 ∈ sc_tables s) /\
    (forall fk, fk ∈ tenantScopedForeignKeys -> (fk_table fk, fk_name fk) ∈ sc_constraints s).

Lemma complete_grown cat cat' : grown cat cat' -> complete_schema cat -> complete_schema cat'.
Proof.
  intros [_ Hg] (s & Hs & Ht & Hf). destruct (Hg s Hs) as (s' & Hs' & Hts & Hcs). exists s'. split; [done|]. split; intros x Hx.
  - by apply Hts, Ht.
  - by apply Hcs, Hf.
Qed.

Lemma done_complete cat : Forall (done_ddl cat) schema_ddls -> complete_schema cat.
Proof.
  intros H. unfold schema_ddls in H. apply Forall_cons in H as [(s & Hs & _) H]. apply Forall_app in H as [Ht Hf].
  rewrite Forall_fmap in Ht. rewrite Forall_fmap in Hf. rewrite Forall_forall in Ht. rewrite Forall_forall in Hf. exists s. split; [done|]. split.
  - intros t Hin. destruct (Ht t Hin) as (s' & Hs' & Hd). congruence.
  - intros fk Hin. destruct (Hf fk Hin) as (s' & Hs' & Hd). congruence.
Qed.
End CreateSchema.

Lemma run_ddl_tables name fault d cat cat' table :
  run_ddl fault name d cat = Ok cat' -> has_table cat' name table = true ->
  has_table cat name table = true \/ exists source, d = CloneTable source table.
Proof.
  unfold run_ddl, exec_ddl, has_table. destruct (fault d); [done|].
  destruct d as [|source t|fk]; (destruct (cat !! name) as [s|] eqn:Es; [|try done]).
  - intros [= <-]. rewrite Es. auto.
  - intros [= <-]. rewrite lookup_insert_eq. simpl. intros Ht%bool_decide_eq_true. set_solver.
  - case_bool_decide; [intros [= <-]; rewrite Es; auto|]. destruct (match cat !! source with Some _ => _ | None => _ end); [|done].
    intros [= <-]. rewrite lookup_insert_eq. simpl. intros [->%elem_of_singleton|Ht]%bool_decide_eq_true%elem_of_union;
      [right; eauto | left; by apply bool_decide_eq_true].
  - destruct (bool_decide _ && bool_decide _); [|done]. case_bool_decide; simpl; intros [= <-]; [rewrite Es; auto|].
    rewrite lookup_insert_eq. auto.
Qed.

Lemma run_ddls_tables name fault ds cat e cat' table :
  run_ddls fault name ds cat = (e, cat') -> has_table cat' name table = true ->
  has_table cat name table = true \/ exists source, CloneTable source table ∈ ds.
Proof.
  revert cat. induction ds as [|d ds IH]; intros cat; simpl; [intros [= <- <-]; auto|].
  destruct (run_ddl fault name d cat) as [c1| |] eqn:Ed; try (intros [= <- <-]; auto).
  intros Hrun Ht. destruct (IH _ Hrun Ht) as [H1|[source H1]]; [|right; exists source; set_solver].
  destruct (run_ddl_tables _ _ _ _ _ _ Ed H1) as [?|[source ->]]; [by left | right; exists source; set_solver].
Qed.

Section Provisioned.
Context {UL : UuidLib} `{!UuidBytes} `{!UuidBytesLaws} `{!Argon} `{!ArgonLaws}.
Variable column_fault : UserRow -> option error.
Variable fresh : list UserRow -> uuid.

(** Whatever failed before, the statements complete a schema whose originals exist. *)
Lemma CreateTenantSchema_completes id cat :
  (forall t, t ∈ tenantScopedTables -> has_table cat t.1 t.2 = true) ->
  exists cat', CreateTenantSchema (fun _ => None) (schema_of id) cat = (None, cat').
Proof.
  intros Hsrc. unfold CreateTenantSchema. rewrite schema_of_valid. set (name := schema_of id).
  destruct (ready_all_run name [CreateSchema] cat ltac:(by repeat constructor)) as [c1 E1].
  destruct (run_ddls_grown _ _ _ _ _ _ E1) as [G1 D1]. specialize (D1 eq_refl). apply Forall_cons in D1 as [(s1 & Hs1 & _) _].
  destruct (ready_all_run name (map (fun t => CloneTable t.1 t.2) tenantScopedTables) c1) as [c2 E2].
  { apply Forall_fmap, Forall_forall. intros t Ht. simpl.
    assert (Hm : t.1 = "metadata") by (repeat (apply elem_of_cons in Ht as [->|Ht]; [done|]); by apply elem_of_nil in Ht).
    split; [rewrite Hm; intros He; by apply (schema_of_metadata id)|]. split; [by exists s1|]. destruct G1 as [Ho _].
    unfold has_table. rewrite Ho; [by apply Hsrc|]. rewrite Hm. intros He. by apply (schema_of_metadata id). }
  destruct (run_ddls_grown _ _ _ _ _ _ E2) as [G2 D2]. specialize (D2 eq_refl). rewrite Forall_fmap, Forall_forall in D2.
  destruct G2 as [_ G2]. destruct (G2 s1 Hs1) as (s2 & Hs2 & _).
  assert (Htab : forall t, t ∈ map snd tenantScopedTables -> t ∈ sc_tables s2).
  { intros t (p & -> & Hp)%list_elem_of_fmap. destruct (D2 p Hp) as (s & Hs & Hin). simpl in Hin. congruence. }
  destruct (ready_all_run name (map AddForeignKey tenantScopedForeignKeys) c2) as [c3 E3].
  { apply Forall_fmap, Forall_forall. intros fk Hfk. exists s2. split; [done|].
    repeat (apply elem_of_cons in Hfk as [->|Hfk]; [split; apply Htab; apply (bool_decide_eq_true _); reflexivity|]). by apply elem_of_nil in Hfk. }
  exists c3. unfold schema_ddls. change (CreateSchema :: ?l) with ([CreateSchema] ++ l).
  by rewrite (run_ddls_app _ _ _ _ _ _ E1), (run_ddls_app _ _ _ _ _ _ E2).
Qed.

Lemma CreateTenantSchema_grown fault id cat e cat' :
  CreateTenantSchema fault (schema_of id) cat = (e, cat') ->
  grown (schema_of id) cat cat' /\ (e = None -> complete_schema (schema_of id) cat').
Proof.
  unfold CreateTenantSchema. rewrite schema_of_valid. intros [Hg Hd]%run_ddls_grown. split; [done|].
  intros He. by apply done_complete, Hd.
Qed.

Definition no_provision_faults : provision_faults := mkProvisionFaults (fun _ => None) None None None None None None.

(** What a platform needs for a tenant to be provisioned. *)
Record provisionable (p : platform) (id : uuid) (email : string) : Prop := {
  pv_sources : forall t, t ∈ tenantScopedTables -> has_table (db_catalogue (pf_shared p)) t.1 t.2 = true;
  pv_identity : forall t, t ∈ ["users"; "user_roles"] ->
    has_table (db_catalogue (pf_shared p)) "metadata" t = true /\ has_table (db_catalogue (pf_shared p)) (schema_of id) t = false;
  pv_users : users_ok (default [] (db_users (pf_shared p) !! "metadata"));
  pv_email : email ∉ map row_email (default [] (db_users (pf_shared p) !! "metadata"));
  pv_tenant : existsb (is_tenant id) (pf_tenants p) = false
}.

(** Names along the path of a tenant's connection: what was cloned is the tenant's, the
    rest is everybody's. *)
Lemma tenant_path p id email cat' :
  provisionable p id email -> CreateTenantSchema (fun _ => None) (schema_of id) (db_catalogue (pf_shared p)) = (None, cat') ->
  resolve_table cat' [schema_of id; "metadata"; "control"] "tenant_auth_configs" = Some (schema_of id) /\
  (forall t, t ∈ ["users"; "user_roles"] -> resolve_table cat' [schema_of id; "metadata"; "control"] t = Some "metadata").
Proof.
  intros Hp Hc. pose proof (CreateTenantSchema_grown _ _ _ _ _ Hc) as [[Ho _] Hcomp].
  destruct (Hcomp eq_refl) as (s & Hs & Ht & _). split.
  - unfold resolve_table. cbn [List.find]. unfold has_table at 1. rewrite Hs. rewrite bool_decide_eq_true_2; [done|].
    apply (Ht ("metadata", "tenant_auth_configs")). set_solver.
  - intros t Hin. destruct (pv_identity _ _ _ Hp t Hin) as [Hm Hn]. unfold resolve_table. cbn [List.find].
    destruct (has_table cat' (schema_of id) t) eqn:E.
    + unfold CreateTenantSchema in Hc. rewrite schema_of_valid in Hc.
      destruct (run_ddls_tables _ _ _ _ _ _ _ Hc E) as [?|[source Hcl]]; [congruence|].
      exfalso. unfold schema_ddls in Hcl. set_solver.
    + unfold has_table at 1. rewrite Ho; [|intros He; by apply (schema_of_metadata id)]. unfold has_table in Hm. by rewrite Hm.
Qed.

(** What a provisioned tenant has. *)
Record tenant_complete (p : platform) (id uid : uuid) (email password : string) : Prop := {
  tc_routing : Registry_Get (pf_tenants p) id = Ok (Some (mkRouting StatusActive (SchemaStrategy (schema_of id))));
  tc_schema : complete_schema (schema_of id) (db_catalogue (pf_shared p));
  tc_login : exists u, VerifyCredentials (default [] (db_users (pf_shared p) !! "metadata")) email password = Ok (Some u)
    /\ au_ID u = uid /\ au_TenantID u = id;
  tc_admin : "admin" ∈ GetRolesForUser (default [] (db_roles (pf_shared p) !! "metadata")) id uid;
  tc_auth : (id, "local") ∈ default [] (db_auth (pf_shared p) !! schema_of id)
}.

Lemma find_new_tenant id r rows : existsb (is_tenant id) rows = false -> tn_id r = id -> List.find (is_tenant id) (rows ++ [r]) = Some r.
Proof.
  intros Hn Hr. induction rows as [|x rows IH]; simpl in *; [unfold is_tenant; by rewrite bool_decide_eq_true_2|].
  apply orb_false_iff in Hn as [Hx Hn]. rewrite Hx. by apply IH.
Qed.

Lemma free_email rows new : row_email new ∉ map row_email rows -> ur_external_subject new = None -> violates rows new = false.
Proof.
  intros He Hs. unfold violates. apply not_true_is_false. intros (r & Hr & Hv)%existsb_exists. rewrite Hs in Hv. simpl in Hv.
  rewrite orb_false_r in Hv. apply String.eqb_eq in Hv. apply He. rewrite <- Hv. apply list_elem_of_fmap_2. by apply list_elem_of_In.
Qed.

Lemma AssignRole_given rows (t u : uuid) role : role ∈ GetRolesForUser (AssignRole rows t u role) t u.
Proof. apply GetRolesForUser_elem. unfold AssignRole. case_bool_decide; [done | set_solver]. Qed.

Lemma seed_tenant_works p id email password salt cat' :
  provisionable p id email -> (forall r, column_fault r = None) ->
  CreateTenantSchema (fun _ => None) (schema_of id) (db_catalogue (pf_shared p)) = (None, cat') ->
  exists uid db, seed_tenant column_fault fresh no_provision_faults salt [schema_of id; "metadata"; "control"] id email password
      (with_catalogue (pf_shared p) cat') = (Ok uid, db) /\
    db_catalogue db = cat' /\
    (exists u, VerifyCredentials (default [] (db_users db !! "metadata")) email password = Ok (Some u) /\ au_ID u = uid /\ au_TenantID u = id) /\
    "admin" ∈ GetRolesForUser (default [] (db_roles db !! "metadata")) id uid /\
    (id, "local") ∈ default [] (db_auth db !! schema_of id).
Proof.
  intros Hp Hcf Hc. destruct (tenant_path _ _ _ _ Hp Hc) as [Ha Hu].
  unfold seed_tenant, seedLocalAuthConfig, create_user, assign_admin, guarded. cbn [vf_seed vf_user vf_role no_provision_faults].
  cbn [with_catalogue db_catalogue db_users db_roles db_auth]. rewrite Ha. cbn [db_catalogue db_users db_roles db_auth].
  rewrite (Hu "users") by (apply (bool_decide_eq_true _); reflexivity). cbn [db_catalogue db_users db_roles db_auth].
  set (rows := default [] (db_users (pf_shared p) !! "metadata")).
  destruct (CreateUser column_fault fresh salt rows id email password) as [[u rows']| |] eqn:Ec.
  - cbv beta iota. cbn [db_catalogue db_users db_roles db_auth].
    rewrite (Hu "user_roles") by (apply (bool_decide_eq_true _); reflexivity). cbn [db_catalogue db_users db_roles db_auth].
    destruct (created_user_logs_in column_fault fresh _ _ _ _ _ _ _ (pv_users _ _ _ Hp) Ec) as (Hl & Ht & _).
    eexists _, _. split; [reflexivity|]. cbn [db_catalogue db_users db_roles db_auth]. rewrite !lookup_insert_eq. cbn [default].
    split; [done|]. split; [by exists u|]. split; [apply AssignRole_given|].
    simpl. case_bool_decide; [done | set_solver].
  - unfold CreateUser, insert_user in Ec. rewrite Hcf, free_email in Ec; [done | apply (pv_email _ _ _ Hp) | done].
  - unfold CreateUser, insert_user in Ec. rewrite Hcf, free_email in Ec; [done | apply (pv_email _ _ _ Hp) | done].
Qed.


(** Every tenant the registry routes to a schema has its own, complete. *)
Definition visible_complete (p : platform) : Prop :=
  forall r, r ∈ pf_tenants p -> tn_strategy r = "schema" ->
    tn_schema_name r = Some (schema_of (tn_id r)) /\ complete_schema (schema_of (tn_id r)) (db_catalogue (pf_shared p)).

Lemma visible_grown p id p' :
  pf_tenants p' = pf_tenants p -> grown (schema_of id) (db_catalogue (pf_shared p)) (db_catalogue (pf_shared p')) ->
  visible_complete p -> visible_complete p'.
Proof.
  intros Ht Hg Hv r Hr Hs. rewrite Ht in Hr. destruct (Hv r Hr Hs) as [Hn Hc]. split; [done|].
  destruct (decide (tn_id r = id)) as [<-|Hne]; [exact (complete_grown _ _ _ Hg Hc)|].
  destruct Hc as (s & Hs' & Hrest). exists s. split; [|done]. destruct Hg as [Ho _]. rewrite Ho; [done|].
  intros He. by apply Hne, schema_of_inj.
Qed.

Lemma seed_tenant_catalogue f salt path id email password db r db' :
  seed_tenant column_fault fresh f salt path id email password db = (r, db') -> db_catalogue db' = db_catalogue db.
Proof.
  unfold seed_tenant, seedLocalAuthConfig, create_user, assign_admin, guarded.
  destruct (vf_seed f); [by intros [= _ <-]|]. destruct (resolve_table _ _ "tenant_auth_configs"); [|by intros [= _ <-]].
  cbn [db_catalogue db_users db_roles db_auth].
  destruct (vf_user f); [by intros [= _ <-]|]. destruct (resolve_table _ _ "users"); [|by intros [= _ <-]].
  destruct (CreateUser _ _ _ _ _ _ _) as [[u rows]| |]; try by intros [= _ <-].
  cbn [db_catalogue db_users db_roles db_auth].
  destruct (vf_role f); [by intros [= _ <-]|]. destruct (resolve_table _ _ "user_roles"); by intros [= _ <-].
Qed.

Lemma Provision_rows now rows id tier strategy sn ref st rows' :
  Provision now rows id tier strategy sn ref st = Ok rows' ->
  existsb (is_tenant id) rows = false /\ rows' = rows ++ [mkTenantRow id tier strategy sn ref st now None None].
Proof. unfold Provision. destruct (existsb _ rows); [done|]. by intros [= <-]. Qed.

Lemma ProvisionSchemaTenant_visible f now salt conn id email password p r p' :
  ProvisionSchemaTenant column_fault fresh f now salt conn id email password p = (r, p') ->
  visible_complete p -> visible_complete p'.
Proof.
  unfold ProvisionSchemaTenant. fold (schema_of id).
  destruct (CreateTenantSchema (vf_ddl f) (schema_of id) _) as [err cat'] eqn:Hc.
  destruct (CreateTenantSchema_grown _ _ _ _ _ Hc) as [Hg Hcomp]. intros Hrun Hv.
  assert (Hv1 : forall q, pf_tenants q = pf_tenants p -> db_catalogue (pf_shared q) = cat' -> visible_complete q).
  { intros q Ht Hcat. eapply (visible_grown p id); [done | by rewrite Hcat | done]. }
  destruct err; [injection Hrun as _ <-; by apply Hv1|].
  destruct (vf_acquire f); [injection Hrun as _ <-; by apply Hv1|].
  destruct (vf_set f); [injection Hrun as _ <-; by apply Hv1|].
  cbn [with_shared pf_shared pf_tenants pf_connections pf_dedicated] in Hrun.
  destruct (seed_tenant _ _ _ _ _ _ _ _ _) as [seeded db] eqn:Hs.
  apply seed_tenant_catalogue in Hs. cbn [db_catalogue with_catalogue] in Hs.
  destruct seeded as [uid| |]; try (injection Hrun as _ <-; by apply Hv1).
  unfold provisioned, guarded in Hrun. destruct (vf_provision f); [injection Hrun as _ <-; by apply Hv1|].
  cbn [with_shared pf_shared pf_tenants] in Hrun.
  destruct (Provision _ _ _ _ _ _ _ _) as [rows| |] eqn:Hp; try (injection Hrun as _ <-; by apply Hv1).
  injection Hrun as _ <-. apply Provision_rows in Hp as [_ ->]. intros x Hx Hxs. cbn [pf_tenants pf_shared] in *.
  apply elem_of_app in Hx as [Hx|Hx]; [|apply list_elem_of_singleton in Hx as ->].
  - apply (Hv1 (mkPlatform (pf_tenants p) db (pf_connections p) (pf_dedicated p))); done.
  - cbn [tn_id tn_schema_name]. split; [done|]. rewrite Hs. by apply Hcomp.
Qed.

Lemma ProvisionDedicated_visible f now salt id ref url email password migrated p r p' :
  ProvisionDedicatedDbTenant column_fault fresh f now salt id ref url email password migrated p = (r, p') ->
  visible_complete p -> visible_complete p'.
Proof.
  unfold ProvisionDedicatedDbTenant. intros Hrun Hv.
  destruct migrated as [db| |]; try (injection Hrun as _ <-; exact Hv).
  destruct (vf_set f); [injection Hrun as _ <-; exact Hv|].
  destruct (guarded _ _) as [rows| |] eqn:Hp; try (injection Hrun as _ <-; exact Hv).
  assert (Hv' : forall q, pf_tenants q = rows -> pf_shared q = pf_shared p -> visible_complete q).
  { intros q Ht Hsh x Hx Hxs. rewrite Ht in Hx. rewrite Hsh. unfold guarded in Hp. destruct (vf_provision f); [done|].
    apply Provision_rows in Hp as [_ ->]. apply elem_of_app in Hx as [Hx|Hx]; [by apply Hv | by apply list_elem_of_singleton in Hx as ->]. }
  destruct (seed_tenant _ _ _ _ _ _ _ _ _) as [[uid| |] db']; injection Hrun as _ <-; by apply Hv'.
Qed.

(** What happens to a platform: tenants are provisioned, with any failures, and
    their status or product is changed. *)
Inductive platform_step : platform -> platform -> Prop :=
| st_schema f now salt conn id email password p r p' :
    ProvisionSchemaTenant column_fault fresh f now salt conn id email password p = (r, p') -> platform_step p p'
| st_dedicated f now salt id ref url email password migrated p r p' :
    ProvisionDedicatedDbTenant column_fault fresh f now salt id ref url email password migrated p = (r, p') -> platform_step p p'
| st_status id status p :
    platform_step p (mkPlatform (SetStatus id status (pf_tenants p)).2 (pf_shared p) (pf_connections p) (pf_dedicated p))
| st_product id product p :
    platform_step p (mkPlatform (SetProduct id product (pf_tenants p)).2 (pf_shared p) (pf_connections p) (pf_dedicated p))
| st_deprovision id p :
    platform_step p (mkPlatform (Deprovision id (pf_tenants p)).2 (pf_shared p) (pf_connections p) (pf_dedicated p)).

Lemma update_visible g id p :
  (forall r, tn_id (g r) = tn_id r /\ tn_strategy (g r) = tn_strategy r /\ tn_schema_name (g r) = tn_schema_name r) ->
  visible_complete p ->
  visible_complete (mkPlatform (update_tenant g id (pf_tenants p)).2 (pf_shared p) (pf_connections p) (pf_dedicated p)).
Proof.
  intros Hg Hv x Hx Hs. cbn [pf_tenants pf_shared update_tenant snd] in *. apply list_elem_of_fmap in Hx as (r & -> & Hr).
  destruct (is_tenant id r); [|by apply Hv]. destruct (Hg r) as (-> & Hst & ->). rewrite Hst in Hs. by apply Hv.
Qed.

(** C35. A tenant never becomes visible before its schema exists: in every platform
    that provisionings, failing anywhere, and changes of tenants lead to, each tenant
    the registry routes to a schema is routed to the one named after its own
    identifier, and that schema has every tenant table and foreign key. *)
Theorem visible_tenants_have_schemas (p p' : platform) :
  pf_tenants p = [] -> rtc platform_step p p' ->
  forall r, r ∈ pf_tenants p' -> tn_strategy r = "schema" ->
    tn_schema_name r = Some (schema_of (tn_id r)) /\ complete_schema (schema_of (tn_id r)) (db_catalogue (pf_shared p')).
Proof.
  intros He Hr. assert (Hv : visible_complete p) by (intros r Hr'; rewrite He in Hr'; by apply elem_of_nil in Hr').
  clear He. induction Hr as [|p q p' Hs _ IH]; [done|]. apply IH. destruct Hs.
  - by eapply ProvisionSchemaTenant_visible.
  - by eapply ProvisionDedicated_visible.
  - by apply update_visible.
  - by apply update_visible.
  - by apply update_visible.
Qed.
End Provisioned.

(** ** The cache of the registry *)

Section Cache.
Context {UL : UuidLib} {ULaws : UuidLaws UL}.

(** The entries were made at [t0] at the latest. *)
Definition cached_by (t0 : Z) (cache : gmap string (option TenantRouting * Z)) : Prop :=
  forall key v e, cache !! key = Some (v, e) -> (e <= t0 + registryCacheTTL)%Z.

(** An entry of a tenant is old, or what the registry answers now. *)
Definition fresh_or_old (t0 : Z) (registry : uuid -> result error (option TenantRouting)) (id : uuid)
    (cache : gmap string (option TenantRouting * Z)) : Prop :=
  forall v e, cache !! uuid_String id = Some (v, e) -> (e <= t0 + registryCacheTTL)%Z \/ registry id = Ok v.

(** Lookups of any tenants at any times. *)
Fixpoint lookups (registry : uuid -> result error (option TenantRouting)) (calls : list (Z * uuid))
    (cache : gmap string (option TenantRouting * Z)) : gmap string (option TenantRouting * Z) :=
  match calls with
  | [] => cache
  | (now, id) :: rest => lookups registry rest (RegistryCache_Get registry now id cache).2
  end.

Lemma lookups_fresh t0 registry id calls cache :
  fresh_or_old t0 registry id cache -> fresh_or_old t0 registry id (lookups registry calls cache).
Proof.
  revert cache. induction calls as [|[now u] calls IH]; intros cache Hc; simpl; [done|]. apply IH.
  unfold RegistryCache_Get. destruct (ttl_get now cache (uuid_String u)); [done|].
  destruct (registry u) as [routing| |] eqn:Er; [|done|done]. simpl. intros v e. unfold ttl_set.
  destruct (decide (uuid_String u = uuid_String id)) as [Hu|Hne].
  - rewrite Hu, lookup_insert_eq. intros [= <- <-]. right. apply uuid_String_inj in Hu. by subst.
  - rewrite lookup_insert_ne by done. apply Hc.
Qed.

Lemma lookup_after t0 registry id now cache :
  fresh_or_old t0 registry id cache -> (t0 + registryCacheTTL < now)%Z ->
  forall v, registry id = Ok v -> (RegistryCache_Get registry now id cache).1 = Ok v.
Proof.
  intros Hc Hnow v Hv. unfold RegistryCache_Get, ttl_get. destruct (cache !! uuid_String id) as [[w e]|] eqn:E.
  - destruct (Hc w e E) as [Hold|Hw].
    + replace (e <? now)%Z with true by (symmetry; apply Z.ltb_lt; lia). by rewrite Hv.
    + destruct (e <? now)%Z; [by rewrite Hv | simpl; congruence].
  - by rewrite Hv.
Qed.

Lemma find_updated f id rows :
  (forall r, tn_id (f r) = tn_id r) ->
  List.find (is_tenant id) (update_tenant f id rows).2 = f <$> List.find (is_tenant id) rows.
Proof.
  intros Hf. unfold update_tenant. simpl. induction rows as [|r rows IH]; simpl; [done|].
  destruct (is_tenant id r) eqn:E.
  - assert (is_tenant id (f r) = true) as -> by (unfold is_tenant in *; by rewrite Hf). done.
  - by rewrite E.
Qed.

Lemma find_other f id id' rows :
  id' <> id -> (forall r, tn_id (f r) = tn_id r) ->
  List.find (is_tenant id') (update_tenant f id rows).2 = List.find (is_tenant id') rows.
Proof.
  intros Hne Hf. unfold update_tenant. simpl. induction rows as [|r rows IH]; simpl; [done|].
  rewrite IH. destruct (is_tenant id r) eqn:E; [|done]. apply bool_decide_eq_true in E.
  assert (is_tenant id' r = false) as -> by (apply bool_decide_eq_false; congruence).
  by assert (is_tenant id' (f r) = false) as -> by (apply bool_decide_eq_false; rewrite Hf; congruence).
Qed.

(** Suspending, expiring or deleting a tenant reaches every request: whatever was
    cached before the change at [t0] and whatever lookups of any tenants followed it,
    thirty seconds later no transaction of the tenant is opened, and the other tenants
    are routed as before. *)
Lemma status_change_takes_effect (rows : list tenant_row) (id : uuid) (strategy : TenantStrategy) (old : TenantStatus)
    (status : TenantStatus) (t0 now : Z) (cache : gmap string (option TenantRouting * Z)) (calls : list (Z * uuid))
    (beginPool : option string -> option error) (exec : string -> option error) :
  Registry_Get rows id = Ok (Some (mkRouting old strategy)) -> status <> StatusActive ->
  cached_by t0 cache -> (t0 + registryCacheTTL < now)%Z ->
  let rows' := (SetStatus id (TenantStatus_String status) rows).2 in
  let cache' := lookups (Registry_Get rows') calls cache in
  let router := mkRouter (fun t => (RegistryCache_Get (Registry_Get rows') now t cache').1) beginPool exec in
  (exists kind, Begin router id = Err (RouterError kind "") /\ kind <> ErrInvalidSchemaName) /\
  (forall other, other <> id -> Registry_Get rows' other = Registry_Get rows other).
Proof.
  intros Hget Hst Hc Hnow rows' cache' router. split.
  - assert (Hr : Registry_Get rows' id = Ok (Some (mkRouting status strategy))).
    { unfold rows', SetStatus, Registry_Get in *. rewrite (find_updated (with_status _)) by done.
      destruct (List.find (is_tenant id) rows) as [r|]; [|done]. simpl in *.
      destruct (parseStrategy _ _ _) as [s| |]; [|done|done]. simpl in *. rewrite status_roundtrip. simpl.
      destruct (ParseTenantStatus (tn_status r)); [|done|done]. simpl in Hget. congruence. }
    assert (Hrt : ro_registry router id = Ok (Some (mkRouting status strategy))).
    { simpl. apply (lookup_after t0); [|done|done]. apply lookups_fresh. intros v e Hv. left. by eapply Hc. }
    unfold Begin, resolve. rewrite Hrt. simpl. destruct status; simpl; (done || by eexists).
  - intros other Hne. unfold rows', SetStatus, Registry_Get. by rewrite find_other.
Qed.
End Cache.

(** ** Pools *)

Section Pools.
Context {UL : UuidLib}.
Variable secrets : string -> result error string.

(** Every cached pool reaches what it is cached for. *)
Definition pools_reach (ps : Pools) : Prop :=
  (forall ref pool e, ps_dedicated ps !! ref = Some (pool, e) -> exists dsn, secrets ref = Ok dsn /\ pl_target pool = DatabaseAt dsn) /\
  (forall name pool e, ps_schema ps !! name = Some (pool, e) -> pl_target pool = SharedWithSetup (schema_setup name)).

Lemma ttl_get_some {V} now (cache : gmap string (V * Z)) key v : ttl_get now cache key = Some v -> exists e, cache !! key = Some (v, e).
Proof. unfold ttl_get. destruct (cache !! key) as [[w e]|]; [|done]. destruct (e <? now)%Z; [done|]. intros [= <-]. by exists e. Qed.

Lemma dedicatedPool_reaches open_fault now ref ps r ps' :
  pools_reach ps -> dedicatedPool secrets open_fault now ref ps = (r, ps') ->
  pools_reach ps' /\ (forall pool, r = Ok pool -> exists dsn, secrets ref = Ok dsn /\ pl_target pool = DatabaseAt dsn).
Proof.
  intros [Hd Hs] Hrun. unfold dedicatedPool in Hrun. destruct (ttl_get now (ps_dedicated ps) ref) as [pool|] eqn:Eg.
  - injection Hrun as <- <-. split; [done|]. intros pool' [= <-]. apply ttl_get_some in Eg as [e He]. by eapply Hd.
  - destruct (secrets ref) as [dsn| |] eqn:Es; [|by injection Hrun as <- <-..].
    destruct open_fault; [by injection Hrun as <- <-|]. simpl in Hrun. injection Hrun as <- <-. split.
    + split; simpl; [|done]. unfold ttl_set. intros ref' pool e. destruct (decide (ref' = ref)) as [->|Hne].
      * rewrite lookup_insert_eq. intros [= <- <-]. by exists dsn.
      * rewrite lookup_insert_ne by done. apply Hd.
    + intros pool [= <-]. by exists dsn.
Qed.

Lemma schemaPool_reaches open_fault now name ps r ps' :
  pools_reach ps -> schemaPool open_fault now name ps = (r, ps') ->
  pools_reach ps' /\ (forall pool, r = Ok pool ->
    pl_target pool = if String.eqb name "public" then SharedDatabase else SharedWithSetup (schema_setup name)).
Proof.
  intros [Hd Hs] Hrun. unfold schemaPool in Hrun. destruct (String.eqb name "public").
  { injection Hrun as <- <-. split; [done|]. by intros pool [= <-]. }
  destruct (ValidateSchemaName name); [by injection Hrun as <- <-|].
  destruct (ttl_get now (ps_schema ps) name) as [pool|] eqn:Eg.
  - injection Hrun as <- <-. split; [done|]. intros pool' [= <-]. apply ttl_get_some in Eg as [e He]. by eapply Hs.
  - destruct open_fault; [by injection Hrun as <- <-|]. simpl in Hrun. injection Hrun as <- <-. split.
    + split; simpl; [done|]. unfold ttl_set. intros name' pool e. destruct (decide (name' = name)) as [->|Hne].
      * rewrite lookup_insert_eq. by intros [= <- <-].
      * rewrite lookup_insert_ne by done. apply Hs.
    + by intros pool [= <-].
Qed.

(** A transaction of a tenant and its pool reach the same data: the shared database
    with the tenant's schema first on the search path, or the tenant's own database. *)
Lemma begin_and_pool_agree r t tx open_fault now ps pool ps' :
  pools_reach ps -> Begin r t = Ok tx -> PoolFor r secrets open_fault now t ps = (Ok pool, ps') ->
  pools_reach ps' /\
  match tx_strategy tx with
  | SchemaStrategy name =>
    tx_setup tx = Some ("SET LOCAL search_path TO " +:+ name +:+ ", metadata, control") /\
    pl_target pool = if String.eqb name "public" then SharedDatabase
                     else SharedWithSetup ("SET search_path TO " +:+ quote +:+ name +:+ quote +:+ ", metadata, control")
  | DedicatedDbStrategy ref => exists dsn, secrets ref = Ok dsn /\ pl_target pool = DatabaseAt dsn
  end.
Proof.
  intros Hps [Hres Htx]%Begin_ok. unfold PoolFor. rewrite Hres. destruct (tx_strategy tx) as [name|ref].
  - intros Hp. destruct (schemaPool_reaches _ _ _ _ _ _ Hps Hp) as [Hps' Ht]. split; [done|]. destruct Htx as [_ Hset].
    split; [done|]. rewrite (Ht pool eq_refl). unfold schema_setup, quoted_name. by rewrite !app_str_assoc.
  - intros Hp. destruct (dedicatedPool_reaches _ _ _ _ _ _ Hps Hp) as [Hps' Ht]. split; [done|]. by apply Ht.
Qed.

(** Calls at these times. *)
Fixpoint pool_calls (ref : string) (times : list Z) (ps : Pools) : Pools :=
  match times with [] => ps | now :: rest => pool_calls ref rest (dedicatedPool secrets None now ref ps).2 end.

Definition call_times (n : nat) : list Z := map (fun i => (Z.of_nat i * (dedicatedPoolIdleTTL + 1))%Z) (seq 0 n).

(** A cached pool expires ten minutes after it was opened, used or not, and is never
    closed: a tenant that is active for long leaves a pool open for each ten minutes. *)
Lemma pools_accumulate ref dsn n :
  secrets ref = Ok dsn -> length (ps_opened (pool_calls ref (call_times n) (mkPools ∅ ∅ []))) = n.
Proof.
  intros Hs. unfold call_times.
  assert (Hg : forall k ps, (forall pool e, ps_dedicated ps !! ref = Some (pool, e) -> (e < Z.of_nat k * (dedicatedPoolIdleTTL + 1))%Z) ->
    length (ps_opened (pool_calls ref (map (fun i => (Z.of_nat i * (dedicatedPoolIdleTTL + 1))%Z) (seq k n)) ps)) = (length (ps_opened ps) + n)%nat).
  { induction n as [|n IH]; intros k ps Hps; cbn [seq map pool_calls]; [lia|]. rewrite IH.
    - unfold dedicatedPool, ttl_get. destruct (ps_dedicated ps !! ref) as [[pool e]|] eqn:E.
      + pose proof (Hps _ _ eq_refl). replace (e <? _)%Z with true by (symmetry; apply Z.ltb_lt; lia). rewrite Hs. cbn.
        rewrite length_app. simpl. lia.
      + rewrite Hs. cbn. rewrite length_app. simpl. lia.
    - intros pool e. unfold dedicatedPool, ttl_get. destruct (ps_dedicated ps !! ref) as [[pool' e']|] eqn:E.
      + pose proof (Hps _ _ eq_refl). replace (e' <? _)%Z with true by (symmetry; apply Z.ltb_lt; lia). rewrite Hs.
        cbn [snd open_pool ps_dedicated]. unfold ttl_set. rewrite lookup_insert_eq. intros [= <- <-]. lia.
      + rewrite Hs. cbn [snd open_pool ps_dedicated]. unfold ttl_set. rewrite lookup_insert_eq. intros [= <- <-]. lia. }
  rewrite (Hg 0%nat); [done|]. simpl. intros pool e. by rewrite lookup_empty.
Qed.
End Pools.

(** ** Examples *)

(** Two identifiers, of sixteen equal bytes each. *)
Definition SmallUuid : UuidLib := {|
  uuid := bool;
  uuid_Parse s := if String.eqb s "zeros" then Some false else if String.eqb s "ones" then Some true else None;
  uuid_String u := if u then "ones" else "zeros"
|}.

#[local] Existing Instance SmallUuid.

#[export] Instance SmallUuid_laws : UuidLaws SmallUuid.
Proof. constructor. by intros []. Qed.

Definition small_bytes (u : bool) : list N := repeat (if u then 1 else 0)%N 16.

#[local] Instance SmallBytes : UuidBytes := {| uuid_bytes := small_bytes |}.

#[local] Instance SmallBytes_laws : UuidBytesLaws.
Proof.
  constructor.
  - by intros [].
  - intros []; vm_compute; repeat constructor.
  - intros [] []; vm_compute; by intros [=] || reflexivity.
Qed.

Definition ones : @uuid SmallUuid := true.

Definition platform_tables : list string := ["users"; "user_roles"; "outbox_events"] ++ map snd tenantScopedTables.

Definition new_database : database := mkDatabase {["metadata" := mkSchemaState (list_to_set platform_tables) ∅]} ∅ ∅ ∅.

Definition new_platform : platform := mkPlatform [] new_database [None; None] ∅.

Definition no_column_fault (_ : UserRow) : option error := None.
Definition user_id (rows : list UserRow) : bool := Nat.odd (length rows).

Lemma new_platform_provisionable : provisionable new_platform ones "ada@x.org".
Proof.
  constructor.
  - assert (Hall : forallb (fun t => has_table (db_catalogue (pf_shared new_platform)) t.1 t.2) tenantScopedTables = true)
      by (vm_compute; reflexivity).
    intros t Ht. rewrite forallb_forall in Hall. by apply Hall, list_elem_of_In.
  - intros t Ht. apply elem_of_cons in Ht as [->|Ht]; [split; vm_compute; reflexivity|].
    apply list_elem_of_singleton in Ht as ->. split; vm_compute; reflexivity.
  - constructor; constructor.
  - apply not_elem_of_nil.
  - reflexivity.
Qed.


Definition provisioned_platform : platform :=
  (ProvisionSchemaTenant no_column_fault user_id no_provision_faults 7 "salt" 0 ones "ada@x.org" "pw" new_platform).2.

Lemma visible_tenants_have_schemas_witness :
  exists r, r ∈ pf_tenants provisioned_platform /\ tn_strategy r = "schema" /\
    complete_schema (schema_of (tn_id r)) (db_catalogue (pf_shared provisioned_platform)).
Proof.
  exists (mkTenantRow ones "trial" "schema" (Some "t_01010101010101010101010101010101") None "active" 7 None None).
  assert (E : pf_tenants provisioned_platform
    = [mkTenantRow ones "trial" "schema" (Some "t_01010101010101010101010101010101") None "active" 7 None None])
    by (vm_compute; reflexivity).
  assert (Hin : mkTenantRow ones "trial" "schema" (Some "t_01010101010101010101010101010101") None "active" 7 None None
    ∈ pf_tenants provisioned_platform) by (rewrite E; apply list_elem_of_singleton; reflexivity).
  split; [exact Hin|]. split; [reflexivity|].
  refine (proj2 (visible_tenants_have_schemas no_column_fault user_id new_platform provisioned_platform eq_refl _ _ Hin eq_refl)).
  apply rtc_once. eapply (st_schema no_column_fault user_id no_provision_faults 7 "salt" 0 ones "ada@x.org" "pw" new_platform).
  apply surjective_pairing.
Defined.

(** The search path of the connection a provisioning used is left on it when it goes
    back to the shared pool: on that connection a name without a schema is then looked
    up in the tenant's schema. *)
Lemma provisioning_leaves_search_path :
  pf_connections provisioned_platform = [Some ["t_01010101010101010101010101010101"; "metadata"; "control"]; None] /\
  resolve_table (db_catalogue (pf_shared provisioned_platform)) ["t_01010101010101010101010101010101"; "metadata"; "control"] "tenant_configs"
  = Some "t_01010101010101010101010101010101".
Proof. split; vm_compute; reflexivity. Qed.

(** Provisioning an existing tenant again fails at the registry, after it has given the
    tenant another administrator. *)
Lemma second_provisioning_adds_admin :
  let out := ProvisionSchemaTenant no_column_fault user_id no_provision_faults 8 "salt" 0 ones "eve@x.org" "evil" provisioned_platform in
  out.1 = Err "duplicate key value violates unique constraint tenants_pkey" /\
  VerifyCredentials (default [] (db_users (pf_shared out.2) !! "metadata")) "eve@x.org" "evil" = Ok (Some (mkAuthUser ones ones "eve@x.org")) /\
  GetRolesForUser (default [] (db_roles (pf_shared out.2) !! "metadata")) ones ones = ["admin"].
Proof. split_and!; vm_compute; reflexivity. Qed.

(** A provisioning that fails after the user was created cannot be repeated with the
    same email. *)
Lemma failed_provisioning_blocks_email :
  let lost := mkProvisionFaults (fun _ => None) None None None None None (Some "connection lost") in
  let out := ProvisionSchemaTenant no_column_fault user_id lost 7 "salt" 0 ones "ada@x.org" "pw" new_platform in
  out.1 = Err "connection lost" /\ pf_tenants out.2 = [] /\
  (ProvisionSchemaTenant no_column_fault user_id no_provision_faults 8 "salt" 0 ones "ada@x.org" "pw" out.2).1
  = Err "duplicate key value violates unique constraint".
Proof. split_and!; vm_compute; reflexivity. Qed.

(** A tenant with a database of its own is visible before its administrator exists, and
    stays so when the creation fails. *)
Lemma dedicated_tenant_without_admin :
  let lost := mkProvisionFaults (fun _ => None) None None None (Some "connection lost") None None in
  let out := ProvisionDedicatedDbTenant no_column_fault user_id lost 7 "salt" ones "DSN" "postgres://db" "ada@x.org" "pw" (Ok new_database) new_platform in
  out.1 = Err "connection lost" /\
  Registry_Get (pf_tenants out.2) ones = Ok (Some (mkRouting StatusActive (DedicatedDbStrategy "DSN"))) /\
  (db_users <$> pf_dedicated out.2 !! "postgres://db") = Some ∅.
Proof. split_and!; vm_compute; reflexivity. Qed.

Definition one_tenant : list tenant_row := [mkTenantRow ones "trial" "schema" (Some "t_01") None "active" 7 None None].

(** Cached at the hundredth second, suspended at the same time. *)
Definition warm_cache : gmap string (option TenantRouting * Z) :=
  (RegistryCache_Get (Registry_Get one_tenant) 100000000000 ones ∅).2.

Lemma status_change_takes_effect_witness :
  let rows' := (SetStatus ones "suspended" one_tenant).2 in
  let cache' := lookups (Registry_Get rows') [(110000000000%Z, ones)] warm_cache in
  let router := mkRouter (fun t => (RegistryCache_Get (Registry_Get rows') 130000000001 t cache').1) (fun _ => None) (fun _ => None) in
  exists kind, Begin router ones = Err (RouterError kind "") /\ kind <> ErrInvalidSchemaName.
Proof.
  refine (proj1 (status_change_takes_effect one_tenant ones (SchemaStrategy "t_01") StatusActive StatusSuspended 100000000000 130000000001
    warm_cache [(110000000000%Z, ones)] (fun _ => None) (fun _ => None) _ _ _ _)).
  - reflexivity.
  - discriminate.
  - assert (E : warm_cache = {["ones" := (Some (mkRouting StatusActive (SchemaStrategy "t_01")), 130000000000%Z)]}) by (vm_compute; reflexivity).
    intros key v e Hv. rewrite E in Hv. apply lookup_singleton_Some in Hv as [_ Hv]. injection Hv as _ Hv. rewrite <- Hv. discriminate.
  - reflexivity.
Defined.
