(* ===== verification/Attachments.v ===== *)
(** Files attached to records: the metadata rows (src/go/attachments/attachments.go),
    the object store (src/go/storage/storage.go, s3.go) and the routes
    (src/go/httpserver/routes_attachments.go).

    The store is a bucket, a map from keys to objects as S3 documents it; the calls of
    one request that fail are an argument. A table is the list of its rows, and the
    tables are a map by their name. Whether the caller may act on the record is decided
    by the CRUD service (Crud.v), whose state is part of the state here. The quoting of
    the name in the Content-Disposition header is left out: an answer has the name. *)
From S2P Require Import Prelude GoStrings GoText Json Floats Numbers Condition Context Uuid Evaluate Snapshot PermissionService Users PolicyStore Metadata Schema Router Payload Workflow AuditTrail Sql ConditionSql Jql Planner Records Times Crud CrudOutcomes CrudProps CrudState CrudReads Aggregate Authn Cron Outbound CronScheduler CronRoutes Wire Grpc GrpcProps RestRecords Config.

Open Scope string_scope.
Open Scope list_scope.

(** ** The object store *)

Definition slash : ascii := "/".

(** storage.go: the error of a key that is refused. *)
Definition validateKey (key : string) : option error :=
  if String.eqb key "" then Some "object key must not be empty"
  else if (1024 <? String.length key)%nat then Some "object key must be at most 1024 bytes"
  else if HasPrefix key "/" then Some "object key must not start with '/'"
  else if existsb (fun segment => String.eqb segment ".." || String.eqb segment ".") (Split key slash)
  then Some "object key must not contain '.' or '..' path segments"
  else if existsb IsControl (runes key) then Some "object key must not contain control characters"
  else None.

Record object : Type := mkObject { obj_data : string; obj_content_type : option string }.

Notation bucket := (gmap string object).

Section Store.
Context `{UuidLib}.

Definition scopedKey (tenantID : uuid) (key : string) : result error string :=
  match validateKey key with
  | Some e => Err e
  | None => Ok (uuid_String tenantID +:+ "/" +:+ key)
  end.

(** Each method with the error of its call to S3, if it fails. *)
Definition store_Put (fault : option error) (tenantID : uuid) (key data contentType : string) (b : bucket) : result error bucket :=
  let! scoped := scopedKey tenantID key in
  match fault with
  | Some e => Err e
  | None => Ok (<[scoped := mkObject data (if String.eqb contentType "" then None else Some contentType)]> b)
  end.

(** [Ok None] is an object that is not there. *)
Definition store_Get (fault : option error) (tenantID : uuid) (key : string) (b : bucket) : result error (option string) :=
  let! scoped := scopedKey tenantID key in
  match fault with Some e => Err e | None => Ok (obj_data <$> b !! scoped) end.

Definition store_Delete (fault : option error) (tenantID : uuid) (key : string) (b : bucket) : result error bucket :=
  let! scoped := scopedKey tenantID key in
  match fault with Some e => Err e | None => Ok (delete scoped b) end.

Definition store_Exists (fault : option error) (tenantID : uuid) (key : string) (b : bucket) : result error bool :=
  let! scoped := scopedKey tenantID key in
  match fault with Some e => Err e | None => Ok (is_some (b !! scoped)) end.

(** ** The rows (attachments.go) *)

Record AttachmentRecord : Type := mkAttachment {
  at_ID : uuid;
  at_TenantID : uuid;
  at_EntityName : string;
  at_RecordID : uuid;
  at_Filename : string;
  at_Key : string;
  at_Size : Z;
  at_ContentType : option string;
  at_CreatedBy : option uuid;
  at_CreatedAt : Z
}.

Notation attachment_tables := (gmap string (list AttachmentRecord)).

(** ^[a-z][a-z0-9_]*$ *)
Definition table_name_byte (b : ascii) : bool := isASCIILower b || isASCIIDigit b || Ascii.eqb b "_".

Definition validateTableName (tableName : string) : option error :=
  match tableName with
  | String a rest => if isASCIILower a && all_bytes table_name_byte rest then None else Some "invalid attachments table name"
  | EmptyString => Some "invalid attachments table name"
  end.

Definition missing_table : error := "relation does not exist".

(** The rows of a table whose name is accepted. *)
Definition open_table (tables : attachment_tables) (tableName : string) : result error (list AttachmentRecord) :=
  match validateTableName tableName with
  | Some e => Err e
  | None => match tables !! tableName with Some rows => Ok rows | None => Err missing_table end
  end.

Definition EnsureDedicatedTable (tables : attachment_tables) (tableName : string) : result error attachment_tables :=
  match validateTableName tableName with
  | Some e => Err e
  | None => Ok (match tables !! tableName with Some _ => tables | None => <[tableName := []]> tables end)
  end.

Definition CreateAttachment (id : uuid) (now : Z) (tables : attachment_tables) (tableName : string) (tenantID : uuid)
    (entityName : string) (recordID : uuid) (filename key : string) (size : Z) (contentType : option string) (createdBy : option uuid)
  : result error (AttachmentRecord * attachment_tables) :=
  let! rows := open_table tables tableName in
  let r := mkAttachment id tenantID entityName recordID filename key size contentType createdBy now in
  Ok (r, <[tableName := rows ++ [r]]> tables).

Definition of_record (tenantID : uuid) (entityName : string) (recordID : uuid) (r : AttachmentRecord) : bool :=
  bool_decide (at_TenantID r = tenantID) && String.eqb (at_EntityName r) entityName && bool_decide (at_RecordID r = recordID).

(** ORDER BY created_at DESC. *)
Definition ListAttachments (tables : attachment_tables) (tableName : string) (tenantID : uuid) (entityName : string) (recordID : uuid)
  : result error (list AttachmentRecord) :=
  let! rows := open_table tables tableName in
  Ok (reverse (order_by at_CreatedAt (List.filter (of_record tenantID entityName recordID) rows))).

Definition is_attachment (tenantID id : uuid) (r : AttachmentRecord) : bool :=
  bool_decide (at_TenantID r = tenantID) && bool_decide (at_ID r = id).

Definition GetAttachment (tables : attachment_tables) (tableName : string) (tenantID id : uuid) : result error (option AttachmentRecord) :=
  let! rows := open_table tables tableName in
  Ok (List.find (is_attachment tenantID id) rows).

Definition DeleteAttachment (tables : attachment_tables) (tableName : string) (tenantID id : uuid) : result error attachment_tables :=
  let! rows := open_table tables tableName in
  Ok (<[tableName := List.filter (fun r => negb (is_attachment tenantID id r)) rows]> tables).
End Store.

(** ** The routes (routes_attachments.go) *)

(** What the multipart reader gives: the body is not multipart, it has no part, its
    first part cannot be read, or the name, the content type and the bytes of it (or
    the error of reading them). *)
Inductive upload : Type :=
| NotMultipart (e : error)
| NoPart
| BadPart (e : error)
| FilePart (filename contentType : string) (data : result error string).

(** The calls of a request that fail. *)
Record file_faults : Type := mkFileFaults {
  ff_put : option error;
  ff_get : option error;
  ff_delete : option error;
  ff_statement : option error;
  ff_commit : option error
}.

Section Routes.
Context `{UuidLib} `{!Postgres} {St C A : Type} `{!PolicyStore St} `{!Cache C} `{!AuditStore A}.
Variable s : CrudService (St := St).
(** AppState.AttachmentTables *)
Variable AttachmentTables : gmap string string.

Record FileWorld : Type := mkFileWorld {
  fw_crud : World (C := C) (A := A);
  fw_tables : gmap string (list AttachmentRecord);
  (** [None] without an object store *)
  fw_bucket : option bucket
}.

Inductive FileAnswer : Type :=
| AttachmentCreated (record : AttachmentRecord)
| AttachmentList (records : list AttachmentRecord)
| Download (contentType filename data : string)
| AttachmentDeleted.

Notation FileHandler := (Handler FileWorld).

Definition attachmentsTableFor (entity : string) : string := default "attachments" (AttachmentTables !! entity).

Definition attachmentToJSON (r : AttachmentRecord) : json :=
  JObj [("contentType", match at_ContentType r with Some t => JStr t | None => JNull end);
        ("createdAt", JStr (format_time (at_CreatedAt r))); ("entityName", JStr (at_EntityName r)); ("filename", JStr (at_Filename r));
        ("id", uuid_json (at_ID r)); ("key", JStr (at_Key r)); ("recordId", uuid_json (at_RecordID r));
        ("size", JNum (FormatInt (at_Size r)))].

Definition on_crud {B} (m : Handler World B) : FileHandler B := fun w =>
  let '(r, c) := m (fw_crud w) in (r, mkFileWorld c (fw_tables w) (fw_bucket w)).

Definition storage_missing : ServiceError := ResultErrWithMessage 503 "storage_not_configured" "Object storage is not configured.".

Definition require_store : FileHandler unit := fun w =>
  match fw_bucket w with Some _ => (Ok tt, w) | None => (Err (Refused storage_missing), w) end.

Definition caller_of {W} (auth : authError + RequestContext) : Handler W RequestContext :=
  match auth with
  | inr rc => hret rc
  | inl (Unauthorized m) => refuse (ResultErrWithMessage 401 "unauthorized" m)
  | inl (ForbiddenError m) => refuse (ResultErrWithMessage 403 "forbidden" m)
  end.

(** A segment of the path that must be an identifier. *)
Definition path_id {W} (id : option uuid) : Handler W uuid := require_some id (ResultErr 404 "record_not_found").

Definition ensureRecordPermission (entity : string) (recordID : uuid) (action : EntityAction) (rc : RequestContext) : FileHandler unit :=
  on_crud (CheckRecordPermission s entity recordID action rc).

Definition begin_file {W} (tenantID : uuid) : Handler W unit :=
  match Begin (cs_router s) tenantID with
  | Ok _ => hret tt
  | Err e => match routerUnavailable e with Some r => refuse r | None => hfail (failure_text e) end
  | Panic => hpanic
  end.

Definition get_tables : FileHandler (gmap string (list AttachmentRecord)) := fun w => (Ok (fw_tables w), w).
Definition put_tables (tables : gmap string (list AttachmentRecord)) : FileHandler unit := fun w =>
  (Ok tt, mkFileWorld (fw_crud w) tables (fw_bucket w)).

Definition bad_multipart {B} (e : error) : FileHandler B := refuse (ResultErrWithMessage 400 "invalid_multipart" e).

(** The name, the content type and the bytes of the first part. *)
Definition read_part (u : upload) : FileHandler (string * string * string) :=
  match u with
  | NotMultipart e | BadPart e => bad_multipart e
  | NoPart => refuse (ResultErrWithMessage 400 "missing_file" "No file field found in the upload.")
  | FilePart filename contentType data =>
    match data with
    | Ok bytes => hret (if String.eqb filename "" then "upload" else filename, contentType, bytes)
    | Err e => bad_multipart e
    | Panic => hpanic
    end
  end.

Definition put_object (f : file_faults) (tenantID : uuid) (key data contentType : string) : FileHandler unit := fun w =>
  match store_Put (ff_put f) tenantID key data contentType (default ∅ (fw_bucket w)) with
  | Ok b => (Ok tt, mkFileWorld (fw_crud w) (fw_tables w) (Some b))
  | Err e => (Err (Failed e), w)
  | Panic => (Panic, w)
  end.

(** state.ObjectStore.Delete, its error dropped. *)
Definition drop_object (f : file_faults) (tenantID : uuid) (key : string) (w : FileWorld) : FileWorld :=
  match store_Delete (ff_delete f) tenantID key (default ∅ (fw_bucket w)) with
  | Ok b => mkFileWorld (fw_crud w) (fw_tables w) (Some b)
  | _ => w
  end.

(** m(), and the object is deleted when it does not succeed. *)
Definition or_drop {B} (f : file_faults) (tenantID : uuid) (key : string) (m : FileHandler B) : FileHandler B := fun w =>
  match m w with
  | (Ok b, w') => (Ok b, w')
  | (Err e, w') => (Err e, drop_object f tenantID key w')
  | (Panic, w') => (Panic, w')
  end.

(** A statement, and the commit of the transaction it is in. *)
Definition committed {B} (f : file_faults) (r : result error (B * gmap string (list AttachmentRecord))) : FileHandler B :=
  match ff_statement f with
  | Some e => hfail e
  | None =>
    let* (b, tables) := hlift r in
    match ff_commit f with Some e => hfail e | None => let* _ := put_tables tables in hret b end
  end.

Definition object_key (entity : string) (recordID objectID : uuid) (filename : string) : string :=
  entity +:+ "/" +:+ uuid_String recordID +:+ "/" +:+ uuid_String objectID +:+ "/" +:+ filename.

Definition some_text (s : string) : option string := if String.eqb s "" then None else Some s.

(** [objectID] and [rowID] are the identifiers drawn, [now] the time of the insertion. *)
Definition uploadAttachment (f : file_faults) (objectID rowID : uuid) (now : Z) (auth : authError + RequestContext) (entity : string)
    (recordID : option uuid) (body : upload) : FileHandler FileAnswer :=
  let* _ := require_store in
  let* rc := caller_of auth in
  let* recordID := path_id recordID in
  let* _ := ensureRecordPermission entity recordID ActionUpdate rc in
  let* tenantID := hlift (ScopedTenant rc) in
  let* (filename, contentType, data) := read_part body in
  let key := object_key entity recordID objectID filename in
  let* _ := put_object f tenantID key data contentType in
  let* record := or_drop f tenantID key
    (let* _ := begin_file tenantID in
     let* tables := get_tables in
     committed f (CreateAttachment rowID now tables (attachmentsTableFor entity) tenantID entity recordID filename key
       (Z.of_nat (String.length data)) (some_text contentType) (parseOptionalUUID (rc_UserID rc)))) in
  hret (AttachmentCreated record).

Definition listAttachments (f : file_faults) (auth : authError + RequestContext) (entity : string) (recordID : option uuid) : FileHandler FileAnswer :=
  let* rc := caller_of auth in
  let* recordID := path_id recordID in
  let* _ := ensureRecordPermission entity recordID ActionRead rc in
  let* tenantID := hlift (ScopedTenant rc) in
  let* _ := begin_file tenantID in
  let* tables := get_tables in
  match ff_statement f with
  | Some e => hfail e
  | None => let* records := hlift (ListAttachments tables (attachmentsTableFor entity) tenantID entity recordID) in
            hret (AttachmentList records)
  end.

Definition loadOwnedAttachment (f : file_faults) (entity : string) (recordID attachmentID tenantID : uuid) (table : string)
  : FileHandler AttachmentRecord :=
  let* _ := begin_file tenantID in
  let* tables := get_tables in
  match ff_statement f with
  | Some e => hfail e
  | None =>
    let* found := hlift (GetAttachment tables table tenantID attachmentID) in
    match found with
    | None => refuse (ResultErr 404 "record_not_found")
    | Some record =>
      let* _ := require (String.eqb (at_EntityName record) entity && bool_decide (at_RecordID record = recordID))
                  (ResultErr 404 "record_not_found") in
      hret record
    end
  end.

Definition get_object (f : file_faults) (tenantID : uuid) (key : string) : FileHandler (option string) := fun w =>
  hlift (store_Get (ff_get f) tenantID key (default ∅ (fw_bucket w))) w.

Definition downloadAttachment (f : file_faults) (auth : authError + RequestContext) (entity : string) (recordID attachmentID : option uuid)
  : FileHandler FileAnswer :=
  let* _ := require_store in
  let* rc := caller_of auth in
  let* recordID := path_id recordID in
  let* attachmentID := path_id attachmentID in
  let* _ := ensureRecordPermission entity recordID ActionRead rc in
  let* tenantID := hlift (ScopedTenant rc) in
  let* record := loadOwnedAttachment f entity recordID attachmentID tenantID (attachmentsTableFor entity) in
  let* data := get_object f tenantID (at_Key record) in
  match data with
  | None => refuse (ResultErrWithMessage 404 "record_not_found" "The file is missing from object storage.")
  | Some data => hret (Download (default "application/octet-stream" (at_ContentType record)) (at_Filename record) data)
  end.

Definition deleteAttachment (f : file_faults) (auth : authError + RequestContext) (entity : string) (recordID attachmentID : option uuid)
  : FileHandler FileAnswer :=
  let* _ := require_store in
  let* rc := caller_of auth in
  let* recordID := path_id recordID in
  let* attachmentID := path_id attachmentID in
  let* _ := ensureRecordPermission entity recordID ActionDelete rc in
  let* tenantID := hlift (ScopedTenant rc) in
  let* record := loadOwnedAttachment f entity recordID attachmentID tenantID (attachmentsTableFor entity) in
  let* _ := begin_file tenantID in
  let* tables := get_tables in
  let* _ := committed f (match DeleteAttachment tables (attachmentsTableFor entity) tenantID attachmentID with
                         | Ok t => Ok (tt, t) | Err e => Err e | Panic => Panic end) in
  fun w => (Ok AttachmentDeleted, drop_object f tenantID (at_Key record) w).

(** mountAttachments *)
Inductive file_request : Type :=
| UploadFile (objectID rowID : uuid) (now : Z) (entity : string) (recordID : option uuid) (body : upload)
| ListFiles (entity : string) (recordID : option uuid)
| DownloadFile (entity : string) (recordID attachmentID : option uuid)
| DeleteFile (entity : string) (recordID attachmentID : option uuid).

Definition serve_file (f : file_faults) (auth : authError + RequestContext) (q : file_request) : FileHandler FileAnswer :=
  match q with
  | UploadFile objectID rowID now entity recordID body => uploadAttachment f objectID rowID now auth entity recordID body
  | ListFiles entity recordID => listAttachments f auth entity recordID
  | DownloadFile entity recordID attachmentID => downloadAttachment f auth entity recordID attachmentID
  | DeleteFile entity recordID attachmentID => deleteAttachment f auth entity recordID attachmentID
  end.
End Routes.
