(* ===== verification/AttachmentsProps.v ===== *)
(** What the attachments guarantee: what was uploaded is what is downloaded, a file is
    served, listed or deleted only for who may act on its record, a request touches
    only rows and objects of its tenant, and a failed upload leaves nothing. *)
From S2P Require Import Prelude GoStrings GoText Json Floats Numbers Condition Context Uuid Evaluate Snapshot PermissionService Users PolicyStore Metadata Schema Router Payload Workflow AuditTrail Sql ConditionSql Jql Planner Records Times Crud CrudOutcomes CrudProps CrudState CrudReads Aggregate Authn Cron Outbound CronScheduler CronRoutes Wire Grpc GrpcProps RestRecords Config Attachments.

Open Scope string_scope.
Open Scope list_scope.

Section Files.
Context {UL : UuidLib} `{!Postgres} {St C A : Type} `{!PolicyStore St} `{!Cache C} `{!AuditStore A}.
Variable s : CrudService (St := St).
Variable AttachmentTables : gmap string string.
Notation FW := (FileWorld (C := C) (A := A)).

(** The part of the state that is about files. *)
Definition files (w : FW) : gmap string (list AttachmentRecord) * option bucket := (fw_tables w, fw_bucket w).

Lemma bind_ok {W B D} (m : Handler W B) (k : B -> Handler W D) w d w' :
  hbind m k w = (Ok d, w') -> exists b w1, m w = (Ok b, w1) /\ k b w1 = (Ok d, w').
Proof. unfold hbind. destruct (m w) as [[b| |] w1]; [|done|done]. by exists b, w1. Qed.

(** How a request ended at a step that writes nothing, or went on. *)
Lemma bind_files {B D} (m : Handler FW B) (k : B -> Handler FW D) w r w' :
  (forall r1 w1, m w = (r1, w1) -> files w1 = files w) -> hbind m k w = (r, w') ->
  (files w' = files w /\ forall d, r <> Ok d) \/ exists b w1, m w = (Ok b, w1) /\ files w1 = files w /\ k b w1 = (r, w').
Proof.
  intros Hm. unfold hbind. destruct (m w) as [[b|e|] w1] eqn:E; specialize (Hm _ _ eq_refl).
  - intros Hk. right. by exists b, w1.
  - intros [= <- <-]. by left.
  - intros [= <- <-]. by left.
Qed.

Lemma caller_of_run auth (w : FW) r w1 : caller_of auth w = (r, w1) -> w1 = w /\ (forall rc, r = Ok rc -> auth = inr rc).
Proof. destruct auth as [[]|]; simpl; intros [= <- <-]; (split; [done|]); naive_solver. Qed.

Lemma require_store_run (w : FW) r w1 : require_store w = (r, w1) -> w1 = w /\ (r = Ok tt -> is_Some (fw_bucket w)).
Proof. unfold require_store. destruct (fw_bucket w); intros [= <- <-]; naive_solver. Qed.

Lemma path_id_run id (w : FW) r w1 : path_id id w = (r, w1) -> w1 = w /\ (forall u, r = Ok u -> id = Some u).
Proof. destruct id; simpl; intros [= <- <-]; naive_solver. Qed.

Lemma hlift_run {W B} (x : result error B) (w : W) r w1 : hlift x w = (r, w1) -> w1 = w /\ (forall b, r = Ok b -> x = Ok b).
Proof. unfold hlift. destruct x; intros [= <- <-]; naive_solver. Qed.

Lemma begin_file_run t (w : FW) r w1 : begin_file s t w = (r, w1) -> w1 = w /\ (r = Ok tt -> exists tx, Begin (cs_router s) t = Ok tx).
Proof.
  unfold begin_file. destruct (Begin (cs_router s) t) as [tx|e|]; [intros [= <- <-]; by eauto| |by intros [= <- <-]].
  destruct (routerUnavailable e); by intros [= <- <-].
Qed.

Lemma read_part_run body (w : FW) r w1 : read_part body w = (r, w1) -> w1 = w.
Proof. destruct body as [| | |? ? []]; simpl; by intros [= _ <-]. Qed.

Lemma permission_run entity id action rc (w : FW) r w1 :
  ensureRecordPermission s entity id action rc w = (r, w1) ->
  files w1 = files w /\ CheckRecordPermission s entity id action rc (fw_crud w) = (r, fw_crud w1).
Proof.
  unfold ensureRecordPermission, on_crud. destruct (CheckRecordPermission _ _ _ _ _ _) as [r0 c]. by intros [= <- <-].
Qed.

Lemma put_object_run f t key data ct (w : FW) r w1 :
  put_object f t key data ct w = (r, w1) ->
  (r = Ok tt /\ exists sk, scopedKey t key = Ok sk /\ fw_tables w1 = fw_tables w /\ fw_crud w1 = fw_crud w /\
     fw_bucket w1 = Some (<[sk := mkObject data (some_text ct)]> (default ∅ (fw_bucket w)))) \/
  (w1 = w /\ forall d, r <> Ok d).
Proof.
  unfold put_object, store_Put. destruct (scopedKey t key) as [sk| |]; simpl; [|intros [= <- <-]; by right..].
  destruct (ff_put f); intros [= <- <-]; [by right|]. left. split; [done|]. by exists sk.
Qed.

Lemma committed_run {B} f (x : result error (B * gmap string (list AttachmentRecord))) (w : FW) r w1 :
  committed f x w = (r, w1) ->
  (exists b tables, x = Ok (b, tables) /\ r = Ok b /\ w1 = mkFileWorld (fw_crud w) tables (fw_bucket w)) \/
  (w1 = w /\ forall b, r <> Ok b).
Proof.
  unfold committed. destruct (ff_statement f); [intros [= <- <-]; by right|].
  destruct x as [[b tables]| |]; unfold hbind, hlift; [|intros [= <- <-]; by right..].
  destruct (ff_commit f); intros [= <- <-]; [by right|]. left. by exists b, tables.
Qed.

Lemma drop_object_files f t key (w : FW) :
  fw_tables (drop_object f t key w) = fw_tables w /\
  (fw_bucket (drop_object f t key w) = fw_bucket w \/
   exists sk, scopedKey t key = Ok sk /\ fw_bucket (drop_object f t key w) = Some (delete sk (default ∅ (fw_bucket w)))).
Proof.
  unfold drop_object, store_Delete. destruct (scopedKey t key) as [sk| |]; simpl; [|by split; [|left]..].
  destruct (ff_delete f); simpl; [by split; [|left]|]. split; [done|]. right. by exists sk.
Qed.

Definition part_name (filename : string) : string := if String.eqb filename "" then "upload" else filename.

Definition uploaded_row (rowID : uuid) (now : Z) (t : uuid) (entity : string) (rid objectID : uuid) (fn ct data : string)
    (rc : RequestContext) : AttachmentRecord :=
  mkAttachment rowID t entity rid (part_name fn) (object_key entity rid objectID (part_name fn)) (Z.of_nat (String.length data))
    (some_text ct) (parseOptionalUUID (rc_UserID rc)) now.

(** A request that writes to the bucket: the object it puts there, and how it ended. *)
Inductive upload_end (f : file_faults) (objectID rowID : uuid) (now : Z) (auth : authError + RequestContext) (entity : string)
    (recordID : option uuid) (body : upload) (w : FW) (r : result exit FileAnswer) (w' : FW) : Prop :=
| upload_refused : files w' = files w -> (forall a, r <> Ok a) -> upload_end f objectID rowID now auth entity recordID body w r w'
| upload_put rc rid fn ct data t sk b c :
    auth = inr rc -> recordID = Some rid -> body = FilePart fn ct (Ok data) -> fw_bucket w = Some b ->
    CheckRecordPermission s entity rid ActionUpdate rc (fw_crud w) = (Ok tt, c) -> ScopedTenant rc = Ok t ->
    scopedKey t (object_key entity rid objectID (part_name fn)) = Ok sk ->
    ((exists rows tx, open_table (fw_tables w) (attachmentsTableFor AttachmentTables entity) = Ok rows /\
        Begin (cs_router s) t = Ok tx /\ r = Ok (AttachmentCreated (uploaded_row rowID now t entity rid objectID fn ct data rc)) /\
        w' = mkFileWorld c (<[attachmentsTableFor AttachmentTables entity := rows ++ [uploaded_row rowID now t entity rid objectID fn ct data rc]]> (fw_tables w))
               (Some (<[sk := mkObject data (some_text ct)]> b))) \/
     ((forall a, r <> Ok a) /\ fw_tables w' = fw_tables w /\
        (fw_bucket w' = Some (<[sk := mkObject data (some_text ct)]> b) /\ (is_Some (ff_delete f) \/ r = Panic) \/
         fw_bucket w' = Some (delete sk (<[sk := mkObject data (some_text ct)]> b))))) ->
    upload_end f objectID rowID now auth entity recordID body w r w'.

(** The steps after the object was put. *)
Lemma insert_run f rowID now t entity rid key fn ct data rc (w : FW) r w' :
  (let* _ := begin_file s t in
   let* tables := get_tables in
   committed f (CreateAttachment rowID now tables (attachmentsTableFor AttachmentTables entity) t entity rid fn key
     (Z.of_nat (String.length data)) (some_text ct) (parseOptionalUUID (rc_UserID rc)))) w = (r, w') ->
  (exists rows tx, open_table (fw_tables w) (attachmentsTableFor AttachmentTables entity) = Ok rows /\ Begin (cs_router s) t = Ok tx /\
     let rec := mkAttachment rowID t entity rid fn key (Z.of_nat (String.length data)) (some_text ct) (parseOptionalUUID (rc_UserID rc)) now in
     r = Ok rec /\ w' = mkFileWorld (fw_crud w) (<[attachmentsTableFor AttachmentTables entity := rows ++ [rec]]> (fw_tables w)) (fw_bucket w)) \/
  (w' = w /\ forall b, r <> Ok b).
Proof.
  unfold hbind at 1. destruct (begin_file s t w) as [rb w1] eqn:Eb. apply begin_file_run in Eb as [-> Htx].
  destruct rb as [[]| |]; [|intros [= <- <-]; by right..]. destruct (Htx eq_refl) as [tx Hb]. unfold hbind, get_tables. cbv beta iota.
  intros [(b & tables & Hc & -> & ->)|[-> Hr]]%committed_run; [|by right]. left.
  unfold CreateAttachment in Hc. apply rbind_ok in Hc as (rows & Ho & Hc). exists rows, tx. split; [done|]. split; [done|]. by injection Hc as <- <-.
Qed.

Lemma upload_cases f objectID rowID now auth entity recordID body (w : FW) r w' :
  uploadAttachment s AttachmentTables f objectID rowID now auth entity recordID body w = (r, w') ->
  upload_end f objectID rowID now auth entity recordID body w r w'.
Proof.
  unfold uploadAttachment. intros Hrun.
  apply bind_files in Hrun as [[Hf Hr]|([] & w1 & E & _ & Hrun)]; [by apply upload_refused| |by intros ? ? [-> _]%require_store_run].
  apply require_store_run in E as [-> Hb]. destruct (Hb eq_refl) as [b Hbk]. clear Hb.
  apply bind_files in Hrun as [[Hf Hr]|(rc & w1 & E & _ & Hrun)]; [by apply upload_refused| |by intros ? ? [-> _]%caller_of_run].
  apply caller_of_run in E as [-> Hauth]. specialize (Hauth _ eq_refl).
  apply bind_files in Hrun as [[Hf Hr]|(rid & w1 & E & _ & Hrun)]; [by apply upload_refused| |by intros ? ? [-> _]%path_id_run].
  apply path_id_run in E as [-> Hrid]. specialize (Hrid _ eq_refl).
  apply bind_files in Hrun as [[Hf Hr]|([] & w1 & E & Hf & Hrun)]; [by apply upload_refused| |by intros ? ? [? _]%permission_run].
  apply permission_run in E as [_ Hperm].
  apply bind_files in Hrun as [[Hf' Hr]|(t & w2 & E & _ & Hrun)];
    [apply upload_refused; [by rewrite Hf' | done]| |by intros ? ? [-> _]%hlift_run].
  apply hlift_run in E as [-> Ht]. specialize (Ht _ eq_refl).
  apply bind_files in Hrun as [[Hf' Hr]|([[fn ct] data] & w2 & E & _ & Hrun)];
    [apply upload_refused; [by rewrite Hf' | done]| |by intros ? ? ->%read_part_run].
  assert (w2 = w1) as -> by by apply read_part_run in E.
  assert (exists fn0, body = FilePart fn0 ct (Ok data) /\ fn = part_name fn0) as (fn0 & Hbody & ->).
  { destruct body as [| | |fn0 ct0 [d| |]]; simpl in E; try done. injection E as <- <- <-. by exists fn0. }
  injection Hf as Htab Hbuck. unfold hbind at 1 in Hrun.
  destruct (put_object _ _ _ _ _ w1) as [rp w3] eqn:Ep.
  apply put_object_run in Ep as [(-> & sk & Hsk & Ht3 & Hc3 & Hb3)|[-> Hr]].
  2: { apply upload_refused; [destruct rp; [by destruct (Hr a)| |]; injection Hrun as _ <-; unfold files; by rewrite Htab, Hbuck|].
       destruct rp; [by destruct (Hr a)| |]; injection Hrun as <- _; done. }
  rewrite Hbuck, Hbk in Hb3. cbn [default] in Hb3. unfold hbind at 1, or_drop in Hrun.
  destruct ((let* _ := begin_file s t in _) w3) as [ri w4] eqn:Ei.
  apply insert_run in Ei as [(rows & tx & Ho & Hb & -> & ->)|[-> Hr]].
  - unfold hret in Hrun. injection Hrun as <- <-. eapply upload_put; try done. left. exists rows, tx. rewrite Ht3, Htab in Ho |- *.
    split; [done|]. split; [done|]. split; [done|]. cbn. by rewrite Hc3, Hb3.
  - destruct ri as [rec|e|]; [by destruct (Hr rec)| |]; injection Hrun as <- <-; eapply upload_put; try done; right.
    + split; [done|]. destruct (drop_object_files f t (object_key entity rid objectID (part_name fn0)) w3) as [Hdt Hdb].
      split; [congruence|]. unfold drop_object, store_Delete in *. rewrite Hsk in *. simpl in *.
      destruct (ff_delete f); simpl in *; [left; split; [done | left; by eexists]|]. right. by rewrite Hb3.
    + split; [done|]. split; [congruence|]. left. split; [done | by right].
Qed.

Lemma owned_run f entity rid aid t table (w : FW) r w1 :
  loadOwnedAttachment s f entity rid aid t table w = (r, w1) ->
  w1 = w /\ (forall rec, r = Ok rec -> exists rows, open_table (fw_tables w) table = Ok rows /\
    List.find (is_attachment t aid) rows = Some rec /\ at_EntityName rec = entity /\ at_RecordID rec = rid).
Proof.
  unfold loadOwnedAttachment, hbind at 1. destruct (begin_file s t w) as [rb w0] eqn:Eb. apply begin_file_run in Eb as [-> _].
  destruct rb; [|by intros [= <- <-]..]. unfold hbind at 1, get_tables. cbv beta iota.
  destruct (ff_statement f); [by intros [= <- <-]|]. unfold hbind at 1, hlift, GetAttachment.
  destruct (open_table (fw_tables w) table) as [rows| |] eqn:Eo; simpl; [|by intros [= <- <-]..].
  destruct (List.find (is_attachment t aid) rows) as [rec|] eqn:Ef; [|by intros [= <- <-]].
  unfold hbind, require. destruct (_ && _) eqn:Ec; [|by intros [= <- <-]].
  apply andb_true_iff in Ec as [He%String.eqb_eq Hi%bool_decide_eq_true]. intros [= <- <-]. split; [done|]. intros rec' [= <-]. by exists rows.
Qed.

(** The steps a request on a file has in common. *)
Lemma opened_run {B} auth recordID entity action (k : RequestContext -> uuid -> uuid -> Handler FW B) (w : FW) r w' :
  (let* rc := caller_of auth in
   let* rid := path_id recordID in
   let* _ := ensureRecordPermission s entity rid action rc in
   let* t := hlift (ScopedTenant rc) in
   k rc rid t) w = (r, w') ->
  (files w' = files w /\ forall b, r <> Ok b) \/
  exists rc rid t w1, auth = inr rc /\ recordID = Some rid /\ ScopedTenant rc = Ok t /\ files w1 = files w /\
    CheckRecordPermission s entity rid action rc (fw_crud w) = (Ok tt, fw_crud w1) /\ k rc rid t w1 = (r, w').
Proof.
  intros Hrun. apply bind_files in Hrun as [?|(rc & w1 & E & _ & Hrun)]; [by left| |by intros ? ? [-> _]%caller_of_run].
  apply caller_of_run in E as [-> Hauth]. specialize (Hauth _ eq_refl).
  apply bind_files in Hrun as [?|(rid & w1 & E & _ & Hrun)]; [by left| |by intros ? ? [-> _]%path_id_run].
  apply path_id_run in E as [-> Hrid]. specialize (Hrid _ eq_refl).
  apply bind_files in Hrun as [?|([] & w1 & E & Hf & Hrun)]; [by left| |by intros ? ? [? _]%permission_run].
  apply permission_run in E as [_ Hperm].
  apply bind_files in Hrun as [[Hf' Hr]|(t & w2 & E & _ & Hrun)]; [left; by rewrite Hf'| |by intros ? ? [-> _]%hlift_run].
  apply hlift_run in E as [-> Ht]. right. exists rc, rid, t, w1. by rewrite (Ht _ eq_refl).
Qed.

Lemma opened_file_run {B} auth recordID attachmentID entity action (k : uuid -> uuid -> uuid -> Handler FW B) (w : FW) r w' :
  (let* _ := require_store in
   let* rc := caller_of auth in
   let* rid := path_id recordID in
   let* aid := path_id attachmentID in
   let* _ := ensureRecordPermission s entity rid action rc in
   let* t := hlift (ScopedTenant rc) in
   k rid aid t) w = (r, w') ->
  (files w' = files w /\ forall b, r <> Ok b) \/
  exists rc rid aid t w1, auth = inr rc /\ recordID = Some rid /\ attachmentID = Some aid /\ ScopedTenant rc = Ok t /\ files w1 = files w /\
    CheckRecordPermission s entity rid action rc (fw_crud w) = (Ok tt, fw_crud w1) /\ k rid aid t w1 = (r, w').
Proof.
  intros Hrun. apply bind_files in Hrun as [?|([] & w1 & E & _ & Hrun)]; [by left| |by intros ? ? [-> _]%require_store_run].
  apply require_store_run in E as [-> _].
  apply bind_files in Hrun as [?|(rc & w1 & E & _ & Hrun)]; [by left| |by intros ? ? [-> _]%caller_of_run].
  apply caller_of_run in E as [-> Hauth]. specialize (Hauth _ eq_refl).
  apply bind_files in Hrun as [?|(rid & w1 & E & _ & Hrun)]; [by left| |by intros ? ? [-> _]%path_id_run].
  apply path_id_run in E as [-> Hrid]. specialize (Hrid _ eq_refl).
  apply bind_files in Hrun as [?|(aid & w1 & E & _ & Hrun)]; [by left| |by intros ? ? [-> _]%path_id_run].
  apply path_id_run in E as [-> Haid]. specialize (Haid _ eq_refl).
  apply bind_files in Hrun as [?|([] & w1 & E & Hf & Hrun)]; [by left| |by intros ? ? [? _]%permission_run].
  apply permission_run in E as [_ Hperm].
  apply bind_files in Hrun as [[Hf' Hr]|(t & w2 & E & _ & Hrun)]; [left; by rewrite Hf'| |by intros ? ? [-> _]%hlift_run].
  apply hlift_run in E as [-> Ht]. right. exists rc, rid, aid, t, w1. by rewrite (Ht _ eq_refl).
Qed.

(** A download: the row that was found and the object it names. *)
Lemma download_run f auth entity recordID attachmentID (w : FW) r w' :
  downloadAttachment s AttachmentTables f auth entity recordID attachmentID w = (r, w') ->
  files w' = files w /\
  (forall a, r = Ok a -> exists rc rid aid t c rows rec sk obj,
     auth = inr rc /\ recordID = Some rid /\ attachmentID = Some aid /\ ScopedTenant rc = Ok t /\
     CheckRecordPermission s entity rid ActionRead rc (fw_crud w) = (Ok tt, c) /\
     open_table (fw_tables w) (attachmentsTableFor AttachmentTables entity) = Ok rows /\
     List.find (is_attachment t aid) rows = Some rec /\ at_EntityName rec = entity /\ at_RecordID rec = rid /\
     scopedKey t (at_Key rec) = Ok sk /\ default ∅ (fw_bucket w) !! sk = Some obj /\
     a = Download (default "application/octet-stream" (at_ContentType rec)) (at_Filename rec) (obj_data obj)).
Proof.
  intros Hrun. apply (opened_file_run auth recordID attachmentID entity ActionRead) in Hrun as [[Hf Hr]|(rc & rid & aid & t & w1 & Ha & Hrid & Haid & Ht & Hf & Hp & Hrun)].
  { split; [done|]. intros a ->. by destruct (Hr a). }
  injection Hf as Htab Hbk. unfold hbind at 1 in Hrun.
  destruct (loadOwnedAttachment _ _ _ _ _ _ _ _) as [ro w2] eqn:Eo. apply owned_run in Eo as [-> Hrec].
  destruct ro as [rec| |]; [|injection Hrun as <- <-; split; [unfold files; congruence | done]..].
  destruct (Hrec rec eq_refl) as (rows & Hopen & Hfind & He & Hi). unfold hbind, get_object, hlift, store_Get in Hrun.
  destruct (scopedKey t (at_Key rec)) as [sk| |] eqn:Esk; simpl in Hrun; [|injection Hrun as <- <-; split; [unfold files; congruence | done]..].
  destruct (ff_get f); [injection Hrun as <- <-; split; [unfold files; congruence | done]|].
  rewrite Hbk in Hrun. destruct (default ∅ (fw_bucket w) !! sk) as [obj|] eqn:Eobj; simpl in Hrun;
    [|injection Hrun as <- <-; split; [unfold files; congruence | done]].
  injection Hrun as <- <-. split; [unfold files; congruence|]. intros a [= <-]. rewrite Htab in Hopen.
  by exists rc, rid, aid, t, (fw_crud w1), rows, rec, sk, obj.
Qed.

Lemma delete_run f auth entity recordID attachmentID (w : FW) r w' :
  deleteAttachment s AttachmentTables f auth entity recordID attachmentID w = (r, w') ->
  (files w' = files w /\ forall a, r <> Ok a) \/
  exists rc rid aid t c rows rec,
     auth = inr rc /\ recordID = Some rid /\ attachmentID = Some aid /\ ScopedTenant rc = Ok t /\
     CheckRecordPermission s entity rid ActionDelete rc (fw_crud w) = (Ok tt, c) /\
     open_table (fw_tables w) (attachmentsTableFor AttachmentTables entity) = Ok rows /\
     List.find (is_attachment t aid) rows = Some rec /\ at_EntityName rec = entity /\ at_RecordID rec = rid /\ r = Ok AttachmentDeleted /\
     w' = drop_object f t (at_Key rec) (mkFileWorld c
            (<[attachmentsTableFor AttachmentTables entity := List.filter (fun x => negb (is_attachment t aid x)) rows]> (fw_tables w)) (fw_bucket w)).
Proof.
  intros Hrun. apply (opened_file_run auth recordID attachmentID entity ActionDelete) in Hrun as [Hf|(rc & rid & aid & t & w1 & Ha & Hrid & Haid & Ht & Hf & Hp & Hrun)].
  { by left. }
  assert (Hsame : forall x : result exit FileAnswer, (forall a, x <> Ok a) -> (x, w1) = (r, w') -> files w' = files w /\ forall a, r <> Ok a)
    by (intros x Hx [= <- <-]; by rewrite Hf).
  injection Hf as Htab Hbk. unfold hbind at 1 in Hrun.
  destruct (loadOwnedAttachment _ _ _ _ _ _ _ _) as [ro w2] eqn:Eo. apply owned_run in Eo as [-> Hrec].
  destruct ro as [rec| |]; [|left; eapply Hsame; [|exact Hrun]; done..].
  destruct (Hrec rec eq_refl) as (rows & Hopen & Hfind & He & Hi). unfold hbind at 1 in Hrun.
  destruct (begin_file s t w1) as [rb w2] eqn:Eb. apply begin_file_run in Eb as [-> _].
  destruct rb as [[]| |]; [|left; eapply Hsame; [|exact Hrun]; done..]. unfold hbind at 1, get_tables in Hrun. cbv beta iota in Hrun.
  unfold hbind at 1 in Hrun. destruct (committed _ _ w1) as [rc1 w2] eqn:Ec.
  apply committed_run in Ec as [(b & tables & Hd & -> & ->)|[-> Hr]];
    [|left; destruct rc1 as [u| |]; [by destruct (Hr u)|eapply Hsame; [|exact Hrun]; done..]].
  unfold DeleteAttachment in Hd. rewrite Hopen in Hd. simpl in Hd. injection Hd as <- <-. injection Hrun as <- <-.
  right. exists rc, rid, aid, t, (fw_crud w1), rows, rec. rewrite <- Htab, <- Hbk. by split_and!.
Qed.

(** The rows of the other tenants. *)
Definition rows_of_others (t : uuid) (tables : gmap string (list AttachmentRecord)) : gmap string (list AttachmentRecord) :=
  List.filter (fun r => negb (bool_decide (at_TenantID r = t))) <$> tables.

(** The objects outside a tenant's part of the bucket are kept. *)
Definition bucket_kept (t : uuid) (b b' : option bucket) : Prop :=
  forall k, (forall key, k <> uuid_String t +:+ "/" +:+ key) -> default ∅ b' !! k = default ∅ b !! k.

Definition confined (t : uuid) (w w' : FW) : Prop :=
  rows_of_others t (fw_tables w') = rows_of_others t (fw_tables w) /\ bucket_kept t (fw_bucket w) (fw_bucket w').

Lemma scopedKey_form t key sk : scopedKey t key = Ok sk -> sk = uuid_String t +:+ "/" +:+ key.
Proof. unfold scopedKey. destruct (validateKey key); [done|]. by intros [= <-]. Qed.

Lemma open_table_rows tables table rows : open_table tables table = Ok rows -> tables !! table = Some rows.
Proof. unfold open_table. destruct (validateTableName table); [done|]. by destruct (tables !! table); [intros [= <-]|]. Qed.

Lemma others_insert t tables table rows rows' :
  tables !! table = Some rows ->
  List.filter (fun r => negb (bool_decide (at_TenantID r = t))) rows' = List.filter (fun r => negb (bool_decide (at_TenantID r = t))) rows ->
  rows_of_others t (<[table := rows']> tables) = rows_of_others t tables.
Proof.
  intros Ht He. unfold rows_of_others. rewrite fmap_insert, He. apply insert_id. by rewrite lookup_fmap, Ht.
Qed.

Lemma upload_confined f objectID rowID now auth entity recordID body (w : FW) r w' :
  upload_end f objectID rowID now auth entity recordID body w r w' ->
  files w' = files w \/ exists rc t, auth = inr rc /\ ScopedTenant rc = Ok t /\ confined t w w'.
Proof.
  intros [Hf Hr|rc rid fn ct data t sk b c Ha Hrid Hbody Hb Hp Ht Hsk Hend]; [by left|]. right. exists rc, t. split_and!; [done | done|].
  apply scopedKey_form in Hsk. assert (Hput : forall k b', (b' = <[sk := mkObject data (some_text ct)]> b \/ b' = delete sk (<[sk := mkObject data (some_text ct)]> b)) ->
    (forall key, k <> uuid_String t +:+ "/" +:+ key) -> b' !! k = b !! k).
  { intros k b' Hb' Hk. assert (sk <> k) by (intros <-; by eapply Hk). destruct Hb' as [->| ->].
    - by rewrite lookup_insert_ne.
    - by rewrite lookup_delete_ne, lookup_insert_ne. }
  destruct Hend as [(rows & tx & Ho & _ & _ & ->)|(_ & Htab & Hbk)]; split.
  - cbn [fw_tables]. apply (others_insert t _ _ rows); [by apply open_table_rows|]. rewrite List.filter_app. cbn.
    rewrite bool_decide_eq_true_2 by done. by rewrite app_nil_r.
  - intros k Hk. rewrite Hb. cbn. apply Hput; [by left | done].
  - by rewrite Htab.
  - intros k Hk. rewrite Hb. destruct Hbk as [[-> _]| ->]; cbn; apply Hput; auto.
Qed.

Lemma drop_confined f t key (w : FW) : confined t w (drop_object f t key w).
Proof.
  destruct (drop_object_files f t key w) as [Ht Hb]. split; [by rewrite Ht|]. intros k Hk.
  destruct Hb as [->|(sk & Hsk & ->)]; [done|]. cbn. apply scopedKey_form in Hsk. apply lookup_delete_ne. intros <-. by eapply Hk.
Qed.

Lemma filter_without t (p : AttachmentRecord -> bool) rows :
  (forall r, p r = true -> at_TenantID r = t) ->
  List.filter (fun r => negb (bool_decide (at_TenantID r = t))) (List.filter (fun r => negb (p r)) rows)
  = List.filter (fun r => negb (bool_decide (at_TenantID r = t))) rows.
Proof.
  intros Hp. induction rows as [|r rows IH]; simpl; [done|]. destruct (p r) eqn:E; simpl.
  - rewrite IH. rewrite bool_decide_eq_true_2 by by apply Hp. done.
  - by rewrite IH.
Qed.

(** What a request is about. *)
Definition request_target (q : file_request) : string * option uuid * EntityAction :=
  match q with
  | UploadFile _ _ _ entity rid _ => (entity, rid, ActionUpdate)
  | ListFiles entity rid | DownloadFile entity rid _ => (entity, rid, ActionRead)
  | DeleteFile entity rid _ => (entity, rid, ActionDelete)
  end.

Lemma list_run f auth entity recordID (w : FW) r w' :
  listAttachments s AttachmentTables f auth entity recordID w = (r, w') ->
  files w' = files w /\
  (forall a, r = Ok a -> exists rc rid t c rows, auth = inr rc /\ recordID = Some rid /\ ScopedTenant rc = Ok t /\
     CheckRecordPermission s entity rid ActionRead rc (fw_crud w) = (Ok tt, c) /\
     a = AttachmentList (reverse (order_by at_CreatedAt (List.filter (of_record t entity rid) rows)))).
Proof.
  intros Hrun. apply (opened_run auth recordID entity ActionRead) in Hrun as [[Hf Hr]|(rc & rid & t & w1 & Ha & Hrid & Ht & Hf & Hp & Hrun)].
  { split; [done|]. intros a ->. by destruct (Hr a). }
  unfold hbind at 1 in Hrun. destruct (begin_file s t w1) as [rb w2] eqn:Eb. apply begin_file_run in Eb as [-> _].
  destruct rb as [[]| |]; [|by injection Hrun as <- <-..]. unfold hbind at 1, get_tables in Hrun. cbv beta iota in Hrun.
  destruct (ff_statement f); [by injection Hrun as <- <-|]. unfold hbind, hlift, ListAttachments in Hrun.
  destruct (open_table _ _) as [rows| |]; simpl in Hrun; [|by injection Hrun as <- <-..].
  injection Hrun as <- <-. split; [done|]. intros a [= <-]. by exists rc, rid, t, (fw_crud w1), rows.
Qed.


(** What was attached is what is downloaded: after an upload has answered, anyone
    of the tenant who may read the record downloads under the identifier in the answer
    the very bytes that were uploaded, under the name of the upload and with its content
    type (octet-stream when it had none), as long as the store and the database answer. *)
Lemma uploaded_file_downloads (f f' : file_faults) (objectID rowID : uuid) (now : Z) (rc rc' : RequestContext) (entity : string)
    (rid : uuid) (fn ct data : string) (rec : AttachmentRecord) (w w' : FW) (c : World (C := C) (A := A)) :
  uploadAttachment s AttachmentTables f objectID rowID now (inr rc) entity (Some rid) (FilePart fn ct (Ok data)) w
    = (Ok (AttachmentCreated rec), w') ->
  (forall rows, fw_tables w !! attachmentsTableFor AttachmentTables entity = Some rows -> rowID ∉ map at_ID rows) ->
  ScopedTenant rc' = ScopedTenant rc -> CheckRecordPermission s entity rid ActionRead rc' (fw_crud w') = (Ok tt, c) ->
  ff_get f' = None -> ff_statement f' = None ->
  exists w'', downloadAttachment s AttachmentTables f' (inr rc') entity (Some rid) (Some (at_ID rec)) w'
    = (Ok (Download (if String.eqb ct "" then "application/octet-stream" else ct) (if String.eqb fn "" then "upload" else fn) data), w'')
    /\ files w'' = files w'.
Proof.
  intros Hup Hnew Hst Hp Hget Hstmt. apply upload_cases in Hup.
  destruct Hup as [_ Hr|? ? ? ? ? t sk b c0 [= <-] [= <-] [= <- <- <-] Hb Hpu Ht Hsk [(rows & tx & Ho & Hbg & Hrec & ->)|[Hr _]]];
    [by destruct (Hr (AttachmentCreated rec)) | | by destruct (Hr (AttachmentCreated rec))].
  injection Hrec as ->. change (at_ID (uploaded_row rowID now t entity rid objectID fn ct data rc)) with rowID.
  assert (Hfind : List.find (is_attachment t rowID) (rows ++ [uploaded_row rowID now t entity rid objectID fn ct data rc])
    = Some (uploaded_row rowID now t entity rid objectID fn ct data rc)).
  { pose proof (Hnew rows (open_table_rows _ _ _ Ho)) as Hni. clear -Hni. induction rows as [|x rows IH]; simpl.
    - unfold is_attachment. simpl. by rewrite !bool_decide_eq_true_2.
    - simpl in Hni. apply not_elem_of_cons in Hni as [Hx Hni]. unfold is_attachment at 1.
      rewrite (bool_decide_eq_false_2 (at_ID x = rowID)) by congruence. rewrite andb_false_r. by apply IH. }
  eexists. split.
  - unfold downloadAttachment. unfold hbind at 1, require_store. cbn [fw_bucket]. unfold hbind at 1. cbn [caller_of hret].
    unfold hbind at 1, path_id, require_some, hret. cbv beta iota. unfold hbind at 1. cbv beta iota.
    unfold hbind at 1, ensureRecordPermission, on_crud. cbn [fw_crud]. cbn [fw_crud] in Hp. rewrite Hp. cbv beta iota. cbn [fw_tables fw_bucket].
    unfold hbind at 1, hlift. rewrite Hst, Ht. cbv beta iota. unfold hbind at 1, loadOwnedAttachment. unfold hbind at 1, begin_file.
    rewrite Hbg. unfold hret. cbv beta iota. unfold hbind at 1, get_tables. cbv beta iota. rewrite Hstmt.
    unfold hbind at 1, hlift, GetAttachment, open_table. unfold open_table in Ho. cbn [fw_tables].
    destruct (validateTableName _); [done|]. rewrite lookup_insert_eq. cbn [rbind]. rewrite Hfind.
    unfold hbind at 1, require. cbn [at_EntityName at_RecordID uploaded_row]. rewrite String.eqb_refl, bool_decide_eq_true_2 by done.
    cbn [andb]. unfold hret at 1. cbv beta iota. unfold hbind, get_object, hlift, store_Get. cbn [at_Key uploaded_row]. rewrite Hsk.
    cbn [rbind]. rewrite Hget. cbn [fw_bucket from_option id]. rewrite lookup_insert_eq. cbn [fmap option_fmap option_map obj_data].
    unfold hret. cbn [at_ContentType at_Filename uploaded_row].
    replace (default "application/octet-stream" (some_text ct)) with (if String.eqb ct "" then "application/octet-stream" else ct)
      by (unfold some_text; by destruct (String.eqb ct "")).
    reflexivity.
  - done.
Qed.

(** No object of the bucket has a key made with the identifier. *)
Definition unused (objectID : uuid) (b : option bucket) : Prop :=
  forall t entity rid fn sk, scopedKey t (object_key entity rid objectID fn) = Ok sk -> default ∅ b !! sk = None.

(** A failed upload leaves nothing behind: when an upload is answered with an
    error, whatever failed, and the deletion of its object does not fail too, the rows
    and the objects are exactly what they were. *)
Lemma failed_upload_leaves_nothing (f : file_faults) (objectID rowID : uuid) (now : Z) (auth : authError + RequestContext) (entity : string)
    (recordID : option uuid) (body : upload) (e : exit) (w w' : FW) :
  uploadAttachment s AttachmentTables f objectID rowID now auth entity recordID body w = (Err e, w') ->
  ff_delete f = None -> unused objectID (fw_bucket w) -> files w' = files w.
Proof.
  intros Hup Hdel Hun. apply upload_cases in Hup.
  destruct Hup as [Hf _|rc rid fn ct data t sk b c _ _ _ Hb _ _ Hsk [(rows & tx & _ & _ & Hr & _)|(_ & Htab & Hbk)]]; [done | done|].
  unfold files. rewrite Htab, Hb. f_equal. specialize (Hun _ _ _ _ _ Hsk). rewrite Hb in Hun. cbn in Hun.
  destruct Hbk as [[_ [Hd|Hd]]| ->]; [rewrite Hdel in Hd; by destruct Hd | done|]. f_equal. by apply delete_insert_id.
Qed.
End Files.

(** ** Examples *)

#[local] Existing Instance TestUuid.
#[local] Existing Instance test_Cache.

Definition no_file_faults : file_faults := mkFileFaults None None None None None.

Definition file_world : FileWorld (C := test_cache) (A := AuditTable) := mkFileWorld (test_world test_db) {["attachments" := []]} (Some ∅).

Definition invoice : upload := FilePart "invoice.pdf" "application/pdf" (Ok "bytes").

Definition attached : result exit FileAnswer * FileWorld (C := test_cache) (A := AuditTable) :=
  uploadAttachment test_service ∅ no_file_faults ("obj1" : @uuid TestUuid) ("att1" : @uuid TestUuid) 7 (inr test_admin) "shop.order" (Some order1) invoice file_world.

Definition attached_record : AttachmentRecord :=
  mkAttachment ("att1" : @uuid TestUuid) tenant1 "shop.order" order1 "invoice.pdf" "shop.order/uuid-o1/uuid-obj1/invoice.pdf" 5 (Some "application/pdf")
    (Some ("u1" : @uuid TestUuid)) 7.

Lemma attached_ok : fst attached = Ok (AttachmentCreated attached_record).
Proof. vm_compute. reflexivity. Qed.

Lemma attached_eq : attached = (Ok (AttachmentCreated attached_record), snd attached).
Proof. rewrite <- attached_ok. apply surjective_pairing. Qed.


Definition read_check : result exit unit * World (C := test_cache) (A := AuditTable) :=
  CheckRecordPermission test_service "shop.order" order1 ActionRead test_admin (fw_crud (snd attached)).

Lemma read_check_ok : read_check = (Ok tt, snd read_check).
Proof. replace (Ok tt) with (fst read_check) by (vm_compute; reflexivity). apply surjective_pairing. Qed.

Lemma uploaded_file_downloads_witness :
  exists w'', downloadAttachment test_service ∅ no_file_faults (inr test_admin) "shop.order" (Some order1) (Some (at_ID attached_record)) (snd attached)
    = (Ok (Download "application/pdf" "invoice.pdf" "bytes"), w'') /\ files w'' = files (snd attached).
Proof.
  refine (uploaded_file_downloads test_service ∅ no_file_faults no_file_faults ("obj1" : @uuid TestUuid) ("att1" : @uuid TestUuid) 7 test_admin test_admin
    "shop.order" order1 "invoice.pdf" "application/pdf" "bytes" attached_record file_world (snd attached) (snd read_check) attached_eq _ eq_refl read_check_ok eq_refl eq_refl).
  intros rows Hrows. change (fw_tables file_world) with ({["attachments" := []]} : gmap string (list AttachmentRecord)) in Hrows.
  apply lookup_singleton_Some in Hrows as [_ <-]. apply not_elem_of_nil.
Defined.

Definition broken_commit : file_faults := mkFileFaults None None None None (Some "connection lost").

Definition not_attached : result exit FileAnswer * FileWorld (C := test_cache) (A := AuditTable) :=
  uploadAttachment test_service ∅ broken_commit ("obj1" : @uuid TestUuid) ("att1" : @uuid TestUuid) 7 (inr test_admin) "shop.order" (Some order1) invoice file_world.

Lemma not_attached_eq : not_attached = (Err (Failed "connection lost"), snd not_attached).
Proof. replace (Err (Failed "connection lost")) with (fst not_attached) by (vm_compute; reflexivity). apply surjective_pairing. Qed.

Lemma failed_upload_leaves_nothing_witness : files (snd not_attached) = files file_world.
Proof.
  refine (failed_upload_leaves_nothing test_service ∅ broken_commit ("obj1" : @uuid TestUuid) ("att1" : @uuid TestUuid) 7 (inr test_admin)
    "shop.order" (Some order1) invoice _ file_world (snd not_attached) not_attached_eq eq_refl _).
  intros t entity rid fn sk _. exact (lookup_empty (M := gmap string) sk).
Defined.
