(* ===== verification/Dashboards.v ===== *)
(** Dashboards (src/go/dashboards/dashboards.go, src/go/httpserver/routes_dashboards.go),
    preferences (src/go/peripherals/preferences.go, routes_preferences.go) and the
    history of a record (routes_workflow_events.go, routes_audit_events.go).

    The two tables are a list of rows with one row per tenant and owner, and a map by
    tenant and user. A transaction's write is applied when it is committed;
    [commit_fault] is the error of the commit, if it fails. What Postgres keeps of a
    document in a jsonb column is the parameter [jsonb]. *)
From S2P Require Import Prelude GoStrings GoText Json Floats Numbers Condition Context Uuid Evaluate Snapshot PermissionService Users PolicyStore Metadata Schema Router Payload Workflow AuditTrail Sql ConditionSql Jql Planner Records Times Crud CrudOutcomes CrudProps CrudState CrudReads Aggregate Authn Cron Outbound CronScheduler CronRoutes Wire Grpc GrpcProps RestRecords Config Attachments.

Open Scope string_scope.
Open Scope list_scope.

Section Dashboards.
Context `{UuidLib}.
Variable jsonb : json -> option json.
Variable fresh : nat -> uuid.

(** [dc_Owner] is [None] for the default of the tenant. *)
Record DashboardConfig : Type := mkDashboard {
  dc_ID : uuid;
  dc_TenantID : uuid;
  dc_Owner : option uuid;
  dc_Layout : json;
  dc_UpdatedAt : Z;
  dc_UpdatedBy : option uuid
}.

Definition owned_by (tenantID : uuid) (owner : option uuid) (c : DashboardConfig) : bool :=
  bool_decide (dc_TenantID c = tenantID) && bool_decide (dc_Owner c = owner).

Definition GetPersonal (rows : list DashboardConfig) (tenantID userID : uuid) : option DashboardConfig :=
  List.find (owned_by tenantID (Some userID)) rows.

Definition GetTenantDefault (rows : list DashboardConfig) (tenantID : uuid) : option DashboardConfig :=
  List.find (owned_by tenantID None) rows.

Definition GetEffectiveDashboard (rows : list DashboardConfig) (tenantID userID : uuid) : option DashboardConfig :=
  match GetPersonal rows tenantID userID with
  | Some personal => Some personal
  | None => GetTenantDefault rows tenantID
  end.

Definition null_layout : error := "null value in column layout violates not-null constraint".

(** ON CONFLICT (tenant_id, owner_user_id) DO UPDATE; the index takes two default rows
    of a tenant for the same. *)
Definition upsert (now : Z) (rows : list DashboardConfig) (tenantID : uuid) (owner : option uuid) (layout : option json) (updatedBy : uuid)
  : result error (DashboardConfig * list DashboardConfig) :=
  match layout with
  | None => Err null_layout
  | Some l =>
    match jsonb l with
    | None => Err "invalid input syntax for type json"
    | Some stored =>
      match List.find (owned_by tenantID owner) rows with
      | Some old =>
        let c := mkDashboard (dc_ID old) (dc_TenantID old) (dc_Owner old) stored now (Some updatedBy) in
        Ok (c, map (fun r => if owned_by tenantID owner r then c else r) rows)
      | None =>
        let c := mkDashboard (fresh (length rows)) tenantID owner stored now (Some updatedBy) in
        Ok (c, rows ++ [c])
      end
    end
  end.

Definition UpsertPersonal (now : Z) (rows : list DashboardConfig) (tenantID userID : uuid) (layout : option json) :=
  upsert now rows tenantID (Some userID) layout userID.

Definition UpsertTenantDefault (now : Z) (rows : list DashboardConfig) (tenantID : uuid) (layout : option json) (updatedBy : uuid) :=
  upsert now rows tenantID None layout updatedBy.

Definition dashboardConfigJSON (c : option DashboardConfig) : json :=
  match c with
  | None => JNull
  | Some c => JObj [("id", uuid_json (dc_ID c)); ("layout", dc_Layout c); ("ownerUserId", opt_uuid_json (dc_Owner c));
                    ("updatedAt", JStr (format_time (dc_UpdatedAt c)))]
  end.

(** ** Preferences (preferences.go) *)

Definition DefaultLocale : string := "en".

Definition GetLocale (prefs : gmap (uuid * uuid) string) (tenantID userID : uuid) : string :=
  default DefaultLocale (prefs !! (tenantID, userID)).

Definition SetLocale (prefs : gmap (uuid * uuid) string) (tenantID userID : uuid) (locale : string) : gmap (uuid * uuid) string :=
  <[(tenantID, userID) := locale]> prefs.

Definition supportedLocales : list string := ["en"; "vi"].

Definition isSupportedLocale (locale : string) : bool := existsb (fun l => String.eqb l locale) supportedLocales.
End Dashboards.

(** saveLayoutBody: a missing layout is a nil RawMessage. *)
Definition layout_step (st : option json * bool) (kv : string * json) : option json * bool :=
  if key_matches "layout" kv.1 then (Some kv.2, st.2) else st.

Definition unmarshal_layout (body : option json) : option (option json) := unmarshal_struct None layout_step body.

(** updatePreferencesBody *)
Definition locale_step (st : string * bool) (kv : string * json) : string * bool :=
  if key_matches "locale" kv.1 then into_string st kv.2 else st.

Definition unmarshal_locale (body : option json) : option string := unmarshal_struct "" locale_step body.

(** ** The routes *)

Section Routes.
Context `{UuidLib} `{!Postgres} {St C A : Type} `{!PolicyStore St} `{!Cache C} `{!AuditStore A}.
Variable s : CrudService (St := St).
Variable jsonb : json -> option json.
Variable fresh : nat -> uuid.
Variable commit_fault : option error.

Record UserWorld : Type := mkUserWorld {
  uw_crud : World (C := C) (A := A);
  uw_dashboards : list DashboardConfig;
  uw_preferences : gmap (uuid * uuid) string
}.

Inductive UserAnswer : Type :=
| DashboardData (config : option DashboardConfig)
| LocaleData (locale : string)
| WorkflowHistory (events : list WorkflowEvent)
| AuditHistory (events : list AuditRow).

Notation UserHandler := (Handler UserWorld).

Definition no_user {B} : UserHandler B := refuse (ResultErr 401 "unauthorized").
Definition bad_body {B} : UserHandler B := refuse (ResultErrWithMessage 400 "validation_failed" "Invalid request body.").

Definition user_uuid (rc : RequestContext) : UserHandler uuid :=
  match uuid_Parse (rc_UserID rc) with Some u => hret u | None => no_user end.

Definition decoded {B} (body : option B) : UserHandler B := match body with Some b => hret b | None => bad_body end.

Definition read_user {B} (f : UserWorld -> B) : UserHandler B := fun w => (Ok (f w), w).

Definition save_dashboards (rows : list DashboardConfig) : UserHandler unit := fun w =>
  match commit_fault with
  | Some e => (Err (Failed e), w)
  | None => (Ok tt, mkUserWorld (uw_crud w) rows (uw_preferences w))
  end.

Definition getMyDashboard (auth : authError + RequestContext) : UserHandler UserAnswer :=
  let* rc := caller_of auth in
  let* tenantID := hlift (ScopedTenant rc) in
  let* userID := user_uuid rc in
  let* _ := begin_file s tenantID in
  let* rows := read_user uw_dashboards in
  hret (DashboardData (GetEffectiveDashboard rows tenantID userID)).

Definition saveMyDashboard (now : Z) (auth : authError + RequestContext) (body : option json) : UserHandler UserAnswer :=
  let* rc := caller_of auth in
  let* layout := decoded (unmarshal_layout body) in
  let* tenantID := hlift (ScopedTenant rc) in
  let* userID := user_uuid rc in
  let* _ := begin_file s tenantID in
  let* rows := read_user uw_dashboards in
  let* (config, rows') := hlift (UpsertPersonal jsonb fresh now rows tenantID userID layout) in
  let* _ := save_dashboards rows' in
  hret (DashboardData (Some config)).

Definition getTenantDefaultDashboard (auth : authError + RequestContext) : UserHandler UserAnswer :=
  let* rc := caller_of auth in
  let* tenantID := hlift (ScopedTenant rc) in
  let* _ := begin_file s tenantID in
  let* rows := read_user uw_dashboards in
  hret (DashboardData (GetTenantDefault rows tenantID)).

(** [admin] is the outcome of requireAdmin. *)
Definition saveTenantDefaultDashboard (now : Z) (admin : authError + RequestContext) (body : option json) : UserHandler UserAnswer :=
  let* rc := caller_of admin in
  let* layout := decoded (unmarshal_layout body) in
  let* tenantID := hlift (ScopedTenant rc) in
  let* userID := user_uuid rc in
  let* _ := begin_file s tenantID in
  let* rows := read_user uw_dashboards in
  let* (config, rows') := hlift (UpsertTenantDefault jsonb fresh now rows tenantID layout userID) in
  let* _ := save_dashboards rows' in
  hret (DashboardData (Some config)).

(** A user that is no identifier is an internal error here. *)
Definition getPreferences (auth : authError + RequestContext) : UserHandler UserAnswer :=
  let* rc := caller_of auth in
  let* tenantID := hlift (ScopedTenant rc) in
  let* userID := hlift (parse_uuid (rc_UserID rc)) in
  let* prefs := read_user uw_preferences in
  hret (LocaleData (GetLocale prefs tenantID userID)).

(** [statement_fault]: the error of the statement, if it fails. *)
Definition updatePreferences (statement_fault : option error) (auth : authError + RequestContext) (body : option json) : UserHandler UserAnswer :=
  let* rc := caller_of auth in
  let* locale := decoded (unmarshal_locale body) in
  let* _ := require (isSupportedLocale locale) (ResultErrWithMessage 400 "validation_failed" "`locale` must be one of: en, vi.") in
  let* tenantID := hlift (ScopedTenant rc) in
  let* userID := hlift (parse_uuid (rc_UserID rc)) in
  match statement_fault with
  | Some e => hfail e
  | None => fun w => (Ok (LocaleData locale),
                      mkUserWorld (uw_crud w) (uw_dashboards w) (SetLocale (uw_preferences w) tenantID userID locale))
  end.

Definition with_crud {B} (m : Handler World B) : UserHandler B := fun w =>
  let '(r, c) := m (uw_crud w) in (r, mkUserWorld c (uw_dashboards w) (uw_preferences w)).

Definition listWorkflowEvents (auth : authError + RequestContext) (entity : string) (recordID : option uuid) : UserHandler UserAnswer :=
  let* rc := caller_of auth in
  let* recordID := path_id recordID in
  let* _ := with_crud (CheckRecordPermission s entity recordID ActionRead rc) in
  let* tenantID := hlift (ScopedTenant rc) in
  let* _ := begin_file s tenantID in
  let* w := read_user uw_crud in
  hret (WorkflowHistory (ListEvents (db_events (w_db w)) tenantID entity recordID)).

Definition listRecordAuditEvents (auth : authError + RequestContext) (entity : string) (recordID : option uuid) : UserHandler UserAnswer :=
  let* rc := caller_of auth in
  let* recordID := path_id recordID in
  let* events := with_crud (ListAuditEvents s entity recordID rc) in
  hret (AuditHistory events).

(** mountDashboards, mountPreferences, mountWorkflowEvents, mountAuditEvents. *)
Inductive user_request : Type :=
| GetMine
| PutMine (now : Z) (body : option json)
| GetDefault
| PutDefault (now : Z) (body : option json)
| GetPrefs
| PutPrefs (fault : option error) (body : option json)
| GetHistory (entity : string) (recordID : option uuid)
| GetAudit (entity : string) (recordID : option uuid).

(** [auth] and [admin] are the outcomes of requireAuth and requireAdmin. *)
Definition serve_user (auth admin : authError + RequestContext) (q : user_request) : UserHandler UserAnswer :=
  match q with
  | GetMine => getMyDashboard auth
  | PutMine now body => saveMyDashboard now auth body
  | GetDefault => getTenantDefaultDashboard auth
  | PutDefault now body => saveTenantDefaultDashboard now admin body
  | GetPrefs => getPreferences auth
  | PutPrefs fault body => updatePreferences fault auth body
  | GetHistory entity recordID => listWorkflowEvents auth entity recordID
  | GetAudit entity recordID => listRecordAuditEvents auth entity recordID
  end.
End Routes.

(** ** Theorems

    What the routes of a user guarantee: a saved dashboard is served to its owner and
    changes nobody else's, a language is always a supported one; and that the history
    of a record shows a state its reader may not see. *)

Section Rows.
Context {UL : UuidLib}.
Variable jsonb : json -> option json.
Variable fresh : nat -> uuid.

Lemma owned_by_true t o c : owned_by t o c = true <-> dc_TenantID c = t /\ dc_Owner c = o.
Proof. unfold owned_by. by rewrite andb_true_iff, !bool_decide_eq_true. Qed.

Lemma find_map_owned t o c rows :
  dc_TenantID c = t -> dc_Owner c = o -> is_Some (List.find (owned_by t o) rows) ->
  List.find (owned_by t o) (map (fun r => if owned_by t o r then c else r) rows) = Some c.
Proof.
  intros Ht Ho. assert (Hc : owned_by t o c = true) by by apply owned_by_true.
  induction rows as [|r rows IH]; simpl; [by intros []|]. destruct (owned_by t o r) eqn:E; [by rewrite Hc|]. rewrite E. exact IH.
Qed.

Lemma find_map_other t o t' o' c rows :
  dc_TenantID c = t -> dc_Owner c = o -> (t', o') <> (t, o) ->
  List.find (owned_by t' o') (map (fun r => if owned_by t o r then c else r) rows) = List.find (owned_by t' o') rows.
Proof.
  intros Ht Ho Hne. induction rows as [|r rows IH]; simpl; [done|]. destruct (owned_by t o r) eqn:E; [|by rewrite IH].
  apply owned_by_true in E as [Er Eo].
  assert (Hc : forall x, dc_TenantID x = t -> dc_Owner x = o -> owned_by t' o' x = false).
  { intros x Hx Hxo. apply not_true_is_false. intros [H1 H2]%owned_by_true. apply Hne. congruence. }
  by rewrite !Hc.
Qed.

Lemma find_app_new {X} (p : X -> bool) rows x : List.find p (rows ++ [x]) = match List.find p rows with Some y => Some y | None => if p x then Some x else None end.
Proof. induction rows as [|r rows IH]; simpl; [done|]. by destruct (p r). Qed.

(** A write is read back by its key, and no other key is touched. *)
Lemma upsert_spec now rows t o layout by_ c rows' :
  upsert jsonb fresh now rows t o layout by_ = Ok (c, rows') ->
  List.find (owned_by t o) rows' = Some c /\ (layout ≫= jsonb) = Some (dc_Layout c) /\
  (forall t' o', (t', o') <> (t, o) -> List.find (owned_by t' o') rows' = List.find (owned_by t' o') rows).
Proof.
  unfold upsert. destruct layout as [l|]; [|done]. simpl. destruct (jsonb l) as [stored|]; [|done].
  destruct (List.find (owned_by t o) rows) as [old|] eqn:Ef; intros [= <- <-].
  - pose proof (find_some _ _ Ef) as [_ Hold]. apply owned_by_true in Hold as [Ht Ho]. split_and!; [|done|].
    + apply find_map_owned; [done | done | by eexists].
    + intros t' o' Hne. by apply find_map_other.
  - split_and!; [|done|].
    + rewrite find_app_new, Ef. by rewrite (proj2 (owned_by_true t o _)).
    + intros t' o' Hne. rewrite find_app_new. destruct (List.find (owned_by t' o') rows); [done|].
      destruct (owned_by t' o' _) eqn:E; [|done]. apply owned_by_true in E as [H1 H2]. simpl in *. congruence.
Qed.
End Rows.

Section Served.
Context {UL : UuidLib} `{!Postgres} {St C A : Type} `{!PolicyStore St} `{!Cache C} `{!AuditStore A}.
Variable s : CrudService (St := St).
Variable jsonb : json -> option json.
Variable fresh : nat -> uuid.
Notation UW := (UserWorld (C := C) (A := A)).

(** A saved personal dashboard is what its owner gets, and what everybody else gets is
    what they got before: other users, other tenants, and the default. *)
Lemma saved_dashboard_is_served now fault rc body (w w' : UW) a :
  saveMyDashboard s jsonb fresh fault now (inr rc) body w = (Ok a, w') ->
  exists t u c, ScopedTenant rc = Ok t /\ uuid_Parse (rc_UserID rc) = Some u /\ a = DashboardData (Some c) /\
    (exists layout, unmarshal_layout body = Some (Some layout) /\ jsonb layout = Some (dc_Layout c)) /\
    GetEffectiveDashboard (uw_dashboards w') t u = Some c /\
    (forall t' u', (t', u') <> (t, u) -> GetEffectiveDashboard (uw_dashboards w') t' u' = GetEffectiveDashboard (uw_dashboards w) t' u') /\
    (forall t', GetTenantDefault (uw_dashboards w') t' = GetTenantDefault (uw_dashboards w) t').
Proof.
  unfold saveMyDashboard. unfold hbind at 1. cbn [caller_of hret]. unfold hbind at 1, decoded.
  destruct (unmarshal_layout body) as [layout|] eqn:El; [|done]. cbn [hret]. unfold hbind at 1, hlift at 1.
  destruct (ScopedTenant rc) as [t| |] eqn:Et; [|done|done]. unfold hbind at 1, user_uuid.
  destruct (uuid_Parse (rc_UserID rc)) as [u|] eqn:Eu; [|done]. cbn [hret]. unfold hbind at 1, begin_file.
  destruct (Begin (cs_router s) t) as [tx|e|]; [|destruct (routerUnavailable e); done|done]. cbn [hret].
  unfold hbind at 1, read_user. unfold hbind at 1, hlift, UpsertPersonal.
  destruct (upsert jsonb fresh now (uw_dashboards w) t (Some u) layout u) as [[c rows']| |] eqn:Eup; [|done|done].
  unfold hbind, save_dashboards. destruct fault; [done|]. intros [= <- <-].
  destruct (upsert_spec jsonb fresh _ _ _ _ _ _ _ _ Eup) as (Hfind & Hl & Hothers). exists t, u, c. split_and!; try done.
  - destruct layout as [l|]; [|done]. by exists l.
  - unfold GetEffectiveDashboard, GetPersonal. cbn [uw_dashboards]. by rewrite Hfind.
  - intros t' u' Hne. unfold GetEffectiveDashboard, GetPersonal, GetTenantDefault. cbn [uw_dashboards]. rewrite !Hothers; naive_solver.
  - intros t'. unfold GetTenantDefault. cbn [uw_dashboards]. apply Hothers. naive_solver.
Qed.

(** A body without a layout is an internal error, not a refusal. *)
Lemma missing_layout_fails now rc t u tx (w : UW) :
  ScopedTenant rc = Ok t -> uuid_Parse (rc_UserID rc) = Some u -> Begin (cs_router s) t = Ok tx ->
  saveMyDashboard s jsonb fresh None now (inr rc) (Some (JObj [])) w = (Err (Failed null_layout), w).
Proof.
  intros Ht Hu Hb. unfold saveMyDashboard, hbind, caller_of, decoded, hret, hlift, user_uuid, begin_file, read_user. cbn.
  by rewrite Ht, Hu, Hb.
Qed.

Definition locales_ok (w : UW) : Prop := map_Forall (fun _ l => l ∈ supportedLocales) (uw_preferences w).

Lemma updatePreferences_ok fault auth body (w : UW) :
  locales_ok w -> locales_ok (updatePreferences fault auth body w).2.
Proof.
  intros Hw. unfold updatePreferences, hbind, caller_of, decoded, hlift, require.
  destruct auth as [[]|rc]; try done. destruct (unmarshal_locale body) as [locale|]; [|done]. cbn [hret].
  destruct (isSupportedLocale locale) eqn:El; [|done]. cbn [hret]. destruct (ScopedTenant rc); try done.
  destruct (parse_uuid (rc_UserID rc)); try done. destruct fault; [done|]. unfold locales_ok, SetLocale. cbn.
  apply map_Forall_insert_2; [|done]. unfold isSupportedLocale in El. apply existsb_exists in El as (x & Hx & He).
  apply String.eqb_eq in He as <-. by apply list_elem_of_In.
Qed.
End Served.

(** ** A hidden state is visible in the history *)

#[local] Existing Instance TestUuid.
#[local] Existing Instance test_Cache.

(** Clerks may read a deal; its status only auditors may. *)
Definition hidden_store : PostgresPolicyStore :=
  mkPgStore [mkColumns _ "p0" "t1" "shop.deal" "read" None "context" (Some (JArr [JStr "clerk"])) None None "allow";
             mkColumns _ "p1" "t1" "shop.deal" "read" (Some "status") "context" (Some (JArr [JStr "auditor"])) None None "allow"]
    (fun _ => None) test_fresh.

Definition hidden_service : CrudService (St := PostgresPolicyStore) :=
  mkCrudService test_router (mkRegistry (<["shop.customer" := customer_entity]> {[ "shop.deal" := deal_entity ]}) ∅ ∅)
    hidden_store None None 0.

Definition shipped : WorkflowEvent := @mkEvent TestUuid "e1" tenant1 "shop.deal" deal1 "ship" "draft" "done" None 5.

Definition history_world : UserWorld (C := test_cache) (A := AuditTable) :=
  mkUserWorld (test_world (mkDatabase (db_tables deal_db) [shipped] [])) [] ∅.

(** What the record itself shows of the state. *)
Definition shown_state (r : result exit GetResult) : option (option string * option json) :=
  match r with Ok g => Some (rd_Status (gr_Record g), rd_Data (gr_Record g) !! "status") | _ => None end.

(** A caller whose policies hide the field of the workflow gets the record without its
    state, and its history with every state it was in. *)
Lemma history_shows_hidden_state :
  shown_state (Get hidden_service "shop.deal" deal1 clerk (uw_crud history_world)).1 = Some (None, None) /\
  (listWorkflowEvents hidden_service (inr clerk) "shop.deal" (Some deal1) history_world).1 = Ok (WorkflowHistory [shipped]).
Proof. split; vm_compute; reflexivity. Qed.
