(* ===== verification/Migrate.v ===== *)
(** The migration runner (src/go/dbmigrate/migrate.go): the files of a directory, and one
    run of the files a database has not seen.

    A database is its tracking table and the rest of it, a value of any type; [exec] is
    what Postgres does with the text of a file. sort.Slice and the checksum are
    interfaces. Everything a run asks of the database can fail, and a failed commit may
    have been applied or not. *)
From S2P Require Import Prelude GoStrings GoText Json Floats Numbers Condition Context Uuid Evaluate Snapshot PermissionService.

Open Scope string_scope.
Open Scope list_scope.

(** ** The files (migrate.go, LoadMigrations) *)

Record migration : Type := mkMigration {
  m_Version : Z;
  m_Description : string;
  m_Filename : string;
  m_SQL : string;
  m_Checksum : string
}.

(** An entry of the directory; [content] is what ReadFile gives. *)
Record dir_entry : Type := mkEntry {
  de_Name : string;
  de_IsDir : bool;
  de_content : result error string
}.

Definition newline : ascii := "010".

(** ^(\d+)_(.+)\.sql$: the digits and the words. *)
Definition filenamePattern (name : string) : option (list N * string) :=
  match take_digits name with
  | ([], _) => None
  | (ds, rest) =>
    match CutPrefix rest "_" with
    | None => None
    | Some words =>
      match CutSuffix words ".sql" with
      | None | Some EmptyString => None
      | Some d => if ContainsByte d newline then None else Some (ds, d)
      end
    end
  end.

Definition invalid_version (name : string) : error := "migration " +:+ name +:+ ": invalid version prefix".

(** [sort_slice] is sort.Slice by version, which may exchange equal elements;
    [sha256] is the checksum. *)
Class MigrationLib := {
  sort_slice : list migration -> list migration;
  sha256 : string -> string
}.

Class MigrationLaws `{!MigrationLib} : Prop := {
  sort_slice_perm : forall l, sort_slice l ≡ₚ l;
  sort_slice_sorted : forall l, StronglySorted (key_le m_Version) (sort_slice l)
}.

Section Load.
Context `{!MigrationLib}.

(** The loop of LoadMigrations. *)
Fixpoint load_entries (entries : list dir_entry) : result error (list migration) :=
  match entries with
  | [] => Ok []
  | e :: rest =>
    if de_IsDir e then load_entries rest
    else match filenamePattern (de_Name e) with
         | None => load_entries rest
         | Some (ds, words) =>
           let version := Z.of_N (digits_value ds) in
           if in_bits 64 version then
             let! content := de_content e in
             let! out := load_entries rest in
             Ok (mkMigration version (ReplaceByte words "_" " ") (de_Name e) content (sha256 content) :: out)
           else Err (invalid_version (de_Name e))
         end
  end.

Definition LoadMigrations (dir : result error (list dir_entry)) : result error (list migration) :=
  let! entries := dir in
  let! out := load_entries entries in
  Ok (sort_slice out).
End Load.

(** ** A run (migrate.go, Run) *)

Record tracking_row : Type := mkTracking { tr_version : Z; tr_description : string; tr_checksum : string }.

#[export] Instance tracking_row_eq_dec : EqDecision tracking_row.
Proof. solve_decision. Defined.

Definition sqlxPlaceholderTableDDL : string :=
  "CREATE TABLE IF NOT EXISTS public._sqlx_migrations (version BIGINT PRIMARY KEY)".

(** A failed commit says nothing of whether it was applied. *)
Inductive commit_outcome : Type := Committed | CommitFailed (e : error) (applied : bool).

(** What fails in one run; the last four by the version of the file. *)
Record run_faults : Type := mkRunFaults {
  rf_ddl : option error;
  rf_placeholder : option error;
  rf_query : option error;
  rf_begin : Z -> option error;
  rf_exec : Z -> option error;
  rf_insert : Z -> option error;
  rf_commit : Z -> commit_outcome
}.

Definition no_run_faults : run_faults :=
  mkRunFaults None None None (fun _ => None) (fun _ => None) (fun _ => None) (fun _ => Committed).

Definition duplicate_version : error := "duplicate key value violates unique constraint metap_go_migrations_pkey".
Definition edited (filename : string) : error :=
  "migration " +:+ filename +:+ ": checksum mismatch against the already-applied version — the file was edited after it was applied".
Definition applying (filename : string) (e : error) : error := "applying migration " +:+ filename +:+ ": " +:+ e.

Section Run.
Context `{!MigrationLib} {D : Type}.
Variable exec : string -> D -> result error D.

(** [mg_rows] is [None] while there is no tracking table. *)
Record MigratedDb : Type := mkMigrated { mg_rows : option (list tracking_row); mg_data : D }.

Definition tracked (db : MigratedDb) : list tracking_row := default [] (mg_rows db).

(** The map of the applied versions: a later row would replace an earlier one. *)
Definition applied_map (rows : list tracking_row) : gmap Z string :=
  insert_all tr_version tr_checksum rows ∅.

Definition row_of (m : migration) : tracking_row := mkTracking (m_Version m) (m_Description m) (m_Checksum m).

(** The statements of one file, in their transaction. *)
Definition apply_statements (f : run_faults) (m : migration) (db : MigratedDb) : result error MigratedDb :=
  match rf_exec f (m_Version m) with
  | Some e => Err (applying (m_Filename m) e)
  | None =>
    match exec (m_SQL m) (mg_data db) with
    | Err e => Err (applying (m_Filename m) e)
    | Panic => Panic
    | Ok d =>
      match rf_insert f (m_Version m) with
      | Some e => Err e
      | None => if existsb (fun r => Z.eqb (tr_version r) (m_Version m)) (tracked db) then Err duplicate_version
                else Ok (mkMigrated (Some (tracked db ++ [row_of m])) d)
      end
    end
  end.

(** One file: begin, run, record, commit. *)
Definition apply_migration (f : run_faults) (m : migration) (db : MigratedDb) : result error unit * MigratedDb :=
  match rf_begin f (m_Version m) with
  | Some e => (Err e, db)
  | None =>
    match apply_statements f m db with
    | Err e => (Err e, db)
    | Panic => (Panic, db)
    | Ok db' =>
      match rf_commit f (m_Version m) with
      | Committed => (Ok tt, db')
      | CommitFailed e applied => (Err e, if applied then db' else db)
      end
    end
  end.

(** The loop over the files; [applied] was read before it. *)
Fixpoint run_files (f : run_faults) (applied : gmap Z string) (ms : list migration) (done_ : list Z) (db : MigratedDb)
    : result error (list Z) * MigratedDb :=
  match ms with
  | [] => (Ok done_, db)
  | m :: rest =>
    match applied !! m_Version m with
    | Some existing =>
      if String.eqb existing (m_Checksum m) then run_files f applied rest done_ db else (Err (edited (m_Filename m)), db)
    | None =>
      match apply_migration f m db with
      | (Ok _, db') => run_files f applied rest (done_ ++ [m_Version m]) db'
      | (Err e, db') => (Err e, db')
      | (Panic, db') => (Panic, db')
      end
    end
  end.

Definition Run (f : run_faults) (dir : result error (list dir_entry)) (db : MigratedDb) : result error (list Z) * MigratedDb :=
  match LoadMigrations dir with
  | Err e => (Err e, db)
  | Panic => (Panic, db)
  | Ok ms =>
    match rf_ddl f with
    | Some e => (Err e, db)
    | None =>
      let db1 := mkMigrated (Some (tracked db)) (mg_data db) in
      match rf_placeholder f with
      | Some e => (Err e, db1)
      | None =>
        match exec sqlxPlaceholderTableDDL (mg_data db1) with
        | Err e => (Err e, db1)
        | Panic => (Panic, db1)
        | Ok d =>
          let db2 := mkMigrated (mg_rows db1) d in
          match rf_query f with
          | Some e => (Err e, db2)
          | None => run_files f (applied_map (tracked db2)) ms [] db2
          end
        end
      end
    end
  end.

(** Runs one after the other. *)
Fixpoint runs (dir : result error (list dir_entry)) (fs : list run_faults) (db : MigratedDb) : MigratedDb :=
  match fs with
  | [] => db
  | f :: rest => runs dir rest (Run f dir db).2
  end.
End Run.

(** ** Theorems

    Every migration file reaches a database once and in the order of the versions,
    wherever runs stop; the next run that meets no failure finishes the rest; and a file
    that was edited after it was applied stops the run. *)

Section Sorted.
Context `{ML : MigrationLib} `{!MigrationLaws}.

Lemma LoadMigrations_sorted dir ms : LoadMigrations dir = Ok ms -> StronglySorted (key_le m_Version) ms.
Proof.
  unfold LoadMigrations. destruct dir as [entries| |]; [|done|done]. simpl.
  destruct (load_entries entries); [|done|done]. intros [= <-]. apply sort_slice_sorted.
Qed.

Lemma sorted_versions ms :
  StronglySorted (key_le m_Version) ms -> NoDup (map m_Version ms) -> StronglySorted Z.lt (map m_Version ms).
Proof.
  induction ms as [|m ms IH]; simpl; [by constructor|]. intros [Hs Hm]%StronglySorted_inv [Hn Hd]%NoDup_cons.
  constructor; [by apply IH|]. apply Forall_forall. intros v Hv. pose proof Hv as (x & -> & Hx)%list_elem_of_fmap.
  rewrite Forall_forall in Hm. specialize (Hm x Hx). unfold key_le in Hm.
  destruct (decide (m_Version m = m_Version x)) as [e|]; [|lia]. rewrite e in Hn. done.
Qed.
End Sorted.

(** ** What reached the database *)

Section History.
Context `{ML : MigrationLib} {D : Type}.
Variable exec : string -> D -> result error D.

(** The statements of these files were executed, once each and in this order, with
    nothing between them but the placeholder of the other tool. *)
Inductive history (d0 : D) : list migration -> D -> Prop :=
| history_start : history d0 [] d0
| history_placeholder ms d d' : history d0 ms d -> exec sqlxPlaceholderTableDDL d = Ok d' -> history d0 ms d'
| history_file ms m d d' : history d0 ms d -> exec (m_SQL m) d = Ok d' -> history d0 (ms ++ [m]) d'.

(** The database has had exactly these files. *)
Definition has_had (d0 : D) (ms : list migration) (db : MigratedDb) : Prop :=
  tracked db = map row_of ms /\ history d0 ms (mg_data db).

Lemma applied_none rows v : v ∉ map tr_version rows -> applied_map rows !! v = None.
Proof. intros Hv. unfold applied_map. rewrite insert_all_out by done. apply lookup_empty. Qed.

Lemma row_versions ms : map tr_version (map row_of ms) = map m_Version ms.
Proof. by rewrite map_map. Qed.

(** The files already recorded are passed over. *)
Lemma run_files_skip f applied l1 l2 out db :
  (forall m, m ∈ l1 -> applied !! m_Version m = Some (m_Checksum m)) ->
  run_files exec f applied (l1 ++ l2) out db = run_files exec f applied l2 out db.
Proof.
  intros Ha. induction l1 as [|m l1 IH]; [done|]. simpl. rewrite Ha by apply list_elem_of_here. rewrite String.eqb_refl.
  apply IH. intros x Hx. by apply Ha, list_elem_of_further.
Qed.

(** One file is applied whole or not at all. *)
Lemma apply_migration_spec f d0 before m db out :
  has_had d0 before db -> apply_migration exec f m db = out ->
  (has_had d0 (before ++ [m]) out.2 \/ (out.1 <> Ok tt /\ out.2 = db)) /\ (mg_rows db <> None -> mg_rows out.2 <> None).
Proof.
  intros [Hr Hh] <-. unfold apply_migration. destruct (rf_begin f _); [by auto|].
  unfold apply_statements. destruct (rf_exec f _); [by auto|]. destruct (exec (m_SQL m) (mg_data db)) as [d| |] eqn:Ee; [|by auto|by auto].
  destruct (rf_insert f _); [by auto|]. destruct (existsb _ _); [by auto|].
  assert (Hnew : has_had d0 (before ++ [m]) (mkMigrated (Some (tracked db ++ [row_of m])) d)).
  { split; [cbn; by rewrite Hr, map_app|]. by eapply history_file. }
  destruct (rf_commit f _) as [|e []]; simpl; auto.
Qed.

(** The files not recorded are applied in their order, up to where the run stops. *)
Lemma run_files_spec f applied ms before out db d0 r db' :
  (forall m, m ∈ ms -> applied !! m_Version m = None) -> has_had d0 before db ->
  run_files exec f applied ms out db = (r, db') ->
  exists j, has_had d0 (before ++ take j ms) db' /\ forall vs, r = Ok vs -> take j ms = ms /\ vs = out ++ map m_Version ms.
Proof.
  revert before out db. induction ms as [|m ms IH]; intros before out db Ha Hdb; simpl.
  - intros [= <- <-]. exists 0. rewrite app_nil_r. split; [done|]. intros vs [= <-]. by rewrite app_nil_r.
  - rewrite Ha by apply list_elem_of_here. destruct (apply_migration exec f m db) as [r1 db1] eqn:E1.
    destruct (apply_migration_spec f d0 before m db _ Hdb E1) as [[Hnew|[Hne Hsame]] _]; simpl in *.
    + destruct r1 as [[]| |].
      * intros Hrun. destruct (IH (before ++ [m]) (out ++ [m_Version m]) db1) as (j & Hj & Hok);
          [intros x Hx; by apply Ha, list_elem_of_further | done | done |].
        exists (S j). simpl. rewrite <- (assoc_L (++)) in Hj. split; [done|]. intros vs Hvs. destruct (Hok vs Hvs) as [Ht ->].
        by rewrite Ht, <- (assoc_L (++)).
      * intros [= <- <-]. exists 1. simpl. by rewrite take_0.
      * intros [= <- <-]. exists 1. simpl. by rewrite take_0.
    + subst db1. destruct r1 as [[]| |]; [done| |]; intros [= <- <-]; exists 0; by rewrite app_nil_r.
Qed.

Lemma take_prefix {A} k j (l : list A) : take k l ++ take j (drop k l) = take (k + j) l.
Proof. revert l. induction k as [|k IH]; intros [|a l]; simpl; [by rewrite take_nil | done | by rewrite take_nil|]. by rewrite IH. Qed.

Lemma applied_split ms k :
  NoDup (map m_Version ms) ->
  (forall m, m ∈ take k ms -> applied_map (map row_of (take k ms)) !! m_Version m = Some (m_Checksum m)) /\
  (forall m, m ∈ drop k ms -> applied_map (map row_of (take k ms)) !! m_Version m = None).
Proof.
  intros Hd. rewrite <- (take_drop k ms), map_app in Hd. apply NoDup_app in Hd as (Hd1 & Hdis & Hd2). split; intros m Hm.
  - apply (insert_all_in tr_version tr_checksum _ _ (row_of m)); [by rewrite row_versions | by apply list_elem_of_fmap_2].
  - apply applied_none. rewrite row_versions. intros Hin. apply (Hdis _ Hin). by apply list_elem_of_fmap_2.
Qed.

(** Where a run that goes on from the first [k] files leaves the database. *)
Definition goes_on (d0 : D) (ms : list migration) (k : nat) (r : result error (list Z)) (db' : MigratedDb) : Prop :=
  exists j, has_had d0 (take (k + j) ms) db' /\ forall vs, r = Ok vs -> take (k + j) ms = ms /\ vs = map m_Version (drop k ms).

Lemma stopped d0 ms k r db' : has_had d0 (take k ms) db' -> (forall vs, r <> Ok vs) -> goes_on d0 ms k r db'.
Proof. intros Hdb Hr. exists 0. rewrite Nat.add_0_r. split; [done|]. intros vs Hvs. by destruct (Hr vs). Qed.

(** A run goes on from where the last one stopped. *)
Lemma Run_spec f dir ms k d0 db :
  LoadMigrations dir = Ok ms -> NoDup (map m_Version ms) -> has_had d0 (take k ms) db ->
  goes_on d0 ms k (Run exec f dir db).1 (Run exec f dir db).2.
Proof.
  intros Hl Hd [Hr Hh]. unfold Run. rewrite Hl. destruct (rf_ddl f) as [e|]; [by apply stopped|].
  cbn [mg_data mg_rows]. assert (H1 : has_had d0 (take k ms) (mkMigrated (Some (tracked db)) (mg_data db))) by by split.
  destruct (rf_placeholder f) as [e|]; [by apply stopped|].
  destruct (exec sqlxPlaceholderTableDDL (mg_data db)) as [d| |] eqn:Ep; [|by apply stopped|by apply stopped].
  assert (H2 : has_had d0 (take k ms) (mkMigrated (Some (tracked db)) d)) by (split; [done|]; by eapply history_placeholder).
  destruct (rf_query f) as [e|]; [by apply stopped|].
  change (tracked (mkMigrated (Some (tracked db)) d)) with (tracked db). rewrite Hr in *. destruct (applied_split ms k Hd) as [Hin Hout].
  destruct (run_files exec f (applied_map (map row_of (take k ms))) ms [] (mkMigrated (Some (map row_of (take k ms))) d)) as [r db'] eqn:E.
  rewrite <- (take_drop k ms) in E at 2. rewrite run_files_skip in E by exact Hin.
  destruct (run_files_spec _ _ _ _ _ _ _ _ _ Hout H2 E) as (j & Hj & Hok).
  exists j. rewrite take_prefix in Hj. split; [done|]. intros vs Hvs. destruct (Hok vs Hvs) as [Ht ->]. split; [|done].
  by rewrite <- take_prefix, Ht, take_drop.
Qed.

Lemma runs_spec dir ms d0 fs db k :
  LoadMigrations dir = Ok ms -> NoDup (map m_Version ms) -> has_had d0 (take k ms) db ->
  exists j, has_had d0 (take j ms) (runs exec dir fs db).
Proof.
  intros Hl Hd. revert db k. induction fs as [|f fs IH]; intros db k Hdb; simpl; [by exists k|].
  destruct (Run_spec f dir ms k d0 db Hl Hd Hdb) as (j & Hj & _). by apply (IH _ (k + j)).
Qed.

(** No statement of the files fails on what the files before it leave. *)
Definition runnable (d0 : D) (ms : list migration) : Prop :=
  forall k d, history d0 (take k ms) d ->
    (exists d', exec sqlxPlaceholderTableDDL d = Ok d') /\ (forall m, ms !! k = Some m -> exists d', exec (m_SQL m) d = Ok d').

Lemma run_files_complete applied ms k d0 out db :
  NoDup (map m_Version ms) -> runnable d0 ms -> has_had d0 (take k ms) db ->
  (forall m, m ∈ drop k ms -> applied !! m_Version m = None) ->
  exists db', run_files exec no_run_faults applied (drop k ms) out db = (Ok (out ++ map m_Version (drop k ms)), db').
Proof.
  intros Hd Hrun. remember (drop k ms) as rest eqn:Er. revert k out db Er.
  induction rest as [|m rest IH]; intros k out db Er [Hr Hh] Ha; simpl; [by exists db; rewrite app_nil_r|].
  rewrite Ha by apply list_elem_of_here.
  assert (Hm : ms !! k = Some m) by (rewrite <- (Nat.add_0_r k), <- lookup_drop, <- Er; done).
  destruct (Hrun k (mg_data db) Hh) as [_ Hx]. destruct (Hx m Hm) as [d Hdm].
  unfold apply_migration, apply_statements. cbn [no_run_faults rf_begin rf_exec rf_insert rf_commit]. rewrite Hdm.
  destruct (existsb _ (tracked db)) eqn:Eb.
  - exfalso. apply existsb_exists in Eb as (row & Hrow & Hv%Z.eqb_eq). rewrite Hr in Hrow. apply list_elem_of_In in Hrow.
    apply list_elem_of_fmap in Hrow as (m' & -> & Hm'). cbn in Hv. rewrite <- (take_drop k ms), map_app, <- Er in Hd.
    apply NoDup_app in Hd as (_ & Hdis & _). apply (Hdis (m_Version m')); [by apply list_elem_of_fmap_2|].
    rewrite Hv. simpl. apply list_elem_of_here.
  - destruct (IH (S k) (out ++ [m_Version m]) (mkMigrated (Some (tracked db ++ [row_of m])) d)) as [db' ->].
    + by rewrite (drop_S ms m k Hm) in Er; injection Er.
    + split; [cbn; by rewrite Hr, (take_S_r _ _ m Hm), map_app|]. rewrite (take_S_r _ _ m Hm). by eapply history_file.
    + intros x Hx'. by apply Ha, list_elem_of_further.
    + exists db'. by rewrite <- (assoc_L (++)).
Qed.

Lemma Run_complete dir ms k d0 db :
  LoadMigrations dir = Ok ms -> NoDup (map m_Version ms) -> runnable d0 ms -> has_had d0 (take k ms) db ->
  exists db', Run exec no_run_faults dir db = (Ok (map m_Version (drop k ms)), db').
Proof.
  intros Hl Hd Hrun [Hr Hh]. unfold Run. rewrite Hl. cbn [no_run_faults rf_ddl rf_placeholder rf_query mg_data].
  destruct (Hrun k _ Hh) as [[d Hp] _]. rewrite Hp.
  cbn [mg_rows]. change (tracked (mkMigrated (Some (tracked db)) d)) with (tracked db). rewrite Hr.
  destruct (applied_split ms k Hd) as [Hin Hout].
  pose proof (run_files_skip no_run_faults (applied_map (map row_of (take k ms))) (take k ms) (drop k ms) []
    (mkMigrated (Some (map row_of (take k ms))) d) Hin) as Hskip. rewrite take_drop in Hskip. rewrite Hskip.
  apply (run_files_complete _ ms k d0); [done | done | | exact Hout]. split; [done|]. by eapply history_placeholder.
Qed.
End History.

(** C38. Every migration reaches a database once and in the order of the versions: after
    any number of runs over one directory, stopped by any failure of a connection, a
    statement or a commit (a failed commit applied or not), the database has had the
    statements of the first files of the directory, each once and in ascending order of
    their versions, and its tracking table has a row for exactly those. A run that
    succeeds from there applies exactly the others; and when no statement of the files
    fails on what the files before it leave, the next run that meets no failure
    succeeds. *)
Theorem migrations_once_in_order `{ML : MigrationLib} `{!MigrationLaws} {D} (exec : string -> D -> result error D) dir ms fs d0 :
  LoadMigrations dir = Ok ms -> NoDup (map m_Version ms) ->
  let db := runs exec dir fs (mkMigrated None d0) in
  exists k, has_had exec d0 (take k ms) db /\ StronglySorted Z.lt (map m_Version ms) /\
    (forall f vs db', Run exec f dir db = (Ok vs, db') -> vs = map m_Version (drop k ms) /\ has_had exec d0 ms db') /\
    (runnable exec d0 ms -> exists db', Run exec no_run_faults dir db = (Ok (map m_Version (drop k ms)), db')).
Proof.
  intros Hl Hd db. destruct (runs_spec exec dir ms d0 fs (mkMigrated None d0) 0 Hl Hd) as [k Hk]; [by split; [|constructor]|].
  exists k. split_and!; [done | by eapply sorted_versions, Hd; eapply LoadMigrations_sorted | |].
  - intros f vs db' HR. destruct (Run_spec exec f dir ms k d0 db Hl Hd Hk) as (j & Hj & Hok). rewrite HR in Hj, Hok. simpl in *.
    destruct (Hok vs eq_refl) as [Ht ->]. by rewrite Ht in Hj.
  - intros Hrun. by eapply Run_complete.
Qed.

(** A file whose checksum is not the recorded one stops every run, whatever else is in
    the directory. *)
Lemma edited_file_stops `{ML : MigrationLib} {D} (exec : string -> D -> result error D) f dir ms db m row vs :
  LoadMigrations dir = Ok ms -> m ∈ ms -> NoDup (map tr_version (tracked db)) -> row ∈ tracked db ->
  tr_version row = m_Version m -> tr_checksum row <> m_Checksum m -> (Run exec f dir db).1 <> Ok vs.
Proof.
  intros Hl Hm Hd Hrow Hv Hc. unfold Run. rewrite Hl. destruct (rf_ddl f); [done|]. destruct (rf_placeholder f); [done|].
  destruct (exec _ _) as [d| |]; [|done|done]. destruct (rf_query f); [done|].
  assert (Ha : applied_map (tracked db) !! m_Version m = Some (tr_checksum row)) by (rewrite <- Hv; by apply (insert_all_in tr_version tr_checksum)).
  change (tracked _) with (tracked db) at 1. cbn [mg_rows]. generalize (@nil Z) as out. generalize (mkMigrated (Some (tracked db)) d) as db2.
  clear Hl. induction ms as [|m' ms IH]; [by apply not_elem_of_nil in Hm|]. intros db2 out. simpl.
  apply elem_of_cons in Hm as [->|Hm].
  - rewrite Ha. destruct (String.eqb_spec (tr_checksum row) (m_Checksum m')); done.
  - destruct (applied_map (tracked db) !! m_Version m') as [c|]; [destruct (String.eqb c _); [by apply IH|done]|].
    destruct (apply_migration exec f m' db2) as [[[]| |] db3]; [by apply IH | done | done].
Qed.

(** ** Witness *)

Definition TestMigrations : MigrationLib := {| sort_slice := order_by m_Version; sha256 s := "sum of " +:+ s |}.

#[export] Instance TestMigrations_laws : @MigrationLaws TestMigrations.
Proof. constructor; intros l; [apply order_by_perm | apply order_by_sorted]. Qed.

#[local] Existing Instance TestMigrations.

(** A database that keeps the statements it was given. *)
Definition log_exec (sql : string) (d : list string) : result error (list string) := Ok (d ++ [sql]).

Definition two_files : result error (list dir_entry) :=
  Ok [mkEntry "0002_more_users.sql" false (Ok "B"); mkEntry "README.md" false (Ok ""); mkEntry "old" true (Ok ""); mkEntry "1_users.sql" false (Ok "A")].

(** The second file's statement is lost, then the answer to its commit. *)
Definition lost_statement : run_faults :=
  mkRunFaults None None None (fun _ => None) (fun v => if Z.eqb v 2 then Some "connection lost" else None) (fun _ => None) (fun _ => Committed).
Definition lost_answer : run_faults :=
  mkRunFaults None None None (fun _ => None) (fun _ => None) (fun _ => None) (fun _ => CommitFailed "connection lost" true).

Lemma migrations_once_in_order_witness :
  exists ms, LoadMigrations two_files = Ok ms /\ map m_Description ms = ["users"; "more users"] /\
    (Run log_exec lost_statement two_files (mkMigrated None [])).1 = Err "applying migration 0002_more_users.sql: connection lost" /\
    exists db', Run log_exec no_run_faults two_files (runs log_exec two_files [lost_statement; lost_answer] (mkMigrated None [])) = (Ok [], db').
Proof.
  eexists. split; [vm_compute; reflexivity|]. split; [vm_compute; reflexivity|]. split; [vm_compute; reflexivity|].
  destruct (migrations_once_in_order log_exec two_files _ [lost_statement; lost_answer] [] eq_refl) as (k & [Hr _] & _ & _ & Hrun).
  - apply (bool_decide_eq_true _). vm_compute. reflexivity.
  - destruct Hrun as [db' Hdb'].
    + intros k' d _. split; [by eexists|]. intros m _. by eexists.
    + exists db'. rewrite Hdb'. assert (Hk : 2 <= k).
      { apply (f_equal length) in Hr. rewrite length_map, length_take in Hr. destruct k as [|[|k]]; [discriminate Hr | discriminate Hr | lia]. }
      rewrite drop_ge; [reflexivity | exact Hk].
Defined.
