(* ===== verification/Base64.v ===== *)
(** encoding/base64: RawURLEncoding, the URL-safe alphabet without padding, in which keys
    and random tokens are written, and its round trip. *)
From Stdlib Require Import String Ascii.
From S2P Require Import Prelude GoStrings.

Open Scope string_scope.
Open Scope list_scope.

(** The letter of six bits, and the six bits of a letter. *)
Definition b64_letter (n : N) : ascii :=
  Ascii.ascii_of_N (if n <? 26 then n + 65 else if n <? 52 then n + 71 else if n <? 62 then n - 4
                    else if n =? 62 then 45 else 95)%N.

Definition b64_bits (a : ascii) : option N :=
  let b := byte_of a in
  (if (65 <=? b) && (b <=? 90) then Some (b - 65)
   else if (97 <=? b) && (b <=? 122) then Some (b - 71)
   else if (48 <=? b) && (b <=? 57) then Some (b + 4)
   else if b =? 45 then Some 62 else if b =? 95 then Some 63 else None)%N.

(** EncodeToString. *)
Fixpoint b64_encode_bytes (bytes : list N) : list N :=
  match bytes with
  | a :: b :: c :: rest =>
    (a / 4)%N :: (a mod 4 * 16 + b / 16)%N :: (b mod 16 * 4 + c / 64)%N :: (c mod 64)%N :: b64_encode_bytes rest
  | [a; b] => [(a / 4)%N; (a mod 4 * 16 + b / 16)%N; (b mod 16 * 4)%N]
  | [a] => [(a / 4)%N; (a mod 4 * 16)%N]
  | [] => []
  end.

Definition bytes_of (s : string) : list N := map byte_of (list_ascii_of_string s).
Definition of_bytes (l : list N) : string := string_of_list_ascii (map Ascii.ascii_of_N l).

Definition RawURL_EncodeToString (s : string) : string :=
  string_of_list_ascii (map b64_letter (b64_encode_bytes (bytes_of s))).

(** The bits left over at the end are not looked at. *)
Fixpoint b64_decode_bits (l : list N) : option (list N) :=
  match l with
  | w :: x :: y :: z :: rest =>
    match b64_decode_bits rest with
    | Some bytes => Some ((w * 4 + x / 16)%N :: (x mod 16 * 16 + y / 4)%N :: (y mod 4 * 64 + z)%N :: bytes)
    | None => None
    end
  | [w; x; y] => Some [(w * 4 + x / 16)%N; (x mod 16 * 16 + y / 4)%N]
  | [w; x] => Some [(w * 4 + x / 16)%N]
  | [_] => None
  | [] => Some []
  end.

Definition line_break (a : ascii) : bool := N.eqb (byte_of a) 10 || N.eqb (byte_of a) 13.

(** DecodeString: line breaks are passed over. *)
Definition RawURL_DecodeString (s : string) : option string :=
  match mapM b64_bits (List.filter (fun a => negb (line_break a)) (list_ascii_of_string s)) with
  | Some bits => of_bytes <$> b64_decode_bits bits
  | None => None
  end.

(** ** The round trip *)

Ltac divmod := zify; Z.to_euclidean_division_equations; lia.

Lemma b64_letters : forallb (fun n => bool_decide (b64_bits (b64_letter (N.of_nat n)) = Some (N.of_nat n)) && negb (line_break (b64_letter (N.of_nat n)))) (seq 0 64) = true.
Proof. reflexivity. Qed.

Lemma b64_letter_bits n : (n < 64)%N -> b64_bits (b64_letter n) = Some n /\ line_break (b64_letter n) = false.
Proof.
  intros Hn. pose proof (proj1 (forallb_forall _ _) b64_letters (N.to_nat n)) as Hb. cbv beta in Hb. rewrite N2Nat.id in Hb.
  apply andb_true_iff in Hb as [He Hl]; [|apply in_seq; lia]. split; [by apply bool_decide_eq_true in He | by apply negb_true_iff].
Qed.

(** Bytes in threes. *)
Lemma bytes_ind (P : list N -> Prop) :
  P [] -> (forall a, P [a]) -> (forall a b, P [a; b]) -> (forall a b c l, P l -> P (a :: b :: c :: l)) -> forall l, P l.
Proof. intros H0 H1 H2 H3. fix go 1. intros [|a [|b [|c l]]]; [done | done | done | apply H3, go]. Qed.

Lemma b64_encode_small l : Forall (fun b => b < 256)%N l -> Forall (fun n => n < 64)%N (b64_encode_bytes l).
Proof.
  induction l as [|a|a b|a b c l IH] using bytes_ind; simpl; intros Hl; repeat apply Forall_cons in Hl as [? Hl].
  - constructor.
  - repeat (apply Forall_cons_2; [divmod|]). constructor.
  - repeat (apply Forall_cons_2; [divmod|]). constructor.
  - repeat (apply Forall_cons_2; [divmod|]). by apply IH.
Qed.

Lemma b64_decode_encode l : Forall (fun b => b < 256)%N l -> b64_decode_bits (b64_encode_bytes l) = Some l.
Proof.
  induction l as [|a|a b|a b c l IH] using bytes_ind; simpl; intros Hl; repeat apply Forall_cons in Hl as [? Hl].
  - done.
  - do 2 f_equal. divmod.
  - do 2 f_equal; [|f_equal]; divmod.
  - rewrite IH by done. repeat f_equal; divmod.
Qed.

Lemma letters_decode l :
  Forall (fun n => n < 64)%N l -> mapM b64_bits (List.filter (fun a => negb (line_break a)) (map b64_letter l)) = Some l.
Proof.
  induction l as [|n l IH]; [done|]. intros [Hn Hl]%Forall_cons. simpl. destruct (b64_letter_bits n Hn) as [Hb ->]. simpl.
  rewrite Hb. simpl. by rewrite IH.
Qed.

Lemma bytes_of_small s : Forall (fun b => b < 256)%N (bytes_of s).
Proof. unfold bytes_of. induction (list_ascii_of_string s) as [|a l IH]; simpl; constructor; [apply N_ascii_bounded | done]. Qed.

Lemma of_bytes_of s : of_bytes (bytes_of s) = s.
Proof.
  unfold of_bytes, bytes_of. rewrite map_map. rewrite <- (string_of_list_ascii_of_string s) at 2. f_equal.
  induction (list_ascii_of_string s) as [|a l IH]; simpl; [done|]. f_equal; [apply ascii_N_embedding | done].
Qed.

(** What is encoded decodes to itself. *)
Lemma RawURL_roundtrip s : RawURL_DecodeString (RawURL_EncodeToString s) = Some s.
Proof.
  unfold RawURL_DecodeString, RawURL_EncodeToString. rewrite list_ascii_of_string_of_list_ascii.
  rewrite letters_decode by apply b64_encode_small, bytes_of_small.
  rewrite b64_decode_encode by apply bytes_of_small. simpl. by rewrite of_bytes_of.
Qed.
