(* ===== verification/Jwks.v ===== *)
(** The shared signing keys (src/go/jwks): the key store of the issuer with its rotation
    steps, the document it publishes, and the client that verifies tokens with it.

    Signatures are an interface: [jws_sign], [jws_kid] and [jws_open] stand for the JWT
    package with EdDSA, [ed_public] for the public half of a private key. A cache is a
    map of values with the instant they expire, read as go-cache reads it; times are
    nanoseconds, the claims of a token seconds. *)
From S2P Require Import Prelude GoStrings GoText Json Floats Numbers Condition Context Uuid Evaluate Snapshot PermissionService PolicyStore Metadata Schema Router Payload Workflow AuditTrail Sql ConditionSql Jql Planner Records Times Crud CrudOutcomes CrudProps CrudState CrudReads Aggregate Authn Cron Outbound Wire Grpc GrpcProps Base64.

Open Scope string_scope.
Open Scope list_scope.

Class EdDSA := {
  ed_public : string -> string;
  (** the kid of a token's header, unverified; an error is a text that is no token *)
  jws_kid : string -> result error (option json);
  jws_sign : string -> string -> TokenWire -> string;
  jws_open : string -> string -> option TokenWire
}.

Class EdDSALaws `{!EdDSA} : Prop := {
  jws_kid_sign : forall kid key w, jws_kid (jws_sign kid key w) = Ok (Some (JStr kid));
  jws_open_sign : forall kid key w, jws_open (ed_public key) (jws_sign kid key w) = Some w
}.

(** ** Keys (keys.go) *)

Record JwksKeyPair : Type := mkKeyPair { kp_Kid : string; kp_privateKey : string; kp_publicX : string }.

Record Jwk : Type := mkJwk { jwk_Kty : string; jwk_Crv : string; jwk_Kid : string; jwk_Use : string; jwk_Alg : string; jwk_X : string }.

Definition PrivateKeySize : nat := 64.

Definition JwksKeyPair_Jwk (k : JwksKeyPair) : Jwk := mkJwk "OKP" "Ed25519" (kp_Kid k) "sig" "EdDSA" (kp_publicX k).

Record JwksKeyStore : Type := mkKeyStore { ks_keys : list JwksKeyPair; ks_signingKid : string }.

Definition NewJwksKeyStore (signingKey : JwksKeyPair) : JwksKeyStore := mkKeyStore [signingKey] (kp_Kid signingKey).

Definition AddKey (key : JwksKeyPair) (s : JwksKeyStore) : JwksKeyStore := mkKeyStore (ks_keys s ++ [key]) (ks_signingKid s).

Definition has_kid (kid : string) (k : JwksKeyPair) : bool := String.eqb (kp_Kid k) kid.

Definition Promote (kid : string) (s : JwksKeyStore) : result error JwksKeyStore :=
  if existsb (has_kid kid) (ks_keys s) then Ok (mkKeyStore (ks_keys s) kid)
  else Err ("cannot promote " +:+ kid +:+ ": not in the published key set yet").

Definition RemoveKey (kid : string) (s : JwksKeyStore) : result error JwksKeyStore :=
  if String.eqb kid (ks_signingKid s)
  then Err ("cannot remove " +:+ kid +:+ ": it is the currently signing key — promote another key first")
  else Ok (mkKeyStore (List.filter (fun k => negb (has_kid kid k)) (ks_keys s)) (ks_signingKid s)).

Definition SigningKey (s : JwksKeyStore) : result error JwksKeyPair :=
  match List.find (has_kid (ks_signingKid s)) (ks_keys s) with Some k => Ok k | None => Panic end.

Definition JwkSet (s : JwksKeyStore) : list Jwk := map JwksKeyPair_Jwk (ks_keys s).

(** A rotation step under the write lock (http.go, Mutate): AddKey never fails. *)
Inductive rotation : Type := Publish (key : JwksKeyPair) | PromoteTo (kid : string) | Retire (kid : string).

Definition rotate (step : rotation) (s : JwksKeyStore) : result error JwksKeyStore :=
  match step with
  | Publish key => Ok (AddKey key s)
  | PromoteTo kid => Promote kid s
  | Retire kid => RemoveKey kid s
  end.

Definition Mutate (step : rotation) (s : JwksKeyStore) : option error * JwksKeyStore :=
  match rotate step s with
  | Ok s' => (None, s')
  | Err e => (Some e, s)
  | Panic => (None, s)
  end.

(** ** The published document (http.go, Handler; client.go decodes it) *)

Definition jwk_json (k : Jwk) : json :=
  JObj [("kty", JStr (jwk_Kty k)); ("crv", JStr (jwk_Crv k)); ("kid", JStr (jwk_Kid k)); ("use", JStr (jwk_Use k));
        ("alg", JStr (jwk_Alg k)); ("x", JStr (jwk_X k))].

Definition Handler_body (s : JwksKeyStore) : json := JObj [("keys", JArr (map jwk_json (JwkSet s)))].

Definition jwk_step (st : Jwk * bool) (kv : string * json) : Jwk * bool :=
  let '(mkJwk kty crv kid use alg x, bad) := st in
  if key_matches "kty" kv.1 then let '(kty, bad) := into_string (kty, bad) kv.2 in (mkJwk kty crv kid use alg x, bad)
  else if key_matches "crv" kv.1 then let '(crv, bad) := into_string (crv, bad) kv.2 in (mkJwk kty crv kid use alg x, bad)
  else if key_matches "kid" kv.1 then let '(kid, bad) := into_string (kid, bad) kv.2 in (mkJwk kty crv kid use alg x, bad)
  else if key_matches "use" kv.1 then let '(use, bad) := into_string (use, bad) kv.2 in (mkJwk kty crv kid use alg x, bad)
  else if key_matches "alg" kv.1 then let '(alg, bad) := into_string (alg, bad) kv.2 in (mkJwk kty crv kid use alg x, bad)
  else if key_matches "x" kv.1 then let '(x, bad) := into_string (x, bad) kv.2 in (mkJwk kty crv kid use alg x, bad)
  else st.

Definition unmarshal_jwk (j : json) : option Jwk := unmarshal_struct (mkJwk "" "" "" "" "" "") jwk_step (Some j).

Definition unmarshal_jwks (j : json) : option (list Jwk) :=
  match j with JArr l => mapM unmarshal_jwk l | JNull => Some [] | _ => None end.

Definition jwkset_step (st : list Jwk * bool) (kv : string * json) : list Jwk * bool :=
  if key_matches "keys" kv.1 then into_list unmarshal_jwks st kv.2 else st.

Definition unmarshal_jwkset (j : json) : option (list Jwk) := unmarshal_struct [] jwkset_step (Some j).

(** ** The client (client.go) *)

(** go-cache: an entry without an instant never expires. *)
Notation key_cache := (gmap string (string * option Z)).

Definition cache_get (now : Z) (kid : string) (c : key_cache) : option string :=
  match c !! kid with
  | Some (v, None) => Some v
  | Some (v, Some e) => if (now >? e)%Z then None else Some v
  | None => None
  end.

Definition cache_set (ttl now : Z) (kid v : string) (c : key_cache) : key_cache :=
  <[kid := (v, if (ttl >? 0)%Z then Some (now + ttl)%Z else None)]> c.

(** What the request for the document comes back with: no answer, a status, a body. *)
Inductive jwks_response : Type :=
| NoAnswer (e : error)
| Answer (status : Z) (body : option json).

Definition bad_status (url : string) (status : Z) : error := "jwks fetch from " +:+ url +:+ " returned status " +:+ FormatInt status.

(** The keys before one that does not decode are kept. *)
Fixpoint store_keys (ttl now : Z) (keys : list Jwk) (c : key_cache) : result error unit * key_cache :=
  match keys with
  | [] => (Ok tt, c)
  | k :: rest =>
    match RawURL_DecodeString (jwk_X k) with
    | None => (Err "illegal base64 data", c)
    | Some raw => store_keys ttl now rest (cache_set ttl now (jwk_Kid k) raw c)
    end
  end.

Record JwksClient : Type := mkClient { jc_url : string; jc_ttl : Z }.

Definition refresh (client : JwksClient) (now : Z) (resp : jwks_response) (c : key_cache) : result error unit * key_cache :=
  match resp with
  | NoAnswer e => (Err e, c)
  | Answer status body =>
    if negb (Z.eqb status 200) then (Err (bad_status (jc_url client) status), c)
    else match body ≫= unmarshal_jwkset with
         | None => (Err "invalid JWKS document", c)
         | Some keys => store_keys (jc_ttl client) now keys c
         end
  end.

Definition unknown_kid (client : JwksClient) (kid : string) : error :=
  "kid " +:+ kid +:+ " not found in JWKS at " +:+ jc_url client.

Definition decodingKeyFor (client : JwksClient) (now : Z) (kid : string) (resp : jwks_response) (c : key_cache)
  : result error string * key_cache :=
  match cache_get now kid c with
  | Some key => (Ok key, c)
  | None =>
    match refresh client now resp c with
    | (Ok _, c') => match cache_get now kid c' with
                    | Some key => (Ok key, c')
                    | None => (Err (unknown_kid client kid), c')
                    end
    | (Err e, c') => (Err e, c')
    | (Panic, c') => (Panic, c')
    end
  end.

Section Tokens.
Context `{UuidLib} `{!EdDSA}.

Definition GenerateJwksKeyPair (kid private : string) : JwksKeyPair :=
  mkKeyPair kid private (RawURL_EncodeToString (ed_public private)).

Definition FromPrivateKeyBytes (kid private : string) : result error JwksKeyPair :=
  if negb (Nat.eqb (String.length private) PrivateKeySize)
  then Err ("invalid Ed25519 private key: expected 64 bytes, got " +:+ FormatInt (Z.of_nat (String.length private)))
  else Ok (mkKeyPair kid private (RawURL_EncodeToString (ed_public private))).

(** mint.go; [now] in seconds. *)
Definition mint_claims (key : JwksKeyPair) (now : Z) (tenantID userID : uuid) (functionID : option string) (ttlSeconds : Z)
    (scope clientID : option string) : string :=
  jws_sign (kp_Kid key) (kp_privateKey key)
    (mkWire (uuid_String userID) (now + ttlSeconds) JWTIssuer [JWTAudience] "" (uuid_String tenantID) functionID scope clientID).

(** A kid that is no text is the empty one. *)
Definition kid_text (j : json) : string := match j with JStr s => s | _ => "" end.

Definition no_kid : error := "token has no kid — cannot select a JWKS verification key".
Definition refused_token : error := "token is invalid".

(** The claims of a token that opens with the key: the audience and the issuer are
    pinned, [leeway] seconds after its end it is refused. *)
Definition open_claims (key : string) (seconds leeway : Z) (token : string) : result error AccessClaims :=
  match jws_open key token with
  | None => Err refused_token
  | Some w =>
    if bool_decide (JWTAudience ∈ tw_aud w) && String.eqb (tw_iss w) JWTIssuer && (seconds <? tw_exp w + leeway)%Z
    then Ok (mkAccess (tw_sub w) (tw_tenantId w) (tw_functionId w) (omitempty (tw_jti w)) (tw_scope w) (tw_clientId w))
    else Err refused_token
  end.

(** [seconds] is [now] on the clock of the claims. *)
Definition client_Decode (client : JwksClient) (now seconds leeway : Z) (token : string) (resp : jwks_response) (c : key_cache)
  : result error AccessClaims * key_cache :=
  match jws_kid token with
  | Err e => (Err e, c)
  | Panic => (Panic, c)
  | Ok None => (Err no_kid, c)
  | Ok (Some kidRaw) =>
    match decodingKeyFor client now (kid_text kidRaw) resp c with
    | (Ok key, c') => (open_claims key seconds leeway token, c')
    | (Err e, c') => (Err e, c')
    | (Panic, c') => (Panic, c')
    end
  end.
End Tokens.

(** ** Theorems

    The rotation of the signing keys: an issuer and a verifier as a step relation. Every
    token of a published key verifies, at once after a rotation; a retired key is
    distrusted once its entries have expired; and what breaks when two keys share a kid. *)

(** The document is read back as it was published. *)
Lemma unmarshal_jwk_json k : unmarshal_jwk (jwk_json k) = Some k.
Proof. by destruct k. Qed.

Lemma jwkset_roundtrip s : unmarshal_jwkset (Handler_body s) = Some (JwkSet s).
Proof.
  unfold Handler_body, unmarshal_jwkset, unmarshal_struct. cbn [fold_left]. unfold jwkset_step, into_list.
  change (key_matches "keys" ("keys", JArr (map jwk_json (JwkSet s))).1) with true. cbn [snd unmarshal_jwks].
  by rewrite (mapM_unmarshal jwk_json unmarshal_jwk) by apply unmarshal_jwk_json.
Qed.

(** ** The store *)

Definition kids (s : JwksKeyStore) : list string := map kp_Kid (ks_keys s).

(** The key that signs is published. *)
Definition signing_published (s : JwksKeyStore) : Prop := ks_signingKid s ∈ kids s.

Lemma existsb_kid kid l : existsb (has_kid kid) l = true <-> kid ∈ map kp_Kid l.
Proof.
  rewrite existsb_exists, list_elem_of_fmap. unfold has_kid. split.
  - intros (k & Hk & He%String.eqb_eq). exists k. split; [done | by apply list_elem_of_In].
  - intros (k & -> & Hk). exists k. split; [by apply list_elem_of_In | apply String.eqb_refl].
Qed.

Lemma retained kid l k : k ∈ List.filter (fun k => negb (has_kid kid k)) l <-> k ∈ l /\ kp_Kid k <> kid.
Proof. unfold has_kid. rewrite list_elem_of_In, filter_In, <- list_elem_of_In, negb_true_iff, String.eqb_neq. done. Qed.

Lemma rotate_published step s s' : signing_published s -> rotate step s = Ok s' -> signing_published s'.
Proof.
  unfold signing_published, kids. destruct step as [key|kid|kid]; simpl.
  - intros Hs [= <-]. simpl. rewrite map_app. set_solver.
  - unfold Promote. destruct (existsb (has_kid kid) (ks_keys s)) eqn:E; [|done]. intros _ [= <-]. by apply existsb_kid.
  - unfold RemoveKey. destruct (String.eqb_spec kid (ks_signingKid s)) as [|Hne]; [done|]. intros Hs [= <-]. simpl.
    apply list_elem_of_fmap in Hs as (k & Hk & Hin). apply list_elem_of_fmap. exists k. split; [done|]. apply retained. by rewrite <- Hk.
Qed.

Lemma SigningKey_published s : signing_published s -> exists k, SigningKey s = Ok k /\ k ∈ ks_keys s /\ kp_Kid k = ks_signingKid s.
Proof.
  intros Hs. unfold SigningKey. destruct (List.find _ _) as [k|] eqn:E.
  - apply find_some in E as [Hk He%String.eqb_eq]. exists k. split_and!; [done | by apply list_elem_of_In | done].
  - exfalso. apply existsb_kid in Hs. apply existsb_exists in Hs as (k & Hk & He). by rewrite (find_none _ _ E k Hk) in He.
Qed.

(** ** Issuer and verifier *)

Section System.
Context {UL : UuidLib} {ED : EdDSA} {Laws : EdDSALaws}.
Variable client : JwksClient.

(** [sy_ever]: every key that was ever published. *)
Record system : Type := mkSystem {
  sy_store : JwksKeyStore;
  sy_ever : list JwksKeyPair;
  sy_cache : gmap string (string * option Z);
  sy_now : Z
}.

(** The issuer answers with the document of the moment, or the request fails in one way
    or another. *)
Definition served (s : JwksKeyStore) (resp : jwks_response) : Prop :=
  match resp with NoAnswer _ => True | Answer status body => status = 200%Z -> body = Some (Handler_body s) end.

Definition good_key (k : JwksKeyPair) : Prop := kp_publicX k = RawURL_EncodeToString (ed_public (kp_privateKey k)).

Inductive step : system -> system -> Prop :=
| step_time s now : (sy_now s <= now)%Z -> step s (mkSystem (sy_store s) (sy_ever s) (sy_cache s) now)
| step_publish s key : good_key key -> kp_Kid key ∉ map kp_Kid (sy_ever s) ->
    step s (mkSystem (AddKey key (sy_store s)) (sy_ever s ++ [key]) (sy_cache s) (sy_now s))
| step_promote s kid : step s (mkSystem (Mutate (PromoteTo kid) (sy_store s)).2 (sy_ever s) (sy_cache s) (sy_now s))
| step_retire s kid : step s (mkSystem (Mutate (Retire kid) (sy_store s)).2 (sy_ever s) (sy_cache s) (sy_now s))
| step_refresh s resp : served (sy_store s) resp ->
    step s (mkSystem (sy_store s) (sy_ever s) (refresh client (sy_now s) resp (sy_cache s)).2 (sy_now s))
| step_lookup s kid resp : served (sy_store s) resp ->
    step s (mkSystem (sy_store s) (sy_ever s) (decodingKeyFor client (sy_now s) kid resp (sy_cache s)).2 (sy_now s)).

Definition start (key : JwksKeyPair) (now : Z) : system := mkSystem (NewJwksKeyStore key) [key] ∅ now.

(** Every entry is the public half of the one key that ever had its kid. *)
Definition cache_sound (ever : list JwksKeyPair) (c : gmap string (string * option Z)) : Prop :=
  forall kid v e, c !! kid = Some (v, e) -> exists k, k ∈ ever /\ kp_Kid k = kid /\ v = ed_public (kp_privateKey k).

Definition expires_by (t : Z) (c : gmap string (string * option Z)) : Prop :=
  forall kid v e, c !! kid = Some (v, e) -> exists x, e = Some x /\ (x <= t)%Z.

Record sound (s : system) : Prop := {
  so_signing : signing_published (sy_store s);
  so_ever : forall k, k ∈ ks_keys (sy_store s) -> k ∈ sy_ever s;
  so_good : forall k, k ∈ sy_ever s -> good_key k;
  so_kids : NoDup (map kp_Kid (sy_ever s));
  so_published : NoDup (kids (sy_store s));
  so_cache : cache_sound (sy_ever s) (sy_cache s);
  so_expiry : (0 < jc_ttl client)%Z -> expires_by (sy_now s + jc_ttl client) (sy_cache s)
}.

(** ** What a refresh does to the cache *)

(** The entry of a key stored now. *)
Definition entry (ttl now : Z) (k : JwksKeyPair) : string * option Z :=
  (ed_public (kp_privateKey k), if (ttl >? 0)%Z then Some (now + ttl)%Z else None).

Lemma store_keys_published ttl now keys c :
  (forall k, k ∈ keys -> good_key k) ->
  store_keys ttl now (map JwksKeyPair_Jwk keys) c
  = (Ok tt, insert_all kp_Kid (entry ttl now) keys c).
Proof.
  revert c. induction keys as [|k keys IH]; intros c Hg; [done|]. cbn [map store_keys JwksKeyPair_Jwk jwk_X jwk_Kid].
  rewrite (Hg k) by apply list_elem_of_here. rewrite RawURL_roundtrip. simpl. apply IH. intros k' Hk. by apply Hg, list_elem_of_further.
Qed.

(** The answers of the issuer: all its keys are cached, or nothing changes. *)
Lemma refresh_served s now resp c :
  (forall k, k ∈ ks_keys s -> good_key k) -> served s resp ->
  refresh client now resp c = (Ok tt, insert_all kp_Kid (entry (jc_ttl client) now) (ks_keys s) c)
  \/ exists e, refresh client now resp c = (Err e, c).
Proof.
  intros Hg Hs. destruct resp as [e|status body]; simpl in *; [by right; exists e|].
  destruct (Z.eqb_spec status 200) as [->|]; simpl; [|right; by eexists]. rewrite (Hs eq_refl). simpl.
  rewrite jwkset_roundtrip. unfold JwkSet. rewrite store_keys_published by done. by left.
Qed.

(** A refresh from a sound state, by what it leaves of any entry. *)
Lemma refresh_cases s resp kid v e :
  sound s -> served (sy_store s) resp -> (refresh client (sy_now s) resp (sy_cache s)).2 !! kid = Some (v, e) ->
  sy_cache s !! kid = Some (v, e) \/
  (exists k, k ∈ ks_keys (sy_store s) /\ kp_Kid k = kid /\ v = ed_public (kp_privateKey k) /\
     e = if (jc_ttl client >? 0)%Z then Some (sy_now s + jc_ttl client)%Z else None).
Proof.
  intros Hs Hr. destruct (refresh_served (sy_store s) (sy_now s) resp (sy_cache s)) as [->|[e' ->]]; [|done| |by left].
  - intros k Hk. by apply Hs, Hs.
  - intros [Hl|(k & Hk & He & [= -> ->])]%insert_all_cases; [by left | right; by exists k].
Qed.

Lemma lookup_cache now kid resp c :
  (decodingKeyFor client now kid resp c).2 = c \/ (decodingKeyFor client now kid resp c).2 = (refresh client now resp c).2.
Proof.
  unfold decodingKeyFor. destruct (cache_get now kid c); [by left|]. right.
  destruct (refresh client now resp c) as [[[]| |] c']; [by destruct (cache_get now kid c') | done | done].
Qed.

(** A change of the cache that keeps the invariant. *)
Lemma sound_with_cache s c :
  sound s -> (forall kid v e, c !! kid = Some (v, e) -> sy_cache s !! kid = Some (v, e) \/
    (exists k, k ∈ ks_keys (sy_store s) /\ kp_Kid k = kid /\ v = ed_public (kp_privateKey k) /\
       e = if (jc_ttl client >? 0)%Z then Some (sy_now s + jc_ttl client)%Z else None)) ->
  sound (mkSystem (sy_store s) (sy_ever s) c (sy_now s)).
Proof.
  intros Hs Hc. destruct Hs as [Hp Hin Hg Hd Hn Hso Hx]. constructor; cbn [sy_store sy_ever sy_cache sy_now]; [done | done | done | done | done | |].
  - intros kid v e [He|(k & Hk & Hkid & Hv & _)]%Hc; [by eapply Hso|]. exists k. auto.
  - intros Httl kid v e [He|(k & _ & _ & _ & ->)]%Hc; [by eapply Hx|]. rewrite (proj2 (Z.gtb_lt _ _) Httl). eexists. split; [done | lia].
Qed.

(** A rotation that adds no key. *)
Lemma sound_with_store s r :
  sound s -> (match r with Publish _ => False | _ => True end) -> sound (mkSystem (Mutate r (sy_store s)).2 (sy_ever s) (sy_cache s) (sy_now s)).
Proof.
  intros Hs Hr. unfold Mutate. destruct (rotate r (sy_store s)) as [st| |] eqn:E; [|by destruct s|by destruct s].
  pose proof (rotate_published _ _ _ (so_signing _ Hs) E) as Hp.
  assert (Hsub : NoDup (kids st) /\ forall k, k ∈ ks_keys st -> k ∈ ks_keys (sy_store s)).
  { destruct r as [key|kid|kid]; [done| |]; simpl in E.
    - unfold Promote in E. destruct (existsb _ _); [|done]. injection E as <-. split; [apply Hs | done].
    - unfold RemoveKey in E. destruct (String.eqb _ _); [done|]. injection E as <-. split; [by apply map_filter_NoDup, Hs|].
      intros k Hk. simpl in Hk. by apply retained in Hk as [Hk _]. }
  destruct Hs as [_ Hin Hg Hd Hn Hso Hx]. constructor; try done; cbn [sy_store sy_ever]; [|apply Hsub]. intros k Hk. by apply Hin, Hsub.
Qed.

Lemma step_sound s s' : sound s -> step s s' -> sound s'.
Proof.
  intros Hs Hstep. destruct Hstep as [s now Hn|s key Hg Hf|s kid|s kid|s resp Hr|s kid resp Hr].
  - destruct Hs as [Hp Hin Hgood Hd Hpub Hso Hx]. constructor; try done. cbn [sy_now]. intros Httl kid v e He.
    destruct (Hx Httl kid v e He) as (x & -> & Hle). exists x. split; [done | lia].
  - destruct Hs as [Hp Hin Hgood Hd Hpub Hso Hx]. constructor; cbn [sy_store sy_ever sy_cache sy_now]; try done.
    + by eapply (rotate_published (Publish key)).
    + intros k [Hk|Hk%list_elem_of_singleton]%elem_of_app; apply elem_of_app; [left; by apply Hin | right; by apply list_elem_of_singleton].
    + intros k [Hk| ->%list_elem_of_singleton]%elem_of_app; [by apply Hgood | done].
    + rewrite map_app. apply NoDup_app. split_and!; [done| |apply NoDup_singleton]. intros x Hx' ->%list_elem_of_singleton. done.
    + unfold kids, AddKey. cbn [ks_keys]. rewrite map_app. apply NoDup_app. split_and!; [done| |apply NoDup_singleton].
      intros x (k & -> & Hk)%list_elem_of_fmap He%list_elem_of_singleton. apply Hf. rewrite <- He. by apply list_elem_of_fmap_2, Hin.
    + intros kid v e (k & Hk & Hr)%Hso. exists k. split; [by apply elem_of_app; left | done].
  - by apply (sound_with_store s (PromoteTo kid)).
  - by apply (sound_with_store s (Retire kid)).
  - apply sound_with_cache; [done|]. intros kid v e He. by eapply refresh_cases.
  - apply sound_with_cache; [done|]. intros kid' v e. destruct (lookup_cache (sy_now s) kid resp (sy_cache s)) as [->| ->]; [by left|].
    by apply refresh_cases.
Qed.

Lemma start_sound key now : good_key key -> sound (start key now).
Proof.
  intros Hg. constructor; cbn; try done; try apply NoDup_singleton.
  - apply list_elem_of_here.
  - by intros k ->%list_elem_of_singleton.
Qed.

Lemma reachable_sound s s' : sound s -> rtc step s s' -> sound s'.
Proof. intros Hs Hr. induction Hr as [|a b c Hab _ IH]; [done|]. by apply IH, (step_sound a). Qed.
(** The key of a published kid is found, from the cache or from the issuer. *)
Lemma published_found s k :
  sound s -> k ∈ ks_keys (sy_store s) ->
  (decodingKeyFor client (sy_now s) (kp_Kid k) (Answer 200 (Some (Handler_body (sy_store s)))) (sy_cache s)).1
  = Ok (ed_public (kp_privateKey k)).
Proof.
  intros Hs Hk. unfold decodingKeyFor. destruct (cache_get (sy_now s) (kp_Kid k) (sy_cache s)) as [v|] eqn:Ec.
  - simpl. f_equal. unfold cache_get in Ec. destruct (sy_cache s !! kp_Kid k) as [[v' e]|] eqn:El; [|done].
    destruct (so_cache _ Hs _ _ _ El) as (k' & Hk' & He & ->).
    assert (v = ed_public (kp_privateKey k')) as -> by (destruct e as [e|]; [destruct (_ >? e)%Z; [done|]|]; congruence).
    do 2 f_equal. eapply NoDup_map_eq; [apply (so_kids _ Hs) | done | by apply Hs | done].
  - destruct (refresh_served (sy_store s) (sy_now s) (Answer 200 (Some (Handler_body (sy_store s)))) (sy_cache s)) as [->|[e Herr]];
      [intros k' Hk'; by apply Hs, Hs | done | |].
    + unfold cache_get at 1. rewrite (insert_all_in kp_Kid) by (done || apply Hs). unfold entry.
      destruct (Z.gtb_spec (jc_ttl client) 0); [|done]. destruct (Z.gtb_spec (sy_now s) (sy_now s + jc_ttl client)); [lia|done].
    + exfalso. simpl in Herr. rewrite jwkset_roundtrip in Herr. unfold JwkSet in Herr.
      rewrite store_keys_published in Herr; [done|]. intros k' Hk'. by apply Hs, Hs.
Qed.

(** ** A retired key *)

(** The kid was published, is published no more, and its entry is gone by [t]. *)
Record retired_kid (kid : string) (t : Z) (s : system) : Prop := {
  rt_ever : kid ∈ map kp_Kid (sy_ever s);
  rt_gone : kid ∉ kids (sy_store s);
  rt_entry : forall v e, sy_cache s !! kid = Some (v, e) -> exists x, e = Some x /\ (x <= t)%Z
}.

Lemma refresh_retired kid t s resp :
  sound s -> served (sy_store s) resp -> retired_kid kid t s ->
  retired_kid kid t (mkSystem (sy_store s) (sy_ever s) (refresh client (sy_now s) resp (sy_cache s)).2 (sy_now s)).
Proof.
  intros Hs Hr [He Hg Hx]. constructor; [done | done |]. cbn [sy_cache]. intros v e Hl.
  destruct (refresh_cases _ _ _ _ _ Hs Hr Hl) as [Hl'|(k & Hk & <- & _)]; [by eapply Hx|].
  exfalso. apply Hg. by apply list_elem_of_fmap_2.
Qed.

Lemma mutate_gone r s kid :
  (match r with Publish _ => False | _ => True end) -> kid ∉ kids s -> kid ∉ kids (Mutate r s).2.
Proof.
  intros Hr Hk. unfold Mutate. destruct (rotate r s) as [st| |] eqn:E; [|done|done]. destruct r as [key|kid'|kid']; [done| |]; simpl in E.
  - unfold Promote in E. destruct (existsb _ _); [|done]. by injection E as <-.
  - unfold RemoveKey in E. destruct (String.eqb _ _); [done|]. injection E as <-. cbn [snd kids ks_keys].
    intros (k & -> & Hin)%list_elem_of_fmap. apply retained in Hin as [Hin _]. apply Hk. by apply list_elem_of_fmap_2.
Qed.

Lemma step_retired kid t s s' : sound s -> retired_kid kid t s -> step s s' -> retired_kid kid t s'.
Proof.
  intros Hs Hrt Hstep. destruct Hstep as [s now Hn|s key Hg Hf|s kid'|s kid'|s resp Hr|s kid' resp Hr].
  - by destruct Hrt.
  - destruct Hrt as [He Hgone Hx]. constructor; cbn [sy_store sy_ever sy_cache]; [| |done].
    + rewrite map_app. apply elem_of_app. by left.
    + unfold kids, AddKey. cbn [ks_keys]. rewrite map_app. intros [Hk| ->%list_elem_of_singleton]%elem_of_app; [by apply Hgone | by apply Hf].
  - destruct Hrt as [He Hgone Hx]. constructor; [done | by apply (mutate_gone (PromoteTo kid')) | done].
  - destruct Hrt as [He Hgone Hx]. constructor; [done | by apply (mutate_gone (Retire kid')) | done].
  - by apply refresh_retired.
  - pose proof (refresh_retired kid t s resp Hs Hr Hrt) as Href.
    destruct (lookup_cache (sy_now s) kid' resp (sy_cache s)) as [->| ->]; [by destruct s | done].
Qed.

Lemma reachable_retired kid t s s' : sound s -> retired_kid kid t s -> rtc step s s' -> retired_kid kid t s'.
Proof.
  intros Hs Hrt Hr. revert Hs Hrt. induction Hr as [|a b c Hab _ IH]; [done|]. intros Hs Hrt.
  apply IH; [by apply (step_sound a) | by apply (step_retired kid t a)].
Qed.

Lemma retired_unknown kid t s resp :
  sound s -> retired_kid kid t s -> (t < sy_now s)%Z -> served (sy_store s) resp ->
  exists e, (decodingKeyFor client (sy_now s) kid resp (sy_cache s)).1 = Err e.
Proof.
  intros Hs Hrt Ht Hr. pose proof (refresh_retired kid t s resp Hs Hr Hrt) as Href. destruct Hrt as [_ Hgone Hx], Href as [_ _ Hx'].
  assert (Hmiss : forall c, (forall v e, c !! kid = Some (v, e) -> exists x, e = Some x /\ (x <= t)%Z) -> cache_get (sy_now s) kid c = None).
  { intros c Hc. unfold cache_get. destruct (c !! kid) as [[v e]|]; [|done]. destruct (Hc v e eq_refl) as (x & -> & Hle).
    by rewrite (proj2 (Z.gtb_lt _ _)) by lia. }
  unfold decodingKeyFor. rewrite Hmiss by exact Hx.
  destruct (refresh_served (sy_store s) (sy_now s) resp (sy_cache s)) as [E|[e E]]; [intros k Hk; by apply Hs, Hs | done | |]; rewrite E in *.
  - rewrite Hmiss by exact Hx'. by eexists.
  - by exists e.
Qed.


(** A refresh alone evicts nothing: the entry of a retired key stays as it was. *)
Lemma refresh_evicts_nothing s resp kid v e :
  sound s -> served (sy_store s) resp -> kid ∉ kids (sy_store s) -> sy_cache s !! kid = Some (v, e) ->
  (refresh client (sy_now s) resp (sy_cache s)).2 !! kid = Some (v, e).
Proof.
  intros Hs Hr Hgone He. destruct (refresh_served (sy_store s) (sy_now s) resp (sy_cache s)) as [->|[e' ->]]; [|done| |done].
  - intros k Hk. by apply Hs, Hs.
  - cbn [snd]. by rewrite insert_all_out.
Qed.
End System.

(** ** Examples *)

#[local] Existing Instance TestUuid.

(** A token is its kid, its key and its claims, in binary; a key is its own public half. *)
Definition parts_of (t : string) : option (string * string * TokenWire) := decode (Authn.text_bits t).

#[local] Instance TestEdDSA : EdDSA := {
  ed_public s := s;
  jws_kid t := match parts_of t with Some p => Ok (Some (JStr p.1.1)) | None => Err "token is malformed" end;
  jws_sign kid key w := Authn.bits_text (encode (kid, key, w));
  jws_open pub t := match parts_of t with Some p => if String.eqb p.1.2 pub then Some p.2 else None | None => None end
}.

#[local] Instance TestEdDSA_laws : EdDSALaws.
Proof.
  constructor; intros kid key w; cbn [jws_kid jws_open ed_public jws_sign TestEdDSA]; unfold parts_of; rewrite Authn.text_bits_text, decode_encode; [done|].
  cbn [fst snd]. by rewrite String.eqb_refl.
Qed.

Definition key1 : JwksKeyPair := GenerateJwksKeyPair "k1" "one".
Definition key2 : JwksKeyPair := GenerateJwksKeyPair "k2" "two".
Definition test_client : JwksClient := mkClient "https://issuer/.well-known/jwks.json" 300.

(** A verifier has seen k1; then k2 is published, promoted, and k1 retired. *)
Definition seen : system :=
  let s := start key1 1000 in
  mkSystem (sy_store s) (sy_ever s)
    (decodingKeyFor test_client (sy_now s) "k1" (Answer 200 (Some (Handler_body (NewJwksKeyStore key1)))) (sy_cache s)).2 (sy_now s).
Definition published : system := mkSystem (AddKey key2 (sy_store seen)) (sy_ever seen ++ [key2]) (sy_cache seen) (sy_now seen).
Definition promoted : system := mkSystem (Mutate (PromoteTo "k2") (sy_store published)).2 (sy_ever published) (sy_cache published) (sy_now published).
Definition rotated : system := mkSystem (Mutate (Retire "k1") (sy_store promoted)).2 (sy_ever promoted) (sy_cache promoted) (sy_now promoted).

Lemma rotated_reachable : rtc (step test_client) (start key1 1000) rotated.
Proof.
  apply (rtc_l _ _ seen); [by apply step_lookup|]. apply (rtc_l _ _ published).
  { apply step_publish; [done | by apply (bool_decide_eq_true _)]. }
  apply (rtc_l _ _ promoted); [apply step_promote|]. apply rtc_once, step_retire.
Qed.


(** Two keys with one kid: adding the second is not refused, the first signs, verifiers
    hold the second, and every token is refused. *)
Lemma duplicate_kid_breaks_tokens :
  let twin := GenerateJwksKeyPair "k1" "other" in
  let store := (Mutate (Publish twin) (NewJwksKeyStore key1)).2 in
  (Mutate (Publish twin) (NewJwksKeyStore key1)).1 = None /\ SigningKey store = Ok key1 /\
  (client_Decode test_client 1000 50 20 (mint_claims key1 40 ("t1" : @uuid TestUuid) ("u1" : @uuid TestUuid) None 60 None None)
     (Answer 200 (Some (Handler_body store))) ∅).1 = Err refused_token.
Proof. split_and!; vm_compute; reflexivity. Qed.
