(* ===== verification/Login.v ===== *)
(** Login of a tenant's users with an external identity provider
    (src/go/tenantauth/oidc.go, oauth2login.go, random.go): the stored configuration, the
    redirect to the provider, and the identity a callback ends in.

    The provider is an interface: discovery, the authorization URL, the exchange of a
    code and the verification of an identity token are what the packages oidc and oauth2
    do. Requests the code sends itself are recorded. *)
From S2P Require Import Prelude GoStrings GoText Json Floats Numbers Condition Context Uuid Evaluate Snapshot PermissionService Users PolicyStore Metadata Schema Router Payload Workflow AuditTrail Sql ConditionSql Jql Planner Records Times Crud CrudOutcomes CrudProps CrudState CrudReads Aggregate Authn Cron Outbound CronScheduler CronRoutes Wire Grpc GrpcProps RestRecords Base64.

Open Scope string_scope.
Open Scope list_scope.

(** ** Configurations *)

Record OidcConfig : Type := mkOidc {
  oc_IssuerURL : string;
  oc_ClientID : string;
  oc_ClientSecretRef : string;
  oc_RedirectURI : string;
  oc_Scopes : list string;
  oc_PostLoginRedirect : string
}.

Definition oidc_step (st : OidcConfig * bool) (kv : string * json) : OidcConfig * bool :=
  let '(mkOidc i c s r sc p, bad) := st in
  if key_matches "issuerUrl" kv.1 then let '(i, bad) := into_string (i, bad) kv.2 in (mkOidc i c s r sc p, bad)
  else if key_matches "clientId" kv.1 then let '(c, bad) := into_string (c, bad) kv.2 in (mkOidc i c s r sc p, bad)
  else if key_matches "clientSecretRef" kv.1 then let '(s, bad) := into_string (s, bad) kv.2 in (mkOidc i c s r sc p, bad)
  else if key_matches "redirectUri" kv.1 then let '(r, bad) := into_string (r, bad) kv.2 in (mkOidc i c s r sc p, bad)
  else if key_matches "scopes" kv.1 then let '(sc, bad) := into_strings (sc, bad) kv.2 in (mkOidc i c s r sc p, bad)
  else if key_matches "postLoginRedirect" kv.1 then let '(p, bad) := into_string (p, bad) kv.2 in (mkOidc i c s r sc p, bad)
  else st.

Definition unmarshal_oidc (j : json) : option OidcConfig := unmarshal_struct (mkOidc "" "" "" "" [] "") oidc_step (Some j).

Record OAuth2LoginConfig : Type := mkOAuth2Login {
  lc_AuthorizeURL : string;
  lc_TokenURL : string;
  lc_UserinfoURL : string;
  lc_ClientID : string;
  lc_ClientSecretRef : string;
  lc_RedirectURI : string;
  lc_Scopes : list string;
  lc_PostLoginRedirect : string;
  lc_SubjectField : string;
  lc_EmailField : string
}.

Definition oauth2login_step (st : OAuth2LoginConfig * bool) (kv : string * json) : OAuth2LoginConfig * bool :=
  let '(mkOAuth2Login a t u c s r sc p sf ef, bad) := st in
  if key_matches "authorizeUrl" kv.1 then let '(a, bad) := into_string (a, bad) kv.2 in (mkOAuth2Login a t u c s r sc p sf ef, bad)
  else if key_matches "tokenUrl" kv.1 then let '(t, bad) := into_string (t, bad) kv.2 in (mkOAuth2Login a t u c s r sc p sf ef, bad)
  else if key_matches "userinfoUrl" kv.1 then let '(u, bad) := into_string (u, bad) kv.2 in (mkOAuth2Login a t u c s r sc p sf ef, bad)
  else if key_matches "clientId" kv.1 then let '(c, bad) := into_string (c, bad) kv.2 in (mkOAuth2Login a t u c s r sc p sf ef, bad)
  else if key_matches "clientSecretRef" kv.1 then let '(s, bad) := into_string (s, bad) kv.2 in (mkOAuth2Login a t u c s r sc p sf ef, bad)
  else if key_matches "redirectUri" kv.1 then let '(r, bad) := into_string (r, bad) kv.2 in (mkOAuth2Login a t u c s r sc p sf ef, bad)
  else if key_matches "scopes" kv.1 then let '(sc, bad) := into_strings (sc, bad) kv.2 in (mkOAuth2Login a t u c s r sc p sf ef, bad)
  else if key_matches "postLoginRedirect" kv.1 then let '(p, bad) := into_string (p, bad) kv.2 in (mkOAuth2Login a t u c s r sc p sf ef, bad)
  else if key_matches "subjectField" kv.1 then let '(sf, bad) := into_string (sf, bad) kv.2 in (mkOAuth2Login a t u c s r sc p sf ef, bad)
  else if key_matches "emailField" kv.1 then let '(ef, bad) := into_string (ef, bad) kv.2 in (mkOAuth2Login a t u c s r sc p sf ef, bad)
  else st.

(** UnmarshalJSON starts from the default names of the fields. *)
Definition unmarshal_oauth2login (j : json) : option OAuth2LoginConfig :=
  unmarshal_struct (mkOAuth2Login "" "" "" "" "" "" [] "" "id" "email") oauth2login_step (Some j).

(** ** The provider *)

(** oauth2.Config *)
Record oauth2_client : Type := mkOAuth2Client {
  o2_ClientID : string;
  o2_ClientSecret : string;
  o2_AuthURL : string;
  o2_TokenURL : string;
  o2_RedirectURL : string;
  o2_Scopes : list string
}.

(** The answer to an exchange: the access token and the member id_token. *)
Record idp_token : Type := mkIdpToken { it_AccessToken : string; it_id_token : option json }.

(** An identity token that was verified. *)
Record IDToken : Type := mkIDToken { id_Subject : string; id_Nonce : string; id_claims : json }.

Class Idp := {
  (** oidc.NewProvider: the authorization and the token endpoint of an issuer *)
  idp_discover : string -> result error (string * string);
  (** AuthCodeURL with a state, a nonce if there is one, and a PKCE verifier *)
  idp_AuthCodeURL : oauth2_client -> string -> option string -> string -> string;
  (** Exchange of a code with a PKCE verifier *)
  idp_Exchange : oauth2_client -> string -> string -> result error idp_token;
  (** Verify of an issuer's provider, for a client *)
  idp_Verify : string -> string -> string -> result error IDToken
}.

(** random.go: 32 random bytes as text. *)
Definition generateRandomToken (bytes : string) : string := RawURL_EncodeToString bytes.

Record VerifiedIdentity : Type := mkIdentity { vi_Email : string; vi_ExternalSubject : string }.

Section Configs.
Context `{UuidLib}.

(** A row of tenant_auth_configs with its document. *)
Record auth_config_row : Type := mkAuthConfig { ac_tenant : uuid; ac_kind : string; ac_enabled : bool; ac_config : json }.

Definition enabled_config (rows : list auth_config_row) (tenantID : uuid) (kind : string) : option json :=
  ac_config <$> List.find (fun r => bool_decide (ac_tenant r = tenantID) && String.eqb (ac_kind r) kind && ac_enabled r) rows.

Definition config_for {A} (unmarshal : json -> option A) (rows : list auth_config_row) (tenantID : uuid) (kind : string)
  : result error (option A) :=
  match enabled_config rows tenantID kind with
  | None => Ok None
  | Some raw => match unmarshal raw with Some cfg => Ok (Some cfg) | None => Err "invalid provider configuration" end
  end.

Definition OidcConfigFor (rows : list auth_config_row) (tenantID : uuid) : result error (option OidcConfig) :=
  config_for unmarshal_oidc rows tenantID "oidc".

Definition OAuth2LoginConfigFor (rows : list auth_config_row) (tenantID : uuid) : result error (option OAuth2LoginConfig) :=
  config_for unmarshal_oauth2login rows tenantID "oauth2".
End Configs.

Definition ResolveClientSecretEnv (env : string -> option string) (clientSecretRef : string) : result error string :=
  match env clientSecretRef with
  | Some v => Ok v
  | None => Err ("env var " +:+ clientSecretRef +:+ " (OIDC client secret ref) is not set")
  end.

(** ** OpenID Connect (oidc.go) *)

Definition email_claim_step (st : string * bool) (kv : string * json) : string * bool :=
  if key_matches "email" kv.1 then into_string st kv.2 else st.

Section Oidc.
Context `{!Idp}.

Definition oidcProviderAndVerifier (config : OidcConfig) (clientSecret : string) : result error oauth2_client :=
  let! (authURL, tokenURL) := idp_discover (oc_IssuerURL config) in
  Ok (mkOAuth2Client (oc_ClientID config) clientSecret authURL tokenURL (oc_RedirectURI config) (oc_Scopes config)).

Record oidc_redirect : Type := mkOidcRedirect { or_URL : string; or_csrf : string; or_nonce : string; or_verifier : string }.

(** [csrf], [nonce] are random bytes, [verifier] a PKCE verifier. *)
Definition OidcAuthorizeURL (csrf nonce verifier : string) (config : OidcConfig) (clientSecret : string) : result error oidc_redirect :=
  let! client := oidcProviderAndVerifier config clientSecret in
  let csrfToken := generateRandomToken csrf in
  let nonce := generateRandomToken nonce in
  Ok (mkOidcRedirect (idp_AuthCodeURL client csrfToken (Some nonce) verifier) csrfToken nonce verifier).

Definition raw_id_token (token : idp_token) : result error string :=
  match it_id_token token with
  | Some (JStr raw) => if String.eqb raw "" then Err "IdP token response has no id_token" else Ok raw
  | _ => Err "IdP token response has no id_token"
  end.

Definition email_claim (claims : json) : result error string :=
  match unmarshal_struct "" email_claim_step (Some claims) with
  | None => Err "invalid claims"
  | Some email => if String.eqb email "" then Err "IdP did not return an email claim" else Ok email
  end.

Definition OidcVerifyCallback (config : OidcConfig) (clientSecret code nonce pkceVerifier : string) : result error VerifiedIdentity :=
  let! client := oidcProviderAndVerifier config clientSecret in
  let! token := idp_Exchange client code pkceVerifier in
  let! rawIDToken := raw_id_token token in
  let! idToken := idp_Verify (oc_IssuerURL config) (oc_ClientID config) rawIDToken in
  if negb (String.eqb (id_Nonce idToken) nonce) then Err "id_token nonce does not match the expected value"
  else
    let! email := email_claim (id_claims idToken) in
    Ok (mkIdentity email (id_Subject idToken)).
End Oidc.

(** ** OAuth2 (oauth2login.go) *)

Definition oauth2LoginClient (config : OAuth2LoginConfig) (clientSecret : string) : oauth2_client :=
  mkOAuth2Client (lc_ClientID config) clientSecret (lc_AuthorizeURL config) (lc_TokenURL config) (lc_RedirectURI config) (lc_Scopes config).

Definition is_loopback (host : string) : bool :=
  String.eqb host "localhost" || String.eqb host "127.0.0.1" || String.eqb host "::1".

Definition requireHTTPSOrLoopback (u : URL) : option error :=
  if String.eqb (u_Scheme u) "https" then None
  else if is_loopback (u_Hostname u) then None
  else Some ("userinfo_url must use https (got " +:+ string_text (u_Scheme u) +:+ ")").

(** strings.Trim of quotes. *)
Fixpoint trim_left_quotes (s : string) : string :=
  match s with String a s' => if Ascii.eqb a quote_char then trim_left_quotes s' else s | EmptyString => s end.
Fixpoint str_rev (s acc : string) : string := match s with EmptyString => acc | String a s' => str_rev s' (String a acc) end.
Definition trim_quotes (s : string) : string := str_rev (trim_left_quotes (str_rev (trim_left_quotes s) "")) "".

Definition jsonScalarToString (v : goany) : string :=
  match v with
  | AStr s => s
  | ANum f => formatFloat f
  | v => trim_quotes (json_text (any_json v))
  end.

(** A member of the answer; a later member of the same name has replaced an earlier one. *)
Definition member (userinfo : list (string * goany)) (name : string) : option goany :=
  snd <$> List.find (fun kv => String.eqb kv.1 name) userinfo.

(** Decoding the answer into a map. *)
Definition decode_userinfo (body : option json) : result error (list (string * goany)) :=
  match body with
  | Some JNull => Ok []
  | Some (JObj l) => match unmarshal_any (JObj l) with Some (AMap m) => Ok m | _ => Err "invalid userinfo response" end
  | _ => Err "invalid userinfo response"
  end.

Section OAuth2.
Context `{!UuidLib} `{!Outside} `{!Idp}.
(** The GET of the code with a bearer token: the status and the body. *)
Variable http_get : string -> string -> result error (Z * option json).

Record oauth2_redirect : Type := mkOAuth2Redirect { o2r_URL : string; o2r_csrf : string; o2r_verifier : string }.

Definition OAuth2LoginAuthorizeURL (csrf verifier : string) (config : OAuth2LoginConfig) (clientSecret : string) : oauth2_redirect :=
  let client := oauth2LoginClient config clientSecret in
  let csrfToken := generateRandomToken csrf in
  mkOAuth2Redirect (idp_AuthCodeURL client csrfToken None verifier) csrfToken verifier.

Definition identity_of (config : OAuth2LoginConfig) (userinfo : list (string * goany)) : result error VerifiedIdentity :=
  match member userinfo (lc_SubjectField config) with
  | None => Err ("userinfo response has no " +:+ string_text (lc_SubjectField config) +:+ " field")
  | Some subjectRaw =>
    match member userinfo (lc_EmailField config) with
    | Some (AStr email) => Ok (mkIdentity email (jsonScalarToString subjectRaw))
    | _ => Err ("userinfo response has no " +:+ string_text (lc_EmailField config) +:+ " string field")
    end
  end.

(** The request with the access token, and what its answer gives. *)
Definition fetch_userinfo (config : OAuth2LoginConfig) (access : string) : result error VerifiedIdentity :=
  let! (status, body) := http_get (lc_UserinfoURL config) access in
  if ((status <? 200) || (300 <=? status))%Z then Err ("userinfo request returned status " +:+ FormatInt status)
  else let! userinfo := decode_userinfo body in identity_of config userinfo.

(** With the identity, the requests that carried the access token. *)
Definition OAuth2LoginVerifyCallback (config : OAuth2LoginConfig) (clientSecret code pkceVerifier : string)
  : result error VerifiedIdentity * list (string * string) :=
  match idp_Exchange (oauth2LoginClient config clientSecret) code pkceVerifier with
  | Err e => (Err ("OAuth2 code exchange failed: " +:+ e), [])
  | Panic => (Panic, [])
  | Ok token =>
    match url_Parse (lc_UserinfoURL config) with
    | None => (Err "invalid userinfo_url", [])
    | Some u =>
      match requireHTTPSOrLoopback u with
      | Some e => (Err e, [])
      | None => (fetch_userinfo config (it_AccessToken token), [(lc_UserinfoURL config, it_AccessToken token)])
      end
    end
  end.
End OAuth2.

(** ** What a callback guarantees *)

Section Guarantees.
Context `{!UuidLib} `{!Outside} `{!Idp}.
Variable http_get : string -> string -> result error (Z * option json).

(** A callback ends in an identity exactly when the provider exchanged the code for this
    client and verifier and its token was verified for the client, carries the nonce of
    the login and an email; the identity is that email and the token's subject. *)
Lemma oidc_callback_exact config secret code nonce verifier vi :
  OidcVerifyCallback config secret code nonce verifier = Ok vi <->
  exists client token raw idToken,
    oidcProviderAndVerifier config secret = Ok client /\ idp_Exchange client code verifier = Ok token /\
    it_id_token token = Some (JStr raw) /\ raw <> "" /\
    idp_Verify (oc_IssuerURL config) (oc_ClientID config) raw = Ok idToken /\ id_Nonce idToken = nonce /\
    unmarshal_struct "" email_claim_step (Some (id_claims idToken)) = Some (vi_Email vi) /\ vi_Email vi <> "" /\
    vi_ExternalSubject vi = id_Subject idToken.
Proof.
  unfold OidcVerifyCallback, raw_id_token, email_claim. split.
  - intros (client & Hc & R1)%rbind_ok. apply rbind_ok in R1 as (token & Ht & R2). apply rbind_ok in R2 as (raw & Hraw & R3).
    apply rbind_ok in R3 as (idToken & Hv & R4). exists client, token, raw, idToken.
    destruct (it_id_token token) as [[| | |r| |]|]; try done. destruct (String.eqb_spec r "") as [|Hne]; [done|]. injection Hraw as ->.
    destruct (String.eqb_spec (id_Nonce idToken) nonce) as [Hn|]; [|done]. cbn [negb] in R4. apply rbind_ok in R4 as (email & He & [= <-]).
    destruct (unmarshal_struct _ _ _) as [em|] eqn:Eu; [|done]. destruct (String.eqb_spec em "") as [|Hem]; [done|]. injection He as <-. done.
  - intros (client & token & raw & idToken & -> & Ht & Hid & Hraw & Hv & Hn & Hu & Hem & Hs). cbn [rbind]. rewrite Ht. cbn [rbind].
    rewrite Hid. destruct (String.eqb_spec raw "") as [|_]; [done|]. cbn [rbind]. rewrite Hv. cbn [rbind].
    rewrite Hn, String.eqb_refl. cbn [negb]. rewrite Hu. destruct (String.eqb_spec (vi_Email vi) "") as [|_]; [done|]. cbn [rbind].
    by destruct vi as [em su]; cbn in *; subst.
Qed.

(** The access token is sent once at most, to the configured address, and only over TLS
    or to the machine itself. *)
Lemma access_token_kept config secret code verifier :
  forall to token, (to, token) ∈ (OAuth2LoginVerifyCallback http_get config secret code verifier).2 ->
  to = lc_UserinfoURL config /\
  exists u, url_Parse to = Some u /\ (u_Scheme u = "https" \/ u_Hostname u ∈ ["localhost"; "127.0.0.1"; "::1"]).
Proof.
  intros to token. unfold OAuth2LoginVerifyCallback. destruct (idp_Exchange _ _ _) as [t| |]; try by intros ?%elem_of_nil.
  destruct (url_Parse (lc_UserinfoURL config)) as [u|] eqn:Eu; [|by intros ?%elem_of_nil].
  unfold requireHTTPSOrLoopback, is_loopback. destruct (String.eqb_spec (u_Scheme u) "https") as [Hs|_].
  - intros [= -> _]%list_elem_of_singleton. split; [done|]. exists u. auto.
  - destruct (_ || _) eqn:El; [|by intros ?%elem_of_nil]. intros [= -> _]%list_elem_of_singleton. split; [done|]. exists u.
    split; [done|]. right. rewrite !orb_true_iff, !String.eqb_eq in El. destruct El as [[->| ->]| ->]; set_solver.
Qed.
End Guarantees.

(** A provider that answers null for the identifier gives every user the subject
    null, and identifiers beyond 2^53 that differ in the last digit are one subject. *)
Lemma subjects_coincide :
  let config := mkOAuth2Login "" "" "" "" "" "" [] "" "id" "email" in
  let identity id email := let! m := decode_userinfo (Some (JObj [("id", id); ("email", JStr email)])) in identity_of config m in
  identity JNull "ada@x.org" = Ok (mkIdentity "ada@x.org" "null") /\ identity JNull "bob@x.org" = Ok (mkIdentity "bob@x.org" "null") /\
  identity (JNum "9007199254740993") "ada@x.org" = Ok (mkIdentity "ada@x.org" "9007199254740992") /\
  identity (JNum "9007199254740992") "bob@x.org" = Ok (mkIdentity "bob@x.org" "9007199254740992").
Proof. split_and!; vm_compute; reflexivity. Qed.

(** The empty email OpenID Connect refuses is accepted here. *)
Lemma empty_email_accepted :
  let config := mkOAuth2Login "" "" "" "" "" "" [] "" "id" "email" in
  (let! m := decode_userinfo (Some (JObj [("id", JNum "7"); ("email", JStr "")])) in identity_of config m) = Ok (mkIdentity "" "7") /\
  email_claim (JObj [("email", JStr "")]) = Err "IdP did not return an email claim".
Proof. split; vm_compute; reflexivity. Qed.
