(* ===== verification/HttpRuntime.v ===== *)
(** The middleware every HTTP server of the platform runs behind (src/go/runtime and
    httpserver/router.go): request ids, W3C trace context, the response writers that add
    security headers and fold the ids into error bodies, CORS, and the rate limit.

    A handler is the sequence of calls it makes on its ResponseWriter; what reaches the
    wire is what net/http makes of the calls on the last one: the header map is shared,
    and frozen by the first status. How a text reads as a JSON document is the parameter
    [parse_body]; the token bucket of one peer is an interface. *)
From S2P Require Import Prelude GoStrings GoText Json Floats Numbers Condition Context Uuid Evaluate Snapshot PermissionService.

Open Scope string_scope.
Open Scope list_scope.

(** ** Trace context (tracecontext.go) *)

Record TraceContext : Type := mkTrace { tc_TraceID : string; tc_ParentSpanID : string; tc_SpanID : string; tc_Sampled : bool }.

Definition hex_value (a : ascii) : option N :=
  let b := byte_of a in
  (if (48 <=? b) && (b <=? 57) then Some (b - 48)
   else if (97 <=? b) && (b <=? 102) then Some (b - 87)
   else if (65 <=? b) && (b <=? 70) then Some (b - 55) else None)%N.

(** hex.DecodeString. *)
Fixpoint hex_DecodeString (s : string) : option (list N) :=
  match s with
  | EmptyString => Some []
  | String a (String b s') =>
    match hex_value a, hex_value b, hex_DecodeString s' with
    | Some x, Some y, Some rest => Some ((x * 16 + y)%N :: rest)
    | _, _, _ => None
    end
  | String _ EmptyString => None
  end.

Definition isHex (s : string) : bool := match hex_DecodeString s with Some _ => true | None => false end.

Fixpoint allZero (s : string) : bool :=
  match s with EmptyString => true | String a s' => Ascii.eqb a "0" && allZero s' end.

Definition parseTraceparent (header : string) : option (string * string * bool) :=
  match Split header "-" with
  | [version; traceID; parentID; flags] =>
    if negb (Nat.eqb (String.length version) 2 && Nat.eqb (String.length traceID) 32 && Nat.eqb (String.length parentID) 16
             && Nat.eqb (String.length flags) 2) then None
    else if negb (isHex version && isHex traceID && isHex parentID && isHex flags) then None
    else if allZero traceID || allZero parentID then None
    else match hex_DecodeString flags with
         | Some (b :: _) => Some (traceID, parentID, negb (N.eqb (N.land b 1) 0))
         | _ => None
         end
  | _ => None
  end.

(** strings.ReplaceAll of the dashes of a uuid, and its first 16 bytes. *)
Definition newTraceID (u : string) : string := ReplaceByte u "-" "".
Definition newSpanID (u : string) : string := str_take 16 (ReplaceByte u "-" "").

(** [u1], [u2] are the texts of the uuids generated on the way. *)
Definition TraceContextFromHeaders (u1 u2 traceparent : string) : TraceContext :=
  match parseTraceparent traceparent with
  | Some (traceID, parentID, sampled) => mkTrace traceID parentID (newSpanID u1) sampled
  | None => mkTrace (newTraceID u1) "" (newSpanID u2) true
  end.

Definition ToTraceparentHeader (c : TraceContext) : string :=
  "00-" +:+ tc_TraceID c +:+ "-" +:+ tc_SpanID c +:+ "-" +:+ (if tc_Sampled c then "01" else "00").

(** httpclient.go: the header of an outbound request, if the context carries a trace. *)
Definition AttachTraceContext (c : option TraceContext) (header : gmap string string) : gmap string string :=
  match c with Some tc => <["traceparent" := ToTraceparentHeader tc]> header | None => header end.

(** ** Request ids (requestid.go) *)

Record RequestIDs : Type := mkIDs { ri_RequestID : string; ri_TraceID : string }.

Definition opaque_byte (a : ascii) : bool :=
  let b := byte_of a in
  ((65 <=? b) && (b <=? 90) || (97 <=? b) && (b <=? 122) || (48 <=? b) && (b <=? 57) || (b =? 45))%N.

(** ^[A-Za-z0-9-]{1,128}$ *)
Definition isValidOpaqueID (v : string) : bool :=
  negb (String.eqb v "") && Nat.leb (String.length v) 128 && all_bytes opaque_byte v.

(** http.Header.Get, on canonical names. *)
Definition hget (h : gmap string string) (name : string) : string := default "" (h !! name).

Definition headerOrNewUUID (fresh : string) (h : gmap string string) (name : string) : string :=
  if negb (String.eqb (hget h name) "") && isValidOpaqueID (hget h name) then hget h name else fresh.

Definition GenerateRequestIDs (u1 u2 u3 u4 : string) (h : gmap string string) : RequestIDs * TraceContext :=
  (mkIDs (headerOrNewUUID u2 h "x-request-id") (headerOrNewUUID u1 h "x-trace-id"),
   TraceContextFromHeaders u3 u4 (hget h "traceparent")).

(** ** Response writers *)

(** The writer of net/http: the live header map, the status and header that were sent,
    the body. *)
Record wire : Type := mkWireState { wr_header : gmap string string; wr_sent : option (Z * gmap string string); wr_body : string }.

Definition new_wire : wire := mkWireState ∅ None "".

Definition base_WriteHeader (status : Z) (w : wire) : wire :=
  match wr_sent w with
  | Some _ => w
  | None => mkWireState (wr_header w) (Some (status, wr_header w)) (wr_body w)
  end.

Definition base_Write (b : string) (w : wire) : wire :=
  let w := base_WriteHeader 200 w in mkWireState (wr_header w) (wr_sent w) (wr_body w +:+ b).

Definition edit_header (f : gmap string string -> gmap string string) (w : wire) : wire :=
  mkWireState (f (wr_header w)) (wr_sent w) (wr_body w).

(** Security headers (securityheaders.go). *)
Definition defaultCSP : string :=
  "default-src 'self'; base-uri 'self'; font-src 'self' https: data:; form-action 'self'; frame-ancestors 'self'; img-src 'self' data:; object-src 'none'; script-src 'self'; script-src-attr 'none'; style-src 'self' https: 'unsafe-inline'; upgrade-insecure-requests".

Definition fixedHeaders : list (string * string) :=
  [("Cross-Origin-Opener-Policy", "same-origin"); ("Cross-Origin-Resource-Policy", "same-origin"); ("Origin-Agent-Cluster", "?1");
   ("Referrer-Policy", "no-referrer"); ("Strict-Transport-Security", "max-age=15552000; includeSubDomains");
   ("X-Content-Type-Options", "nosniff"); ("X-DNS-Prefetch-Control", "off"); ("X-Download-Options", "noopen");
   ("X-Frame-Options", "SAMEORIGIN"); ("X-Permitted-Cross-Domain-Policies", "none"); ("X-XSS-Protection", "0")].

Definition set_all (l : list (string * string)) (h : gmap string string) : gmap string string :=
  insert_all fst snd l h.

Definition applyDefaults (h : gmap string string) : gmap string string :=
  let h := if String.eqb (hget h "Content-Security-Policy") "" then <["Content-Security-Policy" := defaultCSP]> h else h in
  set_all fixedHeaders h.

(** securityHeaderWriter: [wrote] and the writer below it. *)
Record sec_writer : Type := mkSec { sw_wrote : bool; sw_wire : wire }.

Definition sec_defaults (w : sec_writer) : wire :=
  if sw_wrote w then sw_wire w else edit_header applyDefaults (sw_wire w).

Definition sec_WriteHeader (status : Z) (w : sec_writer) : sec_writer := mkSec true (base_WriteHeader status (sec_defaults w)).
Definition sec_Write (b : string) (w : sec_writer) : sec_writer := mkSec true (base_Write b (sec_defaults w)).
Definition sec_header (f : gmap string string -> gmap string string) (w : sec_writer) : sec_writer :=
  mkSec (sw_wrote w) (edit_header f (sw_wire w)).

(** requestContextWriter (requestcontext.go). *)
Record rcw : Type := mkRcw {
  rw_ids : RequestIDs;
  rw_statusWritten : bool;
  rw_bufferMode : bool;
  rw_buf : string;
  rw_status : Z;
  rw_inner : sec_writer
}.

Definition new_rcw (ids : RequestIDs) : rcw := mkRcw ids false false "" 0 (mkSec false new_wire).

Definition set_ids (ids : RequestIDs) (h : gmap string string) : gmap string string :=
  <["x-trace-id" := ri_TraceID ids]> (<["x-request-id" := ri_RequestID ids]> h).

Definition rcw_WriteHeader (status : Z) (w : rcw) : rcw :=
  if rw_statusWritten w then w
  else
    let inner := sec_header (set_ids (rw_ids w)) (rw_inner w) in
    if (400 <=? status)%Z then mkRcw (rw_ids w) true true (rw_buf w) status inner
    else mkRcw (rw_ids w) true (rw_bufferMode w) (rw_buf w) status (sec_WriteHeader status inner).

Definition rcw_Write (b : string) (w : rcw) : rcw :=
  let w := if rw_statusWritten w then w else rcw_WriteHeader 200 w in
  if rw_bufferMode w then mkRcw (rw_ids w) (rw_statusWritten w) true (rw_buf w +:+ b) (rw_status w) (rw_inner w)
  else mkRcw (rw_ids w) (rw_statusWritten w) false (rw_buf w) (rw_status w) (sec_Write b (rw_inner w)).

Section Bodies.
Variable parse_body : string -> option json.

Definition add_ids (ids : RequestIDs) (errObj : list (string * goany)) : list (string * goany) :=
  assoc_insert "traceId" (AStr (ri_TraceID ids)) (assoc_insert "requestId" (AStr (ri_RequestID ids)) errObj).

(** The body of an error: a JSON object with an object under error gets the ids. *)
Definition patched (ids : RequestIDs) (body : string) : string :=
  match parse_body body ≫= unmarshal_any with
  | Some (AMap parsed) =>
    match snd <$> List.find (fun kv => String.eqb kv.1 "error") parsed with
    | Some (AMap errObj) => json_text (any_json (AMap (assoc_insert "error" (AMap (add_ids ids errObj)) parsed)))
    | _ => body
    end
  | _ => body
  end.

Definition rcw_finish (w : rcw) : wire :=
  let w := if rw_statusWritten w then w else rcw_WriteHeader 200 w in
  if negb (rw_bufferMode w) then sw_wire (rw_inner w)
  else sw_wire (sec_Write (patched (rw_ids w) (rw_buf w))
                 (sec_WriteHeader (rw_status w) (sec_header (delete "Content-Length") (rw_inner w)))).

(** ** A handler behind the middleware *)

Inductive call : Type :=
| SetHeader (name value : string)
| DelHeader (name : string)
| WriteHeader (status : Z)
| WriteBody (b : string).

Definition do_call (c : call) (w : rcw) : rcw :=
  match c with
  | SetHeader name value => mkRcw (rw_ids w) (rw_statusWritten w) (rw_bufferMode w) (rw_buf w) (rw_status w) (sec_header (<[name := value]>) (rw_inner w))
  | DelHeader name => mkRcw (rw_ids w) (rw_statusWritten w) (rw_bufferMode w) (rw_buf w) (rw_status w) (sec_header (delete name) (rw_inner w))
  | WriteHeader status => rcw_WriteHeader status w
  | WriteBody b => rcw_Write b w
  end.

(** SecurityHeaders(RequestContext(handler)). *)
Definition respond (ids : RequestIDs) (calls : list call) : wire :=
  rcw_finish (fold_left (fun w c => do_call c w) calls (new_rcw ids)).
End Bodies.

(** ** CORS (cors.go) *)

Record CORSOptions : Type := mkCORS { co_Origins : list string; co_Methods : list string; co_Headers : list string }.

Definition cors_headers (opts : CORSOptions) (origin : string) : list call :=
  [SetHeader "Access-Control-Allow-Origin" origin; SetHeader "Access-Control-Allow-Credentials" "true";
   SetHeader "Access-Control-Allow-Methods" (Join (co_Methods opts) ", "); SetHeader "Access-Control-Allow-Headers" (Join (co_Headers opts) ", ");
   SetHeader "Vary" "Origin"].

(** The calls of the middleware and of the handler behind it. *)
Definition CORS (opts : CORSOptions) (method origin : string) (next : list call) : list call :=
  match co_Origins opts with
  | [] => next
  | _ =>
    (if negb (String.eqb origin "") && existsb (String.eqb origin) (co_Origins opts) then cors_headers opts origin else [])
    ++ (if String.eqb method "OPTIONS" then [WriteHeader 204] else next)
  end.

(** httpserver/router.go *)
Definition router_cors (origins : list string) : CORSOptions :=
  mkCORS origins ["GET"; "POST"; "PATCH"; "DELETE"] ["Authorization"; "Content-Type"; "Accept"].

(** ** The rate limit (ratelimit.go) *)

(** A token bucket of golang.org/x/time/rate: Reserve and the delay it asks for in
    nanoseconds, Cancel, and Allow. *)
Class RateLib := {
  limiter : Type;
  NewLimiter : Z -> Z -> limiter;
  Reserve : Z -> limiter -> Z * limiter;
  Cancel : Z -> limiter -> limiter;
  Allow : Z -> limiter -> bool * limiter
}.

Section RateLimit.
Context `{!RateLib}.
Variable per burst : Z.

Definition limiterFor (key : string) (limiters : gmap string limiter) : limiter := default (NewLimiter per burst) (limiters !! key).

(** net.SplitHostPort's host, or the address itself. *)
Definition peer_key (split : string -> option string) (addr : string) : string := default addr (split addr).

(** math.Ceil of the seconds of a positive delay. *)
Definition retry_after (delay : Z) : Z := ((delay + 999999999) / 1000000000)%Z.

(** [inl]: refused, with Retry-After. *)
Definition RateLimit (split : string -> option string) (now : Z) (remoteAddr : string) (limiters : gmap string limiter)
  : (Z + unit) * gmap string limiter :=
  let host := peer_key split remoteAddr in
  let '(delay, l) := Reserve now (limiterFor host limiters) in
  if (0 <? delay)%Z then (inl (retry_after delay), <[host := Cancel now l]> limiters)
  else (inr tt, <[host := l]> limiters).

(** grpcapi/ratelimit.go: a request without a peer passes. *)
Definition UnaryInterceptor (split : string -> option string) (now : Z) (peer : option string) (limiters : gmap string limiter)
  : bool * gmap string limiter :=
  match peer with
  | None => (true, limiters)
  | Some addr =>
    let host := peer_key split addr in
    let '(ok, l) := Allow now (limiterFor host limiters) in (ok, <[host := l]> limiters)
  end.
End RateLimit.

(** ** Theorems

    What the middleware guarantees: the trace id of a call chain survives every hop;
    every response has the security headers and the ids of its request, whatever the
    handler does; and what the cross-origin settings of the router leave out. *)

(** ** The traceparent header *)

Lemma isHex_cons a b s : isHex (String a (String b s)) = true -> is_Some (hex_value a) /\ is_Some (hex_value b) /\ isHex s = true.
Proof. unfold isHex. simpl. destruct (hex_value a), (hex_value b), (hex_DecodeString s); eauto; discriminate. Qed.

Lemma hex_no_dash a : is_Some (hex_value a) -> Ascii.eqb a "-" = false.
Proof. intros [x Hx]. apply Ascii.eqb_neq. intros ->. discriminate Hx. Qed.

Lemma isHex_no_dash n s : (String.length s <= n)%nat -> isHex s = true -> ContainsByte s "-" = false.
Proof.
  revert s. induction n as [|n IH]; intros [|a [|b s]] Hn Hs; try done; simpl in Hn; try lia.
  apply isHex_cons in Hs as (Ha & Hb & Hs). simpl. rewrite (hex_no_dash a Ha), (hex_no_dash b Hb). simpl.
  apply IH; [lia | done].
Qed.

(** An identifier of a header: so many hexadecimal digits, not all zero. *)
Definition header_id (n : nat) (s : string) : Prop := String.length s = n /\ isHex s = true /\ allZero s = false.

(** The header of a context is read back as its trace, its span as the parent. *)
Lemma traceparent_roundtrip c :
  header_id 32 (tc_TraceID c) -> header_id 16 (tc_SpanID c) ->
  parseTraceparent (ToTraceparentHeader c) = Some (tc_TraceID c, tc_SpanID c, tc_Sampled c).
Proof.
  intros (Hl1 & Hh1 & Hz1) (Hl2 & Hh2 & Hz2). unfold parseTraceparent, ToTraceparentHeader.
  change ("00-" +:+ _) with ("00" +:+ String "-" (tc_TraceID c +:+ String "-" (tc_SpanID c +:+ String "-" (if tc_Sampled c then "01" else "00")))).
  rewrite Split_app by done. rewrite Split_app by by eapply isHex_no_dash. rewrite Split_app by by eapply isHex_no_dash.
  rewrite Split_no_sep by by destruct (tc_Sampled c). rewrite Hl1, Hl2, Hh1, Hh2, Hz1, Hz2. by destruct (tc_Sampled c).
Qed.

(** What is read has the form of an identifier, whatever the header. *)
Lemma parseTraceparent_ids header traceID parentID sampled :
  parseTraceparent header = Some (traceID, parentID, sampled) -> header_id 32 traceID /\ header_id 16 parentID.
Proof.
  unfold parseTraceparent. destruct (Split header "-") as [|v [|t [|p [|f [|]]]]]; try done.
  destruct (Nat.eqb (String.length v) 2 && _ && _ && _) eqn:El; [|done]. destruct (isHex v && _ && _ && _) eqn:Eh; [|done]. cbn [negb].
  destruct (allZero t || allZero p) eqn:Ez; [done|]. destruct (hex_DecodeString f) as [[|b ?]|]; try done. intros [= <- <- _].
  rewrite !andb_true_iff, !Nat.eqb_eq in El. rewrite !andb_true_iff in Eh. apply orb_false_iff in Ez.
  unfold header_id. naive_solver.
Qed.

(** A call chain: each hop reads the header of the one before and makes a span of its
    own from the texts of two uuids. *)
Fixpoint hops (us : list (string * string)) (c : TraceContext) : TraceContext :=
  match us with
  | [] => c
  | (u1, u2) :: rest => hops rest (TraceContextFromHeaders u1 u2 (ToTraceparentHeader c))
  end.

(** The trace id and the sampling decision survive any number of hops. *)
Lemma trace_survives us c :
  header_id 32 (tc_TraceID c) -> header_id 16 (tc_SpanID c) -> Forall (fun u => header_id 16 (newSpanID u.1)) us ->
  tc_TraceID (hops us c) = tc_TraceID c /\ tc_Sampled (hops us c) = tc_Sampled c.
Proof.
  revert c. induction us as [|[u1 u2] us IH]; intros c Ht Hs Hu; [done|]. apply Forall_cons in Hu as [Hu1 Hu]. simpl in *.
  unfold TraceContextFromHeaders at 1 2. rewrite traceparent_roundtrip by done.
  by apply (IH (mkTrace (tc_TraceID c) (tc_SpanID c) (newSpanID u1) (tc_Sampled c))).
Qed.

(** A version other than 00, undefined by the format, is accepted. *)
Lemma undefined_version_accepted :
  parseTraceparent "ff-4bf92f3577b34da6a3ce929d0e0e4736-00f067aa0ba902b7-01"
  = Some ("4bf92f3577b34da6a3ce929d0e0e4736", "00f067aa0ba902b7", true).
Proof. reflexivity. Qed.

(** ** Responses *)

Definition reserved : list string := ["x-request-id"; "x-trace-id"].

(** The handler leaves the headers of the ids alone. *)
Definition leaves_ids (c : call) : Prop :=
  match c with SetHeader name _ | DelHeader name => name ∉ reserved | _ => True end.

(** The status and the body the handler means to send. *)
Fixpoint status_of (calls : list call) : Z :=
  match calls with
  | [] => 200
  | WriteHeader status :: _ => status
  | WriteBody _ :: _ => 200
  | _ :: rest => status_of rest
  end.

Fixpoint body_of (calls : list call) : string :=
  match calls with [] => "" | WriteBody b :: rest => b +:+ body_of rest | _ :: rest => body_of rest end.

Definition has_ids (ids : RequestIDs) (h : gmap string string) : Prop :=
  h !! "x-request-id" = Some (ri_RequestID ids) /\ h !! "x-trace-id" = Some (ri_TraceID ids).

(** Every security header has its value, and there is a content policy. *)
Definition secured (h : gmap string string) : Prop :=
  (forall name value, (name, value) ∈ fixedHeaders -> h !! name = Some value) /\ hget h "Content-Security-Policy" <> "".

Lemma fixedHeaders_NoDup : NoDup (map fst fixedHeaders).
Proof. apply (bool_decide_eq_true _). vm_compute. reflexivity. Qed.

Lemma not_fixed name : bool_decide (name ∈ map fst fixedHeaders) = false -> name ∉ map fst fixedHeaders.
Proof. apply bool_decide_eq_false. Qed.

Lemma applyDefaults_secured h : secured (applyDefaults h).
Proof.
  unfold applyDefaults, set_all. split.
  - intros name value Hin. by apply (insert_all_in fst snd _ _ (name, value) fixedHeaders_NoDup).
  - unfold hget at 1. rewrite insert_all_out by by apply not_fixed. destruct (String.eqb_spec (hget h "Content-Security-Policy") "") as [|Hne].
    + by rewrite lookup_insert_eq.
    + exact Hne.
Qed.

Lemma applyDefaults_other name h :
  name ∈ reserved -> applyDefaults h !! name = h !! name.
Proof.
  intros Hr. unfold applyDefaults, set_all. assert (Hn : name ∉ map fst fixedHeaders /\ name <> "Content-Security-Policy").
  { apply elem_of_cons in Hr as [->|Hr]; [by split; [apply not_fixed|]|]. apply list_elem_of_singleton in Hr as ->. by split; [apply not_fixed|]. }
  rewrite insert_all_out by apply Hn. destruct (String.eqb _ _); [|done]. rewrite lookup_insert_ne by (intros He; by apply (proj2 Hn)). done.
Qed.

Lemma applyDefaults_ids ids h : has_ids ids h -> has_ids ids (applyDefaults h).
Proof. intros [H1 H2]. by split; rewrite applyDefaults_other by (apply (bool_decide_eq_true _); reflexivity). Qed.

Lemma set_ids_ids ids h : has_ids ids (set_ids ids h).
Proof. unfold set_ids. split; [by rewrite lookup_insert_ne by done; rewrite lookup_insert_eq | by rewrite lookup_insert_eq]. Qed.

(** The three states of the writer: no status yet; a status below 400, sent; an error,
    held back until the end. *)
Definition fresh_writer (ids : RequestIDs) (h : gmap string string) : rcw :=
  mkRcw ids false false "" 0 (mkSec false (mkWireState h None "")).
Definition sent_writer (ids : RequestIDs) (st : Z) (h hs : gmap string string) (body : string) : rcw :=
  mkRcw ids true false "" st (mkSec true (mkWireState h (Some (st, hs)) body)).
Definition held_writer (ids : RequestIDs) (st : Z) (h : gmap string string) (buf : string) : rcw :=
  mkRcw ids true true buf st (mkSec false (mkWireState h None "")).

Lemma app_empty_r s : s +:+ "" = s.
Proof. induction s as [|a s IH]; [done|]. exact (f_equal (String a) IH). Qed.

Lemma sent_calls ids st hs calls h body :
  exists h', fold_left (fun w c => do_call c w) calls (sent_writer ids st h hs body) = sent_writer ids st h' hs (body +:+ body_of calls).
Proof.
  revert h body. induction calls as [|c calls IH]; intros h body; simpl; [exists h; by rewrite app_empty_r|].
  destruct c as [name value|name|status|b]; [apply (IH (<[name := value]> h)) | apply (IH (delete name h)) | apply (IH h)|].
  destruct (IH h (body +:+ b)) as [h' Hh]. exists h'. rewrite app_str_assoc. exact Hh.
Qed.

Lemma held_calls ids st calls h buf :
  Forall leaves_ids calls -> has_ids ids h ->
  exists h', fold_left (fun w c => do_call c w) calls (held_writer ids st h buf) = held_writer ids st h' (buf +:+ body_of calls) /\ has_ids ids h'.
Proof.
  revert h buf. induction calls as [|c calls IH]; intros h buf Hc Hids; simpl; [exists h; by rewrite app_empty_r|].
  apply Forall_cons in Hc as [Hc Hcs]. destruct c as [name value|name|status|b]; simpl in Hc.
  - apply (IH (<[name := value]> h)); [done|]. destruct Hids as [H1 H2]. unfold reserved in Hc.
    split; rewrite lookup_insert_ne by (intros ->; apply Hc; apply (bool_decide_eq_true _); reflexivity); done.
  - apply (IH (delete name h)); [done|]. destruct Hids as [H1 H2]. unfold reserved in Hc.
    split; rewrite lookup_delete_ne by (intros ->; apply Hc; apply (bool_decide_eq_true _); reflexivity); done.
  - by apply (IH h).
  - destruct (IH h (buf +:+ b) Hcs Hids) as [h' Hh]. exists h'. rewrite app_str_assoc. exact Hh.
Qed.

Lemma first_status ids status h :
  do_call (WriteHeader status) (fresh_writer ids h)
  = if (400 <=? status)%Z then held_writer ids status (set_ids ids h) ""
    else sent_writer ids status (applyDefaults (set_ids ids h)) (applyDefaults (set_ids ids h)) "".
Proof. unfold do_call, rcw_WriteHeader. cbn [fresh_writer rw_statusWritten rw_ids rw_bufferMode rw_buf rw_inner]. by destruct (400 <=? status)%Z. Qed.

(** The decision is made by the first status. *)
Lemma fresh_calls ids calls h :
  Forall leaves_ids calls ->
  exists w, fold_left (fun w c => do_call c w) calls (fresh_writer ids h) = w /\
    ((exists h', w = fresh_writer ids h' /\ status_of calls = 200%Z /\ body_of calls = "") \/
     (exists h' hs, w = sent_writer ids (status_of calls) h' hs (body_of calls) /\ (status_of calls < 400)%Z /\ secured hs /\ has_ids ids hs) \/
     (exists h', w = held_writer ids (status_of calls) h' (body_of calls) /\ (400 <= status_of calls)%Z /\ has_ids ids h')).
Proof.
  revert h. induction calls as [|c calls IH]; intros h Hc; cbn [fold_left status_of body_of]; [eexists; split; [done|]; left; by exists h|].
  apply Forall_cons in Hc as [_ Hcs].
  destruct c as [name value|name|status|b]; [apply (IH (<[name := value]> h) Hcs) | apply (IH (delete name h) Hcs)| |].
  - rewrite first_status. destruct (Z.leb_spec 400 status) as [Hge|Hlt].
    + destruct (held_calls ids status calls (set_ids ids h) "" Hcs (set_ids_ids ids h)) as (h' & Hf & Hids).
      eexists. split; [exact Hf|]. right. right. by exists h'.
    + destruct (sent_calls ids status (applyDefaults (set_ids ids h)) calls (applyDefaults (set_ids ids h)) "") as (h' & Hf).
      eexists. split; [exact Hf|]. right. left. exists h', (applyDefaults (set_ids ids h)).
      split_and!; [done | done | apply applyDefaults_secured | apply applyDefaults_ids, set_ids_ids].
  - destruct (sent_calls ids 200 (applyDefaults (set_ids ids h)) calls (applyDefaults (set_ids ids h)) b) as (h' & Hf).
    eexists. split; [exact Hf|]. right. left. exists h', (applyDefaults (set_ids ids h)).
    split_and!; [done | done | apply applyDefaults_secured | apply applyDefaults_ids, set_ids_ids].
Qed.

(** Every response is decorated: whatever a handler that leaves the two headers alone
    does with its writer, the response has the status it asked for first, every security
    header and a content policy, and the ids of the request; its body is what the handler
    wrote, and for an error the same with the ids folded into its JSON. *)
Lemma responses_decorated parse_body ids calls :
  Forall leaves_ids calls ->
  exists h, wr_sent (respond parse_body ids calls) = Some (status_of calls, h) /\ secured h /\ has_ids ids h /\
    wr_body (respond parse_body ids calls)
    = if (400 <=? status_of calls)%Z then patched parse_body ids (body_of calls) else body_of calls.
Proof.
  intros Hc. unfold respond. destruct (fresh_calls ids calls ∅ Hc) as (w & Hw & Hcases). unfold new_rcw, new_wire.
  change (mkRcw ids false false "" 0 _) with (fresh_writer ids ∅). rewrite Hw.
  destruct Hcases as [(h' & -> & -> & ->)|[(h' & hs & -> & Hlt & Hs & Hi)|(h' & -> & Hge & Hi)]].
  - eexists. split; [reflexivity|]. split; [apply applyDefaults_secured|]. split; [apply applyDefaults_ids, set_ids_ids | reflexivity].
  - exists hs. rewrite (proj2 (Z.leb_gt _ _) Hlt). done.
  - eexists. rewrite (proj2 (Z.leb_le _ _) Hge). split; [reflexivity|]. split; [apply applyDefaults_secured|]. split; [|done].
    apply applyDefaults_ids. destruct Hi as [H1 H2]. split; cbn; by rewrite lookup_delete_ne.
Qed.

(** ** Cross-origin requests *)

(** An origin is allowed only if it is configured, and never by a wildcard. *)
Lemma cors_allows_configured opts method origin next v :
  SetHeader "Access-Control-Allow-Origin" v ∈ CORS opts method origin next ->
  SetHeader "Access-Control-Allow-Origin" v ∉ next -> v = origin /\ origin ∈ co_Origins opts /\ origin <> "".
Proof.
  unfold CORS. destruct (co_Origins opts) as [|o os]; [done|]. intros Hin Hnext.
  destruct (negb (String.eqb origin "") && existsb (String.eqb origin) (o :: os)) eqn:E.
  - apply andb_true_iff in E as [He (x & Hx & ->%String.eqb_eq)%existsb_exists]. apply negb_true_iff, String.eqb_neq in He.
    apply elem_of_app in Hin as [Hin|Hin].
    + unfold cors_headers in Hin. repeat apply elem_of_cons in Hin as [Hin|Hin]; try discriminate Hin.
      * injection Hin as ->. split_and!; [done | by apply list_elem_of_In | done].
      * by apply elem_of_nil in Hin.
    + destruct (String.eqb method "OPTIONS"); [|done]. by apply list_elem_of_singleton in Hin.
  - simpl in Hin. destruct (String.eqb method "OPTIONS"); [|done]. by apply list_elem_of_singleton in Hin.
Qed.

(** The answer to the preflight of an allowed origin names neither PUT, which the
    dashboard, preference and configuration routes use, nor the header of the CSRF token,
    which every change of a cookie session needs. *)
Lemma preflight_lacks_put_and_csrf :
  let w := respond (fun _ => None) (mkIDs "r" "t") (CORS (router_cors ["https://app.example"]) "OPTIONS" "https://app.example" []) in
  (fst <$> wr_sent w) = Some 204%Z /\
  (wr_sent w ≫= fun r => r.2 !! "Access-Control-Allow-Origin") = Some "https://app.example" /\
  (wr_sent w ≫= fun r => r.2 !! "Access-Control-Allow-Methods") = Some "GET, POST, PATCH, DELETE" /\
  (wr_sent w ≫= fun r => r.2 !! "Access-Control-Allow-Headers") = Some "Authorization, Content-Type, Accept".
Proof. split_and!; vm_compute; reflexivity. Qed.

(** ** The rate limit *)

Section Limits.
Context `{!RateLib}.
Variable per burst : Z.

(** A peer's requests change no other peer's bucket. *)
Lemma peers_limited_apart split now addr limiters key :
  key <> peer_key split addr -> (RateLimit per burst split now addr limiters).2 !! key = limiters !! key.
Proof.
  intros Hne. unfold RateLimit. destruct (Reserve now _) as [delay l]. destruct (0 <? delay)%Z; simpl; by rewrite lookup_insert_ne.
Qed.

(** A refusal asks to wait at least as long as the bucket needs, and less than a second
    longer. *)
Lemma retry_after_covers split now addr limiters s limiters' :
  RateLimit per burst split now addr limiters = (inl s, limiters') ->
  exists delay, delay = (Reserve now (limiterFor per burst (peer_key split addr) limiters)).1 /\
    (delay <= s * 1000000000 < delay + 1000000000)%Z /\ (1 <= s)%Z.
Proof.
  unfold RateLimit. destruct (Reserve now _) as [delay l]. destruct (Z.ltb_spec 0 delay) as [Hd|]; [|done]. intros [= <- _].
  exists delay. split; [done|]. unfold retry_after. Z.div_mod_to_equations. lia.
Qed.
End Limits.
