(* ===== verification/Caches.v ===== *)
(** The caches behind the interface the permission service uses (src/go/cache): in the
    process with go-cache, and in Redis. Both are instances of the class [Cache]; they
    keep tenants apart, answer what was last written until it expires, and forget what
    is invalidated.

    The state of a cache includes its clock, in nanoseconds; a Redis server is a map with
    the instant an entry expires, and is reachable or not. *)
From S2P Require Import Prelude GoStrings GoText Json Floats Numbers Condition Context Uuid Evaluate Snapshot PermissionService.

Open Scope string_scope.
Open Scope list_scope.

Definition validateKey (key : string) : option error :=
  if String.eqb key "" then Some "cache key must not be empty"
  else if Nat.ltb 256 (String.length key) then Some "cache key must be at most 256 bytes"
  else if existsb IsControl (runes key) then Some "cache key must not contain control characters"
  else None.

Section Caches.
Context `{UuidLib}.

Definition checked_key (scope key : string) : result error string :=
  match validateKey key with Some e => Err e | None => Ok (scope +:+ ":" +:+ key) end.

(** ** memorycache.go *)

Record MemoryCache : Type := mkMemory { mc_ttl : Z; mc_now : Z; mc_items : gmap string (json * option Z) }.

Definition memory_scopedKey (tenantID : uuid) (key : string) : result error string := checked_key (uuid_String tenantID) key.

(** go-cache: an entry is there until its instant has passed; without one it stays. *)
Definition live {V} (now : Z) (e : V * option Z) : bool := match e.2 with Some x => (now <=? x)%Z | None => true end.

Definition memory_Get (c : MemoryCache) (tenantID : uuid) (key : string) : result error (option json) :=
  let! scoped := memory_scopedKey tenantID key in
  Ok (match mc_items c !! scoped with Some e => if live (mc_now c) e then Some e.1 else None | None => None end).

(** SetDefault with the lifetime of the cache; none means for ever. *)
Definition memory_Set (c : MemoryCache) (tenantID : uuid) (key : string) (value : json) : result error MemoryCache :=
  let! scoped := memory_scopedKey tenantID key in
  let expires := if (0 <? mc_ttl c)%Z then Some (mc_now c + mc_ttl c)%Z else None in
  Ok (mkMemory (mc_ttl c) (mc_now c) (<[scoped := (value, expires)]> (mc_items c))).

Definition memory_Invalidate (c : MemoryCache) (tenantID : uuid) (key : string) : result error MemoryCache :=
  let! scoped := memory_scopedKey tenantID key in
  Ok (mkMemory (mc_ttl c) (mc_now c) (delete scoped (mc_items c))).

#[export] Instance Memory_Cache : Cache MemoryCache := {|
  cache_Get := memory_Get; cache_Set := memory_Set; cache_Invalidate := memory_Invalidate
|}.

(** ** rediscache.go *)

Record RedisCache : Type := mkRedis { rd_ttl : Z; rd_now : Z; rd_down : option error; rd_items : gmap string (json * option Z) }.

Definition redis_scopedKey (tenantID : uuid) (key : string) : result error string :=
  checked_key ("metap-cache:" +:+ uuid_String tenantID) key.

(** A call of the client. *)
Definition reached {A} (c : RedisCache) (a : A) : result error A := match rd_down c with Some e => Err e | None => Ok a end.

Definition redis_Get (c : RedisCache) (tenantID : uuid) (key : string) : result error (option json) :=
  let! scoped := redis_scopedKey tenantID key in
  reached c (match rd_items c !! scoped with Some e => if live (rd_now c) e then Some e.1 else None | None => None end).

Definition redis_lifetime (ttl : Z) : Z := if (ttl <? 1000000000)%Z then 1000000000%Z else ttl.

Definition redis_Set (c : RedisCache) (tenantID : uuid) (key : string) (value : json) : result error RedisCache :=
  let! scoped := redis_scopedKey tenantID key in
  reached c (mkRedis (rd_ttl c) (rd_now c) (rd_down c) (<[scoped := (value, Some (rd_now c + redis_lifetime (rd_ttl c))%Z)]> (rd_items c))).

Definition redis_Invalidate (c : RedisCache) (tenantID : uuid) (key : string) : result error RedisCache :=
  let! scoped := redis_scopedKey tenantID key in
  reached c (mkRedis (rd_ttl c) (rd_now c) (rd_down c) (delete scoped (rd_items c))).

#[export] Instance Redis_Cache : Cache RedisCache := {|
  cache_Get := redis_Get; cache_Set := redis_Set; cache_Invalidate := redis_Invalidate
|}.
End Caches.

(** ** What a cache promises *)

(** Reading back a write, until its lifetime has passed at the latest; other keys and
    other tenants are not touched; an invalidated key is gone. [later d] is the cache
    after so many nanoseconds, [lifetime] how long it keeps an entry, if it forgets. *)
Class CacheLaws `{UuidLib} (C : Type) `{!Cache C} (later : Z -> C -> C) (lifetime : C -> option Z) : Prop := {
  get_set : forall c c' t k v d, (0 <= d)%Z -> cache_Set c t k v = Ok c' ->
    cache_Get (later d c') t k = Ok (match lifetime c with Some l => if (d <=? l)%Z then Some v else None | None => Some v end);
  set_other : forall c c' t k v t' k', cache_Set c t k v = Ok c' -> (t', k') <> (t, k) -> cache_Get c' t' k' = cache_Get c t' k';
  get_invalidate : forall c c' t k, cache_Invalidate c t k = Ok c' -> cache_Get c' t k = Ok None;
  invalidate_other : forall c c' t k t' k', cache_Invalidate c t k = Ok c' -> (t', k') <> (t, k) -> cache_Get c' t' k' = cache_Get c t' k'
}.

Section Laws.
Context {UL : UuidLib} {ULaws : UuidLaws UL}.
(** The canonical text of an identifier has no colon. *)
Hypothesis no_colon : forall t : uuid, ContainsByte (uuid_String t) ":" = false.

Lemma Cut_first s rest : ContainsByte s ":" = false -> Cut (s +:+ String ":" rest) ":" = Some (s, rest).
Proof.
  induction s as [|a s IH]; intros Hs; [done|]. change (String a s +:+ String ":" rest) with (String a (s +:+ String ":" rest)). simpl in *.
  apply orb_false_iff in Hs as [Ha Hs]. rewrite Ha, IH by done. done.
Qed.

(** Tenant and key are read off a scoped key. *)
Lemma scope_inj t t' k k' : uuid_String t +:+ ":" +:+ k = uuid_String t' +:+ ":" +:+ k' -> (t, k) = (t', k').
Proof.
  intros He. apply (f_equal (fun s => Cut s ":")) in He. change (":" +:+ k) with (String ":" k) in He. change (":" +:+ k') with (String ":" k') in He.
  rewrite !Cut_first in He by done. injection He as Ht ->. by apply uuid_String_inj in Ht as ->.
Qed.

Lemma memory_key_inj t k s t' k' : memory_scopedKey t k = Ok s -> memory_scopedKey t' k' = Ok s -> (t', k') = (t, k).
Proof. unfold memory_scopedKey, checked_key. destruct (validateKey k), (validateKey k'); try done. intros [= <-] [= He]. by apply scope_inj. Qed.

Lemma redis_key_inj t k s t' k' : redis_scopedKey t k = Ok s -> redis_scopedKey t' k' = Ok s -> (t', k') = (t, k).
Proof.
  unfold redis_scopedKey, checked_key. destruct (validateKey k), (validateKey k'); try done. intros [= <-] [= He].
  by apply scope_inj.
Qed.

Definition memory_later (d : Z) (c : MemoryCache) : MemoryCache := mkMemory (mc_ttl c) (mc_now c + d) (mc_items c).
Definition redis_later (d : Z) (c : RedisCache) : RedisCache := mkRedis (rd_ttl c) (rd_now c + d) (rd_down c) (rd_items c).

Lemma live_after {V} now d l (v : V) : live (now + d) (v, Some (now + l)%Z) = (d <=? l)%Z.
Proof. unfold live. simpl. destruct (Z.leb_spec d l), (Z.leb_spec (now + d) (now + l)); lia || done. Qed.

#[export] Instance Memory_laws : CacheLaws MemoryCache memory_later (fun c => if (0 <? mc_ttl c)%Z then Some (mc_ttl c) else None).
Proof.
  constructor.
  - intros c c' t k v d Hd (s & Hs & [= <-])%rbind_ok. cbn. unfold memory_Get. rewrite Hs. cbn [rbind mc_items mc_now memory_later mc_ttl].
    rewrite lookup_insert_eq. destruct (0 <? mc_ttl c)%Z; [|done]. rewrite live_after. by destruct (d <=? mc_ttl c)%Z.
  - intros c c' t k v t' k' (s & Hs & [= <-])%rbind_ok Hne. cbn. unfold memory_Get. destruct (memory_scopedKey t' k') as [s'| |] eqn:Es; [|done|done].
    cbn [rbind mc_items mc_now]. rewrite lookup_insert_ne; [done|]. intros ->. by eapply Hne, memory_key_inj.
  - intros c c' t k (s & Hs & [= <-])%rbind_ok. cbn. unfold memory_Get. rewrite Hs. cbn [rbind mc_items]. by rewrite lookup_delete_eq.
  - intros c c' t k t' k' (s & Hs & [= <-])%rbind_ok Hne. cbn. unfold memory_Get. destruct (memory_scopedKey t' k') as [s'| |] eqn:Es; [|done|done].
    cbn [rbind mc_items mc_now]. rewrite lookup_delete_ne; [done|]. intros ->. by eapply Hne, memory_key_inj.
Qed.

Lemma reached_ok {A} c (a b : A) : reached c a = Ok b -> rd_down c = None /\ a = b.
Proof. unfold reached. destruct (rd_down c); [done|]. by intros [= ->]. Qed.

#[export] Instance Redis_laws : CacheLaws RedisCache redis_later (fun c => Some (redis_lifetime (rd_ttl c))).
Proof.
  constructor.
  - intros c c' t k v d Hd (s & Hs & [Hup <-]%reached_ok)%rbind_ok. cbn. unfold redis_Get. rewrite Hs.
    cbn [rbind rd_items rd_now redis_later rd_ttl rd_down]. unfold reached. cbn [rd_down redis_later]. rewrite Hup, lookup_insert_eq, live_after.
    by destruct (d <=? _)%Z.
  - intros c c' t k v t' k' (s & Hs & [Hup <-]%reached_ok)%rbind_ok Hne. cbn. unfold redis_Get.
    destruct (redis_scopedKey t' k') as [s'| |] eqn:Es; [|done|done]. cbn [rbind rd_items rd_now]. unfold reached. cbn [rd_down].
    rewrite lookup_insert_ne; [done|]. intros ->. by eapply Hne, redis_key_inj.
  - intros c c' t k (s & Hs & [Hup <-]%reached_ok)%rbind_ok. cbn. unfold redis_Get. rewrite Hs. cbn [rbind rd_items]. unfold reached. cbn [rd_down].
    by rewrite Hup, lookup_delete_eq.
  - intros c c' t k t' k' (s & Hs & [Hup <-]%reached_ok)%rbind_ok Hne. cbn. unfold redis_Get.
    destruct (redis_scopedKey t' k') as [s'| |] eqn:Es; [|done|done]. cbn [rbind rd_items rd_now]. unfold reached. cbn [rd_down].
    rewrite lookup_delete_ne; [done|]. intros ->. by eapply Hne, redis_key_inj.
Qed.
End Laws.

(** ** The permission service over any such cache *)

Section Client.
Context {UL : UuidLib} {St C : Type} `{!PolicyStore St} `{!Cache C} {later : Z -> C -> C} {lifetime : C -> option Z}.
Context {CL : CacheLaws C later lifetime}.

(** A policy that was created is seen by the next load, whatever was cached. *)
Lemma created_policy_is_loaded (st st' : St) (c c' : C) t p row :
  service_CreatePolicy st (Some c) t p = Ok (row, st', Some c') ->
  cache_Invalidate c t (policiesCacheKey (np_entity p)) = Ok c' ->
  (LoadSnapshot st' (Some c') t (np_entity p)).1 = LoadPermissionSnapshot st' t (np_entity p).
Proof.
  intros _ Hi. unfold LoadSnapshot. rewrite (get_invalidate c c' t _ Hi). unfold LoadPermissionSnapshot.
  by destruct (LoadAllPolicies st' t (np_entity p)).
Qed.

(** What a load leaves in the cache is no other tenant's and no other entity's. *)
Lemma load_touches_own_key (st : St) (c c' : C) t entity t' k' :
  (LoadSnapshot st (Some c) t entity).2 = Some c' -> (t', k') <> (t, policiesCacheKey entity) -> cache_Get c' t' k' = cache_Get c t' k'.
Proof.
  intros Hl Hne. unfold LoadSnapshot in Hl.
  destruct (match cache_Get c t (policiesCacheKey entity) with Ok (Some bytes) => _ | _ => _ end) as [rows| |]; [by injection Hl as <-| |by injection Hl as <-].
  destruct (LoadAllPolicies st t entity) as [rows| |]; [|by injection Hl as <-|by injection Hl as <-].
  destruct (marshal_rows rows) as [bytes|]; [|by injection Hl as <-].
  destruct (cache_Set c t (policiesCacheKey entity) bytes) as [c1| |] eqn:Es; injection Hl as <-; [by eapply set_other | done | done].
Qed.
End Client.
