(* ===== verification/Boot.v ===== *)
(** What a process reads at its start (src/go/runtime/env.go, infra/config.go,
    control/secretstorefactory.go): environment variables, the configuration with its
    required members, and which secret store they choose. An environment is a function. *)
From S2P Require Import Prelude GoStrings GoText Json Floats Numbers Condition Context Uuid Evaluate Snapshot PermissionService.

Open Scope string_scope.
Open Scope list_scope.

Section Env.
Variable env : string -> option string.

(** ** env.go *)

Definition Getenv (name : string) : string := default "" (env name).

Definition parseOr (raw : string) (def : Z) : Z := default def (ParseInt raw 64).

Definition EnvOr (name : string) (def : Z) : Z := match env name with None => def | Some raw => parseOr raw def end.

Definition RequireEnv (name : string) : result error string :=
  match env name with Some v => Ok v | None => Err (name +:+ " is required") end.

Definition nonEmpty (raw : string) : option string := if String.eqb raw "" then None else Some raw.

Definition Optional (name : string) : option string := nonEmpty (Getenv name).

Definition isTruthy (raw : string) : bool := String.eqb raw "true" || String.eqb raw "1".

Definition FlagEnabled (name : string) : bool := isTruthy (Getenv name).

(** ** config.go *)

Inductive NodeEnv : Type := NodeEnvDevelopment | NodeEnvTest | NodeEnvProduction.

(** uint64(n) of an int. *)
Definition to_uint64 (n : Z) : Z := (n mod 2 ^ 64)%Z.

Record VaultEnv : Type := mkVaultEnv { ve_Addr : string; ve_Token : string; ve_RoleID : string; ve_SecretID : string; ve_ApproleMount : string }.
Record AwsEnv : Type := mkAwsEnv { ae_Region : string; ae_AccessKey : string; ae_SecretKey : string; ae_EndpointURL : string }.
Record SmtpEnv : Type := mkSmtpEnv { se_Host : string; se_Port : Z; se_User : string; se_Password : string; se_From : string }.

Record AppConfig : Type := mkAppConfig {
  cfg_NodeEnv : NodeEnv;
  cfg_Host : string;
  cfg_Port : Z;
  cfg_DatabaseURL : string;
  cfg_OutboxDatabaseURL : string;
  cfg_RabbitMQURL : string;
  cfg_CORSOrigins : list string;
  cfg_AuthJWTPublicKeyPath : string;
  cfg_AuthJWTPrivateKeyPath : string;
  cfg_StaticDir : string;
  cfg_Vault : VaultEnv;
  cfg_AWS : AwsEnv;
  cfg_GCPSecretsProjectID : string;
  cfg_AuthContextEntity : string;
  cfg_AuthContextCacheTTLSeconds : Z;
  cfg_PolicyCacheRedisURL : string;
  cfg_PolicyCacheTTLSeconds : Z;
  cfg_SMTP : SmtpEnv
}.

Definition OutboxDatabaseURLOrDefault (c : AppConfig) : string :=
  if String.eqb (cfg_OutboxDatabaseURL c) "" then cfg_DatabaseURL c else cfg_OutboxDatabaseURL c.

(** strings.Contains *)
Fixpoint Contains (s sub : string) : bool :=
  HasPrefix s sub || match s with EmptyString => false | String _ s' => Contains s' sub end.

Definition isURLLike (s : string) : bool := Contains s "://" && negb (String.eqb (TrimSpace s) "").

Definition node_env : NodeEnv :=
  if String.eqb (Getenv "NODE_ENV") "test" then NodeEnvTest
  else if String.eqb (Getenv "NODE_ENV") "production" then NodeEnvProduction else NodeEnvDevelopment.

Definition port : Z :=
  match ParseInt (Getenv "PORT") 64 with Some p => if (0 <? p)%Z then p else 3000%Z | None => 3000%Z end.

Definition required_url (name : string) : result error string :=
  match env name with
  | None => Err (name +:+ " is required")
  | Some v => if isURLLike v then Ok v else Err (name +:+ " must be a valid URL")
  end.

Definition optional_url (name : string) : result error string :=
  let v := Getenv name in
  if String.eqb v "" then Ok "" else if isURLLike v then Ok v else Err (name +:+ " must be a valid URL").

Definition required_path (name : string) : result error string :=
  if String.eqb (Getenv name) "" then Err (name +:+ " is required") else Ok (Getenv name).

Definition cors_origins : list string :=
  if String.eqb (Getenv "CORS_ORIGINS") "" then []
  else List.filter (fun o => negb (String.eqb o "")) (Split (Getenv "CORS_ORIGINS") ",").

(** v, _ := Optional(name) *)
Definition or_empty (name : string) : string := default "" (Optional name).

Definition LoadConfig : result error AppConfig :=
  let hostStr := if String.eqb (Getenv "HOST") "" then "0.0.0.0" else Getenv "HOST" in
  let! databaseURL := required_url "DATABASE_URL" in
  let! outboxDatabaseURL := optional_url "OUTBOX_DATABASE_URL" in
  let! rabbitmqURL := required_url "RABBITMQ_URL" in
  let! publicKeyPath := required_path "AUTH_JWT_PUBLIC_KEY_PATH" in
  let! privateKeyPath := required_path "AUTH_JWT_PRIVATE_KEY_PATH" in
  Ok (mkAppConfig node_env hostStr port databaseURL outboxDatabaseURL rabbitmqURL cors_origins publicKeyPath privateKeyPath
        (or_empty "STATIC_DIR")
        (mkVaultEnv (or_empty "VAULT_ADDR") (or_empty "VAULT_TOKEN") (or_empty "VAULT_ROLE_ID") (or_empty "VAULT_SECRET_ID")
           (or_empty "VAULT_APPROLE_MOUNT"))
        (mkAwsEnv (or_empty "AWS_SECRETS_REGION") (or_empty "AWS_SECRETS_ACCESS_KEY") (or_empty "AWS_SECRETS_SECRET_KEY")
           (or_empty "AWS_SECRETS_ENDPOINT_URL"))
        (or_empty "GCP_SECRETS_PROJECT_ID") (or_empty "AUTH_CONTEXT_ENTITY")
        (to_uint64 (EnvOr "AUTH_CONTEXT_CACHE_TTL_SECONDS" 30)) (or_empty "POLICY_CACHE_REDIS_URL")
        (to_uint64 (EnvOr "POLICY_CACHE_TTL_SECONDS" 30))
        (mkSmtpEnv (or_empty "SMTP_HOST") (EnvOr "SMTP_PORT" 1025) (or_empty "SMTP_USER") (or_empty "SMTP_PASSWORD") (or_empty "SMTP_FROM"))).

(** ** secretstorefactory.go *)

Record SecretStoreConfig : Type := mkSecretConfig { sc_Vault : VaultEnv; sc_AWS : AwsEnv; sc_GCP : string }.

Definition SecretStoreConfigFromAppConfig (c : AppConfig) : SecretStoreConfig :=
  mkSecretConfig (cfg_Vault c) (cfg_AWS c) (cfg_GCPSecretsProjectID c).

Definition SecretStoreConfigFromEnv : SecretStoreConfig :=
  mkSecretConfig
    (mkVaultEnv (or_empty "VAULT_ADDR") (or_empty "VAULT_TOKEN") (or_empty "VAULT_ROLE_ID") (or_empty "VAULT_SECRET_ID")
       (or_empty "VAULT_APPROLE_MOUNT"))
    (mkAwsEnv (or_empty "AWS_SECRETS_REGION") (or_empty "AWS_SECRETS_ACCESS_KEY") (or_empty "AWS_SECRETS_SECRET_KEY")
       (or_empty "AWS_SECRETS_ENDPOINT_URL"))
    (or_empty "GCP_SECRETS_PROJECT_ID").
End Env.

Definition defaultApproleMount : string := "approle".

(** The store a configuration chooses, with the arguments of its constructor. *)
Inductive chosen_store : Type :=
| UseGcp (projectID : string)
| UseAws (aws : AwsEnv)
| UseVaultAppRole (addr mount roleID secretID : string)
| UseVaultToken (addr token : string)
| UseEnv.

Definition is_empty (s : string) : bool := String.eqb s "".

Definition BuildSecretStore (c : SecretStoreConfig) : result error chosen_store :=
  if negb (is_empty (sc_GCP c)) then Ok (UseGcp (sc_GCP c))
  else if negb (is_empty (ae_Region (sc_AWS c))) then
    if is_empty (ae_AccessKey (sc_AWS c)) then Err "AWS_SECRETS_REGION is set but AWS_SECRETS_ACCESS_KEY is not"
    else if is_empty (ae_SecretKey (sc_AWS c)) then Err "AWS_SECRETS_REGION is set but AWS_SECRETS_SECRET_KEY is not"
    else Ok (UseAws (sc_AWS c))
  else
    let v := sc_Vault c in
    if negb (is_empty (ve_Addr v)) then
      if negb (is_empty (ve_RoleID v)) && negb (is_empty (ve_SecretID v)) then
        Ok (UseVaultAppRole (ve_Addr v) (if is_empty (ve_ApproleMount v) then defaultApproleMount else ve_ApproleMount v) (ve_RoleID v) (ve_SecretID v))
      else if negb (is_empty (ve_Token v)) then Ok (UseVaultToken (ve_Addr v) (ve_Token v))
      else Err "VAULT_ADDR is set but neither VAULT_TOKEN nor VAULT_ROLE_ID+VAULT_SECRET_ID is"
    else Ok UseEnv.

(** ** What is accepted *)

Lemma required_url_ok env name v : required_url env name = Ok v -> env name = Some v /\ isURLLike v = true.
Proof. unfold required_url. destruct (env name) as [x|]; [|done]. destruct (isURLLike x) eqn:E; [|done]. by intros [= <-]. Qed.

(** A configuration that loads has its required members, a positive port, lifetimes that
    are 64-bit numbers, and no empty origin; and it chooses the secret store the
    environment alone would choose. *)
Lemma LoadConfig_ok env c :
  LoadConfig env = Ok c ->
  isURLLike (cfg_DatabaseURL c) = true /\ isURLLike (cfg_RabbitMQURL c) = true /\ isURLLike (OutboxDatabaseURLOrDefault c) = true /\
  cfg_AuthJWTPublicKeyPath c <> "" /\ cfg_AuthJWTPrivateKeyPath c <> "" /\ (0 < cfg_Port c)%Z /\
  (0 <= cfg_PolicyCacheTTLSeconds c < 2 ^ 64)%Z /\ "" ∉ cfg_CORSOrigins c /\
  SecretStoreConfigFromAppConfig c = SecretStoreConfigFromEnv env.
Proof.
  intros (db & [_ Hdb]%required_url_ok & R)%rbind_ok. apply rbind_ok in R as (outbox & Hout & R).
  apply rbind_ok in R as (mq & [_ Hmq]%required_url_ok & R). apply rbind_ok in R as (pub & Hpub & R). apply rbind_ok in R as (priv & Hpriv & [= <-]).
  unfold required_path in Hpub, Hpriv. destruct (String.eqb_spec (Getenv env "AUTH_JWT_PUBLIC_KEY_PATH") "") as [|Hp]; [done|].
  destruct (String.eqb_spec (Getenv env "AUTH_JWT_PRIVATE_KEY_PATH") "") as [|Hq]; [done|]. injection Hpub as <-. injection Hpriv as <-.
  unfold OutboxDatabaseURLOrDefault. cbn [cfg_DatabaseURL cfg_OutboxDatabaseURL cfg_RabbitMQURL cfg_AuthJWTPublicKeyPath cfg_AuthJWTPrivateKeyPath cfg_Port cfg_PolicyCacheTTLSeconds cfg_CORSOrigins].
  split_and!; try done.
  - destruct (String.eqb_spec outbox "") as [|Hne]; [done|]. unfold optional_url in Hout.
    destruct (String.eqb _ ""); [by injection Hout as <-|]. destruct (isURLLike (Getenv env "OUTBOX_DATABASE_URL")) eqn:E; [|done]. by injection Hout as <-.
  - unfold port. destruct (ParseInt _ _) as [p|]; [|lia]. destruct (Z.ltb_spec 0 p); lia.
  - apply Z.mod_pos_bound. lia.
  - apply Z.mod_pos_bound. lia.
  - unfold cors_origins. destruct (String.eqb _ _); [apply not_elem_of_nil|]. rewrite list_elem_of_In, filter_In. by intros [_ ?].
Qed.

(** A negative lifetime is one of more than five hundred billion years. *)
Lemma negative_lifetime_wraps : to_uint64 (EnvOr (fun _ => Some "-1") "POLICY_CACHE_TTL_SECONDS" 30) = 18446744073709551615%Z.
Proof. reflexivity. Qed.
