(* ===== verification/SecretStores.v ===== *)
(** The secret stores (src/go/control/secretstore.go, vaultstore.go,
    awssecretsmanagerstore.go, gcpsecretmanagerstore.go) behind one interface: the class
    [SecretStore] with the laws a client relies on, and its four implementations.

    The service behind a store is a map of what it holds and the failures it answers
    with; the document a cloud store keeps under a name is its JSON. A store is passed
    from call to call, because Vault's renews its token on the way. *)
From S2P Require Import Prelude GoStrings GoText Json Floats Numbers Condition Context Uuid Evaluate Snapshot PermissionService Users PolicyStore Metadata Schema Router Payload Workflow AuditTrail Sql ConditionSql Jql Planner Records Times Crud CrudOutcomes CrudProps CrudState CrudReads Aggregate Authn Cron Boot.

Open Scope string_scope.
Open Scope list_scope.

Class SecretStore (S : Type) := {
  DbCredentials : string -> S -> result error string * S;
  GetSecret : string -> S -> result error string * S;
  PutSecret : string -> string -> S -> result error unit * S;
  DeleteSecret : string -> S -> result error unit * S
}.

(** ** The environment (secretstore.go) *)

Definition EnvStore : Type := string -> option string.

Definition env_lookup (what ref : string) (s : EnvStore) : result error string :=
  match s ref with Some v => Ok v | None => Err ("env var " +:+ ref +:+ " is not set (" +:+ what +:+ " lookup)") end.

Definition env_read_only : string := "the environment-variable secret backend is read-only: ".
Definition env_put_refused (ref : string) : error :=
  env_read_only +:+ "set " +:+ ref +:+ " in this deployment's environment, or configure Vault/AWS Secrets Manager/GCP Secret Manager to let tenants manage their own secrets".
Definition env_delete_refused (ref : string) : error := env_read_only +:+ "unset " +:+ ref +:+ " in this deployment's environment".

#[export] Instance Env_SecretStore : SecretStore EnvStore := {|
  DbCredentials ref s := (env_lookup "dsn_secret_ref" ref s, s);
  GetSecret ref s := (env_lookup "secret" ref s, s);
  PutSecret ref _ s := (Err (env_put_refused ref), s);
  DeleteSecret ref s := (Err (env_delete_refused ref), s)
|}.

(** ** AWS Secrets Manager and GCP Secret Manager *)

(** A container without a version, or with its latest: a JSON text, or no text. *)
Inductive container : Type := NoVersion | Latest (value : option json).

(** The containers of a service; which of its calls fail. *)
Record cloud : Type := mkCloud {
  cl_items : gmap string container;
  cl_create : option error;
  cl_write : option error;
  cl_read : option error;
  cl_delete : option error
}.

Definition with_items (c : cloud) (m : gmap string container) : cloud := mkCloud m (cl_create c) (cl_write c) (cl_read c) (cl_delete c).

(** CreateSecret, whose error the code drops: an existing container is one. *)
Definition create_secret (name : string) (c : cloud) : cloud :=
  match cl_create c, cl_items c !! name with None, None => with_items c (<[name := NoVersion]> (cl_items c)) | _, _ => c end.

(** PutSecretValue and AddSecretVersion. *)
Definition write_value (name : string) (payload : json) (c : cloud) : result error unit * cloud :=
  match cl_write c, cl_items c !! name with
  | Some e, _ => (Err e, c)
  | None, None => (Err "ResourceNotFoundException", c)
  | None, Some _ => (Ok tt, with_items c (<[name := Latest (Some payload)]> (cl_items c)))
  end.

Definition read_value (name : string) (c : cloud) : result error (option json) :=
  match cl_read c, cl_items c !! name with
  | Some e, _ => Err e
  | None, Some (Latest v) => Ok v
  | None, _ => Err "ResourceNotFoundException"
  end.

Definition delete_value (name : string) (c : cloud) : result error unit * cloud :=
  match cl_delete c, cl_items c !! name with
  | Some e, _ => (Err e, c)
  | None, None => (Err "ResourceNotFoundException", c)
  | None, Some _ => (Ok tt, with_items c (delete name (cl_items c)))
  end.

(** json.Unmarshal into a struct with one text field. *)
Definition field_step (name : string) (st : string * bool) (kv : string * json) : string * bool :=
  if key_matches name kv.1 then into_string st kv.2 else st.
Definition unmarshal_field (name : string) (j : json) : option string := unmarshal_struct "" (field_step name) (Some j).

(** What a text is after json.Marshal and json.Unmarshal: bytes that are not UTF-8
    become U+FFFD. *)
Definition wire_text (s : string) : string := of_runes (runes s).

Definition payload (member value : string) : json := JObj [(member, JStr (wire_text value))].

Definition shape_error (service member ref : string) : error :=
  service +:+ " secret " +:+ ref +:+ " is not the expected {" +:+ quote +:+ member +:+ quote +:+ ": ...} JSON shape".

Definition wrap {A} (what name : string) (r : result error A) : result error A :=
  match r with Err e => Err (what +:+ " failed for " +:+ name +:+ ": " +:+ e) | r => r end.

(** awssecretsmanagerstore.go *)
Record AwsSecretsManagerStore : Type := mkAws { aws_service : cloud }.

Definition aws_put (member ref value : string) (s : AwsSecretsManagerStore) : result error unit * AwsSecretsManagerStore :=
  let c := create_secret ref (aws_service s) in
  let '(r, c') := write_value ref (payload member value) c in (wrap "AWS Secrets Manager put_secret_value" ref r, mkAws c').

Definition aws_get (field member ref : string) (s : AwsSecretsManagerStore) : result error string :=
  let! value := wrap "AWS Secrets Manager get_secret_value" ref (read_value ref (aws_service s)) in
  match value with
  | None => Err ("AWS Secrets Manager secret " +:+ ref +:+ " has no SecretString value")
  | Some doc => match unmarshal_field field doc with
                | Some v => Ok v
                | None => Err (shape_error "AWS Secrets Manager" member ref)
                end
  end.

Definition aws_PutDSN (ref dsn : string) (s : AwsSecretsManagerStore) := aws_put "dsn" ref dsn s.

Definition aws_delete (ref : string) (s : AwsSecretsManagerStore) : result error unit * AwsSecretsManagerStore :=
  let '(r, c) := delete_value ref (aws_service s) in (wrap "AWS Secrets Manager delete_secret" ref r, mkAws c).

#[export] Instance Aws_SecretStore : SecretStore AwsSecretsManagerStore := {|
  DbCredentials ref s := (aws_get "Dsn" "dsn" ref s, s);
  GetSecret ref s := (aws_get "Value" "value" ref s, s);
  PutSecret ref value s := aws_put "value" ref value s;
  DeleteSecret ref s := aws_delete ref s
|}.

(** gcpsecretmanagerstore.go *)
Record GcpSecretManagerStore : Type := mkGcp { gcp_projectID : string; gcp_service : cloud }.

Definition secretResourceName (s : GcpSecretManagerStore) (ref : string) : string := "projects/" +:+ gcp_projectID s +:+ "/secrets/" +:+ ref.

Definition ensureSecretExists (ref : string) (s : GcpSecretManagerStore) : GcpSecretManagerStore :=
  mkGcp (gcp_projectID s) (create_secret (secretResourceName s ref) (gcp_service s)).

Definition addVersion (ref : string) (doc : json) (s : GcpSecretManagerStore) : result error unit * GcpSecretManagerStore :=
  let s := ensureSecretExists ref s in
  let '(r, c) := write_value (secretResourceName s ref) doc (gcp_service s) in (r, mkGcp (gcp_projectID s) c).

Definition accessLatest (ref : string) (s : GcpSecretManagerStore) : result error json :=
  let! value := read_value (secretResourceName s ref) (gcp_service s) in
  match value with Some doc => Ok doc | None => Err ("GCP Secret Manager secret " +:+ ref +:+ " has no payload") end.

Definition gcp_put (member ref value : string) (s : GcpSecretManagerStore) : result error unit * GcpSecretManagerStore :=
  let '(r, s') := addVersion ref (payload member value) s in (wrap "GCP Secret Manager add_secret_version" ref r, s').

Definition gcp_get (field member ref : string) (s : GcpSecretManagerStore) : result error string :=
  let! doc := wrap "GCP Secret Manager access_secret_version" ref (accessLatest ref s) in
  match unmarshal_field field doc with
  | Some v => Ok v
  | None => Err (shape_error "GCP Secret Manager" member ref)
  end.

Definition gcp_PutDSN (ref dsn : string) (s : GcpSecretManagerStore) := gcp_put "dsn" ref dsn s.

Definition gcp_delete (ref : string) (s : GcpSecretManagerStore) : result error unit * GcpSecretManagerStore :=
  let '(r, c) := delete_value (secretResourceName s ref) (gcp_service s) in
  (wrap "GCP Secret Manager delete_secret" ref r, mkGcp (gcp_projectID s) c).

#[export] Instance Gcp_SecretStore : SecretStore GcpSecretManagerStore := {|
  DbCredentials ref s := (gcp_get "Dsn" "dsn" ref s, s);
  GetSecret ref s := (gcp_get "Value" "value" ref s, s);
  PutSecret ref value s := gcp_put "value" ref value s;
  DeleteSecret ref s := gcp_delete ref s
|}.

(** ** Vault (vaultstore.go) *)

Definition vaultMount : string := "secret".
Definition vaultDSNPathPrefix : string := "metap/dsn".
Definition vaultSecretPathPrefix : string := "metap/secret".
(** in nanoseconds *)
Definition vaultRenewBuffer : Z := 60000000000.

Record vaultAppRoleConfig : Type := mkAppRole { ar_mount : string; ar_roleID : string; ar_secretID : string }.

(** What the server answers: a token and its lease in seconds, or no auth information;
    a renewal gives a lease. *)
Class VaultAuth := {
  vault_login : Z -> vaultAppRoleConfig -> result error (option (string * Z));
  vault_renew : Z -> string -> result error (option Z)
}.

(** [vs_logins] counts the uses of the secret id. *)
Record VaultStore : Type := mkVault {
  vs_token : string;
  vs_expiresAt : option Z;
  vs_approle : option vaultAppRoleConfig;
  vs_now : Z;
  vs_logins : nat;
  vs_fault : option error;
  vs_kv : gmap string (list (string * json))
}.

Definition expiryFromLease (now lease : Z) : option Z := if (lease =? 0)%Z then None else Some (now + lease * 1000000000)%Z.

Definition NewVaultStore (now : Z) (token : string) (kv : gmap string (list (string * json))) : VaultStore :=
  mkVault token None None now 0 None kv.

Section Vault.
Context `{!VaultAuth}.

Definition loginApprole (now : Z) (role : vaultAppRoleConfig) : result error (string * option Z) :=
  match vault_login now role with
  | Err e => Err ("AppRole login failed against mount " +:+ ar_mount role +:+ ": " +:+ e)
  | Panic => Panic
  | Ok None => Err ("AppRole login against mount " +:+ ar_mount role +:+ " returned no auth info")
  | Ok (Some (token, lease)) => Ok (token, expiryFromLease now lease)
  end.

Definition NewVaultStoreWithAppRole (now : Z) (role : vaultAppRoleConfig) (kv : gmap string (list (string * json))) : result error VaultStore :=
  let! (token, expiresAt) := loginApprole now role in
  Ok (mkVault token expiresAt (Some role) now 1 None kv).

Definition NewVaultStoreWithDefaultAppRole (now : Z) (roleID secretID : string) (kv : gmap string (list (string * json))) : result error VaultStore :=
  NewVaultStoreWithAppRole now (mkAppRole defaultApproleMount roleID secretID) kv.

Definition needs_renew (s : VaultStore) : bool :=
  match vs_expiresAt s with Some x => (x <? vs_now s + vaultRenewBuffer)%Z | None => false end.

Definition with_auth (s : VaultStore) (token : string) (expiresAt : option Z) (logins : nat) : VaultStore :=
  mkVault token expiresAt (vs_approle s) (vs_now s) logins (vs_fault s) (vs_kv s).

Definition ensureFreshToken (s : VaultStore) : result error unit * VaultStore :=
  match vs_approle s with
  | None => (Ok tt, s)
  | Some role =>
    if negb (needs_renew s) then (Ok tt, s)
    else match vault_renew (vs_now s) (vs_token s) with
         | Ok (Some lease) => (Ok tt, with_auth s (vs_token s) (expiryFromLease (vs_now s) lease) (vs_logins s))
         | _ =>
           match loginApprole (vs_now s) role with
           | Ok (token, expiresAt) => (Ok tt, with_auth s token expiresAt (S (vs_logins s)))
           | Err e => (Err ("AppRole re-login (renewal fallback) failed: " +:+ e), with_auth s (vs_token s) (vs_expiresAt s) (S (vs_logins s)))
           | Panic => (Panic, s)
           end
         end
  end.

(** A call on the KV store with a fresh token; [what] and [path] name it in its error. *)
Definition kv2 {A} (what path : string) (call : VaultStore -> result error A * VaultStore) (s : VaultStore) : result error A * VaultStore :=
  match ensureFreshToken s with
  | (Ok _, s1) =>
    match match vs_fault s1 with Some e => (Err e, s1) | None => call s1 end with
    | (Err e, s2) => (Err (what +:+ " at " +:+ vaultMount +:+ "/" +:+ path +:+ ": " +:+ e), s2)
    | r => r
    end
  | (Err e, s1) => (Err e, s1)
  | (Panic, s1) => (Panic, s1)
  end.

Definition with_kv (s : VaultStore) (kv : gmap string (list (string * json))) : VaultStore :=
  mkVault (vs_token s) (vs_expiresAt s) (vs_approle s) (vs_now s) (vs_logins s) (vs_fault s) kv.

Definition kv_put (what path member value : string) (s : VaultStore) : result error unit * VaultStore :=
  kv2 ("vault kv2 write failed for " +:+ what) path
    (fun s => (Ok tt, with_kv s (<[path := [(member, JStr (wire_text value))]]> (vs_kv s)))) s.

(** secret.Data[member].(string), the empty text when it is not one. *)
Definition data_text (data : list (string * json)) (member : string) : string :=
  match List.find (fun kv => String.eqb kv.1 member) data with Some (_, JStr v) => v | _ => "" end.

Definition kv_get (what path member : string) (s : VaultStore) : result error string * VaultStore :=
  kv2 ("vault kv2 read failed for " +:+ what) path
    (fun s => match vs_kv s !! path with
              | Some data => (Ok (data_text data member), s)
              | None => (Err "secret not found", s)
              end) s.

Definition kv_delete (what path : string) (s : VaultStore) : result error unit * VaultStore :=
  kv2 ("vault kv2 delete failed for " +:+ what) path (fun s => (Ok tt, with_kv s (delete path (vs_kv s)))) s.

Definition dsn_path (ref : string) : string := vaultDSNPathPrefix +:+ "/" +:+ ref.
Definition secret_path (ref : string) : string := vaultSecretPathPrefix +:+ "/" +:+ ref.

Definition vault_PutDSN (ref dsn : string) (s : VaultStore) : result error unit * VaultStore :=
  kv_put ("dsn_secret_ref " +:+ ref) (dsn_path ref) "dsn" dsn s.

#[export] Instance Vault_SecretStore : SecretStore VaultStore := {|
  DbCredentials ref s := kv_get ("dsn_secret_ref " +:+ ref) (dsn_path ref) "dsn" s;
  GetSecret ref s := kv_get ("secret " +:+ ref) (secret_path ref) "value" s;
  PutSecret ref value s := kv_put ("secret " +:+ ref) (secret_path ref) "value" value s;
  DeleteSecret ref s := kv_delete ("secret " +:+ ref) (secret_path ref) s
|}.
End Vault.

(** ** What a store promises *)

(** [up] are the states in which the service answers. A written secret (of UTF-8 text)
    is read back, other references are not touched, a deleted one is an error. *)
Class SecretStoreLaws (S : Type) `{!SecretStore S} (up : S -> Prop) : Prop := {
  put_get : forall ref v s s', PutSecret ref v s = (Ok tt, s') -> up s' -> wire_text v = v -> (GetSecret ref s').1 = Ok v;
  put_other : forall ref v ref' s s' r, PutSecret ref v s = (r, s') -> up s -> ref' <> ref -> (GetSecret ref' s').1 = (GetSecret ref' s).1;
  delete_get : forall ref s s', DeleteSecret ref s = (Ok tt, s') -> up s' -> exists e, (GetSecret ref s').1 = Err e
}.

#[export] Instance Env_laws : SecretStoreLaws EnvStore (fun _ => True).
Proof. constructor; [done | by intros ref v ref' s s' r [= _ <-] | done]. Qed.

Section Clouds.
Lemma write_value_ok name doc c c' :
  write_value name doc c = (Ok tt, c') -> cl_read c' = cl_read c /\ cl_items c' !! name = Some (Latest (Some doc)).
Proof.
  unfold write_value. destruct (cl_write c); [done|]. destruct (cl_items c !! name); [|done]. intros [= <-]. cbn. by rewrite lookup_insert_eq.
Qed.

Lemma write_value_other name name' doc c c' r :
  write_value name doc c = (r, c') -> name' <> name -> cl_read c' = cl_read c /\ cl_items c' !! name' = cl_items c !! name'.
Proof.
  unfold write_value. destruct (cl_write c), (cl_items c !! name); intros [= <- <-] Hne; try done. cbn. by rewrite lookup_insert_ne.
Qed.

Lemma create_secret_other name name' c : name' <> name -> cl_read (create_secret name c) = cl_read c /\ cl_items (create_secret name c) !! name' = cl_items c !! name'.
Proof. intros Hne. unfold create_secret. destruct (cl_create c), (cl_items c !! name); try done. cbn. by rewrite lookup_insert_ne. Qed.

Lemma delete_value_ok name c c' : delete_value name c = (Ok tt, c') -> cl_read c' = cl_read c /\ cl_items c' !! name = None.
Proof. unfold delete_value. destruct (cl_delete c), (cl_items c !! name); try done. intros [= <-]. cbn. by rewrite lookup_delete_eq. Qed.

Lemma read_value_eq name c c' : cl_read c' = cl_read c -> cl_items c' !! name = cl_items c !! name -> read_value name c' = read_value name c.
Proof. unfold read_value. by intros -> ->. Qed.

Lemma wrap_ok {A} what name (r : result error A) a : wrap what name r = Ok a -> r = Ok a.
Proof. by destruct r. Qed.
End Clouds.

#[export] Instance Aws_laws : SecretStoreLaws AwsSecretsManagerStore (fun s => cl_read (aws_service s) = None).
Proof.
  constructor; cbn [PutSecret GetSecret DeleteSecret Aws_SecretStore]; unfold aws_put, aws_get, aws_delete.
  - intros ref v s s' Hp Hup Hv. destruct (write_value ref _ _) as [r c'] eqn:Ew. injection Hp as Hr <-. apply wrap_ok in Hr as ->.
    apply write_value_ok in Ew as [_ Hi]. simpl in *. unfold read_value. rewrite Hup, Hi. simpl. unfold payload. simpl. by rewrite Hv.
  - intros ref v ref' s s' r Hp Hup Hne. destruct (write_value ref _ _) as [r' c'] eqn:Ew. injection Hp as _ <-. simpl.
    destruct (write_value_other _ _ _ _ _ _ Ew Hne) as [H1 H2]. destruct (create_secret_other ref ref' (aws_service s) Hne) as [H3 H4].
    rewrite (read_value_eq ref' (aws_service s) c') by congruence. done.
  - intros ref s s' Hd Hup. destruct (delete_value ref _) as [r c'] eqn:Ew. injection Hd as Hr <-. apply wrap_ok in Hr as ->.
    apply delete_value_ok in Ew as [_ Hi]. simpl in *. unfold read_value. rewrite Hup, Hi. simpl. by eexists.
Qed.

Lemma resource_inj s ref ref' : secretResourceName s ref' = secretResourceName s ref -> ref' = ref.
Proof.
  unfold secretResourceName. intros He. do 2 (rewrite app_str_assoc in He). apply (f_equal (fun x => CutPrefix x (("projects/" +:+ gcp_projectID s) +:+ "/secrets/"))) in He.
  rewrite !app_str_assoc, !CutPrefix_app in He. by injection He.
Qed.

#[export] Instance Gcp_laws : SecretStoreLaws GcpSecretManagerStore (fun s => cl_read (gcp_service s) = None).
Proof.
  constructor; cbn [PutSecret GetSecret DeleteSecret Gcp_SecretStore]; unfold gcp_put, gcp_get, gcp_delete, addVersion, accessLatest, ensureSecretExists.
  - intros ref v s s' Hp Hup Hv. cbn [gcp_service gcp_projectID] in Hp. destruct (write_value _ _ _) as [r c'] eqn:Ew. injection Hp as Hr <-. apply wrap_ok in Hr as ->.
    apply write_value_ok in Ew as [_ Hi]. simpl in *. unfold read_value, secretResourceName in *. simpl in *. rewrite Hup, Hi. simpl. unfold payload. simpl. by rewrite Hv.
  - intros ref v ref' s s' r Hp Hup Hne. cbn [gcp_service gcp_projectID] in Hp. destruct (write_value _ _ _) as [r' c'] eqn:Ew. injection Hp as _ <-.
    assert (Hn : secretResourceName s ref' <> secretResourceName s ref) by (intros He; by apply resource_inj in He).
    destruct (write_value_other _ _ _ _ _ _ Ew Hn) as [H1 H2]. destruct (create_secret_other _ _ (gcp_service s) Hn) as [H3 H4].
    unfold secretResourceName in *. cbn [gcp_projectID gcp_service] in *. simpl.
    rewrite (read_value_eq _ (gcp_service s) c') by congruence. done.
  - intros ref s s' Hd Hup. destruct (delete_value _ _) as [r c'] eqn:Ew. injection Hd as Hr <-. apply wrap_ok in Hr as ->.
    apply delete_value_ok in Ew as [_ Hi]. simpl in *. unfold read_value, secretResourceName in *. simpl in *. rewrite Hup, Hi. simpl. by eexists.
Qed.

(** ** Vault's token *)

Section VaultToken.
Context `{!VaultAuth}.

Definition vault_up (s : VaultStore) : Prop := vs_fault s = None /\ (vs_approle s = None \/ needs_renew s = false).

Lemma fresh_is_noop s : vs_approle s = None \/ needs_renew s = false -> ensureFreshToken s = (Ok tt, s).
Proof. unfold ensureFreshToken. intros [-> | Hn]; [done|]. rewrite Hn. by destruct (vs_approle s). Qed.

Lemma kv2_up {A} what path (call : VaultStore -> result error A * VaultStore) s a s' :
  vault_up s -> call s = (Ok a, s') -> kv2 what path call s = (Ok a, s').
Proof. intros [Hf Hn] Hc. unfold kv2. by rewrite (fresh_is_noop _ Hn), Hf, Hc. Qed.

Lemma kv2_ok {A} what path (call : VaultStore -> result error A * VaultStore) s a s' :
  kv2 what path call s = (Ok a, s') -> exists s1, call s1 = (Ok a, s').
Proof.
  unfold kv2. destruct (ensureFreshToken s) as [[[]| |] s1]; try done. destruct (vs_fault s1); [done|].
  destruct (call s1) as [[]] eqn:E; intros [= <- <-]. eauto.
Qed.

Lemma up_with_kv s kv : vault_up (with_kv s kv) <-> vault_up s.
Proof. done. Qed.

Lemma secret_path_inj ref ref' : secret_path ref' = secret_path ref -> ref' = ref.
Proof.
  unfold secret_path. intros He. rewrite !app_str_assoc in He.
  apply (f_equal (fun x => CutPrefix x (vaultSecretPathPrefix +:+ "/"))) in He. rewrite !CutPrefix_app in He. by injection He.
Qed.

Lemma dsn_is_no_secret ref ref' : dsn_path ref <> secret_path ref'.
Proof. discriminate. Qed.

#[export] Instance Vault_laws : SecretStoreLaws VaultStore vault_up.
Proof.
  constructor; cbn [PutSecret GetSecret DeleteSecret Vault_SecretStore]; unfold kv_put, kv_get, kv_delete.
  - intros ref v s s' Hp Hup Hv. apply kv2_ok in Hp as [s1 [= <-]].
    erewrite kv2_up; [done | exact Hup | cbn; rewrite lookup_insert_eq; by rewrite Hv].
  - intros ref v ref' s s' r Hp Hup Hne. erewrite kv2_up in Hp by done. injection Hp as _ <-.
    assert (Hp : secret_path ref <> secret_path ref') by (by intros ->%secret_path_inj).
    destruct Hup as [Hf Hn]. unfold kv2. rewrite (fresh_is_noop _ Hn), (fresh_is_noop (with_kv s _) Hn), Hf. cbn. rewrite Hf, lookup_insert_ne by done.
    by destruct (vs_kv s !! secret_path ref').
  - intros ref s s' Hp Hup. apply kv2_ok in Hp as [s1 [= <-]]. destruct Hup as [Hf Hn]. unfold kv2.
    rewrite (fresh_is_noop _ Hn), Hf. cbn. rewrite lookup_delete_eq. by eexists.
Qed.

(** A lease the server gives never ends, or outlives the buffer. *)
Definition long_lease (lease : Z) : Prop := lease = 0%Z \/ (60 <= lease)%Z.

Lemma long_lease_fresh s token lease logins : long_lease lease -> needs_renew (with_auth s token (expiryFromLease (vs_now s) lease) logins) = false.
Proof.
  unfold needs_renew, expiryFromLease, long_lease, vaultRenewBuffer. intros Hl. cbn [with_auth vs_expiresAt vs_now].
  destruct (Z.eqb_spec lease 0); [done|]. apply Z.ltb_ge. lia.
Qed.

(** A call is only made with a token that does not expire within the buffer. *)
Lemma calls_use_fresh_tokens s s' :
  (forall now t l, vault_renew now t = Ok (Some l) -> long_lease l) ->
  (forall now role t l, vault_login now role = Ok (Some (t, l)) -> long_lease l) ->
  ensureFreshToken s = (Ok tt, s') -> vs_approle s' = None \/ needs_renew s' = false.
Proof.
  intros Hr Hl. unfold ensureFreshToken, loginApprole. destruct (vs_approle s) as [role|] eqn:Ea; [|intros [= <-]; by left].
  destruct (needs_renew s) eqn:En; [|intros [= <-]; by right]. cbn [negb].
  destruct (vault_renew (vs_now s) (vs_token s)) as [[l|]|e|] eqn:Er;
    [intros [= <-]; right; apply long_lease_fresh; eauto | ..];
    (destruct (vault_login (vs_now s) role) as [[[t l]|]|e'|] eqn:El; intros [= <-]; right; apply long_lease_fresh; eauto).
Qed.

(** ** What a run of calls spends *)

Inductive vault_call : Type :=
  | CallPut (ref v : string) | CallGet (ref : string) | CallDelete (ref : string) | CallPutDSN (ref dsn : string) | CallCreds (ref : string).

Definition run_call (c : vault_call) (s : VaultStore) : VaultStore :=
  match c with
  | CallPut ref v => (PutSecret ref v s).2
  | CallGet ref => (GetSecret ref s).2
  | CallDelete ref => (DeleteSecret ref s).2
  | CallPutDSN ref dsn => (vault_PutDSN ref dsn s).2
  | CallCreds ref => (DbCredentials ref s).2
  end.

(** Time passes to [now], and the call is made. *)
Definition at_time (now : Z) (s : VaultStore) : VaultStore :=
  mkVault (vs_token s) (vs_expiresAt s) (vs_approle s) now (vs_logins s) (vs_fault s) (vs_kv s).
Definition run_calls (l : list (Z * vault_call)) (s : VaultStore) : VaultStore :=
  fold_left (fun s '(now, c) => run_call c (at_time now s)) l s.

Lemma kv2_preserves {A} (P : VaultStore -> Prop) what path (call : VaultStore -> result error A * VaultStore) s :
  P (ensureFreshToken s).2 -> (forall s, P s -> P (call s).2) -> P (kv2 what path call s).2.
Proof.
  unfold kv2. intros He Hc. destruct (ensureFreshToken s) as [[[]| |] s1]; try done. cbn in He.
  destruct (vs_fault s1); [done|]. specialize (Hc s1 He). by destruct (call s1) as [[]].
Qed.

Lemma run_call_preserves (P : VaultStore -> Prop) c s :
  P (ensureFreshToken s).2 -> (forall s kv, P s -> P (with_kv s kv)) -> P (run_call c s).
Proof.
  intros He Hk. destruct c as [ref v|ref|ref|ref d|ref]; cbn [run_call PutSecret GetSecret DeleteSecret DbCredentials Vault_SecretStore];
    unfold vault_PutDSN, kv_put, kv_get, kv_delete; apply kv2_preserves; try done; intros s1 H1; cbn; auto.
  - by destruct (vs_kv s1 !! secret_path ref).
  - by destruct (vs_kv s1 !! dsn_path ref).
Qed.

(** While the server renews tokens, the secret id is used once, at start-up: a one-time
    secret id keeps working. *)
Lemma renewals_spare_the_secret_id role kv now s l :
  (forall now t, exists lease, vault_renew now t = Ok (Some lease)) ->
  NewVaultStoreWithAppRole now role kv = Ok s -> vs_logins (run_calls l s) = 1%nat.
Proof.
  intros Hr Hs. assert (H1 : vs_logins s = 1%nat).
  { unfold NewVaultStoreWithAppRole in Hs. destruct (loginApprole now role) as [[t e]| |]; [|done..]. by injection Hs as <-. }
  clear Hs. revert s H1. induction l as [|[t c] l IH]; intros s H1; [done|]. cbn. apply IH.
  apply (run_call_preserves (fun s => vs_logins s = 1%nat)); [|done].
  unfold ensureFreshToken. destruct (vs_approle (at_time t s)); [|done]. destruct (needs_renew _); [|done]. cbn [negb].
  destruct (Hr (vs_now (at_time t s)) (vs_token (at_time t s))) as [lease ->]. done.
Qed.
End VaultToken.

(** ** Where the stores part *)

(** A DSN and a secret of one reference share a container in the cloud stores: the
    second write replaces the first, and reading the first gives the empty text and no
    error. Vault keeps them under two paths. *)
Lemma cloud_dsn_overwrites ref dsn s s' :
  aws_PutDSN ref dsn s = (Ok tt, s') -> cl_read (aws_service s') = None -> (GetSecret ref s').1 = Ok "".
Proof.
  unfold aws_PutDSN, aws_put. destruct (write_value ref _ _) as [r c'] eqn:Ew. intros [= Hr <-]. apply wrap_ok in Hr as ->.
  apply write_value_ok in Ew as [_ Hi]. cbn in *. intros Hup. unfold aws_get, read_value. cbn. rewrite Hup, Hi. done.
Qed.

Lemma vault_dsn_kept_apart `{!VaultAuth} ref ref' dsn s s' r :
  vault_up s -> vault_PutDSN ref dsn s = (r, s') -> (GetSecret ref' s').1 = (GetSecret ref' s).1.
Proof.
  intros Hup Hp. unfold vault_PutDSN, kv_put in Hp. erewrite kv2_up in Hp by done. injection Hp as _ <-.
  destruct Hup as [Hf Hn]. cbn [GetSecret Vault_SecretStore]. unfold kv_get, kv2.
  rewrite (fresh_is_noop _ Hn), (fresh_is_noop (with_kv s _) Hn), Hf. cbn. rewrite Hf, lookup_insert_ne by apply dsn_is_no_secret.
  by destruct (vs_kv s !! secret_path ref').
Qed.
