(* ===== verification/ServiceToken.v ===== *)
(** The token of a service's own account (src/go/runtime/servicetoken.go): one login, the
    retries of the first and the loop that keeps the token fresh.

    The upstream is what it answers to a login sent at an instant, and how long it takes;
    instants and durations are seconds. The source is read between two rounds of its loop,
    so its state is the token, when the login that gave it was sent, and when the next is
    due. *)
From S2P Require Import Prelude GoStrings GoText Json Floats Numbers Condition Context Uuid Evaluate Snapshot PermissionService Users PolicyStore Metadata Schema Router Payload Workflow AuditTrail Sql ConditionSql Jql Planner Records Times Crud CrudOutcomes CrudProps CrudState CrudReads Aggregate Authn Cron Outbound Wire Grpc GrpcProps RestRecords Config ConfigProps Sessions.

Open Scope string_scope.
Open Scope list_scope.
Open Scope Z_scope.

Definition serviceTokenRefreshInterval : Z := 2400.
Definition serviceTokenRetryBackoff : Z := 30.
Definition serviceTokenInitialRetryBudget : Z := 60.
Definition serviceTokenInitialRetryInterval : Z := 2.

Inductive loginOutcome : Type := outcomeOK (token : string) | outcomeRetryable (err : error) | outcomeFatal (err : error).

(** An error of the transport: whether it timed out, or the connection was refused. *)
Record net_error : Type := mkNetError { ne_text : error; ne_timeout : bool; ne_refused : bool }.

Definition isRetryableNetError (e : net_error) : bool := if ne_timeout e then true else ne_refused e.

(** What a POST ends in; the body is [None] when it is no JSON. *)
Inductive login_answer : Type := NoAnswer (e : net_error) | Answered (status : Z) (body : option json).

(** loginResponseEnvelope: a token in an object in an object. *)
Definition token_step (st : string * bool) (kv : string * json) : string * bool :=
  if key_matches "token" kv.1 then into_string st kv.2 else st.
Definition envelope_step (st : string * bool) (kv : string * json) : string * bool :=
  if key_matches "data" kv.1
  then match kv.2 with JObj l => fold_left token_step l st | JNull => st | _ => (st.1, true) end
  else st.
Definition unmarshal_envelope (body : option json) : option string := unmarshal_struct "" envelope_step body.

Section Source.
(** An URL no request can be made for. *)
Variable bad_url : option error.
Variable loginURL email : string.

Definition loginOnce (answer : login_answer) : loginOutcome :=
  match bad_url with
  | Some e => outcomeFatal ("building request to " +:+ loginURL +:+ ": " +:+ e)
  | None =>
    match answer with
    | NoAnswer e =>
      let wrapped := "POST " +:+ loginURL +:+ ": " +:+ ne_text e in
      if isRetryableNetError e then outcomeRetryable wrapped else outcomeFatal wrapped
    | Answered status body =>
      if (status <? 200) || (300 <=? status) then outcomeFatal (loginURL +:+ " returned status " +:+ FormatInt status)
      else match unmarshal_envelope body with
           | None => outcomeFatal ("parsing " +:+ loginURL +:+ " response: no such document")
           | Some token => outcomeOK token
           end
    end
  end.

(** How long a login sent at an instant takes, and its answer. *)
Variable upstream : Z -> Z * login_answer.

Definition took (t : Z) : Z := (upstream t).1.
Definition login_at (t : Z) : loginOutcome := loginOnce (upstream t).2.

Record ServiceTokenSource : Type := mkSource { so_token : string; so_sent : Z; so_next : Z }.

Definition Current (s : ServiceTokenSource) : string := so_token s.

Definition login_failed (e : error) : error := "logging into " +:+ loginURL +:+ " as " +:+ email +:+ ": " +:+ e.
Definition gave_up (e : error) : error :=
  "logging into " +:+ loginURL +:+ " as " +:+ email +:+ " (gave up after 1m0s of retries): " +:+ e.

(** The first login; [None] is a loop the fuel does not suffice for. *)
Fixpoint first_login (fuel : nat) (deadline now : Z) : option (result error ServiceTokenSource) :=
  match fuel with
  | O => None
  | S fuel =>
    let now' := now + took now in
    match login_at now with
    | outcomeOK token => Some (Ok (mkSource token now (now' + serviceTokenRefreshInterval)))
    | outcomeFatal e => Some (Err (login_failed e))
    | outcomeRetryable e =>
      if deadline <? now' then Some (Err (gave_up e)) else first_login fuel deadline (now' + serviceTokenInitialRetryInterval)
    end
  end.

(** A round of the loop in the background: a token that cannot be replaced is kept. *)
Definition refresh_round (s : ServiceTokenSource) : ServiceTokenSource :=
  let now' := so_next s + took (so_next s) in
  match login_at (so_next s) with
  | outcomeOK token => mkSource token (so_next s) (now' + serviceTokenRefreshInterval)
  | _ => mkSource (so_token s) (so_sent s) (now' + serviceTokenRetryBackoff)
  end.

Definition rounds (n : nat) (s : ServiceTokenSource) : ServiceTokenSource := Nat.iter n refresh_round s.

(** A retry begins at least two seconds after the one before it, and the last no later
    than the budget: thirty-two logins are the most. *)
Definition first_fuel : nat := 32.
Definition StartServiceTokenSource (now : Z) : option (result error ServiceTokenSource) :=
  first_login first_fuel (now + serviceTokenInitialRetryBudget) now.

Definition NewStaticServiceTokenSource (token : string) (now : Z) : ServiceTokenSource := mkSource token now now.

(** ** The first login *)

Section Timely.
Variable longest : Z.
Hypothesis takes_time : forall t, 0 <= took t <= longest.

Lemma first_login_ends fuel deadline now :
  deadline - now < 2 * Z.of_nat fuel -> exists r, first_login (S fuel) deadline now = Some r.
Proof.
  revert now. induction fuel as [|fuel IH]; intros now Hf; cbn [first_login]; pose proof (takes_time now);
    destruct (login_at now); try by eexists.
  - destruct (Z.ltb_spec deadline (now + took now)); [by eexists|lia].
  - destruct (Z.ltb_spec deadline (now + took now)); [by eexists|]. apply IH. unfold serviceTokenInitialRetryInterval. lia.
Qed.

Lemma Start_ends now : exists r, StartServiceTokenSource now = Some r.
Proof. apply first_login_ends. unfold serviceTokenInitialRetryBudget. lia. Qed.

(** The source a start gives holds the token of a login it sent. *)
Definition well_begun (s : ServiceTokenSource) : Prop :=
  login_at (so_sent s) = outcomeOK (so_token s) /\ so_sent s + serviceTokenRefreshInterval <= so_next s <= so_sent s + longest + serviceTokenRefreshInterval.

Lemma first_login_begun fuel deadline now s : first_login fuel deadline now = Some (Ok s) -> well_begun s.
Proof.
  revert now. induction fuel as [|fuel IH]; intros now; cbn [first_login]; [done|]. pose proof (takes_time now).
  destruct (login_at now) as [tok|e|e] eqn:El; [| |done].
  - intros [= <-]. split; [done|]. cbn. lia.
  - destruct (deadline <? now + took now); [done|]. apply IH.
Qed.

Lemma first_login_waits up fuel deadline now r :
  up + longest <= deadline -> (forall t e, login_at t <> outcomeFatal e) -> (forall t, up <= t -> exists tok, login_at t = outcomeOK tok) ->
  first_login fuel deadline now = Some r -> exists s, r = Ok s.
Proof.
  intros Hup Hf Hok. revert now. induction fuel as [|fuel IH]; intros t; cbn [first_login]; [done|].
  destruct (login_at t) as [tok|e|e] eqn:El; [intros [= <-]; by eexists| |by destruct (Hf t e)].
  assert (t < up) by (destruct (Z.lt_ge_cases t up) as [|Hge]; [done|]; destruct (Hok t Hge); congruence).
  pose proof (takes_time t). destruct (Z.ltb_spec deadline (t + took t)); [lia|]. apply IH.
Qed.

#[local] Strategy expand [StartServiceTokenSource].
#[local] Strategy 100 [first_login].

Lemma Start_begun now s : StartServiceTokenSource now = Some (Ok s) -> well_begun s.
Proof. unfold StartServiceTokenSource. apply first_login_begun. Qed.

(** An upstream that is only unreachable at first, and answers logins from [up] on, is
    waited for when it is there a login before the budget ends. *)
Lemma start_waits_for_upstream now up :
  up + longest <= now + serviceTokenInitialRetryBudget ->
  (forall t e, login_at t <> outcomeFatal e) -> (forall t, up <= t -> exists tok, login_at t = outcomeOK tok) ->
  exists s, StartServiceTokenSource now = Some (Ok s).
Proof.
  intros Hup Hf Hok. destruct (Start_ends now) as [r Hr]. unfold StartServiceTokenSource in *.
  destruct (first_login_waits up first_fuel _ now r Hup Hf Hok Hr) as [s ->]. exists s. exact Hr.
Qed.

(** ** The loop *)

(** Within [outage] of every instant begins a stretch in which logins succeed, long
    enough for a retry to fall into it. *)
Variable outage : Z.
Hypothesis recovers : forall t, exists u, t <= u <= t + outage /\
  forall w, u <= w <= u + serviceTokenRetryBackoff + longest -> exists tok, login_at w = outcomeOK tok.

(** The token is one the upstream gave; the next login is due before the stretch that
    follows the refresh interval has passed. *)
Definition on_time (s : ServiceTokenSource) : Prop :=
  login_at (so_sent s) = outcomeOK (so_token s) /\ so_sent s <= so_next s /\
  exists u, u <= so_sent s + longest + serviceTokenRefreshInterval + outage /\ so_next s <= u + serviceTokenRetryBackoff + longest /\
    forall w, u <= w <= u + serviceTokenRetryBackoff + longest -> exists tok, login_at w = outcomeOK tok.

Lemma well_begun_on_time s : well_begun s -> on_time s.
Proof.
  intros [Hl Hn]. destruct (recovers (so_sent s + longest + serviceTokenRefreshInterval)) as (u & Hu & Hw). pose proof (takes_time 0).
  unfold on_time, serviceTokenRefreshInterval, serviceTokenRetryBackoff in *. split; [done|]. split; [lia|]. exists u. split; [lia|]. split; [lia|done].
Qed.

Lemma round_on_time s : on_time s -> on_time (refresh_round s).
Proof.
  intros (Hl & Hle & u & Hu & Hn & Hw). unfold refresh_round. pose proof (takes_time (so_next s)).
  destruct (login_at (so_next s)) as [tok|e|e] eqn:El;
    [apply well_begun_on_time; split; [done|]; cbn; lia|..];
    (assert (so_next s < u) by (destruct (Z.lt_ge_cases (so_next s) u) as [|Hge]; [done|]; destruct (Hw (so_next s)); [lia|congruence]));
    (split; [done|]; split; [cbn; unfold serviceTokenRetryBackoff; lia|]; exists u; split; [done|]; split; [cbn; lia|done]).
Qed.

Lemma rounds_on_time n s : on_time s -> on_time (rounds n s).
Proof. intros Hs. induction n as [|n IH]; [done|]. cbn. by apply round_on_time. Qed.

(** A token is replaced before it is as old as the upstream lets it be. *)
Lemma replaced_in_time ttl s :
  outage + serviceTokenRetryBackoff + 3 * longest <= ttl - serviceTokenRefreshInterval ->
  on_time s -> so_next s + took (so_next s) <= so_sent s + ttl.
Proof. intros Ht (_ & _ & u & Hu & Hn & _). pose proof (takes_time (so_next s)). lia. Qed.
End Timely.
End Source.

(** ** With the login endpoint *)

(** The body of the login endpoint is what the source reads a token from. *)
Lemma login_response_read bad url token : bad = None -> loginOnce bad url (Answered 200 (Some (token_body token))) = outcomeOK token.
Proof. by intros ->. Qed.

Section Calls.
Context `{UuidLib} `{!UuidLaws _} `{!Argon} `{!Jwt} `{!JwtLaws} `{!Conversions}.
Variables (bad_url : option error) (loginURL email : string) (upstream : Z -> Z * login_answer).
Variable key : string.
Variable resolve : uuid -> uuid -> string -> result error RequestContext.
Variables (tenant account : uuid) (ttl : Z).

Notation the_login := (login_at bad_url loginURL upstream).
Notation the_round := (rounds bad_url loginURL upstream).

(** A login of the account gives a token minted between the request and the answer. *)
Definition mints : Prop :=
  forall b tok, the_login b = outcomeOK tok -> exists m jti, b <= m <= b + took upstream b /\ tok = MintJWT key m jti tenant account ttl.


(** A tenant may set the session to end after a minute; the loop still waits forty, and
    in between the upstream refuses what it gave. *)
Lemma short_session_expires b tok s now' r :
  mints -> the_login b = outcomeOK tok -> s = mkSource tok b (b + took upstream b + serviceTokenRefreshInterval) ->
  b + took upstream b + ttl + 20 <= now' -> request_token r = inr (Current s) ->
  authenticate resolve key now' r = inl (Unauthorized "Invalid or expired token.").
Proof.
  intros Hm Hl -> Hn Hr. destruct (Hm _ _ Hl) as (m & jti & Hb & ->). cbn in Hr. unfold authenticate. rewrite Hr.
  unfold MintJWT. by rewrite DecodeAccessToken_expired by lia.
Qed.

Lemma a_minute_is_allowed : positiveIntIn 60 2592000 (Some (num 60)) = None.
Proof. vm_compute. reflexivity. Qed.
End Calls.

(** ** Examples *)

#[local] Existing Instance TestUuid.

(** An upstream that is gone for five minutes when the first refresh is due. *)
Definition test_upstream (t : Z) : Z * login_answer :=
  (1, if (2400 <=? t) && (t <? 2700) then NoAnswer (mkNetError "connection refused" false true)
      else Answered 200 (Some (token_body (MintJWT "k" t "j" ("t1" : @uuid TestUuid) ("u1" : @uuid TestUuid) 3600)))).

Notation test_login_at := (login_at None "http://app/auth/login" test_upstream).

Lemma test_login_up t : t < 2400 \/ 2700 <= t -> test_login_at t = outcomeOK (MintJWT "k" t "j" ("t1" : @uuid TestUuid) ("u1" : @uuid TestUuid) 3600).
Proof.
  intros Ht. unfold login_at, test_upstream. cbn [snd].
  destruct (Z.leb_spec 2400 t), (Z.ltb_spec t 2700); try lia; by apply login_response_read.
Qed.

Lemma test_mints : mints None "http://app/auth/login" test_upstream "k" ("t1" : @uuid TestUuid) ("u1" : @uuid TestUuid) 3600.
Proof.
  intros b tok Hl. destruct (decide (b < 2400 \/ 2700 <= b)) as [Hb|Hb].
  - rewrite test_login_up in Hl by done. injection Hl as <-. exists b, "j". split; [cbn; lia|done].
  - unfold login_at, test_upstream in Hl. cbn [snd] in Hl. destruct (Z.leb_spec 2400 b), (Z.ltb_spec b 2700); try lia. done.
Qed.

Lemma test_recovers t : exists u, t <= u <= t + 400 /\
  forall w, u <= w <= u + serviceTokenRetryBackoff + 1 -> exists tok, test_login_at w = outcomeOK tok.
Proof.
  unfold serviceTokenRetryBackoff. destruct (decide (t + 31 < 2400 \/ 2700 <= t)).
  - exists t. split; [lia|]. intros w Hw. eexists. apply test_login_up. lia.
  - exists 2700. split; [lia|]. intros w Hw. eexists. apply test_login_up. lia.
Qed.

Definition test_source : ServiceTokenSource := mkSource (MintJWT "k" 0 "j" ("t1" : @uuid TestUuid) ("u1" : @uuid TestUuid) 3600) 0 2401.

