(* ===== verification/ConsentPage.v ===== *)
(** The pages and documents of the OAuth2 endpoints (src/go/httpserver/routes_oauth2.go):
    the consent page with the texts it shows, as the browser gets it through the
    middleware, the discovery document and the routes. *)
From S2P Require Import Prelude GoStrings GoText Json Floats Numbers Condition Context Uuid Evaluate Snapshot PermissionService Users PolicyStore Metadata Schema Router Payload Workflow AuditTrail Sql ConditionSql Jql Planner Records Times Crud CrudOutcomes CrudProps CrudState CrudReads Aggregate Authn Cron Outbound Wire Grpc GrpcProps RestRecords Config ConfigProps Sessions OAuth OAuthRoutes HttpRuntime Boot.

Open Scope string_scope.
Open Scope list_scope.

(** ** html.EscapeString *)

Definition escape_byte (a : ascii) : string :=
  if Ascii.eqb a "&" then "&amp;"
  else if Ascii.eqb a "'" then "&#39;"
  else if Ascii.eqb a "<" then "&lt;"
  else if Ascii.eqb a ">" then "&gt;"
  else if Ascii.eqb a quote_char then "&#34;"
  else str1 a.

Fixpoint EscapeString (s : string) : string :=
  match s with EmptyString => "" | String a s' => escape_byte a +:+ EscapeString s' end.

(** A byte that can end a text or an attribute. *)
Definition markup_byte (a : ascii) : bool :=
  Ascii.eqb a "<" || Ascii.eqb a ">" || Ascii.eqb a "'" || Ascii.eqb a quote_char.

Definition newline : string := str1 (Ascii.ascii_of_N 10).

(** A text of the source in which an apostrophe stands for a quotation mark. *)
Definition dq (s : string) : string := ReplaceByte s "'" quote.

(** ** The consent page *)

Definition scope_items (tokens : list string) : string :=
  match tokens with
  | [] => "<li>(no specific permissions requested)</li>"
  | _ => String.concat "" (map (fun t => "<li>" +:+ EscapeString t +:+ "</li>") tokens)
  end.

Definition page_head : string := Join (map dq
  ["<!doctype html>";
   "<html lang='en'>";
   "<head>";
   "<meta charset='utf-8'>";
   "<title>Authorize application</title>";
   "<style>";
   "  body { font-family: system-ui, sans-serif; max-width: 32rem; margin: 4rem auto; padding: 0 1rem; color: #1a1a1a; }";
   "  h1 { font-size: 1.25rem; }";
   "  ul { background: #f5f5f5; border-radius: 0.5rem; padding: 1rem 1rem 1rem 2rem; }";
   "  .actions { margin-top: 1.5rem; display: flex; gap: 0.75rem; }";
   "  button { font-size: 1rem; padding: 0.5rem 1.25rem; border-radius: 0.375rem; border: 1px solid #ccc; cursor: pointer; }";
   "  #approve { background: #111827; color: #fff; border-color: #111827; }";
   "  #error { color: #b91c1c; margin-top: 1rem; }";
   "</style>";
   "</head>";
   "<body>";
   "  <h1>"]) newline.

Definition page_intro : string := Join (map dq
  [" is requesting access to your account</h1>";
   "  <p>This application would like to:</p>";
   "  <ul>"]) newline.

Definition page_actions : string := Join (map dq
  ["</ul>";
   "  <div class='actions'>";
   "    <button id='approve' type='button'>Approve</button>";
   "    <button id='deny' type='button'>Deny</button>";
   "  </div>";
   "  <p id='error' hidden></p>";
   "  <script>";
   "    function csrfToken() {";
   "      const m = document.cookie.match(/(?:^|; )metap_csrf=([^;]*)/);";
   "      return m ? decodeURIComponent(m[1]) : '';";
   "    }";
   "    async function decide(approve) {";
   "      try {";
   "        const res = await fetch('/oauth/authorize/decision', {";
   "          method: 'POST',";
   "          credentials: 'include',";
   "          headers: { 'content-type': 'application/json', 'x-csrf-token': csrfToken() },";
   "          body: JSON.stringify({ requestId: '"]) newline.

Definition page_end : string := Join (map dq
  ["', approve: approve }),";
   "        });";
   "        const body = await res.json();";
   "        if (res.ok && body.redirectTo) {";
   "          window.location.href = body.redirectTo;";
   "          return;";
   "        }";
   "        throw new Error((body.error && body.error.message) || 'request failed');";
   "      } catch (e) {";
   "        const el = document.getElementById('error');";
   "        el.hidden = false;";
   "        el.textContent = 'Something went wrong: ' + e.message;";
   "      }";
   "    }";
   "    document.getElementById('approve').addEventListener('click', () => decide(true));";
   "    document.getElementById('deny').addEventListener('click', () => decide(false));";
   "  </script>";
   "</body>";
   "</html>"]) newline.

Section Pages.
Context `{UuidLib}.

Definition consentPageHTML (clientName scope : string) (requestID : uuid) : string :=
  page_head +:+ EscapeString clientName +:+ page_intro +:+ scope_items (ScopeTokens scope) +:+ page_actions
  +:+ uuid_String requestID +:+ page_end.

(** What the handler does with its writer when it shows the page. *)
Definition show_consent (clientName scope : string) (requestID : uuid) : list call :=
  [SetHeader "Content-Type" "text/html; charset=utf-8"; WriteHeader 200; WriteBody (consentPageHTML clientName scope requestID)].

(** ** Documents *)

Definition discoveryMetadata : json :=
  JObj [("authorization_endpoint", JStr "/oauth/authorize");
        ("code_challenge_methods_supported", JArr [JStr "S256"]);
        ("grant_types_supported", JArr [JStr "authorization_code"; JStr "refresh_token"; JStr "client_credentials"]);
        ("issuer", JStr JWTIssuer);
        ("response_types_supported", JArr [JStr "code"]);
        ("revocation_endpoint", JStr "/oauth/revoke");
        ("token_endpoint", JStr "/oauth/token");
        ("token_endpoint_auth_methods_supported", JArr [JStr "client_secret_basic"; JStr "client_secret_post"])].

Definition oauthClientToJSON (c : OAuthClient) : json :=
  JObj [("allowedScopes", JArr (map JStr (oc_AllowedScopes c)));
        ("clientId", JStr (oc_ClientID c));
        ("id", JStr (uuid_String (oc_ID c)));
        ("isConfidential", JBool (oc_IsConfidential c));
        ("name", JStr (oc_Name c));
        ("redirectUris", JArr (map JStr (oc_RedirectURIs c)));
        ("serviceUserId", match oc_ServiceUserID c with Some u => JStr (uuid_String u) | None => JNull end)].

(** mountOAuth2: the method and the pattern of each route. *)
Definition mountOAuth2 : list (string * string) :=
  [("GET", "/oauth/authorize"); ("POST", "/oauth/authorize/decision"); ("POST", "/oauth/token"); ("POST", "/oauth/revoke");
   ("GET", "/.well-known/oauth-authorization-server"); ("POST", "/admin/oauth/clients"); ("GET", "/admin/oauth/clients");
   ("DELETE", "/admin/oauth/clients/{id}")].
End Pages.

(** ** Content security policies *)

(** The sources of a directive of a policy; the first of its name counts. *)
Definition directive (policy name : string) : option (list string) :=
  head (omap (fun d => match Fields d with n :: sources => if String.eqb n name then Some sources else None | [] => None end) (Split policy ";")).

(** A browser runs the text of a script element when the policy has no directive for
    scripts, or one that allows text or names this one. *)
Definition runs_inline_scripts (policy : string) : bool :=
  match directive policy "script-src-elem", directive policy "script-src", directive policy "default-src" with
  | Some l, _, _ | None, Some l, _ | None, None, Some l =>
    existsb (fun s => String.eqb s "'unsafe-inline'" || HasPrefix s "'nonce-" || HasPrefix s "'sha") l
  | None, None, None => true
  end.

(** ** Properties *)

(** No text a tenant chose can leave the element it is shown in. *)
Lemma EscapeString_no_markup s : all_bytes (fun a => negb (markup_byte a)) (EscapeString s) = true.
Proof.
  induction s as [|a s IH]; [done|]. cbn [EscapeString]. rewrite all_bytes_app, IH, andb_true_r. unfold escape_byte, markup_byte.
  repeat (case_match; [done|]). cbn [all_bytes str1]. by rewrite H0, H1, H2, H3.
Qed.

Lemma escape_byte_inj a b s t : escape_byte a +:+ s = escape_byte b +:+ t -> a = b /\ s = t.
Proof.
  unfold escape_byte.
  destruct (Ascii.eqb_spec a "&"), (Ascii.eqb_spec b "&"), (Ascii.eqb_spec a "'"), (Ascii.eqb_spec b "'"), (Ascii.eqb_spec a "<"),
    (Ascii.eqb_spec b "<"), (Ascii.eqb_spec a ">"), (Ascii.eqb_spec b ">"), (Ascii.eqb_spec a quote_char), (Ascii.eqb_spec b quote_char);
    subst; cbn; intros [=]; subst; try done; congruence.
Qed.

(** It is shown as it is: two names never look the same. *)
Lemma EscapeString_inj s t : EscapeString s = EscapeString t -> s = t.
Proof.
  revert t. induction s as [|a s IH]; intros [|b t]; cbn [EscapeString]; [done|..].
  - unfold escape_byte. repeat case_match; discriminate.
  - unfold escape_byte. repeat case_match; discriminate.
  - intros [-> He]%escape_byte_inj. by rewrite (IH t He).
Qed.

Section PageProps.
Context `{UuidLib}.

Lemma Contains_after a b sub : Contains b sub = true -> Contains (a +:+ b) sub = true.
Proof. intros Hb. induction a as [|c a IH]; [done|]. rewrite append_cons. cbn [Contains]. by rewrite IH, orb_true_r. Qed.

Lemma HasPrefix_more a b sub : HasPrefix a sub = true -> HasPrefix (a +:+ b) sub = true.
Proof.
  unfold HasPrefix. destruct (CutPrefix a sub) as [r|] eqn:E; [|done]. apply CutPrefix_Some in E as ->.
  by rewrite <- app_str_assoc, CutPrefix_app.
Qed.

Lemma Contains_before a b sub : Contains a sub = true -> Contains (a +:+ b) sub = true.
Proof.
  induction a as [|c a IH].
  - destruct sub; [by destruct b|done].
  - rewrite append_cons. cbn [Contains]. intros [Hp|Hc]%orb_true_iff; apply orb_true_iff.
    + left. rewrite <- append_cons. by apply HasPrefix_more.
    + right. by apply IH.
Qed.

(** The page works through a script in its text, and is sent with a policy that lets no
    such script run: its two buttons do nothing in a browser. *)
Lemma consent_script_blocked parse_body ids clientName scope requestID :
  exists h, let sent := respond parse_body ids (show_consent clientName scope requestID) in
    wr_sent sent = Some (200%Z, h) /\ h !! "Content-Security-Policy" = Some defaultCSP /\
    wr_body sent = consentPageHTML clientName scope requestID /\ Contains (wr_body sent) "<script>" = true /\
    runs_inline_scripts defaultCSP = false.
Proof.
  assert (Hs : Contains (consentPageHTML clientName scope requestID) "<script>" = true).
  { unfold consentPageHTML. do 4 apply Contains_after. apply Contains_before. vm_compute. reflexivity. }
  eexists. cbv zeta. split; [reflexivity|]. split; [reflexivity|]. split; [reflexivity|]. split; [exact Hs|]. vm_compute. reflexivity.
Qed.

(** The endpoints the discovery document names are routes. *)
Lemma discovery_names_routes verb member :
  (verb, member) ∈ [("GET", "authorization_endpoint"); ("POST", "token_endpoint"); ("POST", "revocation_endpoint")] ->
  exists l route, discoveryMetadata = JObj l /\ (member, JStr route) ∈ l /\ (verb, route) ∈ mountOAuth2.
Proof.
  rewrite !elem_of_cons, elem_of_nil. intros [[= -> ->]|[[= -> ->]|[[= -> ->]|[]]]]; eexists _, _; (split; [reflexivity|]);
    (split; [rewrite list_elem_of_In; cbn; tauto | rewrite list_elem_of_In; cbn; tauto]).
Qed.
End PageProps.
