(* ===== verification/GrpcAggregate.v ===== *)
(** Aggregations over gRPC (src/go/grpcapi/service.go and client.go, Aggregate): the
    specification sent as a structure, the rows that come back, and that the remote call
    is the local one. *)
From S2P Require Import Prelude GoStrings GoText Json Floats Numbers Condition Context Uuid Evaluate Snapshot PermissionService PolicyStore Metadata Schema Router Payload Workflow AuditTrail Sql ConditionSql Jql Planner Records Times Crud CrudOutcomes CrudProps CrudState CrudReads Aggregate Authn Cron Outbound Wire Grpc GrpcProps RestRecords.

Open Scope string_scope.
Open Scope list_scope.

(** ** The specification *)

(** json.Marshal of an AggregateSpec, whose fields have no tags. *)
Definition filters_map (filters : list (string * string)) : gmap string string := list_to_map filters.
Definition int_json (z : option Z) : json := match z with Some z => JNum (FormatInt z) | None => JNull end.
Definition spec_json (s : AggregateSpec) : json :=
  JObj [("Metrics", strings_json (as_Metrics s)); ("GroupBy", opt_string_json (as_GroupBy s)); ("Bucket", opt_string_json (as_Bucket s));
        ("TimeField", opt_string_json (as_TimeField s));
        ("Filters", JObj (map (fun kv => (kv.1, JStr kv.2)) (sorted_members (filters_map (as_Filters s)))));
        ("Since", opt_string_json (as_Since s)); ("Until", opt_string_json (as_Until s)); ("Limit", int_json (as_Limit s))].

Record AggregateRequest : Type := mkAggregateRequest { aq_EntityName : string; aq_Spec : option pbstruct }.
Record AggregateResponse : Type := mkAggregateResponse { ap_Rows : list pbstruct }.

(** A value decoded into an any, encoded, and decoded with UseNumber. *)
Definition normalizeForStruct (v : goany) : json := normal (any_json v).

Definition row_sent (raw : json) : option json := normalizeForStruct <$> unmarshal_any raw.

Section Aggregates.
Context `{!UuidLib} `{!Conversions} `{!CursorText} {W : Type}.
Variable aggregate : string -> AggregateSpec -> RequestContext -> Call W (list json).
Variable auth : option string -> GrpcError + RequestContext.
Variable range_filters : list (string * string) -> list (string * string).

Definition zero_spec : AggregateSpec := mkSpec [] None None None [] None None None.

Definition request_spec (s : option pbstruct) : result GrpcError AggregateSpec :=
  match s with
  | None => Ok zero_spec
  | Some s =>
    match StructToValue (Some s) (fun doc => decode_spec range_filters (Some doc)) with
    | Some spec => Ok spec
    | None => Err (status_Error InvalidArgument "invalid aggregate spec")
    end
  end.

Definition aggregate_response (rows : list json) (_ : option PageInfo) : option AggregateResponse :=
  mkAggregateResponse <$> mapM (fun raw => JSONToStruct <$> row_sent raw) rows.

Definition record_service_Aggregate (header : option string) (req : AggregateRequest) : Method (W := W) AggregateResponse :=
  method (let! rc := authenticated auth header in
          let! spec := request_spec (aq_Spec req) in
          Ok (aggregate (aq_EntityName req) spec rc)) aggregate_response.

Definition row_received (s : pbstruct) : result error json :=
  match marshal_any (JObj (StructToJSON (Some s))) with Some doc => Ok doc | None => Err "json: invalid number literal" end.

Definition decode_rows (r : AggregateResponse) : result error (ServiceResult (list json)) :=
  let! rows := mapR row_received (ap_Rows r) in Ok (ServiceOk rows None).

Definition grpc_Aggregate (serviceToken : string) (conn : link) (entity : string) (spec : AggregateSpec) (rc : RequestContext) : Call W (list json) :=
  match ValueToStruct (spec_json spec) with
  | None => fun w => (Err "the value is no object", w)
  | Some s => rpc conn (record_service_Aggregate (header_for serviceToken rc) (mkAggregateRequest entity (Some s))) decode_rows
  end.

(** ** The remote call is the local one *)

Definition with_spec_filters (s : AggregateSpec) (filters : list (string * string)) : AggregateSpec :=
  mkSpec (as_Metrics s) (as_GroupBy s) (as_Bucket s) (as_TimeField s) filters (as_Since s) (as_Until s) (as_Limit s).

Definition small_limit (s : AggregateSpec) : Prop := match as_Limit s with Some z => (Z.abs z <= 2 ^ 53)%Z | None => True end.

Lemma spec_exact s : small_limit s -> exact (spec_json s).
Proof.
  intros Hl. unfold spec_json. rewrite exact_members. repeat apply Forall_cons_2; try apply Forall_nil_2; cbn [snd]; auto using exact_option_string, exact_strings.
  - unfold strings_json. rewrite exact_list. apply Forall_map, Forall_forall. done.
  - unfold small_limit in Hl. destruct (as_Limit s); [by apply small_int_exact|done].
Qed.

(** The members of the document in order, each decoded on its own. *)
Definition sorted_spec (s : AggregateSpec) : list (string * json) :=
  [("Bucket", normal (opt_string_json (as_Bucket s)));
   ("Filters", normal (JObj (map (fun kv => (kv.1, JStr kv.2)) (sorted_members (filters_map (as_Filters s))))));
   ("GroupBy", normal (opt_string_json (as_GroupBy s))); ("Limit", normal (int_json (as_Limit s)));
   ("Metrics", normal (strings_json (as_Metrics s))); ("Since", normal (opt_string_json (as_Since s)));
   ("TimeField", normal (opt_string_json (as_TimeField s))); ("Until", normal (opt_string_json (as_Until s)))].

Lemma normal_spec s : normal (spec_json s) = JObj (sorted_spec s).
Proof. reflexivity. Qed.

Lemma into_int64_back l cur bad : (match l with Some z => (Z.abs z <= 2 ^ 53)%Z | None => True end) -> into_int64_pointer (cur, bad) (normal (int_json l)) = (l, bad).
Proof.
  intros Hl. destruct l as [z|]; [|done]. cbn. rewrite ParseInt_FormatInt; [done|]. unfold in_bits. rewrite andb_true_iff, Z.leb_le, Z.ltb_lt. lia.
Qed.

Section Members.
Variables (m : list string) (g b t : option string) (f : list (string * string)) (s u : option string) (l : option Z) (bad : bool).
Lemma step_Metrics j : spec_step range_filters (mkSpec m g b t f s u l, bad) ("Metrics", j)
  = (let '(m, bad) := into_strings (m, bad) j in (mkSpec m g b t f s u l, bad)).
Proof. reflexivity. Qed.
Lemma step_GroupBy j : spec_step range_filters (mkSpec m g b t f s u l, bad) ("GroupBy", j)
  = (let '(g, bad) := into_pointer (g, bad) j in (mkSpec m g b t f s u l, bad)).
Proof. reflexivity. Qed.
Lemma step_Bucket j : spec_step range_filters (mkSpec m g b t f s u l, bad) ("Bucket", j)
  = (let '(b, bad) := into_pointer (b, bad) j in (mkSpec m g b t f s u l, bad)).
Proof. reflexivity. Qed.
Lemma step_TimeField j : spec_step range_filters (mkSpec m g b t f s u l, bad) ("TimeField", j)
  = (let '(t, bad) := into_pointer (t, bad) j in (mkSpec m g b t f s u l, bad)).
Proof. reflexivity. Qed.
Lemma step_Since j : spec_step range_filters (mkSpec m g b t f s u l, bad) ("Since", j)
  = (let '(s, bad) := into_pointer (s, bad) j in (mkSpec m g b t f s u l, bad)).
Proof. reflexivity. Qed.
Lemma step_Until j : spec_step range_filters (mkSpec m g b t f s u l, bad) ("Until", j)
  = (let '(u, bad) := into_pointer (u, bad) j in (mkSpec m g b t f s u l, bad)).
Proof. reflexivity. Qed.
Lemma step_Limit j : spec_step range_filters (mkSpec m g b t f s u l, bad) ("Limit", j)
  = (let '(l, bad) := into_int64_pointer (l, bad) j in (mkSpec m g b t f s u l, bad)).
Proof. reflexivity. Qed.
Lemma step_Filters members : spec_step range_filters (mkSpec m g b t f s u l, bad) ("Filters", JObj members)
  = (let '(fm, bad) := into_headers members (list_to_map f, bad) in (mkSpec m g b t (range_filters (map_to_list fm)) s u l, bad)).
Proof. reflexivity. Qed.
End Members.

Lemma decode_spec_normal s :
  small_limit s ->
  decode_spec range_filters (Some (normal (spec_json s))) = Some (with_spec_filters s (range_filters (map_to_list (filters_map (as_Filters s))))).
Proof.
  intros Hl. rewrite normal_spec. unfold decode_spec, unmarshal_struct, sorted_spec. cbn [fold_left].
  rewrite step_Bucket, into_pointer_option. cbn [normal]. rewrite step_Filters. cbn [list_to_map foldr]. rewrite headers_of_normal.
  rewrite step_GroupBy, into_pointer_option, step_Limit, into_int64_back by done.
  rewrite step_Metrics. unfold into_strings. rewrite normal_strings, unmarshal_strings_json.
  by rewrite step_Since, into_pointer_option, step_TimeField, into_pointer_option, step_Until, into_pointer_option.
Qed.

(** Rows whose numbers a float64 holds, as it prints them. *)
Definition carried_row (r : json) : Prop := exists l, row_sent r = Some (JObj l) /\ exact (JObj l).
Definition row_read (r : json) : json := default r (row_sent r).

Lemma rows_back rows p :
  Forall carried_row rows ->
  exists r, aggregate_response rows p = Some r /\ decode_rows r = Ok (ServiceOk (map row_read rows) (no_page p)).
Proof.
  intros Hr. assert (Hs : exists ss, mapM (fun raw => JSONToStruct <$> row_sent raw) rows = Some ss /\ mapR row_received ss = Ok (map row_read rows)).
  { induction Hr as [|r rows (l & Hl & He) _ (ss & IH1 & IH2)]; [by exists []|].
    exists (JSONToStruct (JObj l) :: ss). split.
    - cbn [mapM]. rewrite Hl. cbn [fmap option_fmap option_map mbind option_bind]. by rewrite IH1.
    - cbn [mapR map]. unfold row_received at 1, row_read at 1, marshal_any. rewrite Hl.
      assert (Hb : JObj (StructToJSON (Some (JSONToStruct (JObj l)))) = JObj l) by exact (pb_roundtrip _ He).
      rewrite Hb, exact_valid by done. cbn [rbind]. by rewrite IH2. }
  destruct Hs as (ss & Hs & Hd). unfold aggregate_response. rewrite Hs. eexists. split; [reflexivity|]. unfold decode_rows. cbn [ap_Rows]. by rewrite Hd.
Qed.

Hypothesis range_perm : forall l, range_filters l ≡ₚ l.

(** An aggregation over gRPC is the one of the backend behind it, for the caller its
    token authenticates as: the same state, the same rows. *)
Lemma remote_aggregate_is_local serviceToken rc rc' entity spec :
  auth (Some (outgoing_header rc serviceToken)) = inr rc' -> small_limit spec -> NoDup (as_Filters spec).*1 ->
  exists filters, filters ≡ₚ as_Filters spec /\
    same_call (Forall carried_row) (map row_read) no_page (aggregate entity (with_spec_filters spec filters) rc')
      (grpc_Aggregate serviceToken Up entity spec rc).
Proof.
  intros Hauth Hl Hnd. exists (range_filters (map_to_list (filters_map (as_Filters spec)))). split.
  - rewrite range_perm. unfold filters_map. by rewrite map_to_list_to_map.
  - assert (Hs : StructToValue (ValueToStruct (spec_json spec)) (fun doc => decode_spec range_filters (Some doc))
                 = Some (with_spec_filters spec (range_filters (map_to_list (filters_map (as_Filters spec)))))).
    { rewrite <- decode_spec_normal by done. apply struct_roundtrip, (spec_exact spec Hl). }
    unfold grpc_Aggregate. destruct (ValueToStruct (spec_json spec)) as [st|] eqn:Ev; [|discriminate Ev].
    apply rpc_same; [|intros d p; apply rows_back]. cbn [aq_EntityName aq_Spec].
    unfold authenticated, header_for. rewrite Hauth. cbn [rbind request_spec]. by rewrite Hs.
Qed.
End Aggregates.

(** A sum beyond 2^53 is another number for a caller over gRPC. *)
Lemma large_sums_rounded :
  row_read (JObj [("sum", JNum "9007199254740993")]) = JObj [("sum", JNum "9007199254740992")].
Proof. vm_compute. reflexivity. Qed.
