(* ===== verification/MetadataDocs.v ===== *)
(** The documents of the metadata (src/go/metadata/entity.go, registry.go, compiler.go,
    openapi.go): entities as JSON, the summaries the registry gives with the hash of
    their content, and the OpenAPI document that describes them.

    Whether the empty slices of a definition are nil is an argument: the encoder writes
    null for a nil slice. SHA-256 is an argument of the hash. *)
From Stdlib Require Import SpecFloat.
From S2P Require Import Prelude GoStrings GoText Json Floats Numbers Condition Context Uuid Evaluate Snapshot PermissionService PolicyStore Metadata Schema Router Payload Workflow AuditTrail Sql ConditionSql Jql Planner Records Times Crud CrudOutcomes CrudProps CrudState CrudReads Aggregate Authn Cron Outbound Wire.

Open Scope string_scope.
Open Scope list_scope.

(** ** Entities as JSON *)

(** A member of a struct, one that is left out when empty, and the object of both. *)
Definition member_of (key : string) (j : result error json) : result error (list (string * json)) := let! j := j in Ok [(key, j)].
Definition omit_nil {A} (key : string) (o : option A) (encode : A -> result error json) : result error (list (string * json)) :=
  match o with None => Ok [] | Some a => member_of key (encode a) end.
Definition struct_json (members : list (result error (list (string * json)))) : result error json :=
  let! ms := mapR (fun m => m) members in Ok (JObj (concat ms)).

Definition text_json (s : string) : result error json := Ok (JStr s).
Definition bool_json (b : bool) : result error json := Ok (JBool b).
Definition uint_json (n : N) : result error json := Ok (JNum (FormatInt (Z.of_N n))).

(** A float64 that is no number is an error of the encoder. *)
Definition float_json (f : float64) : result error json :=
  match f with
  | S754_zero _ | S754_finite _ _ _ => Ok (JNum (marshal_float f))
  | _ => Err "json: unsupported value"
  end.

Definition omit_empty {A} (key : string) (l : list A) (encode : list A -> result error json) : result error (list (string * json)) :=
  match l with [] => Ok [] | l => member_of key (encode l) end.
Definition omit_text (key s : string) : result error (list (string * json)) :=
  if String.eqb s "" then Ok [] else member_of key (text_json s).

Section Documents.
Variable nil_slices : bool.

Definition slice_json {A} (encode : A -> result error json) (l : list A) : result error json :=
  match l with
  | [] => Ok (if nil_slices then JNull else JArr [])
  | l => let! js := mapR encode l in Ok (JArr js)
  end.
Definition texts_json : list string -> result error json := slice_json text_json.

Definition computed_json (c : ComputedSpec) : result error json :=
  struct_json [member_of "expression" (text_json (cs_Expression c)); member_of "dependsOn" (texts_json (cs_DependsOn c))].

Definition field_json (f : EntityField) : result error json :=
  struct_json
    [member_of "name" (text_json (f_Name f)); member_of "label" (text_json (f_Label f)); member_of "kind" (text_json (f_Kind f));
     omit_nil "required" (f_Required f) bool_json; omit_nil "indexed" (f_Indexed f) bool_json; omit_nil "unique" (f_Unique f) bool_json;
     omit_nil "uniqueScope" (f_UniqueScope f) text_json; omit_empty "enumValues" (default [] (f_EnumValues f)) texts_json;
     omit_nil "refEntity" (f_RefEntity f) text_json; omit_nil "refDisplayField" (f_RefDisplayField f) text_json;
     omit_nil "searchable" (f_Searchable f) bool_json; omit_nil "searchMode" (f_SearchMode f) text_json;
     omit_nil "sortable" (f_Sortable f) bool_json; omit_nil "storage" (f_Storage f) text_json;
     omit_nil "min" (f_Min f) float_json; omit_nil "max" (f_Max f) float_json;
     omit_nil "minLength" (f_MinLength f) uint_json; omit_nil "maxLength" (f_MaxLength f) uint_json;
     omit_nil "computed" (f_Computed f) computed_json; omit_nil "system" (f_System f) bool_json].

Definition list_view_json (v : EntityListView) : result error json :=
  struct_json
    [member_of "name" (text_json (lv_Name v)); member_of "label" (text_json (lv_Label v)); member_of "fields" (texts_json (lv_Fields v));
     member_of "filters" (texts_json (lv_Filters v)); omit_empty "requiredFields" (lv_RequiredFields v) texts_json;
     omit_nil "defaultSort" (lv_DefaultSort v) text_json; member_of "maxLimit" (uint_json (lv_MaxLimit v))].

(** The map of a transition is left out when it is empty. *)
Definition set_fields_json (m : gmap string PolicyValue) : result error (list (string * json)) :=
  omit_empty "setFields" (sorted_members m) (fun l => Ok (JObj (map (fun kv => (kv.1, PolicyValue_MarshalJSON kv.2)) l))).

Definition transition_json (t : WorkflowTransition) : result error json :=
  struct_json
    [member_of "action" (text_json (t_Action t)); member_of "from" (text_json (t_From t)); member_of "to" (text_json (t_To t));
     member_of "label" (text_json (t_Label t)); omit_nil "guard" (t_Guard t) PolicyCondition_MarshalJSON;
     omit_nil "validator" (t_Validator t) PolicyCondition_MarshalJSON; set_fields_json (t_SetFields t);
     omit_text "guardMessage" (t_GuardMessage t); omit_text "validatorMessage" (t_ValidatorMessage t)].

Definition workflow_json (w : EntityWorkflow) : result error json :=
  struct_json
    [member_of "stateField" (text_json (w_StateField w)); member_of "initialState" (text_json (w_InitialState w));
     member_of "terminalStates" (texts_json (w_TerminalStates w)); member_of "transitions" (slice_json transition_json (w_Transitions w))].

Definition related_view_json (v : RelatedView) : result error json :=
  struct_json
    [member_of "name" (text_json (rv_Name v)); member_of "label" (text_json (rv_Label v)); member_of "entity" (text_json (rv_Entity v));
     member_of "filterField" (text_json (rv_FilterField v)); member_of "fields" (texts_json (rv_Fields v));
     omit_nil "limit" (rv_Limit v) uint_json].

Definition hint_json (h : FieldDisplayHint) : result error json :=
  struct_json
    [member_of "field" (text_json (fh_Field h)); omit_nil "resolveVia" (fh_ResolveVia h) text_json;
     omit_empty "enumTones" (sorted_members (fh_EnumTones h)) (fun l => Ok (JObj (map (fun kv => (kv.1, JStr kv.2)) l)))].

Definition constraint_json (c : EntityUniqueConstraint) : result error json :=
  struct_json [member_of "fields" (texts_json (uc_Fields c)); omit_nil "scope" (uc_Scope c) text_json].

Definition audit_json (a : EntityAuditConfig) : result error json :=
  struct_json [member_of "enabled" (bool_json (ac_Enabled a)); omit_empty "redactedFields" (ac_RedactedFields a) texts_json].

(** ** The content hash (compiler.go) and the summaries (registry.go) *)

Variable sha256_hex : string -> string.

Definition hashShape (e : EntityDefinition) : result error json :=
  struct_json
    [member_of "label" (text_json (e_Label e)); member_of "fields" (slice_json field_json (e_Fields e));
     member_of "listViews" (slice_json list_view_json (e_ListViews e)); omit_nil "workflow" (e_Workflow e) workflow_json].

Definition Hash (e : EntityDefinition) : result error string := let! doc := hashShape e in Ok (sha256_hex (json_text doc)).

Record EntitySummary : Type := mkEntitySummary {
  es_Entity : EntityDefinition;
  es_RelatedViews : list RelatedView;
  es_FieldDisplayHints : list FieldDisplayHint;
  es_Version : string
}.

(** An entity that cannot be encoded is a panic. *)
Definition toSummary (r : MetadataRegistry) (e : EntityDefinition) : result error EntitySummary :=
  match Hash e with
  | Ok version => Ok (mkEntitySummary e (GetRelatedViews r (e_Name e)) (GetFieldDisplayHints r (e_Name e)) version)
  | _ => Panic
  end.

Definition GetEntityMetadata (r : MetadataRegistry) (name : string) : result error (option EntitySummary) :=
  match entities r !! name with
  | None => Ok None
  | Some e => let! s := toSummary r e in Ok (Some s)
  end.

Definition ListEntities (r : MetadataRegistry) : result error (list EntitySummary) := mapR (toSummary r) (map_to_list (entities r)).*2.

Definition summary_json (s : EntitySummary) : result error json :=
  let e := es_Entity s in
  struct_json
    [member_of "name" (text_json (e_Name e)); member_of "label" (text_json (e_Label e));
     member_of "fields" (slice_json field_json (e_Fields e)); member_of "listViews" (slice_json list_view_json (e_ListViews e));
     omit_nil "workflow" (e_Workflow e) workflow_json; omit_empty "relatedViews" (es_RelatedViews s) (slice_json related_view_json);
     omit_empty "fieldDisplayHints" (es_FieldDisplayHints s) (slice_json hint_json);
     omit_empty "uniqueConstraints" (e_UniqueConstraints e) (slice_json constraint_json);
     omit_nil "audit" (e_Audit e) audit_json; member_of "version" (text_json (es_Version s))].
End Documents.

(** ** The schemas (openapi.go) *)

(** A map literal, encoded in the order of its keys. *)
Definition obj (l : list (string * json)) : json := any_map l.
Definition typed (t : string) : json := obj [("type", JStr t)].
Definition one_of (l : list string) : json := obj [("type", JStr "string"); ("enum", strings_json l)].
Definition array_of (items : json) : json := obj [("type", JStr "array"); ("items", items)].
Definition object_of (properties : list (string * json)) (required : list string) : json :=
  obj [("type", JStr "object"); ("properties", obj properties); ("required", strings_json required)].

Definition computedSpecJSONSchema : json :=
  object_of [("expression", typed "string"); ("dependsOn", array_of (typed "string"))] ["expression"; "dependsOn"].

Definition documented_kinds : list string :=
  ["id"; "string"; "number"; "boolean"; "date"; "datetime"; "money"; "enum"; "reference"; "json"].

Definition EntityFieldJSONSchema : json :=
  object_of
    [("name", typed "string"); ("label", typed "string"); ("kind", one_of documented_kinds);
     ("required", typed "boolean"); ("indexed", typed "boolean"); ("unique", typed "boolean");
     ("uniqueScope", one_of ["tenant"; "global"]); ("system", typed "boolean"); ("enumValues", array_of (typed "string"));
     ("refEntity", typed "string"); ("refDisplayField", typed "string"); ("searchable", typed "boolean");
     ("searchMode", one_of ["substring"; "fts"]); ("sortable", typed "boolean"); ("storage", one_of ["native"; "column"]);
     ("min", typed "number"); ("max", typed "number"); ("minLength", typed "number"); ("maxLength", typed "number");
     ("computed", computedSpecJSONSchema)]
    ["name"; "label"; "kind"].

Definition EntityListViewJSONSchema : json :=
  object_of
    [("name", typed "string"); ("label", typed "string"); ("fields", array_of (typed "string")); ("filters", array_of (typed "string"));
     ("requiredFields", array_of (typed "string")); ("defaultSort", typed "string"); ("maxLimit", typed "number")]
    ["name"; "label"; "fields"; "filters"; "maxLimit"].

Definition workflowTransitionJSONSchema : json :=
  object_of
    [("action", typed "string"); ("from", typed "string"); ("to", typed "string"); ("label", typed "string");
     ("guard", obj []); ("validator", obj []); ("setFields", typed "object"); ("guardMessage", typed "string");
     ("validatorMessage", typed "string")]
    ["action"; "from"; "to"; "label"].

Definition RelatedViewJSONSchema : json :=
  object_of
    [("name", typed "string"); ("label", typed "string"); ("entity", typed "string"); ("filterField", typed "string");
     ("fields", array_of (typed "string")); ("limit", typed "number")]
    ["name"; "label"; "entity"; "filterField"; "fields"].

Definition FieldDisplayHintJSONSchema : json :=
  object_of
    [("field", typed "string"); ("resolveVia", typed "string");
     ("enumTones", obj [("type", JStr "object"); ("additionalProperties", typed "string")])]
    ["field"].

Definition EntityWorkflowJSONSchema : json :=
  object_of
    [("stateField", typed "string"); ("initialState", typed "string"); ("terminalStates", array_of (typed "string"));
     ("transitions", array_of workflowTransitionJSONSchema)]
    ["stateField"; "initialState"; "terminalStates"; "transitions"].

Definition entityAuditConfigJSONSchema : json :=
  object_of [("enabled", typed "boolean"); ("redactedFields", array_of (typed "string"))] ["enabled"].

Definition entitySummaryJSONSchema : json :=
  object_of
    [("name", typed "string"); ("label", typed "string"); ("fields", array_of EntityFieldJSONSchema);
     ("listViews", array_of EntityListViewJSONSchema); ("workflow", EntityWorkflowJSONSchema);
     ("relatedViews", array_of RelatedViewJSONSchema); ("fieldDisplayHints", array_of FieldDisplayHintJSONSchema);
     ("audit", entityAuditConfigJSONSchema); ("version", typed "string")]
    ["name"; "label"; "fields"; "listViews"; "version"].

Definition summary_ref : json := obj [("$ref", JStr "#/components/schemas/EntitySummary")].

(** A path with one GET, whose body is an object with data. *)
Definition get_path (summary : string) (data : json) (others : list (string * json)) : json :=
  obj [("get", obj [("summary", JStr summary);
    ("responses", obj (("200", obj [("description", JStr "OK");
       ("content", obj [("application/json", obj [("schema", obj [("type", JStr "object"); ("properties", obj [("data", data)])])])])]) :: others))])].

Definition openapi_paths : list (string * json) :=
  [("/metadata/entities", get_path "List entity metadata" (array_of summary_ref) []);
   ("/metadata/entities/{entity}", get_path "Get one entity's metadata" summary_ref [("404", obj [("description", JStr "Not found")])]);
   ("/metadata/actions", get_path "List the fixed set of actions a policy can grant" (array_of (typed "string")) [])].

Definition InsertOpenAPIPath (paths : list (string * json)) (path : string) (item : json) : list (string * json) := assoc_insert path item paths.

Definition GenerateOpenAPIDocument : json :=
  obj [("openapi", JStr "3.1.0"); ("info", obj [("title", JStr "Metap API"); ("version", JStr "1.0.0")]);
       ("paths", obj openapi_paths);
       ("components", obj [("schemas", obj [("EntitySummary", entitySummaryJSONSchema)])])].

(** mountMetadata: the one route of the metadata. *)
Definition mountMetadata : list (string * string) := [("GET", "/metadata/openapi.json")].

(** ** Theorems

    What the metadata's documents promise: the summary of an entity is a document of the
    published schema. Where this fails, and where the hash cannot be computed, is shown
    with entities the validation accepts. *)

(** ** Documents of a JSON schema *)

Definition type_of (j : json) : string :=
  match j with
  | JNull => "null" | JBool _ => "boolean" | JNum _ => "number" | JStr _ => "string" | JArr _ => "array" | JObj _ => "object"
  end.

Definition type_ok (t : option json) (doc : json) : bool :=
  match t with Some (JStr t) => String.eqb (type_of doc) t | _ => true end.
Definition enum_ok (e : option json) (doc : json) : bool :=
  match e, doc with Some (JArr l), JStr s => existsb (fun j => match j with JStr x => String.eqb x s | _ => false end) l | _, _ => true end.
Definition has_key (members : list (string * json)) (k : string) : bool := existsb (fun kv => String.eqb kv.1 k) members.
Definition required_ok (r : option json) (members : list (string * json)) : bool :=
  match r with Some (JArr l) => forallb (fun j => match j with JStr k => has_key members k | _ => true end) l | _ => true end.
Definition members_of (o : option json) : list (string * json) := match o with Some (JObj l) => l | _ => [] end.

(** The keywords the schemas use; [fuel] bounds the depth of the schema. *)
Fixpoint conforms (fuel : nat) (schema doc : json) : bool :=
  match fuel with
  | O => false
  | S n =>
    let s := members_of (Some schema) in
    type_ok (any_member s "type") doc && enum_ok (any_member s "enum") doc &&
    match doc with
    | JObj members =>
      required_ok (any_member s "required") members &&
      forallb (fun kv => match any_member (members_of (any_member s "properties")) kv.1, any_member s "additionalProperties" with
                         | Some sub, _ | None, Some sub => conforms n sub kv.2
                         | None, None => true
                         end) members
    | JArr items => match any_member s "items" with Some sub => forallb (conforms n sub) items | None => true end
    | _ => true
    end
  end.

(** The summary's schema nests six deep. *)
Definition schema_depth : nat := 6.
Definition summary_conforms (doc : json) : bool := conforms schema_depth entitySummaryJSONSchema doc.

(** ** Structs conform member by member *)

Definition member_ok (n : nat) (properties : list (string * json)) (kv : string * json) : bool :=
  match any_member properties kv.1 with Some sub => conforms n sub kv.2 | None => true end.

Lemma struct_json_ok parts j :
  struct_json parts = Ok j -> exists ms, Forall2 (fun p m => p = Ok m) parts ms /\ j = JObj (concat ms).
Proof. unfold struct_json. intros (ms & Hm & [= <-])%rbind_ok. apply mapR_ok in Hm. by exists ms. Qed.

Lemma object_of_members properties required :
  members_of (Some (object_of properties required)) = [("properties", obj properties); ("required", strings_json required); ("type", JStr "object")].
Proof. reflexivity. Qed.

(** A part that is there whatever the value is, and the parts that fit. *)
Definition part_has (k : string) (p : result error (list (string * json))) : Prop := forall m, p = Ok m -> has_key m k = true.
Definition part_fits (n : nat) (properties : list (string * json)) (p : result error (list (string * json))) : Prop :=
  forall m, p = Ok m -> forallb (member_ok n properties) m = true.

Lemma struct_conforms n properties required parts j :
  struct_json parts = Ok j ->
  Forall (part_fits n (members_of (Some (obj properties)))) parts ->
  Forall (fun k => Exists (part_has k) parts) required ->
  conforms (S n) (object_of properties required) j = true.
Proof.
  intros (ms & Hms & ->)%struct_json_ok Hfit Hreq. cbn [conforms]. rewrite object_of_members.
  change (any_member _ "type") with (Some (JStr "object")). change (any_member _ "enum") with (@None json).
  change (any_member _ "required") with (Some (strings_json required)). change (any_member _ "additionalProperties") with (@None json).
  cbn [any_member]. change (any_member [("properties", obj properties); ("required", strings_json required); ("type", JStr "object")] "properties") with (Some (obj properties)).
  cbn [type_ok enum_ok type_of]. change (String.eqb "object" "object") with true. cbn [andb]. apply andb_true_iff. split.
  - unfold required_ok, strings_json. rewrite forallb_forall. intros x (k & <- & Hk)%in_map_iff. rewrite <- list_elem_of_In in Hk.
    rewrite Forall_forall in Hreq. specialize (Hreq k Hk). clear Hfit. unfold has_key.
    induction Hms as [|p m parts ms -> Hms IH]; [by apply Exists_nil in Hreq|]. cbn [concat]. rewrite existsb_app.
    apply Exists_cons in Hreq as [Hp|Hp]; [|by rewrite IH, orb_true_r].
    specialize (Hp m eq_refl). unfold has_key in Hp. by rewrite Hp.
  - clear Hreq. induction Hms as [|p m parts ms -> Hms IH]; [done|]. apply Forall_cons in Hfit as [Hp Hfit]. cbn [concat]. rewrite forallb_app, IH by done.
    rewrite andb_true_r. exact (Hp m eq_refl).
Qed.

(** ** The documents of the parts *)

Lemma member_fits n properties k (r : result error json) sub :
  any_member properties k = Some sub -> (forall j, r = Ok j -> conforms n sub j = true) -> part_fits n properties (member_of k r).
Proof. intros Hk Hr m (j & Hj & [= <-])%rbind_ok. cbn. unfold member_ok. cbn. by rewrite Hk, Hr. Qed.

Lemma member_has k (r : result error json) : part_has k (member_of k r).
Proof. intros m (j & Hj & [= <-])%rbind_ok. cbn. by rewrite String.eqb_refl. Qed.

Lemma omit_nil_fits {A} n properties k (o : option A) encode sub :
  any_member properties k = Some sub -> (forall a j, o = Some a -> encode a = Ok j -> conforms n sub j = true) ->
  part_fits n properties (omit_nil k o encode).
Proof. intros Hk Hr. destruct o as [a|]; [|by intros m [= <-]]. eapply member_fits; eauto. Qed.

Lemma omit_empty_fits {A} n properties k (l : list A) encode sub :
  any_member properties k = Some sub -> (forall j, l <> [] -> encode l = Ok j -> conforms n sub j = true) ->
  part_fits n properties (omit_empty k l encode).
Proof. intros Hk Hr. destruct l as [|a l]; [by intros m [= <-]|]. eapply member_fits; [done|]. intros j. by apply Hr. Qed.

Lemma omit_text_fits n properties k s :
  any_member properties k = Some (typed "string") -> part_fits (S n) properties (omit_text k s).
Proof. intros Hk. unfold omit_text. destruct (String.eqb s ""); [by intros m [= <-]|]. eapply member_fits; [done|]. by intros j [= <-]. Qed.

Lemma unlisted_fits {A} n properties k (l : list A) encode : any_member properties k = None -> part_fits n properties (omit_empty k l encode).
Proof.
  intros Hk. destruct l as [|a l]; [by intros m [= <-]|]. intros m (j & _ & [= <-])%rbind_ok. cbn. unfold member_ok. cbn. by rewrite Hk.
Qed.

Lemma array_conforms {A} n items (encode : A -> result error json) l j :
  (forall a j, a ∈ l -> encode a = Ok j -> conforms n items j = true) -> slice_json false encode l = Ok j ->
  conforms (S n) (array_of items) j = true.
Proof.
  intros He. unfold slice_json. destruct l as [|a l]; [by intros [= <-]|]. intros (js & Hjs & [= <-])%rbind_ok. apply mapR_ok in Hjs.
  cbn [conforms]. change (any_member (members_of (Some (array_of items))) "items") with (Some items).
  change (type_ok _ _ && enum_ok _ _) with true. cbn [andb]. apply forallb_forall. intros x Hx.
  apply list_elem_of_In in Hx. apply list_elem_of_lookup in Hx as [i Hi].
  destruct (Forall2_lookup_r _ _ _ _ _ Hjs Hi) as (b & Hb & Hx). eapply He; [|exact Hx]. by eapply list_elem_of_lookup_2.
Qed.

Lemma texts_conform n l j : texts_json false l = Ok j -> conforms (S (S n)) (array_of (typed "string")) j = true.
Proof. apply array_conforms. by intros a j' _ [= <-]. Qed.

Lemma one_of_conforms n l s : s ∈ l -> conforms (S n) (one_of l) (JStr s) = true.
Proof.
  intros Hs. cbn [conforms]. change (any_member (members_of (Some (one_of l))) "enum") with (Some (strings_json l)).
  change (type_ok _ _) with true. cbn [andb]. rewrite andb_true_r. unfold enum_ok, strings_json. apply existsb_exists.
  exists (JStr s). split; [|apply String.eqb_refl]. apply in_map. by rewrite <- list_elem_of_In.
Qed.

Create HintDb schema.
#[export] Hint Resolve texts_conform one_of_conforms member_has : schema.

(** A member of a plain type, of texts, one that may be absent, one of a slice. *)
Ltac plain := eapply member_fits; [reflexivity|]; intros ? [= <-]; reflexivity.
Ltac texts := eapply member_fits; [reflexivity|]; intros ?; apply texts_conform.
Ltac maybe := eapply omit_nil_fits; [reflexivity|]; intros ? ? ? [= <-]; first [reflexivity | eauto with schema].
Ltac listed := eapply omit_empty_fits; [reflexivity|]; intros ? _; first [apply texts_conform | idtac].
Ltac required := repeat apply Forall_cons_2; try apply Forall_nil_2; (repeat first [apply Exists_cons_hd; apply member_has | apply Exists_cons_tl]).
Ltac parts := repeat apply Forall_cons_2; try apply Forall_nil_2.

Lemma computed_conforms n c j : computed_json false c = Ok j -> conforms (3 + n) computedSpecJSONSchema j = true.
Proof. intros Hj. eapply struct_conforms; [exact Hj| |required]. parts; [plain|texts]. Qed.

(** The texts of a field that the schema lists. *)
Record documented_field (f : EntityField) : Prop := {
  df_kind : f_Kind f ∈ documented_kinds;
  df_scope : forall s, f_UniqueScope f = Some s -> s ∈ ["tenant"; "global"];
  df_search : forall s, f_SearchMode f = Some s -> s ∈ ["substring"; "fts"];
  df_storage : forall s, f_Storage f = Some s -> s ∈ ["native"; "column"]
}.

Lemma float_conforms n f j : float_json f = Ok j -> conforms (S n) (typed "number") j = true.
Proof. by destruct f; intros [= <-]. Qed.

Lemma field_conforms n f j : documented_field f -> field_json false f = Ok j -> conforms (4 + n) EntityFieldJSONSchema j = true.
Proof.
  intros [Hk Hu Hs Ht] Hj. eapply struct_conforms; [exact Hj| |required]. parts; try plain; try maybe; try listed.
  all: try (eapply omit_nil_fits; [reflexivity|]; intros ? ?; intros; by eapply float_conforms).
  - eapply member_fits; [reflexivity|]. intros ? [= <-]. by apply one_of_conforms.
  - eapply omit_nil_fits; [reflexivity|]. intros ? ? _. apply computed_conforms.
Qed.

Lemma list_view_conforms n v j : list_view_json false v = Ok j -> conforms (3 + n) EntityListViewJSONSchema j = true.
Proof. intros Hj. eapply struct_conforms; [exact Hj| |required]. parts; [plain|plain|texts|texts|listed|maybe|plain]. Qed.

Lemma anything_conforms n j : conforms (S n) (obj []) j = true.
Proof. destruct j as [| | | | |l]; try done. cbn. by induction l. Qed.

Lemma transition_conforms n t j : transition_json t = Ok j -> conforms (3 + n) workflowTransitionJSONSchema j = true.
Proof.
  intros Hj. eapply struct_conforms; [exact Hj| |required]. parts; try plain; try (by apply omit_text_fits).
  - eapply omit_nil_fits; [reflexivity|]. intros. apply anything_conforms.
  - eapply omit_nil_fits; [reflexivity|]. intros. apply anything_conforms.
  - eapply omit_empty_fits; [reflexivity|]. intros ? _ [= <-]. cbn. apply forallb_forall. done.
Qed.

Lemma workflow_conforms n w j : workflow_json false w = Ok j -> conforms (5 + n) EntityWorkflowJSONSchema j = true.
Proof.
  intros Hj. eapply struct_conforms; [exact Hj| |required]. parts; [plain|plain|texts|].
  eapply member_fits; [reflexivity|]. intros ? Hs. eapply array_conforms; [|exact Hs]. intros t j' _. apply transition_conforms.
Qed.

Lemma related_view_conforms n v j : related_view_json false v = Ok j -> conforms (3 + n) RelatedViewJSONSchema j = true.
Proof. intros Hj. eapply struct_conforms; [exact Hj| |required]. parts; [plain|plain|plain|plain|texts|maybe]. Qed.

Lemma hint_conforms n h j : hint_json h = Ok j -> conforms (3 + n) FieldDisplayHintJSONSchema j = true.
Proof.
  intros Hj. eapply struct_conforms; [exact Hj| |required]. parts; [plain|maybe|].
  eapply omit_empty_fits; [reflexivity|]. intros ? _ [= <-]. cbn. by induction (sorted_members (fh_EnumTones h)).
Qed.

Lemma audit_conforms n a j : audit_json false a = Ok j -> conforms (3 + n) entityAuditConfigJSONSchema j = true.
Proof. intros Hj. eapply struct_conforms; [exact Hj| |required]. parts; [plain|listed]. Qed.

Section Summaries.
Variable sha256_hex : string -> string.

(** What the registry says of an entity is a document of the published schema, when no
    slice of the definition is nil and its fields use documented texts. *)
Lemma summaries_conform r e s j :
  Forall documented_field (e_Fields e) -> toSummary false sha256_hex r e = Ok s -> summary_json false s = Ok j -> summary_conforms j = true.
Proof.
  intros Hf Hs Hj. unfold toSummary in Hs. destruct (Hash false sha256_hex e) as [v| |]; [|done..]. injection Hs as <-.
  unfold summary_conforms, schema_depth. eapply struct_conforms; [exact Hj| |required]. parts; [plain|plain| | | | | | | |plain].
  - eapply member_fits; [reflexivity|]. intros ? Hs. eapply array_conforms; [|exact Hs]. intros f j' Hin. apply (field_conforms 0). rewrite Forall_forall in Hf. by apply Hf.
  - eapply member_fits; [reflexivity|]. intros ? Hs. eapply array_conforms; [|exact Hs]. intros f j' _. apply (list_view_conforms 1).
  - eapply omit_nil_fits; [reflexivity|]. intros w ? _. apply (workflow_conforms 0).
  - eapply omit_empty_fits; [reflexivity|]. intros ? _ Hs. eapply array_conforms; [|exact Hs]. intros f j' _. apply (related_view_conforms 1).
  - eapply omit_empty_fits; [reflexivity|]. intros ? _ Hs. eapply array_conforms; [|exact Hs]. intros f j' _. apply (hint_conforms 1).
  - by apply unlisted_fits.
  - eapply omit_nil_fits; [reflexivity|]. intros w ? _. apply (audit_conforms 2).
Qed.
End Summaries.

(** ** Where they do not *)

Definition plain_field (name kind : string) : EntityField := field_of_kind name kind.
Definition plain_entity (fields : list EntityField) (w : option EntityWorkflow) : EntityDefinition :=
  mkEntity "shop.thing" "Thing" "shop.things" fields [] w [] None.
Definition summary_of_entity (nil_slices : bool) (e : EntityDefinition) : result error json :=
  let! s := toSummary nil_slices (fun s => s) NewMetadataRegistry e in summary_json nil_slices s.

(** An entity declared without list views has none of them in its summary, but null. *)
Lemma nil_slices_do_not_conform :
  Validate (plain_entity [plain_field "title" KindString] None) = None /\
  exists j, summary_of_entity true (plain_entity [plain_field "title" KindString] None) = Ok j /\ summary_conforms j = false.
Proof. split; [vm_compute; reflexivity|]. eexists. split; [vm_compute; reflexivity|]. vm_compute. reflexivity. Qed.

(** The validation knows no unknown kind. *)
Lemma unknown_kind_accepted :
  Validate (plain_entity [plain_field "title" "colour"] None) = None /\
  exists j, summary_of_entity false (plain_entity [plain_field "title" "colour"] None) = Ok j /\ summary_conforms j = false.
Proof. split; [vm_compute; reflexivity|]. eexists. split; [vm_compute; reflexivity|]. vm_compute. reflexivity. Qed.

(** A guard with no variant is accepted, and cannot be encoded: the registry panics when
    it is asked for the entity. *)
Definition empty_guard : PolicyCondition := mkCond "" "" (mkPolicyValue None "" false) false None None.
Definition guarded_entity : EntityDefinition :=
  plain_entity [plain_field "state" KindString]
    (Some (mkWorkflow "state" "new" ["done"] [mkTransition "finish" "new" "done" "Finish" (Some empty_guard) None ∅ "" ""])).

Lemma accepted_entity_panics :
  Validate guarded_entity = None /\
  GetEntityMetadata false (fun s => s) (mkRegistry {[ "shop.thing" := guarded_entity ]} ∅ ∅) "shop.thing" = Panic.
Proof. split; vm_compute; reflexivity. Qed.

(** The paths of the published document are no routes of the server. *)
Lemma documented_paths_not_mounted path : path ∈ openapi_paths.*1 -> ("GET", path) ∉ mountMetadata.
Proof.
  change (openapi_paths.*1) with ["/metadata/entities"; "/metadata/entities/{entity}"; "/metadata/actions"]. unfold mountMetadata.
  rewrite !elem_of_cons, !elem_of_nil. intros [->|[->|[->|[]]]] [[=]|[]].
Qed.
