(* ===== verification/DevTools.v ===== *)
(** The operator's commands (src/go/cmd/dev-tools): users, roles, tenants, hostnames,
    credentials and tokens, on the functions the server uses.

    A command has the arguments of the process and changes the platform (Tenants.v), the
    table of hostnames or the secret stores. It prints, ends with its usage, or fails;
    what connecting and committing report is an argument. *)
From S2P Require Import Prelude GoStrings GoText Json Floats Numbers Condition Context Uuid Evaluate Snapshot PermissionService Users PolicyStore Metadata Schema Router Payload Workflow AuditTrail Sql ConditionSql Jql Planner Records Times Crud CrudOutcomes CrudProps CrudState CrudReads Aggregate Authn Cron Outbound Tenants TenantsProps Boot SecretStores.

Open Scope string_scope.
Open Scope list_scope.

Definition argOr (args : list string) (i : nat) (def : string) : string := default def (args !! i).

(** A command that printed and succeeded, or ended with status 1: its usage, or an error. *)
Inductive outcome : Type := Printed (line : string) | Usage (text : string) | Failed (e : error).

Definition usage (text : string) : outcome := Usage ("Usage: dev-tools " +:+ text).

Section Commands.
Context {UL : UuidLib} `{!UuidBytes} `{!Argon} `{!Jwt} `{!VaultAuth}.
Variable column_fault : UserRow -> option error.
Variable fresh : list UserRow -> uuid.
Variable nil_uuid : uuid.
Variable env : string -> option string.
(** The errors of opening the shared pool, of beginning and of committing. *)
Variable pool_fault begin_fault commit_fault : option error.

Definition parseUUID (s : string) : result error uuid :=
  match uuid_Parse s with Some u => Ok u | None => Err ("invalid UUID " +:+ quote +:+ s +:+ quote) end.

(** connectShared: the variable is required. *)
Definition connectShared : result error unit :=
  let! url := RequireEnv env "DATABASE_URL" in match pool_fault with Some e => Err e | None => Ok tt end.

Definition migrationsDir : string := default "../migrations" (Optional env "MIGRATIONS_DIR").

Definition report (r : result error outcome) : outcome :=
  match r with Ok o => o | Err e => Failed e | Panic => Failed "panic" end.

Definition router_text (f : RouterFailure) : error :=
  match f with RouterError kind name => RouterError_Error kind name | OtherFailure e => e end.

(** ** A tenant's transaction *)

(** routerFor: the registry without a cache before it, and the environment for the
    connection strings. *)
Definition routerFor (p : platform) : Router :=
  mkRouter (Registry_Get (pf_tenants p)) (fun _ => begin_fault) (fun _ => None).

(** Where a transaction runs: the shared database with the schema of the tenant first, or
    the database at the address the environment gives for the reference. *)
Definition tx_path (s : TenantStrategy) : list string :=
  match s with SchemaStrategy name => [name; "metadata"; "control"] | DedicatedDbStrategy _ => ["public"; "metadata"; "control"] end.

Definition tx_database (p : platform) (s : TenantStrategy) : result error (database * (database -> platform)) :=
  match s with
  | SchemaStrategy _ => Ok (pf_shared p, with_shared p)
  | DedicatedDbStrategy ref =>
    match (DbCredentials ref (env : EnvStore)).1 with
    | Ok dsn =>
      match pf_dedicated p !! dsn with
      | Some db => Ok (db, fun db => mkPlatform (pf_tenants p) (pf_shared p) (pf_connections p) (<[dsn := db]> (pf_dedicated p)))
      | None => Err ("failed to open dedicated pool for " +:+ ref +:+ ": connection refused")
      end
    | Err e => Err ("failed to open dedicated pool for " +:+ ref +:+ ": " +:+ e)
    | Panic => Panic
    end
  end.

Definition unresolved (tenantID : uuid) (e : error) : error := "failed to resolve tenant " +:+ uuid_String tenantID +:+ "'s database: " +:+ e.

(** Begin, the body, and the commit: what the body did is kept when all three succeed. *)
Definition in_tenant {A} (tenantID : uuid) (body : list string -> database -> result error (A * database)) (p : platform)
  : result error A * platform :=
  match Begin (routerFor p) tenantID with
  | Err f => (Err (unresolved tenantID (router_text f)), p)
  | Panic => (Panic, p)
  | Ok tx =>
    match tx_database p (tx_strategy tx) with
    | Err e => (Err (unresolved tenantID e), p)
    | Panic => (Panic, p)
    | Ok (db, keep) =>
      match body (tx_path (tx_strategy tx)) db, commit_fault with
      | Ok (a, db), None => (Ok a, keep db)
      | Ok _, Some e => (Err e, p)
      | Err e, _ => (Err e, p)
      | Panic, _ => (Panic, p)
      end
    end
  end.

(** peripherals.AssignRole on the table the search path finds. *)
Definition assign_role (role : string) (path : list string) (tenantID userID : uuid) (db : database) : result error database :=
  match resolve_table (db_catalogue db) path "user_roles" with
  | None => Err missing_relation
  | Some schema =>
    Ok (mkDatabase (db_catalogue db) (db_users db)
      (<[schema := AssignRole (default [] (db_roles db !! schema)) tenantID userID role]> (db_roles db)) (db_auth db))
  end.

(** ** tenant.go *)

Definition command {A} (checks : result error A) (run : A -> platform -> result error outcome * platform) (p : platform) : outcome * platform :=
  match checks with
  | Ok a => let '(r, p') := run a p in (report r, p')
  | Err e => (Failed e, p)
  | Panic => (report Panic, p)
  end.

Definition seedAdmin (args : list string) (p : platform) : outcome * platform :=
  match args with
  | _ :: _ :: tenant :: user :: _ =>
    command (let! _ := connectShared in let! t := parseUUID tenant in let! u := parseUUID user in Ok (t, u))
      (fun '(t, u) p =>
         let '(r, p') := in_tenant t (fun path db => let! db := assign_role "admin" path t u db in Ok (tt, db)) p in
         (let! _ := r in Ok (Printed ("Granted 'admin' role to user " +:+ uuid_String u +:+ " in tenant " +:+ uuid_String t +:+ ".")), p')) p
  | _ => (usage "seed-admin <tenantId> <userId>", p)
  end.

Definition createUser (salt : string) (args : list string) (p : platform) : outcome * platform :=
  match args with
  | _ :: _ :: tenant :: email :: password :: _ =>
    command (let! _ := connectShared in parseUUID tenant)
      (fun t p =>
         let '(r, p') := in_tenant t (fun path db => create_user column_fault fresh salt path t email password db) p in
         (let! user := r in
          Ok (Printed ("Created user " +:+ uuid_String (au_ID user) +:+ " (" +:+ email +:+ ") in tenant " +:+ uuid_String t +:+ ".")), p')) p
  | _ => (usage "create-user <tenantId> <email> <password>", p)
  end.

Definition provisioned_line (id : uuid) (what : string) (pt : ProvisionedTenant) (email : string) : string :=
  "Provisioned tenant " +:+ uuid_String id +:+ " (" +:+ what +:+ "), admin user " +:+ uuid_String (pt_AdminUserID pt) +:+ " (" +:+ email +:+ ").".

(** [migrated] is what connecting to an address and migrating it gives. *)
Definition provisionTenant (f : provision_faults) (now : Z) (salt : string) (migrated : string -> result error database)
    (args : list string) (p : platform) : outcome * platform :=
  match connectShared with
  | Err e => (Failed e, p)
  | Panic => (report Panic, p)
  | Ok _ =>
    let strategy := argOr args 3 "" in
    if String.eqb strategy "schema" then
      match args with
      | _ :: _ :: tenant :: _ :: email :: password :: _ =>
        command (parseUUID tenant)
          (fun t p =>
             let '(r, p') := ProvisionSchemaTenant column_fault fresh f now salt 0 t email password p in
             (let! pt := r in Ok (Printed (provisioned_line t "trial, schema=t_<tenantId>" pt email)), p')) p
      | _ => (usage "provision-tenant <tenantId> schema <adminEmail> <adminPassword>", p)
      end
    else if String.eqb strategy "dedicated_db" then
      match args with
      | _ :: _ :: tenant :: _ :: ref :: url :: email :: password :: _ =>
        command (parseUUID tenant)
          (fun t p =>
             let '(r, p') := ProvisionDedicatedDbTenant column_fault fresh f now salt t ref url email password (migrated url) p in
             (let! pt := r in Ok (Printed (provisioned_line t "paid, dedicated_db" pt email)), p')) p
      | _ => (usage "provision-tenant <tenantId> dedicated_db <dsnSecretRefName> <dedicatedDatabaseUrl> <adminEmail> <adminPassword>", p)
      end
    else (usage "provision-tenant <tenantId> <schema|dedicated_db> ...", p)
  end.

Definition PlatformTenantID : uuid := nil_uuid.

(** Two statements on the shared pool, each by itself; [role_fault] is the error of the
    second. *)
Definition bootstrapPlatformAdmin (salt : string) (role_fault : option error) (args : list string) (p : platform) : outcome * platform :=
  match args with
  | _ :: _ :: email :: password :: _ =>
    command connectShared
      (fun _ p =>
         let path := ["public"; "metadata"; "control"] in
         match create_user column_fault fresh salt path PlatformTenantID email password (pf_shared p) with
         | Err e => (Err e, p)
         | Panic => (Panic, p)
         | Ok (user, db) =>
           let p := with_shared p db in
           match guarded role_fault (assign_role "platform_admin" path PlatformTenantID (au_ID user) db) with
           | Err e => (Err e, p)
           | Panic => (Panic, p)
           | Ok db => (Ok (Printed ("Created platform-admin user " +:+ uuid_String (au_ID user) +:+ " (" +:+ email +:+ ").")), with_shared p db)
           end
         end) p
  | _ => (usage "bootstrap-platform-admin <email> <password>", p)
  end.

Definition setTenantHostname (args : list string) (hosts : gmap string uuid) : outcome * gmap string uuid :=
  match args with
  | _ :: _ :: tenant :: hostname :: _ =>
    match (let! _ := connectShared in parseUUID tenant) with
    | Err e => (Failed e, hosts)
    | Panic => (report Panic, hosts)
    | Ok t =>
      match SetTenantHostname hosts t hostname with
      | None => (Failed (quote +:+ hostname +:+ quote +:+ " is not a usable hostname"), hosts)
      | Some (stored, hosts') =>
        (Printed ("Hostname " +:+ quote +:+ stored +:+ quote +:+ " now resolves to tenant " +:+ uuid_String t +:+ " for GET /public/config."), hosts')
      end
    end
  | _ => (usage "set-tenant-hostname <tenantId> <hostname>", hosts)
  end.

(** ** secrets.go *)

(** The services an operator can reach. *)
Record backends : Type := mkBackends { be_aws : cloud; be_gcp : cloud; be_vault : gmap string (list (string * json)); be_now : Z }.

Definition with_vault (b : backends) (s : VaultStore) : backends := mkBackends (be_aws b) (be_gcp b) (vs_kv s) (be_now b).
Definition with_aws (b : backends) (s : AwsSecretsManagerStore) : backends := mkBackends (aws_service s) (be_gcp b) (be_vault b) (be_now b).
Definition with_gcp (b : backends) (s : GcpSecretManagerStore) : backends := mkBackends (be_aws b) (gcp_service s) (be_vault b) (be_now b).

Definition wrote (ref where_ : string) : outcome := Printed ("Wrote dsn_secret_ref " +:+ quote +:+ ref +:+ quote +:+ " to " +:+ where_ +:+ ".").

(** The end of a command that writes one value. *)
Definition written (r : result error unit) (done : outcome) : outcome := report (let! _ := r in Ok done).

Definition vaultPutDSN (args : list string) (b : backends) : outcome * backends :=
  match args with
  | _ :: _ :: ref :: dsn :: _ =>
    match (let! addr := RequireEnv env "VAULT_ADDR" in let! token := RequireEnv env "VAULT_TOKEN" in Ok (addr, token)) with
    | Ok (addr, token) =>
      let '(r, s) := vault_PutDSN ref dsn (NewVaultStore (be_now b) token (be_vault b)) in
      (written r (wrote ref ("Vault at " +:+ addr)), with_vault b s)
    | Err e => (Failed e, b)
    | Panic => (report Panic, b)
    end
  | _ => (usage "vault-put-dsn <dsnSecretRef> <dsn>", b)
  end.

Definition awsSecretsPutDSN (args : list string) (b : backends) : outcome * backends :=
  match args with
  | _ :: _ :: ref :: dsn :: _ =>
    match (let! region := RequireEnv env "AWS_SECRETS_REGION" in let! _ := RequireEnv env "AWS_SECRETS_ACCESS_KEY" in
           let! _ := RequireEnv env "AWS_SECRETS_SECRET_KEY" in Ok region) with
    | Ok region =>
      let '(r, s) := aws_PutDSN ref dsn (mkAws (be_aws b)) in (written r (wrote ref ("AWS Secrets Manager in region " +:+ region)), with_aws b s)
    | Err e => (Failed e, b)
    | Panic => (report Panic, b)
    end
  | _ => (usage "aws-secrets-put-dsn <dsnSecretRef> <dsn>", b)
  end.

Definition gcpSecretsPutDSN (args : list string) (b : backends) : outcome * backends :=
  match args with
  | _ :: _ :: ref :: dsn :: _ =>
    match RequireEnv env "GCP_SECRETS_PROJECT_ID" with
    | Ok project =>
      let '(r, s) := gcp_PutDSN ref dsn (mkGcp project (be_gcp b)) in (written r (wrote ref ("GCP Secret Manager in project " +:+ project)), with_gcp b s)
    | Err e => (Failed e, b)
    | Panic => (report Panic, b)
    end
  | _ => (usage "gcp-secrets-put-dsn <dsnSecretRef> <dsn>", b)
  end.

(** The chosen store, written to. *)
Definition put_in (store : chosen_store) (ref value : string) (b : backends) : result error unit * backends :=
  match store with
  | UseGcp project => let '(r, s) := PutSecret ref value (mkGcp project (be_gcp b)) in (r, with_gcp b s)
  | UseAws _ => let '(r, s) := PutSecret ref value (mkAws (be_aws b)) in (r, with_aws b s)
  | UseVaultAppRole _ mount roleID secretID =>
    match NewVaultStoreWithAppRole (be_now b) (mkAppRole mount roleID secretID) (be_vault b) with
    | Ok s => let '(r, s') := PutSecret ref value s in (r, with_vault b s')
    | Err e => (Err e, b)
    | Panic => (Panic, b)
    end
  | UseVaultToken _ token => let '(r, s) := PutSecret ref value (NewVaultStore (be_now b) token (be_vault b)) in (r, with_vault b s)
  | UseEnv => let '(r, _) := PutSecret ref value (env : EnvStore) in (r, b)
  end.

Definition putTenantSecret (args : list string) (b : backends) : outcome * backends :=
  match args with
  | _ :: _ :: tenant :: key :: value :: _ =>
    match (let! t := parseUUID tenant in
           let! config := LoadConfig env in
           let! store := BuildSecretStore (SecretStoreConfigFromAppConfig config) in Ok (t, store)) with
    | Ok (t, store) =>
      match put_in store (TenantSecretRef t key) value b with
      | (Ok _, b') => (Printed ("Stored the credential for tenant " +:+ uuid_String t +:+ ", key " +:+ quote +:+ key +:+ quote +:+ "."), b')
      | (Err e, b') => (Failed ("Could not store the credential: " +:+ e), b')
      | (Panic, b') => (report Panic, b')
      end
    | Err e => (Failed e, b)
    | Panic => (report Panic, b)
    end
  | _ => (usage "put-tenant-secret <tenantId> <configKey> <value>", b)
  end.

(** ** keys.go *)

Definition default_tenant : string := "00000000-0000-0000-0000-000000000001".
Definition default_user : string := "00000000-0000-0000-0000-000000000002".

(** [files] is what the path of the key holds. *)
Definition mintToken (files : string -> option string) (now : Z) (jti : string) (args : list string) : outcome :=
  report (let! tenant := parseUUID (argOr args 2 default_tenant) in
          let! user := parseUUID (argOr args 3 default_user) in
          let keyPath := default "keys/dev-jwt-private.pem" (Optional env "AUTH_JWT_PRIVATE_KEY_PATH") in
          match files keyPath with
          | None => Err ("failed to read " +:+ keyPath)
          | Some pem => Ok (Printed (MintJWT pem now jti tenant user 3600))
          end).

(** ** Properties *)

(** A command that fails or only shows its usage has changed nothing, when its work is one
    transaction. *)
Lemma in_tenant_atomic {A} t (body : list string -> database -> result error (A * database)) p r p' :
  in_tenant t body p = (r, p') -> (exists a, r = Ok a) \/ p' = p.
Proof.
  unfold in_tenant. destruct (Begin _ _) as [tx| |]; [|intros [= <- <-]; by right..].
  destruct (tx_database _ _) as [[db keep]| |]; [|intros [= <- <-]; by right..].
  destruct (body _ db) as [[a db']| |], commit_fault; intros [= <- <-]; eauto.
Qed.

Lemma createUser_atomic salt args p : (forall line, (createUser salt args p).1 <> Printed line) -> (createUser salt args p).2 = p.
Proof.
  intros Hn. destruct args as [|a0 [|a1 [|tenant [|email [|password rest]]]]]; try done. unfold createUser, command in *.
  destruct (let! _ := connectShared in parseUUID tenant) as [t| |]; [|done..].
  destruct (in_tenant t _ p) as [r p'] eqn:E. cbn [fst snd] in *. apply in_tenant_atomic in E as [[u ->]|]; [|done]. by destruct (Hn _ eq_refl).
Qed.

Lemma seedAdmin_atomic args p : (forall line, (seedAdmin args p).1 <> Printed line) -> (seedAdmin args p).2 = p.
Proof.
  intros Hn. destruct args as [|a0 [|a1 [|tenant [|user rest]]]]; try done. unfold seedAdmin, command in *.
  destruct (let! _ := connectShared in _) as [[t u]| |]; [|done..].
  destruct (in_tenant t _ p) as [r p'] eqn:E. cbn [fst snd] in *. apply in_tenant_atomic in E as [[x ->]|]; [|done]. by destruct (Hn _ eq_refl).
Qed.

Lemma Begin_schema p t name tx :
  Registry_Get (pf_tenants p) t = Ok (Some (mkRouting StatusActive (SchemaStrategy name))) -> Begin (routerFor p) t = Ok tx ->
  tx_strategy tx = SchemaStrategy name.
Proof.
  intros Hr. unfold Begin, resolve. cbn [routerFor ro_registry]. rewrite Hr. simpl. destruct (ValidateSchemaName name); [done|].
  destruct begin_fault; [done|]. by intros [= <-].
Qed.

Lemma in_tenant_schema {A} p t name (body : list string -> database -> result error (A * database)) a p' :
  Registry_Get (pf_tenants p) t = Ok (Some (mkRouting StatusActive (SchemaStrategy name))) -> in_tenant t body p = (Ok a, p') ->
  exists db, body [name; "metadata"; "control"] (pf_shared p) = Ok (a, db) /\ p' = with_shared p db.
Proof.
  intros Hr. unfold in_tenant. destruct (Begin (routerFor p) t) as [tx| |] eqn:Eb; [|done..]. rewrite (Begin_schema _ _ _ _ Hr Eb). cbn [tx_database tx_path].
  destruct (body _ _) as [[a' db]| |], commit_fault; intros [= <- <-]. by exists db.
Qed.

(** What create-user prints is so: the user of a tenant with a schema can log in. *)
Lemma created_by_command `{!ArgonLaws} salt a0 a1 tenant email password rest p line p' t name :
  createUser salt (a0 :: a1 :: tenant :: email :: password :: rest) p = (Printed line, p') -> uuid_Parse tenant = Some t ->
  Registry_Get (pf_tenants p) t = Ok (Some (mkRouting StatusActive (SchemaStrategy name))) ->
  map_Forall (fun _ => users_ok) (db_users (pf_shared p)) ->
  exists schema u, resolve_table (db_catalogue (pf_shared p)) [name; "metadata"; "control"] "users" = Some schema /\
    VerifyCredentials (default [] (db_users (pf_shared p') !! schema)) email password = Ok (Some u) /\ au_TenantID u = t.
Proof.
  intros Hc Hp Hr Hu. unfold createUser, command, parseUUID in Hc. rewrite Hp in Hc. destruct connectShared as [[]| |]; [|done..]. cbn [rbind] in Hc.
  destruct (in_tenant t _ p) as [[u| |] p1] eqn:E; [|discriminate Hc..]. injection Hc as _ <-.
  destruct (in_tenant_schema _ _ _ _ _ _ Hr E) as (db & Hb & ->). unfold create_user in Hb.
  destruct (resolve_table _ _ "users") as [schema|] eqn:Es; [|done]. exists schema, u.
  destruct (CreateUser _ _ _ _ _ _ _) as [[u' rows]| |] eqn:Ec; [|done..]. injection Hb as <- <-.
  cbn [with_shared pf_shared db_users]. rewrite lookup_insert_eq. cbn [default]. split; [done|].
  assert (Hok : users_ok (default [] (db_users (pf_shared p) !! schema))).
  { destruct (db_users (pf_shared p) !! schema) as [rows0|] eqn:El; [by apply (Hu schema)|]. split; constructor. }
  destruct (created_user_logs_in column_fault fresh _ _ _ _ _ _ _ Hok Ec) as (Hv & Ht & _). done.
Qed.

(** The first administrator of the platform is two statements: after the second failed,
    the command fails whenever it is run again, because the email is taken. *)
Lemma bootstrap_stuck salt salt' e rf a0 a1 email password rest p user db :
  connectShared = Ok tt -> (forall r, column_fault r = None) ->
  create_user column_fault fresh salt ["public"; "metadata"; "control"] PlatformTenantID email password (pf_shared p) = Ok (user, db) ->
  let args := a0 :: a1 :: email :: password :: rest in
  let p1 := (bootstrapPlatformAdmin salt (Some e) args p).2 in
  (bootstrapPlatformAdmin salt (Some e) args p).1 = Failed e /\
  bootstrapPlatformAdmin salt' rf args p1 = (Failed "duplicate key value violates unique constraint", p1).
Proof.
  intros Hs Hcf Hc. cbv zeta. unfold bootstrapPlatformAdmin, command. rewrite Hs, Hc. cbn [guarded fst snd report rbind with_shared pf_shared]. split; [done|].
  unfold create_user in *. destruct (resolve_table (db_catalogue (pf_shared p)) _ "users") as [schema|] eqn:Es; [|done].
  destruct (CreateUser _ _ salt _ _ _ _) as [[u rows]| |] eqn:Ec; [|done..]. injection Hc as <- <-. cbn [db_catalogue db_users]. rewrite Es, lookup_insert_eq.
  unfold CreateUser, insert_user in Ec |- *. rewrite Hcf in Ec |- *. destruct (violates _ _); [done|]. injection Ec as <- <-. cbn [default].
  assert (Hv : forall rows0 x, violates (rows0 ++ [mkUserRow (mkAuthUser (fresh rows0) PlatformTenantID email) (Some (hashPassword salt password)) "local" None])
            (mkUserRow (mkAuthUser x PlatformTenantID email) (Some (hashPassword salt' password)) "local" None) = true).
  { intros rows0 x. unfold violates. rewrite existsb_app. cbn. unfold row_email. cbn. by rewrite String.eqb_refl, orb_true_r. }
  cbn [from_option id]. rewrite Hv. done.
Qed.

(** Where no secret manager is configured, nothing is stored, and the error names the
    variable to set. *)
Lemma env_secret_names_variable a0 a1 tenant key value rest b t c :
  uuid_Parse tenant = Some t -> LoadConfig env = Ok c -> BuildSecretStore (SecretStoreConfigFromAppConfig c) = Ok UseEnv ->
  putTenantSecret (a0 :: a1 :: tenant :: key :: value :: rest) b =
  (Failed ("Could not store the credential: " +:+ env_put_refused (TenantSecretRef t key)), b).
Proof. intros Ht Hc Hb. unfold putTenantSecret, parseUUID. rewrite Ht. cbn [rbind]. rewrite Hc. cbn [rbind]. by rewrite Hb. Qed.
End Commands.
